(* ===== verification/_CoqProject ===== *)
-Q . S2P
Prelude.v
GoStd.v
Chars.v
Strconv.v
Netip.v
GoIO.v
Adapter.v
Streams.v
SetItems.v
AddrItems.v
RuleAction.v
RuleOptions.v
RuleItem.v
RuleMatch.v
RuleSet.v
AdGuard.v
Srs.v
Rules.v
RuleMeaning.v
DnsRules.v
DnsClient.v
Sniffing.v
Ja3.v
TlsFragment.v
Trojan.v
SimpleObfs.v
Sip003.v
V2RayTransports.v
Naive.v
Quic.v
Sniffers.v
Outbound.v
Managers.v
Groups.v
UrlTest.v
FakeIP.v
Bbolt.v
CacheFile.v
RuleSetFiles.v
Geosite.v
Profile.v
Badversion.v
Traffic.v
DialRace.v
Dialer.v
Network.v
ConnManager.v
Direct.v
DnsConn.v
DnsWire.v
DnsHijack.v
LocalDns.v
DnsRouter.v
Route.v
