(* ===== verification/Prelude.v ===== *)
(** * Verification of the routing core of dbox (the sing-box engine under upstream/)

    The engine takes connections from inbounds, finds out where they want to go, matches them against
    rules and sends them through an outbound.  This library models the parts that decide: what the
    rules mean, how the router, the DNS router and the managers use them, and the byte formats they
    read and write.  Sockets, cryptography and third-party packages are outside; where the code calls
    one, the model has an operation of a class, with the documented facts it relies on as laws of the
    class or named hypotheses, and a concrete instance for the examples.

    ** How the parts fit together

    - [Prelude] (this file): errors and results of Go functions ([res]: a value, an error or a panic),
      record update, slices, loops.  [GoStd], [Netip], [GoIO]: the parts of the Go standard library the
      code uses: fixed-width integers, strings, strconv, addresses and prefixes, readers of bytes.
    - [Adapter]: the metadata of a connection (adapter/inbound.go) and the class [ExtLib] of the
      libraries behind it.
    - Rules (route/rule/): [SetItems], [AddrItems] and [RuleItem] are the items, [RuleAction] the
      actions, [RuleOptions] the options of the configuration, [RuleMatch] the matching of default and
      logical rules with its rule cache (rule_abstract.go), [RuleSet] headless rules and local rule
      sets, [Rules] routing rules over shared rule sets, [RuleMeaning] what the options of such a rule
      mean, [DnsRules] DNS rules with their address limits.  A rule tree of each kind is built by its constructor from the options and matched by one
      matcher; [tree_denotes] is the meaning the matcher is proved to compute.
    - Formats: [Srs] (common/srs: rule-set files), [Geosite] (common/geosite and its commands),
      [AdGuard] (common/convertor/adguard), [Ja3] (common/ja3), [Quic] and [Sniffers] (common/sniff),
      [Profile] (the messages of experimental/libbox/profile_import.go), [Badversion]
      (common/badversion and the notes of experimental/deprecated).  [Sniffing] is the driver that runs
      the sniffers over the reads of a connection.  [Chars] and [Strconv] are the text functions and
      number conversions these share.
    - Connections over connections: [Streams] is what a connection reads, in pieces of any length;
      [TlsFragment] (common/tlsfragment), [Trojan] (transport/trojan), [SimpleObfs]
      (transport/simple-obfs), [Sip003] (transport/sip003), [V2RayTransports] (the V2Ray transports) and
      [Naive] (protocol/naive) write and read on it.
    - Managers: [Outbound] (adapter/outbound/manager.go), [Managers] (the managers of inbounds,
      endpoints, services and DNS transports, and the order in which box.go starts everything),
      [Groups] (protocol/group/selector.go, common/interrupt) and [UrlTest]
      (protocol/group/urltest.go, common/urltest).
    - Storage: [Bbolt] is the interface of the database, [CacheFile] (experimental/cachefile) what
      survives a restart, [RuleSetFiles] (route/rule/rule_set_local.go, rule_set_remote.go) the rule
      sets that are loaded from files, downloaded and kept.
    - Dialing: [DialRace] and [Dialer] (common/dialer) open connections, [ConnManager] (route/conn.go)
      copies between them and knows those that are open; [Direct] (protocol/direct) dials without a proxy.
    - Changes of the network: [Network] is the network manager (route/network.go) and the platform of the
      mobile clients that tells it of the default interface (experimental/libbox/monitor.go, service.go).
    - Statistics: [Traffic] is the counters of experimental/v2rayapi, service/ssmapi and
      experimental/clashapi/trafficontrol, over one store that connections and readers share.
    - DNS: [DnsClient] (dns/client.go), [DnsRouter] (dns/router.go), [FakeIP] (dns/transport/fakeip),
      [DnsConn] (the life of a transport and its shared connection, dns/transport/base.go and
      connector.go), [DnsWire] (udp.go, tcp.go, tls.go), [DnsHijack] (route/dns.go and
      protocol/dns: connections that carry queries) and [LocalDns] (the resolver of the machine,
      hosts files and DHCP).
    - [Route] (route/route.go) puts the rules, the sniffers, the DNS router, the fake IP store and the
      outbounds together.

    Interfaces between the parts are classes: [FakeIPStorage] with its laws (implemented by the memory
    storage), [FakeIPStoreI], [OutboundLookup], [DNSClientI], [SelectedStore].

    ** What the theorems show

    - Routing: the rule that is chosen is the first whose meaning holds, after the effects of those
      before it ([Route.matchRule_first]); a connection reaches only the outbound of that rule or the
      default ([routed_outbound]) and reads the bytes that were sniffed, or shows where it does not: with two
      buffers the last comes first ([routed_bytes]); matching ahead agrees with matching on the connection, but for
      the bypasses without an outbound ([prematch_agrees]).
    - Rules: the matcher computes the denotation of the rule ([Rule_meaning], [headless_rule_meaning]);
      a rule that is built from options and started matches exactly when the condition of the
      options holds ([NewDefaultRule_means]); reject has its flood control ([reject_flood_control]).
    - DNS: rule choice with address limits ([matchDNS_first], [no_address_limit_Match]), every query
      ends after one pass over the rules ([Exchange_single_pass]), cached answers are the ones that
      were stored, with the seconds that are left of them ([cached_answer], [Exchange_checked]).
    - Fake IPs: a domain gets one address and an address one domain, until the range has gone round
      ([Store_Create_lookup], [Store_no_early_eviction]), also when goroutines race
      ([Create_linearizable]), and routing puts the domain back ([fakeip_restored]); the cache file is
      a refinement of the memory storage, across restarts ([CacheFile_refines_Memory],
      [restart_keeps_pairs], [cache_ids_apart]).
    - DNS transports: queries that share a socket, a connection or a pool get their own answers in
      every order of steps ([UDP_answers], [TLS_answers], [Connector_shares], [Shutdown_waits]); the
      configuration of the machine is what its file says ([dnsReadConfig_meaning]), and its resolver asks
      that ([tryOneName_asks], [file_Lookup_hosts]); an error of DHCP stays ([dhcp_error_sticks]); the queries of a connection that
      is hijacked get their own answers, in whole frames and datagrams that fit ([hijack_answers],
      [hijacked_packets]).
    - Connections: what one end writes the other reads, whatever the pieces ([stream_delivered],
      [fragments_put_together], [GunConn_delivers], [naive_delivers], [TLSObfs_reads],
      [packets_delivered]).
    - Dialing: races over interfaces and address families end, with one connection and all others closed
      ([interface_race_ends], [network_race_ends]); addresses are tried in order
      ([dial_stream_addresses]); the copies of a connection end together and call its handler once
      ([copies_end], [NewConnection_handler]).
    - Changes of the network: every part that listens is told of a new default interface that the client
      lists as up when it names it ([default_change_resets]), not of one that is up too late ([reset_lost]); the connections are
      never closed ([reset_keeps_connections]); what is started is closed ([started_is_closed]).
    - Statistics are what went over the connections, in every order of transfers, queries and resets
      ([GetStats_counts], [Manager_counts]), and survive a restart ([endpoint_survives]).
    - Rule sets from the network are those of the server's document at the last update, unless a response without a
      tag has come in between ([update_is_fresh], [stale_tag]).
    - Formats: what is written is read back ([Write_Read], [Write_lists], [read_frames_encoded],
      [parse_print], [Compute_hello], [ProfileContent_roundtrip], [Parse_String]); reading never runs on ([Read_total]); the sniffers do not depend on how the
      bytes are cut ([sniff_any_split], [quic_hello]); where a parser can panic is characterised
      ([Compute_panics]).
    - Managers: the start loop ends and respects dependencies ([startOutbounds_order],
      [startOutbounds_complete], [Box_Start_order]); the groups choose what they say they choose and
      close what they must ([Selector_no_stale], [selection_survives], [performUpdateCheck_spec],
      [urlTest_order], [loop_invariant]).

    ** Fuel and bounds

    Loops that are not structural have fuel that is proved to be enough: the start of the outbounds
    [S (length outbounds)] and its diagnosis [S (size byTag)]; a DNS query [S (length rules)]; reading
    a rule-set file [S (length bytes)]; the extensions of a ClientHello [S (length exs)]; the frames of
    a QUIC packet [S (length decrypted)] and the reassembly [S (length fragments)]; a variable-length
    integer ten bytes; a query identifier 65536 tries ([nextAvailableQueryId_spec]).  [AdGuard.FromOptions] answers [None] where the loop of the code does not end.
    Integers have the width of the code and wrap around; an allocation larger than the address space
    is the panic of Go.  Locks are left out where an operation is one step; where goroutines interleave
    the steps are explicit ([Create_linearizable], [urlTest_order], [loop_invariant], [CacheFile],
    [DnsConn], [DnsWire], [DnsHijack], [DialRace], [ConnManager]).

    ** Not modelled

    The protocol inbounds and outbounds other than those above and the libraries of TLS, kernel TLS and QUIC (network and
    cryptography over third-party packages); DNS over HTTPS and QUIC, systemd-resolved and the
    resolvers of Windows and Darwin; the certificates (tables); the JSON form of the options; the HTTP
    and gRPC APIs, the command line and the mobile bindings (glue).  A part that would be stated in
    terms of a socket is modelled up to the call on the socket. *)

From stdpp Require Import base gmap strings list numbers.

(** ** Errors and results of Go code *)

(** An argument of the variadic error constructors: texts and numbers. *)
Inductive arg : Type :=
| AStr (s : string)
| AInt (z : Z).

(** Error values.  [E_New], [E_Cause] and [E_Extend] are the constructors of the exceptions
    package, kept symbolic: the message is the list of its arguments and the wrapped error stays
    visible; [E_CauseErr] is [E_Cause] with an error as its message, and [E_Errors] joins two
    errors.  [RejectedError] and [BypassedError] are the error types of route/rule/rule_action.go,
    [RejectedError_nil] one whose cause is [nil], and [RcodeError] that of dns/rcode.go.  The others
    are sentinel values of the Go standard library. *)
Inductive error : Type :=
| E_New (parts : list arg)
| E_Cause (cause : error) (parts : list arg)
| E_CauseErr (cause message : error)
| E_Extend (cause : error) (parts : list arg)
| E_Errors (first second : error)
| RejectedError (cause : error)
| RejectedError_nil
| BypassedError (cause : error)
| RcodeError (code : Z)
| os_ErrInvalid
| io_EOF
| io_ErrUnexpectedEOF
| E_Ext (name : string).

(** The result of a Go function: a value, a returned error, or a panic. *)
Inductive res (A : Type) : Type :=
| Ok (a : A)
| Err (e : error)
| Panic (parts : list arg).
Arguments Ok {A} a.
Arguments Err {A} e.
Arguments Panic {A} parts.

#[global] Instance arg_eq_dec : EqDecision arg.
Proof. solve_decision. Defined.
#[global] Instance error_eq_dec : EqDecision error.
Proof.
  refine (fix go (x y : error) : Decision (x = y) :=
    match x, y with
    | E_New p, E_New q => cast_if (decide (p = q))
    | E_Cause c p, E_Cause d q => cast_if_and (go c d) (decide (p = q))
    | E_CauseErr c p, E_CauseErr d q => cast_if_and (go c d) (go p q)
    | E_Extend c p, E_Extend d q => cast_if_and (go c d) (decide (p = q))
    | E_Errors c p, E_Errors d q => cast_if_and (go c d) (go p q)
    | RejectedError c, RejectedError d => cast_if (go c d)
    | BypassedError c, BypassedError d => cast_if (go c d)
    | RejectedError_nil, RejectedError_nil => left _
    | RcodeError c, RcodeError d => cast_if (decide (c = d))
    | os_ErrInvalid, os_ErrInvalid => left _
    | io_EOF, io_EOF => left _
    | io_ErrUnexpectedEOF, io_ErrUnexpectedEOF => left _
    | E_Ext n, E_Ext m => cast_if (decide (n = m))
    | _, _ => right _
    end); congruence.
Defined.
#[global] Instance res_eq_dec {A} `{EqDecision A} : EqDecision (res A).
Proof. solve_decision. Defined.

#[global] Instance res_ret : MRet res := λ A a, Ok a.
#[global] Instance res_bind : MBind res := λ A B f r,
  match r with
  | Ok a => f a
  | Err e => Err e
  | Panic p => Panic p
  end.
#[global] Instance res_fmap : FMap res := λ A B f r,
  match r with
  | Ok a => Ok (f a)
  | Err e => Err e
  | Panic p => Panic p
  end.

(** [errors.Is(e, target)] and [errors.As] for one of our error types: search the chain of wrapped
    errors. *)
Fixpoint errors_find (p : error → bool) (e : error) : bool :=
  p e ||
  match e with
  | E_Cause c _ | E_CauseErr c _ | E_Extend c _ | RejectedError c | BypassedError c =>
      errors_find p c
  | E_Errors a b => errors_find p a || errors_find p b
  | _ => false
  end.

Definition errors_Is (e target : error) : bool := errors_find (λ x, bool_decide (x = target)) e.

(** [E.Errors] of several errors. *)
Fixpoint Errors (first : error) (errs : list error) : error :=
  match errs with [] => first | err :: errs => E_Errors first (Errors err errs) end.

(** [E.Errors(a, b)] where the first may be [nil]. *)
Definition errors_join (a : option error) (b : error) : error :=
  match a with None => b | Some a => E_Errors a b end.

(** [return E.Cause(err, ...)]: wrap the error of a sub-computation. *)
Definition wrap_err {A} (parts : list arg) (r : res A) : res A :=
  match r with
  | Err e => Err (E_Cause e parts)
  | _ => r
  end.

(** The same with an error as the message. *)
Definition cause_err {A} (message : error) (r : res A) : res A :=
  match r with
  | Err e => Err (E_CauseErr e message)
  | _ => r
  end.

Definition is_ok {A} (r : res A) : bool :=
  match r with Ok _ => true | _ => false end.

Definition is_panic {A} (r : res A) : bool :=
  match r with Panic _ => true | _ => false end.

(** ** Record update

    [r <| f := v |>] is [r] with its field [f] set to [v].  A record type gives its eta expansion
    as a [Settable] instance; the setter of a field is found by abstracting the projection out of
    it. *)

Class Settable (T : Type) := { mkT : T → T }.
Class Setter {T F : Type} (proj : T → F) := { set_field : (F → F) → T → T }.
#[global] Hint Mode Setter - - + : typeclass_instances.

Ltac solve_setter :=
  match goal with
  | |- @Setter ?T ?F ?proj =>
      let eta := eval hnf in (_ : Settable T) in
      let e := match eta with Build_Settable _ ?e => e end in
      let abs := (eval pattern proj in e) in
      match abs with
      | ?g _ => exact (Build_Setter T F proj (λ u, g (λ r, u (proj r))))
      end
  end.
#[global] Hint Extern 1 (Setter _) => solve_setter : typeclass_instances.

Notation "r <| f := v |>" := (set_field (proj := f) (λ _, v) r)
  (at level 12, left associativity, format "r  <| f  :=  v |>").

(** ** Slices *)

(** [len(l) > 0] *)
Definition nonempty {A} (l : list A) : bool :=
  match l with [] => false | _ => true end.

(** [p == nil] *)
Definition is_nil {A} (o : option A) : bool := match o with None => true | Some _ => false end.

(** Loops over a slice whose body reads and writes a state [S] and which stop at the first
    element that decides the result: the shape of [for ... { if f(x) { return true } } return
    false] and of its dual. *)
Section StatefulLoops.
Context {S A : Type} (f : A → S → bool * S).

Fixpoint any_st (l : list A) (s : S) : bool * S :=
  match l with
  | [] => (false, s)
  | x :: l' =>
      let '(b, s') := f x s in
      if b then (true, s') else any_st l' s'
  end.

Fixpoint all_st (l : list A) (s : S) : bool * S :=
  match l with
  | [] => (true, s)
  | x :: l' =>
      let '(b, s') := f x s in
      if b then all_st l' s' else (false, s')
  end.
End StatefulLoops.

(** [common.All] with a predicate that may panic. *)
Section AllRes.
Context {A : Type} (f : A → res bool).

Fixpoint all_res (l : list A) : res bool :=
  match l with
  | [] => Ok true
  | x :: l' =>
      match f x with
      | Ok true => all_res l'
      | r => r
      end
  end.
End AllRes.

(** A loop that builds a slice of results and stops at the first error, with the loop index. *)
Section MapRes.
Context {A B : Type} (f : nat → A → res B).

Fixpoint mapi_res_from (i : nat) (l : list A) : res (list B) :=
  match l with
  | [] => Ok []
  | x :: l' =>
      y ← f i x;
      ys ← mapi_res_from (S i) l';
      Ok (y :: ys)
  end.
End MapRes.

Definition mapi_res {A B} (f : nat → A → res B) (l : list A) : res (list B) :=
  mapi_res_from f 0 l.

(** *** Filters *)

Lemma filter_none {A} (P : A → Prop) `{!∀ x, Decision (P x)} (l : list A) : (∀ x, x ∈ l → ¬ P x) → filter P l = [].
Proof.
  induction l as [|x l IH]; intros Hl; [done|]. rewrite filter_cons_False by (apply Hl; by left). apply IH. intros y ?. apply Hl. by right.
Qed.

Lemma filter_insert_new {A} (P : A → Prop) `{!∀ x, Decision (P x)} (l : list A) i x y : l !! i = Some x → ¬ P x → P y →
  filter P (<[i := y]> l) ≡ₚ y :: filter P l.
Proof.
  revert i. induction l as [|z l IH]; intros [|i] Hi Hx Hy; [done..| |]; cbn in Hi.
  - injection Hi as ->. change (<[0%nat := y]> (x :: l)) with (y :: l). by rewrite filter_cons_True, filter_cons_False.
  - change (<[S i := y]> (z :: l)) with (z :: <[i := y]> l). rewrite !filter_cons. specialize (IH _ Hi Hx Hy). case_decide; [|done].
    etrans; [by apply perm_skip, IH|]. apply perm_swap.
Qed.

Lemma filter_insert_same {A} (P : A → Prop) `{!∀ x, Decision (P x)} (l : list A) i x y : l !! i = Some x → ¬ P x → ¬ P y →
  filter P (<[i := y]> l) = filter P l.
Proof.
  revert i. induction l as [|z l IH]; intros [|i] Hi Hx Hy; [done..| |]; cbn in Hi.
  - injection Hi as ->. change (<[0%nat := y]> (x :: l)) with (y :: l). by rewrite !filter_cons_False.
  - change (<[S i := y]> (z :: l)) with (z :: <[i := y]> l). rewrite !filter_cons. by rewrite (IH _ Hi Hx Hy).
Qed.

(** ** Tactics *)

(** Split the goal or a hypothesis on every [match] scrutinee in it. *)
Ltac split_match :=
  repeat case_match; simplify_eq/=; try done.

(** Read a hypothesis about [mbind] on results as the two steps that succeeded. *)
Ltac inv_res :=
  repeat match goal with
  | H : context [mbind _ ?r] |- _ =>
      destruct r eqn:?; unfold mbind, res_bind in H; simplify_eq/=
  | H : Ok _ = Ok _ |- _ => injection H as H; subst
  end.

Create HintDb dbox.

(** A bind that succeeds: both steps did. *)
Lemma bind_Ok {A B} (r : res A) (f : A → res B) y :
  (x ← r; f x) = Ok y ↔ ∃ x, r = Ok x ∧ f x = Ok y.
Proof. destruct r; cbn; split; [eauto|naive_solver|done|naive_solver|done|naive_solver]. Qed.

Lemma fmap_Ok {A B} (r : res A) (f : A → B) y :
  f <$> r = Ok y ↔ ∃ x, r = Ok x ∧ f x = y.
Proof. destruct r; cbn; naive_solver. Qed.

Lemma Forall_elem {A} (P : A → Prop) l x : Forall P l → x ∈ l → P x.
Proof. intros Hl Hx. eapply List.Forall_forall; [exact Hl|by apply list_elem_of_In]. Qed.

(** ** Lemmas on the loops *)

Lemma any_st_ext {S A} (f g : A → S → bool * S) l s :
  (∀ x s, x ∈ l → f x s = g x s) → any_st f l s = any_st g l s.
Proof.
  revert s. induction l as [|x l IH]; intros s Hfg; [done|]. cbn.
  rewrite (Hfg x s (list_elem_of_here _ _)). destruct (g x s) as [[] s']; [done|].
  apply IH. intros; apply Hfg. by apply list_elem_of_further.
Qed.

Lemma all_st_ext {S A} (f g : A → S → bool * S) l s :
  (∀ x s, x ∈ l → f x s = g x s) → all_st f l s = all_st g l s.
Proof.
  revert s. induction l as [|x l IH]; intros s Hfg; [done|]. cbn.
  rewrite (Hfg x s (list_elem_of_here _ _)). destruct (g x s) as [[] s']; [|done].
  apply IH. intros; apply Hfg. by apply list_elem_of_further.
Qed.

Lemma any_st_pure {S A} (f : A → S → bool * S) (g : A → bool) l s :
  (∀ x, x ∈ l → f x s = (g x, s)) → any_st f l s = (existsb g l, s).
Proof.
  induction l as [|x l IH]; intros Hf; [done|].
  cbn. rewrite (Hf x) by set_solver. destruct (g x); [done|].
  apply IH. intros; apply Hf; set_solver.
Qed.

Lemma all_st_pure {S A} (f : A → S → bool * S) (g : A → bool) l s :
  (∀ x, x ∈ l → f x s = (g x, s)) → all_st f l s = (forallb g l, s).
Proof.
  induction l as [|x l IH]; intros Hf; [done|].
  cbn. rewrite (Hf x) by set_solver. destruct (g x); [|done].
  apply IH. intros; apply Hf; set_solver.
Qed.

(** Two loops with bodies that agree on the result, from states related by [R], agree. *)
Lemma any_st_rel {S T A} (R : S → T → Prop) (f : A → S → bool * S) (g : A → T → bool * T) l s t :
  R s t →
  (∀ x s t, x ∈ l → R s t → (f x s).1 = (g x t).1 ∧ R (f x s).2 (g x t).2) →
  (any_st f l s).1 = (any_st g l t).1 ∧ R (any_st f l s).2 (any_st g l t).2.
Proof.
  revert s t. induction l as [|x l IH]; intros s t HR Hf; [done|].
  cbn. destruct (Hf x s t) as [Hb HR']; [set_solver|done|].
  destruct (f x s) as [b s'], (g x t) as [b' t']; simplify_eq/=.
  destruct b'; [done|]. apply IH; [done|]. intros; apply Hf; [set_solver|done].
Qed.

Lemma all_st_rel {S T A} (R : S → T → Prop) (f : A → S → bool * S) (g : A → T → bool * T) l s t :
  R s t →
  (∀ x s t, x ∈ l → R s t → (f x s).1 = (g x t).1 ∧ R (f x s).2 (g x t).2) →
  (all_st f l s).1 = (all_st g l t).1 ∧ R (all_st f l s).2 (all_st g l t).2.
Proof.
  revert s t. induction l as [|x l IH]; intros s t HR Hf; [done|].
  cbn. destruct (Hf x s t) as [Hb HR']; [set_solver|done|].
  destruct (f x s) as [b s'], (g x t) as [b' t']; simplify_eq/=.
  destruct b'; [|done]. apply IH; [done|]. intros; apply Hf; [set_solver|done].
Qed.

Lemma forallb_ext {A} (f g : A → bool) l : (∀ x, x ∈ l → f x = g x) → forallb f l = forallb g l.
Proof.
  induction l as [|x l IH]; intros Hfg; [done|]. cbn. rewrite (Hfg x) by apply list_elem_of_here.
  f_equal. apply IH. intros; apply Hfg; by apply list_elem_of_further.
Qed.

Lemma existsb_ext {A} (f g : A → bool) l : (∀ x, x ∈ l → f x = g x) → existsb f l = existsb g l.
Proof.
  induction l as [|x l IH]; intros Hfg; [done|]. cbn. rewrite (Hfg x) by apply list_elem_of_here.
  f_equal. apply IH. intros; apply Hfg; by apply list_elem_of_further.
Qed.

(** An invariant of the body is an invariant of the loop. *)
Lemma any_st_inv {S A} (P : S → Prop) (f : A → S → bool * S) l s :
  P s → (∀ x s, x ∈ l → P s → P (f x s).2) → P (any_st f l s).2.
Proof.
  revert s. induction l as [|x l IH]; intros s HP Hf; [done|].
  cbn. specialize (Hf x s) as Hx. destruct (f x s) as [b s']; simpl in *.
  destruct b; simpl; [apply Hx; [set_solver|done]|].
  apply IH; [apply Hx; [set_solver|done]|]. intros; apply Hf; [set_solver|done].
Qed.

Lemma all_st_inv {S A} (P : S → Prop) (f : A → S → bool * S) l s :
  P s → (∀ x s, x ∈ l → P s → P (f x s).2) → P (all_st f l s).2.
Proof.
  revert s. induction l as [|x l IH]; intros s HP Hf; [done|].
  cbn. specialize (Hf x s) as Hx. destruct (f x s) as [b s']; simpl in *.
  destruct b; simpl; [|apply Hx; [set_solver|done]].
  apply IH; [apply Hx; [set_solver|done]|]. intros; apply Hf; [set_solver|done].
Qed.

(** When the answer of the body does not depend on the state as long as [P] holds, the loop is the
    stateless one. *)
Lemma any_st_fst {S A} (P : S → Prop) (f : A → S → bool * S) (g : A → bool) l s :
  P s → (∀ x s, x ∈ l → P s → (f x s).1 = g x ∧ P (f x s).2) → (any_st f l s).1 = existsb g l.
Proof.
  revert s. induction l as [|x l IH]; intros s HP Hf; [done|].
  cbn. destruct (Hf x s) as [Hb HP']; [apply list_elem_of_here|done|].
  destruct (f x s) as [b s']; simpl in *; subst b. destruct (g x); [done|].
  apply IH; [done|]. intros; apply Hf; [by apply list_elem_of_further|done].
Qed.

Lemma all_st_fst {S A} (P : S → Prop) (f : A → S → bool * S) (g : A → bool) l s :
  P s → (∀ x s, x ∈ l → P s → (f x s).1 = g x ∧ P (f x s).2) → (all_st f l s).1 = forallb g l.
Proof.
  revert s. induction l as [|x l IH]; intros s HP Hf; [done|].
  cbn. destruct (Hf x s) as [Hb HP']; [apply list_elem_of_here|done|].
  destruct (f x s) as [b s']; simpl in *; subst b. destruct (g x); [|done].
  apply IH; [done|]. intros; apply Hf; [by apply list_elem_of_further|done].
Qed.

(** The loop that collects results succeeds exactly when every element does. *)
Lemma mapi_res_from_Ok {A B} (f : nat → A → res B) i l ys :
  mapi_res_from f i l = Ok ys ↔
  length ys = length l ∧ ∀ j x y, l !! j = Some x → ys !! j = Some y → f (i + j) x = Ok y.
Proof.
  revert i ys. induction l as [|x l IH]; intros i ys; simpl.
  { split; [intros [= <-]; done|]. intros [H _]. by destruct ys. }
  split.
  - intros H. destruct (f i x) as [y| |] eqn:Hy; simplify_eq/=.
    destruct (mapi_res_from f (S i) l) as [ys'| |] eqn:Hl; simplify_eq/=.
    apply IH in Hl as [Hlen Hl]. split; [lia|].
    intros [|j] x' y' ??; simplify_eq/=; [by rewrite Nat.add_0_r|].
    rewrite <-Nat.add_succ_comm. eauto.
  - intros [Hlen H]. destruct ys as [|y ys]; [done|].
    pose proof (H 0 x y eq_refl eq_refl) as Hy. rewrite Nat.add_0_r in Hy. rewrite Hy; simpl.
    rewrite (proj2 (IH (S i) ys)); [done|]. split; [simpl in *; lia|].
    intros j x' y' ??. specialize (H (S j) x' y'). rewrite <-Nat.add_succ_comm in H. auto.
Qed.

(** When the body ignores the index, the results are the images of the elements. *)
Lemma mapi_res_Forall2 {A B} (f : A → res B) l ys :
  mapi_res (λ _, f) l = Ok ys ↔ Forall2 (λ x y, f x = Ok y) l ys.
Proof.
  unfold mapi_res. rewrite mapi_res_from_Ok. split.
  - intros [Hlen H]. apply Forall2_same_length_lookup_2; [done|eauto].
  - intros H. split; [by symmetry; eapply Forall2_length|].
    intros j x y Hx Hy. by destruct (Forall2_lookup_lr _ _ _ _ _ _ H Hx Hy).
Qed.

(** When every result has [p] exactly if its source lacks [q]. *)
Lemma mapi_res_forallb {A B} (f : nat → A → res B) (p : B → bool) (q : A → bool) l ys :
  mapi_res f l = Ok ys → (∀ i x y, x ∈ l → f i x = Ok y → p y = negb (q x)) →
  forallb p ys = negb (existsb q l).
Proof.
  unfold mapi_res. generalize O as i. revert ys.
  induction l as [|x l IH]; intros ys i Hm Hf; cbn in Hm; [by simplify_eq|].
  destruct (f i x) as [y| |] eqn:Hy; cbn in Hm; simplify_eq.
  destruct (mapi_res_from f (S i) l) as [ys'| |] eqn:Hl; cbn in Hm; simplify_eq. cbn.
  rewrite (Hf i x y (list_elem_of_here _ _) Hy), (IH ys' (S i) Hl), negb_orb; [done|].
  intros j x' y' Hin. apply Hf. by apply list_elem_of_further.
Qed.

Lemma wrap_err_Ok {A} parts (r : res A) a : wrap_err parts r = Ok a → r = Ok a.
Proof. by destruct r. Qed.

Lemma mapi_res_not_panic {A B} (f : nat → A → res B) i l p :
  (∀ j x p, f j x ≠ Panic p) → mapi_res_from f i l ≠ Panic p.
Proof.
  intros Hf. revert i p. induction l as [|x l IH]; intros i p; [done|]. cbn.
  destruct (f i x) eqn:E; cbn; [|done|by apply Hf in E].
  destruct (mapi_res_from f (S i) l) eqn:E'; cbn; [done|done|by apply IH in E'].
Qed.
