(* ===== verification/GoStd.v ===== *)
(** * The parts of the Go standard library the routing core uses

    Fixed-width integers, the [strings], [strconv] and [path/filepath] functions, and byte
    sequences.  A Go string is a sequence of bytes, as [string] is. *)

From Stdlib Require Export Ascii Strings.Byte.
From Stdlib Require Strings.String.
From stdpp Require Import base gmap strings list numbers.
From S2P Require Import Prelude.

Local Open Scope Z_scope.

(** ** Fixed-width unsigned integers *)

Definition wrap (bits z : Z) : Z := z mod 2 ^ bits.
Definition u8 : Z → Z := wrap 8.
Definition u16 : Z → Z := wrap 16.
Definition u32 : Z → Z := wrap 32.
Definition u64 : Z → Z := wrap 64.

Definition is_u (bits z : Z) : Prop := 0 ≤ z < 2 ^ bits.

Lemma wrap_id bits z : is_u bits z → wrap bits z = z.
Proof. apply Z.mod_small. Qed.

Lemma wrap_is_u bits z : 0 ≤ bits → is_u bits (wrap bits z).
Proof. intros. apply Z.mod_pos_bound. by apply Z.pow_pos_nonneg. Qed.

(** ** Bytes *)

Definition byte_Z (b : byte) : Z := Z.of_N (Byte.to_N b).

Definition Z_byte (z : Z) : byte :=
  default x00 (Byte.of_N (Z.to_N (u8 z))).

Lemma byte_Z_range b : is_u 8 (byte_Z b).
Proof. unfold is_u, byte_Z. pose proof (Byte.to_N_bounded b). change (2 ^ 8) with 256. lia. Qed.

Lemma Z_byte_byte_Z b : Z_byte (byte_Z b) = b.
Proof.
  unfold Z_byte, u8. rewrite wrap_id by apply byte_Z_range.
  unfold byte_Z. rewrite N2Z.id, Byte.of_to_N. done.
Qed.

Lemma byte_Z_Z_byte z : byte_Z (Z_byte z) = u8 z.
Proof.
  unfold Z_byte, byte_Z. pose proof (wrap_is_u 8 z ltac:(lia)) as Hz.
  unfold is_u in Hz. change (2 ^ 8) with 256 in Hz. fold (u8 z) in Hz.
  destruct (Byte.of_N (Z.to_N (u8 z))) as [b|] eqn:Hb; simpl.
  - apply Byte.to_of_N in Hb. rewrite Hb. lia.
  - apply Byte.of_N_None_iff in Hb. lia.
Qed.

Lemma byte_Z_inj b c : byte_Z b = byte_Z c → b = c.
Proof. intros H. by rewrite <-(Z_byte_byte_Z b), H, Z_byte_byte_Z. Qed.

#[export] Instance byte_eq_decision : EqDecision byte := Byte.byte_eq_dec.
#[export] Instance byte_countable : Countable byte.
Proof. refine (inj_countable Byte.to_N Byte.of_N _). apply Byte.of_to_N. Defined.

(** ** Package strings *)

Abbreviation bytes_of_string := String.list_byte_of_string.
Abbreviation string_of_bytes := String.string_of_list_byte.

Definition strlen (s : string) : Z := Z.of_nat (String.length s).

(** [strings.Index], [-1] when there is no occurrence *)
Definition strings_Index (s sub : string) : Z :=
  match String.index 0 sub s with
  | Some n => Z.of_nat n
  | None => -1
  end.

Definition strings_Contains (s sub : string) : bool :=
  match String.index 0 sub s with Some _ => true | None => false end.

Definition strings_HasPrefix (s prefix : string) : bool := String.prefix prefix s.

(** [s[:n]] and [s[n:]] for a position inside the string *)
Definition str_take (n : nat) (s : string) : string := String.substring 0 n s.
Definition str_drop (n : nat) (s : string) : string :=
  String.substring n (String.length s - n) s.

Definition strings_HasSuffix (s suffix : string) : bool :=
  (Z.leb (strlen suffix) (strlen s) &&
   String.eqb (str_drop (String.length s - String.length suffix) s) suffix)%bool.

Fixpoint strings_Join (l : list string) (sep : string) : string :=
  match l with
  | [] => ""
  | [x] => x
  | x :: l' => x +:+ sep +:+ strings_Join l' sep
  end.

(** [strings.Split] at a character *)
Fixpoint strings_Split (sep : ascii) (s : string) : list string :=
  match s with
  | EmptyString => [""%string]
  | String c s' =>
      if Ascii.eqb c sep then ""%string :: strings_Split sep s' else
      match strings_Split sep s' with
      | [] => [String c ""]
      | field :: fields => String c field :: fields
      end
  end.

(** [strings.Count] of a single character. *)
Fixpoint strings_Count (c : ascii) (s : string) : nat :=
  match s with
  | EmptyString => 0%nat
  | String d s => ((if Ascii.eqb d c then 1 else 0) + strings_Count c s)%nat
  end.

Lemma length_bytes_of_string s : length (bytes_of_string s) = String.length s.
Proof.
  unfold String.list_byte_of_string. rewrite length_map. induction s as [|c s IH]; [done|]. cbn. by rewrite IH.
Qed.

Lemma string_length_of_bytes l : String.length (string_of_bytes l) = length l.
Proof. by rewrite <-length_bytes_of_string, String.list_byte_of_string_of_list_byte. Qed.

Lemma length_Split c s : length (strings_Split c s) = S (strings_Count c s).
Proof.
  induction s as [|d s IH]; [done|]. cbn. destruct (Ascii.eqb d c); cbn; [by rewrite IH|].
  by destruct (strings_Split c s).
Qed.

Definition ascii_Z (c : ascii) : Z := Z.of_N (N_of_ascii c).

Definition ascii_lower (c : ascii) : ascii :=
  if (Z.leb 65 (ascii_Z c) && Z.leb (ascii_Z c) 90)%bool
  then ascii_of_N (Z.to_N (ascii_Z c + 32)) else c.

Fixpoint string_map (f : ascii → ascii) (s : string) : string :=
  match s with
  | EmptyString => EmptyString
  | String c s' => String (f c) (string_map f s')
  end.

Fixpoint string_all (p : ascii → bool) (s : string) : bool :=
  match s with
  | EmptyString => true
  | String c s' => p c && string_all p s'
  end.

(** Every byte is below [utf8.RuneSelf]. *)
Definition is_ASCII (s : string) : bool := string_all (λ c, Z.ltb (ascii_Z c) 128) s.

(** The tables of package unicode, used by [strings] for text that is not ASCII. *)
Class UnicodeTables := {
  unicode_ToLower : string → string;
  unicode_EqualFold : string → string → bool
}.

(** [strings.ToLower]: byte by byte on ASCII text, through the Unicode tables otherwise. *)
Definition strings_ToLower `{UnicodeTables} (s : string) : string :=
  if is_ASCII s then string_map ascii_lower s else unicode_ToLower s.

(** [strings.EqualFold]: case-insensitive comparison. *)
Definition strings_EqualFold `{UnicodeTables} (s t : string) : bool :=
  if (is_ASCII s && is_ASCII t)%bool
  then String.eqb (string_map ascii_lower s) (string_map ascii_lower t)
  else unicode_EqualFold s t.

(** ** Package strconv *)

Definition ErrSyntax : error := E_Ext "strconv.ErrSyntax".
Definition ErrRange : error := E_Ext "strconv.ErrRange".

Definition digit_val (c : ascii) : option Z :=
  if (Z.leb 48 (ascii_Z c) && Z.leb (ascii_Z c) 57)%bool then Some (ascii_Z c - 48) else None.

Fixpoint ParseUint_loop (maxVal : Z) (s : string) (n : Z) : res Z :=
  match s with
  | EmptyString => Ok n
  | String c s' =>
      match digit_val c with
      | None => Err ErrSyntax
      | Some d =>
          let n1 := n * 10 + d in
          if Z.ltb maxVal n1 then Err ErrRange else ParseUint_loop maxVal s' n1
      end
  end.

(** [strconv.ParseUint(s, 10, bitSize)] *)
Definition ParseUint10 (s : string) (bitSize : Z) : res Z :=
  match s with
  | EmptyString => Err ErrSyntax
  | _ => ParseUint_loop (2 ^ bitSize - 1) s 0
  end.

(** ** Package path/filepath, on Unix *)

Definition slash : ascii := "/"%char.

Fixpoint drop_while {A} (p : A → bool) (l : list A) : list A :=
  match l with
  | [] => []
  | x :: l' => if p x then drop_while p l' else l
  end.

Fixpoint take_while {A} (p : A → bool) (l : list A) : list A :=
  match l with
  | [] => []
  | x :: l' => if p x then x :: take_while p l' else []
  end.

Definition filepath_Base (path : string) : string :=
  match path with
  | EmptyString => "."
  | _ =>
      let rpath := drop_while (Ascii.eqb slash) (rev (String.list_ascii_of_string path)) in
      match take_while (λ c, negb (Ascii.eqb slash c)) rpath with
      | [] => "/"
      | last => String.string_of_list_ascii (rev last)
      end
  end.

Example filepath_Base_ex :
  (filepath_Base "/usr/bin/curl", filepath_Base "/usr/bin/", filepath_Base "curl",
   filepath_Base "//", filepath_Base "") = ("curl", "bin", "curl", "/", ".")%string.
Proof. reflexivity. Qed.

(** ** Decimal text, to state what [ParseUint] accepts *)

(** The value of a digit string, and the digit strings that denote a value within a bound. *)
Fixpoint dec_val_from (n : Z) (s : string) : option Z :=
  match s with
  | EmptyString => Some n
  | String c s' => d ← digit_val c; dec_val_from (n * 10 + d) s'
  end.

(** The value of a non-empty string of decimal digits. *)
Definition dec_val (s : string) : option Z :=
  match s with EmptyString => None | _ => dec_val_from 0 s end.

Lemma digit_val_range c d : digit_val c = Some d → 0 ≤ d ≤ 9.
Proof.
  unfold digit_val. case_match eqn:E; [|done]. intros [= <-].
  apply andb_true_iff in E as [?%Z.leb_le ?%Z.leb_le]. lia.
Qed.

Lemma dec_val_from_mono s n v : 0 ≤ n → dec_val_from n s = Some v → n ≤ v.
Proof.
  revert n. induction s as [|c s IH]; simpl; intros n Hn H; [by injection H as ->|].
  destruct (digit_val c) as [d|] eqn:Hd; simpl in H; [|done].
  apply digit_val_range in Hd. apply IH in H; lia.
Qed.

Lemma ParseUint_loop_Ok m s n v :
  0 ≤ n ≤ m → ParseUint_loop m s n = Ok v ↔ dec_val_from n s = Some v ∧ v ≤ m.
Proof.
  revert n. induction s as [|c s IH]; intros n Hn; simpl.
  { split; [intros [= ->]; split; [done|lia]|intros [[= ->] _]; done]. }
  destruct (digit_val c) as [d|] eqn:Hd; simpl; [|split; [done|by intros [? _]]].
  apply digit_val_range in Hd. destruct (Z.ltb_spec m (n * 10 + d)) as [Hlt|Hle].
  - split; [done|]. intros [Hv ?]. apply dec_val_from_mono in Hv; lia.
  - apply IH. lia.
Qed.

(** [ParseUint] accepts exactly the digit strings whose value fits. *)
Lemma ParseUint10_Ok s bits v :
  0 ≤ bits → ParseUint10 s bits = Ok v ↔ dec_val s = Some v ∧ v < 2 ^ bits.
Proof.
  intros Hb. pose proof (Z.pow_pos_nonneg 2 bits ltac:(lia) Hb).
  destruct s as [|c s]; [split; [done|by intros [? _]]|].
  unfold ParseUint10, dec_val. rewrite ParseUint_loop_Ok by lia. intuition lia.
Qed.

Lemma ParseUint_loop_not_panic m s n p : ParseUint_loop m s n ≠ Panic p.
Proof. revert n. induction s; intros n; simpl; split_match; eauto. Qed.

Lemma ParseUint10_not_panic s bits p : ParseUint10 s bits ≠ Panic p.
Proof. destruct s; [done|apply ParseUint_loop_not_panic]. Qed.

Lemma dec_val_nonneg s v : dec_val s = Some v → 0 ≤ v.
Proof. destruct s; [done|]. intros H. apply (dec_val_from_mono (String a s) 0 v); done. Qed.

(** ** Cutting a string at a character *)

Lemma index_char c d s :
  String.index 0 (String c "") (String d s) =
  if ascii_dec c d then Some O else S <$> String.index 0 (String c "") s.
Proof. cbn. destruct (ascii_dec c d); [by destruct s|]. by destruct (String.index 0 _ s). Qed.

(** [Index] finds the first occurrence: the text before it has none. *)
Lemma index_char_app c a b :
  String.index 0 (String c "") a = None →
  String.index 0 (String c "") (a +:+ String c b) = Some (String.length a).
Proof.
  induction a as [|d a IH]; [intros _; change ("" +:+ String c b) with (String c b); rewrite index_char; by destruct (ascii_dec c c)|].
  rewrite index_char. intros H. change (String d a +:+ String c b) with (String d (a +:+ String c b)).
  rewrite index_char. destruct (ascii_dec c d); [done|].
  destruct (String.index 0 (String c "") a); [done|]. by rewrite IH.
Qed.

Lemma index_char_Some c s n :
  String.index 0 (String c "") s = Some n →
  ∃ a b, s = a +:+ String c b ∧ n = String.length a ∧ String.index 0 (String c "") a = None.
Proof.
  revert n. induction s as [|d s IH]; intros n; [done|]. rewrite index_char.
  destruct (ascii_dec c d) as [<-|Hne].
  - intros [= <-]. by exists "", s.
  - destruct (String.index 0 (String c "") s) as [m|]; [|done]. intros [= <-].
    destruct (IH m eq_refl) as (a & b & -> & -> & Ha). exists (String d a), b.
    split_and!; [done..|]. rewrite index_char. destruct (ascii_dec c d); [done|]. by rewrite Ha.
Qed.

Lemma substring_0_app a b : String.substring 0 (String.length a) (a +:+ b) = a.
Proof. induction a as [|d a IH]; [by destruct b|]. unfold String.append in *. cbn. by rewrite IH. Qed.

Lemma substring_all b : String.substring 0 (String.length b) b = b.
Proof. induction b as [|d b IH]; [done|]. cbn. by rewrite IH. Qed.

Lemma str_take_app a b : str_take (String.length a) (a +:+ b) = a.
Proof. apply substring_0_app. Qed.

Lemma str_drop_app a b : str_drop (String.length a) (a +:+ b) = b.
Proof.
  unfold str_drop. induction a as [|d a IH]; [cbn; rewrite Nat.sub_0_r; apply substring_all|]. exact IH.
Qed.

Lemma strlen_app a b : strlen (a +:+ b) = strlen a + strlen b.
Proof. unfold strlen. induction a as [|c a IH]; [done|]. unfold String.append in *. cbn. lia. Qed.

Lemma string_app_assoc (a b c : string) : a +:+ b +:+ c = (a +:+ b) +:+ c.
Proof. induction a as [|d a IH]; [done|]. unfold String.append in *. cbn. by rewrite IH. Qed.
