(* ===== verification/Chars.v ===== *)
(** * Characters in strings

    Strings in which a character does not occur, and what the functions of package strings find in
    strings that are put together of such: for the formats whose separators are characters. *)

From stdpp Require Import base gmap strings list numbers.
From S2P Require Import Prelude GoStd.

Local Open Scope Z_scope.

(** Membership in a concrete list. *)
Ltac in_list := solve [apply (bool_decide_unpack _); vm_compute; exact I].

(** No character of the string is in the list. *)
Definition free_of (l : list ascii) (s : string) : bool :=
  string_all (λ c, negb (existsb (Ascii.eqb c) l)) s.

Lemma string_cons_app c a b : String c a +:+ b = String c (a +:+ b).
Proof. done. Qed.

Lemma string_length_snoc a x : String.length (a +:+ String x "") = S (String.length a).
Proof. induction a as [|c a IH]; [done|]. rewrite string_cons_app. cbn [String.length]. by rewrite IH. Qed.

Lemma free_of_cons l c s : free_of l (String c s) = negb (existsb (Ascii.eqb c) l) && free_of l s.
Proof. done. Qed.

Lemma free_of_app l a b : free_of l (a +:+ b) = free_of l a && free_of l b.
Proof. induction a as [|c a IH]; [done|]. rewrite string_cons_app, !free_of_cons.
  by rewrite IH, andb_assoc. Qed.

Lemma free_of_elem l x s : x ∈ l → free_of l s = true → free_of [x] s = true.
Proof.
  intros Hx. induction s as [|c s IH]; [done|]. rewrite !free_of_cons. intros [Hc Hs]%andb_true_iff.
  rewrite (IH Hs), andb_true_r. cbn. rewrite orb_false_r. destruct (Ascii.eqb_spec c x) as [->|]; [|done].
  apply negb_true_iff in Hc. assert (existsb (Ascii.eqb x) l = true); [|congruence].
  apply existsb_exists. exists x. split; [by apply list_elem_of_In|]. apply Ascii.eqb_refl.
Qed.

Lemma index_free x sub s : free_of [x] s = true → String.index 0 (String x sub) s = None.
Proof.
  induction s as [|c s IH]; [done|]. rewrite free_of_cons. intros [Hc Hs]%andb_true_iff.
  cbn in *. rewrite orb_false_r in Hc. rewrite (IH Hs). destruct (ascii_dec x c) as [->|]; [|done]. by rewrite Ascii.eqb_refl in Hc.
Qed.

Lemma Contains_free x sub s : free_of [x] s = true → strings_Contains s (String x sub) = false.
Proof. intros Hs. unfold strings_Contains. by rewrite index_free. Qed.

Lemma Contains_char x a b : strings_Contains (a +:+ String x b) (String x "") = true.
Proof.
  unfold strings_Contains. induction a as [|c a IH].
  - change ("" +:+ String x b) with (String x b). rewrite index_char. by destruct (ascii_dec x x).
  - rewrite string_cons_app, index_char. destruct (ascii_dec x c); [done|].
    by destruct (String.index 0 (String x "") (a +:+ String x b)).
Qed.

Lemma HasSuffix_char a x y : strings_HasSuffix (a +:+ String x "") (String y "") = Ascii.eqb x y.
Proof.
  unfold strings_HasSuffix, strlen. 
  rewrite string_length_snoc. cbn [String.length]. rewrite (proj2 (Z.leb_le _ _)) by lia. cbn [andb].
  replace (S (String.length a) - 1)%nat with (String.length a) by lia.
  rewrite str_drop_app. cbn. by destruct (Ascii.eqb x y).
Qed.

(** The last character of a string. *)
Lemma string_snoc s : s ≠ ""%string → ∃ a x, s = a +:+ String x "".
Proof.
  induction s as [|c s IH]; [done|]. intros _. destruct s as [|c' s].
  - by exists ""%string, c.
  - destruct (IH ltac:(done)) as (a & x & ->). by exists (String c a), x.
Qed.

Lemma HasSuffix_free a y s : s ≠ ""%string → free_of [y] s = true →
  strings_HasSuffix (a +:+ s) (String y "") = false.
Proof.
  intros Hne Hf. destruct (string_snoc s Hne) as (b & x & ->).
  rewrite free_of_app in Hf. apply andb_true_iff in Hf as [_ Hf]. cbn in Hf.
  rewrite string_app_assoc, HasSuffix_char. rewrite orb_false_r, andb_true_r in Hf.
  by apply negb_true_iff.
Qed.

Lemma HasPrefix_free x sub s t : s ≠ ""%string → free_of [x] s = true →
  strings_HasPrefix (s +:+ t) (String x sub) = false.
Proof.
  destruct s as [|c s]; [done|]. intros _. rewrite free_of_cons, string_cons_app. cbn.
  intros [Hc _]%andb_true_iff. rewrite orb_false_r in Hc. unfold strings_HasPrefix. cbn.
  destruct (ascii_dec x c) as [->|]; [|done]. by rewrite Ascii.eqb_refl in Hc.
Qed.

Lemma HasPrefix_app a b : strings_HasPrefix (a +:+ b) a = true.
Proof.
  unfold strings_HasPrefix. induction a as [|c a IH]; [by destruct b|]. rewrite string_cons_app. cbn.
  destruct (ascii_dec c c); [exact IH|done].
Qed.

Lemma app_empty_r (s : string) : s +:+ "" = s.
Proof. induction s as [|c s IH]; [done|]. rewrite string_cons_app. by rewrite IH. Qed.

Lemma app_not_empty a b : b ≠ ""%string → a +:+ b ≠ ""%string.
Proof. by destruct a. Qed.

Lemma length_string_app (a b : string) : String.length (a +:+ b) = (String.length a + String.length b)%nat.
Proof. induction a as [|c a IH]; [done|]. rewrite string_cons_app. cbn [String.length Nat.add]. by rewrite IH. Qed.

(** [Split] at a character cuts what is joined with it. *)
Lemma Split_free x s : free_of [x] s = true → strings_Split x s = [s].
Proof.
  induction s as [|c s IH]; [done|]. rewrite free_of_cons. intros [Hc Hs]%andb_true_iff.
  cbn in Hc |- *. rewrite orb_false_r in Hc. apply negb_true_iff in Hc. by rewrite Hc, (IH Hs).
Qed.

Lemma Split_app x a b : free_of [x] a = true → strings_Split x (a +:+ String x b) = a :: strings_Split x b.
Proof.
  induction a as [|c a IH]; [intros _; change ("" +:+ String x b) with (String x b); cbn [strings_Split]; by rewrite Ascii.eqb_refl|].
  rewrite free_of_cons, string_cons_app. intros [Hc Ha]%andb_true_iff. cbn in Hc. rewrite orb_false_r in Hc. apply negb_true_iff in Hc.
  cbn [strings_Split]. by rewrite Hc, (IH Ha).
Qed.

(** Every character of a string has a property that excludes some characters. *)
Lemma string_all_free p l s : string_all p s = true → (∀ c, p c = true → existsb (Ascii.eqb c) l = false) → free_of l s = true.
Proof.
  intros Hs Hp. induction s as [|c s IH]; [done|]. rewrite free_of_cons. cbn in Hs. apply andb_true_iff in Hs as [Hc Hs].
  by rewrite (Hp c Hc), (IH Hs).
Qed.
