(* ===== verification/Strconv.v ===== *)
(** * Integers and their decimal text (package strconv)

    [strconv.Atoi] with what it gives beside an error, which the code often uses, and the text of an
    integer ([F.ToString], [strconv.Itoa]), which is [pretty]. *)

From stdpp Require Import base gmap strings list numbers pretty.
From S2P Require Import Prelude GoStd Chars.

Local Open Scope Z_scope.

(** The sign in front of a number. *)
Definition cut_sign (s : string) : bool * string :=
  match s with
  | String c s' => if Ascii.eqb c "+" then (false, s') else if Ascii.eqb c "-" then (true, s') else (false, s)
  | EmptyString => (false, s)
  end.

(** [strconv.ParseInt(s, 10, 64)]; [strconv.Atoi] is the same on 64-bit machines, up to the name in the
    error.  Out of range, the value is the one that is nearest. *)
Definition Atoi (s : string) : Z * option error :=
  let '(neg, digits) := cut_sign s in
  match ParseUint10 digits 64 with
  | Ok un =>
      if negb neg && Z.leb (2 ^ 63) un then (2 ^ 63 - 1, Some ErrRange)
      else if neg && Z.ltb (2 ^ 63) un then (- 2 ^ 63, Some ErrRange)
      else (if neg then - un else un, None)
  | Err e =>
      if bool_decide (e = ErrRange) then (if neg then - 2 ^ 63 else 2 ^ 63 - 1, Some ErrRange) else (0, Some e)
  | Panic _ => (0, None)
  end.

(** The text of an integer. *)
Definition Itoa (z : Z) : string := pretty z.

(** ** Text and value *)

Lemma digit_val_pretty n : (n < 10)%N → digit_val (pretty_N_char n) = Some (Z.of_N n).
Proof.
  intros Hn. destruct n as [|p]; [done|]. do 4 (destruct p as [p|p|]; try done; try lia).
Qed.

Lemma dec_val_pretty_go x : ∀ s, dec_val_from 0 (pretty_N_go x s) = dec_val_from (Z.of_N x) s.
Proof.
  induction (N.lt_wf_0 x) as [x _ IH]; intros s. destruct (decide (x = 0)%N) as [->|Hx].
  { by rewrite pretty_N_go_0. }
  rewrite pretty_N_go_step by lia. rewrite IH by (apply N.div_lt; lia). cbn [dec_val_from].
  rewrite digit_val_pretty by (apply N.mod_lt; lia). cbn [mbind option_bind]. f_equal.
  pose proof (N.div_mod x 10 ltac:(lia)). lia.
Qed.

Lemma pretty_N_nonempty (x : N) : pretty x ≠ "".
Proof.
  unfold pretty, pretty_N. destruct (decide (x = 0)%N) as [|Hx]; [done|].
  assert (∀ y s, s ≠ "" → pretty_N_go y s ≠ "") as Hgo.
  { intros y. induction (N.lt_wf_0 y) as [y _ IH]; intros s Hs. destruct (decide (y = 0)%N) as [->|Hy]; [by rewrite pretty_N_go_0|].
    rewrite pretty_N_go_step by lia. apply IH; [apply N.div_lt; lia|done]. }
  rewrite pretty_N_go_step by lia. by apply Hgo.
Qed.

Lemma dec_val_pretty (x : N) : dec_val (pretty x) = Some (Z.of_N x).
Proof.
  pose proof (pretty_N_nonempty x) as Hne. unfold dec_val. destruct (pretty x) as [|c s] eqn:Hp; [done|]. rewrite <-Hp.
  unfold pretty, pretty_N. destruct (decide (x = 0)%N) as [->|Hx]; [done|]. apply dec_val_pretty_go.
Qed.

Lemma ParseUint10_pretty (x : N) bits : 0 ≤ bits → Z.of_N x < 2 ^ bits → ParseUint10 (pretty x) bits = Ok (Z.of_N x).
Proof. intros Hb Hx. apply ParseUint10_Ok; [done|]. split; [apply dec_val_pretty|done]. Qed.

(** The text of a natural number is made of digits. *)
Lemma digits_of_value s v : ∀ n, dec_val_from n s = Some v → string_all (λ c, bool_decide (is_Some (digit_val c))) s = true.
Proof.
  induction s as [|c s IH]; intros n H; [done|]. cbn in *. destruct (digit_val c) as [d|] eqn:Hd; [|done].
  cbn in *. apply (IH _ H).
Qed.

Lemma pretty_digits (x : N) : string_all (λ c, bool_decide (is_Some (digit_val c))) (pretty x) = true.
Proof.
  pose proof (dec_val_pretty x) as Hd. unfold dec_val in Hd. destruct (pretty x) as [|c s]; [done|]. by eapply digits_of_value.
Qed.

Lemma cut_sign_pretty (x : N) : cut_sign (pretty x) = (false, pretty x).
Proof.
  pose proof (pretty_digits x) as Hd. destruct (pretty x) as [|c s]; [done|]. cbn in *. apply andb_true_iff in Hd as [Hc _].
  apply bool_decide_eq_true in Hc. destruct (Ascii.eqb_spec c "+"); [subst; by destruct Hc|].
  destruct (Ascii.eqb_spec c "-"); [subst; by destruct Hc|done].
Qed.

(** What is written is read back. *)
Lemma Atoi_Itoa z : - 2 ^ 63 ≤ z < 2 ^ 63 → Atoi (Itoa z) = (z, None).
Proof.
  intros Hz. unfold Atoi, Itoa. destruct z as [|p|p].
  - reflexivity.
  - change (pretty (Z.pos p)) with (pretty (N.pos p)). rewrite cut_sign_pretty, ParseUint10_pretty by lia.
    change (Z.of_N (N.pos p)) with (Z.pos p). rewrite (proj2 (Z.leb_gt _ _)) by lia. done.
  - change (pretty (Z.neg p)) with ("-" +:+ pretty (N.pos p)).
    assert (cut_sign ("-" +:+ pretty (N.pos p)) = (true, pretty (N.pos p))) as -> by reflexivity.
    rewrite ParseUint10_pretty by lia. change (Z.of_N (N.pos p)) with (Z.pos p). cbn [negb andb].
    rewrite (proj2 (Z.ltb_ge _ _)) by lia. done.
Qed.

(** No separator is among the characters of a number. *)
Lemma pretty_free l (x : N) : (∀ c, is_Some (digit_val c) → existsb (Ascii.eqb c) l = false) → free_of l (pretty x) = true.
Proof. intros Hl. apply (string_all_free _ l _ (pretty_digits x)). intros c Hc%bool_decide_eq_true. by apply Hl. Qed.

Lemma Itoa_nonneg z : 0 ≤ z → Itoa z = pretty (Z.to_N z).
Proof. intros Hz. by destruct z. Qed.

Lemma Itoa_free l z : 0 ≤ z → (∀ c, is_Some (digit_val c) → existsb (Ascii.eqb c) l = false) → free_of l (Itoa z) = true.
Proof. intros Hz Hl. rewrite Itoa_nonneg by done. by apply pretty_free. Qed.

(** A digit is none of some other characters. *)
Lemma digit_not c l : is_Some (digit_val c) → forallb (λ x, negb (bool_decide (is_Some (digit_val x)))) l = true → existsb (Ascii.eqb c) l = false.
Proof.
  intros Hc Hl. induction l as [|x l IH]; [done|]. cbn in *. apply andb_true_iff in Hl as [Hx Hl].
  destruct (Ascii.eqb_spec c x) as [->|]; [by rewrite bool_decide_true in Hx|]. by apply IH.
Qed.

Lemma Itoa_no l z : 0 ≤ z → forallb (λ x, negb (bool_decide (is_Some (digit_val x)))) l = true → free_of l (Itoa z) = true.
Proof. intros Hz Hl. apply Itoa_free; [done|]. intros c Hc. by apply digit_not. Qed.
