(* ===== verification/Netip.v ===== *)
(** * Package net/netip: addresses and prefixes

    An address is a value of a fixed width; the zero [Addr] is invalid.  A prefix keeps the address
    it was made from, host bits included, as [netip.Prefix] does. *)

From stdpp Require Import base gmap strings list numbers.
From S2P Require Import Prelude GoStd.

Local Open Scope Z_scope.

Inductive Addr : Type :=
| AddrInvalid
| Addr4 (v : Z)
| Addr6 (v : Z) (zone : string).

#[global] Instance Addr_eq_dec : EqDecision Addr.
Proof. solve_decision. Defined.
#[global] Instance Addr_countable : Countable Addr.
Proof.
  refine (inj_countable'
    (λ a, match a with
          | AddrInvalid => inl (inl tt)
          | Addr4 v => inl (inr v)
          | Addr6 v z => inr (v, z)
          end)
    (λ s, match s with
          | inl (inl _) => AddrInvalid
          | inl (inr v) => Addr4 v
          | inr (v, z) => Addr6 v z
          end) _).
  by intros [].
Defined.

Definition Addr_IsValid (a : Addr) : bool :=
  match a with AddrInvalid => false | _ => true end.

Definition Addr_Is4 (a : Addr) : bool := match a with Addr4 _ => true | _ => false end.

(** [Is6] includes the IPv4-mapped addresses. *)
Definition Addr_Is6 (a : Addr) : bool := match a with Addr6 _ _ => true | _ => false end.

Definition Addr_Is4In6 (a : Addr) : bool :=
  match a with Addr6 v _ => Z.eqb (Z.shiftr v 32) 0xFFFF | _ => false end.

Definition Addr_BitLen (a : Addr) : Z :=
  match a with AddrInvalid => 0 | Addr4 _ => 32 | Addr6 _ _ => 128 end.

Definition Addr_val (a : Addr) : Z :=
  match a with AddrInvalid => 0 | Addr4 v => v | Addr6 v _ => v end.

Definition Addr_hasZone (a : Addr) : bool :=
  match a with Addr6 _ z => negb (String.eqb z "") | _ => false end.

Definition Addr_withVal (a : Addr) (v : Z) : Addr :=
  match a with AddrInvalid => AddrInvalid | Addr4 _ => Addr4 v | Addr6 _ z => Addr6 v z end.

(** [Next]: the address after this one, the zero [Addr] after the last. *)
Definition Addr_Next (a : Addr) : Addr :=
  match a with
  | AddrInvalid => AddrInvalid
  | Addr4 v => if Z.eqb (u32 (v + 1)) 0 then AddrInvalid else Addr4 (u32 (v + 1))
  | Addr6 v z =>
      if Z.eqb (wrap 128 (v + 1)) 0 then AddrInvalid else Addr6 (wrap 128 (v + 1)) z
  end.

(** An address whose value fits its width. *)
Definition Addr_wf (a : Addr) : Prop :=
  match a with
  | AddrInvalid => True
  | Addr4 v => is_u 32 v
  | Addr6 v _ => is_u 128 v
  end.

(** The bytes of a value, most significant first. *)
Fixpoint be_bytes (n : nat) (v : Z) : list byte :=
  match n with
  | O => []
  | S n' => Z_byte (Z.shiftr v (8 * Z.of_nat n')) :: be_bytes n' v
  end.

Definition be_val (l : list byte) : Z :=
  fold_left (λ acc b, acc * 256 + byte_Z b) l 0.

Definition Addr_AsSlice (a : Addr) : list byte :=
  match a with
  | AddrInvalid => []
  | Addr4 v => be_bytes 4 v
  | Addr6 v _ => be_bytes 16 v
  end.

(** ** Prefixes *)

(** [bits = -1] stands for the zero [Prefix]. *)
Record Prefix : Type := PrefixFrom' { Prefix_Addr : Addr; Prefix_Bits : Z }.

#[global] Instance Prefix_eq_dec : EqDecision Prefix.
Proof. solve_decision. Defined.

Definition Prefix_zero : Prefix := PrefixFrom' AddrInvalid (-1).

(** [PrefixFrom]: the zone is dropped; bits out of range make the prefix invalid. *)
Definition Addr_withoutZone (a : Addr) : Addr :=
  match a with Addr6 v _ => Addr6 v "" | _ => a end.

Definition PrefixFrom (a : Addr) (bits : Z) : Prefix :=
  PrefixFrom' (Addr_withoutZone a)
    (if (Addr_IsValid a && Z.leb 0 bits && Z.leb bits (Addr_BitLen a))%bool then bits else -1).

Definition Prefix_IsValid (p : Prefix) : bool :=
  (Z.leb 0 (Prefix_Bits p) && Addr_IsValid (Prefix_Addr p))%bool.

(** [Contains]: same family, no zone, and equal on the first [Bits] bits. *)
Definition Prefix_Contains (p : Prefix) (ip : Addr) : bool :=
  if (negb (Prefix_IsValid p) || Addr_hasZone ip)%bool then false else
  let f1 := Addr_BitLen (Prefix_Addr p) in
  let f2 := Addr_BitLen ip in
  if (Z.eqb f1 0 || Z.eqb f2 0 || negb (Z.eqb f1 f2))%bool then false else
  Z.eqb (Z.shiftr (Z.lxor (Addr_val ip) (Addr_val (Prefix_Addr p))) (f1 - Prefix_Bits p)) 0.

(** The first [b] bits of an address, the others cleared. *)
Definition Addr_masked (a : Addr) (b : Z) : Z :=
  Z.shiftl (Z.shiftr (Addr_val a) (Addr_BitLen a - b)) (Addr_BitLen a - b).

(** [Overlaps]: do the two ranges share an address. *)
Definition Prefix_Overlaps (p o : Prefix) : bool :=
  if (negb (Prefix_IsValid p) || negb (Prefix_IsValid o))%bool then false else
  if decide (p = o) then true else
  if negb (Bool.eqb (Addr_Is4 (Prefix_Addr p)) (Addr_Is4 (Prefix_Addr o))) then false else
  let minBits := Z.min (Prefix_Bits p) (Prefix_Bits o) in
  if Z.eqb minBits 0 then true else
  Z.eqb (Addr_masked (Prefix_Addr p) minBits) (Addr_masked (Prefix_Addr o) minBits).

(** The range of values a prefix covers: [size] values from [base]. *)
Definition Prefix_size (p : Prefix) : Z := 2 ^ (Addr_BitLen (Prefix_Addr p) - Prefix_Bits p).
Definition Prefix_base (p : Prefix) : Z :=
  Addr_val (Prefix_Addr p) / Prefix_size p * Prefix_size p.

Definition Prefix_wf (p : Prefix) : Prop :=
  Addr_wf (Prefix_Addr p) ∧ Addr_hasZone (Prefix_Addr p) = false ∧
  (Prefix_IsValid p = true → Prefix_Bits p ≤ Addr_BitLen (Prefix_Addr p)).

Definition same_family (a b : Addr) : Prop := Addr_BitLen a = Addr_BitLen b.

(** ** Lemmas *)

Lemma lxor_shiftr_0 a b n : 0 ≤ n →
  Z.shiftr (Z.lxor a b) n = 0 ↔ Z.shiftr a n = Z.shiftr b n.
Proof. intros. rewrite Z.shiftr_lxor. apply Z.lxor_eq_0_iff. Qed.

(** [Contains] is membership in the range of values of the prefix. *)
Lemma Prefix_Contains_range p ip :
  Prefix_wf p → Prefix_Contains p ip = true ↔
  Prefix_IsValid p = true ∧ Addr_hasZone ip = false ∧ same_family (Prefix_Addr p) ip ∧
  Prefix_base p ≤ Addr_val ip < Prefix_base p + Prefix_size p.
Proof.
  intros (Hwf & Hz & Hbits). unfold Prefix_Contains, same_family.
  destruct (Prefix_IsValid p) eqn:Hv; simpl; [|naive_solver].
  destruct (Addr_hasZone ip); simpl; [naive_solver|].
  specialize (Hbits eq_refl).
  unfold Prefix_IsValid in Hv. apply andb_true_iff in Hv as [Hb%Z.leb_le Hval].
  assert (Addr_BitLen (Prefix_Addr p) ≠ 0) by (by destruct (Prefix_Addr p)).
  rewrite (proj2 (Z.eqb_neq _ 0)) by done. simpl.
  destruct (Z.eqb_spec (Addr_BitLen ip) 0); simpl; [split; [done|intuition congruence]|].
  destruct (Z.eqb_spec (Addr_BitLen (Prefix_Addr p)) (Addr_BitLen ip)); simpl;
    [|split; [done|intuition congruence]].
  rewrite Z.eqb_eq, lxor_shiftr_0 by lia. rewrite !Z.shiftr_div_pow2 by lia.
  fold (Prefix_size p). unfold Prefix_base.
  assert (0 < Prefix_size p) by (apply Z.pow_pos_nonneg; lia).
  split.
  - intros Heq. split_and!; [done..| |];
      pose proof (Z.div_mod (Addr_val ip) (Prefix_size p)); pose proof
      (Z.mod_pos_bound (Addr_val ip) (Prefix_size p)); nia.
  - intros (_ & _ & _ & Hr). symmetry. apply Z.div_unique with
      (Addr_val ip - Addr_val (Prefix_Addr p) / Prefix_size p * Prefix_size p); nia.
Qed.

(** A prefix contains valid addresses only. *)
Lemma Prefix_Contains_valid p a : Prefix_Contains p a = true → Addr_IsValid a = true.
Proof.
  destruct a; [|done|done]. unfold Prefix_Contains. cbn. rewrite orb_false_r.
  destruct (negb _); [done|]. by destruct (Z.eqb _ 0).
Qed.

(** ** Big-endian bytes *)

Lemma be_val_app l b : be_val (l ++ [b]) = be_val l * 256 + byte_Z b.
Proof. unfold be_val. by rewrite fold_left_app. Qed.

Lemma fold_be_val l acc :
  fold_left (λ acc b, acc * 256 + byte_Z b) l acc = acc * 256 ^ Z.of_nat (length l) + be_val l.
Proof.
  unfold be_val. revert acc. induction l as [|b l IH]; intros acc.
  { cbn. lia. }
  cbn [fold_left length]. rewrite IH, (IH (0 * 256 + byte_Z b)), Nat2Z.inj_succ, Z.pow_succ_r by lia.
  lia.
Qed.

Lemma be_bytes_length n v : length (be_bytes n v) = n.
Proof. induction n; cbn; auto. Qed.

Lemma be_val_be_bytes n v : 0 <= v → be_val (be_bytes n v) = v mod 256 ^ Z.of_nat n.
Proof.
  intros Hv. induction n as [|n IH].
  { cbn. by rewrite Z.mod_1_r. }
  cbn [be_bytes]. unfold be_val. cbn [fold_left]. rewrite fold_be_val, IH, be_bytes_length.
  rewrite byte_Z_Z_byte. unfold u8, wrap. rewrite Z.shiftr_div_pow2 by lia.
  rewrite Z.pow_mul_r by lia. change (2 ^ 8) with 256.
  rewrite Nat2Z.inj_succ, Z.pow_succ_r by lia. set (m := 256 ^ Z.of_nat n).
  assert (0 < m) by (apply Z.pow_pos_nonneg; lia).
  rewrite (Z.mul_comm 256 m), Z.rem_mul_r by lia. lia.
Qed.

Lemma be_roundtrip n v : 0 <= v < 256 ^ Z.of_nat n → be_val (be_bytes n v) = v.
Proof. intros. rewrite be_val_be_bytes by lia. by apply Z.mod_small. Qed.
