(* ===== verification/GoIO.v ===== *)
(** * Readers of bytes (packages io, bufio and encoding/binary)

    A reader takes what it needs from the front of the bytes that are left; a writer of the formats
    of this development only ever appends, so that writing gives the bytes.  [reads] says that a
    reader takes exactly some bytes and gives a value, whatever follows. *)

From stdpp Require Import base gmap strings list numbers.
From S2P Require Import Prelude GoStd Netip.

Local Open Scope Z_scope.

Definition Reader (A : Type) : Type := list byte → res A * list byte.

#[global] Instance Reader_ret : MRet Reader := λ A a s, (Ok a, s).
#[global] Instance Reader_bind : MBind Reader := λ A B k r s,
  match r s with
  | (Ok a, s) => k a s
  | (Err e, s) => (Err e, s)
  | (Panic p, s) => (Panic p, s)
  end.
#[global] Instance Reader_fmap : FMap Reader := λ A B f r s,
  match r s with
  | (Ok a, s) => (Ok (f a), s)
  | (Err e, s) => (Err e, s)
  | (Panic p, s) => (Panic p, s)
  end.

Definition of_res {A} (r : res A) : Reader A := λ s, (r, s).

(** [E.Cause(err, ...)] on the error of a reader. *)
Definition reader_cause {A} (parts : list arg) (r : Reader A) : Reader A := λ s,
  let '(a, s) := r s in (wrap_err parts a, s).

(** [ReadByte] *)
Definition ReadByte : Reader byte := λ s,
  match s with [] => (Err io_EOF, []) | b :: s => (Ok b, s) end.

(** [io.ReadFull] into a slice of [n] bytes. *)
Definition ReadFull (n : nat) : Reader (list byte) := λ s,
  if Nat.ltb (length (take n s)) n
  then (Err (if nonempty s then io_ErrUnexpectedEOF else io_EOF), [])
  else (Ok (take n s), drop n s).

(** [io.CopyN(io.Discard, reader, n)]; [reader.Seek(n, io.SeekCurrent)] of a [bytes.Reader], which
    may go past the end; the number of bytes that are left. *)
Definition SkipN (n : Z) : Reader () := λ s,
  if Z.ltb (Z.of_nat (length s)) n then (Err io_EOF, []) else (Ok tt, drop (Z.to_nat n) s).
Definition Seek (n : Z) : Reader () := λ s, (Ok tt, drop (Z.to_nat n) s).
Definition Len : Reader nat := λ s, (Ok (length s), s).

(** [binary.Read] of a big-endian unsigned integer of [n] bytes, and of a [bool]. *)
Definition ReadBE (n : nat) : Reader Z := be_val <$> ReadFull n.
Definition ReadBool : Reader bool := (λ z, negb (Z.eqb z 0)) <$> ReadBE 1.

(** [binary.Read] of a slice of big-endian [uint16]. *)
Fixpoint be_uint16s (l : list byte) : list Z :=
  match l with
  | h :: b :: l => be_val [h; b] :: be_uint16s l
  | _ => []
  end.
Definition ReadBE16s (n : nat) : Reader (list Z) := be_uint16s <$> ReadFull (2 * n).

Definition varint_overflow : error := E_Ext "binary: varint overflows a 64-bit integer".

(** [binary.ReadUvarint]: at most ten bytes, seven bits each, the least significant first. *)
Fixpoint ReadUvarint_loop (togo : nat) (first : bool) (x s : Z) : Reader Z := λ bytes,
  match togo with
  | O => (Err varint_overflow, bytes)
  | S togo =>
      match bytes with
      | [] => (Err (if first then io_EOF else io_ErrUnexpectedEOF), [])
      | b :: bytes =>
          let b := byte_Z b in
          if Z.ltb b 128 then
            if Nat.eqb togo 0 && Z.ltb 1 b then (Err varint_overflow, bytes)
            else (Ok (Z.lor x (Z.shiftl b s)), bytes)
          else ReadUvarint_loop togo false (Z.lor x (Z.shiftl (Z.land b 127) s)) (s + 7) bytes
      end
  end.
Definition ReadUvarint : Reader Z := ReadUvarint_loop 10 true 0 0.

(** [make([]T, n)] for elements of [size] bytes: it panics when the slice is larger than the address
    space (of 64-bit Linux). *)
Definition max_alloc : Z := 2 ^ 48.
Definition makeslice (size n : Z) : Reader () :=
  of_res (if Z.ltb max_alloc (size * n) then Panic [AStr "makeslice: len out of range"] else Ok tt).

(** [for i := 0; i < n; i++ { v[i], err = read(); if err != nil { return } }] *)
Fixpoint read_times {A} (n : nat) (i : Z) (read : Z → Reader A) : Reader (list A) :=
  match n with
  | O => mret []
  | S n => a ← read i; l ← read_times n (i + 1) read; mret (a :: l)
  end.

(** ** What a reader reads *)

Definition reads {A} (r : Reader A) (bytes : list byte) (a : A) : Prop :=
  ∀ rest, r (bytes ++ rest) = (Ok a, rest).

Lemma reads_ret {A} (a : A) : reads (mret a) [] a.
Proof. done. Qed.

Lemma reads_bind {A B} (r : Reader A) (k : A → Reader B) b1 b2 a b :
  reads r b1 a → reads (k a) b2 b → reads (r ≫= k) (b1 ++ b2) b.
Proof.
  intros Hr Hk rest. unfold mbind, Reader_bind. rewrite <-app_assoc, Hr. apply Hk.
Qed.

Lemma reads_fmap {A B} (f : A → B) r bytes a : reads r bytes a → reads (f <$> r) bytes (f a).
Proof. intros Hr rest. unfold fmap, Reader_fmap. by rewrite Hr. Qed.

Lemma reads_cause {A} parts (r : Reader A) bytes a :
  reads r bytes a → reads (reader_cause parts r) bytes a.
Proof. intros Hr rest. unfold reader_cause. by rewrite Hr. Qed.

Lemma reads_byte b : reads ReadByte [b] b.
Proof. done. Qed.

Lemma reads_full n l : length l = n → reads (ReadFull n) l l.
Proof.
  intros <- rest. unfold ReadFull. rewrite take_app_length, drop_app_length.
  by rewrite Nat.ltb_irrefl.
Qed.

Lemma reads_be n v : 0 ≤ v < 256 ^ Z.of_nat n → reads (ReadBE n) (be_bytes n v) v.
Proof.
  intros Hv. rewrite <-(be_roundtrip n v Hv) at 2. apply reads_fmap, reads_full, be_bytes_length.
Qed.

Lemma reads_bool (b : bool) : reads ReadBool (be_bytes 1 (if b then 1 else 0)) b.
Proof.
  destruct b.
  - exact (reads_fmap (λ z, negb (Z.eqb z 0)) _ _ 1 (reads_be 1 1 ltac:(lia))).
  - exact (reads_fmap (λ z, negb (Z.eqb z 0)) _ _ 0 (reads_be 1 0 ltac:(lia))).
Qed.

Lemma be16s_length l : length (concat (be_bytes 2 <$> l)) = (2 * length l)%nat.
Proof.
  induction l as [|v l IH]; [done|].
  change (length (be_bytes 2 v ++ concat (be_bytes 2 <$> l)) = 2 * S (length l))%nat.
  rewrite length_app, be_bytes_length, IH. lia.
Qed.

Lemma reads_be16s l :
  Forall (is_u 16) l → reads (ReadBE16s (length l)) (concat (be_bytes 2 <$> l)) l.
Proof.
  intros Hl. assert (be_uint16s (concat (be_bytes 2 <$> l)) = l) as Hb.
  { induction Hl as [|v l Hv Hl IH]; [done|].
    change (be_val (be_bytes 2 v) :: be_uint16s (concat (be_bytes 2 <$> l)) = v :: l).
    rewrite IH. f_equal. by apply be_roundtrip. }
  pose proof (reads_fmap be_uint16s (ReadFull (2 * length l)) (concat (be_bytes 2 <$> l)) _
    (reads_full _ (concat (be_bytes 2 <$> l)) (be16s_length l))) as Hr.
  by rewrite Hb in Hr.
Qed.

Lemma reads_makeslice size n : size * n ≤ max_alloc → reads (makeslice size n) [] tt.
Proof. intros Hn rest. unfold makeslice. by rewrite (proj2 (Z.ltb_ge _ _) Hn). Qed.

Lemma reads_times_map {A B} (read : Z → Reader B) (write : A → list byte) (f : A → B) l i :
  (∀ a i, a ∈ l → reads (read i) (write a) (f a)) →
  reads (read_times (length l) i read) (concat (write <$> l)) (f <$> l).
Proof.
  revert i. induction l as [|a l IH]; intros i Hr; [apply reads_ret|].
  cbn [length read_times fmap list_fmap concat].
  eapply reads_bind; [apply Hr, list_elem_of_here|]. rewrite <-(app_nil_r (concat _)). eapply reads_bind; [apply IH|apply reads_ret].
  intros b j Hb. apply Hr. by right.
Qed.

Lemma reads_times {A} (read : Z → Reader A) (write : A → list byte) l i :
  (∀ a i, a ∈ l → reads (read i) (write a) a) →
  reads (read_times (length l) i read) (concat (write <$> l)) l.
Proof. intros Hr. rewrite <-(list_fmap_id l) at 3. by apply reads_times_map. Qed.

(** ** Variable-length integers *)

(** [binary.PutUvarint] *)
Fixpoint PutUvarint_loop (togo : nat) (v : Z) : list byte :=
  match togo with
  | O => []
  | S togo =>
      if Z.ltb v 128 then [Z_byte v]
      else Z_byte (Z.lor (Z.land v 127) 128) :: PutUvarint_loop togo (Z.shiftr v 7)
  end.
Definition PutUvarint (v : Z) : list byte := PutUvarint_loop 10 v.

Lemma byte_Z_small v : 0 ≤ v < 256 → byte_Z (Z_byte v) = v.
Proof. intros Hv. rewrite byte_Z_Z_byte. by apply Z.mod_small. Qed.

Lemma land_low_high x b s : 0 ≤ s → 0 ≤ x < 2 ^ s → Z.land x (b * 2 ^ s) = 0.
Proof.
  intros Hs Hx. apply Z.bits_inj'. intros n Hn. rewrite Z.land_spec, Z.bits_0.
  destruct (Z.ltb_spec n s).
  { rewrite Z.mul_pow2_bits_low by lia. apply andb_false_r. }
  destruct (decide (x = 0)) as [->|]; [by rewrite Z.bits_0|].
  rewrite (Z.bits_above_log2 x n); [done|lia|].
  apply Z.log2_lt_pow2; [lia|]. eapply Z.lt_le_trans; [apply Hx|]. apply Z.pow_le_mono_r; lia.
Qed.

Lemma lor_shiftl_add x b s : 0 ≤ s → 0 ≤ x < 2 ^ s → Z.lor x (Z.shiftl b s) = x + b * 2 ^ s.
Proof.
  intros Hs Hx. rewrite Z.shiftl_mul_pow2 by lia.
  pose proof (land_low_high x b s Hs Hx) as Hl.
  by rewrite Z.add_nocarry_lxor, Z.lxor_lor.
Qed.

Lemma PutUvarint_loop_reads togo first x s v :
  0 ≤ s → 0 ≤ x < 2 ^ s → 0 ≤ v → s + 7 * Z.of_nat togo = 70 → v * 2 ^ s < 2 ^ 64 →
  (0 < togo)%nat →
  reads (ReadUvarint_loop togo first x s) (PutUvarint_loop togo v) (x + v * 2 ^ s).
Proof.
  revert first x s v. induction togo as [|togo IH]; intros first x s v Hs Hx Hv Hl Hb Hpos rest; [lia|].
  cbn [PutUvarint_loop]. destruct (Z.ltb_spec v 128) as [Hsm|Hbig].
  - cbn [app ReadUvarint_loop]. rewrite byte_Z_small by lia. rewrite (proj2 (Z.ltb_lt _ _) Hsm).
    destruct (Nat.eqb_spec togo 0) as [->|]; cbn [andb].
    + replace s with 63 in * by lia. destruct (Z.ltb_spec 1 v); [lia|].
      by rewrite lor_shiftl_add by lia.
    + by rewrite lor_shiftl_add by lia.
  - assert (Z.land v 127 = v mod 128) as Hland by (apply (Z.land_ones v 7); lia).
    pose proof (Z.mod_pos_bound v 128 ltac:(lia)).
    assert (Z.lor (Z.land v 127) 128 = v mod 128 + 128) as Hlor.
    { rewrite Hland. change 128 with (Z.shiftl 1 7) at 2.
      rewrite lor_shiftl_add by (change (2 ^ 7) with 128; lia). lia. }
    rewrite Hlor. cbn [app ReadUvarint_loop]. rewrite byte_Z_small by lia.
    destruct (Z.ltb_spec (v mod 128 + 128) 128); [lia|].
    assert (Z.land (v mod 128 + 128) 127 = v mod 128) as Hl2.
    { rewrite (Z.land_ones _ 7) by lia. change (2 ^ 7) with 128.
      rewrite <-(Z.mod_mod v 128) at 2 by lia.
      replace (v mod 128 + 128) with (v mod 128 + 1 * 128) by lia. apply Z.mod_add. lia. }
    assert (0 < togo)%nat as Hleft.
    { destruct togo; [|lia]. replace s with 63 in Hb by lia. nia. }
    assert (0 < 2 ^ s) by (apply Z.pow_pos_nonneg; lia).
    assert (2 ^ (s + 7) = 2 ^ s * 128) as Hp by (rewrite Z.pow_add_r by lia; done).
    pose proof (Z.div_mod v 128 ltac:(lia)).
    rewrite Hl2, lor_shiftl_add by lia. rewrite Z.shiftr_div_pow2 by lia. change (2 ^ 7) with 128.
    assert (x + v * 2 ^ s = (x + v mod 128 * 2 ^ s) + v / 128 * 2 ^ (s + 7)) as -> by nia.
    apply IH; try lia; try nia.
Qed.

Lemma reads_PutUvarint v : is_u 64 v → reads ReadUvarint (PutUvarint v) v.
Proof.
  intros [H0 H1]. unfold ReadUvarint, PutUvarint.
  pose proof (PutUvarint_loop_reads 10 true 0 0 v) as Hr. cbn -[PutUvarint_loop ReadUvarint_loop] in Hr.
  rewrite Z.mul_1_r in Hr. apply Hr; lia.
Qed.

(** [WriteUvarint] of sing/common/varbin writes what [binary.ReadUvarint] reads. *)
Class VarbinLib := {
  varbin_WriteUvarint : Z → list byte;
  reads_uvarint : ∀ v, is_u 64 v → reads ReadUvarint (varbin_WriteUvarint v) v
}.
Definition StdVarbin : VarbinLib := {|
  varbin_WriteUvarint := PutUvarint;
  reads_uvarint := reads_PutUvarint
|}.
