(* ===== verification/Adapter.v ===== *)
(** * Data that the components of the router share (package adapter), and what they use of
    libraries outside the repository

    [InboundContext] is the metadata record every rule reads and the rule matcher writes.  The
    libraries the router imports are operations of the class [ExtLib]: nothing is assumed about
    them here, and a theorem that needs a documented fact of one of them states it. *)

From stdpp Require Import base gmap strings list numbers.
From S2P Require Import Prelude GoStd Netip.

Local Open Scope Z_scope.

(** ** Libraries outside the repository *)

(** [M.Socksaddr] of sing/common/metadata, with the fields the router reads and builds. *)
Record Socksaddr : Type := mkSocksaddr {
  sa_Addr : Addr;
  sa_Port : Z;
  sa_Fqdn : string
}.
#[global] Instance Socksaddr_settable : Settable Socksaddr :=
  {| mkT r := mkSocksaddr (sa_Addr r) (sa_Port r) (sa_Fqdn r) |}.
#[global] Instance Socksaddr_eq_dec : EqDecision Socksaddr.
Proof. solve_decision. Defined.

Definition Socksaddr_zero : Socksaddr := mkSocksaddr AddrInvalid 0 "".

(** One range of an IP set, both ends included, in the layout of [netipx.IPSet] that
    common/srs/ip_set.go relies on. *)
Record IPRange : Type := mkIPRange { ipr_from : Addr; ipr_to : Addr }.
Abbreviation IPSet := (list IPRange).

#[global] Instance IPRange_eq_dec : EqDecision IPRange.
Proof. solve_decision. Defined.

Class ExtLib := {
  ext_unicode : UnicodeTables;

  (** sing/common/format: the text of a list of values *)
  F_ToString : list arg → string;

  (** sing/common/metadata *)
  Socksaddr_IsIP : Socksaddr → bool;
  Socksaddr_IsIPv4 : Socksaddr → bool;
  Socksaddr_IsIPv6 : Socksaddr → bool;
  Socksaddr_IsFqdn : Socksaddr → bool;
  Socksaddr_IsValid : Socksaddr → bool;
  ParseSocksaddrHostPort : string → Z → Socksaddr;
  IsDomainName : string → bool;
  Socksaddr_AddrString : Socksaddr → string;

  (** sing/common/network *)
  IsPublicAddr : Addr → bool;

  (** regexp *)
  Regexp : Type;
  regexp_Compile : string → res Regexp;
  Regexp_MatchString : Regexp → string → bool;

  (** the text syntax of net/netip *)
  netip_ParsePrefix : string → res Prefix;
  netip_ParseAddr : string → res Addr;
  Prefix_String : Prefix → string;

  (** go4.org/netipx *)
  IPSetBuilder : Type;
  IPSetBuilder_zero : IPSetBuilder;
  IPSetBuilder_AddPrefix : Prefix → IPSetBuilder → IPSetBuilder;
  IPSetBuilder_Add : Addr → IPSetBuilder → IPSetBuilder;
  IPSetBuilder_IPSet : IPSetBuilder → res IPSet;
  IPSet_Contains : IPSet → Addr → bool;

  (** sing/common/json/badoption *)
  Prefixable : Type;
  Prefixable_Build : option Prefixable → Prefix → Prefix;

  (** sing/common/domain *)
  Matcher : Type;
  domain_NewMatcher : list string → list string → bool → Matcher;
  Matcher_Match : Matcher → string → bool;
  AdGuardMatcher : Type;
  domain_NewAdGuardMatcher : list string → AdGuardMatcher;
  AdGuardMatcher_Match : AdGuardMatcher → string → bool;

  (** the type names of github.com/miekg/dns *)
  mDNS_TypeToString : Z → option string
}.
#[global] Existing Instance ext_unicode.

(** A concrete choice of the operations, for examples: regular expressions are plain texts,
    addresses are written as decimal numbers, and an IP set keeps one range per entry. *)
Definition sample_range (p : Prefix) : IPRange :=
  match Prefix_Addr p with
  | AddrInvalid => mkIPRange AddrInvalid AddrInvalid
  | Addr4 _ => mkIPRange (Addr4 (Prefix_base p)) (Addr4 (Prefix_base p + Prefix_size p - 1))
  | Addr6 _ z =>
      mkIPRange (Addr6 (Prefix_base p) z) (Addr6 (Prefix_base p + Prefix_size p - 1) z)
  end.

Definition sample_in_range (a : Addr) (r : IPRange) : bool :=
  match ipr_from r, a with
  | Addr4 lo, Addr4 v => Z.leb lo v && Z.leb v (Addr_val (ipr_to r))
  | Addr6 lo _, Addr6 v _ => Z.leb lo v && Z.leb v (Addr_val (ipr_to r))
  | _, _ => false
  end.

Definition SampleLib : ExtLib := {|
  ext_unicode := {| unicode_ToLower := id; unicode_EqualFold := String.eqb |};
  F_ToString l := strings_Join (flat_map (λ a, match a with AStr s => [s] | AInt _ => [] end) l) "";
  Socksaddr_IsIP a := Addr_IsValid (sa_Addr a);
  Socksaddr_IsIPv4 a := Addr_Is4 (sa_Addr a);
  Socksaddr_IsIPv6 a := Addr_Is6 (sa_Addr a);
  Socksaddr_IsFqdn a := negb (String.eqb (sa_Fqdn a) "");
  Socksaddr_IsValid a := Addr_IsValid (sa_Addr a) || negb (String.eqb (sa_Fqdn a) "");
  ParseSocksaddrHostPort host port := mkSocksaddr AddrInvalid port host;
  IsDomainName s := negb (String.eqb s "") && string_all (λ c,
    let n := nat_of_ascii c in
    (Nat.leb 97 n && Nat.leb n 122) || (Nat.leb 65 n && Nat.leb n 90) || (Nat.leb 48 n && Nat.leb n 57) ||
    Ascii.eqb c "-" || Ascii.eqb c "." || Ascii.eqb c "_") s;
  Socksaddr_AddrString := sa_Fqdn;
  IsPublicAddr a := negb (sample_in_range a (mkIPRange (Addr4 0x0A000000) (Addr4 0x0AFFFFFF)));
  Regexp := string;
  regexp_Compile s := if String.eqb s "(" then Err (E_Ext "missing parenthesis") else Ok s;
  Regexp_MatchString r s := strings_Contains s r;
  netip_ParsePrefix s :=
    if strings_HasPrefix s "10." then Ok (PrefixFrom (Addr4 0x0A000000) 8)
    else Err (E_Ext "no prefix");
  netip_ParseAddr s := v ← ParseUint10 s 32; Ok (Addr4 v);
  Prefix_String _ := "prefix"%string;
  IPSetBuilder := IPSet;
  IPSetBuilder_zero := [];
  IPSetBuilder_AddPrefix p b := b ++ [sample_range p];
  IPSetBuilder_Add a b := b ++ [mkIPRange a a];
  IPSetBuilder_IPSet b := Ok b;
  IPSet_Contains s a := existsb (sample_in_range a) s;
  Prefixable := Prefix;
  Prefixable_Build p d := default d p;
  Matcher := list string * list string;
  domain_NewMatcher d s _ := (d, s);
  Matcher_Match m h := existsb (String.eqb h) m.1 || existsb (strings_HasSuffix h) m.2;
  AdGuardMatcher := list string;
  domain_NewAdGuardMatcher l := l;
  AdGuardMatcher_Match m h := existsb (String.eqb h) m;
  mDNS_TypeToString t := if Z.eqb t 1 then Some "A"%string else None
|}.

(** ** Metadata of a connection *)

(** The type is a [uint8]; a rule-set file may hold a number that has no name.

    [constant/network.go:8-15] InterfaceType *)
Inductive InterfaceType : Type :=
| InterfaceTypeWIFI
| InterfaceTypeCellular
| InterfaceTypeEthernet
| InterfaceTypeOther
| InterfaceTypeUnknown (value : Z).
#[global] Instance InterfaceType_eq_dec : EqDecision InterfaceType.
Proof. solve_decision. Defined.
#[global] Instance InterfaceType_countable : Countable InterfaceType.
Proof.
  refine (inj_countable'
    (λ t, match t with
          | InterfaceTypeWIFI => inl 0 | InterfaceTypeCellular => inl 1
          | InterfaceTypeEthernet => inl 2 | InterfaceTypeOther => inl 3
          | InterfaceTypeUnknown v => inr v end)
    (λ n, match n with
          | inr v => InterfaceTypeUnknown v
          | inl n =>
              if decide (n = 0) then InterfaceTypeWIFI else
              if decide (n = 1) then InterfaceTypeCellular else
              if decide (n = 2) then InterfaceTypeEthernet else InterfaceTypeOther
          end) _).
  by intros [].
Defined.

(** [constant/network.go:35-41] NetworkStrategy *)
Inductive NetworkStrategy : Type :=
| NetworkStrategyDefault
| NetworkStrategyFallback
| NetworkStrategyHybrid.

(** [constant/dns.go:7-15] DomainStrategy *)
Inductive DomainStrategy : Type :=
| DomainStrategyAsIS
| DomainStrategyPreferIPv4
| DomainStrategyPreferIPv6
| DomainStrategyIPv4Only
| DomainStrategyIPv6Only.
#[global] Instance DomainStrategy_eq_dec : EqDecision DomainStrategy.
Proof. solve_decision. Defined.

(** [adapter/platform.go:49-55] ConnectionOwner *)
Record ConnectionOwner : Type := mkConnectionOwner {
  co_ProcessID : Z;
  co_UserId : Z;
  co_UserName : string;
  co_ProcessPath : string;
  co_AndroidPackageName : string
}.

(** [option/inbound.go:52-59] InboundOptions *)
Record InboundOptions : Type := mkInboundOptions {
  io_SniffEnabled : bool;
  io_SniffOverrideDestination : bool;
  io_SniffTimeout : Z;
  io_DomainStrategy : DomainStrategy;
  io_UDPDisableDomainUnmapping : bool;
  io_Detour : string
}.
#[global] Instance InboundOptions_eq_dec : EqDecision InboundOptions.
Proof. solve_decision. Defined.
Definition InboundOptions_zero : InboundOptions :=
  mkInboundOptions false false 0 DomainStrategyAsIS false "".

(** The fields of [InboundContext] under "rule cache".

    [adapter/inbound.go:91-102] InboundContext (rule cache) *)
Record RuleCache : Type := mkRuleCache {
  IPCIDRMatchSource : bool;
  IPCIDRAcceptEmpty : bool;
  SourceAddressMatch : bool;
  SourcePortMatch : bool;
  DestinationAddressMatch : bool;
  DestinationPortMatch : bool;
  DidMatch : bool;
  IgnoreDestinationIPCIDRMatch : bool
}.
#[global] Instance RuleCache_settable : Settable RuleCache :=
  {| mkT r := mkRuleCache (IPCIDRMatchSource r) (IPCIDRAcceptEmpty r) (SourceAddressMatch r)
       (SourcePortMatch r) (DestinationAddressMatch r) (DestinationPortMatch r) (DidMatch r)
       (IgnoreDestinationIPCIDRMatch r) |}.
#[global] Instance RuleCache_eq_dec : EqDecision RuleCache.
Proof. solve_decision. Defined.

Definition RuleCache_zero : RuleCache :=
  mkRuleCache false false false false false false false false.

(** [common/sniff/quic.go:369-373] qCryptoFragment *)
Record qCryptoFragment : Type := mkqCryptoFragment {
  qf_offset : Z;
  qf_length : Z;
  qf_payload : list byte
}.

(** The record without the geo codes, which nothing reads.  [SniffContext] is [nil] or what the QUIC
    sniffer, its only user, keeps in it: the fragments received so far.

    [adapter/inbound.go:43-89] InboundContext *)
Record InboundContext : Type := mkInboundContext {
  ic_Inbound : string;
  ic_InboundType : string;
  ic_IPVersion : Z;
  ic_Network : string;
  ic_Source : Socksaddr;
  ic_Destination : Socksaddr;
  ic_User : string;
  ic_Outbound : string;
  ic_Protocol : string;
  ic_Domain : string;
  ic_Client : string;
  ic_SniffContext : option (list qCryptoFragment);
  ic_SnifferNames : list string;
  ic_SniffError : option error;
  ic_InboundDetour : string;
  ic_LastInbound : string;
  ic_OriginDestination : Socksaddr;
  ic_RouteOriginalDestination : Socksaddr;
  ic_InboundOptions : InboundOptions;
  ic_UDPDisableDomainUnmapping : bool;
  ic_UDPConnect : bool;
  ic_UDPTimeout : Z;
  ic_TLSFragment : bool;
  ic_TLSFragmentFallbackDelay : Z;
  ic_TLSRecordFragment : bool;
  ic_NetworkStrategy : option NetworkStrategy;
  ic_NetworkType : list InterfaceType;
  ic_FallbackNetworkType : list InterfaceType;
  ic_FallbackDelay : Z;
  ic_DestinationAddresses : list Addr;
  ic_ProcessInfo : option ConnectionOwner;
  ic_QueryType : Z;
  ic_FakeIP : bool;
  ic_cache : RuleCache
}.
#[global] Instance InboundContext_settable : Settable InboundContext :=
  {| mkT r := mkInboundContext (ic_Inbound r) (ic_InboundType r) (ic_IPVersion r) (ic_Network r)
       (ic_Source r) (ic_Destination r) (ic_User r) (ic_Outbound r) (ic_Protocol r) (ic_Domain r)
       (ic_Client r) (ic_SniffContext r) (ic_SnifferNames r) (ic_SniffError r) (ic_InboundDetour r)
       (ic_LastInbound r) (ic_OriginDestination r) (ic_RouteOriginalDestination r)
       (ic_InboundOptions r) (ic_UDPDisableDomainUnmapping r) (ic_UDPConnect r)
       (ic_UDPTimeout r) (ic_TLSFragment r) (ic_TLSFragmentFallbackDelay r)
       (ic_TLSRecordFragment r) (ic_NetworkStrategy r) (ic_NetworkType r)
       (ic_FallbackNetworkType r) (ic_FallbackDelay r) (ic_DestinationAddresses r)
       (ic_ProcessInfo r) (ic_QueryType r) (ic_FakeIP r) (ic_cache r) |}.

Definition InboundContext_zero : InboundContext :=
  mkInboundContext "" "" 0 "" Socksaddr_zero Socksaddr_zero "" "" "" "" "" None [] None "" ""
    Socksaddr_zero Socksaddr_zero InboundOptions_zero false false 0 false 0 false None [] [] 0
    [] None 0 false RuleCache_zero.

(** Set one flag of the rule cache. *)
Definition upd_cache (f : RuleCache → RuleCache) (c : InboundContext) : InboundContext :=
  c <| ic_cache := f (ic_cache c) |>.

(** The reset leaves [IgnoreDestinationIPCIDRMatch] alone.

    [adapter/inbound.go:104-112] (InboundContext).ResetRuleCache *)
Definition ResetRuleCache (c : InboundContext) : InboundContext :=
  upd_cache (λ r, r <| IPCIDRMatchSource := false |> <| IPCIDRAcceptEmpty := false |>
    <| SourceAddressMatch := false |> <| SourcePortMatch := false |>
    <| DestinationAddressMatch := false |> <| DestinationPortMatch := false |>
    <| DidMatch := false |>) c.

(** ** What the rules read of the running system *)

(** [control.Interface] of sing, with the fields the rules and the network manager read, and the fields
    that [adapter.NetworkInterface] adds to it. *)
Record Interface : Type := mkInterface {
  if_Index : Z;
  if_Name : string;
  if_Addresses : list Prefix;
  if_Flags : Z
}.

(** [adapter/network.go:54-60] NetworkInterface *)
Record NetworkInterface : Type := mkNetworkInterface {
  ni_Interface : Interface;
  ni_Type : InterfaceType;
  ni_Expensive : bool;
  ni_Constrained : bool
}.

(** [adapter/network.go:49-52] WIFIState *)
Record WIFIState : Type := mkWIFIState { wifi_SSID : string; wifi_BSSID : string }.

(** What [outboundManager.Outbound(tag)] gives a [PreferredByItem]: the type name of the outbound,
    and its preferred routes when it is an [OutboundWithPreferredRoutes]. *)
Record PreferredRoutes : Type := mkPreferredRoutes {
  PreferredDomain : string → bool;
  PreferredAddress : Addr → bool
}.

(** The services of the context at the moment of a call: the network manager, the default
    interface monitor, the Clash server and the outbounds. *)
Record Env : Type := mkEnv {
  env_DefaultNetworkInterface : option NetworkInterface;
  env_NetworkInterfaces : list NetworkInterface;
  env_Interfaces : list Interface;
  env_DefaultInterface : option Interface;
  env_WIFIState : WIFIState;
  env_ClashMode : option string;
  env_Outbound : string → option (string * option PreferredRoutes)
}.

(** ** Lemmas *)

(** Contexts that differ in the rule cache only. *)
Definition same_request (c c' : InboundContext) : Prop :=
  c' = c <| ic_cache := ic_cache c' |>.

Lemma same_request_refl c : same_request c c.
Proof. by destruct c. Qed.

Lemma same_request_trans c c' c'' :
  same_request c c' → same_request c' c'' → same_request c c''.
Proof. unfold same_request. intros H1 H2. rewrite H2, H1. by destruct c. Qed.

Lemma same_request_sym c c' : same_request c c' → same_request c' c.
Proof. unfold same_request. intros ->. by destruct c. Qed.

Lemma same_request_upd f c : same_request c (upd_cache f c).
Proof. by destruct c. Qed.

Lemma same_request_Reset c : same_request c (ResetRuleCache c).
Proof. exact (same_request_upd _ c). Qed.

#[global] Instance same_request_equiv : Equivalence same_request.
Proof.
  split; [exact same_request_refl|exact same_request_sym|exact same_request_trans].
Qed.

#[export] Hint Resolve same_request_refl same_request_upd same_request_Reset : dbox.

(** After a reset only [IgnoreDestinationIPCIDRMatch] of the old cache is left. *)
Lemma ResetRuleCache_eq c c' :
  same_request c c' →
  IgnoreDestinationIPCIDRMatch (ic_cache c) = IgnoreDestinationIPCIDRMatch (ic_cache c') →
  ResetRuleCache c = ResetRuleCache c'.
Proof.
  unfold same_request. intros -> Hi. revert Hi. cbn. generalize (ic_cache c'). intros rc Hi.
  destruct c as [], rc as []; cbn in *. by rewrite Hi.
Qed.
