(* ===== verification/Streams.v ===== *)
(** * Connections as sequences of segments (packages io, net and bufio)

    The bytes of a connection arrive in segments; a read gives at most one of them, or its beginning.
    What is written in one piece may arrive in several and the other way round, so that a protocol is
    right only if it does not depend on the segments.  [of_reader] is a reader on a connection that
    reads what it needs in full; [stream_reads] says that it then depends on the bytes only. *)

From stdpp Require Import base gmap strings list numbers.
From S2P Require Import Prelude GoStd Netip GoIO.

Local Open Scope Z_scope.

(** After the segments the connection is closed by the peer. *)
Definition Stream : Type := list (list byte).
Definition OnConn (A : Type) : Type := Stream → res A * Stream.

#[global] Instance OnConn_ret : MRet OnConn := λ A a s, (Ok a, s).
#[global] Instance OnConn_bind : MBind OnConn := λ A B k r s,
  match r s with
  | (Ok a, s) => k a s
  | (Err e, s) => (Err e, s)
  | (Panic p, s) => (Panic p, s)
  end.
Definition conn_res {A} (r : res A) : OnConn A := λ s, (r, s).
Definition conn_cause {A} (parts : list arg) (r : OnConn A) : OnConn A := λ s,
  let '(a, s) := r s in (wrap_err parts a, s).

(** [conn.Read] with [n] bytes of room. *)
Definition Conn_Read (n : nat) : OnConn (list byte) := λ s,
  match s with
  | [] => (Err io_EOF, [])
  | segment :: s =>
      if Nat.leb (length segment) n then (Ok segment, s) else (Ok (take n segment), drop n segment :: s)
  end.

(** What is left after [n] bytes. *)
Fixpoint drop_stream (n : nat) (s : Stream) : Stream :=
  match s with
  | [] => []
  | segment :: s' =>
      if Nat.eqb n 0 then s else
      if Nat.leb (length segment) n then drop_stream (n - length segment) s' else drop n segment :: s'
  end.

(** [io.ReadFull(conn, make([]byte, n))]: reads until there are [n] bytes. *)
Fixpoint read_more (n : nat) (have : list byte) (s : Stream) : res (list byte) * Stream :=
  if Nat.eqb n 0 then (Ok have, s) else
  match s with
  | [] => (Err (if nonempty have then io_ErrUnexpectedEOF else io_EOF), [])
  | segment :: s' =>
      if Nat.leb (length segment) n then read_more (n - length segment) (have ++ segment) s'
      else (Ok (have ++ take n segment), drop n segment :: s')
  end.
Definition stream_ReadFull (n : nat) : OnConn (list byte) := read_more n [].

(** A reader that asks for what it needs in full, on a connection. *)
Definition of_reader {A} (r : Reader A) : OnConn A := λ s,
  let '(a, rest) := r (concat s) in (a, drop_stream (length (concat s) - length rest) s).

(** ** Lemmas *)

Lemma concat_drop_stream n s : concat (drop_stream n s) = drop n (concat s).
Proof.
  revert n. induction s as [|segment s IH]; intros n; cbn [drop_stream]; [by destruct n|].
  destruct (Nat.eqb_spec n 0) as [->|Hn]; [done|]. cbn [concat].
  destruct (Nat.leb_spec (length segment) n).
  - rewrite IH, drop_app_ge by done. done.
  - cbn [concat]. rewrite drop_app_le by lia. done.
Qed.

Lemma drop_stream_0 s : drop_stream 0 s = s.
Proof. by destruct s. Qed.

Lemma drop_stream_add n m s : drop_stream n (drop_stream m s) = drop_stream (m + n) s.
Proof.
  revert n m. induction s as [|segment s IH]; intros n m; [done|]. cbn [drop_stream].
  destruct (Nat.eqb_spec m 0) as [->|Hm]; [done|].
  rewrite (proj2 (Nat.eqb_neq (m + n) 0)) by lia.
  destruct (Nat.leb_spec (length segment) m) as [Hl|Hl].
  - rewrite IH, (proj2 (Nat.leb_le (length segment) (m + n))) by lia. f_equal. lia.
  - cbn [drop_stream]. destruct (Nat.eqb_spec n 0) as [->|Hn].
    + rewrite Nat.add_0_r. rewrite (proj2 (Nat.leb_gt (length segment) m)) by lia. done.
    + rewrite length_drop. destruct (Nat.leb_spec (length segment - m) n).
      * rewrite (proj2 (Nat.leb_le (length segment) (m + n))) by lia. f_equal. lia.
      * rewrite (proj2 (Nat.leb_gt (length segment) (m + n))) by lia. by rewrite drop_drop.
Qed.

(** Reading in full depends on the bytes only. *)
Lemma read_more_full n s : ∀ acc,
  read_more n acc s =
    if Nat.leb n (length (concat s)) then (Ok (acc ++ take n (concat s)), drop_stream n s)
    else (Err (if nonempty (acc ++ concat s) then io_ErrUnexpectedEOF else io_EOF), []).
Proof.
  revert n. induction s as [|segment s IH]; intros n acc; cbn [read_more concat length drop_stream].
  - destruct (Nat.eqb_spec n 0) as [->|Hn]; [cbn; by rewrite app_nil_r|].
    by rewrite (proj2 (Nat.leb_gt n 0)), app_nil_r by lia.
  - destruct (Nat.eqb_spec n 0) as [->|Hn]; [cbn; by rewrite app_nil_r|].
    rewrite length_app. destruct (Nat.leb_spec (length segment) n) as [Hl|Hl].
    + rewrite IH. destruct (Nat.leb_spec (n - length segment) (length (concat s))).
      * rewrite (proj2 (Nat.leb_le n (length segment + length (concat s)))) by lia.
        by rewrite take_app_ge, app_assoc by lia.
      * rewrite (proj2 (Nat.leb_gt n (length segment + length (concat s)))) by lia.
        by rewrite app_assoc.
    + rewrite (proj2 (Nat.leb_le n (length segment + length (concat s)))) by lia.
      by rewrite take_app_le by lia.
Qed.

(** [io.ReadFull] is the reader of [n] bytes, on a connection. *)
Lemma stream_ReadFull_reader n s : (stream_ReadFull n s).1 = (of_reader (ReadFull n) s).1 ∧
  (is_ok (stream_ReadFull n s).1 = true → (stream_ReadFull n s).2 = (of_reader (ReadFull n) s).2).
Proof.
  unfold stream_ReadFull, of_reader, ReadFull. rewrite read_more_full. cbn [app].
  rewrite length_take. destruct (Nat.leb_spec n (length (concat s))) as [Hl|Hl].
  - rewrite (proj2 (Nat.ltb_ge _ _)) by lia. rewrite length_drop. split; [done|]. intros _. cbn. f_equal. lia.
  - rewrite (proj2 (Nat.ltb_lt _ _)) by lia. done.
Qed.

(** ** What is read of a connection *)

(** Whatever the segments, an operation takes exactly some bytes and gives a value. *)
Definition stream_reads {A} (r : OnConn A) (bytes : list byte) (a : A) : Prop :=
  ∀ s rest, concat s = bytes ++ rest → r s = (Ok a, drop_stream (length bytes) s).

Lemma of_reader_reads {A} (r : Reader A) bytes a : reads r bytes a → stream_reads (of_reader r) bytes a.
Proof.
  intros Hr s rest Hs. unfold of_reader. rewrite Hs, Hr. f_equal. f_equal. rewrite length_app. lia.
Qed.

Lemma stream_reads_full l : stream_reads (stream_ReadFull (length l)) l l.
Proof.
  intros s rest Hs. unfold stream_ReadFull. rewrite read_more_full, Hs. cbn [app].
  rewrite length_app, (proj2 (Nat.leb_le _ _)) by lia. by rewrite take_app_length.
Qed.

Lemma stream_reads_ret {A} (a : A) : stream_reads (mret a) [] a.
Proof. intros s rest _. cbn. by rewrite drop_stream_0. Qed.

Lemma stream_reads_cause {A} parts (r : OnConn A) bytes a : stream_reads r bytes a → stream_reads (conn_cause parts r) bytes a.
Proof. intros Hr s rest Hs. unfold conn_cause. by rewrite (Hr s rest Hs). Qed.

Lemma stream_reads_bind {A B} (r : OnConn A) (k : A → OnConn B) b1 b2 a b :
  stream_reads r b1 a → stream_reads (k a) b2 b → stream_reads (r ≫= k) (b1 ++ b2) b.
Proof.
  intros Hr Hk s rest Hs. rewrite <-app_assoc in Hs. unfold mbind, OnConn_bind. rewrite (Hr s (b2 ++ rest) Hs).
  rewrite (Hk _ rest), drop_stream_add, length_app; [done|]. by rewrite concat_drop_stream, Hs, drop_app_length.
Qed.

(** What an operation leaves. *)
Lemma stream_reads_rest {A} (r : OnConn A) bytes a s rest :
  stream_reads r bytes a → concat s = bytes ++ rest →
  ∃ s', r s = (Ok a, s') ∧ concat s' = rest.
Proof.
  intros Hr Hs. exists (drop_stream (length bytes) s). split; [by apply (Hr s rest)|].
  by rewrite concat_drop_stream, Hs, drop_app_length.
Qed.

(** One read gives the beginning of what is there. *)
Lemma Conn_Read_spec n s :
  match Conn_Read n s with
  | (Ok l, s') => concat s = l ++ concat s' ∧ (length l ≤ n)%nat
  | (Err _, s') => s = [] ∧ s' = []
  | (Panic _, _) => False
  end.
Proof.
  destruct s as [|segment s]; [done|]. cbn [Conn_Read]. destruct (Nat.leb_spec (length segment) n); [done|].
  cbn [concat]. rewrite app_assoc, take_drop, length_take. split; [done|lia].
Qed.

(** What is left of segments without empty ones has no empty ones. *)
Lemma drop_stream_nonempty n s : Forall (λ l, l ≠ []) s → Forall (λ l, l ≠ []) (drop_stream n s).
Proof.
  intros Hs. revert n. induction Hs as [|segment s Hne Hs IH]; intros n; cbn [drop_stream]; [done|].
  destruct (Nat.eqb n 0); [by constructor|]. destruct (Nat.leb_spec (length segment) n) as [|Hl]; [apply IH|].
  constructor; [|done]. intros He%(f_equal length). rewrite length_drop in He. cbn in He. lia.
Qed.

Lemma concat_nil_nonempty (s : Stream) : Forall (λ l, l ≠ []) s → concat s = [] → s = [].
Proof. intros [|segment s' Hne _]; [done|]. cbn. by intros [-> _]%app_nil. Qed.

Lemma Conn_Read_nonempty n s : Forall (λ l, l ≠ []) s → s ≠ [] → (0 < n)%nat →
  ∃ l s', Conn_Read n s = (Ok l, s') ∧ l ≠ [] ∧ Forall (λ l, l ≠ []) s'.
Proof.
  intros [|segment s' Hne Hs]; [done|]. intros _ Hn. cbn [Conn_Read].
  destruct (Nat.leb_spec (length segment) n) as [Hl|Hl]; eexists _, _; (split; [reflexivity|]); [done|].
  split; [intros He%(f_equal length); rewrite length_take in He; cbn in He; lia|]. constructor; [|done]. intros He%(f_equal length). rewrite length_drop in He. cbn in He. lia.
Qed.

(** ** What a writer has written, and what a reader delivers *)

(** A connection that accepts everything. *)
Definition record (p : list byte) (w : list (list byte)) : option error * list (list byte) := (None, w ++ [p]).

(** What a [Read] gives: the bytes and the error. *)
Definition ReadResult : Type := list byte * option error.

(** [conn.Read] and [io.ReadFull], with the bytes that were read also in the case of an error. *)
Definition read_once (n : nat) (s : Stream) : ReadResult * Stream :=
  match Conn_Read n s with
  | (Ok l, s) => ((l, None), s)
  | (Err e, s) => (([], Some e), s)
  | (Panic _, s) => (([], None), s)
  end.
Definition read_full (n : nat) (s : Stream) : ReadResult * Stream :=
  match stream_ReadFull n s with
  | (Ok l, s) => ((l, None), s)
  | (Err e, _) => ((concat s, Some e), [])
  | (Panic _, s) => (([], None), s)
  end.

Lemma read_full_app l s rest : concat s = l ++ rest → read_full (length l) s = ((l, None), drop_stream (length l) s).
Proof. intros Hs. unfold read_full. by rewrite (stream_reads_full l s rest Hs). Qed.

(** A connection [T] over another, whose reads are asked for some bytes each. *)
Section Delivery.
Context {T : Type} (read : nat → T → Stream → ReadResult * T * Stream).

(** The bytes of reads of the sizes [ns], up to the first error. *)
Fixpoint run_reads (ns : list nat) (t : T) (s : Stream) : ReadResult :=
  match ns with
  | [] => ([], None)
  | n :: ns =>
      match read n t s with
      | ((l, Some e), _, _) => (l, Some e)
      | ((l, None), t, s) => let '(l', e) := run_reads ns t s in (l ++ l', e)
      end
  end.

(** [pending t s D k]: the bytes [D] are still to come, in at most [k] reads. *)
Context (pending : T → Stream → list byte → nat → Prop).
Context (step : ∀ n t s D k, (0 < n)%nat → pending t s D k →
  (D = [] ∧ ∃ t' s', read n t s = (([], Some io_EOF), t', s')) ∨
  ∃ l t' s' D' k', read n t s = ((l, None), t', s') ∧ D = l ++ D' ∧ (k' < k)%nat ∧ pending t' s' D' k').

(** Whatever the sizes, the reads give the bytes in order; and enough of them give all, and the end. *)
Lemma run_reads_delivers ns : ∀ t s D k, Forall (λ n, 0 < n)%nat ns → pending t s D k →
  (run_reads ns t s).1 `prefix_of` D ∧
  ((k < length ns)%nat → run_reads ns t s = (D, Some io_EOF)).
Proof.
  induction ns as [|n ns IH]; intros t s D k Hns Hp; cbn [run_reads].
  { split; [apply prefix_nil|cbn; lia]. }
  apply List.Forall_cons_iff in Hns as [Hn Hns].
  destruct (step n t s D k Hn Hp) as [[-> (t' & s' & ->)]|(l & t' & s' & D' & k' & -> & -> & Hk & Hp')]; [done|].
  destruct (IH t' s' D' k' Hns Hp') as [Hpre Hall]. destruct (run_reads ns t' s') as [l' e]. cbn [fst] in *.
  split; [by apply prefix_app|]. cbn [length]. intros Hlen. assert (k' < length ns)%nat as Hl by lia. specialize (Hall Hl). by injection Hall as -> ->.
Qed.

End Delivery.

(** ** Buffered readers *)

(** A [bufio.Reader]: what is buffered, and the connection; it is filled with one read of 4096 bytes. *)
Definition BufReader : Type := list byte * Stream.
Definition bufio_fill (r : BufReader) : BufReader :=
  match r with
  | ([], conn) => match Conn_Read 4096 conn with (Ok l, conn) => (l, conn) | (_, conn) => ([], conn) end
  | r => r
  end.

(** What is left of it after [n] bytes. *)
Fixpoint bufio_advance (fuel n : nat) (r : BufReader) : BufReader :=
  match fuel with
  | O => r
  | S fuel =>
      if Nat.eqb n 0 then r else
      let '(buffered, conn) := bufio_fill r in
      if Nat.leb (length buffered) n then bufio_advance fuel (n - length buffered) ([], conn)
      else (drop n buffered, conn)
  end.

(** A reader of less than 4096 bytes at a time on it. *)
Definition on_bufio {A} (read : Reader A) (r : BufReader) : res A * BufReader :=
  let all := r.1 ++ concat r.2 in
  let '(a, rest) := read all in
  let n := (length all - length rest)%nat in (a, bufio_advance (S (length all + length r.2)) n r).

(** [Read] of it: what is buffered, or a read of the connection, straight when there is much room. *)
Definition bufio_Read (n : nat) (r : BufReader) : ReadResult * BufReader :=
  if Nat.eqb n 0 then (([], None), r) else
  match r with
  | ([], conn) =>
      if Nat.leb 4096 n then let '(x, conn) := read_once n conn in (x, ([], conn)) else
      match read_once 4096 conn with
      | ((l, None), conn) => ((take n l, None), (drop n l, conn))
      | ((_, Some e), conn) => (([], Some e), ([], conn))
      end
  | (buffered, conn) => ((take n buffered, None), (drop n buffered, conn))
  end.

(** Everything that is still to be read of it. *)
Definition br_bytes (r : BufReader) : list byte := r.1 ++ concat r.2.

Lemma bufio_fill_bytes r : br_bytes (bufio_fill r) = br_bytes r.
Proof.
  destruct r as [[|b l] conn]; [|done]. unfold bufio_fill. pose proof (Conn_Read_spec 4096 conn) as Hs.
  destruct (Conn_Read 4096 conn) as [[l|e|p] conn']; unfold br_bytes; cbn; [by destruct Hs|by destruct Hs as [-> ->]|done].
Qed.

Lemma bufio_fill_shorter r : br_bytes r ≠ [] →
  (length (bufio_fill r).1 + length (bufio_fill r).2 > length r.2 ∨ length (bufio_fill r).2 < length r.2)%nat.
Proof.
  destruct r as [[|b l] conn]; [|intros _; left; cbn; lia]. intros Hne. destruct conn as [|segment conn]; [done|].
  unfold bufio_fill. cbn [Conn_Read]. destruct (Nat.leb_spec (length segment) 4096) as [Hl|Hl]; cbn [fst snd length]; [right; lia|].
  left. rewrite length_take. lia.
Qed.

Lemma bufio_advance_bytes fuel : ∀ n r, (n ≤ length (br_bytes r))%nat → (n + length r.2 < fuel)%nat →
  br_bytes (bufio_advance fuel n r) = drop n (br_bytes r).
Proof.
  induction fuel as [|fuel IH]; intros n r Hn Hf; [lia|]. cbn [bufio_advance].
  destruct (Nat.eqb_spec n 0) as [->|Hz]; [done|].
  pose proof (bufio_fill_bytes r) as Hb. assert (br_bytes r ≠ []) as Hne by (intros He; rewrite He in Hn; cbn in Hn; lia).
  pose proof (bufio_fill_shorter r Hne) as Hs.
  assert (length (bufio_fill r).2 ≤ length r.2)%nat as Hle.
  { clear. destruct r as [[|b l] [|segment conn]]; cbn; try lia. destruct (Nat.leb (length segment) _); cbn; lia. }
  destruct (bufio_fill r) as [buffered conn]. cbn [fst snd] in *. rewrite <-Hb. rewrite <-Hb in Hn.
  unfold br_bytes in *. cbn [fst snd] in *.
  destruct (Nat.leb_spec (length buffered) n) as [Hl|Hl].
  - rewrite IH; cbn [fst snd app].
    + rewrite drop_app_ge by done. done.
    + rewrite length_app in Hn. lia.
    + lia.
  - cbn [fst snd]. by rewrite drop_app_le by lia.
Qed.

(** A reader on it takes its bytes. *)
Lemma on_bufio_reads {A} (read : Reader A) bytes a r rest : reads read bytes a → br_bytes r = bytes ++ rest →
  ∃ r', on_bufio read r = (Ok a, r') ∧ br_bytes r' = rest.
Proof.
  intros Hr Hb. unfold on_bufio. change (r.1 ++ concat r.2) with (br_bytes r). rewrite Hb, Hr.
  eexists. split; [reflexivity|]. rewrite length_app, Nat.add_sub. rewrite bufio_advance_bytes.
  - by rewrite Hb, drop_app_length.
  - rewrite Hb, length_app. lia.
  - lia.
Qed.

(** The connection under it has no empty segments. *)
Definition br_ok (r : BufReader) : Prop := Forall (λ l, l ≠ []) r.2.

Lemma Conn_Read_ok n s : Forall (λ l, l ≠ []) s → Forall (λ l, l ≠ []) (Conn_Read n s).2.
Proof.
  intros [|segment s' Hne Hs]; [done|]. cbn [Conn_Read]. destruct (Nat.leb_spec (length segment) n) as [|Hl]; [done|].
  constructor; [|done]. intros He%(f_equal length). rewrite length_drop in He. cbn in He. lia.
Qed.

Lemma bufio_fill_ok r : br_ok r → br_ok (bufio_fill r).
Proof.
  destruct r as [[|b l] conn]; [|done]. unfold br_ok, bufio_fill. intros Hok. pose proof (Conn_Read_ok 4096 conn Hok) as Hr.
  by destruct (Conn_Read 4096 conn) as [[l|e|p] conn'].
Qed.

Lemma bufio_advance_ok fuel : ∀ n r, br_ok r → br_ok (bufio_advance fuel n r).
Proof.
  induction fuel as [|fuel IH]; intros n r Hok; [done|]. cbn [bufio_advance]. destruct (Nat.eqb n 0); [done|].
  pose proof (bufio_fill_ok r Hok) as Hf. destruct (bufio_fill r) as [buffered conn].
  destruct (Nat.leb _ _); [by apply IH|done].
Qed.

Lemma on_bufio_ok {A} (read : Reader A) r : br_ok r → br_ok (on_bufio read r).2.
Proof. intros Hok. unfold on_bufio. destruct (read _) as [a rest]. by apply bufio_advance_ok. Qed.

(** One read gives some of the bytes, or the end. *)
Lemma bufio_Read_spec n r : (0 < n)%nat → br_ok r →
  (br_bytes r = [] ∧ ∃ r', bufio_Read n r = (([], Some io_EOF), r') ∧ br_ok r' ∧ br_bytes r' = []) ∨
  ∃ l r', bufio_Read n r = ((l, None), r') ∧ br_bytes r = l ++ br_bytes r' ∧ l ≠ [] ∧ (length l ≤ n)%nat ∧ br_ok r'.
Proof.
  intros Hn Hok. destruct r as [[|b l] conn]; unfold bufio_Read; rewrite (proj2 (Nat.eqb_neq n 0)) by lia.
  - destruct conn as [|segment conn].
    { left. split; [done|]. destruct (Nat.leb 4096 n); by eexists. }
    right. assert (∀ m, (0 < m)%nat → ∃ l s', Conn_Read m (segment :: conn) = (Ok l, s') ∧ l ≠ [] ∧ (length l ≤ m)%nat ∧
      concat (segment :: conn) = l ++ concat s' ∧ Forall (λ l, l ≠ []) s') as Hr.
    { intros m Hm. destruct (Conn_Read_nonempty m (segment :: conn) Hok ltac:(done) Hm) as (l & s' & Hr & Hl & Hs').
      pose proof (Conn_Read_spec m (segment :: conn)) as Hsp. rewrite Hr in Hsp. destruct Hsp. by exists l, s'. }
    unfold br_bytes. cbn [fst snd app]. destruct (Nat.leb_spec 4096 n) as [Hge|Hlt].
    + destruct (Hr n Hn) as (l & s' & Hc & Hl & Hle & Hcat & Hs'). unfold read_once. rewrite Hc. exists l, ([], s'). done.
    + destruct (Hr 4096%nat ltac:(lia)) as (l & s' & Hc & Hl & _ & Hcat & Hs'). unfold read_once. rewrite Hc.
      exists (take n l), (drop n l, s'). split; [done|]. cbn [fst snd]. split; [by rewrite app_assoc, take_drop|].
      split; [intros He%(f_equal length); rewrite length_take in He; destruct l; [done|cbn in He; lia]|].
      split; [rewrite length_take; lia|done].
  - right. exists (take n (b :: l)), (drop n (b :: l), conn). split; [done|]. unfold br_bytes. cbn [fst snd].
    split; [by rewrite app_assoc, take_drop|]. split; [destruct n; [lia|done]|]. split; [rewrite length_take; lia|done].
Qed.
