(* ===== verification/SetItems.v ===== *)
(** * Rule items over fixed sets of values (route/rule/rule_item_*.go)

    The items that compare one field of the metadata with the values of the configuration: sets of
    names, ports, port ranges, query types, and the state of the network. *)

From stdpp Require Import base gmap strings list numbers.
From S2P Require Import Prelude GoStd Netip Adapter.

Local Open Scope Z_scope.

(** ** Go maps used as sets *)

(** [for _, x := range l { m[x] = true }] on an empty map, and the read [m[x]], [false] when the
    key is absent. *)
Definition make_set `{Countable K} (l : list K) : gmap K bool :=
  fold_left (λ m x, <[x := true]> m) l ∅.

Definition map_get `{Countable K} (m : gmap K bool) (x : K) : bool := default false (m !! x).

Section Items.
Context `{ExtLib}.

Definition F_MapToString (l : list arg) : list string := (λ x, F_ToString [x]) <$> l.

(** ** Names *)

(** [route/rule/rule_item_inbound.go:12-15] InboundItem *)
Record InboundItem : Type := mkInboundItem {
  ii_inbounds : list string;
  ii_inboundMap : gmap string bool
}.

(** [route/rule/rule_item_inbound.go:17-23] NewInboundRule *)
Definition NewInboundRule (inbounds : list string) : InboundItem :=
  mkInboundItem inbounds (make_set inbounds).

(** [route/rule/rule_item_inbound.go:25-27] (InboundItem).Match *)
Definition InboundItem_Match (r : InboundItem) (metadata : InboundContext) : bool :=
  map_get (ii_inboundMap r) (ic_Inbound metadata).

(** [route/rule/rule_item_inbound.go:29-35] (InboundItem).String *)
Definition InboundItem_String (r : InboundItem) : string :=
  match ii_inbounds r with
  | [x] => F_ToString [AStr "inbound="; AStr x]
  | l => F_ToString [AStr "inbound=["; AStr (strings_Join l " "); AStr "]"]
  end.

(** [route/rule/rule_item_network.go:12-15] NetworkItem *)
Record NetworkItem : Type := mkNetworkItem {
  ni_networks : list string;
  ni_networkMap : gmap string bool
}.

(** [route/rule/rule_item_network.go:17-26] NewNetworkItem *)
Definition NewNetworkItem (networks : list string) : NetworkItem :=
  mkNetworkItem networks (make_set networks).

(** [route/rule/rule_item_network.go:28-30] (NetworkItem).Match *)
Definition NetworkItem_Match (r : NetworkItem) (metadata : InboundContext) : bool :=
  map_get (ni_networkMap r) (ic_Network metadata).

(** [route/rule/rule_item_network.go:32-42] (NetworkItem).String *)
Definition NetworkItem_String (r : NetworkItem) : string :=
  "network=" +:+
  match ni_networks r with
  | [x] => F_ToString [AStr x]
  | l => "[" +:+ strings_Join (F_MapToString (AStr <$> l)) " " +:+ "]"
  end.

(** [route/rule/rule_item_auth_user.go:12-15] AuthUserItem *)
Record AuthUserItem : Type := mkAuthUserItem {
  au_users : list string;
  au_userMap : gmap string bool
}.

(** [route/rule/rule_item_auth_user.go:17-26] NewAuthUserItem *)
Definition NewAuthUserItem (users : list string) : AuthUserItem :=
  mkAuthUserItem users (make_set users).

(** [route/rule/rule_item_auth_user.go:28-30] (AuthUserItem).Match *)
Definition AuthUserItem_Match (r : AuthUserItem) (metadata : InboundContext) : bool :=
  map_get (au_userMap r) (ic_User metadata).

(** [route/rule/rule_item_auth_user.go:32-37] (AuthUserItem).String *)
Definition AuthUserItem_String (r : AuthUserItem) : string :=
  match au_users r with
  | [x] => F_ToString [AStr "auth_user="; AStr x]
  | l => F_ToString [AStr "auth_user=["; AStr (strings_Join l " "); AStr "]"]
  end.

(** [route/rule/rule_item_protocol.go:12-15] ProtocolItem *)
Record ProtocolItem : Type := mkProtocolItem {
  pi_protocols : list string;
  pi_protocolMap : gmap string bool
}.

(** [route/rule/rule_item_protocol.go:17-26] NewProtocolItem *)
Definition NewProtocolItem (protocols : list string) : ProtocolItem :=
  mkProtocolItem protocols (make_set protocols).

(** [route/rule/rule_item_protocol.go:28-30] (ProtocolItem).Match *)
Definition ProtocolItem_Match (r : ProtocolItem) (metadata : InboundContext) : bool :=
  map_get (pi_protocolMap r) (ic_Protocol metadata).

(** [route/rule/rule_item_protocol.go:32-37] (ProtocolItem).String *)
Definition ProtocolItem_String (r : ProtocolItem) : string :=
  match pi_protocols r with
  | [x] => F_ToString [AStr "protocol="; AStr x]
  | l => F_ToString [AStr "protocol=["; AStr (strings_Join l " "); AStr "]"]
  end.

(** [route/rule/rule_item_client.go:12-15] ClientItem *)
Record ClientItem : Type := mkClientItem {
  ci_clients : list string;
  ci_clientMap : gmap string bool
}.

(** [route/rule/rule_item_client.go:17-26] NewClientItem *)
Definition NewClientItem (clients : list string) : ClientItem :=
  mkClientItem clients (make_set clients).

(** [route/rule/rule_item_client.go:28-30] (ClientItem).Match *)
Definition ClientItem_Match (r : ClientItem) (metadata : InboundContext) : bool :=
  map_get (ci_clientMap r) (ic_Client metadata).

(** [route/rule/rule_item_client.go:32-37] (ClientItem).String *)
Definition ClientItem_String (r : ClientItem) : string :=
  match ci_clients r with
  | [x] => F_ToString [AStr "client="; AStr x]
  | l => F_ToString [AStr "client=["; AStr (strings_Join l " "); AStr "]"]
  end.

(** ** The process that owns the connection *)

(** [route/rule/rule_item_process_name.go:12-15] ProcessItem *)
Record ProcessItem : Type := mkProcessItem {
  pn_processes : list string;
  pn_processMap : gmap string bool
}.

(** [route/rule/rule_item_process_name.go:17-26] NewProcessItem *)
Definition NewProcessItem (processNameList : list string) : ProcessItem :=
  mkProcessItem processNameList (make_set processNameList).

(** [route/rule/rule_item_process_name.go:28-33] (ProcessItem).Match *)
Definition ProcessItem_Match (r : ProcessItem) (metadata : InboundContext) : bool :=
  match ic_ProcessInfo metadata with
  | None => false
  | Some info =>
      if String.eqb (co_ProcessPath info) "" then false
      else map_get (pn_processMap r) (filepath_Base (co_ProcessPath info))
  end.

(** [route/rule/rule_item_process_name.go:35-44] (ProcessItem).String *)
Definition ProcessItem_String (r : ProcessItem) : string :=
  match pn_processes r with
  | [x] => "process_name=" +:+ x
  | l => "process_name=[" +:+ strings_Join l " " +:+ "]"
  end.

(** [route/rule/rule_item_process_path.go:11-14] ProcessPathItem *)
Record ProcessPathItem : Type := mkProcessPathItem {
  pp_processes : list string;
  pp_processMap : gmap string bool
}.

(** [route/rule/rule_item_process_path.go:16-25] NewProcessPathItem *)
Definition NewProcessPathItem (processNameList : list string) : ProcessPathItem :=
  mkProcessPathItem processNameList (make_set processNameList).

(** [route/rule/rule_item_process_path.go:27-32] (ProcessPathItem).Match *)
Definition ProcessPathItem_Match (r : ProcessPathItem) (metadata : InboundContext) : bool :=
  match ic_ProcessInfo metadata with
  | None => false
  | Some info =>
      if String.eqb (co_ProcessPath info) "" then false
      else map_get (pp_processMap r) (co_ProcessPath info)
  end.

(** [route/rule/rule_item_process_path.go:34-43] (ProcessPathItem).String *)
Definition ProcessPathItem_String (r : ProcessPathItem) : string :=
  match pp_processes r with
  | [x] => "process_path=" +:+ x
  | l => "process_path=[" +:+ strings_Join l " " +:+ "]"
  end.

(** [route/rule/rule_item_package_name.go:11-14] PackageNameItem *)
Record PackageNameItem : Type := mkPackageNameItem {
  pk_packageNames : list string;
  pk_packageMap : gmap string bool
}.

(** [route/rule/rule_item_package_name.go:16-25] NewPackageNameItem *)
Definition NewPackageNameItem (packageNameList : list string) : PackageNameItem :=
  mkPackageNameItem packageNameList (make_set packageNameList).

(** [route/rule/rule_item_package_name.go:27-32] (PackageNameItem).Match *)
Definition PackageNameItem_Match (r : PackageNameItem) (metadata : InboundContext) : bool :=
  match ic_ProcessInfo metadata with
  | None => false
  | Some info =>
      if String.eqb (co_AndroidPackageName info) "" then false
      else map_get (pk_packageMap r) (co_AndroidPackageName info)
  end.

(** [route/rule/rule_item_package_name.go:34-43] (PackageNameItem).String *)
Definition PackageNameItem_String (r : PackageNameItem) : string :=
  match pk_packageNames r with
  | [x] => "package_name=" +:+ x
  | l => "package_name=[" +:+ strings_Join l " " +:+ "]"
  end.

(** [route/rule/rule_item_user.go:12-15] UserItem *)
Record UserItem : Type := mkUserItem {
  ui_users : list string;
  ui_userMap : gmap string bool
}.

(** [route/rule/rule_item_user.go:17-26] NewUserItem *)
Definition NewUserItem (users : list string) : UserItem :=
  mkUserItem users (make_set users).

(** [route/rule/rule_item_user.go:28-33] (UserItem).Match *)
Definition UserItem_Match (r : UserItem) (metadata : InboundContext) : bool :=
  match ic_ProcessInfo metadata with
  | None => false
  | Some info =>
      if String.eqb (co_UserName info) "" then false
      else map_get (ui_userMap r) (co_UserName info)
  end.

(** [route/rule/rule_item_user.go:35-40] (UserItem).String *)
Definition UserItem_String (r : UserItem) : string :=
  match ui_users r with
  | [x] => F_ToString [AStr "user="; AStr x]
  | l => F_ToString [AStr "user=["; AStr (strings_Join l " "); AStr "]"]
  end.

(** [route/rule/rule_item_user_id.go:12-15] UserIdItem *)
Record UserIdItem : Type := mkUserIdItem {
  uid_userIds : list Z;
  uid_userIdMap : gmap Z bool
}.

(** [route/rule/rule_item_user_id.go:17-26] NewUserIDItem *)
Definition NewUserIDItem (userIdList : list Z) : UserIdItem :=
  mkUserIdItem userIdList (make_set userIdList).

(** [route/rule/rule_item_user_id.go:28-33] (UserIdItem).Match *)
Definition UserIdItem_Match (r : UserIdItem) (metadata : InboundContext) : bool :=
  match ic_ProcessInfo metadata with
  | None => false
  | Some info =>
      if Z.eqb (co_UserId info) (-1) then false
      else map_get (uid_userIdMap r) (co_UserId info)
  end.

(** [route/rule/rule_item_user_id.go:35-44] (UserIdItem).String *)
Definition UserIdItem_String (r : UserIdItem) : string :=
  match uid_userIds r with
  | [x] => "user_id=" +:+ F_ToString [AInt x]
  | l => "user_id=[" +:+ strings_Join (F_MapToString (AInt <$> l)) " " +:+ "]"
  end.

(** [route/rule/rule_item_outbound.go:14-18] OutboundItem *)
Record OutboundItem : Type := mkOutboundItem {
  oi_outbounds : list string;
  oi_outboundMap : gmap string bool;
  oi_matchAny : bool
}.

(** [route/rule/rule_item_outbound.go:20-31] NewOutboundRule *)
Definition NewOutboundRule (outbounds : list string) : OutboundItem :=
  let '(m, any) :=
    fold_left (λ '(m, any) outbound,
      if String.eqb outbound "any" then (m, true) else (<[outbound := true]> m, any))
      outbounds (∅, false) in
  mkOutboundItem outbounds m any.

(** [route/rule/rule_item_outbound.go:33-38] (OutboundItem).Match *)
Definition OutboundItem_Match (r : OutboundItem) (metadata : InboundContext) : bool :=
  if oi_matchAny r then negb (String.eqb (ic_Outbound metadata) "")
  else map_get (oi_outboundMap r) (ic_Outbound metadata).

(** [route/rule/rule_item_outbound.go:40-46] (OutboundItem).String *)
Definition OutboundItem_String (r : OutboundItem) : string :=
  match oi_outbounds r with
  | [x] => F_ToString [AStr "outbound="; AStr x]
  | l => F_ToString [AStr "outbound=["; AStr (strings_Join l " "); AStr "]"]
  end.

(** ** DNS query types *)

(** [route/rule/rule_item_query_type.go:13-16] QueryTypeItem *)
Record QueryTypeItem : Type := mkQueryTypeItem {
  qt_typeList : list Z;
  qt_typeMap : gmap Z bool
}.

(** [route/rule/rule_item_query_type.go:18-29] NewQueryTypeItem *)
Definition NewQueryTypeItem (typeList : list Z) : QueryTypeItem :=
  mkQueryTypeItem typeList (make_set typeList).

(** [route/rule/rule_item_query_type.go:31-36] (QueryTypeItem).Match *)
Definition QueryTypeItem_Match (r : QueryTypeItem) (metadata : InboundContext) : bool :=
  if Z.eqb (ic_QueryType metadata) 0 then false
  else map_get (qt_typeMap r) (ic_QueryType metadata).

(** [option/types.go:146-152] DNSQueryTypeToString *)
Definition DNSQueryTypeToString (queryType : Z) : string :=
  match mDNS_TypeToString queryType with
  | Some typeName => typeName
  | None => F_ToString [AInt queryType]
  end.

(** [route/rule/rule_item_query_type.go:38-47] (QueryTypeItem).String *)
Definition QueryTypeItem_String (r : QueryTypeItem) : string :=
  match qt_typeList r with
  | [x] => "query_type=" +:+ DNSQueryTypeToString x
  | l => "query_type=[" +:+ strings_Join (DNSQueryTypeToString <$> l) " " +:+ "]"
  end.

(** ** IP version *)

(** [route/rule/rule_item_ipversion.go:9-11] IPVersionItem *)
Record IPVersionItem : Type := mkIPVersionItem { iv_isIPv6 : bool }.

(** [route/rule/rule_item_ipversion.go:13-15] NewIPVersionItem *)
Definition NewIPVersionItem (isIPv6 : bool) : IPVersionItem := mkIPVersionItem isIPv6.

(** [route/rule/rule_item_ipversion.go:17-20] (IPVersionItem).Match *)
Definition IPVersionItem_Match (r : IPVersionItem) (metadata : InboundContext) : bool :=
  negb (Z.eqb (ic_IPVersion metadata) 0) &&
    Bool.eqb (Z.eqb (ic_IPVersion metadata) 6) (iv_isIPv6 r) ||
  Socksaddr_IsIP (ic_Destination metadata) &&
    Bool.eqb (Socksaddr_IsIPv6 (ic_Destination metadata)) (iv_isIPv6 r).

(** [route/rule/rule_item_ipversion.go:22-30] (IPVersionItem).String *)
Definition IPVersionItem_String (r : IPVersionItem) : string :=
  "ip_version=" +:+ (if iv_isIPv6 r then "6" else "4").

(** ** Ports *)

(** [route/rule/rule_item_port.go:12-16] PortItem *)
Record PortItem : Type := mkPortItem {
  po_ports : list Z;
  po_portMap : gmap Z bool;
  po_isSource : bool
}.

(** [route/rule/rule_item_port.go:18-28] NewPortItem *)
Definition NewPortItem (isSource : bool) (ports : list Z) : PortItem :=
  mkPortItem ports (make_set ports) isSource.

(** [route/rule/rule_item_port.go:30-36] (PortItem).Match *)
Definition PortItem_Match (r : PortItem) (metadata : InboundContext) : bool :=
  if po_isSource r then map_get (po_portMap r) (sa_Port (ic_Source metadata))
  else map_get (po_portMap r) (sa_Port (ic_Destination metadata)).

(** [route/rule/rule_item_port.go:38-52] (PortItem).String *)
Definition PortItem_String (r : PortItem) : string :=
  (if po_isSource r then "source_port=" else "port=") +:+
  match po_ports r with
  | [x] => F_ToString [AInt x]
  | l => "[" +:+ strings_Join (F_MapToString (AInt <$> l)) " " +:+ "]"
  end.

(** [route/rule/rule_item_port_range.go:11-11] ErrBadPortRange *)
Definition ErrBadPortRange : error := E_New [AStr "bad port range"].

(** [route/rule/rule_item_port_range.go:21-24] rangeItem *)
Record rangeItem : Type := mkrangeItem { ri_start : Z; ri_end : Z }.

(** [route/rule/rule_item_port_range.go:15-19] PortRangeItem *)
Record PortRangeItem : Type := mkPortRangeItem {
  pr_isSource : bool;
  pr_portRanges : list string;
  pr_portRangeList : list rangeItem
}.

(** One iteration of the loop of [NewPortRangeItem].

    [route/rule/rule_item_port_range.go:28-50] NewPortRangeItem (loop body) *)
Definition parse_port_range (portRange : string) : res rangeItem :=
  if negb (strings_Contains portRange ":")
  then Err (E_Extend ErrBadPortRange [AStr portRange]) else
  let subIndex := strings_Index portRange ":" in
  let bad := cause_err (E_Extend ErrBadPortRange [AStr portRange]) in
  start ← (if Z.ltb 0 subIndex
           then bad (ParseUint10 (str_take (Z.to_nat subIndex) portRange) 16) else Ok 0);
  end_ ← (if Z.eqb subIndex (strlen portRange - 1) then Ok 0xFFFF
          else bad (ParseUint10 (str_drop (Z.to_nat subIndex + 1) portRange) 16));
  Ok (mkrangeItem (u16 start) (u16 end_)).

(** [route/rule/rule_item_port_range.go:26-56] NewPortRangeItem *)
Definition NewPortRangeItem (isSource : bool) (rangeList : list string) : res PortRangeItem :=
  portRangeList ← mapi_res (λ _, parse_port_range) rangeList;
  Ok (mkPortRangeItem isSource rangeList portRangeList).

(** [route/rule/rule_item_port_range.go:58-71] (PortRangeItem).Match *)
Definition PortRangeItem_Match (r : PortRangeItem) (metadata : InboundContext) : bool :=
  let port := if pr_isSource r then sa_Port (ic_Source metadata)
              else sa_Port (ic_Destination metadata) in
  existsb (λ portRange, Z.leb (ri_start portRange) port && Z.leb port (ri_end portRange))
    (pr_portRangeList r).

(** [route/rule/rule_item_port_range.go:73-87] (PortRangeItem).String *)
Definition PortRangeItem_String (r : PortRangeItem) : string :=
  (if pr_isSource r then "source_port_range=" else "port_range=") +:+
  match pr_portRanges r with
  | [x] => x
  | l => "[" +:+ strings_Join l " " +:+ "]"
  end.

(** ** State of the network and of the Clash server *)

(** [route/rule/rule_item_clash_mode.go:13-17] ClashModeItem *)
Record ClashModeItem : Type := mkClashModeItem {
  cm_clashServer : bool;
  cm_mode : string
}.

(** [route/rule/rule_item_clash_mode.go:19-24] NewClashModeItem *)
Definition NewClashModeItem (mode : string) : ClashModeItem := mkClashModeItem false mode.

(** [Start] reads the Clash server of the context, which may be absent.

    [route/rule/rule_item_clash_mode.go:26-29] (ClashModeItem).Start *)
Definition ClashModeItem_Start (env : Env) (r : ClashModeItem) : ClashModeItem :=
  mkClashModeItem (match env_ClashMode env with Some _ => true | None => false end) (cm_mode r).

(** [route/rule/rule_item_clash_mode.go:31-36] (ClashModeItem).Match *)
Definition ClashModeItem_Match (env : Env) (r : ClashModeItem) : bool :=
  if cm_clashServer r
  then match env_ClashMode env with
       | Some mode => strings_EqualFold mode (cm_mode r)
       | None => false
       end
  else false.

(** [route/rule/rule_item_clash_mode.go:38-40] (ClashModeItem).String *)
Definition ClashModeItem_String (r : ClashModeItem) : string := "clash_mode=" +:+ cm_mode r.

(** [constant/network.go:27-33] (InterfaceType).String *)
Definition InterfaceType_String (t : InterfaceType) : string :=
  match t with
  | InterfaceTypeWIFI => "wifi"
  | InterfaceTypeCellular => "cellular"
  | InterfaceTypeEthernet => "ethernet"
  | InterfaceTypeOther => "other"
  | InterfaceTypeUnknown value => F_ToString [AInt value]
  end.

(** [route/rule/rule_item_network_type.go:14-17] NetworkTypeItem *)
Record NetworkTypeItem : Type := mkNetworkTypeItem { nt_networkType : list InterfaceType }.

(** [route/rule/rule_item_network_type.go:19-24] NewNetworkTypeItem *)
Definition NewNetworkTypeItem (networkType : list InterfaceType) : NetworkTypeItem :=
  mkNetworkTypeItem networkType.

(** [route/rule/rule_item_network_type.go:26-32] (NetworkTypeItem).Match *)
Definition NetworkTypeItem_Match (env : Env) (r : NetworkTypeItem) : bool :=
  match env_DefaultNetworkInterface env with
  | None => false
  | Some networkInterface => bool_decide (ni_Type networkInterface ∈ nt_networkType r)
  end.

(** [route/rule/rule_item_network_type.go:34-40] (NetworkTypeItem).String *)
Definition NetworkTypeItem_String (r : NetworkTypeItem) : string :=
  match nt_networkType r with
  | [t] => F_ToString [AStr "network_type="; AStr (InterfaceType_String t)]
  | l => F_ToString [AStr "network_type=";
           AStr ("[" +:+ strings_Join (F_MapToString (AStr ∘ InterfaceType_String <$> l)) " "
                 +:+ "]")]
  end.

(** [route/rule/rule_item_network_is_expensive.go:19-25] (NetworkIsExpensiveItem).Match *)
Definition NetworkIsExpensiveItem_Match (env : Env) : bool :=
  match env_DefaultNetworkInterface env with
  | None => false
  | Some networkInterface => ni_Expensive networkInterface
  end.

(** [route/rule/rule_item_network_is_expensive.go:27-29] (NetworkIsExpensiveItem).String *)
Definition NetworkIsExpensiveItem_String : string := "network_is_expensive=true".

(** [route/rule/rule_item_network_is_constrained.go:19-25] (NetworkIsConstrainedItem).Match *)
Definition NetworkIsConstrainedItem_Match (env : Env) : bool :=
  match env_DefaultNetworkInterface env with
  | None => false
  | Some networkInterface => ni_Constrained networkInterface
  end.

(** [route/rule/rule_item_network_is_constrained.go:27-29] (NetworkIsConstrainedItem).String *)
Definition NetworkIsConstrainedItem_String : string := "network_is_expensive=true".

(** [route/rule/rule_item_wifi_ssid.go:12-16] WIFISSIDItem *)
Record WIFISSIDItem : Type := mkWIFISSIDItem {
  ws_ssidList : list string;
  ws_ssidMap : gmap string bool
}.

(** [route/rule/rule_item_wifi_ssid.go:18-28] NewWIFISSIDItem *)
Definition NewWIFISSIDItem (ssidList : list string) : WIFISSIDItem :=
  mkWIFISSIDItem ssidList (make_set ssidList).

(** [route/rule/rule_item_wifi_ssid.go:30-32] (WIFISSIDItem).Match *)
Definition WIFISSIDItem_Match (env : Env) (r : WIFISSIDItem) : bool :=
  map_get (ws_ssidMap r) (wifi_SSID (env_WIFIState env)).

(** [route/rule/rule_item_wifi_ssid.go:34-39] (WIFISSIDItem).String *)
Definition WIFISSIDItem_String (r : WIFISSIDItem) : string :=
  match ws_ssidList r with
  | [x] => F_ToString [AStr "wifi_ssid="; AStr x]
  | l => F_ToString [AStr "wifi_ssid=["; AStr (strings_Join l " "); AStr "]"]
  end.

(** [route/rule/rule_item_wifi_bssid.go:12-16] WIFIBSSIDItem *)
Record WIFIBSSIDItem : Type := mkWIFIBSSIDItem {
  wb_bssidList : list string;
  wb_bssidMap : gmap string bool
}.

(** [route/rule/rule_item_wifi_bssid.go:18-28] NewWIFIBSSIDItem *)
Definition NewWIFIBSSIDItem (bssidList : list string) : WIFIBSSIDItem :=
  mkWIFIBSSIDItem bssidList (make_set bssidList).

(** [route/rule/rule_item_wifi_bssid.go:30-32] (WIFIBSSIDItem).Match *)
Definition WIFIBSSIDItem_Match (env : Env) (r : WIFIBSSIDItem) : bool :=
  map_get (wb_bssidMap r) (wifi_BSSID (env_WIFIState env)).

(** [route/rule/rule_item_wifi_bssid.go:34-39] (WIFIBSSIDItem).String *)
Definition WIFIBSSIDItem_String (r : WIFIBSSIDItem) : string :=
  match wb_bssidList r with
  | [x] => F_ToString [AStr "wifi_bssid="; AStr x]
  | l => F_ToString [AStr "wifi_bssid=["; AStr (strings_Join l " "); AStr "]"]
  end.

End Items.

(** ** Lemmas on sets *)

Lemma make_set_from_get `{Countable K} (l : list K) (m : gmap K bool) x :
  map_get (fold_left (λ m x, <[x := true]> m) l m) x = bool_decide (x ∈ l) || map_get m x.
Proof.
  revert m. induction l as [|y l IH]; intros m; cbn [fold_left].
  { rewrite bool_decide_eq_false_2; [done|]. apply not_elem_of_nil. }
  rewrite IH. unfold map_get at 1.
  destruct (decide (x = y)) as [->|Hne].
  - rewrite lookup_insert_eq. cbn. rewrite orb_true_r.
    rewrite bool_decide_eq_true_2; [done|]. apply list_elem_of_here.
  - rewrite lookup_insert_ne by done. fold (map_get m x). f_equal.
    apply bool_decide_ext. rewrite elem_of_cons. naive_solver.
Qed.

(** A set built from a list holds the members of the list. *)
Lemma map_get_make_set `{Countable K} (l : list K) x :
  map_get (make_set l) x = bool_decide (x ∈ l).
Proof.
  unfold make_set. rewrite make_set_from_get. unfold map_get at 1. rewrite lookup_empty. cbn.
  apply orb_false_r.
Qed.

Lemma NewOutboundRule_spec outbounds :
  oi_matchAny (NewOutboundRule outbounds) = bool_decide ("any" ∈ outbounds) ∧
  ∀ x, map_get (oi_outboundMap (NewOutboundRule outbounds)) x
       = bool_decide (x ∈ outbounds) && negb (String.eqb x "any").
Proof.
  unfold NewOutboundRule.
  assert (∀ m any, let '(m', any') := fold_left (λ '(m, any) outbound,
      if String.eqb outbound "any" then (m, true) else (<[outbound := true]> m, any))
      outbounds (m, any) in
    any' = bool_decide ("any" ∈ outbounds) || any ∧
    ∀ x, map_get m' x = bool_decide (x ∈ outbounds) && negb (String.eqb x "any") || map_get m x)
    as Hgen.
  { induction outbounds as [|o l IH]; intros m any; cbn [fold_left].
    { split; [|intros x]; rewrite bool_decide_eq_false_2 by apply not_elem_of_nil; done. }
    destruct (String.eqb_spec o "any") as [->|Hne].
    - specialize (IH m true). destruct (fold_left _ l _) as [m' any']. destruct IH as [-> IH].
      split; [rewrite orb_true_r, bool_decide_eq_true_2; [done|apply list_elem_of_here]|].
      intros x. rewrite IH. destruct (String.eqb_spec x "any") as [->|Hx]; [by rewrite !andb_false_r|].
      rewrite !andb_true_r. f_equal. apply bool_decide_ext. rewrite elem_of_cons. naive_solver.
    - specialize (IH (<[o:=true]> m) any). destruct (fold_left _ l _) as [m' any'].
      destruct IH as [-> IH]. split.
      { f_equal. apply bool_decide_ext. rewrite elem_of_cons. naive_solver. }
      intros x. rewrite IH. unfold map_get. destruct (decide (x = o)) as [->|Hx].
      + rewrite lookup_insert_eq. cbn. rewrite orb_true_r.
        rewrite (proj2 (String.eqb_neq _ _)) by done.
        rewrite bool_decide_eq_true_2; [done|apply list_elem_of_here].
      + rewrite lookup_insert_ne by done. f_equal. f_equal.
        apply bool_decide_ext. rewrite elem_of_cons. naive_solver. }
  specialize (Hgen ∅ false). destruct (fold_left _ _ _) as [m any].
  destruct Hgen as [-> Hm]. split; [apply orb_false_r|].
  intros x. cbn. rewrite Hm. unfold map_get. rewrite lookup_empty. apply orb_false_r.
Qed.

(** ** Port ranges *)

(** A text that denotes a range of ports: two optional decimal 16-bit numbers around a colon, the
    first occurrence of a colon; an absent bound is open. *)
Definition port_bound (default : Z) (s : string) (v : Z) : Prop :=
  s = ""%string ∧ v = default ∨ dec_val s = Some v ∧ v < 2 ^ 16.

Definition denotes_range (s : string) (r : rangeItem) : Prop :=
  ∃ a b, s = a +:+ String ":" b ∧ String.index 0 ":" a = None ∧
    port_bound 0 a (ri_start r) ∧ port_bound 0xFFFF b (ri_end r).

Lemma port_bound_nonempty d c s v :
  port_bound d (String c s) v ↔ dec_val (String c s) = Some v ∧ v < 2 ^ 16.
Proof. unfold port_bound. naive_solver. Qed.

Lemma u16_id v s : dec_val s = Some v → v < 2 ^ 16 → u16 v = v.
Proof. intros H1%dec_val_nonneg ?. apply wrap_id. split; done. Qed.

Lemma parse_bound_Ok {B} d s msg (k : Z → res B) y :
  0 ≤ d < 2 ^ 16 →
  (z ← (if bool_decide (s = ""%string) then Ok d
        else cause_err msg (ParseUint10 s 16)); k (u16 z)) = Ok y ↔
  ∃ v, port_bound d s v ∧ k v = Ok y.
Proof.
  intros Hd. unfold port_bound. case_bool_decide as He; cbn.
  - subst s. unfold u16. rewrite wrap_id by done. split; [eauto|]. by intros (v & [[_ ->]|[]] & ?).
  - destruct (ParseUint10 s 16) as [v| |p] eqn:Hp; cbn.
    + apply ParseUint10_Ok in Hp as [Hv Hlt]; [|done]. rewrite (u16_id v s) by done.
      split; [eauto|]. intros (w & [[? _]|[? ?]] & Hk); [done|congruence].
    + split; [done|]. intros (w & [[? _]|Hw] & Hk); [done|].
      apply ParseUint10_Ok in Hw; [congruence|done].
    + by apply ParseUint10_not_panic in Hp.
Qed.

(** The parser accepts exactly the texts that denote a range, and returns that range. *)
Lemma parse_port_range_app a b r :
  String.index 0 ":" a = None →
  parse_port_range (a +:+ String ":" b) = Ok r ↔
  port_bound 0 a (ri_start r) ∧ port_bound 0xFFFF b (ri_end r).
Proof.
  intros Ha. unfold parse_port_range, strings_Contains, strings_Index.
  rewrite (index_char_app _ _ _ Ha). cbn [negb].
  replace (str_drop (Z.to_nat (Z.of_nat (String.length a)) + 1) (a +:+ String ":" b)) with b.
  2:{ rewrite Nat2Z.id. change (String ":" b) with (":" +:+ b). rewrite string_app_assoc.
      rewrite <-(str_drop_app (a +:+ ":") b) at 1. f_equal. apply Nat2Z.inj.
      change (strlen (a +:+ ":") = Z.of_nat (String.length a + 1)).
      rewrite strlen_app. unfold strlen. cbn. lia. }
  rewrite Nat2Z.id, str_take_app, strlen_app.
  replace (Z.of_nat (String.length a) =? strlen a + strlen (String ":" b) - 1)%Z
    with (bool_decide (b = ""%string)).
  2:{ unfold strlen. destruct b; cbn [String.length];
      [rewrite bool_decide_eq_true_2 by done|rewrite bool_decide_eq_false_2 by done];
      symmetry; [apply Z.eqb_eq|apply Z.eqb_neq]; lia. }
  pose (k lo := z ← (if bool_decide (b = ""%string) then Ok 0xFFFF
     else cause_err (E_Extend ErrBadPortRange [AStr (a +:+ String ":" b)])
            (ParseUint10 b 16)); Ok (mkrangeItem lo (u16 z))).
  trans (∃ lo, port_bound 0 a lo ∧ k lo = Ok r).
  - rewrite <-(parse_bound_Ok 0 a
      (E_Extend ErrBadPortRange [AStr (a +:+ String ":" b)]) k) by done.
    destruct a; [by rewrite (bool_decide_eq_true_2 (""%string = ""%string))|].
    by rewrite (bool_decide_eq_false_2 (String _ _ = ""%string)).
  - unfold k. split.
    + intros (lo & Hlo & Hk). rewrite (parse_bound_Ok _ _ _ (λ hi, Ok (mkrangeItem lo hi))) in Hk by done.
      destruct Hk as (hi & Hhi & [= <-]). done.
    + intros [Hlo Hhi]. exists (ri_start r). split; [done|].
      rewrite (parse_bound_Ok _ _ _ (λ hi, Ok (mkrangeItem (ri_start r) hi))) by done.
      exists (ri_end r). split; [done|]. by destruct r.
Qed.

Lemma parse_port_range_Ok s r : parse_port_range s = Ok r ↔ denotes_range s r.
Proof.
  split.
  - intros H. destruct (String.index 0 ":" s) as [n|] eqn:Hi.
    + apply index_char_Some in Hi as (a & b & -> & _ & Ha).
      apply parse_port_range_app in H; [|done]. exists a, b. naive_solver.
    + unfold parse_port_range, strings_Contains in H. by rewrite Hi in H.
  - intros (a & b & -> & Ha & Hr). by apply parse_port_range_app.
Qed.

Lemma parse_port_range_not_panic s p : parse_port_range s ≠ Panic p.
Proof.
  unfold parse_port_range. destruct (strings_Contains s ":"); [|done]. cbn.
  destruct (Z.ltb 0 _); cbn.
  - destruct (ParseUint10 (str_take _ _) _) eqn:E1; cbn; [|done|by apply ParseUint10_not_panic in E1].
    destruct (Z.eqb _ _); cbn; [done|].
    destruct (ParseUint10 (str_drop _ _) _) eqn:E2; cbn; [done|done|by apply ParseUint10_not_panic in E2].
  - destruct (Z.eqb _ _); cbn; [done|].
    destruct (ParseUint10 (str_drop _ _) _) eqn:E2; cbn; [done|done|by apply ParseUint10_not_panic in E2].
Qed.

Lemma NewPortRangeItem_Ok src l item :
  NewPortRangeItem src l = Ok item ↔
  ∃ rs, Forall2 denotes_range l rs ∧ item = mkPortRangeItem src l rs.
Proof.
  unfold NewPortRangeItem.
  assert (∀ rs, mapi_res (λ _, parse_port_range) l = Ok rs ↔ Forall2 denotes_range l rs) as Hrs.
  { intros rs. rewrite mapi_res_Forall2. split; intros Hl; eapply Forall2_impl; try exact Hl;
      intros; by apply parse_port_range_Ok. }
  split.
  - intros Hi. destruct (mapi_res _ l) as [rs| |] eqn:E; cbn in Hi; simplify_eq.
    exists rs. by rewrite <-Hrs.
  - intros (rs & Hl & ->). apply Hrs in Hl. cbn in *. by rewrite Hl.
Qed.

(** A port range item is built exactly when every text of the list denotes a range, never
    panics, and then matches exactly the ports, source or destination by the item's side, that lie
    in one of the denoted ranges, bounds included. *)
Theorem PortRangeItem_correct src l :
  (∀ p, NewPortRangeItem src l ≠ Panic p) ∧
  (is_ok (NewPortRangeItem src l) = true ↔ ∀ s, s ∈ l → ∃ r, denotes_range s r) ∧
  ∀ item metadata, NewPortRangeItem src l = Ok item →
    PortRangeItem_Match item metadata = true ↔
    ∃ s r, s ∈ l ∧ denotes_range s r ∧
      ri_start r ≤ sa_Port (if src then ic_Source metadata else ic_Destination metadata)
        ≤ ri_end r.
Proof.
  split_and!.
  - intros p. unfold NewPortRangeItem, mapi_res. destruct (mapi_res_from _ 0 l) eqn:E; cbn; try done.
    apply mapi_res_not_panic in E; [done|]. intros ???. apply parse_port_range_not_panic.
  - split.
    + destruct (NewPortRangeItem src l) eqn:E; [intros _|done..].
      apply NewPortRangeItem_Ok in E as (rs & Hl & _). intros s [i Hi]%list_elem_of_lookup_1.
      destruct (Forall2_lookup_l _ _ _ _ _ Hl Hi) as (r & ? & ?). eauto.
    + intros Hl. assert (∃ rs, Forall2 denotes_range l rs) as [rs Hrs].
      { apply Forall_exists_Forall2_l, Forall_forall. intros s ?. by apply Hl, list_elem_of_In. }
      by rewrite (proj2 (NewPortRangeItem_Ok src l _) (ex_intro _ rs (conj Hrs eq_refl))).
  - intros item metadata [rs [Hl ->]]%NewPortRangeItem_Ok.
    unfold PortRangeItem_Match. cbn [pr_isSource pr_portRangeList].
    replace (if src then sa_Port (ic_Source metadata) else sa_Port (ic_Destination metadata))
      with (sa_Port (if src then ic_Source metadata else ic_Destination metadata))
      by (by destruct src).
    rewrite existsb_exists. split.
    + intros (r & Hr & [H1%Z.leb_le H2%Z.leb_le]%andb_true_iff).
      apply list_elem_of_In, list_elem_of_lookup_1 in Hr as [i Hi].
      destruct (Forall2_lookup_r _ _ _ _ _ Hl Hi) as (s & Hs & Hd).
      exists s, r. split_and!; [by eapply list_elem_of_lookup_2|done|lia..].
    + intros (s & r & [i Hi]%list_elem_of_lookup_1 & Hd & Hp).
      destruct (Forall2_lookup_l _ _ _ _ _ Hl Hi) as (r' & Hr' & Hd').
      assert (r' = r) as ->.
      { apply parse_port_range_Ok in Hd, Hd'. congruence. }
      exists r. split; [by eapply list_elem_of_In, list_elem_of_lookup_2|].
      rewrite andb_true_iff, !Z.leb_le. lia.
Qed.

Lemma PortRangeItem_correct_witness :
  NewPortRangeItem false ["1000:2000"; ":80"; "60000:"]
    = Ok (mkPortRangeItem false ["1000:2000"; ":80"; "60000:"]
            [mkrangeItem 1000 2000; mkrangeItem 0 80; mkrangeItem 60000 65535]) ∧
  ∃ s r, s ∈ ["1000:2000"; ":80"; "60000:"] ∧ denotes_range s r ∧ ri_start r ≤ 1443 ≤ ri_end r.
Proof.
  assert (NewPortRangeItem false ["1000:2000"; ":80"; "60000:"]
    = Ok (mkPortRangeItem false ["1000:2000"; ":80"; "60000:"]
            [mkrangeItem 1000 2000; mkrangeItem 0 80; mkrangeItem 60000 65535])) as Hi
    by reflexivity.
  split; [exact Hi|].
  exact (proj1 (proj2 (proj2 (PortRangeItem_correct false ["1000:2000"; ":80"; "60000:"])) _
    (InboundContext_zero <| ic_Destination := mkSocksaddr AddrInvalid 1443 "" |>) Hi) eq_refl).
Defined.
