(* ===== verification/AddrItems.v ===== *)
(** * Rule items over domains, addresses and patterns (route/rule/rule_item_*.go,
    rule_*interface_address.go) *)

From stdpp Require Import base gmap strings list numbers.
From S2P Require Import Prelude GoStd Netip Adapter SetItems.

Local Open Scope Z_scope.

Section Items.
Context `{ExtLib}.

(** ** Domains *)

(** The host the domain items look at: the sniffed domain, the FQDN of the destination otherwise.

    [route/rule/rule_item_domain.go:65-70] (DomainItem).Match (domainHost) *)
Definition domainHost (metadata : InboundContext) : string :=
  if negb (String.eqb (ic_Domain metadata) "") then ic_Domain metadata
  else sa_Fqdn (ic_Destination metadata).

(** The texts of one list in a description, cut after the third.

    [route/rule/rule_item_domain.go:30-38] NewDomainItem (description) *)
Definition describe_list (label : string) (l : list string) : string :=
  match l with
  | [x] => label +:+ x
  | _ => if Nat.ltb 3 (length l) then label +:+ "[" +:+ strings_Join (take 3 l) " " +:+ "...]"
         else label +:+ "[" +:+ strings_Join l " " +:+ "]"
  end.

(** [route/rule/rule_item_domain.go:13-16] DomainItem *)
Record DomainItem : Type := mkDomainItem { di_matcher : Matcher; di_description : string }.

(** [route/rule/rule_item_domain.go:18-55] NewDomainItem *)
Definition NewDomainItem (domains domainSuffixes : list string) : res DomainItem :=
  if existsb (String.eqb "") domains
  then Err (E_New [AStr "domain: empty item is not allowed"]) else
  if existsb (String.eqb "") domainSuffixes
  then Err (E_New [AStr "domain_suffix: empty item is not allowed"]) else
  let description := if nonempty domains then describe_list "domain=" domains else "" in
  let description :=
    if nonempty domainSuffixes
    then (if Z.ltb 0 (strlen description) then description +:+ " " else description)
         +:+ describe_list "domain_suffix=" domainSuffixes
    else description in
  Ok (mkDomainItem (domain_NewMatcher domains domainSuffixes false) description).

(** [route/rule/rule_item_domain.go:57-62] NewRawDomainItem *)
Definition NewRawDomainItem (matcher : Matcher) : DomainItem :=
  mkDomainItem matcher "domain/domain_suffix=<binary>".

(** [route/rule/rule_item_domain.go:64-75] (DomainItem).Match *)
Definition DomainItem_Match (r : DomainItem) (metadata : InboundContext) : bool :=
  if String.eqb (domainHost metadata) "" then false
  else Matcher_Match (di_matcher r) (strings_ToLower (domainHost metadata)).

(** [route/rule/rule_item_domain.go:77-79] (DomainItem).String *)
Definition DomainItem_String (r : DomainItem) : string := di_description r.

(** [route/rule/rule_item_domain_keyword.go:11-13] DomainKeywordItem *)
Record DomainKeywordItem : Type := mkDomainKeywordItem { dk_keywords : list string }.

(** [route/rule/rule_item_domain_keyword.go:15-17] NewDomainKeywordItem *)
Definition NewDomainKeywordItem (keywords : list string) : DomainKeywordItem :=
  mkDomainKeywordItem keywords.

(** [route/rule/rule_item_domain_keyword.go:19-36] (DomainKeywordItem).Match *)
Definition DomainKeywordItem_Match (r : DomainKeywordItem) (metadata : InboundContext) : bool :=
  if String.eqb (domainHost metadata) "" then false
  else existsb (strings_Contains (strings_ToLower (domainHost metadata))) (dk_keywords r).

(** [route/rule/rule_item_domain_keyword.go:38-47] (DomainKeywordItem).String *)
Definition DomainKeywordItem_String (r : DomainKeywordItem) : string :=
  describe_list "domain_keyword=" (dk_keywords r).

(** [route/rule/rule_item_domain_regex.go:14-17] DomainRegexItem *)
Record DomainRegexItem : Type := mkDomainRegexItem {
  dx_matchers : list Regexp;
  dx_description : string
}.

(** The loop that compiles the expressions.

    [route/rule/rule_item_domain_regex.go:20-27] NewDomainRegexItem (matchers) *)
Definition compile_all (expressions : list string) : res (list Regexp) :=
  mapi_res (λ i regex, wrap_err [AStr "parse expression "; AInt (Z.of_nat i)]
                         (regexp_Compile regex)) expressions.

(** [route/rule/rule_item_domain_regex.go:28-36] NewDomainRegexItem (description) *)
Definition describe_regex (label : string) (expressions : list string) : string :=
  match expressions with
  | [x] => label +:+ x
  | _ =>
      label +:+
      F_ToString [AStr "["; AStr (strings_Join
        (if Nat.ltb 3 (length expressions) then take 3 expressions else expressions) " ");
        AStr "]"]
  end.

(** [route/rule/rule_item_domain_regex.go:19-38] NewDomainRegexItem *)
Definition NewDomainRegexItem (expressions : list string) : res DomainRegexItem :=
  matchers ← compile_all expressions;
  Ok (mkDomainRegexItem matchers (describe_regex "domain_regex=" expressions)).

(** [route/rule/rule_item_domain_regex.go:40-57] (DomainRegexItem).Match *)
Definition DomainRegexItem_Match (r : DomainRegexItem) (metadata : InboundContext) : bool :=
  if String.eqb (domainHost metadata) "" then false
  else existsb (λ matcher, Regexp_MatchString matcher (strings_ToLower (domainHost metadata)))
         (dx_matchers r).

(** [route/rule/rule_item_domain_regex.go:59-61] (DomainRegexItem).String *)
Definition DomainRegexItem_String (r : DomainRegexItem) : string := dx_description r.

(** [route/rule/rule_item_adguard.go:12-14] AdGuardDomainItem *)
Record AdGuardDomainItem : Type := mkAdGuardDomainItem { ag_matcher : AdGuardMatcher }.

(** [route/rule/rule_item_adguard.go:16-20] NewAdGuardDomainItem *)
Definition NewAdGuardDomainItem (ruleLines : list string) : AdGuardDomainItem :=
  mkAdGuardDomainItem (domain_NewAdGuardMatcher ruleLines).

(** [route/rule/rule_item_adguard.go:22-26] NewRawAdGuardDomainItem *)
Definition NewRawAdGuardDomainItem (matcher : AdGuardMatcher) : AdGuardDomainItem :=
  mkAdGuardDomainItem matcher.

(** [route/rule/rule_item_adguard.go:28-39] (AdGuardDomainItem).Match *)
Definition AdGuardDomainItem_Match (r : AdGuardDomainItem) (metadata : InboundContext) : bool :=
  if String.eqb (domainHost metadata) "" then false
  else AdGuardMatcher_Match (ag_matcher r) (strings_ToLower (domainHost metadata)).

(** [route/rule/rule_item_adguard.go:41-43] (AdGuardDomainItem).String *)
Definition AdGuardDomainItem_String : string := "!adguard_domain_rules=<binary>".

(** [route/rule/rule_item_process_path_regex.go:14-17] ProcessPathRegexItem *)
Record ProcessPathRegexItem : Type := mkProcessPathRegexItem {
  px_matchers : list Regexp;
  px_description : string
}.

(** [route/rule/rule_item_process_path_regex.go:19-38] NewProcessPathRegexItem *)
Definition NewProcessPathRegexItem (expressions : list string) : res ProcessPathRegexItem :=
  matchers ← compile_all expressions;
  Ok (mkProcessPathRegexItem matchers (describe_regex "process_path_regex=" expressions)).

(** [route/rule/rule_item_process_path_regex.go:40-50] (ProcessPathRegexItem).Match *)
Definition ProcessPathRegexItem_Match (r : ProcessPathRegexItem) (metadata : InboundContext)
    : bool :=
  match ic_ProcessInfo metadata with
  | None => false
  | Some info =>
      if String.eqb (co_ProcessPath info) "" then false
      else existsb (λ matcher, Regexp_MatchString matcher (co_ProcessPath info)) (px_matchers r)
  end.

(** [route/rule/rule_item_process_path_regex.go:52-54] (ProcessPathRegexItem).String *)
Definition ProcessPathRegexItem_String (r : ProcessPathRegexItem) : string := px_description r.

(** ** Addresses *)

(** [route/rule/rule_item_cidr.go:15-19] IPCIDRItem *)
Record IPCIDRItem : Type := mkIPCIDRItem {
  ip_ipSet : IPSet;
  ip_isSource : bool;
  ip_description : string
}.

(** One iteration of the loop that feeds the IP set builder.

    [route/rule/rule_item_cidr.go:23-35] NewIPCIDRItem (loop body) *)
Definition add_cidr (i : nat) (prefixString : string) (builder : IPSetBuilder)
    : res IPSetBuilder :=
  match netip_ParsePrefix prefixString with
  | Ok prefix => Ok (IPSetBuilder_AddPrefix prefix builder)
  | Panic p => Panic p
  | Err err =>
      match netip_ParseAddr prefixString with
      | Ok addr => Ok (IPSetBuilder_Add addr builder)
      | Panic p => Panic p
      | Err _ => Err (E_Cause err [AStr "parse ["; AInt (Z.of_nat i); AStr "]"])
      end
  end.

(** [route/rule/rule_item_cidr.go:22-35] NewIPCIDRItem (loop) *)
Fixpoint add_cidrs (i : nat) (prefixStrings : list string) (builder : IPSetBuilder)
    : res IPSetBuilder :=
  match prefixStrings with
  | [] => Ok builder
  | s :: l => builder' ← add_cidr i s builder; add_cidrs (S i) l builder'
  end.

(** [route/rule/rule_item_cidr.go:21-58] NewIPCIDRItem *)
Definition NewIPCIDRItem (isSource : bool) (prefixStrings : list string) : res IPCIDRItem :=
  builder ← add_cidrs 0 prefixStrings IPSetBuilder_zero;
  let description :=
    describe_list (if isSource then "source_ip_cidr=" else "ip_cidr=") prefixStrings in
  ipSet ← IPSetBuilder_IPSet builder;
  Ok (mkIPCIDRItem ipSet isSource description).

(** [route/rule/rule_item_cidr.go:60-73] NewRawIPCIDRItem *)
Definition NewRawIPCIDRItem (isSource : bool) (ipSet : IPSet) : IPCIDRItem :=
  let description := if isSource then "source_ip_cidr="%string else "ip_cidr="%string in
  mkIPCIDRItem ipSet isSource (description +:+ "<binary>").

(** [route/rule/rule_item_cidr.go:75-91] (IPCIDRItem).Match *)
Definition IPCIDRItem_Match (r : IPCIDRItem) (metadata : InboundContext) : bool :=
  if ip_isSource r || IPCIDRMatchSource (ic_cache metadata)
  then IPSet_Contains (ip_ipSet r) (sa_Addr (ic_Source metadata)) else
  if Socksaddr_IsIP (ic_Destination metadata)
  then IPSet_Contains (ip_ipSet r) (sa_Addr (ic_Destination metadata)) else
  if nonempty (ic_DestinationAddresses metadata)
  then existsb (IPSet_Contains (ip_ipSet r)) (ic_DestinationAddresses metadata)
  else IPCIDRAcceptEmpty (ic_cache metadata).

(** [route/rule/rule_item_cidr.go:93-95] (IPCIDRItem).String *)
Definition IPCIDRItem_String (r : IPCIDRItem) : string := ip_description r.

(** [route/rule/rule_item_ip_is_private.go:12-14] IPIsPrivateItem *)
Record IPIsPrivateItem : Type := mkIPIsPrivateItem { iv_isSource : bool }.

(** [route/rule/rule_item_ip_is_private.go:16-18] NewIPIsPrivateItem *)
Definition NewIPIsPrivateItem (isSource : bool) : IPIsPrivateItem := mkIPIsPrivateItem isSource.

(** [route/rule/rule_item_ip_is_private.go:20-38] (IPIsPrivateItem).Match *)
Definition IPIsPrivateItem_Match (r : IPIsPrivateItem) (metadata : InboundContext) : bool :=
  let destination := if iv_isSource r then sa_Addr (ic_Source metadata)
                     else sa_Addr (ic_Destination metadata) in
  if Addr_IsValid destination then negb (IsPublicAddr destination) else
  if negb (iv_isSource r)
  then existsb (λ destinationAddress, negb (IsPublicAddr destinationAddress))
         (ic_DestinationAddresses metadata)
  else false.

(** [route/rule/rule_item_ip_is_private.go:40-46] (IPIsPrivateItem).String *)
Definition IPIsPrivateItem_String (r : IPIsPrivateItem) : string :=
  if iv_isSource r then "source_ip_is_private=true" else "ip_is_private=true".

(** [route/rule/rule_item_ip_accept_any.go:15-17] (IPAcceptAnyItem).Match *)
Definition IPAcceptAnyItem_Match (metadata : InboundContext) : bool :=
  nonempty (ic_DestinationAddresses metadata).

(** [route/rule/rule_item_ip_accept_any.go:19-21] (IPAcceptAnyItem).String *)
Definition IPAcceptAnyItem_String : string := "ip_accept_any=true".

(** ** Addresses of the network interfaces *)

(** [common.All(l, func(it) bool { return !address.Overlaps(it) })] *)
Definition none_overlaps (address : Prefix) (l : list Prefix) : bool :=
  forallb (λ it, negb (Prefix_Overlaps address it)) l.

Definition build_prefixes (l : list (option Prefixable)) : list Prefix :=
  (λ prefixable, Prefixable_Build prefixable Prefix_zero) <$> l.

(** [route/rule/rule_default_interface_address.go:15-18] DefaultInterfaceAddressItem *)
Record DefaultInterfaceAddressItem : Type := mkDefaultInterfaceAddressItem {
  da_interfaceAddresses : list Prefix
}.

(** [route/rule/rule_default_interface_address.go:20-29] NewDefaultInterfaceAddressItem *)
Definition NewDefaultInterfaceAddressItem (interfaceAddresses : list (option Prefixable))
    : DefaultInterfaceAddressItem :=
  mkDefaultInterfaceAddressItem (build_prefixes interfaceAddresses).

(** [route/rule/rule_default_interface_address.go:31-44] (DefaultInterfaceAddressItem).Match *)
Definition DefaultInterfaceAddressItem_Match (env : Env) (r : DefaultInterfaceAddressItem)
    : bool :=
  match env_DefaultInterface env with
  | None => false
  | Some defaultInterface =>
      negb (existsb (λ address, none_overlaps address (if_Addresses defaultInterface))
              (da_interfaceAddresses r))
  end.

(** [route/rule/rule_default_interface_address.go:46-56] (DefaultInterfaceAddressItem).String *)
Definition DefaultInterfaceAddressItem_String (r : DefaultInterfaceAddressItem) : string :=
  describe_list "default_interface_address=" (Prefix_String <$> da_interfaceAddresses r).

(** [route/rule/rule_interface_address.go:16-20] InterfaceAddressItem *)
Record InterfaceAddressItem : Type := mkInterfaceAddressItem {
  ia_interfaceAddresses : gmap string (list Prefix);
  ia_description : string
}.

(** [route/rule/rule_interface_address.go:22-38] NewInterfaceAddressItem *)
Definition NewInterfaceAddressItem (entries : list (string * list (option Prefixable)))
    : InterfaceAddressItem :=
  let built := (λ '(k, l), (k, build_prefixes l)) <$> entries in
  mkInterfaceAddressItem
    (fold_left (λ m '(k, l), <[k := l]> m) built ∅)
    ("interface_address=[" +:+
     strings_Join ((λ '(k, l), k +:+ "=" +:+ strings_Join (Prefix_String <$> l) ",") <$> built) " "
     +:+ "]").

(** [common.Find]: the first match, the zero value when there is none. *)
Definition find_interface (name : string) (interfaces : list Interface) : Interface :=
  default (mkInterface 0 "" [] 0) (find (λ it, String.eqb (if_Name it) name) interfaces).

(** [route/rule/rule_interface_address.go:42-56] (InterfaceAddressItem).Match (loop body) *)
Definition interface_entry_matches (interfaces : list Interface) (ifName : string)
    (addresses : list Prefix) : bool :=
  let iface := find_interface ifName interfaces in
  if String.eqb (if_Name iface) "" then false
  else negb (forallb (λ address, none_overlaps address (if_Addresses iface)) addresses).

(** The loop over the Go map returns [false] at the first entry that does not match, in any order.

    [route/rule/rule_interface_address.go:40-58] (InterfaceAddressItem).Match *)
Definition InterfaceAddressItem_Match (env : Env) (r : InterfaceAddressItem) : bool :=
  forallb (λ '(ifName, addresses),
             interface_entry_matches (env_Interfaces env) ifName addresses)
    (map_to_list (ia_interfaceAddresses r)).

(** [route/rule/rule_interface_address.go:60-62] (InterfaceAddressItem).String *)
Definition InterfaceAddressItem_String (r : InterfaceAddressItem) : string := ia_description r.

(** [route/rule/rule_network_interface_address.go:17-21] NetworkInterfaceAddressItem *)
Record NetworkInterfaceAddressItem : Type := mkNetworkInterfaceAddressItem {
  na_interfaceAddresses : gmap InterfaceType (list Prefix);
  na_description : string
}.

(** [route/rule/rule_network_interface_address.go:23-39] NewNetworkInterfaceAddressItem *)
Definition NewNetworkInterfaceAddressItem
    (entries : list (InterfaceType * list (option Prefixable))) : NetworkInterfaceAddressItem :=
  let built := (λ '(k, l), (k, build_prefixes l)) <$> entries in
  mkNetworkInterfaceAddressItem
    (fold_left (λ m '(k, l), <[k := l]> m) built ∅)
    ("network_interface_address=[" +:+
     strings_Join ((λ '(k, l), InterfaceType_String k +:+ "=" +:+
                               strings_Join (Prefix_String <$> l) ",") <$> built) " "
     +:+ "]").

(** [route/rule/rule_network_interface_address.go:45-57]
    (NetworkInterfaceAddressItem).Match (loop body) *)
Definition network_interface_entry_matches (interfaces : list NetworkInterface)
    (ifType : InterfaceType) (addresses : list Prefix) : bool :=
  existsb (λ networkInterface,
    if bool_decide (ni_Type networkInterface ≠ ifType) then false
    else existsb (λ it, existsb (λ prefix, Prefix_Overlaps prefix it) addresses)
           (if_Addresses (ni_Interface networkInterface)))
    interfaces.

(** [route/rule/rule_network_interface_address.go:41-60] (NetworkInterfaceAddressItem).Match *)
Definition NetworkInterfaceAddressItem_Match (env : Env) (r : NetworkInterfaceAddressItem)
    : bool :=
  forallb (λ '(ifType, addresses),
             network_interface_entry_matches (env_NetworkInterfaces env) ifType addresses)
    (map_to_list (na_interfaceAddresses r)).

(** [route/rule/rule_network_interface_address.go:62-64] (NetworkInterfaceAddressItem).String *)
Definition NetworkInterfaceAddressItem_String (r : NetworkInterfaceAddressItem) : string :=
  na_description r.

(** ** Preferred routes of outbounds *)

(** [route/rule/rule_item_preferred_by.go:15-19] PreferredByItem *)
Record PreferredByItem : Type := mkPreferredByItem {
  pb_outboundTags : list string;
  pb_outbounds : list PreferredRoutes
}.

(** [route/rule/rule_item_preferred_by.go:21-26] NewPreferredByItem *)
Definition NewPreferredByItem (outboundTags : list string) : PreferredByItem :=
  mkPreferredByItem outboundTags [].

(** [route/rule/rule_item_preferred_by.go:30-40] (PreferredByItem).Start (loop body) *)
Definition preferred_outbound (env : Env) (outboundTag : string) : res PreferredRoutes :=
  match env_Outbound env outboundTag with
  | None => Err (E_New [AStr "outbound not found: "; AStr outboundTag])
  | Some (ty, None) =>
      Err (E_New [AStr "outbound type does not support preferred routes: "; AStr ty])
  | Some (_, Some routes) => Ok routes
  end.

(** The outbounds found before an error stay in the item, which the caller then drops.

    [route/rule/rule_item_preferred_by.go:28-42] (PreferredByItem).Start *)
Definition PreferredByItem_Start (env : Env) (r : PreferredByItem) : res PreferredByItem :=
  l ← mapi_res (λ _, preferred_outbound env) (pb_outboundTags r);
  Ok (mkPreferredByItem (pb_outboundTags r) (pb_outbounds r ++ l)).

(** [route/rule/rule_item_preferred_by.go:44-75] (PreferredByItem).Match *)
Definition PreferredByItem_Match (r : PreferredByItem) (metadata : InboundContext) : bool :=
  let domainHost := domainHost metadata in
  if negb (String.eqb domainHost "") &&
     existsb (λ outbound, PreferredDomain outbound domainHost) (pb_outbounds r)
  then true else
  if Socksaddr_IsIP (ic_Destination metadata) &&
     existsb (λ outbound, PreferredAddress outbound (sa_Addr (ic_Destination metadata)))
       (pb_outbounds r)
  then true else
  existsb (λ address, existsb (λ outbound, PreferredAddress outbound address) (pb_outbounds r))
    (ic_DestinationAddresses metadata).

(** [route/rule/rule_item_preferred_by.go:77-86] (PreferredByItem).String *)
Definition PreferredByItem_String (r : PreferredByItem) : string :=
  "preferred_by=" +:+
  match pb_outboundTags r with
  | [x] => F_ToString [AStr x]
  | l => "[" +:+ strings_Join (F_MapToString (AStr <$> l)) " " +:+ "]"
  end.

End Items.
