(* ===== verification/RuleAction.v ===== *)
(** * Rule actions (route/rule/rule_action.go, option/rule_action.go)

    An action is a value of one type for the routing and the DNS rules.  Sniffers are named, not
    called: [Route] runs them.  The flood counter of a [reject] action is its mutable state. *)

From stdpp Require Import base gmap strings list numbers sorting.
From S2P Require Import Prelude GoStd Netip Adapter SetItems.

Local Open Scope Z_scope.

(** ** Sniffers, by name *)

Inductive StreamSniffer : Type :=
| SS_TLSClientHello | SS_HTTPHost | SS_StreamDomainNameQuery | SS_BitTorrent | SS_SSH | SS_RDP.

Inductive PacketSniffer : Type :=
| PS_DomainNameQuery | PS_QUICClientHello | PS_STUNMessage | PS_UTP | PS_UDPTracker
| PS_DTLSRecord | PS_NTP.

#[global] Instance StreamSniffer_eq_dec : EqDecision StreamSniffer.
Proof. solve_decision. Defined.
#[global] Instance PacketSniffer_eq_dec : EqDecision PacketSniffer.
Proof. solve_decision. Defined.

(** ** Options *)

(** Resource records of github.com/miekg/dns, and the dialer of common/dialer with the options it
    is built from: neither is modelled. *)
Class ActionLib := {
  RR : Type;
  RR_Name : RR → string;
  RR_copy_with_Name : string → RR → RR;
  RR_String : RR → string;
  RcodeToString : Z → string;
  Dialer : Type;
  DirectActionOptions : Type;
  dialer_New : DirectActionOptions → res Dialer;
  DirectActionOptions_Descriptions : DirectActionOptions → list string;
  Duration_String : Z → string
}.

(** A concrete choice, for examples: records are names, and there is one dialer. *)
Definition SampleActions : ActionLib := {|
  RR := string;
  RR_Name := id;
  RR_copy_with_Name n _ := n;
  RR_String := id;
  RcodeToString _ := "rcode"%string;
  Dialer := unit;
  DirectActionOptions := unit;
  dialer_New _ := Ok tt;
  DirectActionOptions_Descriptions _ := [];
  Duration_String _ := "duration"%string
|}.

Section Actions.
Context `{ExtLib} `{ActionLib}.

(** [option/rule_action.go:157-171] RawRouteOptionsActionOptions *)
Record RawRouteOptionsActionOptions : Type := mkRawRouteOptionsActionOptions {
  ro_OverrideAddress : string;
  ro_OverridePort : Z;
  ro_NetworkStrategy : option NetworkStrategy;
  ro_FallbackDelay : Z;
  ro_UDPDisableDomainUnmapping : bool;
  ro_UDPConnect : bool;
  ro_UDPTimeout : Z;
  ro_TLSFragment : bool;
  ro_TLSFragmentFallbackDelay : Z;
  ro_TLSRecordFragment : bool
}.

(** [option/rule_action.go:152-155] RouteActionOptions *)
Record RouteActionOptions : Type := mkRouteActionOptions {
  rt_Outbound : string;
  rt_Raw : RawRouteOptionsActionOptions
}.

(** [option/rule_action.go:270-273] _RejectActionOptions *)
Record RejectActionOptions : Type := mkRejectActionOptions {
  rj_Method : string;
  rj_NoDrop : bool
}.

(** [option/rule_action.go:304-307] RouteActionSniff *)
Record RouteActionSniff : Type := mkRouteActionSniff {
  rs_Sniffer : list string;
  rs_Timeout : Z
}.

(** [option/rule_action.go:309-315] RouteActionResolve *)
Record RouteActionResolve : Type := mkRouteActionResolve {
  rr_Server : string;
  rr_Strategy : DomainStrategy;
  rr_DisableCache : bool;
  rr_RewriteTTL : option Z;
  rr_ClientSubnet : option Prefixable
}.

(** The options struct has one field per action type; the decoder fills the one that [Action]
    names, so the field is part of the constructor here.  [OA_Unknown] is any other name.

    [option/rule_action.go:16-25] _RuleAction *)
Inductive RuleActionOptions : Type :=
| OA_Empty
| OA_Route (o : RouteActionOptions)
| OA_RouteOptions (o : RawRouteOptionsActionOptions)
| OA_Direct (o : DirectActionOptions)
| OA_Bypass (o : RouteActionOptions)
| OA_Reject (o : RejectActionOptions)
| OA_HijackDNS
| OA_Sniff (o : RouteActionSniff)
| OA_Resolve (o : RouteActionResolve)
| OA_Unknown (name : string).

(** [option/rule_action.go:197-202] _DNSRouteOptionsActionOptions *)
Record DNSRouteOptionsActionOptions : Type := mkDNSRouteOptionsActionOptions {
  do_Strategy : DomainStrategy;
  do_DisableCache : bool;
  do_RewriteTTL : option Z;
  do_ClientSubnet : option Prefixable
}.

(** [option/rule_action.go:189-195] DNSRouteActionOptions *)
Record DNSRouteActionOptions : Type := mkDNSRouteActionOptions {
  dr_Server : string;
  dr_Options : DNSRouteOptionsActionOptions
}.

(** [option/rule_action.go:317-322] DNSRouteActionPredefined *)
Record DNSRouteActionPredefined : Type := mkDNSRouteActionPredefined {
  dp_Rcode : option Z;
  dp_Answer : list RR;
  dp_Ns : list RR;
  dp_Extra : list RR
}.

(** [option/rule_action.go:99-105] _DNSRuleAction *)
Inductive DNSRuleActionOptions : Type :=
| ODA_Empty
| ODA_Route (o : DNSRouteActionOptions)
| ODA_RouteOptions (o : DNSRouteOptionsActionOptions)
| ODA_Reject (o : RejectActionOptions)
| ODA_Predefined (o : DNSRouteActionPredefined)
| ODA_Unknown (name : string).

(** [option/dns_record.go:44-49] (DNSRCode).Build *)
Definition DNSRCode_Build (r : option Z) : Z := default 0 r.

(** ** Actions *)

(** [route/rule/rule_action.go:195-208] RuleActionRouteOptions *)
Record RuleActionRouteOptions : Type := mkRuleActionRouteOptions {
  ao_OverrideAddress : Socksaddr;
  ao_OverridePort : Z;
  ao_NetworkStrategy : option NetworkStrategy;
  ao_NetworkType : list InterfaceType;
  ao_FallbackNetworkType : list InterfaceType;
  ao_FallbackDelay : Z;
  ao_UDPDisableDomainUnmapping : bool;
  ao_UDPConnect : bool;
  ao_UDPTimeout : Z;
  ao_TLSFragment : bool;
  ao_TLSFragmentFallbackDelay : Z;
  ao_TLSRecordFragment : bool
}.

(** Times are in nanoseconds; [dropCounter] holds the times of recent rejections, oldest first.

    [route/rule/rule_action.go:355-361] RuleActionReject *)
Record RuleActionReject : Type := mkRuleActionReject {
  aj_Method : string;
  aj_NoDrop : bool;
  aj_dropCounter : list Z
}.

(** [route/rule/rule_action.go:415-422] RuleActionSniff *)
Record RuleActionSniff : Type := mkRuleActionSniff {
  as_SnifferNames : list string;
  as_StreamSniffers : list StreamSniffer;
  as_PacketSniffers : list PacketSniffer;
  as_Timeout : Z;
  as_OverrideDestination : bool
}.

(** [route/rule/rule_action.go:473-479] RuleActionResolve *)
Record RuleActionResolve : Type := mkRuleActionResolve {
  av_Server : string;
  av_Strategy : DomainStrategy;
  av_DisableCache : bool;
  av_RewriteTTL : option Z;
  av_ClientSubnet : Prefix
}.

(** [route/rule/rule_action.go:283-288] RuleActionDNSRouteOptions *)
Record RuleActionDNSRouteOptions : Type := mkRuleActionDNSRouteOptions {
  ad_Strategy : DomainStrategy;
  ad_DisableCache : bool;
  ad_RewriteTTL : option Z;
  ad_ClientSubnet : Prefix
}.

(** [route/rule/rule_action.go:509-514] RuleActionPredefined *)
Record RuleActionPredefined : Type := mkRuleActionPredefined {
  ap_Rcode : Z;
  ap_Answer : list RR;
  ap_Ns : list RR;
  ap_Extra : list RR
}.

(** [adapter/rule.go:25-28] RuleAction *)
Inductive RuleAction : Type :=
| RuleActionRoute (Outbound : string) (o : RuleActionRouteOptions)
| RuleActionBypass (Outbound : string) (o : RuleActionRouteOptions)
| RA_RouteOptions (o : RuleActionRouteOptions)
| RuleActionDirect (d : Dialer) (description : string)
| RA_Reject (r : RuleActionReject)
| RuleActionHijackDNS
| RA_Sniff (s : RuleActionSniff)
| RA_Resolve (r : RuleActionResolve)
| RuleActionDNSRoute (Server : string) (o : RuleActionDNSRouteOptions)
| RA_DNSRouteOptions (o : RuleActionDNSRouteOptions)
| RA_Predefined (p : RuleActionPredefined).

(** [constant/rule.go:29-39] RuleActionType *)
Inductive RuleActionType : Type :=
| RuleActionTypeRoute | RuleActionTypeRouteOptions | RuleActionTypeDirect
| RuleActionTypeBypass | RuleActionTypeReject | RuleActionTypeHijackDNS | RuleActionTypeSniff
| RuleActionTypeResolve | RuleActionTypePredefined.

#[global] Instance RuleActionType_eq_dec : EqDecision RuleActionType.
Proof. solve_decision. Defined.

(** The [Type] methods of the action types.

    [route/rule/rule_action.go:165-167] (RuleAction).Type *)
Definition RuleAction_Type (a : RuleAction) : RuleActionType :=
  match a with
  | RuleActionRoute _ _ | RuleActionDNSRoute _ _ => RuleActionTypeRoute
  | RuleActionBypass _ _ => RuleActionTypeBypass
  | RA_RouteOptions _ | RA_DNSRouteOptions _ => RuleActionTypeRouteOptions
  | RuleActionDirect _ _ => RuleActionTypeDirect
  | RA_Reject _ => RuleActionTypeReject
  | RuleActionHijackDNS => RuleActionTypeHijackDNS
  | RA_Sniff _ => RuleActionTypeSniff
  | RA_Resolve _ => RuleActionTypeResolve
  | RA_Predefined _ => RuleActionTypePredefined
  end.

(** [adapter/rule.go:30-37] IsFinalAction *)
Definition IsFinalAction (action : RuleAction) : bool :=
  match RuleAction_Type action with
  | RuleActionTypeSniff | RuleActionTypeResolve => false
  | _ => true
  end.

(** The embedded route options of a [route] or [bypass] action: [UDPTimeout] is not copied.

    [route/rule/rule_action.go:34-44] NewRuleAction (embedded options) *)
Definition embedded_options (o : RawRouteOptionsActionOptions) : RuleActionRouteOptions :=
  mkRuleActionRouteOptions (ParseSocksaddrHostPort (ro_OverrideAddress o) 0) (ro_OverridePort o)
    (ro_NetworkStrategy o) [] [] (ro_FallbackDelay o) (ro_UDPDisableDomainUnmapping o)
    (ro_UDPConnect o) 0 (ro_TLSFragment o) (ro_TLSFragmentFallbackDelay o)
    (ro_TLSRecordFragment o).

(** [route/rule/rule_action.go:47-58] NewRuleAction (route-options) *)
Definition route_options (o : RawRouteOptionsActionOptions) : RuleActionRouteOptions :=
  mkRuleActionRouteOptions (ParseSocksaddrHostPort (ro_OverrideAddress o) 0) (ro_OverridePort o)
    (ro_NetworkStrategy o) [] [] (ro_FallbackDelay o) (ro_UDPDisableDomainUnmapping o)
    (ro_UDPConnect o) (ro_UDPTimeout o) (ro_TLSFragment o) (ro_TLSFragmentFallbackDelay o)
    (ro_TLSRecordFragment o).

(** One name of the sniffer list.

    [route/rule/rule_action.go:430-456] (RuleActionSniff).build (loop body) *)
Definition sniffers_of (name : string) : option (list StreamSniffer * list PacketSniffer) :=
  if String.eqb name "tls" then Some ([SS_TLSClientHello], []) else
  if String.eqb name "http" then Some ([SS_HTTPHost], []) else
  if String.eqb name "quic" then Some ([], [PS_QUICClientHello]) else
  if String.eqb name "dns" then Some ([SS_StreamDomainNameQuery], [PS_DomainNameQuery]) else
  if String.eqb name "stun" then Some ([], [PS_STUNMessage]) else
  if String.eqb name "bittorrent" then Some ([SS_BitTorrent], [PS_UTP; PS_UDPTracker]) else
  if String.eqb name "dtls" then Some ([], [PS_DTLSRecord]) else
  if String.eqb name "ssh" then Some ([SS_SSH], []) else
  if String.eqb name "rdp" then Some ([SS_RDP], []) else
  if String.eqb name "ntp" then Some ([], [PS_NTP]) else None.

(** [route/rule/rule_action.go:428-459] (RuleActionSniff).build *)
Fixpoint build_sniffers (names : list string) (stream : list StreamSniffer)
    (packet : list PacketSniffer) : res (list StreamSniffer * list PacketSniffer) :=
  match names with
  | [] => Ok (stream, packet)
  | name :: l =>
      match sniffers_of name with
      | Some (s, p) => build_sniffers l (stream ++ s) (packet ++ p)
      | None => Err (E_New [AStr "unknown sniffer: "; AStr name])
      end
  end.

(** [route/rule/rule_action.go:79-89] NewRuleAction (description of direct) *)
Definition direct_description (descriptions : list string) : string :=
  match descriptions with
  | [] => ""
  | [a] => F_ToString [AStr "("; AStr a; AStr ")"]
  | [a; b] => F_ToString [AStr "("; AStr a; AStr ","; AStr b; AStr ")"]
  | a :: b :: _ => F_ToString [AStr "("; AStr a; AStr ","; AStr b; AStr ",...)"]
  end.

(** A [nil] action is [None].

    [route/rule/rule_action.go:27-119] NewRuleAction *)
Definition NewRuleAction (action : RuleActionOptions) : res (option RuleAction) :=
  match action with
  | OA_Empty => Ok None
  | OA_Route o => Ok (Some (RuleActionRoute (rt_Outbound o) (embedded_options (rt_Raw o))))
  | OA_RouteOptions o => Ok (Some (RA_RouteOptions (route_options o)))
  | OA_Bypass o => Ok (Some (RuleActionBypass (rt_Outbound o) (embedded_options (rt_Raw o))))
  | OA_Direct o =>
      directDialer ← dialer_New o;
      Ok (Some (RuleActionDirect directDialer
                  (direct_description (DirectActionOptions_Descriptions o))))
  | OA_Reject o => Ok (Some (RA_Reject (mkRuleActionReject (rj_Method o) (rj_NoDrop o) [])))
  | OA_HijackDNS => Ok (Some RuleActionHijackDNS)
  | OA_Sniff o =>
      '(stream, packet) ← build_sniffers (rs_Sniffer o) [] [];
      Ok (Some (RA_Sniff (mkRuleActionSniff (rs_Sniffer o) stream packet (rs_Timeout o) false)))
  | OA_Resolve o =>
      Ok (Some (RA_Resolve (mkRuleActionResolve (rr_Server o) (rr_Strategy o) (rr_DisableCache o)
                              (rr_RewriteTTL o) (Prefixable_Build (rr_ClientSubnet o) Prefix_zero))))
  | OA_Unknown name => Panic [AStr "unknown rule action: "; AStr name]
  end.

Definition dns_route_options (o : DNSRouteOptionsActionOptions) : RuleActionDNSRouteOptions :=
  mkRuleActionDNSRouteOptions (do_Strategy o) (do_DisableCache o) (do_RewriteTTL o)
    (Prefixable_Build (do_ClientSubnet o) Prefix_zero).

(** [route/rule/rule_action.go:121-158] NewDNSRuleAction *)
Definition NewDNSRuleAction (action : DNSRuleActionOptions) : res (option RuleAction) :=
  match action with
  | ODA_Empty => Ok None
  | ODA_Route o =>
      Ok (Some (RuleActionDNSRoute (dr_Server o) (dns_route_options (dr_Options o))))
  | ODA_RouteOptions o => Ok (Some (RA_DNSRouteOptions (dns_route_options o)))
  | ODA_Reject o => Ok (Some (RA_Reject (mkRuleActionReject (rj_Method o) (rj_NoDrop o) [])))
  | ODA_Predefined o =>
      Ok (Some (RA_Predefined (mkRuleActionPredefined (DNSRCode_Build (dp_Rcode o))
                                 (dp_Answer o) (dp_Ns o) (dp_Extra o))))
  | ODA_Unknown name => Panic [AStr "unknown rule action: "; AStr name]
  end.

(** ** Rejection *)

(** [route/rule/rule_action.go:333-336] IsRejected *)
Definition IsRejected (err : error) : bool :=
  errors_find (λ e, match e with RejectedError _ | RejectedError_nil => true | _ => false end) err.

(** [route/rule/rule_action.go:350-353] IsBypassed *)
Definition IsBypassed (err : error) : bool :=
  errors_find (λ e, match e with BypassedError _ => true | _ => false end) err.

Definition ErrReset : error := E_Ext "tun.ErrReset".
Definition ErrDrop : error := E_Ext "tun.ErrDrop".
Definition ErrBypass : error := E_Ext "tun.ErrBypass".

Definition flood_window : Z := 30 * 1000000000.
Definition flood_limit : nat := 50.

(** The part of [Error] after the switch: count the call, drop when there are too many.

    [route/rule/rule_action.go:386-402] (RuleActionReject).Error (flood control) *)
Definition reject_flood (timeNow : Z) (returnErr : error) (r : RuleActionReject)
    : error * RuleActionReject :=
  if aj_NoDrop r then (returnErr, r) else
  let dropCounter :=
    List.filter (λ t, Z.leb (timeNow - t) flood_window) (aj_dropCounter r) ++ [timeNow] in
  (if Nat.ltb flood_limit (length dropCounter) then RejectedError ErrDrop else returnErr,
   mkRuleActionReject (aj_Method r) (aj_NoDrop r) dropCounter).

(** The result is an error or [nil] (the [reply] method), or a panic.

    [route/rule/rule_action.go:374-403] (RuleActionReject).Error *)
Definition RuleActionReject_Error (timeNow : Z) (r : RuleActionReject)
    : res (option error * RuleActionReject) :=
  if String.eqb (aj_Method r) "default" then
    let '(err, r') := reject_flood timeNow (RejectedError ErrReset) r in Ok (Some err, r')
  else if String.eqb (aj_Method r) "drop" then Ok (Some (RejectedError ErrDrop), r)
  else if String.eqb (aj_Method r) "reply" then Ok (None, r)
  else Panic [AStr "unknown reject method: "; AStr (aj_Method r)].

(** ** Predefined DNS answers *)

(** The parts of [dns.Msg] the response sets. *)
Record Question : Type := mkQuestion { q_Name : string; q_Qtype : Z; q_Qclass : Z }.

Record Msg : Type := mkMsg {
  msg_Id : Z;
  msg_Response : bool;
  msg_Authoritative : bool;
  msg_RecursionDesired : bool;
  msg_RecursionAvailable : bool;
  msg_Rcode : Z;
  msg_Question : list Question;
  msg_Answer : list RR;
  msg_Ns : list RR;
  msg_Extra : list RR
}.

(** [route/rule/rule_action.go:546-556] rewriteRecords *)
Definition rewriteRecords (records : list RR) (question : Question) : list RR :=
  (λ it,
    if strings_HasPrefix (RR_Name it) "*"
    then if strings_HasSuffix (q_Name question) (str_drop 1 (RR_Name it))
         then RR_copy_with_Name (q_Name question) it else it
    else it) <$> records.

(** A request without a question makes the index expression panic.

    [route/rule/rule_action.go:529-544] (RuleActionPredefined).Response *)
Definition RuleActionPredefined_Response (r : RuleActionPredefined) (request : Msg) : res Msg :=
  match msg_Question request with
  | [] => Panic [AStr "index out of range"]
  | question :: _ =>
      Ok (mkMsg (msg_Id request) true true true true (ap_Rcode r) (msg_Question request)
            (rewriteRecords (ap_Answer r) question) (rewriteRecords (ap_Ns r) question)
            (rewriteRecords (ap_Extra r) question))
  end.

(** ** Descriptions *)

Definition when (b : bool) (s : list string) : list string := if b then s else [].

(** A slice is printed when it is not [nil]; the slices of the actions built above are [nil] or
    have elements.

    [route/rule/rule_action.go:218-257] (RuleActionRouteOptions).Descriptions *)
Definition RuleActionRouteOptions_Descriptions (r : RuleActionRouteOptions) : list string :=
  when (Socksaddr_IsValid (ao_OverrideAddress r))
    [F_ToString [AStr "override-address="; AStr (Socksaddr_AddrString (ao_OverrideAddress r))]] ++
  when (Z.ltb 0 (ao_OverridePort r))
    [F_ToString [AStr "override-port="; AInt (ao_OverridePort r)]] ++
  match ao_NetworkStrategy r with
  | Some s => [F_ToString [AStr "network-strategy=";
                 AStr (match s with
                       | NetworkStrategyDefault => "default"
                       | NetworkStrategyFallback => "fallback"
                       | NetworkStrategyHybrid => "hybrid" end)]]
  | None => []
  end ++
  when (nonempty (ao_NetworkType r))
    [F_ToString [AStr "network-type=";
       AStr (strings_Join (InterfaceType_String <$> ao_NetworkType r) ",")]] ++
  when (nonempty (ao_FallbackNetworkType r))
    [F_ToString [AStr ("fallback-network-type=" +:+
       strings_Join (InterfaceType_String <$> ao_NetworkType r) ",")]] ++
  when (Z.ltb 0 (ao_FallbackDelay r))
    [F_ToString [AStr "fallback-delay="; AStr (Duration_String (ao_FallbackDelay r))]] ++
  when (ao_UDPDisableDomainUnmapping r) ["udp-disable-domain-unmapping"%string] ++
  when (ao_UDPConnect r) ["udp-connect"%string] ++
  when (Z.ltb 0 (ao_UDPTimeout r)) ["udp-timeout"%string] ++
  when (ao_TLSFragment r) ["tls-fragment"%string] ++
  when (Z.ltb 0 (ao_TLSFragmentFallbackDelay r))
    [F_ToString [AStr "tls-fragment-fallback-delay=";
       AStr (Duration_String (ao_TLSFragmentFallbackDelay r))]] ++
  when (ao_TLSRecordFragment r) ["tls-record-fragment"%string].

(** [route/rule/rule_action.go:294-306] (RuleActionDNSRouteOptions).String (descriptions) *)
Definition dns_options_descriptions (r : RuleActionDNSRouteOptions) : list string :=
  when (ad_DisableCache r) ["disable-cache"%string] ++
  match ad_RewriteTTL r with
  | Some ttl => [F_ToString [AStr "rewrite-ttl="; AInt ttl]]
  | None => []
  end ++
  when (Prefix_IsValid (ad_ClientSubnet r))
    [F_ToString [AStr "client-subnet="; AStr (Prefix_String (ad_ClientSubnet r))]].

(** The [String] method of [resolve] is left out: it prints its fields.

    [route/rule/rule_action.go:169-174] (RuleActionRoute).String *)
Definition RuleActionRoute_String (Outbound : string) (o : RuleActionRouteOptions) : string :=
  F_ToString [AStr "route(";
    AStr (strings_Join (Outbound :: RuleActionRouteOptions_Descriptions o) ","); AStr ")"].

(** [route/rule/rule_action.go:185-193] (RuleActionBypass).String *)
Definition RuleActionBypass_String (Outbound : string) (o : RuleActionRouteOptions) : string :=
  if String.eqb Outbound "" then "bypass()" else
  F_ToString [AStr "bypass(";
    AStr (strings_Join (Outbound :: RuleActionRouteOptions_Descriptions o) ","); AStr ")"].

(** [route/rule/rule_action.go:268-281] (RuleActionDNSRoute).String *)
Definition RuleActionDNSRoute_String (Server : string) (o : RuleActionDNSRouteOptions) : string :=
  F_ToString [AStr "route("; AStr (strings_Join (Server :: dns_options_descriptions o) ",");
    AStr ")"].

(** [route/rule/rule_action.go:367-372] (RuleActionReject).String *)
Definition RuleActionReject_String (r : RuleActionReject) : string :=
  if String.eqb (aj_Method r) "default" then "reject"
  else F_ToString [AStr "reject("; AStr (aj_Method r); AStr ")"].

(** [route/rule/rule_action.go:461-471] (RuleActionSniff).String *)
Definition RuleActionSniff_String (r : RuleActionSniff) : string :=
  let names := nonempty (as_SnifferNames r) in
  if negb names && Z.eqb (as_Timeout r) 0 then "sniff" else
  if names && Z.eqb (as_Timeout r) 0
  then F_ToString [AStr "sniff("; AStr (strings_Join (as_SnifferNames r) ","); AStr ")"] else
  if negb names && Z.ltb 0 (as_Timeout r)
  then F_ToString [AStr "sniff("; AStr (Duration_String (as_Timeout r)); AStr ")"] else
  F_ToString [AStr "sniff("; AStr (strings_Join (as_SnifferNames r) ","); AStr ",";
              AStr (Duration_String (as_Timeout r)); AStr ")"].

(** [route/rule/rule_action.go:520-527] (RuleActionPredefined).String *)
Definition RuleActionPredefined_String (r : RuleActionPredefined) : string :=
  F_ToString [AStr "predefined(";
    AStr (strings_Join (RcodeToString (ap_Rcode r) :: (RR_String <$> ap_Answer r)
            ++ (RR_String <$> ap_Ns r) ++ (RR_String <$> ap_Extra r)) ","); AStr ")"].

End Actions.

(** ** The flood control *)

(** The answers to a sequence of rejections at the given times, and the final state. *)
Fixpoint reject_run (returnErr : error) (ts : list Z) (r : RuleActionReject)
    : list error * RuleActionReject :=
  match ts with
  | [] => ([], r)
  | t :: ts' =>
      let '(e, r1) := reject_flood t returnErr r in
      let '(es, r2) := reject_run returnErr ts' r1 in
      (e :: es, r2)
  end.

(** The calls of [ts] that fall in the window that ends at [now]. *)
Definition in_window (now : Z) (ts : list Z) : list Z :=
  List.filter (λ t, Z.leb (now - t) flood_window) ts.

Lemma in_window_idemp now now' ts :
  now ≤ now' → in_window now' (in_window now ts) = in_window now' ts.
Proof.
  intros Hle. unfold in_window. induction ts as [|t ts IH]; [done|]. cbn.
  destruct (Z.leb_spec (now - t) flood_window) as [H1|H1]; cbn.
  - by rewrite IH.
  - destruct (Z.leb_spec (now' - t) flood_window) as [H2|H2]; [lia|]. exact IH.
Qed.

Lemma in_window_app now ts us : in_window now (ts ++ us) = in_window now ts ++ in_window now us.
Proof. apply List.filter_app. Qed.

(** After the calls of [past], which end at [now], the counter holds those in the window. *)
Definition counts (past : list Z) (r : RuleActionReject) : Prop :=
  ∃ now, (∀ t, t ∈ past → t ≤ now) ∧ aj_dropCounter r = in_window now past ∧
    (past = [] ∨ now ∈ past).

Lemma reject_flood_counts past t e r :
  aj_NoDrop r = false → counts past r → (∀ u, u ∈ past → u ≤ t) →
  (reject_flood t e r).1 =
    (if Nat.ltb 50 (length (in_window t (past ++ [t]))) then RejectedError ErrDrop else e) ∧
  counts (past ++ [t]) (reject_flood t e r).2 ∧ aj_NoDrop (reject_flood t e r).2 = false.
Proof.
  intros Hnd (now & Hmax & Hc & Hin) Ht. unfold reject_flood. rewrite Hnd.
  assert (List.filter (λ u, Z.leb (t - u) flood_window) (aj_dropCounter r) ++ [t]
          = in_window t (past ++ [t])) as Heq.
  { rewrite in_window_app. f_equal.
    - rewrite Hc. fold (in_window t (in_window now past)). destruct Hin as [->|Hin]; [done|].
      apply in_window_idemp. auto.
    - cbn. rewrite Z.sub_diag. done. }
  rewrite Heq. split_and!; [done| |done].
  exists t. split_and!; cbn; [|done|].
  - intros u [?| ->%list_elem_of_singleton]%elem_of_app; [auto|lia].
  - right. apply elem_of_app. right. by apply list_elem_of_singleton.
Qed.

Lemma reject_run_app e ts us r :
  reject_run e (ts ++ us) r =
  let '(es, r1) := reject_run e ts r in
  let '(es', r2) := reject_run e us r1 in (es ++ es', r2).
Proof.
  revert r. induction ts as [|t ts IH]; intros r; cbn.
  - by destruct (reject_run e us r).
  - destruct (reject_flood t e r) as [x r1]. rewrite IH.
    destruct (reject_run e ts r1) as [es r2]. by destruct (reject_run e us r2).
Qed.

Lemma reject_run_counts e ts r past :
  aj_NoDrop r = false → counts past r → Sorted.StronglySorted Z.le (past ++ ts) →
  counts (past ++ ts) (reject_run e ts r).2 ∧ aj_NoDrop (reject_run e ts r).2 = false.
Proof.
  revert r past. induction ts as [|t ts IH]; intros r past Hnd Hc Hs; cbn.
  { by rewrite app_nil_r. }
  assert (∀ u, u ∈ past → u ≤ t) as Hle.
  { intros u Hu. eapply StronglySorted_app_1_elem_of; [exact Hs|done|apply list_elem_of_here]. }
  destruct (reject_flood_counts past t e r Hnd Hc Hle) as (_ & Hc' & Hnd').
  destruct (reject_flood t e r) as [x r1]; cbn in *.
  specialize (IH r1 (past ++ [t]) Hnd' Hc'). rewrite <-!app_assoc in IH. cbn in IH.
  specialize (IH Hs). by destruct (reject_run e ts r1).
Qed.

(** A reject action that may drop answers a call with [tun.ErrDrop] exactly when more than 50
    calls, this one included, were made in the last 30 seconds, and with its plain reset error
    otherwise; the counter it keeps is enough to tell. *)
Theorem reject_flood_control method ts t :
  Sorted.StronglySorted Z.le (ts ++ [t]) →
  let '(_, r) := reject_run (RejectedError ErrReset) ts (mkRuleActionReject method false []) in
  (reject_flood t (RejectedError ErrReset) r).1 =
    if Nat.ltb 50 (length (in_window t (ts ++ [t]))) then RejectedError ErrDrop
    else RejectedError ErrReset.
Proof.
  intros Hs. pose proof (reject_run_counts (RejectedError ErrReset) ts
    (mkRuleActionReject method false []) []) as Hrun. cbn [app] in Hrun.
  destruct (reject_run _ ts _) as [es r]. destruct Hrun as [Hc Hnd].
  - done.
  - exists 0. split_and!; [|done|by left]. by intros ? ?%elem_of_nil.
  - by eapply StronglySorted_app_1_l.
  - apply reject_flood_counts; [done..|].
    intros u Hu. eapply StronglySorted_app_1_elem_of; [exact Hs|done|apply list_elem_of_here].
Qed.

(** Fifty-one rejections within one second: the last is dropped. *)
Lemma reject_flood_control_witness :
  let '(_, r) := reject_run (RejectedError ErrReset) (replicate 50 7)
                   (mkRuleActionReject "default" false []) in
  (reject_flood 8 (RejectedError ErrReset) r).1 =
    if Nat.ltb 50 (length (in_window 8 (replicate 50 7 ++ [8]))) then RejectedError ErrDrop
    else RejectedError ErrReset.
Proof.
  apply (reject_flood_control "default" (replicate 50 7) 8).
  vm_compute. repeat first [constructor | (intros [=])].
Defined.
