(* ===== verification/RuleOptions.v ===== *)
(** * The options rules are built from (option/rule.go, option/rule_dns.go, option/rule_set.go)

    The option structs, with the slices that are absent in the configuration as empty lists, and
    their validity.  A rule option is a default rule or a logical rule over rule options; the struct
    has the fields of both, so the tree type does too. *)

From stdpp Require Import base gmap strings list numbers.
From S2P Require Import Prelude GoStd Netip Adapter SetItems AddrItems RuleAction.

Local Open Scope Z_scope.

(** ** Trees of rule options *)

(** The fields of [RawLogicalRule] and of the action embedded next to it.

    [option/rule.go:138-147] RawLogicalRule *)
Record LogicalOptions (R A : Type) : Type := mkLogicalOptions {
  lo_Mode : string;
  lo_Rules : list R;
  lo_Invert : bool;
  lo_Action : A
}.
Arguments mkLogicalOptions {R A}.
Arguments lo_Mode {R A}.
Arguments lo_Rules {R A}.
Arguments lo_Invert {R A}.
Arguments lo_Action {R A}.

(** [Type], [DefaultOptions] and [LogicalOptions] of [Rule], [DNSRule] and [HeadlessRule].

    [option/rule_set.go:129-133] _HeadlessRule *)
Inductive OptionTree (D A : Type) : Type :=
| mkOptionTree (type : string) (DefaultOptions : D)
    (Logical : LogicalOptions (OptionTree D A) A).
Arguments mkOptionTree {D A}.

(** Induction over rule options. *)
Lemma OptionTree_ind' {D A} (P : OptionTree D A → Prop) :
  (∀ type d l, (∀ o, o ∈ lo_Rules l → P o) → P (mkOptionTree type d l)) → ∀ o, P o.
Proof.
  intros HP. fix IH 1. intros [type d [mode rules inv act]]. apply HP. cbn.
  assert (Forall P rules) as Hall.
  { clear HP. revert rules. fix IHl 1. intros [|o rules]; constructor; [apply IH|apply IHl]. }
  intros o Ho. eapply Forall_forall; [exact Hall|]. by apply list_elem_of_In.
Qed.

(** Every type is written out, as the decoder leaves it.

    [option/rule_set.go:157-162] (HeadlessRule).UnmarshalJSON (types) *)
Fixpoint tree_typed {D A} (o : OptionTree D A) : bool :=
  let '(mkOptionTree type d l) := o in
  negb (String.eqb type "") && forallb tree_typed (lo_Rules l).

(** A rule option that is valid; an unknown type makes [IsValid] panic.  [empty] tells whether the
    empty type counts as "default": it does for headless rules only.

    [option/rule_set.go:173-182] (HeadlessRule).IsValid *)
Fixpoint tree_IsValid {D A} (empty : bool) (Default_IsValid : D → bool) (o : OptionTree D A)
    : res bool :=
  let '(mkOptionTree type d l) := o in
  if empty && String.eqb type "" || String.eqb type "default" then Ok (Default_IsValid d) else
  if String.eqb type "logical" then
    if negb (nonempty (lo_Rules l)) then Ok false
    else all_res (tree_IsValid empty Default_IsValid) (lo_Rules l)
  else Panic [AStr "unknown rule type: "; AStr type].

(** [option/rule_set.go:231-233] (LogicalHeadlessRule).IsValid *)
Definition Logical_IsValid {D A} (empty : bool) (Default_IsValid : D → bool)
    (l : LogicalOptions (OptionTree D A) A) : res bool :=
  if negb (nonempty (lo_Rules l)) then Ok false
  else all_res (tree_IsValid empty Default_IsValid) (lo_Rules l).

(** Is there a default rule that satisfies [cond]?  Only the type "default" counts, which is what
    the decoder leaves in place of an empty type.

    [route/rule/rule_set.go:45-59] HasHeadlessRule *)
Fixpoint tree_has_rule {D A} (cond : D → bool) (o : OptionTree D A) : bool :=
  let '(mkOptionTree type d l) := o in
  if String.eqb type "default" then cond d else
  if String.eqb type "logical" then existsb (tree_has_rule cond) (lo_Rules l) else false.

Section Options.
Context `{ExtLib} `{ActionLib}.

(** ** The records *)

(** [option/rule_set.go:184-217] DefaultHeadlessRule *)
Record DefaultHeadlessOptions : Type := mkDefaultHeadlessOptions {
  ho_QueryType : list Z;
  ho_Network : list string;
  ho_Domain : list string;
  ho_DomainSuffix : list string;
  ho_DomainKeyword : list string;
  ho_DomainRegex : list string;
  ho_SourceIPCIDR : list string;
  ho_IPCIDR : list string;
  ho_SourcePort : list Z;
  ho_SourcePortRange : list string;
  ho_Port : list Z;
  ho_PortRange : list string;
  ho_ProcessName : list string;
  ho_ProcessPath : list string;
  ho_ProcessPathRegex : list string;
  ho_PackageName : list string;
  ho_NetworkType : list InterfaceType;
  ho_NetworkIsExpensive : bool;
  ho_NetworkIsConstrained : bool;
  ho_WIFISSID : list string;
  ho_WIFIBSSID : list string;
  ho_NetworkInterfaceAddress : option (list (InterfaceType * list (option Prefixable)));
  ho_DefaultInterfaceAddress : list (option Prefixable);
  ho_Invert : bool;
  ho_DomainMatcher : option Matcher;
  ho_SourceIPSet : option IPSet;
  ho_IPSet : option IPSet;
  ho_AdGuardDomain : list string;
  ho_AdGuardDomainMatcher : option AdGuardMatcher
}.
#[global] Instance DefaultHeadlessOptions_settable : Settable DefaultHeadlessOptions :=
  {| mkT r := mkDefaultHeadlessOptions (ho_QueryType r) (ho_Network r) (ho_Domain r)
       (ho_DomainSuffix r) (ho_DomainKeyword r) (ho_DomainRegex r) (ho_SourceIPCIDR r)
       (ho_IPCIDR r) (ho_SourcePort r) (ho_SourcePortRange r) (ho_Port r) (ho_PortRange r)
       (ho_ProcessName r) (ho_ProcessPath r) (ho_ProcessPathRegex r) (ho_PackageName r)
       (ho_NetworkType r) (ho_NetworkIsExpensive r) (ho_NetworkIsConstrained r) (ho_WIFISSID r)
       (ho_WIFIBSSID r) (ho_NetworkInterfaceAddress r) (ho_DefaultInterfaceAddress r)
       (ho_Invert r) (ho_DomainMatcher r) (ho_SourceIPSet r) (ho_IPSet r) (ho_AdGuardDomain r)
       (ho_AdGuardDomainMatcher r) |}.

Definition DefaultHeadlessOptions_zero : DefaultHeadlessOptions :=
  mkDefaultHeadlessOptions [] [] [] [] [] [] [] [] [] [] [] [] [] [] [] [] [] false false [] []
    None [] false None None None [] None.

(** Every field but [Invert] has its zero value. *)
Definition DefaultHeadlessOptions_is_zero (r : DefaultHeadlessOptions) : bool :=
  negb (nonempty (ho_QueryType r)) && negb (nonempty (ho_Network r)) &&
  negb (nonempty (ho_Domain r)) && negb (nonempty (ho_DomainSuffix r)) &&
  negb (nonempty (ho_DomainKeyword r)) && negb (nonempty (ho_DomainRegex r)) &&
  negb (nonempty (ho_SourceIPCIDR r)) && negb (nonempty (ho_IPCIDR r)) &&
  negb (nonempty (ho_SourcePort r)) && negb (nonempty (ho_SourcePortRange r)) &&
  negb (nonempty (ho_Port r)) && negb (nonempty (ho_PortRange r)) &&
  negb (nonempty (ho_ProcessName r)) && negb (nonempty (ho_ProcessPath r)) &&
  negb (nonempty (ho_ProcessPathRegex r)) && negb (nonempty (ho_PackageName r)) &&
  negb (nonempty (ho_NetworkType r)) && negb (ho_NetworkIsExpensive r) &&
  negb (ho_NetworkIsConstrained r) && negb (nonempty (ho_WIFISSID r)) &&
  negb (nonempty (ho_WIFIBSSID r)) && is_nil (ho_NetworkInterfaceAddress r) &&
  negb (nonempty (ho_DefaultInterfaceAddress r)) && is_nil (ho_DomainMatcher r) &&
  is_nil (ho_SourceIPSet r) && is_nil (ho_IPSet r) && negb (nonempty (ho_AdGuardDomain r)) &&
  is_nil (ho_AdGuardDomainMatcher r).

(** [option/rule.go:69-113] RawDefaultRule *)
Record RawDefaultRule : Type := mkRawDefaultRule {
  ru_Inbound : list string;
  ru_IPVersion : Z;
  ru_Network : list string;
  ru_AuthUser : list string;
  ru_Protocol : list string;
  ru_Client : list string;
  ru_Domain : list string;
  ru_DomainSuffix : list string;
  ru_DomainKeyword : list string;
  ru_DomainRegex : list string;
  ru_Geosite : list string;
  ru_SourceGeoIP : list string;
  ru_GeoIP : list string;
  ru_SourceIPCIDR : list string;
  ru_SourceIPIsPrivate : bool;
  ru_IPCIDR : list string;
  ru_IPIsPrivate : bool;
  ru_SourcePort : list Z;
  ru_SourcePortRange : list string;
  ru_Port : list Z;
  ru_PortRange : list string;
  ru_ProcessName : list string;
  ru_ProcessPath : list string;
  ru_ProcessPathRegex : list string;
  ru_PackageName : list string;
  ru_User : list string;
  ru_UserID : list Z;
  ru_ClashMode : string;
  ru_NetworkType : list InterfaceType;
  ru_NetworkIsExpensive : bool;
  ru_NetworkIsConstrained : bool;
  ru_WIFISSID : list string;
  ru_WIFIBSSID : list string;
  ru_InterfaceAddress : option (list (string * list (option Prefixable)));
  ru_NetworkInterfaceAddress : option (list (InterfaceType * list (option Prefixable)));
  ru_DefaultInterfaceAddress : list (option Prefixable);
  ru_PreferredBy : list string;
  ru_RuleSet : list string;
  ru_RuleSetIPCIDRMatchSource : bool;
  ru_Invert : bool;
  ru_Deprecated_RulesetIPCIDRMatchSource : bool
}.
#[global] Instance RawDefaultRule_settable : Settable RawDefaultRule :=
  {| mkT r := mkRawDefaultRule (ru_Inbound r) (ru_IPVersion r) (ru_Network r) (ru_AuthUser r)
       (ru_Protocol r) (ru_Client r) (ru_Domain r) (ru_DomainSuffix r) (ru_DomainKeyword r)
       (ru_DomainRegex r) (ru_Geosite r) (ru_SourceGeoIP r) (ru_GeoIP r) (ru_SourceIPCIDR r)
       (ru_SourceIPIsPrivate r) (ru_IPCIDR r) (ru_IPIsPrivate r) (ru_SourcePort r)
       (ru_SourcePortRange r) (ru_Port r) (ru_PortRange r) (ru_ProcessName r) (ru_ProcessPath r)
       (ru_ProcessPathRegex r) (ru_PackageName r) (ru_User r) (ru_UserID r) (ru_ClashMode r)
       (ru_NetworkType r) (ru_NetworkIsExpensive r) (ru_NetworkIsConstrained r) (ru_WIFISSID r)
       (ru_WIFIBSSID r) (ru_InterfaceAddress r) (ru_NetworkInterfaceAddress r)
       (ru_DefaultInterfaceAddress r) (ru_PreferredBy r) (ru_RuleSet r)
       (ru_RuleSetIPCIDRMatchSource r) (ru_Invert r) (ru_Deprecated_RulesetIPCIDRMatchSource r) |}.

Definition RawDefaultRule_zero : RawDefaultRule :=
  mkRawDefaultRule [] 0 [] [] [] [] [] [] [] [] [] [] [] [] false [] false [] [] [] [] [] [] []
    [] [] [] "" [] false false [] [] None None [] [] [] false false false.

(** Every field but [Invert] has its zero value. *)
Definition RawDefaultRule_is_zero (r : RawDefaultRule) : bool :=
  negb (nonempty (ru_Inbound r)) && Z.eqb (ru_IPVersion r) 0 &&
  negb (nonempty (ru_Network r)) && negb (nonempty (ru_AuthUser r)) &&
  negb (nonempty (ru_Protocol r)) && negb (nonempty (ru_Client r)) &&
  negb (nonempty (ru_Domain r)) && negb (nonempty (ru_DomainSuffix r)) &&
  negb (nonempty (ru_DomainKeyword r)) && negb (nonempty (ru_DomainRegex r)) &&
  negb (nonempty (ru_Geosite r)) && negb (nonempty (ru_SourceGeoIP r)) &&
  negb (nonempty (ru_GeoIP r)) && negb (nonempty (ru_SourceIPCIDR r)) &&
  negb (ru_SourceIPIsPrivate r) && negb (nonempty (ru_IPCIDR r)) && negb (ru_IPIsPrivate r) &&
  negb (nonempty (ru_SourcePort r)) && negb (nonempty (ru_SourcePortRange r)) &&
  negb (nonempty (ru_Port r)) && negb (nonempty (ru_PortRange r)) &&
  negb (nonempty (ru_ProcessName r)) && negb (nonempty (ru_ProcessPath r)) &&
  negb (nonempty (ru_ProcessPathRegex r)) && negb (nonempty (ru_PackageName r)) &&
  negb (nonempty (ru_User r)) && negb (nonempty (ru_UserID r)) &&
  String.eqb (ru_ClashMode r) "" && negb (nonempty (ru_NetworkType r)) &&
  negb (ru_NetworkIsExpensive r) && negb (ru_NetworkIsConstrained r) &&
  negb (nonempty (ru_WIFISSID r)) && negb (nonempty (ru_WIFIBSSID r)) &&
  is_nil (ru_InterfaceAddress r) && is_nil (ru_NetworkInterfaceAddress r) &&
  negb (nonempty (ru_DefaultInterfaceAddress r)) && negb (nonempty (ru_PreferredBy r)) &&
  negb (nonempty (ru_RuleSet r)) && negb (ru_RuleSetIPCIDRMatchSource r) &&
  negb (ru_Deprecated_RulesetIPCIDRMatchSource r).

(** [option/rule_dns.go:70-116] RawDefaultDNSRule *)
Record RawDefaultDNSRule : Type := mkRawDefaultDNSRule {
  dn_Inbound : list string;
  dn_IPVersion : Z;
  dn_QueryType : list Z;
  dn_Network : list string;
  dn_AuthUser : list string;
  dn_Protocol : list string;
  dn_Domain : list string;
  dn_DomainSuffix : list string;
  dn_DomainKeyword : list string;
  dn_DomainRegex : list string;
  dn_Geosite : list string;
  dn_SourceGeoIP : list string;
  dn_GeoIP : list string;
  dn_IPCIDR : list string;
  dn_IPIsPrivate : bool;
  dn_IPAcceptAny : bool;
  dn_SourceIPCIDR : list string;
  dn_SourceIPIsPrivate : bool;
  dn_SourcePort : list Z;
  dn_SourcePortRange : list string;
  dn_Port : list Z;
  dn_PortRange : list string;
  dn_ProcessName : list string;
  dn_ProcessPath : list string;
  dn_ProcessPathRegex : list string;
  dn_PackageName : list string;
  dn_User : list string;
  dn_UserID : list Z;
  dn_Outbound : list string;
  dn_ClashMode : string;
  dn_NetworkType : list InterfaceType;
  dn_NetworkIsExpensive : bool;
  dn_NetworkIsConstrained : bool;
  dn_WIFISSID : list string;
  dn_WIFIBSSID : list string;
  dn_InterfaceAddress : option (list (string * list (option Prefixable)));
  dn_NetworkInterfaceAddress : option (list (InterfaceType * list (option Prefixable)));
  dn_DefaultInterfaceAddress : list (option Prefixable);
  dn_RuleSet : list string;
  dn_RuleSetIPCIDRMatchSource : bool;
  dn_RuleSetIPCIDRAcceptEmpty : bool;
  dn_Invert : bool;
  dn_Deprecated_RulesetIPCIDRMatchSource : bool
}.
#[global] Instance RawDefaultDNSRule_settable : Settable RawDefaultDNSRule :=
  {| mkT r := mkRawDefaultDNSRule (dn_Inbound r) (dn_IPVersion r) (dn_QueryType r)
       (dn_Network r) (dn_AuthUser r) (dn_Protocol r) (dn_Domain r) (dn_DomainSuffix r)
       (dn_DomainKeyword r) (dn_DomainRegex r) (dn_Geosite r) (dn_SourceGeoIP r) (dn_GeoIP r)
       (dn_IPCIDR r) (dn_IPIsPrivate r) (dn_IPAcceptAny r) (dn_SourceIPCIDR r)
       (dn_SourceIPIsPrivate r) (dn_SourcePort r) (dn_SourcePortRange r) (dn_Port r)
       (dn_PortRange r) (dn_ProcessName r) (dn_ProcessPath r) (dn_ProcessPathRegex r)
       (dn_PackageName r) (dn_User r) (dn_UserID r) (dn_Outbound r) (dn_ClashMode r)
       (dn_NetworkType r) (dn_NetworkIsExpensive r) (dn_NetworkIsConstrained r) (dn_WIFISSID r)
       (dn_WIFIBSSID r) (dn_InterfaceAddress r) (dn_NetworkInterfaceAddress r)
       (dn_DefaultInterfaceAddress r) (dn_RuleSet r) (dn_RuleSetIPCIDRMatchSource r)
       (dn_RuleSetIPCIDRAcceptEmpty r) (dn_Invert r) (dn_Deprecated_RulesetIPCIDRMatchSource r) |}.

Definition RawDefaultDNSRule_zero : RawDefaultDNSRule :=
  mkRawDefaultDNSRule [] 0 [] [] [] [] [] [] [] [] [] [] [] [] false false [] false [] [] [] []
    [] [] [] [] [] [] [] "" [] false false [] [] None None [] [] false false false false.

(** Every field but [Invert] has its zero value. *)
Definition RawDefaultDNSRule_is_zero (r : RawDefaultDNSRule) : bool :=
  negb (nonempty (dn_Inbound r)) && Z.eqb (dn_IPVersion r) 0 &&
  negb (nonempty (dn_QueryType r)) && negb (nonempty (dn_Network r)) &&
  negb (nonempty (dn_AuthUser r)) && negb (nonempty (dn_Protocol r)) &&
  negb (nonempty (dn_Domain r)) && negb (nonempty (dn_DomainSuffix r)) &&
  negb (nonempty (dn_DomainKeyword r)) && negb (nonempty (dn_DomainRegex r)) &&
  negb (nonempty (dn_Geosite r)) && negb (nonempty (dn_SourceGeoIP r)) &&
  negb (nonempty (dn_GeoIP r)) && negb (nonempty (dn_IPCIDR r)) && negb (dn_IPIsPrivate r) &&
  negb (dn_IPAcceptAny r) && negb (nonempty (dn_SourceIPCIDR r)) &&
  negb (dn_SourceIPIsPrivate r) && negb (nonempty (dn_SourcePort r)) &&
  negb (nonempty (dn_SourcePortRange r)) && negb (nonempty (dn_Port r)) &&
  negb (nonempty (dn_PortRange r)) && negb (nonempty (dn_ProcessName r)) &&
  negb (nonempty (dn_ProcessPath r)) && negb (nonempty (dn_ProcessPathRegex r)) &&
  negb (nonempty (dn_PackageName r)) && negb (nonempty (dn_User r)) &&
  negb (nonempty (dn_UserID r)) && negb (nonempty (dn_Outbound r)) &&
  String.eqb (dn_ClashMode r) "" && negb (nonempty (dn_NetworkType r)) &&
  negb (dn_NetworkIsExpensive r) && negb (dn_NetworkIsConstrained r) &&
  negb (nonempty (dn_WIFISSID r)) && negb (nonempty (dn_WIFIBSSID r)) &&
  is_nil (dn_InterfaceAddress r) && is_nil (dn_NetworkInterfaceAddress r) &&
  negb (nonempty (dn_DefaultInterfaceAddress r)) && negb (nonempty (dn_RuleSet r)) &&
  negb (dn_RuleSetIPCIDRMatchSource r) && negb (dn_RuleSetIPCIDRAcceptEmpty r) &&
  negb (dn_Deprecated_RulesetIPCIDRMatchSource r).

(** [option/rule.go:115-118] DefaultRule *)
Record DefaultRuleOptions : Type := mkDefaultRuleOptions {
  dro_Raw : RawDefaultRule;
  dro_Action : RuleActionOptions
}.

(** [option/rule_dns.go:118-121] DefaultDNSRule *)
Record DefaultDNSRuleOptions : Type := mkDefaultDNSRuleOptions {
  ddo_Raw : RawDefaultDNSRule;
  ddo_Action : DNSRuleActionOptions
}.

(** ** Validity: some field apart from [Invert] is set *)

(** [option/rule_set.go:219-223] (DefaultHeadlessRule).IsValid *)
Definition DefaultHeadlessRule_IsValid (r : DefaultHeadlessOptions) : bool :=
  negb (DefaultHeadlessOptions_is_zero r).

(** The action is one of the fields.

    [option/rule.go:132-136] (DefaultRule).IsValid *)
Definition DefaultRule_IsValid (r : DefaultRuleOptions) : bool :=
  negb (RawDefaultRule_is_zero (dro_Raw r) &&
        match dro_Action r with OA_Empty => true | _ => false end).

(** [option/rule_dns.go:135-139] (DefaultDNSRule).IsValid *)
Definition DefaultDNSRule_IsValid (r : DefaultDNSRuleOptions) : bool :=
  negb (RawDefaultDNSRule_is_zero (ddo_Raw r) &&
        match ddo_Action r with ODA_Empty => true | _ => false end).

(** ** What a set of rules contains *)

(** [route/rule/rule_set.go:61-63] isProcessHeadlessRule *)
Definition isProcessHeadlessRule (rule : DefaultHeadlessOptions) : bool :=
  nonempty (ho_ProcessName rule) || nonempty (ho_ProcessPath rule) ||
  nonempty (ho_ProcessPathRegex rule) || nonempty (ho_PackageName rule).

(** [route/rule/rule_set.go:65-67] isWIFIHeadlessRule *)
Definition isWIFIHeadlessRule (rule : DefaultHeadlessOptions) : bool :=
  nonempty (ho_WIFISSID rule) || nonempty (ho_WIFIBSSID rule).

(** [route/rule/rule_set.go:69-71] isIPCIDRHeadlessRule *)
Definition isIPCIDRHeadlessRule (rule : DefaultHeadlessOptions) : bool :=
  nonempty (ho_IPCIDR rule) || negb (is_nil (ho_IPSet rule)).

(** [route/rule_conds.go:8-22] hasRule *)
Definition hasRule (rules : list (OptionTree DefaultRuleOptions RuleActionOptions))
    (cond : DefaultRuleOptions → bool) : bool :=
  existsb (tree_has_rule cond) rules.

(** [route/rule_conds.go:24-38] hasDNSRule *)
Definition hasDNSRule (rules : list (OptionTree DefaultDNSRuleOptions DNSRuleActionOptions))
    (cond : DefaultDNSRuleOptions → bool) : bool :=
  existsb (tree_has_rule cond) rules.

(** [route/rule_conds.go:40-42] isProcessRule *)
Definition isProcessRule (r : DefaultRuleOptions) : bool :=
  let rule := dro_Raw r in
  nonempty (ru_ProcessName rule) || nonempty (ru_ProcessPath rule) ||
  nonempty (ru_ProcessPathRegex rule) || nonempty (ru_PackageName rule) ||
  nonempty (ru_User rule) || nonempty (ru_UserID rule).

(** [route/rule_conds.go:44-46] isProcessDNSRule *)
Definition isProcessDNSRule (r : DefaultDNSRuleOptions) : bool :=
  let rule := ddo_Raw r in
  nonempty (dn_ProcessName rule) || nonempty (dn_ProcessPath rule) ||
  nonempty (dn_ProcessPathRegex rule) || nonempty (dn_PackageName rule) ||
  nonempty (dn_User rule) || nonempty (dn_UserID rule).

(** [route/rule_conds.go:48-50] isWIFIRule *)
Definition isWIFIRule (r : DefaultRuleOptions) : bool :=
  nonempty (ru_WIFISSID (dro_Raw r)) || nonempty (ru_WIFIBSSID (dro_Raw r)).

(** [route/rule_conds.go:52-54] isWIFIDNSRule *)
Definition isWIFIDNSRule (r : DefaultDNSRuleOptions) : bool :=
  nonempty (dn_WIFISSID (ddo_Raw r)) || nonempty (dn_WIFIBSSID (ddo_Raw r)).

End Options.

Abbreviation HeadlessRuleOptions := (OptionTree DefaultHeadlessOptions unit).
Abbreviation RuleOptions := (OptionTree DefaultRuleOptions RuleActionOptions).
Abbreviation DNSRuleOptions := (OptionTree DefaultDNSRuleOptions DNSRuleActionOptions).

