(* ===== verification/RuleItem.v ===== *)
(** * The rule items as one type (route/rule/rule_default.go: RuleItem)

    [BasicItem] is every item but [RuleSetItem]: the Go interface [RuleItem], whose dynamic type is
    the constructor.  The items of this file only read the metadata; [RuleSet.v] adds the item that
    also writes to it. *)

From stdpp Require Import base gmap strings list numbers.
From S2P Require Import Prelude GoStd Netip Adapter SetItems AddrItems.

Section BasicItems.
Context `{ExtLib}.

(** [route/rule/rule_default.go:51-54] RuleItem *)
Inductive BasicItem : Type :=
| I_Inbound (r : InboundItem)
| I_Network (r : NetworkItem)
| I_AuthUser (r : AuthUserItem)
| I_Protocol (r : ProtocolItem)
| I_Client (r : ClientItem)
| I_Process (r : ProcessItem)
| I_ProcessPath (r : ProcessPathItem)
| I_ProcessPathRegex (r : ProcessPathRegexItem)
| I_PackageName (r : PackageNameItem)
| I_User (r : UserItem)
| I_UserId (r : UserIdItem)
| I_Outbound (r : OutboundItem)
| I_QueryType (r : QueryTypeItem)
| I_IPVersion (r : IPVersionItem)
| I_Port (r : PortItem)
| I_PortRange (r : PortRangeItem)
| I_Domain (r : DomainItem)
| I_DomainKeyword (r : DomainKeywordItem)
| I_DomainRegex (r : DomainRegexItem)
| I_AdGuardDomain (r : AdGuardDomainItem)
| I_IPCIDR (r : IPCIDRItem)
| I_IPIsPrivate (r : IPIsPrivateItem)
| I_PreferredBy (r : PreferredByItem)
| I_ClashMode (r : ClashModeItem)
| I_NetworkType (r : NetworkTypeItem)
| I_WIFISSID (r : WIFISSIDItem)
| I_WIFIBSSID (r : WIFIBSSIDItem)
| I_DefaultInterfaceAddress (r : DefaultInterfaceAddressItem)
| I_InterfaceAddress (r : InterfaceAddressItem)
| I_NetworkInterfaceAddress (r : NetworkInterfaceAddressItem)
| I_IPAcceptAny
| I_NetworkIsExpensive
| I_NetworkIsConstrained.

(** [Match] of the dynamic type.

    [route/rule/rule_default.go:52-52] (RuleItem).Match *)
Definition BasicItem_Match (env : Env) (it : BasicItem) (metadata : InboundContext) : bool :=
  match it with
  | I_Inbound r => InboundItem_Match r metadata
  | I_Network r => NetworkItem_Match r metadata
  | I_AuthUser r => AuthUserItem_Match r metadata
  | I_Protocol r => ProtocolItem_Match r metadata
  | I_Client r => ClientItem_Match r metadata
  | I_Process r => ProcessItem_Match r metadata
  | I_ProcessPath r => ProcessPathItem_Match r metadata
  | I_ProcessPathRegex r => ProcessPathRegexItem_Match r metadata
  | I_PackageName r => PackageNameItem_Match r metadata
  | I_User r => UserItem_Match r metadata
  | I_UserId r => UserIdItem_Match r metadata
  | I_Outbound r => OutboundItem_Match r metadata
  | I_QueryType r => QueryTypeItem_Match r metadata
  | I_IPVersion r => IPVersionItem_Match r metadata
  | I_Port r => PortItem_Match r metadata
  | I_PortRange r => PortRangeItem_Match r metadata
  | I_Domain r => DomainItem_Match r metadata
  | I_DomainKeyword r => DomainKeywordItem_Match r metadata
  | I_DomainRegex r => DomainRegexItem_Match r metadata
  | I_AdGuardDomain r => AdGuardDomainItem_Match r metadata
  | I_IPCIDR r => IPCIDRItem_Match r metadata
  | I_IPIsPrivate r => IPIsPrivateItem_Match r metadata
  | I_PreferredBy r => PreferredByItem_Match r metadata
  | I_ClashMode r => ClashModeItem_Match env r
  | I_NetworkType r => NetworkTypeItem_Match env r
  | I_WIFISSID r => WIFISSIDItem_Match env r
  | I_WIFIBSSID r => WIFIBSSIDItem_Match env r
  | I_DefaultInterfaceAddress r => DefaultInterfaceAddressItem_Match env r
  | I_InterfaceAddress r => InterfaceAddressItem_Match env r
  | I_NetworkInterfaceAddress r => NetworkInterfaceAddressItem_Match env r
  | I_IPAcceptAny => IPAcceptAnyItem_Match metadata
  | I_NetworkIsExpensive => NetworkIsExpensiveItem_Match env
  | I_NetworkIsConstrained => NetworkIsConstrainedItem_Match env
  end.

(** [String] of the dynamic type.

    [route/rule/rule_default.go:53-53] (RuleItem).String *)
Definition BasicItem_String (it : BasicItem) : string :=
  match it with
  | I_Inbound r => InboundItem_String r
  | I_Network r => NetworkItem_String r
  | I_AuthUser r => AuthUserItem_String r
  | I_Protocol r => ProtocolItem_String r
  | I_Client r => ClientItem_String r
  | I_Process r => ProcessItem_String r
  | I_ProcessPath r => ProcessPathItem_String r
  | I_ProcessPathRegex r => ProcessPathRegexItem_String r
  | I_PackageName r => PackageNameItem_String r
  | I_User r => UserItem_String r
  | I_UserId r => UserIdItem_String r
  | I_Outbound r => OutboundItem_String r
  | I_QueryType r => QueryTypeItem_String r
  | I_IPVersion r => IPVersionItem_String r
  | I_Port r => PortItem_String r
  | I_PortRange r => PortRangeItem_String r
  | I_Domain r => DomainItem_String r
  | I_DomainKeyword r => DomainKeywordItem_String r
  | I_DomainRegex r => DomainRegexItem_String r
  | I_AdGuardDomain _ => AdGuardDomainItem_String
  | I_IPCIDR r => IPCIDRItem_String r
  | I_IPIsPrivate r => IPIsPrivateItem_String r
  | I_PreferredBy r => PreferredByItem_String r
  | I_ClashMode r => ClashModeItem_String r
  | I_NetworkType r => NetworkTypeItem_String r
  | I_WIFISSID r => WIFISSIDItem_String r
  | I_WIFIBSSID r => WIFIBSSIDItem_String r
  | I_DefaultInterfaceAddress r => DefaultInterfaceAddressItem_String r
  | I_InterfaceAddress r => InterfaceAddressItem_String r
  | I_NetworkInterfaceAddress r => NetworkInterfaceAddressItem_String r
  | I_IPAcceptAny => IPAcceptAnyItem_String
  | I_NetworkIsExpensive => NetworkIsExpensiveItem_String
  | I_NetworkIsConstrained => NetworkIsConstrainedItem_String
  end.

(** [Start] of the items that are starters; the others have none. *)
Definition BasicItem_Start (env : Env) (it : BasicItem) : res BasicItem :=
  match it with
  | I_ClashMode r => Ok (I_ClashMode (ClashModeItem_Start env r))
  | I_PreferredBy r => I_PreferredBy <$> PreferredByItem_Start env r
  | _ => Ok it
  end.

(** ** What the items read *)

(** The fields of the rule cache an item may read. *)
Definition same_match_source (c c' : InboundContext) : Prop :=
  same_request c c' ∧
  IPCIDRMatchSource (ic_cache c) = IPCIDRMatchSource (ic_cache c') ∧
  IPCIDRAcceptEmpty (ic_cache c) = IPCIDRAcceptEmpty (ic_cache c').

(** No item depends on the match flags of the rule cache. *)
Lemma BasicItem_Match_ext env it c c' :
  same_match_source c c' → BasicItem_Match env it c = BasicItem_Match env it c'.
Proof.
  intros (Hr & Hs & He). unfold same_request in Hr.
  assert (IPCIDRMatchSource (ic_cache c') = IPCIDRMatchSource (ic_cache c)) as Hs' by done.
  assert (IPCIDRAcceptEmpty (ic_cache c') = IPCIDRAcceptEmpty (ic_cache c)) as He' by done.
  clear Hs He. revert Hs' He'. rewrite Hr. generalize (ic_cache c'). intros rc. cbn.
  intros Hs He. destruct it; try reflexivity.
  cbn. unfold IPCIDRItem_Match. cbn. by rewrite Hs, He.
Qed.

End BasicItems.
