(* ===== verification/RuleMatch.v ===== *)
(** * Matching a rule (route/rule/rule_abstract.go)

    Default rules, logical rules and the trees they form.  The metadata is passed as a state: the
    matcher records what it found in the rule cache. *)

From stdpp Require Import base gmap strings list numbers.
From S2P Require Import Prelude GoStd Netip Adapter SetItems AddrItems RuleAction RuleItem.

Section AbstractRules.
Context `{ExtLib} `{ActionLib}.

(** The field [ruleSetItem] of the struct is never used.

    [route/rule/rule_abstract.go:13-24] abstractDefaultRule *)
Record abstractDefaultRule (I : Type) : Type := mkDefaultRule {
  items : list I;
  sourceAddressItems : list I;
  sourcePortItems : list I;
  destinationAddressItems : list I;
  destinationIPCIDRItems : list I;
  destinationPortItems : list I;
  allItems : list I;
  invert : bool;
  action : option RuleAction
}.

(** [route/rule/rule_abstract.go:151-156] abstractLogicalRule *)
Record abstractLogicalRule (R : Type) : Type := mkLogicalRule {
  lr_rules : list R;
  lr_mode : string;
  lr_invert : bool;
  lr_action : option RuleAction
}.

(** A rule is a default rule or a logical rule over rules of the same kind. *)
Inductive RuleTree (I : Type) : Type :=
| TDefault (r : abstractDefaultRule I)
| TLogical (r : abstractLogicalRule (RuleTree I)).

End AbstractRules.

Arguments mkDefaultRule {_ I}.
Arguments items {_ I}.
Arguments sourceAddressItems {_ I}.
Arguments sourcePortItems {_ I}.
Arguments destinationAddressItems {_ I}.
Arguments destinationIPCIDRItems {_ I}.
Arguments destinationPortItems {_ I}.
Arguments allItems {_ I}.
Arguments invert {_ I}.
Arguments action {_ I}.
Arguments mkLogicalRule {_ R}.
Arguments lr_rules {_ R}.
Arguments lr_mode {_ R}.
Arguments lr_invert {_ R}.
Arguments lr_action {_ R}.
Arguments TDefault {_ I}.
Arguments TLogical {_ I}.

(** ** The default rule *)

(** The four flags of the rule cache that a group of items sets. *)
Inductive Flag : Type := FSourceAddress | FSourcePort | FDestinationAddress | FDestinationPort.

Definition flag_get (f : Flag) (r : RuleCache) : bool :=
  match f with
  | FSourceAddress => SourceAddressMatch r
  | FSourcePort => SourcePortMatch r
  | FDestinationAddress => DestinationAddressMatch r
  | FDestinationPort => DestinationPortMatch r
  end.

Definition flag_set (f : Flag) (r : RuleCache) : RuleCache :=
  match f with
  | FSourceAddress => r <| SourceAddressMatch := true |>
  | FSourcePort => r <| SourcePortMatch := true |>
  | FDestinationAddress => r <| DestinationAddressMatch := true |>
  | FDestinationPort => r <| DestinationPortMatch := true |>
  end.

Definition did_match (c : InboundContext) : InboundContext :=
  upd_cache (λ r, r <| DidMatch := true |>) c.

Section DefaultRule.
Context `{ActionLib} {I : Type} (Item_Match : I → InboundContext → bool * InboundContext).

(** One group of alternatives: skipped when it is empty or its flag is already set.

    [route/rule/rule_abstract.go:59-67] (abstractDefaultRule).Match (one group) *)
Definition match_group (f : Flag) (group : list I) (metadata : InboundContext)
    : InboundContext :=
  if nonempty group && negb (flag_get f (ic_cache metadata)) then
    let '(b, metadata) := any_st Item_Match group (did_match metadata) in
    if b then upd_cache (flag_set f) metadata else metadata
  else metadata.

(** [route/rule/rule_abstract.go:54-137] (abstractDefaultRule).Match *)
Definition abstractDefaultRule_Match (r : abstractDefaultRule I) (metadata : InboundContext)
    : bool * InboundContext :=
  if negb (nonempty (allItems r)) then (true, metadata) else
  let metadata := match_group FSourceAddress (sourceAddressItems r) metadata in
  let metadata := match_group FSourcePort (sourcePortItems r) metadata in
  let metadata := match_group FDestinationAddress (destinationAddressItems r) metadata in
  let metadata :=
    if IgnoreDestinationIPCIDRMatch (ic_cache metadata) then metadata
    else match_group FDestinationAddress (destinationIPCIDRItems r) metadata in
  let metadata := match_group FDestinationPort (destinationPortItems r) metadata in
  let '(b, metadata) :=
    all_st (λ item metadata, Item_Match item (did_match metadata)) (items r) metadata in
  if negb b then (invert r, metadata) else
  let cache := ic_cache metadata in
  if nonempty (sourceAddressItems r) && negb (SourceAddressMatch cache)
  then (invert r, metadata) else
  if nonempty (sourcePortItems r) && negb (SourcePortMatch cache)
  then (invert r, metadata) else
  if (negb (IgnoreDestinationIPCIDRMatch cache) && nonempty (destinationIPCIDRItems r)
      || nonempty (destinationAddressItems r)) && negb (DestinationAddressMatch cache)
  then (invert r, metadata) else
  if nonempty (destinationPortItems r) && negb (DestinationPortMatch cache)
  then (invert r, metadata) else
  if negb (DidMatch cache) then (true, metadata) else
  (negb (invert r), metadata).

End DefaultRule.

(** [route/rule/rule_abstract.go:143-149] (abstractDefaultRule).String *)
Definition abstractDefaultRule_String `{ActionLib} {I} (Item_String : I → string)
    (r : abstractDefaultRule I) : string :=
  if negb (invert r) then strings_Join (Item_String <$> allItems r) " "
  else "!(" +:+ strings_Join (Item_String <$> allItems r) " " +:+ ")".

(** ** The logical rule and the tree *)

Section LogicalRule.
Context `{ActionLib} {R : Type} (Rule_Match : R → InboundContext → bool * InboundContext).

(** Every member is matched on a cache that was reset just before.

    [route/rule/rule_abstract.go:193-205] (abstractLogicalRule).Match *)
Definition abstractLogicalRule_Match (r : abstractLogicalRule R) (metadata : InboundContext)
    : bool * InboundContext :=
  let member it metadata := Rule_Match it (ResetRuleCache metadata) in
  let '(b, metadata) :=
    if String.eqb (lr_mode r) "and" then all_st member (lr_rules r) metadata
    else any_st member (lr_rules r) metadata in
  (xorb b (lr_invert r), metadata).

End LogicalRule.

(** [route/rule/rule_abstract.go:211-224] (abstractLogicalRule).String *)
Definition abstractLogicalRule_String `{ActionLib} {R} (Rule_String : R → string)
    (r : abstractLogicalRule R) : string :=
  let op : string :=
    if String.eqb (lr_mode r) "and" then "&&"
    else if String.eqb (lr_mode r) "or" then "||" else "" in
  let s := strings_Join (Rule_String <$> lr_rules r) (" " +:+ op +:+ " ") in
  if negb (lr_invert r) then s else "!(" +:+ s +:+ ")".

Section Trees.
Context `{ActionLib} {I : Type}.

(** [Match] of a rule of either type, over [Match] of the default rules. *)
Fixpoint tree_match (Default_Match : abstractDefaultRule I → InboundContext → bool * InboundContext)
    (t : RuleTree I) : InboundContext → bool * InboundContext :=
  match t with
  | TDefault r => Default_Match r
  | TLogical r => abstractLogicalRule_Match (tree_match Default_Match) r
  end.

Fixpoint tree_string (Item_String : I → string) (t : RuleTree I) : string :=
  match t with
  | TDefault r => abstractDefaultRule_String Item_String r
  | TLogical r => abstractLogicalRule_String (tree_string Item_String) r
  end.

(** [route/rule/rule_abstract.go:139-141] (abstractDefaultRule).Action *)
Definition tree_action (t : RuleTree I) : option RuleAction :=
  match t with
  | TDefault r => action r
  | TLogical r => lr_action r
  end.

(** Put an action back into a rule: the flood counter of [reject]. *)
Definition set_action (a : RuleAction) (rule : RuleTree I) : RuleTree I :=
  match rule with
  | TDefault d =>
      TDefault (mkDefaultRule (items d) (sourceAddressItems d) (sourcePortItems d)
        (destinationAddressItems d) (destinationIPCIDRItems d) (destinationPortItems d)
        (allItems d) (invert d) (Some a))
  | TLogical l => TLogical (mkLogicalRule (lr_rules l) (lr_mode l) (lr_invert l) (Some a))
  end.

(** Induction over rules, with the hypothesis for every member of a logical rule. *)
Lemma RuleTree_ind' (P : RuleTree I → Prop) :
  (∀ r, P (TDefault r)) →
  (∀ r, (∀ t, t ∈ lr_rules r → P t) → P (TLogical r)) →
  ∀ t, P t.
Proof.
  intros HD HL. fix IH 1. intros [r|[rules mode inv act]]; [apply HD|].
  apply HL. cbn. assert (Forall P rules) as Hall.
  { clear HL HD. revert rules. fix IHl 1. intros [|t rules]; constructor; [apply IH|apply IHl]. }
  intros t Ht. eapply Forall_forall; [exact Hall|]. by apply list_elem_of_In.
Qed.

End Trees.

(** ** What a match leaves alone *)

(** A match writes to the rule cache only, and not to its [IgnoreDestinationIPCIDRMatch]. *)
Definition frame (c c' : InboundContext) : Prop :=
  same_request c c' ∧
  IgnoreDestinationIPCIDRMatch (ic_cache c) = IgnoreDestinationIPCIDRMatch (ic_cache c').

#[global] Instance frame_equiv : Equivalence frame.
Proof.
  split.
  - intros c. split; [apply same_request_refl|done].
  - intros c c' [H1 H2]. split; [by apply same_request_sym|done].
  - intros c c' c'' [H1 H2] [H3 H4]. split; [by eapply same_request_trans|congruence].
Qed.

Definition keeps_frame {X} (M : X → InboundContext → bool * InboundContext) (x : X) : Prop :=
  ∀ c, frame c (M x c).2.

Lemma frame_upd f c :
  (∀ r, IgnoreDestinationIPCIDRMatch (f r) = IgnoreDestinationIPCIDRMatch r) →
  frame c (upd_cache f c).
Proof. intros Hf. split; [apply same_request_upd|]. cbn. by rewrite Hf. Qed.

Lemma frame_Reset c : frame c (ResetRuleCache c).
Proof. by apply frame_upd. Qed.

Lemma frame_did_match c : frame c (did_match c).
Proof. by apply frame_upd. Qed.

Lemma frame_flag_set f c : frame c (upd_cache (flag_set f) c).
Proof. apply frame_upd. by intros []; destruct f. Qed.

#[export] Hint Resolve frame_Reset frame_did_match frame_flag_set : dbox.

(** Contexts with the same frame are equal after a reset. *)
Lemma frame_Reset_eq c c' : frame c c' → ResetRuleCache c = ResetRuleCache c'.
Proof. intros [? ?]. by apply ResetRuleCache_eq. Qed.

Lemma any_st_frame {X} (M : X → InboundContext → bool * InboundContext) l c :
  (∀ x, x ∈ l → keeps_frame M x) → frame c (any_st M l c).2.
Proof.
  intros HM. apply (any_st_inv (frame c)); [reflexivity|].
  intros x c' Hx Hc. etrans; [exact Hc|by apply HM].
Qed.

Lemma all_st_frame {X} (M : X → InboundContext → bool * InboundContext) l c :
  (∀ x, x ∈ l → keeps_frame M x) → frame c (all_st M l c).2.
Proof.
  intros HM. apply (all_st_inv (frame c)); [reflexivity|].
  intros x c' Hx Hc. etrans; [exact Hc|by apply HM].
Qed.

Section Frames.
Context `{ActionLib} {I : Type} (M : I → InboundContext → bool * InboundContext).

Lemma match_group_frame f l c :
  (∀ x, x ∈ l → keeps_frame M x) → frame c (match_group M f l c).
Proof.
  intros HM. unfold match_group. destruct (_ && _); [|reflexivity].
  pose proof (any_st_frame M l (did_match c) HM) as Hf.
  destruct (any_st M l (did_match c)) as [b c']; cbn in Hf.
  assert (frame c c') as Hc by (etrans; [apply frame_did_match|exact Hf]).
  destruct b; [|exact Hc]. etrans; [exact Hc|apply frame_flag_set].
Qed.

Lemma abstractDefaultRule_Match_frame :
  (∀ x, keeps_frame M x) → ∀ r, keeps_frame (abstractDefaultRule_Match M) r.
Proof.
  intros HM r c. unfold abstractDefaultRule_Match. destruct (negb (nonempty _)); [reflexivity|].
  set (c1 := match_group M FSourceAddress _ c).
  set (c2 := match_group M FSourcePort _ c1).
  set (c3 := match_group M FDestinationAddress _ c2).
  set (c4 := if IgnoreDestinationIPCIDRMatch (ic_cache c3) then c3 else _).
  set (c5 := match_group M FDestinationPort _ c4).
  assert (frame c c5) as H5.
  { assert (frame c c3) as H3.
    { repeat (etrans; [|apply match_group_frame; eauto]). reflexivity. }
    etrans; [exact H3|]. etrans; [|apply match_group_frame; eauto].
    subst c4. destruct (IgnoreDestinationIPCIDRMatch _); [reflexivity|].
    apply match_group_frame; eauto. }
  assert (frame c5 (all_st (λ item c, M item (did_match c)) (items r) c5).2) as H6.
  { apply all_st_frame. intros x _ c'. etrans; [apply frame_did_match|apply HM]. }
  destruct (all_st _ _ c5) as [b c6]; cbn in H6.
  assert (frame c c6) as Hc by (etrans; eassumption).
  destruct b; cbn; [|exact Hc].
  repeat (case_match; cbn; [exact Hc|]). exact Hc.
Qed.

Lemma tree_match_frame (D : abstractDefaultRule I → InboundContext → bool * InboundContext) :
  (∀ r, keeps_frame D r) → ∀ t, keeps_frame (tree_match D) t.
Proof.
  intros HD t. induction t as [r|r IH] using RuleTree_ind'; [apply HD|].
  intros c. cbn. unfold abstractLogicalRule_Match.
  set (g := λ it c, tree_match D it (ResetRuleCache c)).
  assert (∀ t, t ∈ lr_rules r → keeps_frame g t) as Hg.
  { intros t Ht c'. etrans; [apply frame_Reset|by apply IH]. }
  pose proof (all_st_frame g (lr_rules r) c Hg) as Hall.
  pose proof (any_st_frame g (lr_rules r) c Hg) as Hany.
  destruct (String.eqb _ _).
  - by destruct (all_st g _ c).
  - by destruct (any_st g _ c).
Qed.

End Frames.

(** ** The meaning of a logical rule *)

(** [&&] over the members in mode [and], [||] in any other. *)
Definition combine_with {A} (mode : string) (f : A → bool) (l : list A) : bool :=
  if String.eqb mode "and" then forallb f l else existsb f l.

Lemma combine_with_ext {A} mode (f g : A → bool) l :
  (∀ x, x ∈ l → f x = g x) → combine_with mode f l = combine_with mode g l.
Proof.
  intros Hfg. unfold combine_with. destruct (String.eqb _ _); [by apply forallb_ext|].
  by apply existsb_ext.
Qed.

(** The answer of a logical rule is the conjunction or disjunction of the answers its members give
    on a reset cache, and does not depend on the cache it starts with. *)
Lemma logical_match_spec `{ActionLib} {R} (M : R → InboundContext → bool * InboundContext) r c :
  (∀ x, x ∈ lr_rules r → keeps_frame M x) →
  (abstractLogicalRule_Match M r c).1 =
    xorb (combine_with (lr_mode r) (λ x, (M x (ResetRuleCache c)).1) (lr_rules r)) (lr_invert r).
Proof.
  intros HM. unfold abstractLogicalRule_Match.
  set (g := λ it c, M it (ResetRuleCache c)).
  assert (∀ x c', x ∈ lr_rules r → frame c c' →
            (g x c').1 = (M x (ResetRuleCache c)).1 ∧ frame c (g x c').2) as Hg.
  { intros x c' Hx Hc. unfold g. rewrite <-(frame_Reset_eq c c' Hc). split; [done|].
    etrans; [apply frame_Reset|by apply HM]. }
  unfold combine_with. destruct (String.eqb _ _).
  - pose proof (all_st_fst (frame c) g _ (lr_rules r) c (reflexivity c) Hg) as <-.
    by destruct (all_st g _ c).
  - pose proof (any_st_fst (frame c) g _ (lr_rules r) c (reflexivity c) Hg) as <-.
    by destruct (any_st g _ c).
Qed.

(** ** The meaning of a default rule whose items only read *)

Section PureRules.
Context `{ActionLib} {I : Type} (g : I → InboundContext → bool).
Hypothesis g_ext : ∀ it c c', same_match_source c c' → g it c = g it c'.

Definition pure_match (it : I) (c : InboundContext) : bool * InboundContext := (g it c, c).

(** A group of alternatives is satisfied when it is empty or one of its items matches. *)
Definition group_holds (c : InboundContext) (l : list I) : bool :=
  negb (nonempty l) || existsb (λ it, g it c) l.

(** The destination addresses the rule looks at: the [ip_cidr] group is left out when the metadata
    says so. *)
Definition destination_group (c : InboundContext) (r : abstractDefaultRule I) : list I :=
  destinationAddressItems r ++
  (if IgnoreDestinationIPCIDRMatch (ic_cache c) then [] else destinationIPCIDRItems r).

(** The documented condition of a default rule: a conjunction of groups and of other fields. *)
Definition rule_condition (c : InboundContext) (r : abstractDefaultRule I) : bool :=
  group_holds c (sourceAddressItems r) && group_holds c (sourcePortItems r) &&
  group_holds c (destination_group c r) && group_holds c (destinationPortItems r) &&
  forallb (λ it, g it c) (items r).

(** Does the rule look at anything at all? *)
Definition rule_constrained (c : InboundContext) (r : abstractDefaultRule I) : bool :=
  nonempty (sourceAddressItems r) || nonempty (sourcePortItems r) ||
  nonempty (destination_group c r) || nonempty (destinationPortItems r) || nonempty (items r).

(** The abstract meaning of a default rule. *)
Definition rule_denotes (c : InboundContext) (r : abstractDefaultRule I) : bool :=
  if nonempty (allItems r) && rule_constrained c r
  then xorb (rule_condition c r) (invert r) else true.

Fixpoint tree_denotes (t : RuleTree I) (c : InboundContext) : bool :=
  match t with
  | TDefault r => rule_denotes c r
  | TLogical r =>
      xorb (combine_with (lr_mode r) (λ x, tree_denotes x (ResetRuleCache c)) (lr_rules r))
        (lr_invert r)
  end.

(** The match flags of the cache are clear. *)
Definition fresh (c : InboundContext) : Prop :=
  SourceAddressMatch (ic_cache c) = false ∧ SourcePortMatch (ic_cache c) = false ∧
  DestinationAddressMatch (ic_cache c) = false ∧ DestinationPortMatch (ic_cache c) = false ∧
  DidMatch (ic_cache c) = false.

Lemma fresh_Reset c : fresh (ResetRuleCache c).
Proof. done. Qed.

Lemma pure_keeps_frame it : keeps_frame pure_match it.
Proof. intros c. reflexivity. Qed.

(** What the matcher has recorded so far, relative to the context [c] of the call. *)
Record recorded (c : InboundContext) (sa sp da dp did : bool) (c' : InboundContext) : Prop := {
  rec_src : same_match_source c c';
  rec_ign : IgnoreDestinationIPCIDRMatch (ic_cache c') = IgnoreDestinationIPCIDRMatch (ic_cache c);
  rec_sa : SourceAddressMatch (ic_cache c') = sa;
  rec_sp : SourcePortMatch (ic_cache c') = sp;
  rec_da : DestinationAddressMatch (ic_cache c') = da;
  rec_dp : DestinationPortMatch (ic_cache c') = dp;
  rec_did : DidMatch (ic_cache c') = did
}.

Lemma recorded_did_match c sa sp da dp did c' :
  recorded c sa sp da dp did c' → recorded c sa sp da dp true (did_match c').
Proof.
  intros [(H1 & H2 & H3) ? ? ? ? ? ?]. constructor; try done.
  split_and!; [|done..]. eapply same_request_trans; [exact H1|apply same_request_upd].
Qed.

Lemma any_st_pure_recorded c sa sp da dp did c' l :
  recorded c sa sp da dp did c' →
  any_st pure_match l c' = (existsb (λ it, g it c) l, c').
Proof.
  intros Hr. apply any_st_pure. intros it _. unfold pure_match. f_equal.
  symmetry. apply g_ext. apply Hr.
Qed.

(** One group that was not decided before. *)
Lemma match_group_recorded f l c sa sp da dp did c' :
  recorded c sa sp da dp did c' →
  let b := negb (flag_get f (ic_cache c')) && existsb (λ it, g it c) l in
  recorded c
    (if f is FSourceAddress then sa || b else sa) (if f is FSourcePort then sp || b else sp)
    (if f is FDestinationAddress then da || b else da)
    (if f is FDestinationPort then dp || b else dp)
    (did || nonempty l && negb (flag_get f (ic_cache c'))) (match_group pure_match f l c').
Proof.
  intros Hr b. subst b. unfold match_group. destruct (nonempty l) eqn:Hl; cbn [andb].
  2:{ destruct l; [|done]. cbn. rewrite andb_false_r, !orb_false_r.
      destruct f; by rewrite ?orb_false_r. }
  destruct (flag_get f (ic_cache c')) eqn:Hf; cbn [negb andb].
  { rewrite !orb_false_r. destruct f; by rewrite ?orb_false_r. }
  rewrite orb_true_r.
  pose proof (recorded_did_match _ _ _ _ _ _ _ Hr) as Hd.
  rewrite (any_st_pure_recorded _ _ _ _ _ _ _ l Hd).
  destruct (existsb _ l).
  - destruct Hd as [(H1 & H2 & H3) H4 H5 H6 H7 H8 H9]. destruct f; rewrite orb_true_r;
      (constructor; try done; split_and!; try done;
       eapply same_request_trans; [exact H1|apply same_request_upd]).
  - rewrite !orb_false_r. by destruct f; rewrite ?orb_false_r.
Qed.

(** The loop over the other items. *)
Lemma items_recorded c sa sp da dp did c' l :
  recorded c sa sp da dp did c' →
  let '(b, c'') := all_st (λ it c, pure_match it (did_match c)) l c' in
  b = forallb (λ it, g it c) l ∧
  (b = true → recorded c sa sp da dp (did || nonempty l) c'').
Proof.
  revert did c'. induction l as [|it l IH]; intros did c' Hr; cbn [all_st forallb nonempty].
  { by rewrite orb_false_r. }
  pose proof (recorded_did_match _ _ _ _ _ _ _ Hr) as Hd.
  replace (pure_match it (did_match c')) with (g it c, did_match c').
  2:{ unfold pure_match. f_equal. apply g_ext. apply (rec_src _ _ _ _ _ _ _ Hd). }
  rewrite orb_true_r. destruct (g it c); [exact (IH true _ Hd)|by split].
Qed.

Lemma nonempty_app {A} (l k : list A) : nonempty (l ++ k) = nonempty l || nonempty k.
Proof. by destruct l. Qed.

(** The state after the five groups of a rule, on a fresh cache. *)
Lemma groups_recorded (r : abstractDefaultRule I) c : fresh c →
  let c1 := match_group pure_match FSourceAddress (sourceAddressItems r) c in
  let c2 := match_group pure_match FSourcePort (sourcePortItems r) c1 in
  let c3 := match_group pure_match FDestinationAddress (destinationAddressItems r) c2 in
  let c4 := if IgnoreDestinationIPCIDRMatch (ic_cache c3) then c3
            else match_group pure_match FDestinationAddress (destinationIPCIDRItems r) c3 in
  let c5 := match_group pure_match FDestinationPort (destinationPortItems r) c4 in
  ∃ did, recorded c (existsb (λ it, g it c) (sourceAddressItems r))
    (existsb (λ it, g it c) (sourcePortItems r))
    (existsb (λ it, g it c) (destination_group c r))
    (existsb (λ it, g it c) (destinationPortItems r)) did c5 ∧
  (did = nonempty (sourceAddressItems r) || nonempty (sourcePortItems r)
    || nonempty (destinationAddressItems r)
    || (if IgnoreDestinationIPCIDRMatch (ic_cache c) then false
        else nonempty (destinationIPCIDRItems r)
             && negb (existsb (λ it, g it c) (destinationAddressItems r)))
    || nonempty (destinationPortItems r)).
Proof.
  intros (Hsa & Hsp & Hda & Hdp & Hdid).
  assert (recorded c false false false false false c) as H0 by done.
  intros c1 c2 c3 c4 c5.
  pose proof (match_group_recorded FSourceAddress (sourceAddressItems r) _ _ _ _ _ _ _ H0) as H1.
  fold c1 in H1. cbn in H1. rewrite Hsa in H1. cbn in H1. rewrite andb_true_r in H1.
  pose proof (match_group_recorded FSourcePort (sourcePortItems r) _ _ _ _ _ _ _ H1) as H2.
  fold c2 in H2. cbn in H2. rewrite (rec_sp _ _ _ _ _ _ _ H1) in H2. cbn in H2.
  rewrite andb_true_r in H2.
  pose proof (match_group_recorded FDestinationAddress (destinationAddressItems r)
    _ _ _ _ _ _ _ H2) as H3.
  fold c3 in H3. cbn in H3. rewrite (rec_da _ _ _ _ _ _ _ H2) in H3. cbn in H3.
  rewrite andb_true_r in H3.
  unfold destination_group. rewrite existsb_app.
  assert (∃ did, recorded c (existsb (λ it, g it c) (sourceAddressItems r))
    (existsb (λ it, g it c) (sourcePortItems r))
    (existsb (λ it, g it c) (destinationAddressItems r) || existsb (λ it, g it c)
       (if IgnoreDestinationIPCIDRMatch (ic_cache c) then [] else destinationIPCIDRItems r))
    false did c4 ∧ (did = nonempty (sourceAddressItems r) || nonempty (sourcePortItems r)
    || nonempty (destinationAddressItems r)
    || (if IgnoreDestinationIPCIDRMatch (ic_cache c) then false
        else nonempty (destinationIPCIDRItems r)
             && negb (existsb (λ it, g it c) (destinationAddressItems r)))))
    as (did & H4 & Hdid4).
  { subst c4. rewrite (rec_ign _ _ _ _ _ _ _ H3).
    destruct (IgnoreDestinationIPCIDRMatch (ic_cache c)).
    - eexists. cbn. rewrite !orb_false_r. split; [exact H3|done].
    - pose proof (match_group_recorded FDestinationAddress (destinationIPCIDRItems r)
        _ _ _ _ _ _ _ H3) as H4. cbn in H4. rewrite (rec_da _ _ _ _ _ _ _ H3) in H4.
      eexists. split; [|reflexivity].
      destruct (existsb _ (destinationAddressItems r)); exact H4. }
  pose proof (match_group_recorded FDestinationPort (destinationPortItems r) _ _ _ _ _ _ _ H4) as H5.
  fold c5 in H5. cbn in H5. rewrite (rec_dp _ _ _ _ _ _ _ H4) in H5. cbn in H5.
  rewrite andb_true_r in H5. eexists. split; [exact H5|]. by rewrite Hdid4.
Qed.

Lemma default_match_spec (r : abstractDefaultRule I) c :
  fresh c → (abstractDefaultRule_Match pure_match r c).1 = rule_denotes c r.
Proof.
  intros Hc. unfold abstractDefaultRule_Match, rule_denotes.
  destruct (nonempty (allItems r)); cbn [negb andb]; [|done].
  destruct (groups_recorded r c Hc) as (did & H5 & Hdid). cbn zeta in H5.
  pose proof (items_recorded _ _ _ _ _ _ _ (items r) H5) as H6.
  destruct (all_st _ (items r) _) as [b c6]. destruct H6 as [-> H6].
  unfold rule_condition, rule_constrained.
  destruct (forallb (λ it, g it c) (items r)) eqn:Hall; cbn [negb].
  2:{ rewrite andb_false_r. destruct (items r); [done|]. cbn. by rewrite orb_true_r. }
  specialize (H6 eq_refl). rewrite andb_true_r.
  rewrite (rec_sa _ _ _ _ _ _ _ H6), (rec_sp _ _ _ _ _ _ _ H6), (rec_da _ _ _ _ _ _ _ H6),
    (rec_dp _ _ _ _ _ _ _ H6), (rec_ign _ _ _ _ _ _ _ H6), (rec_did _ _ _ _ _ _ _ H6), Hdid.
  unfold group_holds, destination_group. rewrite existsb_app, nonempty_app.
  assert (nonempty (destinationAddressItems r) = false →
          existsb (λ it, g it c) (destinationAddressItems r) = false) as Hda
    by (by destruct (destinationAddressItems r)).
  revert Hda. clear.
  destruct (nonempty (sourceAddressItems r)), (nonempty (sourcePortItems r)),
    (IgnoreDestinationIPCIDRMatch (ic_cache c)), (nonempty (destinationAddressItems r)); cbn;
  intros Hda; try rewrite Hda by done;
  repeat match goal with |- context [nonempty ?l] => destruct (nonempty l); cbn end;
  repeat match goal with |- context [existsb ?f ?l] => destruct (existsb f l); cbn end;
  first [done|by destruct (invert r)].
Qed.

(** Whatever the answer, the source address flag is set exactly when a source address matched. *)
Lemma default_match_source_flag (r : abstractDefaultRule I) c : fresh c →
  SourceAddressMatch (ic_cache (abstractDefaultRule_Match pure_match r c).2)
  = nonempty (allItems r) && existsb (λ it, g it c) (sourceAddressItems r).
Proof.
  intros Hc. unfold abstractDefaultRule_Match.
  destruct (nonempty (allItems r)); cbn [negb andb]; [|apply Hc].
  destruct (groups_recorded r c Hc) as (did & H5 & _). cbn zeta in H5. apply rec_sa in H5.
  match type of H5 with context [SourceAddressMatch (ic_cache ?x)] => set (c5 := x) in * end.
  assert (SourceAddressMatch (ic_cache (all_st (λ it c, pure_match it (did_match c))
            (items r) c5).2) = existsb (λ it, g it c) (sourceAddressItems r)) as H6.
  { apply (all_st_inv (λ c', SourceAddressMatch (ic_cache c')
              = existsb (λ it, g it c) (sourceAddressItems r))); [exact H5|]. by intros. }
  fold c5. destruct (all_st _ _ c5) as [b c6]. cbn in H6.
  destruct b; cbn; [|exact H6]. by repeat (case_match; cbn; [exact H6|]).
Qed.

(** Matching a whole tree gives its meaning, on any cache for a logical rule and on a fresh one
    for a default rule. *)
Lemma tree_match_spec (t : RuleTree I) c :
  match t with TDefault _ => fresh c | TLogical _ => True end →
  (tree_match (abstractDefaultRule_Match pure_match) t c).1 = tree_denotes t c.
Proof.
  revert c. induction t as [r|r IH] using RuleTree_ind'; intros c Hc; cbn.
  { by apply default_match_spec. }
  rewrite logical_match_spec.
  2:{ intros x _. apply tree_match_frame, abstractDefaultRule_Match_frame, pure_keeps_frame. }
  f_equal. apply combine_with_ext. intros x Hx. apply IH; [done|].
  destruct x; [apply fresh_Reset|done].
Qed.

(** *** Matching again without a reset *)

Lemma did_match_source c : same_match_source c (did_match c).
Proof. by destruct c as [], ic_cache as []. Qed.

(** The other fields, all of which match. *)
Lemma items_all_match l c :
  (∀ it, it ∈ l → g it c = true) →
  all_st (λ it c, pure_match it (did_match c)) l c
  = (true, if nonempty l then did_match c else c).
Proof.
  revert c. induction l as [|it l IH]; intros c Hl; [done|]. cbn [all_st nonempty].
  unfold pure_match at 1. rewrite <-(g_ext it c (did_match c)) by apply did_match_source.
  rewrite (Hl it (list_elem_of_here _ _)). rewrite IH; [by destruct l|].
  intros it' Hit. rewrite <-(g_ext it' c (did_match c)) by apply did_match_source.
  apply Hl. by right.
Qed.

Lemma items_matched l c c1 :
  all_st (λ it c, pure_match it (did_match c)) l c = (true, c1) → ∀ it, it ∈ l → g it c1 = true.
Proof.
  intros Hall. assert (∀ it, it ∈ l → g it c = true) as Hl.
  { revert c Hall. induction l as [|it l IH]; intros c Hall; [by intros ? ?%elem_of_nil|].
    cbn [all_st] in Hall. unfold pure_match at 1 in Hall.
    rewrite <-(g_ext it c (did_match c)) in Hall by apply did_match_source.
    destruct (g it c) eqn:Hg; [|done]. intros it' [->|Hit]%elem_of_cons; [done|].
    rewrite (g_ext it' c (did_match c)) by apply did_match_source. by eapply IH. }
  rewrite items_all_match in Hall by done. injection Hall as <-. intros it Hit.
  destruct (nonempty l); [|by apply Hl].
  rewrite <-(g_ext it c (did_match c)) by apply did_match_source. by apply Hl.
Qed.

(** A group whose flag is set is not looked at. *)
Lemma match_group_skip f l c :
  nonempty l && negb (flag_get f (ic_cache c)) = false → match_group pure_match f l c = c.
Proof. intros Hl. unfold match_group. by rewrite Hl. Qed.

(** A rule that matched matches again on the cache it left: what the groups found is not looked up
    again. *)
Lemma matched_again (r : abstractDefaultRule I) c c1 c2 :
  invert r = false → abstractDefaultRule_Match pure_match r c = (true, c1) →
  ic_cache c2 = ic_cache c1 → (∀ it, it ∈ items r → g it c2 = g it c1) →
  (abstractDefaultRule_Match pure_match r c2).1 = true.
Proof.
  intros Hinv Hm Hc Hg. unfold abstractDefaultRule_Match in *.
  destruct (negb (nonempty (allItems r))); [done|]. cbn zeta in *.
  set (m0 := match_group _ FDestinationPort _ _) in Hm. clearbody m0.
  destruct (all_st _ (items r) m0) as [b m] eqn:Hitems.
  rewrite Hinv in Hm |- *. destruct b; cbn [negb] in Hm; [|done].
  destruct (nonempty (sourceAddressItems r) && _) eqn:E1; [done|].
  destruct (nonempty (sourcePortItems r) && _) eqn:E2; [done|].
  destruct ((_ || nonempty (destinationAddressItems r)) && _) eqn:E3; [done|].
  destruct (nonempty (destinationPortItems r) && _) eqn:E4; [done|].
  assert (m = c1) as -> by (by destruct (negb (DidMatch _)); injection Hm as ->). clear Hm.
  rewrite (match_group_skip FSourceAddress) by (cbn; by rewrite Hc).
  rewrite (match_group_skip FSourcePort) by (cbn; by rewrite Hc).
  rewrite (match_group_skip FDestinationAddress (destinationAddressItems r)).
  2:{ cbn. rewrite Hc. revert E3. destruct (nonempty (destinationAddressItems r)); [|done].
      by rewrite orb_true_r. }
  assert (∀ c, c = c2 → (if IgnoreDestinationIPCIDRMatch (ic_cache c) then c
    else match_group pure_match FDestinationAddress (destinationIPCIDRItems r) c) = c2) as Hskip.
  { intros c' ->. destruct (IgnoreDestinationIPCIDRMatch (ic_cache c2)) eqn:Hi; [done|].
    apply match_group_skip. cbn. rewrite Hc in Hi |- *. rewrite Hi in E3. cbn in E3.
    destruct (nonempty (destinationIPCIDRItems r)); done. }
  rewrite Hskip by done. rewrite (match_group_skip FDestinationPort) by (cbn; by rewrite Hc).
  rewrite items_all_match by (intros it Hit; rewrite Hg by done; by eapply items_matched).
  cbn [negb]. set (c3 := if nonempty (items r) then did_match c2 else c2).
  assert (∀ f, flag_get f (ic_cache c3) = flag_get f (ic_cache c1)) as Hflag
    by (intros f; unfold c3; rewrite <-Hc; destruct (nonempty (items r)), f; done).
  assert (IgnoreDestinationIPCIDRMatch (ic_cache c3) = IgnoreDestinationIPCIDRMatch (ic_cache c1))
    as -> by (unfold c3; rewrite <-Hc; by destruct (nonempty (items r))).
  pose proof (Hflag FSourceAddress) as F1. pose proof (Hflag FSourcePort) as F2.
  pose proof (Hflag FDestinationAddress) as F3. pose proof (Hflag FDestinationPort) as F4.
  cbn in F1, F2, F3, F4. rewrite F1, F2, F3, F4, E1, E2, E3, E4. by destruct (negb (DidMatch (ic_cache c3))).
Qed.


End PureRules.

(** ** Matchers that agree *)

(** The items of the groups, the ones a match looks at. *)
Definition group_items {I} `{ActionLib} (r : abstractDefaultRule I) : list I :=
  items r ++ sourceAddressItems r ++ sourcePortItems r ++ destinationAddressItems r ++
  destinationIPCIDRItems r ++ destinationPortItems r.

Fixpoint tree_items {I} `{ActionLib} (t : RuleTree I) : list I :=
  match t with
  | TDefault r => group_items r
  | TLogical r => flat_map tree_items (lr_rules r)
  end.

(** The default rules of a tree. *)
Fixpoint tree_leaves {I} `{ActionLib} (t : RuleTree I) : list (abstractDefaultRule I) :=
  match t with
  | TDefault r => [r]
  | TLogical r => flat_map tree_leaves (lr_rules r)
  end.

Section Agree.
Context `{ActionLib} {I : Type} (M M' : I → InboundContext → bool * InboundContext).

Lemma match_group_ext f l c :
  (∀ it c, it ∈ l → M it c = M' it c) → match_group M f l c = match_group M' f l c.
Proof. intros HM. unfold match_group. by rewrite (any_st_ext M M'). Qed.

Lemma abstractDefaultRule_Match_ext (r : abstractDefaultRule I) c :
  (∀ it c, it ∈ group_items r → M it c = M' it c) →
  abstractDefaultRule_Match M r c = abstractDefaultRule_Match M' r c.
Proof.
  intros HM. unfold group_items in HM. unfold abstractDefaultRule_Match.
  rewrite !(match_group_ext _ (sourceAddressItems r)), !(match_group_ext _ (sourcePortItems r)),
    !(match_group_ext _ (destinationAddressItems r)),
    !(match_group_ext _ (destinationIPCIDRItems r)), !(match_group_ext _ (destinationPortItems r))
    by (intros; apply HM; set_solver).
  rewrite (all_st_ext (λ item c, M item (did_match c)) (λ item c, M' item (did_match c)))
    by (intros; apply HM; set_solver).
  done.
Qed.

Lemma tree_match_ext (t : RuleTree I) c :
  (∀ it c, it ∈ tree_items t → M it c = M' it c) →
  tree_match (abstractDefaultRule_Match M) t c = tree_match (abstractDefaultRule_Match M') t c.
Proof.
  revert c. induction t as [r|r IH] using RuleTree_ind'; intros c HM; cbn in *.
  { by apply abstractDefaultRule_Match_ext. }
  assert (∀ t c, t ∈ lr_rules r →
    tree_match (abstractDefaultRule_Match M) t (ResetRuleCache c)
    = tree_match (abstractDefaultRule_Match M') t (ResetRuleCache c)) as Ht.
  { intros t c' Hin. apply IH; [done|]. intros it c2 Hit. apply HM.
    apply list_elem_of_In, in_flat_map. exists t. split; by apply list_elem_of_In. }
  unfold abstractLogicalRule_Match.
  by erewrite all_st_ext, any_st_ext by exact Ht.
Qed.

End Agree.

(** ** Building a default rule *)

(** The group a constructor appends an item to. *)
Inductive Group : Type :=
| GItems | GSourceAddress | GSourcePort | GDestinationAddress | GDestinationIPCIDR
| GDestinationPort.

Definition same_group (g g' : Group) : bool :=
  match g, g' with
  | GItems, GItems | GSourceAddress, GSourceAddress | GSourcePort, GSourcePort
  | GDestinationAddress, GDestinationAddress | GDestinationIPCIDR, GDestinationIPCIDR
  | GDestinationPort, GDestinationPort => true
  | _, _ => false
  end.

Section Building.
Context `{ActionLib} {I : Type}.

Definition new_rule (inv : bool) (act : option RuleAction) : abstractDefaultRule I :=
  mkDefaultRule [] [] [] [] [] [] [] inv act.

(** [rule.<group> = append(rule.<group>, item); rule.allItems = append(rule.allItems, item)] *)
Definition add_item (g : Group) (it : I) (r : abstractDefaultRule I) : abstractDefaultRule I :=
  let '(mkDefaultRule a sa sp da di dp all inv act) := r in
  match g with
  | GItems => mkDefaultRule (a ++ [it]) sa sp da di dp (all ++ [it]) inv act
  | GSourceAddress => mkDefaultRule a (sa ++ [it]) sp da di dp (all ++ [it]) inv act
  | GSourcePort => mkDefaultRule a sa (sp ++ [it]) da di dp (all ++ [it]) inv act
  | GDestinationAddress => mkDefaultRule a sa sp (da ++ [it]) di dp (all ++ [it]) inv act
  | GDestinationIPCIDR => mkDefaultRule a sa sp da (di ++ [it]) dp (all ++ [it]) inv act
  | GDestinationPort => mkDefaultRule a sa sp da di (dp ++ [it]) (all ++ [it]) inv act
  end.

(** One step of a constructor: [if cond { item := ...; append }], where building the item may fail,
    or [if cond { return error }]. *)
Inductive Step : Type :=
| SAdd (cond : bool) (g : Group) (new : res I)
| SFail (cond : bool) (e : error).

Definition run_step (s : Step) (r : abstractDefaultRule I) : res (abstractDefaultRule I) :=
  match s with
  | SAdd cond g new => if cond then it ← new; Ok (add_item g it r) else Ok r
  | SFail cond e => if cond then Err e else Ok r
  end.

(** A constructor body: steps applied in order, the first error ends it. *)
Fixpoint build_steps (steps : list Step) (r : abstractDefaultRule I)
    : res (abstractDefaultRule I) :=
  match steps with
  | [] => Ok r
  | step :: steps' => r' ← run_step step r; build_steps steps' r'
  end.

(** The items of one group. *)
Definition group (g : Group) (r : abstractDefaultRule I) : list I :=
  match g with
  | GItems => items r
  | GSourceAddress => sourceAddressItems r
  | GSourcePort => sourcePortItems r
  | GDestinationAddress => destinationAddressItems r
  | GDestinationIPCIDR => destinationIPCIDRItems r
  | GDestinationPort => destinationPortItems r
  end.

(** The invariant of a rule: every item is in [allItems] and in exactly one group. *)
Definition rule_wf (r : abstractDefaultRule I) : Prop :=
  allItems r ≡ₚ items r ++ sourceAddressItems r ++ sourcePortItems r ++
    destinationAddressItems r ++ destinationIPCIDRItems r ++ destinationPortItems r.

Lemma rule_wf_new inv act : rule_wf (new_rule inv act).
Proof. by constructor. Qed.

Lemma add_item_group g it r g' :
  group g' (add_item g it r) =
  if same_group g g' then group g' r ++ [it] else group g' r.
Proof. by destruct r, g, g'. Qed.

Lemma add_item_allItems g it r : allItems (add_item g it r) = allItems r ++ [it].
Proof. by destruct r, g. Qed.

Lemma add_item_invert g it r :
  invert (add_item g it r) = invert r ∧ action (add_item g it r) = action r.
Proof. by destruct r, g. Qed.

Lemma add_item_wf g it r : rule_wf r → rule_wf (add_item g it r).
Proof.
  unfold rule_wf. destruct r as [a sa sp da di dp all inv act]. intros Hr.
  destruct g; cbn in *; rewrite Hr; clear; solve_Permutation.
Qed.

(** The items a step appends, and those it appends to the group [g]. *)
Definition step_items (s : Step) : list I :=
  match s with SAdd true _ (Ok it) => [it] | _ => [] end.

Definition step_group (g : Group) (s : Step) : list I :=
  match s with
  | SAdd cond g' new =>
      if same_group g' g then (if cond then match new with Ok it => [it] | _ => [] end else [])
      else []
  | SFail _ _ => []
  end.

(** What a successful constructor body leaves: every group holds the items of its steps, in
    order. *)
Record built (steps : list Step) (r r' : abstractDefaultRule I) : Prop := {
  built_group : ∀ g, group g r' = group g r ++ flat_map (step_group g) steps;
  built_all : allItems r' = allItems r ++ flat_map step_items steps;
  built_invert : invert r' = invert r;
  built_action : action r' = action r;
  built_wf : rule_wf r → rule_wf r';
  built_ok : ∀ g new, SAdd true g new ∈ steps → is_ok new = true
}.

Lemma built_cons s r r1 : run_step s r = Ok r1 → built [s] r r1.
Proof.
  destruct s as [cond g new|cond e]; cbn; destruct cond; intros Hs; simplify_eq.
  1: destruct new as [it| |]; cbn in Hs; simplify_eq.
  1: destruct (add_item_invert g it r) as [Hi Ha].
  all: constructor; cbn; try rewrite app_nil_r; intros; try done.
  - rewrite add_item_group, app_nil_r.
    destruct (same_group g g0); [done|]. by rewrite app_nil_r.
  - by apply add_item_allItems.
  - by apply add_item_wf.
  - apply list_elem_of_singleton in H0. by simplify_eq.
  - destruct (same_group _ _); by rewrite app_nil_r.
  - apply list_elem_of_singleton in H0. by simplify_eq.
  - by rewrite app_nil_r.
  - apply list_elem_of_singleton in H0. by simplify_eq.
Qed.

Lemma built_app ss ss' r r1 r2 : built ss r r1 → built ss' r1 r2 → built (ss ++ ss') r r2.
Proof.
  intros [G A I' C W O] [G' A' I'' C' W' O']. constructor; try congruence; try tauto.
  - intros g. by rewrite G', G, flat_map_app, app_assoc.
  - by rewrite A', A, flat_map_app, app_assoc.
  - intros g new [?|?]%elem_of_app; eauto.
Qed.

Lemma build_steps_built steps r r' : build_steps steps r = Ok r' → built steps r r'.
Proof.
  revert r. induction steps as [|s steps IH]; intros r Hb; cbn in Hb.
  { simplify_eq. constructor; cbn; try done; intros; [by rewrite app_nil_r..|].
    by apply elem_of_nil in H0. }
  destruct (run_step s r) as [r1| |] eqn:E; cbn in Hb; simplify_eq.
  apply (built_app [s] steps r r1 r'); [by apply built_cons|auto].
Qed.

(** A group of the built rule is empty exactly when none of its steps was taken. *)
Definition step_adds (g : Group) (s : Step) : bool :=
  match s with SAdd cond g' _ => if same_group g' g then cond else false | SFail _ _ => false end.

Lemma built_nonempty steps r r' g :
  built steps r r' → nonempty (group g r') = nonempty (group g r) || existsb (step_adds g) steps.
Proof.
  intros [G _ _ _ _ O]. rewrite G, nonempty_app. f_equal. clear G. revert O.
  induction steps as [|s steps IH]; intros O; [done|]. cbn. rewrite nonempty_app. f_equal.
  - destruct s as [cond g' new|]; [|done]. cbn. destruct (same_group g' g); [|done].
    destruct cond; [|done].
    specialize (O g' new (list_elem_of_here _ _)). by destruct new.
  - apply IH. intros g' new Hin. eapply O. by apply list_elem_of_further.
Qed.

End Building.

Arguments Step I : clear implicits.

(** A step whose item is always built, and one that is only there when the option is set. *)
Definition add_if {I} (cond : bool) (g : Group) (it : I) : Step I := SAdd cond g (Ok it).

Definition add_some {I A} (o : option A) (g : Group) (new : A → I) : Step I :=
  match o with
  | Some x => SAdd true g (Ok (new x))
  | None => SAdd false g (Err os_ErrInvalid)
  end.

Lemma step_adds_or {I A} (b : bool) g g' (new : res I) (o : option A) f :
  step_adds g (if b then SAdd true g' new else add_some o g' f)
  = if same_group g' g then b || negb (is_nil o) else false.
Proof. destruct b, o; cbn; by destruct (same_group g' g). Qed.

(** ** Rules that do not look at [IgnoreDestinationIPCIDRMatch] *)

Definition set_ignore (v : bool) (c : InboundContext) : InboundContext :=
  upd_cache (λ r, r <| IgnoreDestinationIPCIDRMatch := v |>) c.

(** Setting the flag before the match is setting it after. *)
Definition blind {X} (M : X → InboundContext → bool * InboundContext) (x : X) : Prop :=
  ∀ v c, M x (set_ignore v c) = ((M x c).1, set_ignore v (M x c).2).

Lemma any_st_blind {X} (M : X → InboundContext → bool * InboundContext) l v c :
  (∀ x, x ∈ l → blind M x) →
  any_st M l (set_ignore v c) = ((any_st M l c).1, set_ignore v (any_st M l c).2).
Proof.
  revert c. induction l as [|x l IH]; intros c HM; [done|]. cbn [any_st].
  rewrite (HM x (list_elem_of_here _ _)). destruct (M x c) as [b c']; cbn [fst snd].
  destruct b; [done|]. apply IH. intros; apply HM; by apply list_elem_of_further.
Qed.

Lemma all_st_blind {X} (M : X → InboundContext → bool * InboundContext) l v c :
  (∀ x, x ∈ l → blind M x) →
  all_st M l (set_ignore v c) = ((all_st M l c).1, set_ignore v (all_st M l c).2).
Proof.
  revert c. induction l as [|x l IH]; intros c HM; [done|]. cbn [all_st].
  rewrite (HM x (list_elem_of_here _ _)). destruct (M x c) as [b c']; cbn [fst snd].
  destruct b; [|done]. apply IH. intros; apply HM; by apply list_elem_of_further.
Qed.

Lemma set_ignore_id c : set_ignore (IgnoreDestinationIPCIDRMatch (ic_cache c)) c = c.
Proof. destruct c as []; cbn. unfold set_ignore, upd_cache. cbn. by destruct ic_cache. Qed.

Lemma same_request_set_ignore v c : same_request c (set_ignore v c).
Proof. unfold set_ignore. apply same_request_upd. Qed.

Lemma set_ignore_twice v w c : set_ignore v (set_ignore w c) = set_ignore v c.
Proof. done. Qed.

Section Blind.
Context `{ActionLib} {I : Type} (M : I → InboundContext → bool * InboundContext).

Lemma match_group_blind f l v c :
  (∀ it, it ∈ l → blind M it) →
  match_group M f l (set_ignore v c) = set_ignore v (match_group M f l c).
Proof.
  intros HM. unfold match_group.
  replace (flag_get f (ic_cache (set_ignore v c))) with (flag_get f (ic_cache c))
    by (by destruct f).
  destruct (_ && _); [|done].
  change (did_match (set_ignore v c)) with (set_ignore v (did_match c)).
  rewrite any_st_blind by exact HM. destruct (any_st M l (did_match c)) as [b c']; cbn [fst snd].
  destruct b; [|done]. by destruct f.
Qed.

Lemma abstractDefaultRule_Match_blind (r : abstractDefaultRule I) :
  (∀ it, it ∈ group_items r → blind M it) →
  destinationIPCIDRItems r = [] → blind (abstractDefaultRule_Match M) r.
Proof.
  unfold group_items. intros HM Hnil v c. unfold abstractDefaultRule_Match. rewrite Hnil.
  destruct (negb (nonempty (allItems r))); [done|].
  rewrite !match_group_blind by (intros; apply HM; set_solver).
  set (c3 := match_group M FDestinationAddress _ _).
  assert (∀ c, (if IgnoreDestinationIPCIDRMatch (ic_cache c) then c
                else match_group M FDestinationAddress [] c) = c) as Hno.
  { intros c'. by destruct (IgnoreDestinationIPCIDRMatch (ic_cache c')). }
  rewrite !Hno, match_group_blind by (intros; apply HM; set_solver).
  rewrite all_st_blind.
  2:{ intros it Hit v' c'. refine (HM it _ v' (did_match c')). set_solver. }
  destruct (all_st _ _ _) as [b c6]; cbn [fst snd]. destruct (negb b); [done|].
  cbn [nonempty]. rewrite !andb_false_r. cbn [orb].
  change (SourceAddressMatch (ic_cache (set_ignore v c6))) with (SourceAddressMatch (ic_cache c6)).
  change (SourcePortMatch (ic_cache (set_ignore v c6))) with (SourcePortMatch (ic_cache c6)).
  change (DestinationAddressMatch (ic_cache (set_ignore v c6)))
    with (DestinationAddressMatch (ic_cache c6)).
  change (DestinationPortMatch (ic_cache (set_ignore v c6)))
    with (DestinationPortMatch (ic_cache c6)).
  change (DidMatch (ic_cache (set_ignore v c6))) with (DidMatch (ic_cache c6)).
  repeat (case_match; [done|]). done.
Qed.

(** No default rule of the tree has an [ip_cidr] group. *)
Fixpoint no_ipcidr (t : RuleTree I) : bool :=
  match t with
  | TDefault r => negb (nonempty (destinationIPCIDRItems r))
  | TLogical r => forallb no_ipcidr (lr_rules r)
  end.

Lemma tree_match_blind (D : abstractDefaultRule I → InboundContext → bool * InboundContext) t :
  (∀ r, (∀ it, it ∈ group_items r → it ∈ tree_items t) → destinationIPCIDRItems r = [] →
        blind D r) →
  no_ipcidr t = true →
  blind (tree_match D) t.
Proof.
  induction t as [r|r IH] using RuleTree_ind'; intros HD; cbn [no_ipcidr].
  { intros Hn. apply HD; [done|]. by destruct (destinationIPCIDRItems r). }
  rewrite forallb_forall. intros Hn v c. cbn [tree_match]. unfold abstractLogicalRule_Match.
  set (g := λ it c, tree_match D it (ResetRuleCache c)).
  assert (∀ t, t ∈ lr_rules r → blind g t) as Hg.
  { intros t Ht v' c'. refine (IH t Ht _ (Hn t (proj1 (list_elem_of_In _ _) Ht)) v'
      (ResetRuleCache c')).
    intros d Hd. apply HD. intros it Hit. cbn [tree_items]. apply list_elem_of_In, in_flat_map.
    exists t. split; apply list_elem_of_In; auto. }
  rewrite any_st_blind, all_st_blind by done. destruct (String.eqb _ _).
  - by destruct (all_st g _ c).
  - by destruct (any_st g _ c).
Qed.

End Blind.
