(* ===== verification/RuleSet.v ===== *)
(** * Headless rules and local rule sets (route/rule/rule_headless.go, rule_set.go,
    rule_set_local.go)

    A rule set is a list of headless rules with a summary of what they contain and a count of the
    rules that refer to it.  [reloadRules] is what every load ends in; where the rules come from is
    in RuleSetFiles.v. *)

From stdpp Require Import base gmap strings list numbers.
From S2P Require Import Prelude GoStd Netip Adapter SetItems AddrItems RuleAction RuleOptions.
From S2P Require Import RuleItem RuleMatch.

Local Open Scope Z_scope.

Section RuleSets.
Context `{ExtLib} `{ActionLib}.

(** ** Headless rules *)

(** [route/rule/rule_headless.go:33-35] DefaultHeadlessRule *)
Definition DefaultHeadlessRule : Type := abstractDefaultRule BasicItem.

(** [route/rule/rule_headless.go:198-200] LogicalHeadlessRule *)
Definition HeadlessRule : Type := RuleTree BasicItem.

(** The items over the domain, the addresses and the ports.

    [route/rule/rule_headless.go:44-123] NewDefaultHeadlessRule (network to port_range) *)
Definition headless_steps_addresses (options : DefaultHeadlessOptions)
    : list (Step BasicItem) :=
  [ add_if (nonempty (ho_Network options)) GItems
      (I_Network (NewNetworkItem (ho_Network options)));
    (if nonempty (ho_Domain options) || nonempty (ho_DomainSuffix options)
     then SAdd true GDestinationAddress
            (I_Domain <$> NewDomainItem (ho_Domain options) (ho_DomainSuffix options))
     else add_some (ho_DomainMatcher options) GDestinationAddress
            (λ m, I_Domain (NewRawDomainItem m)));
    add_if (nonempty (ho_DomainKeyword options)) GDestinationAddress
      (I_DomainKeyword (NewDomainKeywordItem (ho_DomainKeyword options)));
    SAdd (nonempty (ho_DomainRegex options)) GDestinationAddress
      (wrap_err [AStr "domain_regex"] (I_DomainRegex <$> NewDomainRegexItem (ho_DomainRegex options)));
    (if nonempty (ho_SourceIPCIDR options)
     then SAdd true GSourceAddress
            (wrap_err [AStr "source_ip_cidr"]
               (I_IPCIDR <$> NewIPCIDRItem true (ho_SourceIPCIDR options)))
     else add_some (ho_SourceIPSet options) GSourceAddress
            (λ s, I_IPCIDR (NewRawIPCIDRItem true s)));
    (if nonempty (ho_IPCIDR options)
     then SAdd true GDestinationIPCIDR
            (wrap_err [AStr "ipcidr"] (I_IPCIDR <$> NewIPCIDRItem false (ho_IPCIDR options)))
     else add_some (ho_IPSet options) GDestinationIPCIDR
            (λ s, I_IPCIDR (NewRawIPCIDRItem false s)));
    add_if (nonempty (ho_SourcePort options)) GSourcePort
      (I_Port (NewPortItem true (ho_SourcePort options)));
    SAdd (nonempty (ho_SourcePortRange options)) GSourcePort
      (wrap_err [AStr "source_port_range"]
         (I_PortRange <$> NewPortRangeItem true (ho_SourcePortRange options)));
    add_if (nonempty (ho_Port options)) GDestinationPort
      (I_Port (NewPortItem false (ho_Port options)));
    SAdd (nonempty (ho_PortRange options)) GDestinationPort
      (wrap_err [AStr "port_range"]
         (I_PortRange <$> NewPortRangeItem false (ho_PortRange options))) ].

(** The items over the process and the network; those of the network are skipped when there is no
    network manager.

    [route/rule/rule_headless.go:124-192] NewDefaultHeadlessRule (process_name to adguard) *)
Definition headless_steps_process (networkManager : bool) (options : DefaultHeadlessOptions)
    : list (Step BasicItem) :=
  [ add_if (nonempty (ho_ProcessName options)) GItems
      (I_Process (NewProcessItem (ho_ProcessName options)));
    add_if (nonempty (ho_ProcessPath options)) GItems
      (I_ProcessPath (NewProcessPathItem (ho_ProcessPath options)));
    SAdd (nonempty (ho_ProcessPathRegex options)) GItems
      (wrap_err [AStr "process_path_regex"]
         (I_ProcessPathRegex <$> NewProcessPathRegexItem (ho_ProcessPathRegex options)));
    add_if (nonempty (ho_PackageName options)) GItems
      (I_PackageName (NewPackageNameItem (ho_PackageName options)));
    add_if (networkManager && nonempty (ho_NetworkType options)) GItems
      (I_NetworkType (NewNetworkTypeItem (ho_NetworkType options)));
    add_if (networkManager && ho_NetworkIsExpensive options) GItems I_NetworkIsExpensive;
    add_if (networkManager && ho_NetworkIsConstrained options) GItems I_NetworkIsConstrained;
    add_if (networkManager && nonempty (ho_WIFISSID options)) GItems
      (I_WIFISSID (NewWIFISSIDItem (ho_WIFISSID options)));
    add_if (networkManager && nonempty (ho_WIFIBSSID options)) GItems
      (I_WIFIBSSID (NewWIFIBSSIDItem (ho_WIFIBSSID options)));
    add_if (networkManager && nonempty (default [] (ho_NetworkInterfaceAddress options))) GItems
      (I_NetworkInterfaceAddress
         (NewNetworkInterfaceAddressItem (default [] (ho_NetworkInterfaceAddress options))));
    add_if (networkManager && nonempty (ho_DefaultInterfaceAddress options)) GItems
      (I_DefaultInterfaceAddress
         (NewDefaultInterfaceAddressItem (ho_DefaultInterfaceAddress options)));
    (if nonempty (ho_AdGuardDomain options)
     then SAdd true GDestinationAddress
            (Ok (I_AdGuardDomain (NewAdGuardDomainItem (ho_AdGuardDomain options))))
     else add_some (ho_AdGuardDomainMatcher options) GDestinationAddress
            (λ m, I_AdGuardDomain (NewRawAdGuardDomainItem m))) ].

(** [route/rule/rule_headless.go:37-194] NewDefaultHeadlessRule *)
Definition NewDefaultHeadlessRule (networkManager : bool) (options : DefaultHeadlessOptions)
    : res DefaultHeadlessRule :=
  build_steps (headless_steps_addresses options ++ headless_steps_process networkManager options)
    (new_rule (ho_Invert options) None).

(** The mode of a logical rule.

    [route/rule/rule_headless.go:209-216] NewLogicalHeadlessRule (mode) *)
Definition logical_mode (Mode : string) : res string :=
  if String.eqb Mode "and" then Ok "and"%string else
  if String.eqb Mode "or" then Ok "or"%string else
  Err (E_New [AStr "unknown logical mode: "; AStr Mode]).

(** [route/rule/rule_headless.go:202-225] NewLogicalHeadlessRule *)
Definition NewLogicalHeadlessRule {O} (New : O → res HeadlessRule)
    (options : LogicalOptions O unit) : res HeadlessRule :=
  mode ← logical_mode (lo_Mode options);
  rules ← mapi_res (λ i sub, wrap_err [AStr "sub rule["; AInt (Z.of_nat i); AStr "]"] (New sub))
            (lo_Rules options);
  Ok (TLogical (mkLogicalRule rules mode (lo_Invert options) None)).

(** [route/rule/rule_headless.go:14-29] NewHeadlessRule *)
Fixpoint NewHeadlessRule (networkManager : bool) (options : HeadlessRuleOptions)
    : res HeadlessRule :=
  let '(mkOptionTree type d l) := options in
  if String.eqb type "" || String.eqb type "default" then
    if negb (DefaultHeadlessRule_IsValid d) then Err (E_New [AStr "missing conditions"])
    else TDefault <$> NewDefaultHeadlessRule networkManager d
  else if String.eqb type "logical" then
    valid ← Logical_IsValid true DefaultHeadlessRule_IsValid l;
    if negb valid then Err (E_New [AStr "missing conditions"])
    else NewLogicalHeadlessRule (NewHeadlessRule networkManager) l
  else Err (E_New [AStr "unknown rule type: "; AStr type]).

(** Items of a headless rule only read the metadata. *)
Definition headless_item_match (env : Env) (it : BasicItem) (metadata : InboundContext)
    : bool * InboundContext := pure_match (BasicItem_Match env) it metadata.

(** [Match] of a headless rule. *)
Definition HeadlessRule_Match (env : Env) (rule : HeadlessRule)
    : InboundContext → bool * InboundContext :=
  tree_match (abstractDefaultRule_Match (headless_item_match env)) rule.

(** ** Local rule sets *)

(** [adapter/router.go:67-71] RuleSetMetadata *)
Record RuleSetMetadata : Type := mkRuleSetMetadata {
  ContainsProcessRule : bool;
  ContainsWIFIRule : bool;
  ContainsIPCIDRRule : bool
}.

(** The callbacks are named by numbers; [refs] is an int32.

    [route/rule/rule_set_local.go:29-40] LocalRuleSet *)
Record LocalRuleSet : Type := mkLocalRuleSet {
  ls_tag : string;
  ls_rules : list HeadlessRule;
  ls_metadata : RuleSetMetadata;
  ls_callbacks : list nat;
  ls_refs : Z
}.
#[global] Instance LocalRuleSet_settable : Settable LocalRuleSet :=
  {| mkT r := mkLocalRuleSet (ls_tag r) (ls_rules r) (ls_metadata r) (ls_callbacks r)
                (ls_refs r) |}.

(** [route/rule/rule_set.go:45-59] HasHeadlessRule *)
Definition HasHeadlessRule (rules : list HeadlessRuleOptions)
    (cond : DefaultHeadlessOptions → bool) : bool :=
  existsb (tree_has_rule cond) rules.

(** The new state and the callbacks that are called with it.

    [route/rule/rule_set_local.go:131-153] (LocalRuleSet).reloadRules *)
Definition reloadRules (networkManager : bool) (headlessRules : list HeadlessRuleOptions)
    (s : LocalRuleSet) : res (LocalRuleSet * list nat) :=
  rules ← mapi_res (λ i ruleOptions,
            wrap_err [AStr "parse rule_set.rules.["; AInt (Z.of_nat i); AStr "]"]
              (NewHeadlessRule networkManager ruleOptions)) headlessRules;
  let metadata := mkRuleSetMetadata (HasHeadlessRule headlessRules isProcessHeadlessRule)
                    (HasHeadlessRule headlessRules isWIFIHeadlessRule)
                    (HasHeadlessRule headlessRules isIPCIDRHeadlessRule) in
  Ok (s <| ls_rules := rules |> <| ls_metadata := metadata |>, ls_callbacks s).

(** An inline rule set; the others load their rules from a file.

    [route/rule/rule_set_local.go:42-56] NewLocalRuleSet (inline) *)
Definition NewInlineRuleSet (networkManager : bool) (tag : string)
    (rules : list HeadlessRuleOptions) : res LocalRuleSet :=
  let ruleSet := mkLocalRuleSet tag [] (mkRuleSetMetadata false false false) [] 0 in
  if negb (nonempty rules) then Err (E_New [AStr "empty inline rule-set"]) else
  '(ruleSet, _) ← reloadRules networkManager rules ruleSet;
  Ok ruleSet.

Definition int32 (z : Z) : Z := (z + 2 ^ 31) mod 2 ^ 32 - 2 ^ 31.

(** [route/rule/rule_set_local.go:171-173] (LocalRuleSet).IncRef *)
Definition LocalRuleSet_IncRef (s : LocalRuleSet) : LocalRuleSet :=
  s <| ls_refs := int32 (ls_refs s + 1) |>.

(** [route/rule/rule_set_local.go:175-179] (LocalRuleSet).DecRef *)
Definition LocalRuleSet_DecRef (s : LocalRuleSet) : res LocalRuleSet :=
  let refs := int32 (ls_refs s - 1) in
  if Z.ltb refs 0 then Panic [AStr "rule-set: negative refs"]
  else Ok (s <| ls_refs := refs |>).

(** [route/rule/rule_set_local.go:181-185] (LocalRuleSet).Cleanup *)
Definition LocalRuleSet_Cleanup (s : LocalRuleSet) : LocalRuleSet :=
  if Z.eqb (ls_refs s) 0 then s <| ls_rules := [] |> else s.

Fixpoint remove_first (n : nat) (l : list nat) : list nat :=
  match l with
  | [] => []
  | x :: l' => if Nat.eqb n x then l' else x :: remove_first n l'
  end.

(** [route/rule/rule_set_local.go:187-191] (LocalRuleSet).RegisterCallback *)
Definition LocalRuleSet_RegisterCallback (callback : nat) (s : LocalRuleSet) : LocalRuleSet :=
  s <| ls_callbacks := ls_callbacks s ++ [callback] |>.

(** The callback is removed by its list element, so at most one entry goes.

    [route/rule/rule_set_local.go:193-197] (LocalRuleSet).UnregisterCallback *)
Definition LocalRuleSet_UnregisterCallback (element : nat) (s : LocalRuleSet) : LocalRuleSet :=
  s <| ls_callbacks := remove_first element (ls_callbacks s) |>.

(** The watcher aside.

    [route/rule/rule_set_local.go:199-202] (LocalRuleSet).Close *)
Definition LocalRuleSet_Close (s : LocalRuleSet) : LocalRuleSet := s <| ls_rules := [] |>.

(** [route/rule/rule_set_local.go:204-211] (LocalRuleSet).Match *)
Definition LocalRuleSet_Match (env : Env) (s : LocalRuleSet) (metadata : InboundContext)
    : bool * InboundContext :=
  any_st (HeadlessRule_Match env) (ls_rules s) metadata.

(** [route/rule/rule_set.go:27-43] extractIPSetFromRule *)
Fixpoint extractIPSetFromRule (rawRule : HeadlessRule) : list IPSet :=
  match rawRule with
  | TDefault rule =>
      flat_map (λ rawItem, match rawItem with I_IPCIDR item => [ip_ipSet item] | _ => [] end)
        (destinationIPCIDRItems rule)
  | TLogical rule => flat_map extractIPSetFromRule (lr_rules rule)
  end.

(** [route/rule/rule_set_local.go:165-169] (LocalRuleSet).ExtractIPSet *)
Definition LocalRuleSet_ExtractIPSet (s : LocalRuleSet) : list IPSet :=
  flat_map extractIPSetFromRule (ls_rules s).

End RuleSets.

(** ** Headless rules: meaning and construction *)

Section HeadlessTheorems.
Context `{ExtLib} `{ActionLib}.

Lemma headless_item_keeps_frame env it : keeps_frame (headless_item_match env) it.
Proof. intros c. reflexivity. Qed.

Lemma headless_item_blind env it : blind (headless_item_match env) it.
Proof. intros v c. unfold headless_item_match, pure_match. f_equal. Qed.

Lemma HeadlessRule_Match_frame env : ∀ t, keeps_frame (HeadlessRule_Match env) t.
Proof.
  apply tree_match_frame, abstractDefaultRule_Match_frame, headless_item_keeps_frame.
Qed.

Lemma HeadlessRule_Match_blind env t : no_ipcidr t = true → blind (HeadlessRule_Match env) t.
Proof.
  apply tree_match_blind. intros r _. apply abstractDefaultRule_Match_blind.
  intros it _. apply headless_item_blind.
Qed.

(** On a cache that was just reset, matching a headless rule of any shape answers exactly its
    documented meaning: a default rule that looks at anything is the conjunction of its groups of
    alternatives and of its other fields, negated by [invert] (one that looks at nothing matches),
    and a logical rule is the conjunction or the disjunction of its members, negated by
    [invert]. *)
Theorem headless_rule_meaning env (rule : HeadlessRule) c :
  (HeadlessRule_Match env rule (ResetRuleCache c)).1
  = tree_denotes (BasicItem_Match env) rule (ResetRuleCache c).
Proof.
  apply (tree_match_spec (BasicItem_Match env)).
  - intros it c1 c2. apply BasicItem_Match_ext.
  - destruct rule; [apply fresh_Reset|done].
Qed.

(** Whatever a headless rule does to the metadata is in the rule cache, never in
    [IgnoreDestinationIPCIDRMatch], and a logical rule gives the same answer from any cache. *)
Theorem headless_rule_frame env (rule : HeadlessRule) c :
  frame c (HeadlessRule_Match env rule c).2 ∧
  match rule with
  | TLogical _ => ∀ c', frame c c' →
      (HeadlessRule_Match env rule c').1 = (HeadlessRule_Match env rule c).1
  | TDefault _ => True
  end.
Proof.
  split; [apply HeadlessRule_Match_frame|]. destruct rule as [|r]; [done|]. intros c' Hc.
  unfold HeadlessRule_Match. cbn [tree_match].
  rewrite !logical_match_spec by (intros; apply HeadlessRule_Match_frame).
  by rewrite (frame_Reset_eq c c' Hc).
Qed.

(** A headless rule that is built holds every item it was given in exactly one group and in
    [allItems], keeps the [invert] of its options, and has an [ip_cidr] group exactly when the
    options have addresses or an IP set. *)
Theorem NewDefaultHeadlessRule_built nm options r :
  NewDefaultHeadlessRule nm options = Ok r →
  rule_wf r ∧ invert r = ho_Invert options ∧ action r = None ∧
  nonempty (destinationIPCIDRItems r) = isIPCIDRHeadlessRule options ∧
  nonempty (sourceAddressItems r)
    = nonempty (ho_SourceIPCIDR options) || negb (is_nil (ho_SourceIPSet options)) ∧
  nonempty (sourcePortItems r)
    = nonempty (ho_SourcePort options) || nonempty (ho_SourcePortRange options) ∧
  nonempty (destinationPortItems r)
    = nonempty (ho_Port options) || nonempty (ho_PortRange options) ∧
  nonempty (destinationAddressItems r)
    = nonempty (ho_Domain options) || nonempty (ho_DomainSuffix options)
      || negb (is_nil (ho_DomainMatcher options)) || nonempty (ho_DomainKeyword options)
      || nonempty (ho_DomainRegex options) || nonempty (ho_AdGuardDomain options)
      || negb (is_nil (ho_AdGuardDomainMatcher options)).
Proof.
  intros Hb%build_steps_built. split; [apply (built_wf _ _ _ Hb), rule_wf_new|].
  split; [apply (built_invert _ _ _ Hb)|]. split; [apply (built_action _ _ _ Hb)|].
  pose proof (λ g, built_nonempty _ _ _ g Hb) as Hne.
  pose proof (Hne GDestinationIPCIDR) as H1. pose proof (Hne GSourceAddress) as H2.
  pose proof (Hne GSourcePort) as H3. pose proof (Hne GDestinationPort) as H4.
  pose proof (Hne GDestinationAddress) as H5. clear Hne Hb.
  unfold headless_steps_addresses, headless_steps_process in *. rewrite existsb_app in *.
  cbn [existsb group] in *. rewrite !step_adds_or in *. cbn in *.
  rewrite H1, H2, H3, H4, H5, ?orb_false_r, ?orb_assoc. done.
Qed.

(** A headless rule whose only condition is [query_type] is accepted and matches every
    connection and every query: the constructor has no item for that field. *)
Theorem headless_query_type_ignored nm env qs l :
  NewHeadlessRule nm
    (mkOptionTree "default" (DefaultHeadlessOptions_zero <| ho_QueryType := qs |>) l)
  = (if nonempty qs then Ok (TDefault (new_rule false None))
     else Err (E_New [AStr "missing conditions"])) ∧
  ∀ c, HeadlessRule_Match env (TDefault (new_rule false None)) c = (true, c).
Proof. split; [|done]. destruct qs; [done|]. by destruct nm. Qed.

(** ** The summary of a rule set *)

Lemma NewHeadlessRule_no_ipcidr nm (o : HeadlessRuleOptions) t :
  tree_typed o = true → NewHeadlessRule nm o = Ok t →
  no_ipcidr t = negb (tree_has_rule isIPCIDRHeadlessRule o).
Proof.
  revert t. induction o as [type d l IH] using OptionTree_ind'. intros t.
  cbn [tree_typed NewHeadlessRule tree_has_rule].
  intros [Ht%negb_true_iff Hl]%andb_true_iff. rewrite Ht. cbn [orb].
  destruct (String.eqb_spec type "default") as [->|Hd].
  - destruct (negb (DefaultHeadlessRule_IsValid d)); [done|].
    destruct (NewDefaultHeadlessRule nm d) as [r| |] eqn:Hr; [|done..].
    intros [= <-]. cbn [no_ipcidr].
    assert (nonempty (destinationIPCIDRItems r) = isIPCIDRHeadlessRule d) as ->; [|done].
    apply build_steps_built in Hr. pose proof (built_nonempty _ _ _ GDestinationIPCIDR Hr) as H1.
    unfold headless_steps_addresses, headless_steps_process in H1. rewrite existsb_app in H1.
    cbn [existsb group] in H1. rewrite !step_adds_or in H1. cbn in H1.
    by rewrite H1, ?orb_false_r.
  - destruct (String.eqb type "logical"); [|done].
    destruct (Logical_IsValid _ _ l) as [[]| |]; cbn; try done.
    unfold NewLogicalHeadlessRule.
    destruct (logical_mode (lo_Mode l)) as [mode| |]; cbn; try done.
    destruct (mapi_res _ (lo_Rules l)) as [rules| |] eqn:Hrules; cbn; try done.
    intros [= <-]. cbn [no_ipcidr lr_rules].
    eapply mapi_res_forallb; [exact Hrules|]. intros i o t Hin Ho%wrap_err_Ok.
    apply (IH o Hin); [|done]. rewrite forallb_forall in Hl. by apply Hl, list_elem_of_In.
Qed.

(** The summary [reloadRules] keeps says that the set contains [ip_cidr] rules exactly when some
    default rule of the loaded set has a destination [ip_cidr] group; the tag, the references and
    the registered callbacks stay, and every callback is called. *)
Theorem reloadRules_summary nm (os : list HeadlessRuleOptions) s s' called :
  forallb tree_typed os = true → reloadRules nm os s = Ok (s', called) →
  ContainsIPCIDRRule (ls_metadata s') = negb (forallb no_ipcidr (ls_rules s')) ∧
  length (ls_rules s') = length os ∧
  called = ls_callbacks s ∧ ls_callbacks s' = ls_callbacks s ∧
  ls_tag s' = ls_tag s ∧ ls_refs s' = ls_refs s.
Proof.
  unfold reloadRules. intros Ht Hr.
  destruct (mapi_res _ os) as [rules| |] eqn:Hm; cbn in Hr; simplify_eq. cbn.
  split; [|split; [|done]].
  - unfold HasHeadlessRule.
    rewrite (mapi_res_forallb _ no_ipcidr (tree_has_rule isIPCIDRHeadlessRule) _ _ Hm);
      [by rewrite negb_involutive|]. intros i o t Hin Ho%wrap_err_Ok.
    apply NewHeadlessRule_no_ipcidr with nm; [|done].
    rewrite forallb_forall in Ht. by apply Ht, list_elem_of_In.
  - by apply mapi_res_from_Ok in Hm as [Hlen _].
Qed.

End HeadlessTheorems.


(** ** Concrete rule sets *)

Section Examples.

#[local] Instance ex_lib : ExtLib := SampleLib.
#[local] Instance ex_actions : ActionLib := SampleActions.

Definition idle_env : Env := mkEnv None [] [] None (mkWIFIState "" "") None (λ _, None).

(** The options of a rule on a domain, negated, and of one on an address range. *)
Definition domain_options : DefaultHeadlessOptions :=
  DefaultHeadlessOptions_zero <| ho_Domain := ["a.test"%string] |> <| ho_Invert := true |>.
Definition cidr_options : HeadlessRuleOptions :=
  mkOptionTree "default" (DefaultHeadlessOptions_zero <| ho_IPCIDR := ["10.0.0.0/8"%string] |>)
    (mkLogicalOptions "" [] false tt).

Lemma headless_rule_frame_witness :
  let rule := TLogical (mkLogicalRule [TDefault (new_rule true None)] "and" false None) in
  (HeadlessRule_Match idle_env rule
     (upd_cache (λ r, r <| SourceAddressMatch := true |>) InboundContext_zero)).1
  = (HeadlessRule_Match idle_env rule InboundContext_zero).1.
Proof.
  intros rule. destruct (headless_rule_frame idle_env rule InboundContext_zero) as [_ Hl].
  apply Hl. split; [apply same_request_upd|reflexivity].
Defined.

Lemma NewDefaultHeadlessRule_built_witness :
  ∃ r, NewDefaultHeadlessRule true domain_options = Ok r ∧
    invert r = true ∧ nonempty (destinationAddressItems r) = true ∧ rule_wf r.
Proof.
  destruct (NewDefaultHeadlessRule true domain_options) as [r|e|p] eqn:E; [|discriminate..].
  destruct (NewDefaultHeadlessRule_built true domain_options r E) as (Hw & Hi & _ & _ & _ & _ & _ & Hd).
  exists r. split; [reflexivity|]. rewrite Hi, Hd. done.
Defined.

Lemma reloadRules_summary_witness :
  ∃ s called, reloadRules true [cidr_options]
      (mkLocalRuleSet "lan" [] (mkRuleSetMetadata false false false) [3%nat] 1) = Ok (s, called) ∧
    ContainsIPCIDRRule (ls_metadata s) = negb (forallb no_ipcidr (ls_rules s)) ∧
    length (ls_rules s) = 1%nat ∧ called = [3%nat].
Proof.
  destruct (reloadRules true [cidr_options] _) as [[s called]|e|p] eqn:E; [|discriminate..].
  destruct (reloadRules_summary true [cidr_options] _ s called eq_refl E) as (H1 & H2 & H3 & _).
  exists s, called. split; [reflexivity|]. split; [exact H1|]. split; [exact H2|exact H3].
Defined.

End Examples.
