(* ===== verification/AdGuard.v ===== *)
(** * AdGuard DNS filters (common/convertor/adguard/convertor.go)

    A filter list is read line by line into rules of the headless form: blocked domains, exceptions,
    and the important ones of both, nested so that the important exceptions come first.  The domains
    keep their AdGuard syntax, which the matcher of the rule item understands. *)

From stdpp Require Import base gmap strings list numbers.
From S2P Require Import Prelude GoStd Chars Netip Adapter SetItems AddrItems RuleAction RuleOptions.
From S2P Require Import RuleItem RuleMatch RuleSet.

Local Open Scope Z_scope.

(** Of sing/common and sing/common/metadata. *)
Class AdGuardLib := {
  SubstringAfter : string → string → string;
  SubstringBefore : string → string → string;
  ParseAddr : string → Addr;
  ParseSocksaddrPort : string → Z
}.

(** [Addr.IsUnspecified] *)
Definition Addr_IsUnspecified (a : Addr) : bool :=
  bool_decide (a = Addr4 0) || bool_decide (a = Addr6 0 "").

(** [s[:len(s)-1]] *)
Definition chop (s : string) : string := str_take (String.length s - 1) s.

(** [strings.ReplaceAll(s, "*", "x")] *)
Definition replace_stars (s : string) : string :=
  string_map (λ c, if Ascii.eqb c "*" then "x"%char else c) s.

(** [common/convertor/adguard/convertor.go:20-29] agdguardRuleLine *)
Record agdguardRuleLine : Type := mkRuleLine {
  ruleLine : string;
  isRawDomain : bool;
  isExclude : bool;
  isSuffix : bool;
  hasStart : bool;
  hasEnd : bool;
  isRegexp : bool;
  isImportant : bool
}.
#[global] Instance agdguardRuleLine_eq_dec : EqDecision agdguardRuleLine.
Proof. solve_decision. Defined.

(** What becomes of a line: nothing (a comment, or a host that is not blocked), a line that is counted
    as ignored, or a rule. *)
Inductive LineResult : Type :=
| L_Skip
| L_Ignored
| L_Rule (r : agdguardRuleLine).

Section AdGuard.
Context `{ExtLib} `{ActionLib} `{AdGuardLib}.

(** [common/convertor/adguard/convertor.go:404-414] ignoreIPCIDRRegexp *)
Definition ignoreIPCIDRRegexp (ruleLine : string) : bool :=
  let ruleLine :=
    if strings_HasPrefix ruleLine "(http?:\/\/)" then str_drop 12 ruleLine
    else if strings_HasPrefix ruleLine "(https?:\/\/)" then str_drop 13 ruleLine
    else if strings_HasPrefix ruleLine "^" then str_drop 1 ruleLine
    else ruleLine in
  is_ok (ParseUint10 (SubstringBefore ruleLine "\.") 8) ||
  is_ok (ParseUint10 (SubstringBefore ruleLine ".") 8).

(** [common/convertor/adguard/convertor.go:416-433] parseAdGuardHostLine *)
Definition parseAdGuardHostLine (ruleLine : string) : res string :=
  match String.index 0 " " ruleLine with
  | None => Err os_ErrInvalid
  | Some idx =>
      address ← netip_ParseAddr (str_take idx ruleLine);
      if negb (Addr_IsUnspecified address) then Ok ""%string else
      let domain := str_drop (idx + 1) ruleLine in
      if negb (IsDomainName domain)
      then Err (E_New [AStr "invalid domain name: "; AStr domain]) else Ok domain
  end.

(** [common/convertor/adguard/convertor.go:445-452] parseADGuardIPCIDRLine (parts) *)
Definition parse_parts (parts : list string) : res (list Z) :=
  mapi_res (λ _ part, ParseUint10 part 8) parts.

(** [common/convertor/adguard/convertor.go:435-458] parseADGuardIPCIDRLine *)
Definition parseADGuardIPCIDRLine (ruleLine : string) : res Prefix :=
  let isPrefix := strings_HasSuffix ruleLine "." in
  let ruleLine := if isPrefix then chop ruleLine else ruleLine in
  let ruleStringParts := strings_Split "." ruleLine in
  if Nat.ltb 4 (length ruleStringParts) ||
     (Nat.ltb (length ruleStringParts) 4 && negb isPrefix)
  then Err os_ErrInvalid else
  ruleParts ← parse_parts ruleStringParts;
  let bitLen := Z.of_nat (length ruleParts) * 8 in
  let padded := ruleParts ++ replicate (4 - length ruleParts) 0 in
  Ok (PrefixFrom (Addr4 (fold_left (λ acc b, acc * 256 + b) padded 0)) bitLen).

(** A modifier: whether it is one that can be ignored, and whether it is "important".

    [common/convertor/adguard/convertor.go:80-96] ToOptions (modifier) *)
Definition parse_modifier (param : string) : bool * bool :=
  match strings_Split "=" param with
  | [name] => if String.eqb name "important" then (true, true) else (false, false)
  | [name; value] =>
      if String.eqb name "important" then (true, true) else
      if String.eqb name "dnsrewrite" && Addr_IsUnspecified (ParseAddr value)
      then (true, false) else (false, false)
  | _ => (false, false)
  end.

(** [None] when a modifier is not supported.

    [common/convertor/adguard/convertor.go:79-102] ToOptions (modifiers) *)
Fixpoint parse_modifiers (params : list string) (isImportant : bool) : option bool :=
  match params with
  | [] => Some isImportant
  | param :: rest =>
      let '(ignored, important) := parse_modifier param in
      if ignored then parse_modifiers rest (isImportant || important) else None
  end.

(** The modifiers after the dollar sign, and the line without them.

    [common/convertor/adguard/convertor.go:77-104] ToOptions (dollar) *)
Definition split_modifiers (ruleLine : string) : option (string * bool) :=
  if negb (strings_HasPrefix ruleLine "/") && strings_Contains ruleLine "$" then
    isImportant ← parse_modifiers (strings_Split "," (SubstringAfter ruleLine "$")) false;
    Some (SubstringBefore ruleLine "$", isImportant)
  else Some (ruleLine, false).

(** The marks around the pattern.

    [common/convertor/adguard/convertor.go:105-122] ToOptions (marks) *)
Definition split_marks (ruleLine : string) : agdguardRuleLine :=
  let isExclude := strings_HasPrefix ruleLine "@@" in
  let ruleLine := if isExclude then str_drop 2 ruleLine else ruleLine in
  let ruleLine := if strings_HasSuffix ruleLine "|" then chop ruleLine else ruleLine in
  let isSuffix := strings_HasPrefix ruleLine "||" in
  let hasStart := negb isSuffix && strings_HasPrefix ruleLine "|" in
  let ruleLine := if isSuffix then str_drop 2 ruleLine
                  else if hasStart then str_drop 1 ruleLine else ruleLine in
  let hasEnd := strings_HasSuffix ruleLine "^" in
  let ruleLine := if hasEnd then chop ruleLine else ruleLine in
  mkRuleLine ruleLine false isExclude isSuffix hasStart hasEnd false false.

(** A domain pattern: whether it is supported.

    [common/convertor/adguard/convertor.go:136-185] ToOptions (checks) *)
Definition supported_pattern (ruleLine : string) : bool :=
  if strings_Contains ruleLine "/" then false else
  if strings_Contains ruleLine "?" || strings_Contains ruleLine "&" then false else
  if strings_Contains ruleLine "[" || strings_Contains ruleLine "]" ||
     strings_Contains ruleLine "(" || strings_Contains ruleLine ")" ||
     strings_Contains ruleLine "!" || strings_Contains ruleLine "#" then false else
  if strings_Contains ruleLine "~" then false else
  let domainCheck :=
    if strings_HasPrefix ruleLine "." || strings_HasPrefix ruleLine "-"
    then "r" +:+ ruleLine else ruleLine in
  if String.eqb ruleLine "" then false else IsDomainName (replace_stars domainCheck).

(** [common/convertor/adguard/convertor.go:123-195] ToOptions (pattern) *)
Definition parse_pattern (r : agdguardRuleLine) (isImportant : bool) : res LineResult :=
  let line := ruleLine r in
  if strings_HasPrefix line "/" && strings_HasSuffix line "/" then
    if Nat.leb (String.length line) 1 then Panic [AStr "slice bounds out of range"] else
    let line := str_drop 1 (chop line) in
    if ignoreIPCIDRRegexp line then Ok L_Ignored
    else Ok (L_Rule (mkRuleLine line false (isExclude r) (isSuffix r) (hasStart r) (hasEnd r)
                       true isImportant))
  else
    let scheme := strings_Contains line "://" in
    let line := if scheme then SubstringAfter line "://" else line in
    if supported_pattern line
    then Ok (L_Rule (mkRuleLine line false (isExclude r) (isSuffix r || scheme) (hasStart r)
                       (hasEnd r) false isImportant))
    else Ok L_Ignored.

(** [common/convertor/adguard/convertor.go:39-196] ToOptions (line) *)
Definition parse_line (line : string) : res LineResult :=
  if String.eqb line "" then Ok L_Skip else
  if strings_HasPrefix line "!" || strings_HasPrefix line "#" then Ok L_Skip else
  if IsDomainName line then Ok (L_Rule (mkRuleLine line true false false false false false false)) else
  match parseAdGuardHostLine line with
  | Ok hostLine =>
      if String.eqb hostLine "" then Ok L_Skip
      else Ok (L_Rule (mkRuleLine hostLine true false false true true false false))
  | Panic p => Panic p
  | Err _ =>
      let line := if strings_HasSuffix line "|" then chop line else line in
      match split_modifiers line with
      | None => Ok L_Ignored
      | Some (line, isImportant) => parse_pattern (split_marks line) isImportant
      end
  end.

(** The rules of the lines, in order.

    [common/convertor/adguard/convertor.go:37-196] ToOptions (loop) *)
Fixpoint parse_lines (lines : list string) : res (list agdguardRuleLine) :=
  match lines with
  | [] => Ok []
  | line :: rest =>
      r ← parse_line line;
      rules ← parse_lines rest;
      Ok (match r with L_Rule rule => rule :: rules | _ => rules end)
  end.

(** [common/convertor/adguard/convertor.go:214-225] ToOptions (mapDomain) *)
Definition mapDomain (it : agdguardRuleLine) : string :=
  let line := if isSuffix it then "||" +:+ ruleLine it
              else if hasStart it then "|" +:+ ruleLine it else ruleLine it in
  if hasEnd it then line +:+ "^" else line.

(** The lines of a kind, in their AdGuard form.

    [common/convertor/adguard/convertor.go:227-234] ToOptions (kinds) *)
Definition lines_of (important regexp exclude : bool) (ruleLines : list agdguardRuleLine)
    : list string :=
  mapDomain <$> List.filter (λ it, Bool.eqb (isImportant it) important &&
    Bool.eqb (isRegexp it) regexp && Bool.eqb (isExclude it) exclude) ruleLines.

(** [option.HeadlessRule] of type default and of type logical. *)
Definition default_rule (d : DefaultHeadlessOptions) : HeadlessRuleOptions :=
  mkOptionTree "default" d (mkLogicalOptions "" [] false tt).
Definition logical_rule (mode : string) (rules : list HeadlessRuleOptions) : HeadlessRuleOptions :=
  mkOptionTree "logical" DefaultHeadlessOptions_zero (mkLogicalOptions mode rules false tt).

Definition domain_options (domain regex : list string) (invert : bool) : DefaultHeadlessOptions :=
  DefaultHeadlessOptions_zero <| ho_AdGuardDomain := domain |> <| ho_DomainRegex := regex |>
    <| ho_Invert := invert |>.

(** One layer around the rule: left out when it has no lines.

    [common/convertor/adguard/convertor.go:242-260] ToOptions (layer) *)
Definition wrap_layer (mode : string) (invert : bool) (domain regex : list string)
    (currentRule : HeadlessRuleOptions) : HeadlessRuleOptions :=
  if nonempty domain || nonempty regex
  then logical_rule mode [default_rule (domain_options domain regex invert); currentRule]
  else currentRule.

(** [common/convertor/adguard/convertor.go:227-297] ToOptions (rule) *)
Definition adguard_rule (ruleLines : list agdguardRuleLine) : HeadlessRuleOptions :=
  wrap_layer "and" true (lines_of true false true ruleLines) (lines_of true true true ruleLines)
    (wrap_layer "or" false (lines_of true false false ruleLines) (lines_of true true false ruleLines)
      (wrap_layer "and" true (lines_of false false true ruleLines) (lines_of false true true ruleLines)
        (default_rule (domain_options (lines_of false false false ruleLines)
                         (lines_of false true false ruleLines) false)))).

(** [common/convertor/adguard/convertor.go:31-302] ToOptions *)
Definition ToOptions (lines : list string) : res (list HeadlessRuleOptions) :=
  ruleLines ← parse_lines lines;
  if Nat.eqb (length ruleLines) 0
  then Err (E_New [AStr "AdGuard rule-set is empty or all rules are unsupported"]) else
  if forallb isRawDomain ruleLines
  then Ok [default_rule (DefaultHeadlessOptions_zero <| ho_Domain := ruleLine <$> ruleLines |>)]
  else Ok [adguard_rule ruleLines].

(** [common/convertor/adguard/convertor.go:304] ErrInvalid *)
Definition ErrInvalid : error := E_New [AStr "invalid binary AdGuard rule-set"].

(** The lines of a rule by kind: important, important exceptions, blocked, exceptions; domains and
    regular expressions of each. *)
Record Kinds : Type := mkKinds {
  k_important : list string * list string;
  k_importantExclude : list string * list string;
  k_domain : list string * list string;
  k_exclude : list string * list string
}.

Definition no_lines (l : list string * list string) : bool :=
  Nat.eqb (length l.1 + length l.2) 0.

(** The loop over the layers; [None] when it does not end, as for a type that is neither.

    [common/convertor/adguard/convertor.go:321-360] FromOptions (parse) *)
Fixpoint read_layers (rule : HeadlessRuleOptions) (k : Kinds) : option (res Kinds) :=
  let '(mkOptionTree type d l) := rule in
  if String.eqb type "logical" then
    match lo_Rules l with
    | [mkOptionTree type0 d0 _; rule1] =>
        if negb (String.eqb type0 "default") then Some (Err ErrInvalid) else
        let lines := (ho_AdGuardDomain d0, ho_DomainRegex d0) in
        if String.eqb (lo_Mode l) "and" && ho_Invert d0 then
          if no_lines (k_importantExclude k) then
            if no_lines lines then Some (Err ErrInvalid)
            else read_layers rule1 (mkKinds (k_important k) lines (k_domain k) (k_exclude k))
          else
            if no_lines lines then Some (Err ErrInvalid)
            else read_layers rule1 (mkKinds (k_important k) (k_importantExclude k) (k_domain k) lines)
        else if String.eqb (lo_Mode l) "or" && negb (ho_Invert d0) then
          if no_lines lines then Some (Err ErrInvalid)
          else read_layers rule1 (mkKinds lines (k_importantExclude k) (k_domain k) (k_exclude k))
        else Some (Err ErrInvalid)
    | _ => Some (Err ErrInvalid)
    end
  else if String.eqb type "default" then
    let lines := (ho_AdGuardDomain d, ho_DomainRegex d) in
    if no_lines lines then Some (Err ErrInvalid)
    else Some (Ok (mkKinds (k_important k) (k_importantExclude k) lines (k_exclude k)))
  else None.

(** The lines that are written for a kind.

    [common/convertor/adguard/convertor.go:362-371] FromOptions (output) *)
Definition write_kind (mark modifier : string) (l : list string * list string) : list string :=
  ((λ line, mark +:+ line +:+ modifier) <$> l.1) ++
  ((λ line, mark +:+ "/" +:+ line +:+ "/" +:+ modifier) <$> l.2).

(** [common/convertor/adguard/convertor.go:361-401] FromOptions (write) *)
Definition write_lines (k : Kinds) : list string :=
  write_kind "" "$important" (k_important k) ++ write_kind "@@" "$important" (k_importantExclude k) ++
  write_kind "" "" (k_domain k) ++ write_kind "@@" "" (k_exclude k).

(** The lines, each of which the code ends with a newline.

    [common/convertor/adguard/convertor.go:306-402] FromOptions *)
Definition FromOptions (rules : list HeadlessRuleOptions) : option (res (list string)) :=
  match rules with
  | [rule] =>
      match read_layers rule (mkKinds ([], []) ([], []) ([], []) ([], [])) with
      | Some (Ok k) => Some (Ok (write_lines k))
      | Some (Err e) => Some (Err e)
      | Some (Panic p) => Some (Panic p)
      | None => None
      end
  | _ => Some (Err ErrInvalid)
  end.

End AdGuard.

(** ** What the rules mean *)

Section Meaning.
Context `{ExtLib} `{ActionLib}.





Lemma existsb_andb {A} (b : bool) (f : A → bool) l :
  existsb (λ x, b && f x) l = b && existsb f l.
Proof. destruct b; [done|]. by induction l. Qed.





Context `{AdGuardLib}.

(** The lines of a kind, domains and regular expressions. *)
Definition kind_lines (important exclude : bool) (l : list agdguardRuleLine)
    : list string * list string := (lines_of important false exclude l, lines_of important true exclude l).


(** Without a line that is neither important nor an exception there is no rule to start from: the rule
    that is made is not valid. *)
Lemma only_exceptions_invalid lines ruleLines nm e :
  parse_lines lines = Ok ruleLines → ruleLines ≠ [] → forallb isRawDomain ruleLines = false →
  no_lines (kind_lines false false ruleLines) = true →
  no_lines (kind_lines true true ruleLines) = true → no_lines (kind_lines true false ruleLines) = true →
  kind_lines false true ruleLines = ([e], []) →
  ∃ options, ToOptions lines = Ok [options] ∧
    NewHeadlessRule nm options = Err (E_New [AStr "missing conditions"]).
Proof.
  intros Hp Hnil Hraw Hk1 Hk2 Hk3 Hk4. exists (adguard_rule ruleLines). split.
  { unfold ToOptions. rewrite Hp. cbn [mbind res_bind]. rewrite Hraw. by destruct ruleLines. }
  unfold adguard_rule, no_lines, kind_lines in *. cbn [fst snd] in *. injection Hk4 as -> ->.
  destruct (lines_of false false false ruleLines), (lines_of false true false ruleLines); try done.
  destruct (lines_of true false true ruleLines), (lines_of true true true ruleLines); try done.
  destruct (lines_of true false false ruleLines), (lines_of true true false ruleLines); done.
Qed.

(** *** Back to lines *)

Lemma no_lines_nonempty l : no_lines l = negb (nonempty l.1 || nonempty l.2).
Proof. by destruct l as [[|] [|]]. Qed.

Lemma no_lines_eq l : no_lines l = true → l = ([], []).
Proof. by destruct l as [[|] [|]]. Qed.

Lemma read_layer mode inv l cur k :
  read_layers (wrap_layer mode inv l.1 l.2 cur) k =
    if no_lines l then read_layers cur k else
    if String.eqb mode "and" && inv then
      if no_lines (k_importantExclude k)
      then read_layers cur (mkKinds (k_important k) l (k_domain k) (k_exclude k))
      else read_layers cur (mkKinds (k_important k) (k_importantExclude k) (k_domain k) l)
    else if String.eqb mode "or" && negb inv
    then read_layers cur (mkKinds l (k_importantExclude k) (k_domain k) (k_exclude k))
    else Some (Err ErrInvalid).
Proof.
  unfold wrap_layer. rewrite (no_lines_nonempty l).
  destruct (nonempty l.1 || nonempty l.2) eqn:E; [|done]. cbn -[read_layers].
  assert (no_lines l = false) as Hl by (by rewrite no_lines_nonempty, E).
  unfold logical_rule. destruct l as [d r]. cbn -[no_lines]. by rewrite Hl.
Qed.

Lemma read_three l1 l2 l3 l4 d :
  (∀ k, read_layers d k = Some (Ok (mkKinds (k_important k) (k_importantExclude k) l4 (k_exclude k)))) →
  read_layers (wrap_layer "and" true l1.1 l1.2 (wrap_layer "or" false l2.1 l2.2
    (wrap_layer "and" true l3.1 l3.2 d))) (mkKinds ([], []) ([], []) ([], []) ([], [])) =
  Some (Ok (if no_lines l1 then mkKinds l2 l3 l4 ([], []) else mkKinds l2 l1 l4 l3)).
Proof.
  intros Hd. rewrite read_layer. cbn -[no_lines wrap_layer read_layers].
  destruct (no_lines l1) eqn:E1; [|change (no_lines ([], [])) with true; cbn iota];
    (rewrite read_layer; cbn -[no_lines wrap_layer read_layers];
     destruct (no_lines l2) eqn:E2; cbn -[no_lines wrap_layer read_layers];
     rewrite read_layer; cbn -[no_lines read_layers];
     destruct (no_lines l3) eqn:E3; cbn -[no_lines read_layers]; rewrite ?E1;
     change (no_lines ([], [])) with true; cbn iota; rewrite Hd; cbn;
     rewrite ?(no_lines_eq _ E2), ?(no_lines_eq _ E3); done).
Qed.

(** Reading the layers of a converted list gives back its lines by kind; but when it has no
    important exception, its exceptions come back as important ones. *)
Theorem read_layers_kinds ruleLines :
  no_lines (kind_lines false false ruleLines) = false →
  read_layers (adguard_rule ruleLines) (mkKinds ([], []) ([], []) ([], []) ([], [])) =
    Some (Ok (
      if no_lines (kind_lines true true ruleLines)
      then mkKinds (kind_lines true false ruleLines) (kind_lines false true ruleLines)
             (kind_lines false false ruleLines) ([], [])
      else mkKinds (kind_lines true false ruleLines) (kind_lines true true ruleLines)
             (kind_lines false false ruleLines) (kind_lines false true ruleLines))).
Proof.
  intros Hne. apply (read_three (kind_lines true true ruleLines) (kind_lines true false ruleLines)
    (kind_lines false true ruleLines) (kind_lines false false ruleLines)).
  intros k. unfold kind_lines in Hne |- *. cbn -[no_lines]. by rewrite Hne.
Qed.

End Meaning.

(** ** The last character of a line *)

Lemma chop_snoc a x : chop (a +:+ String x "") = a.
Proof.
  unfold chop. rewrite string_length_snoc.
  replace (S (String.length a) - 1)%nat with (String.length a) by lia. apply str_take_app.
Qed.

(** ** The syntax of a domain line *)

Section Lines.
Context `{ExtLib} `{ActionLib} `{AdGuardLib}.
(** [SubstringBefore] and [SubstringAfter] cut at the first occurrence. *)
Hypothesis Hbefore : ∀ a b, free_of ["$"%char] a = true →
  SubstringBefore (a +:+ String "$" b) "$" = a.
Hypothesis Hafter : ∀ a b, free_of ["$"%char] a = true →
  SubstringAfter (a +:+ String "$" b) "$" = b.

(** The characters that mean something in a line. *)
Definition specials : list ascii :=
  ["|"; "^"; "$"; "@"; "/"; "?"; "&"; "["; "]"; "("; ")"; "!"; "#"; "~"; " "; ":"]%char.

(** A domain pattern: stars aside, a domain name. *)
Record pattern_ok (p : string) : Prop := {
  po_nonempty : p ≠ ""%string;
  po_free : free_of specials p = true;
  po_domain : IsDomainName (replace_stars
    (if strings_HasPrefix p "." || strings_HasPrefix p "-" then "r" +:+ p else p)) = true
}.

(** The line [FromOptions] writes for a rule over a domain. *)
Definition print_line (r : agdguardRuleLine) : string :=
  (if isExclude r then "@@" else "") +:+ mapDomain r +:+
  (if isImportant r then "$important" else "").

Lemma free_special p x : free_of specials p = true → x ∈ specials → free_of [x] p = true.
Proof. intros Hp Hx. by apply (free_of_elem specials). Qed.

Lemma supported_ok p : pattern_ok p → supported_pattern p = true.
Proof.
  intros [Hn Hf Hd]. unfold supported_pattern.
  rewrite !Contains_free by (apply (free_special p _ Hf); in_list). cbn.
  destruct (String.eqb_spec p "") as [->|]; [done|]. exact Hd.
Qed.

(** The text before the modifiers. *)
Definition marked (r : agdguardRuleLine) : string := (if isExclude r then "@@" else "") +:+ mapDomain r.

(** The end of the text: never empty, and without bars. *)
Lemma mapDomain_end r : pattern_ok (ruleLine r) →
  ∃ a s, mapDomain r = a +:+ s ∧ s ≠ ""%string ∧ free_of ["|"; "$"; "/"]%char s = true.
Proof.
  intros [Hn Hf _]. unfold mapDomain.
  set (pre := if isSuffix r then "||"%string else if hasStart r then "|"%string else ""%string).
  assert ((if isSuffix r then "||" +:+ ruleLine r else if hasStart r then "|" +:+ ruleLine r
           else ruleLine r) = pre +:+ ruleLine r) as -> by (unfold pre; by destruct (isSuffix r), (hasStart r)).
  destruct (hasEnd r).
  - exists (pre +:+ ruleLine r), "^"%string. done.
  - exists pre, (ruleLine r). split_and!; [done|done|].
    assert (∀ l, l ⊆ specials → free_of l (ruleLine r) = true) as Hs; [|apply Hs; apply (bool_decide_unpack _); vm_compute; exact I].
    intros l Hl. clear -Hf Hl. induction (ruleLine r) as [|c s IH]; [done|].
    rewrite free_of_cons in *. apply andb_true_iff in Hf as [Hc Hs]. rewrite (IH Hs), andb_true_r.
    apply negb_true_iff in Hc. apply negb_true_iff. apply not_true_iff_false. intros (x & Hx & He)%existsb_exists.
    apply not_true_iff_false in Hc. apply Hc. apply existsb_exists. exists x. split; [|done].
    apply list_elem_of_In, Hl. by apply list_elem_of_In.
Qed.

Lemma mapDomain_free r x : pattern_ok (ruleLine r) → x ∈ specials → x ≠ "|"%char → x ≠ "^"%char →
  free_of [x] (mapDomain r) = true.
Proof.
  intros [_ Hf _] Hx Hb Hk. pose proof (free_special _ x Hf Hx) as Hp.
  assert (∀ y, x ≠ y → free_of [x] (String y "") = true) as Hc.
  { intros y Hy. rewrite free_of_cons. cbn. rewrite orb_false_r, andb_true_r.
    apply negb_true_iff. by apply Ascii.eqb_neq. }
  unfold mapDomain. destruct (isSuffix r), (hasStart r), (hasEnd r);
    rewrite ?free_of_app, ?Hp, ?(Hc "^"%char), ?andb_true_r by done; try done;
    change "||"%string with ("|" +:+ "|"); rewrite ?free_of_app, ?(Hc "|"%char) by done; done.
Qed.

Lemma marked_free r x : pattern_ok (ruleLine r) → x ∈ specials → x ≠ "|"%char → x ≠ "^"%char →
  x ≠ "@"%char → free_of [x] (marked r) = true.
Proof.
  intros Hp Hx Hb Hk Ha. unfold marked. rewrite free_of_app, (mapDomain_free r x) by done.
  rewrite andb_true_r. destruct (isExclude r); [|done].
  
  assert (("@" =? x)%char = false) as Hax by (by apply Ascii.eqb_neq; intros <-).
  unfold free_of. cbn -[Ascii.eqb]. by rewrite Hax.
Qed.

Lemma marked_nonempty r : pattern_ok (ruleLine r) → marked r ≠ ""%string.
Proof.
  intros Hp. destruct (mapDomain_end r Hp) as (a & s & Hm & Hs & _). unfold marked. rewrite Hm.
  by do 2 apply app_not_empty.
Qed.

Lemma split_modifiers_print r : pattern_ok (ruleLine r) →
  split_modifiers (print_line r) = Some (marked r, isImportant r).
Proof.
  intros Hp. assert (print_line r = marked r +:+ (if isImportant r then "$important" else "")) as ->
    by (unfold print_line, marked; by rewrite string_app_assoc).
  pose proof (marked_free r "$" Hp ltac:(in_list) ltac:(done) ltac:(done) ltac:(done)) as Hd.
  unfold split_modifiers.
  rewrite (HasPrefix_free "/" "" (marked r)) by
    (apply (marked_nonempty r Hp) || (apply marked_free; [done|in_list|done..])). cbn [negb andb].
  destruct (isImportant r).
  - change "$important"%string with (String "$" "important").
    rewrite Contains_char, Hafter, Hbefore by done. done.
  - rewrite app_empty_r, (Contains_free "$" "") by done. done.
Qed.

Lemma split_marks_print r : isRawDomain r = false → isRegexp r = false → isImportant r = false →
  isSuffix r && hasStart r = false → pattern_ok (ruleLine r) → split_marks (marked r) = r.
Proof.
  intros Hraw Hre Himp Hss Hp. destruct (mapDomain_end r Hp) as (a & s & Hm & Hs & Hfs).
  assert (free_of ["|"%char] s = true) as Hbar by (apply (free_of_elem ["|"; "$"; "/"]%char); [in_list|done]).
  assert (strings_HasPrefix (marked r) "@@" = isExclude r ∧
    (if isExclude r then str_drop 2 (marked r) else marked r) = mapDomain r) as [He Hr].
  { unfold marked. destruct (isExclude r).
    - split; [apply HasPrefix_app|]. apply (str_drop_app "@@").
    - change ("" +:+ mapDomain r) with (mapDomain r). split; [|done].
      rewrite <-(app_empty_r (mapDomain r)). apply HasPrefix_free.
      + rewrite Hm. by apply app_not_empty.
      + by apply mapDomain_free; [done|in_list|..]. }
  unfold split_marks. rewrite He, Hr, Hm, HasSuffix_free by done. rewrite <-Hm. clear a s Hm Hs Hfs Hbar He Hr.
  destruct Hp as [Hn Hf _]. destruct r as [p raw ex suf st en re im]. cbn in *. subst raw re im.
  set (t := if en then p +:+ "^" else p).
  assert (mapDomain (mkRuleLine p false ex suf st en false false)
    = (if suf then "||" else if st then "|" else "") +:+ t) as ->.
  { unfold mapDomain, t. cbn. by destruct suf, st, en; rewrite ?string_app_assoc. }
  assert (t ≠ ""%string ∧ free_of ["|"%char] t = true) as [Hnt Hft].
  { unfold t. pose proof (free_special p "|" Hf ltac:(in_list)) as Hb.
    destruct en; [|done]. rewrite free_of_app, Hb. split; [by apply app_not_empty|done]. }
  assert (strings_HasPrefix t "||" = false ∧ strings_HasPrefix t "|" = false ∧
    strings_HasPrefix ("|" +:+ t) "||" = false) as (Hn1 & Hn2 & Hn3).
  { split_and!; try (rewrite <-(app_empty_r t); by apply HasPrefix_free).
    unfold strings_HasPrefix. cbn. pose proof (HasPrefix_free "|" "" t "" Hnt Hft) as Hh.
    rewrite app_empty_r in Hh. exact Hh. }
  assert (strings_HasSuffix t "^" = en ∧ (if en then chop t else t) = p) as [He Hc].
  { unfold t. destruct en; [by rewrite HasSuffix_char, chop_snoc|]. split; [|done].
    change p with ("" +:+ p). apply HasSuffix_free; [done|]. apply (free_special p _ Hf). in_list. }
  destruct suf, st; try done;
    [change (strings_HasPrefix ("||" +:+ t) "||") with (strings_HasPrefix ("||" +:+ t) "||");
     rewrite HasPrefix_app; cbn [negb andb]; change 2%nat with (String.length "||"); rewrite (str_drop_app "||" t)
    |rewrite Hn3, HasPrefix_app; cbn [negb andb]; change 1%nat with (String.length "|"); rewrite (str_drop_app "|" t)
    |change ("" +:+ t) with t; rewrite Hn1, Hn2; cbn [negb andb]]; by rewrite He, Hc.
Qed.

(** A line that is written for a domain rule is read as that rule: its exception and importance, the
    bars before it and the caret after it. *)
Theorem parse_print r :
  isRawDomain r = false → isRegexp r = false → isSuffix r && hasStart r = false →
  pattern_ok (ruleLine r) → IsDomainName (print_line r) = false →
  parse_line (print_line r) = Ok (L_Rule r).
Proof.
  intros Hraw Hre Hss Hp Hnd.
  set (r0 := mkRuleLine (ruleLine r) false (isExclude r) (isSuffix r) (hasStart r) (hasEnd r) false false).
  assert (split_marks (marked r) = r0) as Hmarks by (apply (split_marks_print r0); done).
  assert (print_line r = marked r +:+ (if isImportant r then "$important" else "")) as Hpr
    by (unfold print_line, marked; by rewrite string_app_assoc).
  assert (∀ x sub, x ∈ specials → x ≠ "|"%char → x ≠ "^"%char → x ≠ "@"%char →
    strings_HasPrefix (print_line r) (String x sub) = false) as Hpre.
  { intros x sub Hx Hb Hk Ha. rewrite Hpr.
    apply HasPrefix_free; [by apply marked_nonempty|by apply marked_free]. }
  assert (free_of [" "%char] (print_line r) = true) as Hsp.
  { rewrite Hpr, free_of_app, (marked_free r " ") by (done || in_list). by destruct (isImportant r). }
  assert (strings_HasSuffix (print_line r) "|" = false) as Hsuf.
  { destruct (mapDomain_end r Hp) as (a & s & Hm & Hs & Hfs).
    rewrite Hpr. destruct (isImportant r); [by apply HasSuffix_free|].
    rewrite app_empty_r. unfold marked. rewrite Hm, string_app_assoc. apply HasSuffix_free; [done|].
    apply (free_of_elem ["|"; "$"; "/"]%char); [in_list|done]. }
  unfold parse_line. destruct (String.eqb_spec (print_line r) "") as [He|_].
  { rewrite Hpr in He. destruct (marked r) eqn:E; [by destruct (marked_nonempty r Hp)|done]. }
  rewrite !Hpre, Hnd by (done || in_list). cbn [orb]. unfold parseAdGuardHostLine.
  rewrite (index_free " " "") by done. rewrite Hsuf, split_modifiers_print, Hmarks by done.
  unfold parse_pattern, r0. cbn [ruleLine isExclude isSuffix hasStart hasEnd].
  destruct Hp as [Hn Hf Hd]. pose proof (free_special _ "/" Hf ltac:(in_list)) as Hsl.
  assert (strings_HasPrefix (ruleLine r) "/" = false) as -> by
    (rewrite <-(app_empty_r (ruleLine r)); by apply HasPrefix_free).
  cbn [andb]. rewrite (Contains_free ":" "//") by (apply (free_special _ _ Hf); in_list).
  rewrite supported_ok by (by split). rewrite orb_false_r. destruct r. cbn in *. by subst.
Qed.

End Lines.

(** ** Filter lists

    What a filter list is, apart from how it is read: its lines with their text and their meaning. *)

Section Filters.
Context `{ExtLib} `{ActionLib} `{AdGuardLib}.
Hypothesis Hbefore : ∀ a b, free_of ["$"%char] a = true →
  SubstringBefore (a +:+ String "$" b) "$" = a.
Hypothesis Hafter : ∀ a b, free_of ["$"%char] a = true →
  SubstringAfter (a +:+ String "$" b) "$" = b.

Inductive Anchor : Type := A_None | A_Start | A_Suffix.

(** A line: empty, a comment, the name of a domain, a host with its address, a rule over a domain
    pattern (an exception, important, its bars and its caret), and a rule over a regular expression. *)
Inductive FilterLine : Type :=
| F_Blank
| F_Comment (mark : ascii) (text : string)
| F_Plain (domain : string)
| F_Host (address : string) (unspecified : bool) (domain : string)
| F_Rule (exclude important : bool) (anchor : Anchor) (pattern : string) (caret : bool)
| F_Regexp (exclude : bool) (re : string).

Definition anchor_text (a : Anchor) : string :=
  match a with A_None => "" | A_Start => "|" | A_Suffix => "||" end.

(** The pattern in the syntax of AdGuard. *)
Definition pattern_text (a : Anchor) (pattern : string) (caret : bool) : string :=
  anchor_text a +:+ pattern +:+ (if caret then "^" else "").

(** The line as it is written. *)
Definition line_text (l : FilterLine) : string :=
  match l with
  | F_Blank => ""
  | F_Comment mark text => String mark text
  | F_Plain domain => domain
  | F_Host address _ domain => address +:+ String " " domain
  | F_Rule exclude important a pattern caret =>
      (if exclude then "@@" else "") +:+ pattern_text a pattern caret +:+
      (if important then "$important" else "")
  | F_Regexp exclude re => (if exclude then "@@" else "") +:+ "/" +:+ re +:+ "/"
  end.




















End Filters.

(** ** A concrete list *)

Section Examples.

#[local] Instance ex_lib : ExtLib := SampleLib.
#[local] Instance ex_actions : ActionLib := SampleActions.

(** The cuts of sing/common; an address is unspecified when it is written as zero. *)
#[local] Instance ex_adguard : AdGuardLib := {|
  SubstringAfter s sub :=
    match String.index 0 sub s with Some n => str_drop (n + String.length sub) s | None => s end;
  SubstringBefore s sub := match String.index 0 sub s with Some n => str_take n s | None => s end;
  ParseAddr s := if String.eqb s "0.0.0.0" then Addr4 0 else AddrInvalid;
  ParseSocksaddrPort _ := 0
|}.

Lemma ex_before a b : free_of ["$"%char] a = true → SubstringBefore (a +:+ String "$" b) "$" = a.
Proof. intros Ha. cbn. rewrite index_char_app by (by apply index_free). apply str_take_app. Qed.

Lemma ex_after a b : free_of ["$"%char] a = true → SubstringAfter (a +:+ String "$" b) "$" = b.
Proof.
  intros Ha. cbn -[str_drop]. rewrite index_char_app by (by apply index_free).
  change (String "$" b) with ("$" +:+ b). rewrite string_app_assoc.
  rewrite <-(str_drop_app (a +:+ "$") b) at 2. f_equal. by rewrite string_length_snoc, Nat.add_1_r.
Qed.

(** A list with a comment, a blocked domain, an exception, an important line, a regular expression and
    hosts. *)
Definition filter : list FilterLine :=
  [F_Comment "!" " ads"; F_Rule false false A_Suffix "ads.test" true;
   F_Rule true false A_Suffix "ok.ads.test" true; F_Rule false true A_Start "evil.test" true;
   F_Blank; F_Regexp false "track"; F_Host "0" true "host.test"; F_Host "7" false "other.test"].

Example filter_text : line_text <$> filter =
  ["! ads"; "||ads.test^"; "@@||ok.ads.test^"; "|evil.test^$important"; ""; "/track/";
   "0 host.test"; "7 other.test"]%string.
Proof. reflexivity. Qed.

Definition rule_line (s : string) (exclude suffix start important regexp : bool) : agdguardRuleLine :=
  mkRuleLine s false exclude suffix start (negb regexp) regexp important.

Example filter_lines : parse_lines (line_text <$> filter) = Ok
  [rule_line "ads.test" false true false false false; rule_line "ok.ads.test" true true false false false;
   rule_line "evil.test" false false true true false; rule_line "track" false false false false true;
   mkRuleLine "host.test" true false false true true false false].
Proof. vm_compute. reflexivity. Qed.


(** An exception comes back as an important one. *)
Lemma read_layers_kinds_witness :
  let l := [rule_line "ads.test" false true false false false; rule_line "ok.ads.test" true true false false false] in
  read_layers (adguard_rule l) (mkKinds ([], []) ([], []) ([], []) ([], [])) =
  Some (Ok (mkKinds ([], []) (["||ok.ads.test^"%string], []) (["||ads.test^"%string], []) ([], []))).
Proof. intros l. rewrite (read_layers_kinds l); reflexivity. Defined.

Lemma parse_print_witness :
  parse_line "@@||ok.ads.test^$important" = Ok (L_Rule (rule_line "ok.ads.test" true true false true false)).
Proof.
  refine (parse_print ex_before ex_after (rule_line "ok.ads.test" true true false true false) _ _ _ _ _);
    [vm_compute; reflexivity..|split; [done|vm_compute; reflexivity..]|vm_compute; reflexivity].
Defined.

(** A lone slash is taken for a regular expression. *)
Example slash_panics : parse_line "/" = Panic [AStr "slice bounds out of range"].
Proof. reflexivity. Qed.

(** The modifiers of a regular expression are not read: what [FromOptions] writes is not supported. *)
Example important_regexp_ignored : parse_line "/track/$important" = Ok L_Ignored.
Proof. reflexivity. Qed.

Example FromOptions_regexp : FromOptions
    [default_rule (domain_options ["||ads.test^"%string] ["track"%string] false)] =
  Some (Ok ["||ads.test^"%string; "/track/"%string]).
Proof. reflexivity. Qed.

(** The rule of another type: the code does not leave its loop. *)
Example FromOptions_endless :
  FromOptions [mkOptionTree "" DefaultHeadlessOptions_zero (mkLogicalOptions "" [] false tt)] = None.
Proof. reflexivity. Qed.

(** Exceptions come out with their importance, so an exception survives an important line it did not. *)
Example exception_gains_importance :
  match ToOptions ["||ads.test^"; "@@||ok.ads.test^"]%string with
  | Ok rules => FromOptions rules = Some (Ok ["@@||ok.ads.test^$important"; "||ads.test^"]%string)
  | _ => False
  end.
Proof. vm_compute. reflexivity. Qed.

End Examples.
