(* ===== verification/Srs.v ===== *)
(** * Rule-set files (common/srs, cmd/sing-box/cmd_rule_set_compile.go)

    A rule-set file is a magic number, a version and the compressed list of its rules; a default rule
    is a sequence of items, each with its type, and ends with the final item.  The formats of domain
    matchers and of the compression are those of libraries. *)

From stdpp Require Import base gmap strings list numbers.
From S2P Require Import Prelude GoStd Netip GoIO Adapter SetItems AddrItems RuleAction RuleOptions.
From S2P Require Import RuleItem RuleMatch RuleSet.

Local Open Scope Z_scope.

(** What the model answers when its fuel runs out; [Read_total] shows that it does not. *)
Definition out_of_fuel : list arg := [AStr "out of fuel"].

(** A reader that only takes bytes from the front, and never answers what the model answers for the
    want of fuel. *)
Definition takes {A} (r : Reader A) : Prop := ∀ s,
  (length (r s).2 ≤ length s)%nat ∧ (r s).1 ≠ Panic out_of_fuel.

(** Of compress/zlib, sing/common/domain, sing/common/metadata, sing/common/json and netipx, with
    the size of a [HeadlessRule] in memory.  [zlib_NewReader] gives the bytes that decompress: a
    stream that breaks ends like one that is cut.  The laws: what the libraries write they read
    back, their readers only take bytes, and an address is made from its bytes. *)
Class SrsLib `{ExtLib} := {
  zlib_Write : list byte → list byte;
  zlib_NewReader : list byte → res (list byte);
  Matcher_Write : Matcher → list byte;
  domain_ReadMatcher : Reader Matcher;
  Matcher_Dump : Matcher → list string * list string;
  AdGuardMatcher_Write : AdGuardMatcher → list byte;
  domain_ReadAdGuardMatcher : Reader AdGuardMatcher;
  AdGuardMatcher_Dump : AdGuardMatcher → list string;
  IPSet_Prefixes : IPSet → list Prefix;
  M_AddrFromIP : list byte → Addr;
  Prefixable_of : Prefix → Prefixable;
  TypedMap_Put : ∀ {K V} `{EqDecision K}, K → V → list (K * V) → list (K * V);
  sizeof_HeadlessRule : Z;

  zlib_read_write : ∀ b, zlib_NewReader (zlib_Write b) = Ok b;
  zlib_own_panics : ∀ b, zlib_NewReader b ≠ Panic out_of_fuel;
  Matcher_read_write : ∀ m, reads domain_ReadMatcher (Matcher_Write m) m;
  AdGuardMatcher_read_write : ∀ m, reads domain_ReadAdGuardMatcher (AdGuardMatcher_Write m) m;
  Matcher_read_takes : takes domain_ReadMatcher;
  AdGuardMatcher_read_takes : takes domain_ReadAdGuardMatcher;
  AddrFromIP_AsSlice : ∀ a, Addr_wf a → Addr_IsValid a = true → Addr_withoutZone a = a →
    Addr_Is4In6 a = false → M_AddrFromIP (Addr_AsSlice a) = a;
  TypedMap_Put_new : ∀ {K V} `{EqDecision K} (k : K) (v : V) l,
    k ∉ l.*1 → TypedMap_Put k v l = l ++ [(k, v)];
  sizeof_HeadlessRule_pos : 0 < sizeof_HeadlessRule
}.

Section Srs.
Context `{ExtLib} `{VarbinLib} `{!SrsLib}.

(** ** Items *)

(** [common/srs/binary.go:23] MagicBytes *)
Definition MagicBytes : list byte := Z_byte <$> [0x53; 0x52; 0x53].

(** [constant/rule.go:21-27] RuleSetVersion *)
Definition RuleSetVersion1 : Z := 1.
Definition RuleSetVersion2 : Z := 2.
Definition RuleSetVersion3 : Z := 3.
Definition RuleSetVersion4 : Z := 4.
Definition RuleSetVersionCurrent : Z := RuleSetVersion4.

(** The type of an item of a default rule.

    [common/srs/binary.go:25-50] ruleItem *)
Inductive RuleItemType : Type :=
| ruleItemQueryType | ruleItemNetwork | ruleItemDomain | ruleItemDomainKeyword
| ruleItemDomainRegex | ruleItemSourceIPCIDR | ruleItemIPCIDR | ruleItemSourcePort
| ruleItemSourcePortRange | ruleItemPort | ruleItemPortRange | ruleItemProcessName
| ruleItemProcessPath | ruleItemPackageName | ruleItemWIFISSID | ruleItemWIFIBSSID
| ruleItemAdGuardDomain | ruleItemProcessPathRegex | ruleItemNetworkType
| ruleItemNetworkIsExpensive | ruleItemNetworkIsConstrained | ruleItemNetworkInterfaceAddress
| ruleItemDefaultInterfaceAddress | ruleItemFinal.

Definition item_types : list RuleItemType :=
  [ruleItemQueryType; ruleItemNetwork; ruleItemDomain; ruleItemDomainKeyword; ruleItemDomainRegex;
   ruleItemSourceIPCIDR; ruleItemIPCIDR; ruleItemSourcePort; ruleItemSourcePortRange;
   ruleItemPort; ruleItemPortRange; ruleItemProcessName; ruleItemProcessPath;
   ruleItemPackageName; ruleItemWIFISSID; ruleItemWIFIBSSID; ruleItemAdGuardDomain;
   ruleItemProcessPathRegex; ruleItemNetworkType; ruleItemNetworkIsExpensive;
   ruleItemNetworkIsConstrained; ruleItemNetworkInterfaceAddress; ruleItemDefaultInterfaceAddress].

(** The numbers count from zero, and the last is [0xFF]. *)
Definition item_number (t : RuleItemType) : Z :=
  match t with
  | ruleItemQueryType => 0 | ruleItemNetwork => 1 | ruleItemDomain => 2
  | ruleItemDomainKeyword => 3 | ruleItemDomainRegex => 4 | ruleItemSourceIPCIDR => 5
  | ruleItemIPCIDR => 6 | ruleItemSourcePort => 7 | ruleItemSourcePortRange => 8
  | ruleItemPort => 9 | ruleItemPortRange => 10 | ruleItemProcessName => 11
  | ruleItemProcessPath => 12 | ruleItemPackageName => 13 | ruleItemWIFISSID => 14
  | ruleItemWIFIBSSID => 15 | ruleItemAdGuardDomain => 16 | ruleItemProcessPathRegex => 17
  | ruleItemNetworkType => 18 | ruleItemNetworkIsExpensive => 19
  | ruleItemNetworkIsConstrained => 20 | ruleItemNetworkInterfaceAddress => 21
  | ruleItemDefaultInterfaceAddress => 22 | ruleItemFinal => 255
  end.
Definition item_of_number (n : Z) : option RuleItemType :=
  if Z.eqb n 255 then Some ruleItemFinal else item_types !! Z.to_nat n.

Definition write_number (n : Z) : list byte := varbin_WriteUvarint n.
Definition write_length {A} (l : list A) : list byte := write_number (Z.of_nat (length l)).

(** One string of a list: its length and its bytes.

    [common/srs/binary.go:514-523] readRuleItemString (loop body) *)
Definition read_string : Reader string :=
  strLen ← ReadUvarint;
  _ ← makeslice 1 strLen;
  buf ← ReadFull (Z.to_nat strLen);
  mret (string_of_bytes buf).
(** [common/srs/binary.go:538-547] writeRuleItemString (loop body) *)
Definition write_string (s : string) : list byte :=
  let b := bytes_of_string s in write_length b ++ b.

(** [common/srs/binary.go:508-527] readRuleItemString *)
Definition readRuleItemString : Reader (list string) :=
  length' ← ReadUvarint;
  _ ← makeslice 16 length';
  read_times (Z.to_nat length') 0 (λ _, read_string).

(** [common/srs/binary.go:529-549] writeRuleItemString *)
Definition writeRuleItemString (itemType : RuleItemType) (value : list string) : list byte :=
  Z_byte (item_number itemType) :: write_length value ++ concat (write_string <$> value).

Definition InterfaceType_of_uint8 (n : Z) : InterfaceType :=
  match n with
  | 0 => InterfaceTypeWIFI
  | 1 => InterfaceTypeCellular
  | 2 => InterfaceTypeEthernet
  | 3 => InterfaceTypeOther
  | _ => InterfaceTypeUnknown n
  end.
Definition InterfaceType_uint8 (t : InterfaceType) : Z :=
  match t with
  | InterfaceTypeWIFI => 0
  | InterfaceTypeCellular => 1
  | InterfaceTypeEthernet => 2
  | InterfaceTypeOther => 3
  | InterfaceTypeUnknown n => n
  end.

(** The slice of the [uint8]s is read in place.

    [common/srs/binary.go:551-562] readRuleItemUint8 *)
Definition readRuleItemUint8 : Reader (list InterfaceType) :=
  length' ← ReadUvarint;
  _ ← makeslice 1 length';
  bytes ← ReadFull (Z.to_nat length');
  mret ((λ b, InterfaceType_of_uint8 (byte_Z b)) <$> bytes).

(** [common/srs/binary.go:564-575] writeRuleItemUint8 *)
Definition writeRuleItemUint8 (itemType : RuleItemType) (value : list InterfaceType) : list byte :=
  Z_byte (item_number itemType) :: write_length value ++
    ((λ t, Z_byte (InterfaceType_uint8 t)) <$> value).

(** [common/srs/binary.go:577-588] readRuleItemUint16 *)
Definition readRuleItemUint16 : Reader (list Z) :=
  length' ← ReadUvarint;
  _ ← makeslice 2 length';
  ReadBE16s (Z.to_nat length').

(** [common/srs/binary.go:590-600] writeRuleItemUint16 *)
Definition writeRuleItemUint16 (itemType : RuleItemType) (value : list Z) : list byte :=
  Z_byte (item_number itemType) :: write_length value ++ concat (be_bytes 2 <$> value).

(** Bytes after their length, as [readPrefix] and [readIPSet] read them. *)
Definition read_slice : Reader (list byte) :=
  sliceLen ← ReadUvarint;
  _ ← makeslice 1 sliceLen;
  ReadFull (Z.to_nat sliceLen).
Definition write_slice (b : list byte) : list byte := write_length b ++ b.

(** [common/srs/ip_cidr.go:12-27] readPrefix *)
Definition readPrefix : Reader Prefix :=
  addrSlice ← read_slice;
  prefixBits ← ReadByte;
  mret (PrefixFrom (M_AddrFromIP addrSlice) (byte_Z prefixBits)).

(** [common/srs/ip_cidr.go:29-44] writePrefix *)
Definition writePrefix (prefix : Prefix) : list byte :=
  write_slice (Addr_AsSlice (Prefix_Addr prefix)) ++ [Z_byte (u8 (Prefix_Bits prefix))].

(** [common/srs/ip_set.go:42-63] readIPSet (loop body) *)
Definition read_range : Reader IPRange :=
  fromBytes ← read_slice;
  toBytes ← read_slice;
  mret (mkIPRange (M_AddrFromIP fromBytes) (M_AddrFromIP toBytes)).

(** A range is two addresses of 24 bytes.

    [common/srs/ip_set.go:25-65] readIPSet *)
Definition readIPSet : Reader IPSet :=
  version ← ReadByte;
  if negb (Z.eqb (byte_Z version) 1) then of_res (Err os_ErrInvalid) else
  length' ← ReadBE 8;
  _ ← makeslice 48 length';
  read_times (Z.to_nat length') 0 (λ _, read_range).

(** [common/srs/ip_set.go:77-96] writeIPSet (loop body) *)
Definition write_range (rr : IPRange) : list byte :=
  write_slice (Addr_AsSlice (ipr_from rr)) ++ write_slice (Addr_AsSlice (ipr_to rr)).

(** [common/srs/ip_set.go:67-98] writeIPSet *)
Definition writeIPSet (set : IPSet) : list byte :=
  Z_byte 1 :: be_bytes 8 (Z.of_nat (length set)) ++ concat (write_range <$> set).

(** [common/srs/binary.go:602-626] writeRuleItemCIDR *)
Definition writeRuleItemCIDR (itemType : RuleItemType) (value : list string) : res (list byte) :=
  builder ← add_cidrs 0 value IPSetBuilder_zero;
  ipSet ← IPSetBuilder_IPSet builder;
  Ok (Z_byte (item_number itemType) :: writeIPSet ipSet).

(** A list of prefixes after its length.

    [common/srs/binary.go:267-282] readDefaultRule (default_interface_address) *)
Definition read_prefixes : Reader (list (option Prefixable)) :=
  prefixCount ← ReadUvarint;
  read_times (Z.to_nat prefixCount) 0 (λ _, (λ p, Some (Prefixable_of p)) <$> readPrefix).
(** [common/srs/binary.go:461-470] writeDefaultRule (default_interface_address) *)
Definition write_prefixes (l : list (option Prefixable)) : list byte :=
  write_length l ++ concat ((λ p, writePrefix (Prefixable_Build p Prefix_zero)) <$> l).

(** [common/srs/binary.go:246-264] readDefaultRule (network_interface_address, loop body) *)
Definition read_interface (m : list (InterfaceType * list (option Prefixable)))
    : Reader (list (InterfaceType * list (option Prefixable))) :=
  key ← ReadBE 1;
  value ← read_prefixes;
  mret (TypedMap_Put (InterfaceType_of_uint8 key) value m).
(** [common/srs/binary.go:245-265] readDefaultRule (network_interface_address, loop) *)
Fixpoint read_interfaces (n : nat) (m : list (InterfaceType * list (option Prefixable)))
    : Reader (list (InterfaceType * list (option Prefixable))) :=
  match n with
  | O => mret m
  | S n => m ← read_interface m; read_interfaces n m
  end.
(** [common/srs/binary.go:238-265] readDefaultRule (network_interface_address) *)
Definition read_interface_map : Reader (list (InterfaceType * list (option Prefixable))) :=
  size ← ReadUvarint;
  read_interfaces (Z.to_nat size) [].
(** [common/srs/binary.go:436-451] writeDefaultRule (network_interface_address, loop body) *)
Definition write_interface (e : InterfaceType * list (option Prefixable)) : list byte :=
  be_bytes 1 (InterfaceType_uint8 e.1) ++ write_prefixes e.2.

(** ** Default rules *)

(** The body of one item, by its type; [recover] also gives the texts that a matcher or an IP set
    was made from.

    [common/srs/binary.go:160-289] readDefaultRule (item) *)
Definition readRuleItem (itemType : RuleItemType) (recover : bool) (rule : DefaultHeadlessOptions)
    : Reader DefaultHeadlessOptions :=
  match itemType with
  | ruleItemQueryType => l ← readRuleItemUint16; mret (rule <| ho_QueryType := l |>)
  | ruleItemNetwork => l ← readRuleItemString; mret (rule <| ho_Network := l |>)
  | ruleItemDomain =>
      matcher ← domain_ReadMatcher;
      let rule := rule <| ho_DomainMatcher := Some matcher |> in
      mret (if recover
            then rule <| ho_Domain := (Matcher_Dump matcher).1 |>
                   <| ho_DomainSuffix := (Matcher_Dump matcher).2 |>
            else rule)
  | ruleItemDomainKeyword => l ← readRuleItemString; mret (rule <| ho_DomainKeyword := l |>)
  | ruleItemDomainRegex => l ← readRuleItemString; mret (rule <| ho_DomainRegex := l |>)
  | ruleItemSourceIPCIDR =>
      set ← readIPSet;
      let rule := rule <| ho_SourceIPSet := Some set |> in
      mret (if recover then rule <| ho_SourceIPCIDR := Prefix_String <$> IPSet_Prefixes set |>
            else rule)
  | ruleItemIPCIDR =>
      set ← readIPSet;
      let rule := rule <| ho_IPSet := Some set |> in
      mret (if recover then rule <| ho_IPCIDR := Prefix_String <$> IPSet_Prefixes set |> else rule)
  | ruleItemSourcePort => l ← readRuleItemUint16; mret (rule <| ho_SourcePort := l |>)
  | ruleItemSourcePortRange => l ← readRuleItemString; mret (rule <| ho_SourcePortRange := l |>)
  | ruleItemPort => l ← readRuleItemUint16; mret (rule <| ho_Port := l |>)
  | ruleItemPortRange => l ← readRuleItemString; mret (rule <| ho_PortRange := l |>)
  | ruleItemProcessName => l ← readRuleItemString; mret (rule <| ho_ProcessName := l |>)
  | ruleItemProcessPath => l ← readRuleItemString; mret (rule <| ho_ProcessPath := l |>)
  | ruleItemProcessPathRegex => l ← readRuleItemString; mret (rule <| ho_ProcessPathRegex := l |>)
  | ruleItemPackageName => l ← readRuleItemString; mret (rule <| ho_PackageName := l |>)
  | ruleItemWIFISSID => l ← readRuleItemString; mret (rule <| ho_WIFISSID := l |>)
  | ruleItemWIFIBSSID => l ← readRuleItemString; mret (rule <| ho_WIFIBSSID := l |>)
  | ruleItemAdGuardDomain =>
      matcher ← domain_ReadAdGuardMatcher;
      let rule := rule <| ho_AdGuardDomainMatcher := Some matcher |> in
      mret (if recover then rule <| ho_AdGuardDomain := AdGuardMatcher_Dump matcher |> else rule)
  | ruleItemNetworkType => l ← readRuleItemUint8; mret (rule <| ho_NetworkType := l |>)
  | ruleItemNetworkIsExpensive => mret (rule <| ho_NetworkIsExpensive := true |>)
  | ruleItemNetworkIsConstrained => mret (rule <| ho_NetworkIsConstrained := true |>)
  | ruleItemNetworkInterfaceAddress =>
      m ← read_interface_map;
      mret (rule <| ho_NetworkInterfaceAddress := Some m |>)
  | ruleItemDefaultInterfaceAddress =>
      value ← read_prefixes;
      mret (rule <| ho_DefaultInterfaceAddress := value |>)
  | ruleItemFinal => invert ← ReadBool; mret (rule <| ho_Invert := invert |>)
  end.

(** The loop over the items: each takes at least the byte of its type.

    [common/srs/binary.go:154-293] readDefaultRule (loop) *)
Fixpoint readDefaultRule_loop (fuel : nat) (recover : bool) (lastItemType : Z)
    (rule : DefaultHeadlessOptions) : Reader DefaultHeadlessOptions :=
  match fuel with
  | O => of_res (Panic out_of_fuel)
  | S fuel =>
      itemType ← ReadBE 1;
      match item_of_number itemType with
      | Some ruleItemFinal => readRuleItem ruleItemFinal recover rule
      | Some t =>
          rule ← readRuleItem t recover rule;
          readDefaultRule_loop fuel recover itemType rule
      | None => of_res (Err (E_New [AStr "unknown rule item type: "; AInt itemType;
                                    AStr ", last type: "; AInt lastItemType]))
      end
  end.

(** [common/srs/binary.go:152-294] readDefaultRule *)
Definition readDefaultRule (recover : bool) : Reader DefaultHeadlessOptions := λ s,
  readDefaultRule_loop (S (length s)) recover 0 DefaultHeadlessOptions_zero s.

(** The texts of a sequence of writes; the first error ends it. *)
Fixpoint write_all (l : list (res (list byte))) : res (list byte) :=
  match l with
  | [] => Ok []
  | w :: l => b ← w; rest ← write_all l; Ok (b ++ rest)
  end.
Definition write_if (cond : bool) (w : res (list byte)) : res (list byte) :=
  if cond then w else Ok [].

(** An item that needs a version of the format. *)
Definition since (version generateVersion : Z) (message : string) (b : list byte)
    : res (list byte) :=
  if Z.ltb generateVersion version then Err (E_New [AStr message]) else Ok b.

Definition write_strings (t : RuleItemType) (l : list string) : res (list byte) :=
  write_if (nonempty l) (Ok (writeRuleItemString t l)).
Definition write_uint16s (t : RuleItemType) (l : list Z) : res (list byte) :=
  write_if (nonempty l) (Ok (writeRuleItemUint16 t l)).

(** [rule.NetworkInterfaceAddress != nil && rule.NetworkInterfaceAddress.Size() > 0] *)
Definition some_interfaces {A} (m : option (list A)) : bool :=
  match m with Some l => nonempty l | None => false end.

(** [common/srs/binary.go:301-396] writeDefaultRule (to package_name) *)
Definition write_items_common (rule : DefaultHeadlessOptions) (generateVersion : Z)
    : list (res (list byte)) :=
  [ write_uint16s ruleItemQueryType (ho_QueryType rule);
    write_strings ruleItemNetwork (ho_Network rule);
    write_if (nonempty (ho_Domain rule) || nonempty (ho_DomainSuffix rule))
      (Ok (Z_byte (item_number ruleItemDomain) ::
           Matcher_Write (domain_NewMatcher (ho_Domain rule) (ho_DomainSuffix rule)
                            (Z.eqb generateVersion RuleSetVersion1))));
    write_strings ruleItemDomainKeyword (ho_DomainKeyword rule);
    write_strings ruleItemDomainRegex (ho_DomainRegex rule);
    write_if (nonempty (ho_SourceIPCIDR rule))
      (wrap_err [AStr "source_ip_cidr"]
         (writeRuleItemCIDR ruleItemSourceIPCIDR (ho_SourceIPCIDR rule)));
    write_if (nonempty (ho_IPCIDR rule))
      (wrap_err [AStr "ipcidr"] (writeRuleItemCIDR ruleItemIPCIDR (ho_IPCIDR rule)));
    write_uint16s ruleItemSourcePort (ho_SourcePort rule);
    write_strings ruleItemSourcePortRange (ho_SourcePortRange rule);
    write_uint16s ruleItemPort (ho_Port rule);
    write_strings ruleItemPortRange (ho_PortRange rule);
    write_strings ruleItemProcessName (ho_ProcessName rule);
    write_strings ruleItemProcessPath (ho_ProcessPath rule);
    write_strings ruleItemProcessPathRegex (ho_ProcessPathRegex rule);
    write_strings ruleItemPackageName (ho_PackageName rule) ].

(** [common/srs/binary.go:397-497] writeDefaultRule (from network_type) *)
Definition write_items_versioned (rule : DefaultHeadlessOptions) (generateVersion : Z)
    : list (res (list byte)) :=
  [ write_if (nonempty (ho_NetworkType rule))
      (since RuleSetVersion3 generateVersion
         "`network_type` rule item is only supported in version 3 or later"
         (writeRuleItemUint8 ruleItemNetworkType (ho_NetworkType rule)));
    write_if (ho_NetworkIsExpensive rule)
      (since RuleSetVersion3 generateVersion
         "`network_is_expensive` rule item is only supported in version 3 or later"
         [Z_byte (item_number ruleItemNetworkIsExpensive)]);
    write_if (ho_NetworkIsConstrained rule)
      (since RuleSetVersion3 generateVersion
         "`network_is_constrained` rule item is only supported in version 3 or later"
         [Z_byte (item_number ruleItemNetworkIsConstrained)]);
    write_if (some_interfaces (ho_NetworkInterfaceAddress rule))
      (since RuleSetVersion4 generateVersion
         "`network_interface_address` rule item is only supported in version 4 or later"
         (Z_byte (item_number ruleItemNetworkInterfaceAddress) ::
          write_length (default [] (ho_NetworkInterfaceAddress rule)) ++
          concat (write_interface <$> default [] (ho_NetworkInterfaceAddress rule))));
    write_if (nonempty (ho_DefaultInterfaceAddress rule))
      (since RuleSetVersion4 generateVersion
         "`default_interface_address` rule item is only supported in version 4 or later"
         (Z_byte (item_number ruleItemDefaultInterfaceAddress) ::
          write_prefixes (ho_DefaultInterfaceAddress rule)));
    write_strings ruleItemWIFISSID (ho_WIFISSID rule);
    write_strings ruleItemWIFIBSSID (ho_WIFIBSSID rule);
    write_if (nonempty (ho_AdGuardDomain rule))
      (since RuleSetVersion2 generateVersion
         "AdGuard rule items is only supported in version 2 or later"
         (Z_byte (item_number ruleItemAdGuardDomain) ::
          AdGuardMatcher_Write (domain_NewAdGuardMatcher (ho_AdGuardDomain rule)))) ].

Definition write_bool (b : bool) : list byte := be_bytes 1 (if b then 1 else 0).

(** [common/srs/binary.go:296-506] writeDefaultRule *)
Definition writeDefaultRule (rule : DefaultHeadlessOptions) (generateVersion : Z)
    : res (list byte) :=
  write_all ([Ok [Z_byte 0]] ++ write_items_common rule generateVersion ++
             write_items_versioned rule generateVersion ++
             [Ok (Z_byte (item_number ruleItemFinal) :: write_bool (ho_Invert rule))]).

(** ** Rules and files *)

Definition logical_zero {O} : LogicalOptions O () := mkLogicalOptions "" [] false tt.

(** [common/srs/binary.go:628-659] readLogicalRule *)
Definition readLogicalRule (readRule : Reader HeadlessRuleOptions)
    : Reader (LogicalOptions HeadlessRuleOptions ()) :=
  mode ← ReadByte;
  mode ← of_res (if Z.eqb (byte_Z mode) 0 then Ok "and"%string else
                 if Z.eqb (byte_Z mode) 1 then Ok "or"%string else
                 Err (E_New [AStr "unknown logical mode: "; AInt (byte_Z mode)]));
  length' ← ReadUvarint;
  _ ← makeslice sizeof_HeadlessRule length';
  rules ← read_times (Z.to_nat length') 0 (λ i,
    reader_cause [AStr "read logical rule ["; AInt i; AStr "]"] readRule);
  invert ← ReadBool;
  mret (mkLogicalOptions mode rules invert tt).

(** Rules nest; each takes at least the byte of its type.

    [common/srs/binary.go:122-139] readRule *)
Fixpoint readRule (fuel : nat) (recover : bool) : Reader HeadlessRuleOptions :=
  match fuel with
  | O => of_res (Panic out_of_fuel)
  | S fuel =>
      ruleType ← ReadBE 1;
      if Z.eqb ruleType 0 then
        d ← readDefaultRule recover;
        mret (mkOptionTree "default" d logical_zero)
      else if Z.eqb ruleType 1 then
        l ← readLogicalRule (readRule fuel recover);
        mret (mkOptionTree "logical" DefaultHeadlessOptions_zero l)
      else of_res (Err (E_New [AStr "unknown rule type: "; AInt ruleType]))
  end.

(** [common/srs/binary.go:661-692] writeLogicalRule *)
Definition writeLogicalRule (writeRule : HeadlessRuleOptions → res (list byte))
    (logicalRule : LogicalOptions HeadlessRuleOptions ()) : res (list byte) :=
  write_all
    ([Ok [Z_byte 1];
      (if String.eqb (lo_Mode logicalRule) "and" then Ok [Z_byte 0] else
       if String.eqb (lo_Mode logicalRule) "or" then Ok [Z_byte 1] else
       Panic [AStr "unknown logical mode: "; AStr (lo_Mode logicalRule)]);
      Ok (write_length (lo_Rules logicalRule))] ++
     (writeRule <$> lo_Rules logicalRule) ++
     [Ok (write_bool (lo_Invert logicalRule))]).

(** [common/srs/binary.go:141-150] writeRule *)
Fixpoint writeRule (generateVersion : Z) (rule : HeadlessRuleOptions) : res (list byte) :=
  let '(mkOptionTree type d l) := rule in
  if String.eqb type "default" then writeDefaultRule d generateVersion else
  if String.eqb type "logical" then writeLogicalRule (writeRule generateVersion) l else
  Panic [AStr "unknown rule type: "; AStr type].

(** The rules after the header, decompressed.

    [common/srs/binary.go:74-88] Read (rules) *)
Definition read_rules (recover : bool) : Reader (list HeadlessRuleOptions) := λ s,
  (length' ← ReadUvarint;
   _ ← makeslice sizeof_HeadlessRule length';
   read_times (Z.to_nat length') 0 (λ i,
     reader_cause [AStr "read rule["; AInt i; AStr "]"] (readRule (S (Datatypes.length s)) recover))) s.

(** [option/rule_set.go:235-239] _PlainRuleSetCompat *)
Record PlainRuleSetCompat : Type := mkPlainRuleSetCompat {
  Version : Z;
  Options : list HeadlessRuleOptions
}.

(** [common/srs/binary.go:52-73] Read (header) *)
Definition read_header : Reader Z :=
  magicBytes ← ReadFull 3;
  if negb (bool_decide (byte_Z <$> magicBytes = byte_Z <$> MagicBytes))
  then of_res (Err (E_New [AStr "invalid sing-box rule-set file"])) else
  version ← ReadBE 1;
  if Z.ltb RuleSetVersionCurrent version
  then of_res (Err (E_New [AStr "unsupported version: "; AInt version])) else
  mret version.

(** [common/srs/binary.go:52-89] Read *)
Definition Read (reader : list byte) (recover : bool) : res PlainRuleSetCompat :=
  match read_header reader with
  | (Ok version, compressed) =>
      body ← zlib_NewReader compressed;
      mkPlainRuleSetCompat version <$> (read_rules recover body).1
  | (Err e, _) => Err e
  | (Panic p, _) => Panic p
  end.

(** [common/srs/binary.go:105-114] Write (rules) *)
Definition write_rules (rules : list HeadlessRuleOptions) (generateVersion : Z)
    : res (list byte) :=
  write_all (Ok (write_length rules) :: (writeRule generateVersion <$> rules)).

(** [common/srs/binary.go:91-120] Write *)
Definition Write (rules : list HeadlessRuleOptions) (generateVersion : Z) : res (list byte) :=
  body ← write_rules rules generateVersion;
  Ok (MagicBytes ++ be_bytes 1 generateVersion ++ zlib_Write body).

(** [option/rule_set.go:276-283] (PlainRuleSetCompat).Upgrade *)
Definition Upgrade (r : PlainRuleSetCompat) : res (list HeadlessRuleOptions) :=
  if Z.leb RuleSetVersion1 (Version r) && Z.leb (Version r) RuleSetVersion4 then Ok (Options r)
  else Err (E_New [AStr "unknown rule-set version: "; AInt (Version r)]).

(** [cmd/sing-box/cmd_rule_set_compile.go:84-97] downgradeRuleSetVersion *)
Definition downgradeRuleSetVersion (version : Z) (rules : list HeadlessRuleOptions) : Z :=
  let version :=
    if Z.eqb version RuleSetVersion4 &&
       negb (HasHeadlessRule rules (λ rule,
         some_interfaces (ho_NetworkInterfaceAddress rule) ||
         nonempty (ho_DefaultInterfaceAddress rule)))
    then RuleSetVersion3 else version in
  if Z.eqb version RuleSetVersion3 &&
     negb (HasHeadlessRule rules (λ rule,
       nonempty (ho_NetworkType rule) || ho_NetworkIsExpensive rule ||
       ho_NetworkIsConstrained rule))
  then RuleSetVersion2 else version.

End Srs.

(** ** What fits, and what is read back *)

Section Fits.
Context `{ExtLib} `{VarbinLib} `{!SrsLib}.

(** The sizes that [make] accepts, and the values that keep their bytes. *)
Definition fits_length {A} (size : Z) (l : list A) : Prop := size * Z.of_nat (length l) ≤ max_alloc.
Definition fits_strings (l : list string) : Prop :=
  fits_length 16 l ∧ Forall (λ s, fits_length 1 (bytes_of_string s)) l.
Definition fits_uint16s (l : list Z) : Prop := fits_length 2 l ∧ Forall (is_u 16) l.
Definition fits_type (t : InterfaceType) : Prop :=
  is_u 8 (InterfaceType_uint8 t) ∧ InterfaceType_of_uint8 (InterfaceType_uint8 t) = t.
Definition fits_addr (a : Addr) : Prop :=
  Addr_wf a ∧ Addr_IsValid a = true ∧ Addr_withoutZone a = a ∧ Addr_Is4In6 a = false.
Definition fits_set (set : IPSet) : Prop :=
  fits_length 48 set ∧ Forall (λ r, fits_addr (ipr_from r) ∧ fits_addr (ipr_to r)) set.
Definition fits_prefix (p : Prefix) : Prop :=
  fits_addr (Prefix_Addr p) ∧ 0 ≤ Prefix_Bits p ≤ Addr_BitLen (Prefix_Addr p).
Definition fits_prefixes (l : list (option Prefixable)) : Prop :=
  fits_length 1 l ∧ Forall (λ p, fits_prefix (Prefixable_Build p Prefix_zero)) l.
Definition fits_interfaces (l : list (InterfaceType * list (option Prefixable))) : Prop :=
  fits_length 1 l ∧ NoDup l.*1 ∧ Forall (λ e, fits_type e.1 ∧ fits_prefixes e.2) l.

(** The set that [writeRuleItemCIDR] writes. *)
Definition cidr_set (value : list string) : res IPSet :=
  builder ← add_cidrs 0 value IPSetBuilder_zero; IPSetBuilder_IPSet builder.
Definition cidr_field (value : list string) : res (option IPSet) :=
  if nonempty value then Some <$> cidr_set value else Ok None.

Definition rebuild (l : list (option Prefixable)) : list (option Prefixable) :=
  (λ p, Some (Prefixable_of (Prefixable_Build p Prefix_zero))) <$> l.

(** What a default rule becomes in a file: its domains and its addresses are compiled to matchers and
    sets, and the prefixes are those that the interfaces have. *)
Definition compiled_default (generateVersion : Z) (rule : DefaultHeadlessOptions)
    (source destination : option IPSet) : DefaultHeadlessOptions :=
  rule <| ho_Domain := [] |> <| ho_DomainSuffix := [] |>
       <| ho_DomainMatcher :=
            if nonempty (ho_Domain rule) || nonempty (ho_DomainSuffix rule)
            then Some (domain_NewMatcher (ho_Domain rule) (ho_DomainSuffix rule)
                         (Z.eqb generateVersion RuleSetVersion1)) else None |>
       <| ho_SourceIPCIDR := [] |> <| ho_SourceIPSet := source |>
       <| ho_IPCIDR := [] |> <| ho_IPSet := destination |>
       <| ho_NetworkInterfaceAddress :=
            if some_interfaces (ho_NetworkInterfaceAddress rule)
            then Some (prod_map id rebuild <$> default [] (ho_NetworkInterfaceAddress rule))
            else None |>
       <| ho_DefaultInterfaceAddress := rebuild (ho_DefaultInterfaceAddress rule) |>
       <| ho_AdGuardDomain := [] |>
       <| ho_AdGuardDomainMatcher :=
            if nonempty (ho_AdGuardDomain rule)
            then Some (domain_NewAdGuardMatcher (ho_AdGuardDomain rule)) else None |>.
Definition compile_default (generateVersion : Z) (rule : DefaultHeadlessOptions)
    : res DefaultHeadlessOptions :=
  source ← cidr_field (ho_SourceIPCIDR rule);
  destination ← cidr_field (ho_IPCIDR rule);
  Ok (compiled_default generateVersion rule source destination).

(** A rule in a file has only the fields of its type. *)
Fixpoint compile_rule (generateVersion : Z) (rule : HeadlessRuleOptions)
    : res HeadlessRuleOptions :=
  let '(mkOptionTree type d l) := rule in
  if String.eqb type "default" then
    d ← compile_default generateVersion d;
    Ok (mkOptionTree type d logical_zero)
  else
    rules ← mapi_res (λ _, compile_rule generateVersion) (lo_Rules l);
    Ok (mkOptionTree type DefaultHeadlessOptions_zero
          (mkLogicalOptions (lo_Mode l) rules (lo_Invert l) tt)).

Definition fits_cidr (value : list string) : Prop := ∀ set, cidr_set value = Ok set → fits_set set.

Record fits_default (rule : DefaultHeadlessOptions) : Prop := {
  fits_QueryType : fits_uint16s (ho_QueryType rule);
  fits_Network : fits_strings (ho_Network rule);
  fits_DomainKeyword : fits_strings (ho_DomainKeyword rule);
  fits_DomainRegex : fits_strings (ho_DomainRegex rule);
  fits_SourceIPCIDR : fits_cidr (ho_SourceIPCIDR rule);
  fits_IPCIDR : fits_cidr (ho_IPCIDR rule);
  fits_SourcePort : fits_uint16s (ho_SourcePort rule);
  fits_SourcePortRange : fits_strings (ho_SourcePortRange rule);
  fits_Port : fits_uint16s (ho_Port rule);
  fits_PortRange : fits_strings (ho_PortRange rule);
  fits_ProcessName : fits_strings (ho_ProcessName rule);
  fits_ProcessPath : fits_strings (ho_ProcessPath rule);
  fits_ProcessPathRegex : fits_strings (ho_ProcessPathRegex rule);
  fits_PackageName : fits_strings (ho_PackageName rule);
  fits_NetworkType : fits_length 1 (ho_NetworkType rule) ∧ Forall fits_type (ho_NetworkType rule);
  fits_NetworkInterfaceAddress :
    fits_interfaces (default [] (ho_NetworkInterfaceAddress rule));
  fits_DefaultInterfaceAddress : fits_prefixes (ho_DefaultInterfaceAddress rule);
  fits_WIFISSID : fits_strings (ho_WIFISSID rule);
  fits_WIFIBSSID : fits_strings (ho_WIFIBSSID rule)
}.

Fixpoint fits_rule (rule : HeadlessRuleOptions) : Prop :=
  let '(mkOptionTree type d l) := rule in
  if String.eqb type "default" then fits_default d
  else fits_length sizeof_HeadlessRule (lo_Rules l) ∧
       foldr (λ sub P, fits_rule sub ∧ P) True (lo_Rules l).

End Fits.

(** ** Reading what was written *)

Section Roundtrip.
Context `{ExtLib} `{VarbinLib} `{!SrsLib}.

Lemma fits_uvarint {A} size (l : list A) :
  1 ≤ size → fits_length size l → is_u 64 (Z.of_nat (length l)).
Proof. unfold fits_length, max_alloc, is_u. intros. nia. Qed.

(** The length of a slice, and the slice that is made for it. *)
Lemma reads_length {A B} size (l : list A) (k : Z → Reader B) bytes b :
  1 ≤ size → fits_length size l → reads (k (Z.of_nat (length l))) bytes b →
  reads (n ← ReadUvarint; _ ← makeslice size n; k n) (write_length l ++ bytes) b.
Proof.
  intros Hs Hl Hk. eapply reads_bind; [apply reads_uvarint, (fits_uvarint size); done|].
  rewrite <-(app_nil_l bytes). eapply reads_bind; [by apply reads_makeslice|done].
Qed.

Lemma reads_last {A B} (r : Reader A) (f : A → B) bytes a :
  reads r bytes a → reads (x ← r; mret (f x)) bytes (f a).
Proof.
  intros Hr. rewrite <-(app_nil_r bytes). eapply reads_bind; [done|apply reads_ret].
Qed.

Lemma reads_string s : fits_length 1 (bytes_of_string s) → reads read_string (write_string s) s.
Proof.
  intros Hs. unfold read_string, write_string. apply reads_length; [lia|done|].
  rewrite Nat2Z.id. rewrite <-(String.string_of_list_byte_of_string s) at 3.
  apply reads_last. by apply reads_full.
Qed.

Lemma reads_strings l : fits_strings l →
  reads readRuleItemString (write_length l ++ concat (write_string <$> l)) l.
Proof.
  intros [Hl Hs]. unfold readRuleItemString. apply reads_length; [lia|done|].
  rewrite Nat2Z.id. apply reads_times. intros s _ Hin. apply reads_string.
  by apply (Forall_elem _ _ _ Hs).
Qed.

Lemma reads_uint16s l : fits_uint16s l →
  reads readRuleItemUint16 (write_length l ++ concat (be_bytes 2 <$> l)) l.
Proof.
  intros [Hl Hu]. unfold readRuleItemUint16. apply reads_length; [lia|done|].
  rewrite Nat2Z.id. by apply reads_be16s.
Qed.

Lemma fits_type_byte t : fits_type t →
  InterfaceType_of_uint8 (byte_Z (Z_byte (InterfaceType_uint8 t))) = t.
Proof. intros [Hu Ht]. by rewrite byte_Z_small. Qed.

Lemma reads_uint8s l : fits_length 1 l → Forall fits_type l →
  reads readRuleItemUint8 (write_length l ++ ((λ t, Z_byte (InterfaceType_uint8 t)) <$> l)) l.
Proof.
  intros Hl Ht. unfold readRuleItemUint8. apply reads_length; [lia|done|]. rewrite Nat2Z.id.
  pose proof (reads_last (ReadFull (length l)) (λ b, (λ b, InterfaceType_of_uint8 (byte_Z b)) <$> b)
    ((λ t, Z_byte (InterfaceType_uint8 t)) <$> l) _
    (reads_full _ _ (length_fmap _ _))) as Hr.
  rewrite <-list_fmap_compose in Hr. replace l with (((λ t, InterfaceType_of_uint8
    (byte_Z (Z_byte (InterfaceType_uint8 t)))) <$> l)) at 3; [done|].
  clear Hr Hl. induction Ht as [|t l Ht _ IH]; [done|]. cbn. f_equal; [|done].
  by apply fits_type_byte.
Qed.

Lemma reads_slice b : fits_length 1 b → reads read_slice (write_slice b) b.
Proof.
  intros Hb. apply reads_length; [lia|done|]. rewrite Nat2Z.id. by apply reads_full.
Qed.

Lemma AsSlice_fits a : fits_length 1 (Addr_AsSlice a).
Proof.
  unfold fits_length, max_alloc.
  assert (Addr_AsSlice a = [] ∨ length (Addr_AsSlice a) = 4%nat ∨ length (Addr_AsSlice a) = 16%nat)
    as [->|[->| ->]] by (destruct a; cbn [Addr_AsSlice]; rewrite ?be_bytes_length; auto); cbn; lia.
Qed.

Lemma reads_addr a : fits_addr a →
  reads (M_AddrFromIP <$> read_slice) (write_slice (Addr_AsSlice a)) a.
Proof.
  intros (Hw & Hv & Hz & H4). rewrite <-(AddrFromIP_AsSlice a) at 2 by done.
  apply reads_fmap, reads_slice, AsSlice_fits.
Qed.

Lemma fmap_run {A B} (f : A → B) (r : Reader A) s b rest :
  (f <$> r) s = (Ok b, rest) → ∃ a, r s = (Ok a, rest) ∧ f a = b.
Proof.
  unfold fmap, Reader_fmap. destruct (r s) as [[a| |] s']; [|done..]. intros [= Ha Hs].
  exists a. by rewrite Hs.
Qed.

(** What reads the address of a slice, and goes on with the address. *)
Lemma reads_addr_slice {B} a (k : list byte → Reader B) bytes b :
  fits_addr a → (∀ l, M_AddrFromIP l = a → reads (k l) bytes b) →
  reads (l ← read_slice; k l) (write_slice (Addr_AsSlice a) ++ bytes) b.
Proof.
  intros Ha Hk rest. destruct (fmap_run _ _ _ _ _ (reads_addr a Ha (bytes ++ rest)))
    as (l & Hl & Hla).
  unfold mbind, Reader_bind. rewrite <-app_assoc, Hl. by apply Hk.
Qed.

Lemma reads_range r : fits_addr (ipr_from r) → fits_addr (ipr_to r) →
  reads read_range (write_range r) r.
Proof.
  intros Hf Ht. unfold read_range, write_range. apply reads_addr_slice; [done|]. intros l1 Hl1.
  rewrite <-(app_nil_r (write_slice _)). apply reads_addr_slice; [done|]. intros l2 Hl2.
  rewrite Hl1, Hl2. destruct r. apply reads_ret.
Qed.

Lemma reads_set set : fits_set set → reads readIPSet (writeIPSet set) set.
Proof.
  intros [Hl Hr]. unfold readIPSet, writeIPSet.
  change (Z_byte 1 :: ?l) with ([Z_byte 1] ++ l). eapply reads_bind; [apply reads_byte|].
  rewrite byte_Z_small by lia. cbn [negb Z.eqb Pos.eqb].
  eapply reads_bind; [apply reads_be|].
  { pose proof (fits_uvarint 48 set ltac:(lia) Hl) as Hu. unfold is_u in Hu.
    by change (256 ^ Z.of_nat 8) with (2 ^ 64). }
  rewrite <-(app_nil_l (concat _)). eapply reads_bind; [by apply reads_makeslice|].
  rewrite Nat2Z.id. apply reads_times. intros r _ Hin.
  destruct (Forall_elem _ _ _ Hr Hin). by apply reads_range.
Qed.

Lemma reads_prefix p : fits_prefix p → reads readPrefix (writePrefix p) p.
Proof.
  intros [Ha Hb]. unfold readPrefix, writePrefix. apply reads_addr_slice; [done|].
  intros l Hl. rewrite Hl.
  assert (Prefix_Bits p ≤ 128) by (destruct (Prefix_Addr p); cbn in Hb; lia).
  assert (u8 (Prefix_Bits p) = Prefix_Bits p) as -> by (apply Z.mod_small; lia).
  assert (p = PrefixFrom (Prefix_Addr p) (byte_Z (Z_byte (Prefix_Bits p)))) as Hp.
  { rewrite byte_Z_small by lia. destruct p as [a bits]; cbn in *. destruct Ha as (_ & Hv & Hz & _).
    unfold PrefixFrom. rewrite Hv, Hz. rewrite (proj2 (Z.leb_le 0 bits)) by lia.
    by rewrite (proj2 (Z.leb_le bits _)) by lia. }
  rewrite Hp at 2. apply (reads_last ReadByte (λ b, PrefixFrom (Prefix_Addr p) (byte_Z b))).
  apply reads_byte.
Qed.

Lemma reads_prefixes l : fits_prefixes l → reads read_prefixes (write_prefixes l) (rebuild l).
Proof.
  intros [Hl Hp]. unfold read_prefixes, write_prefixes.
  eapply reads_bind; [by apply reads_uvarint, (fits_uvarint 1)|]. rewrite Nat2Z.id.
  apply (reads_times_map _ (λ p, writePrefix (Prefixable_Build p Prefix_zero))).
  intros p _ Hin. apply (reads_fmap (λ p, Some (Prefixable_of p))), reads_prefix.
  by apply (Forall_elem _ _ _ Hp).
Qed.

Lemma reads_interfaces l m :
  NoDup (m.*1 ++ l.*1) → Forall (λ e, fits_type e.1 ∧ fits_prefixes e.2) l →
  reads (read_interfaces (length l) m) (concat (write_interface <$> l))
    (m ++ (prod_map id rebuild <$> l)).
Proof.
  revert m. induction l as [|[t p] l IH]; intros m Hnd Hl.
  { cbn. rewrite app_nil_r. apply reads_ret. }
  apply List.Forall_cons_iff in Hl as [[[Hu Ht] Hp] Hl]. cbn in Hu, Ht, Hp.
  cbn [length read_interfaces]. change (concat (write_interface <$> (t, p) :: l))
    with (write_interface (t, p) ++ concat (write_interface <$> l)).
  apply (reads_bind _ _ _ _ (m ++ [(t, rebuild p)])).
  - unfold read_interface, write_interface. eapply reads_bind; [apply reads_be; exact Hu|].
    cbn [fst snd]. rewrite Ht. rewrite <-TypedMap_Put_new.
    2:{ rewrite fmap_cons in Hnd. apply list.NoDup_app in Hnd as (_ & Hd & _). intros Hin.
        by apply (Hd t Hin), list_elem_of_here. }
    apply (reads_last _ (λ v, TypedMap_Put t v m)), reads_prefixes, Hp.
  - pose proof (IH (m ++ [(t, rebuild p)])) as HI. rewrite fmap_app, <-!app_assoc in HI.
    exact (HI Hnd Hl).
Qed.

Lemma reads_interface_map l : fits_interfaces l →
  reads read_interface_map
    (write_length l ++ concat (write_interface <$> l)) (prod_map id rebuild <$> l).
Proof.
  intros (Hl & Hnd & Hf). eapply reads_bind; [by apply reads_uvarint, (fits_uvarint 1)|].
  rewrite Nat2Z.id. by apply (reads_interfaces l []).
Qed.

(** *** A sequence of items *)

(** The loop of [readDefaultRule] takes these bytes, in some number of its turns, and has then
    applied [f] to the rule. *)
Definition items (bytes : list byte) (f : DefaultHeadlessOptions → DefaultHeadlessOptions) : Prop :=
  ∃ turns, (turns ≤ length bytes)%nat ∧ ∀ fuel last rule, ∃ last', ∀ rest,
    readDefaultRule_loop (turns + fuel) false last rule (bytes ++ rest)
    = readDefaultRule_loop fuel false last' (f rule) rest.

Lemma items_nil : items [] id.
Proof. exists O. split; [done|]. intros fuel last rule. by exists last. Qed.

Lemma items_app b1 b2 f1 f2 : items b1 f1 → items b2 f2 → items (b1 ++ b2) (f2 ∘ f1).
Proof.
  intros (n1 & Hn1 & Hi1) (n2 & Hn2 & Hi2). exists (n1 + n2)%nat.
  split; [rewrite length_app; lia|]. intros fuel last rule.
  destruct (Hi1 (n2 + fuel)%nat last rule) as [last1 Hl1].
  destruct (Hi2 fuel last1 (f1 rule)) as [last2 Hl2]. exists last2. intros rest.
  by rewrite <-app_assoc, <-Nat.add_assoc, Hl1, Hl2.
Qed.

Lemma item_of_number_number t : item_of_number (item_number t) = Some t.
Proof. by destruct t. Qed.

Lemma reads_item_type t : reads (ReadBE 1) [Z_byte (item_number t)] (item_number t).
Proof. apply (reads_be 1 (item_number t)). by destruct t. Qed.

Lemma items_one t body f :
  t ≠ ruleItemFinal → (∀ rule, reads (readRuleItem t false rule) body (f rule)) →
  items (Z_byte (item_number t) :: body) f.
Proof.
  intros Ht Hr. exists 1%nat. split; [cbn; lia|]. intros fuel last rule.
  exists (item_number t). intros rest. cbn [Nat.add readDefaultRule_loop].
  unfold mbind at 1, Reader_bind at 1.
  change ((Z_byte (item_number t) :: body) ++ rest) with ([Z_byte (item_number t)] ++ body ++ rest).
  rewrite (reads_item_type t), item_of_number_number.
  destruct t; try done; unfold mbind at 1, Reader_bind at 1; by rewrite Hr.
Qed.

(** An item that is written when its field is set, and sets the field [f] when it is read. *)
Lemma items_if (cond : bool) (w : res (list byte)) b f :
  write_if cond w = Ok b → (cond = true → ∀ b, w = Ok b → items b f) →
  (cond = false → ∀ rule, f rule = rule) → items b f.
Proof.
  intros Hw Ht Hf. destruct cond; cbn in Hw; [by apply Ht|]. injection Hw as <-.
  exists O. split; [done|]. intros fuel last rule. exists last. intros rest.
  by rewrite (Hf eq_refl).
Qed.

Lemma write_all_cons (w : res (list byte)) l b :
  write_all (w :: l) = Ok b → ∃ b1 b2, w = Ok b1 ∧ write_all l = Ok b2 ∧ b = b1 ++ b2.
Proof.
  cbn. intros (b1 & Hw & (b2 & Hl & [= <-])%bind_Ok)%bind_Ok. by exists b1, b2.
Qed.

Lemma write_all_items l fs b :
  write_all l = Ok b → Forall2 (λ w f, ∀ b, w = Ok b → items b f) l fs →
  items b (λ rule, fold_left (λ rule f, f rule) fs rule).
Proof.
  intros Hb Hl. revert b Hb. induction Hl as [|w f l fs Hw _ IH]; intros b.
  { intros [= <-]. apply items_nil. }
  intros (b1 & b2 & Hb1 & Hb2 & ->)%write_all_cons. cbn [fold_left].
  apply (items_app b1 b2 f (λ rule, fold_left (λ rule f, f rule) fs rule)); auto.
Qed.

Lemma write_all_app l1 l2 b :
  write_all (l1 ++ l2) = Ok b →
  ∃ b1 b2, write_all l1 = Ok b1 ∧ write_all l2 = Ok b2 ∧ b = b1 ++ b2.
Proof.
  revert b. induction l1 as [|w l1 IH]; intros b Hb; [by exists [], b|].
  apply write_all_cons in Hb as (b1 & b' & Hw & (b2 & b3 & H2 & H3 & ->)%IH & ->).
  exists (b1 ++ b2), b3. cbn. rewrite Hw, H2. cbn. by rewrite app_assoc.
Qed.

Lemma write_all_elem l b w : write_all l = Ok b → w ∈ l → ∃ b', w = Ok b'.
Proof.
  intros Hb Hin. revert b Hb.
  induction Hin as [l|w v l Hin IH]; intros b (b1 & b2 & Hw & Hl & _)%write_all_cons; eauto.
Qed.

(** *** The items of a default rule *)

(** The value of a field after its item: what was written, or what it had. *)
Definition pick {A} (l old : list A) : list A := if nonempty l then l else old.
Lemma pick_nil {A} (l : list A) : pick l [] = l.
Proof. by destruct l. Qed.

(** An item that is written when its condition holds: what it is read as, and what that does to the
    rule. *)
Lemma items_item {A} t (read : Reader A) (set : A → DefaultHeadlessOptions → DefaultHeadlessOptions)
    (cond : bool) (w : res (list byte)) a f b :
  write_if cond w = Ok b →
  (cond = true → ∀ b, w = Ok b →
     ∃ body, b = Z_byte (item_number t) :: body ∧ reads read body a) →
  t ≠ ruleItemFinal →
  (∀ rule, readRuleItem t false rule = (v ← read; mret (set v rule))) →
  (∀ rule, f rule = if cond then set a rule else rule) → items b f.
Proof.
  intros Hw Hr Ht Hset Hf. eapply items_if; [exact Hw| |].
  - intros Hc b' (body & -> & Hb)%(Hr Hc). apply items_one; [done|]. intros rule.
    rewrite Hset, Hf, Hc. by apply (reads_last read (λ v, set v rule)).
  - intros Hc rule. by rewrite Hf, Hc.
Qed.

Lemma items_flag t (cond : bool) w g f b :
  write_if cond w = Ok b → (∀ b, w = Ok b → b = [Z_byte (item_number t)]) → t ≠ ruleItemFinal →
  (∀ rule, readRuleItem t false rule = mret (g rule)) →
  (∀ rule, f rule = if cond then g rule else rule) → items b f.
Proof.
  intros Hw Hb Ht Hg Hf.
  eapply (items_item t (mret tt) (λ _, g) cond w tt); eauto using reads_ret.
Qed.

Lemma Ok_inj {A} (a b : A) : Ok a = Ok b → a = b.
Proof. by intros [=]. Qed.

Lemma since_Ok version v message b b' : since version v message b = Ok b' → b' = b.
Proof. unfold since. destruct (Z.ltb _ _); [done|]. by intros [= <-]. Qed.

Lemma CIDR_Ok t value set b :
  cidr_set value = Ok set → writeRuleItemCIDR t value = Ok b →
  b = Z_byte (item_number t) :: writeIPSet set.
Proof.
  unfold cidr_set, writeRuleItemCIDR. intros (builder & Hb & Hs)%bind_Ok. rewrite Hb. cbn.
  rewrite Hs. cbn. by intros [= <-].
Qed.

(** What the items of [write_items_common] and of [write_items_versioned] do to a rule. *)
Definition read_common (rule : DefaultHeadlessOptions) (generateVersion : Z)
    (source destination : option IPSet) : list (DefaultHeadlessOptions → DefaultHeadlessOptions) :=
  [ λ r, r <| ho_QueryType := pick (ho_QueryType rule) (ho_QueryType r) |>;
    λ r, r <| ho_Network := pick (ho_Network rule) (ho_Network r) |>;
    λ r, r <| ho_DomainMatcher :=
      if nonempty (ho_Domain rule) || nonempty (ho_DomainSuffix rule)
      then Some (domain_NewMatcher (ho_Domain rule) (ho_DomainSuffix rule)
                   (Z.eqb generateVersion RuleSetVersion1)) else ho_DomainMatcher r |>;
    λ r, r <| ho_DomainKeyword := pick (ho_DomainKeyword rule) (ho_DomainKeyword r) |>;
    λ r, r <| ho_DomainRegex := pick (ho_DomainRegex rule) (ho_DomainRegex r) |>;
    λ r, r <| ho_SourceIPSet := if nonempty (ho_SourceIPCIDR rule) then source else ho_SourceIPSet r |>;
    λ r, r <| ho_IPSet := if nonempty (ho_IPCIDR rule) then destination else ho_IPSet r |>;
    λ r, r <| ho_SourcePort := pick (ho_SourcePort rule) (ho_SourcePort r) |>;
    λ r, r <| ho_SourcePortRange := pick (ho_SourcePortRange rule) (ho_SourcePortRange r) |>;
    λ r, r <| ho_Port := pick (ho_Port rule) (ho_Port r) |>;
    λ r, r <| ho_PortRange := pick (ho_PortRange rule) (ho_PortRange r) |>;
    λ r, r <| ho_ProcessName := pick (ho_ProcessName rule) (ho_ProcessName r) |>;
    λ r, r <| ho_ProcessPath := pick (ho_ProcessPath rule) (ho_ProcessPath r) |>;
    λ r, r <| ho_ProcessPathRegex := pick (ho_ProcessPathRegex rule) (ho_ProcessPathRegex r) |>;
    λ r, r <| ho_PackageName := pick (ho_PackageName rule) (ho_PackageName r) |> ].
Definition read_versioned (rule : DefaultHeadlessOptions)
    : list (DefaultHeadlessOptions → DefaultHeadlessOptions) :=
  [ λ r, r <| ho_NetworkType := pick (ho_NetworkType rule) (ho_NetworkType r) |>;
    λ r, r <| ho_NetworkIsExpensive := ho_NetworkIsExpensive rule || ho_NetworkIsExpensive r |>;
    λ r, r <| ho_NetworkIsConstrained :=
      ho_NetworkIsConstrained rule || ho_NetworkIsConstrained r |>;
    λ r, r <| ho_NetworkInterfaceAddress :=
      if some_interfaces (ho_NetworkInterfaceAddress rule)
      then Some (prod_map id rebuild <$> default [] (ho_NetworkInterfaceAddress rule))
      else ho_NetworkInterfaceAddress r |>;
    λ r, r <| ho_DefaultInterfaceAddress :=
      if nonempty (ho_DefaultInterfaceAddress rule)
      then rebuild (ho_DefaultInterfaceAddress rule) else ho_DefaultInterfaceAddress r |>;
    λ r, r <| ho_WIFISSID := pick (ho_WIFISSID rule) (ho_WIFISSID r) |>;
    λ r, r <| ho_WIFIBSSID := pick (ho_WIFIBSSID rule) (ho_WIFIBSSID r) |>;
    λ r, r <| ho_AdGuardDomainMatcher :=
      if nonempty (ho_AdGuardDomain rule)
      then Some (domain_NewAdGuardMatcher (ho_AdGuardDomain rule))
      else ho_AdGuardDomainMatcher r |> ].

(** One item that is written in full, by what it reads. *)
Ltac solve_item reading :=
  let w := fresh "w" in let Hw := fresh "Hw" in
  intros w Hw; eapply items_item;
  [ exact Hw
  | let w' := fresh "w" in intros _ w'; first
      [ intros ->%since_Ok | intros <-%Ok_inj ]; eexists; split; [reflexivity|apply reading; done]
  | discriminate | intros; reflexivity
  | let r := fresh "r" in intros r; unfold pick; destruct r; case_match; reflexivity ].

Lemma items_cidr t value set o f b :
  write_if (nonempty value) (wrap_err [AStr set] (writeRuleItemCIDR t value)) = Ok b →
  cidr_field value = Ok o → fits_cidr value → t ≠ ruleItemFinal → ∀ sets,
  (∀ rule, readRuleItem t false rule = (v ← readIPSet; mret (sets v rule))) →
  (∀ rule, f rule = if nonempty value then match o with Some s => sets s rule | None => f rule end
                    else rule) → items b f.
Proof.
  unfold cidr_field. intros Hw Ho Hv Ht sets Hset Hf. destruct (nonempty value) eqn:Hn.
  - apply fmap_Ok in Ho as (s & Hs & <-). cbn in Hf.
    eapply (items_item t readIPSet sets true _ s); eauto. intros _ b' Hb'%wrap_err_Ok. eexists. split; [by eapply CIDR_Ok|]. by apply reads_set, Hv.
  - injection Hw as <-. exists O. split; [done|]. intros fuel last rule. exists last. intros rest.
    by rewrite Hf.
Qed.

Ltac solve_cidr :=
  let w := fresh "w" in let Hw := fresh "Hw" in
  intros w Hw; eapply items_cidr;
  [ exact Hw | eassumption | done | discriminate | intros; reflexivity
  | let r := fresh "r" in intros r; destruct r; case_match; [case_match|]; reflexivity ].

Lemma common_items rule v source destination b :
  fits_default rule → cidr_field (ho_SourceIPCIDR rule) = Ok source →
  cidr_field (ho_IPCIDR rule) = Ok destination →
  write_all (write_items_common rule v) = Ok b →
  items b (λ r, fold_left (λ r f, f r) (read_common rule v source destination) r).
Proof.
  intros [] Hs Hd Hb. apply (write_all_items _ _ _ Hb).
  unfold write_items_common, read_common.
  repeat first [apply Forall2_nil_2|apply Forall2_cons_2].
  - solve_item reads_uint16s.
  - solve_item reads_strings.
  - solve_item Matcher_read_write.
  - solve_item reads_strings.
  - solve_item reads_strings.
  - solve_cidr.
  - solve_cidr.
  - solve_item reads_uint16s.
  - solve_item reads_strings.
  - solve_item reads_uint16s.
  - solve_item reads_strings.
  - solve_item reads_strings.
  - solve_item reads_strings.
  - solve_item reads_strings.
  - solve_item reads_strings.
Qed.

Ltac solve_flag :=
  let w := fresh "w" in let Hw := fresh "Hw" in
  intros w Hw; eapply items_flag;
  [ exact Hw | let w' := fresh "w" in intros w'; apply since_Ok | discriminate
  | intros; reflexivity
  | let r := fresh "r" in intros r; destruct r; case_match; reflexivity ].

Lemma versioned_items rule v b :
  fits_default rule → write_all (write_items_versioned rule v) = Ok b →
  items b (λ r, fold_left (λ r f, f r) (read_versioned rule) r).
Proof.
  intros [] Hb. apply (write_all_items _ _ _ Hb).
  unfold write_items_versioned, read_versioned.
  repeat first [apply Forall2_nil_2|apply Forall2_cons_2].
  - destruct fits_NetworkType0. solve_item reads_uint8s.
  - solve_flag.
  - solve_flag.
  - solve_item reads_interface_map.
  - solve_item reads_prefixes.
  - solve_item reads_strings.
  - solve_item reads_strings.
  - solve_item AdGuardMatcher_read_write.
Qed.

Lemma fold_read rule v source destination inv :
  cidr_field (ho_SourceIPCIDR rule) = Ok source → cidr_field (ho_IPCIDR rule) = Ok destination →
  ho_Invert rule = inv →
  fold_left (λ r f, f r) (read_common rule v source destination ++ read_versioned rule)
    DefaultHeadlessOptions_zero <| ho_Invert := inv |>
  = compiled_default v rule source destination.
Proof.
  intros Hs Hd <-. assert (∀ l o, cidr_field l = Ok o → (if nonempty l then o else None) = o) as Ho.
  { unfold cidr_field. intros l o Hlo. destruct (nonempty l); [done|]. by injection Hlo as <-. }
  destruct rule. cbn in *.
  rewrite !pick_nil, (Ho _ _ Hs), (Ho _ _ Hd), !orb_false_r. unfold compiled_default. cbn.
  f_equal. match goal with |- (if nonempty ?l then _ else _) = _ => by destruct l end.
Qed.

Lemma write_all_singleton w b : write_all [w] = Ok b → w = Ok b.
Proof.
  intros (b1 & b2 & Hw & Hl & ->)%write_all_cons. injection Hl as <-. by rewrite app_nil_r.
Qed.

Lemma cidr_field_written rule v b :
  writeDefaultRule rule v = Ok b →
  (∃ s, cidr_field (ho_SourceIPCIDR rule) = Ok s) ∧ (∃ d, cidr_field (ho_IPCIDR rule) = Ok d).
Proof.
  intros Hb.
  assert (∀ value message t,
    write_if (nonempty value) (wrap_err [AStr message] (writeRuleItemCIDR t value))
    ∈ write_items_common rule v → ∃ o, cidr_field value = Ok o) as Hc.
  { intros value message t Hin. unfold cidr_field. destruct (nonempty value) eqn:Hn; [|eauto].
    destruct (write_all_elem _ _ _ Hb (proj2 (elem_of_app _ _ _)
      (or_intror (proj2 (elem_of_app _ _ _) (or_introl Hin))))) as [b' Hb'].
    cbn in Hb'. apply wrap_err_Ok in Hb'. unfold writeRuleItemCIDR in Hb'.
    apply bind_Ok in Hb' as (builder & H1b & (set & H2b & _)%bind_Ok).
    exists (Some set). unfold cidr_set. rewrite H1b. cbn. by rewrite H2b. }
  split; [eapply Hc; do 5 apply list_elem_of_further; apply list_elem_of_here|].
  eapply Hc; do 6 apply list_elem_of_further; apply list_elem_of_here.
Qed.

Lemma default_roundtrip rule v b :
  fits_default rule → writeDefaultRule rule v = Ok b →
  ∃ body rule', b = Z_byte 0 :: body ∧ compile_default v rule = Ok rule' ∧
    reads (readDefaultRule false) body rule'.
Proof.
  intros Hf Hb. destruct (cidr_field_written _ _ _ Hb) as [[s Hs] [d Hd]].
  unfold compile_default. rewrite Hs, Hd. cbn. unfold writeDefaultRule in Hb.
  apply write_all_app in Hb as (b0 & b' & H0b%write_all_singleton & Hb & ->).
  apply Ok_inj in H0b as <-. exists b', (compiled_default v rule s d).
  split; [done|]. split; [done|].
  apply write_all_app in Hb as (b1 & b'' & H1b & Hb & ->).
  apply write_all_app in Hb as (b2 & b3 & H2b & H3b%write_all_singleton & ->).
  apply Ok_inj in H3b as <-.
  destruct (items_app _ _ _ _ (common_items _ _ _ _ _ Hf Hs Hd H1b)
              (versioned_items _ _ _ Hf H2b)) as (turns & Hturns & Hi).
  intros rest. unfold readDefaultRule.
  rewrite length_app in Hturns.
  set (all := (b1 ++ b2 ++ _) ++ rest).
  assert (length all = (turns + (length all - turns))%nat) as Hall.
  { unfold all. rewrite !length_app. lia. }
  rewrite Hall, plus_n_Sm. unfold all at 2.
  rewrite app_assoc, <-app_assoc.
  destruct (Hi (S (length all - turns)) 0 DefaultHeadlessOptions_zero) as [last' Hl]. rewrite Hl.
  cbn [readDefaultRule_loop]. unfold mbind at 1, Reader_bind at 1.
  change ((?t :: ?w) ++ rest) with ([t] ++ (w ++ rest)).
  rewrite (reads_item_type ruleItemFinal), item_of_number_number. unfold readRuleItem.
  rewrite (reads_last ReadBool _ _ _ (reads_bool (ho_Invert rule))).
  rewrite <-(fold_read rule v s d _ Hs Hd eq_refl). rewrite fold_left_app. done.
Qed.

Lemma write_all_head b1 l b :
  write_all (Ok b1 :: l) = Ok b → ∃ b2, write_all l = Ok b2 ∧ b = b1 ++ b2.
Proof. intros (b' & b2 & [= <-] & Hl & ->)%write_all_cons. eauto. Qed.

Lemma writeRule_bytes v rule b : writeRule v rule = Ok b → (1 ≤ length b)%nat.
Proof.
  destruct rule as [type d l]. cbn [writeRule]. destruct (String.eqb type "default").
  { intros (b2 & _ & ->)%(write_all_head [Z_byte 0]). cbn. lia. }
  destruct (String.eqb type "logical"); [|done].
  unfold writeLogicalRule. cbn [app].
  intros (b2 & _ & ->)%write_all_head. cbn. lia.
Qed.

(** A list of rules that are written one after the other, from what holds of each. *)
Lemma rules_roundtrip v fuel parts (rules : list HeadlessRuleOptions) b i :
  (∀ rule b, rule ∈ rules → (length b ≤ fuel)%nat → writeRule v rule = Ok b →
     ∃ rule', compile_rule v rule = Ok rule' ∧ reads (readRule fuel false) b rule') →
  (length b ≤ fuel)%nat → write_all (writeRule v <$> rules) = Ok b →
  ∃ rules', mapi_res (λ _, compile_rule v) rules = Ok rules' ∧
    reads (read_times (length rules) i (λ i, reader_cause (parts i) (readRule fuel false))) b rules'.
Proof.
  unfold mapi_res. generalize O as n. revert b i.
  induction rules as [|rule rules IH]; intros b i n Hr Hlen Hb.
  { injection Hb as <-. exists []. split; [done|apply reads_ret]. }
  apply write_all_cons in Hb as (b1 & b2 & H1b & H2b & ->). rewrite length_app in Hlen.
  destruct (Hr rule b1 (list_elem_of_here _ _)) as (rule' & Hc & Hrr); [lia|done|].
  destruct (IH b2 (i + 1) (S n)) as (rules' & Hcs & Hrs); [|lia|done|].
  { intros rule'' b Hin. apply Hr. by right. }
  exists (rule' :: rules'). cbn [mapi_res_from]. rewrite Hc. cbn. rewrite Hcs. split; [done|].
  eapply reads_bind; [by apply reads_cause|]. by apply (reads_last _ (λ l, rule' :: l)).
Qed.

Lemma logical_fits size (l : list HeadlessRuleOptions) :
  fits_length size l ∧ foldr (λ sub P, fits_rule sub ∧ P) True l → Forall fits_rule l.
Proof. intros [_ Hl]. induction l as [|r l IH]; constructor; [apply Hl|]. apply IH, Hl. Qed.

Lemma logical_roundtrip v fuel (l : LogicalOptions HeadlessRuleOptions ()) b :
  fits_length sizeof_HeadlessRule (lo_Rules l) →
  (∀ rule b, rule ∈ lo_Rules l → (length b ≤ fuel)%nat → writeRule v rule = Ok b →
     ∃ rule', compile_rule v rule = Ok rule' ∧ reads (readRule fuel false) b rule') →
  (length b ≤ S fuel)%nat → writeLogicalRule (writeRule v) l = Ok b →
  ∃ body rules', b = Z_byte 1 :: body ∧ mapi_res (λ _, compile_rule v) (lo_Rules l) = Ok rules' ∧
    reads (readLogicalRule (readRule fuel false)) body
      (mkLogicalOptions (lo_Mode l) rules' (lo_Invert l) tt).
Proof.
  unfold writeLogicalRule. cbn [app]. intros Hfl Hr Hlen (b' & Hb & ->)%write_all_head.
  apply write_all_cons in Hb as (bm & b2 & Hm & Hb & ->).
  apply write_all_head in Hb as (b3 & Hb & ->).
  apply write_all_app in Hb as (brs & bi & Hb & Hi%write_all_singleton & ->).
  apply Ok_inj in Hi as <-. rewrite !length_app in Hlen. cbn in Hlen.
  destruct (rules_roundtrip v fuel (λ i, [AStr "read logical rule ["; AInt i; AStr "]"])
              (lo_Rules l) brs 0 Hr ltac:(lia) Hb) as (rules' & Hc & Hrr).
  exists (bm ++ write_length (lo_Rules l) ++ brs ++ write_bool (lo_Invert l)), rules'.
  split; [done|]. split; [done|]. unfold readLogicalRule.
  assert (∃ m, bm = [m] ∧ (if Z.eqb (byte_Z m) 0 then Ok "and"%string
    else if Z.eqb (byte_Z m) 1 then Ok "or"%string
    else Err (E_New [AStr "unknown logical mode: "; AInt (byte_Z m)])) = Ok (lo_Mode l))
    as (m & -> & Hmode).
  { destruct (String.eqb_spec (lo_Mode l) "and") as [->|_]; [|
      destruct (String.eqb_spec (lo_Mode l) "or") as [->|_]; [|done]];
    apply Ok_inj in Hm as <-; eauto. }
  eapply reads_bind; [apply reads_byte|]. rewrite Hmode.
  rewrite <-(app_nil_l (write_length _ ++ _)). eapply reads_bind; [done|]. cbv beta.
  pose proof sizeof_HeadlessRule_pos. apply reads_length; [lia|done|]. rewrite Nat2Z.id.
  eapply reads_bind; [exact Hrr|].
  by apply (reads_last ReadBool (λ inv, mkLogicalOptions (lo_Mode l) rules' inv tt)), reads_bool.
Qed.

Lemma rule_roundtrip v rule : ∀ fuel b,
  fits_rule rule → (length b ≤ fuel)%nat → writeRule v rule = Ok b →
  ∃ rule', compile_rule v rule = Ok rule' ∧ reads (readRule fuel false) b rule'.
Proof.
  induction rule as [type d l IH] using OptionTree_ind'. intros fuel b Hf Hlen Hb.
  pose proof (writeRule_bytes _ _ _ Hb). destruct fuel as [|fuel]; [lia|].
  cbn [writeRule compile_rule fits_rule readRule] in *.
  destruct (String.eqb_spec type "default") as [->|_].
  { destruct (default_roundtrip _ _ _ Hf Hb) as (body & d' & -> & Hc & Hr). rewrite Hc.
    eexists. split; [done|]. change (Z_byte 0 :: body) with (be_bytes 1 0 ++ body).
    eapply reads_bind; [by apply (reads_be 1 0)|].
    by apply (reads_last _ (λ d, mkOptionTree "default" d logical_zero)). }
  destruct (String.eqb_spec type "logical") as [->|_]; [|done].
  pose proof (logical_fits _ _ Hf) as Hfs. destruct Hf as [Hfl _].
  destruct (logical_roundtrip v fuel l b Hfl) as (body & rules' & -> & Hc & Hr); [|lia|done|].
  { intros rule b' Hin. apply IH; [done|]. by apply (Forall_elem _ _ _ Hfs). }
  rewrite Hc. eexists. split; [done|]. change (Z_byte 1 :: body) with (be_bytes 1 1 ++ body).
  eapply reads_bind; [by apply (reads_be 1 1)|]. cbn [Z.eqb Pos.eqb].
  by apply (reads_last _ (λ l, mkOptionTree "logical" DefaultHeadlessOptions_zero l)).
Qed.

Lemma reads_header v : is_u 8 v → v ≤ RuleSetVersionCurrent →
  reads read_header (MagicBytes ++ be_bytes 1 v) v.
Proof.
  intros Hv Hcur. eapply reads_bind; [by apply reads_full|]. rewrite bool_decide_true by done.
  cbn [negb]. rewrite <-(app_nil_r (be_bytes 1 v)). eapply reads_bind; [by apply reads_be|].
  rewrite (proj2 (Z.ltb_ge _ _) Hcur). apply reads_ret.
Qed.

(** C7: what [Write] puts in a file, [Read] gives back as the rules compiled: every field of every
    default rule that is not a domain, an address range or a list of interface addresses as it was,
    and those as the matchers and sets they are compiled to; the tree of logical rules, the modes
    and the inversions as they were.  The version is the one that was written. *)
Theorem Write_Read rules v file :
  is_u 8 v → v ≤ RuleSetVersionCurrent → fits_length sizeof_HeadlessRule rules →
  Forall fits_rule rules → Write rules v = Ok file →
  ∃ rules', mapi_res (λ _, compile_rule v) rules = Ok rules' ∧
    Read file false = Ok (mkPlainRuleSetCompat v rules').
Proof.
  intros Hv Hcur Hfl Hf (body & Hb & Hfile%Ok_inj)%bind_Ok. subst file.
  apply write_all_head in Hb as (brs & Hb & ->).
  destruct (rules_roundtrip v (S (length (write_length rules ++ brs)))
    (λ i, [AStr "read rule["; AInt i; AStr "]"]) rules brs 0)
    as (rules' & Hc & Hr); [|rewrite length_app; lia|done|].
  { intros rule b Hin Hlen. apply rule_roundtrip; [by apply (Forall_elem _ _ _ Hf)|done]. }
  exists rules'. split; [done|].
  assert (1 ≤ sizeof_HeadlessRule) as Hsize by (pose proof sizeof_HeadlessRule_pos; lia).
  pose proof (reads_length sizeof_HeadlessRule rules
    (λ n, read_times (Z.to_nat n) 0 (λ i, reader_cause [AStr "read rule["; AInt i; AStr "]"]
       (readRule (S (length (write_length rules ++ brs))) false))) brs rules' Hsize Hfl) as Hl.
  cbv beta in Hl. rewrite Nat2Z.id in Hl. specialize (Hl Hr []). rewrite app_nil_r in Hl.
  change (read_rules false (write_length rules ++ brs) = (Ok rules', [])) in Hl. unfold Read.
  rewrite app_assoc, (reads_header v Hv Hcur), zlib_read_write. unfold mbind, res_bind.
  by rewrite Hl.
Qed.

End Roundtrip.

(** ** The fuel is enough *)

Section Termination.
Context `{ExtLib} `{VarbinLib} `{!SrsLib}.

(** [takes] for the bytes of at most some length. *)
Definition takes_upto {A} (n : nat) (r : Reader A) : Prop := ∀ s, (length s ≤ n)%nat →
  (length (r s).2 ≤ length s)%nat ∧ (r s).1 ≠ Panic out_of_fuel.

Lemma takes_takes_upto {A} n (r : Reader A) : takes r → takes_upto n r.
Proof. intros Hr s _. apply Hr. Qed.

Lemma takes_ret {A} n (a : A) : takes_upto n (mret a).
Proof. by intros s _. Qed.

Lemma takes_bind {A B} n (r : Reader A) (k : A → Reader B) :
  takes_upto n r → (∀ a, takes_upto n (k a)) → takes_upto n (r ≫= k).
Proof.
  intros Hr Hk s Hs. destruct (Hr s Hs) as [Hl Hp]. unfold mbind, Reader_bind.
  destruct (r s) as [[a| |] s']; cbn in *; [|split; [done|congruence]..].
  destruct (Hk a s') as [Hl' Hp']; [lia|]. split; [lia|done].
Qed.

Lemma takes_fmap {A B} n (f : A → B) (r : Reader A) : takes_upto n r → takes_upto n (f <$> r).
Proof.
  intros Hr s Hs. destruct (Hr s Hs) as [Hl Hp]. unfold fmap, Reader_fmap.
  destruct (r s) as [[a| |] s']; cbn in *; (split; [done|congruence]).
Qed.

Lemma takes_cause {A} n parts (r : Reader A) : takes_upto n r → takes_upto n (reader_cause parts r).
Proof.
  intros Hr s Hs. destruct (Hr s Hs) as [Hl Hp]. unfold reader_cause.
  destruct (r s) as [[a| |] s']; cbn in *; (split; [done|congruence]).
Qed.

Lemma takes_res {A} n (r : res A) : r ≠ Panic out_of_fuel → takes_upto n (of_res r).
Proof. by intros Hr s _. Qed.

Lemma takes_full n k : takes_upto n (ReadFull k).
Proof.
  intros s _. unfold ReadFull. destruct (Nat.ltb _ _); cbn; (split; [|done]); [lia|].
  rewrite length_drop. lia.
Qed.

Lemma takes_byte n : takes_upto n ReadByte.
Proof. by intros [|b s] _; cbn; (split; [lia|]). Qed.

Lemma takes_uvarint n : takes_upto n ReadUvarint.
Proof.
  assert (∀ togo first x sh, takes_upto n (ReadUvarint_loop togo first x sh)) as Hl; [|apply Hl].
  induction togo as [|togo IH]; intros first x sh s Hs; [done|].
  cbn [ReadUvarint_loop]. cbv zeta.
  destruct s as [|b s]; [done|]. destruct (Z.ltb (byte_Z b) 128).
  - destruct (_ && _); (split; [apply le_S, le_n|done]).
  - edestruct (IH false) as [Hl Hp]; [apply Nat.lt_le_incl, Hs|]. split; [|exact Hp].
    etrans; [exact Hl|apply le_S, le_n].
Qed.

Lemma takes_makeslice n size k : takes_upto n (makeslice size k).
Proof. apply takes_res. by destruct (Z.ltb _ _). Qed.

Lemma takes_times {A} n k i (read : Z → Reader A) :
  (∀ i, takes_upto n (read i)) → takes_upto n (read_times k i read).
Proof.
  intros Hr. revert i. induction k as [|k IH]; intros i; cbn [read_times]; [apply takes_ret|].
  apply takes_bind; [done|]. intros a. apply takes_bind; [done|]. intros l. apply takes_ret.
Qed.

Create HintDb takes.
#[local] Hint Resolve takes_ret takes_bind takes_fmap takes_cause takes_full takes_byte
  takes_uvarint takes_makeslice takes_times : takes.
#[local] Hint Extern 2 (takes_upto _ (of_res _)) => apply takes_res; split_match : takes.
Ltac takes := intros; eauto 20 with takes.

Lemma takes_be n k : takes_upto n (ReadBE k).
Proof. apply takes_fmap, takes_full. Qed.
#[local] Hint Resolve takes_be : takes.

Lemma takes_strings n : takes_upto n readRuleItemString.
Proof. unfold readRuleItemString, read_string. takes. Qed.
Lemma takes_uint8s n : takes_upto n readRuleItemUint8.
Proof. unfold readRuleItemUint8. takes. Qed.
Lemma takes_uint16s n : takes_upto n readRuleItemUint16.
Proof. unfold readRuleItemUint16, ReadBE16s. takes. Qed.
Lemma takes_slice n : takes_upto n read_slice.
Proof. unfold read_slice. takes. Qed.
#[local] Hint Resolve takes_strings takes_uint8s takes_uint16s takes_slice : takes.
Lemma takes_set n : takes_upto n readIPSet.
Proof.
  unfold readIPSet, read_range. apply takes_bind; [takes|]. intros version.
  destruct (negb _); takes.
Qed.
Lemma takes_prefixes n : takes_upto n read_prefixes.
Proof. unfold read_prefixes, readPrefix. takes. Qed.
#[local] Hint Resolve takes_set takes_prefixes : takes.
Lemma takes_interfaces n k : ∀ m, takes_upto n (read_interfaces k m).
Proof.
  induction k as [|k IH]; intros m; cbn [read_interfaces]; [takes|]. unfold read_interface. takes.
Qed.
#[local] Hint Resolve takes_interfaces : takes.

Lemma takes_item t recover rule n : takes_upto n (readRuleItem t recover rule).
Proof.
  pose proof (takes_takes_upto n _ Matcher_read_takes).
  pose proof (takes_takes_upto n _ AdGuardMatcher_read_takes).
  destruct t; unfold readRuleItem, read_interface_map, ReadBool; takes.
Qed.

(** A number of one byte takes it, so that what follows has less. *)
Lemma takes_number {A} n (k : Z → Reader A) :
  (∀ m z, (m < n)%nat → takes_upto m (k z)) → takes_upto n (z ← ReadBE 1; k z).
Proof.
  intros Hk [|b s] Hs; [done|]. cbn in Hs.
  assert ((z ← ReadBE 1; k z) (b :: s) = k (byte_Z b) s) as -> by done.
  destruct (Hk (length s) (byte_Z b) ltac:(lia) s (le_n _)) as [Hl Hp].
  split; [cbn; lia|done].
Qed.

Lemma takes_default_loop recover : ∀ fuel n last rule, (n < fuel)%nat →
  takes_upto n (readDefaultRule_loop fuel recover last rule).
Proof.
  induction fuel as [|fuel IH]; intros n last rule Hn; [lia|]. cbn [readDefaultRule_loop].
  apply takes_number. intros m z Hm. destruct (item_of_number z) as [t|]; [|by apply takes_res].
  destruct t; try (apply takes_bind; [apply takes_item|intros; apply IH; lia]).
  apply takes_item.
Qed.

Lemma takes_default recover n : takes_upto n (readDefaultRule recover).
Proof.
  intros s Hs. apply (takes_default_loop recover (S (length s)) (length s)); lia.
Qed.

Lemma takes_rule recover : ∀ fuel n, (n < fuel)%nat → takes_upto n (readRule fuel recover).
Proof.
  induction fuel as [|fuel IH]; intros n Hn; [lia|]. cbn [readRule].
  apply takes_number. intros m z Hm. destruct (Z.eqb z 0).
  { apply takes_bind; [apply takes_default|takes]. }
  destruct (Z.eqb z 1); [|by apply takes_res].
  apply takes_bind; [|takes]. unfold readLogicalRule, ReadBool.
  assert (takes_upto m (readRule fuel recover)) by (apply IH; lia). takes.
Qed.

(** Reading a rule-set file ends, whatever the bytes: the loops over the items of a rule and
    over nested rules never need more turns than there are bytes. *)
Theorem Read_total reader recover : Read reader recover ≠ Panic out_of_fuel.
Proof.
  unfold Read. assert (takes_upto (length reader) read_header) as Hh.
  { unfold read_header. apply takes_bind; [takes|]. intros magic. destruct (negb _); [takes|].
    apply takes_bind; [takes|]. intros v. destruct (Z.ltb _ _); takes. }
  destruct (Hh reader (le_n _)) as [_ Hp].
  destruct (read_header reader) as [[v| |] compressed]; [|done|cbn in Hp; congruence].
  pose proof (zlib_own_panics compressed) as Hz.
  destruct (zlib_NewReader compressed) as [body| |]; unfold mbind, res_bind; [|done|congruence].
  assert (takes_upto (length body) (read_rules recover)) as Hr; [|].
  { intros s _. apply (takes_bind (length s) ReadUvarint); [takes| |lia]. intros k.
    apply takes_bind; [takes|]. intros _. apply takes_times. intros i. apply takes_cause.
    apply takes_rule. lia. }
  destruct (Hr body (le_n _)) as [_ Hb]. destruct (read_rules recover body) as [[l| |] rest]; cbn;
    [done..|cbn in Hb; congruence].
Qed.

End Termination.

(** ** Versions *)

Section Versions.
Context `{ExtLib} `{VarbinLib} `{!SrsLib}.

(** The fields that need version 4, and version 3. *)
Definition needs_version4 (rule : DefaultHeadlessOptions) : bool :=
  some_interfaces (ho_NetworkInterfaceAddress rule) || nonempty (ho_DefaultInterfaceAddress rule).
Definition needs_version3 (rule : DefaultHeadlessOptions) : bool :=
  nonempty (ho_NetworkType rule) || ho_NetworkIsExpensive rule || ho_NetworkIsConstrained rule.

(** Two versions that no item tells apart, among the rules without [need]. *)
Definition same_version (v v' : Z) (need : DefaultHeadlessOptions → bool) : Prop :=
  Z.eqb v RuleSetVersion1 = Z.eqb v' RuleSetVersion1 ∧
  Z.ltb v RuleSetVersion2 = Z.ltb v' RuleSetVersion2 ∧
  (Z.ltb v RuleSetVersion3 = Z.ltb v' RuleSetVersion3 ∨
   ∀ r, need r = false → needs_version3 r = false) ∧
  (Z.ltb v RuleSetVersion4 = Z.ltb v' RuleSetVersion4 ∨
   ∀ r, need r = false → needs_version4 r = false).

Lemma since_same v v' n (cond : bool) m b :
  Z.ltb v n = Z.ltb v' n ∨ cond = false →
  write_if cond (since n v m b) = write_if cond (since n v' m b).
Proof. unfold since. by intros [-> | ->]. Qed.

Lemma writeDefaultRule_same v v' need rule :
  same_version v v' need → need rule = false →
  writeDefaultRule rule v = writeDefaultRule rule v'.
Proof.
  intros (H1v & H2v & H3v & H4v) Hn. unfold writeDefaultRule.
  assert (write_items_common rule v = write_items_common rule v') as ->.
  { unfold write_items_common. by rewrite H1v. }
  assert (write_items_versioned rule v = write_items_versioned rule v') as ->; [|done].
  unfold write_items_versioned.
  assert (∀ c, (needs_version3 rule = false → c = false) →
    Z.ltb v RuleSetVersion3 = Z.ltb v' RuleSetVersion3 ∨ c = false) as H3c.
  { intros c Hc. destruct H3v as [|Hr]; [by left|right; auto]. }
  assert (∀ c, (needs_version4 rule = false → c = false) →
    Z.ltb v RuleSetVersion4 = Z.ltb v' RuleSetVersion4 ∨ c = false) as H4c.
  { intros c Hc. destruct H4v as [|Hr]; [by left|right; auto]. }
  unfold needs_version3, needs_version4 in *.
  repeat (apply (f_equal2 cons);
    [first [ reflexivity | apply since_same; first [apply H3c|apply H4c|by left];
             rewrite ?orb_false_iff; tauto ]|]).
  done.
Qed.

Lemma rules_same v v' need (rules : list HeadlessRuleOptions) :
  (∀ r, r ∈ rules → tree_has_rule need r = false → writeRule v r = writeRule v' r) →
  existsb (tree_has_rule need) rules = false →
  (writeRule v <$> rules) = (writeRule v' <$> rules).
Proof.
  intros Hs Hn. apply list_fmap_ext. intros i r Hr%list_elem_of_lookup_2. apply Hs; [done|].
  destruct (tree_has_rule need r) eqn:Hneed; [|done].
  rewrite <-not_true_iff_false, existsb_exists in Hn. destruct Hn. exists r.
  split; [by apply list_elem_of_In|done].
Qed.

Lemma writeRule_same v v' need rule :
  same_version v v' need → tree_has_rule need rule = false → writeRule v rule = writeRule v' rule.
Proof.
  intros Hs. induction rule as [type d l IH] using OptionTree_ind'. cbn [tree_has_rule writeRule].
  destruct (String.eqb type "default"); [by apply writeDefaultRule_same|].
  destruct (String.eqb type "logical"); [|done]. intros Hn. unfold writeLogicalRule.
  by rewrite (rules_same v v' need _ IH Hn).
Qed.

Lemma write_rules_same v v' need rules :
  same_version v v' need → HasHeadlessRule rules need = false →
  write_rules rules v' = write_rules rules v.
Proof.
  intros Hs Hn. unfold write_rules. rewrite (rules_same v v' need rules); [done| |done].
  intros r _. by apply writeRule_same.
Qed.

(** The version that [rule-set compile] lowers is one that still holds the rules: at most the
    version asked for, and the rules are written with the same bytes, or fail with the same error,
    so that the file differs in the byte of its version only. *)
Theorem downgrade_keeps_rules v rules :
  downgradeRuleSetVersion v rules ≤ v ∧
  write_rules rules (downgradeRuleSetVersion v rules) = write_rules rules v.
Proof.
  unfold downgradeRuleSetVersion. fold needs_version4 needs_version3.
  assert (∀ v n n' need, n' ≤ n → same_version n n' need →
    let v' := if Z.eqb v n && negb (HasHeadlessRule rules need) then n' else v in
    v' ≤ v ∧ write_rules rules v' = write_rules rules v) as Hstep.
  { intros w n n' need Hle Hs. destruct (Z.eqb_spec w n) as [->|]; [|done].
    destruct (HasHeadlessRule rules need) eqn:Hn; [done|]. split; [done|].
    by apply (write_rules_same n n' need). }
  destruct (Hstep v RuleSetVersion4 RuleSetVersion3 needs_version4) as [Hle Heq];
    [done|split_and!; auto|].
  set (w := if Z.eqb v _ && _ then _ else v) in *.
  destruct (Hstep w RuleSetVersion3 RuleSetVersion2 needs_version3) as [Hle' Heq'];
    [done|split_and!; auto|]. cbv zeta in *. split; [lia|congruence].
Qed.

End Versions.

(** ** A concrete format *)

(** A sequence whose every element follows a one, and that a zero ends. *)
Definition write_seq {A} (write : A → list byte) (l : list A) : list byte :=
  concat ((λ a, x01 :: write a) <$> l) ++ [x00].
Fixpoint read_seq_loop {A} (fuel : nat) (read : Reader A) : Reader (list A) :=
  match fuel with
  | O => of_res (Err io_EOF)
  | S fuel =>
      more ← ReadByte;
      if Z.eqb (byte_Z more) 0 then mret [] else
      a ← read; l ← read_seq_loop fuel read; mret (a :: l)
  end.
Definition read_seq {A} (read : Reader A) : Reader (list A) := λ s,
  read_seq_loop (length s) read s.

Lemma read_seq_reads {A} (read : Reader A) (write : A → list byte) l :
  (∀ a, reads read (write a) a) → reads (read_seq read) (write_seq write l) l.
Proof.
  intros Hr.
  assert (∀ fuel, (length l < fuel)%nat → reads (read_seq_loop fuel read) (write_seq write l) l) as Hl.
  { induction l as [|a l IH]; intros [|fuel] Hf; [cbn in Hf; lia|done|cbn in Hf; lia|].
    change (write_seq write (a :: l)) with (([x01] ++ write a ++ concat
      ((λ a, x01 :: write a) <$> l)) ++ [x00]). rewrite <-!app_assoc. cbn [read_seq_loop].
    eapply reads_bind; [apply reads_byte|]. cbn [Z.eqb byte_Z].
    eapply reads_bind; [apply Hr|]. apply (reads_last _ (λ l, a :: l)).
    apply IH. cbn in Hf. lia. }
  intros rest. unfold read_seq. apply Hl. unfold write_seq. rewrite !length_app. cbn.
  enough (length l ≤ length (concat ((λ a, x01 :: write a) <$> l)))%nat by lia. clear.
  induction l as [|a l IH]; [done|]. cbn. rewrite length_app. lia.
Qed.

Lemma read_seq_takes {A} (read : Reader A) n :
  (∀ n, takes_upto n read) → takes_upto n (read_seq read).
Proof.
  intros Hr. assert (∀ fuel, takes_upto n (read_seq_loop fuel read)) as Hl.
  { induction fuel as [|fuel IH]; [by apply takes_res|]. cbn [read_seq_loop].
    apply takes_bind; [apply takes_byte|]. intros more. destruct (Z.eqb _ _); [apply takes_ret|].
    apply takes_bind; [apply Hr|]. intros a. apply takes_bind; [apply IH|]. intros l.
    apply takes_ret. }
  intros s Hs. by apply Hl.
Qed.

Definition write_text (s : string) : list byte := write_seq (λ b, [b]) (bytes_of_string s).
Definition read_text : Reader string := string_of_bytes <$> read_seq ReadByte.
Lemma reads_text s : reads read_text (write_text s) s.
Proof.
  rewrite <-(String.string_of_list_byte_of_string s) at 2. apply reads_fmap, read_seq_reads.
  intros b. apply reads_byte.
Qed.
Lemma takes_text n : takes_upto n read_text.
Proof. apply takes_fmap, read_seq_takes. intros. apply takes_byte. Qed.

Definition sample_addr (b : list byte) : Addr :=
  if Nat.eqb (length b) 4 then Addr4 (be_val b) else
  if Nat.eqb (length b) 16 then Addr6 (be_val b) "" else AddrInvalid.

Definition sample_put {K V} `{EqDecision K} (k : K) (v : V) (l : list (K * V)) : list (K * V) :=
  if decide (k ∈ l.*1) then (λ e, if decide (e.1 = k) then (k, v) else e) <$> l
  else l ++ [(k, v)].

Definition sample_read_matcher : Reader (list string * list string) :=
  d ← read_seq read_text; s ← read_seq read_text; mret (d, s).

Definition sample_write_matcher (m : list string * list string) : list byte :=
  write_seq write_text m.1 ++ write_seq write_text m.2.

Lemma sample_matcher_reads m : reads sample_read_matcher (sample_write_matcher m) m.
Proof.
  destruct m as [d s]. unfold sample_read_matcher, sample_write_matcher.
  eapply reads_bind; [apply read_seq_reads, reads_text|].
  apply (reads_last _ (λ s, (d, s))), read_seq_reads, reads_text.
Qed.

Lemma takes_of_upto {A} (r : Reader A) : (∀ n, takes_upto n r) → takes r.
Proof. intros Hr s. by apply (Hr (length s)). Qed.

Lemma sample_matcher_takes : takes sample_read_matcher.
Proof.
  apply takes_of_upto. intros n. unfold sample_read_matcher.
  apply takes_bind; [apply read_seq_takes, takes_text|]. intros d.
  apply takes_bind; [apply read_seq_takes, takes_text|]. intros s. apply takes_ret.
Qed.

Lemma sample_addr_AsSlice a : Addr_wf a → Addr_IsValid a = true → Addr_withoutZone a = a →
  sample_addr (Addr_AsSlice a) = a.
Proof.
  unfold sample_addr. destruct a as [|v|v z]; [done|..]; cbn [Addr_AsSlice Addr_wf Addr_withoutZone];
    intros Hw _ Hz; rewrite be_bytes_length; cbn [Nat.eqb];
    rewrite be_roundtrip by exact Hw; [done|exact Hz].
Qed.

Lemma sample_put_new {K V} `{EqDecision K} (k : K) (v : V) l :
  k ∉ l.*1 → sample_put k v l = l ++ [(k, v)].
Proof. intros Hk. unfold sample_put. by rewrite decide_False. Qed.

#[local] Instance ex_ext : ExtLib := SampleLib.
#[local] Instance ex_varbin : VarbinLib := StdVarbin.

Definition SampleSrs : SrsLib := {|
  zlib_Write := id;
  zlib_NewReader := Ok;
  Matcher_Write := sample_write_matcher;
  domain_ReadMatcher := sample_read_matcher;
  Matcher_Dump m := m;
  AdGuardMatcher_Write := write_seq write_text;
  domain_ReadAdGuardMatcher := read_seq read_text;
  AdGuardMatcher_Dump m := m;
  IPSet_Prefixes s := (λ r, PrefixFrom (ipr_from r) 0) <$> s;
  M_AddrFromIP := sample_addr;
  Prefixable_of p := p;
  TypedMap_Put := @sample_put;
  sizeof_HeadlessRule := 1024;
  zlib_read_write _ := eq_refl;
  zlib_own_panics _ := ltac:(discriminate);
  Matcher_read_write := sample_matcher_reads;
  AdGuardMatcher_read_write m := read_seq_reads read_text write_text m reads_text;
  Matcher_read_takes := sample_matcher_takes;
  AdGuardMatcher_read_takes := takes_of_upto _ (λ n, read_seq_takes read_text n takes_text);
  AddrFromIP_AsSlice a Hw Hv Hz _ := sample_addr_AsSlice a Hw Hv Hz;
  TypedMap_Put_new := @sample_put_new;
  sizeof_HeadlessRule_pos := eq_refl
|}.

Section Examples.
#[local] Instance ex_srs : SrsLib := SampleSrs.

(** A rule with a domain and an address range, and the addresses of an interface. *)
Definition file_options : DefaultHeadlessOptions :=
  DefaultHeadlessOptions_zero <| ho_Domain := ["a.test"%string] |>
    <| ho_IPCIDR := ["10.0.0.0/8"%string] |> <| ho_Port := [443] |>
    <| ho_NetworkInterfaceAddress :=
         Some [(InterfaceTypeWIFI, [Some (PrefixFrom' (Addr4 0xC0A80000) 16)])] |>.
Definition file_rule : HeadlessRuleOptions := mkOptionTree "default" file_options logical_zero.
Definition file_logical : HeadlessRuleOptions :=
  mkOptionTree "logical" DefaultHeadlessOptions_zero (mkLogicalOptions "or" [file_rule] true tt).

Lemma fits_length_nil {A} size : fits_length size (@nil A).
Proof. unfold fits_length, max_alloc. cbn. lia. Qed.
Lemma fits_strings_nil : fits_strings [].
Proof. split; [apply fits_length_nil|constructor]. Qed.
Lemma fits_uint16s_nil : fits_uint16s [].
Proof. split; [apply fits_length_nil|constructor]. Qed.
Lemma fits_addr4 v : is_u 32 v → fits_addr (Addr4 v).
Proof. intros Hv. split; [exact Hv|done]. Qed.

Lemma file_options_fit : fits_default file_options.
Proof.
  split; try apply fits_strings_nil; try apply fits_uint16s_nil.
  - intros set [= <-]. split; [apply fits_length_nil|constructor].
  - intros set [= <-]. split; [done|]. constructor; [|constructor].
    split; by apply fits_addr4.
  - split; [done|]. by constructor.
  - split; [apply fits_length_nil|constructor].
  - split; [done|]. split; [apply NoDup_singleton|]. constructor; [|constructor].
    split; [done|]. split; [done|]. constructor; [|constructor].
    split; [by apply fits_addr4|done].
  - split; [apply fits_length_nil|constructor].
Qed.

Lemma Write_Read_witness :
  ∃ file rules, Write [file_logical; file_rule] 4 = Ok file ∧
    Read file false = Ok (mkPlainRuleSetCompat 4 rules) ∧ length rules = 2%nat.
Proof.
  destruct (Write [file_logical; file_rule] 4) as [file| |] eqn:Hw; [|discriminate..].
  destruct (Write_Read [file_logical; file_rule] 4 file) as (rules & Hc & Hr).
  - split; done.
  - done.
  - done.
  - pose proof file_options_fit. constructor; [|by constructor]. cbn. split; [done|by split].
  - exact Hw.
  - exists file, rules. split; [done|]. split; [exact Hr|]. by apply mapi_res_from_Ok in Hc as [? _].
Defined.

(** A length that no slice can have makes the reader panic. *)
Lemma read_huge_length :
  Read (MagicBytes ++ [x01] ++ (Z_byte <$> [0xff; 0xff; 0xff; 0xff; 0xff; 0xff; 0xff; 0xff; 1])) false
  = Panic [AStr "makeslice: len out of range"].
Proof. reflexivity. Qed.

End Examples.
