(* ===== verification/Rules.v ===== *)
(** * Routing rules (route/rule/rule_default.go, rule_item_rule_set.go)

    The rules of the router: default and logical rules over all the items, the rule-set item
    included.  Rule sets are shared objects: an item refers to them by tag and reads the set the
    router holds at the moment of the match. *)

From stdpp Require Import base gmap strings list numbers.
From S2P Require Import Prelude GoStd Netip Adapter SetItems AddrItems RuleAction RuleOptions.
From S2P Require Import RuleItem RuleMatch RuleSet.

Local Open Scope Z_scope.

Section Rules.
Context `{ExtLib} `{ActionLib}.

(** ** The rule-set item *)

(** The rule sets of the router by tag: the objects behind the references of the items. *)
Definition RuleSets : Type := gmap string LocalRuleSet.

(** The object of a reference.  [Start] only keeps references it found, and the router never
    removes an entry, so the default is never used. *)
Definition rule_set_at (sets : RuleSets) (tag : string) : LocalRuleSet :=
  default (mkLocalRuleSet tag [] (mkRuleSetMetadata false false false) [] 0) (sets !! tag).

(** [route/rule/rule_item_rule_set.go:14-20] RuleSetItem *)
Record RuleSetItem : Type := mkRuleSetItem {
  si_tagList : list string;
  si_setList : list string;
  si_ipCidrMatchSource : bool;
  si_ipCidrAcceptEmpty : bool
}.

(** [route/rule/rule_item_rule_set.go:22-29] NewRuleSetItem *)
Definition NewRuleSetItem (tagList : list string) (ipCIDRMatchSource ipCidrAcceptEmpty : bool)
    : RuleSetItem := mkRuleSetItem tagList [] ipCIDRMatchSource ipCidrAcceptEmpty.

(** [route/router.go:192-195] (Router).RuleSet *)
Definition Router_RuleSet (sets : RuleSets) (tag : string) : option LocalRuleSet := sets !! tag.

(** The loop over the tags: the sets found before an error have been referenced.

    [route/rule/rule_item_rule_set.go:31-41] (RuleSetItem).Start *)
Fixpoint start_rule_sets (tags : list string) (sets : RuleSets) (setList : list string)
    : res (list string) * RuleSets :=
  match tags with
  | [] => (Ok setList, sets)
  | tag :: tags' =>
      match Router_RuleSet sets tag with
      | None => (Err (E_New [AStr "rule-set not found: "; AStr tag]), sets)
      | Some ruleSet =>
          start_rule_sets tags' (<[tag := LocalRuleSet_IncRef ruleSet]> sets) (setList ++ [tag])
      end
  end.

(** [route/rule/rule_item_rule_set.go:43-52] (RuleSetItem).Match *)
Definition RuleSetItem_Match (env : Env) (sets : RuleSets) (r : RuleSetItem)
    (metadata : InboundContext) : bool * InboundContext :=
  let metadata :=
    upd_cache (λ c, c <| IPCIDRMatchSource := si_ipCidrMatchSource r |>
                      <| IPCIDRAcceptEmpty := si_ipCidrAcceptEmpty r |>) metadata in
  any_st (λ tag, LocalRuleSet_Match env (rule_set_at sets tag)) (si_setList r) metadata.

(** [route/rule/rule_item_rule_set.go:54-61] (RuleSetItem).ContainsDestinationIPCIDRRule *)
Definition ContainsDestinationIPCIDRRule (sets : RuleSets) (r : RuleSetItem) : bool :=
  if si_ipCidrMatchSource r then false
  else existsb (λ tag, ContainsIPCIDRRule (ls_metadata (rule_set_at sets tag))) (si_setList r).

(** [route/rule/rule_item_rule_set.go:63-69] (RuleSetItem).String *)
Definition RuleSetItem_String (r : RuleSetItem) : string :=
  match si_tagList r with
  | [x] => F_ToString [AStr "rule_set="; AStr x]
  | l => F_ToString [AStr "rule_set=["; AStr (strings_Join l " "); AStr "]"]
  end.

(** ** All the items *)

Inductive RouteItem : Type :=
| Basic (it : BasicItem)
| RuleSetI (r : RuleSetItem).

Definition RouteItem_Match (env : Env) (sets : RuleSets) (it : RouteItem)
    (metadata : InboundContext) : bool * InboundContext :=
  match it with
  | Basic it => (BasicItem_Match env it metadata, metadata)
  | RuleSetI r => RuleSetItem_Match env sets r metadata
  end.

Definition RouteItem_String (it : RouteItem) : string :=
  match it with
  | Basic it => BasicItem_String it
  | RuleSetI r => RuleSetItem_String r
  end.

(** [Start] of an item, with the rule sets it takes references to. *)
Definition RouteItem_Start (env : Env) (it : RouteItem) (sets : RuleSets)
    : res RouteItem * RuleSets :=
  match it with
  | Basic it => (Basic <$> BasicItem_Start env it, sets)
  | RuleSetI r =>
      let '(l, sets') := start_rule_sets (si_tagList r) sets (si_setList r) in
      ((λ l, RuleSetI (mkRuleSetItem (si_tagList r) l (si_ipCidrMatchSource r)
                         (si_ipCidrAcceptEmpty r))) <$> l, sets')
  end.

(** ** The rules *)

(** [route/rule/rule_default.go:47-49] DefaultRule *)
Definition DefaultRule : Type := abstractDefaultRule RouteItem.

(** [route/rule/rule_default.go:288-290] LogicalRule *)
Definition Rule : Type := RuleTree RouteItem.

(** [Match] of a routing rule. *)
Definition Rule_Match (env : Env) (sets : RuleSets) (rule : Rule)
    : InboundContext → bool * InboundContext :=
  tree_match (abstractDefaultRule_Match (RouteItem_Match env sets)) rule.

(** The items of a rule are pointers: the objects [Start] updates are those of the groups.  The
    items of a group are started again here on the same inputs, for their new value only; the
    references are counted in [allItems], where each item is once.

    [route/rule/rule_abstract.go:30-42] (abstractDefaultRule).Start *)
Fixpoint start_items (env : Env) (l : list RouteItem) (sets : RuleSets)
    : res (list RouteItem) * RuleSets :=
  match l with
  | [] => (Ok [], sets)
  | item :: l' =>
      match RouteItem_Start env item sets with
      | (Ok item', sets1) =>
          let '(r, sets2) := start_items env l' sets1 in ((λ l', item' :: l') <$> r, sets2)
      | (Err e, sets1) => (Err e, sets1)
      | (Panic p, sets1) => (Panic p, sets1)
      end
  end.

Definition DefaultRule_Start (env : Env) (r : DefaultRule) (sets : RuleSets)
    : res DefaultRule * RuleSets :=
  let started g := (start_items env g sets).1 in
  match start_items env (allItems r) sets with
  | (Ok all, sets') =>
      (a ← started (items r);
       sa ← started (sourceAddressItems r);
       sp ← started (sourcePortItems r);
       da ← started (destinationAddressItems r);
       di ← started (destinationIPCIDRItems r);
       dp ← started (destinationPortItems r);
       Ok (mkDefaultRule a sa sp da di dp all (invert r) (action r)), sets')
  | (Err e, sets') => (Err e, sets')
  | (Panic p, sets') => (Panic p, sets')
  end.

(** [route/rule/rule_abstract.go:162-178] (abstractLogicalRule).Start *)
Fixpoint Rule_Start (env : Env) (rule : Rule) (sets : RuleSets) : res Rule * RuleSets :=
  match rule with
  | TDefault r => let '(r', sets') := DefaultRule_Start env r sets in (TDefault <$> r', sets')
  | TLogical r =>
      let '(rules, sets') :=
        (fix go (l : list Rule) (sets : RuleSets) : res (list Rule) * RuleSets :=
           match l with
           | [] => (Ok [], sets)
           | x :: l' =>
               match Rule_Start env x sets with
               | (Ok x', sets1) =>
                   let '(r, sets2) := go l' sets1 in ((λ l', x' :: l') <$> r, sets2)
               | (Err e, sets1) => (Err e, sets1)
               | (Panic p, sets1) => (Panic p, sets1)
               end
           end) (lr_rules r) sets in
      ((λ rules, TLogical (mkLogicalRule rules (lr_mode r) (lr_invert r) (lr_action r)))
         <$> rules, sets')
  end.

(** ** Construction *)

Definition ErrGeosite : error :=
  E_New [AStr "geosite database is deprecated in sing-box 1.8.0 and removed in sing-box 1.12.0"].
Definition ErrGeoIP : error :=
  E_New [AStr "geoip database is deprecated in sing-box 1.8.0 and removed in sing-box 1.12.0"].

(** [route/rule/rule_default.go:69-159] NewDefaultRule (inbound to ip_is_private) *)
Definition rule_steps_addresses (o : RawDefaultRule) : list (Step RouteItem) :=
  [ add_if (nonempty (ru_Inbound o)) GItems
      (Basic (I_Inbound (NewInboundRule (ru_Inbound o))));
    SAdd (Z.ltb 0 (ru_IPVersion o)) GItems
      (if Z.eqb (ru_IPVersion o) 4 || Z.eqb (ru_IPVersion o) 6
       then Ok (Basic (I_IPVersion (NewIPVersionItem (Z.eqb (ru_IPVersion o) 6))))
       else Err (E_New [AStr "invalid ip version: "; AInt (ru_IPVersion o)]));
    add_if (nonempty (ru_Network o)) GItems
      (Basic (I_Network (NewNetworkItem (ru_Network o))));
    add_if (nonempty (ru_AuthUser o)) GItems
      (Basic (I_AuthUser (NewAuthUserItem (ru_AuthUser o))));
    add_if (nonempty (ru_Protocol o)) GItems
      (Basic (I_Protocol (NewProtocolItem (ru_Protocol o))));
    add_if (nonempty (ru_Client o)) GItems (Basic (I_Client (NewClientItem (ru_Client o))));
    SAdd (nonempty (ru_Domain o) || nonempty (ru_DomainSuffix o)) GDestinationAddress
      ((λ x, Basic (I_Domain x)) <$> NewDomainItem (ru_Domain o) (ru_DomainSuffix o));
    add_if (nonempty (ru_DomainKeyword o)) GDestinationAddress
      (Basic (I_DomainKeyword (NewDomainKeywordItem (ru_DomainKeyword o))));
    SAdd (nonempty (ru_DomainRegex o)) GDestinationAddress
      ((λ x, Basic (I_DomainRegex x)) <$> NewDomainRegexItem (ru_DomainRegex o));
    SFail (nonempty (ru_Geosite o)) ErrGeosite;
    SFail (nonempty (ru_SourceGeoIP o)) ErrGeoIP;
    SFail (nonempty (ru_GeoIP o)) ErrGeoIP;
    SAdd (nonempty (ru_SourceIPCIDR o)) GSourceAddress
      (wrap_err [AStr "source_ip_cidr"]
         ((λ x, Basic (I_IPCIDR x)) <$> NewIPCIDRItem true (ru_SourceIPCIDR o)));
    add_if (ru_SourceIPIsPrivate o) GSourceAddress
      (Basic (I_IPIsPrivate (NewIPIsPrivateItem true)));
    SAdd (nonempty (ru_IPCIDR o)) GDestinationIPCIDR
      (wrap_err [AStr "ipcidr"]
         ((λ x, Basic (I_IPCIDR x)) <$> NewIPCIDRItem false (ru_IPCIDR o)));
    add_if (ru_IPIsPrivate o) GDestinationIPCIDR
      (Basic (I_IPIsPrivate (NewIPIsPrivateItem false))) ].

(** [route/rule/rule_default.go:160-218] NewDefaultRule (source_port to user_id) *)
Definition rule_steps_process (o : RawDefaultRule) : list (Step RouteItem) :=
  [ add_if (nonempty (ru_SourcePort o)) GSourcePort
      (Basic (I_Port (NewPortItem true (ru_SourcePort o))));
    SAdd (nonempty (ru_SourcePortRange o)) GSourcePort
      (wrap_err [AStr "source_port_range"]
         ((λ x, Basic (I_PortRange x)) <$> NewPortRangeItem true (ru_SourcePortRange o)));
    add_if (nonempty (ru_Port o)) GDestinationPort
      (Basic (I_Port (NewPortItem false (ru_Port o))));
    SAdd (nonempty (ru_PortRange o)) GDestinationPort
      (wrap_err [AStr "port_range"]
         ((λ x, Basic (I_PortRange x)) <$> NewPortRangeItem false (ru_PortRange o)));
    add_if (nonempty (ru_ProcessName o)) GItems
      (Basic (I_Process (NewProcessItem (ru_ProcessName o))));
    add_if (nonempty (ru_ProcessPath o)) GItems
      (Basic (I_ProcessPath (NewProcessPathItem (ru_ProcessPath o))));
    SAdd (nonempty (ru_ProcessPathRegex o)) GItems
      (wrap_err [AStr "process_path_regex"]
         ((λ x, Basic (I_ProcessPathRegex x)) <$> NewProcessPathRegexItem (ru_ProcessPathRegex o)));
    add_if (nonempty (ru_PackageName o)) GItems
      (Basic (I_PackageName (NewPackageNameItem (ru_PackageName o))));
    add_if (nonempty (ru_User o)) GItems (Basic (I_User (NewUserItem (ru_User o))));
    add_if (nonempty (ru_UserID o)) GItems (Basic (I_UserId (NewUserIDItem (ru_UserID o)))) ].

(** [route/rule/rule_default.go:219-282] NewDefaultRule (clash_mode to rule_set) *)
Definition rule_steps_network (o : RawDefaultRule) : list (Step RouteItem) :=
  [ add_if (negb (String.eqb (ru_ClashMode o) "")) GItems
      (Basic (I_ClashMode (NewClashModeItem (ru_ClashMode o))));
    add_if (nonempty (ru_NetworkType o)) GItems
      (Basic (I_NetworkType (NewNetworkTypeItem (ru_NetworkType o))));
    add_if (ru_NetworkIsExpensive o) GItems (Basic I_NetworkIsExpensive);
    add_if (ru_NetworkIsConstrained o) GItems (Basic I_NetworkIsConstrained);
    add_if (nonempty (ru_WIFISSID o)) GItems
      (Basic (I_WIFISSID (NewWIFISSIDItem (ru_WIFISSID o))));
    add_if (nonempty (ru_WIFIBSSID o)) GItems
      (Basic (I_WIFIBSSID (NewWIFIBSSIDItem (ru_WIFIBSSID o))));
    add_if (nonempty (default [] (ru_InterfaceAddress o))) GItems
      (Basic (I_InterfaceAddress
         (NewInterfaceAddressItem (default [] (ru_InterfaceAddress o)))));
    add_if (nonempty (default [] (ru_NetworkInterfaceAddress o))) GItems
      (Basic (I_NetworkInterfaceAddress
         (NewNetworkInterfaceAddressItem (default [] (ru_NetworkInterfaceAddress o)))));
    add_if (nonempty (ru_DefaultInterfaceAddress o)) GItems
      (Basic (I_DefaultInterfaceAddress
         (NewDefaultInterfaceAddressItem (ru_DefaultInterfaceAddress o))));
    add_if (nonempty (ru_PreferredBy o)) GItems
      (Basic (I_PreferredBy (NewPreferredByItem (ru_PreferredBy o))));
    add_if (nonempty (ru_RuleSet o)) GItems
      (RuleSetI (NewRuleSetItem (ru_RuleSet o)
         (ru_RuleSetIPCIDRMatchSource o || ru_Deprecated_RulesetIPCIDRMatchSource o)
         false)) ].

(** [route/rule/rule_default.go:56-284] NewDefaultRule *)
Definition NewDefaultRule (options : DefaultRuleOptions) : res DefaultRule :=
  action ← wrap_err [AStr "action"] (NewRuleAction (dro_Action options));
  let o := dro_Raw options in
  build_steps (rule_steps_addresses o ++ rule_steps_process o ++ rule_steps_network o)
    (new_rule (ru_Invert o) action).

(** [route/rule/rule_default.go:292-320] NewLogicalRule *)
Definition NewLogicalRule {O} (New : O → res Rule) (options : LogicalOptions O RuleActionOptions)
    : res Rule :=
  action ← wrap_err [AStr "action"] (NewRuleAction (lo_Action options));
  mode ← logical_mode (lo_Mode options);
  rules ← mapi_res (λ i sub, wrap_err [AStr "sub rule["; AInt (Z.of_nat i); AStr "]"] (New sub))
            (lo_Rules options);
  Ok (TLogical (mkLogicalRule rules mode (lo_Invert options) action)).

(** [checkOutbound] and the action is [route] without an outbound.

    [route/rule/rule_default.go:22-27] NewRule (outbound check) *)
Definition missing_outbound (checkOutbound : bool) (a : RuleActionOptions) : bool :=
  match a with
  | OA_Empty => checkOutbound
  | OA_Route o => String.eqb (rt_Outbound o) "" && checkOutbound
  | _ => false
  end.

(** [route/rule/rule_default.go:16-43] NewRule *)
Fixpoint NewRule (options : RuleOptions) (checkOutbound : bool) : res Rule :=
  let '(mkOptionTree type d l) := options in
  if String.eqb type "" || String.eqb type "default" then
    if negb (DefaultRule_IsValid d) then Err (E_New [AStr "missing conditions"]) else
    if missing_outbound checkOutbound (dro_Action d)
    then Err (E_New [AStr "missing outbound field"])
    else TDefault <$> NewDefaultRule d
  else if String.eqb type "logical" then
    valid ← Logical_IsValid false DefaultRule_IsValid l;
    if negb valid then Err (E_New [AStr "missing conditions"]) else
    if missing_outbound checkOutbound (lo_Action l)
    then Err (E_New [AStr "missing outbound field"])
    else NewLogicalRule (λ sub, NewRule sub false) l
  else Err (E_New [AStr "unknown rule type: "; AStr type]).

End Rules.

(** ** Theorems *)

Section RuleTheorems.
Context `{ExtLib} `{ActionLib}.

Lemma LocalRuleSet_Match_frame env s : keeps_frame (LocalRuleSet_Match env) s.
Proof. intros c. apply any_st_frame. intros t _. apply HeadlessRule_Match_frame. Qed.

Lemma RouteItem_Match_frame env sets it : keeps_frame (RouteItem_Match env sets) it.
Proof.
  intros c. destruct it as [it|r]; [reflexivity|]. cbn. unfold RuleSetItem_Match.
  etrans; [|apply any_st_frame; intros tag _; apply LocalRuleSet_Match_frame].
  by apply frame_upd.
Qed.

Lemma Rule_Match_frame env sets : ∀ rule, keeps_frame (Rule_Match env sets) rule.
Proof. apply tree_match_frame, abstractDefaultRule_Match_frame, RouteItem_Match_frame. Qed.

(** Matching a routing rule, rule sets included, changes nothing but the rule cache and never
    its [IgnoreDestinationIPCIDRMatch]; a logical rule is the conjunction or disjunction, negated by
    [invert], of what its members answer on a reset cache, so its answer does not depend on the
    cache it starts from. *)
Theorem Rule_Match_logical env sets (r : abstractLogicalRule Rule) c :
  (Rule_Match env sets (TLogical r) c).1 =
    xorb (combine_with (lr_mode r) (λ x, (Rule_Match env sets x (ResetRuleCache c)).1)
            (lr_rules r)) (lr_invert r) ∧
  ∀ rule, frame c (Rule_Match env sets rule c).2.
Proof.
  split; [|intros rule; apply Rule_Match_frame].
  apply (logical_match_spec (Rule_Match env sets)). intros x _. apply Rule_Match_frame.
Qed.

(** The answer of an item that only reads. *)
Definition basic_denotes (env : Env) (it : RouteItem) (c : InboundContext) : bool :=
  match it with Basic it => BasicItem_Match env it c | RuleSetI _ => false end.

Definition is_basic (it : RouteItem) : bool :=
  match it with Basic _ => true | RuleSetI _ => false end.

(** C3: a rule of any shape without a rule-set item, matched on a reset cache, answers exactly its
    documented meaning, whatever the rule sets are. *)
Theorem Rule_meaning env sets (rule : Rule) c :
  (∀ it, it ∈ tree_items rule → is_basic it = true) →
  (Rule_Match env sets rule (ResetRuleCache c)).1
  = tree_denotes (basic_denotes env) rule (ResetRuleCache c).
Proof.
  intros Hb. unfold Rule_Match.
  rewrite (tree_match_ext _ (pure_match (basic_denotes env))).
  2:{ intros it c' Hit%Hb. by destruct it. }
  apply tree_match_spec.
  - intros [it|] c1 c2 Hc; [by apply BasicItem_Match_ext|done].
  - destruct rule; [apply fresh_Reset|done].
Qed.

(** A default rule that is built has the [invert] and the action of its options, holds every item in
    exactly one group and in [allItems], and has source addresses and an [ip_cidr] group only when they are given. *)
Lemma NewDefaultRule_built options r :
  NewDefaultRule options = Ok r →
  rule_wf r ∧ invert r = ru_Invert (dro_Raw options) ∧
  NewRuleAction (dro_Action options) = Ok (action r) ∧
  nonempty (sourceAddressItems r)
    = nonempty (ru_SourceIPCIDR (dro_Raw options)) || ru_SourceIPIsPrivate (dro_Raw options) ∧
  nonempty (destinationIPCIDRItems r)
    = nonempty (ru_IPCIDR (dro_Raw options)) || ru_IPIsPrivate (dro_Raw options).
Proof.
  unfold NewDefaultRule. intros (act & Ha%wrap_err_Ok & Hr%build_steps_built)%bind_Ok. split; [apply (built_wf _ _ _ Hr), rule_wf_new|].
  split; [apply (built_invert _ _ _ Hr)|]. split; [by rewrite (built_action _ _ _ Hr)|].
  pose proof (built_nonempty _ _ _ GSourceAddress Hr) as H1.
  pose proof (built_nonempty _ _ _ GDestinationIPCIDR Hr) as H2. clear Hr.
  unfold rule_steps_addresses, rule_steps_process, rule_steps_network in *.
  rewrite !existsb_app in *. cbn in *. by rewrite H1, H2, !orb_false_r.
Qed.

(** Next to a rule set that has a single, logical rule whose members have no source
    condition, a source address condition of a non-inverted rule can never be met: the logical rule
    resets the cache in which the outer rule had noted its source match. *)
Theorem rule_set_resets_source_match env sets (r : DefaultRule) tag src acc tags l c :
  nonempty (allItems r) = true →
  nonempty (sourceAddressItems r) = true →
  items r = [RuleSetI (mkRuleSetItem tags [tag] src acc)] →
  ls_rules (rule_set_at sets tag) = [TLogical l] → lr_rules l ≠ [] →
  (∀ t, t ∈ lr_rules l → ∃ d, t = TDefault d ∧ sourceAddressItems d = []) →
  (Rule_Match env sets (TDefault r) c).1 = invert r.
Proof.
  intros Hall Hsa Hitems Hset Hne Hmem.
  assert (∀ c', SourceAddressMatch (ic_cache (HeadlessRule_Match env (TLogical l) c').2) = false)
    as Hlog.
  { intros c'. unfold HeadlessRule_Match. cbn [tree_match]. unfold abstractLogicalRule_Match.
    set (g := λ it c, tree_match _ it (ResetRuleCache c)).
    assert (∀ t c', t ∈ lr_rules l → SourceAddressMatch (ic_cache (g t c').2) = false) as Hg.
    { intros t c2 (d & -> & Hd)%Hmem. unfold g. cbn [tree_match].
      change (headless_item_match env) with (pure_match (BasicItem_Match env)).
      rewrite (default_match_source_flag (BasicItem_Match env) (BasicItem_Match_ext env));
        [|apply fresh_Reset]. rewrite Hd. apply andb_false_r. }
    destruct (lr_rules l) as [|t0 ts] eqn:El; [done|].
    assert (∀ t c, t ∈ ts → SourceAddressMatch (ic_cache (g t c).2) = false) as Hg'.
    { intros t c2 Ht. apply Hg. by apply list_elem_of_further. }
    pose proof (Hg t0 c' (list_elem_of_here _ _)) as H0'.
    destruct (String.eqb _ _); cbn [all_st any_st]; destruct (g t0 c') as [b c1] eqn:E; cbn in H0'.
    - destruct b; [|exact H0'].
      pose proof (all_st_inv (λ c, SourceAddressMatch (ic_cache c) = false) g ts c1 H0') as Hinv.
      destruct (all_st g ts c1). apply Hinv. auto.
    - destruct b; [exact H0'|].
      pose proof (any_st_inv (λ c, SourceAddressMatch (ic_cache c) = false) g ts c1 H0') as Hinv.
      destruct (any_st g ts c1). apply Hinv. auto. }
  unfold Rule_Match. cbn [tree_match]. unfold abstractDefaultRule_Match.
  rewrite Hall, Hitems, Hsa. cbn [negb].
  match goal with |- context [all_st _ _ ?x] => generalize x end. intros c5.
  cbn [all_st RouteItem_Match]. unfold RuleSetItem_Match. cbn [si_setList any_st].
  unfold LocalRuleSet_Match. rewrite Hset. cbn [any_st].
  match goal with |- context [HeadlessRule_Match env (TLogical l) ?x] =>
    specialize (Hlog x); destruct (HeadlessRule_Match env (TLogical l) x) as [b c6] end.
  cbn in Hlog. destruct b; cbn; [|done]. by rewrite Hlog.
Qed.

(** [rule_set_ip_cidr_match_source] has no effect on a rule set whose rules are all logical:
    with or without it the item gives the same answer, because a logical rule resets the flag before
    it matches a member. *)
Theorem match_source_lost env sets tags setList src src' acc c :
  (∀ tag t, tag ∈ setList → t ∈ ls_rules (rule_set_at sets tag) → ∃ l, t = TLogical l) →
  (RuleSetItem_Match env sets (mkRuleSetItem tags setList src acc) c).1
  = (RuleSetItem_Match env sets (mkRuleSetItem tags setList src' acc) c).1.
Proof.
  intros Hlog. unfold RuleSetItem_Match. cbn [si_setList].
  match goal with |- (any_st _ _ ?x).1 = (any_st _ _ ?y).1 => set (c1 := x); set (c2 := y) end.
  assert (frame c1 c2) as Hf by done. clearbody c1 c2.
  apply (any_st_rel frame); [done|]. intros tag d1 d2 Htag Hd.
  apply (any_st_rel frame); [done|]. intros t e1 e2 Ht He.
  destruct (Hlog tag t Htag Ht) as [l ->]. split.
  - unfold HeadlessRule_Match. cbn [tree_match].
    rewrite !logical_match_spec by (intros; apply HeadlessRule_Match_frame).
    by rewrite (frame_Reset_eq _ _ He).
  - etrans; [symmetry; apply HeadlessRule_Match_frame|]. etrans; [exact He|].
    apply HeadlessRule_Match_frame.
Qed.

End RuleTheorems.


(** ** Concrete rules *)

Section Examples.

#[local] Instance ex_lib : ExtLib := SampleLib.
#[local] Instance ex_actions : ActionLib := SampleActions.

(** A rule on the destination port. *)
Definition port_item : RouteItem := Basic (I_Port (NewPortItem false [443])).
Definition port_rule (inv : bool) : Rule :=
  TDefault (mkDefaultRule [] [] [] [] [] [port_item] [port_item] inv None).

(** The rule set [lan]: one logical rule over a rule on a port. *)
Definition lan_rules : list HeadlessRule :=
  [TLogical (mkLogicalRule [TDefault (new_rule false None)] "or" false None)].
Definition lan_sets : RuleSets :=
  {["lan"%string := mkLocalRuleSet "lan" lan_rules (mkRuleSetMetadata false false false) [] 1]}.

(** [source_ip_is_private] and [rule_set: lan]. *)
Definition lan_item : RouteItem := RuleSetI (mkRuleSetItem ["lan"%string] ["lan"%string] false false).
Definition private_item : RouteItem := Basic (I_IPIsPrivate (NewIPIsPrivateItem true)).
Definition lan_rule : DefaultRule :=
  mkDefaultRule [lan_item] [private_item] [] [] [] [] [lan_item; private_item] false None.

(** From a private address. *)
Definition private_request : InboundContext :=
  InboundContext_zero <| ic_Source := mkSocksaddr (Addr4 0x0A000001) 5000 "" |>.

Lemma lan_sets_rules : ls_rules (rule_set_at lan_sets "lan") = lan_rules.
Proof.
  unfold rule_set_at.
  assert (lan_sets !! "lan"%string
    = Some (mkLocalRuleSet "lan" lan_rules (mkRuleSetMetadata false false false) [] 1)) as ->
    by exact (lookup_singleton_eq (M := gmap string) "lan"%string _).
  reflexivity.
Qed.

Lemma Rule_meaning_witness :
  (Rule_Match idle_env ∅ (TLogical (mkLogicalRule [port_rule false; port_rule true] "or" true None))
     (ResetRuleCache private_request)).1
  = tree_denotes (basic_denotes idle_env)
      (TLogical (mkLogicalRule [port_rule false; port_rule true] "or" true None))
      (ResetRuleCache private_request).
Proof.
  apply (Rule_meaning idle_env ∅). intros it Hit.
  assert (Forall (λ it, is_basic it = true) (tree_items
    (TLogical (mkLogicalRule [port_rule false; port_rule true] "or" true None)))) as Hall
    by (repeat constructor).
  rewrite Forall_forall in Hall. apply Hall. by apply list_elem_of_In.
Defined.

(** The source is private and the rule set matches everything, but the rule does not match; without
    the rule set it does. *)
Lemma rule_set_resets_source_match_witness :
  (Rule_Match idle_env lan_sets (TDefault lan_rule) (ResetRuleCache private_request)).1 = false ∧
  private_item ∈ sourceAddressItems lan_rule ∧
  (RouteItem_Match idle_env lan_sets private_item private_request).1 = true ∧
  (RouteItem_Match idle_env lan_sets lan_item private_request).1 = true.
Proof.
  split; [|split; [apply list_elem_of_here|split; vm_compute; reflexivity]].
  apply (rule_set_resets_source_match idle_env lan_sets lan_rule "lan" false false ["lan"%string]
    (mkLogicalRule [TDefault (new_rule false None)] "or" false None)).
  - reflexivity.
  - reflexivity.
  - reflexivity.
  - apply lan_sets_rules.
  - discriminate.
  - intros t ->%list_elem_of_singleton. by exists (new_rule false None).
Defined.

Lemma match_source_lost_witness :
  (RuleSetItem_Match idle_env lan_sets (mkRuleSetItem ["lan"%string] ["lan"%string] true false)
     private_request).1
  = (RuleSetItem_Match idle_env lan_sets (mkRuleSetItem ["lan"%string] ["lan"%string] false false)
       private_request).1.
Proof.
  apply (match_source_lost idle_env lan_sets). intros tag t ->%list_elem_of_singleton Ht.
  rewrite lan_sets_rules in Ht.
  apply list_elem_of_singleton in Ht as ->. by eexists.
Defined.

End Examples.
