(* ===== verification/RuleMeaning.v ===== *)
(** * What the options of a routing rule mean (route/rule, docs/configuration/route/rule.md)

    The condition each option of a default rule stands for, on the connection and the state of the
    machine, and the condition of the rule; and that the rule that is built from the options and started
    matches exactly when it holds. *)

From stdpp Require Import base gmap strings list numbers.
From S2P Require Import Prelude GoStd Netip Adapter SetItems AddrItems RuleAction RuleOptions.
From S2P Require Import RuleItem RuleMatch RuleSet Rules.

Local Open Scope Z_scope.

(** One option: the group of alternatives it belongs to, whether it is given, and its condition. *)
Record Condition : Type := mkCondition { cd_group : Group; cd_given : bool; cd_holds : Prop }.

(** Of the options of the groups one that is given is met, if there is any; and all the others are. *)
Definition group_met (gs : list Group) (l : list Condition) : Prop :=
  (∀ x, x ∈ l → cd_group x ∈ gs → cd_given x = false) ∨
  ∃ x, x ∈ l ∧ cd_group x ∈ gs ∧ cd_given x = true ∧ cd_holds x.
Definition all_met (l : list Condition) : Prop := ∀ x, x ∈ l → cd_group x = GItems → cd_given x = true → cd_holds x.

Section Conditions.
Context `{ExtLib} `{ActionLib} (env : Env) (o : RawDefaultRule) (c : InboundContext).

(** The name of the destination, in small letters. *)
Definition named (P : string → Prop) : Prop := domainHost c ≠ ""%string ∧ P (strings_ToLower (domainHost c)).

Definition of_process (P : ConnectionOwner → Prop) : Prop := ∃ info, ic_ProcessInfo c = Some info ∧ P info.

(** The expression can be read and matches. *)
Definition expression_matches (e s : string) : Prop := ∃ x, regexp_Compile e = Ok x ∧ Regexp_MatchString x s = true.

(** The set of addresses that texts stand for: prefixes and single addresses. *)
Definition add_text (b : IPSetBuilder) (s : string) : IPSetBuilder :=
  match netip_ParsePrefix s with
  | Ok prefix => IPSetBuilder_AddPrefix prefix b
  | _ => match netip_ParseAddr s with Ok a => IPSetBuilder_Add a b | _ => b end
  end.
Definition in_texts (l : list string) (a : Addr) : Prop :=
  ∃ s, IPSetBuilder_IPSet (foldl add_text IPSetBuilder_zero l) = Ok s ∧ IPSet_Contains s a = true.

Definition port_in (ranges : list string) (port : Z) : Prop :=
  ∃ s r, s ∈ ranges ∧ denotes_range s r ∧ ri_start r ≤ port ≤ ri_end r.

(** The last entry of a key. *)
Definition entry_of {K} `{EqDecision K} (k : K) {A} (l : list (K * A)) : option A :=
  snd <$> list.last (List.filter (λ e, bool_decide (e.1 = k)) l).

Definition overlap (addresses : list (option Prefixable)) (its : list Prefix) : Prop :=
  ∃ address it, address ∈ build_prefixes addresses ∧ it ∈ its ∧ Prefix_Overlaps address it = true.

(** A route of an outbound is preferred: by the name of the destination, by its address or by those it was resolved to. *)
Definition preferred (routes : PreferredRoutes) : Prop :=
  domainHost c ≠ ""%string ∧ PreferredDomain routes (domainHost c) = true ∨
  Socksaddr_IsIP (ic_Destination c) = true ∧ PreferredAddress routes (sa_Addr (ic_Destination c)) = true ∨
  ∃ a, a ∈ ic_DestinationAddresses c ∧ PreferredAddress routes a = true.

(** The options in the order of the constructor. *)
Definition conditions_addresses : list Condition :=
  [ mkCondition GItems (nonempty (ru_Inbound o)) (ic_Inbound c ∈ ru_Inbound o);
    mkCondition GItems (Z.ltb 0 (ru_IPVersion o))
      (ic_IPVersion c ≠ 0 ∧ (ic_IPVersion c = 6 ↔ ru_IPVersion o = 6) ∨
       Socksaddr_IsIP (ic_Destination c) = true ∧ (Socksaddr_IsIPv6 (ic_Destination c) = true ↔ ru_IPVersion o = 6));
    mkCondition GItems (nonempty (ru_Network o)) (ic_Network c ∈ ru_Network o);
    mkCondition GItems (nonempty (ru_AuthUser o)) (ic_User c ∈ ru_AuthUser o);
    mkCondition GItems (nonempty (ru_Protocol o)) (ic_Protocol c ∈ ru_Protocol o);
    mkCondition GItems (nonempty (ru_Client o)) (ic_Client c ∈ ru_Client o);
    mkCondition GDestinationAddress (nonempty (ru_Domain o) || nonempty (ru_DomainSuffix o))
      (named (λ host, Matcher_Match (domain_NewMatcher (ru_Domain o) (ru_DomainSuffix o) false) host = true));
    mkCondition GDestinationAddress (nonempty (ru_DomainKeyword o))
      (named (λ host, ∃ k, k ∈ ru_DomainKeyword o ∧ strings_Contains host k = true));
    mkCondition GDestinationAddress (nonempty (ru_DomainRegex o))
      (named (λ host, ∃ e, e ∈ ru_DomainRegex o ∧ expression_matches e host));
    mkCondition GSourceAddress (nonempty (ru_SourceIPCIDR o)) (in_texts (ru_SourceIPCIDR o) (sa_Addr (ic_Source c)));
    mkCondition GSourceAddress (ru_SourceIPIsPrivate o)
      (Addr_IsValid (sa_Addr (ic_Source c)) = true ∧ IsPublicAddr (sa_Addr (ic_Source c)) = false);
    mkCondition GDestinationIPCIDR (nonempty (ru_IPCIDR o))
      (if Socksaddr_IsIP (ic_Destination c) then in_texts (ru_IPCIDR o) (sa_Addr (ic_Destination c))
       else ∃ a, a ∈ ic_DestinationAddresses c ∧ in_texts (ru_IPCIDR o) a);
    mkCondition GDestinationIPCIDR (ru_IPIsPrivate o)
      (if Addr_IsValid (sa_Addr (ic_Destination c)) then IsPublicAddr (sa_Addr (ic_Destination c)) = false
       else ∃ a, a ∈ ic_DestinationAddresses c ∧ IsPublicAddr a = false) ].

Definition conditions_process : list Condition :=
  [ mkCondition GSourcePort (nonempty (ru_SourcePort o)) (sa_Port (ic_Source c) ∈ ru_SourcePort o);
    mkCondition GSourcePort (nonempty (ru_SourcePortRange o)) (port_in (ru_SourcePortRange o) (sa_Port (ic_Source c)));
    mkCondition GDestinationPort (nonempty (ru_Port o)) (sa_Port (ic_Destination c) ∈ ru_Port o);
    mkCondition GDestinationPort (nonempty (ru_PortRange o)) (port_in (ru_PortRange o) (sa_Port (ic_Destination c)));
    mkCondition GItems (nonempty (ru_ProcessName o))
      (of_process (λ p, co_ProcessPath p ≠ ""%string ∧ filepath_Base (co_ProcessPath p) ∈ ru_ProcessName o));
    mkCondition GItems (nonempty (ru_ProcessPath o))
      (of_process (λ p, co_ProcessPath p ≠ ""%string ∧ co_ProcessPath p ∈ ru_ProcessPath o));
    mkCondition GItems (nonempty (ru_ProcessPathRegex o))
      (of_process (λ p, co_ProcessPath p ≠ ""%string ∧ ∃ e, e ∈ ru_ProcessPathRegex o ∧ expression_matches e (co_ProcessPath p)));
    mkCondition GItems (nonempty (ru_PackageName o))
      (of_process (λ p, co_AndroidPackageName p ≠ ""%string ∧ co_AndroidPackageName p ∈ ru_PackageName o));
    mkCondition GItems (nonempty (ru_User o)) (of_process (λ p, co_UserName p ≠ ""%string ∧ co_UserName p ∈ ru_User o));
    mkCondition GItems (nonempty (ru_UserID o)) (of_process (λ p, co_UserId p ≠ -1 ∧ co_UserId p ∈ ru_UserID o)) ].

Definition conditions_network : list Condition :=
  [ mkCondition GItems (negb (String.eqb (ru_ClashMode o) ""))
      (∃ mode, env_ClashMode env = Some mode ∧ strings_EqualFold mode (ru_ClashMode o) = true);
    mkCondition GItems (nonempty (ru_NetworkType o))
      (∃ i, env_DefaultNetworkInterface env = Some i ∧ ni_Type i ∈ ru_NetworkType o);
    mkCondition GItems (ru_NetworkIsExpensive o) (∃ i, env_DefaultNetworkInterface env = Some i ∧ ni_Expensive i = true);
    mkCondition GItems (ru_NetworkIsConstrained o) (∃ i, env_DefaultNetworkInterface env = Some i ∧ ni_Constrained i = true);
    mkCondition GItems (nonempty (ru_WIFISSID o)) (wifi_SSID (env_WIFIState env) ∈ ru_WIFISSID o);
    mkCondition GItems (nonempty (ru_WIFIBSSID o)) (wifi_BSSID (env_WIFIState env) ∈ ru_WIFIBSSID o);
    mkCondition GItems (nonempty (default [] (ru_InterfaceAddress o)))
      (∀ name l, entry_of name (default [] (ru_InterfaceAddress o)) = Some l → name ≠ ""%string ∧
         ∃ i, find (λ it, String.eqb (if_Name it) name) (env_Interfaces env) = Some i ∧ overlap l (if_Addresses i));
    mkCondition GItems (nonempty (default [] (ru_NetworkInterfaceAddress o)))
      (∀ ty l, entry_of ty (default [] (ru_NetworkInterfaceAddress o)) = Some l →
         ∃ i, i ∈ env_NetworkInterfaces env ∧ ni_Type i = ty ∧ overlap l (if_Addresses (ni_Interface i)));
    mkCondition GItems (nonempty (ru_DefaultInterfaceAddress o))
      (∃ i, env_DefaultInterface env = Some i ∧ ∀ address, address ∈ ru_DefaultInterfaceAddress o → overlap [address] (if_Addresses i));
    mkCondition GItems (nonempty (ru_PreferredBy o))
      (∃ tag ty routes, tag ∈ ru_PreferredBy o ∧ env_Outbound env tag = Some (ty, Some routes) ∧ preferred routes) ].

Definition conditions : list Condition := conditions_addresses ++ conditions_process ++ conditions_network.

(** The condition of the rule: (a name or an address of the destination) and (a port) and (an address of the
    source) and (a port of the source) and all other options. *)
Definition options_hold : Prop :=
  group_met [GDestinationAddress; GDestinationIPCIDR] conditions ∧ group_met [GDestinationPort] conditions ∧
  group_met [GSourceAddress] conditions ∧ group_met [GSourcePort] conditions ∧ all_met conditions.

End Conditions.

(** ** Groups of conditions and groups of items *)

Lemma same_group_true g g' : same_group g g' = true ↔ g = g'.
Proof. by destruct g, g'. Qed.

Definition of_group (g : Group) (l : list Condition) : list Condition := List.filter (λ x, cd_given x && same_group (cd_group x) g) l.

Lemma elem_of_group g l x : x ∈ of_group g l ↔ x ∈ l ∧ cd_given x = true ∧ cd_group x = g.
Proof. unfold of_group. by rewrite list_elem_of_In, List.filter_In, andb_true_iff, same_group_true, <-list_elem_of_In. Qed.

Lemma group_met_iff gs l :
  group_met gs l ↔ (∀ g, g ∈ gs → of_group g l = []) ∨ ∃ g x, g ∈ gs ∧ x ∈ of_group g l ∧ cd_holds x.
Proof.
  unfold group_met. split; intros [Hn|Hx]; [left|right|left|right].
  - intros g Hg. destruct (of_group g l) as [|x l'] eqn:Hl; [done|]. exfalso.
    assert (x ∈ of_group g l) as (? & Ht & <-)%elem_of_group by (rewrite Hl; left). by rewrite Hn in Ht.
  - destruct Hx as (x & ? & ? & ? & ?). exists (cd_group x), x. by rewrite elem_of_group.
  - intros x Hx Hg. destruct (cd_given x) eqn:Ht; [|done]. exfalso. apply (not_elem_of_nil x). rewrite <-(Hn _ Hg). by apply elem_of_group.
  - destruct Hx as (g & x & Hg & (? & ? & <-)%elem_of_group & ?). by exists x.
Qed.

Section Steps.
Context `{ExtLib} `{ActionLib} (env : Env) (c : InboundContext).

(** An item and what it is once it has been started. *)
Definition started (it it' : RouteItem) : Prop := ∃ b b', it = Basic b ∧ it' = Basic b' ∧ BasicItem_Start env b = Ok b'.

(** A step adds the item of an option; once it has been started it matches when the condition holds. *)
Definition step_ok (s : Step RouteItem) (x : Condition) : Prop :=
  ∃ new, s = SAdd (cd_given x) (cd_group x) new ∧
    (cd_given x = true → ∀ it, new = Ok it → ∃ b, it = Basic b ∧
       ∀ b', BasicItem_Start env b = Ok b' → BasicItem_Match env b' (ResetRuleCache c) = true ↔ cd_holds x).

Definition item_ok (x : Condition) (it : RouteItem) : Prop := is_basic it = true ∧ (basic_denotes env it (ResetRuleCache c) = true ↔ cd_holds x).

Lemma steps_basic g steps conds : Forall2 step_ok steps conds → ∀ it, it ∈ flat_map (step_group g) steps → is_basic it = true.
Proof.
  induction 1 as [|s x steps conds (new & -> & Hx) Hall IH]; intros it; cbn; [by intros ?%elem_of_nil|].
  rewrite elem_of_app. intros [Hit|]; [|auto]. destruct (same_group _ g); [|by apply elem_of_nil in Hit].
  destruct (cd_given x); [|by apply elem_of_nil in Hit]. destruct new as [it'| |]; [|by apply elem_of_nil in Hit..].
  apply list_elem_of_singleton in Hit as ->. by destruct (Hx eq_refl it' eq_refl) as (b & -> & _).
Qed.

Lemma steps_items g steps conds : Forall2 step_ok steps conds → (∀ g new, SAdd true g new ∈ steps → is_ok new = true) →
  ∀ l, Forall2 started (flat_map (step_group g) steps) l → Forall2 item_ok (of_group g conds) l.
Proof.
  induction 1 as [|s x steps conds (new & -> & Hx) Hall IH]; intros Hok l Hl; cbn in Hl |- *; [by apply Forall2_nil_inv_l in Hl as ->|].
  assert (∀ l, Forall2 started (flat_map (step_group g) steps) l → Forall2 item_ok (of_group g conds) l) as IH'.
  { apply IH. intros g' new' Hin. apply (Hok g'). by right. }
  destruct (same_group (cd_group x) g); [|rewrite andb_false_r; by apply IH'].
  destruct (cd_given x); cbn [andb]; [|by apply IH'].
  specialize (Hok (cd_group x) new (list_elem_of_here _ _)). destruct new as [it| |]; [|done..].
  cbn in Hl. apply Forall2_cons_inv_l in Hl as (it' & l' & (b & b' & -> & -> & Hb) & Hl & ->). constructor; [|by apply IH'].
  destruct (Hx eq_refl _ eq_refl) as (b2 & [= <-] & Hm). split; [done|by apply Hm].
Qed.

Lemma items_exist l its : Forall2 item_ok l its → existsb (λ it, basic_denotes env it (ResetRuleCache c)) its = true ↔ ∃ x, x ∈ l ∧ cd_holds x.
Proof.
  induction 1 as [|x it l its [_ Hx] Hall IH]; cbn; [split; [done|by intros (? & ?%elem_of_nil & _)]|].
  rewrite orb_true_iff, IH, Hx. setoid_rewrite elem_of_cons. naive_solver.
Qed.

Lemma items_all l its : Forall2 item_ok l its → forallb (λ it, basic_denotes env it (ResetRuleCache c)) its = true ↔ ∀ x, x ∈ l → cd_holds x.
Proof.
  induction 1 as [|x it l its [_ Hx] Hall IH]; cbn; [split; [by intros _ ? ?%elem_of_nil|done]|].
  rewrite andb_true_iff, IH, Hx. setoid_rewrite elem_of_cons. naive_solver.
Qed.

Lemma items_nonempty l its : Forall2 item_ok l its → nonempty its = nonempty l.
Proof. by intros []. Qed.

Lemma start_basic l : ∀ sets l' sets', (∀ it, it ∈ l → is_basic it = true) → start_items env l sets = (Ok l', sets') → Forall2 started l l'.
Proof.
  induction l as [|it l IH]; intros sets l' sets' Hb; cbn [start_items]; [intros [= <- _]; constructor|].
  destruct it as [b|]; [|by discriminate (Hb _ (list_elem_of_here _ _))]. cbn [RouteItem_Start].
  destruct (BasicItem_Start env b) as [b'|e|p] eqn:Hs; cbn; [|done..]. destruct (start_items env l sets) as [[l2|e|p] sets2] eqn:Hl; cbn; [|done..].
  intros [= <- _]. constructor; [by exists b, b'|]. eapply IH; [|exact Hl]. intros it Hit. apply Hb. by right.
Qed.

End Steps.

(** ** Starting a rule *)

Section Starting.
Context `{ExtLib} `{ActionLib} (env : Env).

Lemma default_started (r r' : DefaultRule) sets sets' : DefaultRule_Start env r sets = (Ok r', sets') →
  rule_wf r → (∀ g it, it ∈ group g r → is_basic it = true) →
  (∀ g, Forall2 (started env) (group g r) (group g r')) ∧ nonempty (allItems r') = nonempty (allItems r) ∧
  invert r' = invert r ∧ action r' = action r.
Proof.
  unfold DefaultRule_Start. intros Hs Hwf Hb.
  assert (∀ it, it ∈ allItems r → is_basic it = true) as Hall.
  { intros it Hit. unfold rule_wf in Hwf. rewrite Hwf, !elem_of_app in Hit.
    destruct Hit as [Hit|[Hit|[Hit|[Hit|[Hit|Hit]]]]];
      [apply (Hb GItems)|apply (Hb GSourceAddress)|apply (Hb GSourcePort)|apply (Hb GDestinationAddress)|apply (Hb GDestinationIPCIDR)|apply (Hb GDestinationPort)]; exact Hit. }
  destruct (start_items env (allItems r) sets) as [[all|e|p] sets2] eqn:Ha; [|done..].
  apply start_basic in Ha; [|done]. injection Hs as Hs _.
  assert (∀ g l, (start_items env (group g r) sets).1 = Ok l → Forall2 (started env) (group g r) l) as Hg.
  { intros g l Hl. destruct (start_items env (group g r) sets) as [x sets3] eqn:E. cbn in Hl. subst x. eapply start_basic; [|exact E]. apply Hb. }
  apply bind_Ok in Hs as (a & Ha1 & Hs). apply bind_Ok in Hs as (sa & Ha2 & Hs). apply bind_Ok in Hs as (sp & Ha3 & Hs).
  apply bind_Ok in Hs as (da & Ha4 & Hs). apply bind_Ok in Hs as (di & Ha5 & Hs). apply bind_Ok in Hs as (dp & Ha6 & [= <-]).
  split; [|split; [by destruct Ha|done]].
  intros []; cbn [group items sourceAddressItems sourcePortItems destinationAddressItems destinationIPCIDRItems destinationPortItems];
    [apply (Hg GItems)|apply (Hg GSourceAddress)|apply (Hg GSourcePort)|apply (Hg GDestinationAddress)|apply (Hg GDestinationIPCIDR)|apply (Hg GDestinationPort)]; assumption.
Qed.

(** A rule whose groups hold what the conditions say matches when the conditions are met. *)
Lemma groups_mean sets (r : DefaultRule) c conds : (∀ g, Forall2 (item_ok env c) (of_group g conds) (group g r)) →
  IgnoreDestinationIPCIDRMatch (ic_cache c) = false → nonempty (allItems r) = true → (∃ x, x ∈ conds ∧ cd_given x = true) →
  (Rule_Match env sets (TDefault r) (ResetRuleCache c)).1 = xorb (rule_condition (basic_denotes env) (ResetRuleCache c) r) (invert r) ∧
  (rule_condition (basic_denotes env) (ResetRuleCache c) r = true ↔
   group_met [GDestinationAddress; GDestinationIPCIDR] conds ∧ group_met [GDestinationPort] conds ∧
   group_met [GSourceAddress] conds ∧ group_met [GSourcePort] conds ∧ all_met conds).
Proof.
  intros Hg Hi Hall (x & Hx & Hgiven).
  assert (∀ it, it ∈ group_items r → is_basic it = true) as Hb.
  { assert (∀ g it, it ∈ group g r → is_basic it = true) as Hb.
    { intros g it [i Hit]%list_elem_of_lookup_1. destruct (Forall2_lookup_r _ _ _ _ _ (Hg g) Hit) as (y & _ & [? _]). done. }
    intros it. unfold group_items. rewrite !elem_of_app. intros [Hit|[Hit|[Hit|[Hit|[Hit|Hit]]]]];
      [apply (Hb GItems)|apply (Hb GSourceAddress)|apply (Hb GSourcePort)|apply (Hb GDestinationAddress)|apply (Hb GDestinationIPCIDR)|apply (Hb GDestinationPort)]; exact Hit. }
  assert (∀ g, nonempty (group g r) = nonempty (of_group g conds)) as Hne by (intros g; by eapply items_nonempty).
  assert (destination_group (ResetRuleCache c) r = destinationAddressItems r ++ destinationIPCIDRItems r) as Hdest.
  { unfold destination_group. by change (IgnoreDestinationIPCIDRMatch (ic_cache (ResetRuleCache c))) with (IgnoreDestinationIPCIDRMatch (ic_cache c)); rewrite Hi. }
  split.
  - unfold Rule_Match. rewrite (tree_match_ext _ (pure_match (basic_denotes env))) by (intros it c' Hit%Hb; by destruct it).
    rewrite tree_match_spec; [|intros [it|] c1 c2 Hc; [by apply BasicItem_Match_ext|done]|apply fresh_Reset].
    cbn [tree_denotes]. unfold rule_denotes. rewrite Hall. cbn [andb].
    assert (rule_constrained (ResetRuleCache c) r = true) as ->; [|done].
    unfold rule_constrained. rewrite Hdest, nonempty_app.
    assert (nonempty (group (cd_group x) r) = true) as Hn.
    { rewrite Hne. assert (x ∈ of_group (cd_group x) conds) as Hin by by apply elem_of_group. destruct (of_group _ conds); [by apply elem_of_nil in Hin|done]. }
    destruct (cd_group x); cbn in Hn; rewrite Hn, ?orb_true_r; done.
  - assert (∀ g, group_holds (basic_denotes env) (ResetRuleCache c) (group g r) = true ↔ group_met [g] conds) as Hone.
    { intros g. unfold group_holds. rewrite orb_true_iff, (items_exist _ _ _ _ (Hg g)), Hne, group_met_iff.
      setoid_rewrite list_elem_of_singleton. assert (negb (nonempty (of_group g conds)) = true ↔ of_group g conds = []) as -> by by destruct (of_group g conds).
      naive_solver. }
    unfold rule_condition. rewrite !andb_true_iff, Hdest.
    rewrite (Hone GSourceAddress), (Hone GSourcePort), (Hone GDestinationPort).
    assert (forallb (λ it, basic_denotes env it (ResetRuleCache c)) (items r) = true ↔ all_met conds) as ->.
    { rewrite (items_all _ _ _ _ (Hg GItems)). unfold all_met. setoid_rewrite elem_of_group. naive_solver. }
    assert (group_holds (basic_denotes env) (ResetRuleCache c) (destinationAddressItems r ++ destinationIPCIDRItems r) = true ↔
      group_met [GDestinationAddress; GDestinationIPCIDR] conds) as ->; [|tauto].
    unfold group_holds. rewrite orb_true_iff, existsb_app, orb_true_iff, nonempty_app.
    rewrite (items_exist _ _ _ _ (Hg GDestinationAddress)), (items_exist _ _ _ _ (Hg GDestinationIPCIDR)), group_met_iff.
    pose proof (Hne GDestinationAddress) as H1'. pose proof (Hne GDestinationIPCIDR) as H2'. cbn in H1', H2'. rewrite H1', H2'.
    setoid_rewrite elem_of_cons. setoid_rewrite list_elem_of_singleton.
    assert (∀ l l' : list Condition, negb (nonempty l || nonempty l') = true ↔ l = [] ∧ l' = []) as -> by (intros [] []; naive_solver).
    naive_solver.
Qed.

End Starting.

(** ** The items of the options *)

Section ItemMeanings.
Context `{ExtLib} `{ActionLib} (env : Env).

Lemma set_means `{Countable K} (l : list K) x : map_get (make_set l) x = true ↔ x ∈ l.
Proof. by rewrite map_get_make_set, bool_decide_eq_true. Qed.


Lemma IPVersion_means v (c : InboundContext) : v = 4 ∨ v = 6 → IPVersionItem_Match (NewIPVersionItem (Z.eqb v 6)) c = true ↔
  ic_IPVersion c ≠ 0 ∧ (ic_IPVersion c = 6 ↔ v = 6) ∨
  Socksaddr_IsIP (ic_Destination c) = true ∧ (Socksaddr_IsIPv6 (ic_Destination c) = true ↔ v = 6).
Proof.
  intros Hv. unfold IPVersionItem_Match, NewIPVersionItem. cbn [iv_isIPv6]. rewrite orb_true_iff, !andb_true_iff, negb_true_iff, Z.eqb_neq, !Bool.eqb_true_iff.
  destruct (Z.eqb_spec (ic_IPVersion c) 6), (Z.eqb_spec v 6), (Socksaddr_IsIPv6 (ic_Destination c)); naive_solver.
Qed.

Lemma Domain_means domains suffixes it (c : InboundContext) : NewDomainItem domains suffixes = Ok it →
  DomainItem_Match it c = true ↔ named c (λ host, Matcher_Match (domain_NewMatcher domains suffixes false) host = true).
Proof.
  unfold NewDomainItem. destruct (existsb _ domains); [done|]. destruct (existsb _ suffixes); [done|]. intros [= <-].
  unfold DomainItem_Match, named. cbn [di_matcher]. destruct (String.eqb_spec (domainHost c) ""); naive_solver.
Qed.

Lemma DomainKeyword_means l (c : InboundContext) :
  DomainKeywordItem_Match (NewDomainKeywordItem l) c = true ↔ named c (λ host, ∃ k, k ∈ l ∧ strings_Contains host k = true).
Proof.
  unfold DomainKeywordItem_Match, named. cbn [dk_keywords NewDomainKeywordItem]. destruct (String.eqb_spec (domainHost c) ""); [naive_solver|].
  rewrite existsb_exists. setoid_rewrite <-list_elem_of_In. naive_solver.
Qed.

(** Expressions that can all be read. *)
Lemma compile_all_means l ms s : compile_all l = Ok ms →
  existsb (λ m, Regexp_MatchString m s) ms = true ↔ ∃ e, e ∈ l ∧ expression_matches e s.
Proof.
  unfold compile_all, mapi_res. rewrite mapi_res_from_Ok. intros [Hlen Hms]. rewrite existsb_exists. setoid_rewrite <-list_elem_of_In.
  assert (∀ j e m, l !! j = Some e → ms !! j = Some m → regexp_Compile e = Ok m) as Hc by (intros j e m He Hm; eapply wrap_err_Ok, Hms; done).
  split.
  - intros (m & [j Hj]%list_elem_of_lookup_1 & Hm). destruct (lookup_lt_is_Some_2 l j) as [e He]; [rewrite <-Hlen; by eapply lookup_lt_Some|].
    exists e. split; [by eapply list_elem_of_lookup_2|]. exists m. split; [by eapply Hc|done].
  - intros (e & [j Hj]%list_elem_of_lookup_1 & x & Hx & Hm). destruct (lookup_lt_is_Some_2 ms j) as [m Hmj]; [rewrite Hlen; by eapply lookup_lt_Some|].
    assert (m = x) as -> by (specialize (Hc _ _ _ Hj Hmj); congruence). exists x. split; [by eapply list_elem_of_lookup_2|done].
Qed.

Lemma DomainRegex_means l it (c : InboundContext) : NewDomainRegexItem l = Ok it →
  DomainRegexItem_Match it c = true ↔ named c (λ host, ∃ e, e ∈ l ∧ expression_matches e host).
Proof.
  intros (ms & Hms & [= <-])%bind_Ok. unfold DomainRegexItem_Match, named. cbn [dx_matchers].
  destruct (String.eqb_spec (domainHost c) ""); [naive_solver|]. rewrite (compile_all_means _ _ _ Hms). naive_solver.
Qed.

Lemma cidrs_means l : ∀ i b b', add_cidrs i l b = Ok b' → b' = foldl add_text b l.
Proof.
  induction l as [|s l IH]; intros i b b'; cbn [add_cidrs foldl]; [by intros [= <-]|].
  intros (b1 & Hb & Hl)%bind_Ok. apply IH in Hl as ->. f_equal. unfold add_cidr in Hb. unfold add_text.
  destruct (netip_ParsePrefix s); [|destruct (netip_ParseAddr s)|]; congruence.
Qed.

Lemma IPCIDR_means src l it : NewIPCIDRItem src l = Ok it → ip_isSource it = src ∧ ∀ a, IPSet_Contains (ip_ipSet it) a = true ↔ in_texts l a.
Proof.
  unfold NewIPCIDRItem, in_texts. intros (b & Hb & (s & Hs & [= <-])%bind_Ok)%bind_Ok. apply cidrs_means in Hb as ->.
  split; [done|]. intros a. cbn. split; [intros Ha; by exists s|]. intros (s' & Hs' & Ha). congruence.
Qed.

Lemma SourceIPCIDR_means l it (c : InboundContext) : NewIPCIDRItem true l = Ok it →
  IPCIDRItem_Match it (ResetRuleCache c) = true ↔ in_texts l (sa_Addr (ic_Source c)).
Proof. intros [Hs Hl]%IPCIDR_means. unfold IPCIDRItem_Match. rewrite Hs. apply Hl. Qed.

Lemma DestinationIPCIDR_means l it (c : InboundContext) : NewIPCIDRItem false l = Ok it → IPCIDRItem_Match it (ResetRuleCache c) = true ↔
  if Socksaddr_IsIP (ic_Destination c) then in_texts l (sa_Addr (ic_Destination c)) else ∃ a, a ∈ ic_DestinationAddresses c ∧ in_texts l a.
Proof.
  intros [Hs Hl]%IPCIDR_means. unfold IPCIDRItem_Match. rewrite Hs. cbn.
  destruct (Socksaddr_IsIP (ic_Destination c)); [apply Hl|]. setoid_rewrite <-Hl.
  assert ((if nonempty (ic_DestinationAddresses c) then existsb (IPSet_Contains (ip_ipSet it)) (ic_DestinationAddresses c) else false) =
    existsb (IPSet_Contains (ip_ipSet it)) (ic_DestinationAddresses c)) as -> by by destruct (ic_DestinationAddresses c).
  rewrite existsb_exists. by setoid_rewrite <-list_elem_of_In.
Qed.

Lemma SourcePrivate_means (c : InboundContext) : IPIsPrivateItem_Match (NewIPIsPrivateItem true) c = true ↔
  Addr_IsValid (sa_Addr (ic_Source c)) = true ∧ IsPublicAddr (sa_Addr (ic_Source c)) = false.
Proof. unfold IPIsPrivateItem_Match. cbn. destruct (Addr_IsValid _); [|naive_solver]. rewrite negb_true_iff. naive_solver. Qed.

Lemma DestinationPrivate_means (c : InboundContext) : IPIsPrivateItem_Match (NewIPIsPrivateItem false) c = true ↔
  if Addr_IsValid (sa_Addr (ic_Destination c)) then IsPublicAddr (sa_Addr (ic_Destination c)) = false
  else ∃ a, a ∈ ic_DestinationAddresses c ∧ IsPublicAddr a = false.
Proof.
  unfold IPIsPrivateItem_Match. cbn. destruct (Addr_IsValid _); [apply negb_true_iff|].
  rewrite existsb_exists. setoid_rewrite <-list_elem_of_In. by setoid_rewrite negb_true_iff.
Qed.

Lemma PortRange_means src l it (c : InboundContext) : NewPortRangeItem src l = Ok it →
  PortRangeItem_Match it c = true ↔ port_in l (sa_Port (if src then ic_Source c else ic_Destination c)).
Proof. intros Hl. by apply (PortRangeItem_correct src l). Qed.

Lemma process_means (get : ConnectionOwner → string) l (c : InboundContext) (f : string → string) :
  match ic_ProcessInfo c with
  | None => false
  | Some info => if String.eqb (get info) "" then false else map_get (make_set l) (f (get info))
  end = true ↔ of_process c (λ p, get p ≠ ""%string ∧ f (get p) ∈ l).
Proof.
  unfold of_process. destruct (ic_ProcessInfo c) as [info|]; [|naive_solver].
  destruct (String.eqb_spec (get info) ""); [naive_solver|]. rewrite set_means. naive_solver.
Qed.

Lemma ProcessPathRegex_means l it (c : InboundContext) : NewProcessPathRegexItem l = Ok it → ProcessPathRegexItem_Match it c = true ↔
  of_process c (λ p, co_ProcessPath p ≠ ""%string ∧ ∃ e, e ∈ l ∧ expression_matches e (co_ProcessPath p)).
Proof.
  intros (ms & Hms & [= <-])%bind_Ok. unfold ProcessPathRegexItem_Match, of_process. cbn [px_matchers].
  destruct (ic_ProcessInfo c) as [info|]; [|naive_solver]. destruct (String.eqb_spec (co_ProcessPath info) ""); [naive_solver|].
  rewrite (compile_all_means _ _ _ Hms). naive_solver.
Qed.

Lemma UserId_means l (c : InboundContext) : UserIdItem_Match (NewUserIDItem l) c = true ↔ of_process c (λ p, co_UserId p ≠ -1 ∧ co_UserId p ∈ l).
Proof.
  unfold UserIdItem_Match, of_process. cbn [uid_userIdMap NewUserIDItem]. destruct (ic_ProcessInfo c) as [info|]; [|naive_solver].
  destruct (Z.eqb_spec (co_UserId info) (-1)); [naive_solver|]. rewrite set_means. naive_solver.
Qed.

Lemma ClashMode_means mode : ClashModeItem_Match env (ClashModeItem_Start env (NewClashModeItem mode)) = true ↔
  ∃ m, env_ClashMode env = Some m ∧ strings_EqualFold m mode = true.
Proof. unfold ClashModeItem_Match, ClashModeItem_Start. cbn. destruct (env_ClashMode env); naive_solver. Qed.

Lemma NetworkType_means l : NetworkTypeItem_Match env (NewNetworkTypeItem l) = true ↔ ∃ i, env_DefaultNetworkInterface env = Some i ∧ ni_Type i ∈ l.
Proof. unfold NetworkTypeItem_Match. cbn. destruct (env_DefaultNetworkInterface env); [rewrite bool_decide_eq_true|]; naive_solver. Qed.

Lemma none_overlaps_false a l : none_overlaps a l = false ↔ ∃ it, it ∈ l ∧ Prefix_Overlaps a it = true.
Proof.
  unfold none_overlaps. rewrite <-not_true_iff_false, forallb_forall. setoid_rewrite <-list_elem_of_In. setoid_rewrite negb_true_iff. split.
  - intros Hn. induction l as [|x l IH]; [destruct Hn; by intros ? ?%elem_of_nil|].
    destruct (Prefix_Overlaps a x) eqn:Hx; [exists x; split; [left|done]|]. destruct IH as (it & ? & ?); [|exists it; split; [by right|done]].
    intros Hl. apply Hn. intros y [->|Hy]%elem_of_cons; auto.
  - intros (it & Hit & Ho) Hl. specialize (Hl it Hit). congruence.
Qed.

Lemma DefaultInterface_means l : DefaultInterfaceAddressItem_Match env (NewDefaultInterfaceAddressItem l) = true ↔
  ∃ i, env_DefaultInterface env = Some i ∧ ∀ address, address ∈ l → overlap [address] (if_Addresses i).
Proof.
  unfold DefaultInterfaceAddressItem_Match, NewDefaultInterfaceAddressItem, overlap. destruct (env_DefaultInterface env) as [i|]; [|naive_solver].
  cbn [da_interfaceAddresses]. rewrite negb_true_iff, <-not_true_iff_false, existsb_exists. setoid_rewrite <-list_elem_of_In. unfold build_prefixes. split.
  - intros Hn. exists i. split; [done|]. intros a Ha. destruct (none_overlaps (Prefixable_Build a Prefix_zero) (if_Addresses i)) eqn:Ho.
    { destruct Hn. eexists. split; [by apply list_elem_of_fmap_2|exact Ho]. }
    apply none_overlaps_false in Ho as (it & ? & ?). eexists _, it. split; [left|done].
  - intros (? & [= <-] & Hl) (p & (a & -> & Ha)%list_elem_of_fmap & Ho). destruct (Hl a Ha) as (q & it & Hq & ? & ?).
    apply list_elem_of_singleton in Hq as ->. rewrite (proj2 (none_overlaps_false _ _)) in Ho; [done|]. by exists it.
Qed.

(** The map of the last entries. *)
Lemma entries_map `{Countable K} {A} (f : A → list Prefix) (l : list (K * A)) k :
  fold_left (λ m '(k, x), <[k := x]> m) ((λ '(k, x), (k, f x)) <$> l) (∅ : gmap K (list Prefix)) !! k = f <$> entry_of k l.
Proof.
  unfold entry_of. induction l as [|[k' x] l IH] using rev_ind; [cbn; by rewrite lookup_empty|].
  rewrite fmap_app, fold_left_app, List.filter_app. cbn. case_bool_decide as Hk; cbn in Hk.
  - subst. by rewrite list.last_snoc, lookup_insert_eq.
  - by rewrite app_nil_r, lookup_insert_ne.
Qed.

Lemma entries_all `{Countable K} (P : K → list Prefix → bool) (l : list (K * list (option Prefixable))) :
  forallb (λ '(k, x), P k x) (map_to_list (fold_left (λ m '(k, x), <[k := x]> m) ((λ '(k, x), (k, build_prefixes x)) <$> l) (∅ : gmap K (list Prefix)))) = true ↔
  ∀ k x, entry_of k l = Some x → P k (build_prefixes x) = true.
Proof.
  rewrite forallb_forall. split.
  - intros Hp k x Hk. apply (Hp (k, build_prefixes x)). apply list_elem_of_In, elem_of_map_to_list. by rewrite entries_map, Hk.
  - intros Hp [k x] Hin%list_elem_of_In%elem_of_map_to_list. rewrite entries_map in Hin. apply fmap_Some in Hin as (y & Hy & ->). by apply Hp.
Qed.

Lemma InterfaceAddress_means l : InterfaceAddressItem_Match env (NewInterfaceAddressItem l) = true ↔
  ∀ name x, entry_of name l = Some x → name ≠ ""%string ∧
    ∃ i, find (λ it, String.eqb (if_Name it) name) (env_Interfaces env) = Some i ∧ overlap x (if_Addresses i).
Proof.
  unfold InterfaceAddressItem_Match, NewInterfaceAddressItem. cbn [ia_interfaceAddresses]. rewrite entries_all.
  assert (∀ name x, interface_entry_matches (env_Interfaces env) name (build_prefixes x) = true ↔ name ≠ ""%string ∧
    ∃ i, find (λ it, String.eqb (if_Name it) name) (env_Interfaces env) = Some i ∧ overlap x (if_Addresses i)) as He; [|by setoid_rewrite He].
  intros name x. unfold interface_entry_matches, find_interface, overlap.
  destruct (find _ (env_Interfaces env)) as [i|] eqn:Hi; cbn; [|naive_solver]. apply find_some in Hi as [_ <-%String.eqb_eq].
  destruct (String.eqb_spec (if_Name i) ""); [naive_solver|]. rewrite negb_true_iff, <-not_true_iff_false, forallb_forall. setoid_rewrite <-list_elem_of_In. split.
  - intros Hn. split; [done|]. exists i. split; [done|]. induction (build_prefixes x) as [|a l' IH]; [destruct Hn; by intros ? ?%elem_of_nil|].
    destruct (none_overlaps a (if_Addresses i)) eqn:Ho.
    + destruct IH as (a' & it & ? & ? & ?); [|exists a', it; split; [by right|done]]. intros Hl. apply Hn. intros y [->|Hy]%elem_of_cons; auto.
    + apply none_overlaps_false in Ho as (it & ? & ?). exists a, it. split; [left|done].
  - intros (_ & ? & [= <-] & a & it & Ha & Hit & Ho) Hl. specialize (Hl a Ha). rewrite (proj2 (none_overlaps_false _ _)) in Hl; [done|]. by exists it.
Qed.

Lemma NetworkInterfaceAddress_means l : NetworkInterfaceAddressItem_Match env (NewNetworkInterfaceAddressItem l) = true ↔
  ∀ ty x, entry_of ty l = Some x → ∃ i, i ∈ env_NetworkInterfaces env ∧ ni_Type i = ty ∧ overlap x (if_Addresses (ni_Interface i)).
Proof.
  unfold NetworkInterfaceAddressItem_Match, NewNetworkInterfaceAddressItem. cbn [na_interfaceAddresses]. rewrite entries_all.
  assert (∀ ty x, network_interface_entry_matches (env_NetworkInterfaces env) ty (build_prefixes x) = true ↔
    ∃ i, i ∈ env_NetworkInterfaces env ∧ ni_Type i = ty ∧ overlap x (if_Addresses (ni_Interface i))) as He; [|by setoid_rewrite He].
  intros ty x. unfold network_interface_entry_matches, overlap. rewrite existsb_exists. setoid_rewrite <-list_elem_of_In. split.
  - intros (i & Hi & Hm). case_bool_decide as Ht; [done|]. exists i. split; [done|]. split; [by destruct (decide (ni_Type i = ty))|].
    apply existsb_exists in Hm as (it & Hit & (a & Ha & Ho)%existsb_exists). exists a, it. by rewrite !list_elem_of_In.
  - intros (i & Hi & Ht & a & it & Ha & Hit & Ho). exists i. split; [done|]. rewrite bool_decide_eq_false_2 by naive_solver.
    apply existsb_exists. exists it. split; [by apply list_elem_of_In|]. apply existsb_exists. exists a. split; [by apply list_elem_of_In|done].
Qed.

Lemma PreferredBy_means l it (c : InboundContext) : PreferredByItem_Start env (NewPreferredByItem l) = Ok it →
  PreferredByItem_Match it c = true ↔ ∃ tag ty routes, tag ∈ l ∧ env_Outbound env tag = Some (ty, Some routes) ∧ preferred c routes.
Proof.
  unfold PreferredByItem_Start. cbn [pb_outboundTags pb_outbounds NewPreferredByItem]. intros (rs & Hrs & [= <-])%bind_Ok. apply mapi_res_Forall2 in Hrs.
  assert (∀ P : PreferredRoutes → Prop, (∃ x, x ∈ rs ∧ P x) ↔ ∃ tag ty routes, tag ∈ l ∧ env_Outbound env tag = Some (ty, Some routes) ∧ P routes) as Hex.
  { intros P. induction Hrs as [|tag x l rs Hx Hrs IH]; [split; [by intros (? & ?%elem_of_nil & _)|by intros (? & ? & ? & ?%elem_of_nil & _)]|].
    setoid_rewrite elem_of_cons. unfold preferred_outbound in Hx. destruct (env_Outbound env tag) as [[ty [routes|]]|] eqn:Ht; [injection Hx as ->|done..].
    split.
    - intros (y & [->|Hy] & Hp); [by exists tag, ty, x; split; [left|]|]. destruct (proj1 IH) as (t & ty' & r & ? & ? & ?); [by exists y|].
      exists t, ty', r. split; [by right|done].
    - intros (t & ty' & r & [->|Hin] & Ho & Hp); [exists x; split; [by left|]; by simplify_eq|].
      destruct (proj2 IH) as (y & ? & ?); [by exists t, ty', r|]. exists y. split; [by right|done]. }
  rewrite <-Hex. unfold PreferredByItem_Match, preferred. cbn [pb_outbounds app].
  assert (∀ f : PreferredRoutes → bool, existsb f rs = true ↔ ∃ x, x ∈ rs ∧ f x = true) as He by (intros f; rewrite existsb_exists; by setoid_rewrite <-list_elem_of_In).
  split.
  - destruct (negb _ && _) eqn:H1'; [intros _; apply andb_true_iff in H1' as [Hn%negb_true_iff%String.eqb_neq (x & ? & ?)%He]; exists x; naive_solver|].
    destruct (Socksaddr_IsIP _ && _) eqn:H2'; [intros _; apply andb_true_iff in H2' as [Hn (x & ? & ?)%He]; exists x; naive_solver|].
    intros (a & Ha%list_elem_of_In & (x & ? & ?)%He)%existsb_exists. exists x. naive_solver.
  - intros (x & Hx & [[Hn Hp]|[[Hi Hp]|(a & Ha & Hp)]]).
    + rewrite (proj2 (String.eqb_neq _ _) Hn), (proj2 (He (λ outbound, PreferredDomain outbound (domainHost c)))); [done|by exists x].
    + destruct (negb _ && _); [done|]. rewrite Hi, (proj2 (He (λ outbound, PreferredAddress outbound (sa_Addr (ic_Destination c))))); [done|by exists x].
    + destruct (negb _ && _); [done|]. destruct (Socksaddr_IsIP _ && _); [done|]. apply existsb_exists. exists a. split; [by apply list_elem_of_In|].
      apply He. by exists x.
Qed.

End ItemMeanings.

(** ** The steps of the constructor *)

Definition is_add {I} (s : Step I) : bool := match s with SAdd _ _ _ => true | SFail _ _ => false end.

Lemma is_add_items {I} g (steps : list (Step I)) : flat_map (step_group g) (List.filter is_add steps) = flat_map (step_group g) steps.
Proof. induction steps as [|[] steps IH]; [done|cbn; by rewrite IH|done]. Qed.

Lemma group_met_not_given gs l g P : group_met gs (l ++ [mkCondition g false P]) ↔ group_met gs l.
Proof.
  unfold group_met. split; intros [Hn|(x & Hx & Hg & Ht & Hp)]; [left|right|left|right].
  - intros x Hx. apply Hn, elem_of_app. by left.
  - apply elem_of_app in Hx as [Hx| ->%list_elem_of_singleton]; [by exists x|done].
  - intros x [Hx| ->%list_elem_of_singleton]%elem_of_app; [by apply Hn|done].
  - exists x. split; [apply elem_of_app; by left|done].
Qed.

Lemma all_met_not_given l g P : all_met (l ++ [mkCondition g false P]) ↔ all_met l.
Proof.
  unfold all_met. split; intros Hn x Hx; [apply Hn, elem_of_app; by left|]. apply elem_of_app in Hx as [Hx| ->%list_elem_of_singleton]; [by apply Hn|done].
Qed.

Ltac option_added := eexists; split; [reflexivity|]; intros _ it [= <-]; eexists; split; [reflexivity|]; intros b' [= <-]; cbn [BasicItem_Match cd_holds].
Ltac option_built H := eexists; split; [reflexivity|]; intros _ it H;
  match type of H with context [fmap _ ?r] => destruct r as [x| |] eqn:?; [|discriminate H..] end;
  injection H as <-; eexists; split; [reflexivity|]; intros b' [= <-]; cbn [BasicItem_Match cd_holds].

Section Meaning.
Context `{ExtLib} `{ActionLib} (env : Env) (o : RawDefaultRule) (c : InboundContext).

Lemma addresses_ok : Forall2 (step_ok env c) (List.filter is_add (rule_steps_addresses o)) (conditions_addresses o c).
Proof.
  unfold rule_steps_addresses, conditions_addresses, add_if. cbn [List.filter is_add].
  apply Forall2_cons; [option_added; apply set_means|].
  apply Forall2_cons; [|].
  { eexists. split; [reflexivity|]. intros _ it Hit. destruct (_ || _) eqn:Hv in Hit; [|discriminate Hit]. injection Hit as <-.
    eexists. split; [reflexivity|]. intros b' [= <-]. cbn [BasicItem_Match cd_holds]. apply (IPVersion_means _ (ResetRuleCache c)).
    apply orb_true_iff in Hv as [?%Z.eqb_eq|?%Z.eqb_eq]; tauto. }
  apply Forall2_cons; [option_added; apply set_means|].
  apply Forall2_cons; [option_added; apply set_means|].
  apply Forall2_cons; [option_added; apply set_means|].
  apply Forall2_cons; [option_added; apply set_means|].
  apply Forall2_cons; [option_built Hit; by apply (Domain_means _ _ _ (ResetRuleCache c))|].
  apply Forall2_cons; [option_added; apply (DomainKeyword_means _ (ResetRuleCache c))|].
  apply Forall2_cons; [option_built Hit; by apply (DomainRegex_means _ _ (ResetRuleCache c))|].
  apply Forall2_cons; [option_built Hit; by apply SourceIPCIDR_means|].
  apply Forall2_cons; [option_added; apply (SourcePrivate_means (ResetRuleCache c))|].
  apply Forall2_cons; [option_built Hit; by apply DestinationIPCIDR_means|].
  apply Forall2_cons; [option_added; apply (DestinationPrivate_means (ResetRuleCache c))|].
  constructor.
Qed.

Lemma process_ok : Forall2 (step_ok env c) (List.filter is_add (rule_steps_process o)) (conditions_process o c).
Proof.
  unfold rule_steps_process, conditions_process, add_if. cbn [List.filter is_add].
  apply Forall2_cons; [option_added; apply set_means|].
  apply Forall2_cons; [option_built Hit; by apply (PortRange_means true _ _ (ResetRuleCache c))|].
  apply Forall2_cons; [option_added; apply set_means|].
  apply Forall2_cons; [option_built Hit; by apply (PortRange_means false _ _ (ResetRuleCache c))|].
  apply Forall2_cons; [option_added; apply (process_means co_ProcessPath _ (ResetRuleCache c) filepath_Base)|].
  apply Forall2_cons; [option_added; apply (process_means co_ProcessPath _ (ResetRuleCache c) id)|].
  apply Forall2_cons; [option_built Hit; by apply (ProcessPathRegex_means _ _ (ResetRuleCache c))|].
  apply Forall2_cons; [option_added; apply (process_means co_AndroidPackageName _ (ResetRuleCache c) id)|].
  apply Forall2_cons; [option_added; apply (process_means co_UserName _ (ResetRuleCache c) id)|].
  apply Forall2_cons; [option_added; apply (UserId_means _ (ResetRuleCache c))|].
  constructor.
Qed.

Lemma network_ok : ru_RuleSet o = [] →
  Forall2 (step_ok env c) (List.filter is_add (rule_steps_network o)) (conditions_network env o c ++ [mkCondition GItems false False]).
Proof.
  intros Hrs. unfold rule_steps_network, conditions_network, add_if. cbn [List.filter is_add app]. rewrite Hrs.
  apply Forall2_cons; [option_added; apply ClashMode_means|].
  apply Forall2_cons; [option_added; apply NetworkType_means|].
  apply Forall2_cons; [option_added; unfold NetworkIsExpensiveItem_Match; destruct (env_DefaultNetworkInterface env); naive_solver|].
  apply Forall2_cons; [option_added; unfold NetworkIsConstrainedItem_Match; destruct (env_DefaultNetworkInterface env); naive_solver|].
  apply Forall2_cons; [option_added; apply set_means|].
  apply Forall2_cons; [option_added; apply set_means|].
  apply Forall2_cons; [option_added; apply InterfaceAddress_means|].
  apply Forall2_cons; [option_added; apply NetworkInterfaceAddress_means|].
  apply Forall2_cons; [option_added; apply DefaultInterface_means|].
  apply Forall2_cons.
  { eexists. split; [reflexivity|]. intros _ it [= <-]. eexists. split; [reflexivity|]. intros b' Hb. cbn [BasicItem_Start] in Hb.
    destruct (PreferredByItem_Start env _) as [x| |] eqn:Hx; [|discriminate Hb..]. injection Hb as <-. cbn [BasicItem_Match cd_holds]. by apply (PreferredBy_means _ _ _ (ResetRuleCache c)) in Hx. }
  apply Forall2_cons; [by eexists|]. constructor.
Qed.

Lemma options_ok : ru_RuleSet o = [] →
  Forall2 (step_ok env c) (List.filter is_add (rule_steps_addresses o ++ rule_steps_process o ++ rule_steps_network o))
    (conditions env o c ++ [mkCondition GItems false False]).
Proof.
  intros Hrs. rewrite !List.filter_app. unfold conditions. rewrite <-!app_assoc.
  apply Forall2_app; [apply addresses_ok|]. apply Forall2_app; [apply process_ok|by apply network_ok].
Qed.

End Meaning.

(** ** The property *)

Section Property.
Context `{ExtLib} `{ActionLib}.

(** C40: a default rule means its options.  The rule that is built from the options and started (the rule sets of
    the options aside) matches a connection exactly when the documented condition of the options holds:
    of the options on names and addresses of the destination one, if any is given, of its ports one, of the addresses of
    the source one, of its ports one, and every other option, each with its own meaning on the connection and the
    state of the machine; negated by [invert].  Its action is that of the options. *)
Theorem NewDefaultRule_means env options r sets r' sets' sets'' c :
  NewDefaultRule options = Ok r → ru_RuleSet (dro_Raw options) = [] → DefaultRule_Start env r sets = (Ok r', sets') →
  IgnoreDestinationIPCIDRMatch (ic_cache c) = false →
  (∃ x, x ∈ conditions env (dro_Raw options) c ∧ cd_given x = true) →
  ((Rule_Match env sets'' (TDefault r') (ResetRuleCache c)).1 = true ↔
    if ru_Invert (dro_Raw options) then ¬ options_hold env (dro_Raw options) c else options_hold env (dro_Raw options) c) ∧
  NewRuleAction (dro_Action options) = Ok (action r').
Proof.
  unfold NewDefaultRule. intros (act & Ha%wrap_err_Ok & Hb%build_steps_built)%bind_Ok Hrs Hs Hi (x & Hx & Hgiven).
  set (o := dro_Raw options) in *. set (steps := rule_steps_addresses o ++ _) in Hb. set (conds := conditions env o c ++ [mkCondition GItems false False]).
  pose proof (options_ok env o c Hrs) as Hok. fold steps conds in Hok.
  assert (rule_wf r) as Hwf by (apply (built_wf _ _ _ Hb), rule_wf_new).
  assert (∀ g, group g r = flat_map (step_group g) (List.filter is_add steps)) as Hgroup.
  { intros g. rewrite is_add_items, (built_group _ _ _ Hb). by destruct g. }
  destruct (default_started env r r' sets sets' Hs Hwf) as (Hst & Hall & Hinv & Hact).
  { intros g it. rewrite Hgroup. by eapply steps_basic. }
  assert (∀ g, Forall2 (item_ok env c) (of_group g conds) (group g r')) as Hg.
  { intros g. eapply steps_items; [exact Hok| |rewrite <-Hgroup; apply Hst].
    intros g' new [Hin%list_elem_of_In _]%list_elem_of_In%List.filter_In. by eapply (built_ok _ _ _ Hb). }
  assert (x ∈ conds) as Hx' by (apply elem_of_app; by left).
  destruct (groups_mean env sets'' r' c conds Hg Hi) as [Hm Hc]; [|by exists x|].
  { rewrite Hall. assert (nonempty (group (cd_group x) r') = true) as Hn.
    { rewrite (items_nonempty _ _ _ _ (Hg _)). assert (x ∈ of_group (cd_group x) conds) as Hin by by apply elem_of_group.
      destruct (of_group _ conds); [by apply elem_of_nil in Hin|done]. }
    assert (nonempty (group (cd_group x) r) = true) as Hn' by by destruct (Hst (cd_group x)).
    unfold rule_wf in Hwf. destruct (allItems r); [|done]. apply Permutation_nil_l in Hwf. symmetry in Hwf. rewrite !app_nil in Hwf.
    destruct Hwf as (H1' & H2' & H3' & H4' & H5' & H6'). destruct (cd_group x); cbn in Hn'; congruence. }
  assert (options_hold env o c ↔ rule_condition (basic_denotes env) (ResetRuleCache c) r' = true) as Hiff.
  { rewrite Hc. unfold options_hold, conds. by rewrite !group_met_not_given, all_met_not_given. }
  rewrite Hm, Hinv, (built_invert _ _ _ Hb), Hact, (built_action _ _ _ Hb). split; [|done]. cbn [invert new_rule]. fold o.
  destruct (ru_Invert o); rewrite Hiff; by destruct (rule_condition _ _ _).
Qed.

End Property.

(** ** A rule *)

Section Examples.
#[local] Instance ex_lib : ExtLib := SampleLib.
#[local] Instance ex_actions : ActionLib := SampleActions.

(** From private sources over TCP to port 443 or to a port of a range. *)
Definition example_options : DefaultRuleOptions := mkDefaultRuleOptions
  (RawDefaultRule_zero <| ru_Network := ["tcp"%string] |> <| ru_SourceIPIsPrivate := true |> <| ru_Port := [443] |> <| ru_PortRange := ["8000:9000"%string] |>)
  (OA_Route (mkRouteActionOptions "hop" (mkRawRouteOptionsActionOptions "" 0 None 0 false false 0 false 0 false))).

Definition example_request : InboundContext :=
  InboundContext_zero <| ic_Network := "tcp"%string |> <| ic_Source := mkSocksaddr (Addr4 0x0A000001) 5000 "" |>
    <| ic_Destination := mkSocksaddr AddrInvalid 8443 "a.test" |>.

(** The rule is built, started and matched. *)
Definition example_matches : bool :=
  match NewDefaultRule example_options with
  | Ok r =>
      match (DefaultRule_Start idle_env r ∅).1 with
      | Ok r' => (Rule_Match idle_env ∅ (TDefault r') (ResetRuleCache example_request)).1
      | _ => false
      end
  | _ => false
  end.

Lemma NewDefaultRule_means_witness : options_hold idle_env (dro_Raw example_options) example_request.
Proof.
  assert (example_matches = true) as Hm by (vm_compute; reflexivity). unfold example_matches in Hm.
  destruct (NewDefaultRule example_options) as [r|e|p] eqn:E; [|discriminate Hm..].
  destruct (DefaultRule_Start idle_env r ∅) as [[r'|e|p] sets'] eqn:S; [|discriminate Hm..].
  apply (NewDefaultRule_means idle_env example_options r ∅ r' sets' ∅ example_request E eq_refl S eq_refl); [|exact Hm].
  eexists. split; [right; right; left|reflexivity].
Defined.
End Examples.
