(* ===== verification/DnsRules.v ===== *)
(** * DNS rules and the choice of a DNS transport (route/rule/rule_dns.go, dns/router.go)

    A DNS rule is matched twice: before the query without its address filter ([Match]), and on the
    answer with it ([MatchAddressLimit]).  The DNS router walks its rules with the first and starts
    again after the rule whose answer the second rejects. *)

From stdpp Require Import base gmap strings list numbers.
From S2P Require Import Prelude GoStd Netip Adapter SetItems AddrItems RuleAction RuleOptions.
From S2P Require Import RuleItem RuleMatch RuleSet Rules.

Local Open Scope Z_scope.

Section DnsRules.
Context `{ExtLib} `{ActionLib}.

(** ** The rules *)

(** [route/rule/rule_dns.go:47-49] DefaultDNSRule *)
Definition DefaultDNSRule : Type := abstractDefaultRule RouteItem.

(** [route/rule/rule_dns.go:316-318] LogicalDNSRule *)
Definition DNSRule : Type := RuleTree RouteItem.

(** [route/rule/rule_dns.go:58-155] NewDefaultDNSRule (inbound to ip_accept_any) *)
Definition dns_steps_addresses (o : RawDefaultDNSRule) : list (Step RouteItem) :=
  [ add_if (nonempty (dn_Inbound o)) GItems
      (Basic (I_Inbound (NewInboundRule (dn_Inbound o))));
    SAdd (Z.ltb 0 (dn_IPVersion o)) GItems
      (if Z.eqb (dn_IPVersion o) 4 || Z.eqb (dn_IPVersion o) 6
       then Ok (Basic (I_IPVersion (NewIPVersionItem (Z.eqb (dn_IPVersion o) 6))))
       else Err (E_New [AStr "invalid ip version: "; AInt (dn_IPVersion o)]));
    add_if (nonempty (dn_QueryType o)) GItems
      (Basic (I_QueryType (NewQueryTypeItem (dn_QueryType o))));
    add_if (nonempty (dn_Network o)) GItems
      (Basic (I_Network (NewNetworkItem (dn_Network o))));
    add_if (nonempty (dn_AuthUser o)) GItems
      (Basic (I_AuthUser (NewAuthUserItem (dn_AuthUser o))));
    add_if (nonempty (dn_Protocol o)) GItems
      (Basic (I_Protocol (NewProtocolItem (dn_Protocol o))));
    SAdd (nonempty (dn_Domain o) || nonempty (dn_DomainSuffix o)) GDestinationAddress
      ((λ x, Basic (I_Domain x)) <$> NewDomainItem (dn_Domain o) (dn_DomainSuffix o));
    add_if (nonempty (dn_DomainKeyword o)) GDestinationAddress
      (Basic (I_DomainKeyword (NewDomainKeywordItem (dn_DomainKeyword o))));
    SAdd (nonempty (dn_DomainRegex o)) GDestinationAddress
      (wrap_err [AStr "domain_regex"]
         ((λ x, Basic (I_DomainRegex x)) <$> NewDomainRegexItem (dn_DomainRegex o)));
    SFail (nonempty (dn_Geosite o)) ErrGeosite;
    SFail (nonempty (dn_SourceGeoIP o)) ErrGeoIP;
    SFail (nonempty (dn_GeoIP o)) ErrGeoIP;
    SAdd (nonempty (dn_SourceIPCIDR o)) GSourceAddress
      (wrap_err [AStr "source_ip_cidr"]
         ((λ x, Basic (I_IPCIDR x)) <$> NewIPCIDRItem true (dn_SourceIPCIDR o)));
    SAdd (nonempty (dn_IPCIDR o)) GDestinationIPCIDR
      (wrap_err [AStr "ip_cidr"]
         ((λ x, Basic (I_IPCIDR x)) <$> NewIPCIDRItem false (dn_IPCIDR o)));
    add_if (dn_SourceIPIsPrivate o) GSourceAddress
      (Basic (I_IPIsPrivate (NewIPIsPrivateItem true)));
    add_if (dn_IPIsPrivate o) GDestinationIPCIDR
      (Basic (I_IPIsPrivate (NewIPIsPrivateItem false)));
    add_if (dn_IPAcceptAny o) GDestinationIPCIDR (Basic I_IPAcceptAny) ].

(** [route/rule/rule_dns.go:156-219] NewDefaultDNSRule (source_port to outbound) *)
Definition dns_steps_process (o : RawDefaultDNSRule) : list (Step RouteItem) :=
  [ add_if (nonempty (dn_SourcePort o)) GSourcePort
      (Basic (I_Port (NewPortItem true (dn_SourcePort o))));
    SAdd (nonempty (dn_SourcePortRange o)) GSourcePort
      (wrap_err [AStr "source_port_range"]
         ((λ x, Basic (I_PortRange x)) <$> NewPortRangeItem true (dn_SourcePortRange o)));
    add_if (nonempty (dn_Port o)) GDestinationPort
      (Basic (I_Port (NewPortItem false (dn_Port o))));
    SAdd (nonempty (dn_PortRange o)) GDestinationPort
      (wrap_err [AStr "port_range"]
         ((λ x, Basic (I_PortRange x)) <$> NewPortRangeItem false (dn_PortRange o)));
    add_if (nonempty (dn_ProcessName o)) GItems
      (Basic (I_Process (NewProcessItem (dn_ProcessName o))));
    add_if (nonempty (dn_ProcessPath o)) GItems
      (Basic (I_ProcessPath (NewProcessPathItem (dn_ProcessPath o))));
    SAdd (nonempty (dn_ProcessPathRegex o)) GItems
      (wrap_err [AStr "process_path_regex"]
         ((λ x, Basic (I_ProcessPathRegex x)) <$> NewProcessPathRegexItem (dn_ProcessPathRegex o)));
    add_if (nonempty (dn_PackageName o)) GItems
      (Basic (I_PackageName (NewPackageNameItem (dn_PackageName o))));
    add_if (nonempty (dn_User o)) GItems (Basic (I_User (NewUserItem (dn_User o))));
    add_if (nonempty (dn_UserID o)) GItems (Basic (I_UserId (NewUserIDItem (dn_UserID o))));
    add_if (nonempty (dn_Outbound o)) GItems
      (Basic (I_Outbound (NewOutboundRule (dn_Outbound o)))) ].

(** [route/rule/rule_dns.go:220-278] NewDefaultDNSRule (clash_mode to rule_set) *)
Definition dns_steps_network (o : RawDefaultDNSRule) : list (Step RouteItem) :=
  [ add_if (negb (String.eqb (dn_ClashMode o) "")) GItems
      (Basic (I_ClashMode (NewClashModeItem (dn_ClashMode o))));
    add_if (nonempty (dn_NetworkType o)) GItems
      (Basic (I_NetworkType (NewNetworkTypeItem (dn_NetworkType o))));
    add_if (dn_NetworkIsExpensive o) GItems (Basic I_NetworkIsExpensive);
    add_if (dn_NetworkIsConstrained o) GItems (Basic I_NetworkIsConstrained);
    add_if (nonempty (dn_WIFISSID o)) GItems
      (Basic (I_WIFISSID (NewWIFISSIDItem (dn_WIFISSID o))));
    add_if (nonempty (dn_WIFIBSSID o)) GItems
      (Basic (I_WIFIBSSID (NewWIFIBSSIDItem (dn_WIFIBSSID o))));
    add_if (nonempty (default [] (dn_InterfaceAddress o))) GItems
      (Basic (I_InterfaceAddress
         (NewInterfaceAddressItem (default [] (dn_InterfaceAddress o)))));
    add_if (nonempty (default [] (dn_NetworkInterfaceAddress o))) GItems
      (Basic (I_NetworkInterfaceAddress
         (NewNetworkInterfaceAddressItem (default [] (dn_NetworkInterfaceAddress o)))));
    add_if (nonempty (dn_DefaultInterfaceAddress o)) GItems
      (Basic (I_DefaultInterfaceAddress
         (NewDefaultInterfaceAddressItem (dn_DefaultInterfaceAddress o))));
    add_if (nonempty (dn_RuleSet o)) GItems
      (RuleSetI (NewRuleSetItem (dn_RuleSet o)
         (dn_RuleSetIPCIDRMatchSource o || dn_Deprecated_RulesetIPCIDRMatchSource o)
         (dn_RuleSetIPCIDRAcceptEmpty o))) ].

(** [route/rule/rule_dns.go:51-280] NewDefaultDNSRule *)
Definition NewDefaultDNSRule (options : DefaultDNSRuleOptions) : res DefaultDNSRule :=
  action ← NewDNSRuleAction (ddo_Action options);
  let o := ddo_Raw options in
  build_steps (dns_steps_addresses o ++ dns_steps_process o ++ dns_steps_network o)
    (new_rule (dn_Invert o) action).

(** [route/rule/rule_dns.go:320-344] NewLogicalDNSRule *)
Definition NewLogicalDNSRule {O} (New : O → res DNSRule)
    (options : LogicalOptions O DNSRuleActionOptions) : res DNSRule :=
  action ← NewDNSRuleAction (lo_Action options);
  mode ← logical_mode (lo_Mode options);
  rules ← mapi_res (λ i sub, wrap_err [AStr "sub rule["; AInt (Z.of_nat i); AStr "]"] (New sub))
            (lo_Rules options);
  Ok (TLogical (mkLogicalRule rules mode (lo_Invert options) action)).

(** [route/rule/rule_dns.go:22-27] NewDNSRule (server check) *)
Definition missing_server (checkServer : bool) (a : DNSRuleActionOptions) : bool :=
  match a with
  | ODA_Empty => checkServer
  | ODA_Route o => String.eqb (dr_Server o) "" && checkServer
  | _ => false
  end.

(** [route/rule/rule_dns.go:16-43] NewDNSRule *)
Fixpoint NewDNSRule (options : DNSRuleOptions) (checkServer : bool) : res DNSRule :=
  let '(mkOptionTree type d l) := options in
  if String.eqb type "" || String.eqb type "default" then
    if negb (DefaultDNSRule_IsValid d) then Err (E_New [AStr "missing conditions"]) else
    if missing_server checkServer (ddo_Action d) then Err (E_New [AStr "missing server field"])
    else TDefault <$> NewDefaultDNSRule d
  else if String.eqb type "logical" then
    valid ← Logical_IsValid false DefaultDNSRule_IsValid l;
    if negb valid then Err (E_New [AStr "missing conditions"]) else
    if missing_server checkServer (lo_Action l) then Err (E_New [AStr "missing server field"])
    else NewLogicalDNSRule (λ sub, NewDNSRule sub false) l
  else Err (E_New [AStr "unknown rule type: "; AStr type]).

(** [route/rule/rule_dns.go:286-300] (DefaultDNSRule).WithAddressLimit *)
Definition Default_WithAddressLimit (sets : RuleSets) (r : DefaultDNSRule) : bool :=
  if nonempty (destinationIPCIDRItems r) then true
  else existsb (λ rawRule, match rawRule with
                           | RuleSetI ruleSet => ContainsDestinationIPCIDRRule sets ruleSet
                           | Basic _ => false
                           end) (items r).

(** [route/rule/rule_dns.go:350-364] (LogicalDNSRule).WithAddressLimit *)
Fixpoint WithAddressLimit (sets : RuleSets) (rule : DNSRule) : bool :=
  match rule with
  | TDefault r => Default_WithAddressLimit sets r
  | TLogical r => existsb (WithAddressLimit sets) (lr_rules r)
  end.

(** [route/rule/rule_dns.go:302-308] (DefaultDNSRule).Match *)
Definition DefaultDNSRule_Match (env : Env) (sets : RuleSets) (r : DefaultDNSRule)
    (metadata : InboundContext) : bool * InboundContext :=
  let '(b, metadata) :=
    abstractDefaultRule_Match (RouteItem_Match env sets) r (set_ignore true metadata) in
  (b, set_ignore false metadata).

(** [route/rule/rule_dns.go:366-378] (LogicalDNSRule).Match *)
Definition DNSRule_Match (env : Env) (sets : RuleSets) (rule : DNSRule)
    : InboundContext → bool * InboundContext :=
  tree_match (DefaultDNSRule_Match env sets) rule.

(** [route/rule/rule_dns.go:380-392] (LogicalDNSRule).MatchAddressLimit *)
Definition MatchAddressLimit (env : Env) (sets : RuleSets) (rule : DNSRule)
    : InboundContext → bool * InboundContext :=
  tree_match (abstractDefaultRule_Match (RouteItem_Match env sets)) rule.

(** ** The DNS router *)

(** A transport of the manager: its type, and the strategy and client subnet of a legacy one. *)
Record DNSTransport : Type := mkDNSTransport {
  dt_Tag : string;
  dt_Type : string;
  dt_Legacy : option (DomainStrategy * Prefix)
}.

(** [adapter/dns.go:33-40] DNSQueryOptions *)
Record DNSQueryOptions : Type := mkDNSQueryOptions {
  qo_Transport : option DNSTransport;
  qo_Strategy : DomainStrategy;
  qo_LookupStrategy : DomainStrategy;
  qo_DisableCache : bool;
  qo_RewriteTTL : option Z;
  qo_ClientSubnet : Prefix
}.
#[local] Instance DNSQueryOptions_settable : Settable DNSQueryOptions :=
  {| mkT r := mkDNSQueryOptions (qo_Transport r) (qo_Strategy r) (qo_LookupStrategy r)
                (qo_DisableCache r) (qo_RewriteTTL r) (qo_ClientSubnet r) |}.

(** The rules and the transports, with the transport of last resort.

    [dns/router.go:31-41] Router *)
Record DNSRouter : Type := mkDNSRouter {
  dq_rules : list DNSRule;
  dq_transports : gmap string DNSTransport;
  dq_default : DNSTransport;
  dq_defaultDomainStrategy : DomainStrategy
}.

(** The options of a [route] or [route-options] action that are set replace those of the query.

    [dns/router.go:157-168] (Router).matchDNS (options) *)
Definition apply_dns_options (isFakeIP : bool) (action : RuleActionDNSRouteOptions)
    (options : DNSQueryOptions) : DNSQueryOptions :=
  let options := if decide (ad_Strategy action = DomainStrategyAsIS) then options
                 else options <| qo_Strategy := ad_Strategy action |> in
  let options := if isFakeIP || ad_DisableCache action
                 then options <| qo_DisableCache := true |> else options in
  let options := match ad_RewriteTTL action with
                 | Some ttl => options <| qo_RewriteTTL := Some ttl |>
                 | None => options
                 end in
  if Prefix_IsValid (ad_ClientSubnet action)
  then options <| qo_ClientSubnet := ad_ClientSubnet action |> else options.

(** [dns/router.go:169-176] (Router).matchDNS (legacy transport) *)
Definition apply_legacy (transport : DNSTransport) (options : DNSQueryOptions)
    : DNSQueryOptions :=
  match dt_Legacy transport with
  | None => options
  | Some (strategy, subnet) =>
      let options := if decide (qo_Strategy options = DomainStrategyAsIS)
                     then options <| qo_Strategy := strategy |> else options in
      if negb (Prefix_IsValid (qo_ClientSubnet options))
      then options <| qo_ClientSubnet := subnet |> else options
  end.

(** What [matchDNS] returns; a [nil] transport comes with a rule that answers by itself. *)
Record DNSChoice : Type := mkDNSChoice {
  ch_transport : option DNSTransport;
  ch_rule : option DNSRule;
  ch_index : Z
}.

(** A [route] action: the transport, or [None] when the rule is passed over.

    [dns/router.go:147-156] (Router).matchDNS (route) *)
Definition dns_route (transports : gmap string DNSTransport) (allowFakeIP : bool)
    (server : string) : option (DNSTransport * bool) :=
  match transports !! server with
  | None => None
  | Some transport =>
      let isFakeIP := String.eqb (dt_Type transport) "fakeip" in
      if isFakeIP && negb allowFakeIP then None else Some (transport, isFakeIP)
  end.

(** The loop over the rules from an index on.

    [dns/router.go:129-198] (Router).matchDNS (loop) *)
Fixpoint matchDNS_from (env : Env) (sets : RuleSets) (r : DNSRouter) (allowFakeIP : bool)
    (isAddressQuery : bool) (rules : list DNSRule) (i : Z) (metadata : InboundContext)
    (options : DNSQueryOptions) : DNSChoice * DNSQueryOptions * InboundContext :=
  match rules with
  | [] => (mkDNSChoice (Some (dq_default r)) None (-1), options, metadata)
  | currentRule :: rules' =>
      let next := matchDNS_from env sets r allowFakeIP isAddressQuery rules' (i + 1) in
      if WithAddressLimit sets currentRule && negb isAddressQuery then next metadata options else
      let '(matched, metadata) :=
        DNSRule_Match env sets currentRule (ResetRuleCache metadata) in
      if negb matched then next metadata options else
      match tree_action currentRule with
      | Some (RuleActionDNSRoute server o) =>
          match dns_route (dq_transports r) allowFakeIP server with
          | None => next metadata options
          | Some (transport, isFakeIP) =>
              (mkDNSChoice (Some transport) (Some currentRule) i,
               apply_legacy transport (apply_dns_options isFakeIP o options), metadata)
          end
      | Some (RA_DNSRouteOptions o) => next metadata (apply_dns_options false o options)
      | Some (RA_Reject _) | Some (RA_Predefined _) =>
          (mkDNSChoice None (Some currentRule) i, options, metadata)
      | _ => next metadata options
      end
  end.

(** [dns/router.go:120-199] (Router).matchDNS *)
Definition matchDNS (env : Env) (sets : RuleSets) (r : DNSRouter) (allowFakeIP : bool)
    (ruleIndex : Z) (isAddressQuery : bool) (metadata : InboundContext)
    (options : DNSQueryOptions) : DNSChoice * DNSQueryOptions * InboundContext :=
  let currentRuleIndex := if Z.eqb ruleIndex (-1) then 0 else ruleIndex + 1 in
  matchDNS_from env sets r allowFakeIP isAddressQuery
    (drop (Z.to_nat currentRuleIndex) (dq_rules r)) currentRuleIndex metadata options.

End DnsRules.

(** ** Theorems *)

Section DnsTheorems.
Context `{ExtLib} `{ActionLib}.

(** The summary of every rule set is right, as [reloadRules] leaves it. *)
Definition sets_summarised (sets : RuleSets) : Prop :=
  ∀ tag, ContainsIPCIDRRule (ls_metadata (rule_set_at sets tag))
         = negb (forallb no_ipcidr (ls_rules (rule_set_at sets tag))).

(** No item makes the addresses of its rule sets match the source. *)
Definition no_match_source (it : RouteItem) : bool :=
  match it with Basic _ => true | RuleSetI r => negb (si_ipCidrMatchSource r) end.

Lemma RouteItem_blind env sets it :
  sets_summarised sets → no_match_source it = true →
  (∀ r, it = RuleSetI r → ContainsDestinationIPCIDRRule sets r = false) →
  blind (RouteItem_Match env sets) it.
Proof.
  intros Hsum Hsrc Hno v c. destruct it as [it|r]; cbn [RouteItem_Match].
  { reflexivity. }
  specialize (Hno r eq_refl). unfold ContainsDestinationIPCIDRRule in Hno.
  cbn in Hsrc. apply negb_true_iff in Hsrc. rewrite Hsrc in Hno.
  unfold RuleSetItem_Match. 
  match goal with |- any_st _ _ (upd_cache ?f _) = _ =>
    change (upd_cache f (set_ignore v c)) with (set_ignore v (upd_cache f c)) end.
  apply any_st_blind. intros tag Htag v' c'. apply any_st_blind. intros t Ht.
  apply HeadlessRule_Match_blind.
  assert (ContainsIPCIDRRule (ls_metadata (rule_set_at sets tag)) = false) as Hfalse.
  { apply not_true_iff_false. intros Htrue. apply (not_true_iff_false _) in Hno. apply Hno.
    apply existsb_exists. exists tag. split; [by apply list_elem_of_In|done]. }
  rewrite Hsum in Hfalse. apply negb_false_iff in Hfalse. rewrite forallb_forall in Hfalse.
  apply Hfalse. by apply list_elem_of_In.
Qed.

Lemma Default_WithAddressLimit_false env sets (r : DefaultDNSRule) :
  sets_summarised sets → (∀ it, it ∈ group_items r → no_match_source it = true) →
  (∀ rs, RuleSetI rs ∈ group_items r → RuleSetI rs ∈ items r) →
  Default_WithAddressLimit sets r = false →
  blind (abstractDefaultRule_Match (RouteItem_Match env sets)) r.
Proof.
  intros Hsum Hsrc Hin. unfold Default_WithAddressLimit.
  destruct (destinationIPCIDRItems r) eqn:Hnil; [|done]. cbn. intros Hno.
  apply abstractDefaultRule_Match_blind; [|done].
  intros it Hit. apply RouteItem_blind; [done|by apply Hsrc|].
  intros rs ->. apply not_true_iff_false. intros Hc. apply (not_true_iff_false _) in Hno.
  apply Hno. apply existsb_exists. exists (RuleSetI rs). split; [|done].
  apply list_elem_of_In. by apply Hin.
Qed.

(** A default rule whose rule-set items are among its other fields, as the constructor leaves it,
    and do not match the source. *)
Definition dns_leaf_ok (r : DefaultDNSRule) : Prop :=
  (∀ it, it ∈ group_items r → no_match_source it = true) ∧
  (∀ rs, RuleSetI rs ∈ group_items r → RuleSetI rs ∈ items r).

Lemma DefaultDNSRule_Match_blind env sets r c :
  blind (abstractDefaultRule_Match (RouteItem_Match env sets)) r →
  IgnoreDestinationIPCIDRMatch (ic_cache c) = false →
  DefaultDNSRule_Match env sets r c = abstractDefaultRule_Match (RouteItem_Match env sets) r c.
Proof.
  intros Hb Hi. unfold DefaultDNSRule_Match. rewrite Hb.
  pose proof (abstractDefaultRule_Match_frame _ (RouteItem_Match_frame env sets) r c) as [_ Hf].
  destruct (abstractDefaultRule_Match _ r c) as [b c']; cbn [fst snd] in *.
  rewrite set_ignore_twice, <-Hi, Hf, set_ignore_id. done.
Qed.

Lemma DefaultDNSRule_Match_frame env sets r c :
  IgnoreDestinationIPCIDRMatch (ic_cache c) = false →
  frame c (DefaultDNSRule_Match env sets r c).2.
Proof.
  intros Hi. unfold DefaultDNSRule_Match.
  pose proof (abstractDefaultRule_Match_frame _ (RouteItem_Match_frame env sets) r
    (set_ignore true c)) as [Hf _].
  destruct (abstractDefaultRule_Match _ r _) as [b c']; cbn [fst snd] in *.
  split; [|exact Hi]. eapply same_request_trans; [|apply same_request_set_ignore].
  eapply same_request_trans; [apply (same_request_set_ignore true)|exact Hf].
Qed.

Lemma DNSRule_Match_frame env sets rule c :
  IgnoreDestinationIPCIDRMatch (ic_cache c) = false →
  frame c (DNSRule_Match env sets rule c).2.
Proof.
  revert c. induction rule as [r|r IH] using RuleTree_ind'; intros c Hc.
  { by apply DefaultDNSRule_Match_frame. }
  unfold DNSRule_Match. cbn [tree_match]. unfold abstractLogicalRule_Match.
  set (g := λ it c, tree_match _ it (ResetRuleCache c)).
  assert (∀ t c', t ∈ lr_rules r → frame c c' → frame c (g t c').2) as Hg.
  { intros t c' Ht Hf. etrans; [exact Hf|]. etrans; [apply frame_Reset|]. apply (IH t Ht).
    destruct Hf as [_ Hf]. cbn. by rewrite <-Hf. }
  pose proof (all_st_inv (frame c) g (lr_rules r) c (reflexivity c)) as Hall.
  pose proof (any_st_inv (frame c) g (lr_rules r) c (reflexivity c)) as Hany.
  destruct (String.eqb _ _).
  - destruct (all_st g _ c). apply Hall. intros; by apply Hg.
  - destruct (any_st g _ c). apply Hany. intros; by apply Hg.
Qed.

(** A DNS rule that says it has no address limit is not changed by leaving the address filter
    out: [Match] before the query and [MatchAddressLimit] on the answer agree, answer and metadata,
    for a rule of any shape whose rule-set items do not match the source, when the summaries of the
    rule sets are right. *)
Theorem no_address_limit_Match env sets (rule : DNSRule) c :
  sets_summarised sets → (∀ r, r ∈ tree_leaves rule → dns_leaf_ok r) →
  WithAddressLimit sets rule = false →
  IgnoreDestinationIPCIDRMatch (ic_cache c) = false →
  DNSRule_Match env sets rule c = MatchAddressLimit env sets rule c.
Proof.
  intros Hsum. revert c. induction rule as [r|r IH] using RuleTree_ind'; intros c Hok Hlim Hc.
  { destruct (Hok r (list_elem_of_here _ _)) as [H1 H2].
    apply DefaultDNSRule_Match_blind; [|done]. by apply Default_WithAddressLimit_false. }
  unfold DNSRule_Match, MatchAddressLimit in *. cbn [tree_match WithAddressLimit] in *.
  unfold abstractLogicalRule_Match.
  set (D := DefaultDNSRule_Match env sets) in *.
  set (A := abstractDefaultRule_Match (RouteItem_Match env sets)) in *.
  set (R := λ c c' : InboundContext, c = c' ∧ IgnoreDestinationIPCIDRMatch (ic_cache c) = false).
  assert (∀ t c c', t ∈ lr_rules r → R c c' →
    (tree_match D t (ResetRuleCache c)).1 = (tree_match A t (ResetRuleCache c')).1 ∧
    R (tree_match D t (ResetRuleCache c)).2 (tree_match A t (ResetRuleCache c')).2) as Hstep.
  { intros t c1 c1' Ht [<- H1].
    assert (tree_match D t (ResetRuleCache c1) = tree_match A t (ResetRuleCache c1)) as Heq.
    { apply (IH t Ht); [|apply not_true_iff_false|exact H1].
      - intros d Hd. apply Hok. cbn. apply list_elem_of_In, in_flat_map.
        exists t. split; by apply list_elem_of_In.
      - intros Hw. apply (not_true_iff_false _) in Hlim. apply Hlim. apply existsb_exists.
        exists t. split; [by apply list_elem_of_In|done]. }
    split; [by rewrite Heq|]. split; [by rewrite Heq|].
    destruct (DNSRule_Match_frame env sets t (ResetRuleCache c1) H1) as [_ Hf].
    etrans; [symmetry; exact Hf|exact H1]. }
  pose proof (all_st_rel R (λ it c, tree_match D it (ResetRuleCache c))
    (λ it c, tree_match A it (ResetRuleCache c)) (lr_rules r) c c (conj eq_refl Hc)
    (λ t c1 c2, Hstep t c1 c2)) as [Hall1 [Hall2 _]].
  pose proof (any_st_rel R (λ it c, tree_match D it (ResetRuleCache c))
    (λ it c, tree_match A it (ResetRuleCache c)) (lr_rules r) c c (conj eq_refl Hc)
    (λ t c1 c2, Hstep t c1 c2)) as [Hany1 [Hany2 _]].
  destruct (String.eqb (lr_mode r) "and").
  - destruct (all_st _ _ c), (all_st _ _ c). cbn in *. by subst.
  - destruct (any_st _ _ c), (any_st _ _ c). cbn in *. by subst.
Qed.

(** A DNS rule whose only condition is a rule set of addresses that should match the source
    ([rule_set_ip_cidr_match_source]) matches before the query whatever the source is, and has no
    address limit that would look at it later. *)
Theorem dns_match_source_ignored env sets (r : DefaultDNSRule) tags tag acc d c :
  r = mkDefaultRule [RuleSetI (mkRuleSetItem tags [tag] true acc)] [] [] [] [] []
        [RuleSetI (mkRuleSetItem tags [tag] true acc)] false (action r) →
  ls_rules (rule_set_at sets tag) = [TDefault d] →
  items d = [] → sourceAddressItems d = [] → sourcePortItems d = [] →
  destinationAddressItems d = [] → destinationPortItems d = [] → invert d = false →
  (DNSRule_Match env sets (TDefault r) c).1 = true ∧
  WithAddressLimit sets (TDefault r) = false.
Proof.
  intros -> Hset H1 H2 H3 H4 H5 H6. split; [|done].
  unfold DNSRule_Match. cbn [tree_match]. unfold DefaultDNSRule_Match, abstractDefaultRule_Match.
  cbn [allItems items nonempty negb sourceAddressItems sourcePortItems destinationAddressItems
    destinationIPCIDRItems destinationPortItems match_group invert].
  unfold match_group. cbn [nonempty andb all_st RouteItem_Match].
  unfold RuleSetItem_Match. cbn [si_setList any_st]. unfold LocalRuleSet_Match. rewrite Hset.
  cbn [any_st]. unfold HeadlessRule_Match. cbn [tree_match].
  unfold abstractDefaultRule_Match. rewrite H1, H2, H3, H4, H5, H6.
  unfold match_group. cbn. by destruct (allItems d).
Qed.

(** A DNS rule with a domain condition and an [ip_cidr] filter does not filter: whenever it
    matches before the query, it accepts the answer whatever the addresses in it are, because the
    domain already counts as the destination match. *)
Theorem dns_address_filter_bypassed env sets (r : DefaultDNSRule) c :
  (∀ it, it ∈ group_items r → is_basic it = true) →
  invert r = false → destinationAddressItems r ≠ [] →
  IgnoreDestinationIPCIDRMatch (ic_cache c) = false →
  (DNSRule_Match env sets (TDefault r) (ResetRuleCache c)).1 = true →
  (MatchAddressLimit env sets (TDefault r) (ResetRuleCache c)).1 = true.
Proof.
  intros Hb Hinv Hda Hi. set (g := basic_denotes env).
  assert (∀ it c1 c2, same_match_source c1 c2 → g it c1 = g it c2) as Hg.
  { intros [it|] c1 c2 Hc; [by apply BasicItem_Match_ext|done]. }
  assert (∀ c1, fresh c1 → (abstractDefaultRule_Match (RouteItem_Match env sets) r c1).1
            = rule_denotes g c1 r) as Hm.
  { intros c1 Hc1. rewrite (abstractDefaultRule_Match_ext _ (pure_match g)).
    - by apply default_match_spec.
    - intros it c2 Hit%Hb. by destruct it. }
  unfold DNSRule_Match, MatchAddressLimit. cbn [tree_match].
  unfold DefaultDNSRule_Match. rewrite Hm by done.
  pose proof (Hm (set_ignore true (ResetRuleCache c)) (fresh_Reset c)) as Hm1.
  destruct (abstractDefaultRule_Match _ r (set_ignore _ _)) as [b c1]; cbn [fst] in *. subst b.
  unfold rule_denotes. rewrite Hinv, !xorb_false_r.
  destruct (nonempty (allItems r)); cbn [andb]; [|done].
  unfold rule_constrained, rule_condition, destination_group, group_holds.
  assert (∀ it, g it (set_ignore true (ResetRuleCache c)) = g it (ResetRuleCache c)) as Hgi
    by (intros; by apply Hg).
  rewrite !(existsb_ext _ _ _ (λ it _, Hgi it)), (forallb_ext _ _ _ (λ it _, Hgi it)).
  change (IgnoreDestinationIPCIDRMatch (ic_cache (set_ignore true (ResetRuleCache c)))) with true.
  change (IgnoreDestinationIPCIDRMatch (ic_cache (ResetRuleCache c)))
    with (IgnoreDestinationIPCIDRMatch (ic_cache c)). rewrite Hi, app_nil_r.
  rewrite existsb_app, nonempty_app.
  assert (nonempty (destinationAddressItems r) = true) as -> by (by destruct (destinationAddressItems r)).
  rewrite !orb_true_r. cbn [orb negb]. rewrite ?orb_true_r.
  rewrite !andb_true_iff, !orb_true_iff. tauto.
Qed.

(** What a rule does to a query, judged on the metadata alone: [None] when the router goes on to the
    next rule, and otherwise the transport it selects, if it selects one. *)
Definition dns_selects (env : Env) (sets : RuleSets) (r : DNSRouter)
    (allowFakeIP isAddressQuery : bool) (metadata : InboundContext) (rule : DNSRule)
    : option (option DNSTransport) :=
  if WithAddressLimit sets rule && negb isAddressQuery then None else
  if negb (DNSRule_Match env sets rule (ResetRuleCache metadata)).1 then None else
  match tree_action rule with
  | Some (RuleActionDNSRoute server _) =>
      (λ '(t, _), Some t) <$> dns_route (dq_transports r) allowFakeIP server
  | Some (RA_Reject _) | Some (RA_Predefined _) => Some None
  | _ => None
  end.

Lemma matchDNS_from_first env sets r fake addr rules i metadata c options :
  IgnoreDestinationIPCIDRMatch (ic_cache metadata) = false → frame metadata c →
  let ch := (matchDNS_from env sets r fake addr rules i c options).1.1 in
  let sel := dns_selects env sets r fake addr metadata in
  (∃ n rule t, rules !! n = Some rule ∧ sel rule = Some t ∧
     ch = mkDNSChoice t (Some rule) (i + Z.of_nat n) ∧
     ∀ m rule', (m < n)%nat → rules !! m = Some rule' → sel rule' = None) ∨
  (ch = mkDNSChoice (Some (dq_default r)) None (-1) ∧
   ∀ m rule', rules !! m = Some rule' → sel rule' = None).
Proof.
  intros Hi. revert i c options.
  induction rules as [|rule rules IH]; intros i c options Hc ch sel.
  { right. split; [done|]. by intros [|m] rule' ?. }
  assert (∀ c' o', sel rule = None → frame metadata c' →
    ch = (matchDNS_from env sets r fake addr rules (i + 1) c' o').1.1 →
    (∃ n rule0 t, (rule :: rules) !! n = Some rule0 ∧ sel rule0 = Some t ∧
       ch = mkDNSChoice t (Some rule0) (i + Z.of_nat n) ∧
       ∀ m rule', (m < n)%nat → (rule :: rules) !! m = Some rule' → sel rule' = None) ∨
    (ch = mkDNSChoice (Some (dq_default r)) None (-1) ∧
     ∀ m rule', (rule :: rules) !! m = Some rule' → sel rule' = None)) as Hnext.
  { intros c' o' Hnone Hc' ->. destruct (IH (i + 1) c' o' Hc') as [(n & ru & t & Hl & Hs & Hch & Hm)|[Hch Hm]].
    - left. exists (S n), ru, t. split_and!; [done|done| |].
      + rewrite Hch. f_equal. lia.
      + intros [|m] rule' Hlt Hl'; [by simplify_eq/=|]. apply (Hm m); [lia|done].
    - right. split; [done|]. intros [|m] rule' Hl'; [by simplify_eq/=|]. by apply (Hm m). }
  assert (∀ t, sel rule = Some t → ch = mkDNSChoice t (Some rule) i →
    (∃ n rule0 t, (rule :: rules) !! n = Some rule0 ∧ sel rule0 = Some t ∧
       ch = mkDNSChoice t (Some rule0) (i + Z.of_nat n) ∧
       ∀ m rule', (m < n)%nat → (rule :: rules) !! m = Some rule' → sel rule' = None)) as Hhere.
  { intros t Ht ->. exists O, rule, t. split_and!; [done|done|f_equal; lia|]. intros; lia. }
  pose proof (DNSRule_Match_frame env sets rule (ResetRuleCache metadata) Hi) as Hf.
  unfold sel, dns_selects in Hnext, Hhere |- *. fold sel in Hnext, Hhere |- *.
  subst ch. cbn [matchDNS_from] in *. rewrite <-(frame_Reset_eq _ _ Hc) in *.
  destruct (WithAddressLimit sets rule && negb addr); [by eapply Hnext|].
  destruct (DNSRule_Match env sets rule (ResetRuleCache metadata)) as [b c1]; cbn [fst snd] in *.
  assert (frame metadata c1) as Hc1 by (etrans; [apply frame_Reset|exact Hf]).
  destruct b; cbn [negb] in *; [|by eapply Hnext].
  destruct (tree_action rule) as [[]|]; try (by eapply Hnext); try (left; by eapply Hhere).
  destruct (dns_route _ _ _) as [[t b]|]; [left; by eapply Hhere|by eapply Hnext].
Qed.

(** C18: the DNS router answers with the first rule after [ruleIndex] that is allowed for the query,
    matches the metadata on a reset cache, and selects a transport or answers by itself; every
    rule in between does neither.  Without such a rule it is the default transport, with index
    [-1].  The index of a rule grows from one call to the next, so asking again after a rejected
    answer ends. *)
Theorem matchDNS_first env sets r fake ruleIndex addr metadata options :
  -1 ≤ ruleIndex → IgnoreDestinationIPCIDRMatch (ic_cache metadata) = false →
  let ch := (matchDNS env sets r fake ruleIndex addr metadata options).1.1 in
  let sel := dns_selects env sets r fake addr metadata in
  (∃ n rule t, dq_rules r !! n = Some rule ∧ sel rule = Some t ∧ ruleIndex < Z.of_nat n ∧
     ch = mkDNSChoice t (Some rule) (Z.of_nat n) ∧
     ∀ m rule', ruleIndex < Z.of_nat m < Z.of_nat n → dq_rules r !! m = Some rule' →
       sel rule' = None) ∨
  (ch = mkDNSChoice (Some (dq_default r)) None (-1) ∧
   ∀ m rule', ruleIndex < Z.of_nat m → dq_rules r !! m = Some rule' → sel rule' = None).
Proof.
  intros Hidx Hi. unfold matchDNS.
  replace (if Z.eqb ruleIndex (-1) then 0 else ruleIndex + 1) with (ruleIndex + 1)
    by (destruct (Z.eqb_spec ruleIndex (-1)); lia).
  destruct (matchDNS_from_first env sets r fake addr
    (drop (Z.to_nat (ruleIndex + 1)) (dq_rules r)) (ruleIndex + 1) metadata metadata options Hi
    (reflexivity _)) as [(n & rule & t & Hl & Hs & Hch & Hm)|[Hch Hm]].
  - rewrite lookup_drop in Hl. left. exists (Z.to_nat (ruleIndex + 1) + n)%nat, rule, t.
    split_and!; [done|done|lia| |].
    + rewrite Hch. f_equal. lia.
    + intros m rule' Hlt Hl'. apply (Hm (m - Z.to_nat (ruleIndex + 1))%nat); [lia|].
      rewrite lookup_drop. rewrite <-Hl'. f_equal. lia.
  - right. split; [done|]. intros m rule' Hlt Hl'.
    apply (Hm (m - Z.to_nat (ruleIndex + 1))%nat). rewrite lookup_drop, <-Hl'. f_equal. lia.
Qed.

End DnsTheorems.


(** ** Concrete DNS rules *)

Section Examples.

#[local] Instance ex_lib : ExtLib := SampleLib.
#[local] Instance ex_actions : ActionLib := SampleActions.

Definition plain_dns_options : RuleActionDNSRouteOptions :=
  mkRuleActionDNSRouteOptions DomainStrategyAsIS false None Prefix_zero.
Definition to_local : option RuleAction := Some (RuleActionDNSRoute "local" plain_dns_options).

(** [domain: a.test] and [ip_cidr: 10.0.0.0/8]. *)
Definition domain_item : RouteItem := Basic (I_Domain (NewRawDomainItem (["a.test"%string], []))).
Definition cidr_item : RouteItem :=
  Basic (I_IPCIDR (mkIPCIDRItem [mkIPRange (Addr4 0x0A000000) (Addr4 0x0AFFFFFF)] false "")).
Definition filtered_rule : DefaultDNSRule :=
  mkDefaultRule [] [] [] [domain_item] [cidr_item] [] [domain_item; cidr_item] false to_local.
Definition domain_rule : DefaultDNSRule :=
  mkDefaultRule [] [] [] [domain_item] [] [] [domain_item] false to_local.

Definition dns_request : InboundContext :=
  InboundContext_zero <| ic_Domain := "a.test"%string |>
    <| ic_DestinationAddresses := [Addr4 1] |>.

Lemma no_sets_summarised : sets_summarised ∅.
Proof.
  intros tag. unfold rule_set_at.
  assert ((∅ : RuleSets) !! tag = None) as -> by exact (lookup_empty (M := gmap string) tag).
  reflexivity.
Qed.

Lemma no_address_limit_Match_witness :
  DNSRule_Match idle_env ∅ (TDefault domain_rule) (ResetRuleCache dns_request)
  = MatchAddressLimit idle_env ∅ (TDefault domain_rule) (ResetRuleCache dns_request).
Proof.
  apply no_address_limit_Match.
  - apply no_sets_summarised.
  - intros r ->%list_elem_of_singleton. split.
    + intros it Hit. assert (Forall (λ it, no_match_source it = true) (group_items domain_rule))
        as Hall by (repeat constructor).
      rewrite List.Forall_forall in Hall. apply Hall. by apply list_elem_of_In.
    + intros rs Hrs. cbn in Hrs. by apply list_elem_of_singleton in Hrs.
  - reflexivity.
  - reflexivity.
Defined.

(** A rule set of addresses that should match the source. *)
Definition source_set : RuleSets :=
  {["lan"%string := mkLocalRuleSet "lan"
      [TDefault (mkDefaultRule [] [] [] []
         [I_IPCIDR (mkIPCIDRItem [mkIPRange (Addr4 0x0A000000) (Addr4 0x0AFFFFFF)] false "")] []
         [I_IPCIDR (mkIPCIDRItem [mkIPRange (Addr4 0x0A000000) (Addr4 0x0AFFFFFF)] false "")]
         false None)] (mkRuleSetMetadata false false true) [] 1]}.
Definition source_item : RouteItem :=
  RuleSetI (mkRuleSetItem ["lan"%string] ["lan"%string] true false).
Definition source_rule : DefaultDNSRule :=
  mkDefaultRule [source_item] [] [] [] [] [] [source_item] false to_local.

Lemma dns_match_source_ignored_witness :
  (DNSRule_Match idle_env source_set (TDefault source_rule) dns_request).1 = true ∧
  WithAddressLimit source_set (TDefault source_rule) = false.
Proof.
  apply (dns_match_source_ignored idle_env source_set source_rule ["lan"%string] "lan" false
    (mkDefaultRule [] [] [] []
         [I_IPCIDR (mkIPCIDRItem [mkIPRange (Addr4 0x0A000000) (Addr4 0x0AFFFFFF)] false "")] []
         [I_IPCIDR (mkIPCIDRItem [mkIPRange (Addr4 0x0A000000) (Addr4 0x0AFFFFFF)] false "")]
         false None)); reflexivity.
Defined.

Lemma dns_address_filter_bypassed_witness :
  (MatchAddressLimit idle_env ∅ (TDefault filtered_rule) (ResetRuleCache dns_request)).1 = true ∧
  (RouteItem_Match idle_env ∅ cidr_item (ResetRuleCache dns_request)).1 = false.
Proof.
  split; [|reflexivity]. apply dns_address_filter_bypassed.
  - intros it Hit. assert (Forall (λ it, is_basic it = true) (group_items filtered_rule)) as Hall
      by (repeat constructor).
    rewrite List.Forall_forall in Hall. apply Hall. by apply list_elem_of_In.
  - reflexivity.
  - discriminate.
  - reflexivity.
  - reflexivity.
Defined.

Definition sample_dns_router : DNSRouter :=
  mkDNSRouter [TDefault domain_rule; TDefault filtered_rule]
    {["local"%string := mkDNSTransport "local" "udp" None]} (mkDNSTransport "remote" "tls" None)
    DomainStrategyAsIS.

Lemma matchDNS_first_witness :
  let ch := (matchDNS idle_env ∅ sample_dns_router false 0 true dns_request
    (mkDNSQueryOptions None DomainStrategyAsIS DomainStrategyAsIS false None Prefix_zero)).1.1 in
  ch = mkDNSChoice (Some (mkDNSTransport "local" "udp" None)) (Some (TDefault filtered_rule)) 1 ∧
  ∃ n rule t, dq_rules sample_dns_router !! n = Some rule ∧ (0 < Z.of_nat n) ∧
    ch = mkDNSChoice t (Some rule) (Z.of_nat n).
Proof.
  intros ch.
  assert (ch = mkDNSChoice (Some (mkDNSTransport "local" "udp" None))
    (Some (TDefault filtered_rule)) 1) as Hch by (reflexivity).
  split; [exact Hch|].
  destruct (matchDNS_first idle_env ∅ sample_dns_router false 0 true dns_request
    (mkDNSQueryOptions None DomainStrategyAsIS DomainStrategyAsIS false None Prefix_zero))
    as [(n & rule & t & Hl & _ & Hn & Hc & _)|[Hc _]].
  - lia.
  - reflexivity.
  - exists n, rule, t. split; [exact Hl|]. split; [exact Hn|exact Hc].
  - fold ch in Hc. rewrite Hch in Hc. discriminate.
Defined.

End Examples.
