(* ===== verification/DnsClient.v ===== *)
(** * The DNS client (dns/client.go, dns/extension_edns0_subnet.go)

    The client asks a transport, keeps the answers in a cache and remembers in a store (RDRC) which
    answers a rule rejected.  The message library, the LRU cache, the clock, the transports and the
    RDRC store are operations of classes; [DNSClientI] is what the client promises to the DNS
    router. *)

From stdpp Require Import base gmap strings list numbers.
From S2P Require Import Prelude GoStd Netip Adapter SetItems AddrItems RuleAction RuleOptions.
From S2P Require Import RuleItem RuleMatch RuleSet Rules DnsRules.

Local Open Scope Z_scope.

(** Numbers of the DNS protocol that the code names. *)
Definition TypeA : Z := 1.
Definition TypeCNAME : Z := 5.
Definition TypeAAAA : Z := 28.
Definition TypeOPT : Z := 41.
Definition TypeHTTPS : Z := 65.
Definition ClassINET : Z := 1.
Definition RcodeSuccess : Z := 0.
Definition RcodeFormatError : Z := 1.
Definition RcodeNameError : Z := 3.
Definition RcodeRefused : Z := 5.
Definition SVCB_IPV4HINT : Z := 4.
Definition SVCB_IPV6HINT : Z := 6.

Definition time_Second : Z := 1000000000.

(** What a resource record of github.com/miekg/dns carries, for the types the code looks into. *)
Record RR_Header : Type := mkRR_Header {
  Hdr_Name : string;
  Hdr_Rrtype : Z;
  Hdr_Class : Z;
  Hdr_Ttl : Z
}.

Inductive RRData (SVCB EDNS : Type) : Type :=
| RR_A (address : Addr)
| RR_AAAA (address : Addr)
| RR_CNAME (Target : string)
| RR_TXT (Txt : list string)
| RR_MX (Preference : Z) (Mx : string)
| RR_HTTPS (Value : list SVCB)
| RR_SOA (Minttl : Z)
| RR_OPT (Options : list EDNS)
| RR_Other.
Arguments RR_A {SVCB EDNS} address.
Arguments RR_AAAA {SVCB EDNS} address.
Arguments RR_CNAME {SVCB EDNS} Target.
Arguments RR_TXT {SVCB EDNS} Txt.
Arguments RR_MX {SVCB EDNS} Preference Mx.
Arguments RR_HTTPS {SVCB EDNS} Value.
Arguments RR_SOA {SVCB EDNS} Minttl.
Arguments RR_OPT {SVCB EDNS} Options.
Arguments RR_Other {SVCB EDNS}.

(** Of github.com/miekg/dns: the fields of records, their assignment, and EDNS.  The laws are those
    of the fields of a struct.  [M_ParseAddr] and the errors of a task group are of sing/common. *)
Class DNSLib `{ActionLib} := {
  SVCBKeyValue : Type;
  SVCB_Key : SVCBKeyValue → Z;
  SVCB_String : SVCBKeyValue → string;
  EDNS0 : Type;
  is_EDNS0_SUBNET : EDNS0 → bool;
  EDNS0_SUBNET_new : EDNS0;
  EDNS0_SUBNET_set : Z → Z → list byte → EDNS0 → EDNS0;
  RR_Hdr : RR → RR_Header;
  RR_data : RR → RRData SVCBKeyValue EDNS0;
  RR_new : RR_Header → RRData SVCBKeyValue EDNS0 → RR;
  RR_set_Ttl : Z → RR → RR;
  RR_set_data : RRData SVCBKeyValue EDNS0 → RR → RR;
  Msg_IsEdns0 : Msg → option RR;
  OPT_Version : RR → Z;
  OPT_UDPSize : RR → Z;
  OPT_Do : RR → bool;
  Msg_SetEdns0 : Z → bool → Msg → Msg;
  dns_IsFqdn : string → bool;
  dns_Fqdn : string → string;
  M_ParseAddr : string → Addr;
  task_Group_error : list error → error;

  RR_Hdr_new : ∀ h d, RR_Hdr (RR_new h d) = h;
  RR_data_new : ∀ h d, RR_data (RR_new h d) = d;
  RR_Hdr_set_Ttl : ∀ t r, RR_Hdr (RR_set_Ttl t r) =
    mkRR_Header (Hdr_Name (RR_Hdr r)) (Hdr_Rrtype (RR_Hdr r)) (Hdr_Class (RR_Hdr r)) t;
  RR_data_set_Ttl : ∀ t r, RR_data (RR_set_Ttl t r) = RR_data r;
  RR_set_Ttl_twice : ∀ t u r, RR_set_Ttl t (RR_set_Ttl u r) = RR_set_Ttl t r
}.

Definition RR_Ttl `{DNSLib} (r : RR) : Z := Hdr_Ttl (RR_Hdr r).

(** The cache of sing/contrab/freelru.  [lru_holds] is that an entry is in it, with the time at which it
    expires if it does; the clock of the cache may be coarser than the one it is given, by at most
    [lru_resolution].  The laws: an entry that was just added is there, and expires when its lifetime
    is over; an entry that is there is found till it expires, and stays there. *)
Class FreeLRU := {
  lru : Type → Type → Type;
  lru_New : ∀ K V `{EqDecision K}, Z → lru K V;
  lru_Get : ∀ {K V} `{EqDecision K}, Z → K → lru K V → option V * lru K V;
  lru_GetWithLifetime : ∀ {K V} `{EqDecision K}, Z → K → lru K V → option (V * Z) * lru K V;
  lru_Add : ∀ {K V} `{EqDecision K}, Z → K → V → lru K V → lru K V;
  lru_AddWithLifetime : ∀ {K V} `{EqDecision K}, Z → K → V → Z → lru K V → lru K V;
  lru_Remove : ∀ {K V} `{EqDecision K}, K → lru K V → lru K V;
  lru_Purge : ∀ {K V} `{EqDecision K}, lru K V → lru K V;

  lru_holds : ∀ {K V} `{EqDecision K}, K → V → option Z → lru K V → Prop;
  lru_resolution : Z;
  lru_Add_holds : ∀ K V `{EqDecision K} now (k : K) (v : V) l, lru_holds k v None (lru_Add now k v l);
  lru_AddWithLifetime_holds : ∀ K V `{EqDecision K} now (k : K) (v : V) life l,
    ∃ expireAt, now + life - lru_resolution ≤ expireAt ≤ now + life ∧
      lru_holds k v (Some expireAt) (lru_AddWithLifetime now k v life l);
  lru_Get_holds : ∀ K V `{EqDecision K} now (k : K) (v : V) l, lru_holds k v None l →
    (lru_Get now k l).1 = Some v ∧ lru_holds k v None (lru_Get now k l).2;
  lru_GetWithLifetime_holds : ∀ K V `{EqDecision K} now (k : K) (v : V) expireAt l,
    lru_holds k v (Some expireAt) l → now ≤ expireAt →
    (lru_GetWithLifetime now k l).1 = Some (v, expireAt) ∧
    lru_holds k v (Some expireAt) (lru_GetWithLifetime now k l).2
}.

#[global] Instance Question_eq_dec : EqDecision Question.
Proof. solve_decision. Defined.

Section DnsMessages.
Context `{ExtLib} `{ActionLib} `{!DNSLib}.

(** ** Messages *)

#[global] Instance Msg_settable : Settable Msg :=
  {| mkT r := mkMsg (msg_Id r) (msg_Response r) (msg_Authoritative r) (msg_RecursionDesired r)
                (msg_RecursionAvailable r) (msg_Rcode r) (msg_Question r) (msg_Answer r) (msg_Ns r)
                (msg_Extra r) |}.

(** The lists [response.Answer, response.Ns, response.Extra] the loops run over. *)
Definition msg_records (m : Msg) : list RR := msg_Answer m ++ msg_Ns m ++ msg_Extra m.

Definition map_records (f : RR → RR) (m : Msg) : Msg :=
  m <| msg_Answer := f <$> msg_Answer m |> <| msg_Ns := f <$> msg_Ns m |>
    <| msg_Extra := f <$> msg_Extra m |>.

(** [dns/client_log.go:49-54] FqdnToDomain *)
Definition FqdnToDomain (fqdn : string) : string :=
  if dns_IsFqdn fqdn then str_take (String.length fqdn - 1) fqdn else fqdn.

(** [dns/client.go:556-568] FixedResponseStatus *)
Definition FixedResponseStatus (message : Msg) (rcode : Z) : Msg :=
  mkMsg (msg_Id message) true true true true rcode (msg_Question message) [] [] [].

(** [dns/client.go:583-603] FixedResponse (loop body) *)
Definition address_record (question : Question) (timeToLive : Z) (address : Addr) : list RR :=
  if Addr_Is4 address && Z.eqb (q_Qtype question) TypeA then
    [RR_new (mkRR_Header (q_Name question) TypeA ClassINET timeToLive) (RR_A address)]
  else if Addr_Is6 address && Z.eqb (q_Qtype question) TypeAAAA then
    [RR_new (mkRR_Header (q_Name question) TypeAAAA ClassINET timeToLive) (RR_AAAA address)]
  else [].

(** [dns/client.go:570-606] FixedResponse *)
Definition FixedResponse (id : Z) (question : Question) (addresses : list Addr)
    (timeToLive : Z) : Msg :=
  mkMsg id true true true true RcodeSuccess [question]
    (addresses ≫= address_record question timeToLive) [] [].

(** [dns/client.go:608-632] FixedResponseCNAME *)
Definition FixedResponseCNAME (id : Z) (question : Question) (record : string)
    (timeToLive : Z) : Msg :=
  mkMsg id true true true true RcodeSuccess [question]
    [RR_new (mkRR_Header (q_Name question) TypeCNAME ClassINET timeToLive) (RR_CNAME record)] [] [].

(** The record says that it is an [A] record.

    [dns/client.go:634-658] FixedResponseTXT *)
Definition FixedResponseTXT (id : Z) (question : Question) (records : list string)
    (timeToLive : Z) : Msg :=
  mkMsg id true true true true RcodeSuccess [question]
    [RR_new (mkRR_Header (q_Name question) TypeA ClassINET timeToLive) (RR_TXT records)] [] [].

(** [dns/client.go:660-685] FixedResponseMX *)
Definition FixedResponseMX (id : Z) (question : Question) (records : list (Z * string))
    (timeToLive : Z) : Msg :=
  mkMsg id true true true true RcodeSuccess [question]
    ((λ record, RR_new (mkRR_Header (q_Name question) TypeA ClassINET timeToLive)
                  (RR_MX record.1 record.2)) <$> records) [] [].

(** [dns/client.go:516-529] MessageToAddresses (loop body) *)
Definition answer_addresses (answer : RR) : list Addr :=
  match RR_data answer with
  | RR_A address | RR_AAAA address => [address]
  | RR_HTTPS values =>
      values ≫= λ value,
        if Z.eqb (SVCB_Key value) SVCB_IPV4HINT || Z.eqb (SVCB_Key value) SVCB_IPV6HINT
        then M_ParseAddr <$> strings_Split "," (SVCB_String value) else []
  | _ => []
  end.

(** [dns/client.go:511-531] MessageToAddresses *)
Definition MessageToAddresses (response : Msg) : list Addr :=
  if negb (Z.eqb (msg_Rcode response) RcodeSuccess) then [] else
  msg_Answer response ≫= answer_addresses.

(** [dns/client.go:98-110] extractNegativeTTL *)
Definition extractNegativeTTL (response : Msg) : option Z :=
  head (omap (λ record,
    match RR_data record with
    | RR_SOA soaMinimum =>
        Some (if Z.ltb (RR_Ttl record) soaMinimum then RR_Ttl record else soaMinimum)
    | _ => None
    end) (msg_Ns response)).

(** The smallest TTL, as the loops of [Exchange] and [loadResponse] take it: zero does not count
    once another was seen.

    [dns/client.go:282-288] (Client).Exchange (smallest TTL) *)
Definition smallest_ttl (m : Msg) : Z :=
  fold_left (λ timeToLive record,
    if Z.eqb timeToLive 0 || (Z.ltb 0 (RR_Ttl record) && Z.ltb (RR_Ttl record) timeToLive)
    then RR_Ttl record else timeToLive) (msg_records m) 0.

(** ** The client subnet *)

(** The loop that looks for the OPT record and its subnet option; a record that is no OPT record
    makes it forget the one before.

    [dns/extension_edns0_subnet.go:18-30] setClientSubnet (findExists) *)
Fixpoint findExists (extra : list RR) (i : nat) (optRecord : option nat)
    : option nat * option nat :=
  match extra with
  | [] => (optRecord, None)
  | record :: extra' =>
      match RR_data record with
      | RR_OPT options =>
          match list_find (λ option, is_EDNS0_SUBNET option = true) options with
          | Some (j, _) => (Some i, Some j)
          | None => findExists extra' (S i) (Some i)
          end
      | _ => findExists extra' (S i) None
      end
  end.

(** [dns/extension_edns0_subnet.go:46-56] setClientSubnet (the option) *)
Definition set_subnet (clientSubnet : Prefix) (options : list EDNS0) (subnetOption : option nat)
    : list EDNS0 :=
  let set := EDNS0_SUBNET_set (if Addr_Is4 (Prefix_Addr clientSubnet) then 1 else 2)
               (u8 (Prefix_Bits clientSubnet)) (Addr_AsSlice (Prefix_Addr clientSubnet)) in
  match subnetOption with
  | None => options ++ [set EDNS0_SUBNET_new]
  | Some j => alter set j options
  end.

(** [dns/extension_edns0_subnet.go:9-57] SetClientSubnet *)
Definition SetClientSubnet (message : Msg) (clientSubnet : Prefix) : Msg :=
  match findExists (msg_Extra message) 0 None with
  | (None, _) =>
      message <| msg_Extra := msg_Extra message ++
        [RR_new (mkRR_Header "." TypeOPT 0 0) (RR_OPT (set_subnet clientSubnet [] None))] |>
  | (Some i, subnetOption) =>
      message <| msg_Extra := alter (λ record,
        match RR_data record with
        | RR_OPT options =>
            RR_set_data (RR_OPT (set_subnet clientSubnet options subnetOption)) record
        | _ => record
        end) i (msg_Extra message) |>
  end.

End DnsMessages.

(** ** The client *)

(** The clock, the transports and the RDRC store, with what they remember, and which of two
    exchanges that run at the same time is done first. *)
Class DNSWorld `{ExtLib} `{ActionLib} (W : Type) := {
  time_Now : W → Z;
  transport_Exchange : DNSTransport → Msg → W → res Msg * W;
  LoadRDRC : string → string → Z → W → bool * W;
  SaveRDRCAsync : string → string → Z → W → W;
  exchange4_first : W → bool
}.

Section Client.
Context `{ExtLib} `{ActionLib} `{!DNSLib} `{FreeLRU} {W : Type} `{!DNSWorld W}.

Definition ErrNotCached : error := E_New [AStr "not cached"].
Definition ErrResponseRejected : error := E_New [AStr "response rejected"].
Definition ErrResponseRejectedCached : error := E_Extend ErrResponseRejected [AStr "cached"].

(** The locks that make equal queries wait for each other are left out: a query is one step.

    [dns/client.go:34-47] Client *)
Record Client : Type := mkClient {
  c_disableCache : bool;
  c_disableExpire : bool;
  c_independentCache : bool;
  c_clientSubnet : Prefix;
  c_rdrc : bool;
  c_initRDRC : bool;
  c_cache : option (lru Question Msg);
  c_transportCache : option (lru (Question * string) Msg)
}.
#[global] Instance Client_settable : Settable Client :=
  {| mkT r := mkClient (c_disableCache r) (c_disableExpire r) (c_independentCache r)
                (c_clientSubnet r) (c_rdrc r) (c_initRDRC r) (c_cache r) (c_transportCache r) |}.

(** [ClientOptions.RDRC] as whether it gives a store.

    [dns/client.go:49-58] ClientOptions *)
Record ClientOptions : Type := mkClientOptions {
  co_DisableCache : bool;
  co_DisableExpire : bool;
  co_IndependentCache : bool;
  co_CacheCapacity : Z;
  co_ClientSubnet : Prefix;
  co_RDRC : bool
}.

(** [dns/client.go:60-85] NewClient *)
Definition NewClient (options : ClientOptions) : Client :=
  let cacheCapacity := if Z.ltb (co_CacheCapacity options) 1024 then 1024
                       else co_CacheCapacity options in
  mkClient (co_DisableCache options) (co_DisableExpire options) (co_IndependentCache options)
    (co_ClientSubnet options) false (co_RDRC options)
    (if negb (co_DisableCache options) && negb (co_IndependentCache options)
     then Some (lru_New Question Msg cacheCapacity) else None)
    (if negb (co_DisableCache options) && co_IndependentCache options
     then Some (lru_New (Question * string) Msg cacheCapacity) else None).

(** [dns/client.go:92-96] (Client).Start *)
Definition Client_Start (c : Client) : Client := c <| c_rdrc := c_initRDRC c |>.

(** [dns/client.go:356-362] (Client).ClearCache *)
Definition Client_ClearCache (c : Client) : Client :=
  match c_cache c with
  | Some l => c <| c_cache := Some (lru_Purge l) |>
  | None =>
      match c_transportCache c with
      | Some l => c <| c_transportCache := Some (lru_Purge l) |>
      | None => c
      end
  end.

(** Calling a method of a [nil] interface. *)
Definition nil_dereference {A} : res A := Panic [AStr "nil pointer dereference"].

(** The cache and the key the two branches on [independentCache] choose; the key of the second is
    made of the tag of the transport.

    [dns/client.go:87-90] transportCacheKey *)
Definition on_cache {A} (question : Question) (transport : option DNSTransport)
    (f : ∀ K : Type, EqDecision K → K → lru K Msg → A * lru K Msg) (c : Client) : res (A * Client) :=
  if negb (c_independentCache c) then
    match c_cache c with
    | None => nil_dereference
    | Some l => let '(a, l) := f Question _ question l in Ok (a, c <| c_cache := Some l |>)
    end
  else
    match transport, c_transportCache c with
    | Some t, Some l =>
        let '(a, l) := f (Question * string)%type _ (question, dt_Tag t) l in
        Ok (a, c <| c_transportCache := Some l |>)
    | _, _ => nil_dereference
    end.

(** The lifetime fits an int64: it is at most 2^32 seconds.

    [dns/client.go:372-395] (Client).storeCache *)
Definition storeCache (now : Z) (transport : option DNSTransport) (question : Question)
    (message : Msg) (timeToLive : Z) (c : Client) : res Client :=
  if Z.eqb timeToLive 0 then Ok c else
  snd <$> on_cache question transport
    (λ K _ key l,
       (tt, if c_disableExpire c then lru_Add now key message l
            else lru_AddWithLifetime now key message (time_Second * timeToLive) l)) c.

(** [int(d.Seconds())]: the number of seconds is a float64 of 53 bits, so that a duration of more
    than 2^24 seconds that is just below a whole number of seconds is rounded up to it. *)
Definition int_Seconds (d : Z) : Z :=
  let sec := Z.quot d time_Second in
  let nsec := Z.rem d time_Second in
  if Z.ltb 0 sec && Z.leb ((time_Second - nsec) * 2 ^ (53 - Z.log2 sec)) time_Second
  then sec + 1 else sec.

(** [dns/client.go:483-507] (Client).loadResponse (remaining TTL) *)
Definition age_response (expireAt timeNow : Z) (response : Msg) : Msg * Z :=
  let originTTL := smallest_ttl response in
  let nowTTL := Z.max 0 (int_Seconds (expireAt - timeNow)) in
  (if Z.ltb 0 originTTL
   then map_records (λ r, RR_set_Ttl (u32 (RR_Ttl r - u32 (originTTL - nowTTL))) r) response
   else map_records (RR_set_Ttl (u32 nowTTL)) response, nowTTL).

(** [dns/client.go:437-509] (Client).loadResponse *)
Definition loadResponse (timeNow : Z) (question : Question) (transport : option DNSTransport)
    (c : Client) : res (option (Msg * Z) * Client) :=
  if c_disableExpire c then
    '(response, c) ← on_cache (A := option Msg) question transport (λ K _ key l, lru_Get timeNow key l) c;
    Ok (option_map (λ m, (m, 0)) response, c)
  else
    '(loaded, c) ← on_cache (A := option (Msg * Z)) question transport (λ K _ key l, lru_GetWithLifetime timeNow key l) c;
    match loaded with
    | None => Ok (None, c)
    | Some (response, expireAt) =>
        if Z.ltb expireAt timeNow then
          '(_, c) ← on_cache (A := unit) question transport (λ K _ key l, (tt, lru_Remove key l)) c;
          Ok (None, c)
        else Ok (Some (age_response expireAt timeNow response), c)
    end.

(** [dns/client.go:426-435] (Client).questionCache *)
Definition questionCache (timeNow : Z) (question : Question) (transport : option DNSTransport)
    (c : Client) : res (res (list Addr) * Client) :=
  '(loaded, c) ← loadResponse timeNow question transport c;
  Ok (match loaded with
      | None => Err ErrNotCached
      | Some (response, _) =>
          if negb (Z.eqb (msg_Rcode response) RcodeSuccess)
          then Err (RcodeError (msg_Rcode response)) else Ok (MessageToAddresses response)
      end, c).

(** [errors.As(err, &rcodeError)] *)
Fixpoint errors_As_RcodeError (err : error) : option Z :=
  match err with
  | RcodeError code => Some code
  | E_Cause c _ | E_CauseErr c _ | E_Extend c _ | RejectedError c | BypassedError c =>
      errors_As_RcodeError c
  | E_Errors a b =>
      match errors_As_RcodeError a with
      | Some code => Some code
      | None => errors_As_RcodeError b
      end
  | _ => None
  end.

(** ** Exchange *)

(** [dns/client.go:120-125] (Client).Exchange (strategy) *)
Definition strategy_rejected (question : Question) (options : DNSQueryOptions) : bool :=
  (Z.eqb (q_Qtype question) TypeA &&
   bool_decide (qo_Strategy options = DomainStrategyIPv6Only)) ||
  (Z.eqb (q_Qtype question) TypeAAAA &&
   bool_decide (qo_Strategy options = DomainStrategyIPv4Only)).

(** [dns/client.go:126-132] (Client).Exchange (client subnet) *)
Definition with_client_subnet (c : Client) (options : DNSQueryOptions) (message : Msg) : Msg :=
  let clientSubnet := if negb (Prefix_IsValid (qo_ClientSubnet options)) then c_clientSubnet c
                      else qo_ClientSubnet options in
  if Prefix_IsValid clientSubnet then SetClientSubnet message clientSubnet else message.

(** [dns/client.go:137-141] (Client).Exchange (additional records) *)
Definition simple_extra (message : Msg) : res bool :=
  match msg_Extra message with
  | [] => Ok true
  | [record] =>
      let hdr := RR_Hdr record in
      if Z.eqb (Hdr_Rrtype hdr) TypeOPT && Z.ltb 0 (Hdr_Class hdr) && Z.eqb (Hdr_Ttl hdr) 0 then
        match RR_data record with
        | RR_OPT options => Ok (negb (nonempty options))
        | _ => Panic [AStr "interface conversion"]
        end
      else Ok false
  | _ => Ok false
  end.

(** [dns/client.go:134-142] (Client).Exchange (isSimpleRequest) *)
Definition isSimpleRequest (message : Msg) (options : DNSQueryOptions) : res bool :=
  if Nat.eqb (length (msg_Question message)) 1 && negb (nonempty (msg_Ns message)) then
    extra ← simple_extra message;
    Ok (extra && negb (Prefix_IsValid (qo_ClientSubnet options)))
  else Ok false.

(** [dns/client.go:256-274] (Client).Exchange (HTTPS hints) *)
Definition filter_https (question : Question) (options : DNSQueryOptions) (response : Msg) : Msg :=
  let keep hint := response <| msg_Answer :=
    (λ rr, match RR_data rr with
           | RR_HTTPS values =>
               RR_set_data (RR_HTTPS (List.filter (λ it, negb (Z.eqb (SVCB_Key it) hint)) values)) rr
           | _ => rr
           end) <$> msg_Answer response |> in
  if Z.eqb (q_Qtype question) TypeHTTPS then
    match qo_Strategy options with
    | DomainStrategyIPv4Only => keep SVCB_IPV6HINT
    | DomainStrategyIPv6Only => keep SVCB_IPV4HINT
    | _ => response
    end
  else response.

(** [dns/client.go:275-292] (Client).Exchange (TTL) *)
Definition response_ttl (options : DNSQueryOptions) (response : Msg) : Z :=
  let negative := if nonempty (msg_Answer response) then 0
                  else default 0 (extractNegativeTTL response) in
  let timeToLive := if Z.eqb negative 0 then smallest_ttl response else negative in
  default timeToLive (qo_RewriteTTL options).

(** [dns/client.go:302-311] (Client).Exchange (EDNS) *)
Definition downgrade_edns (message response : Msg) : Msg :=
  match Msg_IsEdns0 response with
  | None => response
  | Some responseEDNSOpt =>
      let stripped := response <| msg_Extra :=
        List.filter (λ it, negb (Z.eqb (Hdr_Rrtype (RR_Hdr it)) TypeOPT)) (msg_Extra response) |> in
      match Msg_IsEdns0 message with
      | None => stripped
      | Some requestEDNSOpt =>
          if Z.ltb (OPT_Version requestEDNSOpt) (OPT_Version responseEDNSOpt)
          then Msg_SetEdns0 (OPT_UDPSize responseEDNSOpt) (OPT_Do responseEDNSOpt) stripped
          else response
      end
  end.

(** A query runs on the client, the world and the state its checker writes to; a panic or an error
    keeps what was done so far. *)
Section Queries.
Context {X : Type}.

Definition QueryState : Type := Client * W * X.
Definition Checker : Type := list Addr → X → bool * X.
Definition Query (A : Type) : Type := QueryState → res A * QueryState.

Definition q_ret {A} (r : res A) : Query A := λ s, (r, s).
Definition q_bind {A B} (q : Query A) (k : A → Query B) : Query B := λ s,
  match q s with
  | (Ok a, s) => k a s
  | (Err e, s) => (Err e, s)
  | (Panic p, s) => (Panic p, s)
  end.
#[local] Notation "'let*' x := q 'in' k" := (q_bind q (λ x, k))
  (at level 200, x name, q at level 100, k at level 200).

Definition on_client {A} (f : Z → Client → res (A * Client)) : Query A := λ '(c, w, x),
  match f (time_Now w) c with
  | Ok (a, c) => (Ok a, (c, w, x))
  | Err e => (Err e, (c, w, x))
  | Panic p => (Panic p, (c, w, x))
  end.
Definition get_client : Query Client := λ '(c, w, x), (Ok c, (c, w, x)).
Definition on_world {A} (f : W → A * W) : Query A := λ '(c, w, x),
  let '(a, w) := f w in (Ok a, (c, w, x)).
Definition run_checker (check : Checker) (addresses : list Addr) : Query bool := λ '(c, w, x),
  let '(b, x) := check addresses x in (Ok b, (c, w, x)).

(** The answer of the transport, with an RCODE error turned into an empty response.

    [dns/client.go:193-203] (Client).Exchange (transport) *)
Definition ask_transport (transport : DNSTransport) (message : Msg) : Query Msg :=
  let* answer := on_world (transport_Exchange transport message) in
  q_ret (match answer with
         | Err err =>
             match errors_As_RcodeError err with
             | Some rcode => Ok (FixedResponseStatus message rcode)
             | None => Err err
             end
         | answer => answer
         end).

(** [dns/client.go:240-247] (Client).Exchange (rejected) *)
Definition check_response (responseChecker : option Checker) (response : Msg) : Query bool :=
  match responseChecker with
  | None => q_ret (Ok false)
  | Some check =>
      if negb (Z.eqb (msg_Rcode response) RcodeSuccess) || negb (nonempty (msg_Answer response))
      then q_ret (Ok true)
      else let* accepted := run_checker check (MessageToAddresses response) in
           q_ret (Ok (negb accepted))
  end.

(** [dns/client.go:187-192] (Client).Exchange (RDRC) *)
Definition known_rejected (disableCache : bool) (responseChecker : option Checker)
    (transport : DNSTransport) (question : Question) : Query bool :=
  let* c := get_client in
  if negb disableCache && negb (is_nil responseChecker) && c_rdrc c
  then on_world (LoadRDRC (dt_Tag transport) (q_Name question) (q_Qtype question))
  else q_ret (Ok false).

(** A rejected response comes with the error: no caller looks at it.

    [dns/client.go:248-254] (Client).Exchange (rejection) *)
Definition reject_response (disableCache : bool) (transport : DNSTransport)
    (question : Question) : Query Msg :=
  let* c := get_client in
  let* _ := if negb disableCache && c_rdrc c
            then on_world (λ w, (tt, SaveRDRCAsync (dt_Tag transport) (q_Name question)
                                       (q_Qtype question) w))
            else q_ret (Ok tt) in
  q_ret (Err ErrResponseRejected).

(** The cache gets the pointer to the response before the last changes to it, and so sees them: the
    model stores what it is in the end.

    [dns/client.go:256-314] (Client).Exchange (response) *)
Definition finish_response (disableCache : bool) (transport : option DNSTransport)
    (question : Question) (options : DNSQueryOptions) (message response : Msg) : Query Msg :=
  let response := filter_https question options response in
  let timeToLive := response_ttl options response in
  let response := map_records (RR_set_Ttl timeToLive) response <| msg_Id := msg_Id message |> in
  let response := downgrade_edns message response in
  let* _ := if negb disableCache
            then on_client (λ now c,
                   (λ c, (tt, c)) <$> storeCache now transport question response timeToLive c)
            else q_ret (Ok tt) in
  q_ret (Ok response).

(** [dns/client.go:181-314] (Client).Exchange (without a cached response) *)
Definition exchange_uncached (disableCache : bool) (contextTransport : option string)
    (transport : option DNSTransport) (question : Question) (message : Msg)
    (options : DNSQueryOptions) (responseChecker : option Checker) : Query Msg :=
  match transport with
  | None => q_ret nil_dereference
  | Some t =>
      if bool_decide (contextTransport = Some (dt_Tag t)) then
        q_ret (Err (E_New [AStr "DNS query loopback in transport["; AStr (dt_Tag t); AStr "]"]))
      else
      let* rejected := known_rejected disableCache responseChecker t question in
      if (rejected : bool) then q_ret (Err ErrResponseRejectedCached) else
      let* response := ask_transport t message in
      let disableCache := disableCache || negb (Z.eqb (msg_Rcode response) RcodeSuccess ||
                                                Z.eqb (msg_Rcode response) RcodeNameError) in
      let* rejected := check_response responseChecker response in
      if (rejected : bool) then reject_response disableCache t question else
      finish_response disableCache transport question options message response
  end.

(** The wait for an equal query that is under way is left out.

    [dns/client.go:112-179] (Client).Exchange *)
Definition Client_Exchange (contextTransport : option string) (transport : option DNSTransport)
    (message : Msg) (options : DNSQueryOptions) (responseChecker : option Checker) : Query Msg :=
  match msg_Question message with
  | [] => q_ret (Ok (FixedResponseStatus message RcodeFormatError))
  | question :: _ =>
      if strategy_rejected question options
      then q_ret (Ok (FixedResponseStatus message RcodeSuccess)) else
      let* c := get_client in
      let message := with_client_subnet c options message in
      let* simple := q_ret (isSimpleRequest message options) in
      let disableCache := negb simple || c_disableCache c || qo_DisableCache options in
      let* cached := if negb disableCache
                     then on_client (λ now, loadResponse now question transport)
                     else q_ret (Ok None) in
      match cached with
      | Some (response, _) => q_ret (Ok (response <| msg_Id := msg_Id message |>))
      | None => exchange_uncached disableCache contextTransport transport question message options
                  responseChecker
      end
  end.

(** ** Lookup *)

(** [dns/client.go:364-370] sortAddresses *)
Definition sortAddresses (response4 response6 : list Addr) (strategy : DomainStrategy)
    : list Addr :=
  match strategy with
  | DomainStrategyPreferIPv6 => response6 ++ response4
  | _ => response4 ++ response6
  end.

(** [dns/client.go:397-424] (Client).lookupToExchange *)
Definition lookupToExchange (contextTransport : option string) (transport : option DNSTransport)
    (name : string) (qType : Z) (options : DNSQueryOptions) (responseChecker : option Checker)
    : Query (list Addr) :=
  let question := mkQuestion name qType ClassINET in
  let* c := get_client in
  let* cached := if negb (c_disableCache c || qo_DisableCache options)
                 then on_client (λ now, questionCache now question transport)
                 else q_ret (Ok (Err ErrNotCached)) in
  if bool_decide (cached ≠ Err ErrNotCached) then q_ret cached else
  let message := mkMsg 0 false false true false 0 [question] [] [] [] in
  let* response := Client_Exchange contextTransport transport message options responseChecker in
  if negb (Z.eqb (msg_Rcode response) RcodeSuccess)
  then q_ret (Err (RcodeError (msg_Rcode response))) else q_ret (Ok (MessageToAddresses response)).

(** The result of a task of the group: its error is collected, a panic is not. *)
Definition group_task {A} (q : Query A) : Query (res A) := λ s,
  match q s with
  | (Panic p, s) => (Panic p, s)
  | (r, s) => (Ok r, s)
  end.

Definition task_result (r : res (list Addr)) : list Addr :=
  match r with Ok addresses => addresses | _ => [] end.
Definition task_error {A} (r : res A) : list error :=
  match r with Err e => [e] | _ => [] end.

(** The two exchanges run at the same time: the world says in which order they are done.

    [dns/client.go:316-354] (Client).Lookup *)
Definition Client_Lookup (contextTransport : option string)
    (transport : option DNSTransport) (domain : string) (options : DNSQueryOptions)
    (responseChecker : option Checker) : Query (list Addr) :=
  let dnsName := dns_Fqdn (FqdnToDomain domain) in
  let strategy := if decide (qo_LookupStrategy options = DomainStrategyAsIS)
                  then qo_Strategy options else qo_LookupStrategy options in
  let exchange qType :=
    lookupToExchange contextTransport transport dnsName qType options responseChecker in
  match strategy with
  | DomainStrategyIPv4Only => exchange TypeA
  | DomainStrategyIPv6Only => exchange TypeAAAA
  | _ =>
      let* four_first := on_world (λ w, (exchange4_first w, w)) in
      let* first := group_task (exchange (if (four_first : bool) then TypeA else TypeAAAA)) in
      let* second := group_task (exchange (if (four_first : bool) then TypeAAAA else TypeA)) in
      let response4 := task_result (if (four_first : bool) then first else second) in
      let response6 := task_result (if (four_first : bool) then second else first) in
      match response4 ++ response6, task_error first ++ task_error second with
      | [], [] => q_ret (Ok [])
      | [], errs => q_ret (Err (task_Group_error errs))
      | _, _ => q_ret (Ok (sortAddresses response4 response6 strategy))
      end
  end.

End Queries.
End Client.

(** ** Theorems *)

Section ClientTheorems.
Context `{ExtLib} `{ActionLib} `{!DNSLib} `{FreeLRU} {W : Type} `{!DNSWorld W} {X : Type}.

Implicit Types (c : Client) (w : W) (x : X) (m : Msg).

(** *** Time to live *)

Definition ttl_is (T : Z) (m : Msg) : Prop := ∀ r, r ∈ msg_records m → RR_Ttl r = T.

Lemma RR_Ttl_set t r : RR_Ttl (RR_set_Ttl t r) = t.
Proof. unfold RR_Ttl. by rewrite RR_Hdr_set_Ttl. Qed.

Lemma msg_records_map f m : msg_records (map_records f m) = f <$> msg_records m.
Proof. unfold msg_records. by rewrite !fmap_app. Qed.


Lemma map_records_twice t u m :
  map_records (RR_set_Ttl t) (map_records (RR_set_Ttl u) m) = map_records (RR_set_Ttl t) m.
Proof.
  assert (∀ l : list RR, RR_set_Ttl t <$> (RR_set_Ttl u <$> l) = RR_set_Ttl t <$> l) as Hl.
  { intros l. rewrite <-list_fmap_compose. apply list_fmap_ext. intros; apply RR_set_Ttl_twice. }
  unfold map_records. cbn. by rewrite !Hl.
Qed.

Lemma ttl_is_map T m : ttl_is T (map_records (RR_set_Ttl T) m).
Proof.
  intros r. rewrite msg_records_map. intros (r' & -> & _)%list_elem_of_fmap. apply RR_Ttl_set.
Qed.





(** *** The cache *)









(** *** Queries *)

Lemma q_bind_Ok {A B} (q : Query (W := W) (X := X) A) (k : A → Query B) s b s' :
  q_bind q k s = (Ok b, s') → ∃ a s1, q s = (Ok a, s1) ∧ k a s1 = (Ok b, s').
Proof. unfold q_bind. destruct (q s) as [[] ?]; naive_solver. Qed.

Lemma q_ret_Ok {A} (r : res A) (a : A) s s' :
  q_ret (W := W) (X := X) r s = (Ok a, s') → r = Ok a ∧ s' = s.
Proof. unfold q_ret. naive_solver. Qed.

(** Take a successful query apart, step by step. *)
Ltac query_inv :=
  repeat match goal with
  | Hq : q_bind _ _ _ = (Ok _, _) |- _ => apply q_bind_Ok in Hq as (?&?&?&?)
  | Hq : q_ret _ _ = (Ok _, _) |- _ => apply q_ret_Ok in Hq as [? ?]; simplify_eq/=
  | Hq : get_client ?s = (Ok _, _) |- _ => unfold get_client in Hq; simplify_eq/=
  end.

(** Whatever the checker preserves, a query preserves. *)
Definition keeps {A} (P : X → Prop) (q : Query (W := W) A) : Prop :=
  ∀ c w x, P x → P (q (c, w, x)).2.2.

Lemma keeps_ret {A} P (r : res A) : keeps P (q_ret r).
Proof. by intros c w x Hx. Qed.

Lemma keeps_bind {A B} P (q : Query A) (k : A → Query B) :
  keeps P q → (∀ a, keeps P (k a)) → keeps P (q_bind q k).
Proof.
  intros Hq Hk c w x Hx. unfold q_bind. pose proof (Hq c w x Hx) as H3.
  destruct (q (c, w, x)) as [[] [[c1 w1] x1]]; cbn in *; [|done..]. by apply Hk.
Qed.

Lemma keeps_client {A} P (f : Z → Client → res (A * Client)) : keeps P (on_client f).
Proof. intros c w x Hx. cbn. by destruct (f _ c) as [[]| |]. Qed.

Lemma keeps_get_client P : keeps P get_client.
Proof. by intros c w x Hx. Qed.

Lemma keeps_world {A} P (f : W → A * W) : keeps P (on_world f).
Proof. intros c w x Hx. cbn. by destruct (f w). Qed.

Lemma keeps_check_response P check m :
  (∀ f, check = Some f → ∀ addresses x, P x → P (f addresses x).2) →
  keeps P (check_response check m).
Proof.
  intros Hc. unfold check_response. destruct check as [f|]; [|apply keeps_ret].
  destruct (_ || _); [apply keeps_ret|]. apply keeps_bind; [|intros; apply keeps_ret].
  intros c w x Hx. cbn. pose proof (Hc f eq_refl (MessageToAddresses m) x Hx) as Hf.
  by destruct (f _ x).
Qed.

#[local] Hint Resolve keeps_ret keeps_client keeps_get_client keeps_world keeps_check_response
  : keeps.
Ltac keeps :=
  repeat first
    [ solve [auto with keeps] | apply keeps_bind; [|intros ?] | case_match ].

Lemma Client_Exchange_keeps P ctx t m options check :
  (∀ f, check = Some f → ∀ addresses x, P x → P (f addresses x).2) →
  keeps P (Client_Exchange ctx t m options check).
Proof.
  intros Hc. unfold Client_Exchange, exchange_uncached, known_rejected, ask_transport,
    reject_response, finish_response. keeps.
Qed.

Lemma keeps_group_task {A} P (q : Query A) : keeps P q → keeps P (group_task q).
Proof.
  intros Hq c w x Hx. unfold group_task. pose proof (Hq c w x Hx).
  by destruct (q (c, w, x)) as [[] ?].
Qed.
#[local] Hint Resolve Client_Exchange_keeps : keeps.

Lemma Client_Lookup_keeps P ctx t domain options check :
  (∀ f, check = Some f → ∀ addresses x, P x → P (f addresses x).2) →
  keeps P (Client_Lookup ctx t domain options check).
Proof.
  intros Hc. unfold Client_Lookup.
  assert (∀ name qType, keeps P (lookupToExchange ctx t name qType options check)) as Hex
    by (intros; unfold lookupToExchange; keeps).
  pose proof (λ A q, keeps_group_task (A := A) P q). keeps.
Qed.

(** *** What a query answers *)

(** A query for one question that the client may answer from its cache. *)
Record cacheable (c : Client) (question : Question) (message : Msg) (options : DNSQueryOptions)
    : Prop := {
  ca_question : msg_Question message = [question];
  ca_strategy : strategy_rejected question options = false;
  ca_simple : isSimpleRequest (with_client_subnet c options message) options = Ok true;
  ca_client : c_disableCache c = false;
  ca_options : qo_DisableCache options = false
}.

Lemma Client_Exchange_cacheable ctx t question message options check c w x :
  cacheable c question message options →
  Client_Exchange (X := X) ctx t message options check (c, w, x) =
  match loadResponse (time_Now w) question t c with
  | Ok (Some (m, _), c') =>
      (Ok (m <| msg_Id := msg_Id (with_client_subnet c options message) |>), (c', w, x))
  | Ok (None, c') =>
      exchange_uncached false ctx t question (with_client_subnet c options message) options check
        (c', w, x)
  | Err e => (Err e, (c, w, x))
  | Panic p => (Panic p, (c, w, x))
  end.
Proof.
  intros [Hq Hs Hsimple Hc Ho]. unfold Client_Exchange. rewrite Hq, Hs.
  unfold q_bind at 1. cbn. unfold q_bind, q_ret. rewrite Hsimple, Hc, Ho. cbn.
  destruct (loadResponse _ _ _ _) as [[[[]|] ?]| |]; done.
Qed.


(** A query without EDNS gets its answer with one TTL on every record. *)
Lemma finish_response_uniform dis t question options message m
    (s s' : QueryState (W := W) (X := X)) response :
  Msg_IsEdns0 message = None →
  finish_response dis t question options message m s = (Ok response, s') →
  let T := response_ttl options (filter_https question options m) in
  ttl_is T response ∧ msg_Id response = msg_Id message ∧
  msg_Rcode response = msg_Rcode m ∧
  (msg_Answer response = RR_set_Ttl T <$> msg_Answer (filter_https question options m)) ∧
  (dis = false → storeCache (time_Now s.1.2) t question response T s.1.1 = Ok s'.1.1) ∧
  s'.1.2 = s.1.2 ∧ s'.2 = s.2.
Proof.
  intros Hno Hf. unfold finish_response in Hf.
  set (fm := filter_https question options m) in *. set (T := response_ttl options fm) in *.
  set (m1 := map_records (RR_set_Ttl T) fm <| msg_Id := msg_Id message |>) in *.
  assert (ttl_is T m1) as Hm1 by exact (ttl_is_map T fm).
  assert (msg_Rcode m1 = msg_Rcode m) as Hrc.
  { unfold m1, fm, filter_https. cbn. destruct (Z.eqb _ _); [|done]. by destruct (qo_Strategy options). }
  assert (ttl_is T (downgrade_edns message m1) ∧ msg_Id (downgrade_edns message m1) = msg_Id message ∧
    msg_Rcode (downgrade_edns message m1) = msg_Rcode m ∧
    msg_Answer (downgrade_edns message m1) = RR_set_Ttl T <$> msg_Answer fm) as (Httl & Hid & Hcode & Hans).
  { unfold downgrade_edns. rewrite Hno. destruct (Msg_IsEdns0 m1); [|done].
    split_and!; [|done..]. intros rr. unfold msg_records. cbn. rewrite !elem_of_app.
    intros [|[|Hr]]; (apply Hm1; unfold msg_records; rewrite !elem_of_app); [by left|by right; left|].
    right. right. apply list_elem_of_In, filter_In in Hr as [Hr _]. by apply list_elem_of_In. }
  apply q_bind_Ok in Hf as ([] & s1 & Hst & Hr). apply q_ret_Ok in Hr as [[= <-] ->].
  split_and!; [done..| | |].
  - intros ->. cbn [negb] in Hst. destruct s as [[c w] x]. cbn in Hst |- *.
    destruct (storeCache _ _ _ _ _ _); cbn in Hst; [|done..]. by injection Hst as <-.
  - destruct s as [[c w] x]. destruct dis; cbn in Hst; [by injection Hst as <-|].
    by destruct (storeCache _ _ _ _ _ _); cbn in Hst; simplify_eq.
  - destruct s as [[c w] x]. destruct dis; cbn in Hst; [by injection Hst as <-|].
    by destruct (storeCache _ _ _ _ _ _); cbn in Hst; simplify_eq.
Qed.


Lemma ask_transport_client t m (s s' : QueryState (W := W) (X := X)) r :
  ask_transport t m s = (r, s') → s'.1.1 = s.1.1 ∧ s'.2 = s.2.
Proof.
  destruct s as [[c w] x]. unfold ask_transport, q_bind, on_world.
  destruct (transport_Exchange t m w). by intros [= _ <-].
Qed.

Lemma check_response_client check m (s s' : QueryState (W := W) (X := X)) r :
  check_response check m s = (r, s') → s'.1 = s.1.
Proof.
  destruct s as [[c w] x]. unfold check_response. destruct check as [f|]; [|by intros [= _ <-]].
  destruct (_ || _); [by intros [= _ <-]|]. unfold q_bind, run_checker.
  destruct (f _ x). by intros [= _ <-].
Qed.

Lemma known_rejected_client dis check t question (s s' : QueryState (W := W) (X := X)) r :
  known_rejected dis check t question s = (r, s') → s'.1.1 = s.1.1 ∧ s'.2 = s.2.
Proof.
  destruct s as [[c w] x]. unfold known_rejected, q_bind. cbn.
  destruct (_ && _); [|by intros [= _ <-]]. cbn. destruct (LoadRDRC _ _ _ _). by intros [= _ <-].
Qed.

(** A response that the client did not have comes from the transport, passed the checker, and is
    finished. *)
Lemma exchange_uncached_Ok dis ctx t question message options check
    (s s' : QueryState (W := W) (X := X)) response :
  exchange_uncached dis ctx t question message options check s = (Ok response, s') →
  ∃ t' m s0 s1 s2, t = Some t' ∧ ctx ≠ Some (dt_Tag t') ∧
    s0.1.1 = s.1.1 ∧ s0.2 = s.2 ∧ ask_transport t' message s0 = (Ok m, s1) ∧
    check_response check m s1 = (Ok false, s2) ∧ s2.1.1 = s.1.1 ∧
    finish_response (dis || negb (Z.eqb (msg_Rcode m) RcodeSuccess ||
                                  Z.eqb (msg_Rcode m) RcodeNameError))
      t question options message m s2 = (Ok response, s').
Proof.
  unfold exchange_uncached. destruct t as [t|]; [|done]. case_bool_decide as Hctx; [done|].
  intros Hq. apply q_bind_Ok in Hq as (known & s0 & Hk & Hq).
  apply known_rejected_client in Hk as [Hc0 Hx0]. destruct known; [done|].
  apply q_bind_Ok in Hq as (m & s1 & Ha & Hq).
  pose proof (ask_transport_client _ _ _ _ _ Ha) as [Hc1 Hx1].
  apply q_bind_Ok in Hq as (rejected & s2 & Hr & Hq).
  pose proof (check_response_client _ _ _ _ _ Hr) as Hc2.
  destruct rejected.
  { unfold reject_response in Hq. apply q_bind_Ok in Hq as (? & ? & _ & Hq).
    apply q_bind_Ok in Hq as (? & ? & _ & Hq). done. }
  exists t, m, s0, s1, s2. split_and!; try done. congruence.
Qed.








(** A response that had to be asked for is returned to a caller with a checker only when the
    transport that was asked succeeded and the checker accepted exactly the addresses that are
    returned. *)
Theorem Exchange_checked ctx t question message options f c c0 w x response c1 w1 x1 :
  cacheable c question message options → q_Qtype question ≠ TypeHTTPS →
  Msg_IsEdns0 (with_client_subnet c options message) = None →
  loadResponse (time_Now w) question t c = Ok (None, c0) →
  Client_Exchange ctx t message options (Some f) (c, w, x) = (Ok response, (c1, w1, x1)) →
  msg_Rcode response = RcodeSuccess ∧ f (MessageToAddresses response) x = (true, x1).
Proof.
  intros Hca Hq Hedns Hnone Hex.
  rewrite (Client_Exchange_cacheable _ _ _ _ _ _ _ _ _ Hca), Hnone in Hex.
  apply exchange_uncached_Ok in Hex as (t1 & m & s0 & s1 & s2 & -> & _ & _ & Hx0 & Ha & Hr & Hc2 & Hf).
  apply finish_response_uniform in Hf as (_ & _ & Hmc & Hans & _ & _ & Hx); [|done].
  apply ask_transport_client in Ha as [_ Hx1]. cbn [snd] in *.
  unfold check_response in Hr. rewrite Hmc.
  destruct (Z.eqb_spec (msg_Rcode m) RcodeSuccess) as [Hcode|]; cbn [negb orb] in Hr; [|done].
  split; [done|]. destruct (nonempty (msg_Answer m)); cbn in Hr; [|done].
  assert (MessageToAddresses response = MessageToAddresses m) as ->.
  { unfold MessageToAddresses. rewrite Hmc, Hans. unfold filter_https. apply Z.eqb_neq in Hq. rewrite Hq.
    destruct (negb _); [done|]. clear. induction (msg_Answer m) as [|rr l IH]; [done|]. cbn.
    rewrite IH. f_equal. unfold answer_addresses. by rewrite RR_data_set_Ttl. }
  apply q_bind_Ok in Hr as (b & s3 & Hr & Hb). apply q_ret_Ok in Hb as [[= Hb] ->].
  destruct b; [|done]. destruct s1 as [[c3 w3] x3]. cbn in Hr, Hx1, Hx0 |- *.
  destruct (f _ x3) as [b x4] eqn:Hfx. injection Hr as -> <-. cbn in *. congruence.
Qed.

End ClientTheorems.

(** ** What the client promises to the router *)

(** [Exchange] and [Lookup] with a checker that works on the metadata of the query: whatever the
    checker preserves of the metadata, they preserve.

    [adapter/dns.go:26-31] DNSClient *)
Class DNSClientI `{ExtLib} `{ActionLib} (C : Type) := {
  client_Start : C → C;
  client_Exchange : option string → option DNSTransport → Msg → DNSQueryOptions →
    option (list Addr → InboundContext → bool * InboundContext) → C → InboundContext →
    res Msg * C * InboundContext;
  client_Lookup : option string → option DNSTransport → string → DNSQueryOptions →
    option (list Addr → InboundContext → bool * InboundContext) → C → InboundContext →
    res (list Addr) * C * InboundContext;
  client_ClearCache : C → C;

  client_Exchange_keeps : ∀ (P : InboundContext → Prop) ctx t m options check c metadata,
    (∀ f, check = Some f → ∀ addresses metadata, P metadata → P (f addresses metadata).2) →
    P metadata → P (client_Exchange ctx t m options check c metadata).2;
  client_Lookup_keeps : ∀ (P : InboundContext → Prop) ctx t domain options check c metadata,
    (∀ f, check = Some f → ∀ addresses metadata, P metadata → P (f addresses metadata).2) →
    P metadata → P (client_Lookup ctx t domain options check c metadata).2
}.

Definition run_query {C W X A} (q : C * W * X → res A * (C * W * X)) (cw : C * W) (x : X)
    : res A * (C * W) * X :=
  let '(r, (c, w, x)) := q (cw, x) in (r, (c, w), x).

Lemma run_query_keeps `{ExtLib} `{ActionLib} `{!DNSLib} `{FreeLRU} {W} `{!DNSWorld W} {X A}
    (P : X → Prop) (q : Query (W := W) (X := X) A) cw x :
  keeps P q → P x → P (run_query q cw x).2.
Proof.
  intros Hq Hx. destruct cw as [c w]. unfold run_query. pose proof (Hq c w x Hx) as Hk.
  by destruct (q (c, w, x)) as [r [[c1 w1] x1]].
Qed.

#[global] Instance Client_DNSClient `{ExtLib} `{ActionLib} `{!DNSLib} `{FreeLRU} {W} `{!DNSWorld W}
  : DNSClientI (Client * W) := {|
  client_Start cw := (Client_Start cw.1, cw.2);
  client_Exchange ctx t m options check :=
    run_query (Client_Exchange ctx t m options check);
  client_Lookup ctx t domain options check :=
    run_query (Client_Lookup ctx t domain options check);
  client_ClearCache cw := (Client_ClearCache cw.1, cw.2);
  client_Exchange_keeps P ctx t m options check cw x Hc :=
    run_query_keeps P _ cw x (Client_Exchange_keeps P ctx t m options check Hc);
  client_Lookup_keeps P ctx t domain options check cw x Hc :=
    run_query_keeps P _ cw x (Client_Lookup_keeps P ctx t domain options check Hc)
|}.

(** ** Concrete libraries, and queries with them *)

(** Records are headers with data, and an option is whether it is a client subnet. *)
Definition SampleRR : Type := RR_Header * RRData (Z * string) bool.

Definition DNSSampleActions : ActionLib := {|
  RR := SampleRR;
  RR_Name r := Hdr_Name r.1;
  RR_copy_with_Name n r :=
    (mkRR_Header n (Hdr_Rrtype r.1) (Hdr_Class r.1) (Hdr_Ttl r.1), r.2);
  RR_String r := Hdr_Name r.1;
  RcodeToString _ := "rcode"%string;
  Dialer := unit;
  DirectActionOptions := unit;
  dialer_New _ := Ok tt;
  DirectActionOptions_Descriptions _ := [];
  Duration_String _ := "duration"%string
|}.

Definition SampleDNSLib : @DNSLib DNSSampleActions.
Proof.
  refine {|
    SVCBKeyValue := Z * string;
    SVCB_Key := fst;
    SVCB_String := snd;
    EDNS0 := bool;
    is_EDNS0_SUBNET := id;
    EDNS0_SUBNET_new := true;
    EDNS0_SUBNET_set _ _ _ o := o;
    RR_Hdr := fst : @RR DNSSampleActions → _;
    RR_data := snd : @RR DNSSampleActions → _;
    RR_new := pair : _ → _ → @RR DNSSampleActions;
    RR_set_Ttl t r :=
      (mkRR_Header (Hdr_Name (fst r)) (Hdr_Rrtype (fst r)) (Hdr_Class (fst r)) t, snd r)
        : @RR DNSSampleActions;
    RR_set_data d r := (fst r, d) : @RR DNSSampleActions;
    Msg_IsEdns0 m := List.find (λ r : SampleRR, Z.eqb (Hdr_Rrtype (fst r)) TypeOPT) (msg_Extra m);
    OPT_Version _ := 0;
    OPT_UDPSize r := Hdr_Class (fst (r : SampleRR));
    OPT_Do _ := false;
    Msg_SetEdns0 _ _ m := m;
    dns_IsFqdn s := strings_HasSuffix s ".";
    dns_Fqdn s := if strings_HasSuffix s "." then s else (s +:+ ".")%string;
    M_ParseAddr _ := AddrInvalid;
    task_Group_error errs := default (E_New []) (head errs)
  |}; done.
Defined.

(** A cache that never drops an entry before it expires. *)
Fixpoint assoc_find {K V} `{EqDecision K} (k : K) (l : list (K * V)) : option V :=
  match l with
  | [] => None
  | (k', v) :: l' => if decide (k = k') then Some v else assoc_find k l'
  end.

Definition SampleLRU : FreeLRU.
Proof.
  refine {|
    lru K V := list (K * (V * Z));
    lru_New _ _ _ _ := [];
    lru_Get K V _ _ k l := (fst <$> assoc_find k l, l);
    lru_GetWithLifetime K V _ _ k l := (assoc_find k l, l);
    lru_Add K V _ _ k v l := (k, (v, 0)) :: l;
    lru_AddWithLifetime K V _ now k v life l := (k, (v, now + life)) :: l;
    lru_Remove K V _ k l := List.filter (λ e, negb (bool_decide (e.1 = k))) l;
    lru_Purge _ _ _ _ := [];
    lru_holds K V _ k v e l :=
      match e with Some e => assoc_find k l = Some (v, e) | None => fst <$> assoc_find k l = Some v end;
    lru_resolution := 0
  |}.
  - intros K V eq now k v l. cbn. by rewrite decide_True.
  - intros K V eq now k v life l. exists (now + life). split; [lia|]. cbn. by rewrite decide_True.
  - intros K V eq now k v l Hh. by split.
  - intros K V eq now k v e l Hh _. by split.
Defined.

(** A clock, and one answer for every question. *)
Definition SampleWorld : Type := Z * res (@Msg DNSSampleActions).
#[global] Instance Sample_world : @DNSWorld SampleLib DNSSampleActions SampleWorld := {|
  time_Now := fst;
  transport_Exchange _ _ w := (snd w, w);
  LoadRDRC _ _ _ w := (false, w);
  SaveRDRCAsync _ _ _ w := w;
  exchange4_first _ := true
|}.

Section ClientExamples.

#[local] Instance ex_lib : ExtLib := SampleLib.
#[local] Instance ex_actions : ActionLib := DNSSampleActions.
#[local] Instance ex_dns : DNSLib := SampleDNSLib.
#[local] Instance ex_lru : FreeLRU := SampleLRU.

Definition sample_question : Question := mkQuestion "a.test." TypeA ClassINET.
Definition sample_query (id : Z) : Msg :=
  mkMsg id false false true false 0 [sample_question] [] [] [].
Definition sample_answer : Msg := FixedResponse 0 sample_question [Addr4 1] 300.
Definition sample_client : Client :=
  NewClient (mkClientOptions false false false 0 Prefix_zero false).
Definition no_options : DNSQueryOptions :=
  mkDNSQueryOptions None DomainStrategyAsIS DomainStrategyAsIS false None Prefix_zero.
Definition sample_transport : option DNSTransport := Some (mkDNSTransport "local" "udp" None).

Definition asked_client : Client :=
  sample_client <| c_cache :=
    Some [(sample_question, (FixedResponse 7 sample_question [Addr4 1] 300, 300000000000))] |>.

Lemma sample_cacheable id : cacheable sample_client sample_question (sample_query id) no_options.
Proof. by split. Qed.

(** Asked again 100.5 seconds later, the answer has 199 seconds to live. *)
Example cached_answer_ex :
  let q id w c := Client_Exchange None sample_transport (sample_query id) no_options None (c, w, tt) in
  let first := q 7 (0, Ok sample_answer) sample_client in
  (q 8 (100500000000, Err (E_New [])) first.2.1.1).1 =
  Ok (FixedResponse 8 sample_question [Addr4 1] 199).
Proof. reflexivity. Qed.



Lemma Exchange_checked_witness :
  let check : list Addr → nat → bool * nat :=
    λ addresses n, (bool_decide (addresses = [Addr4 1]), S n) in
  check [Addr4 1] 0%nat = (true, 1%nat).
Proof.
  intros check.
  destruct (Exchange_checked None sample_transport sample_question (sample_query 7) no_options check
    sample_client sample_client (0, Ok sample_answer) 0%nat
    (FixedResponse 7 sample_question [Addr4 1] 300)
    asked_client
    (0, Ok sample_answer) 1%nat) as [_ Hf].
  - apply sample_cacheable.
  - discriminate.
  - reflexivity.
  - reflexivity.
  - reflexivity.
  - exact Hf.
Defined.

End ClientExamples.
