(* ===== verification/Sniffing.v ===== *)
(** * Running the sniffers (common/sniff/sniff.go, route/route.go: actionSniff)

    The sniffers themselves are operations of a class: each reads the payload and may write to the
    metadata.  A connection is the sequence of results its reads give, so what a sniff consumes and
    what it keeps can be compared. *)

From stdpp Require Import base gmap strings list numbers.
From S2P Require Import Prelude GoStd Netip Adapter RuleAction.

Local Open Scope Z_scope.

(** [sniff.StreamSniffer] and [sniff.PacketSniffer]: [None] is a [nil] error.  A stream sniffer reads
    from an [io.MultiReader] over buffers, one after the other.  [PacketSize] is the room of
    [buf.NewPacket] of sing, the buffer a sniff reads into. *)
Class Sniffers := {
  PacketSize : nat;
  PacketSize_pos : (0 < PacketSize)%nat;
  run_StreamSniffer :
    StreamSniffer → InboundContext → list (list byte) → option error * InboundContext;
  run_PacketSniffer : PacketSniffer → InboundContext → list byte → option error * InboundContext
}.

(** A concrete choice, for examples: a sniffer recognises a payload of at least [need] bytes and
    fails with [err] on a shorter one; a sniff has room for 64 bytes. *)
Definition SampleSniffers (need : nat) (err : error) : Sniffers := {|
  PacketSize := 64;
  PacketSize_pos := Nat.lt_0_succ 63;
  run_StreamSniffer _ metadata payload :=
    if Nat.leb need (length (concat payload)) then (None, metadata <| ic_Protocol := "sample"%string |>)
    else (Some err, metadata);
  run_PacketSniffer _ metadata packet :=
    if Nat.leb need (length packet) then (None, metadata <| ic_Protocol := "sample"%string |>)
    else (Some err, metadata)
|}.

(** One attempt to read a stream connection: the deadline cannot be set, the read fails, or some
    bytes arrive.  After the last attempt of the sequence the connection is closed. *)
Inductive StreamRead : Type :=
| SR_DeadlineErr (e : error)
| SR_Err (e : error)
| SR_Data (b : list byte).

(** One attempt to read a packet connection, or the context that ends while waiting. *)
Inductive PacketRead : Type :=
| PR_Packet (b : list byte) (destination : Socksaddr)
| PR_Err (e : error)
| PR_CtxDone (e : error).

(** [N.PacketBuffer] of sing: a packet that was read, and where it was going. *)
Abbreviation PacketBuffer := (list byte * Socksaddr)%type.

Section Sniffing.
Context `{ExtLib} `{ActionLib} `{Sniffers}.

(** [common/sniff/sniff.go:23-23] ErrNeedMoreData *)
Definition ErrNeedMoreData : error := E_New [AStr "need more data"].

(** [E.Cause1(ErrNeedMoreData, err)] of sing, which wraps both errors. *)
Definition need_more (err : error) : error := E_Errors ErrNeedMoreData err.

Definition DeadlineExceeded : error := E_Ext "context.DeadlineExceeded".

(** [common/sniff/sniff.go:25-39] Skip *)
Definition Skip (metadata : InboundContext) : bool :=
  existsb (Z.eqb (sa_Port (ic_Destination metadata))) [25; 465; 587; 143; 993; 110; 995].

(** The loop over the sniffers: the first that succeeds ends it, the errors of the others are
    joined.

    [common/sniff/sniff.go:60-70] PeekStream (sniffers) *)
Fixpoint run_stream_sniffers (sniffers : list StreamSniffer) (payload : list (list byte))
    (metadata : InboundContext) (sniffError : option error)
    : bool * option error * InboundContext :=
  match sniffers with
  | [] => (false, sniffError, metadata)
  | sniffer :: sniffers' =>
      let '(err, metadata) := run_StreamSniffer sniffer metadata payload in
      match err with
      | None => (true, None, metadata)
      | Some e => run_stream_sniffers sniffers' payload metadata (Some (errors_join sniffError e))
      end
  end.

(** What a peek returns: the error, the metadata, the bytes of the sniff buffer, and the reads that
    are left. *)
Record Peeked : Type := mkPeeked {
  pk_err : option error;
  pk_metadata : InboundContext;
  pk_buffer : list byte;
  pk_reads : list StreamRead
}.

Definition io_ErrShortBuffer : error := E_Ext "io.ErrShortBuffer".

(** The read loop, iteration [i]; [buffers] is what earlier sniffs kept.  [ReadOnceFrom] refuses to
    read into a buffer that is full; otherwise one [Read] takes what is there, as far as there is
    room, and the next one goes on behind it.  When something is left over the buffer is full, so
    the next iteration cannot read and ends the loop with the errors of the sniffers.

    [common/sniff/sniff.go:47-75] PeekStream (loop) *)
Fixpoint PeekStream_loop (first : bool) (reads : list StreamRead) (buffers : list (list byte))
    (buffer : list byte) (sniffers : list StreamSniffer) (metadata : InboundContext) (sniffError : option error)
    : Peeked :=
  let failed err reads :=
    if first then mkPeeked (Some (E_Cause err [AStr "read payload"])) metadata buffer reads
    else mkPeeked sniffError metadata buffer reads in
  let room := (PacketSize - length buffer)%nat in
  let full := Nat.eqb room 0 in
  match reads with
  | SR_DeadlineErr e :: reads' =>
      mkPeeked (Some (E_Cause e [AStr "set read deadline"])) metadata buffer reads'
  | [] => failed (if full then io_ErrShortBuffer else io_EOF) []
  | SR_Err e :: reads' => if full then failed io_ErrShortBuffer reads else failed e reads'
  | SR_Data b :: reads' =>
      if full then failed io_ErrShortBuffer reads else
      let buffer := buffer ++ take room b in
      let left := drop room b in
      let reads'' := if nonempty left then SR_Data left :: reads' else reads' in
      let '(ok, sniffError, metadata) :=
        run_stream_sniffers sniffers (buffers ++ [buffer]) metadata None in
      if ok then mkPeeked None metadata buffer reads'' else
      match sniffError with
      | Some e =>
          if errors_Is e ErrNeedMoreData then
            if nonempty left then mkPeeked sniffError metadata buffer reads''
            else PeekStream_loop false reads' buffers buffer sniffers metadata sniffError
          else mkPeeked sniffError metadata buffer reads''
      | None => mkPeeked None metadata buffer reads''
      end
  end.

(** [common/sniff/sniff.go:41-76] PeekStream *)
Definition PeekStream (reads : list StreamRead) (buffers : list (list byte))
    (sniffers : list StreamSniffer) (metadata : InboundContext) : Peeked :=
  PeekStream_loop true reads buffers [] sniffers metadata None.

(** [common/sniff/sniff.go:78-88] PeekPacket *)
Fixpoint PeekPacket_from (sniffers : list PacketSniffer) (packet : list byte)
    (metadata : InboundContext) (sniffError : option error)
    : option error * InboundContext :=
  match sniffers with
  | [] => (sniffError, metadata)
  | sniffer :: sniffers' =>
      let '(err, metadata) := run_PacketSniffer sniffer metadata packet in
      match err with
      | None => (None, metadata)
      | Some e => PeekPacket_from sniffers' packet metadata (Some (errors_join sniffError e))
      end
  end.

Definition PeekPacket (sniffers : list PacketSniffer) (packet : list byte)
    (metadata : InboundContext) : option error * InboundContext :=
  PeekPacket_from sniffers packet metadata None.

(** ** The sniff action *)

(** [route/route.go:631-637] (Router).actionSniff (skipped) *)
Definition sniff_skipped (metadata : InboundContext) : bool :=
  Skip metadata || negb (String.eqb (ic_Protocol metadata) "").

(** The same sniffers failed before, for good.

    [route/route.go:641-644] (Router).actionSniff (previous error) *)
Definition sniff_failed_before (action : RuleActionSniff) (metadata : InboundContext) : bool :=
  match ic_SniffError metadata with
  | Some e =>
      bool_decide (ic_SnifferNames metadata = as_SnifferNames action) &&
      negb (errors_Is e ErrNeedMoreData)
  | None => false
  end.

(** [route/route.go:645-657] (Router).actionSniff (stream sniffers) *)
Definition default_stream_sniffers (action : RuleActionSniff) : list StreamSniffer :=
  if nonempty (as_StreamSniffers action) then as_StreamSniffers action
  else [SS_TLSClientHello; SS_HTTPHost; SS_StreamDomainNameQuery; SS_BitTorrent; SS_SSH; SS_RDP].

(** [route/route.go:701-714] (Router).actionSniff (packet sniffers) *)
Definition default_packet_sniffers (action : RuleActionSniff) : list PacketSniffer :=
  if nonempty (as_PacketSniffers action) then as_PacketSniffers action
  else [PS_DomainNameQuery; PS_QUICClientHello; PS_STUNMessage; PS_UTP; PS_UDPTracker;
        PS_DTLSRecord; PS_NTP].

(** [route/route.go:672-677] (Router).actionSniff (override destination) *)
Definition sniff_override (action : RuleActionSniff) (metadata : InboundContext)
    : InboundContext :=
  if as_OverrideDestination action && IsDomainName (ic_Domain metadata)
  then metadata <| ic_Destination :=
         mkSocksaddr AddrInvalid (sa_Port (ic_Destination metadata)) (ic_Domain metadata) |>
  else metadata.

Definition note_sniff (action : RuleActionSniff) (err : option error) (metadata : InboundContext)
    : InboundContext :=
  metadata <| ic_SnifferNames := as_SnifferNames action |> <| ic_SniffError := err |>.

(** The stream branch: the buffer that was read, when there is one.

    [route/route.go:638-690] (Router).actionSniff (stream) *)
Definition actionSniff_stream (action : RuleActionSniff) (reads : list StreamRead)
    (inputBuffers : list (list byte)) (metadata : InboundContext)
    : option (list byte) * InboundContext * list StreamRead :=
  if sniff_skipped metadata then (None, metadata, reads) else
  if negb (nonempty (as_StreamSniffers action)) && nonempty (as_PacketSniffers action)
  then (None, metadata, reads) else
  if sniff_failed_before action metadata then (None, metadata, reads) else
  let p := PeekStream reads inputBuffers (default_stream_sniffers action) metadata in
  let metadata := note_sniff action (pk_err p) (pk_metadata p) in
  let metadata := match pk_err p with
                  | None => sniff_override action metadata
                  | Some _ => metadata
                  end in
  (if nonempty (pk_buffer p) then Some (pk_buffer p) else None, metadata, pk_reads p).

(** [route/route.go:698-700] (Router).actionSniff (quicMoreData) *)
Definition quicMoreData (action : RuleActionSniff) (metadata : InboundContext) : bool :=
  bool_decide (ic_SnifferNames metadata = as_SnifferNames action) &&
  match ic_SniffError metadata with Some e => errors_Is e ErrNeedMoreData | None => false end.

(** Sniff one packet and note the result.

    [route/route.go:717-732] (Router).actionSniff (one packet) *)
Definition sniff_packet (action : RuleActionSniff) (packet : list byte)
    (metadata : InboundContext) : option error * InboundContext :=
  let sniffers := if quicMoreData action metadata then [PS_QUICClientHello]
                  else default_packet_sniffers action in
  let '(err, metadata) := PeekPacket sniffers packet metadata in
  (err, note_sniff action err metadata).

Definition needs_more (err : option error) : bool :=
  match err with Some e => errors_Is e ErrNeedMoreData | None => false end.

(** The packets kept by earlier sniffs: [None] when all of them need more data, and otherwise the
    result that ends the sniff.

    [route/route.go:715-739] (Router).actionSniff (kept packets) *)
Fixpoint sniff_kept (action : RuleActionSniff) (packets : list PacketBuffer)
    (metadata : InboundContext) : option (option error) * InboundContext :=
  match packets with
  | [] => (None, metadata)
  | (b, _) :: packets' =>
      let '(err, metadata) := sniff_packet action b metadata in
      if needs_more err then sniff_kept action packets' metadata else (Some err, metadata)
  end.

(** The packets that are read until one needs no more data: the last error, the packets kept, the
    reads left, and a fatal error.

    [route/route.go:740-800] (Router).actionSniff (read packets) *)
Fixpoint sniff_reads (action : RuleActionSniff) (reads : list PacketRead)
    (packetBuffers : list PacketBuffer) (metadata : InboundContext)
    : option error * list PacketBuffer * list PacketRead * option error * InboundContext :=
  match reads with
  | [] => (Some io_EOF, packetBuffers, [], Some io_EOF, metadata)
  | PR_CtxDone e :: reads' => (Some e, packetBuffers, reads', Some e, metadata)
  | PR_Err e :: reads' =>
      if errors_Is e DeadlineExceeded then (Some e, packetBuffers, reads', None, metadata)
      else (Some e, packetBuffers, reads', Some e, metadata)
  | PR_Packet b destination :: reads' =>
      let '(err, metadata) := sniff_packet action b metadata in
      let packetBuffers := packetBuffers ++ [(b, destination)] in
      if needs_more err then sniff_reads action reads' packetBuffers metadata
      else (err, packetBuffers, reads', None, metadata)
  end.

(** The packet branch: the packet buffers it returns, the fatal error, and the state.

    [route/route.go:691-820] (Router).actionSniff (packet) *)
Definition actionSniff_packet (action : RuleActionSniff) (reads : list PacketRead)
    (inputPacketBuffers : list PacketBuffer) (metadata : InboundContext)
    : list PacketBuffer * option error * InboundContext * list PacketRead :=
  if sniff_skipped metadata then ([], None, metadata, reads) else
  if negb (nonempty (as_PacketSniffers action)) && nonempty (as_StreamSniffers action)
  then ([], None, metadata, reads) else
  if sniff_failed_before action metadata then ([], None, metadata, reads) else
  match sniff_kept action inputPacketBuffers metadata with
  | (Some err, metadata) =>
      ([], None, match err with
                 | None => sniff_override action metadata
                 | Some _ => metadata
                 end, reads)
  | (None, metadata) =>
      let '(err, packetBuffers, reads, fatalErr, metadata) :=
        sniff_reads action reads inputPacketBuffers metadata in
      match fatalErr with
      | Some e => (packetBuffers, Some e, metadata, reads)
      | None => (packetBuffers, None,
                 match err with
                 | None => sniff_override action metadata
                 | Some _ => metadata
                 end, reads)
      end
  end.

End Sniffing.

(** ** Theorems *)

(** The bytes a sequence of reads gives, and the packets. *)
Definition stream_data (reads : list StreamRead) : list byte :=
  concat ((λ r, match r with SR_Data b => b | _ => [] end) <$> reads).

Definition packet_data (reads : list PacketRead) : list PacketBuffer :=
  flat_map (λ r, match r with PR_Packet b d => [(b, d)] | _ => [] end) reads.

Section SniffingTheorems.
Context `{ExtLib} `{ActionLib} `{Sniffers}.

Lemma stream_data_cons b reads : stream_data (SR_Data b :: reads) = b ++ stream_data reads.
Proof. done. Qed.

Lemma stream_data_left (b : list byte) reads :
  stream_data (if nonempty b then SR_Data b :: reads else reads) = b ++ stream_data reads.
Proof. by destruct b. Qed.

Lemma PeekStream_loop_conserves first reads buffers buffer sniffers md e :
  let p := PeekStream_loop first reads buffers buffer sniffers md e in
  pk_buffer p ++ stream_data (pk_reads p) = buffer ++ stream_data reads.
Proof.
  revert first buffer md e. induction reads as [|[err|err|b] reads IH]; intros first buffer md e;
    cbn -[stream_data Nat.eqb Nat.sub].
  - by destruct first.
  - done.
  - by destruct (Nat.eqb _ 0), first.
  - destruct (Nat.eqb _ 0); [by destruct first|]. set (room := (_ - _)%nat). clearbody room.
    assert (buffer ++ stream_data (SR_Data b :: reads) =
            (buffer ++ take room b) ++ drop room b ++ stream_data reads) as ->
      by (by rewrite stream_data_cons, <-app_assoc, (app_assoc (take room b)), take_drop).
    destruct (run_stream_sniffers _ _ _ _) as [[ok err] md'].
    destruct ok; [by cbn -[stream_data]; rewrite stream_data_left|].
    destruct err as [err|]; [|by cbn -[stream_data]; rewrite stream_data_left].
    destruct (errors_Is err ErrNeedMoreData); [|by cbn -[stream_data]; rewrite stream_data_left].
    destruct (drop room b); [apply IH|done].
Qed.

(** A sniff keeps no more than its buffer has room for. *)
Lemma PeekStream_loop_fits first reads buffers buffer sniffers md e :
  (length buffer ≤ PacketSize)%nat →
  (length (pk_buffer (PeekStream_loop first reads buffers buffer sniffers md e)) ≤ PacketSize)%nat.
Proof.
  revert first buffer md e. induction reads as [|[err|err|b] reads IH]; intros first buffer md e Hb;
    cbn -[stream_data Nat.eqb Nat.sub].
  - by destruct first.
  - done.
  - by destruct (Nat.eqb _ 0), first.
  - destruct (Nat.eqb _ 0); [by destruct first|].
    assert (length (buffer ++ take (PacketSize - length buffer) b) ≤ PacketSize)%nat
      by (rewrite length_app, length_take; lia).
    destruct (run_stream_sniffers _ _ _ _) as [[[] [err|]] md']; [done..| |done].
    destruct (errors_Is err ErrNeedMoreData); [|done].
    destruct (drop _ b); [by apply IH|done].
Qed.

(** What a sniff of a stream keeps and what is left to read are what was there to read. *)
Lemma actionSniff_stream_conserves action reads inputBuffers md buffer md' reads' :
  actionSniff_stream action reads inputBuffers md = (buffer, md', reads') →
  default [] buffer ++ stream_data reads' = stream_data reads.
Proof.
  unfold actionSniff_stream.
  destruct (sniff_skipped md); [by intros [= <- <- <-]|].
  destruct (_ && _); [by intros [= <- <- <-]|].
  destruct (sniff_failed_before action md); [by intros [= <- <- <-]|].
  intros [= <- _ <-]. unfold PeekStream.
  pose proof (PeekStream_loop_conserves true reads inputBuffers []
    (default_stream_sniffers action) md None) as Hc. cbn in Hc.
  destruct (pk_buffer _); done.
Qed.

Lemma sniff_reads_conserves action reads packets md err packets' reads' fatal md' :
  sniff_reads action reads packets md = (err, packets', reads', fatal, md') →
  packets' ++ packet_data reads' = packets ++ packet_data reads.
Proof.
  revert packets md. induction reads as [|[b d|e|e] reads IH]; intros packets md; cbn.
  - by intros [= _ <- <- _ _].
  - destruct (sniff_packet action b md) as [err1 md1]. destruct (needs_more err1).
    + intros Hr%IH. by rewrite Hr, <-app_assoc.
    + intros [= _ <- <- _ _]. by rewrite <-app_assoc.
  - destruct (errors_Is _ _); by intros [= _ <- <- _ _].
  - by intros [= _ <- <- _ _].
Qed.

End SniffingTheorems.
