(* ===== verification/Ja3.v ===== *)
(** * The ClientHello parser (common/ja3)

    A TLS record with a ClientHello, as the QUIC sniffer puts it together, is parsed by indexing into
    its bytes.  An index past the end is the panic of Go; the checks of the parser are there to
    exclude it. *)

From stdpp Require Import base gmap strings list numbers sorting pretty.
From S2P Require Import Prelude GoStd Netip GoIO.

Local Open Scope Z_scope.

(** ** Indexing *)

Definition out_of_range : list arg := [AStr "index out of range"].

(** [l[i]], [uint16(l[i])<<8 | uint16(l[i+1])] (and [binary.BigEndian.Uint16(l[i:])]), and
    [l[n:]]. *)
Definition idx (l : list byte) (i : nat) : res Z :=
  match l !! i with Some b => Ok (byte_Z b) | None => Panic out_of_range end.
Definition idx16 (l : list byte) (i : nat) : res Z :=
  h ← idx l i; b ← idx l (i + 1); Ok (Z.lor (Z.shiftl h 8) b).
Definition slice_from (l : list byte) (n : nat) : res (list byte) :=
  if Nat.leb n (length l) then Ok (drop n l) else Panic out_of_range.

(** The number at every second index, from [i] on, [n] times. *)
Fixpoint idx16s (n : nat) (l : list byte) (i : nat) : res (list Z) :=
  match n with
  | O => Ok []
  | S n => v ← idx16 l i; vs ← idx16s n l (i + 2); Ok (v :: vs)
  end.

(** ** Data *)

(** The errors of the parser, by the check that failed.

    [common/ja3/error.go:21-31] ParseError *)
Definition ParseError (errType : string) (check : Z) : error := E_New [AStr errType; AInt check].
Definition LengthErr : string := "length check %v failed".
Definition ContentTypeErr : string := "content type not matching".
Definition VersionErr : string := "version check %v failed".
Definition HandshakeTypeErr : string := "handshake type not matching".
Definition SNITypeErr : string := "SNI type not supported".

(** Without the cached text and hash.

    [common/ja3/ja3.go:16-27] ClientHello *)
Record ClientHello : Type := mkClientHello {
  ch_Version : Z;
  ch_CipherSuites : list Z;
  ch_Extensions : list Z;
  ch_EllipticCurves : list Z;
  ch_EllipticCurvePF : list Z;
  ch_Versions : list Z;
  ch_SignatureAlgorithms : list Z;
  ch_ServerName : string
}.

(** What the loop over the extensions gathers.

    [common/ja3/parser.go:174-178] parseExtensions (variables) *)
Record Extensions : Type := mkExtensions {
  ex_sni : list byte;
  ex_extensions : list Z;
  ex_ellipticCurves : list Z;
  ex_ellipticCurvePF : list Z;
  ex_versions : list Z;
  ex_signatureAlgorithms : list Z
}.
#[global] Instance Extensions_settable : Settable Extensions :=
  {| mkT r := mkExtensions (ex_sni r) (ex_extensions r) (ex_ellipticCurves r)
                (ex_ellipticCurvePF r) (ex_versions r) (ex_signatureAlgorithms r) |}.
Definition Extensions_nil : Extensions := mkExtensions [] [] [] [] [] [].

(** [common/ja3/parser.go:14-50] constants *)
Definition contentType : Z := 22.
Definition handshakeType : Z := 1.
Definition sniExtensionType : Z := 0.
Definition ecExtensionType : Z := 10.
Definition ecpfExtensionType : Z := 11.
Definition versionExtensionType : Z := 43.
Definition signatureAlgorithmsExtensionType : Z := 13.
Definition GreaseBitmask : Z := 0x0F0F.

(** [common/ja3/parser.go:66-69] parseSegment (version) *)
Definition supported_version (v : Z) : bool :=
  Z.eqb (Z.land v 0xFFFC) 0x0300 || Z.eqb v 0x0304.

(** ** Parsing *)

(** [common/ja3/parser.go:198-219] parseExtensions (server_name) *)
Definition parse_sni (sex : list byte) (st : Extensions) : res Extensions :=
  if Nat.ltb (length sex) 5 then Err (ParseError LengthErr 13) else
  sniType ← idx sex 2;
  sniLen ← idx16 sex 3;
  sex ← slice_from sex 5;
  if negb (Z.eqb (Z.of_nat (length sex)) sniLen) then Err (ParseError LengthErr 14) else
  if Z.eqb sniType 0 then Ok (st <| ex_sni := sex |>) else Err (ParseError SNITypeErr 0).

(** [common/ja3/parser.go:220-241] parseExtensions (supported_groups) *)
Definition parse_groups (sex : list byte) (st : Extensions) : res Extensions :=
  if Nat.ltb (length sex) 2 then Err (ParseError LengthErr 15) else
  ecsLen ← idx16 sex 0;
  sex ← slice_from sex 2;
  if negb (Z.eqb (Z.of_nat (length sex)) ecsLen) then Err (ParseError LengthErr 16) else
  curves ← idx16s (Z.to_nat (ecsLen / 2)) sex 0;
  Ok (st <| ex_ellipticCurves := curves |>).

(** [common/ja3/parser.go:242-261] parseExtensions (ec_point_formats) *)
Definition parse_point_formats (sex : list byte) (st : Extensions) : res Extensions :=
  if Nat.ltb (length sex) 1 then Err (ParseError LengthErr 17) else
  numPF ← idx sex 0;
  sex ← slice_from sex 1;
  if negb (Z.eqb (Z.of_nat (length sex)) numPF) then Err (ParseError LengthErr 18) else
  Ok (st <| ex_ellipticCurvePF := byte_Z <$> sex |>).

(** A loop [for i := 0; i < n; i += 2] makes [(n + 1) / 2] turns.

    [common/ja3/parser.go:262-269] parseExtensions (supported_versions) *)
Definition parse_versions (sex : list byte) (st : Extensions) : res Extensions :=
  if Nat.ltb (length sex) 1 then Err (ParseError LengthErr 19) else
  versionsLen ← idx sex 0;
  sex ← slice_from sex 1;
  versions ← idx16s (Z.to_nat ((versionsLen + 1) / 2)) sex 0;
  Ok (st <| ex_versions := ex_versions st ++ versions |>).

(** [common/ja3/parser.go:270-277] parseExtensions (signature_algorithms) *)
Definition parse_signature_algorithms (sex : list byte) (st : Extensions) : res Extensions :=
  if Nat.ltb (length sex) 2 then Err (ParseError LengthErr 20) else
  ssaLen ← idx16 sex 0;
  sex ← slice_from sex 2;
  algorithms ← idx16s (Z.to_nat ((ssaLen + 1) / 2)) sex 0;
  Ok (st <| ex_signatureAlgorithms := ex_signatureAlgorithms st ++ algorithms |>).

(** [common/ja3/parser.go:197-278] parseExtensions (switch) *)
Definition parse_extension (exType : Z) (sex : list byte) (st : Extensions) : res Extensions :=
  if Z.eqb exType sniExtensionType then parse_sni sex st else
  if Z.eqb exType ecExtensionType then parse_groups sex st else
  if Z.eqb exType ecpfExtensionType then parse_point_formats sex st else
  if Z.eqb exType versionExtensionType then parse_versions sex st else
  if Z.eqb exType signatureAlgorithmsExtensionType then parse_signature_algorithms sex st else
  Ok st.

(** The loop; [4+exLen] is computed in 16 bits.

    [common/ja3/parser.go:179-280] parseExtensions (loop) *)
Fixpoint parseExtensions_loop (fuel : nat) (exs : list byte) (st : Extensions) : res Extensions :=
  match fuel with
  | O => Panic [AStr "out of fuel"]
  | S fuel =>
      if negb (nonempty exs) then Ok st else
      if Nat.ltb (length exs) 4 then Err (ParseError LengthErr 11) else
      exType ← idx16 exs 0;
      exLen ← idx16 exs 2;
      let st := st <| ex_extensions := ex_extensions st ++ [exType] |> in
      if Z.ltb (Z.of_nat (length exs)) (4 + exLen) then Err (ParseError LengthErr 12) else
      st ← parse_extension exType (take (Z.to_nat exLen) (drop 4 exs)) st;
      exs ← slice_from exs (Z.to_nat (u16 (4 + exLen)));
      parseExtensions_loop fuel exs st
  end.

(** [common/ja3/parser.go:155-288] parseExtensions *)
Definition parseExtensions (exs : list byte) : res Extensions :=
  if negb (nonempty exs) then Ok Extensions_nil else
  if Nat.ltb (length exs) 2 then Err (ParseError LengthErr 9) else
  exsLen ← idx16 exs 0;
  exs ← slice_from exs 2;
  if Z.ltb (Z.of_nat (length exs)) exsLen then Err (ParseError LengthErr 10) else
  parseExtensions_loop (S (length exs)) exs Extensions_nil.

(** The cipher suites and the compression methods; what is left are the extensions.

    [common/ja3/parser.go:117-147] parseHandshake (cipher suites) *)
Definition parse_ciphers (cs : list byte) : res (list Z * list byte) :=
  if Nat.ltb (length cs) 2 then Err (ParseError LengthErr 6) else
  csLen ← idx16 cs 0;
  let numCiphers := Z.to_nat (csLen / 2) in
  if Z.ltb (Z.of_nat (length cs)) (2 + csLen + 1) then Err (ParseError LengthErr 7) else
  cipherSuites ← idx16s numCiphers cs 2;
  compressMethodLen ← idx cs (Z.to_nat (2 + csLen));
  if Z.ltb (Z.of_nat (length cs)) (2 + csLen + 1 + compressMethodLen)
  then Err (ParseError LengthErr 8) else
  exs ← slice_from cs (Z.to_nat (2 + csLen + 1 + compressMethodLen));
  Ok (cipherSuites, exs).

(** [common/ja3/parser.go:85-152] parseHandshake *)
Definition parseHandshake (hs : list byte) : res ClientHello :=
  if Nat.ltb (length hs) (6 + 32 + 1) then Err (ParseError LengthErr 3) else
  handshType ← idx hs 0;
  if negb (Z.eqb handshType handshakeType) then Err (ParseError HandshakeTypeErr 0) else
  h1 ← idx hs 1;
  h2 ← idx hs 2;
  h3 ← idx hs 3;
  let handshakeLen := Z.lor (Z.lor (Z.shiftl h1 16) (Z.shiftl h2 8)) h3 in
  rest ← slice_from hs 4;
  if negb (Z.eqb (Z.of_nat (length rest)) handshakeLen) then Err (ParseError LengthErr 4) else
  tlsVersion ← idx16 hs 4;
  if negb (supported_version tlsVersion) then Err (ParseError VersionErr 2) else
  sessionIDLen ← idx hs 38;
  if Z.ltb (Z.of_nat (length hs)) (6 + 32 + 1 + sessionIDLen)
  then Err (ParseError LengthErr 5) else
  cs ← slice_from hs (Z.to_nat (6 + 32 + 1 + sessionIDLen));
  '(cipherSuites, exs) ← parse_ciphers cs;
  st ← parseExtensions exs;
  Ok (mkClientHello tlsVersion cipherSuites (ex_extensions st) (ex_ellipticCurves st)
        (ex_ellipticCurvePF st) (ex_versions st) (ex_signatureAlgorithms st)
        (string_of_bytes (ex_sni st))).

(** The bytes after the handshake are other records, and ignored.

    [common/ja3/parser.go:53-82] parseSegment *)
Definition parseSegment (segment : list byte) : res ClientHello :=
  if Nat.ltb (length segment) 5 then Err (ParseError LengthErr 1) else
  contType ← idx segment 0;
  if negb (Z.eqb contType contentType) then Err (ParseError ContentTypeErr 0) else
  tlsRecordVersion ← idx16 segment 1;
  if negb (supported_version tlsRecordVersion) then Err (ParseError VersionErr 1) else
  segmentLen ← idx16 segment 3;
  rest ← slice_from segment 5;
  if Z.ltb (Z.of_nat (length rest)) segmentLen then Err (ParseError LengthErr 2) else
  parseHandshake (take (Z.to_nat segmentLen) rest).

(** [common/ja3/ja3.go:61-65] Compute *)
Definition Compute (payload : list byte) : res ClientHello := parseSegment payload.

(** ** Comparing and printing *)

(** [slices.Sort] on [uint16]. *)
Definition sort_u16 (l : list Z) : list Z := merge_sort Z.le l.

(** [common/ja3/ja3.go:54-59] (ClientHello).sortedExtensions *)
Definition sortedExtensions (j : ClientHello) : list Z := sort_u16 (ch_Extensions j).

(** [common/ja3/ja3.go:29-52] (ClientHello).Equals *)
Definition Equals (j another : ClientHello) (ignoreExtensionsSequence : bool) : bool :=
  Z.eqb (ch_Version j) (ch_Version another) &&
  bool_decide (ch_CipherSuites j = ch_CipherSuites another) &&
  (if ignoreExtensionsSequence
   then bool_decide (ch_Extensions j = sortedExtensions another)
   else bool_decide (ch_Extensions j = ch_Extensions another)) &&
  bool_decide (ch_EllipticCurves j = ch_EllipticCurves another) &&
  bool_decide (ch_EllipticCurvePF j = ch_EllipticCurvePF another) &&
  bool_decide (ch_SignatureAlgorithms j = ch_SignatureAlgorithms another).

(** [byteString[len(byteString)-1] = b] *)
Definition set_last (l : list byte) (b : byte) : list byte := take (length l - 1) l ++ [b].
Definition dashByte : byte := Z_byte 45.
Definition commaByte : byte := Z_byte 44.
Definition AppendUint (l : list byte) (v : Z) : list byte := l ++ bytes_of_string (pretty v).

(** The values that the mask leaves, each followed by a dash; the last byte becomes a comma.

    [common/ja3/parser.go:301-314] marshalJA3 (cipher suites) *)
Definition marshal_list (byteString : list byte) (vals : list Z) : list byte :=
  if nonempty vals then
    set_last
      (fold_left (λ byteString val,
         if negb (Z.eqb (Z.land val GreaseBitmask) 0x0A0A) then byteString
         else AppendUint byteString val ++ [dashByte]) vals byteString) commaByte
  else byteString ++ [commaByte].

(** [common/ja3/parser.go:291-357] marshalJA3 *)
Definition marshalJA3 (j : ClientHello) : list byte :=
  let byteString := AppendUint [] (ch_Version j) ++ [commaByte] in
  let byteString := marshal_list byteString (ch_CipherSuites j) in
  let byteString := marshal_list byteString (ch_Extensions j) in
  let byteString := marshal_list byteString (ch_EllipticCurves j) in
  if nonempty (ch_EllipticCurvePF j) then
    let byteString := fold_left (λ byteString val, AppendUint byteString val ++ [dashByte])
                        (ch_EllipticCurvePF j) byteString in
    take (length byteString - 1) byteString
  else byteString.

(** ** What the parser reads: a reference encoder

    A ClientHello of RFC 8446 with the extensions that the parser looks into, written as bytes. *)

Inductive Extension : Type :=
| EServerName (name : list byte)
| ESupportedGroups (groups : list Z)
| EPointFormats (formats : list Z)
| ESupportedVersions (versions : list Z)
| ESignatureAlgorithms (algorithms : list Z)
| EOther (type : Z) (data : list byte).

Definition be16s (l : list Z) : list byte := concat (be_bytes 2 <$> l).

Definition ext_type (e : Extension) : Z :=
  match e with
  | EServerName _ => 0 | ESupportedGroups _ => 10 | EPointFormats _ => 11
  | ESupportedVersions _ => 43 | ESignatureAlgorithms _ => 13 | EOther t _ => t
  end.
Definition ext_data (e : Extension) : list byte :=
  match e with
  | EServerName n =>
      be_bytes 2 (Z.of_nat (length n) + 3) ++ [Z_byte 0] ++ be_bytes 2 (Z.of_nat (length n)) ++ n
  | ESupportedGroups l => be_bytes 2 (2 * Z.of_nat (length l)) ++ be16s l
  | EPointFormats l => Z_byte (Z.of_nat (length l)) :: (Z_byte <$> l)
  | ESupportedVersions l => Z_byte (2 * Z.of_nat (length l)) :: be16s l
  | ESignatureAlgorithms l => be_bytes 2 (2 * Z.of_nat (length l)) ++ be16s l
  | EOther _ data => data
  end.
Definition ext_bytes (e : Extension) : list byte :=
  be_bytes 2 (ext_type e) ++ be_bytes 2 (Z.of_nat (length (ext_data e))) ++ ext_data e.

Record Hello : Type := mkHello {
  he_record_version : Z;
  he_version : Z;
  he_random : list byte;
  he_session_id : list byte;
  he_ciphers : list Z;
  he_compression : list byte;
  he_extensions : list Extension
}.

Definition hello_extensions (h : Hello) : list byte := concat (ext_bytes <$> he_extensions h).
Definition hello_body (h : Hello) : list byte :=
  be_bytes 2 (he_version h) ++ he_random h ++
  [Z_byte (Z.of_nat (length (he_session_id h)))] ++ he_session_id h ++
  be_bytes 2 (2 * Z.of_nat (length (he_ciphers h))) ++ be16s (he_ciphers h) ++
  [Z_byte (Z.of_nat (length (he_compression h)))] ++ he_compression h ++
  be_bytes 2 (Z.of_nat (length (hello_extensions h))) ++ hello_extensions h.
Definition hello_handshake (h : Hello) : list byte :=
  [Z_byte 1] ++ be_bytes 3 (Z.of_nat (length (hello_body h))) ++ hello_body h.
Definition hello_record (h : Hello) : list byte :=
  [Z_byte 22] ++ be_bytes 2 (he_record_version h) ++
  be_bytes 2 (Z.of_nat (length (hello_handshake h))) ++ hello_handshake h.

(** What there is to read in the extensions. *)
Definition ext_read (st : Extensions) (e : Extension) : Extensions :=
  let st := st <| ex_extensions := ex_extensions st ++ [ext_type e] |> in
  match e with
  | EServerName n => st <| ex_sni := n |>
  | ESupportedGroups l => st <| ex_ellipticCurves := l |>
  | EPointFormats l => st <| ex_ellipticCurvePF := l |>
  | ESupportedVersions l => st <| ex_versions := ex_versions st ++ l |>
  | ESignatureAlgorithms l => st <| ex_signatureAlgorithms := ex_signatureAlgorithms st ++ l |>
  | EOther _ _ => st
  end.
Definition hello_read (h : Hello) : ClientHello :=
  let st := fold_left ext_read (he_extensions h) Extensions_nil in
  mkClientHello (he_version h) (he_ciphers h) (ex_extensions st) (ex_ellipticCurves st)
    (ex_ellipticCurvePF st) (ex_versions st) (ex_signatureAlgorithms st)
    (string_of_bytes (ex_sni st)).

(** Extensions of other types, and values of their widths. *)
Definition ext_ok (e : Extension) : Prop :=
  match e with
  | EServerName _ => True
  | ESupportedGroups l | ESignatureAlgorithms l => Forall (is_u 16) l
  | EPointFormats l => Forall (is_u 8) l ∧ Z.of_nat (length l) < 256
  | ESupportedVersions l => Forall (is_u 16) l ∧ 2 * Z.of_nat (length l) < 256
  | EOther t _ => is_u 16 t ∧ t ∉ [0; 10; 11; 43; 13]
  end.
Record hello_ok (h : Hello) : Prop := {
  ok_record_version : is_u 16 (he_record_version h) ∧ supported_version (he_record_version h) = true;
  ok_version : is_u 16 (he_version h) ∧ supported_version (he_version h) = true;
  ok_random : length (he_random h) = 32%nat;
  ok_session_id : Z.of_nat (length (he_session_id h)) < 256;
  ok_ciphers : Forall (is_u 16) (he_ciphers h);
  ok_compression : Z.of_nat (length (he_compression h)) < 256;
  ok_extensions : Forall ext_ok (he_extensions h);
  ok_length : Z.of_nat (length (hello_handshake h)) < 2 ^ 16
}.

(** ** Lemmas on indexing *)

Lemma idx_app_r l k i : (length l ≤ i)%nat → idx (l ++ k) i = idx k (i - length l).
Proof. intros Hi. unfold idx. by rewrite lookup_app_r. Qed.

Lemma idx_0 b l : idx (b :: l) 0 = Ok (byte_Z b).
Proof. done. Qed.

Lemma idx16_app_r l k i : (length l ≤ i)%nat → idx16 (l ++ k) i = idx16 k (i - length l).
Proof.
  intros Hi. unfold idx16. rewrite !idx_app_r by lia.
  by replace (i + 1 - length l)%nat with (i - length l + 1)%nat by lia.
Qed.

Lemma idx16_be v l : is_u 16 v → idx16 (be_bytes 2 v ++ l) 0 = Ok v.
Proof.
  intros Hv. pose proof (be_roundtrip 2 v Hv) as Hr. unfold be_val in Hr.
  cbn [be_bytes fold_left] in Hr. unfold idx16, idx.
  cbn [be_bytes app lookup list_lookup Nat.add mbind res_bind]. f_equal.
  rewrite Z.lor_comm, lor_shiftl_add; [|lia|apply byte_Z_range]. rewrite <-Hr at 3.
  change (2 ^ 8) with 256. lia.
Qed.

Lemma slice_from_app l k n : n = length l → slice_from (l ++ k) n = Ok k.
Proof.
  intros ->. unfold slice_from. rewrite length_app, drop_app_length.
  by rewrite (proj2 (Nat.leb_le _ _)) by lia.
Qed.

Lemma be16s_app l : length (be16s l) = (2 * length l)%nat.
Proof. apply be16s_length. Qed.

Lemma idx16s_be l p k i : i = length p → Forall (is_u 16) l →
  idx16s (length l) (p ++ be16s l ++ k) i = Ok l.
Proof.
  intros ->. revert p. induction l as [|v l IH]; intros p Hl; [done|].
  apply List.Forall_cons_iff in Hl as [Hv Hl]. cbn [length idx16s].
  change (be16s (v :: l)) with (be_bytes 2 v ++ be16s l).
  rewrite idx16_app_r, Nat.sub_diag, <-app_assoc, idx16_be by done. cbn [mbind res_bind].
  specialize (IH (p ++ be_bytes 2 v) Hl). rewrite length_app, be_bytes_length, <-app_assoc in IH.
  by rewrite IH.
Qed.

Lemma idx16s_be0 l : Forall (is_u 16) l → idx16s (length l) (be16s l) 0 = Ok l.
Proof. intros Hl. rewrite <-(app_nil_r (be16s l)). by apply (idx16s_be l []). Qed.

Lemma half_even n : 0 ≤ n → Z.to_nat (2 * n / 2) = Z.to_nat n.
Proof. intros. f_equal. rewrite Z.mul_comm. apply Z.div_mul. lia. Qed.
Lemma half_up_even n : 0 ≤ n → Z.to_nat ((2 * n + 1) / 2) = Z.to_nat n.
Proof. intros. f_equal. symmetry. apply (Z.div_unique _ 2 n 1); lia. Qed.

(** ** Every extension is read *)

Lemma read_groups l st : Forall (is_u 16) l → 2 * Z.of_nat (length l) < 2 ^ 16 →
  parse_groups (ext_data (ESupportedGroups l)) st = Ok (st <| ex_ellipticCurves := l |>).
Proof.
  intros Hl Hn. unfold parse_groups. cbn [ext_data].
  assert (Nat.ltb (length (be_bytes 2 (2 * Z.of_nat (length l)) ++ be16s l)) 2 = false) as ->.
  { apply Nat.ltb_ge. rewrite length_app, be_bytes_length. lia. }
  rewrite idx16_be by (unfold is_u; lia). cbn [mbind res_bind].
  rewrite slice_from_app by (by rewrite be_bytes_length). cbn [mbind res_bind].
  rewrite be16s_app, (proj2 (Z.eqb_eq _ _)) by lia. cbn [negb].
  rewrite half_even, Nat2Z.id, idx16s_be0 by (done || lia). done.
Qed.


Lemma read_sni n st : Z.of_nat (length n) + 3 < 2 ^ 16 →
  parse_sni (ext_data (EServerName n)) st = Ok (st <| ex_sni := n |>).
Proof.
  intros Hn. unfold parse_sni. cbn [ext_data]. set (len := Z.of_nat (length n)) in *.
  assert (Nat.ltb (length (be_bytes 2 (len + 3) ++ [Z_byte 0] ++ be_bytes 2 len ++ n)) 5 = false)
    as ->. { apply Nat.ltb_ge. rewrite !length_app, !be_bytes_length. cbn. lia. }
  rewrite idx_app_r by (by rewrite be_bytes_length).
  rewrite be_bytes_length. cbn [Nat.sub app]. rewrite idx_0, byte_Z_small by lia.
  cbn [mbind res_bind].
  rewrite idx16_app_r by (rewrite be_bytes_length; lia). rewrite be_bytes_length. cbn [Nat.sub].
  change (Z_byte 0 :: ?l) with ([Z_byte 0] ++ l).
  rewrite idx16_app_r by done. cbn [Nat.sub length].
  rewrite idx16_be by (unfold is_u, len; lia). cbn [mbind res_bind].
  rewrite app_assoc, (app_assoc _ (be_bytes 2 len)), slice_from_app
    by (rewrite !length_app, !be_bytes_length; done). cbn [mbind res_bind].
  rewrite (proj2 (Z.eqb_eq _ _)) by done. done.
Qed.

Lemma read_point_formats l st : Forall (is_u 8) l → Z.of_nat (length l) < 256 →
  parse_point_formats (ext_data (EPointFormats l)) st = Ok (st <| ex_ellipticCurvePF := l |>).
Proof.
  intros Hl Hn. unfold parse_point_formats. cbn [ext_data length Nat.ltb Nat.leb].
  rewrite idx_0, byte_Z_small by lia. cbn [mbind res_bind].
  change (Z_byte ?a :: ?l) with ([Z_byte a] ++ l).
  rewrite slice_from_app by done. cbn [mbind res_bind].
  rewrite length_fmap, (proj2 (Z.eqb_eq _ _)) by done. cbn [negb].
  assert (byte_Z <$> (Z_byte <$> l) = l) as ->; [|done].
  clear Hn. induction Hl as [|v l Hv _ IH]; [done|]. rewrite !fmap_cons, IH.
  by rewrite byte_Z_small by exact Hv.
Qed.

Lemma read_versions l st : Forall (is_u 16) l → 2 * Z.of_nat (length l) < 256 →
  parse_versions (ext_data (ESupportedVersions l)) st
  = Ok (st <| ex_versions := ex_versions st ++ l |>).
Proof.
  intros Hl Hn. unfold parse_versions. cbn [ext_data length Nat.ltb Nat.leb].
  rewrite idx_0, byte_Z_small by lia. cbn [mbind res_bind].
  change (Z_byte ?a :: ?l) with ([Z_byte a] ++ l).
  rewrite slice_from_app by done. cbn [mbind res_bind].
  rewrite half_up_even, Nat2Z.id, idx16s_be0 by (done || lia). done.
Qed.

Lemma read_signature_algorithms l st : Forall (is_u 16) l → 2 * Z.of_nat (length l) < 2 ^ 16 →
  parse_signature_algorithms (ext_data (ESignatureAlgorithms l)) st
  = Ok (st <| ex_signatureAlgorithms := ex_signatureAlgorithms st ++ l |>).
Proof.
  intros Hl Hn. unfold parse_signature_algorithms. cbn [ext_data].
  assert (Nat.ltb (length (be_bytes 2 (2 * Z.of_nat (length l)) ++ be16s l)) 2 = false) as ->.
  { apply Nat.ltb_ge. rewrite length_app, be_bytes_length. lia. }
  rewrite idx16_be by (unfold is_u; lia). cbn [mbind res_bind].
  rewrite slice_from_app by (by rewrite be_bytes_length). cbn [mbind res_bind].
  rewrite half_up_even, Nat2Z.id, idx16s_be0 by (done || lia). done.
Qed.

Lemma read_extension e st : ext_ok e → Z.of_nat (length (ext_data e)) < 2 ^ 16 →
  parse_extension (ext_type e) (ext_data e)
    (st <| ex_extensions := ex_extensions st ++ [ext_type e] |>) = Ok (ext_read st e).
Proof.
  intros He Hn. destruct e as [n|l|l|l|l|t d]; cbn [ext_type ext_ok] in *.
  - apply read_sni. cbn [ext_data] in Hn. rewrite !length_app, !be_bytes_length in Hn.
    cbn in Hn. lia.
  - apply read_groups; [done|]. cbn [ext_data] in Hn.
    rewrite length_app, be_bytes_length, be16s_app in Hn. lia.
  - apply read_point_formats; apply He.
  - apply read_versions; apply He.
  - apply read_signature_algorithms; [done|]. cbn [ext_data] in Hn.
    rewrite length_app, be_bytes_length, be16s_app in Hn. lia.
  - destruct He as [_ Ht]. unfold parse_extension, sniExtensionType, ecExtensionType,
      ecpfExtensionType, versionExtensionType, signatureAlgorithmsExtensionType.
    by rewrite !(proj2 (Z.eqb_neq t _)) by (intros ->; by apply Ht; set_solver).
Qed.

(** ** The whole record *)

Lemma ext_bytes_length e : length (ext_bytes e) = (4 + length (ext_data e))%nat.
Proof. unfold ext_bytes. rewrite !length_app, !be_bytes_length. lia. Qed.

Lemma read_extensions l : ∀ fuel st,
  Forall ext_ok l → Z.of_nat (length (concat (ext_bytes <$> l))) < 2 ^ 16 →
  (length (concat (ext_bytes <$> l)) < fuel)%nat →
  parseExtensions_loop fuel (concat (ext_bytes <$> l)) st = Ok (fold_left ext_read l st).
Proof.
  induction l as [|e l IH]; intros [|fuel] st Hl Hn Hf; [lia|done|lia|].
  apply List.Forall_cons_iff in Hl as [He Hl].
  change (concat (ext_bytes <$> e :: l)) with (ext_bytes e ++ concat (ext_bytes <$> l)) in *.
  rewrite length_app, ext_bytes_length in Hn, Hf.
  cbn [parseExtensions_loop fold_left].
  set (exs := ext_bytes e ++ concat (ext_bytes <$> l)).
  assert (length exs = (4 + length (ext_data e) + length (concat (ext_bytes <$> l)))%nat) as Hlen
    by (unfold exs; by rewrite length_app, ext_bytes_length).
  assert (nonempty exs = true) as -> by (destruct exs; [cbn in Hlen; lia|done]). cbn [negb].
  rewrite (proj2 (Nat.ltb_ge _ _)) by lia.
  assert (exs = be_bytes 2 (ext_type e) ++ be_bytes 2 (Z.of_nat (length (ext_data e))) ++
    ext_data e ++ concat (ext_bytes <$> l)) as Hexs by (unfold exs, ext_bytes; by rewrite <-!app_assoc).
  assert (is_u 16 (ext_type e)) as Ht by (destruct e; [done..|apply He]).
  rewrite Hexs at 1. rewrite idx16_be by done. cbn [mbind res_bind].
  rewrite Hexs at 1. rewrite idx16_app_r by (by rewrite be_bytes_length).
  rewrite be_bytes_length, Nat.sub_diag, idx16_be by (unfold is_u; lia). cbn [mbind res_bind].
  rewrite (proj2 (Z.ltb_ge _ _)) by lia. rewrite Nat2Z.id.
  assert (take (length (ext_data e)) (drop 4 exs) = ext_data e) as ->.
  { rewrite Hexs, app_assoc, drop_app_length', take_app_length; [done|].
    rewrite length_app, !be_bytes_length. done. }
  rewrite read_extension by (done || lia). cbn [mbind res_bind].
  assert (u16 (4 + Z.of_nat (length (ext_data e))) = 4 + Z.of_nat (length (ext_data e))) as ->
    by (apply Z.mod_small; lia).
  unfold exs at 1. rewrite slice_from_app by (rewrite ext_bytes_length; lia). cbn [mbind res_bind].
  apply IH; [done|lia|lia].
Qed.

Lemma read_all_extensions l :
  Forall ext_ok l → 2 + Z.of_nat (length (concat (ext_bytes <$> l))) < 2 ^ 16 →
  parseExtensions (be_bytes 2 (Z.of_nat (length (concat (ext_bytes <$> l)))) ++
    concat (ext_bytes <$> l)) = Ok (fold_left ext_read l Extensions_nil).
Proof.
  intros Hl Hn. unfold parseExtensions. set (b := concat (ext_bytes <$> l)) in *.
  assert (nonempty (be_bytes 2 (Z.of_nat (length b)) ++ b) = true) as -> by done. cbn [negb].
  rewrite (proj2 (Nat.ltb_ge _ _)) by (rewrite length_app, be_bytes_length; lia).
  rewrite idx16_be by (unfold is_u; lia). cbn [mbind res_bind].
  rewrite slice_from_app by (by rewrite be_bytes_length). cbn [mbind res_bind].
  rewrite (proj2 (Z.ltb_ge _ _)) by lia. apply read_extensions; [done|fold b; lia|fold b; lia].
Qed.

Lemma read_ciphers ciphers compression exs :
  Forall (is_u 16) ciphers → 2 * Z.of_nat (length ciphers) < 2 ^ 16 →
  Z.of_nat (length compression) < 256 →
  parse_ciphers (be_bytes 2 (2 * Z.of_nat (length ciphers)) ++ be16s ciphers ++
    [Z_byte (Z.of_nat (length compression))] ++ compression ++ exs) = Ok (ciphers, exs).
Proof.
  intros Hc Hn Hm. unfold parse_ciphers. set (n := 2 * Z.of_nat (length ciphers)) in *.
  set (m := Z.of_nat (length compression)) in *.
  set (cs := be_bytes 2 n ++ _).
  assert (length cs = (2 + 2 * length ciphers + 1 + length compression + length exs)%nat) as Hlen.
  { unfold cs. rewrite !length_app, be_bytes_length, be16s_app. cbn. lia. }
  rewrite (proj2 (Nat.ltb_ge _ _)) by lia.
  assert (idx16 cs 0 = Ok n) as -> by (apply idx16_be; unfold is_u, n; lia).
  cbn [mbind res_bind]. rewrite (proj2 (Z.ltb_ge _ _)) by lia.
  assert (idx16s (Z.to_nat (n / 2)) cs 2 = Ok ciphers) as ->.
  { unfold n. rewrite half_even, Nat2Z.id by lia. by apply idx16s_be. }
  cbn [mbind res_bind].
  assert (length (be_bytes 2 n ++ be16s ciphers) = Z.to_nat (2 + n)) as Hpre
    by (rewrite length_app, be_bytes_length, be16s_app; lia).
  assert (idx cs (Z.to_nat (2 + n)) = Ok m) as ->.
  { unfold cs. rewrite app_assoc, idx_app_r, Hpre, Nat.sub_diag by lia. cbn [app].
    rewrite idx_0, byte_Z_small; [done|unfold m; lia]. }
  cbn [mbind res_bind]. rewrite (proj2 (Z.ltb_ge _ _)) by lia. unfold cs.
  rewrite !app_assoc, slice_from_app; [done|].
  rewrite length_app, length_app, Hpre. cbn. lia.
Qed.

Lemma idx24_be v l : 0 ≤ v < 2 ^ 24 →
  ∃ h1 h2 h3, idx (be_bytes 3 v ++ l) 0 = Ok h1 ∧ idx (be_bytes 3 v ++ l) 1 = Ok h2 ∧
    idx (be_bytes 3 v ++ l) 2 = Ok h3 ∧
    Z.lor (Z.lor (Z.shiftl h1 16) (Z.shiftl h2 8)) h3 = v.
Proof.
  intros Hv. pose proof (be_roundtrip 3 v Hv) as Hr. unfold be_val in Hr.
  cbn [be_bytes fold_left] in Hr. cbn [be_bytes app].
  set (b1 := Z_byte (Z.shiftr v (8 * Z.of_nat 2))) in *.
  set (b2 := Z_byte (Z.shiftr v (8 * Z.of_nat 1))) in *.
  set (b3 := Z_byte (Z.shiftr v (8 * Z.of_nat 0))) in *.
  exists (byte_Z b1), (byte_Z b2), (byte_Z b3). split_and!; [done..|].
  pose proof (byte_Z_range b1) as Hb1. pose proof (byte_Z_range b2) as Hb2.
  pose proof (byte_Z_range b3) as Hb3. unfold is_u in *. change (2 ^ 8) with 256 in *.
  rewrite (Z.lor_comm (Z.shiftl (byte_Z b1) 16)), lor_shiftl_add;
    [|lia|rewrite Z.shiftl_mul_pow2 by lia; lia].
  rewrite Z.shiftl_mul_pow2 by lia. rewrite Z.lor_comm.
  replace (byte_Z b2 * 2 ^ 8 + byte_Z b1 * 2 ^ 16) with (Z.shiftl (byte_Z b2 + byte_Z b1 * 256) 8)
    by (rewrite Z.shiftl_mul_pow2 by lia; lia).
  rewrite lor_shiftl_add by lia. lia.
Qed.

Lemma hello_lengths h : hello_ok h →
  length (hello_handshake h) = (4 + length (hello_body h))%nat ∧
  length (hello_body h) = (2 + 32 + 1 + length (he_session_id h) + 2 + 2 * length (he_ciphers h) +
    1 + length (he_compression h) + 2 + length (hello_extensions h))%nat.
Proof.
  intros Hok. unfold hello_handshake. split; [by rewrite !length_app, be_bytes_length|].
  unfold hello_body. rewrite !length_app, !be_bytes_length, be16s_app, (ok_random h Hok). cbn. lia.
Qed.

(** The handshake from the session id on. *)
Definition hello_tail (h : Hello) : list byte :=
  be_bytes 2 (2 * Z.of_nat (length (he_ciphers h))) ++ be16s (he_ciphers h) ++
  [Z_byte (Z.of_nat (length (he_compression h)))] ++ he_compression h ++
  be_bytes 2 (Z.of_nat (length (hello_extensions h))) ++ hello_extensions h.
Lemma hello_split h : hello_ok h → ∃ pre, length pre = 38%nat ∧
  hello_handshake h = pre ++ [Z_byte (Z.of_nat (length (he_session_id h)))] ++
    he_session_id h ++ hello_tail h.
Proof.
  intros Hok. exists (([Z_byte 1] ++ be_bytes 3 (Z.of_nat (length (hello_body h)))) ++
    be_bytes 2 (he_version h) ++ he_random h). split.
  - rewrite !length_app, !be_bytes_length, (ok_random h Hok). done.
  - unfold hello_handshake. rewrite <-!app_assoc. do 2 f_equal.
Qed.

Lemma read_handshake h : hello_ok h → parseHandshake (hello_handshake h) = Ok (hello_read h).
Proof.
  intros Hok. destruct (hello_lengths h Hok) as [Hl1 Hl2]. pose proof (ok_length h Hok) as Hn.
  destruct (ok_version h Hok) as [Hv Hsv]. pose proof (ok_session_id h Hok) as Hsid.
  destruct (hello_split h Hok) as (pre & Hprel & Hpre).
  set (hs := hello_handshake h) in *. set (body := hello_body h) in *.
  unfold parseHandshake. rewrite (proj2 (Nat.ltb_ge _ _)) by lia.
  assert (idx hs 0 = Ok 1) as -> by done. cbn [mbind res_bind Z.eqb Pos.eqb negb].
  destruct (idx24_be (Z.of_nat (length body)) body ltac:(lia)) as (h1 & h2 & h3 & H1 & H2 & H3 & Hlor).
  assert (idx hs 1 = Ok h1) as -> by exact H1. assert (idx hs 2 = Ok h2) as -> by exact H2.
  assert (idx hs 3 = Ok h3) as -> by exact H3. cbn [mbind res_bind]. rewrite Hlor.
  assert (hs = ([Z_byte 1] ++ be_bytes 3 (Z.of_nat (length body))) ++ body) as Hhs
    by (unfold hs, hello_handshake; by rewrite <-app_assoc).
  assert (slice_from hs 4 = Ok body) as -> by (rewrite Hhs; by apply slice_from_app).
  cbn [mbind res_bind]. rewrite Z.eqb_refl. cbn [negb].
  assert (idx16 hs 4 = Ok (he_version h)) as ->.
  { rewrite Hhs, idx16_app_r by done. unfold body, hello_body. rewrite length_app, be_bytes_length.
    apply (idx16_be (he_version h)), Hv. }
  cbn [mbind res_bind]. rewrite Hsv. cbn [negb]. clearbody hs.
  set (sl := Z.of_nat (length (he_session_id h))) in *.
  assert (idx hs 38 = Ok sl) as ->.
  { rewrite Hpre, idx_app_r, Hprel, Nat.sub_diag by lia. cbn [app].
    by rewrite idx_0, byte_Z_small by (unfold sl; lia). }
  cbn [mbind res_bind]. rewrite (proj2 (Z.ltb_ge _ _)) by lia.
  rewrite Hpre, (app_assoc [_]), (app_assoc pre), slice_from_app
    by (rewrite !length_app, Hprel; cbn [length]; lia).
  cbn [mbind res_bind]. unfold hello_tail. rewrite read_ciphers; [|apply Hok|lia|apply Hok].
  cbn [mbind res_bind]. unfold hello_extensions.
  rewrite read_all_extensions; [done|apply Hok|unfold hello_extensions in Hl2; lia].
Qed.

(** C34: the parser recovers a ClientHello from its bytes: for any versions it supports, any cipher
    suites, session id and compression methods, and any sequence of extensions, it reads the server
    name of the last server_name extension, the groups, point formats, versions and signature
    algorithms, and the types of all extensions in order; what follows the record is ignored. *)
Theorem Compute_hello h rest : hello_ok h → Compute (hello_record h ++ rest) = Ok (hello_read h).
Proof.
  intros Hok. pose proof (ok_length h Hok) as Hn. destruct (ok_record_version h Hok) as [Hv Hsv].
  unfold Compute, parseSegment, hello_record. rewrite <-!app_assoc.
  set (hs := hello_handshake h) in *. set (seg := [Z_byte 22] ++ _).
  assert (length seg = (5 + length hs + length rest)%nat) as Hlen.
  { unfold seg. rewrite !length_app, !be_bytes_length. cbn. lia. }
  rewrite (proj2 (Nat.ltb_ge _ _)) by lia.
  assert (idx seg 0 = Ok 22) as -> by done. cbn [mbind res_bind]. rewrite Z.eqb_refl. cbn [negb].
  assert (idx16 seg 1 = Ok (he_record_version h)) as ->.
  { unfold seg. rewrite idx16_app_r by done. by apply idx16_be. }
  cbn [mbind res_bind]. rewrite Hsv. cbn [negb].
  assert (idx16 seg 3 = Ok (Z.of_nat (length hs))) as ->.
  { unfold seg. rewrite app_assoc, idx16_app_r by done. apply idx16_be. unfold is_u. lia. }
  cbn [mbind res_bind].
  assert (slice_from seg 5 = Ok (hs ++ rest)) as ->.
  { unfold seg. rewrite !app_assoc, <-(app_assoc _ hs rest). by apply slice_from_app. }
  cbn [mbind res_bind]. rewrite (proj2 (Z.ltb_ge _ _)) by (rewrite length_app; lia).
  rewrite Nat2Z.id, take_app_length. by apply read_handshake.
Qed.

(** ** Indexes in range *)

Lemma idx_lt l i : (i < length l)%nat → ∃ v, idx l i = Ok v ∧ is_u 8 v.
Proof.
  intros Hi. unfold idx. destruct (lookup_lt_is_Some_2 l i Hi) as [b ->]. eexists. split; [done|].
  apply byte_Z_range.
Qed.

Lemma idx16_lt l i : (i + 1 < length l)%nat → ∃ v, idx16 l i = Ok v ∧ is_u 16 v.
Proof.
  intros Hi. destruct (idx_lt l i ltac:(lia)) as (a & Ha & Hau).
  destruct (idx_lt l (i + 1) Hi) as (b & Hb & Hbu). unfold idx16. rewrite Ha. cbn [mbind res_bind].
  rewrite Hb. eexists. split; [done|]. unfold is_u in *. change (2 ^ 8) with 256 in *.
  rewrite Z.lor_comm, lor_shiftl_add by (change (2 ^ 8) with 256; lia). change (2 ^ 8) with 256. lia.
Qed.

Lemma idx16s_lt n : ∀ l i, (i + 2 * n ≤ length l)%nat → ∃ vs, idx16s n l i = Ok vs.
Proof.
  induction n as [|n IH]; intros l i Hn; [by eexists|]. cbn [idx16s].
  destruct (idx16_lt l i ltac:(lia)) as (v & -> & _). cbn [mbind res_bind].
  destruct (IH l (i + 2)%nat ltac:(lia)) as [vs ->]. by eexists.
Qed.

Lemma slice_from_le l n : (n ≤ length l)%nat → slice_from l n = Ok (drop n l).
Proof. intros Hn. unfold slice_from. by rewrite (proj2 (Nat.leb_le _ _) Hn). Qed.

(** The extensions whose lists are read without a check. *)
Definition unchecked (exType : Z) : Prop :=
  exType = versionExtensionType ∨ exType = signatureAlgorithmsExtensionType.

Lemma parse_sni_safe sex st m : parse_sni sex st ≠ Panic m.
Proof.
  unfold parse_sni. destruct (Nat.ltb_spec (length sex) 5) as [|Hl]; [done|].
  destruct (idx_lt sex 2 ltac:(lia)) as (t & -> & _). cbn [mbind res_bind].
  destruct (idx16_lt sex 3 ltac:(lia)) as (n & -> & _). cbn [mbind res_bind].
  rewrite slice_from_le by lia. cbn [mbind res_bind]. by repeat case_match.
Qed.

Lemma parse_groups_safe sex st m : parse_groups sex st ≠ Panic m.
Proof.
  unfold parse_groups. destruct (Nat.ltb_spec (length sex) 2) as [|Hl]; [done|].
  destruct (idx16_lt sex 0 ltac:(lia)) as (n & -> & Hn). cbn [mbind res_bind].
  rewrite slice_from_le by lia. cbn [mbind res_bind].
  destruct (Z.eqb_spec (Z.of_nat (length (drop 2 sex))) n) as [He|]; [|done]. cbn [negb].
  destruct (idx16s_lt (Z.to_nat (n / 2)) (drop 2 sex) 0) as [vs ->]; [|done].
  pose proof (Z.mul_div_le n 2 ltac:(lia)). unfold is_u in Hn. lia.
Qed.

Lemma parse_point_formats_safe sex st m : parse_point_formats sex st ≠ Panic m.
Proof.
  unfold parse_point_formats. destruct (Nat.ltb_spec (length sex) 1) as [|Hl]; [done|].
  destruct (idx_lt sex 0 ltac:(lia)) as (n & -> & Hn). cbn [mbind res_bind].
  rewrite slice_from_le by lia. cbn [mbind res_bind]. by case_match.
Qed.

Lemma parse_extension_safe t sex st m : parse_extension t sex st = Panic m → unchecked t.
Proof.
  unfold parse_extension. destruct (Z.eqb t sniExtensionType); [by intros []%parse_sni_safe|].
  destruct (Z.eqb t ecExtensionType); [by intros []%parse_groups_safe|].
  destruct (Z.eqb t ecpfExtensionType); [by intros []%parse_point_formats_safe|].
  destruct (Z.eqb_spec t versionExtensionType); [by left|].
  destruct (Z.eqb_spec t signatureAlgorithmsExtensionType); [by right|done].
Qed.

(** Where a panic of the parser comes from. *)
Definition unchecked_panic (m : list arg) : Prop :=
  ∃ t sex st, unchecked t ∧ parse_extension t sex st = Panic m.

Lemma extensions_loop_safe m : ∀ fuel exs st,
  Z.of_nat (length exs) < 2 ^ 16 → (length exs < fuel)%nat →
  parseExtensions_loop fuel exs st = Panic m → unchecked_panic m.
Proof.
  induction fuel as [|fuel IH]; intros exs st Hn Hf; [lia|]. cbn [parseExtensions_loop].
  destruct (negb (nonempty exs)); [done|].
  destruct (Nat.ltb_spec (length exs) 4) as [|Hl]; [done|].
  destruct (idx16_lt exs 0 ltac:(lia)) as (t & -> & _). cbn [mbind res_bind].
  destruct (idx16_lt exs 2 ltac:(lia)) as (n & -> & Hu). cbn [mbind res_bind].
  destruct (Z.ltb_spec (Z.of_nat (length exs)) (4 + n)) as [|Hle]; [done|].
  destruct (parse_extension t _ _) as [st'| |p] eqn:Hp; cbn [mbind res_bind]; [|done|].
  - unfold is_u in Hu. assert (u16 (4 + n) = 4 + n) as -> by (apply Z.mod_small; lia).
    rewrite slice_from_le by lia. cbn [mbind res_bind]. intros Hr.
    apply (IH _ _) in Hr; [done|rewrite length_drop; lia|rewrite length_drop; lia].
  - intros [= <-]. eexists t, _, _. split; [|exact Hp]. by eapply parse_extension_safe.
Qed.

Lemma extensions_safe exs m :
  Z.of_nat (length exs) < 2 ^ 16 → parseExtensions exs = Panic m → unchecked_panic m.
Proof.
  intros Hn. unfold parseExtensions. destruct (negb (nonempty exs)); [done|].
  destruct (Nat.ltb_spec (length exs) 2) as [|Hl]; [done|].
  destruct (idx16_lt exs 0 ltac:(lia)) as (n & -> & _). cbn [mbind res_bind].
  rewrite slice_from_le by lia. cbn [mbind res_bind].
  destruct (Z.ltb _ _); [done|]. apply extensions_loop_safe; rewrite length_drop; lia.
Qed.

Lemma ciphers_safe cs : match parse_ciphers cs with
  | Ok (_, exs) => (length exs ≤ length cs)%nat | Err _ => True | Panic _ => False end.
Proof.
  unfold parse_ciphers. destruct (Nat.ltb_spec (length cs) 2) as [|Hl]; [done|].
  destruct (idx16_lt cs 0 ltac:(lia)) as (n & -> & Hn). cbn [mbind res_bind].
  unfold is_u in Hn. pose proof (Z.mul_div_le n 2 ltac:(lia)).
  destruct (Z.ltb_spec (Z.of_nat (length cs)) (2 + n + 1)) as [|Hle]; [done|].
  destruct (idx16s_lt (Z.to_nat (n / 2)) cs 2 ltac:(lia)) as [vs ->]. cbn [mbind res_bind].
  destruct (idx_lt cs (Z.to_nat (2 + n)) ltac:(lia)) as (c & -> & Hc). cbn [mbind res_bind].
  destruct (Z.ltb_spec (Z.of_nat (length cs)) (2 + n + 1 + c)) as [|Hle2]; [done|].
  rewrite slice_from_le by lia. cbn [mbind res_bind]. rewrite length_drop. lia.
Qed.

Lemma handshake_safe hs m :
  Z.of_nat (length hs) < 2 ^ 16 → parseHandshake hs = Panic m → unchecked_panic m.
Proof.
  intros Hn. unfold parseHandshake. destruct (Nat.ltb_spec (length hs) (6 + 32 + 1)) as [|Hl]; [done|].
  destruct (idx_lt hs 0 ltac:(lia)) as (h0 & -> & _). cbn [mbind res_bind].
  destruct (negb _); [done|].
  destruct (idx_lt hs 1 ltac:(lia)) as (h1 & -> & _). cbn [mbind res_bind].
  destruct (idx_lt hs 2 ltac:(lia)) as (h2 & -> & _). cbn [mbind res_bind].
  destruct (idx_lt hs 3 ltac:(lia)) as (h3 & -> & _). cbn [mbind res_bind].
  rewrite slice_from_le by lia. cbn [mbind res_bind]. destruct (negb _); [done|].
  destruct (idx16_lt hs 4 ltac:(lia)) as (v & -> & _). cbn [mbind res_bind].
  destruct (negb _); [done|].
  destruct (idx_lt hs 38 ltac:(lia)) as (sl & -> & Hsl). cbn [mbind res_bind].
  unfold is_u in Hsl. destruct (Z.ltb_spec (Z.of_nat (length hs)) (6 + 32 + 1 + sl)); [done|].
  rewrite slice_from_le by lia. cbn [mbind res_bind].
  match goal with |- context [parse_ciphers ?cs] => pose proof (ciphers_safe cs) as Hc end.
  destruct (parse_ciphers _) as [[vs exs]| |]; cbn [mbind res_bind]; [|done|done].
  destruct (parseExtensions exs) as [st| |p] eqn:He; cbn [mbind res_bind]; [done..|].
  intros [= <-]. eapply extensions_safe; [|exact He]. rewrite length_drop in Hc. lia.
Qed.

(** Whatever the bytes, the parser never indexes past the end, with two exceptions: the lists of
    the supported_versions and signature_algorithms extensions, whose own length it does not
    check.  In particular the loop over the extensions ends and its 16-bit step never wraps. *)
Theorem Compute_panics payload m : Compute payload = Panic m → unchecked_panic m.
Proof.
  unfold Compute, parseSegment. destruct (Nat.ltb_spec (length payload) 5) as [|Hl]; [done|].
  destruct (idx_lt payload 0 ltac:(lia)) as (c & -> & _). cbn [mbind res_bind].
  destruct (negb _); [done|].
  destruct (idx16_lt payload 1 ltac:(lia)) as (v & -> & _). cbn [mbind res_bind].
  destruct (negb _); [done|].
  destruct (idx16_lt payload 3 ltac:(lia)) as (n & -> & Hn). cbn [mbind res_bind].
  rewrite slice_from_le by lia. cbn [mbind res_bind].
  destruct (Z.ltb _ _); [done|]. apply handshake_safe. rewrite length_take. unfold is_u in Hn. lia.
Qed.

(** ** Concrete records *)

Definition sample_hello (extensions : list Extension) : Hello :=
  mkHello 0x0301 0x0303 (repeat x00 32) [] [0x1301] [x00] extensions.

Definition named_hello : Hello :=
  sample_hello [EServerName (bytes_of_string "a.test"); ESupportedVersions [0x0304]].

Lemma named_hello_ok : hello_ok named_hello.
Proof.
  split; try (split; [unfold is_u; cbn; lia|reflexivity]); try (cbn; lia); try done.
  - repeat constructor; done.
  - constructor; [done|]. constructor; [|constructor]. split; [repeat constructor; done|cbn; lia].
Qed.

Lemma Compute_hello_witness :
  ∃ hello, Compute (hello_record named_hello) = Ok hello ∧ ch_ServerName hello = "a.test"%string.
Proof.
  exists (hello_read named_hello). split; [|reflexivity].
  rewrite <-(app_nil_r (hello_record named_hello)). apply Compute_hello, named_hello_ok.
Defined.

(** One byte of supported_versions that announces more than there is. *)
Definition crafted_hello : list byte :=
  hello_record (sample_hello [EOther versionExtensionType [Z_byte 2]]).

Lemma crafted_panics : Compute crafted_hello = Panic out_of_range.
Proof. vm_compute. reflexivity. Qed.

Lemma Compute_panics_witness : ∃ m, Compute crafted_hello = Panic m ∧ unchecked_panic m.
Proof.
  exists out_of_range. split; [exact crafted_panics|].
  apply (Compute_panics crafted_hello). exact crafted_panics.
Defined.

(** Comparing without the order of the extensions sorts one side only: a hello whose extensions are
    not sorted is not equal to itself. *)
Lemma Equals_unsorted :
  let h := mkClientHello 0x0303 [] [10; 0] [] [] [] [] "" in
  Equals h h false = true ∧ Equals h h true = false.
Proof. vm_compute. done. Qed.

(** The text keeps the GREASE values and drops the others. *)
Lemma marshalJA3_grease :
  string_of_bytes (marshalJA3 (mkClientHello 771 [0x1301; 0x2A2A] [] [] [] [] [] ""))
  = "771,10794,,,"%string.
Proof. vm_compute. reflexivity. Qed.
