(* ===== verification/TlsFragment.v ===== *)
(** * Fragmented ClientHellos (common/tlsfragment)

    The first write of a TLS client is searched for the server name, and cut inside its labels: into
    packets of their own, into TLS records of their own, or both.  The server name is found by a
    parser of its own (index.go), with the place where it is; the writes are made one after the other
    (conn.go).  The random cuts, the list of public suffixes and the connection are parameters. *)

From stdpp Require Import base gmap strings list numbers.
From S2P Require Import Prelude GoStd Netip GoIO Ja3.

Local Open Scope Z_scope.

(** ** Finding the server name *)

(** [common/tlsfragment/index.go:25-29] MyServerName *)
Record MyServerName : Type := mkMyServerName {
  sn_Index : nat;
  sn_Length : Z;
  sn_ServerName : string
}.

(** [common/tlsfragment/index.go:7-23] constants *)
Definition recordLayerHeaderLen : nat := 5.
Definition handshakeHeaderLen : nat := 6.
Definition randomDataLen : nat := 32.
Definition sessionIDHeaderLen : nat := 1.
Definition cipherSuiteHeaderLen : nat := 2.
Definition compressMethodHeaderLen : nat := 1.
Definition extensionsHeaderLen : nat := 2.
Definition extensionHeaderLen : nat := 4.
Definition sniExtensionHeaderLen : nat := 5.

(** A search that is still in its loop when the fuel is used up has no outcome. *)
Definition Search : Type := option (res (option MyServerName)).

(** [common/tlsfragment/index.go:112-127] indexTLSServerNameFromExtensions (server_name) *)
Definition read_server_name (currentIndex : nat) (sex : list byte) : res (option MyServerName) :=
  if Nat.ltb (length sex) sniExtensionHeaderLen then Ok None else
  sniType ← idx sex 2;
  if negb (Z.eqb sniType 0) then Ok None else
  sniLen ← idx16 sex 3;
  sex ← slice_from sex sniExtensionHeaderLen;
  Ok (Some (mkMyServerName (currentIndex + extensionHeaderLen + sniExtensionHeaderLen) sniLen (string_of_bytes sex))).

(** What a turn of the loop does: it returns, or goes on with the rest.  The start of the rest is
    computed in 16 bits.

    [common/tlsfragment/index.go:101-130] indexTLSServerNameFromExtensions (turn) *)
Definition extension_turn (currentIndex : nat) (exs : list byte)
    : res (option MyServerName + nat * list byte) :=
  if Nat.ltb (length exs) extensionHeaderLen then Ok (inl None) else
  exType ← idx16 exs 0;
  exLen ← idx16 exs 2;
  if Z.ltb (Z.of_nat (length exs)) (Z.of_nat extensionHeaderLen + exLen) then Ok (inl None) else
  let sex := take (Z.to_nat exLen) (drop extensionHeaderLen exs) in
  if Z.eqb exType 0 then fmap (M := res) inl (read_server_name currentIndex sex) else
  exs ← slice_from exs (Z.to_nat (u16 (4 + exLen)));
  Ok (inr (currentIndex + (4 + Z.to_nat exLen), exs)%nat).

(** [common/tlsfragment/index.go:100-132] indexTLSServerNameFromExtensions (loop) *)
Fixpoint extensions_loop (fuel : nat) (currentIndex : nat) (exs : list byte) : Search :=
  match fuel with
  | O => None
  | S fuel =>
      if negb (nonempty exs) then Some (Ok None) else
      match extension_turn currentIndex exs with
      | Ok (inl r) => Some (Ok r)
      | Ok (inr (currentIndex, exs)) => extensions_loop fuel currentIndex exs
      | Err e => Some (Err e)
      | Panic p => Some (Panic p)
      end
  end.

(** [common/tlsfragment/index.go:88-133] indexTLSServerNameFromExtensions *)
Definition indexTLSServerNameFromExtensions (fuel : nat) (exs : list byte) : Search :=
  if negb (nonempty exs) then Some (Ok None) else
  if Nat.ltb (length exs) extensionsHeaderLen then Some (Ok None) else
  match (exsLen ← idx16 exs 0; exs ← slice_from exs extensionsHeaderLen; Ok (exsLen, exs)) with
  | Ok (exsLen, exs) =>
      if Z.ltb (Z.of_nat (length exs)) exsLen then Some (Ok None)
      else extensions_loop fuel extensionsHeaderLen exs
  | Err e => Some (Err e)
  | Panic p => Some (Panic p)
  end.

(** Where the extensions begin, when the handshake is a ClientHello.

    [common/tlsfragment/index.go:48-79] indexTLSServerNameFromHandshake (header) *)
Definition extensions_start (handshake : list byte) : res (option nat) :=
  if Nat.ltb (length handshake) (handshakeHeaderLen + randomDataLen + sessionIDHeaderLen) then Ok None else
  handshType ← idx handshake 0;
  if negb (Z.eqb handshType handshakeType) then Ok None else
  h1 ← idx handshake 1; h2 ← idx handshake 2; h3 ← idx handshake 3;
  let handshakeLen := Z.lor (Z.lor (Z.shiftl h1 16) (Z.shiftl h2 8)) h3 in
  rest ← slice_from handshake 4;
  if negb (Z.eqb (Z.of_nat (length rest)) handshakeLen) then Ok None else
  tlsVersion ← idx16 handshake 4;
  if negb (supported_version tlsVersion) then Ok None else
  sessionIDLen ← idx handshake 38;
  let currentIndex := (handshakeHeaderLen + randomDataLen + sessionIDHeaderLen + Z.to_nat sessionIDLen)%nat in
  if Nat.ltb (length handshake) currentIndex then Ok None else
  cipherSuites ← slice_from handshake currentIndex;
  if Nat.ltb (length cipherSuites) cipherSuiteHeaderLen then Ok None else
  csLen ← idx16 cipherSuites 0;
  let header := (cipherSuiteHeaderLen + Z.to_nat csLen)%nat in
  if Nat.ltb (length cipherSuites) (header + compressMethodHeaderLen) then Ok None else
  compressMethodLen ← idx cipherSuites header;
  let currentIndex := (currentIndex + (header + compressMethodHeaderLen + Z.to_nat compressMethodLen))%nat in
  if Nat.ltb (length handshake) currentIndex then Ok None else Ok (Some currentIndex).

(** [serverName.Index += n] *)
Definition index_add (n : nat) (r : Search) : Search :=
  match r with
  | Some (Ok (Some sn)) => Some (Ok (Some (mkMyServerName (sn_Index sn + n) (sn_Length sn) (sn_ServerName sn))))
  | r => r
  end.

(** [common/tlsfragment/index.go:47-86] indexTLSServerNameFromHandshake *)
Definition indexTLSServerNameFromHandshake (fuel : nat) (handshake : list byte) : Search :=
  match extensions_start handshake with
  | Ok None => Some (Ok None)
  | Ok (Some currentIndex) =>
      index_add currentIndex (indexTLSServerNameFromExtensions fuel (drop currentIndex handshake))
  | Err e => Some (Err e)
  | Panic p => Some (Panic p)
  end.

(** [common/tlsfragment/index.go:31-45] IndexTLSServerName *)
Definition IndexTLSServerName (fuel : nat) (payload : list byte) : Search :=
  if Nat.ltb (length payload) recordLayerHeaderLen then Some (Ok None) else
  match (contType ← idx payload 0; segmentLen ← idx16 payload 3; Ok (contType, segmentLen)) with
  | Ok (contType, segmentLen) =>
      if negb (Z.eqb contType contentType) then Some (Ok None) else
      if Z.ltb (Z.of_nat (length payload)) (Z.of_nat recordLayerHeaderLen + segmentLen) then Some (Ok None) else
      index_add recordLayerHeaderLen (indexTLSServerNameFromHandshake fuel (drop recordLayerHeaderLen payload))
  | Err e => Some (Err e)
  | Panic p => Some (Panic p)
  end.

(** ** Cutting *)

(** [publicsuffix.List.PublicSuffix] of golang.org/x/net. *)
Class SuffixLib := { PublicSuffix : string → string }.

Section Fragments.
Context `{SuffixLib}.

(** [math/rand.Intn], by the number of the call. *)
Context (rand_Intn : nat → nat → nat).

Definition Intn_panic : list arg := [AStr "invalid argument to Intn"].

(** The labels to cut, and where the first one begins.

    [common/tlsfragment/conn.go:58-66] (Conn).Write (labels) *)
Definition server_name_splits (serverName : MyServerName) : nat * list string :=
  let name := sn_ServerName serverName in
  let splits := strings_Split "." name in
  let currentIndex := sn_Index serverName in
  let splits := if negb (String.eqb (PublicSuffix name) "")
                then take (length splits - strings_Count "." name) splits else splits in
  match splits with
  | first :: (_ :: _) as rest =>
      if String.eqb first "..." then (currentIndex + String.length first + 1, rest)%nat
      else (currentIndex, splits)
  | _ => (currentIndex, splits)
  end.

(** [common/tlsfragment/conn.go:67-75] (Conn).Write (cuts) *)
Fixpoint split_indexes (i currentIndex : nat) (splits : list string) : res (list nat) :=
  match splits with
  | [] => Ok []
  | split :: rest =>
      if Nat.eqb (String.length split) 0 then Panic Intn_panic else
      let splitAt := rand_Intn i (String.length split) in
      let next := (currentIndex + String.length split + (if nonempty rest then 1 else 0))%nat in
      l ← split_indexes (S i) next rest;
      Ok ((currentIndex + splitAt)%nat :: l)
  end.

Definition slice (l : list byte) (a b : nat) : res (list byte) :=
  if Nat.leb a b && Nat.leb b (length l) then Ok (take (b - a) (drop a l)) else Panic out_of_range.

(** The pieces from [start] on.

    [common/tlsfragment/conn.go:78-88] (Conn).Write (payloads) *)
Fixpoint pieces_from (b : list byte) (start : nat) (splitIndexes : list nat) : res (list (list byte)) :=
  match splitIndexes with
  | [] => p ← slice_from b start; Ok [p]
  | split :: rest => p ← slice b start split; l ← pieces_from b split rest; Ok (p :: l)
  end.
Definition pieces (splitRecord : bool) (b : list byte) (splitIndexes : list nat) : res (list (list byte)) :=
  pieces_from b (if splitRecord then recordLayerHeaderLen else 0%nat) splitIndexes.

(** A record with the type and the version of the one that is cut.

    [common/tlsfragment/conn.go:93-96] (Conn).Write (record) *)
Definition fragment_record (b payload : list byte) : list byte :=
  take 3 b ++ be_bytes 2 (u16 (Z.of_nat (length payload))) ++ payload.

(** What is done with the connection: writes, with or without waiting for the acknowledgement, pauses,
    and the option of the socket. *)
Inductive Action : Type :=
| A_SetNoDelay (on : bool)
| A_writeAndWaitAck (payload : list byte)
| A_Write (payload : list byte)
| A_Sleep.

(** [common/tlsfragment/conn.go:18-26] Conn *)
Record Conn : Type := mkConn {
  tcpConn : bool;
  firstPacketWritten : bool;
  splitPacket : bool;
  splitRecord : bool
}.
#[global] Instance Conn_settable : Settable Conn :=
  {| mkT r := mkConn (tcpConn r) (firstPacketWritten r) (splitPacket r) (splitRecord r) |}.

(** [common/tlsfragment/conn.go:28-41] NewConn *)
Definition NewConn (isTCP packets records : bool) : Conn := mkConn isTCP false packets records.

(** [common/tlsfragment/conn.go:101-116] (Conn).Write (packets) *)
Fixpoint packet_actions (c : Conn) (payloads : list (list byte)) : list Action :=
  match payloads with
  | [] => []
  | [payload] => [A_Write payload]
  | payload :: rest =>
      (if tcpConn c then [A_writeAndWaitAck payload] else [A_Write payload; A_Sleep]) ++ packet_actions c rest
  end.

(** The whole plan, with the random choices made.

    [common/tlsfragment/conn.go:50-129] (Conn).Write (fragments) *)
Definition fragment_actions (c : Conn) (b : list byte) (serverName : MyServerName) : res (list Action) :=
  let '(currentIndex, splits) := server_name_splits serverName in
  splitIndexes ← split_indexes 0 currentIndex splits;
  payloads ← pieces (splitRecord c) b splitIndexes;
  let payloads := if splitRecord c then fragment_record b <$> payloads else payloads in
  Ok ((if splitPacket c && tcpConn c then [A_SetNoDelay true] else []) ++
      (if splitPacket c then packet_actions c payloads
       else if splitRecord c then [A_Write (concat payloads)] else []) ++
      (if tcpConn c then [A_SetNoDelay false] else [])).

(** The connection under it. *)
Context {W : Type} (perform : Action → W → option error * W).

(** [common/tlsfragment/conn.go:76-129] (Conn).Write (loop) *)
Fixpoint perform_all (actions : list Action) (w : W) : option error * W :=
  match actions with
  | [] => (None, w)
  | action :: rest =>
      match perform action w with
      | (Some e, w) => (Some e, w)
      | (None, w) => perform_all rest w
      end
  end.

(** The number of bytes, or the error; nothing when the search does not end.

    [common/tlsfragment/conn.go:43-134] (Conn).Write *)
Definition Conn_Write (fuel : nat) (b : list byte) (c : Conn) (w : W) : option (res nat * Conn * W) :=
  let direct (c : Conn) := let '(e, w) := perform (A_Write b) w in
    (match e with None => Ok (length b) | Some e => Err e end, c, w) in
  if firstPacketWritten c then Some (direct c) else
  let c' := c <| firstPacketWritten := true |> in
  match IndexTLSServerName fuel b with
  | None => None
  | Some (Ok None) => Some (direct c')
  | Some (Ok (Some serverName)) =>
      match fragment_actions c b serverName with
      | Ok actions =>
          let '(e, w) := perform_all actions w in
          Some (match e with None => Ok (length b) | Some e => Err e end, c', w)
      | Err e => Some (Err e, c', w)
      | Panic p => Some (Panic p, c', w)
      end
  | Some (Err e) => Some (Err e, c', w)
  | Some (Panic p) => Some (Panic p, c', w)
  end.

(** [common/tlsfragment/conn.go:140-142] (Conn).WriterReplaceable *)
Definition WriterReplaceable (c : Conn) : bool := firstPacketWritten c.

End Fragments.

(** ** Theorems *)

(** *** The search *)

(** Indexing inside a list, with the value left open: the next index of a parser. *)
Ltac bind_head t := lazymatch t with mbind _ ?r => bind_head r | fmap _ ?r => bind_head r | ?r => r end.
Ltac index_at t :=
  let v := fresh "v" in let Hv := fresh "Hv" in let E := fresh "E" in
  lazymatch bind_head t with
  | idx ?l ?i => destruct (idx_lt l i ltac:(lia)) as (v & E & Hv); rewrite E
  | idx16 ?l ?i => destruct (idx16_lt l i ltac:(lia)) as (v & E & Hv); rewrite E
  | slice_from ?l ?n => rewrite (slice_from_le l n) by lia
  end; cbn [mbind res_bind].
Ltac index_step :=
  match goal with
  | |- match ?t with _ => _ end => index_at t
  | |- context [match ?t with _ => _ end] => index_at t
  end.

(** A server name that is found is what the bytes at its index say. *)
Definition found_at (l : list byte) (from : nat) (sn : MyServerName) : Prop :=
  ∃ n, sn_Index sn = (from + n)%nat ∧ (n + String.length (sn_ServerName sn) ≤ length l)%nat ∧
    take (String.length (sn_ServerName sn)) (drop n l) = bytes_of_string (sn_ServerName sn).

(** The outcome of a search: no error, no panic, and what is found is there. *)
Definition found_in (l : list byte) (from : nat) (r : Search) : Prop :=
  match r with
  | None => True
  | Some (Ok None) => True
  | Some (Ok (Some sn)) => found_at l from sn
  | Some _ => False
  end.

Lemma found_at_bytes l from n size k len :
  (n + size ≤ length l)%nat → k = (from + n)%nat → found_at l from (mkMyServerName k len (string_of_bytes (take size (drop n l)))).
Proof.
  intros Hn ->. exists n. cbn [sn_Index sn_ServerName]. rewrite string_length_of_bytes, length_take, length_drop.
  rewrite String.list_byte_of_string_of_list_byte.
  replace (size `min` (length l - n))%nat with size by lia. done.
Qed.

Lemma found_at_drop l from m sn : (m ≤ length l)%nat → found_at (drop m l) (from + m) sn → found_at l from sn.
Proof.
  intros Hm (n & Hi & Hn & Hs). rewrite length_drop, drop_drop in *.
  exists (m + n)%nat. split; [lia|]. split; [lia|done].
Qed.

Lemma found_at_add l from m sn :
  found_at l from sn → found_at l (from + m) (mkMyServerName (sn_Index sn + m) (sn_Length sn) (sn_ServerName sn)).
Proof. intros (n & Hi & Hn & Hs). exists n. cbn [sn_Index sn_ServerName]. split; [lia|]. done. Qed.

Lemma found_in_add l from m r : found_in l from r → found_in l (from + m) (index_add m r).
Proof. destruct r as [[[sn|]|e|p]|]; [apply found_at_add|done..]. Qed.

Lemma found_in_drop l from m r : (m ≤ length l)%nat → found_in (drop m l) (from + m) r → found_in l from r.
Proof. destruct r as [[[sn|]|e|p]|]; [apply found_at_drop|done..]. Qed.

(** One turn: a server name of this extension, or the rest after it. *)
Lemma extension_turn_spec ci exs : Z.of_nat (length exs) < 2 ^ 16 →
  match extension_turn ci exs with
  | Ok (inl None) => True
  | Ok (inl (Some sn)) => found_at exs ci sn
  | Ok (inr (ci', exs')) => ∃ m, (0 < m ≤ length exs)%nat ∧ ci' = (ci + m)%nat ∧ exs' = drop m exs
  | _ => False
  end.
Proof.
  intros Hlen. unfold extension_turn. destruct (Nat.ltb_spec (length exs) extensionHeaderLen); [done|].
  unfold extensionHeaderLen in *. index_step. index_step.
  destruct (Z.ltb_spec (Z.of_nat (length exs)) (Z.of_nat 4 + v0)); [done|].
  unfold is_u in Hv0. set (m := Z.to_nat v0) in *.
  assert (length (take m (drop 4 exs)) = m) as Hsex by (rewrite length_take, length_drop; lia).
  destruct (Z.eqb v 0).
  - unfold read_server_name. destruct (Nat.ltb_spec (length (take m (drop 4 exs))) sniExtensionHeaderLen); [done|].
    unfold sniExtensionHeaderLen in *. rewrite Hsex in *. index_step. destruct (negb _); [done|].
    index_step. index_step. cbn [fmap res_fmap].
    rewrite skipn_firstn_comm, drop_drop. apply found_at_bytes; unfold extensionHeaderLen; lia.
  - assert (u16 (4 + v0) = 4 + v0) as -> by (apply Z.mod_small; lia).
    rewrite (slice_from_le exs) by lia. cbn [mbind res_bind].
    exists (4 + m)%nat. split_and!; [lia|lia|done|]. f_equal. lia.
Qed.

Lemma extensions_loop_spec fuel : ∀ ci exs, Z.of_nat (length exs) < 2 ^ 16 →
  found_in exs ci (extensions_loop fuel ci exs) ∧
  ((length exs < fuel)%nat → extensions_loop fuel ci exs ≠ None).
Proof.
  induction fuel as [|fuel IH]; intros ci exs Hlen; [split; [done|lia]|]. cbn [extensions_loop].
  destruct (nonempty exs) eqn:Hne; [|done]. cbn [negb].
  pose proof (extension_turn_spec ci exs Hlen) as Ht.
  destruct (extension_turn ci exs) as [[[sn|]|[ci' exs']]|e|p]; [done..| |done|done].
  destruct Ht as (m & Hm & -> & ->). destruct (IH (ci + m)%nat (drop m exs)) as [Hf Hn].
  { rewrite length_drop. lia. }
  split; [apply found_in_drop with m; [lia|done]|]. intros Hfuel. apply Hn. rewrite length_drop. lia.
Qed.

Lemma extensions_spec fuel exs : Z.of_nat (length exs) < 2 ^ 16 →
  found_in exs 0 (indexTLSServerNameFromExtensions fuel exs) ∧
  ((length exs < fuel)%nat → indexTLSServerNameFromExtensions fuel exs ≠ None).
Proof.
  intros Hlen. unfold indexTLSServerNameFromExtensions. destruct (nonempty exs); [|done]. cbn [negb].
  destruct (Nat.ltb_spec (length exs) extensionsHeaderLen); [done|]. unfold extensionsHeaderLen in *.
  index_step. index_step. destruct (Z.ltb _ _); [done|].
  destruct (extensions_loop_spec fuel 2 (drop 2 exs)) as [Hf Hn]; [rewrite length_drop; lia|].
  split; [apply found_in_drop with 2%nat; [lia|done]|]. intros Hfuel. apply Hn. rewrite length_drop. lia.
Qed.

(** The header of the handshake is checked before it is read. *)
Lemma extensions_start_spec handshake :
  match extensions_start handshake with
  | Ok None => True
  | Ok (Some n) => (39 ≤ n ≤ length handshake)%nat
  | _ => False
  end.
Proof.
  unfold extensions_start, handshakeHeaderLen, randomDataLen, sessionIDHeaderLen, cipherSuiteHeaderLen, compressMethodHeaderLen.
  destruct (Nat.ltb_spec (length handshake) (6 + 32 + 1)); [done|].
  index_step. destruct (negb (Z.eqb v handshakeType)); [done|]. do 3 index_step. index_step. destruct (negb _); [done|].
  index_step. destruct (negb _); [done|]. index_step.
  destruct (Nat.ltb_spec (length handshake) (6 + 32 + 1 + Z.to_nat v4)); [done|]. index_step.
  set (cs := drop _ handshake). destruct (Nat.ltb_spec (length cs) 2); [done|]. index_step.
  destruct (Nat.ltb_spec (length cs) (2 + Z.to_nat v5 + 1)); [done|]. index_step.
  destruct (Nat.ltb_spec (length handshake) (6 + 32 + 1 + Z.to_nat v4 + (2 + Z.to_nat v5 + 1 + Z.to_nat v6))); [done|]. lia.
Qed.

Lemma handshake_spec fuel handshake : Z.of_nat (length handshake) < 2 ^ 16 →
  found_in handshake 0 (indexTLSServerNameFromHandshake fuel handshake) ∧
  ((length handshake < fuel)%nat → indexTLSServerNameFromHandshake fuel handshake ≠ None).
Proof.
  intros Hlen. unfold indexTLSServerNameFromHandshake. pose proof (extensions_start_spec handshake) as Hs.
  destruct (extensions_start handshake) as [[n|]|e|p]; [|done..].
  destruct (extensions_spec fuel (drop n handshake)) as [Hf Hn]; [rewrite length_drop; lia|].
  split; [apply found_in_drop with n; [lia|]; exact (found_in_add _ 0 n _ Hf)|].
  intros Hfuel. rewrite length_drop in Hn. destruct (indexTLSServerNameFromExtensions fuel _) as [[[sn|]|e|p]|]; try done. intros _. apply Hn; [lia|done].
Qed.

Lemma IndexTLSServerName_spec fuel payload : Z.of_nat (length payload) < 2 ^ 16 →
  found_in payload 0 (IndexTLSServerName fuel payload) ∧
  ((length payload < fuel)%nat → IndexTLSServerName fuel payload ≠ None).
Proof.
  intros Hlen. unfold IndexTLSServerName, recordLayerHeaderLen. destruct (Nat.ltb_spec (length payload) 5); [done|].
  index_step. index_step. destruct (negb _); [done|]. destruct (Z.ltb _ _); [done|].
  destruct (handshake_spec fuel (drop 5 payload)) as [Hf Hn]; [rewrite length_drop; lia|].
  split; [apply found_in_drop with 5%nat; [lia|]; exact (found_in_add _ 0 5 _ Hf)|].
  intros Hfuel. rewrite length_drop in Hn. destruct (indexTLSServerNameFromHandshake fuel _) as [[[sn|]|e|p]|]; try done. intros _. apply Hn; [lia|done].
Qed.

(** *** The search finds the name *)

Lemma drop_app_eq {A} n (l k : list A) : n = length l → drop n (l ++ k) = k.
Proof. intros ->. apply drop_app_length. Qed.

(** Where the extensions of a hello begin. *)
(** The cipher suites and the compression methods of the rest of a handshake, and its extensions. *)
Lemma hello_tail_parts h : hello_ok h →
  let cn := 2 * Z.of_nat (length (he_ciphers h)) in
  (2 ≤ length (hello_tail h))%nat ∧ idx16 (hello_tail h) 0 = Ok cn ∧
  idx (hello_tail h) (2 + Z.to_nat cn) = Ok (Z.of_nat (length (he_compression h))) ∧
  (2 + Z.to_nat cn + 1 + length (he_compression h) ≤ length (hello_tail h))%nat ∧
  drop (2 + Z.to_nat cn + 1 + length (he_compression h)) (hello_tail h) =
    be_bytes 2 (Z.of_nat (length (hello_extensions h))) ++ hello_extensions h.
Proof.
  intros Hok cn. destruct (hello_lengths h Hok) as [Hl1 Hl2]. pose proof (ok_length h Hok) as Hn.
  pose proof (ok_compression h Hok) as Hcomp.
  unfold hello_tail. change (2 * Z.of_nat (length (he_ciphers h))) with cn.
  set (exs := be_bytes 2 (Z.of_nat (length (hello_extensions h))) ++ hello_extensions h).
  set (ciph := be_bytes 2 cn ++ be16s (he_ciphers h)).
  set (comp := [Z_byte (Z.of_nat (length (he_compression h)))] ++ he_compression h).
  assert (be_bytes 2 cn ++ be16s (he_ciphers h) ++ [Z_byte (Z.of_nat (length (he_compression h)))] ++
    he_compression h ++ exs = ciph ++ comp ++ exs) as -> by (unfold ciph, comp; by rewrite <-!app_assoc).
  assert (length ciph = (2 + Z.to_nat cn)%nat) as Hcl
    by (unfold ciph, cn; rewrite length_app, be_bytes_length, be16s_app; lia).
  assert (length comp = (1 + length (he_compression h))%nat) as Hml by done.
  split; [rewrite length_app; lia|]. split.
  { unfold ciph. rewrite <-app_assoc. apply idx16_be. unfold is_u, cn. lia. }
  split; [rewrite idx_app_r, Hcl, Nat.sub_diag by lia; unfold comp; cbn [app]; by rewrite idx_0, byte_Z_small by lia|].
  split; [rewrite !length_app; lia|]. rewrite app_assoc. apply drop_app_eq. rewrite length_app. lia.
Qed.

Lemma hello_extensions_start h : hello_ok h →
  ∃ n, extensions_start (hello_handshake h) = Ok (Some n) ∧
    drop n (hello_handshake h) = be_bytes 2 (Z.of_nat (length (hello_extensions h))) ++ hello_extensions h.
Proof.
  intros Hok. destruct (hello_lengths h Hok) as [Hl1 Hl2]. pose proof (ok_length h Hok) as Hn.
  destruct (ok_version h Hok) as [Hv Hsv]. pose proof (ok_session_id h Hok) as Hsid.
  pose proof (ok_compression h Hok) as Hcomp. destruct (hello_split h Hok) as (pre & Hprel & Hpre).
  set (hs := hello_handshake h) in *. set (body := hello_body h) in *.
  unfold extensions_start, handshakeHeaderLen, randomDataLen, sessionIDHeaderLen, cipherSuiteHeaderLen, compressMethodHeaderLen.
  rewrite (proj2 (Nat.ltb_ge _ _)) by lia.
  assert (idx hs 0 = Ok 1) as -> by done. cbn [mbind res_bind Z.eqb Pos.eqb negb handshakeType].
  destruct (idx24_be (Z.of_nat (length body)) body ltac:(lia)) as (h1 & h2 & h3 & H1 & H2 & H3 & Hlor).
  assert (idx hs 1 = Ok h1) as -> by exact H1. assert (idx hs 2 = Ok h2) as -> by exact H2.
  assert (idx hs 3 = Ok h3) as -> by exact H3. cbn [mbind res_bind]. rewrite Hlor.
  assert (hs = ([Z_byte 1] ++ be_bytes 3 (Z.of_nat (length body))) ++ body) as Hhs
    by (unfold hs, hello_handshake; by rewrite <-app_assoc).
  assert (slice_from hs 4 = Ok body) as -> by (rewrite Hhs; by apply slice_from_app).
  cbn [mbind res_bind]. rewrite Z.eqb_refl. cbn [negb].
  assert (idx16 hs 4 = Ok (he_version h)) as ->.
  { rewrite Hhs, idx16_app_r by done. unfold body, hello_body. rewrite length_app, be_bytes_length.
    apply (idx16_be (he_version h)), Hv. }
  cbn [mbind res_bind]. rewrite Hsv. cbn [negb]. clearbody hs.
  set (sl := Z.of_nat (length (he_session_id h))) in *.
  assert (idx hs 38 = Ok sl) as ->.
  { rewrite Hpre, idx_app_r, Hprel, Nat.sub_diag by lia. cbn [app].
    by rewrite idx_0, byte_Z_small by (unfold sl; lia). }
  cbn [mbind res_bind]. unfold sl. rewrite Nat2Z.id. rewrite (proj2 (Nat.ltb_ge _ _)) by lia.
  set (front := pre ++ [Z_byte sl] ++ he_session_id h).
  assert (hs = front ++ hello_tail h) as Hfront by (rewrite Hpre; unfold front; by rewrite <-!app_assoc).
  assert (length front = (6 + 32 + 1 + length (he_session_id h))%nat) as Hfl
    by (unfold front; rewrite !length_app, Hprel; cbn [length]; lia).
  rewrite Hfront, slice_from_app by done. cbn [mbind res_bind].
  destruct (hello_tail_parts h Hok) as (Hlen & Hcn & Hcm & Hlen' & Hexs).
  set (cn := 2 * Z.of_nat (length (he_ciphers h))) in *.
  rewrite (proj2 (Nat.ltb_ge _ _)) by lia. rewrite Hcn.
  cbn [mbind res_bind]. rewrite (proj2 (Nat.ltb_ge _ _)) by lia. rewrite Hcm.
  cbn [mbind res_bind]. rewrite Nat2Z.id. rewrite (proj2 (Nat.ltb_ge _ _)) by (rewrite length_app; lia).
  eexists. split; [reflexivity|]. rewrite <-Hexs, drop_app_ge by lia. f_equal. lia.
Qed.

(** The first server name of a list of extensions. *)
Fixpoint first_name (l : list Extension) : option (list byte) :=
  match l with
  | [] => None
  | EServerName n :: _ => Some n
  | _ :: l => first_name l
  end.

Lemma extension_turn_bytes ci e rest : ext_ok e → Z.of_nat (length (ext_bytes e)) < 2 ^ 16 →
  match e with
  | EServerName n => ∃ sn, extension_turn ci (ext_bytes e ++ rest) = Ok (inl (Some sn)) ∧
      sn_ServerName sn = string_of_bytes n
  | _ => ∃ ci', extension_turn ci (ext_bytes e ++ rest) = Ok (inr (ci', rest))
  end.
Proof.
  intros He Hn. rewrite ext_bytes_length in Hn. set (exs := ext_bytes e ++ rest).
  assert (length exs = (4 + length (ext_data e) + length rest)%nat) as Hlen
    by (unfold exs; by rewrite length_app, ext_bytes_length).
  assert (exs = be_bytes 2 (ext_type e) ++ be_bytes 2 (Z.of_nat (length (ext_data e))) ++ ext_data e ++ rest)
    as Hexs by (unfold exs, ext_bytes; by rewrite <-!app_assoc).
  assert (is_u 16 (ext_type e)) as Ht by (destruct e; [done..|apply He]).
  assert (extension_turn ci exs =
    if Z.eqb (ext_type e) 0 then fmap (M := res) inl (read_server_name ci (ext_data e))
    else Ok (inr (ci + (4 + length (ext_data e)), rest)%nat)) as ->.
  { unfold extension_turn, extensionHeaderLen. rewrite (proj2 (Nat.ltb_ge _ _)) by lia.
    rewrite Hexs at 1. rewrite idx16_be by done. cbn [mbind res_bind].
    rewrite Hexs at 1. rewrite idx16_app_r by (by rewrite be_bytes_length).
    rewrite be_bytes_length, Nat.sub_diag, idx16_be by (unfold is_u; lia). cbn [mbind res_bind].
    rewrite (proj2 (Z.ltb_ge _ _)) by lia. rewrite Nat2Z.id.
    assert (take (length (ext_data e)) (drop 4 exs) = ext_data e) as ->.
    { rewrite Hexs, app_assoc, drop_app_eq, take_app_length; [done|]. by rewrite length_app, !be_bytes_length. }
    destruct (Z.eqb _ 0); [done|].
    assert (u16 (4 + Z.of_nat (length (ext_data e))) = 4 + Z.of_nat (length (ext_data e))) as ->
      by (apply Z.mod_small; lia).
    unfold exs. by rewrite slice_from_app by (rewrite ext_bytes_length; lia). }
  destruct e as [n|l|l|l|l|t d]; cbn [ext_type]; try (by eexists).
  destruct He as [_ Ht0]. destruct (Z.eqb_spec t 0) as [->|]; [|by eexists]. destruct Ht0. by left.
Qed.

Lemma extensions_loop_finds l : ∀ fuel ci, Forall ext_ok l →
  Z.of_nat (length (concat (ext_bytes <$> l))) < 2 ^ 16 → (length (concat (ext_bytes <$> l)) < fuel)%nat →
  ∃ o, extensions_loop fuel ci (concat (ext_bytes <$> l)) = Some (Ok o) ∧
    fmap (M := option) sn_ServerName o = fmap (M := option) string_of_bytes (first_name l).
Proof.
  induction l as [|e l IH]; intros [|fuel] ci Hl Hn Hf; [lia|by exists None|lia|].
  apply List.Forall_cons_iff in Hl as [He Hl].
  change (concat (ext_bytes <$> e :: l)) with (ext_bytes e ++ concat (ext_bytes <$> l)) in *.
  rewrite length_app in Hn, Hf. pose proof (ext_bytes_length e) as Hlen.
  pose proof (extension_turn_bytes ci e (concat (ext_bytes <$> l)) He ltac:(lia)) as Ht.
  cbn [extensions_loop]. set (exs := ext_bytes e ++ _) in *.
  assert (nonempty exs = true) as -> by (unfold exs; destruct (ext_bytes e); [cbn in Hlen; lia|done]). cbn [negb].
  assert (∀ ci', ∃ o, extensions_loop fuel ci' (concat (ext_bytes <$> l)) = Some (Ok o) ∧
    fmap (M := option) sn_ServerName o = fmap (M := option) string_of_bytes (first_name l)) as IH'
    by (intros ci'; apply IH; [done|lia|lia]).
  destruct e; try (destruct Ht as [ci' ->]; apply IH').
  destruct Ht as (sn & -> & Hsn). exists (Some sn). split; [done|]. cbn. by rewrite Hsn.
Qed.

Lemma record_handshake h : hello_ok h →
  length (hello_record h) = (5 + length (hello_handshake h))%nat ∧
  drop 5 (hello_record h) = hello_handshake h ∧ idx (hello_record h) 0 = Ok 22 ∧
  idx16 (hello_record h) 3 = Ok (Z.of_nat (length (hello_handshake h))).
Proof.
  intros Hok. pose proof (ok_length h Hok) as Hn.
  assert (hello_record h = ([Z_byte 22] ++ be_bytes 2 (he_record_version h)) ++
    be_bytes 2 (Z.of_nat (length (hello_handshake h))) ++ hello_handshake h) as Hr
    by (unfold hello_record; by rewrite <-!app_assoc).
  split_and!; [|by rewrite Hr, app_assoc; apply drop_app_eq|done|].
  - rewrite Hr, !length_app, !be_bytes_length. cbn. lia.
  - rewrite Hr, idx16_app_r by done. apply idx16_be. unfold is_u. lia.
Qed.

(** The extensions of a hello are searched. *)
Lemma handshake_finds fuel h : hello_ok h → (length (hello_handshake h) < fuel)%nat →
  ∃ o, indexTLSServerNameFromHandshake fuel (hello_handshake h) = Some (Ok o) ∧
    fmap (M := option) sn_ServerName o = fmap (M := option) string_of_bytes (first_name (he_extensions h)).
Proof.
  intros Hok Hf. pose proof (ok_length h Hok) as Hn. destruct (hello_lengths h Hok) as [Hl1 Hl2].
  destruct (extensions_loop_finds (he_extensions h) fuel 2 (ok_extensions h Hok)) as (o & Ho & Hname);
    [fold (hello_extensions h); lia..|]. fold (hello_extensions h) in Ho.
  unfold indexTLSServerNameFromHandshake. destruct (hello_extensions_start h Hok) as (n & -> & ->).
  unfold indexTLSServerNameFromExtensions. set (exs := hello_extensions h) in *.
  change (nonempty (be_bytes 2 (Z.of_nat (length exs)) ++ exs)) with true. cbn [negb].
  rewrite (proj2 (Nat.ltb_ge _ _)) by (rewrite length_app, be_bytes_length; unfold extensionsHeaderLen; lia).
  rewrite idx16_be by (unfold is_u; lia). cbn [mbind res_bind].
  rewrite slice_from_app by (by rewrite be_bytes_length). cbn [mbind res_bind].
  rewrite (proj2 (Z.ltb_ge _ _)) by lia. unfold extensionsHeaderLen. rewrite Ho.
  destruct o as [sn|]; eexists; (split; [reflexivity|exact Hname]).
Qed.

(** The server name is found where it is: in every ClientHello of RFC 8446 that fits a record the
    search gives the first server name, if there is one, with its place in the bytes of the record;
    the search ends, and needs no more turns than there are bytes. *)
Theorem server_name_found h fuel : hello_ok h → (length (hello_record h) < fuel)%nat →
  Z.of_nat (length (hello_record h)) < 2 ^ 16 →
  ∃ o, IndexTLSServerName fuel (hello_record h) = Some (Ok o) ∧
    match first_name (he_extensions h), o with
    | Some n, Some sn => sn_ServerName sn = string_of_bytes n ∧
        take (length n) (drop (sn_Index sn) (hello_record h)) = n
    | None, None => True
    | _, _ => False
    end.
Proof.
  intros Hok Hf Hlen. destruct (record_handshake h Hok) as (Hl & Hd & H0 & H3).
  destruct (IndexTLSServerName_spec fuel (hello_record h) Hlen) as [Hfound _].
  assert (∃ o, IndexTLSServerName fuel (hello_record h) = Some (Ok o) ∧
    fmap (M := option) sn_ServerName o = fmap (M := option) string_of_bytes (first_name (he_extensions h))) as (o & Ho & Hname).
  { unfold IndexTLSServerName, recordLayerHeaderLen. rewrite (proj2 (Nat.ltb_ge _ _)) by lia.
    rewrite H0, H3. cbn [mbind res_bind]. change (negb (Z.eqb 22 contentType)) with false. cbn [negb].
    rewrite (proj2 (Z.ltb_ge _ _)) by lia. rewrite Hd.
    destruct (handshake_finds fuel h Hok ltac:(lia)) as (o & -> & Hname).
    destruct o as [sn|]; eexists; (split; [reflexivity|exact Hname]). }
  exists o. split; [done|]. rewrite Ho in Hfound. destruct o as [sn|], (first_name _) as [n|]; try done.
  cbn in Hname. injection Hname as Hname. split; [done|]. destruct Hfound as (k & -> & _ & Ht).
  by rewrite Hname, string_length_of_bytes, String.list_byte_of_string_of_list_byte in Ht.
Qed.

(** *** The cuts *)

Section FragmentTheorems.
Context `{SuffixLib} (rand_Intn : nat → nat → nat).
Context (Intn_lt : ∀ i n, (0 < n)%nat → (rand_Intn i n < n)%nat).

(** Cuts in order, between two places. *)
Fixpoint cuts_ok (lo hi : nat) (cuts : list nat) : Prop :=
  match cuts with
  | [] => (lo ≤ hi)%nat
  | k :: cuts => (lo ≤ k)%nat ∧ cuts_ok k hi cuts
  end.

Lemma cuts_ok_lo lo lo' hi cuts : (lo' ≤ lo)%nat → cuts_ok lo hi cuts → cuts_ok lo' hi cuts.
Proof. destruct cuts; cbn; [lia|]. intros ? [??]. split; [lia|done]. Qed.
Lemma cuts_ok_hi lo hi hi' cuts : (hi ≤ hi')%nat → cuts_ok lo hi cuts → cuts_ok lo hi' cuts.
Proof. revert lo. induction cuts as [|k cuts IH]; intros lo Hh; cbn; [lia|]. intros [??]. split; [done|by apply IH]. Qed.

(** The length of labels with dots between them. *)
Fixpoint labels_length (splits : list string) : nat :=
  match splits with
  | [] => 0
  | [s] => String.length s
  | s :: rest => String.length s + 1 + labels_length rest
  end.

Lemma labels_length_Split c s : labels_length (strings_Split c s) = String.length s.
Proof.
  induction s as [|d s IH]; [done|]. cbn [strings_Split String.length].
  pose proof (length_Split c s) as Hl. destruct (strings_Split c s) as [|x l] eqn:E; [done|].
  destruct (Ascii.eqb d c); cbn [labels_length String.length]; [by rewrite <-IH|].
  rewrite <-IH. destruct l; done.
Qed.

Lemma labels_length_take n l : (labels_length (take n l) ≤ labels_length l)%nat.
Proof.
  revert l. induction n as [|n IH]; intros [|s l]; cbn [take labels_length]; try lia.
  specialize (IH l). destruct l as [|s' l]; [by destruct n|]. destruct (take n (s' :: l)) eqn:E; lia.
Qed.

(** No label has a dot. *)
Lemma Split_no_sep c s x : x ∈ strings_Split c s → strings_Count c x = 0%nat.
Proof.
  revert x. induction s as [|d s IH]; intros x; cbn [strings_Split]; [by intros ->%list_elem_of_singleton|].
  destruct (Ascii.eqb d c) eqn:E; [intros [->|Hx]%elem_of_cons; [done|by apply IH]|].
  pose proof (length_Split c s) as Hl. destruct (strings_Split c s) as [|y l]; [done|].
  intros [->|Hx]%elem_of_cons; [|apply IH; by right]. cbn. rewrite E. apply IH. by left.
Qed.

(** Which labels are cut: all of them, or the first one alone when the name has a public suffix. *)
Lemma server_name_splits_eq sn :
  server_name_splits sn =
    (sn_Index sn,
     if String.eqb (PublicSuffix (sn_ServerName sn)) "" then strings_Split "." (sn_ServerName sn)
     else take 1 (strings_Split "." (sn_ServerName sn))).
Proof.
  unfold server_name_splits. set (name := sn_ServerName sn). rewrite length_Split.
  replace (S (strings_Count "." name) - strings_Count "." name)%nat with 1%nat by lia.
  assert (∀ x, x ∈ strings_Split "." name → String.eqb x "..." = false) as Hdot.
  { intros x Hx. apply String.eqb_neq. intros ->. by apply Split_no_sep in Hx. }
  destruct (String.eqb (PublicSuffix name) ""); cbn [negb].
  - destruct (strings_Split "." name) as [|x [|y l]]; [done..|]. by rewrite (Hdot x) by left.
  - by destruct (strings_Split "." name) as [|x l].
Qed.

Lemma split_indexes_spec splits : ∀ i cur,
  match split_indexes rand_Intn i cur splits with
  | Ok l => length l = length splits ∧ cuts_ok cur (cur + labels_length splits) l ∧ "" ∉ splits
  | Err _ => False
  | Panic p => p = Intn_panic ∧ "" ∈ splits
  end.
Proof.
  induction splits as [|s rest IH]; intros i cur; cbn [split_indexes]; [split_and!; [done|cbn; lia|set_solver]|].
  destruct (Nat.eqb_spec (String.length s) 0) as [Hs|Hs].
  { split; [done|]. destruct s; [by left|done]. }
  pose proof (Intn_lt i (String.length s) ltac:(lia)) as Hr.
  set (next := (cur + String.length s + _)%nat). specialize (IH (S i) next).
  destruct (split_indexes rand_Intn (S i) next rest) as [l|e|p]; cbn [mbind res_bind]; [|done|].
  - destruct IH as (Hl & Hc & Hn). split_and!; [cbn; by rewrite Hl| |].
    + cbn [cuts_ok]. split; [lia|]. apply cuts_ok_hi with (next + labels_length rest)%nat.
      * unfold next. destruct rest; cbn; lia.
      * apply cuts_ok_lo with next; [|done]. unfold next. lia.
    + intros [<-|?]%elem_of_cons; [by apply Hs|done].
  - destruct IH as [-> Hin]. split; [done|by right].
Qed.

Lemma pieces_from_spec b cuts : ∀ start, cuts_ok start (length b) cuts →
  ∃ ps, pieces_from b start cuts = Ok ps ∧ concat ps = drop start b ∧ length ps = S (length cuts).
Proof.
  induction cuts as [|k cuts IH]; intros start Hc; cbn [pieces_from].
  - cbn in Hc. rewrite slice_from_le by done. eexists. split; [done|]. cbn. by rewrite app_nil_r.
  - destruct Hc as [Hk Hc]. destruct (IH k Hc) as (ps & -> & Hps & Hl).
    assert (k ≤ length b)%nat as Hkl by (clear -Hc; revert k Hc; induction cuts; intros k Hc; cbn in Hc; [done|destruct Hc as [? Hc]; apply IHcuts in Hc; lia]).
    unfold slice. rewrite (proj2 (Nat.leb_le _ _) Hk), (proj2 (Nat.leb_le _ _) Hkl). cbn [andb mbind res_bind].
    eexists. split; [done|]. cbn. rewrite Hps, Hl. split; [|done].
    rewrite <-(take_drop (k - start) (drop start b)) at 2. f_equal. rewrite drop_drop. f_equal. lia.
Qed.

(** What is written, in order. *)
Definition written (actions : list Action) : list byte :=
  concat (flat_map (λ a, match a with A_Write p | A_writeAndWaitAck p => [p] | _ => [] end) actions).

Lemma written_app k l : written (k ++ l) = written k ++ written l.
Proof. unfold written. by rewrite flat_map_app, concat_app. Qed.

Lemma written_packets c ps : written (packet_actions c ps) = concat ps.
Proof.
  induction ps as [|p [|q l] IH]; [done|cbn; by rewrite !app_nil_r|].
  cbn [packet_actions]. rewrite written_app. cbn [packet_actions] in IH. rewrite IH.
  destruct (tcpConn c); cbn; by rewrite !app_nil_r.
Qed.

(** A reader of TLS records: the header without the length, and the fragment. *)
Fixpoint read_records (n : nat) : Reader (list (list byte * list byte)) :=
  match n with
  | O => mret []
  | S n =>
      header ← ReadFull 3;
      size ← ReadBE 2;
      payload ← ReadFull (Z.to_nat size);
      l ← read_records n;
      mret ((header, payload) :: l)
  end.

Lemma reads_records b ps : (3 ≤ length b)%nat → Forall (λ p, Z.of_nat (length p) < 2 ^ 16) ps →
  reads (read_records (length ps)) (concat (fragment_record b <$> ps)) ((λ p, (take 3 b, p)) <$> ps).
Proof.
  intros Hb. induction 1 as [|p ps Hp Hps IH]; [apply reads_ret|].
  change (concat (fragment_record b <$> p :: ps)) with (fragment_record b p ++ concat (fragment_record b <$> ps)).
  unfold fragment_record at 1. rewrite <-!app_assoc. cbn [read_records length].
  eapply reads_bind; [apply reads_full; rewrite length_take; lia|].
  eapply reads_bind; [apply reads_be, (wrap_is_u 16); lia|].
  rewrite (wrap_id 16) by (unfold is_u; lia). rewrite Nat2Z.id.
  eapply reads_bind; [by apply reads_full|].
  rewrite <-(app_nil_r (concat _)). eapply reads_bind; [apply IH|]. apply reads_ret.
Qed.

(** A name that is found lies behind the header of the record. *)
Lemma found_bounds fuel b sn : Z.of_nat (length b) < 2 ^ 16 → IndexTLSServerName fuel b = Some (Ok (Some sn)) →
  (5 ≤ sn_Index sn)%nat ∧ (sn_Index sn + String.length (sn_ServerName sn) ≤ length b)%nat.
Proof.
  intros Hlen Hsn. destruct (IndexTLSServerName_spec fuel b Hlen) as [Hf _]. rewrite Hsn in Hf.
  destruct Hf as (n & Hn & Hb & _). split; [|lia].
  unfold IndexTLSServerName in Hsn. destruct (Nat.ltb _ _); [done|].
  destruct (_ ≫= _) as [[ct sl]|e|p]; [|done..]. destruct (negb _); [done|]. destruct (Z.ltb _ _); [done|].
  destruct (indexTLSServerNameFromHandshake _ _) as [[[sn'|]|e|p]|]; [|done..].
  injection Hsn as <-. cbn. unfold recordLayerHeaderLen. lia.
Qed.

Lemma fragment_pieces c b sn : (5 ≤ sn_Index sn)%nat →
  (sn_Index sn + String.length (sn_ServerName sn) ≤ length b)%nat →
  let splits := (server_name_splits sn).2 in
  match split_indexes rand_Intn 0 (sn_Index sn) splits with
  | Ok cuts => ∃ ps, pieces (splitRecord c) b cuts = Ok ps ∧ length ps = S (length splits) ∧
      concat ps = drop (if splitRecord c then 5 else 0) b ∧ "" ∉ splits
  | Err _ => False
  | Panic p => p = Intn_panic ∧ "" ∈ splits
  end.
Proof.
  intros Hi Hb splits. pose proof (split_indexes_spec splits 0 (sn_Index sn)) as Hs.
  destruct (split_indexes rand_Intn 0 (sn_Index sn) splits) as [cuts|e|p]; [|done..].
  destruct Hs as (Hl & Hc & Hn).
  assert (labels_length splits ≤ String.length (sn_ServerName sn))%nat as Hlab.
  { unfold splits. rewrite server_name_splits_eq. cbn [snd]. rewrite <-(labels_length_Split "."%char (sn_ServerName sn)).
    destruct (String.eqb _ _); [done|]. apply labels_length_take. }
  destruct (pieces_from_spec b cuts (if splitRecord c then 5 else 0)) as (ps & Hps & Hcat & Hlen).
  { apply cuts_ok_lo with (sn_Index sn); [destruct (splitRecord c); lia|].
    apply cuts_ok_hi with (sn_Index sn + labels_length splits)%nat; [lia|done]. }
  exists ps. split; [done|]. split; [by rewrite Hlen, Hl|done].
Qed.

(** C30: cutting loses nothing: for every server name that is found in a first write of less than 64 KB, either a label that
    would be cut is empty, and the random choice panics, or the writes put together are the bytes that
    were to be written; with records, they are TLS records of the same type and version, one more than
    labels that are cut, whose fragments put together are the handshake. *)
Theorem fragments_put_together c b sn fuel : Z.of_nat (length b) < 2 ^ 16 →
  IndexTLSServerName fuel b = Some (Ok (Some sn)) → splitPacket c || splitRecord c = true →
  match fragment_actions rand_Intn c b sn with
  | Ok actions =>
      if splitRecord c then ∃ ps, let n := S (length (server_name_splits sn).2) in
        read_records n (written actions) = (Ok ((λ p, (take 3 b, p)) <$> ps), []) ∧ concat ps = drop 5 b
      else written actions = b
  | Err _ => False
  | Panic p => p = Intn_panic ∧ "" ∈ (server_name_splits sn).2
  end.
Proof.
  intros Hlen Hsn Hc. destruct (IndexTLSServerName_spec fuel b Hlen) as [Hf _]. rewrite Hsn in Hf.
  pose proof (found_bounds fuel b sn Hlen Hsn) as [Hi Hb].
  pose proof (fragment_pieces c b sn Hi Hb) as Hp. unfold fragment_actions.
  rewrite (server_name_splits_eq sn) in *. cbn [snd fst] in *.
  destruct (split_indexes rand_Intn 0 (sn_Index sn) _) as [cuts|e|p]; cbn [mbind res_bind]; [|done..].
  destruct Hp as (ps & -> & Hl & Hcat & _). cbn [mbind res_bind]. rewrite !written_app.
  assert (written (if splitPacket c && tcpConn c then [A_SetNoDelay true] else []) = []) as -> by by destruct (_ && _).
  assert (written (if tcpConn c then [A_SetNoDelay false] else []) = []) as -> by by destruct (tcpConn c).
  rewrite app_nil_r. cbn [app].
  assert (∀ qs, written (if splitPacket c then packet_actions c qs
     else if splitRecord c then [A_Write (concat qs)] else []) = concat qs) as Hw.
  { intros qs. destruct (splitPacket c); [apply written_packets|]. cbn in Hc. rewrite Hc. cbn. by rewrite app_nil_r. }
  rewrite Hw. destruct (splitRecord c); [|done].
  exists ps. cbv zeta. rewrite <-Hl. split; [|done].
  rewrite <-(app_nil_r (concat _)). apply reads_records; [lia|].
  apply Forall_forall. intros p Hp%list_elem_of_In. apply list_elem_of_split in Hp as (l1 & l2 & ->).
  rewrite concat_app in Hcat. apply (f_equal length) in Hcat. rewrite length_app, length_drop in Hcat. cbn in Hcat.
  rewrite length_app in Hcat. lia.
Qed.

(** The cut does not have to be in the name: when the name has a public suffix, there is one cut, in
    the first label, so that the second piece begins less than the length of that label into the name;
    and with the random choice 0 it begins with the whole name, which no cut divides. *)
Theorem name_left_whole c b sn fuel : Z.of_nat (length b) < 2 ^ 16 →
  IndexTLSServerName fuel b = Some (Ok (Some sn)) → PublicSuffix (sn_ServerName sn) ≠ "" →
  head (strings_Split "." (sn_ServerName sn)) ≠ Some "" →
  ∃ label, head (strings_Split "." (sn_ServerName sn)) = Some label ∧
  let k := (sn_Index sn + rand_Intn 0 (String.length label))%nat in
  pieces (splitRecord c) b [k] = Ok [drop (if splitRecord c then 5 else 0) (take k b); drop k b] ∧
  split_indexes rand_Intn 0 (server_name_splits sn).1 (server_name_splits sn).2 = Ok [k] ∧
  (rand_Intn 0 (String.length label) = 0%nat → bytes_of_string (sn_ServerName sn) `prefix_of` drop k b).
Proof.
  intros Hlen Hsn Hps Hne. destruct (IndexTLSServerName_spec fuel b Hlen) as [Hf _]. rewrite Hsn in Hf.
  pose proof (found_bounds fuel b sn Hlen Hsn) as [Hi Hb].
  rewrite server_name_splits_eq. cbn [fst snd]. rewrite (proj2 (String.eqb_neq _ _) Hps).
  pose proof (labels_length_Split "."%char (sn_ServerName sn)) as Hll. pose proof (length_Split "."%char (sn_ServerName sn)) as Hls.
  destruct (strings_Split "." (sn_ServerName sn)) as [|label rest]; [done|].
  assert (String.length label ≠ 0%nat) as Hlab by (intros ?; destruct label; [by apply Hne|done]).
  exists label. split; [done|]. set (k := (sn_Index sn + _)%nat).
  pose proof (Intn_lt 0 (String.length label) ltac:(lia)) as Hr.
  assert (k ≤ length b)%nat as Hk.
  { unfold k. cbn [labels_length] in Hll. destruct rest; cbn [labels_length] in Hll; lia. }
  split_and!.
  - unfold pieces, pieces_from, slice, recordLayerHeaderLen.
    set (s := if splitRecord c then 5%nat else 0%nat). assert (s ≤ k)%nat as Hs by (unfold s, k; destruct (splitRecord c); lia).
    rewrite (proj2 (Nat.leb_le _ _) Hs), (proj2 (Nat.leb_le _ _) Hk), slice_from_le by done. cbn.
    by rewrite skipn_firstn_comm.
  - cbn [take split_indexes]. rewrite (proj2 (Nat.eqb_neq _ _) Hlab). done.
  - intros H0. unfold k. rewrite H0, Nat.add_0_r. destruct Hf as (n & Hn & _ & Ht). rewrite Hn. cbn [Nat.add].
    rewrite <-Ht. apply prefix_take.
Qed.

End FragmentTheorems.

(** *** A search that does not end *)

(** The bytes that are left after an extension are found by adding in 16 bits: an extension of
    65532 bytes is followed by itself. *)
Lemma loop_forever exs : nonempty exs = true →
  (∀ ci, ∃ ci', extension_turn ci exs = Ok (inr (ci', exs))) → ∀ fuel ci, extensions_loop fuel ci exs = None.
Proof.
  intros Hne Ht fuel. induction fuel as [|fuel IH]; intros ci; [done|]. cbn [extensions_loop].
  rewrite Hne. destruct (Ht ci) as [ci' ->]. apply IH.
Qed.

(** ** Concrete writes *)

Section Examples.

(** The last label as the suffix. *)
#[local] Instance ex_suffix : SuffixLib := {| PublicSuffix s := List.last (strings_Split "." s) ""%string |}.

(** The first choice, always; and the last one. *)
Definition first_choice (i n : nat) : nat := 0.
Definition last_choice (i n : nat) : nat := n - 1.
Lemma first_choice_lt i n : (0 < n)%nat → (first_choice i n < n)%nat.
Proof. done. Qed.
Lemma last_choice_lt i n : (0 < n)%nat → (last_choice i n < n)%nat.
Proof. unfold last_choice. lia. Qed.

Definition ex_name (name : string) : list byte :=
  hello_record (sample_hello [EOther 23 []; EServerName (bytes_of_string name)]).

Lemma server_name_found_witness :
  ∃ sn, IndexTLSServerName 100 (hello_record named_hello) = Some (Ok (Some sn)) ∧
    sn_ServerName sn = "a.test"%string ∧ take 6 (drop (sn_Index sn) (hello_record named_hello)) = bytes_of_string "a.test".
Proof.
  destruct (server_name_found named_hello 100 named_hello_ok) as (o & Ho & Hs);
    [vm_compute; lia|vm_compute; reflexivity|]. cbn [named_hello first_name he_extensions sample_hello] in Hs.
  destruct o as [sn|]; [|destruct Hs]. exists sn. split; [exact Ho|exact Hs].
Defined.

Definition ex_sn (name : string) : MyServerName := mkMyServerName 65 (Z.of_nat (String.length name)) name.

Lemma fragments_put_together_witness :
  ∃ actions ps, fragment_actions last_choice (NewConn true false true) (ex_name "www.a.test") (ex_sn "www.a.test") = Ok actions ∧
    read_records 2 (written actions) = (Ok ((λ p, (take 3 (ex_name "www.a.test"), p)) <$> ps), []) ∧
    concat ps = drop 5 (ex_name "www.a.test").
Proof.
  pose proof (fragments_put_together last_choice last_choice_lt (NewConn true false true) (ex_name "www.a.test") (ex_sn "www.a.test") 100
    ltac:(vm_compute; reflexivity) ltac:(vm_compute; reflexivity) ltac:(reflexivity)) as Hw.
  destruct (fragment_actions last_choice _ _ _) as [actions|e|p] eqn:E; [|destruct Hw|vm_compute in E; discriminate].
  destruct Hw as (ps & Hr & Hc). exists actions, ps. split; [reflexivity|]. split; [exact Hr|exact Hc].
Defined.

(** The purpose is missed: with the first choice the second packet has the whole name. *)
Lemma name_left_whole_witness :
  ∃ first second, pieces false (ex_name "www.a.test") [65%nat] = Ok [first; second] ∧
    bytes_of_string "www.a.test" `prefix_of` second.
Proof.
  destruct (name_left_whole first_choice first_choice_lt (NewConn true true false) (ex_name "www.a.test") (ex_sn "www.a.test") 100
    ltac:(vm_compute; reflexivity) ltac:(vm_compute; reflexivity) ltac:(discriminate) ltac:(discriminate))
    as (label & Hl & Hp & _ & Hw).
  injection Hl as <-. eexists _, _. split; [exact Hp|apply Hw; reflexivity].
Defined.

(** A client that sends an empty name, or one that begins with a dot, makes the random choice panic. *)
Lemma empty_name_panics :
  (IndexTLSServerName 100 (ex_name "") = Some (Ok (Some (ex_sn ""))) ∧
   fragment_actions last_choice (NewConn true true true) (ex_name "") (ex_sn "") = Panic Intn_panic) ∧
  (IndexTLSServerName 100 (ex_name ".a") = Some (Ok (Some (ex_sn ".a"))) ∧
   fragment_actions last_choice (NewConn true true true) (ex_name ".a") (ex_sn ".a") = Panic Intn_panic).
Proof. by vm_compute. Qed.

(** A first write in packets, on a connection that accepts everything: the records of what is done. *)
Lemma write_in_packets :
  let record (a : Action) (w : list Action) := (None : option error, w ++ [a]) in
  let b := ex_name "www.a.test" in
  Conn_Write last_choice record 100 b (NewConn true true false) [] =
    Some (Ok (length b), mkConn true true true false,
      [A_SetNoDelay true; A_writeAndWaitAck (take 67 b); A_Write (drop 67 b); A_SetNoDelay false]).
Proof. by vm_compute. Qed.

(** An extension that is followed by itself. *)
Definition looping_extension : list byte := be_bytes 2 5 ++ be_bytes 2 65532 ++ repeat x00 65532.
Definition looping_payload : list byte :=
  [Z_byte 22] ++ be_bytes 2 0x0301 ++ be_bytes 2 0 ++
  [Z_byte 1] ++ be_bytes 3 65576 ++ be_bytes 2 0x0303 ++ repeat x00 32 ++
  [x00] ++ [x00; x00] ++ [x00] ++ [x00; x00] ++ looping_extension.

Lemma looping_turn ci : ∃ ci', extension_turn ci looping_extension = Ok (inr (ci', looping_extension)).
Proof.
  unfold extension_turn, extensionHeaderLen.
  assert (Nat.ltb (length looping_extension) 4 = false) as -> by (vm_compute; reflexivity).
  assert (idx16 looping_extension 0 = Ok 5) as -> by (vm_compute; reflexivity).
  assert (idx16 looping_extension 2 = Ok 65532) as -> by (vm_compute; reflexivity). cbn [mbind res_bind].
  assert (Z.ltb (Z.of_nat (length looping_extension)) (Z.of_nat 4 + 65532) = false) as -> by (vm_compute; reflexivity).
  change (Z.eqb 5 0) with false. cbn iota.
  assert (Z.to_nat (u16 (4 + 65532)) = 0%nat) as -> by (vm_compute; reflexivity).
  rewrite slice_from_le by lia. by eexists.
Qed.

(** More than 65535 bytes in one write can keep the search in its loop forever. *)
Lemma search_never_ends fuel : IndexTLSServerName fuel looping_payload = None.
Proof.
  unfold IndexTLSServerName, recordLayerHeaderLen.
  assert (Nat.ltb (length looping_payload) 5 = false) as -> by (vm_compute; reflexivity).
  assert (idx looping_payload 0 = Ok 22) as -> by (vm_compute; reflexivity).
  assert (idx16 looping_payload 3 = Ok 0) as -> by (vm_compute; reflexivity). cbn [mbind res_bind].
  change (negb (Z.eqb 22 contentType)) with false. cbn iota.
  assert (Z.ltb (Z.of_nat (length looping_payload)) (Z.of_nat 5 + 0) = false) as -> by (vm_compute; reflexivity).
  unfold indexTLSServerNameFromHandshake.
  assert (extensions_start (drop 5 looping_payload) = Ok (Some 42%nat)) as -> by (vm_compute; reflexivity).
  unfold indexTLSServerNameFromExtensions, extensionsHeaderLen.
  change (drop 42 (drop 5 looping_payload)) with ([x00; x00] ++ looping_extension).
  assert (nonempty ([x00; x00] ++ looping_extension) = true) as -> by reflexivity. cbn [negb].
  assert (Nat.ltb (length ([x00; x00] ++ looping_extension)) 2 = false) as -> by (vm_compute; reflexivity).
  assert (idx16 ([x00; x00] ++ looping_extension) 0 = Ok 0) as -> by (vm_compute; reflexivity). cbn [mbind res_bind].
  rewrite slice_from_app by reflexivity. cbn [mbind res_bind].
  assert (Z.ltb (Z.of_nat (length looping_extension)) 0 = false) as -> by (vm_compute; reflexivity).
  by rewrite (loop_forever looping_extension eq_refl looping_turn).
Qed.

End Examples.
