(* ===== verification/Trojan.v ===== *)
(** * The Trojan protocol (transport/trojan)

    A client writes a header in front of its first bytes or its first packet; the service reads it,
    finds the user by the key and hands the connection on, or gives everything it has read to a
    fallback.  The bytes of an address are made and read by a library, and so is the hash of the
    password. *)

From stdpp Require Import base gmap strings list numbers.
From S2P Require Import Prelude GoStd Netip GoIO Adapter Streams.

Local Open Scope Z_scope.

(** [crypto/sha256.Sum224]; [SocksaddrSerializer] of sing/common/metadata; [ReadFullFrom] of a buffer
    with some room.  [addr_read] is the address that is read back: the same one, up to its form. *)
Class TrojanLib := {
  Sum224 : list byte → list byte;
  AddrPortLen : Socksaddr → nat;
  WriteAddrPort : Socksaddr → res (list byte);
  ReadAddrPort : Reader Socksaddr;
  addr_read : Socksaddr → Socksaddr;
  MaxSocksaddrLength : nat;
  ReadFullFrom : nat → nat → Reader (list byte);
  Sum224_length : ∀ l, length (Sum224 l) = 28%nat;
  WriteAddrPort_length : ∀ d b, WriteAddrPort d = Ok b → length b = AddrPortLen d;
  WriteAddrPort_reads : ∀ d b, WriteAddrPort d = Ok b → reads ReadAddrPort b (addr_read d);
  AddrPortLen_max : ∀ d b, WriteAddrPort d = Ok b → (AddrPortLen d ≤ MaxSocksaddrLength)%nat;
  ReadFullFrom_room : ∀ room n, (n ≤ room)%nat → ReadFullFrom room n = ReadFull n
}.

(** ** Buffers

    A buffer has room in front of its bytes, with whatever was left there. *)
Record Buffer : Type := mkBuffer { bf_front : list byte; bf_data : list byte }.

Definition short_buffer : list arg := [AStr "short buffer"].

(** [buf.With(buffer.ExtendHeader(n))] and the writes into it. *)
Definition write_header (n : nat) (header : list byte) (buffer : Buffer) : res Buffer :=
  let start := length (bf_front buffer) in
  if Nat.ltb start n then Panic [AStr "buffer overflow"] else
  if Nat.ltb n (length header) then Panic short_buffer else
  Ok (mkBuffer (take (start - n) (bf_front buffer))
        (header ++ drop (start - n + length header) (bf_front buffer) ++ bf_data buffer)).

(** The writes into [buf.NewSize(n)]. *)
Definition new_header (n : nat) (header : list byte) : res (list byte) :=
  if Nat.ltb n (length header) then Panic short_buffer else Ok header.

Section Trojan.
Context `{TrojanLib}.

(** [transport/trojan/protocol.go:20-25] constants *)
Definition KeyLength : nat := 56.
Definition CommandTCP : Z := 1.
Definition CommandUDP : Z := 3.
Definition CommandMux : Z := 127.

(** [transport/trojan/protocol.go:27] CRLF *)
Definition CRLF : list byte := [x0d; x0a].

(** [hex.Encode] *)
Definition hex_digit (v : Z) : byte := Z_byte (if Z.ltb v 10 then 48 + v else 87 + v).
Definition hex_encode (l : list byte) : list byte :=
  concat ((λ b, [hex_digit (byte_Z b / 16); hex_digit (byte_Z b mod 16)]) <$> l).

(** [transport/trojan/protocol.go:171-177] Key *)
Definition Key (password : string) : list byte := hex_encode (Sum224 (bytes_of_string password)).

(** ** The client *)

(** The connection under it. *)
Context {W : Type} (Write : list byte → W → option error * W).

(** Writes, one after the other, up to the first error. *)
Fixpoint write_all (parts : list (list byte)) (w : W) : option error * W :=
  match parts with
  | [] => (None, w)
  | p :: parts => match Write p w with (None, w) => write_all parts w | r => r end
  end.
Definition cause_write (message : string) (r : option error * W) : res () * W :=
  (match r.1 with None => Ok tt | Some e => Err (E_Cause e [AStr message]) end, r.2).

(** An address that cannot be written is noticed after the writes before it.

    [transport/trojan/protocol.go:179-207] ClientHandshakeRaw *)
Definition ClientHandshakeRaw (key : list byte) (command : Z) (destination : Socksaddr) (payload : list byte) (w : W)
    : res () * W :=
  match write_all [key; CRLF; [Z_byte command]] w with
  | (Some e, w) => (Err e, w)
  | (None, w) =>
      match WriteAddrPort destination with
      | Err e => (Err e, w)
      | Panic p => (Panic p, w)
      | Ok address =>
          let '(e, w) := write_all ([address; CRLF] ++ (if nonempty payload then [payload] else [])) w in
          (match e with None => Ok tt | Some e => Err e end, w)
      end
  end.

(** [transport/trojan/protocol.go:209-227] ClientHandshake *)
Definition ClientHandshake (key : list byte) (destination : Socksaddr) (payload : list byte) (w : W) : res () * W :=
  match (address ← WriteAddrPort destination;
         new_header (KeyLength + AddrPortLen destination + 5 + length payload)
           (key ++ CRLF ++ [Z_byte CommandTCP] ++ address ++ CRLF ++ payload)) with
  | Ok header => cause_write "write request" (Write header w)
  | Err e => (Err e, w)
  | Panic p => (Panic p, w)
  end.

(** [transport/trojan/protocol.go:229-245] ClientHandshakeBuffer *)
Definition ClientHandshakeBuffer (key : list byte) (destination : Socksaddr) (payload : Buffer) (w : W) : res () * W :=
  match (address ← WriteAddrPort destination;
         write_header (KeyLength + AddrPortLen destination + 5)
           (key ++ CRLF ++ [Z_byte CommandTCP] ++ address ++ CRLF) payload) with
  | Ok payload => cause_write "write request" (Write (bf_data payload) w)
  | Err e => (Err e, w)
  | Panic p => (Panic p, w)
  end.

Definition packet_length (l : list byte) : list byte := be_bytes 2 (u16 (Z.of_nat (length l))).

(** The header has the room in front of the payload, or is written on its own.

    [transport/trojan/protocol.go:247-283] ClientHandshakePacket *)
Definition ClientHandshakePacket (key : list byte) (destination : Socksaddr) (payload : Buffer) (w : W) : res () * W :=
  let headerLen := (KeyLength + 2 * AddrPortLen destination + 9)%nat in
  match WriteAddrPort destination with
  | Err e => (Err e, w)
  | Panic p => (Panic p, w)
  | Ok address =>
      let header := key ++ CRLF ++ [Z_byte CommandUDP] ++ address ++ CRLF ++ address ++
                    packet_length (bf_data payload) ++ CRLF in
      if Nat.leb headerLen (length (bf_front payload)) then
        match write_header headerLen header payload with
        | Ok payload => cause_write "write payload" (Write (bf_data payload) w)
        | Err e => (Err e, w)
        | Panic p => (Panic p, w)
        end
      else
        match new_header headerLen header with
        | Ok header =>
            match Write header w with
            | (Some e, w) => (Err (E_Cause e [AStr "write request"]), w)
            | (None, w) => cause_write "write payload" (Write (bf_data payload) w)
            end
        | Err e => (Err e, w)
        | Panic p => (Panic p, w)
        end
  end.

(** [transport/trojan/protocol.go:306-321] WritePacket *)
Definition WritePacket (buffer : Buffer) (destination : Socksaddr) (w : W) : res () * W :=
  match (address ← WriteAddrPort destination;
         write_header (AddrPortLen destination + 4) (address ++ packet_length (bf_data buffer) ++ CRLF) buffer) with
  | Ok buffer => cause_write "write packet" (Write (bf_data buffer) w)
  | Err e => (Err e, w)
  | Panic p => (Panic p, w)
  end.

(** [transport/trojan/protocol.go:31-36] ClientConn *)
Record ClientConn : Type := mkClientConn {
  cc_key : list byte;
  cc_destination : Socksaddr;
  cc_headerWritten : bool
}.

(** [transport/trojan/protocol.go:38-44] NewClientConn *)
Definition NewClientConn (key : list byte) (destination : Socksaddr) : ClientConn := mkClientConn key destination false.

Definition header_written (c : ClientConn) : ClientConn := mkClientConn (cc_key c) (cc_destination c) true.

(** A write of the connection under it is whole when it does not fail.

    [transport/trojan/protocol.go:50-61] (ClientConn).Write *)
Definition ClientConn_Write (p : list byte) (c : ClientConn) (w : W) : res nat * ClientConn * W :=
  if cc_headerWritten c then
    let '(e, w) := Write p w in (match e with None => Ok (length p) | Some e => Err e end, c, w)
  else
    match ClientHandshake (cc_key c) (cc_destination c) p w with
    | (Ok _, w) => (Ok (length p), header_written c, w)
    | (Err e, w) => (Err e, c, w)
    | (Panic m, w) => (Panic m, c, w)
    end.

(** [transport/trojan/protocol.go:63-73] (ClientConn).WriteBuffer *)
Definition ClientConn_WriteBuffer (buffer : Buffer) (c : ClientConn) (w : W) : res () * ClientConn * W :=
  if cc_headerWritten c then
    let '(e, w) := Write (bf_data buffer) w in (match e with None => Ok tt | Some e => Err e end, c, w)
  else
    match ClientHandshakeBuffer (cc_key c) (cc_destination c) buffer w with
    | (Ok _, w) => (Ok tt, header_written c, w)
    | (r, w) => (r, c, w)
    end.

(** [transport/trojan/protocol.go:75-80] (ClientConn).FrontHeadroom *)
Definition ClientConn_FrontHeadroom (c : ClientConn) : nat :=
  if cc_headerWritten c then 0 else KeyLength + 5 + MaxSocksaddrLength.

(** [transport/trojan/protocol.go:94-100] ClientPacketConn *)
Record ClientPacketConn : Type := mkClientPacketConn { pc_key : list byte; pc_headerWritten : bool }.

(** [transport/trojan/protocol.go:102-107] NewClientPacketConn *)
Definition NewClientPacketConn (key : list byte) : ClientPacketConn := mkClientPacketConn key false.

(** The header counts as written also when it was not.

    [transport/trojan/protocol.go:117-130] (ClientPacketConn).WritePacket *)
Definition ClientPacketConn_WritePacket (buffer : Buffer) (destination : Socksaddr) (c : ClientPacketConn) (w : W)
    : res () * ClientPacketConn * W :=
  if pc_headerWritten c then let '(r, w) := WritePacket buffer destination w in (r, c, w)
  else
    let '(r, w) := ClientHandshakePacket (pc_key c) destination buffer w in
    (r, mkClientPacketConn (pc_key c) true, w).

(** [transport/trojan/protocol.go:160-165] (ClientPacketConn).FrontHeadroom *)
Definition ClientPacketConn_FrontHeadroom (c : ClientPacketConn) : nat :=
  if pc_headerWritten c then MaxSocksaddrLength + 4 else KeyLength + 2 * MaxSocksaddrLength + 9.

(** ** The service *)

(** A packet, read into a buffer with some room.

    [transport/trojan/protocol.go:285-304] ReadPacket *)
Definition ReadPacket (room : nat) : OnConn (Socksaddr * list byte) :=
  destination ← conn_cause [AStr "read destination"] (of_reader ReadAddrPort);
  length ← conn_cause [AStr "read chunk length"] (of_reader (ReadBE 2));
  _ ← conn_cause [AStr "skip crlf"] (of_reader (SkipN 2));
  payload ← of_reader (ReadFullFrom room (Z.to_nat length));
  mret (destination, payload).

Context {K : Type} `{Countable K}.

(** [transport/trojan/service.go:23-29] Service *)
Record Service : Type := mkService {
  sv_users : gmap K (list byte);
  sv_keys : gmap (list byte) K;
  sv_fallbackHandler : bool
}.

(** [transport/trojan/service.go:31-39] NewService *)
Definition NewService (fallbackHandler : bool) : Service := mkService ∅ ∅ fallbackHandler.

(** [transport/trojan/service.go:41] ErrUserExists *)
Definition ErrUserExists : error := E_New [AStr "user already exists"].
Definition index_panic : list arg := [AStr "index out of range"].

(** The text of a user is left out of the error.

    [transport/trojan/service.go:46-56] (Service).UpdateUsers (loop) *)
Fixpoint update_users (userList : list K) (passwordList : list string) (users : gmap K (list byte))
    (keys : gmap (list byte) K) : res (gmap K (list byte) * gmap (list byte) K) :=
  match userList with
  | [] => Ok (users, keys)
  | user :: userList =>
      match users !! user with
      | Some _ => Err ErrUserExists
      | None =>
          match passwordList with
          | [] => Panic index_panic
          | password :: passwordList =>
              let key := Key password in
              match keys !! key with
              | Some _ => Err (E_Cause ErrUserExists [AStr "password used by "])
              | None => update_users userList passwordList (<[user := key]> users) (<[key := user]> keys)
              end
          end
      end
  end.

(** [transport/trojan/service.go:43-60] (Service).UpdateUsers *)
Definition UpdateUsers (userList : list K) (passwordList : list string) (s : Service) : res () * Service :=
  match update_users userList passwordList ∅ ∅ with
  | Ok (users, keys) => (Ok tt, mkService users keys (sv_fallbackHandler s))
  | Err e => (Err e, s)
  | Panic p => (Panic p, s)
  end.

(** Whom a connection is handed to, with what is left to read of it. *)
Inductive Handed : Type :=
| H_Connection (user : K) (destination : Socksaddr) (conn : Stream)
| H_PacketConnection (user : K) (destination : Socksaddr) (conn : Stream)
| H_Mux (user : K) (conn : Stream)
| H_Fallback (conn : Stream).

(** [transport/trojan/service.go:117-124] (Service).fallback *)
Definition fallback (s : Service) (conn : Stream) (header : list byte) (err : error) : res Handed :=
  if negb (sv_fallbackHandler s) then Err (E_Cause err [AStr "fallback disabled"])
  else Ok (H_Fallback (if nonempty header then header :: conn else conn)).

(** The command and the destination, and what is left.

    [transport/trojan/service.go:77-103] (Service).NewConnection (request) *)
Definition read_request : OnConn (Z * Socksaddr) :=
  _ ← conn_cause [AStr "skip crlf"] (of_reader (SkipN 2));
  command ← conn_cause [AStr "read command"] (of_reader (ReadBE 1));
  if negb (Z.eqb command CommandTCP || Z.eqb command CommandUDP || Z.eqb command CommandMux)
  then conn_res (Err (E_New [AStr "unknown command "; AInt command])) else
  destination ← conn_cause [AStr "read destination"] (of_reader ReadAddrPort);
  _ ← conn_cause [AStr "skip crlf"] (of_reader (SkipN 2));
  mret (command, destination).

(** [transport/trojan/service.go:62-115] (Service).NewConnection *)
Definition NewConnection (s : Service) (conn : Stream) : res Handed :=
  match Conn_Read KeyLength conn with
  | (Err e, _) => Err e
  | (Panic p, _) => Panic p
  | (Ok key, conn) =>
      if negb (Nat.eqb (length key) KeyLength) then fallback s conn key (E_New [AStr "bad request size"]) else
      match sv_keys s !! key with
      | None => fallback s conn key (E_New [AStr "bad request"])
      | Some user =>
          match read_request conn with
          | (Err e, _) => Err e
          | (Panic p, _) => Panic p
          | (Ok (command, destination), conn) =>
              Ok (if Z.eqb command CommandTCP then H_Connection user destination conn
                  else if Z.eqb command CommandUDP then H_PacketConnection user destination conn
                  else H_Mux user conn)
          end
      end
  end.

(** ** Multiplexed connections *)

(** The bytes that are buffered go to a buffer, of which [Len()], which is 0, are read.

    [transport/trojan/mux.go:51-78] newMuxConnection0 *)
Definition newMuxConnection0 (user : K) (conn : Stream) : res Handed :=
  match on_bufio ReadByte ([], conn) with
  | (Err e, _) => Err (E_Cause e [AStr "read command"])
  | (Panic p, _) => Panic p
  | (Ok command, reader) =>
      match on_bufio ReadAddrPort reader with
      | (Err e, _) => Err (E_Cause e [AStr "read destination"])
      | (Panic p, _) => Panic p
      | (Ok destination, (_, conn)) =>
          if Z.eqb (byte_Z command) CommandTCP then Ok (H_Connection user destination conn)
          else if Z.eqb (byte_Z command) CommandUDP then Ok (H_PacketConnection user destination conn)
          else Err (E_New [AStr "unknown command "; AInt (byte_Z command)])
      end
  end.

End Trojan.

(** ** Theorems *)

Section TrojanTheorems.
Context `{TrojanLib} {K : Type} `{Countable K}.

Lemma Key_length password : length (Key password) = KeyLength.
Proof.
  unfold Key, hex_encode. assert (∀ l, length (concat ((λ b, [hex_digit (byte_Z b / 16); hex_digit (byte_Z b mod 16)]) <$> l)) = 2 * length l)%nat as Hl.
  { induction l as [|b l IH]; [done|]. cbn [fmap list_fmap concat app length]. cbn in IH. rewrite IH. lia. }
  by rewrite Hl, Sum224_length.
Qed.

(** *** The header *)

(** What a client writes first. *)
Definition request_bytes (key : list byte) (command : Z) (address : list byte) : list byte :=
  key ++ CRLF ++ [Z_byte command] ++ address ++ CRLF.

Lemma write_header_exact n header buffer :
  length header = n → (n ≤ length (bf_front buffer))%nat →
  write_header n header buffer =
    Ok (mkBuffer (take (length (bf_front buffer) - n) (bf_front buffer)) (header ++ bf_data buffer)).
Proof.
  intros <- Hn. unfold write_header. rewrite (proj2 (Nat.ltb_ge _ _)) by done. rewrite Nat.ltb_irrefl.
  rewrite drop_ge; [done|lia].
Qed.

Lemma ClientHandshake_writes key d payload w address :
  length key = KeyLength → WriteAddrPort d = Ok address →
  ClientHandshake record key d payload w = (Ok tt, w ++ [request_bytes key CommandTCP address ++ payload]).
Proof.
  intros Hk Ha. unfold ClientHandshake. rewrite Ha. cbn [mbind res_bind].
  pose proof (WriteAddrPort_length _ _ Ha) as Hl. unfold new_header.
  rewrite (proj2 (Nat.ltb_ge _ _)).
  - unfold cause_write, record, request_bytes. cbn [fst snd]. by rewrite <-!app_assoc.
  - rewrite !length_app, Hk, Hl. cbn. lia.
Qed.

Lemma ClientHandshakeBuffer_writes key d buffer w address :
  length key = KeyLength → WriteAddrPort d = Ok address →
  (KeyLength + 5 + MaxSocksaddrLength ≤ length (bf_front buffer))%nat →
  ClientHandshakeBuffer record key d buffer w = (Ok tt, w ++ [request_bytes key CommandTCP address ++ bf_data buffer]).
Proof.
  intros Hk Ha Hroom. unfold ClientHandshakeBuffer. rewrite Ha. cbn [mbind res_bind].
  pose proof (WriteAddrPort_length _ _ Ha) as Hl. pose proof (AddrPortLen_max _ _ Ha).
  rewrite write_header_exact; [|rewrite !length_app, Hk, Hl; cbn; lia|lia].
  done.
Qed.

Lemma ClientHandshakeRaw_writes key command d payload address :
  WriteAddrPort d = Ok address →
  ∃ w, ClientHandshakeRaw record key command d payload [] = (Ok tt, w) ∧
    concat w = request_bytes key command address ++ payload.
Proof.
  intros Ha. unfold ClientHandshakeRaw. cbn [write_all record app]. rewrite Ha. unfold request_bytes.
  destruct payload as [|b payload]; eexists; (split; [reflexivity|]); cbn [concat app nonempty];
    rewrite <-!app_assoc, ?app_nil_r; cbn [app]; rewrite <-?app_assoc; reflexivity.
Qed.

(** What a packet is in the stream. *)
Definition packet_bytes (address payload : list byte) : list byte := address ++ packet_length payload ++ CRLF ++ payload.

Lemma WritePacket_writes buffer d w address :
  WriteAddrPort d = Ok address → (MaxSocksaddrLength + 4 ≤ length (bf_front buffer))%nat →
  WritePacket record buffer d w = (Ok tt, w ++ [packet_bytes address (bf_data buffer)]).
Proof.
  intros Ha Hroom. unfold WritePacket. rewrite Ha. cbn [mbind res_bind].
  pose proof (WriteAddrPort_length _ _ Ha) as Hl. pose proof (AddrPortLen_max _ _ Ha).
  rewrite write_header_exact; [|unfold packet_length; rewrite !length_app, be_bytes_length, Hl; cbn; lia|lia].
  unfold cause_write, record, packet_bytes. cbn [fst snd bf_data]. by rewrite <-!app_assoc.
Qed.

Lemma ClientHandshakePacket_writes key d buffer w address :
  length key = KeyLength → WriteAddrPort d = Ok address →
  ∃ w', ClientHandshakePacket record key d buffer w = (Ok tt, w ++ w') ∧
    concat w' = request_bytes key CommandUDP address ++ packet_bytes address (bf_data buffer).
Proof.
  intros Hk Ha. unfold ClientHandshakePacket. rewrite Ha. pose proof (WriteAddrPort_length _ _ Ha) as Hl.
  set (header := key ++ _).
  assert (length header = KeyLength + 2 * AddrPortLen d + 9)%nat as Hlen.
  { unfold header, packet_length. rewrite !length_app, be_bytes_length, Hk, Hl. cbn. lia. }
  assert (header ++ bf_data buffer = request_bytes key CommandUDP address ++ packet_bytes address (bf_data buffer)) as Hb.
  { unfold header, request_bytes, packet_bytes. by rewrite <-!app_assoc. }
  destruct (Nat.leb_spec (KeyLength + 2 * AddrPortLen d + 9) (length (bf_front buffer))).
  - rewrite write_header_exact by done. exists [header ++ bf_data buffer].
    unfold cause_write, record. cbn [fst snd concat bf_data]. rewrite app_nil_r. split; [done|exact Hb].
  - unfold new_header. rewrite Hlen, Nat.ltb_irrefl. exists [header; bf_data buffer].
    unfold cause_write, record. cbn [fst snd concat]. rewrite <-app_assoc, app_nil_r. split; [done|exact Hb].
Qed.

(** *** Reading it *)

Lemma reads_SkipN l : reads (SkipN (Z.of_nat (length l))) l tt.
Proof.
  intros rest. unfold SkipN. rewrite length_app, (proj2 (Z.ltb_ge _ _)) by lia. by rewrite Nat2Z.id, drop_app_length.
Qed.

Lemma reads_packet room d payload address :
  WriteAddrPort d = Ok address → (length payload ≤ room)%nat → Z.of_nat (length payload) < 2 ^ 16 →
  stream_reads (ReadPacket room) (packet_bytes address payload) (addr_read d, payload).
Proof.
  intros Ha Hroom Hl. unfold ReadPacket, packet_bytes, packet_length. rewrite (wrap_id 16) by (unfold is_u; lia).
  eapply stream_reads_bind; [apply stream_reads_cause, of_reader_reads; by apply WriteAddrPort_reads|].
  eapply stream_reads_bind; [apply stream_reads_cause, of_reader_reads, reads_be; lia|].
  eapply stream_reads_bind; [apply stream_reads_cause, of_reader_reads, (reads_SkipN CRLF)|].
  rewrite Nat2Z.id, ReadFullFrom_room by done.
  rewrite <-(app_nil_r payload) at 2. eapply stream_reads_bind; [by apply of_reader_reads, reads_full|]. apply stream_reads_ret.
Qed.

Lemma reads_request command d address :
  command ∈ [CommandTCP; CommandUDP; CommandMux] → WriteAddrPort d = Ok address →
  stream_reads read_request (CRLF ++ [Z_byte command] ++ address ++ CRLF) (command, addr_read d).
Proof.
  intros Hc Ha. unfold read_request.
  assert (0 ≤ command < 256 ∧ (Z.eqb command CommandTCP || Z.eqb command CommandUDP || Z.eqb command CommandMux) = true) as [Hr Hk].
  { repeat (apply elem_of_cons in Hc as [->|Hc]; [done|]). by apply elem_of_nil in Hc. }
  eapply stream_reads_bind; [apply stream_reads_cause, of_reader_reads, (reads_SkipN CRLF)|].
  assert ([Z_byte command] = be_bytes 1 command) as -> by done.
  eapply stream_reads_bind; [apply stream_reads_cause, of_reader_reads, reads_be; done|].
  rewrite Hk. cbn [negb].
  eapply stream_reads_bind; [apply stream_reads_cause, of_reader_reads; by apply WriteAddrPort_reads|].
  rewrite <-(app_nil_r CRLF). eapply stream_reads_bind; [apply stream_reads_cause, of_reader_reads, (reads_SkipN CRLF)|].
  apply stream_reads_ret.
Qed.

(** A request whose key arrives in one piece is recognised, whatever the other segments. *)
Lemma NewConnection_request (s : Service) (user : K) key command d address conn rest :
  sv_keys s !! key = Some user → length key = KeyLength → command ∈ [CommandTCP; CommandUDP; CommandMux] →
  WriteAddrPort d = Ok address → concat conn = request_bytes key command address ++ rest →
  (∃ first, head conn = Some first ∧ (KeyLength ≤ length first)%nat) →
  ∃ conn', concat conn' = rest ∧
    NewConnection s conn =
      Ok (if Z.eqb command CommandTCP then H_Connection user (addr_read d) conn'
          else if Z.eqb command CommandUDP then H_PacketConnection user (addr_read d) conn' else H_Mux user conn').
Proof.
  intros Hkey Hl Hc Ha Hconn (first & Hf & Hfl). destruct conn as [|x conn]; [done|]. injection Hf as ->.
  unfold request_bytes in Hconn. rewrite <-app_assoc in Hconn.
  pose proof (Conn_Read_spec KeyLength (first :: conn)) as Hr. unfold NewConnection.
  assert (∃ s', Conn_Read KeyLength (first :: conn) = (Ok key, s')) as [s' Hs'].
  { assert (take KeyLength first = key) as Ht.
    { rewrite <-Hl at 1. apply (f_equal (take (length key))) in Hconn.
      by rewrite take_app_length in Hconn; cbn in Hconn; rewrite take_app_le in Hconn by lia. }
    cbn [Conn_Read]. destruct (Nat.leb_spec (length first) KeyLength).
    - rewrite take_ge in Ht by done. subst. by eexists.
    - rewrite Ht. by eexists. }
  rewrite Hs' in *. destruct Hr as [Hr _]. rewrite Hconn in Hr. apply app_inv_head in Hr.
  rewrite Hl, Nat.eqb_refl, Hkey. cbn [negb].
  destruct (stream_reads_rest read_request _ _ s' rest (reads_request command d address Hc Ha)) as (conn' & -> & Hrest).
  { rewrite <-Hr. by rewrite <-!app_assoc. }
  by exists conn'.
Qed.

(** *** The users *)

(** The two maps are inverse to each other. *)
Definition users_inverse (users : gmap K (list byte)) (keys : gmap (list byte) K) : Prop :=
  ∀ u k, users !! u = Some k ↔ keys !! k = Some u.

Lemma update_users_spec ul : ∀ pl users keys, users_inverse users keys →
  match update_users ul pl users keys with
  | Ok (users', keys') => users_inverse users' keys' ∧
      (∀ u k, users' !! u = Some k ↔ users !! u = Some k ∨
         ∃ i password, ul !! i = Some u ∧ pl !! i = Some password ∧ k = Key password)
  | Err _ => ¬ (NoDup ul ∧ NoDup (Key <$> pl) ∧ (∀ u, u ∈ ul → users !! u = None) ∧
      (∀ password, password ∈ pl → keys !! Key password = None))
  | Panic _ => (length pl < length ul)%nat
  end.
Proof.
  induction ul as [|user ul IH]; intros pl users keys Hinv; cbn [update_users].
  { split; [done|]. intros u k. split; [by left|]. by intros [?|(i & p & ? & _)]. }
  destruct (users !! user) as [k0|] eqn:Eu.
  { intros (_ & _ & Hu & _). by rewrite (Hu user (list_elem_of_here _ _)) in Eu. }
  destruct pl as [|password pl]; [cbn; lia|].
  destruct (keys !! Key password) as [u0|] eqn:Ek.
  { intros (_ & _ & _ & Hk). by rewrite (Hk password (list_elem_of_here _ _)) in Ek. }
  assert (users_inverse (<[user := Key password]> users) (<[Key password := user]> keys)) as Hinv'.
  { intros u k. rewrite !lookup_insert_Some. split.
    - intros [[<- <-]|[Hne Hu]]; [by left|]. right. split; [|by apply Hinv]. intros <-. apply Hinv in Hu. congruence.
    - intros [[<- <-]|[Hne Hk]]; [by left|]. right. split; [|by apply Hinv]. intros <-. apply Hinv in Hk. congruence. }
  specialize (IH pl _ _ Hinv'). destruct (update_users ul pl _ _) as [[users' keys']|e|p]; [|contradict IH|cbn; lia].
  - destruct IH as [Hi Hu]. split; [done|]. intros u k. rewrite Hu, lookup_insert_Some. split.
    + intros [[[<- <-]|[_ ?]]|(i & pw & ? & ? & ?)]; [|by left|]; right; [by exists 0%nat, password|by exists (S i), pw].
    + intros [Hk|([|i] & pw & Hi1 & Hi2 & ->)].
      * left. right. split; [|done]. intros ->. congruence.
      * injection Hi1 as ->. injection Hi2 as ->. left. by left.
      * right. by exists i, pw.
  - destruct IH as (Hul & Hpl & Hu & Hk). apply list.NoDup_cons in Hul as [Hnu Hul].
    change (NoDup (Key password :: (Key <$> pl))) in Hpl. apply list.NoDup_cons in Hpl as [Hnk Hpl].
    split_and!; [done..| |].
    + intros u Hin. rewrite lookup_insert_ne; [apply Hu; by right|]. by intros <-.
    + intros pw Hin. rewrite lookup_insert_ne; [apply Hk; by right|]. intros Hkk. apply Hnk. rewrite Hkk. by apply list_elem_of_fmap_2.
Qed.

(** The users of a service: after [UpdateUsers] a key belongs to a user exactly when it is that of
    the password of the user, and no key to two users; two users with one name or one password are
    refused, and then nothing is changed; the only panic is that of a missing password. *)
Theorem UpdateUsers_spec ul pl (s : Service (K := K)) :
  match UpdateUsers ul pl s with
  | (Ok _, s') => ∀ u k, (sv_users s' !! u = Some k ↔ sv_keys s' !! k = Some u) ∧
      (sv_keys s' !! k = Some u ↔ ∃ i password, ul !! i = Some u ∧ pl !! i = Some password ∧ k = Key password)
  | (Err _, s') => s' = s ∧ ¬ (NoDup ul ∧ NoDup (Key <$> pl))
  | (Panic _, s') => s' = s ∧ (length pl < length ul)%nat
  end.
Proof.
  unfold UpdateUsers. pose proof (update_users_spec ul pl ∅ ∅) as Hs.
  assert (users_inverse (∅ : gmap K (list byte)) ∅) as Hempty by (intros u k; by rewrite !lookup_empty).
  specialize (Hs Hempty). destruct (update_users ul pl ∅ ∅) as [[users keys]|e|p]; [|split; [done|]|done].
  - destruct Hs as [Hi Hu]. intros u k. cbn. split; [apply Hi|]. rewrite <-(Hi u k), Hu, lookup_empty.
    split; [by intros [?|?]|by right].
  - intros [Hul Hpl]. apply Hs. split_and!; [done..| |]; intros; apply lookup_empty.
Qed.

Lemma UpdateUsers_key ul pl (s s' : Service (K := K)) r i user password :
  UpdateUsers ul pl s = (Ok r, s') → ul !! i = Some user → pl !! i = Some password → sv_keys s' !! Key password = Some user.
Proof.
  intros Hs Hu Hp. unfold UpdateUsers in Hs. pose proof (update_users_spec ul pl ∅ ∅) as Hsp.
  assert (users_inverse (∅ : gmap K (list byte)) ∅) as Hempty by (intros u k; by rewrite !lookup_empty).
  specialize (Hsp Hempty). destruct (update_users ul pl ∅ ∅) as [[users keys]|e|p]; [|done..].
  injection Hs as _ <-. destruct Hsp as [Hi Huu]. cbn. apply Hi, Huu. right. by exists i, password.
Qed.

(** *** From the client to the handler *)

(** The first segment has the whole key. *)
Definition key_in_one_piece (conn : Stream) : Prop :=
  ∃ first, head conn = Some first ∧ (KeyLength ≤ length first)%nat.

(** C29: a stream reaches the handler of the service as it was written: for a user of the service, with
    the room that [FrontHeadroom] asks for, the first write of a client, of either kind, is accepted, and
    however it and what follows it are cut into segments, as long as the key is in the first one, the
    service hands over the destination, the user, and a connection from which exactly the payload and
    the bytes after it are read. *)
Theorem stream_delivered ul pl (s0 s : Service (K := K)) i user password d address (buffer : Buffer) :
  UpdateUsers ul pl s0 = (Ok tt, s) → ul !! i = Some user → pl !! i = Some password →
  WriteAddrPort d = Ok address →
  (ClientConn_FrontHeadroom (NewClientConn (Key password) d) ≤ length (bf_front buffer))%nat →
  ∃ w, ClientConn_Write record (bf_data buffer) (NewClientConn (Key password) d) [] =
         (Ok (length (bf_data buffer)), mkClientConn (Key password) d true, w) ∧
       ClientConn_WriteBuffer record buffer (NewClientConn (Key password) d) [] =
         (Ok tt, mkClientConn (Key password) d true, w) ∧
  ∀ conn rest, key_in_one_piece conn → concat conn = concat w ++ rest →
  ∃ conn', NewConnection s conn = Ok (H_Connection user (addr_read d) conn') ∧
    concat conn' = bf_data buffer ++ rest.
Proof.
  intros Hs Hu Hp Ha Hroom. pose proof (UpdateUsers_key _ _ _ _ _ _ _ _ Hs Hu Hp) as Hkey.
  pose proof (Key_length password) as Hl. cbn [ClientConn_FrontHeadroom NewClientConn cc_headerWritten] in Hroom.
  eexists. split_and!.
  - unfold ClientConn_Write. cbn [NewClientConn cc_headerWritten cc_key cc_destination].
    rewrite (ClientHandshake_writes _ d _ _ address) by done. reflexivity.
  - unfold ClientConn_WriteBuffer. cbn [NewClientConn cc_headerWritten cc_key cc_destination].
    rewrite (ClientHandshakeBuffer_writes _ d _ _ address) by done. reflexivity.
  - intros conn rest Hfirst Hconn. cbn [app concat] in Hconn. rewrite app_nil_r, <-app_assoc in Hconn.
    destruct (NewConnection_request s user (Key password) CommandTCP d address conn (bf_data buffer ++ rest)) as (conn' & Hc & Hn);
      [done|done|by left|done|done|done|]. by exists conn'.
Qed.

(** Packets, written and read one after the other. *)
Fixpoint write_packets (packets : list (Socksaddr * Buffer)) (c : ClientPacketConn) (w : list (list byte))
    : res () * list (list byte) :=
  match packets with
  | [] => (Ok tt, w)
  | (d, buffer) :: packets =>
      match ClientPacketConn_WritePacket record buffer d c w with
      | (Ok _, c, w) => write_packets packets c w
      | (r, _, w) => (r, w)
      end
  end.
Fixpoint read_packets (n room : nat) : OnConn (list (Socksaddr * list byte)) :=
  match n with
  | O => mret []
  | S n => p ← ReadPacket room; l ← read_packets n room; mret (p :: l)
  end.

(** What can be sent: an address that can be written, and a payload whose length is 16 bits and for
    which the receiver has room. *)
Definition packet_ok (room : nat) (p : Socksaddr * Buffer) : Prop :=
  (∃ address, WriteAddrPort p.1 = Ok address) ∧ Z.of_nat (length (bf_data p.2)) < 2 ^ 16 ∧
  (length (bf_data p.2) ≤ room)%nat ∧ (MaxSocksaddrLength + 4 ≤ length (bf_front p.2))%nat.

Lemma write_packets_written room key packets w : Forall (packet_ok room) packets →
  ∃ w', write_packets packets (mkClientPacketConn key true) w = (Ok tt, w ++ w') ∧
    stream_reads (read_packets (length packets) room) (concat w') ((λ p, (addr_read p.1, bf_data p.2)) <$> packets).
Proof.
  intros Hp. revert w. induction Hp as [|[d buffer] packets ((address & Ha) & Hl & Hr & Hf) Hps IH]; intros w.
  { exists []. rewrite app_nil_r. split; [done|apply stream_reads_ret]. }
  cbn [fst snd] in *. cbn [write_packets ClientPacketConn_WritePacket pc_headerWritten].
  rewrite (WritePacket_writes buffer d w address) by done.
  destruct (IH (w ++ [packet_bytes address (bf_data buffer)])) as (w' & -> & Hreads).
  exists (packet_bytes address (bf_data buffer) :: w'). rewrite <-app_assoc. split; [done|].
  cbn [length read_packets concat fmap list_fmap].
  eapply stream_reads_bind; [by apply reads_packet|]. rewrite <-(app_nil_r (concat w')).
  eapply stream_reads_bind; [exact Hreads|apply stream_reads_ret].
Qed.

(** Packets reach the handler as they were written: the first one with the request in front of it,
    in one write or in two as the room in front of it allows; all of them, with their destinations, are
    read again by the connection that the service hands over, whatever the segments. *)
Theorem packets_delivered ul pl (s0 s : Service (K := K)) i user password room packets :
  UpdateUsers ul pl s0 = (Ok tt, s) → ul !! i = Some user → pl !! i = Some password →
  Forall (packet_ok room) packets → packets ≠ [] →
  ∃ w, write_packets packets (NewClientPacketConn (Key password)) [] = (Ok tt, w) ∧
  ∀ conn rest, key_in_one_piece conn → concat conn = concat w ++ rest →
  ∃ d conn' conn'', fst <$> head packets = Some d ∧
    NewConnection s conn = Ok (H_PacketConnection user (addr_read d) conn') ∧
    read_packets (length packets) room conn' = (Ok ((λ p, (addr_read p.1, bf_data p.2)) <$> packets), conn'') ∧
    concat conn'' = rest.
Proof.
  intros Hs Hu Hp Hok Hne. pose proof (UpdateUsers_key _ _ _ _ _ _ _ _ Hs Hu Hp) as Hkey.
  destruct packets as [|[d buffer] packets]; [done|].
  apply List.Forall_cons_iff in Hok as [((address & Ha) & Hl & Hr & Hf) Hok]. cbn [fst snd] in *.
  destruct (ClientHandshakePacket_writes (Key password) d buffer [] address) as (w1 & Hw1 & Hc1); [apply Key_length|done|].
  destruct (write_packets_written room (Key password) packets w1 Hok) as (w2 & Hw2 & Hreads).
  exists (w1 ++ w2). split.
  { cbn [write_packets]. unfold ClientPacketConn_WritePacket, NewClientPacketConn. cbn [pc_headerWritten pc_key].
    rewrite Hw1. exact Hw2. }
  intros conn rest Hfirst Hconn. rewrite concat_app, Hc1, <-!app_assoc in Hconn.
  destruct (NewConnection_request s user (Key password) CommandUDP d address conn _ Hkey (Key_length password)
    ltac:(right; by left) Ha Hconn Hfirst) as (conn' & Hc' & Hn).
  destruct (stream_reads_rest (read_packets (S (length packets)) room)
    (packet_bytes address (bf_data buffer) ++ concat w2) ((addr_read d, bf_data buffer) :: ((λ p, (addr_read p.1, bf_data p.2)) <$> packets))
    conn' rest) as (conn'' & Hread & Hrest).
  { cbn [read_packets]. eapply stream_reads_bind; [by apply reads_packet|]. rewrite <-(app_nil_r (concat w2)).
    eapply stream_reads_bind; [exact Hreads|apply stream_reads_ret]. }
  { by rewrite Hc', <-app_assoc. }
  exists d, conn', conn''. done.
Qed.

(** Who is not recognised goes to the fallback with everything: when the first read gives no key of
    the service, or less than a key, the fallback is handed a connection with the same bytes, from the
    first one on; without a fallback the connection is refused. *)
Theorem fallback_keeps_bytes (s : Service (K := K)) first conn :
  (length first < KeyLength)%nat ∨ sv_keys s !! take KeyLength first = None →
  if sv_fallbackHandler s
  then ∃ conn', NewConnection s (first :: conn) = Ok (H_Fallback conn') ∧ concat conn' = concat (first :: conn)
  else ∃ e, NewConnection s (first :: conn) = Err e.
Proof.
  intros Hk. unfold NewConnection. pose proof (Conn_Read_spec KeyLength (first :: conn)) as Hr.
  assert (∃ s', Conn_Read KeyLength (first :: conn) = (Ok (take KeyLength first), s')) as [s' Hs'].
  { cbn [Conn_Read]. destruct (Nat.leb_spec (length first) KeyLength); [rewrite take_ge by done|]; by eexists. }
  rewrite Hs' in *. destruct Hr as [Hr _].
  assert (∀ e, if sv_fallbackHandler s
    then ∃ conn', fallback s s' (take KeyLength first) e = Ok (H_Fallback (K := K) conn') ∧ concat conn' = concat (first :: conn)
    else ∃ e', fallback s s' (take KeyLength first) e = Err e') as Hfb.
  { intros e. unfold fallback. destruct (sv_fallbackHandler s); cbn [negb]; [|by eexists].
    eexists. split; [done|]. rewrite Hr. by destruct (take KeyLength first). }
  destruct (Nat.eqb_spec (length (take KeyLength first)) KeyLength) as [Hl|Hl]; cbn [negb]; [|apply Hfb].
  destruct Hk as [Hk|Hk]; [rewrite length_take in Hl; lia|]. rewrite Hk. apply Hfb.
Qed.

End TrojanTheorems.

(** ** Concrete connections *)

Section Examples.

(** Addresses that are domains, as a length, the bytes and the port. *)
Definition sample_AddrPort : Reader Socksaddr :=
  n ← ReadByte; fqdn ← ReadFull (Z.to_nat (byte_Z n)); port ← ReadBE 2;
  mret (mkSocksaddr AddrInvalid port (string_of_bytes fqdn)).
Definition address_bytes (d : Socksaddr) : list byte :=
  [Z_byte (strlen (sa_Fqdn d))] ++ bytes_of_string (sa_Fqdn d) ++ be_bytes 2 (u16 (sa_Port d)).
Definition sample_address (d : Socksaddr) : res (list byte) :=
  if Z.ltb 255 (strlen (sa_Fqdn d)) then Err (E_Ext "fqdn too long") else Ok (address_bytes d).

Lemma address_length d : length (address_bytes d) = (1 + String.length (sa_Fqdn d) + 2)%nat.
Proof. unfold address_bytes. rewrite !length_app, be_bytes_length, length_bytes_of_string. done. Qed.

#[local] Instance SampleTrojan : TrojanLib.
Proof.
  refine {|
    Sum224 l := take 28 (l ++ repeat x00 28);
    AddrPortLen d := (1 + String.length (sa_Fqdn d) + 2)%nat;
    WriteAddrPort := sample_address;
    ReadAddrPort := sample_AddrPort;
    addr_read d := mkSocksaddr AddrInvalid (u16 (sa_Port d)) (sa_Fqdn d);
    MaxSocksaddrLength := 258%nat;
    ReadFullFrom room n := if Nat.leb n room then ReadFull n else of_res (Err (E_Ext "short buffer"))
  |}.
  - intros l. rewrite length_take, length_app, repeat_length. lia.
  - intros d b. unfold sample_address. destruct (Z.ltb _ _); [done|]. intros [= <-].
    apply address_length.
  - intros d b. unfold sample_address, strlen. destruct (Z.ltb_spec 255 (Z.of_nat (String.length (sa_Fqdn d)))); [done|].
    intros [= <-]. unfold sample_AddrPort, address_bytes, strlen. rewrite <-length_bytes_of_string in *.
    eapply reads_bind; [apply reads_byte|]. rewrite byte_Z_small by lia. rewrite Nat2Z.id.
    eapply reads_bind; [by apply reads_full|]. rewrite <-(app_nil_r (be_bytes 2 _)).
    eapply reads_bind; [apply reads_be, (wrap_is_u 16); lia|].
    rewrite String.string_of_list_byte_of_string. apply reads_ret.
  - intros d b. unfold sample_address, strlen. destruct (Z.ltb_spec 255 (Z.of_nat (String.length (sa_Fqdn d)))); [done|]. intros _. lia.
  - intros room n Hn. by rewrite (proj2 (Nat.leb_le _ _) Hn).
Defined.

Definition ex_users : Service (K := Z) := (UpdateUsers [1; 2] ["first"; "second"] (NewService true)).2.
Definition ex_destination : Socksaddr := mkSocksaddr AddrInvalid 443 "a.test".
Definition ex_room (n : nat) (data : list byte) : Buffer := mkBuffer (repeat xff n) data.
Definition hello : list byte := bytes_of_string "hello".

Lemma ex_users_ok : UpdateUsers [1; 2] ["first"; "second"]%string (NewService true) = (Ok tt, ex_users).
Proof. reflexivity. Qed.

(** The request and the payload, in segments of 60 bytes. *)
Definition ex_written : list byte := request_bytes (Key "second") CommandTCP (address_bytes ex_destination) ++ hello.

Lemma stream_delivered_witness : ∃ conn',
  NewConnection ex_users [take 60 ex_written; drop 60 ex_written] = Ok (H_Connection 2 ex_destination conn') ∧
  concat conn' = hello.
Proof.
  destruct (stream_delivered [1; 2] ["first"; "second"]%string (NewService true) ex_users 1 2 "second" ex_destination
    (address_bytes ex_destination) (ex_room 400 hello) ex_users_ok eq_refl eq_refl eq_refl)
    as (w & Hw & _ & Hd); [vm_compute; lia|].
  assert (concat w = ex_written) as Hcw by (apply (f_equal (λ r, concat r.2)) in Hw; vm_compute in Hw; symmetry; vm_compute; exact Hw).
  destruct (Hd [take 60 ex_written; drop 60 ex_written] []) as (conn' & Hc & Hr).
  - exists (take 60 ex_written). split; [reflexivity|vm_compute; lia].
  - rewrite Hcw. vm_compute. reflexivity.
  - exists conn'. split; [exact Hc|]. rewrite Hr. reflexivity.
Defined.

Definition ex_packets : list (Socksaddr * Buffer) :=
  [(ex_destination, ex_room 300 hello); (mkSocksaddr AddrInvalid 53 "b.test", ex_room 300 [x01])].

Lemma packets_delivered_witness :
  ∃ w conn' conn'', write_packets ex_packets (NewClientPacketConn (Key "first")) [] = (Ok tt, w) ∧
    NewConnection ex_users w = Ok (H_PacketConnection 1 ex_destination conn') ∧
    read_packets 2 1500 conn' = (Ok [(ex_destination, hello); (mkSocksaddr AddrInvalid 53 "b.test", [x01])], conn'').
Proof.
  destruct (packets_delivered [1; 2] ["first"; "second"]%string (NewService true) ex_users 0 1 "first" 1500 ex_packets
    ex_users_ok eq_refl eq_refl) as (w & Hw & Hd); [|discriminate|].
  - repeat constructor; cbn; try (by eexists); rewrite ?repeat_length; lia.
  - destruct (Hd w []) as (d & conn' & conn'' & Hh & Hc & Hr & _).
    + apply (f_equal (λ r, head r.2)) in Hw. eexists. split; [symmetry; exact Hw|]. vm_compute. lia.
    + symmetry. apply app_nil_r.
    + injection Hh as <-. exists w, conn', conn''. split; [exact Hw|]. split; [exact Hc|exact Hr].
Defined.

Lemma fallback_keeps_bytes_witness :
  ∃ conn', NewConnection ex_users [hello; hello] = Ok (H_Fallback conn') ∧ concat conn' = hello ++ hello ++ [].
Proof. apply (fallback_keeps_bytes ex_users hello [hello]). left. vm_compute. lia. Defined.

(** A user whose key arrives in two segments is taken for a stranger. *)
Lemma key_in_two_pieces :
  NewConnection ex_users [take 20 ex_written; drop 20 ex_written] =
    Ok (H_Fallback [take 20 ex_written; drop 20 ex_written]).
Proof. by vm_compute. Qed.

(** A multiplexed stream whose request and first bytes arrive together loses the bytes. *)
Lemma mux_loses_bytes :
  newMuxConnection0 1 [Z_byte CommandTCP :: address_bytes ex_destination ++ hello; hello] =
    Ok (H_Connection 1 ex_destination [hello]).
Proof. by vm_compute. Qed.

(** After an error in the first packet the header counts as written: the next packet goes out alone. *)
Lemma packet_header_lost :
  let refuse (p : list byte) (w : bool * list (list byte)) :=
    if w.1 then (None, (true, w.2 ++ [p])) else (Some (E_Ext "broken"), (true, w.2)) in
  let '(r1, c, w) := ClientPacketConn_WritePacket refuse (ex_room 400 hello) ex_destination (NewClientPacketConn (Key "first")) (false, []) in
  let '(r2, _, w) := ClientPacketConn_WritePacket refuse (ex_room 400 hello) ex_destination c w in
  is_ok r1 = false ∧ r2 = Ok tt ∧ w.2 = [packet_bytes (address_bytes ex_destination) hello].
Proof. by vm_compute. Qed.

End Examples.
