(* ===== verification/SimpleObfs.v ===== *)
(** * Streams that look like TLS or HTTP (transport/simple-obfs)

    The first bytes a client writes travel in the session ticket of a ClientHello, or as the body of an
    HTTP request; the others in TLS records, or as they are.  What the server sends is taken out of
    its records, or follows the header of its response.  What the client writes and how the reads of the
    connection are cut does not change what arrives, up to what the first read of an HTTP response
    gives. *)

From stdpp Require Import base gmap strings list numbers.
From S2P Require Import Prelude GoStd Netip GoIO Adapter Streams Ja3 TlsFragment.

Local Open Scope Z_scope.

(** ** TLS *)

(** [transport/simple-obfs/tls.go:19-21] chunkSize *)
Definition chunkSize : nat := Nat.pow 2 14.

(** [transport/simple-obfs/tls.go:24-30] TLSObfs *)
Record TLSObfs : Type := mkTLSObfs {
  to_server : string;
  to_remain : nat;
  to_firstRequest : bool;
  to_firstResponse : bool
}.
#[global] Instance TLSObfs_settable : Settable TLSObfs :=
  {| mkT r := mkTLSObfs (to_server r) (to_remain r) (to_firstRequest r) (to_firstResponse r) |}.

(** [transport/simple-obfs/tls.go:121-128] NewTLSObfs *)
Definition NewTLSObfs (server : string) : TLSObfs := mkTLSObfs server 0 true true.

(** An error in the size is not reported.

    [transport/simple-obfs/tls.go:32-57] (TLSObfs).read *)
Definition TLSObfs_read (n discardN : nat) (to : TLSObfs) (s : Stream) : ReadResult * TLSObfs * Stream :=
  match read_full discardN s with
  | ((_, Some e), s) => (([], Some e), to, s)
  | ((_, None), s) =>
      match read_full 2 s with
      | ((_, Some _), s) => (([], None), to, s)
      | ((sizeBuf, None), s) =>
          let length := Z.to_nat (be_val sizeBuf) in
          if Nat.ltb n length then
            match read_once n s with
            | ((l, Some e), s) => ((l, Some e), to, s)
            | ((l, None), s) => ((l, None), to <| to_remain := (length - List.length l)%nat |>, s)
            end
          else let '(r, s) := read_full length s in (r, to, s)
      end
  end.

(** [transport/simple-obfs/tls.go:59-81] (TLSObfs).Read *)
Definition TLSObfs_Read (n : nat) (to : TLSObfs) (s : Stream) : ReadResult * TLSObfs * Stream :=
  if Nat.ltb 0 (to_remain to) then
    let '((l, e), s) := read_full (Nat.min (to_remain to) n) s in
    ((l, e), to <| to_remain := (to_remain to - length l)%nat |>, s)
  else if to_firstResponse to then TLSObfs_read n 105 (to <| to_firstResponse := false |>) s
  else TLSObfs_read n 3 to s.

(** The cipher suites, and the extensions after the server name.

    [transport/simple-obfs/tls.go:157-164] makeClientHelloMsg (cipher suites) *)
Definition hello_ciphers : list byte := Z_byte <$>
  [0x00; 0x38;
   0xc0; 0x2c; 0xc0; 0x30; 0x00; 0x9f; 0xcc; 0xa9; 0xcc; 0xa8; 0xcc; 0xaa; 0xc0; 0x2b; 0xc0; 0x2f;
   0x00; 0x9e; 0xc0; 0x24; 0xc0; 0x28; 0x00; 0x6b; 0xc0; 0x23; 0xc0; 0x27; 0x00; 0x67; 0xc0; 0x0a;
   0xc0; 0x14; 0x00; 0x39; 0xc0; 0x09; 0xc0; 0x13; 0x00; 0x33; 0x00; 0x9d; 0x00; 0x9c; 0x00; 0x3d;
   0x00; 0x3c; 0x00; 0x35; 0x00; 0x2f; 0x00; 0xff].

(** [transport/simple-obfs/tls.go:185-202] makeClientHelloMsg (other extensions) *)
Definition hello_other_extensions : list byte := Z_byte <$>
  [0x00; 0x0b; 0x00; 0x04; 0x03; 0x01; 0x00; 0x02;
   0x00; 0x0a; 0x00; 0x0a; 0x00; 0x08; 0x00; 0x1d; 0x00; 0x17; 0x00; 0x19; 0x00; 0x18;
   0x00; 0x0d; 0x00; 0x20; 0x00; 0x1e; 0x06; 0x01; 0x06; 0x02; 0x06; 0x03; 0x05;
   0x01; 0x05; 0x02; 0x05; 0x03; 0x04; 0x01; 0x04; 0x02; 0x04; 0x03; 0x03; 0x01;
   0x03; 0x02; 0x03; 0x03; 0x02; 0x01; 0x02; 0x02; 0x02; 0x03;
   0x00; 0x16; 0x00; 0x00;
   0x00; 0x17; 0x00; 0x00].

(** [now] is the time in seconds, [random] and [sessionID] the random bytes.

    [transport/simple-obfs/tls.go:130-205] makeClientHelloMsg *)
Definition makeClientHelloMsg (now : Z) (random sessionID data : list byte) (server : list byte) : list byte :=
  let len (l : list byte) := Z.of_nat (length l) in
  let recordLength := u16 (212 + len data + len server) in
  [Z_byte 22; Z_byte 0x03; Z_byte 0x01] ++
  [Z_byte (Z.shiftr recordLength 8); Z_byte (Z.land recordLength 0xff)] ++
  [Z_byte 1; Z_byte 0] ++ be_bytes 2 (u16 (208 + len data + len server)) ++ [Z_byte 0x03; Z_byte 0x03] ++
  be_bytes 4 (u32 now) ++ random ++ [Z_byte 32] ++ sessionID ++
  hello_ciphers ++
  [Z_byte 0x01; Z_byte 0x00] ++
  be_bytes 2 (u16 (79 + len data + len server)) ++
  [Z_byte 0x00; Z_byte 0x23] ++ be_bytes 2 (u16 (len data)) ++ data ++
  [Z_byte 0x00; Z_byte 0x00] ++ be_bytes 2 (u16 (len server + 5)) ++ be_bytes 2 (u16 (len server + 3)) ++
  [Z_byte 0] ++ be_bytes 2 (u16 (len server)) ++ server ++
  hello_other_extensions.

Section Writing.

(** The random bytes and the time of a ClientHello, and the connection. *)
Context {W : Type} (Write : list byte → W → option error * W) (hello_random : W → Z * list byte * list byte).

(** [transport/simple-obfs/tls.go:99-114] (TLSObfs).write *)
Definition TLSObfs_write (b : list byte) (to : TLSObfs) (w : W) : option error * TLSObfs * W :=
  if to_firstRequest to then
    let '(now, random, sessionID) := hello_random w in
    let '(e, w) := Write (makeClientHelloMsg now random sessionID b (bytes_of_string (to_server to))) w in
    (e, to <| to_firstRequest := false |>, w)
  else
    let '(e, w) := Write ([Z_byte 0x17; Z_byte 0x03; Z_byte 0x03] ++ be_bytes 2 (u16 (Z.of_nat (length b))) ++ b) w in
    (e, to, w).

(** What is left from [i] on, in chunks; [fuel] is the number of chunks at most.

    [transport/simple-obfs/tls.go:83-97] (TLSObfs).Write *)
Fixpoint TLSObfs_Write_loop (fuel : nat) (b : list byte) (to : TLSObfs) (w : W) : option error * TLSObfs * W :=
  match fuel with
  | O => (None, to, w)
  | S fuel =>
      if negb (nonempty b) then (None, to, w) else
      match TLSObfs_write (take chunkSize b) to w with
      | (Some e, to, w) => (Some e, to, w)
      | (None, to, w) => TLSObfs_Write_loop fuel (drop chunkSize b) to w
      end
  end.
(** After an error the length of the chunk that failed is returned.

    [transport/simple-obfs/tls.go:83-97] (TLSObfs).Write *)
Definition TLSObfs_Write (b : list byte) (to : TLSObfs) (w : W) : option error * TLSObfs * W :=
  TLSObfs_Write_loop (length b) b to w.

End Writing.

(** ** HTTP *)

(** [buf.BufferSize] of sing. *)
Section HTTP.
Context (BufferSize : nat).

(** [transport/simple-obfs/http.go:16-24] HTTPObfs *)
Record HTTPObfs : Type := mkHTTPObfs {
  ho_host : string;
  ho_port : string;
  ho_buf : option (list byte);
  ho_offset : nat;
  ho_firstRequest : bool;
  ho_firstResponse : bool
}.
#[global] Instance HTTPObfs_settable : Settable HTTPObfs :=
  {| mkT r := mkHTTPObfs (ho_host r) (ho_port r) (ho_buf r) (ho_offset r) (ho_firstRequest r) (ho_firstResponse r) |}.

(** [transport/simple-obfs/http.go:90-98] NewHTTPObfs *)
Definition NewHTTPObfs (host port : string) : HTTPObfs := mkHTTPObfs host port None 0 true true.

Definition end_of_header : list byte := Z_byte <$> [13; 10; 13; 10].

(** [bytes.Index] *)
Fixpoint bytes_Index (s sep : list byte) : option nat :=
  if bool_decide (sep `prefix_of` s) then Some 0%nat else
  match s with
  | [] => None
  | _ :: s => fmap (M := option) S (bytes_Index s sep)
  end.

(** [transport/simple-obfs/http.go:26-61] (HTTPObfs).Read *)
Definition HTTPObfs_Read (n : nat) (ho : HTTPObfs) (s : Stream) : ReadResult * HTTPObfs * Stream :=
  match ho_buf ho with
  | Some buf =>
      let l := take n (drop (ho_offset ho) buf) in
      let offset := (ho_offset ho + length l)%nat in
      ((l, None), ho <| ho_offset := offset |> <| ho_buf := if Nat.eqb offset (length buf) then None else Some buf |>, s)
  | None =>
      if ho_firstResponse ho then
        match read_once BufferSize s with
        | ((_, Some e), s) => (([], Some e), ho, s)
        | ((buf, None), s) =>
            match bytes_Index buf end_of_header with
            | None => (([], Some io_EOF), ho, s)
            | Some idx =>
                let ho := ho <| ho_firstResponse := false |> in
                let l := take n (drop (idx + 4) buf) in
                ((l, None),
                 if Nat.ltb (length l) (length buf - (idx + 4))
                 then ho <| ho_buf := Some buf |> <| ho_offset := (idx + 4 + length l)%nat |> else ho, s)
            end
        end
      else let '(r, s) := read_once n s in (r, ho, s)
  end.

(** The request as net/http writes it, with the payload as its body.

    [transport/simple-obfs/http.go:63-83] (HTTPObfs).Write *)
Definition HTTPObfs_Write {W : Type} (Write : list byte → W → option error * W)
    (request_bytes : string → string → list byte → W → list byte) (b : list byte) (ho : HTTPObfs) (w : W)
    : option error * HTTPObfs * W :=
  if ho_firstRequest ho then
    let host := if negb (String.eqb (ho_port ho) "80") then (ho_host ho +:+ ":" +:+ ho_port ho) else ho_host ho in
    let '(e, w) := Write (request_bytes (ho_host ho) host b w) w in
    (e, ho <| ho_firstRequest := false |>, w)
  else let '(e, w) := Write b w in (e, ho, w).

End HTTP.

(** ** Theorems *)

(** *** The ClientHello *)

(** What the message is meant to say. *)
Definition obfs_ciphers : list Z :=
  [0xc02c; 0xc030; 0x009f; 0xcca9; 0xcca8; 0xccaa; 0xc02b; 0xc02f; 0x009e; 0xc024; 0xc028; 0x006b; 0xc023;
   0xc027; 0x0067; 0xc00a; 0xc014; 0x0039; 0xc009; 0xc013; 0x0033; 0x009d; 0x009c; 0x003d; 0x003c; 0x0035;
   0x002f; 0x00ff].
Definition other_extensions : list Extension :=
  [EPointFormats [1; 0; 2];
   ESupportedGroups [0x001d; 0x0017; 0x0019; 0x0018];
   ESignatureAlgorithms [0x0601; 0x0602; 0x0603; 0x0501; 0x0502; 0x0503; 0x0401; 0x0402; 0x0403; 0x0301; 0x0302;
     0x0303; 0x0201; 0x0202; 0x0203];
   EOther 0x16 []; EOther 0x17 []].
Definition obfs_hello (now : Z) (random sessionID data server : list byte) : Hello :=
  mkHello 0x0301 0x0303 (be_bytes 4 (u32 now) ++ random) sessionID obfs_ciphers [x00]
    (EOther 0x23 data :: EServerName server :: other_extensions).

Lemma other_extensions_bytes : concat (ext_bytes <$> other_extensions) = hello_other_extensions.
Proof. by vm_compute. Qed.
Lemma obfs_ciphers_bytes :
  be_bytes 2 (2 * Z.of_nat (length obfs_ciphers)) ++ be16s obfs_ciphers = hello_ciphers.
Proof. by vm_compute. Qed.

Lemma be_bytes_2 v : be_bytes 2 v = [Z_byte (Z.shiftr v 8); Z_byte (Z.land v 0xff)].
Proof.
  change (be_bytes 2 v) with [Z_byte (Z.shiftr v 8); Z_byte (Z.shiftr v 0)]. rewrite Z.shiftr_0_r. do 2 f_equal.
  apply byte_Z_inj. rewrite !byte_Z_Z_byte. change 0xff with (Z.ones 8). rewrite Z.land_ones by lia.
  unfold u8, wrap. by rewrite Z.mod_mod by lia.
Qed.
Lemma be_bytes_3 v : 0 ≤ v < 2 ^ 16 → be_bytes 3 v = Z_byte 0 :: be_bytes 2 v.
Proof.
  intros Hv. change (be_bytes 3 v) with (Z_byte (Z.shiftr v 16) :: be_bytes 2 v).
  rewrite Z.shiftr_div_pow2, Z.div_small by lia. done.
Qed.

Section Hello.
Context (now : Z) (random sessionID data server : list byte).
Context (Hrandom : length random = 28%nat) (HsessionID : length sessionID = 32%nat).
Context (Hlength : 212 + Z.of_nat (length data) + Z.of_nat (length server) < 2 ^ 16).
Let h := obfs_hello now random sessionID data server.

Lemma obfs_extensions : hello_extensions h =
  (be_bytes 2 0x23 ++ be_bytes 2 (Z.of_nat (length data)) ++ data) ++
  (be_bytes 2 0 ++ be_bytes 2 (Z.of_nat (length server) + 5) ++
   be_bytes 2 (Z.of_nat (length server) + 3) ++ [Z_byte 0] ++ be_bytes 2 (Z.of_nat (length server)) ++ server) ++
  hello_other_extensions.
Proof.
  unfold h, hello_extensions. cbn [obfs_hello he_extensions fmap list_fmap concat].
  change (list_fmap _ _ ext_bytes other_extensions) with (ext_bytes <$> other_extensions).
  rewrite other_extensions_bytes. unfold ext_bytes at 1 2. cbn [ext_type ext_data].
  set (sni := be_bytes 2 (Z.of_nat (length server) + 3) ++ _).
  assert (Z.of_nat (length sni) = Z.of_nat (length server) + 5) as ->
    by (unfold sni; rewrite !length_app, !be_bytes_length; cbn [length]; lia).
  done.
Qed.

Lemma obfs_extensions_length : length (hello_extensions h) = (79 + length data + length server)%nat.
Proof.
  rewrite obfs_extensions, !length_app, !be_bytes_length.
  change (length hello_other_extensions) with 66%nat. cbn [length]. lia.
Qed.

Lemma obfs_body_length : length (hello_body h) = (208 + length data + length server)%nat.
Proof.
  unfold hello_body. rewrite !length_app, !be_bytes_length, be16s_app, obfs_extensions_length.
  unfold h. cbn [obfs_hello he_random he_session_id he_ciphers he_compression]. rewrite length_app, be_bytes_length, Hrandom, HsessionID.
  change (length obfs_ciphers) with 28%nat. cbn [length]. lia.
Qed.

Lemma obfs_handshake_length : length (hello_handshake h) = (212 + length data + length server)%nat.
Proof. unfold hello_handshake. rewrite !length_app, be_bytes_length, obfs_body_length. cbn [length]. lia. Qed.

(** The constants of the message are the lengths it has. *)
Lemma makeClientHelloMsg_record : makeClientHelloMsg now random sessionID data server = hello_record h.
Proof.
  unfold hello_record, hello_handshake. rewrite obfs_body_length. fold (hello_handshake h).
  pose proof obfs_handshake_length as Hh. unfold hello_handshake in Hh. rewrite obfs_body_length in Hh. rewrite Hh.
  unfold makeClientHelloMsg. cbv zeta.
  assert (∀ c, c ≤ 212 → 0 ≤ c → u16 (c + Z.of_nat (length data) + Z.of_nat (length server)) = Z.of_nat (Z.to_nat c + length data + length server)) as Hu
    by (intros c ??; unfold u16, wrap; rewrite Z.mod_small by lia; lia).
  rewrite !Hu by lia. rewrite be_bytes_3 by lia. rewrite <-be_bytes_2.
  unfold hello_body. rewrite obfs_extensions_length, obfs_extensions. unfold h.
  cbn [obfs_hello he_random he_session_id he_ciphers he_compression he_record_version he_version].
  rewrite HsessionID, <-obfs_ciphers_bytes.
  assert (∀ c, 0 ≤ c ≤ 5 → u16 (Z.of_nat (length server) + c) = Z.of_nat (length server) + c) as Hs
    by (intros c ?; unfold u16, wrap; apply Z.mod_small; lia).
  rewrite !Hs by lia. unfold u16. rewrite !(wrap_id 16 (Z.of_nat _)) by (unfold is_u; lia).
  change (Z.to_nat 212) with 212%nat. change (Z.to_nat 208) with 208%nat. change (Z.to_nat 79) with 79%nat.
  rewrite <-!app_assoc. reflexivity.
Qed.

Lemma obfs_hello_ok : hello_ok h.
Proof.
  split; unfold h; cbn [obfs_hello he_random he_session_id he_ciphers he_compression he_record_version he_version he_extensions].
  - split; [unfold is_u; lia|done].
  - split; [unfold is_u; lia|done].
  - by rewrite length_app, be_bytes_length, Hrandom.
  - rewrite HsessionID. lia.
  - repeat constructor; unfold is_u; lia.
  - done.
  - repeat constructor; cbn; unfold is_u; try lia; set_solver.
  - pose proof obfs_handshake_length as Hl. fold h. rewrite Hl. lia.
Qed.

End Hello.

(** *** What a client writes *)

#[local] Opaque chunkSize.
Lemma chunkSize_eq : Z.of_nat chunkSize = 16384.
Proof. by vm_compute. Qed.

(** A record of data. *)
Definition tls_record (b : list byte) : list byte :=
  [Z_byte 0x17; Z_byte 0x03; Z_byte 0x03] ++ be_bytes 2 (u16 (Z.of_nat (length b))) ++ b.

(** The chunks of a write. *)
Fixpoint chunks (fuel : nat) (b : list byte) : list (list byte) :=
  match fuel with
  | O => []
  | S fuel => if negb (nonempty b) then [] else take chunkSize b :: chunks fuel (drop chunkSize b)
  end.

Lemma chunks_spec fuel b : (length b ≤ fuel)%nat →
  concat (chunks fuel b) = b ∧ Forall (λ c, c ≠ [] ∧ (length c ≤ chunkSize)%nat) (chunks fuel b).
Proof.
  revert b. induction fuel as [|fuel IH]; intros b Hf; [destruct b; [done|cbn in Hf; lia]|].
  cbn [chunks]. destruct b as [|x b]; [done|]. cbn [nonempty negb].
  assert (0 < chunkSize)%nat as Hc by (pose proof chunkSize_eq; lia).
  destruct (IH (drop chunkSize (x :: b))) as [Hcat Hall]; [rewrite length_drop; cbn [length] in *; lia|].
  cbn [concat]. rewrite Hcat, take_drop. split; [done|]. constructor; [|done]. split; [|rewrite length_take; lia].
  destruct chunkSize; [lia|done].
Qed.

Section Written.
Context (now : Z) (random sessionID : list byte).
Context (Hrandom : length random = 28%nat) (HsessionID : length sessionID = 32%nat).

(** What the chunks are written as. *)
Definition frames_of (server : string) (first : bool) (cs : list (list byte)) : list (list byte) :=
  match first, cs with
  | true, c :: cs => makeClientHelloMsg now random sessionID c (bytes_of_string server) :: (tls_record <$> cs)
  | _, cs => tls_record <$> cs
  end.

Lemma Write_loop_frames fuel b : ∀ to w,
  TLSObfs_Write_loop record (λ _, (now, random, sessionID)) fuel b to w =
    (None, to <| to_firstRequest := to_firstRequest to && negb (nonempty (chunks fuel b)) |>,
     w ++ frames_of (to_server to) (to_firstRequest to) (chunks fuel b)).
Proof.
  revert b. induction fuel as [|fuel IH]; intros b to w; cbn [TLSObfs_Write_loop chunks].
  { destruct to as [se re [] fr]; cbn; by rewrite ?app_nil_r. }
  destruct b as [|x b]; [destruct to as [se re [] fr]; cbn; by rewrite ?app_nil_r|]. cbn [nonempty negb].
  unfold TLSObfs_write, record. destruct to as [se re [] fr]; cbn [to_firstRequest to_server]; rewrite IH; cbn;
    rewrite <-!app_assoc; done.
Qed.

(** A frame as a TLS record: the header without the length, and the fragment. *)
Definition frame_record (first : bool) (server c : list byte) : list byte * list byte :=
  if first then ([Z_byte 22; Z_byte 0x03; Z_byte 0x01], hello_handshake (obfs_hello now random sessionID c server))
  else ([Z_byte 0x17; Z_byte 0x03; Z_byte 0x03], c).
Definition records_of (server : list byte) (first : bool) (cs : list (list byte)) : list (list byte * list byte) :=
  match first, cs with
  | true, c :: cs => frame_record true server c :: (frame_record false server <$> cs)
  | _, cs => frame_record false server <$> cs
  end.

Lemma reads_one_record header l : length header = 3%nat → Z.of_nat (length l) < 2 ^ 16 → ∀ n rest tl,
  reads (read_records n) rest tl →
  reads (read_records (S n)) ((header ++ be_bytes 2 (Z.of_nat (length l)) ++ l) ++ rest) ((header, l) :: tl).
Proof.
  intros Hh Hl n rest tl Hr. rewrite <-!app_assoc. cbn [read_records].
  eapply reads_bind; [by apply reads_full|]. eapply reads_bind; [apply reads_be; lia|].
  rewrite Nat2Z.id. eapply reads_bind; [by apply reads_full|]. rewrite <-(app_nil_r rest).
  eapply reads_bind; [exact Hr|]. apply reads_ret.
Qed.

Lemma reads_tls_records server cs : Forall (λ c, Z.of_nat (length c) < 2 ^ 16) cs →
  reads (read_records (length cs)) (concat (tls_record <$> cs)) (frame_record false server <$> cs).
Proof.
  induction 1 as [|c cs Hc Hcs IH]; [apply reads_ret|]. cbn [fmap list_fmap concat length].
  unfold tls_record at 1. rewrite (wrap_id 16) by (unfold is_u; lia). by apply reads_one_record.
Qed.

Lemma reads_frames server first cs : Z.of_nat (String.length server) < 2 ^ 15 →
  Forall (λ c, c ≠ [] ∧ (length c ≤ chunkSize)%nat) cs →
  reads (read_records (length cs)) (concat (frames_of server first cs)) (records_of (bytes_of_string server) first cs).
Proof.
  intros Hs Hcs. pose proof chunkSize_eq as Hcz.
  assert (Forall (λ c : list byte, Z.of_nat (length c) < 2 ^ 16) cs) as Hlen
    by (eapply Forall_impl; [|exact Hcs]; cbn; intros c [_ Hc]; lia).
  destruct first; [|by apply reads_tls_records]. destruct cs as [|c cs]; [apply reads_ret|].
  apply List.Forall_cons_iff in Hcs as [[_ Hc] Hcs]. apply List.Forall_cons_iff in Hlen as [_ Hlen].
  cbn [frames_of records_of concat length].
  rewrite (makeClientHelloMsg_record now random sessionID c (bytes_of_string server) Hrandom HsessionID)
    by (rewrite length_bytes_of_string; lia).
  pose proof (obfs_handshake_length now random sessionID c (bytes_of_string server) Hrandom HsessionID) as Hh.
  rewrite length_bytes_of_string in Hh. unfold hello_record, frame_record at 1.
  set (hs := hello_handshake _) in *. set (hd := [Z_byte 22; Z_byte 0x03; Z_byte 0x01]).
  change ([Z_byte 22] ++ be_bytes 2 (he_record_version _) ++ ?l) with (hd ++ l).
  apply reads_one_record; [done|rewrite Hh; lia|by apply reads_tls_records].
Qed.

(** What a client writes looks like TLS: a write of any length is accepted, and what it puts on the
    wire is a sequence of TLS records, the first one of the connection a ClientHello of RFC 8446 with
    the name of the server; the bytes themselves are the session tickets and the fragments, in order
    and in chunks of at most 2^14. *)
Theorem TLSObfs_Write_wire b to (Hserver : Z.of_nat (String.length (to_server to)) < 2 ^ 15) :
  ∃ cs w, TLSObfs_Write record (λ _, (now, random, sessionID)) b to [] =
      (None, to <| to_firstRequest := to_firstRequest to && negb (nonempty cs) |>, w) ∧
    concat cs = b ∧ Forall (λ c, c ≠ [] ∧ (length c ≤ chunkSize)%nat) cs ∧
    read_records (length cs) (concat w) = (Ok (records_of (bytes_of_string (to_server to)) (to_firstRequest to) cs), []) ∧
    ∀ c, head cs = Some c → to_firstRequest to = true →
      let hello := obfs_hello now random sessionID c (bytes_of_string (to_server to)) in
      hello_ok hello ∧ head w = Some (hello_record hello) ∧ head (he_extensions hello) = Some (EOther 0x23 c) ∧
      parseHandshake (hello_handshake hello) = Ok (hello_read hello) ∧ ch_ServerName (hello_read hello) = to_server to.
Proof.
  destruct (chunks_spec (length b) b) as [Hcat Hcs]; [done|]. set (cs := chunks (length b) b) in *.
  exists cs, (frames_of (to_server to) (to_firstRequest to) cs).
  split; [unfold TLSObfs_Write; by rewrite Write_loop_frames|]. split; [done|]. split; [done|]. split.
  - rewrite <-(app_nil_r (concat _)). by apply reads_frames.
  - intros c Hc Hf hello. rewrite Hf. destruct cs as [|c' cs']; [done|]. injection Hc as ->.
    apply List.Forall_cons_iff in Hcs as [[_ Hl] _]. pose proof chunkSize_eq as Hcz.
    assert (212 + Z.of_nat (length c) + Z.of_nat (length (bytes_of_string (to_server to))) < 2 ^ 16) as Hlen
      by (rewrite length_bytes_of_string; lia).
    pose proof (obfs_hello_ok now random sessionID c (bytes_of_string (to_server to)) Hrandom HsessionID Hlen) as Hok.
    split; [done|]. split; [|split; [done|]; split; [by apply read_handshake|]].
    + cbn [frames_of head]. by rewrite (makeClientHelloMsg_record now random sessionID c _ Hrandom HsessionID Hlen).
    + apply String.string_of_list_byte_of_string.
Qed.

End Written.

(** *** What a client reads *)

(** The records of a server: a header, whose bytes do not matter, the length and the bytes. *)
Definition server_frame (f : list byte * list byte) : list byte :=
  f.1 ++ be_bytes 2 (Z.of_nat (length f.2)) ++ f.2.
Fixpoint server_frames_ok (first : bool) (fs : list (list byte * list byte)) : Prop :=
  match fs with
  | [] => True
  | f :: fs => length f.1 = (if first then 105 else 3)%nat ∧ f.2 ≠ [] ∧ Z.of_nat (length f.2) < 2 ^ 16 ∧
      server_frames_ok false fs
  end.

(** What is still to come: the rest of a record, and records. *)
Definition tls_pending (to : TLSObfs) (s : Stream) (D : list byte) (k : nat) : Prop :=
  ∃ cur fs, concat s = cur ++ concat (server_frame <$> fs) ∧ length cur = to_remain to ∧
    server_frames_ok (to_firstResponse to) fs ∧ D = cur ++ concat (snd <$> fs) ∧
    (to_firstResponse to = true → cur = []) ∧ Forall (λ l, l ≠ []) s ∧ k = length D.

Lemma read_full_nil n : (0 < n)%nat → read_full n [] = (([], Some io_EOF), []).
Proof. intros Hn. unfold read_full, stream_ReadFull. cbn. by rewrite (proj2 (Nat.eqb_neq n 0)) by lia. Qed.

(** Taking the beginning of a record. *)
Lemma tls_pending_rest to s l cur fs :
  concat s = (l ++ cur) ++ concat (server_frame <$> fs) → length cur = to_remain to →
  server_frames_ok (to_firstResponse to) fs → (to_firstResponse to = true → cur = []) → Forall (λ l, l ≠ []) s →
  tls_pending to (drop_stream (length l) s) (cur ++ concat (snd <$> fs)) (length (cur ++ concat (snd <$> fs))).
Proof.
  intros Hs Hc Hf Hcur Hne. exists cur, fs. rewrite concat_drop_stream, Hs, <-app_assoc, drop_app_length.
  split_and!; try done. by apply drop_stream_nonempty.
Qed.

(** A new record. *)
Lemma TLSObfs_read_step n discardN to s h d fs : (0 < n)%nat → to_remain to = 0%nat → to_firstResponse to = false →
  length h = discardN → d ≠ [] → Z.of_nat (length d) < 2 ^ 16 → server_frames_ok false fs →
  concat s = server_frame (h, d) ++ concat (server_frame <$> fs) → Forall (λ l, l ≠ []) s →
  ∃ l to' s' D', TLSObfs_read n discardN to s = ((l, None), to', s') ∧ d ++ concat (snd <$> fs) = l ++ D' ∧ l ≠ [] ∧
    tls_pending to' s' D' (length D').
Proof.
  intros Hn Hr Hf Hh Hd Hl Hfs Hs Hne. unfold TLSObfs_read, server_frame in *. cbn [fst snd] in *.
  rewrite <-!app_assoc in Hs. rewrite <-Hh, (read_full_app h s _ Hs).
  assert (concat (drop_stream (length h) s) = be_bytes 2 (Z.of_nat (length d)) ++ d ++ concat (server_frame <$> fs)) as Hs1
    by (by rewrite concat_drop_stream, Hs, drop_app_length).
  pose proof (drop_stream_nonempty (length h) s Hne) as Hne1. set (s1 := drop_stream (length h) s) in *.
  change 2%nat with (length (be_bytes 2 (Z.of_nat (length d)))) at 1. rewrite (read_full_app _ s1 _ Hs1).
  assert (concat (drop_stream (length (be_bytes 2 (Z.of_nat (length d)))) s1) = d ++ concat (server_frame <$> fs)) as Hs2
    by (by rewrite concat_drop_stream, Hs1, drop_app_length).
  pose proof (drop_stream_nonempty (length (be_bytes 2 (Z.of_nat (length d)))) s1 Hne1) as Hne2.
  set (s2 := drop_stream (length (be_bytes 2 (Z.of_nat (length d)))) s1) in *.
  rewrite be_roundtrip by lia. rewrite Nat2Z.id. destruct (Nat.ltb_spec n (length d)) as [Hlt|Hge].
  - assert (s2 ≠ []) as Hs2n by (intros ->; cbn in Hs2; by destruct d).
    destruct (Conn_Read_nonempty n s2 Hne2 Hs2n Hn) as (l & s3 & Hr3 & Hl3 & Hne3).
    pose proof (Conn_Read_spec n s2) as Hsp. unfold read_once. rewrite Hr3 in *. destruct Hsp as [Hc3 Hln].
    rewrite Hs2 in Hc3. assert (d = l ++ drop (length l) d) as Hdl.
    { apply (f_equal (take (length l))) in Hc3. rewrite take_app_le, take_app_length in Hc3 by lia.
      rewrite <-Hc3 at 1. by rewrite take_drop. }
    eexists l, _, s3, (drop (length l) d ++ concat (snd <$> fs)). split; [reflexivity|]. split; [by rewrite app_assoc, <-Hdl|]. split; [done|].
    exists (drop (length l) d), fs. cbn. rewrite length_drop. split_and!; try done.
    + rewrite Hdl in Hc3 at 1. rewrite <-app_assoc in Hc3. by apply app_inv_head in Hc3.
    + by rewrite Hf.
    + by rewrite Hf.
  - rewrite (read_full_app d s2 _ Hs2). eexists d, to, _, (concat (snd <$> fs)). split; [reflexivity|]. split; [done|]. split; [done|].
    apply (tls_pending_rest to s2 d [] fs); [by rewrite app_nil_r|by rewrite Hr|by rewrite Hf|done|done].
Qed.

Lemma TLSObfs_Read_step n to s D k : (0 < n)%nat → tls_pending to s D k →
  (D = [] ∧ ∃ to' s', TLSObfs_Read n to s = (([], Some io_EOF), to', s')) ∨
  ∃ l to' s' D' k', TLSObfs_Read n to s = ((l, None), to', s') ∧ D = l ++ D' ∧ (k' < k)%nat ∧ tls_pending to' s' D' k'.
Proof.
  intros Hn (cur & fs & Hs & Hc & Hf & -> & Hfirst & Hne & ->). unfold TLSObfs_Read.
  assert (∀ l D' : list byte, l ≠ [] → cur ++ concat (snd <$> fs) = l ++ D' → (length D' < length (cur ++ concat (snd <$> fs)))%nat) as Hk.
  { intros l D' Hl ->. rewrite length_app. destruct l; [done|cbn; lia]. }
  destruct (Nat.ltb_spec 0 (to_remain to)) as [Hpos|Hzero].
  - right. set (l := take n cur). assert (length l = Nat.min (to_remain to) n) as Hll by (unfold l; rewrite length_take; lia).
    assert (cur = l ++ drop n cur) as Hcl by (unfold l; by rewrite take_drop).
    rewrite Hcl in Hs. rewrite <-app_assoc in Hs. rewrite <-Hll, (read_full_app l s _ Hs). rewrite app_assoc in Hs.
    assert (to_firstResponse to = false) as Hff by (destruct (to_firstResponse to); [by rewrite Hfirst in Hc by done; cbn in Hc; lia|done]).
    eexists l, _, _, (drop n cur ++ concat (snd <$> fs)), _. split; [reflexivity|]. split; [by rewrite app_assoc, <-Hcl|].
    split; [apply (Hk l); [intros ->; cbn in Hll; lia|by rewrite app_assoc, <-Hcl]|].
    apply tls_pending_rest; cbn; [done|rewrite length_drop; lia|done|by rewrite Hff|done].
  - assert (cur = []) as -> by (destruct cur; [done|cbn in Hc; lia]). cbn [app] in *.
    destruct fs as [|[h d] fs].
    { left. split; [done|]. cbn in Hs. rewrite (concat_nil_nonempty s Hne Hs).
      destruct (to_firstResponse to); unfold TLSObfs_read; rewrite read_full_nil by lia; by eexists _, _. }
    right. destruct Hf as (Hh & Hd & Hl & Hfs). cbn [fst snd fmap list_fmap concat] in *.
    assert (∃ to1, to_remain to1 = 0%nat ∧ to_firstResponse to1 = false ∧
      (if to_firstResponse to then TLSObfs_read n 105 (to <| to_firstResponse := false |>) s else TLSObfs_read n 3 to s) =
      TLSObfs_read n (length h) to1 s) as (to1 & H1 & H2 & ->).
    { rewrite Hh. destruct (to_firstResponse to) eqn:E; eexists; (split; [|split; [|reflexivity]]); cbn; done || lia. }
    destruct (TLSObfs_read_step n (length h) to1 s h d fs Hn H1 H2 eq_refl Hd Hl Hfs Hs Hne) as (l & to' & s' & D' & -> & HD & Hl' & Hp).
    eexists l, to', s', D', _. split; [reflexivity|]. split; [done|]. split; [by apply (Hk l)|exact Hp].
Qed.

(** What a client reads is what the server put in its records: for any records, however the connection
    cuts them, and for reads of any sizes, the bytes that are read are the beginning of the contents in
    order; after as many reads as there are bytes they are all of them, and the next read is the end. *)
Theorem TLSObfs_reads server fs s ns :
  server_frames_ok true fs → concat s = concat (server_frame <$> fs) → Forall (λ l, l ≠ []) s →
  Forall (λ n, 0 < n)%nat ns →
  (run_reads TLSObfs_Read ns (NewTLSObfs server) s).1 `prefix_of` concat (snd <$> fs) ∧
  ((length (concat (snd <$> fs)) < length ns)%nat →
   run_reads TLSObfs_Read ns (NewTLSObfs server) s = (concat (snd <$> fs), Some io_EOF)).
Proof.
  intros Hf Hs Hne Hns. apply (run_reads_delivers TLSObfs_Read tls_pending TLSObfs_Read_step); [done|].
  exists [], fs. by split_and!.
Qed.

(** *** What a client reads after a response header *)

Lemma bytes_Index_le sep l i : bytes_Index l sep = Some i → (i + length sep ≤ length l)%nat.
Proof.
  revert i. induction l as [|x l IH]; intros i; cbn [bytes_Index].
  - case_bool_decide as Hp; [|done]. intros [= <-]. by apply prefix_length in Hp.
  - case_bool_decide as Hp; [intros [= <-]; by apply prefix_length in Hp|].
    destruct (bytes_Index l sep) as [j|]; [|done]. intros [= <-]. specialize (IH j eq_refl). cbn. lia.
Qed.

Section HTTPTheorems.
Context (BufferSize : nat) (HBufferSize : (0 < BufferSize)%nat).

(** Before the response its header is in the first read; then some of it is kept; then nothing is. *)
Definition http_pending (ho : HTTPObfs) (s : Stream) (D : list byte) (k : nat) : Prop :=
  Forall (λ l, l ≠ []) s ∧
  match ho_buf ho with
  | Some buf => ho_firstResponse ho = false ∧ (ho_offset ho < length buf)%nat ∧ D = drop (ho_offset ho) buf ++ concat s ∧ k = length D
  | None =>
      if ho_firstResponse ho then
        ∃ segment s' idx, s = segment :: s' ∧ bytes_Index (take BufferSize segment) end_of_header = Some idx ∧
          D = drop (idx + 4) (concat s) ∧ k = S (length D)
      else D = concat s ∧ k = length D
  end.

Lemma http_direct n ho s : (0 < n)%nat → ho_buf ho = None → ho_firstResponse ho = false → Forall (λ l, l ≠ []) s →
  (concat s = [] ∧ ∃ t' s', HTTPObfs_Read BufferSize n ho s = (([], Some io_EOF), t', s')) ∨
  ∃ l s', HTTPObfs_Read BufferSize n ho s = ((l, None), ho, s') ∧ concat s = l ++ concat s' ∧ l ≠ [] ∧ Forall (λ l, l ≠ []) s'.
Proof.
  intros Hn Hb Hf Hne. unfold HTTPObfs_Read, read_once. rewrite Hb, Hf.
  destruct s as [|segment s]; [left; split; [done|by eexists _, _]|]. right.
  destruct (Conn_Read_nonempty n (segment :: s) Hne ltac:(done) Hn) as (l & s' & Hr & Hl & Hne').
  pose proof (Conn_Read_spec n (segment :: s)) as Hs. rewrite Hr in *. destruct Hs as [Hs _]. by exists l, s'.
Qed.

Lemma HTTPObfs_Read_step n ho s D k : (0 < n)%nat → http_pending ho s D k →
  (D = [] ∧ ∃ t' s', HTTPObfs_Read BufferSize n ho s = (([], Some io_EOF), t', s')) ∨
  ∃ l t' s' D' k', HTTPObfs_Read BufferSize n ho s = ((l, None), t', s') ∧ D = l ++ D' ∧ (k' < k)%nat ∧ http_pending t' s' D' k'.
Proof.
  intros Hn [Hne Hp]. destruct (ho_buf ho) as [buf|] eqn:Hb.
  - destruct Hp as (Hf & Ho & -> & ->). right. unfold HTTPObfs_Read. rewrite Hb.
    set (kept := drop (ho_offset ho) buf). assert (length kept = length buf - ho_offset ho)%nat as Hk by apply length_drop.
    eexists (take n kept), _, s, (drop n kept ++ concat s), (length (drop n kept ++ concat s)). split; [reflexivity|]. split; [by rewrite app_assoc, take_drop|].
    split; [rewrite !length_app, length_drop; lia|]. split; [done|]. cbn [ho_buf ho_firstResponse ho_offset mkT HTTPObfs_settable].
    rewrite length_take. destruct (Nat.eqb_spec (ho_offset ho + n `min` length kept) (length buf)) as [He|He]; cbn.
    + rewrite Hf. rewrite (drop_ge kept) by lia. done.
    + replace (n `min` length kept)%nat with n by lia. split_and!; [done|lia| |done]. unfold kept. by rewrite drop_drop.
  - destruct (ho_firstResponse ho) eqn:Hf.
    + destruct Hp as (segment & s' & idx & -> & Hidx & -> & ->). right.
      pose proof (Conn_Read_spec BufferSize (segment :: s')) as Hsp.
      apply List.Forall_cons_iff in Hne as [Hseg Hne].
      assert (∃ s2, Conn_Read BufferSize (segment :: s') = (Ok (take BufferSize segment), s2) ∧ Forall (λ l, l ≠ []) s2) as (s2 & Hr & Hne2).
      { cbn [Conn_Read]. destruct (Nat.leb_spec (length segment) BufferSize); [rewrite take_ge by done; by eexists|].
        eexists. split; [done|]. constructor; [|done]. intros He%(f_equal length). rewrite length_drop in He. cbn in He. lia. }
      unfold HTTPObfs_Read, read_once. rewrite Hb, Hf. rewrite Hr in *. destruct Hsp as [Hcat _].
      set (buf := take BufferSize segment) in *. rewrite Hidx.
      pose proof (bytes_Index_le _ _ _ Hidx) as Hle. change (length end_of_header) with 4%nat in Hle.
      set (kept := drop (idx + 4) buf). assert (length kept = length buf - (idx + 4))%nat as Hk by apply length_drop.
      rewrite Hcat, drop_app_le by lia. fold kept.
      eexists (take n kept), _, s2, (drop n kept ++ concat s2), (length (drop n kept ++ concat s2)).
      split; [reflexivity|]. split; [by rewrite app_assoc, take_drop|]. split; [rewrite !length_app, length_drop; lia|].
      split; [done|]. rewrite <-Hk, length_take. destruct (Nat.ltb_spec (n `min` length kept) (length kept)); cbn.
      * replace (n `min` length kept)%nat with n by lia. split_and!; [done|lia| |done]. unfold kept. by rewrite drop_drop.
      * rewrite Hb. rewrite (drop_ge kept) by lia. done.
    + destruct Hp as [-> ->]. destruct (http_direct n ho s Hn Hb Hf Hne) as [Hl|(l & s' & Hr & Hs & Hl & Hne')]; [by left|].
      right. exists l, ho, s', (concat s'), (length (concat s')). split; [done|]. split; [done|].
      split; [rewrite Hs, length_app; destruct l; [done|cbn; lia]|]. split; [done|]. by rewrite Hb, Hf.
Qed.

(** What a client reads through HTTP is what follows the header of the response: when the end of the
    header is in the first read, then for reads of any sizes the bytes that are read are the beginning
    of what follows it, and enough reads give all of it and then the end. *)
Theorem HTTPObfs_reads host port segment s idx ns :
  bytes_Index (take BufferSize segment) end_of_header = Some idx → Forall (λ l, l ≠ []) (segment :: s) →
  Forall (λ n, 0 < n)%nat ns →
  let D := drop (idx + 4) (concat (segment :: s)) in
  (run_reads (HTTPObfs_Read BufferSize) ns (NewHTTPObfs host port) (segment :: s)).1 `prefix_of` D ∧
  ((S (length D) < length ns)%nat →
   run_reads (HTTPObfs_Read BufferSize) ns (NewHTTPObfs host port) (segment :: s) = (D, Some io_EOF)).
Proof.
  intros Hi Hne Hns D. apply (run_reads_delivers (HTTPObfs_Read BufferSize) http_pending HTTPObfs_Read_step); [done|].
  split; [done|]. cbn. by exists segment, s, idx.
Qed.

End HTTPTheorems.

(** ** Concrete streams *)

Section Examples.

Definition ex_random : list byte := repeat x01 28.
Definition ex_session : list byte := repeat x02 32.
Definition ex_bytes : list byte := bytes_of_string "hello".
Definition ex_frame (first : bool) (l : list byte) : list byte * list byte := (repeat x00 (if first then 105 else 3), l).

Lemma TLSObfs_Write_wire_witness : ∃ cs w,
  (TLSObfs_Write record (λ _, (0, ex_random, ex_session)) ex_bytes (NewTLSObfs "a.test") []).2 = w ∧
  concat cs = ex_bytes ∧ read_records (length cs) (concat w) = (Ok (records_of 0 ex_random ex_session (bytes_of_string "a.test") true cs), []).
Proof.
  destruct (TLSObfs_Write_wire 0 ex_random ex_session eq_refl eq_refl ex_bytes (NewTLSObfs "a.test") ltac:(vm_compute; reflexivity))
    as (cs & w & Hw & Hcat & _ & Hr & _).
  exists cs, w. split; [rewrite Hw; reflexivity|]. split; [exact Hcat|exact Hr].
Defined.

(** Two records of a server, in segments of seven bytes, and reads of three bytes. *)
Definition ex_frames : list (list byte * list byte) := [ex_frame true ex_bytes; ex_frame false [x01; x02]].
Fixpoint cut_at (fuel n : nat) (l : list byte) : Stream :=
  match fuel with O => [] | S fuel => if nonempty l then take n l :: cut_at fuel n (drop n l) else [] end.
Definition ex_wire : list byte := concat (server_frame <$> ex_frames).

Lemma TLSObfs_reads_witness :
  run_reads TLSObfs_Read (repeat 3%nat 8) (NewTLSObfs "a.test") (cut_at 200 7 ex_wire) = (ex_bytes ++ [x01; x02], Some io_EOF).
Proof.
  apply (TLSObfs_reads "a.test" ex_frames (cut_at 200 7 ex_wire) (repeat 3%nat 8)).
  - cbn. split_and!; try done; lia.
  - vm_compute. reflexivity.
  - apply Forall_forall. intros l Hl ->. vm_compute in Hl. repeat (destruct Hl as [Hl|Hl]; [discriminate|]). exact Hl.
  - repeat constructor.
  - vm_compute. lia.
Defined.

Definition ex_response : list byte := bytes_of_string "HTTP/1.1 101 Switching Protocols" ++ end_of_header.

Lemma HTTPObfs_reads_witness :
  run_reads (HTTPObfs_Read 32768) (repeat 3%nat 9) (NewHTTPObfs "a.test" "80") [ex_response ++ ex_bytes; [x01; x02]] =
    (ex_bytes ++ [x01; x02], Some io_EOF).
Proof.
  apply (HTTPObfs_reads 32768 ltac:(apply Nat.ltb_lt; vm_compute; reflexivity) "a.test" "80" (ex_response ++ ex_bytes) [[x01; x02]] 32 (repeat 3%nat 9)).
  - rewrite take_ge by (apply Nat.leb_le; vm_compute; reflexivity). vm_compute. reflexivity.
  - repeat constructor; discriminate.
  - repeat constructor.
  - vm_compute. lia.
Defined.

(** A header that arrives in two segments is the end of the connection. *)
Lemma header_in_two_pieces :
  run_reads (HTTPObfs_Read 32768) [3%nat] (NewHTTPObfs "a.test" "80") [take 10 ex_response; drop 10 ex_response ++ ex_bytes] =
    ([], Some io_EOF).
Proof. vm_compute. reflexivity. Qed.

(** A connection that is cut between the header of a record and its length: the read is empty and
    has no error. *)
Lemma cut_in_length :
  (TLSObfs_Read 5 (NewTLSObfs "a.test") [repeat x00 105; [x00]]).1.1 = ([], None).
Proof. vm_compute. reflexivity. Qed.

End Examples.
