(* ===== verification/Sip003.v ===== *)
(** * Plugin options of Shadowsocks (transport/sip003)

    The options of a plugin are one string of keys and values, in which separators are escaped.
    [parse_escaped] says that what is written with [backslashEscape] is read back; the plugins then take
    what they know of the options. *)

From stdpp Require Import base gmap strings list numbers.
From S2P Require Import Prelude GoStd Chars Netip Strconv.

Local Open Scope Z_scope.
Local Open Scope string_scope.

(** [transport/sip003/args.go:11] Args *)
Definition Args : Type := gmap string (list string).

(** [transport/sip003/args.go:17-26] (Args).Get *)
Definition Args_Get (args : Args) (k : string) : option string :=
  match args !! k with
  | Some (v :: _) => Some v
  | _ => None
  end.

(** [transport/sip003/args.go:29-31] (Args).Add *)
Definition Args_Add (args : Args) (k value : string) : Args := <[k := (default [] (args !! k) ++ [value])%list]> args.

Definition backslash : ascii := "\".
Definition in_set (b : ascii) (set : list ascii) : bool := existsb (Ascii.eqb b) set.
Definition str_snoc (s : string) (c : ascii) : string := s +:+ String c EmptyString.

(** From position [i] on, with what has been read before; [s] is the whole string, for the error.

    [transport/sip003/args.go:36-55] indexUnescaped *)
Fixpoint indexUnescaped_loop (s : string) (term : list ascii) (i : nat) (unesc : string) (rest : string) : res (nat * string) :=
  match rest with
  | EmptyString => Ok (i, unesc)
  | String b rest =>
      if in_set b term then Ok (i, unesc) else
      if Ascii.eqb b backslash then
        match rest with
        | EmptyString => Err (E_New [AStr "nothing following final escape in "; AStr s])
        | String b rest => indexUnescaped_loop s term (i + 2) (str_snoc unesc b) rest
        end
      else indexUnescaped_loop s term (i + 1) (str_snoc unesc b) rest
  end.
Definition indexUnescaped (s : string) (term : list ascii) : res (nat * string) :=
  indexUnescaped_loop s term 0 "" s.

(** The fuel counts the turns; [parse_total] shows that the length of the string is enough.

    [transport/sip003/args.go:69-106] ParsePluginOptions (loop) *)
Fixpoint parse_loop (fuel : nat) (s : string) (i : nat) (opts : Args) : option (res Args) :=
  match fuel with
  | O => None
  | S fuel =>
      if Nat.leb (String.length s) i then Some (Ok opts) else
      match indexUnescaped (str_drop i s) ["="%char; ";"%char] with
      | Err e => Some (Err e)
      | Panic p => Some (Panic p)
      | Ok (offset, k) =>
          if String.eqb k "" then Some (Err (E_New [AStr "empty key in "; AStr ""])) else
          let i := (i + offset)%nat in
          match str_drop i s with
          | String c _ =>
              if Ascii.eqb c "=" then
                let i := S i in
                match indexUnescaped (str_drop i s) [";"%char] with
                | Err e => Some (Err e)
                | Panic p => Some (Panic p)
                | Ok (offset, value) => parse_loop fuel s (S (i + offset)) (Args_Add opts k value)
                end
              else parse_loop fuel s (S i) (Args_Add opts k "1")
          | EmptyString => parse_loop fuel s (S i) (Args_Add opts k "1")
          end
      end
  end.

(** [transport/sip003/args.go:63-107] ParsePluginOptions *)
Definition ParsePluginOptions (s : string) : option (res Args) := parse_loop (S (String.length s)) s 0 ∅.

(** [transport/sip003/args.go:110-119] backslashEscape *)
Fixpoint backslashEscape (s : string) (set : list ascii) : string :=
  match s with
  | EmptyString => ""
  | String b s =>
      if Ascii.eqb b backslash || in_set b set then String backslash (String b (backslashEscape s set))
      else String b (backslashEscape s set)
  end.

(** ** The plugins *)

(** [transport/sip003/obfs.go:44-50] ObfsLocal *)
Record ObfsLocal : Type := mkObfsLocal { ol_tls : bool; ol_host : string; ol_port : string }.

(** The choice of [DialContext]: which obfuscation, with which host and port. *)
Inductive Obfs : Type := O_HTTP (host port : string) | O_TLS (server : string).

(** [transport/sip003/obfs.go:21-42] newObfsLocal *)
Definition newObfsLocal (pluginOpts : Args) (serverPort : Z) : res ObfsLocal :=
  let mode := default "http" (Args_Get pluginOpts "obfs") in
  let host := default "" (Args_Get pluginOpts "obfs-host") in
  if String.eqb mode "http" then Ok (mkObfsLocal false host (Itoa serverPort))
  else if String.eqb mode "tls" then Ok (mkObfsLocal true host (Itoa serverPort))
  else Err (E_New [AStr "unknown obfs mode "; AStr mode]).

(** [transport/sip003/obfs.go:52-62] (ObfsLocal).DialContext *)
Definition ObfsLocal_wrap (o : ObfsLocal) : Obfs :=
  if negb (ol_tls o) then O_HTTP (ol_host o) (ol_port o) else O_TLS (ol_host o).

(** What [newV2RayPlugin] makes of the options: the TLS options it fills in, the transport, and whether
    its connections are wrapped for the multiplexing of V2Ray. *)
Record PluginTLS : Type := mkPluginTLS { pt_CertificatePath : string; pt_Certificate : list string; pt_ServerName : string }.
Inductive PluginTransport : Type := PT_Websocket (host path : string) | PT_QUIC.
Record V2RayPlugin : Type := mkV2RayPlugin {
  vp_tls : option PluginTLS; vp_transport : PluginTransport; vp_mux : bool
}.

Definition newline : string := String (ascii_of_nat 10) EmptyString.

(** The certificate is in one line, between those that mark it.

    [transport/sip003/v2ray.go:26-38] newV2RayPlugin (TLS) *)
Definition plugin_tls (pluginOpts : Args) (serverName : string) : option PluginTLS :=
  match Args_Get pluginOpts "tls" with
  | None => None
  | Some _ =>
      let certificatePath := default "" (Args_Get pluginOpts "cert") in
      let certificate := match Args_Get pluginOpts "certRaw" with
                         | Some certRaw => ["-----BEGIN CERTIFICATE-----" +:+ newline +:+ certRaw +:+ newline +:+ "-----END CERTIFICATE-----"]
                         | None => []
                         end in
      Some (mkPluginTLS certificatePath certificate serverName)
  end.

(** The construction of the TLS client and of the transport is that of other parts.

    [transport/sip003/v2ray.go:25-105] newV2RayPlugin *)
Definition newV2RayPlugin (pluginOpts : Args) : res V2RayPlugin :=
  let mode := default "websocket" (Args_Get pluginOpts "mode") in
  let host := default "cloudfront.com" (Args_Get pluginOpts "host") in
  let serverName := default "" (Args_Get pluginOpts "host") in
  let path := default "/" (Args_Get pluginOpts "path") in
  let tls := plugin_tls pluginOpts serverName in
  if String.eqb mode "websocket" then
    match Args_Get pluginOpts "mux" with
    | Some muxOpt =>
        match Atoi muxOpt with
        | (_, Some e) => Err (E_Cause e [AStr "parse mux value"])
        | (muxVal, None) => Ok (mkV2RayPlugin tls (PT_Websocket host path) (Z.ltb 0 muxVal))
        end
    | None => Ok (mkV2RayPlugin tls (PT_Websocket host path) true)
    end
  else if String.eqb mode "quic" then Ok (mkV2RayPlugin tls PT_QUIC false)
  else Err (E_New [AStr ("v2ray-plugin: unknown mode: " +:+ mode)]).

Inductive Plugin : Type := P_Obfs (o : ObfsLocal) | P_V2Ray (o : V2RayPlugin).
Definition as_obfs (r : res ObfsLocal) : res Plugin := P_Obfs <$> r.
Definition as_v2ray (r : res V2RayPlugin) : res Plugin := P_V2Ray <$> r.

(** The two plugins that are registered; the registry does not change afterwards.

    [transport/sip003/plugin.go:28-38] CreatePlugin *)
Definition CreatePlugin (name pluginArgs : string) (serverPort : Z) : option (res Plugin) :=
  match ParsePluginOptions pluginArgs with
  | None => None
  | Some r => Some (
      pluginOptions ← wrap_err [AStr "parse plugin_opts"] r;
      if String.eqb name "obfs-local" then as_obfs (newObfsLocal pluginOptions serverPort)
      else if String.eqb name "v2ray-plugin" then as_v2ray (newV2RayPlugin pluginOptions)
      else Err (E_New [AStr "plugin not found: "; AStr name]))
  end.

(** ** What has been escaped is read back *)

Lemma str_snoc_app u b x : str_snoc u b +:+ x = u +:+ String b x.
Proof. unfold str_snoc. by rewrite <-string_app_assoc. Qed.

Section RoundTrip.
Context (set : list ascii) (Hset : ∀ b, in_set b ["="%char; ";"%char] = true → in_set b set = true).

(** The search for a terminator goes over what has been escaped. *)
Lemma index_escaped s term x rest : in_set backslash term = false → (∀ b, in_set b term = true → in_set b set = true) →
  ∀ i u, indexUnescaped_loop s term i u (backslashEscape x set +:+ rest) =
    indexUnescaped_loop s term (i + String.length (backslashEscape x set)) (u +:+ x) rest.
Proof.
  intros Hb Hterm. induction x as [|b x IH]; intros i u.
  { cbn [backslashEscape String.length]. rewrite Nat.add_0_r. by rewrite app_empty_r. }
  cbn [backslashEscape]. destruct (Ascii.eqb b backslash || in_set b set) eqn:He.
  - rewrite !string_cons_app. cbn [indexUnescaped_loop String.length]. rewrite Hb, Ascii.eqb_refl, IH, str_snoc_app.
    f_equal. lia.
  - apply orb_false_iff in He as [He1 He2]. rewrite string_cons_app. cbn [indexUnescaped_loop String.length].
    assert (in_set b term = false) as -> by (destruct (in_set b term) eqn:Ht; [by rewrite (Hterm _ Ht) in He2|done]).
    rewrite He1, IH, str_snoc_app. f_equal. lia.
Qed.

(** Its end: there is nothing more, or a terminator. *)
Definition at_end (term : list ascii) (rest : string) : Prop :=
  match rest with EmptyString => True | String c _ => in_set c term = true end.

Lemma index_escaped_end s term x rest : in_set backslash term = false → (∀ b, in_set b term = true → in_set b set = true) →
  at_end term rest → s = backslashEscape x set +:+ rest →
  indexUnescaped s term = Ok (String.length (backslashEscape x set), x).
Proof.
  intros Hb Hterm Hend ->. unfold indexUnescaped. rewrite index_escaped by done. cbn [Nat.add].
  destruct rest as [|c rest]; [done|]. cbn [indexUnescaped_loop]. by rewrite Hend.
Qed.

(** Options as they are written: a key alone, or a key and its value. *)
Definition option_text (o : string * option string) : string :=
  match o with
  | (k, None) => backslashEscape k set
  | (k, Some v) => backslashEscape k set +:+ "=" +:+ backslashEscape v set
  end.
Definition option_add (opts : Args) (o : string * option string) : Args := Args_Add opts o.1 (default "1" o.2).
Definition options_text (l : list (string * option string)) : string := strings_Join (option_text <$> l) ";".

Lemma options_text_cons o l : ∃ rest, options_text (o :: l) = option_text o +:+ rest ∧
  (l = [] ∧ rest = "" ∨ rest = String ";" (options_text l)).
Proof.
  unfold options_text. destruct l as [|o' l]; [exists ""; cbn; rewrite app_empty_r; by auto|].
  eexists. split; [reflexivity|]. by right.
Qed.

Lemma escape_nonempty k : k ≠ "" → (0 < String.length (backslashEscape k set))%nat.
Proof. destruct k as [|c k]; [done|]. intros _. cbn. destruct (_ || _); cbn; lia. Qed.

Lemma in_value_set b : in_set b [";"%char] = true → in_set b set = true.
Proof. intros H. apply Hset. cbn in *. by rewrite orb_false_r in H; rewrite H, orb_true_r. Qed.

(** One turn of the loop, from the beginning of an option. *)
Lemma parse_option fuel pre o rest opts : o.1 ≠ "" → at_end [";"%char] rest →
  let s := pre +:+ option_text o +:+ rest in
  parse_loop (S fuel) s (String.length pre) opts =
    parse_loop fuel s (S (String.length pre + String.length (option_text o))) (option_add opts o).
Proof.
  intros Hk Hend s. destruct o as [k v]. cbn [fst] in Hk. pose proof (escape_nonempty k Hk) as Hpos.
  assert (String.length s = String.length pre + (String.length (option_text (k, v)) + String.length rest))%nat as Hlen
    by (unfold s; by rewrite !length_string_app).
  assert (String.length (backslashEscape k set) ≤ String.length (option_text (k, v)))%nat as Hle
    by (destruct v; cbn [option_text]; rewrite ?length_string_app; lia).
  cbn [parse_loop]. rewrite (proj2 (Nat.leb_gt _ _)) by lia.
  assert (str_drop (String.length pre) s = option_text (k, v) +:+ rest) as Hdrop by apply str_drop_app. rewrite Hdrop.
  set (after := match v with Some v => "=" +:+ backslashEscape v set +:+ rest | None => rest end).
  assert (option_text (k, v) +:+ rest = backslashEscape k set +:+ after) as Hafter.
  { unfold after. destruct v; cbn [option_text]; [by rewrite <-!string_app_assoc|done]. }
  rewrite Hafter. rewrite (index_escaped_end (backslashEscape k set +:+ after) ["="%char; ";"%char] k after); [|done|done| |done].
  2: { unfold after. destruct v; [done|]. destruct rest as [|c rest]; [done|]. cbn in *. rewrite orb_false_r in Hend. by rewrite Hend, orb_true_r. }
  rewrite (proj2 (String.eqb_neq k "")) by done.
  assert (str_drop (String.length pre + String.length (backslashEscape k set)) s = after) as Hdrop2.
  { replace s with ((pre +:+ backslashEscape k set) +:+ after).
    - rewrite <-length_string_app. apply str_drop_app.
    - unfold s. by rewrite <-string_app_assoc, <-Hafter. }
  rewrite Hdrop2. unfold after, option_add. cbn [fst snd]. destruct v as [v|]; cbn [default from_option id].
  - change ("=" +:+ backslashEscape v set +:+ rest) with (String "=" (backslashEscape v set +:+ rest)). cbv iota beta. rewrite Ascii.eqb_refl.
    assert (str_drop (S (String.length pre + String.length (backslashEscape k set))) s = backslashEscape v set +:+ rest) as ->.
    { replace s with ((pre +:+ backslashEscape k set +:+ "=") +:+ backslashEscape v set +:+ rest).
      - replace (S (String.length pre + String.length (backslashEscape k set))) with (String.length (pre +:+ backslashEscape k set +:+ "="))
          by (rewrite !length_string_app; cbn; lia).
        apply str_drop_app.
      - unfold s. cbn [option_text]. by rewrite <-!string_app_assoc. }
    rewrite (index_escaped_end (backslashEscape v set +:+ rest) [";"%char] v rest); [|done|exact in_value_set|done|done].
    f_equal. cbn [option_text]. rewrite !length_string_app. cbn. lia.
  - cbn [option_text]. destruct rest as [|c rest]; [done|]. cbn in Hend. rewrite orb_false_r in Hend.
    apply Ascii.eqb_eq in Hend as ->. done.
Qed.

Lemma parse_options l : ∀ fuel pre opts, Forall (λ o, o.1 ≠ "") l → (String.length (options_text l) < fuel)%nat →
  parse_loop fuel (pre +:+ options_text l) (String.length pre) opts = Some (Ok (foldl option_add opts l)).
Proof.
  induction l as [|o l IH]; intros fuel pre opts Hl Hf; (destruct fuel as [|fuel]; [lia|]).
  { unfold options_text. cbn [fmap list_fmap strings_Join foldl]. rewrite app_empty_r. cbn [parse_loop].
    by rewrite Nat.leb_refl. }
  apply List.Forall_cons_iff in Hl as [Ho Hl]. destruct (options_text_cons o l) as (rest & Ht & Hrest). rewrite Ht in *.
  rewrite parse_option; [|done|destruct Hrest as [[_ ->]| ->]; done]. cbn [foldl].
  destruct Hrest as [[-> ->]| ->].
  - destruct fuel as [|fuel].
    { rewrite length_string_app in Hf. pose proof (escape_nonempty o.1 Ho). destruct o as [k [v|]]; cbn [option_text fst] in *;
        rewrite ?length_string_app in Hf; lia. }
    cbn [parse_loop foldl]. rewrite (proj2 (Nat.leb_le _ _)); [done|]. rewrite !length_string_app. cbn. lia.
  - specialize (IH fuel (pre +:+ option_text o +:+ ";") (option_add opts o) Hl).
    rewrite <-IH.
    + f_equal; [by rewrite <-!string_app_assoc|]. rewrite !length_string_app. cbn. lia.
    + rewrite length_string_app in Hf. cbn in Hf. lia.
Qed.

(** What has been escaped is read back: keys that are not empty, alone or with any values, in which
    backslashes and separators are escaped, give exactly these options, a key alone the value 1, and
    several values of a key in their order. *)
Theorem parse_escaped l : Forall (λ o, o.1 ≠ "") l →
  ParsePluginOptions (options_text l) = Some (Ok (foldl option_add ∅ l)).
Proof.
  intros Hl. unfold ParsePluginOptions. apply (parse_options l (S (String.length (options_text l))) "" ∅ Hl). lia.
Qed.

End RoundTrip.

(** Parsing ends on every string: a key that is not empty moves on. *)
Lemma index_progress s term rest : ∀ i u j x, indexUnescaped_loop s term i u rest = Ok (j, x) →
  (String.length x + i ≤ j + String.length u)%nat.
Proof.
  induction rest as [rest IH] using (induction_ltof1 _ String.length). unfold ltof in IH.
  intros i u j x. destruct rest as [|b rest]; cbn [indexUnescaped_loop]; [intros [= <- <-]; lia|].
  destruct (in_set b term); [intros [= <- <-]; lia|]. destruct (Ascii.eqb b backslash).
  - destruct rest as [|b' rest]; [done|]. intros H. apply IH in H; [|cbn; lia].
    unfold str_snoc in H. rewrite length_string_app in H. cbn in H. lia.
  - intros H. apply IH in H; [|cbn; lia]. unfold str_snoc in H. rewrite length_string_app in H. cbn in H. lia.
Qed.

Lemma parse_loop_total s : ∀ fuel i opts, (0 < fuel)%nat → (String.length s + 1 < i + 2 * fuel)%nat → parse_loop fuel s i opts ≠ None.
Proof.
  induction fuel as [|fuel IH]; intros i opts Hpos Hf; [lia|]. cbn [parse_loop].
  destruct (Nat.leb_spec (String.length s) i) as [|Hi]; [done|].
  destruct (indexUnescaped (str_drop i s) _) as [[offset k]| |] eqn:Hk; [|done|done].
  destruct (String.eqb_spec k "") as [|Hne]; [done|]. apply index_progress in Hk. cbn [String.length] in Hk.
  assert (0 < String.length k)%nat by (destruct k; [done|cbn; lia]).
  destruct (str_drop (i + offset) s) as [|c t]; [apply IH; lia|]. destruct (Ascii.eqb c "="); [|apply IH; lia].
  destruct (indexUnescaped _ _) as [[offset2 v]| |]; [|done|done]. apply IH; lia.
Qed.

Lemma parse_total s : ParsePluginOptions s ≠ None.
Proof. apply parse_loop_total; lia. Qed.

(** ** Concrete options *)

Section Examples.

Definition separators : list ascii := ["="%char; ";"%char].
Definition ex_options : list (string * option string) :=
  [("secret", Some "n\=u;"); ("tls", None); ("secret", Some "yes"); ("a=b", Some "")].

Lemma parse_escaped_witness :
  ParsePluginOptions (options_text separators ex_options) = Some (Ok (foldl option_add ∅ ex_options)) ∧
  Args_Get (foldl option_add ∅ ex_options) "secret" = Some "n\=u;".
Proof.
  split; [|vm_compute; reflexivity].
  apply (parse_escaped separators ltac:(done) ex_options). repeat constructor; discriminate.
Defined.

(** The error for an empty key never shows where it is. *)
Lemma empty_key : ParsePluginOptions "a=b;=c" = Some (Err (E_New [AStr "empty key in "; AStr ""])).
Proof. reflexivity. Qed.

(** The plugins. *)
Lemma plugin_examples :
  CreatePlugin "obfs-local" "obfs=tls;obfs-host=a.test" 443 = Some (Ok (P_Obfs (mkObfsLocal true "a.test" "443"))) ∧
  CreatePlugin "v2ray-plugin" "tls;host=b.test;mux=0" 443 =
    Some (Ok (P_V2Ray (mkV2RayPlugin (Some (mkPluginTLS "" [] "b.test")) (PT_Websocket "b.test" "/") false))) ∧
  CreatePlugin "obfs-local" "obfs=tls\" 443 =
    Some (Err (E_Cause (E_New [AStr "nothing following final escape in "; AStr "tls\"]) [AStr "parse plugin_opts"])).
Proof. vm_compute. repeat split. Qed.

End Examples.
