(* ===== verification/V2RayTransports.v ===== *)
(** * V2Ray transports (transport/v2raygrpclite, v2raywebsocket, v2rayhttp, v2rayhttpupgrade)

    Connections inside the body of an HTTP request: messages of gRPC, frames of WebSocket, or the bytes
    after a header.  What is left in the buffered reader of a handshake has to be given to the
    connection; two of the clients lose it. *)

From stdpp Require Import base gmap strings list numbers.
From S2P Require Import Prelude GoStd Netip GoIO Adapter Streams.

Local Open Scope Z_scope.

(** ** gRPC (v2raygrpclite)

    The buffered reader, when there is one, and what is left of the message that is read.

    [transport/v2raygrpclite/conn.go:23-31] GunConn *)
Record GunConn : Type := mkGunConn {
  gc_reader : option (list byte);
  gc_err : option error;
  gc_readRemaining : Z
}.

(** [transport/v2raygrpclite/conn.go:33-40] newGunConn *)
Definition newGunConn : GunConn := mkGunConn (Some []) None 0.

(** [transport/v2raygrpclite/conn.go:42-47] newLateGunConn *)
Definition newLateGunConn : GunConn := mkGunConn None None 0.

(** [transport/v2raygrpclite/conn.go:49-56] (GunConn).setup *)
Definition GunConn_setup (reader : bool) (err : option error) (c : GunConn) : GunConn :=
  mkGunConn (if reader then Some [] else gc_reader c) err (gc_readRemaining c).

Definition slice_panic : list arg := [AStr "slice bounds out of range"].
Definition i64 (z : Z) : Z := if Z.ltb z (2 ^ 63) then z else z - 2 ^ 64.

(** What a [Read] that may panic gives. *)
Definition GunResult : Type := res ReadResult.

(** The first bytes of a message, and the rest of the call.

    [transport/v2raygrpclite/conn.go:80-98] (GunConn).read (message) *)
Definition read_message (n : nat) (c : GunConn) (r : BufReader) : GunResult * GunConn * BufReader :=
  let with_reader (r : BufReader) (remaining : Z) := mkGunConn (Some r.1) (gc_err c) remaining in
  match on_bufio (SkipN 6) r with
  | (Err e, r) => (Ok ([], Some e), with_reader r (gc_readRemaining c), r)
  | (Panic p, r) => (Panic p, with_reader r (gc_readRemaining c), r)
  | (Ok _, r) =>
      match on_bufio ReadUvarint r with
      | (Err e, r) => (Ok ([], Some e), with_reader r (gc_readRemaining c), r)
      | (Panic p, r) => (Panic p, with_reader r (gc_readRemaining c), r)
      | (Ok dataLen, r) =>
          let readLen := i64 dataLen in
          if Z.ltb readLen 0 then (Panic slice_panic, with_reader r readLen, r) else
          let '((l, e), r) := bufio_Read (Z.to_nat (Z.min (Z.of_nat n) readLen)) r in
          (Ok (l, e), with_reader r (readLen - Z.of_nat (length l)), r)
      end
  end.

(** [None]: the call waits until the connection is set up.

    [transport/v2raygrpclite/conn.go:63-99] (GunConn).read *)
Definition GunConn_read (n : nat) (c : GunConn) (conn : Stream) : option (GunResult * GunConn * Stream) :=
  match gc_reader c, gc_err c with
  | None, None => None
  | None, Some e => Some (Ok ([], Some e), c, conn)
  | Some buffered, _ =>
      if Z.ltb 0 (gc_readRemaining c) then
        let '((l, e), r) := bufio_Read (Z.to_nat (Z.min (Z.of_nat n) (gc_readRemaining c))) (buffered, conn) in
        Some (Ok (l, e), mkGunConn (Some r.1) (gc_err c) (gc_readRemaining c - Z.of_nat (length l)), r.2)
      else let '(x, c, r) := read_message n c (buffered, conn) in Some (x, c, r.2)
  end.

(** [header[0] = 0; binary.BigEndian.PutUint32(header[1:5], 1+varLen+len); header[5] = 0x0A;
    binary.PutUvarint(header[6:], len)]: a header of [6+varLen] bytes.

    [transport/v2raygrpclite/conn.go:102-108] (GunConn).Write (header) *)
Definition gun_header (data : list byte) : list byte :=
  let varint := PutUvarint (u64 (Z.of_nat (length data))) in
  [x00] ++ be_bytes 4 (u32 (1 + Z.of_nat (length varint) + Z.of_nat (length data))) ++ [x0a] ++ varint.

(** [WriteBuffer] puts the same header in front of the bytes of the buffer.

    [transport/v2raygrpclite/conn.go:101-137] (GunConn).Write, (GunConn).WriteBuffer *)
Definition GunConn_Write {W : Type} (Write : list byte → W → option error * W) (b : list byte) (w : W) : res nat * W :=
  let '(e, w) := Write (gun_header b ++ b) w in
  (match e with None => Ok (length b) | Some e => Err e end, w).

(** ** WebSocket (v2raywebsocket) *)

(** [ws.Cipher] of gobwas/ws: the bytes of a payload combined with the key, with exclusive or. *)
Definition mask_byte (key : list byte) (i : nat) : byte := default x00 (key !! (i mod 4)%nat).
Definition Cipher (key payload : list byte) : list byte :=
  imap (λ i b, Z_byte (Z.lxor (byte_Z b) (byte_Z (mask_byte key i)))) payload.

Definition OpBinary : Z := 2.

(** [maskKey] is the random key of a client.

    [transport/v2raywebsocket/writer.go:26-70] (Writer).WriteBuffer *)
Definition Writer_frame (isServer : bool) (maskKey : Z) (data : list byte) : list byte :=
  let dataLen := Z.of_nat (length data) in
  let bit := if isServer then 0 else 128 in
  let key := be_bytes 4 (u32 maskKey) in
  [Z_byte (Z.lor OpBinary 128)] ++
  (if Z.ltb dataLen 126 then [Z_byte (Z.lor bit dataLen)]
   else if Z.ltb dataLen 65536 then Z_byte (Z.lor bit 126) :: be_bytes 2 (u16 dataLen)
   else Z_byte (Z.lor bit 127) :: be_bytes 8 (u64 dataLen)) ++
  (if isServer then data else key ++ Cipher key data).

(** The room in front of a buffer.

    [transport/v2raywebsocket/writer.go:72-74] (Writer).FrontHeadroom *)
Definition Writer_FrontHeadroom : nat := 14.

(** What the buffered reader of the handshake has left goes to a buffer, of which [Len()], which is 0,
    are read.

    [transport/v2raywebsocket/client.go:98-106] (Client).dialContext (buffered) *)
Definition websocket_client_conn (reader : BufReader) : Stream := reader.2.

(** [transport/v2rayhttpupgrade/client.go:102-110] (Client).DialContext (buffered) *)
Definition upgrade_client_conn (reader : BufReader) : Stream := reader.2.

(** *** Early data *)

(** The alphabet of [base64.RawURLEncoding]. *)
Definition base64_char (v : Z) : byte :=
  Z_byte (if Z.ltb v 26 then 65 + v else if Z.ltb v 52 then 71 + v else if Z.ltb v 62 then v - 4
          else if Z.eqb v 62 then 45 else 95).
Definition base64_val (b : byte) : option Z :=
  let c := byte_Z b in
  if Z.leb 65 c && Z.leb c 90 then Some (c - 65)
  else if Z.leb 97 c && Z.leb c 122 then Some (c - 71)
  else if Z.leb 48 c && Z.leb c 57 then Some (c + 4)
  else if Z.eqb c 45 then Some 62 else if Z.eqb c 95 then Some 63 else None.

(** [base64.RawURLEncoding.EncodeToString] *)
Fixpoint EncodeToString (l : list byte) : list byte :=
  match l with
  | [] => []
  | [a] => let v := byte_Z a in [base64_char (v / 4); base64_char (v mod 4 * 16)]
  | [a; b] => let v := byte_Z a * 256 + byte_Z b in
      [base64_char (v / 1024); base64_char (v / 16 mod 64); base64_char (v mod 16 * 4)]
  | a :: b :: c :: l => let v := byte_Z a * 65536 + byte_Z b * 256 + byte_Z c in
      base64_char (v / 262144) :: base64_char (v / 4096 mod 64) :: base64_char (v / 64 mod 64) :: base64_char (v mod 64) ::
      EncodeToString l
  end.

Definition CorruptInputError : error := E_Ext "illegal base64 data".

(** [base64.RawURLEncoding.DecodeString]; line breaks, which it skips, are not expected. *)
Fixpoint DecodeString (l : list byte) : res (list byte) :=
  match l with
  | [] => Ok []
  | [_] => Err CorruptInputError
  | [p; q] =>
      match base64_val p, base64_val q with
      | Some p, Some q => Ok [Z_byte ((p * 64 + q) / 16)]
      | _, _ => Err CorruptInputError
      end
  | [p; q; r] =>
      match base64_val p, base64_val q, base64_val r with
      | Some p, Some q, Some r => let v := (p * 4096 + q * 64 + r) / 4 in Ok [Z_byte (v / 256); Z_byte (v mod 256)]
      | _, _, _ => Err CorruptInputError
      end
  | p :: q :: r :: s :: l =>
      match base64_val p, base64_val q, base64_val r, base64_val s with
      | Some p, Some q, Some r, Some s =>
          let v := p * 262144 + q * 4096 + r * 64 + s in
          l ← DecodeString l; Ok (Z_byte (v / 65536) :: Z_byte (v / 256 mod 256) :: Z_byte (v mod 256) :: l)
      | _, _, _, _ => Err CorruptInputError
      end
  end.

(** What is sent with the request, and what is written after it. *)
Record EarlyRequest : Type := mkEarlyRequest {
  er_Path : list byte;
  er_header : option (string * list byte);
  er_lateData : list byte
}.

(** The request a client makes for its first bytes.

    [transport/v2raywebsocket/conn.go:157-195] (EarlyWebsocketConn).writeRequest *)
Definition early_request (maxEarlyData : Z) (earlyDataHeaderName : string) (path content : list byte) : EarlyRequest :=
  let n := Z.to_nat maxEarlyData in
  let '(earlyData, lateData) :=
    if Z.ltb maxEarlyData (Z.of_nat (length content)) then (take n content, drop n content) else (content, []) in
  if negb (nonempty earlyData) then mkEarlyRequest path None lateData
  else if String.eqb earlyDataHeaderName "" then mkEarlyRequest (path ++ EncodeToString earlyData) None lateData
  else mkEarlyRequest path (Some (earlyDataHeaderName, EncodeToString earlyData)) lateData.

(** A connection that is dialed by its first write: the connection once there is one, or the error of
    the first write. *)
Record EarlyWebsocketConn (C : Type) : Type := mkEarlyWebsocketConn { ew_conn : option C; ew_err : option error }.
Arguments mkEarlyWebsocketConn {C}. Arguments ew_conn {C}. Arguments ew_err {C}.

(** The later writes of [conn.Write] and the first one, of which [dial] is the outcome.

    [transport/v2raywebsocket/conn.go:197-218] (EarlyWebsocketConn).Write *)
Definition Early_Write {C W : Type} (conn_Write : C → list byte → W → res nat * W)
    (dial : list byte → W → res C * W) (b : list byte) (c : EarlyWebsocketConn C) (w : W)
    : res nat * EarlyWebsocketConn C * W :=
  match ew_conn c, ew_err c with
  | Some conn, _ => let '(r, w) := conn_Write conn b w in (r, c, w)
  | None, Some e => (Err e, c, w)
  | None, None =>
      match dial b w with
      | (Ok conn, w) => (Ok (length b), mkEarlyWebsocketConn (Some conn) None, w)
      | (Err e, w) => (Err e, mkEarlyWebsocketConn None (Some e), w)
      | (Panic p, w) => (Panic p, c, w)
      end
  end.

(** The request at the server: its path, the path with the query as [RequestURI] gives it, and the
    header of early data. *)
Record WSRequest : Type := mkWSRequest { wr_Path : list byte; wr_RequestURI : list byte; wr_header : list byte }.

(** The early data, or the status of the refusal.

    [transport/v2raywebsocket/server.go:75-107] (Server).ServeHTTP (early data) *)
Definition server_early_data (maxEarlyData : Z) (earlyDataHeaderName : string) (path : list byte) (request : WSRequest)
    : list byte + Z :=
  if (Z.eqb maxEarlyData 0 || negb (String.eqb earlyDataHeaderName "")) && negb (bool_decide (wr_Path request = path))
  then inr 404 else
  if String.eqb earlyDataHeaderName "" then
    if bool_decide (path `prefix_of` wr_RequestURI request) then
      match DecodeString (drop (length path) (wr_RequestURI request)) with
      | Ok earlyData => inl earlyData
      | _ => inr 400
      end
    else inr 404
  else if negb (bool_decide (wr_Path request = path)) then inr 404
  else if nonempty (wr_header request) then
    match DecodeString (wr_header request) with Ok earlyData => inl earlyData | _ => inr 400 end
  else inl [].

(** The connection that is handed over, on that of the frames.

    [transport/v2raywebsocket/server.go:114-118] (Server).ServeHTTP (connection) *)
Definition server_conn (earlyData : list byte) (conn : Stream) : Stream :=
  if nonempty earlyData then earlyData :: conn else conn.

(** ** HTTP (v2rayhttp) *)

(** The status of [http.ReadResponse], which reads up to the end of the header. *)
Section HTTP1.
Context (ReadResponse : Reader Z).

(** [transport/v2rayhttp/conn.go:25-31] HTTPConn *)
Record HTTPConn : Type := mkHTTPConn {
  hc_requestWritten : bool;
  hc_responseRead : bool;
  hc_responseCache : option (list byte)
}.

(** [transport/v2rayhttp/conn.go:33-41] NewHTTP1Conn *)
Definition NewHTTP1Conn : HTTPConn := mkHTTPConn false false None.

(** Reading the cache, and then the connection.

    [transport/v2rayhttp/conn.go:63-73] (HTTPConn).Read (cache) *)
Definition HTTPConn_read (n : nat) (c : HTTPConn) (s : Stream) : ReadResult * HTTPConn * Stream :=
  match hc_responseCache c with
  | Some [] =>
      let '(r, s) := read_once n s in (r, mkHTTPConn (hc_requestWritten c) (hc_responseRead c) None, s)
  | Some cache =>
      if Nat.eqb n 0 then let '(r, s) := read_once n s in (r, c, s) else
      ((take n cache, None), mkHTTPConn (hc_requestWritten c) (hc_responseRead c) (Some (drop n cache)), s)
  | None => let '(r, s) := read_once n s in (r, c, s)
  end.

(** [transport/v2rayhttp/conn.go:43-74] (HTTPConn).Read *)
Definition HTTPConn_Read (n : nat) (c : HTTPConn) (s : Stream) : ReadResult * HTTPConn * Stream :=
  if hc_responseRead c then HTTPConn_read n c s else
  match on_bufio ReadResponse ([], s) with
  | (Err e, (_, s)) => (([], Some (E_Cause e [AStr "read response"])), c, s)
  | (Panic _, (_, s)) => (([], None), c, s)
  | (Ok StatusCode, (buffered, s)) =>
      if negb (Z.eqb StatusCode 200)
      then (([], Some (E_New [AStr "v2ray-http: unexpected status: "; AInt StatusCode])), c, s)
      else HTTPConn_read n (mkHTTPConn (hc_requestWritten c) true (if nonempty buffered then Some buffered else None)) s
  end.

Definition HTTP_CRLF : list byte := [x0d; x0a].

(** The header as the iteration over the map gives it, and the payload, through a buffer of its own.

    [transport/v2rayhttp/conn.go:88-114] (HTTPConn).writeRequest *)
Definition writeRequest (Method RequestURI : string) (header : list (string * list string)) (payload : list byte)
    : list byte :=
  bytes_of_string (Method +:+ " " +:+ RequestURI +:+ " HTTP/1.1") ++ HTTP_CRLF ++
  concat ((λ kv, bytes_of_string (kv.1 +:+ ": " +:+ strings_Join kv.2 ", ") ++ HTTP_CRLF) <$> header) ++
  HTTP_CRLF ++ payload.

(** [transport/v2rayhttp/conn.go:76-86] (HTTPConn).Write *)
Definition HTTPConn_Write {W : Type} (Write : list byte → W → option error * W)
    (Method RequestURI : string) (header : list (string * list string)) (b : list byte) (c : HTTPConn) (w : W)
    : res nat * HTTPConn * W :=
  let '(e, w) := Write (if hc_requestWritten c then b else writeRequest Method RequestURI header b) w in
  if hc_requestWritten c then (match e with None => Ok (length b) | Some e => Err e end, c, w) else
  match e with
  | None => (Ok (length b), mkHTTPConn true (hc_responseRead c) (hc_responseCache c), w)
  | Some e => (Err (E_Cause e [AStr "write request"]), c, w)
  end.

End HTTP1.

(** What the server hands over of a request with a body, and what is buffered behind it.

    [transport/v2rayhttp/server.go:107-136] (Server).ServeHTTP (HTTP/1) *)
Definition http_server_conn (requestBody buffered : list byte) (conn : Stream) : Stream :=
  let conn := if nonempty buffered then buffered :: conn else conn in
  if nonempty requestBody then requestBody :: conn else conn.

(** The writer of an HTTP/2 stream is gone when the handler returns.

    [transport/v2rayhttp/conn.go:216-220] HTTP2ConnWrapper *)
Record HTTP2ConnWrapper : Type := mkHTTP2ConnWrapper { hw_closed : bool }.

(** [WriteBuffer] does the same.

    [transport/v2rayhttp/conn.go:228-244] (HTTP2ConnWrapper).Write *)
Definition Wrapper_Write {W : Type} (Write : list byte → W → option error * W) (p : list byte) (c : HTTP2ConnWrapper) (w : W)
    : option error * W :=
  if hw_closed c then (Some (E_Ext "use of closed network connection"), w) else Write p w.

(** [transport/v2rayhttp/conn.go:246-250] (HTTP2ConnWrapper).CloseWrapper *)
Definition CloseWrapper (c : HTTP2ConnWrapper) : HTTP2ConnWrapper := mkHTTP2ConnWrapper true.

(** ** Theorems *)

(** *** Messages *)

Definition gun_message (m : list byte * list byte) : list byte :=
  m.1 ++ PutUvarint (Z.of_nat (length m.2)) ++ m.2.
Definition gun_message_ok (m : list byte * list byte) : Prop :=
  length m.1 = 6%nat ∧ Z.of_nat (length m.2) < 2 ^ 63.

(** The bytes of the message that is read, and messages. *)
Definition gun_pending (c : GunConn) (s : Stream) (D : list byte) (k : nat) : Prop :=
  ∃ buffered cur ms, gc_reader c = Some buffered ∧ br_ok (buffered, s) ∧
    br_bytes (buffered, s) = cur ++ concat (gun_message <$> ms) ∧ Z.of_nat (length cur) = gc_readRemaining c ∧
    Forall gun_message_ok ms ∧ D = cur ++ concat (snd <$> ms) ∧ k = (length D + length ms)%nat.

(** A read as a call that neither waits nor panics. *)
Definition gun_Read (n : nat) (c : GunConn) (s : Stream) : ReadResult * GunConn * Stream :=
  match GunConn_read n c s with
  | Some (Ok r, c, s) => (r, c, s)
  | _ => (([], Some (E_Ext "no result")), c, s)
  end.

(** Reading inside a message. *)
Lemma bufio_Read_within n cur rest r : (0 < n)%nat → br_ok r → br_bytes r = cur ++ rest → cur ≠ [] →
  ∃ l r', bufio_Read (Z.to_nat (Z.min (Z.of_nat n) (Z.of_nat (length cur)))) r = ((l, None), r') ∧ br_ok r' ∧ l ≠ [] ∧
    cur = l ++ drop (length l) cur ∧ br_bytes r' = drop (length l) cur ++ rest.
Proof.
  intros Hn Hok Hb Hc. assert (0 < length cur)%nat as Hl by (destruct cur; [done|cbn; lia]).
  set (m := Z.to_nat _). assert (m = n `min` length cur)%nat as Hm by (unfold m; lia).
  destruct (bufio_Read_spec m r ltac:(lia) Hok) as [[He _]|(l & r' & Hr & Hbr & Hne & Hle & Hok')].
  { rewrite Hb in He. by apply app_nil in He as [-> _]. }
  rewrite Hb in Hbr. exists l, r'. assert (cur = l ++ drop (length l) cur) as Hcur.
  { apply (f_equal (take (length l))) in Hbr. rewrite take_app_le, take_app_length in Hbr by lia. by rewrite <-Hbr, take_drop at 1. }
  split; [done|]. split; [done|]. split; [done|]. split; [done|].
  rewrite Hcur, <-app_assoc in Hbr at 1. by apply app_inv_head in Hbr.
Qed.

Lemma i64_small z : 0 ≤ z < 2 ^ 63 → i64 z = z.
Proof. intros [_ Hz]. unfold i64. by rewrite (proj2 (Z.ltb_lt _ _) Hz). Qed.

Lemma read_message_step n c buffered s h d rest : (0 < n)%nat → br_ok (buffered, s) → length h = 6%nat →
  Z.of_nat (length d) < 2 ^ 63 → br_bytes (buffered, s) = gun_message (h, d) ++ rest →
  ∃ l b' s', read_message n c (buffered, s) =
      (Ok (l, None), mkGunConn (Some b') (gc_err c) (Z.of_nat (length (drop (length l) d))), (b', s')) ∧
    br_ok (b', s') ∧ d = l ++ drop (length l) d ∧ br_bytes (b', s') = drop (length l) d ++ rest.
Proof.
  intros Hn Hok Hh Hd Hb. unfold gun_message in Hb. cbn [fst snd] in Hb. rewrite <-!app_assoc in Hb. unfold read_message.
  assert (reads (SkipN 6) h tt) as Hskip.
  { intros tl. unfold SkipN. rewrite length_app, (proj2 (Z.ltb_ge _ _)) by lia. by rewrite drop_app_length'. }
  pose proof (on_bufio_ok (SkipN 6) _ Hok) as Hok1.
  destruct (on_bufio_reads _ _ _ _ _ Hskip Hb) as (r1 & Hr1 & Hb1). rewrite Hr1 in *. cbn [snd] in Hok1.
  pose proof (on_bufio_ok ReadUvarint _ Hok1) as Hok2.
  destruct (on_bufio_reads _ _ _ _ _ (reads_PutUvarint (Z.of_nat (length d)) ltac:(unfold is_u; lia)) Hb1) as (r2 & Hr2 & Hb2).
  rewrite Hr2 in *. cbn [snd] in Hok2. rewrite i64_small by lia. rewrite (proj2 (Z.ltb_ge _ _)) by lia.
  destruct d as [|b d].
  - exists [], r2.1, r2.2. assert (bufio_Read (Z.to_nat (Z.min (Z.of_nat n) (Z.of_nat (length (A := byte) [])))) r2 = (([], None), r2)) as ->.
    { cbn [length]. rewrite Z.min_r by lia. done. }
    destruct r2. done.
  - destruct (bufio_Read_within n (b :: d) rest r2 Hn Hok2 Hb2 ltac:(done)) as (l & [b' s'] & -> & Hok' & _ & Hcur & Hb').
    exists l, b', s'. split; [|done]. do 3 f_equal. rewrite Hcur at 1. rewrite length_app. lia.
Qed.

Lemma gun_step n c s D k : (0 < n)%nat → gun_pending c s D k →
  (D = [] ∧ ∃ c' s', gun_Read n c s = (([], Some io_EOF), c', s')) ∨
  ∃ l c' s' D' k', gun_Read n c s = ((l, None), c', s') ∧ D = l ++ D' ∧ (k' < k)%nat ∧ gun_pending c' s' D' k'.
Proof.
  intros Hn (buffered & cur & ms & Hr & Hok & Hb & Hrem & Hms & -> & ->). unfold gun_Read, GunConn_read. rewrite Hr.
  destruct (Z.ltb_spec 0 (gc_readRemaining c)) as [Hpos|Hz].
  - right. rewrite <-Hrem. assert (cur ≠ []) as Hc by (intros ->; cbn in Hrem; lia).
    destruct (bufio_Read_within n cur _ (buffered, s) Hn Hok Hb Hc) as (l & [b' s'] & -> & Hok' & Hl & Hcur & Hb').
    eexists l, _, s', (drop (length l) cur ++ concat (snd <$> ms)), _. split; [reflexivity|]. split; [by rewrite app_assoc, <-Hcur|].
    split; [|exists b', (drop (length l) cur), ms; cbn; split_and!; try done; rewrite length_drop].
    + rewrite !length_app, length_drop. destruct l; [done|]. rewrite Hcur, length_app. cbn. lia.
    + rewrite Hcur, length_app, length_drop at 1. rewrite Hcur, length_app, length_drop. lia.
  - assert (cur = []) as -> by (destruct cur; [done|cbn in Hrem; lia]). cbn [app] in *.
    destruct ms as [|[h d] ms].
    { left. split; [done|]. unfold read_message, on_bufio. unfold br_bytes in Hb. cbn [fst snd fmap list_fmap concat] in *. rewrite Hb. by eexists _, _. }
    right. apply List.Forall_cons_iff in Hms as [[Hh Hd] Hms]. cbn [fst snd fmap list_fmap concat] in *.
    destruct (read_message_step n c buffered s h d _ Hn Hok Hh Hd Hb) as (l & b' & s' & -> & Hok' & Hcur & Hb').
    eexists l, _, s', (drop (length l) d ++ concat (snd <$> ms)), _. split; [reflexivity|]. split; [by rewrite app_assoc, <-Hcur|].
    split; [|by exists b', (drop (length l) d), ms].
    rewrite !length_app. rewrite Hcur at 2. rewrite length_app. cbn [length]. lia.
Qed.

Definition written_messages (ps : list (list byte)) : list byte :=
  concat (foldl (λ w b, (GunConn_Write record b w).2) [] ps).

Lemma written_messages_eq ps : Forall (λ d, Z.of_nat (length d) < 2 ^ 63) ps →
  written_messages ps = concat (gun_message <$> ((λ d, (take 6 (gun_header d), d)) <$> ps)).
Proof.
  intros Hps. unfold written_messages.
  assert (∀ w, concat (foldl (λ w b, (GunConn_Write record b w).2) w ps) =
    concat w ++ concat (gun_message <$> ((λ d, (take 6 (gun_header d), d)) <$> ps))) as Hw; [|apply Hw].
  induction Hps as [|d ps Hd Hps IH]; intros w; [by rewrite app_nil_r|]. cbn [foldl fmap list_fmap concat].
  unfold GunConn_Write at 2, record. cbn [snd]. rewrite IH, concat_app. cbn [concat]. rewrite app_nil_r, <-app_assoc. f_equal. f_equal.
  unfold gun_message, gun_header, u64. rewrite (wrap_id 64) by (unfold is_u; lia). cbn [fst snd]. by rewrite <-!app_assoc.
Qed.

(** C31: what is written to one end of a gRPC connection is read at the other: for any writes, also empty
    ones, whatever the segments the body arrives in, and for reads of any sizes, the bytes are read in
    order, and enough reads give all of them and then the end; no read waits or panics. *)
Theorem GunConn_delivers ps s ns :
  Forall (λ d, Z.of_nat (length d) < 2 ^ 63) ps → concat s = written_messages ps → Forall (λ l, l ≠ []) s →
  Forall (λ n, 0 < n)%nat ns →
  (run_reads gun_Read ns newGunConn s).1 `prefix_of` concat ps ∧
  ((length (concat ps) + length ps < length ns)%nat → run_reads gun_Read ns newGunConn s = (concat ps, Some io_EOF)).
Proof.
  intros Hps Hs Hne Hns. set (ms := (λ d, (take 6 (gun_header d), d)) <$> ps).
  assert (snd <$> ms = ps) as Hsnd by (unfold ms; rewrite <-list_fmap_compose; apply list_fmap_id).
  assert (length ms = length ps) as Hlen by (unfold ms; apply length_fmap).
  pose proof (run_reads_delivers gun_Read gun_pending gun_step ns newGunConn s (concat (snd <$> ms))
    (length (concat (snd <$> ms)) + length ms) Hns) as Hd. rewrite Hsnd, Hlen in Hd. apply Hd. rewrite <-Hlen, <-Hsnd.
  exists [], [], ms. split_and!; try done; [by rewrite written_messages_eq in Hs|].
  apply Forall_forall. intros m Hm%list_elem_of_In. unfold ms in Hm. apply list_elem_of_fmap in Hm as (d & -> & Hin).
  split; [done|]. cbn. by eapply Forall_elem in Hps.
Qed.

(** A length of 2^63 or more panics. *)
Lemma message_length_panics n c h v (s : Stream) : length h = 6%nat → 2 ^ 63 ≤ v < 2 ^ 64 → gc_readRemaining c = 0 → gc_reader c = Some [] →
  concat s = h ++ PutUvarint v → ∃ c' s', GunConn_read n c s = Some (Panic slice_panic, c', s').
Proof.
  intros Hh Hv Hr Hc Hs. unfold GunConn_read. rewrite Hc, Hr. change (Z.ltb 0 0) with false. cbv iota. unfold read_message.
  assert (reads (SkipN 6) h tt) as Hskip.
  { intros tl. unfold SkipN. rewrite length_app, (proj2 (Z.ltb_ge _ _)) by lia. by rewrite drop_app_length'. }
  destruct (on_bufio_reads _ _ _ ([], s) (PutUvarint v) Hskip Hs) as (r1 & -> & Hb1). rewrite <-(app_nil_r (PutUvarint v)) in Hb1.
  destruct (on_bufio_reads _ _ _ _ _ (reads_PutUvarint v ltac:(unfold is_u; lia)) Hb1) as (r2 & -> & _).
  unfold i64. rewrite (proj2 (Z.ltb_ge v _)) by lia. rewrite (proj2 (Z.ltb_lt _ 0)) by lia. by eexists _, _.
Qed.

(** *** Frames *)

(** A frame of RFC 6455: the first byte, whether it is masked, and the payload without the mask. *)
Definition read_frame : Reader (Z * bool * list byte) :=
  b0 ← ReadBE 1;
  b1 ← ReadBE 1;
  let masked := Z.testbit b1 7 in
  let len7 := Z.land b1 127 in
  len ← (if Z.eqb len7 126 then ReadBE 2 else if Z.eqb len7 127 then ReadBE 8 else mret len7);
  key ← (if masked then ReadFull 4 else mret []);
  payload ← ReadFull (Z.to_nat len);
  mret (b0, masked, if masked then Cipher key payload else payload).

Lemma Cipher_length key l : length (Cipher key l) = length l.
Proof. apply length_imap. Qed.

Lemma Cipher_twice key l : Cipher key (Cipher key l) = l.
Proof.
  apply list_eq. intros i. unfold Cipher. rewrite !list_lookup_imap. destruct (l !! i) as [b|]; [|done]. cbn [fmap option_fmap option_map]. f_equal.
  apply byte_Z_inj. set (k := byte_Z (mask_byte key i)). pose proof (byte_Z_range b) as Hb.
  assert (is_u 8 k) as Hk by apply byte_Z_range. clearbody k.
  assert (∀ z, is_u 8 z → u8 (Z.lxor z k) = Z.lxor z k ∧ is_u 8 (Z.lxor z k)) as Hx.
  { intros z Hz. assert (is_u 8 (Z.lxor z k)) as Hr; [|split; [by apply wrap_id|done]].
    unfold is_u in *. split; [apply Z.lxor_nonneg; lia|].
    destruct (decide (Z.lxor z k = 0)) as [->|Hnz]; [lia|].
    apply Z.log2_lt_pow2; [assert (0 ≤ Z.lxor z k) by (apply Z.lxor_nonneg; lia); lia|].
    eapply Z.le_lt_trans; [apply Z.log2_lxor; lia|].
    apply Z.max_lub_lt; (apply (Z.le_lt_trans _ (Z.log2 255)); [apply Z.log2_le_mono; lia|done]). }
  destruct (Hx (byte_Z b) Hb) as [H1 H2]. destruct (Hx _ H2) as [H3 _].
  rewrite byte_Z_Z_byte. rewrite byte_Z_Z_byte. rewrite H1, H3. by rewrite Z.lxor_assoc, Z.lxor_nilpotent, Z.lxor_0_r.
Qed.

Lemma frame_bit (v : Z) : v ∈ [126; 127] ∨ 0 ≤ v < 126 → ∀ isServer : bool,
  let b := Z.lor (if isServer then 0 else 128) v in
  0 ≤ b < 256 ∧ Z.testbit b 7 = negb isServer ∧ Z.land b 127 = v.
Proof.
  intros Hv isServer b. assert (0 ≤ v < 128) as Hr.
  { destruct Hv as [Hv|]; [|lia]. repeat (apply elem_of_cons in Hv as [->|Hv]; [lia|]). by apply elem_of_nil in Hv. }
  assert (b = v + (if isServer then 0 else 1) * 2 ^ 7) as Hb.
  { unfold b. rewrite Z.lor_comm. replace (if isServer then 0 else 128) with (Z.shiftl (if isServer then 0 else 1) 7) by by destruct isServer.
    apply lor_shiftl_add; lia. }
  split; [destruct isServer; lia|]. split.
  - rewrite Hb. rewrite Z.testbit_odd, Z.shiftr_div_pow2 by lia. rewrite Z.div_add, Z.div_small by lia. by destruct isServer.
  - rewrite Hb. change 127 with (Z.ones 7). rewrite Z.land_ones, Z.mod_add, Z.mod_small by lia. done.
Qed.

Lemma reads_then_ret {A B} (r : Reader A) (f : A → B) bytes a : reads r bytes a → reads (x ← r; mret (f x)) bytes (f a).
Proof. intros Hr rest. unfold mbind, Reader_bind. by rewrite Hr. Qed.

(** A frame says what was written: a reader of RFC 6455 finds one final binary frame, masked exactly
    when a client sent it, with the bytes that were written, in each of the three forms of the length;
    and the header fits the room that is asked for. *)
Theorem Writer_frame_reads isServer maskKey data : Z.of_nat (length data) < 2 ^ 63 →
  reads read_frame (Writer_frame isServer maskKey data) (130, negb isServer, data) ∧
  (length (Writer_frame isServer maskKey data) ≤ Writer_FrontHeadroom + length data)%nat.
Proof.
  intros Hlen. unfold Writer_frame, read_frame, Writer_FrontHeadroom.
  set (L := Z.of_nat (length data)) in *. set (key := be_bytes 4 (u32 maskKey)).
  assert (length key = 4%nat) as Hkey by apply be_bytes_length.
  change (Z_byte (Z.lor OpBinary 128)) with (Z_byte 130).
  assert (reads (key ← (if negb isServer then ReadFull 4 else mret []);
      payload ← ReadFull (length data); mret (130, negb isServer, if negb isServer then Cipher key payload else payload))
    (if isServer then data else key ++ Cipher key data) (130, negb isServer, data)) as Htail.
  { destruct isServer; cbn [negb].
    - apply (reads_bind _ _ [] data (A := list byte) []); [apply reads_ret|].
      apply (reads_then_ret _ (λ payload, (130, false, payload))). by apply reads_full.
    - eapply reads_bind; [by apply reads_full|]. pose proof (Cipher_twice key data) as Htwice.
      pose proof (reads_then_ret (ReadFull (length data)) (λ payload, (130, true, Cipher key payload)) (Cipher key data) (Cipher key data)) as Hr.
      cbv beta in Hr. rewrite Htwice in Hr. apply Hr, reads_full, Cipher_length. }
  assert (length (if isServer then data else key ++ Cipher key data) ≤ 4 + length data)%nat as Hlt
    by (destruct isServer; rewrite ?length_app, ?Cipher_length; lia).
  split; [|rewrite !length_app; destruct (Z.ltb L 126); [cbn [length]; lia|];
    destruct (Z.ltb L 65536); cbn [length]; rewrite be_bytes_length; lia].
  eapply reads_bind; [apply (reads_be 1 130); lia|].
  destruct (Z.ltb_spec L 126) as [H1|H1]; [|destruct (Z.ltb_spec L 65536) as [H2|H2]].
  - destruct (frame_bit L ltac:(right; lia) isServer) as (Hb & Ht & Hl).
    eapply reads_bind; [apply (reads_be 1 _ Hb)|]. rewrite Ht, Hl. rewrite !(proj2 (Z.eqb_neq L _)) by lia.
    rewrite <-(app_nil_l (if isServer then data else _)). eapply reads_bind; [apply reads_ret|]. unfold L. rewrite Nat2Z.id. exact Htail.
  - destruct (frame_bit 126 ltac:(left; set_solver) isServer) as (Hb & Ht & Hl).
    change (Z_byte ?x :: be_bytes 2 ?y) with ([Z_byte x] ++ be_bytes 2 y). rewrite <-app_assoc.
    eapply reads_bind; [apply (reads_be 1 _ Hb)|]. rewrite Ht, Hl. cbn [Z.eqb Pos.eqb].
    eapply reads_bind; [apply reads_be, (wrap_is_u 16); lia|]. rewrite (wrap_id 16) by (unfold is_u; lia).
    unfold L. rewrite Nat2Z.id. exact Htail.
  - destruct (frame_bit 127 ltac:(left; set_solver) isServer) as (Hb & Ht & Hl).
    change (Z_byte ?x :: be_bytes 8 ?y) with ([Z_byte x] ++ be_bytes 8 y). rewrite <-app_assoc.
    eapply reads_bind; [apply (reads_be 1 _ Hb)|]. rewrite Ht, Hl. cbn [Z.eqb Pos.eqb].
    eapply reads_bind; [apply reads_be, (wrap_is_u 64); lia|]. rewrite (wrap_id 64) by (unfold is_u; lia).
    unfold L. rewrite Nat2Z.id. exact Htail.
Qed.

(** *** Early data *)

Lemma base64_val_char v : 0 ≤ v < 64 → base64_val (base64_char v) = Some v.
Proof.
  intros Hv. assert (forallb (λ n, bool_decide (base64_val (base64_char (Z.of_nat n)) = Some (Z.of_nat n))) (seq 0 64) = true) as Hall
    by (vm_compute; reflexivity).
  rewrite forallb_forall in Hall. specialize (Hall (Z.to_nat v)). rewrite Z2Nat.id in Hall by lia.
  apply bool_decide_eq_true in Hall; [done|]. apply in_seq. lia.
Qed.

Lemma Z_byte_of b v : byte_Z b = v → Z_byte v = b.
Proof. intros <-. apply Z_byte_byte_Z. Qed.

(** Three bytes at a time. *)
Lemma base64_ind (P : list byte → Prop) :
  P [] → (∀ a, P [a]) → (∀ a b, P [a; b]) → (∀ a b c l, P l → P (a :: b :: c :: l)) → ∀ l, P l.
Proof.
  intros H0 H1 H2 H3 l. assert (P l ∧ (∀ a, P (a :: l)) ∧ ∀ a b, P (a :: b :: l)) as Hl; [|apply Hl].
  induction l as [|x l (Ha & Hb & Hc)]; [done|]. split_and!; [apply Hb|intros a; apply Hc|intros a b; by apply H3].
Qed.

Lemma DecodeString_EncodeToString l : DecodeString (EncodeToString l) = Ok l.
Proof.
  induction l as [|a|a b|a b c l IH] using base64_ind; [done|..]; cbn [EncodeToString DecodeString];
    pose proof (byte_Z_range a) as Ha; try pose proof (byte_Z_range b) as Hb; try pose proof (byte_Z_range c) as Hc; unfold is_u in *;
    rewrite !base64_val_char by (Z.div_mod_to_equations; lia).
  - do 2 f_equal. apply Z_byte_of. Z.div_mod_to_equations. lia.
  - f_equal. f_equal; [|f_equal]; apply Z_byte_of; Z.div_mod_to_equations; lia.
  - rewrite IH. cbn [mbind res_bind]. f_equal. f_equal; [|f_equal; [|f_equal]]; apply Z_byte_of; Z.div_mod_to_equations; lia.
Qed.

(** Nothing of a first write is lost between the request and the connection: when the client and the
    server are configured alike, the server finds the early data in the path or in the header, and
    the connection it hands over gives them first and then what the client wrote after the request. *)
Theorem early_data_delivered max name path content conn :
  0 < max → let r := early_request max name path content in
  concat conn = er_lateData r →
  let header := match er_header r with Some (_, v) => v | None => [] end in
  ∃ earlyData, server_early_data max name path (mkWSRequest (er_Path r) (er_Path r) header) = inl earlyData ∧
    concat (server_conn earlyData conn) = content ∧ Z.of_nat (length earlyData) ≤ max.
Proof.
  intros Hmax r Hconn header.
  assert (∃ e l, (if Z.ltb max (Z.of_nat (length content)) then (take (Z.to_nat max) content, drop (Z.to_nat max) content)
    else (content, [])) = (e, l) ∧ content = e ++ l ∧ Z.of_nat (length e) ≤ max) as (e & l & He & Hc & Hl).
  { destruct (Z.ltb_spec max (Z.of_nat (length content))); eexists _, _; (split; [reflexivity|]).
    - split; [by rewrite take_drop|]. rewrite length_take. lia.
    - split; [by rewrite app_nil_r|lia]. }
  exists e. subst r header. unfold early_request in *. rewrite He in *.
  assert (∀ s : Stream, concat s = l → concat (server_conn e s) = content) as Hsc.
  { intros s Hs. unfold server_conn. rewrite Hc. destruct e; cbn; by rewrite Hs. }
  unfold server_early_data. rewrite (proj2 (Z.eqb_neq max 0)) by lia. cbn [orb].
  destruct e as [|x e]; cbn [nonempty negb] in *.
  - cbn [er_Path er_header er_lateData wr_Path wr_RequestURI wr_header] in *. split; [|split; [by apply Hsc|lia]].
    rewrite bool_decide_true by done. cbn [negb]. rewrite andb_false_r.
    destruct (String.eqb name "") eqn:En; [|done]. rewrite bool_decide_true by done. by rewrite drop_ge by done.
  - destruct (String.eqb name "") eqn:En; cbn [er_Path er_header er_lateData wr_Path wr_RequestURI wr_header negb andb] in *;
      (split; [|split; [by apply Hsc|done]]).
    + rewrite bool_decide_true by by apply prefix_app_r. rewrite drop_app_length. by rewrite DecodeString_EncodeToString.
    + rewrite bool_decide_true by done. cbn [negb].
      assert (nonempty (EncodeToString (x :: e)) = true) as -> by by destruct e as [|y [|z e]].
      by rewrite DecodeString_EncodeToString.
Qed.

(** *** What follows the header of a response *)

Section HTTP1Theorems.
Context (ReadResponse : Reader Z).

(** Before the response is read; then with a cache; then without. *)
Definition response_pending (header : list byte) (c : HTTPConn) (s : Stream) (D : list byte) (k : nat) : Prop :=
  Forall (λ l, l ≠ []) s ∧ k = length D ∧
  if hc_responseRead c
  then D = default [] (hc_responseCache c) ++ concat s
  else hc_responseCache c = None ∧ reads ReadResponse header 200 ∧ concat s = header ++ D.

Lemma HTTPConn_read_step header n c s D : (0 < n)%nat → hc_responseRead c = true → response_pending header c s D (length D) →
  (D = [] ∧ ∃ c' s', HTTPConn_read n c s = (([], Some io_EOF), c', s')) ∨
  ∃ l c' s' D' k', HTTPConn_read n c s = ((l, None), c', s') ∧ D = l ++ D' ∧ (k' < length D)%nat ∧ response_pending header c' s' D' k'.
Proof.
  intros Hn Hread (Hne & _ & Hp). rewrite Hread in Hp. destruct c as [w rd cache]. cbn in Hread. subst rd. unfold HTTPConn_read.
  assert (∀ cache', default [] cache' = [] → D = concat s →
    (D = [] ∧ ∃ s', read_once n s = (([], Some io_EOF), s')) ∨
    ∃ l s' D' k', read_once n s = ((l, None), s') ∧ D = l ++ D' ∧ (k' < length D)%nat ∧ response_pending header (mkHTTPConn w true cache') s' D' k') as Hdirect.
  { intros cache' Hc' ->. destruct s as [|segment s]; [left; split; [done|by eexists]|]. right. unfold read_once.
    destruct (Conn_Read_nonempty n (segment :: s) Hne ltac:(done) Hn) as (l & s' & Hr & Hl & Hne').
    pose proof (Conn_Read_spec n (segment :: s)) as Hsp. rewrite Hr in *. destruct Hsp as [Hcat _].
    exists l, s', (concat s'), (length (concat s')). split; [done|]. split; [done|].
    split; [rewrite Hcat, length_app; destruct l; [done|cbn; lia]|]. split; [done|]. split; [done|]. cbn. by rewrite Hc'. }
  destruct cache as [[|x cache]|]; cbn [hc_responseCache default] in *.
  - destruct (Hdirect None eq_refl Hp) as [(-> & s' & ->)|(l & s' & D' & k' & -> & HD & Hk & Hp')]; [left; split; [done|by eexists _, _]|].
    right. eexists l, _, s', D', k'. done.
  - right. rewrite (proj2 (Nat.eqb_neq n 0)) by lia. set (kept := x :: cache) in *.
    eexists (take n kept), _, s, (drop n kept ++ concat s), (length (drop n kept ++ concat s)). split; [reflexivity|].
    split; [by rewrite app_assoc, take_drop, Hp|]. split; [|done]. rewrite Hp, !length_app, length_drop. assert (length kept = S (length cache)) by done. unfold id. lia.
  - destruct (Hdirect None eq_refl Hp) as [(-> & s' & ->)|(l & s' & D' & k' & -> & HD & Hk & Hp')]; [left; split; [done|by eexists _, _]|].
    right. eexists l, _, s', D', k'. done.
Qed.

Lemma HTTPConn_step header n c s D k : (0 < n)%nat → response_pending header c s D k →
  (D = [] ∧ ∃ c' s', HTTPConn_Read ReadResponse n c s = (([], Some io_EOF), c', s')) ∨
  ∃ l c' s' D' k', HTTPConn_Read ReadResponse n c s = ((l, None), c', s') ∧ D = l ++ D' ∧ (k' < k)%nat ∧ response_pending header c' s' D' k'.
Proof.
  intros Hn Hp. pose proof Hp as (Hne & -> & Hr). unfold HTTPConn_Read. destruct (hc_responseRead c) eqn:Hread.
  { by apply HTTPConn_read_step. }
  destruct Hr as (Hc & Hreads & Hs).
  destruct (on_bufio_reads ReadResponse header 200 ([], s) D Hreads Hs) as ([buffered s'] & Hb & Hrest).
  pose proof (on_bufio_ok ReadResponse ([], s) Hne) as Hok. rewrite Hb in *. cbn [Z.eqb Pos.eqb negb].
  apply HTTPConn_read_step; [done|done|]. split; [exact Hok|]. split; [done|]. cbn [hc_responseRead hc_responseCache].
  rewrite <-Hrest. unfold br_bytes. cbn [fst snd]. by destruct buffered.
Qed.

(** What a client of the HTTP transport reads is what follows the header of the response, wherever
    the segments end, with what the reader of the header had read too much in front: for reads of any
    sizes, in order, and in the end all of it. *)
Theorem HTTPConn_reads header D s ns :
  reads ReadResponse header 200 → concat s = header ++ D → Forall (λ l, l ≠ []) s → Forall (λ n, 0 < n)%nat ns →
  (run_reads (HTTPConn_Read ReadResponse) ns NewHTTP1Conn s).1 `prefix_of` D ∧
  ((length D < length ns)%nat → run_reads (HTTPConn_Read ReadResponse) ns NewHTTP1Conn s = (D, Some io_EOF)).
Proof.
  intros Hr Hs Hne Hns.
  apply (run_reads_delivers (HTTPConn_Read ReadResponse) (response_pending header) (HTTPConn_step header)); [done|].
  done.
Qed.

End HTTP1Theorems.

(** What the two upgrading clients keep of what they have read. *)
Lemma upgrade_loses reader : upgrade_client_conn reader = reader.2 ∧ websocket_client_conn reader = reader.2 ∧
  (br_bytes reader = concat reader.2 ↔ reader.1 = []).
Proof.
  split; [done|]. split; [done|]. unfold br_bytes. split; [|by intros ->]. intros Hb.
  apply (f_equal length) in Hb. rewrite length_app in Hb. destruct reader.1; [done|cbn in Hb; lia].
Qed.

(** ** Concrete connections *)

Section Examples.

Definition ex_hello : list byte := bytes_of_string "hello".

Lemma GunConn_delivers_witness :
  run_reads gun_Read (repeat 3%nat 11) newGunConn [take 9 (written_messages [ex_hello; []; [x01]]); drop 9 (written_messages [ex_hello; []; [x01]])]
    = (ex_hello ++ [x01], Some io_EOF).
Proof.
  apply (GunConn_delivers [ex_hello; []; [x01]]
    [take 9 (written_messages [ex_hello; []; [x01]]); drop 9 (written_messages [ex_hello; []; [x01]])] (repeat 3%nat 11)).
  - repeat constructor.
  - vm_compute. reflexivity.
  - repeat constructor; vm_compute; discriminate.
  - repeat constructor.
  - vm_compute. lia.
Defined.

Lemma Writer_frame_reads_witness :
  read_frame (Writer_frame false 0x01020304 ex_hello ++ [x00]) = (Ok (130, true, ex_hello), [x00]).
Proof. apply (proj1 (Writer_frame_reads false 0x01020304 ex_hello ltac:(vm_compute; reflexivity))). Defined.

Lemma early_data_delivered_witness :
  let r := early_request 3 "" (bytes_of_string "/ws") ex_hello in
  ∃ earlyData, server_early_data 3 "" (bytes_of_string "/ws") (mkWSRequest (er_Path r) (er_Path r) []) = inl earlyData ∧
    concat (server_conn earlyData [er_lateData r]) = ex_hello ∧ Z.of_nat (length earlyData) ≤ 3.
Proof. apply (early_data_delivered 3 "" (bytes_of_string "/ws") ex_hello [drop 3 ex_hello]); vm_compute; reflexivity. Defined.

(** Four bytes are the header of a response. *)
Definition ex_ReadResponse : Reader Z := ReadFull 4 ≫= λ _, mret 200.
Lemma ex_response_reads : reads ex_ReadResponse (bytes_of_string "200;") 200.
Proof. intros rest. reflexivity. Qed.

Lemma HTTPConn_reads_witness :
  run_reads (HTTPConn_Read ex_ReadResponse) (repeat 2%nat 9) NewHTTP1Conn [bytes_of_string "200;hel"; bytes_of_string "lo"] =
    (ex_hello ++ [], Some io_EOF).
Proof.
  apply (HTTPConn_reads ex_ReadResponse (bytes_of_string "200;") (ex_hello ++ []) [bytes_of_string "200;hel"; bytes_of_string "lo"] (repeat 2%nat 9)).
  - exact ex_response_reads.
  - reflexivity.
  - repeat constructor; discriminate.
  - repeat constructor.
  - vm_compute. lia.
Defined.

(** The first bytes of a server that arrive with its answer to an upgrade are lost. *)
Lemma upgrade_loses_bytes :
  let reader := (on_bufio ex_ReadResponse ([], [bytes_of_string "200;hel"; bytes_of_string "lo"])).2 in
  concat (upgrade_client_conn reader) = bytes_of_string "lo" ∧ concat (websocket_client_conn reader) = bytes_of_string "lo".
Proof. vm_compute. split; reflexivity. Qed.

(** A message that says it has 2^63 bytes panics. *)
Lemma message_length_panics_now : ∃ c s,
  GunConn_read 5 newGunConn [repeat x00 6 ++ PutUvarint (2 ^ 63)] = Some (Panic slice_panic, c, s).
Proof. apply (message_length_panics 5 newGunConn (repeat x00 6) (2 ^ 63)); [reflexivity|lia|reflexivity..]. Qed.

(** Without early data in the configuration a request with a query is refused. *)
Lemma query_refused :
  server_early_data 0 "" (bytes_of_string "/ws") (mkWSRequest (bytes_of_string "/ws") (bytes_of_string "/ws?x=1") []) = inr 400.
Proof. vm_compute. reflexivity. Qed.

End Examples.
