(* ===== verification/Naive.v ===== *)
(** * Padding of naive connections (protocol/naive/inbound_conn.go)

    The first eight frames in each direction have a header with the length of their data and of the
    padding behind it; what follows is plain.  The reader keeps how much of a frame and of its padding
    is left; the writer splits what does not fit the 16 bits of a length.  [naive_delivers] says that
    the two fit together, wherever the segments of the connection end. *)

From stdpp Require Import base gmap strings list numbers.
From S2P Require Import Prelude GoStd Netip GoIO Streams.

Local Open Scope Z_scope.

(** [protocol/naive/inbound_conn.go:18] paddingCount *)
Definition paddingCount : nat := 8.

(** [protocol/naive/inbound_conn.go:35-40] paddingConn *)
Record paddingConn : Type := mkPaddingConn {
  pd_readPadding : nat;
  pd_writePadding : nat;
  pd_readRemaining : nat;
  pd_paddingRemaining : nat
}.
#[global] Instance paddingConn_settable : Settable paddingConn :=
  {| mkT r := mkPaddingConn (pd_readPadding r) (pd_writePadding r) (pd_readRemaining r) (pd_paddingRemaining r) |}.
Definition new_paddingConn : paddingConn := mkPaddingConn 0 0 0 0.

(** [reader.Read] into no bytes at all gives nothing at once. *)
Definition read_some (n : nat) (s : Stream) : ReadResult * Stream :=
  if Nat.eqb n 0 then (([], None), s) else read_once n s.

(** The header of a frame: the length of its data and that of its padding. *)
Definition read_header : Reader (nat * nat) :=
  size ← ReadBE 2; padding ← ReadBE 1; mret (Z.to_nat size, Z.to_nat padding).

(** The header is read as one piece of three bytes.

    [protocol/naive/inbound_conn.go:61-85] (paddingConn).readWithPadding (frame) *)
Definition read_frame_start (n : nat) (p : paddingConn) (s : Stream) : ReadResult * paddingConn * Stream :=
  match read_full 3 s with
  | ((_, Some e), s) => (([], Some e), p, s)
  | ((paddingHeader, None), s) =>
      match (read_header paddingHeader).1 with
      | Ok (originalDataSize, paddingSize) =>
          match read_some (Nat.min n originalDataSize) s with
          | ((l, Some e), s) => ((l, Some e), p, s)
          | ((l, None), s) =>
              ((l, None),
               p <| pd_readPadding := S (pd_readPadding p) |>
                 <| pd_readRemaining := (originalDataSize - length l)%nat |>
                 <| pd_paddingRemaining := paddingSize |>, s)
          end
      | Err e => (([], Some e), p, s)
      | Panic _ => (([], None), p, s)
      end
  end.

(** [protocol/naive/inbound_conn.go:42-87] (paddingConn).readWithPadding *)
Definition readWithPadding (n : nat) (p : paddingConn) (s : Stream) : ReadResult * paddingConn * Stream :=
  if Nat.ltb 0 (pd_readRemaining p) then
    match read_some (Nat.min n (pd_readRemaining p)) s with
    | ((l, Some e), s) => ((l, Some e), p, s)
    | ((l, None), s) => ((l, None), p <| pd_readRemaining := (pd_readRemaining p - length l)%nat |>, s)
    end
  else
  match (if Nat.ltb 0 (pd_paddingRemaining p)
         then match of_reader (SkipN (Z.of_nat (pd_paddingRemaining p))) s with
              | (Ok _, s) => (None, p <| pd_paddingRemaining := 0%nat |>, s)
              | (Err e, s) => (Some e, p, s)
              | (Panic _, s) => (None, p, s)
              end
         else (None, p, s)) with
  | (Some e, p, s) => (([], Some e), p, s)
  | (None, p, s) =>
      if Nat.ltb (pd_readPadding p) paddingCount then read_frame_start n p s
      else let '(r, s) := read_some n s in (r, p, s)
  end.

(** ** Writing

    A writer takes all of what it is given or fails; how much it took before it failed is left out. *)

Section Writing.
Context {W : Type} (Write : list byte → W → option error * W).
(** The bytes behind the data of the [i]-th frame: their number is random, and they are what the
    buffer held before. *)
Context (padding : nat → list byte).

(** [protocol/naive/inbound_conn.go:90-100] (paddingConn).writeWithPadding (frame) *)
Definition write_frame (i : nat) (data : list byte) : list byte :=
  be_bytes 2 (u16 (Z.of_nat (length data))) ++ [Z_byte (Z.of_nat (length (padding i)))] ++ data ++ padding i.

(** [protocol/naive/inbound_conn.go:89-107] (paddingConn).writeWithPadding *)
Definition writeWithPadding (data : list byte) (p : paddingConn) (w : W) : (nat * option error) * paddingConn * W :=
  if Nat.ltb (pd_writePadding p) paddingCount then
    let '(err, w) := Write (write_frame (pd_writePadding p) data) w in
    ((match err with None => length data | Some _ => 0%nat end, err),
     p <| pd_writePadding := S (pd_writePadding p) |>, w)
  else
    let '(err, w) := Write data w in ((match err with None => length data | Some _ => 0%nat end, err), p, w).

Definition maxChunk : nat := Z.to_nat 65535.

(** [protocol/naive/inbound_conn.go:126-144] (paddingConn).writeChunked *)
Fixpoint writeChunked_loop (fuel : nat) (data : list byte) (p : paddingConn) (w : W) : (nat * option error) * paddingConn * W :=
  match fuel with
  | O => ((0%nat, None), p, w)
  | S fuel =>
      if negb (nonempty data) then ((0%nat, None), p, w) else
      let chunk := take maxChunk data in
      match writeWithPadding chunk p w with
      | ((written, Some e), p, w) => ((written, Some e), p, w)
      | ((written, None), p, w) =>
          let '((n, e), p, w) := writeChunked_loop fuel (drop maxChunk data) p w in (((written + n)%nat, e), p, w)
      end
  end.
Definition writeChunked (data : list byte) := writeChunked_loop (S (length data)) data.

(** [protocol/naive/inbound_conn.go:109-124] (paddingConn).writeBufferWithPadding *)
Definition writeBufferWithPadding (data : list byte) (p : paddingConn) (w : W) : option error * paddingConn * W :=
  if Nat.ltb (pd_writePadding p) paddingCount then
    if Nat.ltb maxChunk (length data)
    then let '((_, e), p, w) := writeChunked data p w in (e, p, w)
    else
      let '(e, w) := Write (write_frame (pd_writePadding p) data) w in
      (e, p <| pd_writePadding := S (pd_writePadding p) |>, w)
  else let '(e, w) := Write data w in (e, p, w).

End Writing.

(** [protocol/naive/inbound_conn.go:146-151] (paddingConn).frontHeadroom *)
Definition frontHeadroom (p : paddingConn) : nat := if Nat.ltb (pd_writePadding p) paddingCount then 3 else 0.
(** [protocol/naive/inbound_conn.go:153-158] (paddingConn).rearHeadroom *)
Definition rearHeadroom (p : paddingConn) : nat := if Nat.ltb (pd_writePadding p) paddingCount then 255 else 0.
(** [protocol/naive/inbound_conn.go:160-165] (paddingConn).writerMTU *)
Definition writerMTU (p : paddingConn) : nat := if Nat.ltb (pd_writePadding p) paddingCount then maxChunk else 0.

(** [protocol/naive/inbound_conn.go:167-169] (paddingConn).readerReplaceable *)
Definition readerReplaceable (p : paddingConn) : bool := Nat.eqb (pd_readPadding p) paddingCount.
(** [protocol/naive/inbound_conn.go:171-173] (paddingConn).writerReplaceable *)
Definition writerReplaceable (p : paddingConn) : bool := Nat.eqb (pd_writePadding p) paddingCount.

(** The value of the [Padding] header: sixteen characters that HTTP/2 does not compress, chosen by the
    bits of a random number, and tildes. *)
Definition padding_chars : list byte := bytes_of_string "!#$()+<>?@[]^`{}".
Fixpoint padding_bits (n : nat) (bits : Z) : list byte :=
  match n with
  | O => []
  | S n => nth (Z.to_nat (Z.land bits 15)) padding_chars x00 :: padding_bits n (Z.shiftr bits 4)
  end.
(** [protocol/naive/inbound_conn.go:21-33] generatePaddingHeader *)
Definition generatePaddingHeader (paddingLen : nat) (bits : Z) : list byte :=
  padding_bits 16 bits ++ repeat (Z_byte 126) (paddingLen - 16).

(** ** What is written is read *)

(** Frames on the wire. *)
Definition frame_bytes (f : list byte * list byte) : list byte :=
  be_bytes 2 (Z.of_nat (length f.1)) ++ be_bytes 1 (Z.of_nat (length f.2)) ++ f.1 ++ f.2.
Definition frame_ok (f : list byte * list byte) : Prop := (length f.1 ≤ maxChunk)%nat ∧ (length f.2 < 256)%nat.

Lemma maxChunk_Z : Z.of_nat maxChunk = 65535.
Proof. reflexivity. Qed.
#[global] Opaque maxChunk.

Lemma read_header_frame f rest : frame_ok f →
  read_header (be_bytes 2 (Z.of_nat (length f.1)) ++ be_bytes 1 (Z.of_nat (length f.2)) ++ rest) = (Ok (length f.1, length f.2), rest).
Proof.
  intros [H1 H2]. pose proof maxChunk_Z. rewrite app_assoc. revert rest.
  change (reads read_header (be_bytes 2 (Z.of_nat (length f.1)) ++ be_bytes 1 (Z.of_nat (length f.2))) (length f.1, length f.2)).
  unfold read_header. eapply reads_bind; [apply reads_be; lia|].
  rewrite <-(app_nil_r (be_bytes 1 _)). eapply reads_bind; [apply reads_be; lia|].
  rewrite !Nat2Z.id. apply reads_ret.
Qed.

(** A read that is limited to some bytes gives some of them. *)
Lemma read_some_prefix n l s rest : Forall (λ l, l ≠ []) s → concat s = l ++ rest → (0 < n)%nat →
  ∃ l1 l2 s', read_some (Nat.min n (length l)) s = ((l1, None), s') ∧ l = l1 ++ l2 ∧ concat s' = l2 ++ rest ∧
    Forall (λ l, l ≠ []) s' ∧ (l ≠ [] → l1 ≠ []).
Proof.
  intros Hne Hs Hn. unfold read_some. destruct l as [|b l].
  { rewrite Nat.min_0_r. by exists [], [], s. }
  rewrite (proj2 (Nat.eqb_neq _ 0)) by (cbn [length]; lia).
  assert (s ≠ []) as Hs0 by (intros ->; done).
  destruct (Conn_Read_nonempty (Nat.min n (length (b :: l))) s Hne Hs0 ltac:(cbn [length]; lia)) as (l1 & s' & Hr & Hl1 & Hne').
  pose proof (Conn_Read_spec (Nat.min n (length (b :: l))) s) as Hsp. rewrite Hr in Hsp. destruct Hsp as [Hcat Hlen].
  unfold read_once. rewrite Hr. exists l1, (drop (length l1) (b :: l)), s'.
  rewrite Hs in Hcat. assert (b :: l = l1 ++ drop (length l1) (b :: l)) as Heq.
  { rewrite <-(take_drop (length l1) (b :: l)) at 1. f_equal.
    apply (f_equal (take (length l1))) in Hcat. rewrite take_app_length, take_app_le in Hcat by lia. done. }
  split; [done|]. split; [done|]. split; [|done].
  rewrite Heq, <-app_assoc in Hcat. by apply app_inv_head in Hcat.
Qed.

(** The end of a frame, the frames and the plain bytes that are still to come. *)
Definition naive_pending (p : paddingConn) (s : Stream) (D : list byte) (k : nat) : Prop :=
  Forall (λ l, l ≠ []) s ∧ ∃ rem pad fs tail,
    concat s = rem ++ pad ++ concat (frame_bytes <$> fs) ++ tail ∧
    length rem = pd_readRemaining p ∧ length pad = pd_paddingRemaining p ∧
    Forall frame_ok fs ∧ (tail = [] ∨ (pd_readPadding p + length fs)%nat = paddingCount) ∧
    (pd_readPadding p + length fs ≤ paddingCount)%nat ∧
    D = rem ++ concat (fst <$> fs) ++ tail ∧ k = (length D + length fs)%nat.

Lemma frame_start_step n p s f fs tail : (0 < n)%nat → Forall (λ l, l ≠ []) s →
  concat s = concat (frame_bytes <$> f :: fs) ++ tail → Forall frame_ok (f :: fs) →
  pd_readRemaining p = 0%nat → pd_paddingRemaining p = 0%nat →
  (tail = [] ∨ (pd_readPadding p + length (f :: fs))%nat = paddingCount) →
  (pd_readPadding p + length (f :: fs) ≤ paddingCount)%nat →
  let D := concat (fst <$> f :: fs) ++ tail in
  ∃ l p' s' D' k', read_frame_start n p s = ((l, None), p', s') ∧ D = l ++ D' ∧ (k' < length D + length (f :: fs))%nat ∧
    naive_pending p' s' D' k'.
Proof.
  intros Hn Hne Hs Hok Hr0 Hp0 Htail Hcount D. apply List.Forall_cons_iff in Hok as [Hf Hfs].
  set (header := be_bytes 2 (Z.of_nat (length f.1)) ++ be_bytes 1 (Z.of_nat (length f.2))).
  assert (concat s = header ++ f.1 ++ f.2 ++ concat (frame_bytes <$> fs) ++ tail) as Hs'.
  { rewrite Hs. cbn [fmap list_fmap concat]. unfold frame_bytes at 1, header. by rewrite <-!app_assoc. }
  unfold read_frame_start.
  assert (length header = 3%nat) as Hlen by (unfold header; by rewrite length_app, !be_bytes_length).
  rewrite <-Hlen. rewrite (read_full_app header s _ Hs').
  unfold header at 1. rewrite <-(app_nil_r (be_bytes 1 _)). rewrite (read_header_frame f [] Hf). cbn [fst].
  destruct (read_some_prefix n f.1 (drop_stream (length header) s) (f.2 ++ concat (frame_bytes <$> fs) ++ tail))
    as (l1 & l2 & s' & -> & Hl & Hcat & Hne' & _).
  { by apply drop_stream_nonempty. }
  { by rewrite concat_drop_stream, Hs', drop_app_length. }
  { done. }
  eexists l1, _, s', (l2 ++ concat (fst <$> fs) ++ tail), (length (l2 ++ concat (fst <$> fs) ++ tail) + length fs)%nat.
  split; [reflexivity|]. unfold D. cbn [fmap list_fmap concat length] in *. rewrite Hl at 1. rewrite <-!app_assoc.
  split; [done|]. split; [rewrite Hl, !length_app; lia|].
  split; [done|]. exists l2, f.2, fs, tail. simpl pd_readPadding. simpl pd_readRemaining. simpl pd_paddingRemaining.
  split; [done|]. split; [rewrite Hl, length_app; lia|]. split; [done|]. split; [done|].
  split; [destruct Htail; [by left|right; lia]|]. split; [lia|]. done.
Qed.

Lemma read_full_3_end p : read_frame_start 1 p [] = (([], Some io_EOF), p, []).
Proof. reflexivity. Qed.

(** Without an unread rest of a frame. *)
Lemma naive_step_frames n p s fs tail : (0 < n)%nat → Forall (λ l, l ≠ []) s →
  concat s = concat (frame_bytes <$> fs) ++ tail → Forall frame_ok fs →
  pd_readRemaining p = 0%nat → pd_paddingRemaining p = 0%nat →
  (tail = [] ∨ (pd_readPadding p + length fs)%nat = paddingCount) →
  (pd_readPadding p + length fs ≤ paddingCount)%nat →
  let D := concat (fst <$> fs) ++ tail in
  let read := if Nat.ltb (pd_readPadding p) paddingCount then read_frame_start n p s
              else let '(r, s) := read_some n s in (r, p, s) in
  (D = [] ∧ ∃ p' s', read = (([], Some io_EOF), p', s')) ∨
  ∃ l p' s' D' k', read = ((l, None), p', s') ∧ D = l ++ D' ∧ (k' < length D + length fs)%nat ∧ naive_pending p' s' D' k'.
Proof.
  intros Hn Hne Hs Hok Hr0 Hp0 Htail Hcount D read. unfold read. destruct fs as [|f fs].
  - cbn [fmap list_fmap concat app length] in *. rewrite Nat.add_0_r in *. unfold D in *.
    destruct (Nat.ltb_spec (pd_readPadding p) paddingCount) as [Hlt|Hge].
    + left. destruct Htail as [Ht|Ht]; [|lia]. rewrite Ht in *. split; [done|]. apply (concat_nil_nonempty s Hne) in Hs. subst s.
      by eexists _, _.
    + unfold read_some. rewrite (proj2 (Nat.eqb_neq n 0)) by lia. destruct s as [|segment s].
      { left. cbn in Hs. subst tail. split; [done|]. by eexists _, _. }
      right. destruct (Conn_Read_nonempty n (segment :: s) Hne ltac:(done) Hn) as (l & s' & Hr & Hl & Hne').
      pose proof (Conn_Read_spec n (segment :: s)) as Hsp. rewrite Hr in Hsp. destruct Hsp as [Hcat _].
      unfold read_once. rewrite Hr. exists l, p, s', (concat s'), (length (concat s')).
      split; [done|]. split; [by rewrite <-Hs|]. split; [rewrite <-Hs, Hcat, length_app; destruct l; [done|cbn; lia]|].
      split; [done|]. exists [], [], [], (concat s'). cbn. repeat split; try done; try lia.
  - right. rewrite (proj2 (Nat.ltb_lt (pd_readPadding p) paddingCount)) by (cbn [length] in Hcount; lia).
    by apply frame_start_step.
Qed.

Lemma naive_step n p s D k : (0 < n)%nat → naive_pending p s D k →
  (D = [] ∧ ∃ p' s', readWithPadding n p s = (([], Some io_EOF), p', s')) ∨
  ∃ l p' s' D' k', readWithPadding n p s = ((l, None), p', s') ∧ D = l ++ D' ∧ (k' < k)%nat ∧ naive_pending p' s' D' k'.
Proof.
  intros Hn (Hne & rem & pad & fs & tail & Hs & Hrem & Hpad & Hok & Htail & Hcount & -> & ->).
  unfold readWithPadding. destruct (Nat.ltb_spec 0 (pd_readRemaining p)) as [Hr|Hr].
  - right. rewrite <-Hrem.
    destruct (read_some_prefix n rem s _ Hne Hs Hn) as (l1 & l2 & s' & -> & Hl & Hcat & Hne' & Hl1).
    assert (l1 ≠ []) as Hl1' by (apply Hl1; intros ->; cbn in Hrem; lia).
    eexists l1, _, s', (l2 ++ concat (fst <$> fs) ++ tail), (length (l2 ++ concat (fst <$> fs) ++ tail) + length fs)%nat.
    split; [reflexivity|]. rewrite Hl, <-app_assoc. split; [done|].
    split; [rewrite (length_app l1); destruct l1; [done|cbn [length]; lia]|].
    split; [done|]. exists l2, pad, fs, tail. simpl pd_readPadding. simpl pd_readRemaining. simpl pd_paddingRemaining.
    split; [done|]. split; [rewrite length_app; lia|]. done.
  - assert (rem = []) as -> by (destruct rem; [done|cbn in Hrem; lia]). cbn [app] in *.
    destruct (Nat.ltb_spec 0 (pd_paddingRemaining p)) as [Hp|Hp].
    + assert (reads (SkipN (Z.of_nat (pd_paddingRemaining p))) pad tt) as Hskip.
      { intros rest. unfold SkipN. rewrite (proj2 (Z.ltb_ge _ _)) by (rewrite length_app; lia).
        by rewrite Nat2Z.id, <-Hpad, drop_app_length. }
      rewrite (of_reader_reads _ _ _ Hskip s _ Hs).
      eapply (naive_step_frames n (p <| pd_paddingRemaining := 0%nat |>)); try done; try (cbn; lia); [|].
      * by apply drop_stream_nonempty.
      * by rewrite concat_drop_stream, Hs, drop_app_length.
    + assert (pad = []) as -> by (destruct pad; [done|cbn in Hpad; lia]). cbn [app] in *.
      apply naive_step_frames; try done; lia.
Qed.

(** ** The frames of a writer *)

Section Frames.
Context (padding : nat → list byte) (Hpadding : ∀ i, (length (padding i) < 256)%nat).

(** From the [j]-th frame to the [j']-th, [bytes] carry [data]. *)
Definition carries (j j' : nat) (data bytes : list byte) : Prop :=
  ∃ fs tail, bytes = concat (frame_bytes <$> fs) ++ tail ∧ Forall frame_ok fs ∧ (j + length fs)%nat = j' ∧
    (j' ≤ paddingCount)%nat ∧ (tail = [] ∨ j' = paddingCount) ∧ data = concat (fst <$> fs) ++ tail.

Lemma carries_nil j : (j ≤ paddingCount)%nat → carries j j [] [].
Proof. intros Hj. exists [], []. cbn. repeat split; try done; try lia. by left. Qed.

Lemma carries_app j1 j2 j3 d1 d2 b1 b2 : carries j1 j2 d1 b1 → carries j2 j3 d2 b2 → carries j1 j3 (d1 ++ d2) (b1 ++ b2).
Proof.
  intros (fs1 & t1 & -> & Hok1 & Hj1 & Hle1 & Ht1 & ->) (fs2 & t2 & -> & Hok2 & Hj2 & Hle2 & Ht2 & ->).
  destruct Ht1 as [->|He].
  - exists (fs1 ++ fs2), t2. rewrite !fmap_app, !concat_app, !app_nil_r, <-!app_assoc, length_app.
    repeat split; try done; [by apply Forall_app|lia].
  - assert (fs2 = []) as -> by (destruct fs2; [done|cbn [length] in Hj2; lia]). cbn [fmap list_fmap concat app length] in *.
    exists fs1, (t1 ++ t2). rewrite <-!app_assoc. repeat split; try done; [lia|]. right. lia.
Qed.

Lemma write_frame_carries j data : (j < paddingCount)%nat → (length data ≤ maxChunk)%nat →
  carries j (S j) data (write_frame padding j data).
Proof.
  intros Hj Hlen. exists [(data, padding j)], []. cbn [fmap list_fmap concat length fst snd]. rewrite !app_nil_r.
  pose proof maxChunk_Z. split; [|split; [|split; [lia|split; [lia|by split; [left|]]]]].
  - unfold write_frame, frame_bytes. cbn [fst snd]. unfold u16. rewrite wrap_id by (unfold is_u; lia). by f_equal.
  - constructor; [|constructor]. split; [exact Hlen|apply Hpadding].
Qed.

(** One write, of a chunk. *)
Lemma writeWithPadding_carries data p w : (pd_writePadding p ≤ paddingCount)%nat → (length data ≤ maxChunk)%nat →
  ∃ j' bytes, writeWithPadding record padding data p w =
      ((length data, None), p <| pd_writePadding := j' |>, w ++ [bytes]) ∧
    carries (pd_writePadding p) j' data bytes ∧ (j' ≤ paddingCount)%nat.
Proof.
  intros Hp Hlen. unfold writeWithPadding, record. destruct (Nat.ltb_spec (pd_writePadding p) paddingCount) as [Hlt|Hge].
  - eexists (S (pd_writePadding p)), _. split; [reflexivity|]. split; [by apply write_frame_carries|lia].
  - exists (pd_writePadding p), data. split; [by destruct p|]. split; [|done].
    exists [], data. cbn. repeat split; try done; try lia.
Qed.

Lemma writeChunked_carries fuel : ∀ data p w, (pd_writePadding p ≤ paddingCount)%nat → (length data < fuel)%nat →
  ∃ j' ps, writeChunked_loop record padding fuel data p w =
      ((length data, None), p <| pd_writePadding := j' |>, w ++ ps) ∧
    carries (pd_writePadding p) j' data (concat ps) ∧ (j' ≤ paddingCount)%nat.
Proof.
  induction fuel as [|fuel IH]; intros data p w Hp Hf; [lia|]. cbn [writeChunked_loop].
  destruct data as [|b data]; cbn [nonempty negb].
  { exists (pd_writePadding p), []. rewrite app_nil_r. split; [by destruct p|]. split; [by apply carries_nil|done]. }
  pose proof maxChunk_Z. set (all := b :: data) in *.
  destruct (writeWithPadding_carries (take maxChunk all) p w Hp) as (j1 & bytes & -> & Hc & Hj1).
  { rewrite length_take. lia. }
  destruct (IH (drop maxChunk all) (p <| pd_writePadding := j1 |>) (w ++ [bytes])) as (j2 & ps & -> & Hc2 & Hj2).
  { done. }
  { rewrite length_drop. unfold all in *. cbn [length] in *. lia. }
  exists j2, (bytes :: ps). split.
  - rewrite <-app_assoc. cbn [app]. replace (length (take maxChunk all) + length (drop maxChunk all))%nat with (length all); [done|].
    rewrite length_take, length_drop. lia.
  - split; [|done]. rewrite <-(take_drop maxChunk all). cbn [concat]. by eapply carries_app.
Qed.

(** What a connection is asked to write. *)
Inductive NaiveWrite : Type := NW_Write (data : list byte) | NW_WriteBuffer (data : list byte).
Definition nw_data (o : NaiveWrite) : list byte := match o with NW_Write d | NW_WriteBuffer d => d end.

Fixpoint run_writes (os : list NaiveWrite) (p : paddingConn) (w : list (list byte)) : option error * paddingConn * list (list byte) :=
  match os with
  | [] => (None, p, w)
  | o :: os =>
      match (match o with
             | NW_Write d => let '((_, e), p, w) := writeChunked record padding d p w in (e, p, w)
             | NW_WriteBuffer d => writeBufferWithPadding record padding d p w
             end) with
      | (Some e, p, w) => (Some e, p, w)
      | (None, p, w) => run_writes os p w
      end
  end.

Lemma writeBuffer_carries data p w : (pd_writePadding p ≤ paddingCount)%nat →
  ∃ j' ps, writeBufferWithPadding record padding data p w = (None, p <| pd_writePadding := j' |>, w ++ ps) ∧
    carries (pd_writePadding p) j' data (concat ps) ∧ (j' ≤ paddingCount)%nat.
Proof.
  intros Hp. unfold writeBufferWithPadding. destruct (Nat.ltb_spec (pd_writePadding p) paddingCount) as [Hlt|Hge].
  - destruct (Nat.ltb_spec maxChunk (length data)) as [Hbig|Hsmall].
    + unfold writeChunked. destruct (writeChunked_carries (S (length data)) data p w Hp ltac:(lia)) as (j' & ps & -> & Hc & Hj').
      by exists j', ps.
    + unfold record. eexists (S (pd_writePadding p)), [_]. split; [reflexivity|]. cbn [concat]. rewrite app_nil_r.
      split; [by apply write_frame_carries|lia].
  - unfold record. exists (pd_writePadding p), [data]. split; [by destruct p|]. cbn [concat]. rewrite app_nil_r. split; [|done].
    exists [], data. cbn. repeat split; try done; try lia.
Qed.

Lemma run_writes_carries os : ∀ p w, (pd_writePadding p ≤ paddingCount)%nat →
  ∃ j' ps, run_writes os p w = (None, p <| pd_writePadding := j' |>, w ++ ps) ∧
    carries (pd_writePadding p) j' (concat (nw_data <$> os)) (concat ps) ∧ (j' ≤ paddingCount)%nat.
Proof.
  induction os as [|o os IH]; intros p w Hp; cbn [run_writes].
  { exists (pd_writePadding p), []. rewrite app_nil_r. split; [by destruct p|]. split; [by apply carries_nil|done]. }
  assert (∃ j1 ps1, (match o with
             | NW_Write d => let '((_, e), p, w) := writeChunked record padding d p w in (e, p, w)
             | NW_WriteBuffer d => writeBufferWithPadding record padding d p w
             end) = (None, p <| pd_writePadding := j1 |>, w ++ ps1) ∧
    carries (pd_writePadding p) j1 (nw_data o) (concat ps1) ∧ (j1 ≤ paddingCount)%nat) as (j1 & ps1 & -> & Hc1 & Hj1).
  { destruct o as [d|d]; [|by apply writeBuffer_carries]. unfold writeChunked.
    destruct (writeChunked_carries (S (length d)) d p w Hp ltac:(lia)) as (j' & ps & -> & Hc & Hj'). by exists j', ps. }
  destruct (IH (p <| pd_writePadding := j1 |>) (w ++ ps1)) as (j2 & ps2 & -> & Hc2 & Hj2); [done|].
  exists j2, (ps1 ++ ps2). rewrite <-app_assoc, concat_app. split; [done|]. split; [|done]. cbn [fmap list_fmap concat].
  by eapply carries_app.
Qed.

(** What one end of a naive connection writes is read at the other: for any writes, of any length and
    with any padding, however the segments of the connection end, reads of any sizes give the data in
    order, and enough of them give all of it and then the end. *)
Theorem naive_delivers os s ns :
  let '(e, _, w) := run_writes os new_paddingConn [] in
  let D := concat (nw_data <$> os) in
  e = None ∧
  (concat s = concat w → Forall (λ l, l ≠ []) s → Forall (λ n, 0 < n)%nat ns →
   (run_reads readWithPadding ns new_paddingConn s).1 `prefix_of` D ∧
   ((length D + paddingCount < length ns)%nat → run_reads readWithPadding ns new_paddingConn s = (D, Some io_EOF))).
Proof.
  destruct (run_writes_carries os new_paddingConn [] ltac:(cbn; lia)) as (j' & ps & -> & (fs & tail & Hb & Hok & Hj & Hle & Ht & HD) & _).
  cbn [app]. split; [done|]. intros Hs Hne Hns. cbn [pd_writePadding new_paddingConn Nat.add] in Hj.
  pose proof (run_reads_delivers readWithPadding naive_pending naive_step ns new_paddingConn s
    (concat (nw_data <$> os)) (length (concat (nw_data <$> os)) + length fs) Hns) as Hrun.
  destruct Hrun as [Hpre Hall].
  - split; [done|]. exists [], [], fs, tail. cbn [app pd_readRemaining pd_paddingRemaining pd_readPadding new_paddingConn length].
    rewrite Hs, Hb. repeat split; try done; try lia. destruct Ht as [->|He]; [by left|right; lia].
  - split; [done|]. intros Hlen. apply Hall. lia.
Qed.

End Frames.

(** The header of a response has the length that was drawn, and no character that HPACK shortens. *)
Lemma generatePaddingHeader_spec n bits : (30 ≤ n)%nat →
  length (generatePaddingHeader n bits) = n ∧
  Forall (λ b, b ∈ padding_chars ∨ b = Z_byte 126) (generatePaddingHeader n bits).
Proof.
  intros Hn. unfold generatePaddingHeader. assert (∀ m bits, length (padding_bits m bits) = m ∧ Forall (λ b, b ∈ padding_chars) (padding_bits m bits)) as Hb.
  { induction m as [|m IH]; intros z; [done|]. cbn [padding_bits length]. destruct (IH (Z.shiftr z 4)) as [Hl Hf].
    split; [by rewrite Hl|]. constructor; [|done]. apply list_elem_of_In, nth_In.
    pose proof (Z.land_ones z 4 ltac:(lia)) as Hz. pose proof (Z.mod_pos_bound z (2 ^ 4) ltac:(lia)).
    change (Z.ones 4) with 15 in Hz. rewrite Hz. change (length padding_chars) with 16%nat. change (2 ^ 4) with 16 in *. lia. }
  destruct (Hb 16%nat bits) as [Hl Hf]. split; [rewrite length_app, Hl, repeat_length; lia|].
  apply Forall_app. split; apply Forall_forall; [intros b Hb'; left; by apply (proj1 (Forall_forall _ _) Hf)|intros b Hb'%repeat_spec; by right].
Qed.

(** ** Concrete connections *)

Section Examples.

Definition ex_padding (i : nat) : list byte := repeat xff (7 * i).
Definition ex_writes : list NaiveWrite :=
  [NW_Write (bytes_of_string "hello"); NW_WriteBuffer []; NW_Write (bytes_of_string "x"); NW_WriteBuffer (bytes_of_string "yz")].
Definition ex_wire : list byte := concat (run_writes ex_padding ex_writes new_paddingConn []).2.

Lemma naive_delivers_witness :
  let '(e, _, w) := run_writes (λ i, take 255 (ex_padding i)) ex_writes new_paddingConn [] in
  e = None ∧ run_reads readWithPadding (repeat 3%nat 17) new_paddingConn [take 6 ex_wire; drop 6 ex_wire] =
    (bytes_of_string "helloxyz", Some io_EOF).
Proof.
  pose proof (naive_delivers (λ i, take 255 (ex_padding i))
    ltac:(intros i; cbv beta; rewrite length_take; lia) ex_writes [take 6 ex_wire; drop 6 ex_wire] (repeat 3%nat 17)) as H.
  change (run_writes (λ i, take 255 (ex_padding i)) ex_writes new_paddingConn [])
    with (run_writes ex_padding ex_writes new_paddingConn []) in *. revert H.
  assert (concat [take 6 ex_wire; drop 6 ex_wire] = ex_wire) as Hw by reflexivity. rewrite Hw.
  unfold ex_wire at 1. destruct (run_writes ex_padding ex_writes new_paddingConn []) as [[e p] w]. cbn [snd].
  intros [-> H]. split; [done|]. apply H; [done|repeat constructor; vm_compute; discriminate|repeat constructor|vm_compute; lia].
Defined.

(** After the header of the last padded frame the reader says that it can be replaced by the connection
    under it, where the rest of the frame and its padding are still to come. *)
Lemma replaced_too_early :
  let '(r, p, s) := readWithPadding 3 (mkPaddingConn 7 0 0 0) [frame_bytes (bytes_of_string "hello", [xff; xff])] in
  r = (bytes_of_string "hel", None) ∧ readerReplaceable p = true ∧ concat s = bytes_of_string "lo" ++ [xff; xff].
Proof. vm_compute. repeat split. Qed.

End Examples.
