(* ===== verification/Quic.v ===== *)
(** * The QUIC sniffer (common/sniff/quic.go, quic_blacklist.go, internal/qtls)

    An Initial packet is decrypted with keys that everyone can derive, its frames are read, and the
    CRYPTO fragments received so far are put together to a TLS record for the ClientHello parser.
    The cryptography is a class: what the code does around it is modelled. *)

From stdpp Require Import base gmap strings list numbers.
From S2P Require Import Prelude GoStd Netip GoIO Adapter RuleAction Sniffing Ja3.

Local Open Scope Z_scope.

(** hkdf and AES of golang.org/x/crypto and crypto/aes; [hkdf_Expand secret info n] is the first [n]
    bytes of the output, and [gcm_Open key nonce ciphertext additionalData] the plaintext. *)
Class QuicCrypto := {
  hkdf_Extract : list byte → list byte → list byte;
  hkdf_Expand : list byte → list byte → Z → list byte;
  aes_Encrypt : list byte → list byte → list byte;
  gcm_Open : list byte → list byte → list byte → list byte → res (list byte)
}.

(** ** qtls *)

(** [common/sniff/internal/qtls/qtls.go:13-17] Version *)
Definition VersionDraft29 : Z := 0xff00001d.
Definition Version1 : Z := 0x1.
Definition Version2 : Z := 0x6b3343cf.

(** [common/sniff/internal/qtls/qtls.go:19-23] Salt *)
Definition SaltOld : list byte := Z_byte <$>
  [0xaf; 0xbf; 0xec; 0x28; 0x99; 0x93; 0xd2; 0x4c; 0x9e; 0x97; 0x86; 0xf1; 0x9c; 0x61; 0x11; 0xe0;
   0x43; 0x90; 0xa8; 0x99].
Definition SaltV1 : list byte := Z_byte <$>
  [0x38; 0x76; 0x2c; 0xf7; 0xf5; 0x59; 0x34; 0xb3; 0x4d; 0x17; 0x9a; 0xe6; 0xa4; 0xc8; 0x0c; 0xad;
   0xcc; 0xbb; 0x7f; 0x0a].
Definition SaltV2 : list byte := Z_byte <$>
  [0x0d; 0xed; 0xe3; 0xde; 0xf7; 0x00; 0xa6; 0xdb; 0x81; 0x93; 0x81; 0xbe; 0x6e; 0x26; 0x9d; 0xcb;
   0xf9; 0xbd; 0x2e; 0xd9].

(** The bytes that are not zero are exclusive-ored in from position 4 on. *)
Definition nonce_xor (nonceMask nonce : list byte) : list byte :=
  take 4 nonceMask ++
  zip_with (λ a b, Z_byte (Z.lxor (byte_Z a) (byte_Z b))) (drop 4 nonceMask) nonce.

Section Qtls.
Context `{QuicCrypto}.

(** The mask is as it was afterwards.

    [common/sniff/internal/qtls/qtls.go:73-83] (xorNonceAEAD).Open *)
Definition xorNonceAEAD_Open (key nonceMask nonce ciphertext additionalData : list byte)
    : res (list byte) := gcm_Open key (nonce_xor nonceMask nonce) ciphertext additionalData.

(** [common/sniff/internal/qtls/qtls.go:85-100] HKDFExpandLabel *)
Definition HKDFExpandLabel (secret context : list byte) (label : string) (length' : Z)
    : list byte :=
  hkdf_Expand secret
    (be_bytes 2 (u16 length') ++ [Z_byte (u8 (6 + strlen label))] ++ bytes_of_string "tls13 " ++
     bytes_of_string label ++ [Z_byte (u8 (Z.of_nat (length context)))] ++ context) length'.
End Qtls.

(** The first two bits of the first byte are the length of the number.

    [common/sniff/internal/qtls/qtls.go:102-148] ReadUvarint *)
Definition qtls_ReadUvarint : Reader Z :=
  firstByte ← ReadByte;
  let len := Z.shiftl 1 (Z.shiftr (Z.land (byte_Z firstByte) 0xc0) 6) in
  let b1 := Z.land (byte_Z firstByte) (0xff - 0xc0) in
  if Z.eqb len 1 then mret b1 else
  b2 ← ReadByte;
  if Z.eqb len 2 then mret (byte_Z b2 + Z.shiftl b1 8) else
  b3 ← ReadByte;
  b4 ← ReadByte;
  if Z.eqb len 4
  then mret (byte_Z b4 + Z.shiftl (byte_Z b3) 8 + Z.shiftl (byte_Z b2) 16 + Z.shiftl b1 24) else
  b5 ← ReadByte;
  b6 ← ReadByte;
  b7 ← ReadByte;
  b8 ← ReadByte;
  mret (byte_Z b8 + Z.shiftl (byte_Z b7) 8 + Z.shiftl (byte_Z b6) 16 + Z.shiftl (byte_Z b5) 24 +
        Z.shiftl (byte_Z b4) 32 + Z.shiftl (byte_Z b3) 40 + Z.shiftl (byte_Z b2) 48 +
        Z.shiftl b1 56).

(** ** The packet *)

(** What the header says: where it ends, and the length of the rest.

    [common/sniff/quic.go:24-99] QUICClientHello (header) *)
Record InitialHeader : Type := mkInitialHeader {
  ih_version : Z;
  ih_destConnID : list byte;
  ih_hdrLen : Z;
  ih_packetLen : Z;
  ih_pnBytes : list byte
}.

(** [common/sniff/quic.go:37-43] QUICClientHello (version, packet type) *)
Definition check_version (typeByte versionNumber : Z) : res () :=
  if negb (Z.eqb versionNumber VersionDraft29) && negb (Z.eqb versionNumber Version1) &&
     negb (Z.eqb versionNumber Version2)
  then Err (E_New [AStr "bad version"]) else
  let packetType := Z.shiftr (Z.land typeByte 0x30) 4 in
  if (Z.eqb packetType 0 && Z.eqb versionNumber Version2) ||
     (Z.eqb packetType 2 && negb (Z.eqb versionNumber Version2)) || Z.ltb 2 packetType
  then Err (E_New [AStr "bad packet type"]) else Ok tt.

(** [common/sniff/quic.go:24-99] QUICClientHello (header) *)
Definition read_initial (packet : list byte) : Reader InitialHeader :=
  typeByte ← ReadByte;
  if Z.eqb (Z.land (byte_Z typeByte) 0x40) 0 then of_res (Err (E_New [AStr "bad type byte"])) else
  versionNumber ← ReadBE 4;
  _ ← of_res (check_version (byte_Z typeByte) versionNumber);
  destConnIDLen ← ReadByte;
  if Z.eqb (byte_Z destConnIDLen) 0 || Z.ltb 20 (byte_Z destConnIDLen)
  then of_res (Err (E_New [AStr "bad destination connection id length"])) else
  destConnID ← ReadFull (Z.to_nat (byte_Z destConnIDLen));
  srcConnIDLen ← ReadByte;
  _ ← SkipN (byte_Z srcConnIDLen);
  tokenLen ← qtls_ReadUvarint;
  _ ← SkipN tokenLen;
  packetLen ← qtls_ReadUvarint;
  left' ← Len;
  let hdrLen := Z.of_nat (length packet) - Z.of_nat left' in
  if Z.ltb (Z.of_nat (length packet)) (hdrLen + packetLen) then of_res (Err os_ErrInvalid) else
  _ ← SkipN 4;
  pnBytes ← ReadFull 16;
  mret (mkInitialHeader versionNumber destConnID hdrLen packetLen pnBytes).

Definition byte_xor (a b : byte) : byte := Z_byte (Z.lxor (byte_Z a) (byte_Z b)).

Section Decrypt.
Context `{QuicCrypto}.

(** [common/sniff/quic.go:101-118] QUICClientHello (header protection key) *)
Definition initial_secret (h : InitialHeader) : list byte :=
  let salt := if Z.eqb (ih_version h) Version1 then SaltV1 else
              if Z.eqb (ih_version h) Version2 then SaltV2 else SaltOld in
  HKDFExpandLabel (hkdf_Extract (ih_destConnID h) salt) [] "client in" 32.

(** [common/sniff/quic.go:110-125] QUICClientHello (mask) *)
Definition header_mask (h : InitialHeader) : list byte :=
  let label := if Z.eqb (ih_version h) Version2 then "quicv2 hp"%string else "quic hp"%string in
  aes_Encrypt (HKDFExpandLabel (initial_secret h) [] label 16) (ih_pnBytes h).

(** The packet with its header protection removed, and the length of its packet number: the bytes
    after the number are put back.

    [common/sniff/quic.go:126-150] QUICClientHello (packet number) *)
Definition unprotect (packet : list byte) (h : InitialHeader) : list byte * Z :=
  let mask := header_mask h in
  let hdrLen := Z.to_nat (ih_hdrLen h) in
  let first := Z_byte (Z.lxor (byte_Z (default x00 (packet !! 0%nat)))
                              (Z.land (byte_Z (default x00 (mask !! 0%nat))) 0xf)) in
  let packetNumberLength := Z.land (byte_Z first) 0x3 + 1 in
  let number := zip_with byte_xor
                  (take (Z.to_nat packetNumberLength) (take 4 (drop hdrLen packet))) (drop 1 mask) in
  ([first] ++ drop 1 (take hdrLen packet) ++ number ++
   drop (hdrLen + Z.to_nat packetNumberLength) packet, packetNumberLength).

(** The plaintext, and the bytes of the buffer after it: it was decrypted in place, so that the
    slice has the capacity of the packet.

    [common/sniff/quic.go:132-172] QUICClientHello (decryption) *)
Definition decrypt (packet : list byte) (h : InitialHeader) : res (list byte * list byte) :=
  let '(newPacket, packetNumberLength) := unprotect packet h in
  if Z.ltb (ih_packetLen h) packetNumberLength then Err os_ErrInvalid else
  let hdrLen := Z.to_nat (ih_hdrLen h) in
  let extHdrLen := (hdrLen + Z.to_nat packetNumberLength)%nat in
  let packetNumber := be_val (take (Z.to_nat packetNumberLength) (drop hdrLen newPacket)) in
  let data := take (Z.to_nat (ih_packetLen h - packetNumberLength)) (drop extHdrLen newPacket) in
  let v2 := Z.eqb (ih_version h) Version2 in
  let key := HKDFExpandLabel (initial_secret h) [] (if v2 then "quicv2 key" else "quic key") 16 in
  let iv := HKDFExpandLabel (initial_secret h) [] (if v2 then "quicv2 iv" else "quic iv") 12 in
  decrypted ← xorNonceAEAD_Open key iv (be_bytes 8 packetNumber) data (take extHdrLen newPacket);
  Ok (decrypted, drop (extHdrLen + length decrypted) newPacket).
End Decrypt.

(** ** Frames *)

Definition frameTypePadding : Z := 0x00.
Definition frameTypePing : Z := 0x01.
Definition frameTypeAck : Z := 0x02.
Definition frameTypeAck2 : Z := 0x03.
Definition frameTypeCrypto : Z := 0x06.
Definition frameTypeConnectionClose : Z := 0x1c.

Definition skip_uvarints (n : nat) : Reader () :=
  _ ← read_times n 0 (λ _, qtls_ReadUvarint); mret tt.

(** The ranges of an ACK are pairs of numbers.

    [common/sniff/quic.go:196-236] QUICClientHello (ACK) *)
Definition read_ack (frameType : Z) : Reader () :=
  _ ← skip_uvarints 2;
  ackRangeCount ← qtls_ReadUvarint;
  _ ← skip_uvarints 1;
  _ ← read_times (Z.to_nat ackRangeCount) 0 (λ _, skip_uvarints 2);
  if Z.eqb frameType 0x03 then skip_uvarints 3 else mret tt.

(** The payload is sliced from the plaintext, up to its capacity, before the length is checked;
    [spare] are the bytes behind the plaintext.

    [common/sniff/quic.go:237-253] QUICClientHello (CRYPTO) *)
Definition read_crypto (spare : list byte) : Reader qCryptoFragment :=
  offset ← qtls_ReadUvarint;
  length' ← qtls_ReadUvarint;
  payload ← (λ s,
    if Z.ltb (Z.of_nat (length (s ++ spare))) length'
    then (Panic [AStr "slice bounds out of range"], s)
    else (Ok (take (Z.to_nat length') (s ++ spare)), s));
  _ ← Seek length';
  mret (mkqCryptoFragment offset length' payload).

(** [common/sniff/quic.go:254-271] QUICClientHello (CONNECTION_CLOSE) *)
Definition read_connection_close : Reader () :=
  _ ← skip_uvarints 2;
  length' ← qtls_ReadUvarint;
  Seek length'.

(** The type and the fragments of a frame, before those of the frames that follow. *)
Definition frame_next (frameType : Z) (fragments : list qCryptoFragment)
    (read : Reader (list Z * list qCryptoFragment)) : Reader (list Z * list qCryptoFragment) :=
  '(types, rest) ← read; mret (frameType :: types, fragments ++ rest).

(** The types of the frames and the fragments, in order; each turn takes at least the byte of a
    type.

    [common/sniff/quic.go:173-275] QUICClientHello (frames) *)
Fixpoint read_frames (fuel : nat) (spare : list byte)
    : Reader (list Z * list qCryptoFragment) := λ s,
  match fuel, s with
  | O, _ => (Panic [AStr "out of fuel"], s)
  | _, [] => (Ok ([], []), [])
  | S fuel, b :: s =>
      let frameType := byte_Z b in
      let next fragments := frame_next frameType fragments (read_frames fuel spare) in
      (if Z.eqb frameType frameTypePadding || Z.eqb frameType frameTypePing then next [] else
       if Z.eqb frameType frameTypeAck || Z.eqb frameType frameTypeAck2
       then _ ← read_ack frameType; next [] else
       if Z.eqb frameType frameTypeCrypto then fragment ← read_crypto spare; next [fragment] else
       if Z.eqb frameType frameTypeConnectionClose then _ ← read_connection_close; next [] else
       of_res (Err os_ErrInvalid)) s
  end.

(** ** Putting the fragments together *)

Fixpoint find_fragment (index : Z) (fragments : list qCryptoFragment) : option qCryptoFragment :=
  match fragments with
  | [] => None
  | fragment :: fragments =>
      if Z.eqb (qf_offset fragment) index then Some fragment else find_fragment index fragments
  end.

(** [None] when the fuel does not suffice.

    [common/sniff/quic.go:289-302] QUICClientHello (find) *)
Fixpoint find_loop (fuel : nat) (fragments : list qCryptoFragment) (index : Z)
    (buffer : list byte) : option (list byte) :=
  match fuel with
  | O => None
  | S fuel =>
      match find_fragment index fragments with
      | Some fragment =>
          find_loop fuel fragments (u64 (qf_offset fragment + qf_length fragment))
            (buffer ++ qf_payload fragment)
      | None => Some buffer
      end
  end.

(** [common/sniff/quic.go:280-283] QUICClientHello (frameLen) *)
Definition frame_length (fragments : list qCryptoFragment) : Z :=
  fold_left (λ n fragment, u64 (n + qf_length fragment)) fragments 0.

(** The header of a TLS record, with the version of TLS 1.2.

    [common/sniff/quic.go:284-288] QUICClientHello (buffer) *)
Definition record_header (fragments : list qCryptoFragment) : list byte :=
  [Z_byte 0x16] ++ be_bytes 2 0x0303 ++ be_bytes 2 (u16 (frame_length fragments)).

(** The fragments are tried one more time than there are of them.

    [common/sniff/quic.go:280-302] QUICClientHello (buffer, find) *)
Definition reassemble (fragments : list qCryptoFragment) : option (list byte) :=
  find_loop (S (length fragments)) fragments 0 (record_header fragments).

(** ** The client *)

(** [common/sniff/quic.go:350-357] isZero *)
Definition isZero (slices : list Z) : bool := forallb (Z.eqb 0) slices.

(** [common/sniff/quic.go:359-367] count *)
Definition count (slices : list Z) (value : Z) : nat := length (filter (eq value) slices).

(** [common/sniff/quic_blacklist.go:7-12] x25519Kyber768Draft00 *)
Definition x25519Kyber768Draft00 : Z := 0x11EC.
Definition extensionRenegotiationInfo : Z := 0xFF01.

(** [common/sniff/quic_blacklist.go:17-29] isQUICGo *)
Definition isQUICGo (fingerprint : ClientHello) : bool :=
  existsb (Z.eqb x25519Kyber768Draft00) (ch_EllipticCurves fingerprint) ||
  existsb (Z.eqb extensionRenegotiationInfo) (ch_Extensions fingerprint).

Definition is_grease (l : list Z) : bool :=
  match l with v :: _ => Z.eqb (Z.land v GreaseBitmask) 0x0A0A | [] => false end.

(** TLS_AES_256_GCM_SHA384, X25519 and ECDSAWithP256AndSHA256 of crypto/tls.

    [common/sniff/quic.go:316-326] QUICClientHello (Safari) *)
Definition isSafari (fingerprint : ClientHello) : bool :=
  (Nat.eqb (length (ch_Versions fingerprint)) 2 && is_grease (ch_Versions fingerprint) &&
   Nat.eqb (length (ch_EllipticCurves fingerprint)) 5 &&
   is_grease (ch_EllipticCurves fingerprint)) ||
  (bool_decide (ch_CipherSuites fingerprint = [0x1302]) &&
   bool_decide (ch_EllipticCurves fingerprint = [29]) &&
   bool_decide (ch_SignatureAlgorithms fingerprint = [0x0403])).

(** An empty list of types would be indexed; see [QUICClientHello].

    [common/sniff/quic.go:310-346] QUICClientHello (client) *)
Definition quic_client (types : list Z) (fingerprint : ClientHello) : res string :=
  if Nat.eqb (length types) 1 then Ok "firefox"%string else
  match types with
  | [] => Panic [AStr "index out of range"]
  | first :: rest =>
      if Z.eqb first frameTypeCrypto && isZero rest && isSafari fingerprint
      then Ok "safari"%string else
      if Z.eqb (List.last types 0) frameTypeCrypto && isZero (removelast types)
      then Ok "quic-go"%string else
      if Nat.ltb 1 (count types frameTypeCrypto) || Nat.ltb 0 (count types frameTypePing)
      then Ok (if isQUICGo fingerprint then "quic-go"%string else "chromium"%string)
      else Ok "unknown"%string
  end.

(** ** The sniffer *)

(** The end, with the fragments of this packet and those of the packets before.

    [common/sniff/quic.go:276-347] QUICClientHello (fragments) *)
Definition sniff_fragments (types : list Z) (fragments : list qCryptoFragment)
    (metadata : InboundContext) : res () * InboundContext :=
  let fragments := fragments ++ default [] (ic_SniffContext metadata) in
  let metadata := metadata <| ic_SniffContext := None |> in
  match reassemble fragments with
  | None => (Panic [AStr "endless loop"], metadata)
  | Some buffer =>
      let metadata := metadata <| ic_Protocol := "quic"%string |> in
      match Compute buffer with
      | Panic p => (Panic p, metadata)
      | Err err =>
          (Err (need_more err), metadata <| ic_SniffContext := Some fragments |>)
      | Ok fingerprint =>
          let metadata := metadata <| ic_Domain := ch_ServerName fingerprint |> in
          if negb (String.eqb (ic_Client metadata) "") then (Ok tt, metadata) else
          match quic_client types fingerprint with
          | Ok client => (Ok tt, metadata <| ic_Client := client |>)
          | Err e => (Err e, metadata)
          | Panic p => (Panic p, metadata)
          end
      end
  end.

(** [common/sniff/quic.go:23-348] QUICClientHello *)
Definition QUICClientHello `{QuicCrypto} (metadata : InboundContext) (packet : list byte)
    : res () * InboundContext :=
  match
    (h ← (read_initial packet packet).1;
     '(decrypted, spare) ← decrypt packet h;
     (read_frames (S (length decrypted)) spare decrypted).1)
  with
  | Ok (types, fragments) => sniff_fragments types fragments metadata
  | Err e => (Err e, metadata)
  | Panic p => (Panic p, metadata)
  end.

(** ** Variable-length integers *)

(** RFC 9000, section 16: the number in one, two, four or eight bytes, with the length in the two
    highest bits. *)
Definition quic_varint (v : Z) : list byte :=
  if Z.ltb v (2 ^ 6) then be_bytes 1 v else
  if Z.ltb v (2 ^ 14) then be_bytes 2 (v + 1 * 2 ^ 14) else
  if Z.ltb v (2 ^ 30) then be_bytes 4 (v + 2 * 2 ^ 30) else be_bytes 8 (v + 3 * 2 ^ 62).

Lemma varint_bits b : 0 ≤ b < 256 →
  Z.shiftr (Z.land b 0xc0) 6 = b / 64 ∧ Z.land b (0xff - 0xc0) = b mod 64.
Proof.
  intros Hb. split; [|by apply (Z.land_ones b 6)].
  rewrite Z.shiftr_land, Z.shiftr_div_pow2 by lia. change (Z.shiftr 0xc0 6) with (Z.ones 2).
  rewrite Z.land_ones by lia. apply Z.mod_small.
  change (2 ^ 6) with 64. change (2 ^ 2) with 4.
  split; [apply Z.div_pos; lia|apply Z.div_lt_upper_bound; lia].
Qed.

(** The first byte of a number of class [k], and what it is read as. *)
Lemma varint_first b k m : 0 ≤ k < 4 → k * 64 ≤ b < (k + 1) * 64 → b = m + k * 64 →
  Z.shiftl 1 (Z.shiftr (Z.land b 0xc0) 6) = 2 ^ k ∧ Z.land b (0xff - 0xc0) = m.
Proof.
  intros Hk Hb Hm. destruct (varint_bits b) as [-> ->]; [lia|].
  assert (b / 64 = k) as -> by (symmetry; apply (Z.div_unique b 64 k m); lia).
  split; [by rewrite Z.shiftl_mul_pow2, Z.mul_1_l by lia|].
  symmetry. apply (Z.mod_unique b 64 k m); lia.
Qed.

Lemma bind_byte {B} (k : byte → Reader B) b s : (c ← ReadByte; k c) (b :: s) = k b s.
Proof. done. Qed.

Ltac read_bytes E1 E2 :=
  unfold qtls_ReadUvarint; cbn [app]; rewrite bind_byte; cbv zeta; rewrite E1, E2;
  repeat match goal with |- context [Z.eqb (2 ^ ?k) ?m] =>
    let b := eval vm_compute in (Z.eqb (2 ^ k) m) in change (Z.eqb (2 ^ k) m) with b; cbv iota;
    rewrite ?bind_byte end.

Lemma be_bytes_explicit n w m : m = 256 ^ Z.of_nat n → 0 ≤ w < m →
  ∃ l, be_bytes n w = l ∧ length l = n ∧ be_val l = w.
Proof.
  intros -> Hw. exists (be_bytes n w). split; [done|]. split; [apply be_bytes_length|by apply be_roundtrip].
Qed.

Lemma reads_quic_varint v : 0 ≤ v < 2 ^ 62 → reads qtls_ReadUvarint (quic_varint v) v.
Proof.
  intros Hv rest. unfold quic_varint.
  destruct (Z.ltb_spec v (2 ^ 6)) as [H1|H1]; [|destruct (Z.ltb_spec v (2 ^ 14)) as [H2|H2];
    [|destruct (Z.ltb_spec v (2 ^ 30)) as [H3|H3]]].
  - destruct (be_bytes_explicit 1 v (2 ^ 8)) as (l & -> & Hl & Hb); [done|lia|].
    destruct l as [|b1 [|]]; [done| |done]. unfold be_val in Hb. cbn [fold_left] in Hb.
    destruct (varint_first (byte_Z b1) 0 v) as [E1 E2]; [lia..|].
    by read_bytes E1 E2.
  - destruct (be_bytes_explicit 2 (v + 1 * 2 ^ 14) (2 ^ 16)) as (l & -> & Hl & Hb); [done|lia|].
    destruct l as [|b1 [|b2 [|]]]; [done..| |done]. unfold be_val in Hb. cbn [fold_left] in Hb.
    pose proof (byte_Z_range b2). unfold is_u in *.
    destruct (varint_first (byte_Z b1) 1 (byte_Z b1 - 64)) as [E1 E2]; [lia..|].
    read_bytes E1 E2. unfold mret, Reader_ret. do 2 f_equal. rewrite Z.shiftl_mul_pow2 by lia. lia.
  - destruct (be_bytes_explicit 4 (v + 2 * 2 ^ 30) (2 ^ 32)) as (l & -> & Hl & Hb); [done|lia|].
    destruct l as [|b1 [|b2 [|b3 [|b4 [|]]]]]; [done..| |done].
    unfold be_val in Hb. cbn [fold_left] in Hb.
    pose proof (byte_Z_range b2). pose proof (byte_Z_range b3). pose proof (byte_Z_range b4).
    unfold is_u in *.
    destruct (varint_first (byte_Z b1) 2 (byte_Z b1 - 128)) as [E1 E2]; [lia..|].
    read_bytes E1 E2. unfold mret, Reader_ret. do 2 f_equal. rewrite !Z.shiftl_mul_pow2 by lia. lia.
  - destruct (be_bytes_explicit 8 (v + 3 * 2 ^ 62) (2 ^ 64)) as (l & -> & Hl & Hb); [done|lia|].
    destruct l as [|b1 [|b2 [|b3 [|b4 [|b5 [|b6 [|b7 [|b8 [|]]]]]]]]]; [done..| |done].
    unfold be_val in Hb. cbn [fold_left] in Hb.
    pose proof (byte_Z_range b2). pose proof (byte_Z_range b3). pose proof (byte_Z_range b4).
    pose proof (byte_Z_range b5). pose proof (byte_Z_range b6). pose proof (byte_Z_range b7).
    pose proof (byte_Z_range b8). unfold is_u in *.
    destruct (varint_first (byte_Z b1) 3 (byte_Z b1 - 192)) as [E1 E2]; [lia..|].
    read_bytes E1 E2. unfold mret, Reader_ret. do 2 f_equal. rewrite !Z.shiftl_mul_pow2 by lia. lia.
Qed.

(** ** Reassembly *)

(** The fragments of a stream cut into pieces, from an offset on. *)
Fixpoint cut (offset : Z) (pieces : list (list byte)) : list qCryptoFragment :=
  match pieces with
  | [] => []
  | p :: pieces =>
      mkqCryptoFragment offset (Z.of_nat (length p)) p :: cut (offset + Z.of_nat (length p)) pieces
  end.

Lemma cut_app off a b :
  cut off (a ++ b) = cut off a ++ cut (off + Z.of_nat (length (concat a))) b.
Proof.
  revert off. induction a as [|p a IH]; intros off; cbn; [by rewrite Z.add_0_r|].
  by rewrite IH, length_app, Nat2Z.inj_add, Z.add_assoc.
Qed.

Lemma cut_length off l : length (cut off l) = length l.
Proof. revert off. induction l as [|p l IH]; intros off; cbn; [done|]. by rewrite IH. Qed.

Lemma cut_offset off l f : f ∈ cut off l → off ≤ qf_offset f.
Proof.
  revert off. induction l as [|p l IH]; intros off; cbn; [by intros ?%not_elem_of_nil|].
  intros [->|Hf]%elem_of_cons; [done|]. apply IH in Hf. lia.
Qed.

(** No two fragments of a cut have the same offset, when no piece is empty. *)
Lemma cut_inj off l f g : Forall (λ p : list byte, p ≠ []) l →
  f ∈ cut off l → g ∈ cut off l → qf_offset f = qf_offset g → f = g.
Proof.
  intros Hl. revert off. induction Hl as [|p l Hp _ IH]; intros off; cbn;
    [by intros ?%not_elem_of_nil|].
  assert (0 < length p)%nat by (destruct p; [done|cbn; lia]).
  intros [->|Hf]%elem_of_cons [->|Hg]%elem_of_cons; [done| | |by eapply IH].
  - apply cut_offset in Hg. cbn. lia.
  - apply cut_offset in Hf. cbn. lia.
Qed.

Lemma cut_NoDup off l : Forall (λ p : list byte, p ≠ []) l → NoDup (cut off l).
Proof.
  intros Hl. revert off. induction Hl as [|p l Hp _ IH]; intros off; cbn; [constructor|].
  constructor; [|apply IH]. intros Hin%cut_offset. cbn in Hin.
  destruct p; [done|cbn in Hin; lia].
Qed.

Lemma find_fragment_Some index l f :
  find_fragment index l = Some f → f ∈ l ∧ qf_offset f = index.
Proof.
  induction l as [|g l IH]; [done|]. cbn. destruct (Z.eqb_spec (qf_offset g) index).
  - intros [= ->]. split; [apply list_elem_of_here|done].
  - intros [??]%IH. split; [by apply list_elem_of_further|done].
Qed.

Lemma find_fragment_None index l f : find_fragment index l = None → f ∈ l → qf_offset f ≠ index.
Proof.
  induction l as [|g l IH]; [by intros _ ?%not_elem_of_nil|]. cbn.
  destruct (Z.eqb_spec (qf_offset g) index); [done|]. intros Hn [->|Hf]%elem_of_cons; auto.
Qed.

(** The fragments received of a stream: some of those it was cut into, in any order. *)
Definition received (pieces : list (list byte)) (fragments missing : list qCryptoFragment) : Prop :=
  fragments ++ missing ≡ₚ cut 0 pieces ∧ Forall (λ p, p ≠ []) pieces ∧
  Z.of_nat (length (concat pieces)) < 2 ^ 16.

Lemma received_fragment pre p post fragments missing f :
  received (pre ++ p :: post) fragments missing → f ∈ fragments →
  qf_offset f = Z.of_nat (length (concat pre)) →
  f = mkqCryptoFragment (Z.of_nat (length (concat pre))) (Z.of_nat (length p)) p.
Proof.
  intros (Hp & Hne & _) Hf Ho. apply (cut_inj 0 (pre ++ p :: post)); [done| | |done].
  - rewrite <-Hp. apply elem_of_app. by left.
  - rewrite cut_app. apply elem_of_app. right. cbn. apply list_elem_of_here.
Qed.

Lemma cut_end off l f : Forall (λ p : list byte, p ≠ []) l → f ∈ cut off l →
  qf_offset f < off + Z.of_nat (length (concat l)).
Proof.
  intros Hl. revert off. induction Hl as [|q l Hq _ IHl]; intros off; cbn;
    [by intros ?%not_elem_of_nil|].
  rewrite length_app, Nat2Z.inj_add. intros [->|Hg]%elem_of_cons; cbn;
    [destruct q; [done|cbn; lia]|apply IHl in Hg; lia].
Qed.

(** The loop takes the first pieces, up to one that is missing, and one turn for each. *)
Lemma find_loop_received fragments missing post : ∀ pre buffer,
  received (pre ++ post) fragments missing →
  ∃ k, (∀ fuel, (k < fuel)%nat →
          find_loop fuel fragments (Z.of_nat (length (concat pre))) buffer
          = Some (buffer ++ concat (take k post))) ∧
    (k ≤ length post)%nat ∧ (missing = [] → k = length post) ∧
    ∀ f, f ∈ cut (Z.of_nat (length (concat pre))) (take k post) → f ∈ fragments.
Proof.
  induction post as [|p post IH]; intros pre buffer Hr.
  { exists O. split_and!; [|done..|by intros f ?%not_elem_of_nil].
    intros [|fuel] Hf; [lia|]. cbn [find_loop take concat]. rewrite app_nil_r.
    destruct (find_fragment _ fragments) as [f|] eqn:Hfind; [|done].
    apply find_fragment_Some in Hfind as [Hin Ho]. destruct Hr as (Hp & Hne & _).
    rewrite app_nil_r in Hp, Hne. pose proof (cut_end 0 pre f Hne) as He. rewrite Ho in He.
    exfalso. apply (Z.lt_irrefl (Z.of_nat (length (concat pre)))), He.
    rewrite <-Hp. apply elem_of_app. by left. }
  destruct (find_fragment (Z.of_nat (length (concat pre))) fragments) as [f|] eqn:Hfind.
  - apply find_fragment_Some in Hfind as Hff. destruct Hff as [Hin Ho].
    pose proof (received_fragment _ _ _ _ _ _ Hr Hin Ho) as ->.
    assert (Z.of_nat (length (concat pre)) + Z.of_nat (length p)
      = Z.of_nat (length (concat (pre ++ [p])))) as Hoff
      by (rewrite concat_app, length_app; cbn; rewrite app_nil_r; lia).
    destruct (IH (pre ++ [p]) (buffer ++ p)) as (k & Hk & Hle & Hall & Hsub);
      [by rewrite <-app_assoc|].
    exists (S k). split_and!; [|cbn; lia|intros Hm; cbn; by rewrite (Hall Hm)|].
    + intros [|fuel] Hf; [lia|]. cbn [find_loop take concat]. rewrite Hfind.
      cbn [qf_offset qf_length qf_payload]. specialize (Hk fuel ltac:(lia)).
      rewrite app_assoc, <-Hk. f_equal. rewrite Hoff. apply Z.mod_small. destruct Hr as (_ & _ & Hlt).
      rewrite <-Hoff. rewrite concat_app, length_app in Hlt. cbn in Hlt.
      rewrite length_app in Hlt. lia.
    + intros f [->|Hg]%elem_of_cons; [done|]. apply Hsub. by rewrite <-Hoff.
  - exists O. split_and!; [|lia| |by intros f ?%not_elem_of_nil].
    + intros [|fuel] Hf; [lia|]. cbn [find_loop take concat]. by rewrite Hfind, app_nil_r.
    + intros ->. exfalso. destruct Hr as (Hp & _ & _). rewrite app_nil_r in Hp.
      apply (find_fragment_None _ _ (mkqCryptoFragment (Z.of_nat (length (concat pre)))
        (Z.of_nat (length p)) p) Hfind); [|done].
      rewrite Hp, cut_app. apply elem_of_app. right. cbn. apply list_elem_of_here.
Qed.

Lemma received_length pieces fragments missing :
  received pieces fragments missing → length pieces = (length fragments + length missing)%nat.
Proof. intros (Hp & _). rewrite <-(cut_length 0 pieces), <-Hp. apply length_app. Qed.

Lemma cut_subset off l fragments : Forall (λ p : list byte, p ≠ []) l →
  (∀ f, f ∈ cut off l → f ∈ fragments) → (length l ≤ length fragments)%nat.
Proof.
  intros Hl Hsub. rewrite <-(cut_length off l). apply submseteq_length.
  apply NoDup_submseteq; [by apply cut_NoDup|done].
Qed.

(** What [reassemble] gives of the fragments received: the first pieces of the stream, all of them
    when none is missing, and not all of them when one is. *)
Lemma reassemble_received pieces fragments missing :
  received pieces fragments missing →
  ∃ k, reassemble fragments = Some (record_header fragments ++ concat (take k pieces)) ∧
    (missing = [] → k = length pieces) ∧ (missing ≠ [] → (k < length pieces)%nat).
Proof.
  intros Hr. destruct (find_loop_received fragments missing pieces [] (record_header fragments) Hr)
    as (k & Hk & Hle & Hall & Hsub). cbn in Hk, Hsub. destruct Hr as (Hp & Hne & Hb).
  assert (length (take k pieces) ≤ length fragments)%nat as Hkl.
  { apply (cut_subset 0); [by apply Forall_take|done]. }
  rewrite length_take_le in Hkl by done.
  exists k. split; [apply Hk; lia|]. split; [done|]. intros Hm.
  pose proof (received_length pieces fragments missing ltac:(done)).
  destruct missing; [done|cbn in *; lia].
Qed.

Definition total (l : list qCryptoFragment) : Z := foldr (λ f s, qf_length f + s) 0 l.

Lemma total_app a b : total (a ++ b) = total a + total b.
Proof. unfold total. induction a as [|f a IH]; [done|]. cbn. rewrite IH. lia. Qed.

Lemma total_perm a b : a ≡ₚ b → total a = total b.
Proof. unfold total. intros Hp. induction Hp; cbn in *; lia. Qed.

Lemma total_cut off l : total (cut off l) = Z.of_nat (length (concat l)).
Proof.
  unfold total. revert off. induction l as [|p l IH]; intros off; cbn; [done|].
  rewrite IH, length_app. lia.
Qed.

Lemma total_nonneg l : Forall (λ f, 0 ≤ qf_length f) l → 0 ≤ total l.
Proof. unfold total. intros Hl. induction Hl; cbn; lia. Qed.

Lemma frame_length_total l : Forall (λ f, 0 ≤ qf_length f) l → total l < 2 ^ 64 →
  frame_length l = total l.
Proof.
  intros Hl Hb. unfold frame_length. enough (∀ n, 0 ≤ n → n + total l < 2 ^ 64 →
    fold_left (λ n fragment, u64 (n + qf_length fragment)) l n = n + total l) as He
    by (rewrite He; lia).
  clear Hb. induction Hl as [|f l Hf Hl IH]; intros n Hn Hb; cbn in *; [lia|].
  pose proof (total_nonneg l Hl). unfold total in *.
  assert (u64 (n + qf_length f) = n + qf_length f) as -> by (apply Z.mod_small; lia).
  rewrite IH; lia.
Qed.

Lemma cut_lengths off l : Forall (λ f, 0 ≤ qf_length f) (cut off l).
Proof. revert off. induction l as [|p l IH]; intros off; constructor; [cbn; lia|apply IH]. Qed.

(** The lengths of the fragments received add up without overflow. *)
Lemma frame_length_received pieces fragments missing :
  received pieces fragments missing →
  is_u 16 (frame_length fragments) ∧
  (missing = [] → frame_length fragments = Z.of_nat (length (concat pieces))).
Proof.
  intros (Hp & Hne & Hb). pose proof (cut_lengths 0 pieces) as Hl.
  rewrite <-Hp in Hl. apply Forall_app in Hl as [Hl1 Hl2].
  pose proof (total_perm _ _ Hp) as Ht. rewrite total_app, total_cut in Ht.
  pose proof (total_nonneg _ Hl1). pose proof (total_nonneg _ Hl2).
  rewrite frame_length_total by (done || lia). unfold is_u. split; [lia|].
  intros ->. cbn in Ht. lia.
Qed.

(** ** From fragments to the server name *)

Lemma Compute_record fragments P : is_u 16 (frame_length fragments) →
  Compute (record_header fragments ++ P)
  = if Z.ltb (Z.of_nat (length P)) (frame_length fragments) then Err (ParseError LengthErr 2)
    else parseHandshake (take (Z.to_nat (frame_length fragments)) P).
Proof.
  intros Hn. set (n := frame_length fragments) in *. unfold Compute, parseSegment.
  assert (u16 n = n) as Hw by (by apply Z.mod_small).
  assert (record_header fragments ++ P = [Z_byte 0x16] ++ be_bytes 2 0x0303 ++ be_bytes 2 n ++ P) as ->
    by (unfold record_header; fold n; rewrite Hw; by rewrite <-!app_assoc).
  set (seg := [Z_byte 0x16] ++ _).
  assert (length seg = (5 + length P)%nat) as Hlen
    by (unfold seg; rewrite !length_app, !be_bytes_length; done).
  rewrite (proj2 (Nat.ltb_ge _ _)) by lia.
  assert (idx seg 0 = Ok 22) as -> by done. cbn [mbind res_bind]. rewrite Z.eqb_refl. cbn [negb].
  assert (idx16 seg 1 = Ok 0x0303) as ->
    by (unfold seg; rewrite idx16_app_r by done; by apply idx16_be).
  cbn [mbind res_bind].
  assert (idx16 seg 3 = Ok n) as ->
    by (unfold seg; rewrite app_assoc, idx16_app_r by done; by apply idx16_be).
  cbn [mbind res_bind].
  assert (slice_from seg 5 = Ok P) as ->
    by (unfold seg; rewrite !app_assoc; by apply slice_from_app).
  done.
Qed.

Lemma idx_take l n i : (i < n)%nat → idx (take n l) i = idx l i.
Proof. intros Hi. unfold idx. by rewrite lookup_take_lt. Qed.

(** A handshake that is cut short is an error. *)
Lemma handshake_prefix h n : hello_ok h → (n < length (hello_handshake h))%nat →
  ∃ e, parseHandshake (take n (hello_handshake h)) = Err e.
Proof.
  intros Hok Hn. destruct (hello_lengths h Hok) as [Hl _]. pose proof (ok_length h Hok) as Hb.
  set (hs := hello_handshake h) in *. set (body := hello_body h) in *. unfold parseHandshake.
  assert (length (take n hs) = n) as Hlen by (apply length_take_le; lia). rewrite Hlen.
  destruct (Nat.ltb_spec n (6 + 32 + 1)) as [|Hge]; [by eexists|].
  destruct (idx24_be (Z.of_nat (length body)) body ltac:(lia)) as (h1 & h2 & h3 & H1 & H2 & H3 & Hlor).
  rewrite !idx_take by lia. assert (idx hs 0 = Ok 1) as -> by done.
  cbn [mbind res_bind Z.eqb Pos.eqb negb].
  assert (idx hs 1 = Ok h1) as -> by exact H1. assert (idx hs 2 = Ok h2) as -> by exact H2.
  assert (idx hs 3 = Ok h3) as -> by exact H3. cbn [mbind res_bind]. rewrite Hlor.
  rewrite slice_from_le by lia. cbn [mbind res_bind].
  rewrite (proj2 (Z.eqb_neq _ _)) by (rewrite length_drop, Hlen; lia). by eexists.
Qed.

Lemma take_concat_lt (pieces : list (list byte)) k :
  Forall (λ p, p ≠ []) pieces → (k < length pieces)%nat →
  ∃ n, (n < length (concat pieces))%nat ∧ concat (take k pieces) = take n (concat pieces).
Proof.
  intros Hne Hk. exists (length (concat (take k pieces))).
  assert (concat pieces = concat (take k pieces) ++ concat (drop k pieces)) as Hc
    by (by rewrite <-concat_app, take_drop).
  split; [|by rewrite Hc, take_app_length]. rewrite Hc, length_app. destruct (drop k pieces) as [|p l] eqn:Hd.
  - apply (f_equal length) in Hd. rewrite length_drop in Hd. cbn in Hd. lia.
  - apply (Forall_drop _ k) in Hne. rewrite Hd in Hne. apply List.Forall_cons_iff in Hne as [Hp _].
    cbn. rewrite length_app. destruct p; [done|cbn; lia].
Qed.

(** C15: a ClientHello cut into CRYPTO frames that arrive in any order, over any number of packets, is
    recognised exactly when its last fragment has arrived: until then the sniffer asks for more and
    keeps what it has, and then it has the server name; the fragments are put together in the order
    of the stream. *)
Theorem quic_hello h pieces fragments missing types metadata :
  hello_ok h → concat pieces = hello_handshake h → types ≠ [] →
  received pieces (fragments ++ default [] (ic_SniffContext metadata)) missing →
  let '(result, metadata') := sniff_fragments types fragments metadata in
  ic_Protocol metadata' = "quic"%string ∧
  if decide (missing = []) then
    result = Ok tt ∧ ic_Domain metadata' = ch_ServerName (hello_read h) ∧
    ic_SniffContext metadata' = None
  else
    (∃ e, result = Err (need_more e)) ∧ ic_Domain metadata' = ic_Domain metadata ∧
    ic_SniffContext metadata' = Some (fragments ++ default [] (ic_SniffContext metadata)).
Proof.
  intros Hok Hcat Htypes Hr. unfold sniff_fragments.
  set (all := fragments ++ default [] (ic_SniffContext metadata)) in *.
  destruct (reassemble_received _ _ _ Hr) as (k & -> & Hall & Hsome).
  destruct (frame_length_received _ _ _ Hr) as [Hu Hlen]. rewrite Compute_record by done.
  destruct (decide (missing = [])) as [Hm|Hm].
  - rewrite (Hall Hm), firstn_all, Hcat, (Hlen Hm), Hcat, Z.ltb_irrefl, Nat2Z.id, firstn_all.
    rewrite read_handshake by done. cbn [ic_Client].
    destruct (negb (String.eqb _ "")); [done|].
    assert (∃ c, quic_client types (hello_read h) = Ok c) as [c ->]; [|done].
    unfold quic_client. destruct types; [done|]. by repeat case_match; eexists.
  - destruct Hr as (_ & Hne & _). destruct (take_concat_lt pieces k Hne (Hsome Hm)) as (n & Hn & ->).
    assert (∃ e, (if Z.ltb (Z.of_nat (length (take n (concat pieces)))) (frame_length all)
      then Err (ParseError LengthErr 2)
      else parseHandshake (take (Z.to_nat (frame_length all)) (take n (concat pieces)))) = Err e)
      as [e ->].
    { destruct (Z.ltb _ _); [by eexists|]. rewrite take_take, Hcat. apply handshake_prefix; [done|].
      rewrite Hcat in Hn. lia. }
    split; [done|]. split; [by eexists|done].
Qed.

(** ** The loop that looks for fragments *)

(** The fragments at an offset or after it. *)
Definition from_offset (index : Z) (l : list qCryptoFragment) : nat :=
  length (filter (λ f, index ≤ qf_offset f) l).

Lemma from_offset_lt index next l f : f ∈ l → qf_offset f = index → index < next →
  (from_offset next l < from_offset index l)%nat.
Proof.
  unfold from_offset. intros Hf Ho Hlt. induction Hf as [f l|f g l Hf IH].
  - rewrite !filter_cons, decide_False, decide_True by lia. cbn.
    assert (from_offset next l ≤ from_offset index l)%nat as Hle; [|unfold from_offset in Hle; lia].
    unfold from_offset. clear -Hlt. induction l as [|g l IH]; [done|]. rewrite !filter_cons.
    destruct (decide (next ≤ qf_offset g)); destruct (decide (index ≤ qf_offset g)); cbn; lia.
  - specialize (IH Ho). rewrite !filter_cons.
    destruct (decide (next ≤ qf_offset g)); destruct (decide (index ≤ qf_offset g)); cbn; lia.
Qed.

(** Putting fragments together ends, whatever their order, overlaps and repetitions, when none
    is empty (and none ends past 2^64): one turn per fragment is enough. *)
Theorem reassemble_ends fragments :
  Forall (λ f, 0 < qf_length f ∧ qf_offset f + qf_length f < 2 ^ 64 ∧ 0 ≤ qf_offset f) fragments →
  ∃ buffer, reassemble fragments = Some buffer.
Proof.
  intros Hl. unfold reassemble.
  assert (∀ fuel index buffer, (from_offset index fragments < fuel)%nat →
    ∃ b, find_loop fuel fragments index buffer = Some b) as Hf.
  { induction fuel as [|fuel IH]; intros index buffer Hf; [lia|]. cbn [find_loop].
    destruct (find_fragment index fragments) as [f|] eqn:Hff; [|by eexists].
    apply find_fragment_Some in Hff as [Hin Ho]. destruct (Forall_elem _ _ _ Hl Hin) as (H1 & H2 & H3).
    apply IH. assert (u64 (qf_offset f + qf_length f) = qf_offset f + qf_length f) as ->
      by (apply Z.mod_small; lia).
    pose proof (from_offset_lt index (qf_offset f + qf_length f) _ f Hin Ho ltac:(lia)). lia. }
  apply Hf. unfold from_offset. pose proof (length_filter (λ f, 0 ≤ qf_offset f) fragments). lia.
Qed.

(** An empty fragment where the loop has arrived keeps it there for ever. *)
Theorem empty_fragment_endless fragments payload fuel :
  find_loop fuel (mkqCryptoFragment 0 0 payload :: fragments) 0 [] = None.
Proof.
  generalize (@nil byte) as buffer. induction fuel as [|fuel IH]; intros buffer; [done|].
  cbn [find_loop find_fragment qf_offset qf_length qf_payload Z.eqb Z.add]. apply IH.
Qed.

(** ** Frames: a reference encoder *)

(** The frames of RFC 9000 that the sniffer knows. *)
Inductive Frame : Type :=
| FPadding
| FPing
| FAck (largest delay first : Z) (ranges : list (Z * Z)) (ecn : option (Z * Z * Z))
| FCrypto (offset : Z) (data : list byte)
| FConnectionClose (code type : Z) (reason : list byte).

Definition frame_type (f : Frame) : Z :=
  match f with
  | FPadding => 0x00 | FPing => 0x01
  | FAck _ _ _ _ ecn => match ecn with None => 0x02 | Some _ => 0x03 end
  | FCrypto _ _ => 0x06 | FConnectionClose _ _ _ => 0x1c
  end.
Definition frame_body (f : Frame) : list byte :=
  match f with
  | FPadding | FPing => []
  | FAck largest delay first ranges ecn =>
      (quic_varint largest ++ quic_varint delay) ++ quic_varint (Z.of_nat (length ranges)) ++
      quic_varint first ++ concat ((λ r, quic_varint r.1 ++ quic_varint r.2) <$> ranges) ++
      match ecn with
      | None => []
      | Some (a, b, c) => quic_varint a ++ quic_varint b ++ quic_varint c
      end
  | FCrypto offset data => quic_varint offset ++ quic_varint (Z.of_nat (length data)) ++ data
  | FConnectionClose code type reason =>
      (quic_varint code ++ quic_varint type) ++ quic_varint (Z.of_nat (length reason)) ++ reason
  end.
Definition frame_bytes (f : Frame) : list byte := Z_byte (frame_type f) :: frame_body f.
Definition frame_fragments (f : Frame) : list qCryptoFragment :=
  match f with
  | FCrypto offset data => [mkqCryptoFragment offset (Z.of_nat (length data)) data]
  | _ => []
  end.

Definition is_u62 (z : Z) : Prop := 0 ≤ z < 2 ^ 62.
Definition frame_ok (f : Frame) : Prop :=
  match f with
  | FPadding | FPing => True
  | FAck largest delay first ranges ecn =>
      is_u62 largest ∧ is_u62 delay ∧ is_u62 first ∧ is_u62 (Z.of_nat (length ranges)) ∧
      Forall (λ r, is_u62 r.1 ∧ is_u62 r.2) ranges ∧
      match ecn with Some (a, b, c) => is_u62 a ∧ is_u62 b ∧ is_u62 c | None => True end
  | FCrypto offset data => is_u62 offset ∧ is_u62 (Z.of_nat (length data))
  | FConnectionClose code type reason =>
      is_u62 code ∧ is_u62 type ∧ is_u62 (Z.of_nat (length reason))
  end.

Lemma reads_skip l : Forall is_u62 l → reads (skip_uvarints (length l)) (concat (quic_varint <$> l)) tt.
Proof.
  intros Hl. unfold skip_uvarints. rewrite <-(app_nil_r (concat _)).
  eapply reads_bind; [|apply reads_ret]. apply reads_times. intros v _ Hv.
  apply reads_quic_varint, (Forall_elem _ _ _ Hl Hv).
Qed.

Ltac u62_list := repeat first [apply List.Forall_nil|apply List.Forall_cons; [assumption|]].

Lemma reads_skip2 a b : is_u62 a → is_u62 b → reads (skip_uvarints 2) (quic_varint a ++ quic_varint b) tt.
Proof.
  intros Ha Hb. pose proof (reads_skip [a; b] ltac:(u62_list)) as Hr. cbn in Hr.
  by rewrite app_nil_r in Hr.
Qed.

Lemma reads_seek l : reads (Seek (Z.of_nat (length l))) l tt.
Proof. intros rest. unfold Seek. by rewrite Nat2Z.id, drop_app_length. Qed.

Lemma reads_ack largest delay first ranges ecn :
  frame_ok (FAck largest delay first ranges ecn) →
  reads (read_ack (frame_type (FAck largest delay first ranges ecn)))
    (frame_body (FAck largest delay first ranges ecn)) tt.
Proof.
  intros (Hl & Hd & Hf & Hn & Hr & He). unfold read_ack. cbn [frame_body].
  eapply reads_bind; [by apply reads_skip2|]. eapply reads_bind; [by apply reads_quic_varint|].
  eapply reads_bind.
  { pose proof (reads_skip [first] ltac:(u62_list)) as Hs. cbn in Hs.
    rewrite app_nil_r in Hs. exact Hs. }
  rewrite Nat2Z.id. eapply reads_bind.
  { apply (reads_times_map _ (λ r, quic_varint r.1 ++ quic_varint r.2) (λ _, tt)).
    intros r _ Hin. destruct (Forall_elem _ _ _ Hr Hin). by apply reads_skip2. }
  destruct ecn as [[[a b] c]|]; cbn [frame_type Z.eqb Pos.eqb]; [|apply reads_ret].
  destruct He as (Ha & Hb & Hc).
  pose proof (reads_skip [a; b; c] ltac:(u62_list)) as Hs. cbn in Hs.
  by rewrite app_nil_r in Hs.
Qed.

Lemma reads_crypto spare offset data : frame_ok (FCrypto offset data) →
  reads (read_crypto spare) (frame_body (FCrypto offset data))
    (mkqCryptoFragment offset (Z.of_nat (length data)) data).
Proof.
  intros [Ho Hd]. unfold read_crypto. cbn [frame_body].
  eapply reads_bind; [by apply reads_quic_varint|]. eapply reads_bind; [by apply reads_quic_varint|].
  intros rest. unfold mbind, Reader_bind.
  rewrite (proj2 (Z.ltb_ge _ _)) by (rewrite !length_app; lia).
  rewrite Nat2Z.id, <-app_assoc, take_app_length, (reads_seek data). done.
Qed.

Lemma reads_connection_close code type reason : frame_ok (FConnectionClose code type reason) →
  reads read_connection_close (frame_body (FConnectionClose code type reason)) tt.
Proof.
  intros (Hc & Ht & Hr). unfold read_connection_close. cbn [frame_body].
  eapply reads_bind; [by apply reads_skip2|]. eapply reads_bind; [by apply reads_quic_varint|].
  apply reads_seek.
Qed.

(** The frames of a packet are read as they were written: the types in order, and a fragment for
    every CRYPTO frame, whatever acknowledgements, pings, paddings and closes are between them. *)
Theorem read_frames_encoded frames spare :
  Forall frame_ok frames →
  let bytes := concat (frame_bytes <$> frames) in
  (read_frames (S (length bytes)) spare bytes).1
  = Ok (frame_type <$> frames, concat (frame_fragments <$> frames)).
Proof.
  intros Hl bytes. enough (∀ fuel, (length bytes < fuel)%nat → read_frames fuel spare bytes
    = (Ok (frame_type <$> frames, concat (frame_fragments <$> frames)), [])) as He
    by (by rewrite He by lia).
  unfold bytes. clear bytes. induction Hl as [|f frames Hf Hl IH]; intros [|fuel] Hfuel;
    [cbn in Hfuel; lia|done|cbn in Hfuel; lia|].
  change (concat (frame_bytes <$> f :: frames))
    with (Z_byte (frame_type f) :: frame_body f ++ concat (frame_bytes <$> frames)) in *.
  cbn [length] in Hfuel. rewrite length_app in Hfuel. specialize (IH fuel ltac:(lia)).
  set (rest := concat (frame_bytes <$> frames)) in *. cbn [read_frames].
  rewrite byte_Z_small by (destruct f as [| |? ? ? ? []| |]; cbn; lia).
  assert (∀ fragments, frame_next (frame_type f) fragments (read_frames fuel spare) rest
    = (Ok (frame_type f :: (frame_type <$> frames),
           fragments ++ concat (frame_fragments <$> frames)), [])) as Hnext.
  { intros fragments. unfold frame_next, mbind, Reader_bind. by rewrite IH. }
  destruct f as [| |l d first ranges ecn|offset data|code type reason]; cbn [frame_body app].
  - apply (Hnext []).
  - apply (Hnext []).
  - assert ((Z.eqb (frame_type (FAck l d first ranges ecn)) frameTypePadding ||
      Z.eqb (frame_type (FAck l d first ranges ecn)) frameTypePing)%bool = false) as ->
      by (by destruct ecn as [[[]]|]).
    assert ((Z.eqb (frame_type (FAck l d first ranges ecn)) frameTypeAck ||
      Z.eqb (frame_type (FAck l d first ranges ecn)) frameTypeAck2)%bool = true) as ->
      by (by destruct ecn as [[[]]|]).
    unfold mbind at 1, Reader_bind at 1. rewrite (reads_ack _ _ _ _ _ Hf). apply (Hnext []).
  - cbn [frame_type Z.eqb Pos.eqb orb frameTypePadding frameTypePing frameTypeAck frameTypeAck2
      frameTypeCrypto]. unfold mbind at 1, Reader_bind at 1. rewrite (reads_crypto spare _ _ Hf).
    apply Hnext.
  - cbn [frame_type Z.eqb Pos.eqb orb frameTypePadding frameTypePing frameTypeAck frameTypeAck2
      frameTypeCrypto frameTypeConnectionClose].
    unfold mbind at 1, Reader_bind at 1. rewrite (reads_connection_close _ _ _ Hf). apply (Hnext []).
Qed.

(** ** Concrete packets *)

(** The two halves of a ClientHello, the second one first. *)
Definition hello_pieces : list (list byte) :=
  [take 20 (hello_handshake named_hello); drop 20 (hello_handshake named_hello)].
Definition half (i : nat) : list qCryptoFragment := take 1 (drop i (cut 0 hello_pieces)).

Lemma quic_hello_witness :
  let metadata := InboundContext_zero <| ic_SniffContext := Some (half 1) |> in
  (sniff_fragments [frameTypeCrypto] (half 0) metadata).1 = Ok tt ∧
  ic_Domain (sniff_fragments [frameTypeCrypto] (half 0) metadata).2 = "a.test"%string.
Proof.
  intros metadata. pose proof (quic_hello named_hello hello_pieces (half 0) [] [frameTypeCrypto]
    metadata named_hello_ok (take_drop 20 _) ltac:(discriminate)) as Hq.
  destruct (sniff_fragments [frameTypeCrypto] (half 0) metadata) as [r m].
  destruct Hq as (_ & Hr & Hd & _); [|split; [exact Hr|exact Hd]].
  split; [reflexivity|]. split; [|reflexivity].
  constructor; [discriminate|]. constructor; [discriminate|constructor].
Defined.

Lemma reassemble_ends_witness : ∃ buffer, reassemble (half 1 ++ half 1) = Some buffer.
Proof.
  apply reassemble_ends. repeat constructor; cbn; lia.
Defined.

Lemma read_frames_encoded_witness :
  let frames := [FPing; FAck 7 1 2 [(3, 4)] None; FCrypto 5 [x01; x02]; FPadding] in
  let bytes := concat (frame_bytes <$> frames) in
  (read_frames (S (length bytes)) [] bytes).1
  = Ok ([1; 2; 6; 0], [mkqCryptoFragment 5 2 [x01; x02]]).
Proof.
  intros frames bytes. apply (read_frames_encoded frames []).
  repeat constructor; unfold is_u62; cbn; lia.
Defined.

(** A fragment that is received twice makes the record longer than its bytes: the ClientHello is
    never recognised. *)
Lemma duplicate_never_complete :
  match sniff_fragments [frameTypeCrypto] (half 0 ++ half 1 ++ half 0) InboundContext_zero with
  | (Err e, _) => errors_Is e ErrNeedMoreData = true
  | _ => False
  end.
Proof. vm_compute. reflexivity. Qed.

(** A length that is longer than the packet is sliced before it is checked. *)
Lemma crypto_length_panics :
  (read_frames 9 [] (Z_byte 0x06 :: quic_varint 0 ++ quic_varint 5 ++ [x00])).1
  = Panic [AStr "slice bounds out of range"].
Proof. vm_compute. reflexivity. Qed.
