(* ===== verification/Sniffers.v ===== *)
(** * The sniffers (common/sniff: bittorrent.go, dns.go, dtls.go, http.go, ntp.go, rdp.go, ssh.go,
    stun.go, tls.go)

    What each sniffer recognises.  A stream sniffer answers that it needs more when the payload is
    cut short; the last section shows what that is for: that the result of a sniff does not depend on
    how the bytes are split into reads. *)

From stdpp Require Import base gmap strings list numbers.
From S2P Require Import Prelude GoStd Netip GoIO Adapter RuleAction Sniffing.

Local Open Scope Z_scope.

(** Of github.com/miekg/dns, sing/protocol/http, sing/common/metadata and crypto/tls: what a handshake
    reads of a payload is the server name of a ClientHello, if it gets that far, and an error; and of
    sing/common/buf, the room of a packet buffer. *)
Class SniffersLib `{ExtLib} `{ActionLib} := {
  NewPacket_size : nat;
  NewPacket_size_pos : (0 < NewPacket_size)%nat;
  msg_Unpack : list byte → res Msg;
  http_ReadRequest : list byte → res string;
  ParseSocksaddr : string → Socksaddr;
  tls_Handshake : list byte → option string * error
}.

Section Sniffers.
Context `{ExtLib} `{ActionLib} `{!SniffersLib}.

(** A sniffer that reads, and sets the protocol when it gets through. *)
Definition sniffed (protocol : string) (r : Reader ()) (payload : list byte)
    (metadata : InboundContext) : option error * InboundContext :=
  match (r payload).1 with
  | Ok _ => (None, metadata <| ic_Protocol := protocol |>)
  | Err e => (Some e, metadata)
  | Panic _ => (Some (E_Ext "panic"), metadata)
  end.

(** [if err != nil { return E.Cause1(ErrNeedMoreData, err) }] *)
Definition need {A} (r : Reader A) : Reader A := λ s,
  match r s with (Err e, s') => (Err (need_more e), s') | p => p end.
Definition invalid {A} : Reader A := of_res (Err os_ErrInvalid).

(** A number that has to have one value. *)
Definition expect (n : nat) (value : Z) : Reader () :=
  v ← need (ReadBE n); if negb (Z.eqb v value) then invalid else mret tt.

(** ** Streams *)

(** [common/sniff/rdp.go:16-88] RDP (checks) *)
Definition RDP_reader : Reader () :=
  _ ← expect 1 0x03;
  _ ← expect 1 0x00;
  _ ← expect 2 19;
  _ ← expect 1 14;
  _ ← expect 1 0xE0;
  _ ← need (SkipN 5);
  _ ← expect 1 0x01;
  _ ← need (ReadBE 1);
  expect 1 8.
(** [common/sniff/rdp.go:15-91] RDP *)
Definition RDP (metadata : InboundContext) (buffers : list (list byte))
    : option error * InboundContext := sniffed "rdp" RDP_reader (concat buffers) metadata.

(** [Peek] and [ReadLine] of a [bufio.Reader] with its buffer of 4096 bytes: a line that does not
    end within it is cut, without a carriage return at the cut; one that the stream ends is
    returned as it is. *)
Definition trim_cr (line : list byte) : list byte :=
  match rev line with
  | c :: rest => if Z.eqb (byte_Z c) 13 then rev rest else line
  | [] => line
  end.
Definition ReadLine (s : list byte) : list byte :=
  let window := take 4096 s in
  let line := take_while (λ b, negb (Z.eqb (byte_Z b) 10)) window in
  if Nat.ltb (length line) (length window) then trim_cr line
  else if Nat.eqb (length window) 4096 then trim_cr line else line.

Definition sshPrefix : list byte := bytes_of_string "SSH-2.0-".

(** [common/sniff/ssh.go:14-31] SSH *)
Definition SSH (metadata : InboundContext) (buffers : list (list byte))
    : option error * InboundContext :=
  let payload := concat buffers in
  let prefix := take 8 payload in
  if negb (bool_decide (byte_Z <$> prefix = byte_Z <$> take (length prefix) sshPrefix))
  then (Some os_ErrInvalid, metadata) else
  if Nat.ltb (length prefix) 8 then (Some (need_more io_EOF), metadata) else
  (None, metadata <| ic_Protocol := "ssh"%string |>
                  <| ic_Client := string_of_bytes (drop 8 (ReadLine payload)) |>).

(** One byte of the buffers, and one [Read] of an [io.MultiReader]: it reads from one buffer only. *)
Fixpoint read_first (buffers : list (list byte)) : option (byte * list (list byte)) :=
  match buffers with
  | [] => None
  | [] :: buffers => read_first buffers
  | (b :: buffer) :: buffers => Some (b, buffer :: buffers)
  end.
Fixpoint read_once (n : nat) (buffers : list (list byte)) : option (list byte) :=
  match buffers with
  | [] => None
  | [] :: buffers => read_once n buffers
  | buffer :: _ => Some (take n buffer)
  end.

Definition bittorrent_header : list byte := bytes_of_string "BitTorrent protocol".

(** [common/sniff/bittorrent.go:23-50] BitTorrent *)
Definition BitTorrent (metadata : InboundContext) (buffers : list (list byte))
    : option error * InboundContext :=
  match read_first buffers with
  | None => (Some (need_more io_EOF), metadata)
  | Some (first, buffers) =>
      if negb (Z.eqb (byte_Z first) 19) then (Some os_ErrInvalid, metadata) else
      let protocol := read_once 19 buffers in
      let n := length (default [] protocol) in
      if negb (bool_decide (byte_Z <$> default [] protocol = byte_Z <$> take n bittorrent_header))
      then (Some os_ErrInvalid, metadata) else
      match protocol with
      | None => (Some (need_more io_EOF), metadata)
      | Some _ =>
          if Nat.ltb n 19 then (Some ErrNeedMoreData, metadata)
          else (None, metadata <| ic_Protocol := "bittorrent"%string |>)
      end
  end.

(** A message that is not a query is no error, and sets no protocol.

    [common/sniff/dns.go:49-57] DomainNameQuery *)
Definition DomainNameQuery (metadata : InboundContext) (packet : list byte)
    : option error * InboundContext :=
  match msg_Unpack packet with
  | Ok msg =>
      if msg_Response msg || negb (nonempty (msg_Question msg)) || nonempty (msg_Answer msg) ||
         nonempty (msg_Ns msg)
      then (None, metadata) else (None, metadata <| ic_Protocol := "dns"%string |>)
  | Err e => (Some e, metadata)
  | Panic _ => (Some (E_Ext "panic"), metadata)
  end.

(** A byte of the packet, as far as it was received, that has to be zero under a mask. *)
Definition zero_at (packet : list byte) (i : nat) (mask : Z) : bool :=
  match packet !! i with Some b => Z.eqb (Z.land (byte_Z b) mask) 0 | None => true end.

(** The counts that are wrong in what was received of the packet.

    [common/sniff/dns.go:30-42] StreamDomainNameQuery (header) *)
Definition dns_header_invalid (packet : list byte) : bool :=
  negb (zero_at packet 2 0x80) ||
  match packet !! 4%nat, packet !! 5%nat with
  | Some a, Some b => Z.eqb (byte_Z a) 0 && Z.eqb (byte_Z b) 0
  | _, _ => false
  end ||
  existsb (λ i, negb (zero_at packet i 0xff)) [6; 7; 8; 9]%nat.

(** [common/sniff/dns.go:18-43] StreamDomainNameQuery (packet) *)
Definition read_dns_packet : Reader (list byte) :=
  length' ← need (ReadBE 2);
  if Z.ltb length' 12 then invalid else λ s,
  let packet := take (Z.to_nat length') s in
  if dns_header_invalid packet then (Err os_ErrInvalid, []) else
  need (ReadFull (Z.to_nat length')) s.

(** [common/sniff/dns.go:17-47] StreamDomainNameQuery *)
Definition StreamDomainNameQuery (metadata : InboundContext) (buffers : list (list byte))
    : option error * InboundContext :=
  match (read_dns_packet (concat buffers)).1 with
  | Ok packet => DomainNameQuery metadata packet
  | Err e => (Some e, metadata)
  | Panic _ => (Some (E_Ext "panic"), metadata)
  end.

(** [common/sniff/http.go:16-28] HTTPHost *)
Definition HTTPHost (metadata : InboundContext) (buffers : list (list byte))
    : option error * InboundContext :=
  match http_ReadRequest (concat buffers) with
  | Ok host =>
      (None, metadata <| ic_Protocol := "http"%string |>
                      <| ic_Domain := Socksaddr_AddrString (ParseSocksaddr host) |>)
  | Err e => (Some (if errors_Is e io_ErrUnexpectedEOF then need_more e else e), metadata)
  | Panic _ => (Some (E_Ext "panic"), metadata)
  end.

(** [common/sniff/tls.go:15-33] TLSClientHello *)
Definition TLSClientHello (metadata : InboundContext) (buffers : list (list byte))
    : option error * InboundContext :=
  match tls_Handshake (concat buffers) with
  | (Some serverName, _) =>
      (None, metadata <| ic_Protocol := "tls"%string |> <| ic_Domain := serverName |>)
  | (None, e) => (Some (if errors_Is e io_ErrUnexpectedEOF then need_more e else e), metadata)
  end.

(** ** Packets *)

Definition byte_at (packet : list byte) (i : nat) : Z := byte_Z (default x00 (packet !! i)).
Definition number_at (packet : list byte) (i n : nat) : Z := be_val (take n (drop i packet)).

(** The extensions are a list in which each names the next; each takes at least two bytes.

    [common/sniff/bittorrent.go:72-88] UTP (extensions) *)
Fixpoint utp_extensions (fuel : nat) (extension : Z) : Reader () :=
  match fuel with
  | O => of_res (Panic [AStr "out of fuel"])
  | S fuel =>
      if Z.eqb extension 0 then mret tt else
      extension ← ReadBE 1;
      if Z.ltb 0x04 extension then invalid else
      length' ← ReadBE 1;
      _ ← Seek length';
      utp_extensions fuel extension
  end.

(** [common/sniff/bittorrent.go:56-91] UTP *)
Definition UTP (metadata : InboundContext) (packet : list byte) : option error * InboundContext :=
  if Nat.ltb (length packet) 20 then (Some os_ErrInvalid, metadata) else
  let version := Z.land (byte_at packet 0) 0x0F in
  let ty := Z.shiftr (byte_at packet 0) 4 in
  if negb (Z.eqb version 1) || Z.ltb 4 ty then (Some os_ErrInvalid, metadata) else
  sniffed "bittorrent" (utp_extensions (S (length packet)) (byte_at packet 1)) (drop 20 packet)
    metadata.

(** [common/sniff/bittorrent.go:95-107] UDPTracker *)
Definition UDPTracker (metadata : InboundContext) (packet : list byte)
    : option error * InboundContext :=
  if Nat.ltb (length packet) 16 then (Some os_ErrInvalid, metadata) else
  if negb (Z.eqb (number_at packet 0 8) 0x41727101980) then (Some os_ErrInvalid, metadata) else
  if negb (Z.eqb (number_at packet 8 4) 0) then (Some os_ErrInvalid, metadata) else
  (None, metadata <| ic_Protocol := "bittorrent"%string |>).

(** [common/sniff/dtls.go:11-32] DTLSRecord *)
Definition DTLSRecord (metadata : InboundContext) (packet : list byte)
    : option error * InboundContext :=
  if Nat.ltb (length packet) 13 then (Some os_ErrInvalid, metadata) else
  if negb (existsb (Z.eqb (byte_at packet 0)) [20; 21; 22; 23; 25])
  then (Some os_ErrInvalid, metadata) else
  if negb (Z.eqb (byte_at packet 1) 0xfe) then (Some os_ErrInvalid, metadata) else
  if negb (Z.eqb (byte_at packet 2) 0xff) && negb (Z.eqb (byte_at packet 2) 0xfd)
  then (Some os_ErrInvalid, metadata) else
  (None, metadata <| ic_Protocol := "dtls"%string |>).

(** [float64(x)/65536.0 > 16.0] is exact for 32 bits.

    [common/sniff/ntp.go:12-58] NTP *)
Definition NTP (metadata : InboundContext) (packet : list byte) : option error * InboundContext :=
  if Nat.ltb (length packet) 48 then (Some os_ErrInvalid, metadata) else
  let firstByte := byte_at packet 0 in
  let li := Z.land (Z.shiftr firstByte 6) 0x03 in
  let vn := Z.land (Z.shiftr firstByte 3) 0x07 in
  let mode := Z.land firstByte 0x07 in
  if Z.ltb 3 li then (Some os_ErrInvalid, metadata) else
  if negb (Z.eqb vn 3) && negb (Z.eqb vn 4) then (Some os_ErrInvalid, metadata) else
  if negb (Z.eqb mode 3) then (Some os_ErrInvalid, metadata) else
  if Z.ltb (16 * 65536) (number_at packet 4 4) then (Some os_ErrInvalid, metadata) else
  if Z.ltb (16 * 65536) (number_at packet 8 4) then (Some os_ErrInvalid, metadata) else
  (None, metadata <| ic_Protocol := "ntp"%string |>).

(** [common/sniff/stun.go:12-25] STUNMessage *)
Definition STUNMessage (metadata : InboundContext) (packet : list byte)
    : option error * InboundContext :=
  if Nat.ltb (length packet) 20 then (Some os_ErrInvalid, metadata) else
  if negb (Z.eqb (number_at packet 4 4) 0x2112A442) then (Some os_ErrInvalid, metadata) else
  if Z.ltb (Z.of_nat (length packet)) (20 + number_at packet 2 2)
  then (Some os_ErrInvalid, metadata) else
  (None, metadata <| ic_Protocol := "stun"%string |>).

(** ** The sniffers by name

    The QUIC sniffer, which can panic, is that of Quic.v; here it is a parameter. *)
Definition ProtocolSniffers
    (quic : InboundContext → list byte → option error * InboundContext) : Sniffers := {|
  PacketSize := NewPacket_size;
  PacketSize_pos := NewPacket_size_pos;
  run_StreamSniffer s :=
    match s with
    | SS_TLSClientHello => TLSClientHello
    | SS_HTTPHost => HTTPHost
    | SS_StreamDomainNameQuery => StreamDomainNameQuery
    | SS_BitTorrent => BitTorrent
    | SS_SSH => SSH
    | SS_RDP => RDP
    end;
  run_PacketSniffer s :=
    match s with
    | PS_DomainNameQuery => DomainNameQuery
    | PS_QUICClientHello => quic
    | PS_STUNMessage => STUNMessage
    | PS_UTP => UTP
    | PS_UDPTracker => UDPTracker
    | PS_DTLSRecord => DTLSRecord
    | PS_NTP => NTP
    end
|}.

End Sniffers.

(** ** Verdicts that more bytes do not change *)

Section Verdicts.
Context `{ExtLib} `{ActionLib} `{!SniffersLib}.

(** What a reader says of a payload it says of every longer one, unless it asked for more. *)
Definition settled {A} (r : Reader A) : Prop := ∀ p q,
  match r p with
  | (Ok a, rest) => r (p ++ q) = (Ok a, rest ++ q)
  | (Err e, _) => errors_Is e ErrNeedMoreData = true ∨ (r (p ++ q)).1 = Err e
  | (Panic _, _) => False
  end.

Lemma need_more_Is e : errors_Is (need_more e) ErrNeedMoreData = true.
Proof. reflexivity. Qed.

Lemma settled_bind {A B} (r : Reader A) (k : A → Reader B) :
  settled r → (∀ a, settled (k a)) → settled (r ≫= k).
Proof.
  intros Hr Hk p q. specialize (Hr p q). unfold mbind, Reader_bind.
  destruct (r p) as [[a|e|m] rest]; [|destruct Hr as [?|Hr]|done].
  - rewrite Hr. apply Hk.
  - by left.
  - right. destruct (r (p ++ q)) as [[]]; cbn in *; congruence.
Qed.

Lemma settled_ret {A} (a : A) : settled (mret a).
Proof. by intros p q. Qed.

Lemma settled_invalid {A} : settled (@invalid A).
Proof. intros p q. by right. Qed.

Lemma settled_need_full n : settled (need (ReadFull n)).
Proof.
  intros p q. unfold need, ReadFull. destruct (Nat.ltb_spec (length (take n p)) n) as [|Hn];
    [cbv iota; left; apply need_more_Is|].
  rewrite length_take in Hn. rewrite (proj2 (Nat.ltb_ge _ _)) by (rewrite length_take, length_app; lia).
  by rewrite take_app_le, drop_app_le by lia.
Qed.

Lemma need_fmap {A B} (f : A → B) (r : Reader A) s : need (f <$> r) s = (f <$> need r) s.
Proof. unfold need, fmap, Reader_fmap. by destruct (r s) as [[]]. Qed.

Lemma settled_fmap {A B} (f : A → B) (r : Reader A) : settled r → settled (f <$> r).
Proof.
  intros Hr p q. specialize (Hr p q). unfold fmap, Reader_fmap.
  destruct (r p) as [[a|e|m] rest]; [by rewrite Hr| |done]. destruct Hr as [?|Hr]; [by left|right].
  destruct (r (p ++ q)) as [[]]; cbn in *; congruence.
Qed.

Lemma settled_need_be n : settled (need (ReadBE n)).
Proof.
  intros p q. unfold ReadBE. rewrite !need_fmap. apply settled_fmap, settled_need_full.
Qed.

Lemma settled_expect n v : settled (expect n v).
Proof.
  apply settled_bind; [apply settled_need_be|]. intros w. destruct (negb _);
    [apply settled_invalid|apply settled_ret].
Qed.

Lemma settled_need_skip n : settled (need (SkipN n)).
Proof.
  intros p q. unfold need, SkipN. destruct (Z.ltb_spec (Z.of_nat (length p)) n) as [|Hn];
    [cbv iota; left; apply need_more_Is|].
  rewrite (proj2 (Z.ltb_ge _ _)) by (rewrite length_app; lia). by rewrite drop_app_le by lia.
Qed.

Lemma settled_RDP : settled RDP_reader.
Proof.
  unfold RDP_reader.
  do 8 (apply settled_bind;
    [first [apply settled_expect|apply settled_need_skip|apply settled_need_be]|intros _]).
  apply settled_expect.
Qed.

Lemma zero_at_app p q i m : negb (zero_at p i m) = true → negb (zero_at (p ++ q) i m) = true.
Proof.
  unfold zero_at. destruct (p !! i) as [b|] eqn:Hb; [|done]. by rewrite (lookup_app_l_Some _ _ _ _ Hb).
Qed.

Lemma dns_header_invalid_app p q :
  dns_header_invalid p = true → dns_header_invalid (p ++ q) = true.
Proof.
  unfold dns_header_invalid. rewrite !orb_true_iff. intros [[Hz|Hc]|Hx].
  - left. left. by apply zero_at_app.
  - left. right. destruct (p !! 4%nat) as [a|] eqn:Ha; [|done].
    destruct (p !! 5%nat) as [b|] eqn:Hb; [|done].
    by rewrite (lookup_app_l_Some _ _ _ _ Ha), (lookup_app_l_Some _ _ _ _ Hb).
  - right. rewrite existsb_exists in *. destruct Hx as (i & Hi & Hz). exists i.
    split; [done|by apply zero_at_app].
Qed.

Lemma settled_dns_packet : settled read_dns_packet.
Proof.
  unfold read_dns_packet. apply settled_bind; [apply settled_need_be|]. intros n.
  destruct (Z.ltb n 12); [apply settled_invalid|]. intros p q. cbv zeta.
  destruct (dns_header_invalid (take (Z.to_nat n) p)) eqn:Hd.
  { right. destruct (Nat.le_ge_cases (Z.to_nat n) (length p)) as [Hle|Hge].
    - by rewrite take_app_le, Hd.
    - rewrite take_ge in Hd by done. rewrite take_app_ge by done. by rewrite dns_header_invalid_app. }
  pose proof (settled_need_full (Z.to_nat n) p q) as Hs.
  destruct (Nat.ltb_spec (length p) (Z.to_nat n)) as [Hlt|Hge].
  { unfold need, ReadFull. rewrite take_ge by lia. rewrite (proj2 (Nat.ltb_lt _ _) Hlt).
    left. apply need_more_Is. }
  rewrite take_app_le, Hd by done. exact Hs.
Qed.

(** ** Sniffers whose verdict is that of a prefix *)

(** Whether a sniffer recognises a payload does not depend on the metadata; what it recognises, or
    refuses without asking for more, it recognises or refuses with more bytes in the buffer that is
    being read, behind the buffers that were kept before. *)
Class PrefixSniffer `{Sniffers} (s : StreamSniffer) : Prop := {
  ps_blind : ∀ c c' bs, (run_StreamSniffer s c bs).1 = (run_StreamSniffer s c' bs).1;
  ps_recognised : ∀ c bs p q, (run_StreamSniffer s c (bs ++ [p])).1 = None →
    (run_StreamSniffer s c (bs ++ [p ++ q])).1 = None;
  ps_refused : ∀ c bs p q e, (run_StreamSniffer s c (bs ++ [p])).1 = Some e →
    errors_Is e ErrNeedMoreData = false → (run_StreamSniffer s c (bs ++ [p ++ q])).1 ≠ None
}.

Lemma concat_snoc {A} (bs : list (list A)) p : concat (bs ++ [p]) = concat bs ++ p.
Proof. rewrite concat_app. cbn. by rewrite app_nil_r. Qed.

Lemma concat_snoc_app {A} (bs : list (list A)) p q : concat (bs ++ [p ++ q]) = (concat bs ++ p) ++ q.
Proof. by rewrite concat_snoc, app_assoc. Qed.

Context (quic : InboundContext → list byte → option error * InboundContext).
#[local] Instance protocol_sniffers : Sniffers := ProtocolSniffers quic.

Lemma sniffed_result protocol r p c : (sniffed protocol r p c).1 =
  match (r p).1 with Ok _ => None | Err e => Some e | Panic _ => Some (E_Ext "panic") end.
Proof. unfold sniffed. by destruct (r p).1. Qed.

#[export] Instance RDP_prefix : PrefixSniffer SS_RDP.
Proof.
  pose proof settled_RDP as Hs. split; unfold run_StreamSniffer; cbn; unfold RDP.
  - intros. by rewrite !sniffed_result.
  - intros c bs p q. rewrite concat_snoc_app, concat_snoc, !sniffed_result.
    specialize (Hs (concat bs ++ p) q).
    destruct (RDP_reader (concat bs ++ p)) as [[] rest]; [by rewrite Hs|done|done].
  - intros c bs p q e. rewrite concat_snoc_app, concat_snoc, !sniffed_result.
    specialize (Hs (concat bs ++ p) q).
    destruct (RDP_reader (concat bs ++ p)) as [[|e'|] rest]; [done| |done]. cbn. intros [= ->] Hn.
    destruct Hs as [?|Hs]; [congruence|]. by rewrite Hs.
Qed.

#[export] Instance DNS_prefix : PrefixSniffer SS_StreamDomainNameQuery.
Proof.
  assert (∀ c c' p, (DomainNameQuery c p).1 = (DomainNameQuery c' p).1) as Hd.
  { intros c c' p. unfold DomainNameQuery. by repeat case_match. }
  pose proof settled_dns_packet as Hs.
  split; unfold run_StreamSniffer; cbn; unfold StreamDomainNameQuery.
  - intros c c' p. destruct (read_dns_packet (concat p)).1; [apply Hd|done..].
  - intros c bs p q. rewrite concat_snoc_app, concat_snoc. specialize (Hs (concat bs ++ p) q).
    destruct (read_dns_packet (concat bs ++ p)) as [[packet| |] rest]; [by rewrite Hs|done|done].
  - intros c bs p q e. rewrite concat_snoc_app, concat_snoc. specialize (Hs (concat bs ++ p) q).
    destruct (read_dns_packet (concat bs ++ p)) as [[packet|e'|] rest]; [|cbn; intros [= ->] Hn|done].
    + rewrite Hs. cbn. by intros ->.
    + destruct Hs as [?|Hs]; [congruence|]. by rewrite Hs.
Qed.

(** A payload that agrees with a text as far as it goes. *)
Lemma prefix_agrees (p q text : list byte) n :
  length text = n →
  bool_decide (byte_Z <$> take n p = byte_Z <$> take (length (take n p)) text) = false →
  bool_decide (byte_Z <$> take n (p ++ q) = byte_Z <$> take (length (take n (p ++ q))) text) = false.
Proof.
  intros Hn Hf%bool_decide_eq_false. apply bool_decide_eq_false. intros He. apply Hf.
  apply (f_equal (take (length (take n p)))) in He. rewrite <-!fmap_take, !take_take in He.
  rewrite !length_take, length_app in *.
  rewrite take_app_le in He by lia. replace (min (min n (length p)) n) with (min n (length p)) in He by lia.
  replace (min (min n (length p)) (min n (length p + length q))) with (min n (length p)) in He by lia.
  rewrite <-He. f_equal. destruct (Nat.le_ge_cases n (length p)); [by rewrite Nat.min_l by lia|].
  rewrite Nat.min_r by lia. by rewrite !take_ge by lia.
Qed.
#[export] Instance SSH_prefix : PrefixSniffer SS_SSH.
Proof.
  assert (length sshPrefix = 8%nat) as Hlen by done.
  split; unfold run_StreamSniffer; cbn [protocol_sniffers ProtocolSniffers]; unfold SSH.
  - intros c c' p. by repeat case_match.
  - intros c bs p' q. rewrite concat_snoc_app, concat_snoc. generalize (concat bs ++ p'). clear p'.
    intros p. destruct (negb (bool_decide (_ <$> take 8 p = _))) eqn:Hb; [done|].
    destruct (Nat.ltb_spec (length (take 8 p)) 8) as [|Hge]; [done|]. intros _.
    rewrite length_take in Hge. rewrite take_app_le, Hb by lia.
    rewrite (proj2 (Nat.ltb_ge _ _)) by (rewrite length_take; lia). done.
  - intros c bs p' q e. rewrite concat_snoc_app, concat_snoc. generalize (concat bs ++ p'). clear p'.
    intros p. destruct (bool_decide (_ <$> take 8 p = _)) eqn:Hb; cbn [negb].
    + destruct (Nat.ltb _ _); [|done]. by intros [= <-].
    + intros [= <-] _. by rewrite (prefix_agrees p q _ 8 Hlen Hb).
Qed.

Lemma BitTorrent_single c p : BitTorrent c [p] =
  match p with
  | [] => (Some (need_more io_EOF), c)
  | b :: l =>
      if negb (Z.eqb (byte_Z b) 19) then (Some os_ErrInvalid, c) else
      if negb (bool_decide (byte_Z <$> take 19 l
                 = byte_Z <$> take (length (take 19 l)) bittorrent_header))
      then (Some os_ErrInvalid, c) else
      if negb (nonempty l) then (Some (need_more io_EOF), c) else
      if Nat.ltb (length (take 19 l)) 19 then (Some ErrNeedMoreData, c)
      else (None, c <| ic_Protocol := "bittorrent"%string |>)
  end.
Proof. by destruct p as [|b [|b' l]]. Qed.

Lemma read_first_snoc bs p : read_first (bs ++ [p]) =
  match read_first bs with
  | Some (b, rest) => Some (b, rest ++ [p])
  | None => read_first [p]
  end.
Proof. induction bs as [|[|b l] bs IH]; cbn; [done|exact IH|done]. Qed.

Lemma read_once_snoc n bs p : read_once n (bs ++ [p]) =
  match read_once n bs with Some l => Some l | None => read_once n [p] end.
Proof. induction bs as [|[|b l] bs IH]; cbn; [done|exact IH|done]. Qed.

(** Behind kept buffers the new bytes are all that the sniffer reads, or all but the first one, or
    they are not read. *)
Lemma BitTorrent_snoc c bs :
  (∀ p, BitTorrent c (bs ++ [p]) = BitTorrent c [p]) ∨
  (∃ b, ∀ p, BitTorrent c (bs ++ [p]) = BitTorrent c [b :: p]) ∨
  (∀ p q, BitTorrent c (bs ++ [p]) = BitTorrent c (bs ++ [q])).
Proof.
  unfold BitTorrent. destruct (read_first bs) as [[b rest]|] eqn:Hf.
  - right. destruct (read_once 19 rest) as [l|] eqn:Ho; [right|left].
    + intros p q. by rewrite !read_first_snoc, Hf, !read_once_snoc, Ho.
    + exists b. intros p. by rewrite !read_first_snoc, Hf, !read_once_snoc, Ho.
  - left. intros p. by rewrite read_first_snoc, Hf.
Qed.

Lemma BitTorrent_recognised c p q : (BitTorrent c [p]).1 = None → (BitTorrent c [p ++ q]).1 = None.
Proof.
  rewrite !BitTorrent_single. destruct p as [|b l]; [done|]. cbn [app].
  destruct (negb (Z.eqb _ 19)); [done|].
  destruct (negb (bool_decide (_ <$> take 19 l = _))) eqn:Hb; [done|].
  destruct (negb (nonempty l)); [done|].
  destruct (Nat.ltb_spec (length (take 19 l)) 19) as [|Hge]; [done|]. intros _.
  rewrite length_take in Hge. rewrite take_app_le, Hb by lia.
  assert (nonempty (l ++ q) = true) as -> by (destruct l; [cbn in Hge; lia|done]). cbn [negb].
  rewrite (proj2 (Nat.ltb_ge _ _)) by (rewrite length_take; lia). done.
Qed.

Lemma BitTorrent_refused c p q e : (BitTorrent c [p]).1 = Some e →
  errors_Is e ErrNeedMoreData = false → (BitTorrent c [p ++ q]).1 ≠ None.
Proof.
  assert (length bittorrent_header = 19%nat) as Hlen by done.
  rewrite !BitTorrent_single. destruct p as [|b l]; [by intros [= <-]|]. cbn [app].
  destruct (negb (Z.eqb _ 19)); [done|].
  destruct (bool_decide (_ <$> take 19 l = _)) eqn:Hb; cbn [negb].
  - destruct (nonempty l); cbn [negb]; [|by intros [= <-]].
    destruct (Nat.ltb _ _); [|done]. by intros [= <-].
  - intros [= <-] _. by rewrite (prefix_agrees l q _ 19 Hlen Hb).
Qed.

#[export] Instance BitTorrent_prefix : PrefixSniffer SS_BitTorrent.
Proof.
  split; unfold run_StreamSniffer; cbn [protocol_sniffers ProtocolSniffers].
  - intros c c' p. unfold BitTorrent. by repeat case_match.
  - intros c bs p q. destruct (BitTorrent_snoc c bs) as [Hs|[[b Hs]|Hs]].
    + rewrite !Hs. apply BitTorrent_recognised.
    + rewrite !Hs. apply (BitTorrent_recognised c (b :: p)).
    + by rewrite (Hs p (p ++ q)).
  - intros c bs p q e. destruct (BitTorrent_snoc c bs) as [Hs|[[b Hs]|Hs]].
    + rewrite !Hs. apply BitTorrent_refused.
    + rewrite !Hs. apply (BitTorrent_refused c (b :: p)).
    + rewrite (Hs p (p ++ q)). congruence.
Qed.

End Verdicts.

(** ** How the bytes are split does not matter *)

Section Splitting.
Context `{Sniffers}.

Definition asks_more (e : option error) : bool :=
  match e with Some e => errors_Is e ErrNeedMoreData | None => false end.

Lemma asks_more_join a b :
  asks_more (Some (errors_join a b)) = asks_more a || errors_Is b ErrNeedMoreData.
Proof. destruct a as [a|]; [|done]. reflexivity. Qed.

(** One round of the sniffers over a payload. *)
Lemma run_sniffers_spec sniffers p c0 : ∀ c e,
  (∀ s, s ∈ sniffers → PrefixSniffer s) →
  let '(ok, err, _) := run_stream_sniffers sniffers p c e in
  if (ok : bool) then ∃ s, s ∈ sniffers ∧ (run_StreamSniffer s c0 p).1 = None
  else (∀ s, s ∈ sniffers → ∃ e', (run_StreamSniffer s c0 p).1 = Some e' ∧
          (errors_Is e' ErrNeedMoreData = true → asks_more err = true)) ∧
       (asks_more e = true → asks_more err = true) ∧
       (sniffers ≠ [] ∨ e ≠ None → err ≠ None).
Proof.
  induction sniffers as [|s sniffers IH]; intros c e Hs; cbn [run_stream_sniffers].
  { split; [by intros s ?%not_elem_of_nil|]. split; [done|]. by intros [|]. }
  assert (PrefixSniffer s) as Hps by (apply Hs, list_elem_of_here).
  pose proof (ps_blind c c0 p) as Hb. destruct (run_StreamSniffer s c p) as [[err|] c']; cbn in Hb.
  2:{ exists s. split; [apply list_elem_of_here|done]. }
  specialize (IH c' (Some (errors_join e err)) (λ s' Hs', Hs s' (list_elem_of_further _ _ _ Hs'))).
  destruct (run_stream_sniffers sniffers p c' _) as [[ok err'] c'']. destruct ok.
  - destruct IH as (s' & Hs' & Hr). exists s'. split; [by apply list_elem_of_further|done].
  - destruct IH as (Hall & Hmore & Hne). rewrite asks_more_join in Hmore. split; [|split].
    + intros s' [->|Hs']%elem_of_cons; [|by apply Hall]. exists err. split; [done|].
      intros Hm. apply Hmore. by rewrite Hm, orb_true_r.
    + intros Hm. apply Hmore. by rewrite Hm.
    + intros _. apply Hne. by right.
Qed.

(** What the sniffers are shown in the end: as much as there is room for. *)
Lemma take_fill {A} (n : nat) (buffer b l : list A) : (length buffer ≤ n)%nat →
  take n (buffer ++ b ++ l) =
    (buffer ++ take (n - length buffer) b) ++
    take (n - length (buffer ++ take (n - length buffer) b)) (drop (n - length buffer) b ++ l).
Proof.
  intros Hn. rewrite take_app_ge by done. rewrite <-app_assoc. f_equal.
  set (m := (n - length buffer)%nat).
  replace (n - length (buffer ++ take m b))%nat with (m - length (take m b))%nat
    by (rewrite length_app; unfold m; lia).
  rewrite <-(take_drop m b) at 1. rewrite <-app_assoc. rewrite take_app_ge; [done|].
  rewrite length_take. lia.
Qed.

(** The reads that end a stream: it is closed, or a read of it fails. *)
Definition stream_ends (tail : list StreamRead) : Prop :=
  match tail with SR_Data _ :: _ => False | _ => True end.

Lemma PeekStream_loop_split sniffers kept tail c0 :
  sniffers ≠ [] → (∀ s, s ∈ sniffers → PrefixSniffer s) → stream_ends tail →
  ∀ (chunks : list (list byte)) (first : bool) (buffer : list byte) (c : InboundContext) (e : option error),
  (length buffer ≤ PacketSize)%nat →
  (if first then chunks ≠ [] ∧ buffer = []
   else e ≠ None ∧ ∀ s, s ∈ sniffers → (run_StreamSniffer s c0 (kept ++ [buffer])).1 ≠ None) →
  pk_err (PeekStream_loop first ((SR_Data <$> chunks) ++ tail) kept buffer sniffers c e) = None ↔
  ∃ s, s ∈ sniffers ∧
    (run_StreamSniffer s c0 (kept ++ [take PacketSize (buffer ++ concat chunks)])).1 = None.
Proof.
  intros Hne Hs Htail. pose proof PacketSize_pos as Hpos.
  induction chunks as [|b chunks IH]; intros first buffer c e Hlen Hf.
  { destruct first; [by destruct Hf|]. destruct Hf as [He Hn]. cbn [concat].
    rewrite app_nil_r, take_ge by done. split.
    - intros Hr. exfalso. destruct tail as [|[]]; cbn -[Nat.eqb Nat.sub] in Hr; try done.
      by destruct (Nat.eqb _ 0).
    - intros (s & Hin & Hr). by apply Hn in Hin. }
  cbn [fmap list_fmap app concat]. cbn [PeekStream_loop].
  destruct (Nat.eqb_spec (PacketSize - length buffer) 0) as [Hfull|Hroom].
  { destruct first; [destruct Hf as [_ ->]; cbn in Hfull; lia|]. destruct Hf as [He Hn].
    rewrite take_app_ge, (proj2 (Nat.sub_0_le _ _)), take_0, app_nil_r by lia. split.
    - done.
    - intros (s & Hin & Hr). by apply Hn in Hin. }
  rewrite take_fill by done. set (room := (PacketSize - length buffer)%nat) in *.
  set (buffer' := buffer ++ take room b) in *. cbv zeta.
  assert (length buffer' ≤ PacketSize)%nat as Hlen'
    by (unfold buffer'; rewrite length_app, length_take; lia).
  pose proof (run_sniffers_spec sniffers (kept ++ [buffer']) c0 c None Hs) as Hrun.
  destruct (run_stream_sniffers sniffers (kept ++ [buffer']) c None) as [[ok err] c'].
  destruct ok.
  { cbn. split; [intros _|done]. destruct Hrun as (s & Hin & Hr). exists s. split; [done|].
    pose proof (Hs s Hin). by apply ps_recognised. }
  destruct Hrun as (Hall & _ & Hsome). destruct err as [err|]; [|exfalso; apply Hsome; auto].
  destruct (errors_Is err ErrNeedMoreData) eqn:Hm.
  - destruct (drop room b) as [|x left] eqn:Hleft.
    + cbn [nonempty]. rewrite app_nil_l. cbn [app].
      assert (take room b = b) as Hb.
      { rewrite <-(take_drop room b) at 2. by rewrite Hleft, app_nil_r. }
      unfold buffer' in *. rewrite Hb in *. rewrite <-take_app_ge by done. apply IH; [done|].
      split; [done|]. intros s Hin. by destruct (Hall s Hin) as (e' & -> & _).
    + cbn. split; [done|]. intros (s & Hin & Hr).
      assert (length buffer' = PacketSize) as Hl.
      { apply (f_equal length) in Hleft. rewrite length_drop in Hleft. cbn in Hleft.
        unfold buffer'. rewrite length_app, length_take. unfold room in *. lia. }
      rewrite Hl, Nat.sub_diag, take_0, app_nil_r in Hr.
      destruct (Hall s Hin) as (e' & He' & _). congruence.
  - cbn. split; [done|]. intros (s & Hin & Hr). destruct (Hall s Hin) as (e' & He' & Hmore).
    pose proof (Hs s Hin). eapply ps_refused in Hr; [done|exact He'|].
    destruct (errors_Is e' ErrNeedMoreData) eqn:Hm'; [|done]. cbn in Hmore.
    rewrite Hm in Hmore. by specialize (Hmore eq_refl).
Qed.

End Splitting.

Section SplittingProtocols.
Context `{ExtLib} `{ActionLib} `{!SniffersLib}.
Context (quic : InboundContext → list byte → option error * InboundContext).
#[local] Instance split_sniffers : Sniffers := ProtocolSniffers quic.

(** The stream sniffers that read their payload themselves; those of TLS and HTTP hand it to a
    library. *)
Definition own_stream_sniffers : list StreamSniffer :=
  [SS_StreamDomainNameQuery; SS_BitTorrent; SS_SSH; SS_RDP].

Lemma own_stream_sniffers_prefix s : s ∈ own_stream_sniffers → PrefixSniffer s.
Proof.
  intros Hs. repeat (apply elem_of_cons in Hs as [->|Hs]; [apply _|]). by apply not_elem_of_nil in Hs.
Qed.

(** C14: a sniff with any of the DNS, BitTorrent, SSH and RDP sniffers does not depend on how the
    bytes of a stream arrive.  Whatever earlier sniffs kept, whatever the reads the new bytes come
    in, one or byte by byte, and however the stream then ends, it recognises the stream exactly when
    one of its sniffers recognises, behind the kept buffers, all the new bytes at once, as far as
    the sniff buffer has room for them.  For all of these sniffers but BitTorrent the kept buffers
    and the new bytes are one payload; BitTorrent can tell them apart.  The sniffers of TLS and HTTP
    are not covered: they are judged by a library, and HTTP refuses a request line that is cut. *)
Theorem sniff_any_split sniffers kept chunks tail c :
  sniffers ≠ [] → (∀ s, s ∈ sniffers → s ∈ own_stream_sniffers) → chunks ≠ [] → stream_ends tail →
  let payload := take NewPacket_size (concat chunks) in
  (pk_err (PeekStream ((SR_Data <$> chunks) ++ tail) kept sniffers c) = None ↔
   ∃ s, s ∈ sniffers ∧ (run_StreamSniffer s c (kept ++ [payload])).1 = None) ∧
  (∀ s, s ∈ sniffers → s ≠ SS_BitTorrent →
   (run_StreamSniffer s c (kept ++ [payload])).1 = (run_StreamSniffer s c [concat kept ++ payload]).1).
Proof.
  intros Hne Hs Hc Ht payload. split.
  - apply (PeekStream_loop_split sniffers kept tail c Hne
             (λ s Hin, own_stream_sniffers_prefix s (Hs s Hin)) Ht chunks true [] c None); [cbn; lia|done].
  - intros s Hin%Hs Hb. unfold run_StreamSniffer, split_sniffers, ProtocolSniffers.
    repeat (apply elem_of_cons in Hin as [->|Hin]; [|]); [..|by apply not_elem_of_nil in Hin]; [|done|..];
      unfold StreamDomainNameQuery, SSH, RDP; cbv iota; by rewrite !concat_snoc; cbn [concat]; rewrite app_nil_r.
Qed.

End SplittingProtocols.

(** ** The extensions of uTP *)

Lemma utp_extensions_ends : ∀ fuel extension s, (length s < fuel)%nat →
  is_panic (utp_extensions fuel extension s).1 = false.
Proof.
  induction fuel as [|fuel IH]; intros extension s Hs; [lia|]. cbn [utp_extensions].
  destruct (Z.eqb extension 0); [done|].
  destruct s as [|a s]; [done|]. unfold mbind at 1, Reader_bind at 1.
  change (ReadBE 1 (a :: s)) with (Ok (be_val [a]), s). cbv iota beta.
  destruct (Z.ltb 4 (be_val [a])); [done|]. destruct s as [|b s]; [done|].
  unfold mbind at 1, Reader_bind at 1. change (ReadBE 1 (b :: s)) with (Ok (be_val [b]), s).
  cbv iota beta. unfold mbind, Reader_bind, Seek. apply IH. rewrite length_drop. cbn in Hs. lia.
Qed.

(** The list of extensions is read to its end or to its first error. *)
Lemma UTP_total `{ExtLib} c packet :
  (UTP c packet).1 ≠ Some (E_Ext "panic") ∨
  ∃ e, (utp_extensions (S (length packet)) (byte_at packet 1) (drop 20 packet)).1 = Err e.
Proof.
  unfold UTP. repeat (case_match; [by left|]). rewrite sniffed_result.
  pose proof (utp_extensions_ends (S (length packet)) (byte_at packet 1) (drop 20 packet)) as Hp.
  rewrite length_drop in Hp. specialize (Hp ltac:(lia)).
  destruct (utp_extensions _ _ _).1; [by left|right; by eexists|done].
Qed.

(** ** Concrete payloads *)

Section Examples.
#[local] Instance ex_lib : ExtLib := SampleLib.
#[local] Instance ex_actions : ActionLib := SampleActions.

(** A message is a query when its third byte is zero. *)
Definition SampleSniffersLib : SniffersLib := {|
  NewPacket_size := 16;
  NewPacket_size_pos := Nat.lt_0_succ 15;
  msg_Unpack b :=
    if Z.eqb (byte_at b 2) 0
    then Ok (mkMsg 0 false false true false 0 [mkQuestion "a.test." 1 1] [] [] [])
    else Ok (mkMsg 0 true false true false 0 [] [] [] []);
  http_ReadRequest _ := Err (E_Ext "malformed HTTP request");
  ParseSocksaddr s := mkSocksaddr AddrInvalid 0 s;
  tls_Handshake _ := (None, E_Ext "tls: first record does not look like a TLS handshake")
|}.
#[local] Instance ex_sniff : SniffersLib := SampleSniffersLib.
#[local] Instance ex_sniffers : Sniffers := ProtocolSniffers (λ c _, (Some os_ErrInvalid, c)).

(** An SSH version line, in the buffer that an earlier sniff kept and in the reads of this one. *)
Lemma sniff_any_split_witness :
  pk_err (PeekStream
            ((SR_Data <$> [bytes_of_string "H-2."; bytes_of_string "0-OpenSSH_9.9p2 Debian"]) ++ [SR_Err io_EOF])
            [bytes_of_string "SS"] own_stream_sniffers InboundContext_zero) = None.
Proof.
  apply (proj1 (sniff_any_split (λ c _, (Some os_ErrInvalid, c)) own_stream_sniffers
           [bytes_of_string "SS"] [bytes_of_string "H-2."; bytes_of_string "0-OpenSSH_9.9p2 Debian"]
           [SR_Err io_EOF] InboundContext_zero ltac:(discriminate) ltac:(done) ltac:(discriminate) I)).
  exists SS_SSH. split; [set_solver|reflexivity].
Defined.

(** A BitTorrent handshake that an earlier sniff has kept a part of is not recognised: the sniffer
    reads once, and gets the rest of the first buffer only. *)
Lemma BitTorrent_buffers :
  let handshake := x13 :: bittorrent_header in
  (BitTorrent InboundContext_zero [handshake]).1 = None ∧
  (BitTorrent InboundContext_zero [take 10 handshake; drop 10 handshake]).1 = Some ErrNeedMoreData.
Proof. vm_compute. done. Qed.

(** The client of an SSH connection is what has arrived of its first line. *)
Lemma SSH_client_cut :
  ic_Client (SSH InboundContext_zero [bytes_of_string "SSH-2.0-Open"]).2 = "Open"%string.
Proof. vm_compute. done. Qed.

(** A DNS answer is no error of the sniffer, and sets no protocol. *)
Lemma DNS_answer_sniffed :
  DomainNameQuery InboundContext_zero [x00; x00; x80] = (None, InboundContext_zero).
Proof. reflexivity. Qed.

End Examples.
