(* ===== verification/Outbound.v ===== *)
(** * The outbound manager (adapter/outbound/manager.go, adapter/lifecycle_legacy.go)

    The manager keeps the outbounds in creation order, by tag, and who depends on whom.  Outbounds
    are objects of the protocol packages: the manager sees their tag, their dependencies and which
    lifecycle methods they have, and what those methods answer is an operation of [OutboundCalls].
    [ob_id] is the identity of an object, which the code compares as a pointer. *)

From stdpp Require Import base gmap strings list numbers relations.
From S2P Require Import Prelude GoStd.

Local Open Scope Z_scope.

(** [adapter/lifecycle.go:18-25] StartStage *)
Inductive StartStage : Type :=
| StartStateInitialize
| StartStateStart
| StartStatePostStart
| StartStateStarted.
#[global] Instance StartStage_eq_dec : EqDecision StartStage.
Proof. solve_decision. Defined.

(** [adapter/lifecycle.go:27-32] ListStartStages *)
Definition ListStartStages : list StartStage :=
  [StartStateInitialize; StartStateStart; StartStatePostStart; StartStateStarted].

Definition StartStage_index (s : StartStage) : Z :=
  match s with
  | StartStateInitialize => 0 | StartStateStart => 1
  | StartStatePostStart => 2 | StartStateStarted => 3
  end.

(** [adapter/lifecycle.go:34-47] (StartStage).String *)
Definition StartStage_String (s : StartStage) : string :=
  match s with
  | StartStateInitialize => "initialize"
  | StartStateStart => "start"
  | StartStatePostStart => "post-start"
  | StartStateStarted => "finish-start"
  end.

(** The interfaces an object implements: [adapter.Lifecycle], or any of the three legacy ones. *)
Inductive LifecycleKind : Type :=
| IsLifecycle
| IsLegacy (isPreStarter isStarter isPostStarter : bool).
#[global] Instance LifecycleKind_eq_dec : EqDecision LifecycleKind.
Proof. solve_decision. Defined.

(** [adapter/outbound.go:16-22] Outbound *)
Record Outbound : Type := mkOutbound {
  ob_id : Z;
  ob_Type : string;
  ob_Tag : string;
  ob_Network : list string;
  ob_Dependencies : list string;
  ob_lifecycle : LifecycleKind;
  ob_isCloser : bool;
  ob_isDirectRoute : bool
}.
#[global] Instance Outbound_eq_dec : EqDecision Outbound.
Proof. solve_decision. Defined.

(** The lifecycle methods of an object. *)
Inductive LifecycleCall : Type :=
| Call_Start (stage : StartStage)
| Call_PreStart
| Call_LegacyStart
| Call_PostStart
| Call_Close
| Call_CommonClose.

Class OutboundCalls := { outbound_call : Outbound → LifecycleCall → option error }.

(** The calls an operation of the manager makes, in order. *)
Abbreviation Calls := (list (Outbound * LifecycleCall)).

(** [adapter/endpoint/manager.go:20-28] Manager *)
Record EndpointManager : Type := mkEndpointManager {
  em_endpoints : list Outbound;
  em_endpointByTag : gmap string Outbound
}.

(** [adapter/endpoint/manager.go:88-92] (Manager).Endpoints *)
Definition EndpointManager_Endpoints (m : EndpointManager) : list Outbound := em_endpoints m.

(** [adapter/endpoint/manager.go:94-99] (Manager).Get *)
Definition EndpointManager_Get (m : EndpointManager) (tag : string) : option Outbound :=
  em_endpointByTag m !! tag.

(** [defaultOutboundFallback] is [None] until [Initialize].

    [adapter/outbound/manager.go:23-36] Manager *)
Record Manager : Type := mkManager {
  endpoint : EndpointManager;
  defaultTag : string;
  started : bool;
  stage : StartStage;
  outbounds : list Outbound;
  outboundByTag : gmap string Outbound;
  dependByTag : gmap string (list string);
  defaultOutbound : option Outbound;
  defaultOutboundFallback : option (res Outbound)
}.
#[global] Instance Manager_settable : Settable Manager :=
  {| mkT r := mkManager (endpoint r) (defaultTag r) (started r) (stage r) (outbounds r)
       (outboundByTag r) (dependByTag r) (defaultOutbound r) (defaultOutboundFallback r) |}.

(** [adapter/outbound/manager.go:38-47] NewManager *)
Definition NewManager (endpoint : EndpointManager) (defaultTag : string) : Manager :=
  mkManager endpoint defaultTag false StartStateInitialize [] ∅ ∅ None None.

(** [adapter/outbound/manager.go:49-51] (Manager).Initialize *)
Definition Manager_Initialize (fallback : res Outbound) (m : Manager) : Manager :=
  m <| defaultOutboundFallback := Some fallback |>.

(** ["outbound/" + outbound.Type() + "[" + outbound.Tag() + "]"] *)
Definition outbound_name (o : Outbound) : string :=
  "outbound/" +:+ ob_Type o +:+ "[" +:+ ob_Tag o +:+ "]".

(** ** The start order

    The loop that starts managed objects in the order of their dependencies is the same for outbounds
    and for DNS transports, with another word in its errors: [start] is the start of one object, and
    [kind] the word. *)

Section Startup.
Variable start : Outbound → option error.
Variable kind : string.

(** The state of the start loop: the tags marked as started, and the outbounds in the order they
    were marked in. *)
Record Starting : Type := mkStarting {
  st_started : gset string;
  st_order : list Outbound
}.

(** One pass over the outbounds: the error that stops it, and whether anything was started.

    [adapter/outbound/manager.go:105-142] (Manager).startOutbounds (pass) *)
Fixpoint start_pass (outbounds : list Outbound) (s : Starting) (canContinue : bool)
    : option error * bool * Starting :=
  match outbounds with
  | [] => (None, canContinue, s)
  | outboundToStart :: rest =>
      let outboundTag := ob_Tag outboundToStart in
      if bool_decide (outboundTag ∈ st_started s) then start_pass rest s canContinue else
      if negb (forallb (λ dependency, bool_decide (dependency ∈ st_started s))
                 (ob_Dependencies outboundToStart))
      then start_pass rest s canContinue else
      let s := mkStarting ({[ outboundTag ]} ∪ st_started s) (st_order s ++ [outboundToStart]) in
      match start outboundToStart with
      | Some err => (Some err, true, s)
      | None => start_pass rest s true
      end
  end.

(** The explanation of a start that got stuck: [None] when the fuel is not enough.

    [adapter/outbound/manager.go:152-167] (Manager).startOutbounds (lintOutbound) *)
Fixpoint lintOutbound (fuel : nat) (byTag : gmap string Outbound) (started : gset string)
    (oTree : list string) (oCurrent : Outbound) : option error :=
  match fuel with
  | O => None
  | S fuel =>
      let problemOutboundTag :=
        default ""%string
          (List.find (λ it, negb (bool_decide (it ∈ started))) (ob_Dependencies oCurrent)) in
      if bool_decide (problemOutboundTag ∈ oTree)
      then Some (E_New [AStr ("circular " +:+ kind +:+ " dependency: ");
                        AStr (strings_Join oTree " -> "); AStr " -> "; AStr problemOutboundTag]) else
      match byTag !! problemOutboundTag with
      | None => Some (E_New [AStr "dependency["; AStr problemOutboundTag;
                             AStr ("] not found for " +:+ kind +:+ "[");
                             AStr (ob_Tag oCurrent); AStr "]"])
      | Some problemOutbound =>
          lintOutbound fuel byTag started (oTree ++ [problemOutboundTag]) problemOutbound
      end
  end.

(** Passes until everything is started or nothing can be: [None] when the fuel is not enough.  When
    two outbounds share a tag nothing is left to explain and [currentOutbound] is [nil].

    [adapter/outbound/manager.go:99-171] (Manager).startOutbounds *)
Fixpoint start_loop (fuel : nat) (byTag : gmap string Outbound) (outbounds : list Outbound)
    (s : Starting) : option (res unit * Starting) :=
  match fuel with
  | O => None
  | S fuel =>
      match start_pass outbounds s false with
      | (Some err, _, s) => Some (Err err, s)
      | (None, canContinue, s) =>
          if Nat.eqb (size (st_started s)) (length outbounds) then Some (Ok tt, s) else
          if canContinue then start_loop fuel byTag outbounds s else
          match List.find (λ it, negb (bool_decide (ob_Tag it ∈ st_started s))) outbounds with
          | None => Some (Panic [AStr "nil pointer dereference"], s)
          | Some currentOutbound =>
              match lintOutbound (S (size byTag)) byTag (st_started s) [ob_Tag currentOutbound]
                      currentOutbound with
              | Some err => Some (Err err, s)
              | None => None
              end
          end
      end
  end.

Definition start_all (byTag : gmap string Outbound) (outbounds : list Outbound)
    : option (res unit * Starting) :=
  start_loop (S (length outbounds)) byTag outbounds (mkStarting ∅ []).

End Startup.

(** ** Starting *)

Section Starting.
Context `{OutboundCalls}.

(** The call that starts an object at a stage, if it has one.

    [adapter/lifecycle_legacy.go:3-28] LegacyStart *)
Definition LegacyStart (o : Outbound) (stage : StartStage) : option error * Calls :=
  let call c := (outbound_call o c, [(o, c)]) in
  match ob_lifecycle o with
  | IsLifecycle => call (Call_Start stage)
  | IsLegacy pre start post =>
      match stage with
      | StartStateInitialize => if pre then call Call_PreStart else (None, [])
      | StartStateStart => if start then call Call_LegacyStart else (None, [])
      | StartStatePostStart => (None, [])
      | StartStateStarted => if post then call Call_PostStart else (None, [])
      end
  end.

(** [adapter/outbound/manager.go:118-141] (Manager).startOutbounds (start one) *)
Definition start_one (o : Outbound) : option error * Calls :=
  let name := outbound_name o in
  let wrapped c :=
    (match outbound_call o c with
     | Some err => Some (E_Cause err [AStr "start "; AStr name])
     | None => None
     end, [(o, c)]) in
  match ob_lifecycle o with
  | IsLifecycle => wrapped (Call_Start StartStateStart)
  | IsLegacy _ true _ => wrapped Call_LegacyStart
  | IsLegacy _ false _ => (None, [])
  end.

(** [adapter/outbound/manager.go:99-103] (Manager).startOutbounds *)
Definition startOutbounds (byTag : gmap string Outbound) (outbounds : list Outbound)
    : option (res unit * Starting) :=
  start_all (λ o, (start_one o).1) "outbound" byTag outbounds.

(** The other stages: every outbound in turn.

    [adapter/outbound/manager.go:85-94] (Manager).Start (other stages) *)
Fixpoint start_stage (stage : StartStage) (outbounds : list Outbound) : res unit * Calls :=
  match outbounds with
  | [] => (Ok tt, [])
  | o :: rest =>
      match LegacyStart o stage with
      | (Some err, calls) =>
          (Err (E_Cause err [AStr (StartStage_String stage); AStr " "; AStr (outbound_name o)]),
           calls)
      | (None, calls) =>
          let '(r, calls') := start_stage stage rest in (r, calls ++ calls')
      end
  end.

(** The default outbound is settled before anything starts.

    [adapter/outbound/manager.go:61-79] (Manager).Start (default outbound) *)
Definition settle_default (m : Manager) : res Manager * Manager :=
  match defaultOutbound m with
  | Some _ => (Ok m, m)
  | None =>
      if negb (String.eqb (defaultTag m) "") then
        match EndpointManager_Get (endpoint m) (defaultTag m) with
        | None => (Err (E_New [AStr "default outbound not found: "; AStr (defaultTag m)]), m)
        | Some defaultEndpoint =>
            let m := m <| defaultOutbound := Some defaultEndpoint |> in (Ok m, m)
        end
      else
        match defaultOutboundFallback m with
        | None => (Panic [AStr "nil pointer dereference"], m)
        | Some (Ok directOutbound) =>
            let m := m <| outbounds := outbounds m ++ [directOutbound] |>
                       <| outboundByTag := <[ob_Tag directOutbound := directOutbound]>
                                             (outboundByTag m) |>
                       <| defaultOutbound := Some directOutbound |> in (Ok m, m)
        | Some (Err err) =>
            (Err (E_Cause err [AStr "create direct outbound for fallback"]), m)
        | Some (Panic p) => (Panic p, m)
        end
  end.

(** The result, the state, and the outbounds started in order; [None] when the fuel of the start
    loop is not enough.

    [adapter/outbound/manager.go:53-97] (Manager).Start *)
Definition Manager_Start (newStage : StartStage) (m : Manager)
    : option (res unit * Manager * Calls) :=
  if started m && Z.leb (StartStage_index newStage) (StartStage_index (stage m))
  then Some (Panic [AStr "already started"], m, []) else
  let m := m <| started := true |> <| stage := newStage |> in
  if decide (newStage = StartStateStart) then
    match settle_default m with
    | (Ok m, _) =>
        match startOutbounds (outboundByTag m)
                (outbounds m ++ EndpointManager_Endpoints (endpoint m)) with
        | Some (r, s) => Some (r, m, flat_map (λ o, (start_one o).2) (st_order s))
        | None => None
        end
    | (Err e, m) => Some (Err e, m, [])
    | (Panic p, m) => Some (Panic p, m, [])
    end
  else
    let '(r, calls) := start_stage newStage (outbounds m) in Some (r, m, calls).

(** [adapter/outbound/manager.go:173-199] (Manager).Close *)
Definition Manager_Close (m : Manager) : Manager * Calls :=
  if negb (started m) then (m, []) else
  (m <| started := false |> <| outbounds := [] |>,
   flat_map (λ o, if ob_isCloser o then [(o, Call_Close)] else []) (outbounds m)).

(** ** Lookup *)

(** [adapter/outbound/manager.go:207-215] (Manager).Outbound *)
Definition Manager_Outbound (m : Manager) (tag : string) : option Outbound :=
  match outboundByTag m !! tag with
  | Some outbound => Some outbound
  | None => EndpointManager_Get (endpoint m) tag
  end.

(** [adapter/outbound/manager.go:217-221] (Manager).Default *)
Definition Manager_Default (m : Manager) : option Outbound := defaultOutbound m.

(** ** Removal and creation *)

(** [it == outbound] *)
Definition same_object (o it : Outbound) : bool := Z.eqb (ob_id it) (ob_id o).

(** [common.Index] of an object, and the slice without it. *)
Fixpoint remove_object (o : Outbound) (l : list Outbound) : option (list Outbound) :=
  match l with
  | [] => None
  | it :: l' =>
      if same_object o it then Some l' else
      match remove_object o l' with Some l'' => Some (it :: l'') | None => None end
  end.

(** [adapter/outbound/manager.go:251-260] (Manager).Remove (dependencies) *)
Fixpoint forget_dependencies (tag : string) (dependencies : list string)
    (d : gmap string (list string)) : gmap string (list string) :=
  match dependencies with
  | [] => d
  | dependency :: rest =>
      let l := default [] (d !! dependency) in
      forget_dependencies tag rest
        (if Nat.eqb (length l) 1 then delete dependency d
         else <[dependency := List.filter (λ it, negb (String.eqb it tag)) l]> d)
  end.

(** [adapter/outbound/manager.go:223-265] (Manager).Remove *)
Definition Manager_Remove (tag : string) (m : Manager) : res unit * Manager * Calls :=
  match outboundByTag m !! tag with
  | None => (Err os_ErrInvalid, m, [])
  | Some outbound =>
      let m := m <| outboundByTag := delete tag (outboundByTag m) |> in
      match remove_object outbound (outbounds m) with
      | None => (Panic [AStr "invalid inbound index"], m, [])
      | Some l =>
          let m := m <| outbounds := l |> in
          let m :=
            match defaultOutbound m with
            | Some o => if same_object outbound o then m <| defaultOutbound := head l |> else m
            | None => m
            end in
          let dependBy := default [] (dependByTag m !! tag) in
          if nonempty dependBy
          then (Err (E_New [AStr "outbound["; AStr tag; AStr "] is depended by ";
                            AStr (strings_Join dependBy ", ")]), m, [])
          else
            let m := m <| dependByTag :=
                       forget_dependencies tag (ob_Dependencies outbound) (dependByTag m) |> in
            if started m
            then (match outbound_call outbound Call_CommonClose with
                  | Some err => Err err
                  | None => Ok tt
                  end, m, [(outbound, Call_CommonClose)])
            else (Ok tt, m, [])
      end
  end.

(** [adapter/outbound/manager.go:277-285] (Manager).Create (start) *)
Fixpoint start_stages (stages : list StartStage) (o : Outbound) : option error * Calls :=
  match stages with
  | [] => (None, [])
  | stage :: rest =>
      match LegacyStart o stage with
      | (Some err, calls) =>
          (Some (E_Cause err [AStr (StartStage_String stage); AStr " "; AStr (outbound_name o)]),
           calls)
      | (None, calls) => let '(r, calls') := start_stages rest o in (r, calls ++ calls')
      end
  end.

(** [adapter/outbound/manager.go:306-309] (Manager).Create (dependencies) *)
Definition add_dependencies (tag : string) (dependencies : list string)
    (d : gmap string (list string)) : gmap string (list string) :=
  fold_left (λ d dependency, <[dependency := default [] (d !! dependency) ++ [tag]]> d)
    dependencies d.

(** [created] is the answer of the registry.

    [adapter/outbound/manager.go:267-317] (Manager).Create *)
Definition Manager_Create (tag : string) (created : res Outbound) (m : Manager)
    : res unit * Manager * Calls :=
  if String.eqb tag "" then (Err os_ErrInvalid, m, []) else
  match created with
  | Err e => (Err e, m, [])
  | Panic p => (Panic p, m, [])
  | Ok outbound =>
      let '(startErr, calls) :=
        if started m then start_stages ListStartStages outbound else (None, []) in
      match startErr with
      | Some e => (Err e, m, calls)
      | None =>
          let '(closeErr, calls) :=
            match outboundByTag m !! tag with
            | Some existsOutbound =>
                if started m
                then (match outbound_call existsOutbound Call_CommonClose with
                      | Some err =>
                          Some (E_Cause err [AStr "close outbound/"; AStr (ob_Type existsOutbound);
                                  AStr "["; AStr (ob_Tag existsOutbound); AStr "]"])
                      | None => None
                      end, calls ++ [(existsOutbound, Call_CommonClose)])
                else (None, calls)
            | None => (None, calls)
            end in
          match closeErr with
          | Some e => (Err e, m, calls)
          | None =>
              let others :=
                match outboundByTag m !! tag with
                | Some existsOutbound => remove_object existsOutbound (outbounds m)
                | None => Some (outbounds m)
                end in
              match others with
              | None => (Panic [AStr "invalid inbound index"], m, calls)
              | Some l =>
                  let m := m <| outbounds := l ++ [outbound] |>
                             <| outboundByTag := <[tag := outbound]> (outboundByTag m) |>
                             <| dependByTag := add_dependencies tag (ob_Dependencies outbound)
                                                 (dependByTag m) |> in
                  let m :=
                    if String.eqb tag (defaultTag m) ||
                       (String.eqb (defaultTag m) "" && is_nil (defaultOutbound m))
                    then m <| defaultOutbound := Some outbound |> else m in
                  (Ok tt, m, calls)
              end
          end
      end
  end.

End Starting.

(** ** The interface of the manager

    What routing asks of it: outbounds by tag and the default.  [lookup_ok] is the state in which
    the answers can be relied on. *)
Class OutboundLookup (M : Type) := {
  lookup_outbound : M → string → option Outbound;
  default_outbound : M → option Outbound;
  lookup_ok : M → Prop;
  lookup_outbound_tag : ∀ m tag o, lookup_ok m → lookup_outbound m tag = Some o → ob_Tag o = tag
}.

Local Open Scope nat_scope.

(** ** The order of a start *)

Section StartTheorems.
Variable start : Outbound → option error.
Variable kind : string.

Abbreviation tags l := (ob_Tag <$> l).

(** Every outbound comes after the outbounds it depends on. *)
Definition deps_before (order : list Outbound) : Prop :=
  ∀ pre o post, order = pre ++ o :: post → ∀ d, d ∈ ob_Dependencies o → d ∈ tags pre.

Record starting_ok (all : list Outbound) (s : Starting) : Prop := {
  so_started : st_started s = list_to_set (tags (st_order s));
  so_NoDup : NoDup (tags (st_order s));
  so_deps : deps_before (st_order s);
  so_subset : st_order s ⊆ all
}.

Lemma deps_before_snoc order o :
  deps_before order → (∀ d, d ∈ ob_Dependencies o → d ∈ tags order) →
  deps_before (order ++ [o]).
Proof.
  intros Hd Ho pre x post Heq. destruct post as [|y post' _] using rev_ind.
  - apply app_inj_tail in Heq as [-> ->]. exact Ho.
  - rewrite app_comm_cons, app_assoc in Heq. apply app_inj_tail in Heq as [Heq _]. eauto.
Qed.

Lemma starting_ok_step all s o :
  starting_ok all s → o ∈ all → ob_Tag o ∉ st_started s →
  forallb (λ d, bool_decide (d ∈ st_started s)) (ob_Dependencies o) = true →
  starting_ok all (mkStarting ({[ob_Tag o]} ∪ st_started s) (st_order s ++ [o])).
Proof.
  intros [Hs Hn Hd Hsub] Ho Hnew Hdeps. rewrite forallb_forall in Hdeps. split; cbn.
  - rewrite fmap_app, list_to_set_app_L, Hs. cbn. set_solver.
  - rewrite fmap_app. apply NoDup_app. split; [done|]. split; [|apply NoDup_singleton].
    intros t Ht ->%list_elem_of_singleton. set_solver.
  - apply deps_before_snoc; [done|]. intros d Hin. specialize (Hdeps d).
    rewrite <-list_elem_of_In, bool_decide_eq_true in Hdeps. set_solver.
  - set_solver.
Qed.

(** What a pass does: it keeps the invariant, it only adds to what is started, and when it claims
    progress something was added. *)
Lemma start_pass_ok all l s can r can' s' :
  l ⊆ all → starting_ok all s → start_pass start l s can = (r, can', s') →
  starting_ok all s' ∧ length (st_order s) ≤ length (st_order s') ∧
  (can' = true → can = true ∨ length (st_order s) < length (st_order s')) ∧
  (can' = false → can = false).
Proof.
  revert s can. induction l as [|o l IH]; intros s can Hl Hok Hp; cbn in Hp.
  { simplify_eq. auto. }
  assert (l ⊆ all ∧ o ∈ all) as [Hl' Ho] by set_solver.
  case_bool_decide; [eauto|].
  destruct (forallb _ _) eqn:Hdeps; cbn in Hp; [|eauto].
  pose proof (starting_ok_step all s o Hok Ho ltac:(done) Hdeps) as Hok'.
  assert (length (st_order s) < length (st_order s ++ [o])) by (rewrite length_app; cbn; lia).
  destruct (start o); [simplify_eq; cbn; auto with lia|].
  destruct (IH _ true Hl' Hok' Hp) as (? & Hlen & ? & Hf); cbn in *.
  split; [done|]. split; [lia|]. split; [intros; right; lia|]. intros ->. by specialize (Hf eq_refl).
Qed.

(** A pass without progress changes nothing, and every outbound it left out waits for another. *)
Lemma start_pass_stuck l s s' :
  start_pass start l s false = (None, false, s') →
  s' = s ∧ ∀ o, o ∈ l → ob_Tag o ∈ st_started s ∨
                  ∃ d, d ∈ ob_Dependencies o ∧ d ∉ st_started s.
Proof.
  induction l as [|o l IH]; intros Hp; cbn in Hp; [simplify_eq; set_solver|].
  case_bool_decide as Hin.
  { apply IH in Hp as [-> Hp]. split; [done|]. intros x [->|?]%elem_of_cons; auto. }
  destruct (forallb _ _) eqn:Hdeps; cbn in Hp.
  - exfalso. destruct (start o); [simplify_eq|].
    destruct (start_pass start l _ true) as [[r c] s2] eqn:E. simplify_eq.
    assert (∀ l s r s2, start_pass start l s true = (r, false, s2) → False) as Hno.
    { clear. induction l as [|x l IH]; intros s r s2 Hp; cbn in Hp; [done|].
      case_bool_decide; [eauto|]. destruct (negb _); [eauto|].
      destruct (start x); [done|eauto]. }
    eauto.
  - apply IH in Hp as [-> Hp]. split; [done|].
    intros x [->|?]%elem_of_cons; [|auto]. right.
    apply not_true_iff_false in Hdeps. rewrite forallb_forall in Hdeps.
    destruct (decide (Exists (λ d, d ∉ st_started s) (ob_Dependencies o))) as [Hex|Hex].
    + apply Exists_exists in Hex. naive_solver.
    + destruct Hdeps. intros d Hd. apply bool_decide_eq_true.
      apply not_Exists_Forall in Hex; [|apply _]. rewrite Forall_forall in Hex.
      apply list_elem_of_In in Hd. destruct (decide (d ∈ st_started s)); [done|naive_solver].
Qed.

Lemma start_pass_no_error all l s can :
  (∀ o, o ∈ all → start o = None) → l ⊆ all → (start_pass start l s can).1.1 = None.
Proof.
  intros Hno. revert s can. induction l as [|x l IH]; intros s c Hsub; cbn; [done|].
  assert (l ⊆ all ∧ x ∈ all) as [??] by set_solver.
  case_bool_decide; [auto|]. destruct (negb _); [auto|]. rewrite Hno by done. auto.
Qed.

Lemma starting_ok_size all s : starting_ok all s → size (st_started s) = length (st_order s).
Proof.
  intros [-> Hn _ _]. rewrite size_list_to_set by done. apply length_fmap.
Qed.

Lemma starting_ok_le all s : starting_ok all s → length (st_order s) ≤ length all.
Proof.
  intros [_ Hn _ Hsub]. rewrite <-(length_fmap ob_Tag), <-(length_fmap ob_Tag all).
  apply submseteq_length, NoDup_submseteq; [done|]. set_solver.
Qed.

Lemma starting_ok_init all : starting_ok all (mkStarting ∅ []).
Proof. split; cbn; [done|apply NoDup_nil_2| |set_solver]. by intros [] ? ?. Qed.

(** The explanation always ends: the tree of tags has no repetition. *)
Lemma lintOutbound_total fuel byTag started oTree o :
  NoDup (tail oTree) → (∀ t, t ∈ tail oTree → is_Some (byTag !! t)) → oTree ≠ [] →
  size byTag < fuel + length (tail oTree) →
  is_Some (lintOutbound kind fuel byTag started oTree o).
Proof.
  revert oTree o. induction fuel as [|fuel IH]; intros oTree o Hn Hdom Hne Hf.
  - exfalso. assert (length (tail oTree) ≤ size (dom byTag)).
    { rewrite <-(size_list_to_set (C := gset string) (tail oTree)) by done.
      apply subseteq_size. intros t. rewrite elem_of_list_to_set, elem_of_dom. auto. }
    rewrite size_dom in *. lia.
  - cbn. case_bool_decide as Hin; [done|].
    destruct (byTag !! _) as [o'|] eqn:Hp; [|done].
    assert (tail (oTree ++ [default ""%string (List.find (λ it, negb (bool_decide (it ∈ started)))
        (ob_Dependencies o))]) = tail oTree ++ [default ""%string (List.find
        (λ it, negb (bool_decide (it ∈ started))) (ob_Dependencies o))]) as Ht
      by (by destruct oTree).
    apply IH; rewrite ?Ht.
    + apply NoDup_app. split; [done|]. split; [|apply NoDup_singleton].
      intros t Hin' ->%list_elem_of_singleton. destruct oTree; set_solver.
    + intros t [?| ->%list_elem_of_singleton]%elem_of_app; [auto|by eexists].
    + by destruct oTree.
    + rewrite length_app; cbn. lia.
Qed.

Lemma start_loop_total fuel byTag all s :
  starting_ok all s → length all < fuel + length (st_order s) →
  is_Some (start_loop start kind fuel byTag all s).
Proof.
  revert s. induction fuel as [|fuel IH]; intros s Hok Hf.
  { apply starting_ok_le in Hok. lia. }
  cbn. destruct (start_pass start all s false) as [[[err|] can] s'] eqn:Hp; [done|].
  destruct (start_pass_ok all all s false None can s' ltac:(done) Hok Hp) as (Hok' & ? & Hc & _).
  destruct (Nat.eqb _ _); [done|]. destruct can.
  - apply IH; [done|]. destruct (Hc eq_refl); [done|lia].
  - destruct (List.find _ _) as [o|]; [|done].
    edestruct (lintOutbound_total (S (size byTag)) byTag (st_started s') [ob_Tag o] o)
      as [e He]; cbn; [apply NoDup_nil_2|set_solver|done|lia|]. cbn in He. by rewrite He.
Qed.

Lemma start_loop_ok fuel byTag all s r s' :
  starting_ok all s → start_loop start kind fuel byTag all s = Some (r, s') → starting_ok all s'.
Proof.
  revert s. induction fuel as [|fuel IH]; intros s Hok Hl; cbn in Hl; [done|].
  destruct (start_pass start all s false) as [[[err|] can] s2] eqn:Hp;
    destruct (start_pass_ok all all s false _ _ _ ltac:(done) Hok Hp) as (Hok' & _); [by simplify_eq|].
  destruct (Nat.eqb _ _); [by simplify_eq|]. destruct can; [eauto|].
  destruct (List.find _ _); [|by simplify_eq]. case_match; by simplify_eq.
Qed.

Lemma start_loop_Ok fuel byTag all s s' :
  starting_ok all s → start_loop start kind fuel byTag all s = Some (Ok tt, s') →
  size (st_started s') = length all.
Proof.
  revert s. induction fuel as [|fuel IH]; intros s Hok Hl; cbn in Hl; [done|].
  destruct (start_pass start all s false) as [[[err|] can] s2] eqn:Hp; [done|].
  destruct (start_pass_ok all all s false _ _ _ ltac:(done) Hok Hp) as (Hok' & _).
  destruct (Nat.eqb_spec (size (st_started s2)) (length all)); [by simplify_eq|].
  destruct can; [eauto|]. destruct (List.find _ _); [|done]. case_match; by simplify_eq.
Qed.

Lemma start_all_order byTag all :
  ∃ r s, start_all start kind byTag all = Some (r, s) ∧
    NoDup (tags (st_order s)) ∧ deps_before (st_order s) ∧ st_order s ⊆ all ∧
    (r = Ok tt → tags (st_order s) ≡ₚ tags all).
Proof.
  destruct (start_loop_total (S (length all)) byTag all (mkStarting ∅ [])) as [[r s] Hl];
    [apply starting_ok_init|cbn; lia|].
  exists r, s. split; [done|].
  pose proof (start_loop_ok _ _ _ _ _ _ (starting_ok_init all) Hl) as Hok.
  destruct (Hok) as [Hs Hn Hd Hsub]. split_and!; [done..|]. intros ->.
  apply start_loop_Ok in Hl; [|apply starting_ok_init].
  rewrite (starting_ok_size all s Hok) in Hl.
  apply submseteq_length_Permutation; [|rewrite !length_fmap; lia].
  apply NoDup_submseteq; [done|]. set_solver.
Qed.

(** [a] depends on [b], by the outbound with its tag. *)
Definition depends_on (all : list Outbound) (a b : string) : Prop :=
  ∃ o, o ∈ all ∧ ob_Tag o = a ∧ b ∈ ob_Dependencies o.

(** Why a start that no outbound refused did not succeed. *)
Definition start_problem (byTag : gmap string Outbound) (all : list Outbound) (e : error)
    : Prop :=
  (∃ t path, e = E_New [AStr ("circular " +:+ kind +:+ " dependency: "); AStr path; AStr " -> ";
                       AStr t] ∧
     tc (depends_on all) t t) ∨
  (∃ o d, o ∈ all ∧ d ∈ ob_Dependencies o ∧ byTag !! d = None ∧
     e = E_New [AStr "dependency["; AStr d; AStr ("] not found for " +:+ kind +:+ "[");
                AStr (ob_Tag o); AStr "]"]).

Lemma lintOutbound_problem byTag all started fuel oTree o e :
  (∀ t o, byTag !! t = Some o → o ∈ all ∧ ob_Tag o = t) →
  (∀ o, o ∈ all → ob_Tag o ∈ started ∨ ∃ d, d ∈ ob_Dependencies o ∧ d ∉ started) →
  o ∈ all → ob_Tag o ∉ started → (∀ t, t ∈ oTree → rtc (depends_on all) t (ob_Tag o)) →
  lintOutbound kind fuel byTag started oTree o = Some e → start_problem byTag all e.
Proof.
  intros Hby Hstuck. revert oTree o. induction fuel as [|fuel IH]; intros oTree o Ho Hns Htree Hl;
    [done|]. cbn in Hl.
  destruct (List.find _ (ob_Dependencies o)) as [d|] eqn:Hfind; cbn in Hl.
  2:{ exfalso. destruct (Hstuck o Ho) as [?|(d & Hd & Hnd)]; [done|].
      eapply find_none in Hfind; [|by apply list_elem_of_In].
      cbn in Hfind. case_bool_decide; done. }
  apply find_some in Hfind as [Hd%list_elem_of_In Hnd]. cbn in Hnd.
  rewrite negb_true_iff, bool_decide_eq_false in Hnd.
  assert (depends_on all (ob_Tag o) d) as Hdep by (by exists o).
  case_bool_decide as Hin.
  - simplify_eq. left. exists d, (strings_Join oTree " -> "). split; [done|].
    eapply tc_rtc_l; [by apply Htree|by apply tc_once].
  - destruct (byTag !! d) as [o'|] eqn:Hp; [|simplify_eq; right; by exists o, d].
    destruct (Hby d o' Hp) as [Ho' Ht']. apply (IH _ _ Ho') in Hl; [done|by rewrite Ht'|].
    intros t [Ht| ->%list_elem_of_singleton]%elem_of_app; rewrite Ht'; [|done].
    eapply rtc_r; [by apply Htree|done].
Qed.

Lemma start_loop_problem byTag all fuel s e s' :
  (∀ t o, byTag !! t = Some o → o ∈ all ∧ ob_Tag o = t) →
  (∀ o, o ∈ all → start o = None) →
  start_loop start kind fuel byTag all s = Some (Err e, s') → start_problem byTag all e.
Proof.
  intros Hby Hno. revert s. induction fuel as [|fuel IH]; intros s Hl; [done|]. cbn [start_loop] in Hl.
  destruct (start_pass start all s false) as [[[err|] can] s2] eqn:Hp.
  - pose proof (start_pass_no_error all all s false Hno ltac:(done)) as Hn. by rewrite Hp in Hn.
  - destruct (Nat.eqb _ _); [done|]. destruct can; [eauto|].
    apply start_pass_stuck in Hp as [-> Hstuck].
    destruct (List.find _ all) as [o|] eqn:Hfind; [|done].
    apply find_some in Hfind as [Ho%list_elem_of_In Hns].
    rewrite negb_true_iff, bool_decide_eq_false in Hns.
    destruct (lintOutbound kind _ _ _ _ _) as [err|] eqn:Hlint; [|done]. simplify_eq.
    eapply lintOutbound_problem; [done..| |exact Hlint].
    intros t ->%list_elem_of_singleton. done.
Qed.

Lemma start_all_problem byTag all e s :
  (∀ t o, byTag !! t = Some o → o ∈ all ∧ ob_Tag o = t) →
  (∀ o, o ∈ all → start o = None) →
  start_all start kind byTag all = Some (Err e, s) → start_problem byTag all e.
Proof. intros Hby Hno. unfold start_all. by apply start_loop_problem. Qed.

Lemma start_loop_complete (rank : string → nat) byTag all fuel s r s' :
  NoDup (tags all) →
  (∀ o d, o ∈ all → d ∈ ob_Dependencies o → d ∈ tags all ∧ rank d < rank (ob_Tag o)) →
  (∀ o, o ∈ all → start o = None) →
  starting_ok all s → start_loop start kind fuel byTag all s = Some (r, s') → r = Ok tt.
Proof.
  intros Hnd Hrank Hno. revert s. induction fuel as [|fuel IH]; intros s Hok Hl; [done|]. cbn [start_loop] in Hl.
  destruct (start_pass start all s false) as [[[err|] can] s2] eqn:Hp.
  - pose proof (start_pass_no_error all all s false Hno ltac:(done)) as Hn. by rewrite Hp in Hn.
  - destruct (start_pass_ok all all s false _ _ _ ltac:(done) Hok Hp) as (Hok' & _).
    destruct (Nat.eqb_spec (size (st_started s2)) (length all)) as [|Hsize]; [by simplify_eq|].
    destruct can; [eauto|]. exfalso. apply start_pass_stuck in Hp as [-> Hstuck].
    assert (∀ n o, o ∈ all → rank (ob_Tag o) < n → ob_Tag o ∈ st_started s) as Hall.
    { induction n as [|n IHn]; intros o Ho Hlt; [lia|].
      destruct (Hstuck o Ho) as [?|(d & Hd & Hns)]; [done|]. destruct Hns.
      destruct (Hrank o d Ho Hd) as [(o' & -> & Ho')%list_elem_of_fmap ?]. apply IHn; [done|lia]. }
    apply Hsize. rewrite (starting_ok_size all s Hok). destruct Hok as [Hs Hn _ Hsub].
    rewrite <-(length_fmap ob_Tag), <-(length_fmap ob_Tag all).
    apply Permutation_length, NoDup_Permutation; [done..|]. intros t. split; [set_solver|].
    intros (o & -> & Ho)%list_elem_of_fmap. specialize (Hall (S (rank (ob_Tag o))) o Ho ltac:(lia)).
    set_solver.
Qed.

Lemma start_all_complete (rank : string → nat) byTag all :
  NoDup (tags all) →
  (∀ o d, o ∈ all → d ∈ ob_Dependencies o → d ∈ tags all ∧ rank d < rank (ob_Tag o)) →
  (∀ o, o ∈ all → start o = None) →
  ∃ s, start_all start kind byTag all = Some (Ok tt, s).
Proof.
  intros Hnd Hrank Hno.
  destruct (start_loop_total (S (length all)) byTag all (mkStarting ∅ [])) as [[r s] Hl];
    [apply starting_ok_init|cbn; lia|].
  exists s. rewrite <-(start_loop_complete rank byTag all _ _ r s Hnd Hrank Hno (starting_ok_init all) Hl).
  exact Hl.
Qed.

End StartTheorems.

Section OutboundStart.
Context `{OutboundCalls}.

(** C5: starting the outbounds always comes to an end; an outbound is started at most once and
    only after everything it depends on, and when the start succeeds, every outbound was started. *)
Theorem startOutbounds_order byTag all :
  ∃ r s, startOutbounds byTag all = Some (r, s) ∧
    NoDup (ob_Tag <$> st_order s) ∧ deps_before (st_order s) ∧ st_order s ⊆ all ∧
    (r = Ok tt → ob_Tag <$> st_order s ≡ₚ ob_Tag <$> all).
Proof. apply start_all_order. Qed.

(** C22: when no outbound refuses to start, the start fails only on a real problem: the error says
    "circular" only if the dependencies have a cycle through the tag it names last, and says that a
    dependency is missing only if the manager has no outbound of that tag. *)
Theorem startOutbounds_problem byTag all e s :
  (∀ t o, byTag !! t = Some o → o ∈ all ∧ ob_Tag o = t) →
  (∀ o, o ∈ all → (start_one o).1 = None) →
  startOutbounds byTag all = Some (Err e, s) → start_problem "outbound" byTag all e.
Proof. apply start_all_problem. Qed.

(** C21: outbounds with distinct tags whose dependencies all exist and have no cycle (they descend
    in some rank) all start, if none of them refuses. *)
Theorem startOutbounds_complete (rank : string → nat) byTag all :
  NoDup (ob_Tag <$> all) →
  (∀ o d, o ∈ all → d ∈ ob_Dependencies o → d ∈ ob_Tag <$> all ∧ rank d < rank (ob_Tag o)) →
  (∀ o, o ∈ all → (start_one o).1 = None) →
  ∃ s, startOutbounds byTag all = Some (Ok tt, s).
Proof. apply start_all_complete. Qed.

End OutboundStart.

(** ** The state of the manager *)

Section ManagerTheorems.
Context `{OutboundCalls}.

Abbreviation ids l := (ob_id <$> l).

(** The list and the map hold the same outbounds, no object is held twice, and the default is one
    of them or an endpoint. *)
Record Manager_wf (m : Manager) : Prop := {
  mw_tags : ∀ t o, outboundByTag m !! t = Some o ↔ o ∈ outbounds m ∧ ob_Tag o = t;
  mw_ids : NoDup (ids (outbounds m));
  mw_default : ∀ o, defaultOutbound m = Some o →
    o ∈ outbounds m ∨ ∃ t, EndpointManager_Get (endpoint m) t = Some o
}.

(** [dependByTag] says who depends on a tag. *)
Definition depend_ok (m : Manager) : Prop :=
  ∀ d t, t ∈ default [] (dependByTag m !! d) ↔
    ∃ o, o ∈ outbounds m ∧ ob_Tag o = t ∧ d ∈ ob_Dependencies o.

Lemma NewManager_wf e tag : Manager_wf (NewManager e tag) ∧ depend_ok (NewManager e tag).
Proof.
  split; [split; cbn; [set_solver|apply NoDup_nil_2|done]|].
  intros d t. cbn. rewrite lookup_empty. set_solver.
Qed.

Lemma remove_object_spec o l :
  NoDup (ids l) → o ∈ l → ∃ l', remove_object o l = Some l' ∧ l ≡ₚ o :: l'.
Proof.
  induction l as [|x l IH]; intros Hn Ho; [by apply elem_of_nil in Ho|].
  cbn in Hn. apply NoDup_cons in Hn as [Hx Hn]. cbn. unfold same_object.
  destruct (Z.eqb_spec (ob_id x) (ob_id o)) as [Heq|Hne].
  - exists l. split; [done|]. apply elem_of_cons in Ho as [->|Ho]; [done|].
    destruct Hx. rewrite Heq. by apply list_elem_of_fmap_2.
  - apply elem_of_cons in Ho as [->|Ho]; [done|].
    destruct (IH Hn Ho) as (l' & -> & Hp). exists (x :: l'). split; [done|]. rewrite Hp. constructor.
Qed.

Lemma add_dependencies_elem tag deps D d t :
  t ∈ default [] (add_dependencies tag deps D !! d) ↔
  t ∈ default [] (D !! d) ∨ (t = tag ∧ d ∈ deps).
Proof.
  unfold add_dependencies. revert D. induction deps as [|x deps IH]; intros D; cbn [fold_left].
  { set_solver. }
  rewrite IH. destruct (decide (d = x)) as [->|Hne].
  - rewrite lookup_insert_eq. cbn. set_solver.
  - rewrite lookup_insert_ne by done. set_solver.
Qed.

Lemma forget_dependencies_elem tag deps D d t :
  NoDup deps → (∀ x, x ∈ deps → tag ∈ default [] (D !! x)) →
  t ∈ default [] (forget_dependencies tag deps D !! d) ↔
  t ∈ default [] (D !! d) ∧ ¬ (t = tag ∧ d ∈ deps).
Proof.
  revert D. induction deps as [|x deps IH]; intros D Hn Hin; cbn [forget_dependencies].
  { set_solver. }
  apply NoDup_cons in Hn as [Hx Hn].
  assert (∀ l, length l = 1 → tag ∈ l → l = [tag]) as Hone.
  { intros [|y [|]] ? Hy; try done. by apply list_elem_of_singleton in Hy as ->. }
  rewrite IH; [|done|].
  2:{ intros y Hy. assert (y ≠ x) by (intros ->; done).
      destruct (Nat.eqb _ _); [rewrite lookup_delete_ne by done|rewrite lookup_insert_ne by done];
        apply Hin; by apply list_elem_of_further. }
  destruct (decide (d = x)) as [->|Hne].
  - specialize (Hin x (list_elem_of_here _ _)).
    destruct (Nat.eqb_spec (length (default [] (D !! x))) 1) as [Hl|Hl].
    + rewrite lookup_delete_eq, (Hone _ Hl Hin). set_solver.
    + rewrite lookup_insert_eq. cbn. rewrite list_elem_of_In, filter_In, negb_true_iff,
        String.eqb_neq, <-list_elem_of_In. set_solver.
  - destruct (Nat.eqb _ _); [rewrite lookup_delete_ne by done|rewrite lookup_insert_ne by done];
      set_solver.
Qed.

(** Creating an outbound under a new tag either fails and leaves the manager as it was, or
    registers the outbound at the end of the list, under its tag, and notes its dependencies; the
    default changes only when the tag is the configured one or there was no default. *)
Theorem Manager_Create_fresh tag o m r m' calls :
  Manager_wf m → depend_ok m → ob_Tag o = tag → ob_id o ∉ ids (outbounds m) →
  outboundByTag m !! tag = None → Manager_Create tag (Ok o) m = (r, m', calls) →
  Manager_wf m' ∧ depend_ok m' ∧
  (m' = m ∧ r ≠ Ok tt ∨
   r = Ok tt ∧ outbounds m' = outbounds m ++ [o] ∧ Manager_Outbound m' tag = Some o ∧
   (defaultOutbound m' = defaultOutbound m ∨
    defaultOutbound m' = Some o ∧ (defaultTag m = tag ∨ defaultOutbound m = None))).
Proof.
  intros [Ht Hn Hd] Hdep Htag Hid Hnew. unfold depend_ok in Hdep |- *. unfold Manager_Create.
  destruct (String.eqb tag ""); [by intros [= <- <- <-]; auto using Build_Manager_wf|].
  destruct (if started m then _ else _) as [[err|] calls1];
    [by intros [= <- <- <-]; auto using Build_Manager_wf|].
  rewrite Hnew.
  assert (∀ t x, <[tag := o]> (outboundByTag m) !! t = Some x ↔ x ∈ outbounds m ++ [o] ∧ ob_Tag x = t)
    as Htags.
  { intros t x. rewrite elem_of_app, list_elem_of_singleton, lookup_insert_Some, Ht.
    split; [naive_solver|]. intros [[Hx| ->] <-]; [right|by left]. split; [|done]. intros Heq.
    assert (outboundByTag m !! tag = Some x) by (by apply Ht). congruence. }
  assert (NoDup (ids (outbounds m ++ [o]))) as Hids.
  { rewrite fmap_app. apply NoDup_app. split; [done|]. split; [|apply NoDup_singleton].
    intros x Hx ->%list_elem_of_singleton. done. }
  assert (∀ d t, t ∈ default [] (add_dependencies tag (ob_Dependencies o) (dependByTag m) !! d) ↔
    ∃ x, x ∈ outbounds m ++ [o] ∧ ob_Tag x = t ∧ d ∈ ob_Dependencies x) as Hdeps.
  { intros d t. rewrite add_dependencies_elem, Hdep. split.
    - intros [(x & ? & ? & ?)|[-> ?]]; [exists x|exists o]; rewrite elem_of_app; auto.
      rewrite list_elem_of_singleton. auto.
    - intros (x & [Hx|Hx]%elem_of_app & <- & Hdx); [left; eauto|].
      apply list_elem_of_singleton in Hx as ->. auto. }
  match goal with |- context [if ?b then _ <| defaultOutbound := _ |> else _] =>
    destruct b eqn:Eb end; intros [= <- <- <-].
  all: split; [split; cbn; [done|done|]|split; [done|right; split_and!; try done]].
  - intros x [= <-]. left. set_solver.
  - unfold Manager_Outbound. cbn. by rewrite lookup_insert_eq.
  - right. split; [done|]. apply orb_true_iff in Eb as [Eb|[_ Eb]%andb_true_iff].
    + left. by apply String.eqb_eq in Eb.
    + right. cbn in Eb. by destruct (defaultOutbound m).
  - intros x Hx. destruct (Hd x Hx); [left; set_solver|by right].
  - unfold Manager_Outbound. cbn. by rewrite lookup_insert_eq.
  - by left.
Qed.

(** What removing an outbound leaves in the map by tag, and who still depends on what. *)
Lemma removed_by_tag tag o m l :
  (∀ t x, outboundByTag m !! t = Some x ↔ x ∈ outbounds m ∧ ob_Tag x = t) →
  outboundByTag m !! tag = Some o → outbounds m ≡ₚ o :: l → o ∉ l →
  ∀ t x, delete tag (outboundByTag m) !! t = Some x ↔ x ∈ l ∧ ob_Tag x = t.
Proof.
  intros Ht Hby Hp Hno t x. destruct (proj1 (Ht tag o) Hby) as [_ Htag].
  rewrite lookup_delete_Some, Ht, Hp, elem_of_cons.
  split; [intros (? & [->|] & ?); [congruence|done]|].
  intros [Hx <-]. split_and!; [|by right|done]. intros Heq.
  assert (outboundByTag m !! tag = Some x) as Hx' by (apply Ht; rewrite Hp, elem_of_cons; auto).
  congruence.
Qed.

Lemma removed_dependents tag o m l :
  depend_ok m → outbounds m ≡ₚ o :: l → ob_Tag o = tag →
  (∀ t x, delete tag (outboundByTag m) !! t = Some x ↔ x ∈ l ∧ ob_Tag x = t) →
  ∀ d t, t ∈ default [] (dependByTag m !! d) ∧ ¬ (t = tag ∧ d ∈ ob_Dependencies o) ↔
    ∃ x, x ∈ l ∧ ob_Tag x = t ∧ d ∈ ob_Dependencies x.
Proof.
  intros Hdep Hp Htag Htags d t. rewrite (Hdep d t). split.
  { intros [(x & Hx & <- & Hdx) Hno']. rewrite Hp in Hx.
    apply elem_of_cons in Hx as [->|Hx]; [destruct Hno'; auto|eauto]. }
  intros (x & Hx & <- & Hdx). split; [exists x; rewrite Hp, elem_of_cons; auto|]. intros [Heq _].
  pose proof (proj2 (Htags (ob_Tag x) x) (conj Hx eq_refl)) as [Hx' _]%lookup_delete_Some. done.
Qed.

Lemma depended_on tag m :
  depend_ok m → nonempty (default [] (dependByTag m !! tag)) =
  bool_decide (Exists (λ o', tag ∈ ob_Dependencies o') (outbounds m)).
Proof.
  intros Hdep. specialize (Hdep tag). symmetry.
  destruct (default [] (dependByTag m !! tag)) as [|t ts]; cbn.
  - apply bool_decide_eq_false. intros (x & Hx & Hdx)%Exists_exists. apply (elem_of_nil (ob_Tag x)).
    apply Hdep. eauto.
  - apply bool_decide_eq_true. destruct (proj1 (Hdep t) (list_elem_of_here _ _)) as (x&?&?&?).
    apply Exists_exists. eauto.
Qed.

(** Removing an outbound takes it out of the manager and keeps the manager consistent, and the
    default moves to the first outbound left; when other outbounds depend on it the removal is
    reported as an error, but the outbound is gone all the same, and it is not closed. *)
Theorem Manager_Remove_spec tag o m r m' calls :
  Manager_wf m → depend_ok m → NoDup (ob_Dependencies o) →
  outboundByTag m !! tag = Some o → Manager_Remove tag m = (r, m', calls) →
  Manager_wf m' ∧ outbounds m ≡ₚ o :: outbounds m' ∧ outboundByTag m' !! tag = None ∧
  (defaultOutbound m = Some o → defaultOutbound m' = head (outbounds m')) ∧
  if decide (Exists (λ o', tag ∈ ob_Dependencies o') (outbounds m))
  then (∃ parts, r = Err (E_New parts)) ∧ calls = []
  else depend_ok m' ∧ calls = (if started m then [(o, Call_CommonClose)] else []).
Proof.
  intros [Ht Hn Hd] Hdep Hnd Hby. destruct (proj1 (Ht tag o) Hby) as [Hin Htag].
  unfold Manager_Remove. rewrite Hby.
  destruct (remove_object_spec o (outbounds m) Hn Hin) as (l & Hl & Hp). cbn. rewrite Hl. cbn.
  assert (NoDup (ids (o :: l))) as Hn' by (by rewrite <-Hp).
  cbn in Hn'. apply NoDup_cons in Hn' as [Hol Hnl].
  assert (o ∉ l) as Hno by (intros Hol'; apply Hol; by apply list_elem_of_fmap_2).
  assert (∀ t x, delete tag (outboundByTag m) !! t = Some x ↔ x ∈ l ∧ ob_Tag x = t) as Htags
    by (by apply (removed_by_tag tag o m l)).
  assert (∀ x, x ∈ outbounds m ↔ x = o ∨ x ∈ l) as Hmem by (intros x; rewrite Hp; apply elem_of_cons).
  assert (∀ d t, t ∈ default [] (dependByTag m !! d) ∧ ¬ (t = tag ∧ d ∈ ob_Dependencies o) ↔
    ∃ x, x ∈ l ∧ ob_Tag x = t ∧ d ∈ ob_Dependencies x) as Hforget
    by (by apply removed_dependents).
  match goal with |- context [nonempty (default [] (dependByTag ?x !! tag))] => set (m1 := x) end.
  assert (outbounds m1 = l ∧ outboundByTag m1 = delete tag (outboundByTag m) ∧
    dependByTag m1 = dependByTag m ∧ started m1 = started m ∧ endpoint m1 = endpoint m)
    as (E1 & E2 & E3 & E4 & E5).
  { unfold m1. destruct (defaultOutbound m) as [d|]; [|done]. by destruct (same_object o d). }
  assert (Manager_wf m1 ∧ (defaultOutbound m = Some o → defaultOutbound m1 = head l)) as [Hwf1 Hd1].
  { split; [split; rewrite ?E1, ?E2, ?E5; [done|done|]|].
    - intros x. unfold m1. destruct (defaultOutbound m) as [d|] eqn:Ed; [|cbn; congruence].
      unfold same_object. destruct (Z.eqb_spec (ob_id d) (ob_id o)); cbn.
      + destruct l; cbn; intros [= ->]. left. apply list_elem_of_here.
      + intros [= ->]. destruct (Hd x eq_refl) as [[->|]%Hmem|]; [done|by left|by right].
    - unfold m1. intros ->. unfold same_object. by rewrite Z.eqb_refl. }
  clearbody m1. rewrite E3, E4.
  rewrite (depended_on tag m Hdep).
  case_bool_decide as Hex.
  - rewrite decide_True by done. intros [= <- <- <-]. rewrite E1, E2. split_and!; [done|done|apply lookup_delete_eq|done|by eexists|done].
  - rewrite decide_False by done. assert (∀ t, (forget_dependencies tag (ob_Dependencies o) (dependByTag m)) = t →
      Manager_wf (m1 <| dependByTag := t |>) ∧ depend_ok (m1 <| dependByTag := t |>)) as Hfin.
    { intros ? <-. split; [by destruct Hwf1; split|]. intros d t. cbn. rewrite E1, <-Hforget.
      apply forget_dependencies_elem; [done|]. intros x Hx. apply Hdep. eauto. }
    destruct (Hfin _ eq_refl) as [Hw2 Hd2].
    destruct (started m); intros [= <- <- <-];
      (split; [by destruct Hw2; split|]; split; [cbn; by rewrite E1|];
       split; [cbn; rewrite E2; apply lookup_delete_eq|];
       split; [cbn; by rewrite E1|]; split; [exact Hd2|done]).
Qed.

(** When the default was chosen as the first outbound created, creating another outbound under
    its tag replaces it in the manager but leaves it the default: [Default] answers with an outbound
    that is not in the manager any more (and that was closed, if the manager was started). *)
Theorem Manager_Create_stale_default tag old o m m' calls :
  Manager_wf m → defaultTag m = ""%string → defaultOutbound m = Some old → ob_Tag old = tag →
  outboundByTag m !! tag = Some old → ob_id o ≠ ob_id old →
  Manager_Create tag (Ok o) m = (Ok tt, m', calls) →
  Manager_Default m' = Some old ∧ old ∉ outbounds m' ∧ Manager_Outbound m' tag = Some o ∧
  (started m = true → (old, Call_CommonClose) ∈ calls).
Proof.
  intros [Ht Hn Hd] Hdt Hdef Htag Hby Hid. unfold Manager_Create. rewrite Hby.
  destruct (String.eqb tag "") eqn:Etag; [done|].
  destruct (proj1 (Ht tag old) Hby) as [Hin _].
  destruct (remove_object_spec old (outbounds m) Hn Hin) as (l & Hl & Hp). rewrite Hl.
  assert (NoDup (ids (old :: l))) as Hn' by (by rewrite <-Hp).
  cbn in Hn'. apply NoDup_cons in Hn' as [Hol _].
  destruct (if started m then start_stages _ _ else _) as [[err|] calls1]; [done|].
  destruct (started m); [destruct (outbound_call old Call_CommonClose); [done|]|];
    cbn; rewrite Hdt, Hdef; cbn; rewrite Etag; cbn; intros [= <- <-]; unfold Manager_Default,
    Manager_Outbound; cbn; rewrite ?Hdef, ?lookup_insert_eq; split_and!; try done.
  1,3: intros [Hol'|Hol']%elem_of_app;
    [apply Hol; by apply list_elem_of_fmap_2|apply list_elem_of_singleton in Hol' as ->; done].
  intros _. apply elem_of_app. right. apply list_elem_of_here.
Qed.

End ManagerTheorems.

(** The manager implements the interface: its answers carry the tag they were asked for. *)
Section Interface.

Definition endpoints_ok (e : EndpointManager) : Prop :=
  ∀ t o, EndpointManager_Get e t = Some o → ob_Tag o = t.

Lemma Manager_Outbound_tag m tag o :
  Manager_wf m ∧ endpoints_ok (endpoint m) → Manager_Outbound m tag = Some o → ob_Tag o = tag.
Proof.
  intros [[Ht _ _] He]. unfold Manager_Outbound. destruct (outboundByTag m !! tag) eqn:E; [|apply He].
  intros [= ->]. by apply Ht in E as [_ ?].
Qed.

#[export] Instance Manager_lookup : OutboundLookup Manager := {|
  lookup_outbound := Manager_Outbound;
  default_outbound := Manager_Default;
  lookup_ok m := Manager_wf m ∧ endpoints_ok (endpoint m);
  lookup_outbound_tag := Manager_Outbound_tag
|}.

End Interface.

(** ** Concrete managers *)

(** Outbounds that start and close without error. *)
Definition quiet_calls : OutboundCalls := {| outbound_call _ _ := None |}.

Definition sample_outbound (id : Z) (tag : string) (deps : list string) : Outbound :=
  mkOutbound id "direct" tag ["tcp"; "udp"]%string deps IsLifecycle true false.

Definition no_endpoints : EndpointManager := mkEndpointManager [] ∅.

(** The manager after creating [proxy], which dials through [hop], and then [hop]. *)
Definition sample_manager : Manager :=
  let step tag o m := (Manager_Create (H := quiet_calls) tag (Ok o) m).1.2 in
  step "hop"%string (sample_outbound 2 "hop" [])
    (step "proxy"%string (sample_outbound 1 "proxy" ["hop"%string])
       (NewManager no_endpoints "")).

Lemma sample_manager_outbounds :
  outbounds sample_manager =
    [sample_outbound 1 "proxy" ["hop"%string]; sample_outbound 2 "hop" []].
Proof. by vm_compute. Qed.

Lemma sample_manager_wf : Manager_wf sample_manager ∧ depend_ok sample_manager.
Proof.
  assert (∀ t o, outboundByTag sample_manager !! t = Some o ↔
    o ∈ outbounds sample_manager ∧ ob_Tag o = t) as Ht.
  { intros t o. replace (outboundByTag sample_manager) with
      (<["hop"%string := sample_outbound 2 "hop" []]>
        {["proxy"%string := sample_outbound 1 "proxy" ["hop"%string]]} : gmap string Outbound)
      by (by vm_compute).
    rewrite lookup_insert_Some, lookup_singleton_Some, sample_manager_outbounds.
    rewrite !elem_of_cons, elem_of_nil. split; [naive_solver|].
    intros [[->|[->|[]]] <-]; [right; split; [done|auto]|left; auto]. }
  split; [split; [exact Ht| |]|].
  - rewrite sample_manager_outbounds. apply NoDup_ListNoDup.
    repeat constructor; cbn; intuition lia.
  - rewrite sample_manager_outbounds. intros o. cbn. intros [= <-]. left. apply list_elem_of_here.
  - intros d t. rewrite sample_manager_outbounds. replace (dependByTag sample_manager) with
      ({["hop"%string := ["proxy"%string]]} : gmap string (list string)) by (by vm_compute).
    cbn. destruct (decide (d = "hop"%string)) as [->|Hd].
    + rewrite lookup_singleton_eq. cbn. rewrite list_elem_of_singleton. split.
      * intros ->. exists (sample_outbound 1 "proxy" ["hop"%string]). cbn. set_solver.
      * intros (o & Ho & <- & Hd). apply elem_of_cons in Ho as [->|Ho]; [done|].
        apply list_elem_of_singleton in Ho as ->. by apply elem_of_nil in Hd.
    + rewrite lookup_singleton_ne by done. cbn. split; [by intros ?%elem_of_nil|].
      intros (o & Ho & <- & Hd'). apply elem_of_cons in Ho as [->|Ho]; [set_solver|].
      apply list_elem_of_singleton in Ho as ->. by apply elem_of_nil in Hd'.
Qed.

(** A proxy and its hop that depend on each other. *)
Definition looping_outbounds : list Outbound :=
  [sample_outbound 1 "proxy" ["hop"%string]; sample_outbound 2 "hop" ["proxy"%string]].

Definition looping_byTag : gmap string Outbound :=
  <["hop"%string := sample_outbound 2 "hop" ["proxy"%string]]>
    {["proxy"%string := sample_outbound 1 "proxy" ["hop"%string]]}.

Definition looping_error : error :=
  E_New [AStr "circular outbound dependency: "; AStr "proxy -> hop"; AStr " -> "; AStr "proxy"].

Lemma startOutbounds_problem_witness :
  startOutbounds (H := quiet_calls) looping_byTag looping_outbounds
    = Some (Err looping_error, mkStarting ∅ []) ∧
  start_problem "outbound" looping_byTag looping_outbounds looping_error.
Proof.
  assert (startOutbounds (H := quiet_calls) looping_byTag looping_outbounds
    = Some (Err looping_error, mkStarting ∅ [])) as Hs by (vm_compute; reflexivity).
  split; [exact Hs|]. eapply (startOutbounds_problem (H := quiet_calls)); [| |exact Hs].
  - unfold looping_byTag, looping_outbounds. intros t o.
    rewrite lookup_insert_Some, lookup_singleton_Some, !elem_of_cons.
    intros [[<- <-]|[_ [<- <-]]]; (split; [auto|done]).
  - intros o Ho. unfold looping_outbounds in Ho.
    apply elem_of_cons in Ho as [->|Ho]; [done|]. by apply list_elem_of_singleton in Ho as ->.
Defined.

Lemma startOutbounds_complete_witness :
  ∃ s, startOutbounds (H := quiet_calls) (outboundByTag sample_manager) (outbounds sample_manager)
       = Some (Ok tt, s).
Proof.
  rewrite sample_manager_outbounds.
  apply (startOutbounds_complete (H := quiet_calls)
    (λ t, if String.eqb t "proxy" then 1%nat else 0%nat)).
  - cbn. apply NoDup_ListNoDup. repeat constructor; cbn; intuition congruence.
  - intros o d Ho Hd. cbn in Ho. apply elem_of_cons in Ho as [->|Ho].
    + apply list_elem_of_singleton in Hd as ->. split; [cbn; set_solver|cbn; lia].
    + apply list_elem_of_singleton in Ho as ->. by apply elem_of_nil in Hd.
  - intros o _. unfold start_one. by destruct (ob_lifecycle o) as [|? [] ?].
Defined.

Lemma Manager_Create_fresh_witness :
  let '(r, m', calls) := Manager_Create (H := quiet_calls) "hop2"
      (Ok (sample_outbound 3 "hop2" ["hop"%string])) sample_manager in
  Manager_wf m' ∧ depend_ok m' ∧ r = Ok tt ∧ (length (outbounds m') = 3)%nat.
Proof.
  destruct (Manager_Create _ _ _) as [[r m'] calls] eqn:E.
  destruct (Manager_Create_fresh (H := quiet_calls) "hop2" (sample_outbound 3 "hop2" ["hop"%string])
    sample_manager r m' calls) as (Hw & Hd & Hr).
  - apply sample_manager_wf.
  - apply sample_manager_wf.
  - done.
  - rewrite sample_manager_outbounds. cbn. rewrite !elem_of_cons, elem_of_nil. intuition lia.
  - by vm_compute.
  - exact E.
  - split; [exact Hw|]. split; [exact Hd|].
    pose proof (f_equal (λ x, x.1.1) E) as Er.
    pose proof (f_equal (λ x, length (outbounds x.1.2)) E) as Em. cbn [fst snd] in Er, Em.
    rewrite <-Er, <-Em. by vm_compute.
Defined.

Lemma Manager_Remove_spec_witness :
  let '(r, m', calls) := Manager_Remove (H := quiet_calls) "hop" sample_manager in
  Manager_wf m' ∧ outboundByTag m' !! "hop"%string = None ∧ is_ok r = false ∧ calls = [].
Proof.
  destruct (Manager_Remove _ _) as [[r m'] calls] eqn:E.
  destruct (Manager_Remove_spec (H := quiet_calls) "hop" (sample_outbound 2 "hop" [])
    sample_manager r m' calls) as (Hw & _ & Hg & _ & Hd).
  - apply sample_manager_wf.
  - apply sample_manager_wf.
  - apply NoDup_nil_2.
  - by vm_compute.
  - exact E.
  - rewrite decide_True in Hd by (apply Exists_cons_hd; cbn; set_solver).
    destruct Hd as [[parts ->] ->]. done.
Defined.

Lemma Manager_Create_stale_default_witness :
  let o := sample_outbound 3 "proxy" [] in
  let '(r, m', calls) := Manager_Create (H := quiet_calls) "proxy" (Ok o) sample_manager in
  Manager_Outbound m' "proxy" = Some o ∧ Manager_Default m' ≠ Some o.
Proof.
  intros o. destruct (Manager_Create _ _ _) as [[r m'] calls] eqn:E.
  assert (r = Ok tt) as ->.
  { apply (f_equal (λ x, x.1.1)) in E. vm_compute in E. by rewrite <-E. }
  destruct (Manager_Create_stale_default (H := quiet_calls) "proxy"
    (sample_outbound 1 "proxy" ["hop"%string]) o sample_manager m' calls) as (Hd & _ & Ho & _).
  - apply sample_manager_wf.
  - done.
  - done.
  - done.
  - by vm_compute.
  - done.
  - exact E.
  - rewrite Hd. done.
Defined.
