(* ===== verification/Managers.v ===== *)
(** * The managers of inbounds, endpoints, services and DNS transports, and the box (box.go)

    The managers of inbounds, endpoints and services (adapter/*/manager.go) are the same code over
    other objects; the one of DNS transports (dns/transport_manager.go) is like that of outbounds,
    with a fake IP transport of its own.  Objects are seen as in [Outbound]: a tag, dependencies,
    lifecycle methods.  The box starts all of them stage by stage. *)

From stdpp Require Import base gmap strings list numbers relations.
From S2P Require Import Prelude GoStd Outbound.

Local Open Scope Z_scope.

(** ** Objects without dependencies *)

(** [adapter/inbound/manager.go:20-29] Manager *)
Record ObjectManager : Type := mkObjectManager {
  om_started : bool;
  om_stage : StartStage;
  om_objects : list Outbound;
  om_byTag : gmap string Outbound
}.
#[global] Instance ObjectManager_settable : Settable ObjectManager :=
  {| mkT r := mkObjectManager (om_started r) (om_stage r) (om_objects r) (om_byTag r) |}.

Section Objects.
Context `{OutboundCalls}.
(** ["inbound"], ["endpoint"] or ["service"]. *)
Variable kind : string.

(** [adapter/inbound/manager.go:31-38] NewManager *)
Definition NewObjectManager : ObjectManager :=
  mkObjectManager false StartStateInitialize [] ∅.

(** [adapter/inbound/manager.go:50] (Manager).Start (name) *)
Definition object_name (o : Outbound) : string :=
  kind +:+ "/" +:+ ob_Type o +:+ "[" +:+ ob_Tag o +:+ "]".

(** One stage over the objects; the first error ends it.

    [adapter/inbound/manager.go:49-59] (Manager).Start (loop) *)
Fixpoint run_stage (stage : StartStage) (objects : list Outbound) : res unit * Calls :=
  match objects with
  | [] => (Ok tt, [])
  | o :: rest =>
      match LegacyStart o stage with
      | (Some err, calls) =>
          (Err (E_Cause err [AStr (StartStage_String stage); AStr " "; AStr (object_name o)]), calls)
      | (None, calls) => let '(r, calls') := run_stage stage rest in (r, calls ++ calls')
      end
  end.

(** The endpoints leave the stage [StartStateStart] to the outbound manager.

    [adapter/inbound/manager.go:40-60] (Manager).Start *)
Definition Object_Start (skip : StartStage → bool) (newStage : StartStage) (m : ObjectManager)
    : res unit * ObjectManager * Calls :=
  if om_started m && Z.leb (StartStage_index newStage) (StartStage_index (om_stage m))
  then (Panic [AStr "already started"], m, []) else
  let m := m <| om_started := true |> <| om_stage := newStage |> in
  if skip newStage then (Ok tt, m, []) else
  let '(r, calls) := run_stage newStage (om_objects m) in (r, m, calls).

(** The errors of closing are collected and dropped; the map is left as it is.

    [adapter/inbound/manager.go:62-85] (Manager).Close *)
Definition Object_Close (m : ObjectManager) : ObjectManager * Calls :=
  if negb (om_started m) then (m, []) else
  (m <| om_started := false |> <| om_objects := [] |>, (λ o, (o, Call_Close)) <$> om_objects m).

(** [adapter/inbound/manager.go:103-124] (Manager).Remove *)
Definition Object_Remove (tag : string) (m : ObjectManager) : res unit * ObjectManager * Calls :=
  match om_byTag m !! tag with
  | None => (Err os_ErrInvalid, m, [])
  | Some object =>
      let m := m <| om_byTag := delete tag (om_byTag m) |> in
      match remove_object object (om_objects m) with
      | None => (Panic [AStr ("invalid " +:+ kind +:+ " index")], m, [])
      | Some l =>
          let m := m <| om_objects := l |> in
          if om_started m
          then (match outbound_call object Call_Close with Some err => Err err | None => Ok tt end,
                m, [(object, Call_Close)])
          else (Ok tt, m, [])
      end
  end.

(** [adapter/inbound/manager.go:133-144] (Manager).Create (start) *)
Fixpoint run_stages (stages : list StartStage) (o : Outbound) : option error * Calls :=
  match stages with
  | [] => (None, [])
  | stage :: rest =>
      match LegacyStart o stage with
      | (Some err, calls) =>
          (Some (E_Cause err [AStr (StartStage_String stage); AStr " "; AStr (object_name o)]), calls)
      | (None, calls) => let '(r, calls') := run_stages rest o in (r, calls ++ calls')
      end
  end.

(** The object that has the tag already is closed and taken out; what the manager holds without it.

    [adapter/inbound/manager.go:145-159] (Manager).Create (exists) *)
Definition replace_object (tag : string) (m : ObjectManager)
    : option error * option (list Outbound) * Calls :=
  match om_byTag m !! tag with
  | None => (None, Some (om_objects m), [])
  | Some existsObject =>
      let others := remove_object existsObject (om_objects m) in
      if om_started m then
        match outbound_call existsObject Call_Close with
        | Some err =>
            (Some (E_Cause err [AStr ("close " +:+ kind +:+ "/"); AStr (ob_Type existsObject);
                     AStr "["; AStr (ob_Tag existsObject); AStr "]"]), others,
             [(existsObject, Call_Close)])
        | None => (None, others, [(existsObject, Call_Close)])
        end
      else (None, others, [])
  end.

(** [created] is the answer of the registry.

    [adapter/inbound/manager.go:126-163] (Manager).Create *)
Definition Object_Create (tag : string) (created : res Outbound) (m : ObjectManager)
    : res unit * ObjectManager * Calls :=
  match created with
  | Err e => (Err e, m, [])
  | Panic p => (Panic p, m, [])
  | Ok object =>
      let '(startErr, calls) :=
        if om_started m then run_stages ListStartStages object else (None, []) in
      match startErr with
      | Some e => (Err e, m, calls)
      | None =>
          match replace_object tag m with
          | (Some e, _, calls') => (Err e, m, calls ++ calls')
          | (None, None, calls') =>
              (Panic [AStr ("invalid " +:+ kind +:+ " index")], m, calls ++ calls')
          | (None, Some l, calls') =>
              (Ok tt, m <| om_objects := l ++ [object] |> <| om_byTag := <[tag := object]> (om_byTag m) |>,
               calls ++ calls')
          end
      end
  end.

End Objects.

Definition never (stage : StartStage) : bool := false.

(** *** Inbounds *)

Section Managers.
Context `{OutboundCalls}.

(** [adapter/inbound/manager.go:40-60] (Manager).Start *)
Definition Inbound_Start := Object_Start "inbound" never.
(** [adapter/inbound/manager.go:87-91] (Manager).Inbounds *)
Definition Inbounds (m : ObjectManager) : list Outbound := om_objects m.
(** [adapter/inbound/manager.go:93-101] (Manager).Get *)
Definition Inbound_Get (endpoint : EndpointManager) (m : ObjectManager) (tag : string)
    : option Outbound :=
  match om_byTag m !! tag with
  | Some inbound => Some inbound
  | None => EndpointManager_Get endpoint tag
  end.
(** [adapter/inbound/manager.go:103-124] (Manager).Remove *)
Definition Inbound_Remove := Object_Remove "inbound".
(** [adapter/inbound/manager.go:126-163] (Manager).Create *)
Definition Inbound_Create := Object_Create "inbound".

(** *** Endpoints *)

(** [adapter/endpoint/manager.go:38-61] (Manager).Start *)
Definition Endpoint_Start :=
  Object_Start "endpoint" (λ stage, bool_decide (stage = StartStateStart)).
(** [adapter/endpoint/manager.go:63-86] (Manager).Close *)
Definition Endpoint_Close := Object_Close.
(** [adapter/endpoint/manager.go:101-122] (Manager).Remove *)
Definition Endpoint_Remove := Object_Remove "endpoint".
(** [adapter/endpoint/manager.go:124-161] (Manager).Create *)
Definition Endpoint_Create := Object_Create "endpoint".

(** What the other managers ask of the endpoints. *)
Definition endpoint_view (m : ObjectManager) : EndpointManager :=
  mkEndpointManager (om_objects m) (om_byTag m).

(** *** Services *)

(** [adapter/service/manager.go:38-58] (Manager).Start *)
Definition Service_Start := Object_Start "service" never.
(** [adapter/service/manager.go:60-83] (Manager).Close *)
Definition Service_Close := Object_Close.
(** [adapter/service/manager.go:85-89] (Manager).Services *)
Definition Services (m : ObjectManager) : list Outbound := om_objects m.
(** [adapter/service/manager.go:91-96] (Manager).Get *)
Definition Service_Get (m : ObjectManager) (tag : string) : option Outbound := om_byTag m !! tag.
(** [adapter/service/manager.go:98-119] (Manager).Remove *)
Definition Service_Remove := Object_Remove "service".
(** [adapter/service/manager.go:121-158] (Manager).Create *)
Definition Service_Create := Object_Create "service".

End Managers.

(** ** DNS transports (dns/transport_manager.go) *)

(** [constant/dns.go:28] DNSTypeFakeIP *)
Definition DNSTypeFakeIP : string := "fakeip".

(** [dns/transport_manager.go:21-35] TransportManager *)
Record TransportManager : Type := mkTransportManager {
  t_defaultTag : string;
  t_started : bool;
  t_stage : StartStage;
  transports : list Outbound;
  transportByTag : gmap string Outbound;
  t_dependByTag : gmap string (list string);
  defaultTransport : option Outbound;
  defaultTransportFallback : option (res Outbound);
  fakeIPTransport : option Outbound
}.
#[global] Instance TransportManager_settable : Settable TransportManager :=
  {| mkT r := mkTransportManager (t_defaultTag r) (t_started r) (t_stage r) (transports r)
       (transportByTag r) (t_dependByTag r) (defaultTransport r) (defaultTransportFallback r)
       (fakeIPTransport r) |}.

(** [dns/transport_manager.go:37-46] NewTransportManager *)
Definition NewTransportManager (defaultTag : string) : TransportManager :=
  mkTransportManager defaultTag false StartStateInitialize [] ∅ ∅ None None None.

(** [dns/transport_manager.go:48-50] (TransportManager).Initialize *)
Definition Transport_Initialize (fallback : res Outbound) (m : TransportManager) : TransportManager :=
  m <| defaultTransportFallback := Some fallback |>.

Section Transports.
Context `{OutboundCalls}.

(** ["dns/", transport.Type(), "[", transport.Tag(), "]"] *)
Definition transport_parts (word : string) (o : Outbound) : list arg :=
  [AStr word; AStr (ob_Type o); AStr "["; AStr (ob_Tag o); AStr "]"].

(** [dns/transport_manager.go:109-117] (TransportManager).startTransports (start one) *)
Definition start_transport (o : Outbound) : option error * Calls :=
  match ob_lifecycle o with
  | IsLifecycle =>
      (match outbound_call o (Call_Start StartStateStart) with
       | Some err => Some (E_Cause err (transport_parts "start dns/" o))
       | None => None
       end, [(o, Call_Start StartStateStart)])
  | IsLegacy _ _ _ => (None, [])
  end.

(** [dns/transport_manager.go:90-146] (TransportManager).startTransports *)
Definition startTransports (byTag : gmap string Outbound) (transports : list Outbound)
    : option (res unit * Starting) :=
  start_all (λ o, (start_transport o).1) "server" byTag transports.

(** [dns/transport_manager.go:80-85] (TransportManager).Start (other stages) *)
Fixpoint transport_stage (stage : StartStage) (l : list Outbound) : res unit * Calls :=
  match l with
  | [] => (Ok tt, [])
  | o :: rest =>
      match LegacyStart o stage with
      | (Some err, calls) =>
          (Err (E_Cause err (AStr (StartStage_String stage) :: transport_parts " dns/" o)), calls)
      | (None, calls) => let '(r, calls') := transport_stage stage rest in (r, calls ++ calls')
      end
  end.

(** [dns/transport_manager.go:60-73] (TransportManager).Start (default) *)
Definition settle_default_transport (m : TransportManager) : res TransportManager :=
  match defaultTransport m with
  | Some _ => Ok m
  | None =>
      if negb (String.eqb (t_defaultTag m) "")
      then Err (E_New [AStr "default DNS server not found: "; AStr (t_defaultTag m)]) else
      match defaultTransportFallback m with
      | None => Panic [AStr "nil pointer dereference"]
      | Some (Ok o) =>
          Ok (m <| transports := transports m ++ [o] |>
                <| transportByTag := <[ob_Tag o := o]> (transportByTag m) |>
                <| defaultTransport := Some o |>)
      | Some (Err err) => Err (E_Cause err [AStr "default DNS server fallback"])
      | Some (Panic p) => Panic p
      end
  end.

(** [dns/transport_manager.go:52-88] (TransportManager).Start *)
Definition Transport_Start (newStage : StartStage) (m : TransportManager)
    : option (res unit * TransportManager * Calls) :=
  if t_started m && Z.leb (StartStage_index newStage) (StartStage_index (t_stage m))
  then Some (Panic [AStr "already started"], m, []) else
  let m := m <| t_started := true |> <| t_stage := newStage |> in
  if decide (newStage = StartStateStart) then
    match settle_default_transport m with
    | Ok m =>
        match startTransports (transportByTag m) (transports m) with
        | Some (r, s) => Some (r, m, flat_map (λ o, (start_transport o).2) (st_order s))
        | None => None
        end
    | Err e => Some (Err e, m, [])
    | Panic p => Some (Panic p, m, [])
    end
  else
    let '(r, calls) := transport_stage newStage (transports m) in Some (r, m, calls).

(** [dns/transport_manager.go:148-170] (TransportManager).Close *)
Definition Transport_Close (m : TransportManager) : TransportManager * Calls :=
  if negb (t_started m) then (m, []) else
  (m <| t_started := false |> <| transports := [] |>,
   flat_map (λ o, if ob_isCloser o then [(o, Call_Close)] else []) (transports m)).

(** [dns/transport_manager.go:172-176] (TransportManager).Transports *)
Definition Transports (m : TransportManager) : list Outbound := transports m.

(** [dns/transport_manager.go:178-183] (TransportManager).Transport *)
Definition Transport (m : TransportManager) (tag : string) : option Outbound :=
  transportByTag m !! tag.

(** [dns/transport_manager.go:185-189] (TransportManager).Default *)
Definition Transport_Default (m : TransportManager) : option Outbound := defaultTransport m.

(** [dns/transport_manager.go:191-195] (TransportManager).FakeIP *)
Definition Transport_FakeIP (m : TransportManager) : option Outbound := fakeIPTransport m.

(** The next default after one is removed; the test of its type is the code's.

    [dns/transport_manager.go:213-224] (TransportManager).Remove (default) *)
Definition next_default (transport : Outbound) (m : TransportManager)
    : option error * TransportManager :=
  match defaultTransport m with
  | None => (None, m)
  | Some o =>
      if negb (same_object transport o) then (None, m) else
      match transports m with
      | [] => (None, m <| defaultTransport := None |>)
      | nextTransport :: _ =>
          if negb (String.eqb (ob_Type nextTransport) DNSTypeFakeIP)
          then (Some (E_New [AStr "default server cannot be fakeip"]), m)
          else (None, m <| defaultTransport := Some nextTransport |>)
      end
  end.

(** [dns/transport_manager.go:197-243] (TransportManager).Remove *)
Definition Transport_Remove (tag : string) (m : TransportManager)
    : res unit * TransportManager * Calls :=
  match transportByTag m !! tag with
  | None => (Err os_ErrInvalid, m, [])
  | Some transport =>
      let m := m <| transportByTag := delete tag (transportByTag m) |> in
      match remove_object transport (transports m) with
      | None => (Panic [AStr "invalid inbound index"], m, [])
      | Some l =>
          let m := m <| transports := l |> in
          match next_default transport m with
          | (Some e, m) => (Err e, m, [])
          | (None, m) =>
              let dependBy := default [] (t_dependByTag m !! tag) in
              if nonempty dependBy
              then (Err (E_New [AStr "server["; AStr tag; AStr "] is depended by ";
                                AStr (strings_Join dependBy ", ")]), m, [])
              else
                let m := m <| t_dependByTag :=
                           forget_dependencies tag (ob_Dependencies transport) (t_dependByTag m) |> in
                (Ok tt, m, if t_started m then [(transport, Call_Close)] else [])
          end
      end
  end.

(** [dns/transport_manager.go:255-262] (TransportManager).Create (start) *)
Fixpoint transport_stages (stages : list StartStage) (o : Outbound) : option error * Calls :=
  match stages with
  | [] => (None, [])
  | stage :: rest =>
      match LegacyStart o stage with
      | (Some err, calls) =>
          (Some (E_Cause err (AStr (StartStage_String stage) :: transport_parts " dns/" o)), calls)
      | (None, calls) => let '(r, calls') := transport_stages rest o in (r, calls ++ calls')
      end
  end.

(** [dns/transport_manager.go:263-277] (TransportManager).Create (exists) *)
Definition replace_transport (tag : string) (m : TransportManager)
    : option error * option (list Outbound) * Calls :=
  match transportByTag m !! tag with
  | None => (None, Some (transports m), [])
  | Some existsTransport =>
      let others := remove_object existsTransport (transports m) in
      if t_started m then
        match outbound_call existsTransport Call_CommonClose with
        | Some err =>
            (Some (E_Cause err (transport_parts "close dns/" existsTransport)), others,
             [(existsTransport, Call_CommonClose)])
        | None => (None, others, [(existsTransport, Call_CommonClose)])
        end
      else (None, others, [])
  end.

(** The checks of the default and of the fake IP transport, after the transport is registered.

    [dns/transport_manager.go:284-299] (TransportManager).Create (roles) *)
Definition assign_roles (tag : string) (transport : Outbound) (m : TransportManager)
    : res unit * TransportManager :=
  let is_fakeip := String.eqb (ob_Type transport) DNSTypeFakeIP in
  let is_default := String.eqb tag (t_defaultTag m) ||
                    (String.eqb (t_defaultTag m) "" && is_nil (defaultTransport m)) in
  if is_default && is_fakeip then (Err (E_New [AStr "default server cannot be fakeip"]), m) else
  let m := if is_default then m <| defaultTransport := Some transport |> else m in
  if is_fakeip then
    match fakeIPTransport m with
    | Some _ => (Err (E_New [AStr "multiple fakeip server are not supported"]), m)
    | None => (Ok tt, m <| fakeIPTransport := Some transport |>)
    end
  else (Ok tt, m).

(** [dns/transport_manager.go:245-300] (TransportManager).Create *)
Definition Transport_Create (tag : string) (created : res Outbound) (m : TransportManager)
    : res unit * TransportManager * Calls :=
  if String.eqb tag "" then (Err os_ErrInvalid, m, []) else
  match created with
  | Err e => (Err e, m, [])
  | Panic p => (Panic p, m, [])
  | Ok transport =>
      let '(startErr, calls) :=
        if t_started m then transport_stages ListStartStages transport else (None, []) in
      match startErr with
      | Some e => (Err e, m, calls)
      | None =>
          match replace_transport tag m with
          | (Some e, _, calls') => (Err e, m, calls ++ calls')
          | (None, None, calls') => (Panic [AStr "invalid inbound index"], m, calls ++ calls')
          | (None, Some l, calls') =>
              let m := m <| transports := l ++ [transport] |>
                         <| transportByTag := <[tag := transport]> (transportByTag m) |>
                         <| t_dependByTag := add_dependencies tag (ob_Dependencies transport)
                                               (t_dependByTag m) |> in
              let '(r, m) := assign_roles tag transport m in (r, m, calls ++ calls')
          end
      end
  end.

End Transports.

(** ** The box (box.go) *)

(** The internal services, in the order New of box.go appends them. *)
Inductive InternalService : Type :=
| IS_certificate | IS_cacheFile | IS_clashServer | IS_v2rayServer | IS_ntp.
#[global] Instance InternalService_eq_dec : EqDecision InternalService.
Proof. solve_decision. Defined.

(** The names are those of common/certificate/store.go, experimental/cachefile/cache.go, experimental/clashapi/server.go,
    experimental/v2rayapi/server.go, and the one box.go gives to the time service.

    [experimental/cachefile/cache.go:97-99] (CacheFile).Name *)
Definition internal_Name (i : InternalService) : string :=
  match i with
  | IS_certificate => "certificate" | IS_cacheFile => "cache-file" | IS_clashServer => "clash server"
  | IS_v2rayServer => "v2ray server" | IS_ntp => "ntp service"
  end.

(** Those a box has: the certificate store first, then those of the experimental options and the time service.

    [box.go:342-384] New (internalServices) *)
Definition internal_services (has : InternalService → bool) : list InternalService :=
  List.filter has [IS_certificate; IS_cacheFile; IS_clashServer; IS_v2rayServer; IS_ntp].

(** What the box starts and closes.

    [box.go:39-54] Box *)
Inductive Part : Type :=
| P_internal (i : InternalService)
| P_network
| P_dnsTransport
| P_dnsRouter
| P_connection
| P_router
| P_outbound
| P_inbound
| P_endpoint
| P_service.
#[global] Instance Part_eq_dec : EqDecision Part.
Proof. solve_decision. Defined.

(** The calls of the box: the logger, a part at a stage, closing a part and the logger. *)
Inductive BoxCall : Type :=
| StartLogger
| StartPart (stage : StartStage) (p : Part)
| ClosePart (p : Part)
| CloseLogger.
#[global] Instance BoxCall_eq_dec : EqDecision BoxCall.
Proof. solve_decision. Defined.

(** What the parts answer. *)
Class BoxEnv := { box_call : BoxCall → option error }.

Record Box : Type := mkBox { box_done : bool; box_internal : InternalService → bool }.

Section Box.
Context `{BoxEnv}.

(** [box.go:508-530] (Box).Close (names) *)
Definition part_name (p : Part) : string :=
  match p with
  | P_internal i => internal_Name i | P_network => "network" | P_dnsTransport => "dns-transport"
  | P_dnsRouter => "dns-router" | P_connection => "connection" | P_router => "router"
  | P_outbound => "outbound" | P_inbound => "inbound" | P_endpoint => "endpoint"
  | P_service => "service"
  end.

(** Errors of the logger and of the internal services are wrapped.

    [adapter/lifecycle.go:91-102] StartNamed *)
Definition start_error (c : BoxCall) (err : error) : error :=
  match c with
  | StartLogger => E_Cause err [AStr "start logger"]
  | StartPart stage (P_internal i) => E_Cause err [AStr (StartStage_String stage); AStr " "; AStr (internal_Name i)]
  | _ => err
  end.

Definition close_error (c : BoxCall) (err : error) : error :=
  match c with
  | ClosePart p => E_Cause err [AStr "close "; AStr (part_name p)]
  | _ => E_Cause err [AStr "close logger"]
  end.

(** The first error ends a sequence of calls.

    [adapter/lifecycle.go:77-89] Start *)
Fixpoint run_calls (calls : list BoxCall) : option error * list BoxCall :=
  match calls with
  | [] => (None, [])
  | c :: rest =>
      match box_call c with
      | Some err => (Some (start_error c err), [c])
      | None => let '(r, done) := run_calls rest in (r, c :: done)
      end
  end.

Definition start_all_parts (stage : StartStage) (parts : list Part) : list BoxCall :=
  StartPart stage <$> parts.

(** [box.go:441-462] (Box).preStart *)
Definition preStart_calls (has : InternalService → bool) : list BoxCall :=
  [StartLogger] ++
  start_all_parts StartStateInitialize (P_internal <$> internal_services has) ++
  start_all_parts StartStateInitialize
    [P_network; P_dnsTransport; P_dnsRouter; P_connection; P_router; P_outbound; P_inbound;
     P_endpoint; P_service] ++
  start_all_parts StartStateStart
    [P_outbound; P_dnsTransport; P_dnsRouter; P_network; P_connection; P_router].

(** [box.go:464-494] (Box).start *)
Definition start_calls (has : InternalService → bool) : list BoxCall :=
  preStart_calls has ++
  start_all_parts StartStateStart (P_internal <$> internal_services has) ++
  start_all_parts StartStateStart [P_inbound; P_endpoint; P_service] ++
  start_all_parts StartStatePostStart
    [P_outbound; P_network; P_dnsTransport; P_dnsRouter; P_connection; P_router; P_inbound;
     P_endpoint; P_service] ++
  start_all_parts StartStatePostStart (P_internal <$> internal_services has) ++
  start_all_parts StartStateStarted
    [P_network; P_dnsTransport; P_dnsRouter; P_connection; P_router; P_outbound; P_inbound;
     P_endpoint; P_service] ++
  start_all_parts StartStateStarted (P_internal <$> internal_services has).

(** [box.go:504-537] (Box).Close (order) *)
Definition close_calls (has : InternalService → bool) : list BoxCall :=
  (ClosePart <$> [P_service; P_endpoint; P_inbound; P_outbound; P_router; P_connection;
                  P_dnsRouter; P_dnsTransport; P_network]) ++
  (ClosePart <$> (P_internal <$> internal_services has)) ++ [CloseLogger].

Definition os_ErrClosed : error := E_Ext "os.ErrClosed".

(** Every part is closed, whatever the others answer; the errors are put together.

    [box.go:496-540] (Box).Close *)
Definition Box_Close (s : Box) : option error * Box * list BoxCall :=
  if box_done s then (Some os_ErrClosed, s, []) else
  (fold_left (λ err c,
     match box_call c with
     | None => err
     | Some e => Some (errors_join err (close_error c e))
     end) (close_calls (box_internal s)) None,
   mkBox true (box_internal s), close_calls (box_internal s)).

(** [box.go:422-439] (Box).Start *)
Definition Box_Start (s : Box) : option error * Box * list BoxCall :=
  match run_calls (start_calls (box_internal s)) with
  | (None, calls) => (None, s, calls)
  | (Some err, calls) =>
      let '(_, s, closing) := Box_Close s in (Some err, s, calls ++ closing)
  end.

(** [box.go:403-420] (Box).PreStart *)
Definition Box_PreStart (s : Box) : option error * Box * list BoxCall :=
  match run_calls (preStart_calls (box_internal s)) with
  | (None, calls) => (None, s, calls)
  | (Some err, calls) =>
      let '(_, s, closing) := Box_Close s in (Some err, s, calls ++ closing)
  end.

End Box.

(** ** Registration *)

(** The list and the map hold the same objects, each once. *)
Definition registered (l : list Outbound) (byTag : gmap string Outbound) : Prop :=
  (∀ t o, byTag !! t = Some o ↔ o ∈ l ∧ ob_Tag o = t) ∧ NoDup (ob_id <$> l).

Lemma registered_add l byTag o :
  registered l byTag → byTag !! ob_Tag o = None → ob_id o ∉ ob_id <$> l →
  registered (l ++ [o]) (<[ob_Tag o := o]> byTag).
Proof.
  intros [Ht Hn] Hnew Hid. split.
  - intros t x. rewrite elem_of_app, list_elem_of_singleton, lookup_insert_Some, Ht.
    split; [naive_solver|]. intros [[Hx| ->] <-]; [right|by left]. split; [|done]. intros Heq.
    assert (byTag !! ob_Tag o = Some x) by (by apply Ht). congruence.
  - rewrite fmap_app. apply list.NoDup_app. split; [done|]. split; [|apply NoDup_singleton].
    by intros x Hx ->%list_elem_of_singleton.
Qed.

Lemma registered_remove l byTag tag o :
  registered l byTag → byTag !! tag = Some o →
  ∃ l', remove_object o l = Some l' ∧ l ≡ₚ o :: l' ∧ registered l' (delete tag byTag).
Proof.
  intros [Ht Hn] Hby. destruct (proj1 (Ht tag o) Hby) as [Ho Htag].
  destruct (remove_object_spec o l Hn Ho) as (l' & Hr & Hp). exists l'. split_and!; [done|done|].
  rewrite Hp in Hn. apply NoDup_cons in Hn as [Hno Hn]. split; [|done].
  intros t x. rewrite lookup_delete_Some, Ht, Hp, elem_of_cons. split.
  - intros (? & [->|] & ?); [congruence|done].
  - intros [Hx <-]. split_and!; [|by right|done]. intros Heq.
    assert (byTag !! tag = Some x) as Hx' by (apply Ht; rewrite Hp, elem_of_cons; auto).
    assert (x = o) as -> by congruence. destruct Hno. by apply list_elem_of_fmap_2.
Qed.

(** Taking the object with a tag out and putting another in its place. *)
Lemma registered_replace l byTag o :
  registered l byTag → ob_id o ∉ ob_id <$> l →
  ∃ l', (match byTag !! ob_Tag o with
         | None => Some l | Some existing => remove_object existing l end) = Some l' ∧
    registered (l' ++ [o]) (<[ob_Tag o := o]> byTag) ∧
    ∀ x, x ∈ l' ↔ x ∈ l ∧ ob_Tag x ≠ ob_Tag o.
Proof.
  intros Hr Hid. destruct (byTag !! ob_Tag o) as [e|] eqn:E.
  - destruct (registered_remove l byTag _ e Hr E) as (l' & -> & Hp & Hr'). exists l'. split; [done|].
    rewrite Hp in Hid. cbn in Hid. apply not_elem_of_cons in Hid as [_ Hid].
    pose proof (registered_add l' _ o Hr' ltac:(apply lookup_delete_eq) Hid) as Ha.
    rewrite insert_delete_eq in Ha. split; [done|]. intros x. rewrite Hp, elem_of_cons.
    destruct Hr' as [Ht' _]. split.
    + intros Hx. split; [by right|]. intros Heq.
      pose proof (proj2 (Ht' (ob_Tag x) x) (conj Hx eq_refl)) as Hd. rewrite Heq in Hd.
      by rewrite lookup_delete_eq in Hd.
    + intros [[->|?] Hne]; [|done]. destruct Hne. by apply Hr in E as [_ ->].
  - exists l. split; [done|]. split; [by apply registered_add|]. intros x. split; [|by intros [? _]].
    intros Hx. split; [done|]. intros Heq.
    pose proof (proj2 (proj1 Hr (ob_Tag x) x) (conj Hx eq_refl)). congruence.
Qed.

Section ObjectTheorems.
Context `{OutboundCalls}.
Variable kind : string.

(** The calls of the four stages, up to the first that fails. *)
Lemma run_stages_None stages o calls :
  run_stages kind stages o = (None, calls) →
  (∀ stage, stage ∈ stages → (LegacyStart o stage).1 = None) ∧
  calls = concat ((λ stage, (LegacyStart o stage).2) <$> stages).
Proof.
  revert calls. induction stages as [|stage rest IH]; intros calls; cbn.
  { intros [= <-]. split; [by intros s ?%elem_of_nil|done]. }
  destruct (LegacyStart o stage) as [[err|] c] eqn:E; [done|].
  destruct (run_stages kind rest o) as [r c'] eqn:E'. intros [= -> <-].
  destruct (IH c' eq_refl) as [Ha ->]. split; [|done].
  intros s [->|Hs]%elem_of_cons; [by rewrite E|by apply Ha].
Qed.

(** Creating an object either fails and leaves the manager as it was, or registers the object
    under its tag in the place of the one that had it; what has another tag stays.  When the manager
    runs, the object has been through all stages of the start, in order, before the old one is closed
    and it is registered. *)
Theorem Object_Create_spec tag o m r m' calls :
  registered (om_objects m) (om_byTag m) → ob_Tag o = tag → ob_id o ∉ ob_id <$> om_objects m →
  Object_Create kind tag (Ok o) m = (r, m', calls) →
  registered (om_objects m') (om_byTag m') ∧
  (m' = m ∧ is_ok r = false ∧ is_panic r = false ∨
   r = Ok tt ∧ om_byTag m' = <[tag := o]> (om_byTag m) ∧
   (∀ x, x ∈ om_objects m' ↔ x = o ∨ x ∈ om_objects m ∧ ob_Tag x ≠ tag) ∧
   calls = (if om_started m
            then concat ((λ stage, (LegacyStart o stage).2) <$> ListStartStages) ++
                 (match om_byTag m !! tag with Some x => [(x, Call_Close)] | None => [] end)
            else [])).
Proof.
  intros Hr <- Hid. unfold Object_Create, replace_object.
  destruct (if om_started m then run_stages kind ListStartStages o else (None, []))
    as [[err|] calls1] eqn:Ec; [intros [= <- <- <-]; split; [done|by left]|].
  destruct (registered_replace _ _ o Hr Hid) as (l' & Hl' & Hreg & Hin).
  assert (∀ x, x ∈ l' ++ [o] ↔ x = o ∨ x ∈ om_objects m ∧ ob_Tag x ≠ ob_Tag o) as Hin'
    by (intros x; rewrite elem_of_app, list_elem_of_singleton, Hin; tauto).
  destruct (om_started m).
  - apply run_stages_None in Ec as [_ ->].
    destruct (om_byTag m !! ob_Tag o) as [e|]; cbn zeta.
    + destruct (outbound_call e Call_Close); [intros [= <- <- <-]; split; [done|by left]|].
      rewrite Hl'. intros [= <- <- <-]. split; [done|]. right. by split_and!.
    + injection Hl' as <-. intros [= <- <- <-]. split; [done|]. right. by split_and!.
  - injection Ec as <-. destruct (om_byTag m !! ob_Tag o) as [e|]; cbn zeta.
    + rewrite Hl'. intros [= <- <- <-]. split; [done|]. right. by split_and!.
    + injection Hl' as <-. intros [= <- <- <-]. split; [done|]. right. by split_and!.
Qed.

(** Removing an object takes it out and closes it when the manager runs. *)
Lemma Object_Remove_spec tag m r m' calls :
  registered (om_objects m) (om_byTag m) → Object_Remove kind tag m = (r, m', calls) →
  match om_byTag m !! tag with
  | None => r = Err os_ErrInvalid ∧ m' = m ∧ calls = []
  | Some o =>
      registered (om_objects m') (om_byTag m') ∧ is_panic r = false ∧
      om_byTag m' = delete tag (om_byTag m) ∧ om_objects m ≡ₚ o :: om_objects m' ∧
      calls = if om_started m then [(o, Call_Close)] else []
  end.
Proof.
  intros Hr. unfold Object_Remove. destruct (om_byTag m !! tag) as [o|] eqn:E; [|by intros [= <- <- <-]].
  destruct (registered_remove _ _ _ _ Hr E) as (l' & Hl & Hp & Hr'). cbn. rewrite Hl. cbn.
  destruct (om_started m); intros [= <- <- <-]; split_and!; try done. by destruct (outbound_call _ _).
Qed.

(** Closing forgets the list but not the map: removing an object afterwards panics. *)
Lemma Remove_after_Close tag o m :
  om_started m = true → om_byTag m !! tag = Some o →
  is_panic (Object_Remove kind tag (Object_Close m).1).1.1 = true.
Proof. intros Hs Ho. unfold Object_Close, Object_Remove. rewrite Hs. cbn. by rewrite Ho. Qed.

(** The stages in order never meet "already started". *)
Lemma stages_in_order skip (stage next : StartStage) m :
  (om_started m = false ∨ StartStage_index (om_stage m) < StartStage_index stage) →
  (StartStage_index stage < StartStage_index next) →
  let '(r, m', _) := Object_Start kind skip stage m in
  is_panic r = false ∧ om_started m' = true ∧
  StartStage_index (om_stage m') < StartStage_index next.
Proof.
  intros Hs Hn. unfold Object_Start.
  assert (om_started m && Z.leb (StartStage_index stage) (StartStage_index (om_stage m)) = false) as ->.
  { destruct Hs as [->|Hlt]; [done|]. apply andb_false_iff. right. by apply Z.leb_gt. }
  destruct (skip stage); [done|]. cbn. generalize (om_objects m). clear Hs.
  intros l. destruct (run_stage kind stage l) as [r calls] eqn:E. split; [|done].
  revert r calls E. induction l as [|o l IH]; intros r calls; cbn; [by intros [= <- _]|].
  destruct (LegacyStart o stage) as [[err|] c]; [by intros [= <- _]|].
  destruct (run_stage kind stage l) as [r' c']. intros [= <- _]. by apply (IH _ c').
Qed.

End ObjectTheorems.

(** The endpoints the outbound manager sees answer under their own tag. *)
Lemma endpoint_view_ok m : registered (om_objects m) (om_byTag m) → endpoints_ok (endpoint_view m).
Proof. intros [Ht _] t o Ho. by apply Ht in Ho as [_ ?]. Qed.

(** ** Transports *)

Section TransportTheorems.
Context `{OutboundCalls}.

(** DNS transports start in the order of their dependencies, each at most once, and all of them when
    the start succeeds: what is proved of the start loop of the outbounds. *)
Lemma startTransports_order byTag all :
  ∃ r s, startTransports byTag all = Some (r, s) ∧
    NoDup (ob_Tag <$> st_order s) ∧ deps_before (st_order s) ∧ st_order s ⊆ all ∧
    (r = Ok tt → ob_Tag <$> st_order s ≡ₚ ob_Tag <$> all).
Proof. apply start_all_order. Qed.

Lemma assign_roles_frame tag o m :
  let '(r, m') := assign_roles tag o m in
  transports m' = transports m ∧ transportByTag m' = transportByTag m.
Proof.
  unfold assign_roles. destruct (_ && String.eqb _ _); [done|].
  destruct (String.eqb (ob_Type o) DNSTypeFakeIP);
    [destruct (fakeIPTransport _); by destruct (String.eqb tag _ || _)|by destruct (String.eqb tag _ || _)].
Qed.

(** What is registered stays consistent, whatever [Create] answers: a transport that cannot have the
    role it asks for is registered all the same. *)
Lemma Transport_Create_registered tag o m r m' calls :
  registered (transports m) (transportByTag m) → ob_Tag o = tag →
  ob_id o ∉ ob_id <$> transports m → Transport_Create tag (Ok o) m = (r, m', calls) →
  registered (transports m') (transportByTag m') ∧ is_panic r = false.
Proof.
  intros Hr <- Hid. unfold Transport_Create, replace_transport.
  destruct (String.eqb (ob_Tag o) ""); [by intros [= <- <- <-]|].
  destruct (if t_started m then _ else _) as [[err|] c]; [by intros [= <- <- <-]|].
  destruct (registered_replace _ _ o Hr Hid) as (l' & Hl' & Hreg & _).
  assert (∀ m1 c', transports m1 = l' ++ [o] → transportByTag m1 = <[ob_Tag o := o]> (transportByTag m) →
    (let '(r, m) := assign_roles (ob_Tag o) o m1 in (r, m, c ++ c')) = (r, m', calls) →
    registered (transports m') (transportByTag m') ∧ is_panic r = false) as Hfin.
  { intros m1 c' H1 H2. pose proof (assign_roles_frame (ob_Tag o) o m1) as Hf.
    assert (is_panic (assign_roles (ob_Tag o) o m1).1 = false) as Hp
      by (unfold assign_roles; by repeat case_match).
    destruct (assign_roles (ob_Tag o) o m1) as [r1 m2]. destruct Hf as [Hf1 Hf2].
    intros [= <- <- <-]. by rewrite Hf1, Hf2, H1, H2. }
  destruct (transportByTag m !! ob_Tag o) as [e|]; [destruct (t_started m)|].
  - destruct (outbound_call e Call_CommonClose); [by intros [= <- <- <-]|]. rewrite Hl'. by apply Hfin.
  - rewrite Hl'. by apply Hfin.
  - injection Hl' as <-. by apply Hfin.
Qed.

(** Removing the default transport while another one is left that is not a fake IP transport
    fails, as the test of the type is the wrong way round; by then the transport is out of the manager,
    but it is not closed and it is still what [Default] answers.  Only a fake IP transport can become
    the next default, which [Create] forbids. *)
Theorem Transport_Remove_default tag o m next rest :
  registered (transports m) (transportByTag m) → transportByTag m !! tag = Some o →
  defaultTransport m = Some o → remove_object o (transports m) = Some (next :: rest) →
  let '(r, m', calls) := Transport_Remove tag m in
  Transport m' tag = None ∧ (∀ x, x ∈ transports m' ↔ x ∈ transports m ∧ ob_Tag x ≠ tag) ∧
  if String.eqb (ob_Type next) DNSTypeFakeIP
  then defaultTransport m' = Some next
  else r = Err (E_New [AStr "default server cannot be fakeip"]) ∧ defaultTransport m' = Some o ∧
       calls = [].
Proof.
  intros Hr Ho Hd Hl. unfold Transport_Remove. rewrite Ho. cbn. rewrite Hl.
  destruct (registered_remove _ _ _ _ Hr Ho) as (l' & Hl2 & Hp & Hr'). rewrite Hl in Hl2.
  injection Hl2 as <-.
  assert (∀ x, x ∈ next :: rest ↔ x ∈ transports m ∧ ob_Tag x ≠ tag) as Hin.
  { intros x. rewrite Hp, (elem_of_cons (next :: rest) x o). destruct Hr' as [Ht' _]. split.
    - intros Hx. split; [by right|]. intros Heq.
      pose proof (proj2 (Ht' (ob_Tag x) x) (conj Hx eq_refl)) as Hd'. rewrite Heq in Hd'.
      by rewrite lookup_delete_eq in Hd'.
    - intros [[->|?] Hne]; [|done]. destruct Hne. by apply Hr in Ho as [_ ->]. }
  unfold next_default. cbn. rewrite Hd. unfold same_object. rewrite Z.eqb_refl. cbn.
  destruct (String.eqb (ob_Type next) DNSTypeFakeIP); cbn.
  - destruct (nonempty _); cbn; (split; [by apply lookup_delete_eq|by split]).
  - split; [by apply lookup_delete_eq|]. by split.
Qed.

End TransportTheorems.

(** ** The order of the start *)

Section BoxTheorems.
Context `{BoxEnv}.

(** The stages a part gets in a sequence of calls. *)
Definition stages_of (p : Part) (calls : list BoxCall) : list StartStage :=
  omap (λ c, match c with
             | StartPart stage q => if decide (q = p) then Some stage else None
             | _ => None
             end) calls.

(** What has to be ready before connections come in. *)
Definition before_inbounds (has : InternalService → bool) : list Part :=
  (P_internal <$> internal_services has) ++ [P_network; P_dnsTransport; P_dnsRouter; P_connection; P_router; P_outbound].

Lemma run_calls_spec l :
  match run_calls l with
  | (None, calls) => calls = l ∧ ∀ c, c ∈ l → box_call c = None
  | (Some err, calls) => ∃ done c rest e, l = done ++ c :: rest ∧ calls = done ++ [c] ∧
      (∀ c', c' ∈ done → box_call c' = None) ∧ box_call c = Some e ∧ err = start_error c e
  end.
Proof.
  induction l as [|c l IH]; cbn.
  { split; [done|]. by intros c ?%elem_of_nil. }
  destruct (box_call c) as [e|] eqn:Ec.
  { exists [], c, l, e. split_and!; [done|done|by intros c' ?%elem_of_nil|done|done]. }
  destruct (run_calls l) as [[err|] calls].
  - destruct IH as (done & c' & rest & e & -> & -> & Hd & Hc & ->). exists (c :: done), c', rest, e.
    split_and!; [done|done| |done|done]. by intros x [->|Hx]%elem_of_cons; [|apply Hd].
  - destruct IH as [-> Hd]. split; [done|]. by intros x [->|Hx]%elem_of_cons; [|apply Hd].
Qed.

(** The part is one of the box. *)
Definition has_part (has : InternalService → bool) (p : Part) : bool := match p with P_internal i => has i | _ => true end.

(** The services a box can have. *)
Definition has_of (a b c d e : bool) (i : InternalService) : bool :=
  match i with IS_certificate => a | IS_cacheFile => b | IS_clashServer => c | IS_v2rayServer => d | IS_ntp => e end.

Lemma internal_has has : internal_services has =
  internal_services (has_of (has IS_certificate) (has IS_cacheFile) (has IS_clashServer) (has IS_v2rayServer) (has IS_ntp)).
Proof. done. Qed.

Ltac every_box has := unfold start_calls, preStart_calls, before_inbounds; rewrite (internal_has has);
  generalize (has IS_certificate), (has IS_cacheFile), (has IS_clashServer), (has IS_v2rayServer), (has IS_ntp); intros [] [] [] [] [].

Lemma start_calls_stages has p : stages_of p (start_calls has) = if has_part has p then ListStartStages else [].
Proof.
  destruct p as [i| | | | | | | | |]; [destruct i|..]; cbn [has_part]; every_box has; reflexivity.
Qed.

Lemma start_calls_NoDup has : NoDup (start_calls has).
Proof. every_box has; apply (bool_decide_unpack _); by vm_compute. Qed.

Lemma start_calls_inbound has : ∃ l1 l2, start_calls has = l1 ++ StartPart StartStateStart P_inbound :: l2 ∧
  ∀ p, p ∈ before_inbounds has → StartPart StartStateStart p ∈ l1.
Proof.
  exists (preStart_calls has ++ start_all_parts StartStateStart (P_internal <$> internal_services has)). eexists.
  split; [unfold start_calls; rewrite <-app_assoc; reflexivity|].
  intros p Hp. apply (bool_decide_unpack (StartPart StartStateStart p ∈ _)). revert p Hp. apply list.Forall_forall.
  every_box has; by repeat constructor.
Qed.

(** A split of a list without repetitions at an element is unique, also in a prefix. *)
Lemma split_unique {A} (x : A) l1 l2 k1 k2 : NoDup (l1 ++ x :: l2) →
  l1 ++ x :: l2 = k1 ++ x :: k2 → l1 = k1.
Proof.
  revert k1. induction l1 as [|y l1 IH]; intros [|z k1] Hn Heq; cbn in *; [done|..].
  - injection Heq as -> ->. apply NoDup_cons in Hn as [Hn _]. set_solver.
  - injection Heq as -> <-. apply NoDup_cons in Hn as [Hn _]. set_solver.
  - injection Heq as -> Heq. apply NoDup_cons in Hn as [_ Hn]. f_equal. by apply IH.
Qed.

(** In a start that fails, what is before the start of the inbounds. *)
Lemma failed_before has dn c rest l1 l2 : start_calls has = dn ++ c :: rest →
  dn ++ c :: close_calls has = l1 ++ StartPart StartStateStart P_inbound :: l2 →
  ∀ p, p ∈ before_inbounds has →
    StartPart StartStateStart p ∈ l1 ∧ StartPart StartStateStart p ∈ dn.
Proof.
  intros Hl Heq p Hp. destruct (start_calls_inbound has) as (i1 & i2 & Hi & Hbefore).
  assert (∃ k2, dn ++ c :: rest = l1 ++ StartPart StartStateStart P_inbound :: k2 ∧
    (∀ x, x ∈ l1 → x ∈ dn)) as (k2 & Hk & Hsub).
  { apply app_eq_app in Heq as (k & [[-> Hk]|[-> Hk]]); destruct k as [|y k]; cbn in Hk.
    - injection Hk as -> _. exists rest. rewrite app_nil_r. split; [done|set_solver].
    - injection Hk as -> ->. exists (k ++ c :: rest). rewrite <-app_assoc. split; [done|set_solver].
    - injection Hk as -> _. exists rest. rewrite app_nil_r. split; [done|set_solver].
    - exfalso. injection Hk as <- Hk.
      assert (StartPart StartStateStart P_inbound ∈ close_calls has) as Hin.
      { change (close_calls has) with (ClosePart P_service :: tail (close_calls has)). cbn in Hk |- *. rewrite Hk. set_solver. }
      unfold close_calls in Hin. rewrite !elem_of_app, !list_elem_of_fmap, list_elem_of_singleton in Hin. naive_solver. }
  pose proof (start_calls_NoDup has) as Hnd. rewrite Hl in Hi, Hnd. rewrite Hk in Hi, Hnd.
  pose proof (split_unique _ _ _ _ _ Hnd Hi) as ->. split; [|apply Hsub]; by apply Hbefore.
Qed.

(** C28: the box starts every part it has (its internal services each for itself) through the four stages in order,
    each stage once, and opens the inbounds only after its internal services, the DNS, the routing and the outbounds have
    started; the first error ends the start, and then every part is closed, also those that have not started. *)
Theorem Box_Start_order s r s' calls :
  box_done s = false → Box_Start s = (r, s', calls) →
  (∀ l1 l2, calls = l1 ++ StartPart StartStateStart P_inbound :: l2 →
     ∀ p, p ∈ before_inbounds (box_internal s) → StartPart StartStateStart p ∈ l1 ∧
       box_call (StartPart StartStateStart p) = None) ∧
  match r with
  | None => s' = s ∧ (∀ c, c ∈ calls → box_call c = None) ∧
      ∀ p, has_part (box_internal s) p = true → stages_of p calls = ListStartStages
  | Some err => box_done s' = true ∧
      ∃ done c e, calls = done ++ c :: close_calls (box_internal s) ∧ (∀ c', c' ∈ done → box_call c' = None) ∧
        box_call c = Some e ∧ err = start_error c e ∧
        ∀ p, stages_of p (done ++ [c]) `prefix_of` ListStartStages
  end.
Proof.
  intros Hd. unfold Box_Start, Box_Close. rewrite Hd. set (has := box_internal s). pose proof (run_calls_spec (start_calls has)) as Hr.
  destruct (start_calls_inbound has) as (i1 & i2 & Hi & Hbefore). pose proof (start_calls_NoDup has) as Hnd.
  destruct (run_calls (start_calls has)) as [[err|] l].
  - destruct Hr as (dn & c & rest & e & Hl & -> & Hok & Hc & ->). intros [= <- <- <-]. split.
    + intros l1 l2 Heq p Hp. rewrite <-app_assoc in Heq.
      destruct (failed_before has dn c rest l1 l2 Hl Heq p Hp) as [H1 H2]. split; [done|by apply Hok].
    + split; [done|]. exists dn, c, e. split_and!; [by rewrite <-app_assoc|done|done|done|].
      intros p. trans (stages_of p (start_calls has)); [|rewrite start_calls_stages; by destruct (has_part has p); [|eexists]].
      rewrite Hl. exists (stages_of p rest). unfold stages_of. by rewrite <-omap_app, <-app_assoc.
  - destruct Hr as [-> Hok]. intros [= <- <- <-]. split; [|split_and!; [done|done|intros p Hp; by rewrite start_calls_stages, Hp]].
    intros l1 l2 Heq p Hp. rewrite Hi in Heq, Hnd.
    pose proof (split_unique _ _ _ _ _ Hnd Heq) as <-. split; [by apply Hbefore|].
    apply Hok. rewrite Hi. apply elem_of_app. left. by apply Hbefore.
Qed.

(** Starting a box that was pre-started starts its parts again: the first of the managers panics. *)
Lemma PreStart_then_Start :
  ∀ has, stages_of P_inbound (preStart_calls has ++ start_calls has)
  = StartStateInitialize :: ListStartStages.
Proof. intros has. every_box has; reflexivity. Qed.

End BoxTheorems.

(** ** Concrete managers *)

Lemma Object_Create_spec_witness :
  let m := mkObjectManager true StartStateStarted [sample_outbound 1 "in" []]
             {["in"%string := sample_outbound 1 "in" []]} in
  ∃ m' calls, Object_Create (H := quiet_calls) "inbound" "in" (Ok (sample_outbound 2 "in" [])) m
    = (Ok tt, m', calls) ∧
  length calls = 5%nat ∧ registered (om_objects m') (om_byTag m').
Proof.
  intros m. do 2 eexists. split; [reflexivity|]. split; [done|].
  refine (proj1 (Object_Create_spec (H := quiet_calls) "inbound" "in" (sample_outbound 2 "in" []) m
    _ _ _ _ _ _ eq_refl)).
  - split; [|cbn; apply NoDup_singleton]. intros t o. cbn.
    rewrite lookup_singleton_Some, list_elem_of_singleton. naive_solver.
  - done.
  - cbn. by intros ?%list_elem_of_singleton.
Defined.

Lemma Transport_Remove_default_witness :
  let o := sample_outbound 1 "local" [] in let next := sample_outbound 2 "remote" [] in
  let m := mkTransportManager "" true StartStateStarted [o; next]
             (<["local"%string := o]> {["remote"%string := next]}) ∅ (Some o) None None in
  let '(r, m', calls) := Transport_Remove "local" m in
  Transport m' "local" = None ∧ (∀ x, x ∈ transports m' ↔ x ∈ transports m ∧ ob_Tag x ≠ "local"%string) ∧
  r = Err (E_New [AStr "default server cannot be fakeip"]) ∧ defaultTransport m' = Some o ∧ calls = [].
Proof.
  intros o next m. refine (Transport_Remove_default "local" o m next [] _ _ _ _).
  - split.
    + intros t x. cbn. rewrite lookup_insert_Some, lookup_singleton_Some. set_unfold. naive_solver.
    + apply NoDup_ListNoDup. repeat constructor; cbn; intuition lia.
  - done.
  - done.
  - done.
Defined.

(** The second transport with the fake IP type is refused, but it is registered; and replacing the
    first one leaves [FakeIP] with the transport that has been closed. *)
Lemma second_fakeip :
  let fake id tag := mkOutbound id DNSTypeFakeIP tag [] [] IsLifecycle true false in
  let step tag o m := (Transport_Create (H := quiet_calls) tag (Ok o) m).1.2 in
  let m := step "fake"%string (fake 2 "fake"%string)
             (step "local"%string (sample_outbound 1 "local" []) (NewTransportManager "")) in
  let '(r, m', _) := Transport_Create (H := quiet_calls) "fake" (Ok (fake 3 "fake"%string)) m in
  r = Err (E_New [AStr "multiple fakeip server are not supported"]) ∧
  Transport m' "fake" = Some (fake 3 "fake"%string) ∧ Transport_FakeIP m' = Some (fake 2 "fake"%string).
Proof. by vm_compute. Qed.

(** A box whose outbound manager fails to start. *)
Definition failing_box : BoxEnv :=
  {| box_call c := if decide (c = StartPart StartStateStart P_outbound) then Some os_ErrInvalid
                   else None |}.

Lemma Box_Start_order_witness :
  let '(r, s', calls) := Box_Start (H := failing_box) (mkBox false (λ _, true)) in
  r = Some os_ErrInvalid ∧ length calls = 31%nat ∧
  (∀ l1 l2, calls = l1 ++ StartPart StartStateStart P_inbound :: l2 →
     ∀ p, p ∈ before_inbounds (λ _, true) → StartPart StartStateStart p ∈ l1 ∧
       box_call (BoxEnv := failing_box) (StartPart StartStateStart p) = None).
Proof.
  destruct (Box_Start (H := failing_box) (mkBox false (λ _, true))) as [[r s'] calls] eqn:E.
  pose proof (Box_Start_order (H := failing_box) (mkBox false (λ _, true)) r s' calls eq_refl E) as [Hb _].
  vm_compute in E. injection E as <- <- <-. split; [done|]. split; [done|exact Hb].
Defined.
