(* ===== verification/Groups.v ===== *)
(** * Outbound groups (protocol/group, common/interrupt, common/urltest/urltest.go)

    A selector sends connections to the outbound the user has chosen, a URL test group to the one that
    answers fastest.  Both close the connections they have made when the choice changes: the group of
    common/interrupt keeps them.  Outbounds are found through the outbound manager. *)

From stdpp Require Import base gmap strings list numbers relations.
From S2P Require Import Prelude GoStd Netip Adapter Outbound.

Local Open Scope Z_scope.

(** ** Connections that can be interrupted (common/interrupt) *)

Module interrupt.

(** A connection, by its identity.

    [common/interrupt/group.go:16-19] groupConnItem *)
Record groupConnItem : Type := mkItem {
  conn : Z;
  isExternal : bool
}.

(** The list of sing/common/x/list is the doubly linked list of the Go standard library: an element
    keeps its identity, which is a number here, and is removed once.

    [common/interrupt/group.go:11-14] Group *)
Record Group : Type := mkGroup {
  connections : list (nat * groupConnItem);
  next_element : nat
}.

(** [common/interrupt/group.go:21-23] NewGroup *)
Definition NewGroup : Group := mkGroup [] 0.

(** The wrapper of a connection.

    [common/interrupt/conn.go:19-23] Conn *)
Record Conn : Type := mkConn {
  c_conn : Z;
  c_element : nat
}.

(** [common/interrupt/group.go:25-30] (Group).NewConn *)
Definition NewConn (conn : Z) (isExternal : bool) (g : Group) : Conn * Group :=
  (mkConn conn (next_element g),
   mkGroup (connections g ++ [(next_element g, mkItem conn isExternal)]) (S (next_element g))).

(** [common/interrupt/conn.go:48-52] PacketConn *)
Record PacketConn : Type := mkPacketConn {
  p_conn : Z;
  p_element : nat
}.

(** [common/interrupt/group.go:32-37] (Group).NewPacketConn *)
Definition NewPacketConn (conn : Z) (isExternal : bool) (g : Group) : PacketConn * Group :=
  (mkPacketConn conn (next_element g),
   mkGroup (connections g ++ [(next_element g, mkItem conn isExternal)]) (S (next_element g))).

(** [g.connections.Remove(element)] *)
Definition Remove (element : nat) (g : Group) : Group :=
  mkGroup (List.filter (λ x, negb (Nat.eqb x.1 element)) (connections g)) (next_element g).

(** The connection that is closed, and the group without it.

    [common/interrupt/conn.go:29-34] (Conn).Close *)
Definition Conn_Close (c : Conn) (g : Group) : list Z * Group :=
  ([c_conn c], Remove (c_element c) g).

(** [common/interrupt/conn.go:58-63] (PacketConn).Close *)
Definition PacketConn_Close (c : PacketConn) (g : Group) : list Z * Group :=
  ([p_conn c], Remove (p_element c) g).

(** [common/interrupt/group.go:44] (Group).Interrupt (condition) *)
Definition interrupted (interruptExternalConnections : bool) (i : groupConnItem) : bool :=
  negb (isExternal i) || interruptExternalConnections.

(** The connections that are closed, in order; they are removed after the loop.

    [common/interrupt/group.go:39-52] (Group).Interrupt *)
Definition Interrupt (interruptExternalConnections : bool) (g : Group) : list Z * Group :=
  let toDelete := List.filter (λ x, interrupted interruptExternalConnections x.2) (connections g) in
  ((λ x, conn x.2) <$> toDelete, fold_left (λ g x, Remove x.1 g) toDelete g).

(** An element is in the list at most once, and was handed out. *)
Definition group_ok (g : Group) : Prop :=
  NoDup (connections g).*1 ∧ ∀ e, e ∈ (connections g).*1 → (e < next_element g)%nat.

Lemma NewGroup_ok : group_ok NewGroup.
Proof. split; [constructor|]. by intros e ?%elem_of_nil. Qed.

Lemma NewConn_ok conn ext g : group_ok g → group_ok (NewConn conn ext g).2.
Proof.
  intros [Hd Hl]. unfold group_ok, NewConn. cbn. rewrite fmap_app. cbn. split.
  - apply list.NoDup_app. split_and!; [done| |apply NoDup_singleton].
    intros e He ->%list_elem_of_singleton. specialize (Hl _ He). lia.
  - intros e [He| ->%list_elem_of_singleton]%elem_of_app; [specialize (Hl _ He)|]; lia.
Qed.

Lemma filter_fst_sub {A} (f : nat * A → bool) l e : e ∈ (List.filter f l).*1 → e ∈ l.*1.
Proof.
  intros (x & -> & [Hx _]%list_elem_of_In%List.filter_In)%list_elem_of_fmap.
  apply list_elem_of_fmap. exists x. split; [done|]. by apply list_elem_of_In.
Qed.

Lemma filter_fst_NoDup {A} (f : nat * A → bool) (l : list (nat * A)) :
  NoDup l.*1 → NoDup (List.filter f l).*1.
Proof.
  induction l as [|x l IH]; [done|]. cbn. intros [Hn Hd]%NoDup_cons.
  destruct (f x); [|by apply IH]. cbn. constructor; [|by apply IH].
  intros ?%filter_fst_sub. done.
Qed.

Lemma Remove_ok e g : group_ok g → group_ok (Remove e g).
Proof.
  intros [Hd Hl]. split; [by apply filter_fst_NoDup|]. cbn.
  intros e' He%filter_fst_sub. by apply Hl.
Qed.

Lemma Remove_fold l g :
  fold_left (λ g x, Remove x.1 g) l g
  = mkGroup (List.filter (λ x, negb (bool_decide (x.1 ∈ (l : list (nat * groupConnItem)).*1)))
               (connections g)) (next_element g).
Proof.
  revert g. induction l as [|y l IH]; intros g; cbn.
  - destruct g as [c n]. cbn. f_equal. induction c as [|x c IHc]; [done|]. cbn. by rewrite <-IHc.
  - rewrite IH. unfold Remove. cbn. f_equal. induction (connections g) as [|x c IHc]; [done|].
    cbn. destruct (Nat.eqb_spec x.1 y.1) as [He|He]; cbn.
    + rewrite bool_decide_eq_true_2 by (rewrite He; left). cbn. exact IHc.
    + rewrite (bool_decide_ext (x.1 ∈ y.1 :: l.*1) (x.1 ∈ l.*1)) by (rewrite elem_of_cons; tauto).
      destruct (negb _); [f_equal|]; exact IHc.
Qed.

(** What an interruption closes is gone, and nothing else is. *)
Lemma Interrupt_split flag g : group_ok g →
  Interrupt flag g =
    ((λ x, conn x.2) <$> List.filter (λ x, interrupted flag x.2) (connections g),
     mkGroup (List.filter (λ x, negb (interrupted flag x.2)) (connections g)) (next_element g)).
Proof.
  intros [Hd _]. unfold Interrupt. f_equal. rewrite Remove_fold. f_equal.
  apply List.filter_ext_in. intros x Hx%list_elem_of_In. f_equal.
  destruct (interrupted flag x.2) eqn:Hi.
  - apply bool_decide_eq_true_2, list_elem_of_fmap. exists x. split; [done|].
    apply list_elem_of_In, List.filter_In. split; [by apply list_elem_of_In|done].
  - apply bool_decide_eq_false_2. intros (y & He & [Hy Hiy]%list_elem_of_In%List.filter_In)%list_elem_of_fmap.
    apply list_elem_of_In in Hy. enough (x = y) as -> by congruence.
    apply list_elem_of_lookup in Hx as [i Hi']. apply list_elem_of_lookup in Hy as [j Hj].
    assert (i = j) as ->; [|congruence].
    apply (NoDup_lookup _ i j x.1 Hd); rewrite list_lookup_fmap; [by rewrite Hi'|by rewrite Hj, He].
Qed.

Lemma Interrupt_ok flag g : group_ok g → group_ok (Interrupt flag g).2.
Proof.
  intros Hg. rewrite Interrupt_split by done. destruct Hg as [Hd Hl].
  split; [by apply filter_fst_NoDup|]. cbn. intros e He%filter_fst_sub. by apply Hl.
Qed.

End interrupt.

(** ** The selector (protocol/group/selector.go) *)

(** What a selector keeps in the cache file: the tag it has selected, by its own tag.  A tag that was
    stored is loaded again, and the tags of the others stay.

    [adapter/experimental.go:56-57] CacheFile *)
Class SelectedStore (C : Type) := {
  LoadSelected : C → string → string;
  StoreSelected : string → string → C → option error * C;
  Store_LoadSelected : ∀ group selected c c',
    StoreSelected group selected c = (None, c') →
    ∀ g, LoadSelected c' g = if decide (g = group) then selected else LoadSelected c g
}.

(** [option/group.go:5-9] SelectorOutboundOptions *)
Record SelectorOutboundOptions : Type := mkSelectorOptions {
  so_Outbounds : list string;
  so_Default : string;
  so_InterruptExistConnections : bool
}.

(** [protocol/group/selector.go:33-45] Selector *)
Record Selector : Type := mkSelector {
  s_Tag : string;
  tags : list string;
  s_defaultTag : string;
  s_outbounds : gmap string Outbound;
  selected : option Outbound;
  interruptGroup : interrupt.Group;
  interruptExternalConnections : bool
}.
#[global] Instance Selector_settable : Settable Selector :=
  {| mkT r := mkSelector (s_Tag r) (tags r) (s_defaultTag r) (s_outbounds r) (selected r)
       (interruptGroup r) (interruptExternalConnections r) |}.

(** [protocol/group/selector.go:47-64] NewSelector *)
Definition NewSelector (tag : string) (options : SelectorOutboundOptions) : res Selector :=
  let outbound := mkSelector tag (so_Outbounds options) (so_Default options) ∅ None
                    interrupt.NewGroup (so_InterruptExistConnections options) in
  if Nat.eqb (length (tags outbound)) 0 then Err (E_New [AStr "missing tags"]) else Ok outbound.

Definition nil_dereference : list arg := [AStr "nil pointer dereference"].
Definition index_out_of_range : list arg := [AStr "index out of range"].

(** What a dialed outbound answers: a connection, or a handler that takes the connection over, and
    what [NewDirectRouteConnection] of a direct route outbound returns. *)
Class OutboundDial := {
  dial_context : Outbound → string → Socksaddr → res Z;
  listen_packet : Outbound → Socksaddr → res Z;
  is_connection_handler : Outbound → bool;
  is_packet_handler : Outbound → bool;
  direct_route : Outbound → InboundContext → res Z
}.

(** Who takes a connection over: the outbound itself, or the connection manager, which dials it. *)
Inductive Handler : Type :=
| OutboundHandler (o : Outbound)
| ManagerHandler (o : option Outbound).

Section Selector.
Context {M : Type} `{OutboundLookup M} {C : Type} `{SelectedStore C}.

(** [protocol/group/selector.go:66-72] (Selector).Network *)
Definition Selector_Network (s : Selector) : list string :=
  match selected s with
  | None => ["tcp"; "udp"]%string
  | Some selected => ob_Network selected
  end.

(** [protocol/group/selector.go:75-81] (Selector).Start (outbounds) *)
Fixpoint find_outbounds (m : M) (i : nat) (tags : list string) (outbounds : gmap string Outbound)
    : option error * gmap string Outbound :=
  match tags with
  | [] => (None, outbounds)
  | tag :: rest =>
      match lookup_outbound m tag with
      | None =>
          (Some (E_New [AStr "outbound "; AInt (Z.of_nat i); AStr " not found: "; AStr tag]),
           outbounds)
      | Some detour => find_outbounds m (S i) rest (<[tag := detour]> outbounds)
      end
  end.

(** [protocol/group/selector.go:83-95] (Selector).Start (cache file) *)
Definition cached_selection (cacheFile : option C) (s : Selector) : option Outbound :=
  if negb (String.eqb (s_Tag s) "") then
    match cacheFile with
    | Some cacheFile =>
        let selected := LoadSelected cacheFile (s_Tag s) in
        if negb (String.eqb selected "") then s_outbounds s !! selected else None
    | None => None
    end
  else None.

(** [protocol/group/selector.go:74-108] (Selector).Start *)
Definition Selector_Start (m : M) (cacheFile : option C) (s : Selector) : res unit * Selector :=
  let '(err, outbounds) := find_outbounds m 0 (tags s) (s_outbounds s) in
  let s := s <| s_outbounds := outbounds |> in
  match err with
  | Some err => (Err err, s)
  | None =>
      match cached_selection cacheFile s with
      | Some detour => (Ok tt, s <| selected := Some detour |>)
      | None =>
          if negb (String.eqb (s_defaultTag s) "") then
            match s_outbounds s !! s_defaultTag s with
            | None =>
                (Err (E_New [AStr "default outbound not found: "; AStr (s_defaultTag s)]), s)
            | Some detour => (Ok tt, s <| selected := Some detour |>)
            end
          else
            match tags s with
            | [] => (Panic index_out_of_range, s)
            | tag :: _ => (Ok tt, s <| selected := s_outbounds s !! tag |>)
            end
      end
  end.

(** [protocol/group/selector.go:110-116] (Selector).Now *)
Definition Selector_Now (s : Selector) : res string :=
  match selected s with
  | None => match tags s with tag :: _ => Ok tag | [] => Panic index_out_of_range end
  | Some selected => Ok (ob_Tag selected)
  end.

(** [protocol/group/selector.go:118-120] (Selector).All *)
Definition Selector_All (s : Selector) : list string := tags s.

(** Whether the tag can be selected, and the connections that are closed; an error of the cache file
    is logged.

    [protocol/group/selector.go:122-141] (Selector).SelectOutbound *)
Definition SelectOutbound (tag : string) (s : Selector) (cacheFile : option C)
    : bool * list Z * Selector * option C :=
  match s_outbounds s !! tag with
  | None => (false, [], s, cacheFile)
  | Some detour =>
      let same := match selected s with Some old => same_object detour old | None => false end in
      let s := s <| selected := Some detour |> in
      if same then (true, [], s, cacheFile) else
      let cacheFile :=
        if negb (String.eqb (s_Tag s) "")
        then (λ c, (StoreSelected (s_Tag s) tag c).2) <$> cacheFile else cacheFile in
      let '(closed, g) := interrupt.Interrupt (interruptExternalConnections s) (interruptGroup s) in
      (true, closed, s <| interruptGroup := g |>, cacheFile)
  end.

Context `{OutboundDial}.

(** [isExternal] is what the context says.

    [protocol/group/selector.go:143-149] (Selector).DialContext *)
Definition Selector_DialContext (isExternal : bool) (network : string) (destination : Socksaddr)
    (s : Selector) : res interrupt.Conn * Selector :=
  match selected s with
  | None => (Panic nil_dereference, s)
  | Some o =>
      match dial_context o network destination with
      | Ok conn =>
          let '(c, g) := interrupt.NewConn conn isExternal (interruptGroup s) in
          (Ok c, s <| interruptGroup := g |>)
      | Err e => (Err e, s)
      | Panic p => (Panic p, s)
      end
  end.

(** [protocol/group/selector.go:151-157] (Selector).ListenPacket *)
Definition Selector_ListenPacket (isExternal : bool) (destination : Socksaddr) (s : Selector)
    : res interrupt.PacketConn * Selector :=
  match selected s with
  | None => (Panic nil_dereference, s)
  | Some o =>
      match listen_packet o destination with
      | Ok conn =>
          let '(c, g) := interrupt.NewPacketConn conn isExternal (interruptGroup s) in
          (Ok c, s <| interruptGroup := g |>)
      | Err e => (Err e, s)
      | Panic p => (Panic p, s)
      end
  end.

(** The context of the handler is marked as external.

    [protocol/group/selector.go:159-167] (Selector).NewConnectionEx *)
Definition Selector_NewConnectionEx (s : Selector) : Handler :=
  match selected s with
  | Some o => if is_connection_handler o then OutboundHandler o else ManagerHandler (Some o)
  | None => ManagerHandler None
  end.

(** [protocol/group/selector.go:169-177] (Selector).NewPacketConnectionEx *)
Definition Selector_NewPacketConnectionEx (s : Selector) : Handler :=
  match selected s with
  | Some o => if is_packet_handler o then OutboundHandler o else ManagerHandler (Some o)
  | None => ManagerHandler None
  end.

(** [protocol/group/selector.go:179-185] (Selector).NewDirectRouteConnection *)
Definition Selector_NewDirectRouteConnection (metadata : InboundContext) (s : Selector) : res Z :=
  match selected s with
  | None => Panic nil_dereference
  | Some o =>
      if negb (bool_decide (ic_Network metadata ∈ ob_Network o))
      then Err (E_New [AStr (ic_Network metadata); AStr " is not supported by outbound: ";
                       AStr (ob_Tag o)]) else
      if ob_isDirectRoute o then direct_route o metadata
      else Panic [AStr "interface conversion"]
  end.

End Selector.

(** ** Correctness of the selector *)

Section SelectorTheorems.
Context {M : Type} `{OutboundLookup M} {C : Type} `{SelectedStore C}.
Variable m : M.
Hypothesis Hm : lookup_ok m.

(** What [Start] means to select: the selection of the cache file when it is one of the group, else
    the default, else the first. *)
Definition chosen_tag (s : Selector) (cacheFile : option C) : string :=
  let cached := match cacheFile with Some c => LoadSelected c (s_Tag s) | None => ""%string end in
  if bool_decide (s_Tag s ≠ ""%string ∧ cached ≠ ""%string ∧ cached ∈ tags s) then cached
  else if bool_decide (s_defaultTag s ≠ ""%string) then s_defaultTag s
  else hd ""%string (tags s).

Definition all_found (l : list string) : Prop := ∀ t, t ∈ l → is_Some (lookup_outbound m t).

(** A selector after [Start]: its map holds its tags, and one of them is selected. *)
Record selector_ok (s : Selector) : Prop := {
  so_outbounds : ∀ t, s_outbounds s !! t = if decide (t ∈ tags s) then lookup_outbound m t else None;
  so_found : all_found (tags s);
  so_selected : ∃ t, t ∈ tags s ∧ selected s = lookup_outbound m t;
  so_group : interrupt.group_ok (interruptGroup s)
}.

Lemma find_outbounds_ok i l outbounds : all_found l →
  find_outbounds m i l outbounds =
    (None, fold_left (λ acc t, partial_alter (λ _, lookup_outbound m t) t acc) l outbounds).
Proof.
  revert i outbounds. induction l as [|t l IH]; intros i outbounds Hf; [done|]. cbn.
  destruct (Hf t ltac:(left)) as [o Ho]. rewrite Ho, IH by (intros ??; apply Hf; by right). done.
Qed.

Lemma find_outbounds_lookup l (outbounds : gmap string Outbound) t :
  fold_left (λ acc t, partial_alter (λ _, lookup_outbound m t) t acc) l outbounds !! t
  = if decide (t ∈ l) then lookup_outbound m t else outbounds !! t.
Proof.
  revert outbounds. induction l as [|t' l IH]; intros outbounds; cbn; [by rewrite decide_False by set_solver|].
  rewrite IH. destruct (decide (t ∈ l)); [by rewrite decide_True by set_solver|].
  destruct (decide (t = t')) as [->|Hne].
  - by rewrite lookup_partial_alter_eq, decide_True by set_solver.
  - rewrite lookup_partial_alter_ne by done. by rewrite decide_False by set_solver.
Qed.

Lemma cached_selection_eq (cacheFile : option C) s :
  (∀ t, s_outbounds s !! t = if decide (t ∈ tags s) then lookup_outbound m t else None) →
  let cached := match cacheFile with Some c => LoadSelected c (s_Tag s) | None => ""%string end in
  cached_selection cacheFile s =
    if bool_decide (s_Tag s ≠ ""%string ∧ cached ≠ ""%string ∧ cached ∈ tags s)
    then lookup_outbound m cached else None.
Proof.
  intros Hs. cbn. unfold cached_selection. destruct (String.eqb_spec (s_Tag s) "") as [He|He]; cbn.
  { by rewrite bool_decide_eq_false_2 by tauto. }
  destruct cacheFile as [c|]; cbn; [|by rewrite bool_decide_eq_false_2 by tauto].
  destruct (String.eqb_spec (LoadSelected c (s_Tag s)) "") as [Hc|Hc]; cbn.
  { by rewrite bool_decide_eq_false_2 by tauto. }
  rewrite Hs. case_decide; [by rewrite bool_decide_eq_true_2|by rewrite bool_decide_eq_false_2 by tauto].
Qed.

(** A selector starts with the selection of the cache file when it is one of its outbounds, else
    with the default, else with the first; only a default that is not one of its outbounds is an
    error. *)
Theorem Selector_Start_choice cacheFile s :
  s_outbounds s = ∅ → tags s ≠ [] → all_found (tags s) → interrupt.group_ok (interruptGroup s) →
  let t := chosen_tag s cacheFile in
  if decide (t ∈ tags s) then
    ∃ s', Selector_Start m cacheFile s = (Ok tt, s') ∧ selector_ok s' ∧ Selector_Now s' = Ok t ∧
      tags s' = tags s ∧ s_Tag s' = s_Tag s ∧ s_defaultTag s' = s_defaultTag s
  else
    t = s_defaultTag s ∧
    (Selector_Start m cacheFile s).1 = Err (E_New [AStr "default outbound not found: "; AStr t]).
Proof.
  intros He Hn Hf Hg t. unfold Selector_Start. rewrite find_outbounds_ok by done. cbv beta iota zeta.
  set (out := fold_left _ _ _). set (s1 := s <| s_outbounds := out |>).
  assert (∀ t, s_outbounds s1 !! t = if decide (t ∈ tags s) then lookup_outbound m t else None) as Hs.
  { intros t'. cbn. unfold out. rewrite find_outbounds_lookup, He. by rewrite lookup_empty. }
  assert (∀ t', t' ∈ tags s → ∃ o, lookup_outbound m t' = Some o ∧
    let s' := s1 <| selected := Some o |> in selector_ok s' ∧ Selector_Now s' = Ok t') as Hsel.
  { intros t' Ht. destruct (Hf t' Ht) as [o Ho]. exists o. split; [done|]. split.
    - split; cbn; [exact Hs|done|by exists t'|done].
    - unfold Selector_Now. cbn. by rewrite (lookup_outbound_tag m t' o). }
  rewrite (cached_selection_eq cacheFile s1 Hs). subst t. unfold chosen_tag. cbn.
  set (cached := match cacheFile with Some c => _ | None => _ end).
  case_bool_decide as Hc.
  { destruct Hc as (Ht & Hc & Hin). rewrite decide_True by done.
    destruct (Hsel cached Hin) as (o & -> & Hok & Hnow). eexists. split; [done|]. by split_and!. }
  destruct (String.eqb_spec (s_defaultTag s) "") as [Hd|Hd]; cbn.
  - rewrite bool_decide_eq_false_2 by tauto.
    assert (∃ t1 l, tags s = t1 :: l) as (t1 & l & Et) by (destruct (tags s); [done|eauto]).
    assert (t1 ∈ tags s) as Hin by (rewrite Et; left).
    destruct (Hsel t1 Hin) as (o & Ho & Hok & Hnow).
    replace (hd ""%string (tags s)) with t1 by (by rewrite Et). rewrite decide_True by done.
    eexists. split; [|by split_and!].
    change (match tags s with [] => (Panic index_out_of_range, s1)
            | tag :: _ => (Ok tt, s1 <| selected := s_outbounds s1 !! tag |>) end
            = (Ok tt, s1 <| selected := Some o |>)).
    by rewrite Et, Hs, decide_True, Ho.
  - rewrite bool_decide_eq_true_2 by done. rewrite Hs. case_decide as Hin; [|done].
    destruct (Hsel _ Hin) as (o & -> & Hok & Hnow). eexists. split; [done|]. by split_and!.
Qed.

(** Outbounds are compared as pointers: the manager has no two with the same identity. *)
Hypothesis Hid : ∀ t t' o o', lookup_outbound m t = Some o → lookup_outbound m t' = Some o' →
  ob_id o = ob_id o' → o = o'.

Lemma SelectOutbound_cases tag s cacheFile : selector_ok s →
  let '(b, closed, s', cacheFile') := SelectOutbound tag s cacheFile in
  b = bool_decide (tag ∈ tags s) ∧ selector_ok s' ∧ tags s' = tags s ∧ s_Tag s' = s_Tag s ∧
  s_defaultTag s' = s_defaultTag s ∧
  interruptExternalConnections s' = interruptExternalConnections s ∧
  if decide (tag ∈ tags s ∧ selected s ≠ lookup_outbound m tag) then
    selected s' = lookup_outbound m tag ∧
    (closed, interruptGroup s')
      = interrupt.Interrupt (interruptExternalConnections s) (interruptGroup s) ∧
    cacheFile' = (if bool_decide (s_Tag s = ""%string) then cacheFile
                  else (λ c, (StoreSelected (s_Tag s) tag c).2) <$> cacheFile)
  else s' = s ∧ closed = [] ∧ cacheFile' = cacheFile.
Proof.
  intros Hok. unfold SelectOutbound. rewrite (so_outbounds s Hok tag).
  destruct (decide (tag ∈ tags s)) as [Hin|Hin]; cycle 1.
  { rewrite bool_decide_eq_false_2, decide_False by tauto. by split_and!. }
  destruct (so_found s Hok tag Hin) as [o Ho]. rewrite Ho, bool_decide_eq_true_2 by done.
  destruct (so_selected s Hok) as (t & Ht & Hsel). destruct (so_found s Hok t Ht) as [old Hold].
  rewrite Hsel, Hold. unfold same_object. destruct (Z.eqb_spec (ob_id old) (ob_id o)) as [He|He].
  - assert (old = o) as -> by (eapply Hid; eauto). rewrite decide_False by tauto.
    assert (s <| selected := Some o |> = s) as ->; [|by split_and!].
    destruct s; cbn in *. congruence.
  - destruct (interrupt.Interrupt _ _) as [closed g] eqn:Hi. cbn in Hi.
    rewrite decide_True by (split; [done|congruence]). split_and!; try done.
    + split; cbn; [apply Hok|apply Hok|exists tag; by rewrite Ho|].
      change g with (closed, g).2. rewrite <-Hi. apply interrupt.Interrupt_ok, Hok.
    + cbn. destruct (String.eqb_spec (s_Tag s) "");
        [by rewrite bool_decide_eq_true_2|by rewrite bool_decide_eq_false_2].
Qed.

(** The user selects one tag after the other. *)
Definition select_all (picks : list string) (s : Selector * option C) : Selector * option C :=
  fold_left (λ s tag, let '(_, _, s', c') := SelectOutbound tag s.1 s.2 in (s', c')) picks s.

(** The selection and the cache file agree: what is selected is what [Start] would select. *)
Lemma SelectOutbound_agrees tag s c :
  (∀ g t c, (StoreSelected g t c).1 = None) → s_Tag s ≠ ""%string → ""%string ∉ tags s →
  selector_ok s → selected s = lookup_outbound m (chosen_tag s (Some c)) →
  chosen_tag s (Some c) ∈ tags s →
  let '(_, _, s', c') := SelectOutbound tag s (Some c) in
  ∃ c'', c' = Some c'' ∧ selected s' = lookup_outbound m (chosen_tag s' (Some c'')) ∧
    chosen_tag s' (Some c'') ∈ tags s'.
Proof.
  intros Hstore Ht Hne Hok Hsel Hin. pose proof (SelectOutbound_cases tag s (Some c) Hok) as Hc.
  destruct (SelectOutbound tag s (Some c)) as [[[b closed] s'] c'].
  destruct Hc as (_ & _ & Htags & Htag & Hdef & _ & Hc). case_decide as Hd; cycle 1.
  { destruct Hc as (-> & _ & ->). by exists c. }
  destruct Hd as [Hd _], Hc as (Hs' & _ & ->). rewrite bool_decide_eq_false_2 by done. cbn.
  eexists. split; [done|]. unfold chosen_tag. rewrite Htags, Htag, Hdef, Hs'.
  assert (StoreSelected (s_Tag s) tag c = (None, (StoreSelected (s_Tag s) tag c).2)) as Hst
    by (rewrite <-(Hstore (s_Tag s) tag c); apply surjective_pairing).
  rewrite (Store_LoadSelected _ _ _ _ Hst), decide_True by done.
  rewrite bool_decide_eq_true_2; [done|]. split_and!; [done| |done]. by intros ->.
Qed.

Lemma select_all_agrees picks s c :
  (∀ g t c, (StoreSelected g t c).1 = None) → s_Tag s ≠ ""%string → ""%string ∉ tags s →
  selector_ok s → selected s = lookup_outbound m (chosen_tag s (Some c)) →
  chosen_tag s (Some c) ∈ tags s →
  ∃ s' c', select_all picks (s, Some c) = (s', Some c') ∧
    selected s' = lookup_outbound m (chosen_tag s' (Some c')) ∧ chosen_tag s' (Some c') ∈ tags s' ∧
    selector_ok s' ∧ tags s' = tags s ∧ s_Tag s' = s_Tag s ∧ s_defaultTag s' = s_defaultTag s.
Proof.
  intros Hstore. revert s c. induction picks as [|tag picks IH]; intros s c Ht Hne Hok Hsel Hin.
  { exists s, c. by split_and!. }
  unfold select_all. cbn. pose proof (SelectOutbound_agrees tag s c Hstore Ht Hne Hok Hsel Hin) as Ha.
  pose proof (SelectOutbound_cases tag s (Some c) Hok) as Hc.
  destruct (SelectOutbound tag s (Some c)) as [[[b closed] s'] c'].
  destruct Hc as (_ & Hok' & Htags & Htag & Hdef & _), Ha as (c'' & -> & Hsel' & Hin').
  destruct (IH s' c'') as (s2 & c2 & Hr & ?); [congruence|congruence|done..|].
  exists s2, c2. split; [exact Hr|]. naive_solver congruence.
Qed.

(** A selection survives a restart: whatever the user selects one after the other, a selector made
    from the same options that starts with the cache file then selects the same outbound. *)
Theorem selection_survives options tag picks s0 s1 c :
  (∀ g t c, (StoreSelected g t c).1 = None) → tag ≠ ""%string → ""%string ∉ so_Outbounds options →
  all_found (so_Outbounds options) → NewSelector tag options = Ok s0 →
  Selector_Start m (Some c) s0 = (Ok tt, s1) →
  let '(s2, c2) := select_all picks (s1, Some c) in
  ∃ s3, Selector_Start m c2 s0 = (Ok tt, s3) ∧ selected s3 = selected s2.
Proof.
  intros Hstore Ht Hne Hf Hnew Hstart. unfold NewSelector in Hnew. cbn in Hnew.
  destruct (Nat.eqb_spec (length (so_Outbounds options)) 0) as [|Hlen]; [done|]. injection Hnew as <-.
  set (s0 := mkSelector _ _ _ _ _ _ _) in *.
  assert (tags s0 ≠ []) as Hn by (intros He; apply Hlen; change (length (tags s0) = 0%nat); by rewrite He).
  assert (∀ c, _) as Hchoice by exact (λ c, Selector_Start_choice c s0 eq_refl Hn Hf interrupt.NewGroup_ok).
  pose proof (Hchoice (Some c)) as Hc. cbn zeta in Hc. case_decide as Hin; cycle 1.
  { destruct Hc as [_ Hc]. by rewrite Hstart in Hc. }
  destruct Hc as (s' & Hs' & Hok & Hnow & Htags & Htag & Hdef).
  rewrite Hstart in Hs'. injection Hs' as <-.
  assert (chosen_tag s1 (Some c) = chosen_tag s0 (Some c)) as Hch
    by (unfold chosen_tag; by rewrite Htags, Htag, Hdef).
  assert (∀ s t, selector_ok s → Selector_Now s = Ok t → selected s = lookup_outbound m t) as Hsn.
  { intros s t Hs. destruct (so_selected s Hs) as (t' & Ht' & Hsel).
    destruct (so_found s Hs t' Ht') as [o Ho]. unfold Selector_Now. rewrite Hsel, Ho.
    intros [= <-]. by rewrite (lookup_outbound_tag m t' o). }
  destruct (select_all_agrees picks s1 c) as (s2 & c2 & -> & Hsel & Hin2 & Hok2 & Htags2 & Htag2 & Hdef2);
    [done|by rewrite Htag|by rewrite Htags|done|rewrite Hch; by apply Hsn|by rewrite Hch, Htags|].
  assert (chosen_tag s0 (Some c2) = chosen_tag s2 (Some c2)) as Hch2
    by (unfold chosen_tag; by rewrite Htags2, Htag2, Hdef2, Htags, Htag, Hdef).
  specialize (Hchoice (Some c2)). cbn zeta in Hchoice. rewrite Hch2 in Hchoice.
  rewrite decide_True in Hchoice by (by rewrite <-Htags, <-Htags2).
  destruct Hchoice as (s3 & Hs3 & Hok3 & Hnow3 & _). exists s3. split; [done|].
  by rewrite (Hsn _ _ Hok3 Hnow3), Hsel.
Qed.

(** *** What is closed when the selection changes *)

(** A connection that was handed out: the wrapper around it, and what the context of the dial said. *)
Record Made : Type := mkMade {
  m_wrapper : interrupt.Conn + interrupt.PacketConn;
  m_external : bool
}.

Definition m_conn (x : Made) : Z :=
  match m_wrapper x with inl c => interrupt.c_conn c | inr p => interrupt.p_conn p end.
Definition m_element (x : Made) : nat :=
  match m_wrapper x with inl c => interrupt.c_element c | inr p => interrupt.p_element p end.

(** A selector that runs, the connections it has handed out, and those of them that are open: nobody
    has called [Close] of the connection that was dialed, neither through the wrapper nor from
    [Interrupt]. *)
Record World : Type := mkWorld {
  w_selector : Selector;
  w_cache : option C;
  w_made : list Made;
  w_open : list Made
}.

(** [Close] of the connections that were dialed. *)
Definition close_conns (closed : list Z) (l : list Made) : list Made :=
  List.filter (λ x, negb (bool_decide (m_conn x ∈ closed))) l.

(** What happens to it: the user selects, somebody dials or listens, with what the network answers to
    this call, or closes the [i]th connection that was handed out. *)
Inductive SelectorCall : Type :=
| CallSelect (tag : string)
| CallDial (answer : OutboundDial) (isExternal : bool) (network : string) (destination : Socksaddr)
| CallListen (answer : OutboundDial) (isExternal : bool) (destination : Socksaddr)
| CallClose (i : nat).

Definition made_one (x : Made) (s : Selector) (w : World) : World :=
  mkWorld s (w_cache w) (w_made w ++ [x]) (w_open w ++ [x]).

Definition selector_call (call : SelectorCall) (w : World) : World :=
  let s := w_selector w in
  match call with
  | CallSelect tag =>
      let '(_, closed, s, cache) := SelectOutbound tag s (w_cache w) in
      mkWorld s cache (w_made w) (close_conns closed (w_open w))
  | CallDial D ext network destination =>
      match @Selector_DialContext D ext network destination s with
      | (Ok c, s) => made_one (mkMade (inl c) ext) s w
      | (_, s) => mkWorld s (w_cache w) (w_made w) (w_open w)
      end
  | CallListen D ext destination =>
      match @Selector_ListenPacket D ext destination s with
      | (Ok p, s) => made_one (mkMade (inr p) ext) s w
      | (_, s) => mkWorld s (w_cache w) (w_made w) (w_open w)
      end
  | CallClose i =>
      match w_made w !! i with
      | Some x =>
          let '(closed, g) := match m_wrapper x with
                              | inl c => interrupt.Conn_Close c (interruptGroup s)
                              | inr p => interrupt.PacketConn_Close p (interruptGroup s)
                              end in
          mkWorld (s <| interruptGroup := g |>) (w_cache w) (w_made w) (close_conns closed (w_open w))
      | None => w
      end
  end.

(** [via c] is the outbound a connection was dialed through, by identity. *)
Variable via : Z → Z.

Definition dials_via (call : SelectorCall) : Prop :=
  match call with
  | CallDial D _ _ _ => ∀ o network destination c,
      @dial_context D o network destination = Ok c → via c = ob_id o
  | CallListen D _ _ => ∀ o destination c, @listen_packet D o destination = Ok c → via c = ob_id o
  | _ => True
  end.

(** What the group keeps: the connections that are open are in its list, no two that were handed out
    have the same element, and those an interruption would close go through the selected outbound. *)
Record world_ok (w : World) : Prop := {
  wo_selector : selector_ok (w_selector w);
  wo_open : ∀ x, x ∈ w_open w → x ∈ w_made w ∧
    (m_element x, interrupt.mkItem (m_conn x) (m_external x)) ∈
      interrupt.connections (interruptGroup (w_selector w));
  wo_made : ∀ x, x ∈ w_made w → (m_element x < interrupt.next_element (interruptGroup (w_selector w)))%nat;
  wo_element : ∀ x y, x ∈ w_made w → y ∈ w_made w → m_element x = m_element y → m_conn x = m_conn y;
  wo_current : ∀ e i, (e, i) ∈ interrupt.connections (interruptGroup (w_selector w)) →
    interrupt.interrupted (interruptExternalConnections (w_selector w)) i = true →
    ∃ o, selected (w_selector w) = Some o ∧ via (interrupt.conn i) = ob_id o
}.

Lemma elem_of_filter_List {A} (f : A → bool) (l : list A) x :
  x ∈ List.filter f l ↔ x ∈ l ∧ f x = true.
Proof. by rewrite !list_elem_of_In, List.filter_In. Qed.

Lemma close_conns_elem closed l x : x ∈ close_conns closed l ↔ x ∈ l ∧ m_conn x ∉ closed.
Proof.
  unfold close_conns. rewrite elem_of_filter_List, negb_true_iff, bool_decide_eq_false. done.
Qed.

(** A connection that is dialed. *)
Lemma made_one_ok x w o : world_ok w → selected (w_selector w) = Some o → via (m_conn x) = ob_id o →
  m_element x = interrupt.next_element (interruptGroup (w_selector w)) →
  let g := interruptGroup (w_selector w) in
  world_ok (made_one x (w_selector w <| interruptGroup :=
    interrupt.mkGroup (interrupt.connections g
      ++ [(interrupt.next_element g, interrupt.mkItem (m_conn x) (m_external x))])
      (S (interrupt.next_element g)) |>) w).
Proof.
  intros [Hok Hopen Hmade Helem Hcur] Ho Hvia Hx. cbv zeta. split; cbn.
  - destruct Hok. split; cbn; [done..|]. by apply (interrupt.NewConn_ok (m_conn x) (m_external x)).
  - intros y [Hy| ->%list_elem_of_singleton]%elem_of_app.
    + destruct (Hopen y Hy). split; apply elem_of_app; by left.
    + rewrite Hx. split; apply elem_of_app; right; by apply list_elem_of_singleton.
  - intros y [Hy%Hmade| ->%list_elem_of_singleton]%elem_of_app; lia.
  - intros y z [Hy| ->%list_elem_of_singleton]%elem_of_app [Hz| ->%list_elem_of_singleton]%elem_of_app He;
      [by apply Helem|apply Hmade in Hy; lia|apply Hmade in Hz; lia|done].
  - intros e i [Hin|[= -> ->]%list_elem_of_singleton]%elem_of_app; [exact (Hcur e i Hin)|].
    intros _. by exists o.
Qed.

(** A connection that is closed by its owner. *)
Lemma close_one_ok x w : world_ok w → x ∈ w_made w →
  world_ok (mkWorld (w_selector w <| interruptGroup :=
    interrupt.Remove (m_element x) (interruptGroup (w_selector w)) |>)
    (w_cache w) (w_made w) (close_conns [m_conn x] (w_open w))).
Proof.
  intros [Hok Hopen Hmade Helem Hcur] Hx. split; cbn.
  - destruct Hok. split; cbn; [done..|]. by apply interrupt.Remove_ok.
  - intros y [Hy Hne]%close_conns_elem. destruct (Hopen y Hy) as [Hmd Hin]. split; [done|].
    apply elem_of_filter_List. split; [done|]. cbn.
    destruct (Nat.eqb_spec (m_element y) (m_element x)) as [He|]; [|done].
    destruct Hne. apply list_elem_of_singleton. by apply Helem.
  - done.
  - done.
  - intros e i [Hin _]%elem_of_filter_List. by apply Hcur with e.
Qed.

(** A selection. *)
Lemma select_ok tag w : world_ok w → world_ok (selector_call (CallSelect tag) w).
Proof.
  intros [Hok Hopen Hmade Helem Hcur]. pose proof (SelectOutbound_cases tag (w_selector w) (w_cache w) Hok) as Hc.
  cbn. destruct (SelectOutbound tag (w_selector w) (w_cache w)) as [[[b closed] s'] c'].
  destruct Hc as (_ & Hok' & _ & _ & _ & Hext & Hc). case_decide; cycle 1.
  { destruct Hc as (-> & -> & _). split; cbn; [done| |done..].
    intros y [Hy _]%close_conns_elem. by apply Hopen. }
  destruct Hc as (_ & Hi & _). rewrite interrupt.Interrupt_split in Hi by apply Hok.
  injection Hi as Hclosed Hg. split; cbn; [done|rewrite ?Hg; cbn..].
  - intros y [Hy Hne]%close_conns_elem. destruct (Hopen y Hy) as [Hmd Hin]. split; [done|].
    apply elem_of_filter_List. split; [done|]. apply negb_true_iff, not_true_iff_false. intros Hint.
    destruct Hne. rewrite Hclosed. apply list_elem_of_fmap. eexists. split; [|apply elem_of_filter_List; by split].
    done.
  - done.
  - done.
  - intros e i [_ Hni]%elem_of_filter_List Hint. rewrite Hext in Hint. cbn in Hni. by rewrite Hint in Hni.
Qed.

Lemma selector_call_ok call w : dials_via call → world_ok w → world_ok (selector_call call w) ∧
  interruptExternalConnections (w_selector (selector_call call w))
  = interruptExternalConnections (w_selector w).
Proof.
  intros Hvia Hok. destruct call as [tag|D ext network dst|D ext dst|i].
  - split; [by apply select_ok|]. pose proof (SelectOutbound_cases tag (w_selector w) (w_cache w) (wo_selector w Hok)) as Hc.
    cbn. destruct (SelectOutbound _ _ _) as [[[b closed] s'] c']. apply Hc.
  - cbn in Hvia |- *. unfold Selector_DialContext. destruct w as [s cache made opn].
    destruct (selected s) as [o|] eqn:Ho; cbn [w_selector]; rewrite Ho; [|done].
    destruct (dial_context o network dst) as [c|e|p] eqn:Hd; [|done..].
    split; [|done]. apply (made_one_ok (mkMade (inl (interrupt.mkConn c _)) ext) (mkWorld s cache made opn) o);
      [done|done|by eapply Hvia|done].
  - cbn in Hvia |- *. unfold Selector_ListenPacket. destruct w as [s cache made opn].
    destruct (selected s) as [o|] eqn:Ho; cbn [w_selector]; rewrite Ho; [|done].
    destruct (listen_packet o dst) as [c|e|p] eqn:Hd; [|done..].
    split; [|done]. apply (made_one_ok (mkMade (inr (interrupt.mkPacketConn c _)) ext) (mkWorld s cache made opn) o);
      [done|done|by eapply Hvia|done].
  - cbn. destruct (w_made w !! i) as [x|] eqn:Hx; [|done].
    pose proof (close_one_ok x w Hok (list_elem_of_lookup_2 _ _ _ Hx)) as Hc. unfold m_element, m_conn in Hc.
    by destruct (m_wrapper x).
Qed.

Lemma selector_calls_ok calls w : Forall dials_via calls → world_ok w →
  let w' := fold_left (λ w call, selector_call call w) calls w in
  world_ok w' ∧ interruptExternalConnections (w_selector w')
                = interruptExternalConnections (w_selector w).
Proof.
  intros Hvia. revert w. induction Hvia as [|call calls Hc Hvia IH]; intros w Hw; [done|].
  destruct (selector_call_ok call w Hc Hw) as [Hw' He]. cbn [fold_left]. rewrite <-He. by apply IH.
Qed.

(** C12: as long as dialing and selecting do not overlap, no open connection of a selector goes through
    another outbound than the selected one.  After any sequence of selecting, dialing, listening and
    closing from the start on, take a connection that the selector has handed out and that is open,
    which means that [Close] of the connection that was dialed was called neither through its wrapper
    nor by an interruption: when it was made by the program itself (or in any case, if external
    connections are interrupted), it is a connection of the outbound that is selected now, and it is
    in the list of the group, so that the next change of the selection closes it. *)
Theorem Selector_no_stale calls s cacheFile :
  selector_ok s → interrupt.connections (interruptGroup s) = [] → Forall dials_via calls →
  let w' := fold_left (λ w call, selector_call call w) calls (mkWorld s cacheFile [] []) in
  let s' := w_selector w' in
  selector_ok s' ∧ ∀ x, x ∈ w_open w' →
    (m_element x, interrupt.mkItem (m_conn x) (m_external x)) ∈ interrupt.connections (interruptGroup s') ∧
    (m_external x = false ∨ interruptExternalConnections s = true →
     ∃ o, selected s' = Some o ∧ via (m_conn x) = ob_id o).
Proof.
  intros Hok He Hvia. assert (world_ok (mkWorld s cacheFile [] [])) as Hw.
  { split; cbn; [done|by intros ? []%elem_of_nil|by intros ? []%elem_of_nil|by intros ? ? []%elem_of_nil|]. intros e i. rewrite He. by intros ?%elem_of_nil. }
  destruct (selector_calls_ok calls _ Hvia Hw) as [Hw' Hext]. cbn zeta in *.
  set (w' := fold_left _ _ _) in *. split; [apply Hw'|]. intros x Hx.
  destruct (wo_open w' Hw' x Hx) as [_ Hin]. split; [exact Hin|]. intros Hint.
  apply (wo_current w' Hw' _ _ Hin). unfold interrupt.interrupted. rewrite Hext. cbn.
  destruct Hint as [-> | ->]; [done|]. by destruct (m_external x).
Qed.

End SelectorTheorems.

(** ** A concrete selector *)

Module SampleSelector.

(** A cache file that never fails. *)
#[export] Instance map_store : SelectedStore (gmap string string).
Proof.
  refine {| LoadSelected c group := default ""%string (c !! group);
            StoreSelected group selected c := (None, <[group := selected]> c) |}.
  intros group selected c c' [= <-] g. case_decide as Hg; [subst; by rewrite lookup_insert_eq|].
  by rewrite lookup_insert_ne.
Defined.

(** Every outbound dials the connection of its own number. *)
#[export] Instance own_dial : OutboundDial := {|
  dial_context o _ _ := Ok (ob_id o);
  listen_packet o _ := Ok (ob_id o);
  is_connection_handler _ := false;
  is_packet_handler _ := false;
  direct_route _ _ := Err os_ErrInvalid
|}.

Definition options : SelectorOutboundOptions :=
  mkSelectorOptions ["proxy"; "hop"]%string "" true.

Definition fresh : Selector :=
  mkSelector "select" ["proxy"; "hop"]%string "" ∅ None interrupt.NewGroup true.

(** The selector after its start: the first outbound is selected. *)
Definition running : Selector := (Selector_Start sample_manager (Some (∅ : gmap string string)) fresh).2.

Lemma manager_ok : lookup_ok sample_manager.
Proof. split; [apply sample_manager_wf|]. intros t o.
  change ((∅ : gmap string Outbound) !! t = Some o → ob_Tag o = t). by rewrite lookup_empty.
Qed.

Lemma manager_lookup t o : lookup_outbound sample_manager t = Some o →
  o ∈ [sample_outbound 1 "proxy" ["hop"%string]; sample_outbound 2 "hop" []].
Proof.
  cbn. unfold Manager_Outbound. destruct (outboundByTag sample_manager !! t) as [o'|] eqn:E.
  - intros [= ->]. apply (mw_tags _ (proj1 sample_manager_wf)) in E as [E _].
    by rewrite sample_manager_outbounds in E.
  - change ((∅ : gmap string Outbound) !! t = Some o →
      o ∈ [sample_outbound 1 "proxy" ["hop"%string]; sample_outbound 2 "hop" []]).
    by rewrite lookup_empty.
Qed.

Lemma manager_ids t t' o o' : lookup_outbound sample_manager t = Some o →
  lookup_outbound sample_manager t' = Some o' → ob_id o = ob_id o' → o = o'.
Proof. intros H1%manager_lookup H2%manager_lookup. set_unfold. naive_solver. Qed.

Lemma manager_found : all_found sample_manager (tags fresh).
Proof. intros t Ht. set_unfold. destruct Ht as [->|[->|[]]]; eexists; by vm_compute. Qed.

Lemma running_ok : selector_ok sample_manager running.
Proof.
  pose proof (Selector_Start_choice sample_manager manager_ok (Some ∅) fresh eq_refl
    ltac:(done) manager_found interrupt.NewGroup_ok) as Hc.
  cbn zeta in Hc. case_decide as Hd; [|by destruct Hd; vm_compute; left].
  destruct Hc as (s' & Hs & Hok & _). unfold running. by rewrite Hs.
Qed.

End SampleSelector.
Import SampleSelector.

Lemma Selector_Start_choice_witness :
  let cache := {["select"%string := "hop"%string]} : gmap string string in
  chosen_tag SampleSelector.fresh (Some cache) = "hop"%string ∧
  ∃ s', Selector_Start sample_manager (Some cache) SampleSelector.fresh = (Ok tt, s') ∧
    Selector_Now s' = Ok "hop"%string.
Proof.
  intros cache. assert (chosen_tag SampleSelector.fresh (Some cache) = "hop"%string) as Hc by (by vm_compute).
  split; [exact Hc|].
  pose proof (Selector_Start_choice sample_manager SampleSelector.manager_ok (Some cache)
    SampleSelector.fresh eq_refl ltac:(done) SampleSelector.manager_found interrupt.NewGroup_ok) as Ht.
  cbn zeta in Ht. rewrite Hc, decide_True in Ht by set_solver.
  destruct Ht as (s' & Hs & _ & Hn & _). by exists s'.
Defined.

Lemma selection_survives_witness :
  let '(s2, c2) := select_all ["hop"; "proxy"; "gone"; "hop"]%string
                     (SampleSelector.running, Some (∅ : gmap string string)) in
  Selector_Now s2 = Ok "hop"%string ∧
  ∃ s3, Selector_Start sample_manager c2 SampleSelector.fresh = (Ok tt, s3) ∧ selected s3 = selected s2.
Proof.
  pose proof (selection_survives sample_manager SampleSelector.manager_ok SampleSelector.manager_ids
    SampleSelector.options "select" ["hop"; "proxy"; "gone"; "hop"]%string SampleSelector.fresh
    SampleSelector.running ∅ ltac:(done) ltac:(done) ltac:(set_solver) SampleSelector.manager_found
    eq_refl ltac:(by vm_compute)) as Ht.
  assert (Selector_Now (select_all ["hop"; "proxy"; "gone"; "hop"]%string
    (SampleSelector.running, Some ∅)).1 = Ok "hop"%string) as Hn by (by vm_compute).
  destruct (select_all _ _) as [s2 c2]. exact (conj Hn Ht).
Defined.

(** Two connections of the program and one of a user, all through the first outbound: the user selects
    the other one, and one more is dialed; the third call fails. *)
Definition refused : OutboundDial := {|
  dial_context _ _ _ := Err os_ErrInvalid;
  listen_packet _ _ := Err os_ErrInvalid;
  is_connection_handler _ := false;
  is_packet_handler _ := false;
  direct_route _ _ := Err os_ErrInvalid
|}.
Definition numbered (k : Z) : OutboundDial := {|
  dial_context o _ _ := Ok (10 * ob_id o + k);
  listen_packet o _ := Ok (10 * ob_id o + k);
  is_connection_handler _ := false;
  is_packet_handler _ := false;
  direct_route _ _ := Err os_ErrInvalid
|}.
Definition not_external : Selector := SampleSelector.running <| interruptExternalConnections := false |>.
Definition sample_calls : list SelectorCall :=
  [CallDial (numbered 1) false "tcp" Socksaddr_zero; CallListen (numbered 2) true Socksaddr_zero;
   CallDial refused false "tcp" Socksaddr_zero; CallDial (numbered 3) false "tcp" Socksaddr_zero;
   CallClose 2; CallSelect "hop"; CallDial (numbered 4) false "tcp" Socksaddr_zero]%string.

Lemma Selector_no_stale_witness :
  let w' := fold_left (λ w call, selector_call call w) sample_calls
              (mkWorld not_external (Some (∅ : gmap string string)) [] []) in
  m_conn <$> w_made w' = [11; 12; 13; 24] ∧ m_conn <$> w_open w' = [12; 24] ∧
  ∀ x, x ∈ w_open w' → m_external x = false →
    ∃ o, selected (w_selector w') = Some o ∧ m_conn x / 10 = ob_id o.
Proof.
  intros w'. split; [by vm_compute|]. split; [by vm_compute|]. intros x Hx Hext.
  assert (selector_ok sample_manager not_external) as Hok
    by (destruct SampleSelector.running_ok; split; cbn; done).
  refine (proj2 (proj2 (Selector_no_stale sample_manager SampleSelector.manager_ids (λ c, c / 10)
    sample_calls not_external (Some ∅) Hok eq_refl _) x Hx) (or_introl Hext)).
  repeat first [apply List.Forall_cons|apply List.Forall_nil]; cbn; try done;
    intros o; intros; simplify_eq; rewrite Z.add_comm, Z.mul_comm, Z.div_add by lia; done.
Defined.

(** A connection that is dialed while the user selects another outbound is added to the group after
    the interruption: it stays open, through the outbound that is not selected any more.  This is
    [Selector_DialContext] with the selection between its dial and [NewConn]. *)
Lemma dial_race :
  ∃ s1 conn c' s2, dial_context s1 "tcp" Socksaddr_zero = Ok conn ∧
    selected SampleSelector.running = Some s1 ∧
    SelectOutbound "hop" SampleSelector.running (Some (∅ : gmap string string)) = (true, [], s2, c') ∧
    let s3 := s2 <| interruptGroup := (interrupt.NewConn conn false (interruptGroup s2)).2 |> in
    Selector_Now s3 = Ok "hop"%string ∧
    interrupt.connections (interruptGroup s3) = [(0%nat, interrupt.mkItem (ob_id s1) false)] ∧
    s1 = sample_outbound 1 "proxy" ["hop"%string].
Proof.
  exists (sample_outbound 1 "proxy" ["hop"%string]), 1. do 2 eexists.
  split; [reflexivity|]. split; [by vm_compute|]. split; [vm_compute; reflexivity|]. by vm_compute.
Qed.
