(* ===== verification/UrlTest.v ===== *)
(** * The URL test group (protocol/group/urltest.go, common/urltest/urltest.go)

    The group measures its outbounds from time to time and sends connections to the fastest, by
    network; it keeps the one it has until another is faster by more than a tolerance.  The delays are
    in a history that other groups share.  The measuring stops when the group is idle: its ticker and
    the goroutine behind it are a state machine. *)

From stdpp Require Import base gmap strings list numbers relations.
From S2P Require Import Prelude GoStd Netip Adapter Outbound Groups.

Local Open Scope Z_scope.

(** ** The history (common/urltest/urltest.go) *)

(** [adapter/experimental.go:23-26] URLTestHistory *)
Record URLTestHistory : Type := mkHistory {
  h_Time : Z;
  h_Delay : Z
}.
#[global] Instance URLTestHistory_eq_dec : EqDecision URLTestHistory.
Proof. solve_decision. Defined.

(** The hook with the number of times it was told of a change.

    [common/urltest/urltest.go:22-26] HistoryStorage *)
Record HistoryStorage : Type := mkHistoryStorage {
  delayHistory : gmap string URLTestHistory;
  updateHook : option nat
}.
#[global] Instance HistoryStorage_settable : Settable HistoryStorage :=
  {| mkT r := mkHistoryStorage (delayHistory r) (updateHook r) |}.

(** [common/urltest/urltest.go:28-32] NewHistoryStorage *)
Definition NewHistoryStorage : HistoryStorage := mkHistoryStorage ∅ None.

(** [common/urltest/urltest.go:34-36] (HistoryStorage).SetHook *)
Definition SetHook (hook : option nat) (s : HistoryStorage) : HistoryStorage :=
  s <| updateHook := hook |>.

(** The storage may be [nil].

    [common/urltest/urltest.go:38-45] (HistoryStorage).LoadURLTestHistory *)
Definition LoadURLTestHistory (s : option HistoryStorage) (tag : string) : option URLTestHistory :=
  match s with None => None | Some s => delayHistory s !! tag end.

(** [common/urltest/urltest.go:61-66] (HistoryStorage).notifyUpdated *)
Definition notifyUpdated (s : HistoryStorage) : HistoryStorage :=
  match updateHook s with None => s | Some n => s <| updateHook := Some (S n) |> end.

(** [common/urltest/urltest.go:47-52] (HistoryStorage).DeleteURLTestHistory *)
Definition DeleteURLTestHistory (tag : string) (s : HistoryStorage) : HistoryStorage :=
  notifyUpdated (s <| delayHistory := delete tag (delayHistory s) |>).

(** [common/urltest/urltest.go:54-59] (HistoryStorage).StoreURLTestHistory *)
Definition StoreURLTestHistory (tag : string) (history : URLTestHistory) (s : HistoryStorage)
    : HistoryStorage :=
  notifyUpdated (s <| delayHistory := <[tag := history]> (delayHistory s) |>).

(** [common/urltest/urltest.go:68-73] (HistoryStorage).Close *)
Definition HistoryStorage_Close (s : HistoryStorage) : HistoryStorage := s <| updateHook := None |>.

(** ** One test *)

(** What a test uses of net/url, net/http and the dialer: the scheme, host and port of a link; the
    error of dialing, and whether the connection writes before its handshake; the error of making a
    request, and that of sending it. *)
Class TestEnv := {
  url_Parse : string → res (string * string * string);
  test_dial : Outbound → string → string → res Z;
  NeedHandshakeForWrite : Z → bool;
  http_NewRequest : string → option error;
  http_Do : Z → string → option error
}.

Definition Millisecond : Z := 1000000.

(** The times are those of the start, after dialing, and of the answer.

    [common/urltest/urltest.go:75-130] URLTest *)
Definition URLTest `{TestEnv} (link : string) (detour : Outbound) (t_start t_dialed t_answer : Z)
    : res Z :=
  let link := if String.eqb link "" then "https://www.gstatic.com/generate_204"%string else link in
  '(scheme, hostname, port) ← url_Parse link;
  let port :=
    if String.eqb port "" then
      if String.eqb scheme "http" then "80"%string
      else if String.eqb scheme "https" then "443"%string else port
    else port in
  instance ← test_dial detour hostname port;
  let start := if NeedHandshakeForWrite instance then t_dialed else t_start in
  match http_NewRequest link with
  | Some err => Err err
  | None =>
      match http_Do instance link with
      | Some err => Err err
      | None => Ok (u16 (Z.quot (t_answer - start) Millisecond))
      end
  end.

(** ** The group *)

(** [protocol/group/urltest.go:189-212] URLTestGroup *)
Record URLTestGroup : Type := mkURLTestGroup {
  g_outbounds : list Outbound;
  link : string;
  interval : Z;
  tolerance : Z;
  idleTimeout : Z;
  checking : bool;
  selectedOutboundTCP : option Outbound;
  selectedOutboundUDP : option Outbound;
  g_interruptGroup : interrupt.Group;
  g_interruptExternalConnections : bool;
  ticker : bool;
  closed : bool;
  g_started : bool;
  lastActive : Z
}.
#[global] Instance URLTestGroup_settable : Settable URLTestGroup :=
  {| mkT r := mkURLTestGroup (g_outbounds r) (link r) (interval r) (tolerance r) (idleTimeout r)
       (checking r) (selectedOutboundTCP r) (selectedOutboundUDP r) (g_interruptGroup r)
       (g_interruptExternalConnections r) (ticker r) (closed r) (g_started r) (lastActive r) |}.

Definition Minute : Z := 60 * 1000 * Millisecond.

(** [constant/timeout.go:13] DefaultURLTestInterval *)
Definition DefaultURLTestInterval : Z := 3 * Minute.
(** [constant/timeout.go:14] DefaultURLTestIdleTimeout *)
Definition DefaultURLTestIdleTimeout : Z := 30 * Minute.

(** The history is that of the context, a state of its own here.

    [protocol/group/urltest.go:214-250] NewURLTestGroup *)
Definition NewURLTestGroup (outbounds : list Outbound) (link : string)
    (interval tolerance idleTimeout : Z) (interruptExternalConnections : bool)
    : res URLTestGroup :=
  let interval := if Z.eqb interval 0 then DefaultURLTestInterval else interval in
  let tolerance := if Z.eqb tolerance 0 then 50 else tolerance in
  let idleTimeout := if Z.eqb idleTimeout 0 then DefaultURLTestIdleTimeout else idleTimeout in
  if Z.ltb idleTimeout interval
  then Err (E_New [AStr "interval must be less or equal than idle_timeout"]) else
  Ok (mkURLTestGroup outbounds link interval tolerance idleTimeout false None None
        interrupt.NewGroup interruptExternalConnections false false false 0).

Section URLTestGroup.
(** What [Now] answers for an outbound that is a group. *)
Variable now : Outbound → option string.

(** [protocol/group/selector.go:187-192] RealTag *)
Definition RealTag (detour : Outbound) : string :=
  match now detour with Some tag => tag | None => ob_Tag detour end.

Abbreviation history_of s o := (LoadURLTestHistory s (RealTag o)).

(** [common.Contains(detour.Network(), network)] *)
Definition has_network (network : string) (detour : Outbound) : bool :=
  bool_decide (network ∈ ob_Network detour).

(** [protocol/group/urltest.go:291-304] (URLTestGroup).Select (selected) *)
Definition select_init (network : string) (g : URLTestGroup) (s : option HistoryStorage)
    : Z * option Outbound :=
  let selected :=
    if String.eqb network "tcp" then selectedOutboundTCP g
    else if String.eqb network "udp" then selectedOutboundUDP g else None in
  match selected with
  | None => (0, None)
  | Some o => match history_of s o with Some history => (h_Delay history, Some o) | None => (0, None) end
  end.

(** [protocol/group/urltest.go:306-317] (URLTestGroup).Select (loop) *)
Definition select_step (network : string) (tolerance : Z) (s : option HistoryStorage)
    (min : Z * option Outbound) (detour : Outbound) : Z * option Outbound :=
  if negb (has_network network detour) then min else
  match history_of s detour with
  | None => min
  | Some history =>
      if Z.eqb min.1 0 || Z.ltb (u16 (h_Delay history + tolerance)) min.1
      then (h_Delay history, Some detour) else min
  end.

(** [protocol/group/urltest.go:287-329] (URLTestGroup).Select *)
Definition Select (network : string) (g : URLTestGroup) (s : option HistoryStorage)
    : option Outbound * bool :=
  let '(_, minOutbound) :=
    fold_left (select_step network (tolerance g) s) (g_outbounds g) (select_init network g s) in
  match minOutbound with
  | None => (List.find (has_network network) (g_outbounds g), false)
  | Some o => (Some o, true)
  end.

(** Whether the outbound takes the place of the one that is selected.

    [protocol/group/urltest.go:414] (URLTestGroup).performUpdateCheck (condition) *)
Definition replaces (selected : option Outbound) (o : Outbound) (exists_ : bool) : bool :=
  match selected with None => true | Some old => exists_ && negb (same_object old o) end.

(** [protocol/group/urltest.go:412-429] (URLTestGroup).performUpdateCheck *)
Definition performUpdateCheck (g : URLTestGroup) (s : option HistoryStorage)
    : list Z * URLTestGroup :=
  let '(updated, g) :=
    match Select "tcp" g s with
    | (Some outbound, exists_) =>
        if replaces (selectedOutboundTCP g) outbound exists_
        then (negb (is_nil (selectedOutboundTCP g)), g <| selectedOutboundTCP := Some outbound |>)
        else (false, g)
    | (None, _) => (false, g)
    end in
  let '(updated, g) :=
    match Select "udp" g s with
    | (Some outbound, exists_) =>
        if replaces (selectedOutboundUDP g) outbound exists_
        then (updated || negb (is_nil (selectedOutboundUDP g)),
              g <| selectedOutboundUDP := Some outbound |>)
        else (updated, g)
    | (None, _) => (updated, g)
    end in
  if updated then
    let '(closed, ig) := interrupt.Interrupt (g_interruptExternalConnections g) (g_interruptGroup g) in
    (closed, g <| g_interruptGroup := ig |>)
  else ([], g).

(** *** Testing *)

(** A test that is to be run: the tag it is reported under, the tag of its history, and the outbound
    that is dialed. *)
Record Job : Type := mkJob {
  j_tag : string;
  j_realTag : string;
  j_outbound : Outbound
}.

(** The tests are started while the loop goes on; as each writes the history of its own tag only,
    and no tag is looked at again, the loop sees the history as it was at the start.

    [protocol/group/urltest.go:372-385] (URLTestGroup).urlTest (loop) *)
Fixpoint collect_jobs (find_outbound : string → option Outbound) (force : bool) (interval : Z)
    (time : Z) (s : HistoryStorage) (outbounds : list Outbound) (checked : gset string) : list Job :=
  match outbounds with
  | [] => []
  | detour :: rest =>
      let tag := ob_Tag detour in
      let realTag := RealTag detour in
      let continue := collect_jobs find_outbound force interval time s rest in
      if bool_decide (realTag ∈ checked) then continue checked else
      let fresh :=
        match LoadURLTestHistory (Some s) realTag with
        | Some history => Z.ltb (time - h_Time history) interval
        | None => false
        end in
      if negb force && fresh then continue checked else
      let checked := {[ realTag ]} ∪ checked in
      match find_outbound realTag with
      | None => continue checked
      | Some p => mkJob tag realTag p :: continue checked
      end
  end.

(** What a test does when it has ended: the answer is a delay, or none on an error.

    [protocol/group/urltest.go:389-404] (URLTestGroup).urlTest (test) *)
Definition finish_job (answer : Job → option Z * Z) (job : Job)
    (s : HistoryStorage * gmap string Z) : HistoryStorage * gmap string Z :=
  match answer job with
  | (None, _) => (DeleteURLTestHistory (j_realTag job) s.1, s.2)
  | (Some t, time) =>
      (StoreURLTestHistory (j_realTag job) (mkHistory time t) s.1, <[j_tag job := t]> s.2)
  end.

(** [schedule] is the order in which the tests end.

    [protocol/group/urltest.go:363-410] (URLTestGroup).urlTest *)
Definition urlTest (find_outbound : string → option Outbound) (answer : Job → option Z * Z)
    (schedule : list Job → list Job) (force : bool) (time : Z) (g : URLTestGroup)
    (s : HistoryStorage) : gmap string Z * list Z * URLTestGroup * HistoryStorage :=
  if checking g then (∅, [], g, s) else
  let jobs := collect_jobs find_outbound force (interval g) time s (g_outbounds g) ∅ in
  let '(s, result) := fold_left (λ s job, finish_job answer job s) (schedule jobs) (s, ∅) in
  let '(interrupted, g) := performUpdateCheck g (Some s) in
  (result, interrupted, g, s).

(** *** The ticker *)

(** [protocol/group/urltest.go:252-258] (URLTestGroup).PostStart *)
Definition PostStart (time : Z) (g : URLTestGroup) : URLTestGroup :=
  g <| g_started := true |> <| lastActive := time |>.

(** The group, and whether a goroutine for [loopCheck] is started.

    [protocol/group/urltest.go:260-273] (URLTestGroup).Touch *)
Definition Touch (time : Z) (g : URLTestGroup) : URLTestGroup * bool :=
  if negb (g_started g) then (g, false) else
  if ticker g then (g <| lastActive := time |>, false) else
  (g <| ticker := true |>, true).

(** [protocol/group/urltest.go:275-285] (URLTestGroup).Close *)
Definition URLTestGroup_Close (g : URLTestGroup) : res unit * URLTestGroup :=
  if negb (ticker g) then (Ok tt, g) else
  if closed g then (Panic [AStr "close of closed channel"], g) else
  (Ok tt, g <| closed := true |>).

(** Whether the goroutine begins with a check.

    [protocol/group/urltest.go:332-335] (URLTestGroup).loopCheck (start) *)
Definition loop_begin (time : Z) (g : URLTestGroup) : URLTestGroup * bool :=
  if Z.ltb (interval g) (time - lastActive g) then (g <| lastActive := time |>, true) else (g, false).

(** [protocol/group/urltest.go:342] (URLTestGroup).loopCheck (idle) *)
Definition idle (time : Z) (g : URLTestGroup) : bool :=
  Z.ltb (idleTimeout g) (time - lastActive g).

(** [protocol/group/urltest.go:343-349] (URLTestGroup).loopCheck (stop) *)
Definition loop_stop (g : URLTestGroup) : URLTestGroup := g <| ticker := false |>.

End URLTestGroup.

(** ** The outbound around a group *)

(** [option/group.go:11-18] URLTestOutboundOptions *)
Record URLTestOutboundOptions : Type := mkURLTestOptions {
  uo_Outbounds : list string;
  uo_URL : string;
  uo_Interval : Z;
  uo_Tolerance : Z;
  uo_IdleTimeout : Z;
  uo_InterruptExistConnections : bool
}.

(** [protocol/group/urltest.go:34-48] URLTest *)
Record URLTestOutbound : Type := mkURLTestOutbound {
  u_Tag : string;
  u_tags : list string;
  u_link : string;
  u_interval : Z;
  u_tolerance : Z;
  u_idleTimeout : Z;
  u_group : option URLTestGroup;
  u_interruptExternalConnections : bool
}.
#[global] Instance URLTestOutbound_settable : Settable URLTestOutbound :=
  {| mkT r := mkURLTestOutbound (u_Tag r) (u_tags r) (u_link r) (u_interval r) (u_tolerance r)
       (u_idleTimeout r) (u_group r) (u_interruptExternalConnections r) |}.

(** [protocol/group/urltest.go:50-69] NewURLTest *)
Definition NewURLTest (tag : string) (options : URLTestOutboundOptions) : res URLTestOutbound :=
  let outbound := mkURLTestOutbound tag (uo_Outbounds options) (uo_URL options)
    (uo_Interval options) (uo_Tolerance options) (uo_IdleTimeout options) None
    (uo_InterruptExistConnections options) in
  if Nat.eqb (length (u_tags outbound)) 0 then Err (E_New [AStr "missing tags"]) else Ok outbound.

Section Outbound.
Context {M : Type} `{OutboundLookup M} `{OutboundDial}.
Variable now : Outbound → option string.
(** [N.NetworkName] of sing/common/network. *)
Variable NetworkName : string → string.

(** [protocol/group/urltest.go:72-79] (URLTest).Start (outbounds) *)
Definition lookup_outbounds (m : M) (tags : list string) : res (list Outbound) :=
  mapi_res (λ i tag,
    match lookup_outbound m tag with
    | None => Err (E_New [AStr "outbound "; AInt (Z.of_nat i); AStr " not found: "; AStr tag])
    | Some detour => Ok detour
    end) tags.

(** [protocol/group/urltest.go:71-86] (URLTest).Start *)
Definition URLTest_Start (m : M) (s : URLTestOutbound) : res URLTestOutbound :=
  outbounds ← lookup_outbounds m (u_tags s);
  group ← NewURLTestGroup outbounds (u_link s) (u_interval s) (u_tolerance s) (u_idleTimeout s)
            (u_interruptExternalConnections s);
  Ok (s <| u_group := Some group |>).

(** [protocol/group/urltest.go:88-91] (URLTest).PostStart *)
Definition URLTest_PostStart (time : Z) (s : URLTestOutbound) : res URLTestOutbound :=
  match u_group s with
  | None => Panic nil_dereference
  | Some g => Ok (s <| u_group := Some (PostStart time g) |>)
  end.

(** [protocol/group/urltest.go:93-97] (URLTest).Close *)
Definition URLTest_Close (s : URLTestOutbound) : res unit * URLTestOutbound :=
  match u_group s with
  | None => (Ok tt, s)
  | Some g => let '(r, g) := URLTestGroup_Close g in (r, s <| u_group := Some g |>)
  end.

(** [protocol/group/urltest.go:99-106] (URLTest).Now *)
Definition URLTest_Now (s : URLTestOutbound) : res string :=
  match u_group s with
  | None => Panic nil_dereference
  | Some g =>
      match selectedOutboundTCP g, selectedOutboundUDP g with
      | Some o, _ => Ok (ob_Tag o)
      | None, Some o => Ok (ob_Tag o)
      | None, None => Ok ""%string
      end
  end.

(** [protocol/group/urltest.go:108-110] (URLTest).All *)
Definition URLTest_All (s : URLTestOutbound) : list string := u_tags s.

(** The selected outbound, or else what [Select] finds.

    [protocol/group/urltest.go:131-136] (URLTest).DialContext (select) *)
Definition dial_choice (selected : option Outbound) (network : string) (g : URLTestGroup)
    (h : HistoryStorage) : res Outbound :=
  match match selected with Some o => Some o | None => (Select now network g (Some h)).1 end with
  | None => Err (E_New [AStr "missing supported outbound"])
  | Some o => Ok o
  end.

(** The result of a dial through the group: the connection joins the interrupt group, and on an error
    the history of the outbound is deleted.  [spawned] is whether a check loop was started.

    [protocol/group/urltest.go:137-143] (URLTest).DialContext (dial) *)
Definition dialed (isExternal : bool) (outbound : Outbound) (r : res Z) (g : URLTestGroup)
    (h : HistoryStorage) : res interrupt.Conn * URLTestGroup * HistoryStorage :=
  match r with
  | Ok conn =>
      let '(c, ig) := interrupt.NewConn conn isExternal (g_interruptGroup g) in
      (Ok c, g <| g_interruptGroup := ig |>, h)
  | Err err => (Err err, g, DeleteURLTestHistory (ob_Tag outbound) h)
  | Panic p => (Panic p, g, h)
  end.

(** [protocol/group/urltest.go:120-144] (URLTest).DialContext *)
Definition URLTest_DialContext (isExternal : bool) (network : string) (destination : Socksaddr)
    (time : Z) (s : URLTestOutbound) (h : HistoryStorage)
    : res interrupt.Conn * URLTestOutbound * HistoryStorage * bool :=
  match u_group s with
  | None => (Panic nil_dereference, s, h, false)
  | Some g =>
      let '(g, spawned) := Touch time g in
      let s := s <| u_group := Some g |> in
      match (if String.eqb (NetworkName network) "tcp" then Ok (selectedOutboundTCP g)
             else if String.eqb (NetworkName network) "udp" then Ok (selectedOutboundUDP g)
             else Err (E_Extend (E_Ext "N.ErrUnknownNetwork") [AStr network])) with
      | Ok selected =>
          match dial_choice selected network g h with
          | Ok outbound =>
              let '(r, g, h) :=
                dialed isExternal outbound (dial_context outbound network destination) g h in
              (r, s <| u_group := Some g |>, h, spawned)
          | Err e => (Err e, s, h, spawned)
          | Panic p => (Panic p, s, h, spawned)
          end
      | Err e => (Err e, s, h, spawned)
      | Panic p => (Panic p, s, h, spawned)
      end
  end.

(** [protocol/group/urltest.go:146-162] (URLTest).ListenPacket *)
Definition URLTest_ListenPacket (isExternal : bool) (destination : Socksaddr) (time : Z)
    (s : URLTestOutbound) (h : HistoryStorage)
    : res interrupt.PacketConn * URLTestOutbound * HistoryStorage * bool :=
  match u_group s with
  | None => (Panic nil_dereference, s, h, false)
  | Some g =>
      let '(g, spawned) := Touch time g in
      let s := s <| u_group := Some g |> in
      match dial_choice (selectedOutboundUDP g) "udp" g h with
      | Ok outbound =>
          match listen_packet outbound destination with
          | Ok conn =>
              let '(c, ig) := interrupt.NewPacketConn conn isExternal (g_interruptGroup g) in
              (Ok c, s <| u_group := Some (g <| g_interruptGroup := ig |>) |>, h, spawned)
          | Err err => (Err err, s, DeleteURLTestHistory (ob_Tag outbound) h, spawned)
          | Panic p => (Panic p, s, h, spawned)
          end
      | Err e => (Err e, s, h, spawned)
      | Panic p => (Panic p, s, h, spawned)
      end
  end.

(** [protocol/group/urltest.go:174-187] (URLTest).NewDirectRouteConnection *)
Definition URLTest_NewDirectRouteConnection (metadata : InboundContext) (time : Z)
    (s : URLTestOutbound) (h : HistoryStorage) : res Z * URLTestOutbound * bool :=
  match u_group s with
  | None => (Panic nil_dereference, s, false)
  | Some g =>
      let '(g, spawned) := Touch time g in
      let s := s <| u_group := Some g |> in
      (selected ← dial_choice (selectedOutboundTCP g) "tcp" g h;
       if negb (bool_decide (ic_Network metadata ∈ ob_Network selected))
       then Err (E_New [AStr (ic_Network metadata); AStr " is not supported by outbound: ";
                        AStr (ob_Tag selected)]) else
       if ob_isDirectRoute selected then direct_route selected metadata
       else Panic [AStr "interface conversion"], s, spawned)
  end.

End Outbound.

(** ** Selection *)

Section SelectTheorems.
Variable now : Outbound → option string.
Variable g : URLTestGroup.
Variable s : option HistoryStorage.

Definition delay_of (o : Outbound) : option Z := h_Delay <$> LoadURLTestHistory s (RealTag now o).

(** The delays of the group are positive, and adding the tolerance does not leave the 16 bits. *)
Definition delays_ok : Prop :=
  ∀ o d, o ∈ g_outbounds g → delay_of o = Some d → 0 < d ∧ d + tolerance g < 2 ^ 16.

Definition selected_for (network : string) (g : URLTestGroup) : option Outbound :=
  if String.eqb network "tcp" then selectedOutboundTCP g
  else if String.eqb network "udp" then selectedOutboundUDP g else None.

(** The outbounds of the group that have the network, with a delay. *)
Definition measured (network : string) (o : Outbound) (d : Z) : Prop :=
  o ∈ g_outbounds g ∧ network ∈ ob_Network o ∧ delay_of o = Some d.

(** *** Whatever the delays are *)

(** Some outbound gives way to one with the delay [d']: its own delay is 0, or more than [d'] and the
    tolerance, in 16 bits. *)
Definition gives_way (d' : Z) (among : Outbound → Prop) : Prop :=
  ∃ p dp, among p ∧ delay_of p = Some dp ∧ (dp = 0 ∨ u16 (d' + tolerance g) < dp).

Lemma gives_way_mono d' (P Q : Outbound → Prop) :
  (∀ p, P p → Q p) → gives_way d' P → gives_way d' Q.
Proof. intros HPQ (p & dp & Hp & Hr). exists p, dp. split; [by apply HPQ|done]. Qed.

(** The outbound that is chosen so far has the delay that is kept. *)
Definition chosen_ok (min : Z * option Outbound) : Prop :=
  ∀ o, min.2 = Some o → delay_of o = Some min.1.

Lemma select_step_delay network min o :
  select_step now network (tolerance g) s min o =
    if has_network network o then
      match delay_of o with
      | None => min
      | Some d => if Z.eqb min.1 0 || Z.ltb (u16 (d + tolerance g)) min.1 then (d, Some o) else min
      end
    else min.
Proof.
  unfold select_step, delay_of. destruct (has_network network o); [|done]. cbn [negb].
  by destruct (LoadURLTestHistory s (RealTag now o)).
Qed.

Definition select_from (network : string) (l : list Outbound) (min : Z * option Outbound)
    : Z * option Outbound := fold_left (select_step now network (tolerance g) s) l min.

Lemma select_chosen network l min : chosen_ok min → (min.2 = None → min.1 = 0) →
  let min' := select_from network l min in
  chosen_ok min' ∧
  (∀ o d, o ∈ l → network ∈ ob_Network o → delay_of o = Some d → min'.2 ≠ None) ∧
  (min' = min ∨ ∃ n, min'.2 = Some n ∧ n ∈ l ∧ network ∈ ob_Network n ∧
     (min.2 = None ∨ gives_way min'.1 (λ p, min.2 = Some p ∨ p ∈ l))).
Proof.
  revert min. induction l as [|o l IH]; intros min Hmin Hz; cbv zeta.
  { cbn. split_and!; [done|by intros ?? ?%elem_of_nil|by left]. }
  unfold select_from. cbn [fold_left]. fold (select_from network l (select_step now network (tolerance g) s min o)).
  set (min1 := select_step now network (tolerance g) s min o).
  assert ((min1 = min ∧ (∀ d, network ∈ ob_Network o → delay_of o = Some d → min.2 ≠ None)) ∨
    ∃ d, min1 = (d, Some o) ∧ network ∈ ob_Network o ∧ delay_of o = Some d ∧
      (min.2 = None ∨ gives_way d (λ p, min.2 = Some p))) as Hstep.
  { unfold min1. rewrite select_step_delay. unfold has_network. case_bool_decide as Hn; [|by left].
    destruct (delay_of o) as [d|] eqn:Hd; [|left; split; [done|by intros]].
    destruct (Z.eqb min.1 0 || Z.ltb (u16 (d + tolerance g)) min.1) eqn:Hc.
    - right. exists d. split_and!; [done..|]. destruct (min.2) as [p|] eqn:Hp; [right|by left].
      exists p, min.1. split; [done|]. split; [by apply Hmin|]. lia.
    - left. split; [done|]. intros _ _ _ Hnone. rewrite (Hz Hnone) in Hc. done. }
  assert (chosen_ok min1 ∧ (min1.2 = None → min1.1 = 0)) as [H1 Hz1].
  { destruct Hstep as [[-> _]|(d & -> & _ & Hd & _)]; [done|]. split; [|done]. by intros ? [= <-]. }
  destruct (IH min1 H1 Hz1) as (Hok & Hall & Hch). split; [done|].
  destruct Hstep as [[E Ho]|(d & E & Hn & Hd & Hgw)]; rewrite E in *; cbn [fst snd] in *; split.
  - intros o' d' [->|Hin]%elem_of_cons Hn' Hd'; [|by eapply Hall].
    specialize (Ho d' Hn' Hd'). destruct Hch as [->|(n & -> & _)]; done.
  - destruct Hch as [->|(n & Hn1 & Hin & Hnet & Hg)]; [by left|right]. exists n.
    split_and!; [done|by right|done|]. destruct Hg as [?|Hg]; [by left|right].
    eapply gives_way_mono; [|exact Hg]. intros p [?|?]; [by left|right; by right].
  - intros o' d' [->|Hin]%elem_of_cons Hn' Hd'; [|by eapply Hall].
    destruct Hch as [->|(n & -> & _)]; done.
  - right. destruct Hch as [->|(n & Hn1 & Hin & Hnet & [Hg|Hg])]; [|done|].
    + exists o. split_and!; [done|left|done|]. destruct Hgw as [?|Hgw]; [by left|right].
      eapply gives_way_mono; [|exact Hgw]. by left.
    + exists n. split_and!; [done|by right|done|]. right.
      eapply gives_way_mono; [|exact Hg]. intros p [[= ->]|?]; right; [left|by right].
Qed.

Lemma select_init_ok network :
  chosen_ok (select_init now network g s) ∧
  ((select_init now network g s).2 = None → (select_init now network g s).1 = 0) ∧
  (select_init now network g s).2 =
    (o ← selected_for network g; if decide (is_Some (delay_of o)) then Some o else None).
Proof.
  unfold select_init, selected_for, chosen_ok, delay_of.
  set (sel := if String.eqb network "tcp" then _ else _). destruct sel as [o|]; [|done]. cbn [mbind option_bind].
  destruct (LoadURLTestHistory s (RealTag now o)) as [h|] eqn:E; cbn [fst snd].
  - split_and!; [by intros ? [= <-]; rewrite E|done|by rewrite decide_True by (by eexists)].
  - split_and!; [done..|]. rewrite decide_False; [done|]. by intros [? ?].
Qed.

(** What [Select] answers: an outbound with a delay, if there is one, that the selected one, if it has
    a delay, gives way to; else the first that has the network. *)
Lemma Select_chosen network :
  match Select now network g s with
  | (Some o, true) =>
      ∃ d, delay_of o = Some d ∧ (selected_for network g = Some o ∨ measured network o d) ∧
        (∀ old, selected_for network g = Some old → o = old ∨ delay_of old = None ∨
           gives_way d (λ p, p = old ∨ p ∈ g_outbounds g))
  | (r, _) =>
      r = List.find (has_network network) (g_outbounds g) ∧
      (∀ old, selected_for network g = Some old → delay_of old = None) ∧
      (∀ o' d', ¬ measured network o' d')
  end.
Proof.
  destruct (select_init_ok network) as (Hi & Hz & Hi2).
  pose proof (select_chosen network (g_outbounds g) _ Hi Hz) as (Hok & Hall & Hch). unfold Select.
  fold (select_from network (g_outbounds g) (select_init now network g s)).
  destruct (select_from _ _ _) as [d [o|]]; cbn [fst snd] in *.
  - exists d. split; [by apply Hok|]. split.
    + destruct Hch as [Heq|(o' & [= ->] & Hin & Hn & _)]; [left|right; split_and!; try done; by apply Hok].
      rewrite <-Heq in Hi2. cbn in Hi2. destruct (selected_for network g) as [o'|]; cbn in Hi2; [|done].
      case_decide; congruence.
    + intros old Hold. rewrite Hold in Hi2. cbn in Hi2. case_decide as Hs; cycle 1.
      { right. left. destruct (delay_of old); [|done]. destruct Hs. by eexists. }
      destruct Hch as [Heq|(o' & [= ->] & _ & _ & [Hn|Hg])].
      * left. rewrite <-Heq in Hi2. cbn in Hi2. congruence.
      * congruence.
      * right. right. eapply gives_way_mono; [|exact Hg]. intros p [Hp|?]; [left; congruence|by right].
  - assert (∀ o' d', ¬ measured network o' d') as Hnone
      by (intros o' d' (Hin & Hn & Hd'); by destruct (Hall o' d' Hin Hn Hd')).
    assert (∀ old, selected_for network g = Some old → delay_of old = None) as Hold.
    { intros old Hsel. rewrite Hsel in Hi2. cbn in Hi2. case_decide as Hs.
      - destruct Hch as [Heq|(o' & Ho' & _)]; [rewrite <-Heq in Hi2; done|done].
      - destruct (delay_of old); [|done]. destruct Hs. by eexists. }
    by destruct (List.find _ _).
Qed.

(** *** Delays that are positive and do not wrap *)

Hypothesis Hdelays : delays_ok.
Hypothesis Htol : 0 <= tolerance g.

Lemma delay_of_ok o d : o ∈ g_outbounds g → delay_of o = Some d →
  0 < d ∧ u16 (d + tolerance g) = d + tolerance g.
Proof.
  intros Ho Hd. destruct (Hdelays _ _ Ho Hd). split; [done|]. apply wrap_id. unfold is_u. lia.
Qed.

Lemma select_step_eq network min o : o ∈ g_outbounds g →
  select_step now network (tolerance g) s min o =
    if has_network network o then
      match delay_of o with
      | None => min
      | Some d => if Z.eqb min.1 0 || Z.ltb (d + tolerance g) min.1 then (d, Some o) else min
      end
    else min.
Proof.
  intros Ho. rewrite select_step_delay. destruct (has_network network o); [|done].
  destruct (delay_of o) as [d|] eqn:Hd; [|done]. by rewrite (proj2 (delay_of_ok o d Ho Hd)).
Qed.

(** The least delay so far, and its outbound. *)
Definition min_ok (min : Z * option Outbound) : Prop :=
  match min.2 with None => min.1 = 0 | Some o => o ∈ g_outbounds g ∧ delay_of o = Some min.1 end.

(** From a least delay to the next over some outbounds: it is within the tolerance of all of them,
    and is another only when that one is faster by more than the tolerance. *)
Definition min_step (network : string) (l : list Outbound) (min min' : Z * option Outbound) : Prop :=
  min_ok min' ∧
  (∀ o d, o ∈ l → network ∈ ob_Network o → delay_of o = Some d →
     min'.2 ≠ None ∧ min'.1 <= d + tolerance g) ∧
  (min' = min ∨ ∃ o, min'.2 = Some o ∧ o ∈ l ∧ network ∈ ob_Network o ∧
     (min.2 = None ∨ min'.1 + tolerance g < min.1)).

Lemma min_ok_pos min o : min_ok min → min.2 = Some o → 0 < min.1.
Proof. unfold min_ok. intros Hm Ho. rewrite Ho in Hm.
  by destruct (delay_of_ok o min.1 (proj1 Hm) (proj2 Hm)). Qed.

Lemma min_ok_zero min : min_ok min → min.1 = 0 → min.2 = None.
Proof. intros Hm Hz. destruct (min.2) as [o|] eqn:E; [|done]. pose proof (min_ok_pos _ _ Hm E). lia. Qed.

Lemma select_one network min o : o ∈ g_outbounds g → min_ok min →
  min_step network [o] min (select_step now network (tolerance g) s min o).
Proof.
  intros Hin Hmin. rewrite select_step_eq by done. unfold has_network, min_step.
  case_bool_decide as Hnet; cycle 1.
  { split_and!; [done| |by left]. by intros o' d ->%list_elem_of_singleton. }
  destruct (delay_of o) as [d|] eqn:Hd; cycle 1.
  { split_and!; [done| |by left]. intros o' d ->%list_elem_of_singleton. congruence. }
  destruct (delay_of_ok o d Hin Hd) as [Hpos _].
  destruct (Z.eqb_spec min.1 0) as [Hz|Hz]; [|destruct (Z.ltb_spec (d + tolerance g) min.1)];
    cbn [orb]; split_and!; try done.
  1,3: intros o' d' ->%list_elem_of_singleton _ Hd'; simplify_eq; split; [done|cbn; lia].
  - right. exists o. split_and!; [done|left|done|]. left. exact (min_ok_zero min Hmin Hz).
  - right. exists o. split_and!; [done|left|done|]. by right.
  - intros o' d' ->%list_elem_of_singleton _ Hd'. simplify_eq. split; [|lia].
    unfold min_ok in Hmin. by destruct (min.2).
  - by left.
Qed.

Lemma min_step_cons network o l min min1 min2 : min_ok min →
  min_step network [o] min min1 → min_step network l min1 min2 → min_step network (o :: l) min min2.
Proof.
  intros Hm (H1 & Ha1 & Hc1) (H2 & Ha2 & Hc2). split_and!; [done| |].
  - intros o' d [->|Hin]%elem_of_cons Hn Hd; [|exact (Ha2 _ _ Hin Hn Hd)].
    destruct (Ha1 o d ltac:(left) Hn Hd) as [Hne Hle].
    destruct Hc2 as [->|(o2 & Ho2 & _ & _ & [|Hlt])]; [done|done|]. rewrite Ho2. split; [done|lia].
  - destruct Hc2 as [->|(o2 & Ho2 & Hin2 & Hn2 & Hlt2)].
    + destruct Hc1 as [->|(o1 & Ho1 & Hin1 & Hn1 & Hlt1)]; [by left|]. right. exists o1. set_solver.
    + right. exists o2. split_and!; [done|by right|done|].
      destruct Hc1 as [->|(o1 & Ho1 & _ & _ & [|Hlt1])]; [done|by left|].
      right. destruct Hlt2 as [|]; [congruence|lia].
Qed.

Lemma select_fold network l min : (∀ o, o ∈ l → o ∈ g_outbounds g) → min_ok min →
  min_step network l min (select_from network l min).
Proof.
  revert min. induction l as [|o l IH]; intros min Hl Hmin.
  { split_and!; [done|by intros ?? ?%elem_of_nil|by left]. }
  pose proof (select_one network min o (Hl o ltac:(left)) Hmin) as H1. unfold select_from. cbn [fold_left].
  eapply min_step_cons; [done|exact H1|]. apply IH; [|apply H1]. intros o' Ho'. apply Hl. by right.
Qed.

(** The outbound that is chosen is within the tolerance of every other, and goes only for one that is
    faster by more than the tolerance. *)
Lemma Select_best network o :
  (∀ old, selected_for network g = Some old → old ∈ g_outbounds g) →
  Select now network g s = (Some o, true) →
  ∃ d, delay_of o = Some d ∧ (∀ o' d', measured network o' d' → d <= d' + tolerance g) ∧
    (∀ old dold, selected_for network g = Some old → delay_of old = Some dold →
       o = old ∨ d + tolerance g < dold).
Proof.
  intros Hsel. destruct (select_init_ok network) as (Hi & Hz & Hi2).
  assert (min_ok (select_init now network g s)) as Hi'.
  { unfold min_ok. destruct ((select_init now network g s).2) as [old|] eqn:E; [|by apply Hz].
    split; [|by apply Hi]. destruct (selected_for network g) as [old'|]; cbn in Hi2; [|done].
    case_decide; [|done]. injection Hi2 as ->. by apply Hsel. }
  pose proof (select_fold network (g_outbounds g) _ (λ o H, H) Hi') as (Hok & Hall & Hch). unfold Select.
  fold (select_from network (g_outbounds g) (select_init now network g s)).
  destruct (select_from _ _ _) as [d [o1|]]; [|by destruct (List.find _ _)]. cbn [fst snd] in *.
  intros [= ->]. exists d. split; [apply Hok|]. split.
  - intros o' d' (Hin & Hn & Hd'). by apply (Hall o' d').
  - intros old dold Hold Hdold. rewrite Hold in Hi2. cbn in Hi2.
    rewrite decide_True in Hi2 by (by eexists).
    destruct Hch as [Heq|(o' & [= ->] & _ & _ & [Hn|Hlt])]; [left|congruence|right].
    + rewrite <-Heq in Hi2. cbn in Hi2. congruence.
    + rewrite (Hi _ Hi2) in Hdold. by injection Hdold as <-.
Qed.

End SelectTheorems.

(** ** Updating the selection *)

Section UpdateTheorems.
Variable now : Outbound → option string.

(** What is selected is an outbound of the group that has the network. *)
Definition selection_ok (g : URLTestGroup) : Prop :=
  ∀ network o, network = "tcp"%string ∨ network = "udp"%string → selected_for network g = Some o →
    o ∈ g_outbounds g ∧ network ∈ ob_Network o.

(** Two outbounds of the group are the same when they are the same object. *)
Definition identities (g : URLTestGroup) : Prop :=
  ∀ o o', o ∈ g_outbounds g → o' ∈ g_outbounds g → ob_id o = ob_id o' → o = o'.

(** What the check makes of the selection for a network, whatever the delays are: [old] before and
    [new] after it. *)
Definition updated_for (g : URLTestGroup) (s : option HistoryStorage) (network : string)
    (old new : option Outbound) : Prop :=
  (∀ o, new = Some o → o ∈ g_outbounds g ∧ network ∈ ob_Network o) ∧
  (∀ o, o ∈ g_outbounds g → network ∈ ob_Network o → new ≠ None) ∧
  (∀ o d, measured now g s network o d → ∃ n, new = Some n ∧ is_Some (delay_of now s n)) ∧
  (∀ o, old = Some o → new = Some o ∨ ∃ n d', new = Some n ∧ delay_of now s n = Some d' ∧
     (delay_of now s o = None ∨ gives_way now g s d' (λ p, p = o ∨ p ∈ g_outbounds g))).

(** What it makes of it when the delays are positive and do not wrap. *)
Definition best_for (g : URLTestGroup) (s : option HistoryStorage) (network : string)
    (old new : option Outbound) : Prop :=
  (∀ o d, measured now g s network o d → ∃ n d', new = Some n ∧ delay_of now s n = Some d' ∧
     d' <= d + tolerance g) ∧
  (∀ o, old = Some o → new = Some o ∨ ∃ n d', new = Some n ∧ delay_of now s n = Some d' ∧
     ∀ d, delay_of now s o = Some d → d' + tolerance g < d).

(** The step of the check for one network. *)
Definition update_one (network : string) (g : URLTestGroup) (s : option HistoryStorage)
    : option Outbound :=
  match Select now network g s with
  | (Some outbound, exists_) =>
      if replaces (selected_for network g) outbound exists_ then Some outbound
      else selected_for network g
  | (None, _) => selected_for network g
  end.

Lemma List_find_network network l :
  match List.find (has_network network) l with
  | Some o => o ∈ l ∧ network ∈ ob_Network o
  | None => ∀ o, o ∈ l → network ∉ ob_Network o
  end.
Proof.
  destruct (List.find _ _) as [o|] eqn:E.
  - apply List.find_some in E as [Hin Hn]. split; [by apply list_elem_of_In|].
    by apply bool_decide_eq_true in Hn.
  - intros o Hin Hn. apply list_elem_of_In in Hin. apply (List.find_none _ _ E) in Hin.
    by apply bool_decide_eq_false in Hin.
Qed.

(** What was chosen takes the place: two outbounds that are the same object are the same. *)
Lemma replaces_chosen network g o : selection_ok g → identities g →
  network = "tcp"%string ∨ network = "udp"%string → o ∈ g_outbounds g →
  (if replaces (selected_for network g) o true then Some o else selected_for network g) = Some o.
Proof.
  intros Hsel Hid Hnet Ho. pose proof (λ o, Hsel network o Hnet) as Hsn.
  unfold replaces. destruct (selected_for network g) as [old|] eqn:E; [|done]. cbn.
  unfold same_object. destruct (Z.eqb_spec (ob_id o) (ob_id old)) as [He|]; [|done]. cbn.
  f_equal. symmetry. apply Hid; [done|by apply Hsn|done].
Qed.

Lemma update_one_ok network g s : network = "tcp"%string ∨ network = "udp"%string →
  selection_ok g → identities g →
  updated_for g s network (selected_for network g) (update_one network g s).
Proof.
  intros Hnet Hsel Hid. pose proof (Select_chosen now g s network) as Hs. unfold update_one.
  pose proof (λ o, Hsel network o Hnet) as Hsn.
  destruct (Select now network g s) as [[o|] b]; [destruct b|].
  - destruct Hs as (d & Hdo & Hin & Hold).
    assert (o ∈ g_outbounds g ∧ network ∈ ob_Network o) as Ho
      by (destruct Hin as [?|(? & ? & _)]; [by apply Hsn|done]).
    rewrite replaces_chosen by (done || apply Ho).
    split_and!; [by intros ? [= <-]|done|intros; by exists o|].
    intros old Hold'. destruct (decide (o = old)) as [->|Hne]; [by left|]. right. exists o, d.
    split_and!; [done|done|]. destruct (Hold old Hold') as [|[?|?]]; [done|by left|by right].
  - destruct Hs as (Hf & Hnone & Hm). pose proof (List_find_network network (g_outbounds g)) as Hfind.
    rewrite <-Hf in Hfind. unfold replaces.
    destruct (selected_for network g) as [old|] eqn:E; cbn.
    + split_and!; [intros ? [= <-]; by apply Hsn|done|intros ?? []%Hm|by intros ? [= <-]; left].
    + split_and!; [by intros ? [= <-]|done|intros ?? []%Hm|done].
  - destruct Hs as (Hf & Hnone & Hm). pose proof (List_find_network network (g_outbounds g)) as Hfind.
    rewrite <-Hf in Hfind. split_and!; [apply Hsn|intros o ?? Hn; by destruct (Hfind o)|
      intros ?? []%Hm|by left].
Qed.

Lemma update_one_best network g s : network = "tcp"%string ∨ network = "udp"%string →
  delays_ok now g s → 0 <= tolerance g → selection_ok g → identities g →
  best_for g s network (selected_for network g) (update_one network g s).
Proof.
  intros Hnet Hd Ht Hsel Hid. destruct (update_one_ok network g s Hnet Hsel Hid) as (Hin & _ & Hmeas & Hch).
  pose proof (Select_chosen now g s network) as Hs.
  pose proof (λ o, Select_best now g s Hd Ht network o (λ old Ho, proj1 (Hsel network old Hnet Ho))) as Hb.
  unfold update_one in *. destruct (Select now network g s) as [[o|] b]; [destruct b|].
  - destruct Hs as (d0 & _ & Hoin & _). destruct (Hb o eq_refl) as (d & Hdo & Hall & Hold).
    assert (o ∈ g_outbounds g) as Ho
      by (destruct Hoin as [?|[? _]]; [by apply (Hsel network o Hnet)|done]).
    rewrite replaces_chosen by done. split.
    + intros o' d' Hm. exists o, d. split_and!; [done|done|by apply (Hall o')].
    + intros old Hold'. destruct (decide (o = old)) as [->|Hne]; [by left|]. right. exists o, d.
      split_and!; [done|done|]. intros dold Hdold. by destruct (Hold old dold Hold' Hdold).
  - destruct Hs as (_ & _ & Hm). split; [intros ?? []%Hm|]. intros old Hold. rewrite Hold. by left.
  - destruct Hs as (_ & _ & Hm). split; [intros ?? []%Hm|]. intros old Hold. rewrite Hold. by left.
Qed.

Lemma Select_frame network g g' s :
  g_outbounds g' = g_outbounds g → tolerance g' = tolerance g →
  selected_for network g' = selected_for network g →
  Select now network g' s = Select now network g s.
Proof.
  unfold Select, selected_for. intros -> -> Hs. unfold select_init. by rewrite Hs.
Qed.

(** Whether the check changes a selection that was there. *)
Definition changed_for (network : string) (g : URLTestGroup) (s : option HistoryStorage) : bool :=
  negb (is_nil (selected_for network g)) &&
  bool_decide (update_one network g s ≠ selected_for network g).

Lemma update_step {A} network g s (k : bool → option Outbound → A) (f : Outbound → A) (b : A) :
  (∀ o, f o = k (negb (is_nil (selected_for network g))) (Some o)) →
  b = k false (selected_for network g) →
  match Select now network g s with
  | (Some outbound, exists_) =>
      if replaces (selected_for network g) outbound exists_ then f outbound else b
  | (None, _) => b
  end = k (changed_for network g s) (update_one network g s).
Proof.
  intros Hf ->. unfold changed_for, update_one.
  destruct (Select now network g s) as [[o|] e];
    [|by rewrite bool_decide_eq_false_2, andb_false_r by tauto].
  destruct (replaces (selected_for network g) o e) eqn:Hr;
    [|by rewrite bool_decide_eq_false_2, andb_false_r by tauto].
  rewrite Hf. f_equal. destruct (selected_for network g) as [old|]; [|done]. cbn in *.
  rewrite bool_decide_eq_true_2; [done|]. intros [= ->].
  apply andb_true_iff in Hr as [_ Hr]. unfold same_object in Hr. by rewrite Z.eqb_refl in Hr.
Qed.

Lemma performUpdateCheck_eq g s :
  performUpdateCheck now g s =
    let g' := g <| selectedOutboundTCP := update_one "tcp" g s |>
                <| selectedOutboundUDP := update_one "udp" g s |> in
    if changed_for "tcp" g s || changed_for "udp" g s then
      let '(closed, ig) :=
        interrupt.Interrupt (g_interruptExternalConnections g) (g_interruptGroup g) in
      (closed, g' <| g_interruptGroup := ig |>)
    else ([], g').
Proof.
  unfold performUpdateCheck.
  pose proof (update_step "tcp" g s (λ u o, (u, g <| selectedOutboundTCP := o |>))
    (λ o, (negb (is_nil (selectedOutboundTCP g)), g <| selectedOutboundTCP := Some o |>))
    (false, g)) as Ht.
  change (selected_for "tcp" g) with (selectedOutboundTCP g) in Ht.
  rewrite Ht by (done || by destruct g). clear Ht. cbv beta iota zeta.
  set (g1 := g <| selectedOutboundTCP := _ |>). set (u := changed_for "tcp" g s).
  rewrite (Select_frame "udp" g g1 s) by done.
  pose proof (update_step "udp" g s (λ b o, (u || b, g1 <| selectedOutboundUDP := o |>))
    (λ o, (u || negb (is_nil (selectedOutboundUDP g)), g1 <| selectedOutboundUDP := Some o |>))
    (u, g1)) as Hu.
  change (selected_for "udp" g) with (selectedOutboundUDP g) in Hu.
  change (selectedOutboundUDP g1) with (selectedOutboundUDP g).
  rewrite Hu by (rewrite ?orb_false_r; done || by subst g1; destruct g). done.
Qed.

(** C11: a check leaves, for each network, an outbound of the group that has it, if there is one, and
    one with a delay when any outbound with the network has one.  It changes a selection only when
    the old one has no delay any more, or an outbound of the group gives way to the new one: its
    delay is 0, or more than the new one's delay and the tolerance in the 16 bits the code adds them
    in.  When no delay of the group is 0 and no delay plus the tolerance reaches 65536 this means
    that the delay of the new one is within the tolerance of the least, and that the old one was
    slower than it by more than the tolerance; otherwise neither holds ([zero_delay],
    [tolerance_wraps]).  The connections that go through the group are interrupted when, and only
    when, a selection that was there changes. *)
Theorem performUpdateCheck_spec g s :
  0 <= tolerance g → selection_ok g → identities g →
  let '(closed, g') := performUpdateCheck now g s in
  selection_ok g' ∧
  (∀ network, network = "tcp"%string ∨ network = "udp"%string →
     updated_for g s network (selected_for network g) (selected_for network g') ∧
     (delays_ok now g s → best_for g s network (selected_for network g) (selected_for network g'))) ∧
  ((∀ network old, selected_for network g = Some old → selected_for network g' = Some old) →
   closed = [] ∧ g_interruptGroup g' = g_interruptGroup g) ∧
  (∀ network old, selected_for network g = Some old → selected_for network g' ≠ Some old →
     (closed, g_interruptGroup g')
     = interrupt.Interrupt (g_interruptExternalConnections g) (g_interruptGroup g)).
Proof.
  intros Ht Hsel Hid. rewrite performUpdateCheck_eq. cbv zeta.
  set (g1 := g <| selectedOutboundTCP := _ |> <| selectedOutboundUDP := _ |>).
  assert (∀ network ig, selected_for network (g1 <| g_interruptGroup := ig |>) = selected_for network g1)
    as Hig by (intros network ig; unfold selected_for; by repeat case_match).
  assert (∀ network, network = "tcp"%string ∨ network = "udp"%string →
    updated_for g s network (selected_for network g) (selected_for network g1) ∧
    (delays_ok now g s → best_for g s network (selected_for network g) (selected_for network g1))) as Hu.
  { intros network Hn. pose proof (update_one_ok network g s Hn Hsel Hid) as Hu.
    pose proof (λ Hd, update_one_best network g s Hn Hd Ht Hsel Hid) as Hb.
    destruct Hn as [->| ->]; (split; [exact Hu|exact Hb]). }
  assert (selection_ok g1) as Hs1 by (intros network o Hn Ho; by apply (proj1 (Hu network Hn))).
  assert (∀ network old, selected_for network g = Some old → selected_for network g1 ≠ Some old →
    changed_for "tcp" g s || changed_for "udp" g s = true) as Hch.
  { intros network old Ho Hne. apply orb_true_iff. unfold selected_for in Ho, Hne.
    destruct (String.eqb_spec network "tcp") as [->|]; [left|];
      [|destruct (String.eqb_spec network "udp") as [->|]; [right|done]];
      unfold changed_for; cbn in *; rewrite Ho; cbn; by apply bool_decide_eq_true_2. }
  destruct (changed_for "tcp" g s || changed_for "udp" g s) eqn:Hc.
  - destruct (interrupt.Interrupt _ _) as [closed ig] eqn:Hi. split_and!.
    + intros network o Hn. rewrite Hig. by apply Hs1.
    + intros network Hn. rewrite Hig. by apply Hu.
    + intros Hsame. exfalso. apply orb_true_iff in Hc as [Hc|Hc];
        apply andb_true_iff in Hc as [Hn Hb%bool_decide_eq_true];
        [specialize (Hsame "tcp"%string)|specialize (Hsame "udp"%string)]; rewrite Hig in Hsame; cbn in *;
        [destruct (selectedOutboundTCP g) as [o|]|destruct (selectedOutboundUDP g) as [o|]];
        try done; by specialize (Hsame o eq_refl).
    + done.
  - split_and!; [done|done|done|]. intros network old Ho Hne. by specialize (Hch network old Ho Hne).
Qed.

End UpdateTheorems.

(** ** Running the tests *)

Section TestTheorems.
Variable now : Outbound → option string.
Variable find_outbound : string → option Outbound.
Variable answer : Job → option Z * Z.

(** The history of a tag is younger than the interval. *)
Definition fresh (interval time : Z) (s : HistoryStorage) (realTag : string) : bool :=
  match LoadURLTestHistory (Some s) realTag with
  | Some history => Z.ltb (time - h_Time history) interval
  | None => false
  end.

Lemma collect_jobs_spec force interval time s outbounds checked :
  let jobs := collect_jobs now find_outbound force interval time s outbounds checked in
  NoDup (j_realTag <$> jobs) ∧
  (∀ j, j ∈ jobs → j_realTag j ∉ checked ∧ find_outbound (j_realTag j) = Some (j_outbound j) ∧
     (negb force && fresh interval time s (j_realTag j)) = false ∧
     ∃ o, o ∈ outbounds ∧ j_tag j = ob_Tag o ∧ j_realTag j = RealTag now o) ∧
  (∀ o p, o ∈ outbounds → RealTag now o ∉ checked → find_outbound (RealTag now o) = Some p →
     (negb force && fresh interval time s (RealTag now o)) = false →
     ∃ j, j ∈ jobs ∧ j_realTag j = RealTag now o).
Proof.
  cbv zeta. revert checked. induction outbounds as [|o l IH]; intros checked; cbn [collect_jobs].
  { split_and!; [constructor|by intros j ?%elem_of_nil|by intros o p ?%elem_of_nil]. }
  fold (fresh interval time s (RealTag now o)). case_bool_decide as Hc.
  { destruct (IH checked) as (H1 & H2 & H3). split_and!; [done| |].
    - intros j (? & ? & ? & o' & ? & ?)%H2. split_and!; [done..|]. exists o'. set_solver.
    - intros o' p [->|Hin]%elem_of_cons; [done|]. by apply H3. }
  destruct (negb force && fresh interval time s (RealTag now o)) eqn:Hf.
  { destruct (IH checked) as (H1 & H2 & H3). split_and!; [done| |].
    - intros j (? & ? & ? & o' & ? & ?)%H2. split_and!; [done..|]. exists o'. set_solver.
    - intros o' p [->|Hin]%elem_of_cons; [congruence|]. by apply H3. }
  destruct (IH ({[RealTag now o]} ∪ checked)) as (H1 & H2 & H3).
  assert (∀ o' p, o' ∈ l → RealTag now o' ≠ RealTag now o → RealTag now o' ∉ checked →
    find_outbound (RealTag now o') = Some p →
    (negb force && fresh interval time s (RealTag now o')) = false → ∃ j, _) as H3'
    by (intros o' p Hin Hne Hnc; apply (H3 o' p Hin); set_solver).
  destruct (find_outbound (RealTag now o)) as [p|] eqn:Hp.
  - cbn. split_and!.
    + constructor; [|done]. intros (j & He & Hj%H2)%list_elem_of_fmap. set_solver.
    + intros j [->|Hj]%elem_of_cons; cbn.
      * split_and!; [done..|]. exists o. split_and!; [left|done..].
      * apply H2 in Hj as (? & ? & ? & o' & ? & ?). split_and!; [set_solver|done..|].
        exists o'. set_solver.
    + intros o' p' Hin Hnc Hp' Hf'. destruct (decide (RealTag now o' = RealTag now o)) as [He|Hne].
      * exists (mkJob (ob_Tag o) (RealTag now o) p). split; [left|]. by rewrite He.
      * apply elem_of_cons in Hin as [->|Hin]; [done|].
        destruct (H3' o' p' Hin Hne Hnc Hp' Hf') as (j & ? & ?). exists j. split; [by right|done].
  - split_and!; [done| |].
    + intros j (? & ? & ? & o' & ? & ?)%H2. split_and!; [set_solver|done..|]. exists o'. set_solver.
    + intros o' p' Hin Hnc Hp' Hf'. destruct (decide (RealTag now o' = RealTag now o)) as [He|Hne];
        [congruence|]. apply elem_of_cons in Hin as [->|Hin]; [done|]. by apply (H3' o' p').
Qed.

(** Two tests that report under different tags can end in either order. *)
Lemma finish_job_comm j1 j2 s :
  j_realTag j1 ≠ j_realTag j2 → j_tag j1 ≠ j_tag j2 →
  finish_job answer j1 (finish_job answer j2 s) = finish_job answer j2 (finish_job answer j1 s).
Proof.
  intros Hr Ht. destruct s as [[h hook] r]. unfold finish_job.
  destruct (answer j1) as [[d1|] t1], (answer j2) as [[d2|] t2]; cbn;
    unfold StoreURLTestHistory, DeleteURLTestHistory, notifyUpdated; destruct hook as [n|]; cbn;
    (apply (f_equal2 pair); [apply (f_equal2 mkHistoryStorage)|]);
    first [by apply insert_insert_ne|by apply delete_delete|by apply delete_insert_ne
          |by rewrite delete_insert_ne|done].
Qed.

Lemma finish_jobs_perm jobs jobs' s :
  NoDup (j_realTag <$> jobs) → NoDup (j_tag <$> jobs) → jobs ≡ₚ jobs' →
  fold_left (λ s job, finish_job answer job s) jobs s
  = fold_left (λ s job, finish_job answer job s) jobs' s.
Proof.
  intros Hr Ht Hp. revert s. induction Hp as [|j l l' Hp IH|j1 j2 l|l l' l'' Hp1 IH1 Hp2 IH2]; intros s.
  - done.
  - cbn. apply NoDup_cons in Hr as [_ Hr], Ht as [_ Ht]. by apply IH.
  - cbn. f_equal. apply NoDup_cons in Hr as [Hr _], Ht as [Ht _].
    apply finish_job_comm; set_solver.
  - rewrite IH1 by done. apply IH2; by rewrite <-Hp1.
Qed.

(** The history of a tag after the tests. *)
Lemma finish_jobs_history jobs s r rt :
  NoDup (j_realTag <$> jobs) →
  let s' := (fold_left (λ s job, finish_job answer job s) jobs (s, r)).1 in
  (∀ j, j ∈ jobs → j_realTag j = rt → LoadURLTestHistory (Some s') rt =
     match answer j with (Some t, time) => Some (mkHistory time t) | (None, _) => None end) ∧
  (rt ∉ (j_realTag <$> jobs) → LoadURLTestHistory (Some s') rt = LoadURLTestHistory (Some s) rt).
Proof.
  cbv zeta. revert s r. induction jobs as [|j jobs IH]; intros s r.
  { split; [by intros j ?%elem_of_nil|done]. }
  intros [Hj Hd]%NoDup_cons. cbn [fold_left].
  destruct (finish_job answer j (s, r)) as [s1 r1] eqn:E.
  assert (LoadURLTestHistory (Some s1) rt = if decide (rt = j_realTag j) then
    match answer j with (Some t, time) => Some (mkHistory time t) | (None, _) => None end
    else LoadURLTestHistory (Some s) rt) as H1.
  { unfold finish_job in E. destruct (answer j) as [[t|] time]; injection E as <- <-;
      unfold StoreURLTestHistory, DeleteURLTestHistory, notifyUpdated; destruct s as [h [n|]]; cbn;
      case_decide as He; subst; by rewrite ?lookup_insert_eq, ?lookup_insert_ne, ?lookup_delete_eq,
        ?lookup_delete_ne by done. }
  destruct (IH s1 r1 Hd) as [Ha Hb]. split.
  - intros j' [->|Hin]%elem_of_cons Hrt; [|by apply Ha]. rewrite Hb by (by rewrite <-Hrt).
    by rewrite H1, decide_True.
  - rewrite fmap_cons. intros [Hne Hn]%not_elem_of_cons. by rewrite Hb, H1, decide_False.
Qed.

(** C27: the tests of a check run at the same time, but it does not matter in which order they end:
    results, history and selection are the same. *)
Theorem urlTest_order schedule schedule' force time g s :
  (∀ l, schedule l ≡ₚ l) → (∀ l, schedule' l ≡ₚ l) →
  (∀ o o', o ∈ g_outbounds g → o' ∈ g_outbounds g → ob_Tag o = ob_Tag o' → o = o') →
  urlTest now find_outbound answer schedule force time g s
  = urlTest now find_outbound answer schedule' force time g s.
Proof.
  intros Hs Hs' Htags. unfold urlTest. destruct (checking g); [done|].
  destruct (collect_jobs_spec force (interval g) time s (g_outbounds g) ∅) as (Hd & Hj & _).
  set (jobs := collect_jobs _ _ _ _ _ _ _ _) in *.
  assert (NoDup (j_tag <$> jobs)) as Hd2.
  { apply NoDup_fmap_2_strong with (f := j_tag); [|by apply NoDup_fmap_1 in Hd].
    intros j1 j2 Hj1 Hj2 He.
    destruct (Hj _ Hj1) as (_ & _ & _ & o1 & Ho1 & Ht1 & Hr1).
    destruct (Hj _ Hj2) as (_ & _ & _ & o2 & Ho2 & Ht2 & Hr2).
    assert (o1 = o2) as <- by (apply Htags; congruence).
    apply list_elem_of_lookup in Hj1 as [i1 Hi1]. apply list_elem_of_lookup in Hj2 as [i2 Hi2].
    assert (i1 = i2) as ->; [|congruence].
    apply (NoDup_lookup _ i1 i2 (j_realTag j1) Hd); rewrite list_lookup_fmap;
      [by rewrite Hi1|rewrite Hi2; cbn; congruence]. }
  rewrite (finish_jobs_perm (schedule jobs) (schedule' jobs)); [done|..];
    by rewrite ?Hs, ?Hs'.
Qed.

(** After a check that was not refused, the history of every outbound that the manager knows is
    the one it had, when that is younger than the interval and the check is not forced, and else the
    answer of its test: the delay, or nothing after an error.  The histories of other tags stay. *)
Theorem urlTest_histories schedule force time g s :
  (∀ l, schedule l ≡ₚ l) → checking g = false →
  let '(_, _, _, s') := urlTest now find_outbound answer schedule force time g s in
  (∀ o p, o ∈ g_outbounds g → find_outbound (RealTag now o) = Some p →
     if negb force && fresh (interval g) time s (RealTag now o)
     then LoadURLTestHistory (Some s') (RealTag now o) = LoadURLTestHistory (Some s) (RealTag now o)
     else ∃ j, j_realTag j = RealTag now o ∧ j_outbound j = p ∧
       LoadURLTestHistory (Some s') (RealTag now o) =
         match answer j with (Some t, time) => Some (mkHistory time t) | (None, _) => None end) ∧
  (∀ tag, (∀ o, o ∈ g_outbounds g → RealTag now o ≠ tag) →
     LoadURLTestHistory (Some s') tag = LoadURLTestHistory (Some s) tag).
Proof.
  intros Hs Hc. unfold urlTest. rewrite Hc.
  destruct (collect_jobs_spec force (interval g) time s (g_outbounds g) ∅) as (Hd & Hj & Hall).
  set (jobs := collect_jobs _ _ _ _ _ _ _ _) in *.
  assert (NoDup (j_realTag <$> schedule jobs)) as Hd' by (by rewrite Hs).
  pose proof (λ rt, finish_jobs_history (schedule jobs) s ∅ rt Hd') as Hh.
  destruct (fold_left _ _ _) as [s' r]. cbn in Hh.
  destruct (performUpdateCheck now g (Some s')) as [closed g']. split.
  - intros o p Ho Hp. destruct (Hh (RealTag now o)) as [Ha Hb].
    destruct (negb force && fresh (interval g) time s (RealTag now o)) eqn:Hf.
    + apply Hb. rewrite Hs. intros (j & He & Hin)%list_elem_of_fmap.
      destruct (Hj j Hin) as (_ & _ & Hf' & _). congruence.
    + destruct (Hall o p Ho ltac:(set_solver) Hp Hf) as (j & Hin & Hrt). exists j.
      destruct (Hj j Hin) as (_ & Hp' & _). split_and!; [done|congruence|].
      apply Ha; [by rewrite Hs|done].
  - intros tag Hne. apply Hh. rewrite Hs. intros (j & -> & Hin)%list_elem_of_fmap.
    destruct (Hj j Hin) as (_ & _ & _ & o & Ho & _ & Hrt). by apply (Hne o Ho).
Qed.

End TestTheorems.

(** ** The check loop as a state machine *)

(** Where a goroutine of [loopCheck] is: before its first check, in a check, waiting for the ticker or
    the end, and after it has found the group idle. *)
Inductive LoopAt : Type :=
| L_Begin
| L_Check
| L_Select
| L_Stop.

(** A group with the loops and the tests that run. *)
Record Running : Type := mkRunning {
  r_group : URLTestGroup;
  r_loops : list LoopAt;
  r_tests : nat
}.

Section Loop.
Variable now : Outbound → option string.

(** The steps of the group and of its goroutines, in any order and at any time: what is done with the
    lock held is one step.  A check may be asked for by anyone. *)
Inductive loop_step : Running → Running → Prop :=
| step_PostStart time g loops n :
    loop_step (mkRunning g loops n) (mkRunning (PostStart time g) loops n)
| step_Touch time g loops n g' spawned :
    Touch time g = (g', spawned) →
    loop_step (mkRunning g loops n) (mkRunning g' (if spawned then L_Begin :: loops else loops) n)
| step_Close g loops n g' :
    URLTestGroup_Close g = (Ok tt, g') → loop_step (mkRunning g loops n) (mkRunning g' loops n)
| step_begin time g l1 l2 n g' check :
    loop_begin time g = (g', check) →
    loop_step (mkRunning g (l1 ++ L_Begin :: l2) n)
      (mkRunning g' (l1 ++ (if check then L_Check else L_Select) :: l2) n)
| step_checked g l1 l2 n :
    loop_step (mkRunning g (l1 ++ L_Check :: l2) n) (mkRunning g (l1 ++ L_Select :: l2) n)
| step_tick time g l1 l2 n :
    ticker g = true →
    loop_step (mkRunning g (l1 ++ L_Select :: l2) n)
      (mkRunning g (l1 ++ (if idle time g then L_Stop else L_Check) :: l2) n)
| step_end g l1 l2 n :
    closed g = true →
    loop_step (mkRunning g (l1 ++ L_Select :: l2) n) (mkRunning g (l1 ++ l2) n)
| step_stop g l1 l2 n :
    loop_step (mkRunning g (l1 ++ L_Stop :: l2) n) (mkRunning (loop_stop g) (l1 ++ l2) n)
| step_test g loops n :
    checking g = false →
    loop_step (mkRunning g loops n) (mkRunning (g <| checking := true |>) loops (S n))
| step_tested g loops n s closed g' :
    performUpdateCheck now g s = (closed, g') →
    loop_step (mkRunning g loops (S n)) (mkRunning (g' <| checking := false |>) loops n).

(** At most one loop runs, and only while there is a ticker, which it reads; until the group is
    closed, a ticker has its loop; at most one test runs. *)
Definition loop_ok (r : Running) : Prop :=
  (length (r_loops r) <= (if ticker (r_group r) then 1 else 0))%nat ∧
  (ticker (r_group r) = true → closed (r_group r) = false → length (r_loops r) = 1%nat) ∧
  r_tests r = if checking (r_group r) then 1%nat else 0%nat.

Lemma loop_begin_frame time g :
  ticker (loop_begin time g).1 = ticker g ∧ closed (loop_begin time g).1 = closed g ∧
  checking (loop_begin time g).1 = checking g.
Proof. unfold loop_begin. by destruct (Z.ltb _ _). Qed.

Lemma performUpdateCheck_frame g s :
  let g' := (performUpdateCheck now g s).2 in
  ticker g' = ticker g ∧ closed g' = closed g ∧ checking g' = checking g.
Proof.
  rewrite performUpdateCheck_eq. cbv zeta. destruct (_ || _); [|done].
  by destruct (interrupt.Interrupt _ _).
Qed.

Lemma Touch_ok time g loops n : loop_ok (mkRunning g loops n) →
  loop_ok (mkRunning (Touch time g).1 (if (Touch time g).2 then L_Begin :: loops else loops) n).
Proof.
  intros (Hl & Ht & Hn). unfold Touch. destruct (g_started g); cbn; [|by split_and!].
  destruct (ticker g) eqn:E; cbn in *; unfold loop_ok; cbn; rewrite ?E in *; split_and!; try done;
    rewrite ?E; cbn in *; try lia.
Qed.

Lemma loop_step_ok r r' : loop_step r r' → loop_ok r → loop_ok r'.
Proof.
  intros Hs (Hl & Ht & Hn). destruct Hs as [time g loops n|time g loops n g' sp Hg|g loops n g' Hg
    |time g l1 l2 n g' check Hg|g l1 l2 n|time g l1 l2 n Hg|g l1 l2 n Hg|g l1 l2 n|g loops n Hg
    |g loops n s cl g' Hg]; unfold loop_ok in *; cbn in *; rewrite ?length_app in *; cbn in *.
  - done.
  - pose proof (Touch_ok time g loops n ltac:(by split_and!)) as Hok. by rewrite Hg in Hok.
  - unfold URLTestGroup_Close in Hg. destruct (ticker g) eqn:E; cbn in Hg; [|by simplify_eq; rewrite E in *].
    destruct (closed g) eqn:Ec; simplify_eq. cbn. rewrite E. by split_and!.
  - destruct (loop_begin_frame time g) as (E1 & E2 & E3). rewrite Hg in E1, E2, E3. cbn in *.
    rewrite E1, E2, E3. by split_and!.
  - done.
  - done.
  - split_and!; [lia|rewrite Hg; done|done].
  - split_and!; [|done|done]. destruct (ticker g); lia.
  - rewrite Hg in Hn. by rewrite Hn.
  - destruct (performUpdateCheck_frame g s) as (E1 & E2 & E3). rewrite Hg in E1, E2, E3. cbn in *.
    rewrite E1, E2. split_and!; [done|done|]. destruct (checking g); lia.
Qed.

(** C26: however the calls of a group and its goroutines are interleaved, at most one check loop runs,
    and only while the group has a ticker, so it never waits for a ticker that is gone; as long as the
    group is not closed, a ticker has its loop; and at most one test runs at a time. *)
Theorem loop_invariant g r :
  ticker g = false → checking g = false →
  rtc loop_step (mkRunning g [] 0) r →
  (r_loops r ≠ [] → ticker (r_group r) = true ∧ length (r_loops r) = 1%nat) ∧
  (ticker (r_group r) = true → closed (r_group r) = false → length (r_loops r) = 1%nat) ∧
  (r_tests r <= 1)%nat.
Proof.
  intros Ht Hc Hr. assert (loop_ok r) as (Hl & Ho & Hn).
  { assert (loop_ok (mkRunning g [] 0)) as H0 by (unfold loop_ok; cbn; by rewrite Ht, Hc).
    clear Ht Hc. revert H0. induction Hr as [|x y z Hxy _ IH]; [done|].
    intros Hok. apply IH. by apply (loop_step_ok x y). }
  split_and!; [|done|by rewrite Hn; destruct (checking (r_group r)); auto]. intros Hne.
  destruct (r_loops r) as [|l ls]; [done|]. clear Hn. cbn in *.
  destruct (ticker (r_group r)); [split; [done|lia]|lia].
Qed.

(** A loop that finds the group idle stops: there is no way on but to give the ticker up. *)
Lemma idle_stops time g n :
  ticker g = true → idle time g = true →
  rtc loop_step (mkRunning g [L_Select] n) (mkRunning (g <| ticker := false |>) [] n).
Proof.
  intros Ht Hi. eapply rtc_l; [apply (step_tick time g [] [] n Ht)|]. rewrite Hi.
  apply rtc_once, (step_stop g [] [] n).
Qed.

End Loop.

(** ** Concrete groups *)

Module SampleGroup.

Definition no_groups : Outbound → option string := λ _, None.

Definition fast : Outbound := sample_outbound 1 "fast" [].
Definition slow : Outbound := sample_outbound 2 "slow" [].

Definition group : URLTestGroup :=
  mkURLTestGroup [slow; fast] "" DefaultURLTestInterval 50 DefaultURLTestIdleTimeout false
    (Some slow) None (interrupt.mkGroup [(0%nat, interrupt.mkItem 7 false)] 1) false false false true 0.

Definition history (fast slow : Z) : HistoryStorage :=
  mkHistoryStorage {["fast"%string := mkHistory 0 fast; "slow"%string := mkHistory 0 slow]} None.

Lemma history_delays a b tag h :
  LoadURLTestHistory (Some (history a b)) tag = Some h → h = mkHistory 0 a ∨ h = mkHistory 0 b.
Proof.
  unfold LoadURLTestHistory, history. cbn [delayHistory].
  rewrite lookup_insert_Some, lookup_singleton_Some. naive_solver.
Qed.

Lemma group_delays : delays_ok no_groups group (Some (history 100 300)).
Proof.
  intros o d _ (h & [-> | ->]%history_delays & ->)%fmap_Some; cbn; lia.
Qed.

Lemma group_selection : selection_ok group.
Proof.
  intros network o [-> | ->]; cbn; [|done]. intros [= <-]. split; [left|]. cbn. left.
Qed.

Lemma group_identities : identities group.
Proof. intros o o' Ho Ho'. set_unfold. naive_solver. Qed.

Definition know : string → option Outbound :=
  λ tag, if String.eqb tag "fast" then Some fast else if String.eqb tag "slow" then Some slow else None.

(** The fast outbound answers in 100 ms, the other not at all. *)
Definition answers (j : Job) : option Z * Z :=
  (if String.eqb (j_realTag j) "fast" then Some 100 else None, 5).

End SampleGroup.
Import SampleGroup.

Lemma performUpdateCheck_spec_witness :
  let '(closed, g') := performUpdateCheck no_groups group (Some (history 100 300)) in
  closed = [7] ∧ selected_for "tcp" g' = Some fast ∧ selected_for "udp" g' = Some fast ∧
  best_for no_groups group (Some (history 100 300)) "tcp" (Some slow) (Some fast).
Proof.
  pose proof (performUpdateCheck_spec no_groups group (Some (history 100 300))
    ltac:(cbn; lia) group_selection group_identities) as Ht.
  destruct (performUpdateCheck _ _ _) as [closed g'] eqn:E. destruct Ht as (_ & Hu & _ & _).
  assert (performUpdateCheck no_groups group (Some (history 100 300))
    = ([7], group <| selectedOutboundTCP := Some fast |> <| selectedOutboundUDP := Some fast |>
             <| g_interruptGroup := interrupt.mkGroup [] 1 |>)) as E' by (by vm_compute).
  rewrite E' in E. injection E as <- <-. split_and!; [done..|]. apply (Hu "tcp"%string); [by left|exact group_delays].
Defined.

Lemma urlTest_order_witness :
  urlTest no_groups know answers (λ l, l) true 0 group NewHistoryStorage
  = urlTest no_groups know answers (λ l, rev l) true 0 group NewHistoryStorage.
Proof.
  apply (urlTest_order no_groups know answers); [done|intros l; symmetry; apply Permutation_rev|].
  intros o o' Ho Ho'. set_unfold. naive_solver.
Defined.

Lemma urlTest_histories_witness :
  let '(r, closed, g', s') := urlTest no_groups know answers (λ l, l) true 0 group (history 90 300) in
  r = {["fast"%string := 100]} ∧ closed = [7] ∧
  ∃ j, j_realTag j = "slow"%string ∧ j_outbound j = slow ∧
    LoadURLTestHistory (Some s') "slow" =
      match answers j with (Some t, time) => Some (mkHistory time t) | (None, _) => None end.
Proof.
  pose proof (urlTest_histories no_groups know answers (λ l, l) true 0 group (history 90 300)
    ltac:(done) eq_refl) as Ht.
  assert (∃ g' s', urlTest no_groups know answers (λ l, l) true 0 group (history 90 300)
    = ({["fast"%string := 100]}, [7], g', s')) as (g' & s' & E) by (do 2 eexists; by vm_compute).
  rewrite E in Ht |- *. split_and!; [done..|].
  exact (proj1 Ht slow slow ltac:(left) eq_refl).
Defined.

Lemma loop_invariant_witness :
  ∃ r, rtc (loop_step no_groups) (mkRunning group [] 0) r ∧ r_loops r = [L_Check] ∧
    ((r_loops r ≠ [] → ticker (r_group r) = true ∧ length (r_loops r) = 1%nat) ∧
     (ticker (r_group r) = true → closed (r_group r) = false → length (r_loops r) = 1%nat) ∧
     (r_tests r <= 1)%nat).
Proof.
  assert (rtc (loop_step no_groups) (mkRunning group [] 0)
    (mkRunning ((group <| ticker := true |>) <| lastActive := Minute * 20 |>) [L_Check] 0)) as Hr.
  { eapply rtc_l; [by apply (step_Touch no_groups (Minute * 20) group [] 0)|].
    apply rtc_once. by apply (step_begin no_groups (Minute * 20) (group <| ticker := true |>) [] [] 0 _ true). }
  eexists. split; [exact Hr|]. split; [done|]. exact (loop_invariant no_groups group _ eq_refl eq_refl Hr).
Defined.

(** *** What goes wrong *)

(** The sum of delay and tolerance wraps: with a large tolerance the selection is taken from a fast
    outbound and given to a slow one. *)
Lemma tolerance_wraps :
  let g := group <| tolerance := 60000 |> <| selectedOutboundTCP := Some fast |> in
  Select no_groups "tcp" g (Some (history 1000 6000)) = (Some slow, true).
Proof. by vm_compute. Qed.

(** A delay of less than a millisecond is taken for none: the next outbound takes the place,
    however slow it is. *)
Lemma zero_delay :
  Select no_groups "tcp" (group <| g_outbounds := [fast; slow] |>
    <| selectedOutboundTCP := Some fast |>) (Some (history 0 5000)) = (Some slow, true).
Proof. by vm_compute. Qed.

(** After an error the history is deleted under the tag of the outbound: when that is a group, its
    delay is under the tag of the outbound it has selected, and stays. *)
Lemma dial_error_keeps_history now ext o e g h :
  RealTag now o ≠ ob_Tag o →
  let '(_, _, h') := dialed ext o (Err e) g h in
  LoadURLTestHistory (Some h') (RealTag now o) = LoadURLTestHistory (Some h) (RealTag now o).
Proof.
  intros Hne. unfold dialed, DeleteURLTestHistory, notifyUpdated. destruct h as [d [n|]]; cbn;
    by rewrite lookup_delete_ne by done.
Qed.

(** A group that is closed while it is idle can be woken up again: the loop that the next touch starts
    has nothing that ends it but being idle. *)
Lemma closed_idle_wakes time :
  let '(r, g) := URLTestGroup_Close group in
  r = Ok tt ∧ closed g = false ∧ Touch time g = (g <| ticker := true |>, true).
Proof. done. Qed.

(** Closing a group twice panics. *)
Lemma close_twice :
  let '(r, g) := URLTestGroup_Close (group <| ticker := true |>) in
  r = Ok tt ∧ is_panic (URLTestGroup_Close g).1 = true.
Proof. done. Qed.
