(* ===== verification/FakeIP.v ===== *)
(** * Fake IP addresses (dns/transport/fakeip/, adapter/fakeip.go, adapter/fakeip_metadata.go)

    The store hands out the addresses of its ranges in turn, one per domain and family, and keeps
    the pairs in a storage.  The storage is an interface: [FakeIPStorage] has its operations and
    what they promise to the store, and the memory storage implements it. *)

From stdpp Require Import base gmap strings list numbers.
From S2P Require Import Prelude GoStd Netip.

Local Open Scope Z_scope.

(** ** Binary form of addresses (net/netip) *)

Definition zone_bytes (z : string) : list byte := String.list_byte_of_string z.

(** [Addr.MarshalBinary] *)
Definition Addr_MarshalBinary (a : Addr) : list byte :=
  match a with
  | AddrInvalid => []
  | Addr4 v => be_bytes 4 v
  | Addr6 v z => be_bytes 16 v ++ zone_bytes z
  end.

(** [Addr.UnmarshalBinary] *)
Definition Addr_UnmarshalBinary (b : list byte) : res Addr :=
  let n := length b in
  if Nat.eqb n 0 then Ok AddrInvalid else
  if Nat.eqb n 4 then Ok (Addr4 (be_val b)) else
  if Nat.leb 16 n
  then Ok (Addr6 (be_val (take 16 b)) (String.string_of_list_byte (drop 16 b)))
  else Err (E_Ext "netip: unexpected slice size").

(** [Prefix.MarshalBinary]: the address without its zone and a byte for the bits. *)
Definition Prefix_MarshalBinary (p : Prefix) : list byte :=
  Addr_MarshalBinary (Addr_withoutZone (Prefix_Addr p)) ++ [Z_byte (Prefix_Bits p)].

(** [Prefix.UnmarshalBinary] *)
Definition Prefix_UnmarshalBinary (b : list byte) : res Prefix :=
  match b !! (length b - 1)%nat with
  | None => Err (E_Ext "netip: unexpected slice size")
  | Some bits =>
      addr ← Addr_UnmarshalBinary (take (length b - 1)%nat b);
      Ok (PrefixFrom addr (byte_Z bits))
  end.

(** ** Metadata of the storage *)

(** [adapter/fakeip_metadata.go:13-18] FakeIPMetadata *)
Record FakeIPMetadata : Type := mkFakeIPMetadata {
  Inet4Range : Prefix;
  Inet6Range : Prefix;
  Inet4Current : Addr;
  Inet6Current : Addr
}.

(** One element, after its length as a big-endian [uint16].

    [adapter/fakeip_metadata.go:27-28] (FakeIPMetadata).MarshalBinary (loop body) *)
Definition marshal_element (data : list byte) : list byte :=
  be_bytes 2 (u16 (Z.of_nat (length data))) ++ data.

(** [adapter/fakeip_metadata.go:20-32] (FakeIPMetadata).MarshalBinary *)
Definition MarshalBinary (m : FakeIPMetadata) : list byte :=
  concat (marshal_element <$>
    [Prefix_MarshalBinary (Inet4Range m); Prefix_MarshalBinary (Inet6Range m);
     Addr_MarshalBinary (Inet4Current m); Addr_MarshalBinary (Inet6Current m)]).

(** One element and the rest of the data; [common.Must] panics when the length cannot be read.

    [adapter/fakeip_metadata.go:37-47] (FakeIPMetadata).UnmarshalBinary (loop body) *)
Definition unmarshal_element {A} (f : list byte → res A) (data : list byte)
    : res (A * list byte) :=
  match data with
  | h :: l :: rest =>
      let length' := Z.to_nat (be_val [h; l]) in
      let element := take length' rest in
      if Nat.ltb (length element) length'
      then Err (if Nat.eqb (length element) 0 then io_EOF else io_ErrUnexpectedEOF)
      else a ← f element; Ok (a, drop length' rest)
  | _ => Panic [AStr "EOF"]
  end.

(** [adapter/fakeip_metadata.go:34-50] (FakeIPMetadata).UnmarshalBinary *)
Definition UnmarshalBinary (data : list byte) : res FakeIPMetadata :=
  '(r4, data) ← unmarshal_element Prefix_UnmarshalBinary data;
  '(r6, data) ← unmarshal_element Prefix_UnmarshalBinary data;
  '(c4, data) ← unmarshal_element Addr_UnmarshalBinary data;
  '(c6, _) ← unmarshal_element Addr_UnmarshalBinary data;
  Ok (mkFakeIPMetadata r4 r6 c4 c6).

(** ** The storage *)

(** The operations of a storage; [FakeIPStoreAsync] has no caller.

    [adapter/fakeip.go:17-26] FakeIPStorage *)
Class FakeIPStorage (S : Type) := {
  fs_Metadata : S → option FakeIPMetadata * S;
  fs_SaveMetadata : FakeIPMetadata → S → option error * S;
  fs_SaveMetadataAsync : FakeIPMetadata → S → S;
  fs_Store : Addr → string → S → option error * S;
  fs_Load : S → Addr → option string;
  fs_LoadDomain : S → string → bool → option Addr;
  fs_Reset : S → option error * S
}.

(** What its pairs promise to the store: a pair that is stored can be read both ways, the pairs of
    other addresses stay, and of the domains only the one the address had before loses its address. *)
Class FakeIPStorageLaws (S : Type) `{FakeIPStorage S} := {
  fs_Store_Load : ∀ a d s b,
    fs_Load (fs_Store a d s).2 b = if decide (b = a) then Some d else fs_Load s b;
  fs_Store_LoadDomain : ∀ a d s d' six,
    fs_LoadDomain (fs_Store a d s).2 d' six =
      if Bool.eqb six (negb (Addr_Is4 a)) then
        if decide (d' = d) then Some a else
        if decide (fs_Load s a = Some d') then None else fs_LoadDomain s d' six
      else fs_LoadDomain s d' six;
  fs_Save_Load : ∀ m s b, fs_Load (fs_SaveMetadataAsync m s) b = fs_Load s b;
  fs_Save_LoadDomain : ∀ m s d six,
    fs_LoadDomain (fs_SaveMetadataAsync m s) d six = fs_LoadDomain s d six
}.

(** [dns/transport/fakeip/memory.go:13-19] MemoryStorage *)
Record MemoryStorage : Type := mkMemoryStorage {
  addressCache : gmap Addr string;
  domainCache4 : gmap string Addr;
  domainCache6 : gmap string Addr
}.

(** [dns/transport/fakeip/memory.go:21-27] NewMemoryStorage *)
Definition NewMemoryStorage : MemoryStorage := mkMemoryStorage ∅ ∅ ∅.

(** [dns/transport/fakeip/memory.go:29-31] (MemoryStorage).FakeIPMetadata *)
Definition Memory_Metadata (s : MemoryStorage) : option FakeIPMetadata * MemoryStorage := (None, s).

(** [dns/transport/fakeip/memory.go:33-35] (MemoryStorage).FakeIPSaveMetadata *)
Definition Memory_SaveMetadata (m : FakeIPMetadata) (s : MemoryStorage)
    : option error * MemoryStorage := (None, s).

(** [dns/transport/fakeip/memory.go:37-38] (MemoryStorage).FakeIPSaveMetadataAsync *)
Definition Memory_SaveMetadataAsync (m : FakeIPMetadata) (s : MemoryStorage) : MemoryStorage := s.

(** [dns/transport/fakeip/memory.go:40-59] (MemoryStorage).FakeIPStore *)
Definition Memory_Store (address : Addr) (domain : string) (s : MemoryStorage)
    : option error * MemoryStorage :=
  let s :=
    match addressCache s !! address with
    | Some oldDomain =>
        if Addr_Is4 address
        then mkMemoryStorage (addressCache s) (delete oldDomain (domainCache4 s)) (domainCache6 s)
        else mkMemoryStorage (addressCache s) (domainCache4 s) (delete oldDomain (domainCache6 s))
    | None => s
    end in
  let addressCache' := <[address := domain]> (addressCache s) in
  (None,
   if Addr_Is4 address
   then mkMemoryStorage addressCache' (<[domain := address]> (domainCache4 s)) (domainCache6 s)
   else mkMemoryStorage addressCache' (domainCache4 s) (<[domain := address]> (domainCache6 s))).

(** [dns/transport/fakeip/memory.go:65-70] (MemoryStorage).FakeIPLoad *)
Definition Memory_Load (s : MemoryStorage) (address : Addr) : option string :=
  addressCache s !! address.

(** [dns/transport/fakeip/memory.go:72-82] (MemoryStorage).FakeIPLoadDomain *)
Definition Memory_LoadDomain (s : MemoryStorage) (domain : string) (isIPv6 : bool) : option Addr :=
  if negb isIPv6 then domainCache4 s !! domain else domainCache6 s !! domain.

(** [dns/transport/fakeip/memory.go:84-93] (MemoryStorage).FakeIPReset *)
Definition Memory_Reset (s : MemoryStorage) : option error * MemoryStorage :=
  (None, mkMemoryStorage ∅ ∅ ∅).

Lemma Memory_Store_Load a d s b :
  Memory_Load (Memory_Store a d s).2 b = if decide (b = a) then Some d else Memory_Load s b.
Proof.
  unfold Memory_Load, Memory_Store. destruct (decide (b = a)) as [->|Hne];
    repeat case_match; cbn;
    by rewrite ?lookup_insert_eq, ?lookup_insert_ne by done.
Qed.

Lemma Memory_Store_LoadDomain a d s d' six :
  Memory_LoadDomain (Memory_Store a d s).2 d' six =
    if Bool.eqb six (negb (Addr_Is4 a)) then
      if decide (d' = d) then Some a else
      if decide (Memory_Load s a = Some d') then None else Memory_LoadDomain s d' six
    else Memory_LoadDomain s d' six.
Proof.
  unfold Memory_LoadDomain, Memory_Store, Memory_Load.
  destruct (addressCache s !! a) as [old|] eqn:E, (Addr_Is4 a), six; cbn; try done.
  all: destruct (decide (d' = d)) as [->|Hne]; [by rewrite lookup_insert_eq|];
    rewrite lookup_insert_ne by done; case_decide as Ho; simplify_eq; try done.
  all: first [by rewrite lookup_delete_eq | rewrite lookup_delete_ne; [done|congruence]].
Qed.

#[export] Instance Memory_FakeIPStorage : FakeIPStorage MemoryStorage := {|
  fs_Metadata := Memory_Metadata;
  fs_SaveMetadata := Memory_SaveMetadata;
  fs_SaveMetadataAsync := Memory_SaveMetadataAsync;
  fs_Store := Memory_Store;
  fs_Load := Memory_Load;
  fs_LoadDomain := Memory_LoadDomain;
  fs_Reset := Memory_Reset
|}.

#[export] Instance Memory_FakeIPStorageLaws : FakeIPStorageLaws MemoryStorage := {|
  fs_Store_Load := Memory_Store_Load;
  fs_Store_LoadDomain := Memory_Store_LoadDomain;
  fs_Save_Load _ _ _ := eq_refl;
  fs_Save_LoadDomain _ _ _ _ := eq_refl
|}.

(** ** The store *)

Section Store.
Context {S : Type} `{FakeIPStorage S}.

(** [storage] is [nil] before [Start].

    [dns/transport/fakeip/store.go:16-26] Store *)
Record Store : Type := mkStore {
  inet4Range : Prefix;
  inet6Range : Prefix;
  storage : option S;
  inet4Current : Addr;
  inet6Current : Addr
}.

(** [dns/transport/fakeip/store.go:28-35] NewStore *)
Definition NewStore (inet4Range inet6Range : Prefix) : Store :=
  mkStore inet4Range inet6Range None AddrInvalid AddrInvalid.

(** [storage] is the cache file, when there is one that stores fake IPs, and a new memory storage
    otherwise.

    [dns/transport/fakeip/store.go:46-60] (Store).Start *)
Definition Store_Start (storage : S) (s : Store) : Store :=
  let '(metadata, storage) := fs_Metadata storage in
  let fresh :=
    mkStore (inet4Range s) (inet6Range s) (Some (fs_Reset storage).2)
      (if Prefix_IsValid (inet4Range s)
       then Addr_Next (Addr_Next (Prefix_Addr (inet4Range s))) else inet4Current s)
      (if Prefix_IsValid (inet6Range s)
       then Addr_Next (Addr_Next (Prefix_Addr (inet6Range s))) else inet6Current s) in
  match metadata with
  | Some m =>
      if bool_decide (Inet4Range m = inet4Range s) && bool_decide (Inet6Range m = inet6Range s)
      then mkStore (inet4Range s) (inet6Range s) (Some storage) (Inet4Current m) (Inet6Current m)
      else fresh
  | None => fresh
  end.

(** [dns/transport/fakeip/store.go:63-65] (Store).Contains *)
Definition Store_Contains (s : Store) (address : Addr) : bool :=
  Prefix_Contains (inet4Range s) address || Prefix_Contains (inet6Range s) address.

(** [dns/transport/fakeip/store.go:72-77] (Store).Close (metadata) *)
Definition Store_metadata (s : Store) : FakeIPMetadata :=
  mkFakeIPMetadata (inet4Range s) (inet6Range s) (inet4Current s) (inet6Current s).

(** [dns/transport/fakeip/store.go:67-80] (Store).Close *)
Definition Store_Close (s : Store) : option error * Store :=
  match storage s with
  | None => (None, s)
  | Some st =>
      let '(err, st) := fs_SaveMetadata (Store_metadata s) st in
      (err, mkStore (inet4Range s) (inet6Range s) (Some st) (inet4Current s) (inet6Current s))
  end.

(** The address after the current one, or the third of the range when that leaves it.

    [dns/transport/fakeip/store.go:100-103] (Store).Create (next address) *)
Definition next_address (range : Prefix) (current : Addr) : Addr :=
  let nextAddress := Addr_Next current in
  if negb (Prefix_Contains range nextAddress)
  then Addr_Next (Addr_Next (Prefix_Addr range)) else nextAddress.

(** The part of [Create] under the lock, once the storage is known.

    [dns/transport/fakeip/store.go:90-127] (Store).Create (locked) *)
Definition Create_locked (domain : string) (isIPv6 : bool) (st : S) (s : Store)
    : res Addr * Store :=
  match fs_LoadDomain st domain isIPv6 with
  | Some address => (Ok address, s)
  | None =>
      let current := if isIPv6 then inet6Current s else inet4Current s in
      if negb (Addr_IsValid current)
      then (Err (E_New [AStr (if isIPv6 then "missing IPv6 fakeip address range"
                              else "missing IPv4 fakeip address range")]), s)
      else
        let address := next_address (if isIPv6 then inet6Range s else inet4Range s) current in
        let s := if isIPv6
                 then mkStore (inet4Range s) (inet6Range s) (storage s) (inet4Current s) address
                 else mkStore (inet4Range s) (inet6Range s) (storage s) address (inet6Current s) in
        let st := (fs_Store address domain st).2 in
        let st := fs_SaveMetadataAsync (Store_metadata s) st in
        (Ok address,
         mkStore (inet4Range s) (inet6Range s) (Some st) (inet4Current s) (inet6Current s))
  end.

(** [dns/transport/fakeip/store.go:82-128] (Store).Create *)
Definition Store_Create (domain : string) (isIPv6 : bool) (s : Store) : res Addr * Store :=
  match storage s with
  | None => (Panic [AStr "nil pointer dereference"], s)
  | Some st =>
      match fs_LoadDomain st domain isIPv6 with
      | Some address => (Ok address, s)
      | None => Create_locked domain isIPv6 st s
      end
  end.

(** [dns/transport/fakeip/store.go:130-132] (Store).Lookup *)
Definition Store_Lookup (s : Store) (address : Addr) : res (option string) :=
  match storage s with
  | None => Panic [AStr "nil pointer dereference"]
  | Some st => Ok (fs_Load st address)
  end.

(** [dns/transport/fakeip/store.go:134-136] (Store).Reset *)
Definition Store_Reset (s : Store) : res (option error) * Store :=
  match storage s with
  | None => (Panic [AStr "nil pointer dereference"], s)
  | Some st =>
      let '(err, st) := fs_Reset st in
      (Ok err, mkStore (inet4Range s) (inet6Range s) (Some st) (inet4Current s) (inet6Current s))
  end.

(** Several goroutines creating: each looks the domain up without the lock, and if that misses
    waits for the lock.  [pending] are the requests between the two. *)
Inductive CreateStep : Store * list (string * bool) →
    option (string * bool * res Addr) → Store * list (string * bool) → Prop :=
| Step_fast_hit s st pending domain six address :
    storage s = Some st → fs_LoadDomain st domain six = Some address →
    CreateStep (s, pending) (Some (domain, six, Ok address)) (s, pending)
| Step_fast_miss s st pending domain six :
    storage s = Some st → fs_LoadDomain st domain six = None →
    CreateStep (s, pending) None (s, (domain, six) :: pending)
| Step_locked s st before after domain six r s' :
    storage s = Some st → Create_locked domain six st s = (r, s') →
    CreateStep (s, before ++ (domain, six) :: after) (Some (domain, six, r)) (s', before ++ after).

(** A run, with the answers in the order they were given. *)
Inductive CreateRun : Store * list (string * bool) → list (string * bool * res Addr) →
    Store * list (string * bool) → Prop :=
| Run_nil x : CreateRun x [] x
| Run_silent x y z l : CreateStep x None y → CreateRun y l z → CreateRun x l z
| Run_answer x y z a l : CreateStep x (Some a) y → CreateRun y l z → CreateRun x (a :: l) z.

(** The same requests, one after the other. *)
Fixpoint create_all (requests : list (string * bool)) (s : Store)
    : list (string * bool * res Addr) * Store :=
  match requests with
  | [] => ([], s)
  | (domain, six) :: rest =>
      let '(r, s) := Store_Create domain six s in
      let '(l, s) := create_all rest s in
      ((domain, six, r) :: l, s)
  end.

End Store.
Arguments Store S : clear implicits.

(** What routing asks of a fake IP transport.

    [adapter/fakeip.go:9-15] FakeIPStore *)
Class FakeIPStoreI (F : Type) := {
  fakeip_Contains : F → Addr → bool;
  fakeip_Lookup : F → Addr → res (option string)
}.

#[export] Instance Store_FakeIPStoreI {S} `{FakeIPStorage S} : FakeIPStoreI (Store S) := {|
  fakeip_Contains := Store_Contains;
  fakeip_Lookup := Store_Lookup
|}.


(** ** Theorems *)

(** *** The cycle of addresses *)

(** The addresses a range hands out: those from the third on. *)
Definition pool_size (p : Prefix) : Z := Prefix_base p + Prefix_size p - (Addr_val (Prefix_Addr p) + 2).
Definition pool_at (p : Prefix) (i : Z) : Addr :=
  Addr_withVal (Prefix_Addr p) (Addr_val (Prefix_Addr p) + 2 + i).

Definition range_ok (p : Prefix) : Prop := Prefix_wf p ∧ Prefix_IsValid p = true.

Lemma Addr_Next_val a :
  Addr_wf a → Addr_IsValid a = true →
  Addr_Next a = if Z.eqb (Addr_val a + 1) (2 ^ Addr_BitLen a) then AddrInvalid
                else Addr_withVal a (Addr_val a + 1).
Proof.
  intros Hwf Hv. unfold Addr_Next, u32, wrap.
  assert (∀ n v, 0 <= n → is_u n v → (v + 1) mod 2 ^ n = if Z.eqb (v + 1) (2 ^ n) then 0 else v + 1)
    as Hmod.
  { intros n v ? Hu. unfold is_u in Hu. destruct (Z.eqb_spec (v + 1) (2 ^ n)) as [->|];
      [apply Z_mod_same_full|apply Z.mod_small; lia]. }
  destruct a as [|v|v z]; [done| |]; cbn [Addr_val Addr_BitLen Addr_withVal]; cbn in Hwf;
    rewrite Hmod by (done || lia); unfold is_u in Hwf;
    match goal with |- context [Z.eqb (v + 1) (2 ^ ?n)] =>
      destruct (Z.eqb_spec (v + 1) (2 ^ n)) end; try done;
    (destruct (Z.eqb_spec (v + 1) 0); [lia|done]).
Qed.

Lemma range_end p : range_ok p →
  0 < Prefix_size p ∧ Prefix_base p <= Addr_val (Prefix_Addr p) < Prefix_base p + Prefix_size p ∧
  Prefix_base p + Prefix_size p <= 2 ^ Addr_BitLen (Prefix_Addr p).
Proof.
  intros [(Hwf & Hz & Hb) Hv]. specialize (Hb Hv). unfold Prefix_IsValid in Hv.
  apply andb_true_iff in Hv as [Hb0%Z.leb_le Hv].
  assert (0 <= Addr_val (Prefix_Addr p) < 2 ^ Addr_BitLen (Prefix_Addr p)) as HA
    by (destruct (Prefix_Addr p); done).
  unfold Prefix_base, Prefix_size in *. set (L := Addr_BitLen _) in *. set (A := Addr_val _) in *.
  assert (2 ^ L = 2 ^ (L - Prefix_Bits p) * 2 ^ Prefix_Bits p) as Hpow
    by (rewrite <-Z.pow_add_r by lia; f_equal; lia).
  assert (0 < 2 ^ (L - Prefix_Bits p)) by (apply Z.pow_pos_nonneg; lia).
  set (n := 2 ^ (L - Prefix_Bits p)) in *. set (m := 2 ^ Prefix_Bits p) in *.
  pose proof (Z.div_mod A n ltac:(lia)). pose proof (Z.mod_pos_bound A n ltac:(lia)).
  assert (A / n < m) by (apply Z.div_lt_upper_bound; lia). split; [lia|]. split; nia.
Qed.

Lemma pool_at_inj p i j :
  Addr_IsValid (Prefix_Addr p) = true → pool_at p i = pool_at p j → i = j.
Proof.
  unfold pool_at. intros Hv Heq. destruct (Prefix_Addr p); [done| |]; cbn in Heq;
    injection Heq; lia.
Qed.

Lemma Contains_pool p i :
  range_ok p → 0 <= i →
  Prefix_Contains p (pool_at p i) = true ↔ i < pool_size p.
Proof.
  intros Hr Hi. destruct (range_end p Hr) as (Hs & Hb & _). destruct Hr as [Hwf Hv].
  rewrite Prefix_Contains_range by done. destruct Hwf as (_ & Hz & _).
  assert (Addr_hasZone (pool_at p i) = false ∧ same_family (Prefix_Addr p) (pool_at p i) ∧
    Addr_val (pool_at p i) = Addr_val (Prefix_Addr p) + 2 + i) as (H1 & H2 & H3).
  { unfold pool_at, same_family, Prefix_IsValid in *.
    destruct (Prefix_Addr p); [by rewrite andb_false_r in Hv|done|done]. }
  rewrite H3. unfold pool_size. split; [intros; lia|]. intros. split_and!; auto; lia.
Qed.

Lemma Next_withVal a v :
  Addr_wf (Addr_withVal a v) → Addr_IsValid a = true →
  Addr_Next (Addr_withVal a v) =
    if Z.eqb (v + 1) (2 ^ Addr_BitLen a) then AddrInvalid else Addr_withVal a (v + 1).
Proof. intros Hwf Hv. rewrite Addr_Next_val by (done || by destruct a). by destruct a. Qed.

Lemma range_valid p : range_ok p → Addr_IsValid (Prefix_Addr p) = true ∧ Addr_wf (Prefix_Addr p).
Proof. intros [(? & _) [_ ?]%andb_true_iff]. done. Qed.

Lemma withVal_wf a v : 0 <= v < 2 ^ Addr_BitLen a → Addr_wf (Addr_withVal a v).
Proof. by destruct a. Qed.

Lemma withVal_id a : Addr_withVal a (Addr_val a) = a.
Proof. by destruct a. Qed.

(** The third address of a range that is long enough. *)
Lemma third_address p :
  range_ok p → Addr_val (Prefix_Addr p) + 2 < 2 ^ Addr_BitLen (Prefix_Addr p) →
  Addr_Next (Addr_Next (Prefix_Addr p)) = pool_at p 0.
Proof.
  intros Hr H2. destruct (range_valid p Hr) as [Hv Hwf]. destruct (range_end p Hr) as (_ & HA & _).
  assert (0 <= Addr_val (Prefix_Addr p)) by (destruct (Prefix_Addr p); cbn in *; unfold is_u in *; lia).
  rewrite (Addr_Next_val (Prefix_Addr p)) by done. rewrite (proj2 (Z.eqb_neq _ _)) by lia.
  rewrite Next_withVal by (done || apply withVal_wf; lia). rewrite (proj2 (Z.eqb_neq _ _)) by lia.
  unfold pool_at. f_equal. lia.
Qed.

(** The next address goes round the pool. *)
Lemma next_address_pool p i :
  range_ok p → 0 <= i < pool_size p →
  next_address p (pool_at p i) = pool_at p ((i + 1) mod pool_size p).
Proof.
  intros Hr Hi. destruct (range_valid p Hr) as [Hv Hwf].
  pose proof (range_end p Hr) as (Hs & HA & He).
  assert (0 <= Addr_val (Prefix_Addr p)) by (destruct (Prefix_Addr p); cbn in *; unfold is_u in *; lia).
  unfold next_address. unfold pool_at at 1 2. unfold pool_size in Hi.
  rewrite Next_withVal by (done || apply withVal_wf; lia).
  assert (Addr_Next (Addr_Next (Prefix_Addr p)) = pool_at p 0) as H3 by (apply third_address; [done|lia]).
  destruct (decide (i + 1 = pool_size p)) as [Heq|Hne].
  - rewrite Heq, Z_mod_same_full, <-H3.
    assert (Prefix_Contains p (if Z.eqb (Addr_val (Prefix_Addr p) + 2 + i + 1)
        (2 ^ Addr_BitLen (Prefix_Addr p)) then AddrInvalid
        else Addr_withVal (Prefix_Addr p) (Addr_val (Prefix_Addr p) + 2 + i + 1)) = false) as ->; [|done].
    destruct (Z.eqb_spec (Addr_val (Prefix_Addr p) + 2 + i + 1) (2 ^ Addr_BitLen (Prefix_Addr p))).
    + unfold Prefix_Contains. destruct (_ || _); [done|]. cbn. by rewrite orb_true_r.
    + apply not_true_iff_false.
      change (Addr_withVal _ _) with (Addr_withVal (Prefix_Addr p) (Addr_val (Prefix_Addr p) + 2 + i + 1)).
      replace (Addr_val (Prefix_Addr p) + 2 + i + 1) with (Addr_val (Prefix_Addr p) + 2 + (i + 1)) by lia.
      fold (pool_at p (i + 1)). rewrite Contains_pool by (done || lia). lia.
  - unfold pool_size in Hne. rewrite (proj2 (Z.eqb_neq _ _)) by lia.
    replace (Addr_val (Prefix_Addr p) + 2 + i + 1) with (Addr_val (Prefix_Addr p) + 2 + (i + 1)) by lia.
    fold (pool_at p (i + 1)).
    rewrite (proj2 (Contains_pool p (i + 1) Hr ltac:(lia))) by (unfold pool_size; lia). cbn.
    rewrite Z.mod_small by (unfold pool_size; lia). done.
Qed.

(** *** The store *)

Section StoreTheorems.
Context {S : Type} `{FakeIPStorageLaws S}.

(** Under the lock a miss is looked up again, so the part under the lock is all of [Create]. *)
Lemma Create_locked_eq domain six st (s : Store S) :
  storage s = Some st → Create_locked domain six st s = Store_Create domain six s.
Proof.
  intros Hst. unfold Store_Create. rewrite Hst.
  destruct (fs_LoadDomain st domain six) eqn:E; [|done]. unfold Create_locked. by rewrite E.
Qed.

(** Goroutines that create addresses at the same time get the answers, and leave the store, of
    the same requests made one after the other, in the order they were answered. *)
Theorem Create_linearizable (s s' : Store S) pending answers :
  CreateRun (s, []) answers (s', pending) → create_all (fst <$> answers) s = (answers, s').
Proof.
  generalize (@nil (string * bool)) as pending0. intros pending0 Hrun.
  remember (s, pending0) as x eqn:Hx. remember (s', pending) as y eqn:Hy.
  revert s pending0 Hx. induction Hrun as [x|x y z l Hstep _ IH|x y z a l Hstep _ IH];
    intros s0 p0 ->.
  - by simplify_eq.
  - inversion Hstep; simplify_eq. eapply IH; [done|reflexivity].
  - inversion Hstep as [? st ? d six addr Hst Hl| |? st bf af d six r s1 Hst Hc]; simplify_eq/=.
    + unfold Store_Create. rewrite Hst, Hl. by rewrite (IH eq_refl _ _ eq_refl).
    + rewrite (Create_locked_eq _ _ _ _ Hst) in Hc. rewrite Hc.
      by rewrite (IH eq_refl _ _ eq_refl).
Qed.

(** Each pair that can be found by its domain can be found by its address, which is of its family
    and contained in a range. *)
Definition pairs_ok (s : Store S) (st : S) : Prop :=
  ∀ d six a, fs_LoadDomain st d six = Some a →
    fs_Load st a = Some d ∧ Addr_Is4 a = negb six ∧ Store_Contains s a = true.

Lemma Store_pairs_ok s a d st :
  Store_Contains s a = true → pairs_ok s st → pairs_ok s (fs_Store a d st).2.
Proof.
  intros Ha Hok d' six b. rewrite fs_Store_LoadDomain, fs_Store_Load.
  destruct (Bool.eqb_spec six (negb (Addr_Is4 a))) as [->|Hfam].
  - destruct (decide (d' = d)) as [->|Hd].
    + intros [= <-]. rewrite decide_True by done. by rewrite negb_involutive.
    + destruct (decide (fs_Load st a = Some d')) as [|Hne]; [done|]. intros Hb%Hok.
      destruct (decide (b = a)) as [->|]; [naive_solver|done].
  - intros Hb%Hok. destruct (decide (b = a)) as [->|]; [|done]. destruct Hb as (_ & Hb & _).
    rewrite Hb, negb_involutive in Hfam. done.
Qed.

(** The family has no range, or its current address is in the pool of a range of that family. *)
Definition family_ok (range : Prefix) (six : bool) (current : Addr) : Prop :=
  current = AddrInvalid ∨
  range_ok range ∧ Addr_Is4 (Prefix_Addr range) = negb six ∧
  ∃ i, 0 <= i < pool_size range ∧ current = pool_at range i.

(** A started store. *)
Definition store_ok (s : Store S) : Prop :=
  (∃ st, storage s = Some st ∧ pairs_ok s st) ∧
  family_ok (inet4Range s) false (inet4Current s) ∧
  family_ok (inet6Range s) true (inet6Current s).

Lemma next_address_ok range six current :
  family_ok range six current → Addr_IsValid current = true →
  let a := next_address range current in
  family_ok range six a ∧ Prefix_Contains range a = true ∧ Addr_Is4 a = negb six.
Proof.
  intros [->|(Hr & Hf & i & Hi & ->)] Hv; [done|]. cbn.
  rewrite next_address_pool by done.
  pose proof (Z.mod_pos_bound (i + 1) (pool_size range) ltac:(lia)).
  split; [right; eauto|]. split; [apply Contains_pool; [done|lia|lia]|].
  rewrite <-Hf. unfold pool_at. by destruct (Prefix_Addr range).
Qed.

(** The state after a new address is handed out. *)
Definition store_with (s : Store S) (six : bool) (a : Addr) (st : S) : Store S :=
  mkStore (inet4Range s) (inet6Range s) (Some st) (if six then inet4Current s else a)
    (if six then a else inet6Current s).

(** What [Create] does: it finds the pair, has no range, or hands out the next address. *)
Lemma Store_Create_cases domain six (s : Store S) st r s' :
  storage s = Some st → Store_Create domain six s = (r, s') →
  (∃ a, fs_LoadDomain st domain six = Some a ∧ r = Ok a ∧ s' = s) ∨
  fs_LoadDomain st domain six = None ∧
    let current := if six then inet6Current s else inet4Current s in
    if Addr_IsValid current then
      let a := next_address (if six then inet6Range s else inet4Range s) current in
      r = Ok a ∧ ∃ m, s' = store_with s six a (fs_SaveMetadataAsync m (fs_Store a domain st).2)
    else s' = s ∧ ∃ e, r = Err e.
Proof.
  intros Hst. unfold Store_Create. rewrite Hst.
  destruct (fs_LoadDomain st domain six) as [a|] eqn:E; [intros [= <- <-]; eauto|].
  unfold Create_locked. rewrite E. intros Hc. right. split; [done|]. cbn.
  destruct (Addr_IsValid (if six then inet6Current s else inet4Current s)) eqn:Ev; cbn in Hc;
    [|by simplify_eq; eauto].
  destruct six; simplify_eq/=; eauto.
Qed.

Lemma store_with_ok (s : Store S) (six : bool) st a m d :
  store_ok s → storage s = Some st →
  let range := if six then inet6Range s else inet4Range s in
  family_ok range six a → Prefix_Contains range a = true →
  store_ok (store_with s six a (fs_SaveMetadataAsync m (fs_Store a d st).2)).
Proof.
  intros [(st' & Hst' & Hp) [H4 H6]] Hst range Hf Hc. rewrite Hst in Hst'. injection Hst' as <-.
  assert (Store_Contains s a = true) as Ha.
  { unfold Store_Contains. unfold range in Hc. destruct six; rewrite Hc; [apply orb_true_r|done]. }
  split; [|by destruct six].
  eexists. split; [done|]. intros d' six' b. rewrite fs_Save_LoadDomain, fs_Save_Load.
  apply (Store_pairs_ok s a d st Ha Hp).
Qed.

Lemma Store_Create_spec domain six (s s' : Store S) a :
  store_ok s → Store_Create domain six s = (Ok a, s') →
  store_ok s' ∧ Addr_Is4 a = negb six ∧ Store_Contains s' a = true ∧
  Store_Lookup s' a = Ok (Some domain) ∧ Store_Create domain six s' = (Ok a, s') ∧
  ∀ b, b ≠ a → Store_Lookup s' b = Store_Lookup s b.
Proof.
  intros Hok Hc. pose proof Hok as [(st & Hst & Hp) [H4 H6]].
  destruct (Store_Create_cases _ _ _ _ _ _ Hst Hc) as [(a' & Hl & [= <-] & ->)|[Hl Hn]].
  - destruct (Hp _ _ _ Hl) as (? & ? & ?). unfold Store_Lookup. rewrite Hst.
    split_and!; try done. by f_equal.
  - cbn in Hn. destruct (Addr_IsValid _) eqn:Hv; [|by destruct Hn as [_ [e ?]]].
    destruct Hn as [[= ->] [m ->]].
    set (range := if six then inet6Range s else inet4Range s) in *.
    set (current := if six then inet6Current s else inet4Current s) in *.
    assert (family_ok range six current) as Hf by (by destruct six).
    destruct (next_address_ok range six current Hf Hv) as (Hf' & Hc' & Hf4).
    set (a := next_address range current) in *. clearbody a.
    assert (Store_Lookup (store_with s six a (fs_SaveMetadataAsync m (fs_Store a domain st).2)) a
      = Ok (Some domain)) as Hlook.
    { unfold Store_Lookup. cbn. by rewrite fs_Save_Load, fs_Store_Load, decide_True. }
    split; [by apply store_with_ok|]. split; [done|]. split.
    { unfold Store_Contains. cbn. unfold range in Hc'.
      destruct six; rewrite Hc'; [apply orb_true_r|done]. }
    split; [done|]. split.
    { unfold Store_Create. cbn. rewrite fs_Save_LoadDomain, fs_Store_LoadDomain.
      by rewrite Hf4, negb_involutive, Bool.eqb_reflx, decide_True by done. }
    intros b Hb. unfold Store_Lookup. rewrite Hst. cbn.
    by rewrite fs_Save_Load, fs_Store_Load, decide_False.
Qed.

(** C6: creating an address for a domain keeps the store consistent and answers with an address of
    the right family that the store contains and looks up as the domain; the domain gets the same
    one when it asks again; and every other address still stands for the domain it stood for. *)
Theorem Store_Create_lookup domain six (s s' : Store S) a :
  store_ok s → Store_Create domain six s = (Ok a, s') →
  store_ok s' ∧ Addr_Is4 a = negb six ∧ Store_Contains s' a = true ∧
  Store_Lookup s' a = Ok (Some domain) ∧ Store_Create domain six s' = (Ok a, s') ∧
  ∀ b, b ≠ a → Store_Lookup s' b = Store_Lookup s b.
Proof. exact (Store_Create_spec domain six s s' a). Qed.

(** The state while [done] domains have been given the first addresses of the pool in turn. *)
Definition allocated (range : Prefix) (dones : list string) (s : Store S) : Prop :=
  inet4Range s = range ∧
  inet4Current s = pool_at range (Z.of_nat (length dones) mod pool_size range) ∧
  ∃ st, storage s = Some st ∧
    (∀ d, fs_LoadDomain st d false ≠ None → d ∈ dones) ∧
    ∀ i d, dones !! i = Some d →
      fs_Load st (pool_at range ((Z.of_nat i + 1) mod pool_size range)) = Some d.

Lemma pool_mod_ne range i n :
  Addr_IsValid (Prefix_Addr range) = true → (i < n)%nat → Z.of_nat n < pool_size range →
  pool_at range ((Z.of_nat i + 1) mod pool_size range)
  ≠ pool_at range ((Z.of_nat n + 1) mod pool_size range).
Proof.
  intros Hv Hi Hn Heq%pool_at_inj; [|done].
  pose proof (Z.div_mod (Z.of_nat i + 1) (pool_size range) ltac:(lia)).
  pose proof (Z.div_mod (Z.of_nat n + 1) (pool_size range) ltac:(lia)).
  pose proof (Z.mod_pos_bound (Z.of_nat n + 1) (pool_size range) ltac:(lia)).
  rewrite Heq in *.
  assert ((Z.of_nat n + 1) / pool_size range = (Z.of_nat i + 1) / pool_size range ∨
    (Z.of_nat n + 1) / pool_size range > (Z.of_nat i + 1) / pool_size range ∨
    (Z.of_nat n + 1) / pool_size range < (Z.of_nat i + 1) / pool_size range) by lia. nia.
Qed.

Lemma allocated_step range dones d (s : Store S) :
  range_ok range → Addr_Is4 (Prefix_Addr range) = true →
  allocated range dones s → d ∉ dones → Z.of_nat (length dones) < pool_size range →
  let a := pool_at range ((Z.of_nat (length dones) + 1) mod pool_size range) in
  ∃ s', Store_Create d false s = (Ok a, s') ∧ allocated range (dones ++ [d]) s'.
Proof.
  intros Hr H4 (Hrange & Hcur & st & Hst & Hdom & Hload) Hd Hlen a.
  destruct (range_valid range Hr) as [Hv _].
  destruct (Store_Create d false s) as [r s'] eqn:Hc.
  destruct (Store_Create_cases _ _ _ _ _ _ Hst Hc) as [(a' & Hl & _)|[Hl Hn]].
  { destruct Hd. apply Hdom. by rewrite Hl. }
  cbn in Hn. rewrite Hrange, Hcur in Hn.
  pose proof (Z.mod_pos_bound (Z.of_nat (length dones)) (pool_size range) ltac:(lia)) as Hm.
  replace (Addr_IsValid _) with true in Hn by (unfold pool_at; by destruct (Prefix_Addr range)).
  rewrite next_address_pool, Z.add_mod_idemp_l in Hn by (done || lia). fold a in Hn.
  destruct Hn as [-> [m ->]]. eexists. split; [done|].
  split; [done|]. split.
  { cbn. rewrite length_app. cbn. unfold a. do 2 f_equal. lia. }
  eexists. split; [done|]. split.
  - intros d'. rewrite fs_Save_LoadDomain, fs_Store_LoadDomain.
    intros Hl'. apply elem_of_app. destruct (decide (d' = d)) as [->|Hne].
    { right. by apply list_elem_of_singleton. } left. apply Hdom.
    by repeat case_match.
  - intros i d' Hi. rewrite fs_Save_Load, fs_Store_Load.
    apply lookup_app_Some in Hi as [Hi|[Hge Hi]].
    + rewrite decide_False; [by apply Hload|]. apply pool_mod_ne; [done| |done].
      by apply lookup_lt_Some in Hi.
    + assert (i = length dones) as ->.
      { destruct (i - length dones)%nat eqn:E; [lia|done]. }
      rewrite Nat.sub_diag in Hi. cbn in Hi. injection Hi as ->. by rewrite decide_True.
Qed.

Lemma allocated_all range ds dones (s : Store S) :
  range_ok range → Addr_Is4 (Prefix_Addr range) = true →
  allocated range dones s → NoDup (dones ++ ds) →
  Z.of_nat (length (dones ++ ds)) <= pool_size range →
  allocated range (dones ++ ds) (create_all ((λ d, (d, false)) <$> ds) s).2 ∧
  ∀ i d, ds !! i = Some d →
    (create_all ((λ d, (d, false)) <$> ds) s).1 !! i =
      Some (d, false, Ok (pool_at range ((Z.of_nat (length dones + i) + 1) mod pool_size range))).
Proof.
  intros Hr H4. revert dones s. induction ds as [|d ds IH]; intros dones s Ha Hnd Hlen.
  { rewrite app_nil_r. split; [done|]. by intros i ? ?. }
  rewrite length_app in Hlen. cbn in Hlen.
  destruct (allocated_step range dones d s Hr H4 Ha) as (s' & Hc & Ha').
  { apply list.NoDup_app in Hnd as (_ & Hnd & _). intros Hd. apply (Hnd d Hd). apply list_elem_of_here. }
  { lia. }
  cbn. rewrite Hc.
  destruct (IH (dones ++ [d]) s' Ha') as [IH1 IH2].
  { by rewrite <-app_assoc. } { rewrite <-app_assoc, length_app. cbn. lia. }
  rewrite <-app_assoc in IH1. cbn in IH1.
  destruct (create_all ((λ d, (d, false)) <$> ds) s') as [l s2]; cbn in *.
  split; [done|]. intros [|i] d' Hi; cbn in Hi.
  - injection Hi as ->. cbn. by rewrite Nat.add_0_r.
  - etrans; [exact (IH2 i d' Hi)|]. rewrite length_app. cbn. do 6 f_equal. lia.
Qed.

(** A store that starts empty gives as many different domains as its IPv4 pool has addresses
    (the range from its third address on) addresses that all still stand for their domain at the
    end: no address is taken from a domain before the pool is used up. *)
Theorem Store_no_early_eviction (st : S) range range6 ds :
  range_ok range → Addr_Is4 (Prefix_Addr range) = true →
  (∀ d, fs_LoadDomain (fs_Reset st).2 d false = None) → (fs_Metadata st) = (None, st) →
  NoDup ds → Z.of_nat (length ds) <= pool_size range → 0 < pool_size range →
  let '(answers, s) := create_all ((λ d, (d, false)) <$> ds) (Store_Start st (NewStore range range6)) in
  ∀ i d, ds !! i = Some d → ∃ a,
    answers !! i = Some (d, false, Ok a) ∧ Store_Contains s a = true ∧ Store_Lookup s a = Ok (Some d).
Proof.
  intros Hr H4 Hempty Hmeta Hnd Hlen Hpos. destruct (range_end range Hr) as (_ & _ & Hend).
  assert (allocated range [] (Store_Start st (NewStore range range6))) as Ha.
  { unfold Store_Start. rewrite Hmeta. split; [done|]. split.
    - cbn. destruct Hr as [? Hv]. rewrite Hv, third_address; [|by split|unfold pool_size in Hpos; lia].
      by rewrite Z.mod_0_l by lia.
    - eexists. split; [done|]. split; [intros d Hd; by destruct Hd|done]. }
  destruct (allocated_all range ds [] _ Hr H4 Ha Hnd Hlen) as [(Hrg & _ & st' & Hst & _ & Hload) Hans].
  destruct (create_all _ _) as [answers s]; cbn in *.
  intros i d Hi. eexists. split; [by apply Hans|]. split.
  - pose proof (Z.mod_pos_bound (Z.of_nat i + 1) (pool_size range) Hpos) as Hm.
    unfold Store_Contains. rewrite Hrg. apply orb_true_iff. left. apply Contains_pool; [done|lia|lia].
  - unfold Store_Lookup. rewrite Hst. by rewrite (Hload i d Hi).
Qed.

(** An IPv4 range with at most two addresses (a [/31] or [/32], or one written with one of its
    last two addresses) hands out an address after its end: the store does not contain it, so a
    connection to it is not taken for a fake IP; and all domains get that same address. *)
Theorem small_range_outside (st : S) range range6 d :
  range_ok range → Addr_Is4 (Prefix_Addr range) = true → Addr_Is4 (Prefix_Addr range6) = false →
  Addr_val (Prefix_Addr range) + 3 < 2 ^ 32 → pool_size range <= 0 →
  fs_LoadDomain (fs_Reset st).2 d false = None → (fs_Metadata st) = (None, st) →
  let '(r, s) := Store_Create d false (Store_Start st (NewStore range range6)) in
  r = Ok (pool_at range 0) ∧ Store_Contains s (pool_at range 0) = false ∧
  inet4Current s = pool_at range 0.
Proof.
  intros Hr H4 H6 Hv Hpool Hempty Hmeta.
  destruct (range_valid range Hr) as [Hval Hwf]. destruct (range_end range Hr) as (Hs & HA & _).
  assert (0 <= Addr_val (Prefix_Addr range)) by (destruct (Prefix_Addr range); cbn in *; unfold is_u in *; lia).
  assert (Addr_BitLen (Prefix_Addr range) = 32) as HL by (by destruct (Prefix_Addr range)).
  assert (∀ i, 0 <= i → Prefix_Contains range (pool_at range i) = false) as Hout.
  { intros i Hi. apply not_true_iff_false. rewrite Contains_pool by done. lia. }
  assert (Addr_Next (Addr_Next (Prefix_Addr range)) = pool_at range 0) as H3
    by (apply third_address; [done|rewrite HL; lia]).
  assert (next_address range (pool_at range 0) = pool_at range 0) as Hnext.
  { unfold next_address. unfold pool_at at 1 2.
    rewrite Next_withVal by (done || apply withVal_wf; rewrite HL; lia).
    rewrite HL, (proj2 (Z.eqb_neq _ _)) by lia.
    replace (Addr_withVal _ _) with (pool_at range 1) by (unfold pool_at; f_equal; lia).
    by rewrite (Hout 1 ltac:(lia)). }
  unfold Store_Start. rewrite Hmeta. cbn -[Store_Create]. destruct Hr as [Hrw Hrv].
  rewrite Hrv, H3.
  match goal with |- context [Store_Create d false ?x] => set (s0 := x) end.
  destruct (Store_Create d false s0) as [r s] eqn:Hc.
  pose proof (Store_Create_cases d false s0 (fs_Reset st).2 r s eq_refl Hc) as Hcases.
  destruct Hcases as [(a & Ha & _)|[_ Hc']]; [by rewrite Hempty in Ha|]. clear Hc. rename Hc' into Hc.
  cbn in Hc. replace (Addr_IsValid (pool_at range 0)) with true in Hc
    by (unfold pool_at; by destruct (Prefix_Addr range)).
  rewrite Hnext in Hc. destruct Hc as [-> [m ->]]. split; [done|]. split; [|done].
  unfold Store_Contains. cbn. rewrite (Hout 0 ltac:(lia)). cbn.
  unfold Prefix_Contains. destruct (_ || _); [done|].
  destruct (Prefix_Addr range6) eqn:E6; [done|done|].
  unfold pool_at. by destruct (Prefix_Addr range).
Qed.

End StoreTheorems.

(** *** The metadata *)

Lemma Addr_roundtrip a : Addr_wf a → Addr_UnmarshalBinary (Addr_MarshalBinary a) = Ok a.
Proof.
  destruct a as [|v|v z]; intros Hwf; [done| |].
  - unfold Addr_UnmarshalBinary, Addr_MarshalBinary. rewrite be_bytes_length. cbn -[be_val be_bytes].
    by rewrite be_roundtrip.
  - unfold Addr_UnmarshalBinary, Addr_MarshalBinary. rewrite length_app, be_bytes_length.
    cbn -[be_val be_bytes]. rewrite take_app_length', drop_app_length' by (by rewrite be_bytes_length).
    unfold zone_bytes. rewrite be_roundtrip by done.
    by rewrite String.string_of_list_byte_of_string.
Qed.

(** A prefix as [PrefixFrom] makes it. *)
Definition prefix_made (p : Prefix) : Prop := ∃ a b, Addr_wf a ∧ b < 255 ∧ p = PrefixFrom a b.

Lemma Prefix_roundtrip p : prefix_made p → Prefix_UnmarshalBinary (Prefix_MarshalBinary p) = Ok p.
Proof.
  intros (a & b & Hwf & Hb & ->). unfold Prefix_UnmarshalBinary, Prefix_MarshalBinary.
  rewrite length_app. cbn [length]. rewrite Nat.add_sub, lookup_app_r, Nat.sub_diag by lia.
  cbn [lookup list_lookup]. rewrite take_app_length. cbn [Prefix_Addr PrefixFrom Prefix_Bits].
  assert (Addr_withoutZone (Addr_withoutZone a) = Addr_withoutZone a) as Hzz by (by destruct a).
  rewrite Hzz, Addr_roundtrip by (by destruct a).
  cbn. unfold PrefixFrom. rewrite Hzz. f_equal. f_equal.
  assert (Addr_IsValid (Addr_withoutZone a) = Addr_IsValid a ∧
    Addr_BitLen (Addr_withoutZone a) = Addr_BitLen a ∧ Addr_BitLen a <= 128) as (-> & -> & HL)
    by (by destruct a).
  rewrite byte_Z_Z_byte. unfold u8, wrap.
  destruct (Addr_IsValid a && Z.leb 0 b && Z.leb b (Addr_BitLen a))%bool eqn:E.
  - apply andb_true_iff in E as [[Hv ?%Z.leb_le]%andb_true_iff ?%Z.leb_le].
    change (2 ^ 8) with 256. rewrite Z.mod_small by lia. by rewrite Hv, !(proj2 (Z.leb_le _ _)) by lia.
  - change (-1 mod 2 ^ 8) with 255. rewrite (proj2 (Z.leb_gt 255 (Addr_BitLen a))) by lia.
    by rewrite andb_false_r.
Qed.

Lemma unmarshal_marshal {A} (f : list byte → res A) data rest a :
  f data = Ok a → Z.of_nat (length data) < 65536 →
  unmarshal_element f (marshal_element data ++ rest) = Ok (a, rest).
Proof.
  intros Hf Hlen. unfold marshal_element, unmarshal_element. rewrite <-app_assoc.
  assert (be_val (be_bytes 2 (u16 (Z.of_nat (length data)))) = Z.of_nat (length data)) as Hb.
  { unfold u16, wrap. change (2 ^ 16) with 65536. rewrite Z.mod_small by lia. apply be_roundtrip. change (256 ^ _) with 65536. lia. }
  destruct (be_bytes 2 _) as [|h [|l [|]]] eqn:E; try done. cbn [app]. rewrite Hb, Nat2Z.id.
  rewrite take_app_length, drop_app_length, Nat.ltb_irrefl, Hf. done.
Qed.

Definition metadata_wf (m : FakeIPMetadata) : Prop :=
  prefix_made (Inet4Range m) ∧ prefix_made (Inet6Range m) ∧
  Addr_wf (Inet4Current m) ∧ Addr_wf (Inet6Current m) ∧
  Z.of_nat (length (Addr_MarshalBinary (Inet4Current m))) < 65536 ∧
  Z.of_nat (length (Addr_MarshalBinary (Inet6Current m))) < 65536.

Lemma Prefix_MarshalBinary_length p : (length (Prefix_MarshalBinary p) <= 17)%nat.
Proof.
  unfold Prefix_MarshalBinary. rewrite length_app. destruct (Prefix_Addr p); cbn; lia.
Qed.

(** The metadata of a store survives being written and read back. *)
Theorem FakeIPMetadata_roundtrip m :
  metadata_wf m → UnmarshalBinary (MarshalBinary m) = Ok m.
Proof.
  intros (H4 & H6 & Hc4 & Hc6 & Hl4 & Hl6). unfold UnmarshalBinary, MarshalBinary.
  cbn [fmap list_fmap concat].
  pose proof (Prefix_MarshalBinary_length (Inet4Range m)).
  pose proof (Prefix_MarshalBinary_length (Inet6Range m)).
  apply bind_Ok. eexists. split; [apply unmarshal_marshal; [by apply Prefix_roundtrip|lia]|].
  apply bind_Ok. eexists. split; [apply unmarshal_marshal; [by apply Prefix_roundtrip|lia]|].
  apply bind_Ok. eexists. split; [apply unmarshal_marshal; [by apply Addr_roundtrip|lia]|].
  apply bind_Ok. eexists. split; [apply unmarshal_marshal; [by apply Addr_roundtrip|lia]|].
  by destruct m.
Qed.

(** ** Concrete stores *)

Definition sample_range4 : Prefix := PrefixFrom (Addr4 0xC6120000) 15.
Definition sample_range6 : Prefix := PrefixFrom (Addr6 (0xFC00 * 2 ^ 112) "") 18.

Definition sample_store : Store MemoryStorage :=
  Store_Start NewMemoryStorage (NewStore sample_range4 sample_range6).

Lemma range_ok_dec p :
  is_u (Addr_BitLen (Prefix_Addr p)) (Addr_val (Prefix_Addr p)) →
  Addr_hasZone (Prefix_Addr p) = false → Prefix_IsValid p = true →
  Prefix_Bits p <= Addr_BitLen (Prefix_Addr p) → range_ok p.
Proof. intros. split; [|done]. split; [|done]. by destruct (Prefix_Addr p). Qed.

Lemma sample_range4_ok : range_ok sample_range4.
Proof. apply range_ok_dec; vm_compute; try split; done. Qed.

Lemma sample_range6_ok : range_ok sample_range6.
Proof. apply range_ok_dec; vm_compute; try split; done. Qed.

Lemma sample_store_ok : store_ok sample_store.
Proof.
  split; [|split].
  - exists NewMemoryStorage. split; [done|]. intros d [] a; cbn; by rewrite lookup_empty.
  - right. split; [apply sample_range4_ok|]. split; [done|]. exists 0. by vm_compute.
  - right. split; [apply sample_range6_ok|]. split; [done|]. exists 0. by vm_compute.
Qed.

Lemma Create_linearizable_witness :
  let s1 := (Store_Create "a.test" false sample_store).2 in
  create_all [("a.test"%string, false); ("a.test"%string, false)] sample_store =
  ([("a.test"%string, false, Ok (Addr4 0xC6120003)); ("a.test"%string, false, Ok (Addr4 0xC6120003))],
   s1).
Proof.
  intros s1.
  refine (Create_linearizable sample_store s1 []
    [("a.test"%string, false, Ok (Addr4 0xC6120003)); ("a.test"%string, false, Ok (Addr4 0xC6120003))] _).
  eapply Run_silent; [apply (Step_fast_miss sample_store NewMemoryStorage [] "a.test" false);
    [reflexivity|vm_compute; reflexivity]|].
  eapply Run_silent; [apply (Step_fast_miss sample_store NewMemoryStorage
    [("a.test"%string, false)] "a.test" false); [reflexivity|vm_compute; reflexivity]|].
  eapply Run_answer.
  { apply (Step_locked sample_store NewMemoryStorage [] [("a.test"%string, false)] "a.test" false
      (Ok (Addr4 0xC6120003)) s1); [reflexivity|vm_compute; reflexivity]. }
  eapply Run_answer; [|apply Run_nil].
  apply (Step_locked s1 (default NewMemoryStorage (storage s1)) [] [] "a.test" false
      (Ok (Addr4 0xC6120003)) s1); [reflexivity|vm_compute; reflexivity].
Defined.

Lemma Store_Create_lookup_witness :
  let '(r, s') := Store_Create "a.test" false sample_store in
  r = Ok (Addr4 0xC6120003) ∧ Store_Lookup s' (Addr4 0xC6120003) = Ok (Some "a.test"%string) ∧
  store_ok s'.
Proof.
  destruct (Store_Create _ _ _) as [r s'] eqn:E.
  assert (r = Ok (Addr4 0xC6120003)) as ->.
  { apply (f_equal fst) in E. vm_compute in E. by rewrite <-E. }
  destruct (Store_Create_lookup "a.test" false sample_store s' _ sample_store_ok E)
    as (? & _ & _ & ? & _). done.
Defined.

Lemma Store_no_early_eviction_witness :
  let ds := ["a.test"; "b.test"; "c.test"]%string in
  let '(answers, s) := create_all ((λ d, (d, false)) <$> ds) sample_store in
  ∀ i d, ds !! i = Some d → ∃ a,
    answers !! i = Some (d, false, Ok a) ∧ Store_Contains s a = true ∧ Store_Lookup s a = Ok (Some d).
Proof.
  apply (Store_no_early_eviction NewMemoryStorage sample_range4 sample_range6).
  - apply sample_range4_ok.
  - done.
  - intros d. apply lookup_empty.
  - done.
  - apply NoDup_ListNoDup. repeat constructor; cbn; intuition congruence.
  - by vm_compute.
  - by vm_compute.
Defined.

Lemma small_range_outside_witness :
  let range := PrefixFrom (Addr4 0xC6120000) 32 in
  let '(r, s) := Store_Create "a.test" false (Store_Start NewMemoryStorage
                   (NewStore range Prefix_zero)) in
  r = Ok (pool_at range 0) ∧ Store_Contains s (pool_at range 0) = false ∧
  inet4Current s = pool_at range 0.
Proof.
  apply (small_range_outside NewMemoryStorage (PrefixFrom (Addr4 0xC6120000) 32) Prefix_zero "a.test").
  - apply range_ok_dec; vm_compute; try split; done.
  - done.
  - done.
  - by vm_compute.
  - by vm_compute.
  - done.
  - done.
Defined.

Lemma FakeIPMetadata_roundtrip_witness :
  UnmarshalBinary (MarshalBinary (Store_metadata sample_store)) = Ok (Store_metadata sample_store).
Proof.
  apply FakeIPMetadata_roundtrip. split; [|split; [|split_and!]].
  - exists (Addr4 0xC6120000), 15. split; [by vm_compute|]. by split.
  - exists (Addr6 (0xFC00 * 2 ^ 112) ""), 18. split; [by vm_compute|]. by split.
  - by vm_compute.
  - by vm_compute.
  - by vm_compute.
  - by vm_compute.
Defined.
