(* ===== verification/Bbolt.v ===== *)
(** * The database of the cache file (github.com/sagernet/bbolt)

    A third-party package: a class with its operations inside a transaction, named as in bbolt, and a
    class with what its documentation promises of them.  The last section is a database in memory
    that keeps the promises, for the examples. *)

From stdpp Require Import base gmap strings list numbers.
From S2P Require Import Prelude GoStd Netip.

Local Open Scope Z_scope.

Abbreviation key := (list byte).

Definition MaxKeySize : Z := 32768.
Definition MaxValueSize : Z := 2 ^ 31 - 2.

(** A key that can be put, or name a bucket. *)
Definition good_key (k : key) : Prop := k ≠ [] ∧ Z.of_nat (length k) ≤ MaxKeySize.

(** The state of the file inside a transaction.  A bucket is named by the path of keys to it, the
    root by the empty path. *)
Class Bbolt := {
  DB : Type;
  has_bucket : list key → DB → bool;
  bucket_names : list key → DB → list key;
  bb_Get : list key → key → DB → option (list byte);
  bb_CreateBucketIfNotExists : list key → key → DB → res () * DB;
  bb_Put : list key → key → list byte → DB → res () * DB;
  bb_Delete : list key → key → DB → res () * DB;
  bb_DeleteBucket : list key → key → DB → res () * DB;
  bb_Commit : DB → option error;
  bb_Open_new : option DB
}.

(** What the documentation says of the operations that succeed, and when they do. *)
Class BboltLaws `{Bbolt} := {
  root_bucket : ∀ db, has_bucket [] db = true;
  root_values : ∀ k db, bb_Get [] k db = None;
  names_elem : ∀ p k db, k ∈ bucket_names p db ↔ has_bucket (p ++ [k]) db = true;
  Get_bucket : ∀ p k v db, bb_Get p k db = Some v → has_bucket p db = true ∧ has_bucket (p ++ [k]) db = false;
  bucket_parent : ∀ p k db, has_bucket (p ++ [k]) db = true → has_bucket p db = true;
  new_bucket : ∀ p db, bb_Open_new = Some db → has_bucket p db = bool_decide (p = []);

  Create_frame : ∀ p k db db', bb_CreateBucketIfNotExists p k db = (Ok tt, db') →
    (∀ q, has_bucket q db' = has_bucket q db || bool_decide (q = p ++ [k])) ∧
    ∀ q k', bb_Get q k' db' = bb_Get q k' db;
  Create_ok : ∀ p k db, has_bucket p db = true → good_key k → bb_Get p k db = None →
    (bb_CreateBucketIfNotExists p k db).1 = Ok tt;

  Put_frame : ∀ p k v db db', bb_Put p k v db = (Ok tt, db') →
    (∀ q, has_bucket q db' = has_bucket q db) ∧
    ∀ q k', bb_Get q k' db' = if decide (q = p ∧ k' = k) then Some v else bb_Get q k' db;
  Put_ok : ∀ p k v db, has_bucket p db = true → has_bucket (p ++ [k]) db = false →
    good_key k → p ≠ [] → Z.of_nat (length v) ≤ MaxValueSize → (bb_Put p k v db).1 = Ok tt;

  Delete_frame : ∀ p k db db', bb_Delete p k db = (Ok tt, db') →
    (∀ q, has_bucket q db' = has_bucket q db) ∧
    ∀ q k', bb_Get q k' db' = if decide (q = p ∧ k' = k) then None else bb_Get q k' db;
  Delete_ok : ∀ p k db, has_bucket p db = true → has_bucket (p ++ [k]) db = false →
    (bb_Delete p k db).1 = Ok tt;

  DeleteBucket_frame : ∀ p k db db', bb_DeleteBucket p k db = (Ok tt, db') →
    (∀ q, has_bucket q db' = has_bucket q db && negb (bool_decide ((p ++ [k]) `prefix_of` q))) ∧
    ∀ q k', bb_Get q k' db' = if decide ((p ++ [k]) `prefix_of` q) then None else bb_Get q k' db;
  DeleteBucket_ok : ∀ p k db, has_bucket (p ++ [k]) db = true → (bb_DeleteBucket p k db).1 = Ok tt;
  DeleteBucket_missing : ∀ p k db, has_bucket (p ++ [k]) db = false →
    ∃ e, bb_DeleteBucket p k db = (Err e, db);

  Create_safe : ∀ p k db, is_panic (bb_CreateBucketIfNotExists p k db).1 = false;
  Put_safe : ∀ p k v db, is_panic (bb_Put p k v db).1 = false;
  Delete_safe : ∀ p k db, is_panic (bb_Delete p k db).1 = false
}.

(** The function of a transaction. *)
Definition Tx `{Bbolt} (A : Type) : Type := DB → res A * DB.

Section Tx.
Context `{Bbolt}.
#[global] Instance Tx_ret : MRet Tx := λ A a db, (Ok a, db).
#[global] Instance Tx_bind : MBind Tx := λ A B k t db,
  match t db with
  | (Ok a, db) => k a db
  | (Err e, db) => (Err e, db)
  | (Panic p, db) => (Panic p, db)
  end.
Definition tx_res {A} (r : res A) : Tx A := λ db, (r, db).
Definition tx_read {A} (f : DB → A) : Tx A := λ db, (Ok (f db), db).

Definition sub_bucket (p : list key) (k : key) (db : DB) : option (list key) :=
  if has_bucket (p ++ [k]) db then Some (p ++ [k]) else None.

Definition create_bucket (p : list key) (k : key) : Tx (list key) :=
  _ ← bb_CreateBucketIfNotExists p k; mret (p ++ [k]).

End Tx.

(** ** Operations that succeed *)

Section BboltTheorems.
Context `{BboltLaws}.

Lemma tx_bind_ok {A B} (t : Tx A) (k : A → Tx B) db a db' :
  t db = (Ok a, db') → (t ≫= k) db = k a db'.
Proof. unfold mbind, Tx_bind. by intros ->. Qed.

Lemma create_ok p k db :
  has_bucket p db = true → good_key k → bb_Get p k db = None →
  ∃ db', create_bucket p k db = (Ok (p ++ [k]), db') ∧
    (∀ q, has_bucket q db' = has_bucket q db || bool_decide (q = p ++ [k])) ∧
    (∀ q k', bb_Get q k' db' = bb_Get q k' db).
Proof.
  intros Hp Hk Hg. pose proof (Create_ok p k db Hp Hk Hg) as Hok.
  destruct (bb_CreateBucketIfNotExists p k db) as [r db'] eqn:E. cbn in Hok. subst r.
  exists db'. split; [|by apply Create_frame].
  unfold create_bucket. by rewrite (tx_bind_ok _ _ _ _ _ E).
Qed.

Lemma put_ok p k v db :
  has_bucket p db = true → has_bucket (p ++ [k]) db = false → good_key k →
  p ≠ [] → Z.of_nat (length v) ≤ MaxValueSize →
  ∃ db', bb_Put p k v db = (Ok tt, db') ∧ (∀ q, has_bucket q db' = has_bucket q db) ∧
    (∀ q k', bb_Get q k' db' = if decide (q = p ∧ k' = k) then Some v else bb_Get q k' db).
Proof.
  intros Hp Hn Hk Hr Hv. pose proof (Put_ok p k v db Hp Hn Hk Hr Hv) as Hok.
  destruct (bb_Put p k v db) as [r db'] eqn:E. cbn in Hok. subst r.
  exists db'. split; [done|]. by apply Put_frame.
Qed.

Lemma delete_ok p k db :
  has_bucket p db = true → has_bucket (p ++ [k]) db = false →
  ∃ db', bb_Delete p k db = (Ok tt, db') ∧ (∀ q, has_bucket q db' = has_bucket q db) ∧
    (∀ q k', bb_Get q k' db' = if decide (q = p ∧ k' = k) then None else bb_Get q k' db).
Proof.
  intros Hp Hn. pose proof (Delete_ok p k db Hp Hn) as Hok.
  destruct (bb_Delete p k db) as [r db'] eqn:E. cbn in Hok. subst r.
  exists db'. split; [done|]. by apply Delete_frame.
Qed.

Lemma Get_absent p k db : has_bucket p db = false → bb_Get p k db = None.
Proof.
  intros Hp. destruct (bb_Get p k db) as [v|] eqn:E; [|done].
  apply Get_bucket in E as [E _]. congruence.
Qed.

(** Reading a value through the handle of its bucket. *)
Lemma sub_bucket_Get p k k' db :
  (q ← sub_bucket p k db; bb_Get q k' db) = bb_Get (p ++ [k]) k' db.
Proof.
  unfold sub_bucket. destruct (has_bucket (p ++ [k]) db) eqn:E; [done|]. by rewrite Get_absent.
Qed.

End BboltTheorems.

(** ** A database in memory *)

Record MemDB : Type := mkMemDB {
  mb_buckets : gset (list key);
  mb_values : gmap (list key * key) (list byte)
}.

(** A bucket is there when all those around it are. *)
Definition mem_has (q : list key) (db : MemDB) : bool :=
  forallb (λ n, bool_decide (take (S n) q ∈ mb_buckets db)) (seq 0 (length q)).

Definition mem_Get (p : list key) (k : key) (db : MemDB) : option (list byte) :=
  if mem_has p db && negb (mem_has (p ++ [k]) db) && nonempty p then mb_values db !! (p, k) else None.

Definition good_keyb (k : key) : bool := nonempty k && Z.leb (Z.of_nat (length k)) MaxKeySize.

Definition outside (x : list key) (db : MemDB) : MemDB :=
  mkMemDB (filter (λ q, ¬ x `prefix_of` q) (mb_buckets db))
          (filter (λ v, ¬ x `prefix_of` v.1.1) (mb_values db)).

Definition mem_err {A} (s : string) (db : MemDB) : res A * MemDB := (Err (E_Ext s), db).

Definition mem_Create (p : list key) (k : key) (db : MemDB) : res () * MemDB :=
  if mem_has (p ++ [k]) db then (Ok tt, db) else
  if negb (mem_has p db) then mem_err "bucket not found" db else
  if negb (good_keyb k) then mem_err "bucket name required" db else
  if negb (is_nil (mem_Get p k db)) then mem_err "incompatible value" db else
  let db := outside (p ++ [k]) db in (Ok tt, mkMemDB ({[p ++ [k]]} ∪ mb_buckets db) (mb_values db)).

Definition mem_Put (p : list key) (k : key) (v : list byte) (db : MemDB) : res () * MemDB :=
  if negb (mem_has p db && nonempty p) then mem_err "bucket not found" db else
  if negb (good_keyb k) then mem_err "key required" db else
  if Z.ltb MaxValueSize (Z.of_nat (length v)) then mem_err "value too large" db else
  if mem_has (p ++ [k]) db then mem_err "incompatible value" db else
  (Ok tt, mkMemDB (mb_buckets db) (<[(p, k) := v]> (mb_values db))).

Definition mem_Delete (p : list key) (k : key) (db : MemDB) : res () * MemDB :=
  if mem_has (p ++ [k]) db then mem_err "incompatible value" db else
  (Ok tt, mkMemDB (mb_buckets db) (delete (p, k) (mb_values db))).

Definition mem_DeleteBucket (p : list key) (k : key) (db : MemDB) : res () * MemDB :=
  if negb (mem_has (p ++ [k]) db) then mem_err "bucket not found" db else
  let db := outside (p ++ [k]) db in (Ok tt, mkMemDB (mb_buckets db) (delete (p, k) (mb_values db))).

Definition mem_names (p : list key) (db : MemDB) : list key :=
  omap (λ q, match rev q with
             | k :: _ => if bool_decide (q = p ++ [k]) && mem_has q db then Some k else None
             | [] => None
             end) (elements (mb_buckets db)).

Definition MemBbolt : Bbolt := {|
  DB := MemDB;
  has_bucket := mem_has;
  bucket_names := mem_names;
  bb_Get := mem_Get;
  bb_CreateBucketIfNotExists := mem_Create;
  bb_Put := mem_Put;
  bb_Delete := mem_Delete;
  bb_DeleteBucket := mem_DeleteBucket;
  bb_Commit _ := None;
  bb_Open_new := Some (mkMemDB ∅ ∅)
|}.

Lemma mem_has_spec q db :
  mem_has q db = true ↔ ∀ r, r ≠ [] → r `prefix_of` q → r ∈ mb_buckets db.
Proof.
  unfold mem_has. rewrite forallb_forall. split.
  - intros Hq r Hr [l ->]. destruct r as [|x r]; [done|].
    specialize (Hq (length r)). rewrite in_seq, length_app in Hq. cbn [length] in Hq.
    specialize (Hq ltac:(lia)). apply bool_decide_eq_true in Hq.
    change (x :: r) with ([x] ++ r) in *. rewrite <-app_assoc in Hq. cbn in Hq.
    by rewrite take_app_length in Hq.
  - intros Hq n Hn%in_seq. apply bool_decide_eq_true, Hq.
    + destruct q; [cbn in Hn; lia|done].
    + exists (drop (S n) q). by rewrite take_drop.
Qed.

Lemma prefix_snoc (r p : list key) k : r `prefix_of` p ++ [k] ↔ r `prefix_of` p ∨ r = p ++ [k].
Proof.
  split.
  - intros [l Hl]. destruct l as [|y l _] using rev_ind.
    + right. by rewrite app_nil_r in Hl.
    + rewrite app_assoc in Hl. apply app_inj_tail in Hl as [-> _]. left. by exists l.
  - intros [H| ->]; [by apply prefix_app_r|done].
Qed.

Lemma mem_has_snoc p k db : mem_has (p ++ [k]) db = mem_has p db && bool_decide (p ++ [k] ∈ mb_buckets db).
Proof.
  apply eq_bool_prop_intro. rewrite !Is_true_true, andb_true_iff, !mem_has_spec, bool_decide_eq_true.
  split.
  - intros H. split; [intros r Hr Hp; apply H; [done|]; apply prefix_snoc; by left|].
    apply H; [by destruct p|done].
  - intros [Hp Hk] r Hr [Hpr| ->]%prefix_snoc; auto.
Qed.

Lemma mem_has_outside x q db :
  x ≠ [] → mem_has q (outside x db) = mem_has q db && negb (bool_decide (x `prefix_of` q)).
Proof.
  intros Hx. apply eq_bool_prop_intro.
  rewrite !Is_true_true, andb_true_iff, negb_true_iff, bool_decide_eq_false, !mem_has_spec. cbn [outside mb_buckets].
  setoid_rewrite elem_of_filter. split.
  - intros Hq. split; [intros r Hr Hp; by apply Hq|]. intros Hp. by destruct (Hq x Hx Hp).
  - intros [Hq Hn] r Hr Hp. split; [|by apply Hq]. intros Hxr. apply Hn. by trans r.
Qed.

Lemma mem_Get_outside x q k db :
  x ≠ [] → ¬ x `prefix_of` q → x ≠ q ++ [k] → mem_Get q k (outside x db) = mem_Get q k db.
Proof.
  intros Hx Hq Hne. unfold mem_Get. rewrite !mem_has_outside by done.
  rewrite (bool_decide_eq_false_2 (x `prefix_of` q)) by done.
  rewrite (bool_decide_eq_false_2 (x `prefix_of` q ++ [k])) by (by intros [?|?]%prefix_snoc).
  rewrite !andb_true_r. destruct (mem_has q db && _ && _); [|done]. cbn [outside mb_values].
  rewrite map_lookup_filter. destruct (mb_values db !! (q, k)); [|done]. cbn.
  by rewrite option_guard_True.
Qed.

Lemma good_keyb_spec k : good_key k → good_keyb k = true.
Proof. intros [Hk Hl]. unfold good_keyb. destruct k; [done|]. cbn [nonempty andb]. by apply Z.leb_le. Qed.

Lemma snoc_not_nil {A} (p : list A) k : p ++ [k] ≠ [].
Proof. by destruct p. Qed.
#[local] Hint Resolve snoc_not_nil : core.

(** The database after a bucket was made. *)
Lemma mem_has_add x p k db :
  x = p ++ [k] → mem_has p db = true → mem_has x db = false →
  ∀ q, mem_has q (mkMemDB ({[x]} ∪ mb_buckets (outside x db)) (mb_values (outside x db)))
    = mem_has q db || bool_decide (q = x).
Proof.
  intros Hx Hp Hn q. apply eq_bool_prop_intro.
  rewrite !Is_true_true, orb_true_iff, bool_decide_eq_true, !mem_has_spec. cbn [outside mb_buckets].
  setoid_rewrite elem_of_union. setoid_rewrite elem_of_singleton. setoid_rewrite elem_of_filter. split.
  - intros Hq. destruct (decide (x `prefix_of` q)) as [Hxq|Hxq].
    + right. destruct (Hq q) as [?|[? _]]; [|done|done|done]. intros ->. by apply prefix_nil_inv in Hxq as ->; destruct p.
    + left. intros r Hr Hrq. destruct (Hq r Hr Hrq) as [->|[_ ?]]; done.
  - intros [Hq| ->] r Hr Hrq.
    + right. split; [|by apply Hq]. intros Hxr. apply not_true_iff_false in Hn. apply Hn, mem_has_spec.
      intros r' Hr' Hrx. apply Hq; [done|]. by trans x; [|trans r].
    + subst x. apply prefix_snoc in Hrq as [Hrp|Hrx]; [right|by left]. split.
      * intros Hxr. pose proof (prefix_length _ _ Hxr) as Hl1. pose proof (prefix_length _ _ Hrp) as Hl2.
        rewrite length_app in Hl1. cbn in Hl1. lia.
      * apply mem_has_spec with p; done.
Qed.

Lemma mem_Create_frame p k db db' : mem_Create p k db = (Ok tt, db') →
  (∀ q, mem_has q db' = mem_has q db || bool_decide (q = p ++ [k])) ∧
  ∀ q k', mem_Get q k' db' = mem_Get q k' db.
Proof.
  unfold mem_Create, mem_err. destruct (mem_has (p ++ [k]) db) eqn:Ex.
  { intros [= <-]. split; [|done]. intros q. destruct (bool_decide _) eqn:Eq; [|by rewrite orb_false_r].
    apply bool_decide_eq_true in Eq as ->. by rewrite Ex. }
  destruct (mem_has p db) eqn:Ep; [|done]. destruct (good_keyb k); [|done].
  destruct (mem_Get p k db) as [v|] eqn:Eg; [done|]. cbn [negb is_nil]. intros [= <-].
  pose proof (mem_has_add (p ++ [k]) p k db eq_refl Ep Ex) as Hh. split; [exact Hh|]. intros q k'.
  unfold mem_Get at 1. rewrite !Hh. cbn [mb_values].
  destruct (decide ((p ++ [k]) `prefix_of` q)) as [Hxq|Hxq].
  { transitivity (@None (list byte)).
    - destruct (_ && _ && _); [|done]. cbn [outside mb_values]. rewrite map_lookup_filter.
      destruct (mb_values db !! (q, k')); [|done]. cbn. by rewrite option_guard_False by (intros []; done).
    - unfold mem_Get. destruct (mem_has q db) eqn:Eq; [|done]. apply not_true_iff_false in Ex. destruct Ex.
      rewrite mem_has_spec in Eq |- *. intros r Hr Hrx. apply Eq; [done|]. by trans (p ++ [k]). }
  rewrite (bool_decide_eq_false_2 (q = p ++ [k])) by (by intros ->). rewrite orb_false_r.
  destruct (decide (q ++ [k'] = p ++ [k])) as [Heq|Hne].
  { apply app_inj_tail in Heq as [-> ->]. rewrite Eg, bool_decide_eq_true_2, orb_true_r by done.
    cbn. by rewrite andb_false_r. }
  rewrite (bool_decide_eq_false_2 (q ++ [k'] = _)) by done. rewrite orb_false_r.
  unfold mem_Get. destruct (_ && _ && _); [|done]. cbn [outside mb_values]. rewrite map_lookup_filter.
  destruct (mb_values db !! (q, k')); [|done]. cbn. by rewrite option_guard_True.
Qed.

Lemma mem_values_frame db vs :
  (∀ q, mem_has q (mkMemDB (mb_buckets db) vs) = mem_has q db).
Proof. done. Qed.

Lemma mem_DeleteBucket_frame p k db db' : mem_DeleteBucket p k db = (Ok tt, db') →
  (∀ q, mem_has q db' = mem_has q db && negb (bool_decide ((p ++ [k]) `prefix_of` q))) ∧
  ∀ q k', mem_Get q k' db' = if decide ((p ++ [k]) `prefix_of` q) then None else mem_Get q k' db.
Proof.
  unfold mem_DeleteBucket, mem_err. destruct (mem_has (p ++ [k]) db) eqn:Ex; [|done]. cbn [negb].
  intros Hdb%(f_equal snd). cbn [snd] in Hdb. subst db'.
  assert (∀ q, mem_has q (mkMemDB (mb_buckets (outside (p ++ [k]) db))
      (delete (p, k) (mb_values (outside (p ++ [k]) db)))) =
    mem_has q db && negb (bool_decide ((p ++ [k]) `prefix_of` q))) as Hh
    by (intros q; rewrite <-mem_has_outside by done; done).
  split; [exact Hh|]. intros q k'. destruct (decide ((p ++ [k]) `prefix_of` q)) as [Hxq|Hxq].
  { unfold mem_Get. rewrite (Hh q), bool_decide_eq_true_2 by done. by rewrite andb_false_r. }
  destruct (decide ((q, k') = (p, k))) as [[= -> ->]|Hne].
  { unfold mem_Get. rewrite Ex, andb_false_r. destruct (_ && _ && _); [|done]. cbn. by rewrite lookup_delete_eq. }
  rewrite <-(mem_Get_outside (p ++ [k]) q k' db) by
    (done || intros Heq; apply app_inj_tail in Heq as [<- <-]; done).
  unfold mem_Get. rewrite !mem_values_frame. cbn [mb_values]. destruct (_ && _ && _); [|done].
  by rewrite lookup_delete_ne.
Qed.

Lemma mem_Put_frame p k v db db' : mem_Put p k v db = (Ok tt, db') →
  (∀ q, mem_has q db' = mem_has q db) ∧
  ∀ q k', mem_Get q k' db' = if decide (q = p ∧ k' = k) then Some v else mem_Get q k' db.
Proof.
  unfold mem_Put, mem_err. destruct (mem_has p db && nonempty p) eqn:Ep; [|done].
  destruct (good_keyb k); [|done]. destruct (Z.ltb _ _); [done|].
  destruct (mem_has (p ++ [k]) db) eqn:Ek; [done|]. cbn. intros [= <-]. split; [done|]. intros q k'.
  unfold mem_Get. rewrite !mem_values_frame. cbn [mb_values]. destruct (decide (q = p ∧ k' = k)) as [[-> ->]|Hne].
  - apply andb_true_iff in Ep as [-> ->]. rewrite Ek. cbn. by rewrite lookup_insert_eq.
  - destruct (_ && _ && _); [|done]. apply lookup_insert_ne. intros [= <- <-]. by apply Hne.
Qed.

Lemma mem_Delete_frame p k db db' : mem_Delete p k db = (Ok tt, db') →
  (∀ q, mem_has q db' = mem_has q db) ∧
  ∀ q k', mem_Get q k' db' = if decide (q = p ∧ k' = k) then None else mem_Get q k' db.
Proof.
  unfold mem_Delete, mem_err. destruct (mem_has (p ++ [k]) db) eqn:Ek; [done|]. intros [= <-]. split; [done|].
  intros q k'. unfold mem_Get. rewrite !mem_values_frame. cbn [mb_values].
  destruct (decide (q = p ∧ k' = k)) as [[-> ->]|Hne].
  - destruct (_ && _ && _); [|done]. by rewrite lookup_delete_eq.
  - destruct (_ && _ && _); [|done]. apply lookup_delete_ne. intros [= <- <-]. by apply Hne.
Qed.

Lemma mem_names_elem p k db : k ∈ mem_names p db ↔ mem_has (p ++ [k]) db = true.
Proof.
  unfold mem_names. rewrite list_elem_of_omap. split.
  - intros (q & Hq & Hk). destruct (rev q) as [|x l] eqn:Er; [done|].
    destruct (bool_decide (q = p ++ [x])) eqn:Ed; [|done]. apply bool_decide_eq_true in Ed as ->.
    cbn in Hk. destruct (mem_has (p ++ [x]) db) eqn:E; [|done]. congruence.
  - intros Hk. exists (p ++ [k]). split.
    + apply elem_of_elements. rewrite mem_has_spec in Hk. by apply Hk.
    + rewrite rev_app_distr. cbn. by rewrite bool_decide_eq_true_2, Hk.
Qed.

(** The promises are kept. *)
Lemma MemBboltLaws : @BboltLaws MemBbolt.
Proof.
  split.
  - done.
  - intros k db. cbn. unfold mem_Get. by rewrite andb_false_r.
  - apply mem_names_elem.
  - intros p k v db. cbn. unfold mem_Get. destruct (mem_has p db), (mem_has (p ++ [k]) db); done.
  - intros p k db. cbn. rewrite mem_has_snoc. by intros [? _]%andb_true_iff.
  - intros p db [= <-]. cbn. destruct p as [|x p]; [done|]. rewrite bool_decide_eq_false_2 by done.
    apply not_true_iff_false. rewrite mem_has_spec. intros Hq. specialize (Hq [x]).
    apply (not_elem_of_empty (C:=gset (list key)) [x]), Hq; [done|by exists p].
  - apply mem_Create_frame.
  - intros p k db Hp Hk Hg. cbn in *. unfold mem_Create. rewrite Hp, good_keyb_spec, Hg by done. destruct (mem_has (p ++ [k]) db); reflexivity.
  - apply mem_Put_frame.
  - intros p k v db Hp Hn Hk Hr Hv. cbn in *. unfold mem_Put. rewrite Hp, Hn, good_keyb_spec by done.
    destruct p; [done|]. cbn [nonempty andb negb]. by rewrite (proj2 (Z.ltb_ge _ _)).
  - apply mem_Delete_frame.
  - intros p k db Hp Hn. cbn in *. unfold mem_Delete. by rewrite Hn.
  - apply mem_DeleteBucket_frame.
  - intros p k db Hp. cbn in *. unfold mem_DeleteBucket. by rewrite Hp.
  - intros p k db Hp. cbn in *. unfold mem_DeleteBucket. rewrite Hp. cbn. eexists. reflexivity.
  - intros p k db. cbn. unfold mem_Create, mem_err. by repeat case_match.
  - intros p k v db. cbn. unfold mem_Put, mem_err. by repeat case_match.
  - intros p k db. cbn. unfold mem_Delete, mem_err. by repeat case_match.
Qed.
