(* ===== verification/CacheFile.v ===== *)
(** * The cache file (experimental/cachefile/, adapter/experimental.go)

    What survives a restart: the mode, the selection of every group, the remote rule sets, the answers
    that were rejected and the fake IP addresses, in one bbolt database.  Several configurations share
    a file by their cache id. *)

From stdpp Require Import base gmap strings list numbers.
From S2P Require Import Prelude GoStd Netip GoIO Outbound Groups FakeIP Bbolt.

Local Open Scope Z_scope.

(** ** A saved rule set *)

(** Times are in nanoseconds since the Unix epoch. *)
Definition time_Unix (t : Z) : Z := t / 1000000000.
Definition time_of_Unix (sec : Z) : Z := sec * 1000000000.

(** A [uint64] as an [int64]. *)
Definition i64 (z : Z) : Z := if Z.ltb z (2 ^ 63) then z else z - 2 ^ 64.

(** [adapter/experimental.go:63-67] SavedBinary *)
Record SavedBinary : Type := mkSavedBinary {
  sb_Content : list byte;
  sb_LastUpdated : Z;
  sb_LastEtag : string
}.

Section Saved.
Context `{VarbinLib}.

(** [adapter/experimental.go:69-96] (SavedBinary).MarshalBinary *)
Definition Saved_MarshalBinary (s : SavedBinary) : list byte :=
  be_bytes 1 1 ++
  varbin_WriteUvarint (Z.of_nat (length (sb_Content s))) ++ sb_Content s ++
  be_bytes 8 (u64 (time_Unix (sb_LastUpdated s))) ++
  varbin_WriteUvarint (Z.of_nat (String.length (sb_LastEtag s))) ++ bytes_of_string (sb_LastEtag s).

(** [adapter/experimental.go:98-130] (SavedBinary).UnmarshalBinary *)
Definition Saved_reader : Reader SavedBinary :=
  version ← ReadBE 1;
  contentLength ← ReadUvarint;
  _ ← makeslice 1 contentLength;
  content ← ReadFull (Z.to_nat contentLength);
  lastUpdated ← ReadBE 8;
  etagLength ← ReadUvarint;
  _ ← makeslice 1 etagLength;
  etagBytes ← ReadFull (Z.to_nat etagLength);
  mret (mkSavedBinary content (time_of_Unix (i64 lastUpdated)) (string_of_bytes etagBytes)).

Definition Saved_UnmarshalBinary (data : list byte) : res SavedBinary := (Saved_reader data).1.

End Saved.

(** ** The file *)

(** [experimental/cachefile/cache.go:58-62] saveRDRCCacheKey *)
Definition saveRDRCCacheKey : Type := string * string * Z.

(** [option/experimental.go:12-19] CacheFileOptions *)
Record CacheFileOptions : Type := mkCacheFileOptions {
  cfo_Path : string;
  cfo_CacheID : string;
  cfo_StoreFakeIP : bool;
  cfo_StoreRDRC : bool;
  cfo_RDRCTimeout : Z
}.

Section CacheFile.
Context `{Bbolt} `{VarbinLib}.

(** [c_DB] is [None] when the database is closed.  The timer of the metadata has the argument of the
    function it was made with, and whether it is running.  The last two fields are the goroutines that
    write in the background.

    [experimental/cachefile/cache.go:40-56] CacheFile *)
Record CacheFile : Type := mkCacheFile {
  c_path : string;
  cacheID : option key;
  storeFakeIP : bool;
  storeRDRC : bool;
  rdrcTimeout : Z;
  c_DB : option DB;
  saveMetadataTimer : option (FakeIPMetadata * bool);
  saveDomain : gmap Addr string;
  saveAddress4 : gmap string Addr;
  saveAddress6 : gmap string Addr;
  saveRDRC : gmap saveRDRCCacheKey bool;
  fakeip_writes : list (Addr * string);
  rdrc_writes : list saveRDRCCacheKey
}.
#[global] Instance CacheFile_settable : Settable CacheFile :=
  {| mkT r := mkCacheFile (c_path r) (cacheID r) (storeFakeIP r) (storeRDRC r) (rdrcTimeout r) (c_DB r)
                (saveMetadataTimer r) (saveDomain r) (saveAddress4 r) (saveAddress6 r) (saveRDRC r)
                (fakeip_writes r) (rdrc_writes r) |}.

(** [experimental/cachefile/cache.go:64-95] New *)
Definition New (options : CacheFileOptions) : CacheFile :=
  mkCacheFile
    (if String.eqb (cfo_Path options) "" then "cache.db" else cfo_Path options)
    (if String.eqb (cfo_CacheID options) "" then None
     else Some (x00 :: bytes_of_string (cfo_CacheID options)))
    (cfo_StoreFakeIP options) (cfo_StoreRDRC options)
    (if cfo_StoreRDRC options then
       if Z.ltb 0 (cfo_RDRCTimeout options) then cfo_RDRCTimeout options
       else 7 * 24 * 3600 * 1000000000
     else 0)
    None None ∅ ∅ ∅ ∅ [] [].

(** *** Buckets *)

(** [experimental/cachefile/cache.go:22-25] bucketSelected *)
Definition bucketSelected : key := bytes_of_string "selected".
Definition bucketExpand : key := bytes_of_string "group_expand".
Definition bucketMode : key := bytes_of_string "clash_mode".
Definition bucketRuleSet : key := bytes_of_string "rule_set".
(** [experimental/cachefile/rdrc.go:12] bucketRDRC *)
Definition bucketRDRC : key := bytes_of_string "rdrc2".
(** [experimental/cachefile/cache.go:27-33] bucketNameList *)
Definition bucketNameList : list key :=
  [bucketSelected; bucketExpand; bucketMode; bucketRuleSet; bucketRDRC].
(** [experimental/cachefile/cache.go:35] cacheIDDefault *)
Definition cacheIDDefault : key := bytes_of_string "default".
(** [experimental/cachefile/fakeip.go:15-22] bucketFakeIP *)
Definition bucketFakeIP : key := bytes_of_string "fakeip_address".
Definition bucketFakeIPDomain4 : key := bytes_of_string "fakeip_domain4".
Definition bucketFakeIPDomain6 : key := bytes_of_string "fakeip_domain6".
Definition keyMetadata : key := bytes_of_string "fakeip_metadata".

Definition known_bucket (name : key) : bool := bool_decide (name ∈ bucketNameList).
Definition fakeip_bucket (name : key) : bool :=
  strings_HasPrefix (string_of_bytes name) "fakeip_".

(** Deletions whose errors are not looked at. *)
Definition try_delete (p : list key) (name : key) (db : DB) : DB := (bb_DeleteBucket p name db).2.

(** The visit of a bucket of the root: [b.DeleteBucket(name)] is asked for once for every bucket inside
    that is not known.

    [experimental/cachefile/cache.go:140-156] (CacheFile).Start (ForEach) *)
Definition clean_bucket (name : key) (db : DB) : DB :=
  match name with
  | b :: _ =>
      if bool_decide (b = x00)
      then fold_left (λ db k, if negb (known_bucket k) then try_delete [name] name db else db)
             (bucket_names [name] db) db
      else if negb (known_bucket name || fakeip_bucket name) then try_delete [] name db else db
  | [] => db
  end.

(** bbolt leaves open what [ForEach] visits once the function deletes; here it goes on over the names
    it started with.

    [experimental/cachefile/cache.go:139-157] (CacheFile).Start (cleanup) *)
Definition clean (db : DB) : DB := fold_left (λ db name, clean_bucket name db) (bucket_names [] db) db.

(** What an attempt to open the file gives: the database, a lock that is held, a file that is broken
    (and whether it can be removed), or another error. *)
Inductive OpenAttempt : Type :=
| Opened (db : DB)
| OpenTimeout (e : error)
| OpenBroken (e : error) (removed : bool)
| OpenFailed (e : error).

(** [experimental/cachefile/cache.go:115-133] (CacheFile).Start (open) *)
Fixpoint open_loop (fuel : nat) (i : nat) (attempt : nat → OpenAttempt) (last : res DB) : res DB :=
  match fuel with
  | O => last
  | S fuel =>
      match attempt i with
      | Opened db => Ok db
      | OpenTimeout e => open_loop fuel (S i) attempt (Err e)
      | OpenBroken e removed => if negb removed then Err e else open_loop fuel (S i) attempt (Err e)
      | OpenFailed e => open_loop fuel (S i) attempt (Err e)
      end
  end.

(** Only in the first stage; [chown] is the error of changing the owner of the file.

    [experimental/cachefile/cache.go:105-164] (CacheFile).Start *)
Definition CacheFile_Start (initialize : bool) (attempt : nat → OpenAttempt) (chown : option error)
    (c : CacheFile) : option error * CacheFile :=
  if negb initialize then (None, c) else
  match open_loop 10 0 attempt (Err io_EOF) with
  | Err e => (Some e, c)
  | Panic _ => (None, c)
  | Ok db =>
      match chown with
      | Some e => (Some (E_Cause e [AStr "platform chown"]), c)
      | None =>
          match bb_Commit (clean db) with
          | Some e => (Some e, c)
          | None => (None, c <| c_DB := Some (clean db) |>)
          end
      end
  end.

(** [experimental/cachefile/cache.go:166-171] (CacheFile).Close *)
Definition CacheFile_Close (c : CacheFile) : CacheFile := c <| c_DB := None |>.

(** *** Transactions *)

Definition ErrDatabaseNotOpen : error := E_Ext "database not open".

(** The file is thrown away; the database stays closed when a new one cannot be opened.

    [experimental/cachefile/cache.go:203-213] (CacheFile).resetDB *)
Definition resetDB (c : CacheFile) : CacheFile := c <| c_DB := bb_Open_new |>.

(** [experimental/cachefile/cache.go:173-181] (CacheFile).view *)
Definition view {A} (fn : DB → res A) (c : CacheFile) : res A * CacheFile :=
  match c_DB c with
  | None => (Err ErrDatabaseNotOpen, c)
  | Some db =>
      match fn db with
      | Panic p => (Err (E_New (AStr "database corrupted: " :: p)), resetDB c)
      | r => (r, c)
      end
  end.

(** The changes are written when the function succeeds.

    [experimental/cachefile/cache.go:183-191] (CacheFile).batch *)
Definition batch {A} (fn : Tx A) (c : CacheFile) : res A * CacheFile :=
  match c_DB c with
  | None => (Err ErrDatabaseNotOpen, c)
  | Some db =>
      match fn db with
      | (Ok a, db') =>
          match bb_Commit db' with
          | None => (Ok a, c <| c_DB := Some db' |>)
          | Some e => (Err e, c)
          end
      | (Err e, _) => (Err e, c)
      | (Panic p, _) => (Err (E_New (AStr "database corrupted: " :: p)), resetDB c)
      end
  end.

(** [Update] waits for its turn alone, with the same outcome.

    [experimental/cachefile/cache.go:193-201] (CacheFile).update *)
Definition update {A} (fn : Tx A) (c : CacheFile) : res A * CacheFile := batch fn c.

Definition err_of {A} (r : res A) : option error := match r with Err e => Some e | _ => None end.

(** [experimental/cachefile/cache.go:252-261] (CacheFile).bucket *)
Definition bucket (c : CacheFile) (k : key) (db : DB) : option (list key) :=
  match cacheID c with
  | None => sub_bucket [] k db
  | Some id => b ← sub_bucket [] id db; sub_bucket b k db
  end.

(** [experimental/cachefile/cache.go:263-272] (CacheFile).createBucket *)
Definition createBucket (c : CacheFile) (k : key) : Tx (list key) :=
  match cacheID c with
  | None => create_bucket [] k
  | Some id => b ← create_bucket [] id; create_bucket b k
  end.

(** A value inside a bucket of this configuration. *)
Definition get_in (c : CacheFile) (b k : key) (db : DB) : option (list byte) :=
  p ← bucket c b db; bb_Get p k db.

(** *** Modes, selections and groups *)

Definition mode_key (c : CacheFile) : key :=
  match cacheID c with Some (b :: id) => b :: id | _ => cacheIDDefault end.

(** [experimental/cachefile/cache.go:219-236] (CacheFile).LoadMode *)
Definition LoadMode (c : CacheFile) : string * CacheFile :=
  let '(r, c) := view (λ db, Ok (p ← sub_bucket [] bucketMode db; bb_Get p (mode_key c) db)) c in
  (match r with Ok (Some mode) => string_of_bytes mode | _ => ""%string end, c).

(** [experimental/cachefile/cache.go:238-250] (CacheFile).StoreMode *)
Definition StoreMode (mode : string) (c : CacheFile) : option error * CacheFile :=
  let '(r, c) := batch (p ← create_bucket [] bucketMode; bb_Put p (mode_key c) (bytes_of_string mode)) c in
  (err_of r, c).

(** [experimental/cachefile/cache.go:274-288] (CacheFile).LoadSelected *)
Definition Cache_LoadSelected (group : string) (c : CacheFile) : string * CacheFile :=
  let '(r, c) := view (λ db, Ok (get_in c bucketSelected (bytes_of_string group) db)) c in
  (match r with Ok (Some selected) => string_of_bytes selected | _ => ""%string end, c).

(** [experimental/cachefile/cache.go:290-298] (CacheFile).StoreSelected *)
Definition Cache_StoreSelected (group selected : string) (c : CacheFile) : option error * CacheFile :=
  let '(r, c) := batch (p ← createBucket c bucketSelected;
                        bb_Put p (bytes_of_string group) (bytes_of_string selected)) c in
  (err_of r, c).

(** [None] when nothing is loaded.

    [experimental/cachefile/cache.go:300-314] (CacheFile).LoadGroupExpand *)
Definition LoadGroupExpand (group : string) (c : CacheFile) : option bool * CacheFile :=
  let '(r, c) := view (λ db, Ok (get_in c bucketExpand (bytes_of_string group) db)) c in
  (match r with Ok (Some [b]) => Some (bool_decide (b = x01)) | _ => None end, c).

(** [experimental/cachefile/cache.go:316-328] (CacheFile).StoreGroupExpand *)
Definition StoreGroupExpand (group : string) (isExpand : bool) (c : CacheFile)
    : option error * CacheFile :=
  let '(r, c) := batch (p ← createBucket c bucketExpand;
                        bb_Put p (bytes_of_string group) (if isExpand then [x01] else [x00])) c in
  (err_of r, c).

(** [experimental/cachefile/cache.go:330-347] (CacheFile).LoadRuleSet *)
Definition LoadRuleSet (tag : string) (c : CacheFile) : option SavedBinary * CacheFile :=
  let '(r, c) := view (λ db,
    match bucket c bucketRuleSet db with
    | None => Err (E_Ext "file does not exist")
    | Some p =>
        match bb_Get p (bytes_of_string tag) db with
        | Some (b :: setBinary) => Saved_UnmarshalBinary (b :: setBinary)
        | _ => Err os_ErrInvalid
        end
    end) c in
  (match r with Ok savedSet => Some savedSet | _ => None end, c).

(** [experimental/cachefile/cache.go:349-361] (CacheFile).SaveRuleSet *)
Definition SaveRuleSet (tag : string) (set : SavedBinary) (c : CacheFile) : option error * CacheFile :=
  let '(r, c) := batch (p ← createBucket c bucketRuleSet;
                        bb_Put p (bytes_of_string tag) (Saved_MarshalBinary set)) c in
  (err_of r, c).

(** *** Rejected answers *)

(** [experimental/cachefile/rdrc.go:29-31] (CacheFile).LoadRDRC (key) *)
Definition rdrc_key (qName : string) (qType : Z) : key := be_bytes 2 (u16 qType) ++ bytes_of_string qName.

Definition rdrc_bucket (c : CacheFile) (transportName : string) (db : DB) : option (list key) :=
  p ← bucket c bucketRDRC db; sub_bucket p (bytes_of_string transportName) db.

(** The time of an entry; the first eight bytes of a shorter value do not exist. *)
Definition read_expiry (content : list byte) : res Z :=
  if Nat.ltb (length content) 8 then Panic [AStr "index out of range"]
  else Ok (time_of_Unix (i64 (be_val (take 8 content)))).

(** Whether the answer is rejected, and whether the entry is to be deleted.

    [experimental/cachefile/rdrc.go:34-54] (CacheFile).LoadRDRC (view) *)
Definition rdrc_lookup (c : CacheFile) (now : Z) (transportName qName : string) (qType : Z) (db : DB)
    : res (bool * bool) :=
  match rdrc_bucket c transportName db with
  | None => Ok (false, false)
  | Some p =>
      match bb_Get p (rdrc_key qName qType) db with
      | None => Ok (false, false)
      | Some content =>
          expiresAt ← read_expiry content;
          Ok (if Z.ltb expiresAt now then (false, true) else (true, false))
      end
  end.

(** [experimental/cachefile/rdrc.go:22-72] (CacheFile).LoadRDRC *)
Definition Cache_LoadRDRC (now : Z) (transportName qName : string) (qType : Z) (c : CacheFile)
    : bool * CacheFile :=
  match saveRDRC c !! (transportName, qName, qType) with
  | Some rejected => (rejected, c)
  | None =>
      let '(r, c) := view (rdrc_lookup c now transportName qName qType) c in
      match r with
      | Ok (rejected, deleteCache) =>
          if deleteCache then
            (rejected, (update (λ db,
               match rdrc_bucket c transportName db with
               | None => (Ok tt, db)
               | Some p => bb_Delete p (rdrc_key qName qType) db
               end) c).2)
          else (rejected, c)
      | _ => (false, c)
      end
  end.

(** [experimental/cachefile/rdrc.go:74-93] (CacheFile).SaveRDRC *)
Definition SaveRDRC (now : Z) (transportName qName : string) (qType : Z) (c : CacheFile)
    : option error * CacheFile :=
  let '(r, c) := batch (p ← createBucket c bucketRDRC;
                        p ← create_bucket p (bytes_of_string transportName);
                        bb_Put p (rdrc_key qName qType)
                          (be_bytes 8 (u64 (time_Unix (now + rdrcTimeout c))))) c in
  (err_of r, c).

(** [experimental/cachefile/rdrc.go:95-109] (CacheFile).SaveRDRCAsync *)
Definition Cache_SaveRDRCAsync (transportName qName : string) (qType : Z) (c : CacheFile) : CacheFile :=
  let saveKey := (transportName, qName, qType) in
  c <| saveRDRC := <[saveKey := true]> (saveRDRC c) |> <| rdrc_writes := rdrc_writes c ++ [saveKey] |>.

(** The goroutine of a write that is under way.

    [experimental/cachefile/rdrc.go:100-108] (CacheFile).SaveRDRCAsync (goroutine) *)
Definition rdrc_write (i : nat) (now : Z) (c : CacheFile) : CacheFile :=
  match rdrc_writes c !! i with
  | None => c
  | Some (transportName, qName, qType) =>
      let '(_, c) := SaveRDRC now transportName qName qType c in
      c <| saveRDRC := delete (transportName, qName, qType) (saveRDRC c) |>
        <| rdrc_writes := delete i (rdrc_writes c) |>
  end.

(** *** Fake IP addresses *)

(** [M.AddrFromIP] of sing/common/metadata; the fake IP buckets belong to every configuration. *)
Class AddrLib := {
  AddrFromIP : list byte → Addr;
  AddrFromIP_nil : AddrFromIP [] = AddrInvalid;
  AddrFromIP_AsSlice : ∀ a, Addr_wf a → Addr_hasZone a = false → Addr_Is4In6 a = false →
    AddrFromIP (Addr_AsSlice a) = a
}.
Context `{AddrLib}.

(** [experimental/cachefile/fakeip.go:24-45] (CacheFile).FakeIPMetadata *)
Definition Cache_FakeIPMetadata (c : CacheFile) : option FakeIPMetadata * CacheFile :=
  let '(r, c) := batch (
    p ← tx_read (sub_bucket [] bucketFakeIP);
    match p with
    | None => tx_res (Err (E_Ext "file does not exist"))
    | Some p =>
        content ← tx_read (bb_Get p keyMetadata);
        match content with
        | Some (b :: metadataBinary) =>
            _ ← bb_Delete p keyMetadata;
            tx_res (UnmarshalBinary (b :: metadataBinary))
        | _ => tx_res (Err os_ErrInvalid)
        end
    end) c in
  (match r with Ok metadata => Some metadata | _ => None end, c).

(** [experimental/cachefile/fakeip.go:47-59] (CacheFile).FakeIPSaveMetadata *)
Definition Cache_FakeIPSaveMetadata (metadata : FakeIPMetadata) (c : CacheFile)
    : option error * CacheFile :=
  let '(r, c) := batch (p ← create_bucket [] bucketFakeIP; bb_Put p keyMetadata (MarshalBinary metadata)) c in
  (err_of r, c).

(** [experimental/cachefile/fakeip.go:61-69] (CacheFile).FakeIPSaveMetadataAsync *)
Definition Cache_FakeIPSaveMetadataAsync (metadata : FakeIPMetadata) (c : CacheFile) : CacheFile :=
  match saveMetadataTimer c with
  | None => c <| saveMetadataTimer := Some (metadata, true) |>
  | Some (first, _) => c <| saveMetadataTimer := Some (first, true) |>
  end.

(** The timer fires.

    [experimental/cachefile/fakeip.go:63-65] (CacheFile).FakeIPSaveMetadataAsync (timer) *)
Definition metadata_timer (c : CacheFile) : CacheFile :=
  match saveMetadataTimer c with
  | Some (metadata, true) =>
      (Cache_FakeIPSaveMetadata metadata c).2 <| saveMetadataTimer := Some (metadata, false) |>
  | _ => c
  end.

Definition domain_bucket (isIPv6 : bool) : key :=
  if isIPv6 then bucketFakeIPDomain6 else bucketFakeIPDomain4.

(** [experimental/cachefile/fakeip.go:72-96] (CacheFile).FakeIPStore (transaction) *)
Definition store_pair (address : Addr) (domain : string) : Tx () :=
  p ← create_bucket [] bucketFakeIP;
  oldDomain ← tx_read (bb_Get p (Addr_AsSlice address));
  _ ← bb_Put p (Addr_AsSlice address) (bytes_of_string domain);
  p ← create_bucket [] (domain_bucket (negb (Addr_Is4 address)));
  _ ← match oldDomain with Some oldDomain => bb_Delete p oldDomain | None => mret tt end;
  bb_Put p (bytes_of_string domain) (Addr_AsSlice address).

(** [experimental/cachefile/fakeip.go:71-97] (CacheFile).FakeIPStore *)
Definition Cache_FakeIPStore (address : Addr) (domain : string) (c : CacheFile)
    : option error * CacheFile :=
  let '(r, c) := batch (store_pair address domain) c in (err_of r, c).

Definition save_map (isIPv6 : bool) (f : gmap string Addr → gmap string Addr) (c : CacheFile) : CacheFile :=
  if isIPv6 then c <| saveAddress6 := f (saveAddress6 c) |> else c <| saveAddress4 := f (saveAddress4 c) |>.

(** [experimental/cachefile/fakeip.go:99-129] (CacheFile).FakeIPStoreAsync *)
Definition Cache_FakeIPStoreAsync (address : Addr) (domain : string) (c : CacheFile) : CacheFile :=
  let six := negb (Addr_Is4 address) in
  let c := match saveDomain c !! address with
           | Some oldDomain => save_map six (delete oldDomain) c
           | None => c
           end in
  let c := c <| saveDomain := <[address := domain]> (saveDomain c) |> in
  let c := save_map six (insert domain address) c in
  c <| fakeip_writes := fakeip_writes c ++ [(address, domain)] |>.

(** The goroutine of a write that is under way.

    [experimental/cachefile/fakeip.go:115-128] (CacheFile).FakeIPStoreAsync (goroutine) *)
Definition fakeip_write (i : nat) (c : CacheFile) : CacheFile :=
  match fakeip_writes c !! i with
  | None => c
  | Some (address, domain) =>
      let '(_, c) := Cache_FakeIPStore address domain c in
      let c := c <| saveDomain := delete address (saveDomain c) |> in
      let c := save_map (negb (Addr_Is4 address)) (delete domain) c in
      c <| fakeip_writes := delete i (fakeip_writes c) |>
  end.

(** [experimental/cachefile/fakeip.go:131-148] (CacheFile).FakeIPLoad *)
Definition Cache_FakeIPLoad (address : Addr) (c : CacheFile) : option string * CacheFile :=
  match saveDomain c !! address with
  | Some cachedDomain => (Some cachedDomain, c)
  | None =>
      let '(r, c) := view (λ db, Ok (p ← sub_bucket [] bucketFakeIP db; bb_Get p (Addr_AsSlice address) db)) c in
      let domain := match r with Ok (Some domain) => string_of_bytes domain | _ => ""%string end in
      (if String.eqb domain "" then None else Some domain, c)
  end.

(** [experimental/cachefile/fakeip.go:150-180] (CacheFile).FakeIPLoadDomain *)
Definition Cache_FakeIPLoadDomain (domain : string) (isIPv6 : bool) (c : CacheFile)
    : option Addr * CacheFile :=
  match (if isIPv6 then saveAddress6 c else saveAddress4 c) !! domain with
  | Some cachedAddress => (Some cachedAddress, c)
  | None =>
      let '(r, c) := view (λ db, Ok (p ← sub_bucket [] (domain_bucket isIPv6) db;
                                     bb_Get p (bytes_of_string domain) db)) c in
      let address := match r with Ok (Some address) => AddrFromIP address
                     | Ok None => AddrFromIP [] | _ => AddrInvalid end in
      (if Addr_IsValid address then Some address else None, c)
  end.

(** [experimental/cachefile/fakeip.go:183-193] (CacheFile).FakeIPReset (transaction) *)
Definition reset_pairs : Tx () :=
  _ ← bb_DeleteBucket [] bucketFakeIP;
  _ ← bb_DeleteBucket [] bucketFakeIPDomain4;
  bb_DeleteBucket [] bucketFakeIPDomain6.

(** [experimental/cachefile/fakeip.go:182-194] (CacheFile).FakeIPReset *)
Definition Cache_FakeIPReset (c : CacheFile) : option error * CacheFile :=
  let '(r, c) := batch reset_pairs c in (err_of r, c).

End CacheFile.

(** ** Theorems *)

Section CacheTheorems.
Context `{BboltLaws} `{VarbinLib} `{AddrLib}.

(** The disk does not fail. *)
Hypothesis commit_ok : ∀ db, bb_Commit db = None.

(** *** Transactions *)

Lemma batch_ok {A} (t : Tx A) c db a db' :
  c_DB c = Some db → t db = (Ok a, db') → batch t c = (Ok a, c <| c_DB := Some db' |>).
Proof. unfold batch. intros -> ->. by rewrite commit_ok. Qed.

Lemma bytes_of_string_inj s t : bytes_of_string s = bytes_of_string t → s = t.
Proof.
  intros Heq. rewrite <-(String.string_of_list_byte_of_string s), Heq.
  apply String.string_of_list_byte_of_string.
Qed.

Lemma string_of_bytes_of_string s : string_of_bytes (bytes_of_string s) = s.
Proof. apply String.string_of_list_byte_of_string. Qed.

(** *** Addresses as keys *)

(** The addresses the fake IP store hands out. *)
Definition plain (a : Addr) : Prop :=
  Addr_IsValid a = true ∧ Addr_wf a ∧ Addr_hasZone a = false ∧ Addr_Is4In6 a = false.

Lemma AsSlice_inj a b : plain a → plain b → Addr_AsSlice a = Addr_AsSlice b → a = b.
Proof.
  intros (_ & Ha & Hza & Hma) (_ & Hb & Hzb & Hmb) Heq. rewrite <-(AddrFromIP_AsSlice a Ha Hza Hma), Heq.
  by apply AddrFromIP_AsSlice.
Qed.

Lemma AsSlice_length a : plain a → length (Addr_AsSlice a) = if Addr_Is4 a then 4%nat else 16%nat.
Proof. intros (Hv & _). by destruct a. Qed.

Lemma AsSlice_good a : plain a → good_key (Addr_AsSlice a).
Proof.
  intros Ha. pose proof (AsSlice_length a Ha) as Hl. split.
  - intros Hn. rewrite Hn in Hl. by destruct (Addr_Is4 a).
  - rewrite Hl. unfold MaxKeySize. by destruct (Addr_Is4 a).
Qed.

Lemma AsSlice_not_metadata a : plain a → Addr_AsSlice a ≠ keyMetadata.
Proof.
  intros Ha Heq. pose proof (AsSlice_length a Ha) as Hl. rewrite Heq in Hl.
  by destruct (Addr_Is4 a).
Qed.

(** *** The fake IP buckets refine the memory storage *)

Definition Memory_cache (six : bool) (m : MemoryStorage) : gmap string Addr :=
  if six then domainCache6 m else domainCache4 m.

Definition fakeip_bucket_of (b : key) : Prop :=
  b = bucketFakeIP ∨ b = bucketFakeIPDomain4 ∨ b = bucketFakeIPDomain6.

Definition good_domain (d : string) : Prop := good_key (bytes_of_string d).

(** The buckets hold the pairs of a memory storage, and the metadata. *)
Record db_agrees (db : DB) (m : MemoryStorage) (md : option FakeIPMetadata) : Prop := {
  da_address : ∀ a, plain a →
    bb_Get [bucketFakeIP] (Addr_AsSlice a) db = bytes_of_string <$> addressCache m !! a;
  da_domain : ∀ six d,
    bb_Get [domain_bucket six] (bytes_of_string d) db = Addr_AsSlice <$> Memory_cache six m !! d;
  da_metadata : bb_Get [bucketFakeIP] keyMetadata db = MarshalBinary <$> md;
  da_flat : ∀ b k, fakeip_bucket_of b → has_bucket [b; k] db = false;
  da_addresses : ∀ a d, addressCache m !! a = Some d → plain a ∧ good_domain d;
  da_domains : ∀ six d a, Memory_cache six m !! d = Some a → plain a;
  da_metadata_wf : ∀ x, md = Some x → metadata_wf x
}.

(** Nothing is being written. *)
Record agrees (c : CacheFile) (m : MemoryStorage) (md : option FakeIPMetadata) : Prop := {
  ag_db : ∃ db, c_DB c = Some db ∧ db_agrees db m md;
  ag_domain : saveDomain c = ∅;
  ag_address4 : saveAddress4 c = ∅;
  ag_address6 : saveAddress6 c = ∅;
  ag_writes : fakeip_writes c = []
}.

Lemma fakeip_good b : fakeip_bucket_of b → good_key b.
Proof. intros [->|[->| ->]]; by split. Qed.

Lemma domain_bucket_of six : fakeip_bucket_of (domain_bucket six).
Proof. unfold fakeip_bucket_of, domain_bucket. destruct six; auto. Qed.

Lemma domain_bucket_inj six six' : domain_bucket six = domain_bucket six' → six = six'.
Proof. by destruct six, six'. Qed.

Lemma fakeip_not_domain six : bucketFakeIP ≠ domain_bucket six.
Proof. by destruct six. Qed.

Lemma good_length d : good_key d → Z.of_nat (length d) ≤ MaxValueSize.
Proof. intros [_ Hl]. unfold MaxKeySize, MaxValueSize in *. lia. Qed.

(** The buckets of the fake IPs that there are; one is made when something is put into it. *)
Record FakeIPBuckets : Type := mkFakeIPBuckets {
  bk_address : bool;
  bk_domain4 : bool;
  bk_domain6 : bool
}.

Definition no_buckets : FakeIPBuckets := mkFakeIPBuckets false false false.

Definition cache_buckets (c : CacheFile) : FakeIPBuckets :=
  match c_DB c with
  | Some db => mkFakeIPBuckets (has_bucket [bucketFakeIP] db) (has_bucket [bucketFakeIPDomain4] db)
                 (has_bucket [bucketFakeIPDomain6] db)
  | None => no_buckets
  end.

(** What the transaction does to the values of the two buckets. *)
Record pair_stored (db db' : DB) (a : Addr) (d : string) : Prop := {
  ps_address : ∀ k, bb_Get [bucketFakeIP] k db' =
    if decide (k = Addr_AsSlice a) then Some (bytes_of_string d) else bb_Get [bucketFakeIP] k db;
  ps_domain : ∀ six k, bb_Get [domain_bucket six] k db' =
    if Bool.eqb six (negb (Addr_Is4 a)) then
      if decide (k = bytes_of_string d) then Some (Addr_AsSlice a) else
      if decide (bb_Get [bucketFakeIP] (Addr_AsSlice a) db = Some k) then None
      else bb_Get [domain_bucket six] k db
    else bb_Get [domain_bucket six] k db;
  ps_flat : ∀ b k, fakeip_bucket_of b → has_bucket [b; k] db = false → has_bucket [b; k] db' = false;
  ps_has : ∀ q, has_bucket q db' = has_bucket q db || bool_decide (q = [bucketFakeIP]) ||
    bool_decide (q = [domain_bucket (negb (Addr_Is4 a))])
}.

Lemma forget_ok b old db :
  has_bucket [b] db = true → (∀ k, has_bucket [b; k] db = false) →
  ∃ db', match old with Some o => bb_Delete [b] o | None => (mret tt : Tx ()) end db = (Ok tt, db') ∧
    (∀ q, has_bucket q db' = has_bucket q db) ∧
    (∀ q k, bb_Get q k db' = if decide (q = [b] ∧ old = Some k) then None else bb_Get q k db).
Proof.
  intros Hb Hf. destruct old as [o|].
  - destruct (delete_ok [b] o db Hb (Hf o)) as (db' & E & Hb' & Hg'). exists db'. split_and!; [done..|].
    intros q k. rewrite Hg'. repeat case_decide; naive_solver congruence.
  - exists db. split_and!; [done..|]. intros q k. rewrite decide_False; [done|]. by intros [_ ?].
Qed.

Lemma store_pair_tx db a d :
  (∀ b k, fakeip_bucket_of b → has_bucket [b; k] db = false) → plain a → good_domain d →
  ∃ db', store_pair a d db = (Ok tt, db') ∧ pair_stored db db' a d.
Proof.
  intros Hflat Ha Hd. set (six := negb (Addr_Is4 a)).
  destruct (create_ok [] bucketFakeIP db (root_bucket _) (fakeip_good _ (or_introl eq_refl))
    (root_values _ _)) as (db1 & E1 & Hb1 & Hg1). cbn [app] in *.
  assert (∀ b k, fakeip_bucket_of b → has_bucket [b; k] db1 = false) as Hf1
    by (intros b k ?; rewrite Hb1, Hflat, bool_decide_eq_false_2 by done; done).
  destruct (put_ok [bucketFakeIP] (Addr_AsSlice a) (bytes_of_string d) db1) as (db2 & E2 & Hb2 & Hg2);
    [by rewrite Hb1, bool_decide_eq_true_2, orb_true_r|by apply Hf1; left|by apply AsSlice_good
    |done|by apply good_length|].
  destruct (create_ok [] (domain_bucket six) db2 (root_bucket _)
    (fakeip_good _ (domain_bucket_of six)) (root_values _ _)) as (db3 & E3 & Hb3 & Hg3). cbn [app] in *.
  assert (has_bucket [domain_bucket six] db3 = true) as Hd3
    by (by rewrite Hb3, bool_decide_eq_true_2, orb_true_r).
  assert (∀ b k, fakeip_bucket_of b → has_bucket [b; k] db3 = false) as Hf3
    by (intros b k ?; rewrite Hb3, Hb2, Hf1, bool_decide_eq_false_2 by done; done).
  destruct (forget_ok (domain_bucket six) (bb_Get [bucketFakeIP] (Addr_AsSlice a) db1) db3)
    as (db4 & E4 & Hb4 & Hg4); [done|intros; apply Hf3, domain_bucket_of|].
  destruct (put_ok [domain_bucket six] (bytes_of_string d) (Addr_AsSlice a) db4) as (db5 & E5 & Hb5 & Hg5);
    [by rewrite Hb4|rewrite Hb4; apply Hf3, domain_bucket_of|done|done|by apply good_length, AsSlice_good|].
  pose proof (fakeip_not_domain six) as Hne. exists db5. split.
  { unfold store_pair. rewrite (tx_bind_ok _ _ _ _ _ E1), (tx_bind_ok (tx_read _) _ _ _ _ eq_refl).
    by rewrite (tx_bind_ok _ _ _ _ _ E2), (tx_bind_ok _ _ _ _ _ E3), (tx_bind_ok _ _ _ _ _ E4). }
  split.
  - intros k. rewrite Hg5, decide_False, Hg4, decide_False, Hg3, Hg2, Hg1 by naive_solver congruence.
    repeat case_decide; naive_solver.
  - intros six' k. fold six. rewrite Hg5, Hg4, Hg3, Hg2, Hg1, Hg1.
    pose proof (fakeip_not_domain six') as Hne'. pose proof (domain_bucket_inj six' six) as Hinj.
    destruct (Bool.eqb_spec six' six) as [->|Hs];
      repeat case_decide; naive_solver congruence.
  - intros b k Hb Hn. by rewrite Hb5, Hb4, Hf3.
  - intros q. by rewrite Hb5, Hb4, Hb3, Hb2, Hb1.
Qed.

(** A pair is stored as in memory. *)
Lemma store_pair_ok db m md a d :
  db_agrees db m md → plain a → good_domain d →
  ∃ db', store_pair a d db = (Ok tt, db') ∧ db_agrees db' (Memory_Store a d m).2 md ∧
    ∀ q, has_bucket q db' = has_bucket q db || bool_decide (q = [bucketFakeIP]) ||
      bool_decide (q = [domain_bucket (negb (Addr_Is4 a))]).
Proof.
  intros [Ha0 Hd0 Hm0 Hf0 Hwa Hwd Hwm] Ha Hd.
  destruct (store_pair_tx db a d Hf0 Ha Hd) as (db' & E & [Psa Psd Psf Psh]). exists db'. split; [done|].
  split; [|exact Psh].
  assert (∀ b, addressCache (Memory_Store a d m).2 !! b = if decide (b = a) then Some d
    else addressCache m !! b) as Hma by (intros b; exact (Memory_Store_Load a d m b)).
  assert (∀ six e, Memory_cache six (Memory_Store a d m).2 !! e =
    if Bool.eqb six (negb (Addr_Is4 a)) then
      if decide (e = d) then Some a else
      if decide (addressCache m !! a = Some e) then None else Memory_cache six m !! e
    else Memory_cache six m !! e) as Hmd
    by (intros six e; pose proof (Memory_Store_LoadDomain a d m e six) as Hx; by destruct six).
  split.
  - intros b Hb. rewrite Psa, Hma. destruct (decide (b = a)) as [->|Hne].
    + by rewrite decide_True.
    + rewrite decide_False by (intros Heq; by apply AsSlice_inj in Heq). by apply Ha0.
  - intros six e. rewrite Psd, Hmd, Hd0, (Ha0 a Ha). destruct (Bool.eqb six _); [|done].
    destruct (decide (e = d)) as [->|Hne]; [by rewrite decide_True|].
    rewrite decide_False by (intros Heq; by apply bytes_of_string_inj in Heq).
    destruct (decide (addressCache m !! a = Some e)) as [Ho|Ho]; [by rewrite Ho, decide_True|].
    rewrite decide_False; [done|]. intros Hx. apply Ho. destruct (addressCache m !! a) as [o|]; [|done].
    cbn in Hx. injection Hx as Hx. by apply bytes_of_string_inj in Hx as ->.
  - rewrite Psa, decide_False; [done|]. intros Heq. by apply (AsSlice_not_metadata a).
  - intros b k Hb. apply Psf; [done|]. by apply Hf0.
  - intros b e. rewrite Hma. case_decide; [|apply Hwa]. by intros [= <-]; subst.
  - intros six e b. rewrite Hmd. destruct (Bool.eqb six _); [|apply Hwd].
    case_decide; [by intros [= <-]|]. case_decide; [done|apply Hwd].
  - done.
Qed.

(** The calls of a fake IP store; a timer that fires saves the metadata too. *)
Inductive FakeIPCall : Type :=
| Call_Store (address : Addr) (domain : string)
| Call_SaveMetadata (metadata : FakeIPMetadata)
| Call_Metadata
| Call_Load (address : Addr)
| Call_LoadDomain (domain : string) (isIPv6 : bool)
| Call_Reset.

(** What a call answers; of an error, that there is one. *)
Inductive FakeIPAnswer : Type :=
| Answer_Done (failed : bool)
| Answer_Metadata (metadata : option FakeIPMetadata)
| Answer_Domain (domain : option string)
| Answer_Address (address : option Addr).

Definition call_ok (call : FakeIPCall) : Prop :=
  match call with
  | Call_Store a d => plain a ∧ good_domain d
  | Call_SaveMetadata x => metadata_wf x
  | Call_Load a => plain a
  | _ => True
  end.

(** A call of the cache file. *)
Definition file_call (call : FakeIPCall) (c : CacheFile) : FakeIPAnswer * CacheFile :=
  match call with
  | Call_Store a d => let '(e, c) := Cache_FakeIPStore a d c in (Answer_Done (negb (is_nil e)), c)
  | Call_SaveMetadata x =>
      let '(e, c) := Cache_FakeIPSaveMetadata x c in (Answer_Done (negb (is_nil e)), c)
  | Call_Metadata => let '(x, c) := Cache_FakeIPMetadata c in (Answer_Metadata x, c)
  | Call_Load a => let '(d, c) := Cache_FakeIPLoad a c in (Answer_Domain d, c)
  | Call_LoadDomain d six => let '(a, c) := Cache_FakeIPLoadDomain d six c in (Answer_Address a, c)
  | Call_Reset => let '(e, c) := Cache_FakeIPReset c in (Answer_Done (negb (is_nil e)), c)
  end.

(** What the file stands for: a memory storage, the metadata, and which of its buckets something was
    put into since the last reset. *)
Record Kept : Type := mkKept {
  k_pairs : MemoryStorage;
  k_metadata : option FakeIPMetadata;
  k_buckets : FakeIPBuckets
}.

(** The same call of what it stands for, without a look at the file.  The metadata is given out once.
    A reset succeeds when there are addresses, IPv4 domains and IPv6 domains to take away; otherwise
    it fails and takes nothing away. *)
Definition kept_call (call : FakeIPCall) (k : Kept) : FakeIPAnswer * Kept :=
  let '(mkKept m md (mkFakeIPBuckets ba b4 b6)) := k in
  match call with
  | Call_Store a d =>
      (Answer_Done false,
       mkKept (Memory_Store a d m).2 md
         (if Addr_Is4 a then mkFakeIPBuckets true true b6 else mkFakeIPBuckets true b4 true))
  | Call_SaveMetadata x => (Answer_Done false, mkKept m (Some x) (mkFakeIPBuckets true b4 b6))
  | Call_Metadata => (Answer_Metadata md, mkKept m None (mkFakeIPBuckets ba b4 b6))
  | Call_Load a => (Answer_Domain (Memory_Load m a), k)
  | Call_LoadDomain d six => (Answer_Address (Memory_LoadDomain m d six), k)
  | Call_Reset =>
      if ba && b4 && b6 then (Answer_Done false, mkKept (Memory_Reset m).2 None no_buckets)
      else (Answer_Done true, k)
  end.

Fixpoint answers {S} (step : FakeIPCall → S → FakeIPAnswer * S) (calls : list FakeIPCall) (s : S)
    : list FakeIPAnswer :=
  match calls with
  | [] => []
  | call :: calls => let '(r, s) := step call s in r :: answers step calls s
  end.

Definition stands_for (c : CacheFile) (k : Kept) : Prop :=
  agrees c (k_pairs k) (k_metadata k) ∧ cache_buckets c = k_buckets k.

Lemma agrees_db c db m md :
  saveDomain c = ∅ → saveAddress4 c = ∅ → saveAddress6 c = ∅ → fakeip_writes c = [] →
  db_agrees db m md → agrees (c <| c_DB := Some db |>) m md.
Proof. intros ? ? ? ? Hda. split; [by exists db|done..]. Qed.

Lemma store_agrees c m md a d :
  agrees c m md → plain a → good_domain d →
  ∃ c', Cache_FakeIPStore a d c = (None, c') ∧ agrees c' (Memory_Store a d m).2 md ∧
    cache_buckets c' =
      if Addr_Is4 a then mkFakeIPBuckets true true (bk_domain6 (cache_buckets c))
      else mkFakeIPBuckets true (bk_domain4 (cache_buckets c)) true.
Proof.
  intros [(db & Hdb & Hda) H4 H5 H6 H7] Ha Hd.
  destruct (store_pair_ok db m md a d Hda Ha Hd) as (db' & E & Hda' & Hh).
  exists (c <| c_DB := Some db' |>). unfold Cache_FakeIPStore. split; [by rewrite (batch_ok _ _ db tt db' Hdb E)|].
  split; [by apply agrees_db|]. unfold cache_buckets. rewrite Hdb. cbn [c_DB set_field].
  rewrite !Hh. destruct (Addr_Is4 a); cbn; rewrite !orb_true_r; by rewrite ?orb_false_r.
Qed.

(** A value of the address bucket that is not an address. *)
Lemma db_agrees_metadata db db' m md md' v :
  db_agrees db m md → (∀ x, md' = Some x → metadata_wf x) → v = MarshalBinary <$> md' →
  (∀ b k, fakeip_bucket_of b → has_bucket [b; k] db' = has_bucket [b; k] db) →
  (∀ q k, bb_Get q k db' = if decide (q = [bucketFakeIP] ∧ k = keyMetadata) then v else bb_Get q k db) →
  db_agrees db' m md'.
Proof.
  intros [Ha0 Hd0 Hm0 Hf0 Hwa Hwd Hwm] Hwf Hv Hb Hg. split; [..|done].
  - intros a Ha. rewrite Hg, decide_False; [by apply Ha0|]. intros [_ Heq]. by apply (AsSlice_not_metadata a).
  - intros six d. rewrite Hg, decide_False; [apply Hd0|]. intros [[= Heq] _].
    by destruct (fakeip_not_domain six).
  - by rewrite Hg, decide_True.
  - intros b k Hbk. rewrite Hb by done. by apply Hf0.
  - done.
  - done.
Qed.

Lemma MarshalBinary_length x : metadata_wf x → Z.of_nat (length (MarshalBinary x)) ≤ MaxValueSize.
Proof.
  intros (_ & _ & _ & _ & H4 & H6). unfold MarshalBinary, marshal_element. cbn [fmap list_fmap concat].
  rewrite !length_app, !be_bytes_length.
  pose proof (Prefix_MarshalBinary_length (Inet4Range x)).
  pose proof (Prefix_MarshalBinary_length (Inet6Range x)). cbn [length]. unfold MaxValueSize. lia.
Qed.

Lemma MarshalBinary_nonempty x : ∃ b l, MarshalBinary x = b :: l.
Proof. unfold MarshalBinary, marshal_element. cbn [fmap list_fmap concat be_bytes app]. eauto. Qed.

Lemma keyMetadata_good : good_key keyMetadata.
Proof. by split. Qed.

Lemma save_metadata_agrees c m md x :
  agrees c m md → metadata_wf x → (Cache_FakeIPSaveMetadata x c).1 = None ∧
  agrees (Cache_FakeIPSaveMetadata x c).2 m (Some x) ∧
  cache_buckets (Cache_FakeIPSaveMetadata x c).2 =
    mkFakeIPBuckets true (bk_domain4 (cache_buckets c)) (bk_domain6 (cache_buckets c)).
Proof.
  intros [(db & Hdb & Hda) H4 H5 H6 H7] Hx. pose proof (da_flat _ _ _ Hda) as Hf.
  destruct (create_ok [] bucketFakeIP db (root_bucket _) (fakeip_good _ (or_introl eq_refl))
    (root_values _ _)) as (db1 & E1 & Hb1 & Hg1). cbn [app] in *.
  destruct (put_ok [bucketFakeIP] keyMetadata (MarshalBinary x) db1) as (db2 & E2 & Hb2 & Hg2);
    [by rewrite Hb1, bool_decide_eq_true_2, orb_true_r
    |rewrite Hb1, bool_decide_eq_false_2 by done; rewrite orb_false_r; apply Hf; by left
    |apply keyMetadata_good|done|by apply MarshalBinary_length|].
  unfold Cache_FakeIPSaveMetadata. erewrite batch_ok; [|exact Hdb|].
  2: { rewrite (tx_bind_ok _ _ _ _ _ E1). exact E2. }
  split; [done|]. split; cycle 1.
  { unfold cache_buckets. rewrite Hdb. cbn [snd c_DB set_field].
    rewrite !Hb2, !Hb1. cbn. by rewrite orb_true_r, !orb_false_r. }
  apply agrees_db; [done..|].
  apply (db_agrees_metadata db db2 m md (Some x) (Some (MarshalBinary x)) Hda); [by intros y [= <-]|done|..].
  - intros b k Hb. rewrite Hb2, Hb1, bool_decide_eq_false_2 by done. apply orb_false_r.
  - intros q k. by rewrite Hg2, Hg1.
Qed.

(** The metadata is read once. *)
Lemma metadata_agrees c m md :
  agrees c m md → (Cache_FakeIPMetadata c).1 = md ∧ agrees (Cache_FakeIPMetadata c).2 m None ∧
  cache_buckets (Cache_FakeIPMetadata c).2 = cache_buckets c.
Proof.
  intros [(db & Hdb & Hda) H4 H5 H6 H7]. pose proof (da_metadata _ _ _ Hda) as Hm.
  assert (agrees c m md) as Hag by (split; eauto).
  unfold Cache_FakeIPMetadata. set (t := (_ ≫= _ : Tx FakeIPMetadata)).
  destruct (sub_bucket [] bucketFakeIP db) as [p|] eqn:Ep; cycle 1.
  { assert (has_bucket [bucketFakeIP] db = false) as Hno
      by (unfold sub_bucket in Ep; cbn [app] in Ep; by destruct (has_bucket _ db)).
    rewrite Get_absent in Hm by done. destruct md; [done|].
    assert (t db = (Err (E_Ext "file does not exist"), db)) as Et by (unfold t; by rewrite (tx_bind_ok (tx_read _) _ _ _ _ eq_refl), Ep).
    unfold batch. rewrite Hdb, Et. cbn. done. }
  assert (p = [bucketFakeIP] ∧ has_bucket [bucketFakeIP] db = true) as [-> Hhas]
    by (unfold sub_bucket in Ep; cbn [app] in Ep; by destruct (has_bucket _ db); simplify_eq).
  destruct md as [x|]; cycle 1.
  { assert (t db = (Err os_ErrInvalid, db)) as Et
      by (unfold t; rewrite (tx_bind_ok (tx_read _) _ _ _ _ eq_refl), Ep;
          by rewrite (tx_bind_ok (tx_read _) _ _ _ _ eq_refl), Hm).
    unfold batch. rewrite Hdb, Et. cbn. done. }
  destruct (delete_ok [bucketFakeIP] keyMetadata db Hhas) as (db' & E & Hb' & Hg');
    [apply (da_flat _ _ _ Hda); by left|].
  assert (t db = (Ok x, db')) as Et.
  { destruct (MarshalBinary_nonempty x) as (b & l & Hbl).
    change (MarshalBinary <$> Some x) with (Some (MarshalBinary x)) in Hm. rewrite Hbl in Hm.
    unfold t. rewrite (tx_bind_ok (tx_read _) _ _ _ _ eq_refl), Ep.
    rewrite (tx_bind_ok (tx_read _) _ _ _ _ eq_refl), Hm, (tx_bind_ok _ _ _ _ _ E), <-Hbl.
    unfold tx_res. f_equal. apply FakeIPMetadata_roundtrip. by apply (da_metadata_wf _ _ _ Hda). }
  rewrite (batch_ok t c db x db' Hdb Et). split; [done|]. split; cycle 1.
  { unfold cache_buckets. rewrite Hdb. cbn [snd c_DB set_field]. by rewrite !Hb'. }
  apply agrees_db; [done..|].
  apply (db_agrees_metadata db db' m (Some x) None None Hda); [done|done|by intros; rewrite Hb'|].
  intros q k. by rewrite Hg'.
Qed.

Lemma delete_bucket_cases k db :
  (has_bucket [k] db = true ∧ ∃ db', bb_DeleteBucket [] k db = (Ok tt, db') ∧
    (∀ q, has_bucket q db' = has_bucket q db && negb (bool_decide ([k] `prefix_of` q))) ∧
    (∀ q k', bb_Get q k' db' = if decide ([k] `prefix_of` q) then None else bb_Get q k' db)) ∨
  (has_bucket [k] db = false ∧ ∃ e, bb_DeleteBucket [] k db = (Err e, db)).
Proof.
  destruct (has_bucket [k] db) eqn:E; [left|right; split; [done|by apply DeleteBucket_missing]].
  pose proof (DeleteBucket_ok [] k db E) as Hok.
  destruct (bb_DeleteBucket [] k db) as [r db'] eqn:Eq. cbn in Hok. subst r. split; [done|].
  exists db'. split; [done|]. by apply (DeleteBucket_frame [] k).
Qed.

Lemma prefix_one (k k' : key) : [k] `prefix_of` [k'] ↔ k = k'.
Proof. split; [intros [l [= -> _]]; done|by intros ->]. Qed.

(** The buckets that are deleted; the error of the first that is missing takes all of it back. *)
Lemma reset_tx db :
  let all := has_bucket [bucketFakeIP] db && has_bucket [bucketFakeIPDomain4] db &&
             has_bucket [bucketFakeIPDomain6] db in
  (all = true ∧ ∃ db', reset_pairs db = (Ok tt, db') ∧
    (∀ b q k, fakeip_bucket_of b → bb_Get (b :: q) k db' = None ∧ has_bucket (b :: q) db' = false)) ∨
  (all = false ∧ ∃ e, (reset_pairs db).1 = Err e).
Proof.
  cbv zeta. unfold reset_pairs.
  assert (∀ b b' : key, b ≠ b' → bool_decide ([b] `prefix_of` [b']) = false) as Hne
    by (intros b b' Hb; apply bool_decide_eq_false; by rewrite prefix_one).
  destruct (delete_bucket_cases bucketFakeIP db) as [(Hh1 & db1 & E1 & Hb1 & Hg1)|[Hh1 [e E1]]];
    rewrite Hh1; cbn [andb]; [rewrite (tx_bind_ok _ _ _ _ _ E1)|right; split; [done|]; exists e;
      unfold mbind, Tx_bind; by rewrite E1].
  destruct (delete_bucket_cases bucketFakeIPDomain4 db1) as [(Hh2 & db2 & E2 & Hb2 & Hg2)|[Hh2 [e E2]]];
    rewrite Hb1, Hne, andb_true_r in Hh2 by done; rewrite Hh2; cbn [andb];
    [rewrite (tx_bind_ok _ _ _ _ _ E2)|right; split; [done|]; exists e;
      unfold mbind, Tx_bind; by rewrite E2].
  destruct (delete_bucket_cases bucketFakeIPDomain6 db2) as [(Hh3 & db3 & E3 & Hb3 & Hg3)|[Hh3 [e E3]]];
    rewrite Hb2, Hb1, !Hne, !andb_true_r in Hh3 by done; rewrite Hh3;
    [|right; split; [done|]; exists e; by rewrite E3].
  left. split; [done|]. exists db3. split; [done|]. intros b q k Hk.
  assert ([b] `prefix_of` b :: q) as Hp by (by exists q). split.
  - rewrite Hg3, Hg2, Hg1. destruct Hk as [->|[->| ->]]; by repeat case_decide.
  - rewrite Hb3, Hb2, Hb1. destruct Hk as [->|[->| ->]];
      rewrite (bool_decide_eq_true_2 _ Hp); cbn [negb]; by rewrite ?andb_false_r.
Qed.

(** A reset clears everything, or reports an error and changes nothing. *)
Lemma reset_agrees c m md :
  agrees c m md →
  let '(mkFakeIPBuckets ba b4 b6) := cache_buckets c in
  if ba && b4 && b6
  then ∃ c', Cache_FakeIPReset c = (None, c') ∧ agrees c' (Memory_Reset m).2 None ∧
         cache_buckets c' = no_buckets
  else ∃ e, Cache_FakeIPReset c = (Some e, c).
Proof.
  intros Hag. destruct (ag_db _ _ _ Hag) as (db & Hdb & [Ha0 Hd0 Hm0 Hf0 Hwa Hwd Hwm]).
  unfold cache_buckets at 1. rewrite Hdb. unfold Cache_FakeIPReset.
  destruct (reset_tx db) as [(Hall & db' & Et & Hg)|(Hall & e & Et)]; rewrite Hall.
  - exists (c <| c_DB := Some db' |>). rewrite (batch_ok _ c db tt db' Hdb Et). split; [done|].
    assert (∀ b q k, fakeip_bucket_of b → bb_Get (b :: q) k db' = None) as Hget by (intros; by apply Hg).
    assert (∀ b q, fakeip_bucket_of b → has_bucket (b :: q) db' = false) as Hhas
      by (intros b q Hb; by apply (Hg b q [])).
    split; cycle 1.
    { unfold cache_buckets. cbn [c_DB set_field]. unfold fakeip_bucket_of in Hhas. by rewrite !Hhas by auto. }
    destruct Hag. apply agrees_db; [done..|]. split.
    + intros a Ha. rewrite Hget by (by left). cbn. by rewrite lookup_empty.
    + intros six d. rewrite Hget by apply domain_bucket_of. destruct six; cbn; by rewrite lookup_empty.
    + rewrite Hget by (by left). done.
    + intros b k Hk. by apply Hhas.
    + intros a d. cbn. by rewrite lookup_empty.
    + intros six d a. destruct six; cbn; by rewrite lookup_empty.
    + done.
  - exists e. unfold batch. rewrite Hdb.
    destruct (reset_pairs db) as [r db'] eqn:Eq. cbn in Et. by subst r.
Qed.

(** Reading through a bucket of the root. *)
Lemma view_ok {A} (fn : DB → res A) c db a :
  c_DB c = Some db → fn db = Ok a → view fn c = (Ok a, c).
Proof. unfold view. by intros -> ->. Qed.

Lemma load_agrees c m md a :
  agrees c m md → plain a → Cache_FakeIPLoad a c = (Memory_Load m a, c).
Proof.
  intros [(db & Hdb & Hda) H4 H5 H6 H7] Ha. unfold Cache_FakeIPLoad. rewrite H4, lookup_empty.
  erewrite view_ok by (exact Hdb || reflexivity); rewrite sub_bucket_Get. cbn [app].
  rewrite (da_address _ _ _ Hda a Ha). unfold Memory_Load.
  destruct (addressCache m !! a) as [d|] eqn:E; [|done]. cbn -[String.eqb].
  apply (da_addresses _ _ _ Hda) in E as [_ [Hne _]]. rewrite string_of_bytes_of_string.
  destruct (String.eqb_spec d "") as [->|]; [done|done].
Qed.

Lemma load_domain_agrees c m md d six :
  agrees c m md → Cache_FakeIPLoadDomain d six c = (Memory_LoadDomain m d six, c).
Proof.
  intros [(db & Hdb & Hda) H4 H5 H6 H7]. unfold Cache_FakeIPLoadDomain.
  replace ((if six then saveAddress6 c else saveAddress4 c) !! d) with (@None Addr)
    by (destruct six; rewrite ?H5, ?H6; by rewrite lookup_empty).
  erewrite view_ok by (exact Hdb || reflexivity); rewrite sub_bucket_Get. cbn [app].
  rewrite (da_domain _ _ _ Hda). 
  assert (Memory_LoadDomain m d six = Memory_cache six m !! d) as -> by (by destruct six).
  destruct (Memory_cache six m !! d) as [a|] eqn:E; cbn; [|by rewrite AddrFromIP_nil].
  apply (da_domains _ _ _ Hda) in E as (Hv & Hw & Hz & Hm). by rewrite AddrFromIP_AsSlice, Hv.
Qed.

(** One call: the same answer, and the file stands for what is kept after it. *)
Lemma file_call_agrees call c k :
  call_ok call → stands_for c k →
  (file_call call c).1 = (kept_call call k).1 ∧ stands_for (file_call call c).2 (kept_call call k).2.
Proof.
  intros Hok [Hag Hb]. destruct k as [m md [ba b4 b6]]. cbn in Hag, Hb. unfold stands_for.
  destruct call as [a d|x| |a|d six|]; unfold file_call, kept_call; cbn in Hok.
  - destruct Hok. destruct (store_agrees c m md a d) as (c' & -> & Hag' & Hb'); [done..|].
    rewrite Hb in Hb'. split; [done|]. split; [done|].
    cbn [snd k_buckets]. rewrite Hb'. by destruct (Addr_Is4 a).
  - destruct (save_metadata_agrees c m md x Hag Hok) as (He & Hag' & Hb').
    destruct (Cache_FakeIPSaveMetadata x c) as [e c']. cbn in He. subst e. split; [done|].
    split; [done|]. cbn in Hb' |- *. by rewrite Hb', Hb.
  - destruct (metadata_agrees c m md Hag) as (He & Hag' & Hb').
    destruct (Cache_FakeIPMetadata c) as [x c']. cbn in He. subst x. split; [done|].
    split; [done|]. cbn in Hb' |- *. by rewrite Hb', Hb.
  - by rewrite (load_agrees c m md).
  - by rewrite (load_domain_agrees c m md).
  - pose proof (reset_agrees c m md Hag) as Hr. rewrite Hb in Hr. destruct (ba && b4 && b6).
    + destruct Hr as (c' & -> & Hag' & Hb'). done.
    + destruct Hr as (e & ->). done.
Qed.

(** C8: the cache file keeps the pairs of a fake IP store as the memory storage does: whatever the
    sequence of calls, storing a pair, saving the metadata, reading it back, resetting and looking
    addresses and domains up, as long as the disk does not fail every call gets from the file the
    answer it gets from a memory storage with the metadata that was saved last.  Storing and saving succeed.  The one difference is a
    reset: it succeeds, and then everything is gone, when addresses, IPv4 domains and IPv6 domains
    were all stored since the last one, and otherwise it fails and takes nothing away (the bucket of
    the addresses is also there once the metadata was saved). *)
Theorem CacheFile_refines_Memory c m md calls :
  agrees c m md → Forall call_ok calls →
  answers file_call calls c = answers kept_call calls (mkKept m md (cache_buckets c)).
Proof.
  intros Hag Hok. assert (stands_for c (mkKept m md (cache_buckets c))) as Hs by done.
  revert Hs. generalize (mkKept m md (cache_buckets c)) as k. clear m md Hag.
  revert c. induction Hok as [|call calls Hc Hok IH]; intros c k Hs; [done|]. cbn [answers].
  destruct (file_call_agrees call c k Hc Hs) as [Hr Hs'].
  destruct (file_call call c) as [r c'], (kept_call call k) as [r' k']. cbn in Hr, Hs'. subst r'.
  by rewrite (IH c' k').
Qed.

(** *** What belongs to a configuration *)

(** A cache id as [New] makes it. *)
Definition id_ok (id : option key) : Prop :=
  match id with Some (b :: l) => b = x00 | Some [] => False | None => True end.

Definition with_id (id : option key) (c : CacheFile) : CacheFile := c <| cacheID := id |>.

Definition bucket_path (id : option key) (b : key) : list key :=
  match id with None => [b] | Some id => [id; b] end.

Lemma bucket_value c b db :
  bucket c b db =
    if has_bucket (bucket_path (cacheID c) b) db then Some (bucket_path (cacheID c) b) else None.
Proof.
  unfold bucket, sub_bucket. destruct (cacheID c) as [id|]; [|done]. cbn.
  destruct (has_bucket [id] db) eqn:Hid; [done|]. cbn.
  destruct (has_bucket [id; b] db) eqn:Hb; [|done]. by rewrite (bucket_parent [id] b) in Hid.
Qed.

Lemma get_in_path c b k db : get_in c b k db = bb_Get (bucket_path (cacheID c) b) k db.
Proof.
  unfold get_in. rewrite bucket_value. destruct (has_bucket _ db) eqn:E; [done|].
  by rewrite Get_absent.
Qed.

(** *** What the loads answer, by the value they read *)

Lemma LoadMode_value c db :
  c_DB c = Some db →
  (LoadMode c).1 = from_option string_of_bytes "" (bb_Get [bucketMode] (mode_key c) db).
Proof.
  intros Hdb. unfold LoadMode. erewrite view_ok by (exact Hdb || reflexivity).
  rewrite sub_bucket_Get. cbn [app fst]. by destruct (bb_Get _ _ _).
Qed.

Lemma LoadSelected_value c db group :
  c_DB c = Some db →
  (Cache_LoadSelected group c).1 =
    from_option string_of_bytes "" (bb_Get (bucket_path (cacheID c) bucketSelected) (bytes_of_string group) db).
Proof.
  intros Hdb. unfold Cache_LoadSelected. erewrite view_ok by (exact Hdb || reflexivity).
  rewrite get_in_path. by destruct (bb_Get _ _ _).
Qed.

Lemma LoadGroupExpand_value c db group :
  c_DB c = Some db →
  (LoadGroupExpand group c).1 =
    match bb_Get (bucket_path (cacheID c) bucketExpand) (bytes_of_string group) db with
    | Some [b] => Some (bool_decide (b = x01)) | _ => None
    end.
Proof.
  intros Hdb. unfold LoadGroupExpand. erewrite view_ok by (exact Hdb || reflexivity).
  by rewrite get_in_path.
Qed.

Lemma bucket_get_in c b k db : (p ← bucket c b db; bb_Get p k db) = get_in c b k db.
Proof. done. Qed.

Lemma view_fst {A} (fn : DB → res A) c db :
  c_DB c = Some db → (view fn c).1 = match fn db with
    | Panic p => Err (E_New (AStr "database corrupted: " :: p)) | r => r end.
Proof. intros Hdb. unfold view. rewrite Hdb. by destruct (fn db). Qed.

Lemma LoadRuleSet_value c db tag :
  c_DB c = Some db →
  (LoadRuleSet tag c).1 =
    match bb_Get (bucket_path (cacheID c) bucketRuleSet) (bytes_of_string tag) db with
    | Some (b :: l) => match Saved_UnmarshalBinary (b :: l) with Ok s => Some s | _ => None end
    | _ => None
    end.
Proof.
  intros Hdb. rewrite <-get_in_path. unfold LoadRuleSet.
  match goal with |- context [view ?f c] => pose proof (view_fst f c db Hdb) as Hv; destruct (view f c) as [r c'] end.
  cbn [fst] in Hv |- *. subst r. unfold get_in.
  destruct (bucket c bucketRuleSet db) as [p|]; [|done].
  change (mbind _ (Some p)) with (bb_Get p (bytes_of_string tag) db).
  destruct (bb_Get p (bytes_of_string tag) db) as [[|b l]|]; [done| |done].
  by destruct (Saved_UnmarshalBinary (b :: l)).
Qed.

Definition rdrc_path (id : option key) (transportName : string) : list key :=
  bucket_path id bucketRDRC ++ [bytes_of_string transportName].

Lemma rdrc_bucket_Get c t k db :
  (p ← rdrc_bucket c t db; bb_Get p k db) = bb_Get (rdrc_path (cacheID c) t) k db.
Proof.
  unfold rdrc_bucket. rewrite bucket_value. destruct (has_bucket _ db) eqn:E.
  - exact (sub_bucket_Get _ _ _ _).
  - cbn. rewrite Get_absent; [done|]. apply not_true_iff_false. intros Hb%bucket_parent. congruence.
Qed.

Lemma rdrc_lookup_value c now t q ty db :
  rdrc_lookup c now t q ty db =
    match bb_Get (rdrc_path (cacheID c) t) (rdrc_key q ty) db with
    | None => Ok (false, false)
    | Some content =>
        expiresAt ← read_expiry content;
        Ok (if Z.ltb expiresAt now then (false, true) else (true, false))
    end.
Proof.
  rewrite <-rdrc_bucket_Get. unfold rdrc_lookup. destruct (rdrc_bucket c t db) as [p|]; [|done]. done.
Qed.

Lemma LoadRDRC_value c now t q ty db :
  c_DB c = Some db →
  (Cache_LoadRDRC now t q ty c).1 =
    match saveRDRC c !! (t, q, ty) with
    | Some rejected => rejected
    | None =>
        match bb_Get (rdrc_path (cacheID c) t) (rdrc_key q ty) db with
        | None => false
        | Some content => match read_expiry content with Ok expiresAt => negb (Z.ltb expiresAt now) | _ => false end
        end
    end.
Proof.
  intros Hdb. unfold Cache_LoadRDRC. destruct (saveRDRC c !! _); [done|].
  pose proof (view_fst (rdrc_lookup c now t q ty) c db Hdb) as Hv.
  destruct (view _ c) as [r c']. cbn in Hv |- *. subst r. rewrite rdrc_lookup_value.
  destruct (bb_Get _ _ db) as [content|]; [|done].
  destruct (read_expiry content) as [e| |]; cbn; [|done|done]. by destruct (Z.ltb e now).
Qed.

(** *** What a write changes *)

Inductive CacheWrite : Type :=
| Write_Mode (mode : string)
| Write_Selected (group selected : string)
| Write_GroupExpand (group : string) (isExpand : bool)
| Write_RuleSet (tag : string) (set : SavedBinary)
| Write_RDRC (now : Z) (transportName qName : string) (qType : Z).

Definition run_write (w : CacheWrite) (c : CacheFile) : option error * CacheFile :=
  match w with
  | Write_Mode mode => StoreMode mode c
  | Write_Selected group selected => Cache_StoreSelected group selected c
  | Write_GroupExpand group isExpand => StoreGroupExpand group isExpand c
  | Write_RuleSet tag set => SaveRuleSet tag set c
  | Write_RDRC now t q ty => SaveRDRC now t q ty c
  end.

(** Where it writes, and what. *)
Definition target (c : CacheFile) (w : CacheWrite) : list key * key * list byte :=
  match w with
  | Write_Mode mode => ([bucketMode], mode_key c, bytes_of_string mode)
  | Write_Selected group selected =>
      (bucket_path (cacheID c) bucketSelected, bytes_of_string group, bytes_of_string selected)
  | Write_GroupExpand group isExpand =>
      (bucket_path (cacheID c) bucketExpand, bytes_of_string group, if isExpand then [x01] else [x00])
  | Write_RuleSet tag set =>
      (bucket_path (cacheID c) bucketRuleSet, bytes_of_string tag, Saved_MarshalBinary set)
  | Write_RDRC now t q ty =>
      (rdrc_path (cacheID c) t, rdrc_key q ty, be_bytes 8 (u64 (time_Unix (now + rdrcTimeout c))))
  end.

(** A part of a transaction that ends in a path and changes no value. *)
Definition makes (t : Tx (list key)) (p : list key) : Prop :=
  ∀ db, match t db with
        | (Ok p', db') => p' = p ∧ ∀ q k, bb_Get q k db' = bb_Get q k db
        | (Err _, _) => True
        | (Panic _, _) => False
        end.

Lemma makes_create p k : makes (create_bucket p k) (p ++ [k]).
Proof.
  intros db. unfold create_bucket, mbind, Tx_bind.
  pose proof (Create_safe p k db) as Hs.
  destruct (bb_CreateBucketIfNotExists p k db) as [[[]|e|x] db'] eqn:E; [|done|done].
  split; [done|]. intros q k'. by apply (Create_frame p k db db').
Qed.

Lemma makes_bind t p f p' : makes t p → makes (f p) p' → makes (t ≫= f) p'.
Proof.
  intros Ht Hf db. specialize (Ht db). unfold mbind, Tx_bind.
  destruct (t db) as [[q|e|x] db1]; [|done|done]. destruct Ht as [-> Hg]. specialize (Hf db1).
  destruct (f p db1) as [[q|e|x] db2]; [|done|done]. destruct Hf as [-> Hg'].
  split; [done|]. intros q k. by rewrite Hg', Hg.
Qed.

Lemma makes_createBucket c b : makes (createBucket c b) (bucket_path (cacheID c) b).
Proof.
  unfold createBucket. destruct (cacheID c) as [id|]; [|apply (makes_create [])].
  eapply makes_bind; [apply (makes_create [])|apply (makes_create [id])].
Qed.

(** A transaction that changes one value, or fails. *)
Definition changes (t : Tx ()) (x : list key * key * list byte) : Prop :=
  ∀ db, match t db with
        | (Ok tt, db') =>
            ∀ q k, bb_Get q k db' = if decide ((q, k) = x.1) then Some x.2 else bb_Get q k db
        | (Err _, _) => True
        | (Panic _, _) => False
        end.

Lemma changes_put p k v : changes (bb_Put p k v) (p, k, v).
Proof.
  intros db. pose proof (Put_safe p k v db) as Hs.
  destruct (bb_Put p k v db) as [[[]|e|x] db'] eqn:E; [|done|done].
  intros q k'. cbn [fst snd]. destruct (Put_frame p k v db db' E) as [_ ->].
  repeat case_decide; naive_solver.
Qed.

Lemma changes_bind t p f x : makes t p → changes (f p) x → changes (t ≫= f) x.
Proof.
  intros Ht Hf db. specialize (Ht db). unfold mbind, Tx_bind.
  destruct (t db) as [[q|e|y] db1]; [|done|done]. destruct Ht as [-> Hg]. specialize (Hf db1).
  destruct (f p db1) as [[[]|e|y] db2]; [|done|done]. intros q k. by rewrite Hf, Hg.
Qed.

Lemma batch_changes t x c db :
  changes t x → c_DB c = Some db →
  (∃ e, batch t c = (Err e, c)) ∨
  ∃ db', batch t c = (Ok tt, c <| c_DB := Some db' |>) ∧
    ∀ q k, bb_Get q k db' = if decide ((q, k) = x.1) then Some x.2 else bb_Get q k db.
Proof.
  intros Ht Hdb. specialize (Ht db). unfold batch. rewrite Hdb.
  destruct (t db) as [[[]|e|y] db']; [|by left; eexists|done].
  destruct (bb_Commit db') as [e|]; [by left; exists e|]. right. by exists db'.
Qed.

(** A write changes one value, or fails and changes nothing. *)
Lemma run_write_spec w c db :
  c_DB c = Some db →
  (∃ e, run_write w c = (Some e, c)) ∨
  ∃ db', run_write w c = (None, c <| c_DB := Some db' |>) ∧
    ∀ q k, bb_Get q k db' = if decide ((q, k) = (target c w).1) then Some (target c w).2 else bb_Get q k db.
Proof.
  intros Hdb. assert (∀ t, changes t (target c w) →
    (∃ e, (let '(r, c) := batch t c in (err_of r, c)) = (Some e, c)) ∨
    ∃ db', (let '(r, c) := batch t c in (err_of r, c)) = (None, c <| c_DB := Some db' |>) ∧
    ∀ q k, bb_Get q k db' = if decide ((q, k) = (target c w).1) then Some (target c w).2
                            else bb_Get q k db) as Hw.
  { intros t Ht. destruct (batch_changes t _ c db Ht Hdb) as [[e E]|(db' & E & Hg)]; rewrite E;
      [left; by exists e|]. right. by exists db'. }
  destruct w; apply Hw; eapply changes_bind;
    [apply (makes_create [])|apply changes_put|apply makes_createBucket|apply changes_put..
    |apply makes_createBucket|apply changes_put|apply makes_createBucket|apply changes_put
    |apply makes_createBucket|].
  eapply changes_bind; [apply makes_create|apply changes_put].
Qed.

(** Two configurations never use the same key. *)
Lemma bucket_path_ids id id' b b' r r' :
  id_ok id → id_ok id' → id ≠ id' → b ∈ bucketNameList → b' ∈ bucketNameList →
  bucket_path id b ++ r ≠ bucket_path id' b' ++ r'.
Proof.
  assert (∀ (i : key) x, id_ok (Some i) → x ∈ bucketNameList → i ≠ x) as Hne.
  { intros [|y i] x; cbn; [done|]. intros -> Hx <-. unfold bucketNameList in Hx.
    by repeat (apply elem_of_cons in Hx as [Hx|Hx]; [discriminate Hx|]); apply not_elem_of_nil in Hx. }
  intros Hi Hi' Hne' Hb Hb' Heq. destruct id as [i|], id' as [i'|]; cbn in Heq; try done.
  - injection Heq as -> _. done.
  - injection Heq as -> _. by apply (Hne b' b').
  - injection Heq as -> _. by apply (Hne i' i').
Qed.

Lemma target_bucket c w :
  (target c w).1.1 = [bucketMode] ∨
  ∃ b r, b ∈ bucketNameList ∧ b ≠ bucketMode ∧ (target c w).1.1 = bucket_path (cacheID c) b ++ r.
Proof.
  destruct w; cbn [target fst]; [by left|right; eexists _, []; rewrite app_nil_r..|right; eexists _, [_]];
    (split; [|split; [|reflexivity]]); [|done| |done| |done| |done];
    apply (bool_decide_unpack _); vm_compute; exact I.
Qed.

Lemma mode_key_inj id id' c :
  id_ok id → id_ok id' → id ≠ id' → mode_key (with_id id c) ≠ mode_key (with_id id' c).
Proof.
  assert (∀ b l, b :: l = cacheIDDefault → b ≠ x00) as Hd by (by intros b l [= -> _]).
  destruct id as [[|b l]|], id' as [[|b' l']|]; cbn; try done.
  - intros _ _ Hne [= -> ->]. done.
  - intros -> _ _ Heq. by apply Hd in Heq.
  - intros _ -> _ Heq. symmetry in Heq. by apply Hd in Heq.
Qed.

Ltac known_name := first [done | apply (bool_decide_unpack _); vm_compute; exact I].

(** C9: configurations that share a file do not see each other: whatever one with a cache id writes, a
    mode, a selection, a group, a rule set or a rejected answer, the ones with other ids read what
    they read before. *)
Theorem cache_ids_apart c db w id :
  c_DB c = Some db → id_ok (cacheID c) → id_ok id → id ≠ cacheID c →
  let before := with_id id c in
  let after := with_id id (run_write w c).2 in
  (LoadMode after).1 = (LoadMode before).1 ∧
  (∀ group, (Cache_LoadSelected group after).1 = (Cache_LoadSelected group before).1) ∧
  (∀ group, (LoadGroupExpand group after).1 = (LoadGroupExpand group before).1) ∧
  (∀ tag, (LoadRuleSet tag after).1 = (LoadRuleSet tag before).1) ∧
  ∀ now t q ty, (Cache_LoadRDRC now t q ty after).1 = (Cache_LoadRDRC now t q ty before).1.
Proof.
  intros Hdb Hc Hid Hne before after.
  destruct (run_write_spec w c db Hdb) as [[e E]|(db' & E & Hg)];
    [unfold after; rewrite E; done|].
  assert (c_DB after = Some db') as Hafter by (unfold after; by rewrite E).
  assert (cacheID after = id ∧ saveRDRC after = saveRDRC c ∧ mode_key after = mode_key before) as (Hi & Hs & Hk)
    by (unfold after; rewrite E; done).
  assert (∀ b r k, b ∈ bucketNameList → b ≠ bucketMode →
    bb_Get (bucket_path id b ++ r) k db' = bb_Get (bucket_path id b ++ r) k db) as Hframe.
  { intros b r k Hb Hbm. rewrite Hg, decide_False; [done|]. intros Heq%(f_equal fst). cbn [fst] in Heq.
    destruct (target_bucket c w) as [Ht|(b' & r' & Hb' & _ & Ht)]; rewrite Ht in Heq.
    - destruct id as [i|]; cbn in Heq; [done|]. injection Heq. by intros _ ?.
    - by apply (bucket_path_ids id (cacheID c) b b' r r'). }
  assert (bb_Get [bucketMode] (mode_key before) db' = bb_Get [bucketMode] (mode_key before) db) as Hmode.
  { rewrite Hg, decide_False; [done|]. destruct w; cbn [target fst];
      try (intros [= Heq Hm]; destruct (cacheID c); discriminate Heq).
    intros [= Hm]. by apply (mode_key_inj id (cacheID c) c). }
  assert (∀ b k, b ∈ bucketNameList → b ≠ bucketMode →
    bb_Get (bucket_path id b) k db' = bb_Get (bucket_path id b) k db) as Hflat.
  { intros b k Hb Hbm. pose proof (Hframe b [] k Hb Hbm) as Hf. by rewrite app_nil_r in Hf. }
  split_and!; intros.
  - by rewrite (LoadMode_value after db'), (LoadMode_value before db), Hk, Hmode by done.
  - by rewrite (LoadSelected_value after db'), (LoadSelected_value before db), Hi, Hflat by known_name.
  - by rewrite (LoadGroupExpand_value after db'), (LoadGroupExpand_value before db), Hi, Hflat by known_name.
  - by rewrite (LoadRuleSet_value after db'), (LoadRuleSet_value before db), Hi, Hflat by known_name.
  - rewrite (LoadRDRC_value after now t q ty db'), (LoadRDRC_value before now t q ty db), Hi, Hs by done.
    unfold rdrc_path. by rewrite Hframe by known_name.
Qed.

(** *** What is read back *)

(** The value that was written is at its place. *)
Lemma written w c c' db :
  c_DB c = Some db → run_write w c = (None, c') →
  ∃ db', c' = c <| c_DB := Some db' |> ∧
    ∀ q k, bb_Get q k db' = if decide ((q, k) = (target c w).1) then Some (target c w).2 else bb_Get q k db.
Proof.
  intros Hdb E. destruct (run_write_spec w c db Hdb) as [[e He]|(db' & E' & Hg)]; [congruence|].
  exists db'. split; [congruence|done].
Qed.

(** A selection that is stored is loaded, and those of other groups stay. *)
Lemma LoadSelected_Store group selected c c' db g :
  c_DB c = Some db → Cache_StoreSelected group selected c = (None, c') →
  (Cache_LoadSelected g c').1 = if decide (g = group) then selected else (Cache_LoadSelected g c).1.
Proof.
  intros Hdb E. destruct (written (Write_Selected group selected) c c' db Hdb E) as (db' & -> & Hg).
  erewrite LoadSelected_value by reflexivity. rewrite (LoadSelected_value c db g Hdb), Hg. cbn [target fst snd].
  change (cacheID (c <| c_DB := Some db' |>)) with (cacheID c).
  destruct (decide (g = group)) as [->|Hne].
  - rewrite decide_True by done. apply string_of_bytes_of_string.
  - rewrite decide_False; [done|]. intros [= Hb]. by apply Hne, bytes_of_string_inj.
Qed.

(** [time.Unix] of the seconds of a time. *)
Definition truncate (t : Z) : Z := time_of_Unix (time_Unix t).

Lemma i64_u64 z : - 2 ^ 63 ≤ z < 2 ^ 63 → i64 (u64 z) = z.
Proof.
  intros Hz. unfold i64, u64, wrap. destruct (Z.ltb_spec (z mod 2 ^ 64) (2 ^ 63)) as [Hl|Hl];
    destruct (Z.leb_spec 0 z); pose proof (Z.mod_small z (2 ^ 64));
    pose proof (Z.mod_small (z + 2 ^ 64) (2 ^ 64));
    assert ((z + 2 ^ 64) mod 2 ^ 64 = z mod 2 ^ 64) by (rewrite <-(Z.mul_1_l (2 ^ 64)) at 1; apply Z.mod_add; lia);
    lia.
Qed.

(** A saved rule set of a size that can be allocated. *)
Definition saved_ok (s : SavedBinary) : Prop :=
  Z.of_nat (length (sb_Content s)) ≤ max_alloc ∧ Z.of_nat (String.length (sb_LastEtag s)) ≤ max_alloc ∧
  - 2 ^ 63 ≤ time_Unix (sb_LastUpdated s) < 2 ^ 63.

Lemma reads_makeslice_length {A} (l : list A) :
  Z.of_nat (length l) ≤ max_alloc → reads (makeslice 1 (Z.of_nat (length l))) [] tt.
Proof. intros Hl. apply reads_makeslice. lia. Qed.

Lemma u64_length {A} (l : list A) : Z.of_nat (length l) ≤ max_alloc → is_u 64 (Z.of_nat (length l)).
Proof. intros Hl. unfold is_u. assert (max_alloc < 2 ^ 64) by done. lia. Qed.

Lemma reads_saved s :
  saved_ok s →
  reads Saved_reader (Saved_MarshalBinary s)
    (mkSavedBinary (sb_Content s) (truncate (sb_LastUpdated s)) (sb_LastEtag s)).
Proof.
  intros (Hc & He & Ht). rewrite <-length_bytes_of_string in He.
  unfold Saved_reader, Saved_MarshalBinary. rewrite <-length_bytes_of_string.
  set (etag := bytes_of_string (sb_LastEtag s)) in *.
  eapply reads_bind; [apply reads_be; lia|].
  eapply reads_bind; [by apply reads_uvarint, u64_length|].
  change (?x ++ ?y) with ([] ++ (x ++ y)). eapply reads_bind; [by apply reads_makeslice_length|].
  eapply reads_bind; [apply reads_full; by rewrite Nat2Z.id|].
  eapply reads_bind; [apply reads_be; apply (wrap_is_u 64); lia|].
  eapply reads_bind; [by apply reads_uvarint, u64_length|].
  change etag with ([] ++ etag). eapply reads_bind; [by apply reads_makeslice_length|].
  rewrite <-(app_nil_r etag). eapply reads_bind; [apply reads_full; by rewrite Nat2Z.id, ?app_nil_r|].
  rewrite i64_u64 by done. cbn [app]. rewrite ?app_nil_r. unfold etag. rewrite string_of_bytes_of_string.
  apply reads_ret.
Qed.

(** The rule set of a tag after one was saved. *)
Lemma LoadRuleSet_Saved tag set c c' db t :
  c_DB c = Some db → saved_ok set → SaveRuleSet tag set c = (None, c') →
  (LoadRuleSet t c').1 =
    if decide (t = tag)
    then Some (mkSavedBinary (sb_Content set) (truncate (sb_LastUpdated set)) (sb_LastEtag set))
    else (LoadRuleSet t c).1.
Proof.
  intros Hdb Hset E. destruct (written (Write_RuleSet tag set) c c' db Hdb E) as (db' & -> & Hg).
  erewrite LoadRuleSet_value by reflexivity. rewrite (LoadRuleSet_value c db t Hdb), Hg. cbn [target fst snd].
  change (cacheID (c <| c_DB := Some db' |>)) with (cacheID c).
  destruct (decide (t = tag)) as [->|Hne].
  - rewrite decide_True by done. pose proof (reads_saved set Hset []) as Hr. rewrite app_nil_r in Hr.
    unfold Saved_UnmarshalBinary. destruct (Saved_MarshalBinary set) as [|b l] eqn:Eb.
    + by unfold Saved_MarshalBinary in Eb.
    + by rewrite Hr.
  - rewrite decide_False; [done|]. intros [= Hb]. by apply Hne, bytes_of_string_inj.
Qed.

(** A rule set that is saved is loaded again under its tag, with its entity tag and the second it
    was updated in; the rule sets of other tags and the selections stay. *)
Theorem LoadRuleSet_Save tag set c c' t :
  saved_ok set → SaveRuleSet tag set c = (None, c') →
  (LoadRuleSet t c').1 =
    (if decide (t = tag)
     then Some (mkSavedBinary (sb_Content set) (truncate (sb_LastUpdated set)) (sb_LastEtag set))
     else (LoadRuleSet t c).1) ∧
  (∀ group, (Cache_LoadSelected group c').1 = (Cache_LoadSelected group c).1).
Proof.
  intros Hset E. destruct (c_DB c) as [db|] eqn:Hdb; [|unfold SaveRuleSet, batch in E; by rewrite Hdb in E].
  split; [by apply (LoadRuleSet_Saved tag set c c' db t)|]. intros group.
  destruct (written (Write_RuleSet tag set) c c' db Hdb E) as (db' & -> & Hg).
  erewrite LoadSelected_value by reflexivity. rewrite (LoadSelected_value c db group Hdb), Hg, decide_False; [done|].
  cbn. intros Heq%(f_equal fst). cbn in Heq. destruct (cacheID c); cbn in Heq; discriminate Heq.
Qed.

(** A rejected answer is remembered for the configured time and no longer: until the second it
    expires in, and only for its transport, its name and its type. *)
Theorem LoadRDRC_Save now now' t q ty t' q' ty' c c' db :
  c_DB c = Some db → saveRDRC c = ∅ → is_u 16 ty → is_u 16 ty' →
  - 2 ^ 63 ≤ time_Unix (now + rdrcTimeout c) < 2 ^ 63 →
  SaveRDRC now t q ty c = (None, c') →
  (Cache_LoadRDRC now' t' q' ty' c').1 =
    if decide ((t', q', ty') = (t, q, ty)) then Z.leb now' (truncate (now + rdrcTimeout c))
    else (Cache_LoadRDRC now' t' q' ty' c).1.
Proof.
  intros Hdb Hs Hty Hty' Ht E. destruct (written (Write_RDRC now t q ty) c c' db Hdb E) as (db' & -> & Hg).
  erewrite LoadRDRC_value by reflexivity. rewrite (LoadRDRC_value c now' t' q' ty' db Hdb), Hg.
  cbn [target fst snd]. change (cacheID (c <| c_DB := Some db' |>)) with (cacheID c).
  change (saveRDRC (c <| c_DB := Some db' |>)) with (saveRDRC c). rewrite Hs, lookup_empty.
  destruct (decide ((t', q', ty') = (t, q, ty))) as [[= -> -> ->]|Hne].
  - rewrite decide_True by done. unfold read_expiry. rewrite be_bytes_length. cbn [Nat.ltb Nat.leb].
    rewrite take_ge by (by rewrite be_bytes_length).
    rewrite be_roundtrip by (apply (wrap_is_u 64); lia). rewrite i64_u64 by done. unfold truncate.
    by rewrite Z.leb_antisym.
  - rewrite decide_False; [done|]. intros Heq. apply Hne.
    pose proof (f_equal fst Heq) as Hp. pose proof (f_equal snd Heq) as Hk. cbn [fst snd] in Hp, Hk.
    unfold rdrc_path in Hp. apply app_inv_head in Hp. injection Hp as Hp%bytes_of_string_inj.
    unfold rdrc_key in Hk. apply app_inj_1 in Hk as [Hk1 Hk2%bytes_of_string_inj]; [|by rewrite !be_bytes_length].
    apply (f_equal be_val) in Hk1. unfold u16 in Hk1. rewrite !wrap_id, !be_roundtrip in Hk1 by done. congruence.
Qed.

(** What a selector asks of the cache file. *)
Lemma Cache_Store_Load group selected c c' :
  Cache_StoreSelected group selected c = (None, c') →
  ∀ g, (Cache_LoadSelected g c').1 = if decide (g = group) then selected else (Cache_LoadSelected g c).1.
Proof.
  intros E g. destruct (c_DB c) as [db|] eqn:Hdb.
  - by apply (LoadSelected_Store group selected c c' db g).
  - unfold Cache_StoreSelected, batch in E. by rewrite Hdb in E.
Qed.

#[export] Instance Cache_SelectedStore : SelectedStore CacheFile := {|
  LoadSelected c group := (Cache_LoadSelected group c).1;
  StoreSelected := Cache_StoreSelected;
  Store_LoadSelected := Cache_Store_Load
|}.

(** What a fake IP store asks of it. *)
#[export] Instance Cache_FakeIPStorage : FakeIPStorage CacheFile := {|
  fs_Metadata := Cache_FakeIPMetadata;
  fs_SaveMetadata := Cache_FakeIPSaveMetadata;
  fs_SaveMetadataAsync := Cache_FakeIPSaveMetadataAsync;
  fs_Store := Cache_FakeIPStore;
  fs_Load c a := (Cache_FakeIPLoad a c).1;
  fs_LoadDomain c d six := (Cache_FakeIPLoadDomain d six c).1;
  fs_Reset := Cache_FakeIPReset
|}.

(** *** Opening the file *)

Lemma try_delete_frame p n db :
  (∀ q k, ¬ (p ++ [n]) `prefix_of` q → bb_Get q k (try_delete p n db) = bb_Get q k db) ∧
  (∀ q, ¬ (p ++ [n]) `prefix_of` q → has_bucket q (try_delete p n db) = has_bucket q db).
Proof.
  unfold try_delete. destruct (has_bucket (p ++ [n]) db) eqn:E.
  - pose proof (DeleteBucket_ok p n db E) as Hok.
    destruct (bb_DeleteBucket p n db) as [r db'] eqn:Eq. cbn in Hok |- *. subst r.
    destruct (DeleteBucket_frame p n db db' Eq) as [Hb Hg]. split.
    + intros q k Hq. by rewrite Hg, decide_False.
    + intros q Hq. by rewrite Hb, bool_decide_eq_false_2, andb_true_r.
  - destruct (DeleteBucket_missing p n db E) as [e ->]. done.
Qed.

(** The paths the code reads: a bucket it knows at the root or under a cache id. *)
Definition kept_path (p : list key) : Prop :=
  match p with
  | (b :: name) :: r =>
      if bool_decide (b = x00) then match r with b' :: _ => b' ∈ bucketNameList | [] => False end
      else known_bucket (b :: name) || fakeip_bucket (b :: name) = true
  | _ => False
  end.

Definition same_at (p : list key) (db db' : DB) : Prop :=
  (∀ k, bb_Get p k db' = bb_Get p k db) ∧ has_bucket p db' = has_bucket p db.

Lemma fold_same {A} (f : DB → A → DB) p l db :
  (∀ db a, same_at p db (f db a)) → same_at p db (fold_left f l db).
Proof.
  intros Hf. revert db. induction l as [|a l IH]; intros db; [done|]. cbn.
  destruct (IH (f db a)) as [Hg Hb], (Hf db a) as [Hg' Hb']. split; [intros k; by rewrite Hg|by rewrite Hb].
Qed.

Lemma try_delete_same p q n db : ¬ (q ++ [n]) `prefix_of` p → same_at p db (try_delete q n db).
Proof. intros Hn. destruct (try_delete_frame q n db) as [Hg Hb]. split; [intros k; by apply Hg|by apply Hb]. Qed.

Lemma same_at_refl p db : same_at p db db.
Proof. by split. Qed.

Lemma clean_bucket_same name p db : kept_path p → same_at p db (clean_bucket name db).
Proof.
  intros Hp. destruct name as [|b name]; [apply same_at_refl|]. unfold clean_bucket.
  destruct (bool_decide (b = x00)) eqn:Eb.
  - apply bool_decide_eq_true in Eb as ->. apply fold_same. intros db' k.
    destruct (negb (known_bucket k)); [|apply same_at_refl].
    apply try_delete_same. cbn. intros [l ->]. cbn in Hp. unfold bucketNameList in Hp.
    by repeat (apply elem_of_cons in Hp as [Hp|Hp]; [discriminate Hp|]); apply not_elem_of_nil in Hp.
  - destruct (negb (known_bucket (b :: name) || fakeip_bucket (b :: name))) eqn:Ek; [|apply same_at_refl].
    apply try_delete_same. intros [l ->]. cbn [app kept_path] in Hp. rewrite Eb in Hp. by rewrite Hp in Ek.
Qed.

(** Opening the file takes nothing away that is read. *)
Lemma clean_same p db : kept_path p → same_at p db (clean db).
Proof. intros Hp. apply fold_same. intros db' name. by apply clean_bucket_same. Qed.

Lemma clean_agrees db m md : db_agrees db m md → db_agrees (clean db) m md.
Proof.
  intros [Ha0 Hd0 Hm0 Hf0 Hwa Hwd Hwm].
  assert (∀ b r, fakeip_bucket_of b → same_at (b :: r) db (clean db)) as Hs.
  { intros b r Hb. apply clean_same. by destruct Hb as [->|[->| ->]]. }
  split; [| | | |done..].
  - intros a Ha. destruct (Hs bucketFakeIP []) as [-> _]; [by left|]. by apply Ha0.
  - intros six d. destruct (Hs (domain_bucket six) []) as [-> _]; [apply domain_bucket_of|]. apply Hd0.
  - destruct (Hs bucketFakeIP []) as [-> _]; [by left|]. done.
  - intros b k Hb. destruct (Hs b [k] Hb) as [_ ->]. by apply Hf0.
Qed.

(** C10: a fake IP store survives a restart: after it is closed, and the file is opened again by a new
    process, a store over the same ranges goes on where the old one stopped: every address has the
    domain and every domain the address it had, and the next address is the next. *)
Theorem restart_keeps_pairs (s : Store CacheFile) c m md options :
  storage s = Some c → agrees c m md → metadata_wf (Store_metadata s) →
  ∃ s1 c1 db, Store_Close s = (None, s1) ∧ storage s1 = Some c1 ∧ c_DB c1 = Some db ∧
  ∀ attempt, attempt 0%nat = Opened db →
  ∃ c2, CacheFile_Start true attempt None (New options) = (None, c2) ∧
    let s2 := Store_Start c2 (NewStore (inet4Range s) (inet6Range s)) in
    inet4Current s2 = inet4Current s ∧ inet6Current s2 = inet6Current s ∧
    (∀ a, plain a → Store_Lookup s2 a = Store_Lookup s a) ∧
    (∀ d six a, Memory_LoadDomain m d six = Some a →
       Store_Create d six s = (Ok a, s) ∧ Store_Create d six s2 = (Ok a, s2)).
Proof.
  intros Hs Hag Hwf. unfold Store_Close. rewrite Hs.
  destruct (save_metadata_agrees c m md _ Hag Hwf) as (He & Hag1 & _). cbn [fs_SaveMetadata Cache_FakeIPStorage].
  destruct (Cache_FakeIPSaveMetadata (Store_metadata s) c) as [e c1] eqn:E. cbn in He, Hag1. subst e.
  destruct (ag_db _ _ _ Hag1) as (db & Hdb & Hda).
  eexists _, c1, db. split; [reflexivity|]. split; [done|]. split; [done|]. intros attempt Hatt.
  set (c2 := New options <| c_DB := Some (clean db) |>). exists c2. split.
  { unfold CacheFile_Start. cbn [negb open_loop]. by rewrite Hatt, commit_ok. }
  assert (agrees c2 m (Some (Store_metadata s))) as Hag2.
  { split; [exists (clean db); split; [done|by apply clean_agrees]|done..]. }
  destruct (metadata_agrees c2 m _ Hag2) as (Hmd & Hag3 & _).
  cbv zeta. unfold Store_Start. cbn [fs_Metadata Cache_FakeIPStorage].
  destruct (Cache_FakeIPMetadata c2) as [md2 c3]. cbn in Hmd, Hag3. subst md2.
  cbn [inet4Range inet6Range NewStore Store_metadata Inet4Range Inet6Range].
  rewrite !bool_decide_eq_true_2 by done. cbn [andb].
  split_and!; [done..| |].
  - intros a Ha. unfold Store_Lookup. rewrite Hs. cbn [storage fs_Load Cache_FakeIPStorage].
    by rewrite (load_agrees c m md), (load_agrees c3 m None).
  - intros d six a Ha. unfold Store_Create. rewrite Hs. cbn [storage fs_LoadDomain Cache_FakeIPStorage].
    by rewrite (load_domain_agrees c m md), (load_domain_agrees c3 m None), Ha by done.
Qed.

End CacheTheorems.

(** ** A file in memory *)

Section Examples.

#[local] Instance ex_bbolt : Bbolt := MemBbolt.
#[local] Instance ex_laws : BboltLaws := MemBboltLaws.
#[local] Instance ex_varbin : VarbinLib := StdVarbin.

Definition sample_AddrFromIP (b : list byte) : Addr :=
  if Nat.eqb (length b) 4 then Addr4 (be_val b)
  else if Nat.eqb (length b) 16 then Addr6 (be_val b) "" else AddrInvalid.

#[local] Instance ex_addr : AddrLib.
Proof.
  refine {| AddrFromIP := sample_AddrFromIP |}; [done|].
  intros [|v|v z] Hwf Hz _; unfold Addr_AsSlice, sample_AddrFromIP.
  - done.
  - rewrite be_bytes_length. cbn [Nat.eqb]. by rewrite be_roundtrip.
  - rewrite be_bytes_length. cbn [Nat.eqb]. rewrite be_roundtrip by done.
    cbn in Hz. apply negb_false_iff, String.eqb_eq in Hz as ->. done.
Defined.

Lemma ex_commit : ∀ db, bb_Commit db = None.
Proof. done. Qed.

Definition ex_options (id : string) : CacheFileOptions := mkCacheFileOptions "" id true true 0.
Definition empty_db : DB := mkMemDB ∅ ∅.

(** The file of a configuration, new. *)
Definition ex_file (id : string) : CacheFile :=
  (CacheFile_Start true (λ _, Opened empty_db) None (New (ex_options id))).2.

(** A new file stands for an empty storage. *)
Lemma ex_agrees id : agrees (ex_file id) NewMemoryStorage None.
Proof.
  split; [|done..]. exists empty_db. split; [reflexivity|].
  assert (∀ b r k, fakeip_bucket_of b → bb_Get (b :: r) k empty_db = None ∧ has_bucket (b :: r) empty_db = false) as He.
  { intros b r k Hb. assert (has_bucket (b :: r) empty_db = false) as Hh.
    { by rewrite (new_bucket (b :: r) empty_db eq_refl). }
    split; [|done]. by apply Get_absent. }
  split.
  - intros a Ha. cbn [addressCache NewMemoryStorage]. rewrite lookup_empty. apply He. by left.
  - intros six d. destruct (He (domain_bucket six) [] (bytes_of_string d) (domain_bucket_of six)) as [-> _].
    destruct six; cbn; by rewrite lookup_empty.
  - apply He. by left.
  - intros b k Hb. by apply (He b [k] []).
  - intros a d. cbn. by rewrite lookup_empty.
  - intros six d a. destruct six; cbn; by rewrite lookup_empty.
  - done.
Qed.

Definition ip (n : Z) : Addr := Addr4 (0xC6120000 + n).
Lemma ip_plain n : 0 ≤ n < 256 → plain (ip n).
Proof. intros Hn. split_and!; [done| |done..]. cbn. unfold is_u. lia. Qed.

Lemma good_domain_short d : d ≠ ""%string → (String.length d < 256)%nat → good_domain d.
Proof.
  intros Hd Hl. split; [by destruct d|]. rewrite length_bytes_of_string. unfold MaxKeySize. lia.
Qed.

Lemma ex_metadata_wf c4 : Addr_wf c4 → Addr_Is4 c4 = true →
  metadata_wf (mkFakeIPMetadata sample_range4 sample_range6 c4 (Addr6 (0xFC00 * 2 ^ 112) "")).
Proof.
  intros Hwf H4. destruct c4 as [|v|]; [done| |done]. split_and!.
  - exists (Addr4 0xC6120000), 15. split; [by vm_compute|]. by split.
  - exists (Addr6 (0xFC00 * 2 ^ 112) ""), 18. split; [by vm_compute|]. by split.
  - done.
  - by vm_compute.
  - cbn [Inet4Current Addr_MarshalBinary]. by rewrite be_bytes_length.
  - by vm_compute.
Qed.

Definition ip6 (n : Z) : Addr := Addr6 (0xFC00 * 2 ^ 112 + n) "".
Lemma ip6_plain n : 0 ≤ n < 256 → plain (ip6 n).
Proof.
  intros Hn. split_and!; [done| |done|].
  - cbn. unfold is_u. split; [|apply (Z.lt_trans _ (0xFC00 * 2 ^ 112 + 256)); [lia|by vm_compute]].
    apply Z.add_nonneg_nonneg; [by vm_compute|lia].
  - cbn. apply Z.eqb_neq. rewrite Z.shiftr_div_pow2 by lia. intros Heq.
    apply (f_equal (λ x, x * 2 ^ 32)) in Heq.
    pose proof (Z.mul_succ_div_gt (0xFC00 * 2 ^ 112 + n) (2 ^ 32) ltac:(lia)). lia.
Qed.

(** Two domains one after the other on the same address, and a domain of both families: the reset that
    finds no IPv6 domain takes nothing away, the second one everything. *)
Definition ex_calls : list FakeIPCall :=
  [Call_Store (ip 2) "a.test"; Call_Reset; Call_Store (ip 2) "b.test"; Call_LoadDomain "a.test" false;
   Call_Load (ip 2); Call_Store (ip6 2) "b.test"; Call_LoadDomain "b.test" true; Call_Reset;
   Call_Load (ip 2); Call_LoadDomain "b.test" true].

Lemma CacheFile_refines_Memory_witness :
  answers file_call ex_calls (ex_file "") =
    [Answer_Done false; Answer_Done true; Answer_Done false; Answer_Address None;
     Answer_Domain (Some "b.test"%string); Answer_Done false; Answer_Address (Some (ip6 2));
     Answer_Done false; Answer_Domain None; Answer_Address None].
Proof.
  assert (Forall call_ok ex_calls) as Hok.
  { pose proof (ip_plain 2 ltac:(lia)). pose proof (ip6_plain 2 ltac:(lia)).
    assert (good_domain "a.test" ∧ good_domain "b.test") as [? ?]
      by (split; apply good_domain_short; cbn; try done; lia).
    repeat first [apply List.Forall_cons|apply List.Forall_nil]; cbn; done. }
  rewrite (CacheFile_refines_Memory ex_commit (ex_file "") NewMemoryStorage None _ (ex_agrees "") Hok).
  vm_compute. reflexivity.
Defined.

Lemma cache_ids_apart_witness :
  let c := ex_file "one" in
  (Cache_LoadSelected "proxy" (with_id None (run_write (Write_Selected "proxy" "x") c).2)).1 = ""%string ∧
  (Cache_LoadSelected "proxy" (run_write (Write_Selected "proxy" "x") c).2).1 = "x"%string.
Proof.
  intros c. destruct (cache_ids_apart c empty_db (Write_Selected "proxy" "x") None) as (_ & Hs & _); [done..|].
  split; [|vm_compute; reflexivity]. rewrite Hs. vm_compute. reflexivity.
Defined.

Definition ex_set : SavedBinary := mkSavedBinary [x01; x02] 1700000000500000000 "etag".

Lemma LoadRuleSet_Save_witness :
  (LoadRuleSet "geo" (SaveRuleSet "geo" ex_set (ex_file "")).2).1 =
    Some (mkSavedBinary [x01; x02] 1700000000000000000 "etag").
Proof.
  destruct (SaveRuleSet "geo" ex_set (ex_file "")) as [e c'] eqn:E.
  assert (e = None) as -> by (apply (f_equal fst) in E; vm_compute in E; symmetry; exact E). cbn [snd].
  destruct (LoadRuleSet_Save "geo" ex_set (ex_file "") c' "geo") as [-> _]; [|exact E|reflexivity].
  unfold saved_ok, max_alloc. vm_compute. split; [discriminate|]. split; [discriminate|]. split; [discriminate|reflexivity].
Defined.

(** A week: the time that is kept when none is configured. *)
Lemma LoadRDRC_Save_witness :
  let c := (SaveRDRC 0 "dns" "a.test" 1 (ex_file "")).2 in
  (Cache_LoadRDRC (7 * 24 * 3600 * 1000000000) "dns" "a.test" 1 c).1 = true ∧
  (Cache_LoadRDRC (7 * 24 * 3600 * 1000000000 + 1) "dns" "a.test" 1 c).1 = false.
Proof.
  destruct (SaveRDRC 0 "dns" "a.test" 1 (ex_file "")) as [e c'] eqn:E.
  assert (e = None) as -> by (apply (f_equal fst) in E; vm_compute in E; symmetry; exact E). cbn [snd].
  pose proof (λ now', LoadRDRC_Save 0 now' "dns" "a.test" 1 "dns" "a.test" 1 (ex_file "") c' empty_db
    eq_refl eq_refl ltac:(by split) ltac:(by split) ltac:(by split) E) as Hr.
  rewrite !Hr. split; reflexivity.
Defined.

(** A store whose first address has a domain. *)
Definition ex_store : Store CacheFile :=
  mkStore sample_range4 sample_range6 (Some (Cache_FakeIPStore (ip 2) "a.test" (ex_file "")).2)
    (ip 2) (Addr6 (0xFC00 * 2 ^ 112) "").

Lemma ex_store_agrees : agrees (Cache_FakeIPStore (ip 2) "a.test" (ex_file "")).2
  (Memory_Store (ip 2) "a.test" NewMemoryStorage).2 None.
Proof.
  destruct (store_agrees ex_commit (ex_file "") NewMemoryStorage None (ip 2) "a.test") as (c' & -> & Hag & _).
  - apply ex_agrees.
  - by apply ip_plain.
  - apply good_domain_short; [done|cbn; lia].
  - exact Hag.
Qed.

Lemma restart_keeps_pairs_witness :
  ∃ c2 : CacheFile, let s2 := Store_Start c2 (NewStore sample_range4 sample_range6) in
  inet4Current s2 = ip 2 ∧ Store_Lookup s2 (ip 2) = Store_Lookup ex_store (ip 2).
Proof.
  destruct (restart_keeps_pairs ex_commit ex_store _ _ None (ex_options "") eq_refl ex_store_agrees
    (ex_metadata_wf (ip 2) ltac:(by split) eq_refl)) as (s1 & c1 & db & _ & _ & _ & Hr).
  destruct (Hr (λ _, Opened db) eq_refl) as (c2 & _ & H4 & _ & Hl & _).
  exists c2. split; [exact H4|]. apply Hl. by apply ip_plain.
Defined.

Example ex_store_lookup : Store_Lookup ex_store (ip 2) = Ok (Some "a.test"%string).
Proof. vm_compute. reflexivity. Qed.

(** *** What the file does not do *)

(** The timer keeps the metadata it was made with. *)
Example first_metadata_saved :
  let m c4 := mkFakeIPMetadata sample_range4 sample_range6 c4 (Addr6 (0xFC00 * 2 ^ 112) "") in
  let c := Cache_FakeIPSaveMetadataAsync (m (ip 9)) (Cache_FakeIPSaveMetadataAsync (m (ip 2)) (ex_file "")) in
  (Cache_FakeIPMetadata (metadata_timer c)).1 = Some (m (ip 2)).
Proof. vm_compute. reflexivity. Qed.

(** A reset without IPv6 addresses changes nothing. *)
Example reset_one_family :
  let c := (Cache_FakeIPStore (ip 2) "a.test" (ex_file "")).2 in
  is_nil (Cache_FakeIPReset c).1 = false ∧
  (Cache_FakeIPLoad (ip 2) (Cache_FakeIPReset c).2).1 = Some "a.test"%string.
Proof. vm_compute. split; reflexivity. Qed.

(** While an address is being written over, both domains have it. *)
Example two_domains_one_address :
  let c := Cache_FakeIPStoreAsync (ip 2) "b.test" (Cache_FakeIPStore (ip 2) "a.test" (ex_file "")).2 in
  (Cache_FakeIPLoadDomain "a.test" false c).1 = Some (ip 2) ∧
  (Cache_FakeIPLoadDomain "b.test" false c).1 = Some (ip 2) ∧
  (Cache_FakeIPLoad (ip 2) c).1 = Some "b.test"%string.
Proof. vm_compute. split; [|split]; reflexivity. Qed.

(** Two writes of an address under way: when the goroutine of the second runs first, the first domain
    is what stays in the file. *)
Example writes_race :
  let c := Cache_FakeIPStoreAsync (ip 2) "b.test" (Cache_FakeIPStoreAsync (ip 2) "a.test" (ex_file "")) in
  (Cache_FakeIPLoad (ip 2) c).1 = Some "b.test"%string ∧
  (Cache_FakeIPLoad (ip 2) (fakeip_write 0 (fakeip_write 1 c))).1 = Some "a.test"%string.
Proof. vm_compute. split; reflexivity. Qed.

(** A saved rule set whose length is damaged takes the selections with it. *)
Example damaged_record_wipes :
  let c := (Cache_StoreSelected "proxy" "x" (ex_file "")).2 in
  let c := (batch (p ← createBucket c bucketRuleSet;
                   bb_Put p (bytes_of_string "geo") (x01 :: PutUvarint (2 ^ 60))) c).2 in
  (Cache_LoadSelected "proxy" c).1 = "x"%string ∧
  (Cache_LoadSelected "proxy" (LoadRuleSet "geo" c).2).1 = ""%string.
Proof. vm_compute. split; reflexivity. Qed.

(** An unknown bucket under a cache id is not deleted when the file is opened. *)
Example unknown_bucket_kept :
  let c := ex_file "one" in
  let c := (batch (createBucket c (bytes_of_string "old")) c).2 in
  match c_DB c with
  | Some db => has_bucket [x00 :: bytes_of_string "one"; bytes_of_string "old"] (clean db) = true
  | None => False
  end.
Proof. vm_compute. reflexivity. Qed.

End Examples.
