(* ===== verification/RuleSetFiles.v ===== *)
(** * Where the rules of a rule set come from (route/rule/rule_set_local.go, rule_set_remote.go)

    A local rule set reads its file, and reads it again when it changes; a remote one downloads it,
    keeps the last download in the cache file and asks for a newer one from time to time.  HTTP and
    the JSON form of rule sets are operations of classes; what is asked of the cache file is the class
    [RuleSetStore]. *)

From stdpp Require Import base gmap strings list numbers.
From S2P Require Import Prelude GoStd Netip GoIO Adapter SetItems AddrItems RuleAction RuleOptions.
From S2P Require Import RuleItem RuleMatch RuleSet Srs Outbound FakeIP Bbolt CacheFile.

Local Open Scope Z_scope.

(** [json.UnmarshalExtended] of sing/common/json at [PlainRuleSetCompat]. *)
Class RuleSetJSON `{ExtLib} := {
  json_PlainRuleSetCompat : list byte → res PlainRuleSetCompat
}.

(** What a remote rule set asks of the cache file. *)
Class RuleSetStore (C : Type) := {
  rss_Load : string → C → option SavedBinary * C;
  rss_Save : string → SavedBinary → C → option error * C
}.

#[export] Instance Cache_RuleSetStore `{Bbolt} `{VarbinLib} : RuleSetStore CacheFile := {|
  rss_Load := LoadRuleSet;
  rss_Save := SaveRuleSet
|}.

(** A request, by the outbound that makes it, with the tag it sends as If-None-Match; and a response
    with the outcome of reading its body. *)
Record Request : Type := mkRequest { rq_dialer : option Outbound; rq_URL : string; rq_IfNoneMatch : string }.
Record Response : Type := mkResponse {
  rp_StatusCode : Z;
  rp_Etag : string;
  rp_Body : res (list byte)
}.

(** The clock and the network. *)
Class HTTPWorld (W : Type) := {
  http_Now : W → Z;
  http_Do : Request → W → res Response * W
}.

(** With the fields of the options of each type.

    [option/rule_set.go:20-27] RuleSet *)
Record RuleSetOptions `{ExtLib} : Type := mkRuleSetOptions {
  rso_Type : string;
  rso_Tag : string;
  rso_Format : string;
  rso_Rules : list HeadlessRuleOptions;
  rso_URL : string;
  rso_DownloadDetour : string;
  rso_UpdateInterval : Z
}.
Arguments mkRuleSetOptions {_}.

Section RuleSetFiles.
Context `{ExtLib} `{ActionLib} `{VarbinLib} `{!SrsLib} `{!RuleSetJSON}.

(** ** Local rule sets *)

(** [route/rule/rule_set_local.go:100-125] (LocalRuleSet).reloadFile (decode) *)
Definition decode_local (fileFormat : string) (content : list byte) : res (list HeadlessRuleOptions) :=
  ruleSet ← (if String.eqb fileFormat "source" || String.eqb fileFormat "" then json_PlainRuleSetCompat content
             else if String.eqb fileFormat "binary" then Read content false
             else Err (E_New [AStr "unknown rule-set format: "; AStr fileFormat]));
  Upgrade ruleSet.

(** [file] is what reading the file gives; an unknown format is reported before the file is opened.

    [route/rule/rule_set_local.go:99-129] (LocalRuleSet).reloadFile *)
Definition reloadFile (networkManager : bool) (fileFormat : string) (file : res (list byte))
    (s : LocalRuleSet) : res (LocalRuleSet * list nat) :=
  if negb (String.eqb fileFormat "source" || String.eqb fileFormat "" || String.eqb fileFormat "binary")
  then Err (E_New [AStr "unknown rule-set format: "; AStr fileFormat]) else
  content ← file;
  headlessRules ← decode_local fileFormat content;
  reloadRules networkManager headlessRules s.

Definition no_metadata : RuleSetMetadata := mkRuleSetMetadata false false false.

(** The watcher aside.

    [route/rule/rule_set_local.go:42-78] NewLocalRuleSet *)
Definition NewLocalRuleSet (networkManager : bool) (file : res (list byte)) (options : RuleSetOptions)
    : res LocalRuleSet :=
  if String.eqb (rso_Type options) "inline"
  then NewInlineRuleSet networkManager (rso_Tag options) (rso_Rules options)
  else '(s, _) ← reloadFile networkManager (rso_Format options) file
                   (mkLocalRuleSet (rso_Tag options) [] no_metadata [] 0);
       Ok s.

(** The file has changed: an error is logged.

    [route/rule/rule_set_local.go:64-69] NewLocalRuleSet (watcher) *)
Definition file_changed (networkManager : bool) (fileFormat : string) (file : res (list byte))
    (s : LocalRuleSet) : res (LocalRuleSet * list nat) :=
  match reloadFile networkManager fileFormat file s with
  | Err _ => Ok (s, [])
  | r => r
  end.

(** ** Remote rule sets *)

Context {C W M : Type} `{!RuleSetStore C} `{!HTTPWorld W} `{!OutboundLookup M}.

(** [time.Time{}] in nanoseconds since the Unix epoch. *)
Definition time_zero : Z := -62135596800000000000.

(** The fields a remote rule set has in common with a local one are in [rr_base], with the methods of
    both: Name, Match, Metadata, ExtractIPSet, IncRef, DecRef, Cleanup and the callbacks.

    [route/rule/rule_set_remote.go:37-55] RemoteRuleSet *)
Record RemoteRuleSet : Type := mkRemoteRuleSet {
  rr_options : RuleSetOptions;
  rr_updateInterval : Z;
  rr_dialer : option Outbound;
  rr_base : LocalRuleSet;
  rr_lastUpdated : Z;
  rr_lastEtag : string;
  rr_updateTicker : bool
}.
#[global] Instance RemoteRuleSet_settable : Settable RemoteRuleSet :=
  {| mkT r := mkRemoteRuleSet (rr_options r) (rr_updateInterval r) (rr_dialer r) (rr_base r)
                (rr_lastUpdated r) (rr_lastEtag r) (rr_updateTicker r) |}.

(** [route/rule/rule_set_remote.go:57-74] NewRemoteRuleSet *)
Definition NewRemoteRuleSet (options : RuleSetOptions) : RemoteRuleSet :=
  mkRemoteRuleSet options
    (if Z.ltb 0 (rso_UpdateInterval options) then rso_UpdateInterval options else 24 * 3600 * 1000000000)
    None (mkLocalRuleSet (rso_Tag options) [] no_metadata [] 0) time_zero "" false.

(** [route/rule/rule_set_remote.go:163-184] (RemoteRuleSet).loadBytes (decode) *)
Definition decode_remote (Format : string) (content : list byte) : res (list HeadlessRuleOptions) :=
  ruleSet ← (if String.eqb Format "source" then json_PlainRuleSetCompat content
             else if String.eqb Format "binary" then Read content false
             else Err (E_New [AStr "unknown rule-set format: "; AStr Format]));
  Upgrade ruleSet.

(** The rules are made, summarised and published as [reloadRules] does it.

    [route/rule/rule_set_remote.go:162-203] (RemoteRuleSet).loadBytes *)
Definition loadBytes (networkManager : bool) (content : list byte) (r : RemoteRuleSet)
    : res (RemoteRuleSet * list nat) :=
  headlessRules ← decode_remote (rso_Format (rr_options r)) content;
  '(base, called) ← reloadRules networkManager headlessRules (rr_base r);
  Ok (r <| rr_base := base |>, called).

(** The rule set, the cache file when there is one, and the world. *)
Definition RemoteState : Type := RemoteRuleSet * option C * W.

(** The answer that nothing is new: the time is kept, also in the cache file.

    [route/rule/rule_set_remote.go:267-281] (RemoteRuleSet).fetch (not modified) *)
Definition not_modified (r : RemoteRuleSet) (cacheFile : option C) (w : W) : RemoteState :=
  let r := r <| rr_lastUpdated := http_Now w |> in
  match cacheFile with
  | None => (r, None, w)
  | Some c =>
      let '(savedRuleSet, c) := rss_Load (rso_Tag (rr_options r)) c in
      match savedRuleSet with
      | None => (r, Some c, w)
      | Some saved =>
          let '(_, c) := rss_Save (rso_Tag (rr_options r))
            (mkSavedBinary (sb_Content saved) (rr_lastUpdated r) (sb_LastEtag saved)) c in
          (r, Some c, w)
      end
  end.

(** A new content that was loaded.

    [route/rule/rule_set_remote.go:296-310] (RemoteRuleSet).fetch (updated) *)
Definition updated (content : list byte) (eTagHeader : string) (r : RemoteRuleSet)
    (cacheFile : option C) (w : W) : RemoteState :=
  let r := if negb (String.eqb eTagHeader "") then r <| rr_lastEtag := eTagHeader |> else r in
  let r := r <| rr_lastUpdated := http_Now w |> in
  match cacheFile with
  | None => (r, None, w)
  | Some c =>
      let '(_, c) := rss_Save (rso_Tag (rr_options r))
        (mkSavedBinary content (rr_lastUpdated r) (rr_lastEtag r)) c in
      (r, Some c, w)
  end.

(** The callbacks that were called, or the error; logs and the closing of the body are left out.

    [route/rule/rule_set_remote.go:234-313] (RemoteRuleSet).fetch *)
Definition fetch (networkManager : bool) (s : RemoteState) : res (list nat) * RemoteState :=
  let '(r, cacheFile, w) := s in
  let '(response, w) := http_Do (mkRequest (rr_dialer r) (rso_URL (rr_options r)) (rr_lastEtag r)) w in
  match response with
  | Err e => (Err e, (r, cacheFile, w))
  | Panic p => (Panic p, (r, cacheFile, w))
  | Ok response =>
      if Z.eqb (rp_StatusCode response) 304 then (Ok [], not_modified r cacheFile w) else
      if negb (Z.eqb (rp_StatusCode response) 200)
      then (Err (E_New [AStr "unexpected status: "; AInt (rp_StatusCode response)]), (r, cacheFile, w)) else
      match (content ← rp_Body response; '(r, called) ← loadBytes networkManager content r; Ok (content, r, called)) with
      | Err e => (Err e, (r, cacheFile, w))
      | Panic p => (Panic p, (r, cacheFile, w))
      | Ok (content, r, called) => (Ok called, updated content (rp_Etag response) r cacheFile w)
      end
  end.

(** The outbound of the downloads.

    [route/rule/rule_set_remote.go:86-95] (RemoteRuleSet).StartContext (dialer) *)
Definition download_dialer (m : M) (options : RuleSetOptions) : res (option Outbound) :=
  if negb (String.eqb (rso_DownloadDetour options) "") then
    match lookup_outbound m (rso_DownloadDetour options) with
    | None => Err (E_New [AStr "download detour not found: "; AStr (rso_DownloadDetour options)])
    | Some outbound => Ok (Some outbound)
    end
  else Ok (default_outbound m).

(** The rules of the last download.

    [route/rule/rule_set_remote.go:97-106] (RemoteRuleSet).StartContext (cache) *)
Definition restore (networkManager : bool) (s : RemoteState) : res (list nat) * RemoteState :=
  let '(r, cacheFile, w) := s in
  match cacheFile with
  | None => (Ok [], s)
  | Some c =>
      let '(savedSet, c) := rss_Load (rso_Tag (rr_options r)) c in
      match savedSet with
      | None => (Ok [], (r, Some c, w))
      | Some saved =>
          match loadBytes networkManager (sb_Content saved) r with
          | Ok (r, called) =>
              (Ok called, (r <| rr_lastUpdated := sb_LastUpdated saved |> <| rr_lastEtag := sb_LastEtag saved |>, Some c, w))
          | Err e => (Err (E_Cause e [AStr "restore cached rule-set"]), (r, Some c, w))
          | Panic p => (Panic p, (r, Some c, w))
          end
      end
  end.

(** [route/rule/rule_set_remote.go:84-115] (RemoteRuleSet).StartContext *)
Definition StartContext (networkManager : bool) (m : M) (s : RemoteState) : res (list nat) * RemoteState :=
  let '(r, cacheFile, w) := s in
  match download_dialer m (rr_options r) with
  | Err e => (Err e, s)
  | Panic p => (Panic p, s)
  | Ok dialer =>
      match restore networkManager (r <| rr_dialer := dialer |>, cacheFile, w) with
      | (Ok called, (r, cacheFile, w)) =>
          if Z.eqb (rr_lastUpdated r) time_zero then
            match fetch networkManager (r, cacheFile, w) with
            | (Ok called', (r, cacheFile, w)) => (Ok (called ++ called'), (r <| rr_updateTicker := true |>, cacheFile, w))
            | (x, s) => (wrap_err [AStr "initial rule-set: "; AStr (rso_Tag (rr_options r))] x, s)
            end
          else (Ok called, (r <| rr_updateTicker := true |>, cacheFile, w))
      | (x, s) => (x, s)
      end
  end.

(** An update: an error is logged, and a rule set without references is emptied.

    [route/rule/rule_set_remote.go:225-232] (RemoteRuleSet).updateOnce *)
Definition updateOnce (networkManager : bool) (s : RemoteState) : res (list nat) * RemoteState :=
  match fetch networkManager s with
  | (Ok called, (r, cacheFile, w)) => (Ok called, (r <| rr_base := LocalRuleSet_Cleanup (rr_base r) |>, cacheFile, w))
  | (Err _, s) => (Ok [], s)
  | (Panic p, s) => (Panic p, s)
  end.

(** The loop: an update when one is due, and then one every time the ticker fires.

    [route/rule/rule_set_remote.go:205-223] (RemoteRuleSet).loopUpdate *)
Definition loopUpdate_begin (networkManager : bool) (s : RemoteState) : res (list nat) * RemoteState :=
  let '(r, _, w) := s in
  if Z.ltb (rr_updateInterval r) (http_Now w - rr_lastUpdated r) then updateOnce networkManager s else (Ok [], s).

(** [route/rule/rule_set_remote.go:315-322] (RemoteRuleSet).Close *)
Definition Remote_Close (r : RemoteRuleSet) : RemoteRuleSet :=
  r <| rr_base := LocalRuleSet_Close (rr_base r) |> <| rr_updateTicker := false |>.

End RuleSetFiles.

(** ** Theorems *)

(** What a store promises: a rule set that is saved is loaded, up to the second of its time. *)
Class RuleSetStoreLaws (C : Type) `{RuleSetStore C} := {
  rss_Save_Load : ∀ tag s c c' t, saved_ok s → rss_Save tag s c = (None, c') →
    (rss_Load t c').1 =
      if decide (t = tag)
      then Some (mkSavedBinary (sb_Content s) (truncate (sb_LastUpdated s)) (sb_LastEtag s))
      else (rss_Load t c).1
}.

#[export] Instance Cache_RuleSetStoreLaws `{BboltLaws} `{VarbinLib} : RuleSetStoreLaws CacheFile.
Proof.
  split. intros tag s c c' t Hs Hc. cbn in *. destruct (c_DB c) as [db|] eqn:Hdb.
  - by apply (LoadRuleSet_Saved tag s c c' db t).
  - unfold SaveRuleSet, batch in Hc. by rewrite Hdb in Hc.
Qed.

Section RemoteTheorems.
Context `{ExtLib} `{ActionLib} `{VarbinLib} `{!SrsLib} `{!RuleSetJSON}.
Context {C W M : Type} `{RuleSetStoreLaws C} `{!HTTPWorld W} `{!OutboundLookup M}.

(** The rules and the summary of a content. *)
Definition content_rules (nm : bool) (Format : string) (content : list byte)
    : res (list HeadlessRule * RuleSetMetadata) :=
  headlessRules ← decode_remote Format content;
  '(base, _) ← reloadRules nm headlessRules (mkLocalRuleSet "" [] no_metadata [] 0);
  Ok (ls_rules base, ls_metadata base).

(** What is served is the content. *)
Definition serves (nm : bool) (r : RemoteRuleSet) (content : list byte) : Prop :=
  content_rules nm (rso_Format (rr_options r)) content = Ok (ls_rules (rr_base r), ls_metadata (rr_base r)).

Lemma reloadRules_base nm l s :
  reloadRules nm l s =
    '(base, _) ← reloadRules nm l (mkLocalRuleSet "" [] no_metadata [] 0);
    Ok (s <| ls_rules := ls_rules base |> <| ls_metadata := ls_metadata base |>, ls_callbacks s).
Proof. unfold reloadRules. destruct (mapi_res _ l); done. Qed.

(** Loading a content depends on the content only, and replaces the rules and the summary. *)
Lemma loadBytes_spec nm content r :
  loadBytes nm content r =
    '(rules, metadata) ← content_rules nm (rso_Format (rr_options r)) content;
    Ok (r <| rr_base := rr_base r <| ls_rules := rules |> <| ls_metadata := metadata |> |>,
        ls_callbacks (rr_base r)).
Proof.
  unfold loadBytes, content_rules. destruct (decode_remote _ content) as [l|e|p]; [|done..].
  cbn [mbind res_bind]. rewrite reloadRules_base.
  by destruct (reloadRules nm l (mkLocalRuleSet "" [] no_metadata [] 0)) as [[base l']|e|p].
Qed.

(** A download that fails leaves the rule set, its time and its tag, and the cache file as they were. *)
Lemma fetch_failed nm (r : RemoteRuleSet) (c : option C) (w : W) e s :
  fetch nm (r, c, w) = (Err e, s) → s.1 = (r, c).
Proof.
  unfold fetch. destruct (http_Do _ w) as [[resp|e'|p] w']; [|by intros [= _ <-]|done].
  destruct (Z.eqb _ 304); [done|]. destruct (negb _); [by intros [= _ <-]|].
  destruct (mbind _ (rp_Body resp)) as [[[content r'] called]|e'|p]; [done|by intros [= _ <-]|done].
Qed.

(** A download that succeeds. *)
Lemma fetch_ok nm (r : RemoteRuleSet) (c : option C) (w : W) called s :
  fetch nm (r, c, w) = (Ok called, s) →
  ∃ resp w', http_Do (mkRequest (rr_dialer r) (rso_URL (rr_options r)) (rr_lastEtag r)) w = (Ok resp, w') ∧
  ((rp_StatusCode resp = 304 ∧ s = not_modified r c w') ∨
   ∃ content rules metadata, rp_StatusCode resp = 200 ∧ rp_Body resp = Ok content ∧
     content_rules nm (rso_Format (rr_options r)) content = Ok (rules, metadata) ∧
     s = updated content (rp_Etag resp)
           (r <| rr_base := rr_base r <| ls_rules := rules |> <| ls_metadata := metadata |> |>) c w').
Proof.
  unfold fetch. destruct (http_Do _ w) as [[resp|e'|p] w'] eqn:E; [|done..].
  intros Hf. exists resp, w'. split; [done|]. revert Hf.
  destruct (Z.eqb_spec (rp_StatusCode resp) 304) as [Hs|_]; [intros [= _ <-]; by left|].
  destruct (Z.eqb_spec (rp_StatusCode resp) 200) as [Hs|]; [|done]. cbn [negb].
  destruct (rp_Body resp) as [content|e|p]; [|done..]. cbn [mbind res_bind]. rewrite loadBytes_spec.
  destruct (content_rules _ _ content) as [[rules metadata]|e|p] eqn:Ec; [|done..]. cbn. intros [= _ <-].
  right. exists content, rules, metadata. by split_and!.
Qed.

(** *** Without the network *)

(** A rule set that was downloaded once starts without the network: when the download was written to
    the cache file, a new process serves the same rules from there, asks nobody, and will ask for a
    newer version with the tag of the one it has. *)
Theorem download_survives_restart nm (r r' : RemoteRuleSet) (c c' : C) (w w' w2 : W) (m : M) called resp dialer :
  fetch nm (r, Some c, w) = (Ok called, (r', Some c', w')) →
  http_Do (mkRequest (rr_dialer r) (rso_URL (rr_options r)) (rr_lastEtag r)) w = (Ok resp, w') →
  rp_StatusCode resp = 200 →
  (∀ content, rp_Body resp = Ok content → let saved := mkSavedBinary content (http_Now w') (rr_lastEtag r') in
     saved_ok saved ∧ rss_Save (rso_Tag (rr_options r)) saved c = (None, c')) →
  truncate (http_Now w') ≠ time_zero → download_dialer m (rr_options r) = Ok dialer →
  ∃ r2 c2, StartContext nm m (NewRemoteRuleSet (rr_options r), Some c', w2) = (Ok [], (r2, Some c2, w2)) ∧
    ls_rules (rr_base r2) = ls_rules (rr_base r') ∧ ls_metadata (rr_base r2) = ls_metadata (rr_base r') ∧
    rr_lastEtag r2 = rr_lastEtag r' ∧ rr_lastUpdated r2 = truncate (rr_lastUpdated r').
Proof.
  intros Hf Hd Hst Hsave Hz Hdial.
  destruct (fetch_ok nm r (Some c) w called _ Hf) as (resp' & w1 & Hd' & Hr).
  rewrite Hd in Hd'. injection Hd' as <- <-.
  destruct Hr as [[Hs _]|(content & rules & metadata & _ & Hb & Hc & Hr)]; [lia|].
  destruct (Hsave content Hb) as [Hok Hsv]. unfold updated in Hr.
  set (r1 := (if negb (String.eqb (rp_Etag resp) "") then _ else _)) in Hr.
  assert (rr_options r1 = rr_options r ∧ rr_base r1 = rr_base r <| ls_rules := rules |> <| ls_metadata := metadata |>)
    as [Ho Hbase] by (unfold r1; by destruct (negb _)).
  clearbody r1. cbn in Hr.
  destruct (rss_Save (rso_Tag (rr_options r1)) _ c) as [e c1] in Hr. injection Hr as -> ->. cbn in *.
  pose proof (rss_Save_Load _ _ c c1 (rso_Tag (rr_options r)) Hok Hsv) as Hl. rewrite decide_True in Hl by done.
  unfold StartContext. cbn [NewRemoteRuleSet rr_options]. rewrite Hdial. unfold restore. cbn.
  destruct (rss_Load (rso_Tag (rr_options r)) c1) as [saved c2]. cbn in Hl. subst saved. cbn.
  rewrite loadBytes_spec. cbn. rewrite Hc. cbn.
  rewrite (proj2 (Z.eqb_neq _ _) Hz). eexists _, c2. split; [reflexivity|]. cbn. by rewrite Hbase.
Qed.

(** A content in the cache file that cannot be read stops the start, and no download is tried. *)
Lemma unreadable_cache_stops nm (m : M) options (c : C) (w : W) saved e dialer :
  download_dialer m options = Ok dialer → (rss_Load (rso_Tag options) c).1 = Some saved →
  content_rules nm (rso_Format options) (sb_Content saved) = Err e →
  ∃ s, StartContext nm m (NewRemoteRuleSet options, Some c, w) =
    (Err (E_Cause e [AStr "restore cached rule-set"]), s) ∧ s.2 = w.
Proof.
  intros Hdial Hl Hc. unfold StartContext. cbn [NewRemoteRuleSet rr_options]. rewrite Hdial.
  unfold restore. cbn. destruct (rss_Load (rso_Tag options) c) as [sv c']. cbn in Hl. subst sv. cbn.
  rewrite loadBytes_spec. cbn. rewrite Hc. cbn. by eexists.
Qed.

End RemoteTheorems.

(** *** Up to date *)

Section Freshness.
Context `{ExtLib} `{ActionLib} `{VarbinLib} `{!SrsLib} `{!RuleSetJSON}.
Context {C M : Type} `{RuleSetStoreLaws C} `{!OutboundLookup M}.

(** A server of one document, with the clock.  A document has a tag or, when [etag_of] is empty, is sent without
    one; a request with the tag of the current document is answered with 304. *)
Record Server : Type := mkServer { sv_Now : Z; sv_online : bool; sv_content : list byte }.
#[global] Instance Server_settable : Settable Server :=
  {| mkT s := mkServer (sv_Now s) (sv_online s) (sv_content s) |}.

Context (etag_of : list byte → string).

Definition serve (request : Request) (w : Server) : res Response * Server :=
  (if negb (sv_online w) then Err (E_Ext "connection refused") else
   if negb (String.eqb (rq_IfNoneMatch request) "") && String.eqb (rq_IfNoneMatch request) (etag_of (sv_content w))
   then Ok (mkResponse 304 "" (Ok []))
   else Ok (mkResponse 200 (etag_of (sv_content w)) (Ok (sv_content w))), w).

#[local] Instance Server_world : HTTPWorld Server := {| http_Now := sv_Now; http_Do := serve |}.

(** The tag is that of the document, or the document has none. *)
Definition names_or_untagged (tag : string) (content : list byte) : Prop := tag = etag_of content ∨ etag_of content = "".

(** The life of a remote rule set: it is started, the server publishes documents and comes and goes, the
    rule set is used by rules and updates itself. *)
Inductive reached (nm : bool) (m : M) : RemoteState (C := C) (W := Server) → Prop :=
  | reached_start options c w called s :
      StartContext nm m (NewRemoteRuleSet options, c, w) = (Ok called, s) →
      (∀ c' saved, c = Some c' → (rss_Load (rso_Tag options) c').1 = Some saved →
         sb_LastEtag saved = "" ∨ names_or_untagged (sb_LastEtag saved) (sb_Content saved)) →
      reached nm m s
  | reached_server r c w w' : reached nm m (r, c, w) → reached nm m (r, c, w')
  | reached_callback r c w id : reached nm m (r, c, w) →
      reached nm m (r <| rr_base := LocalRuleSet_RegisterCallback id (rr_base r) |>, c, w)
  | reached_used r c w : reached nm m (r, c, w) →
      reached nm m (r <| rr_base := LocalRuleSet_IncRef (rr_base r) |>, c, w)
  | reached_update s called s' : reached nm m s → ls_refs (rr_base s.1.1) ≠ 0 →
      updateOnce nm s = (Ok called, s') → reached nm m s'.

(** The tag the rule set sends names what it serves, or what it serves came without a tag. *)
Definition tag_names (nm : bool) (r : RemoteRuleSet) : Prop :=
  rr_lastEtag r = "" ∨ ∃ content, names_or_untagged (rr_lastEtag r) content ∧ serves nm r content.

Lemma serves_rules nm (r r' : RemoteRuleSet) content :
  rr_options r' = rr_options r → ls_rules (rr_base r') = ls_rules (rr_base r) →
  ls_metadata (rr_base r') = ls_metadata (rr_base r) → serves nm r content → serves nm r' content.
Proof. unfold serves. by intros -> -> ->. Qed.

Lemma tag_names_rules nm (r r' : RemoteRuleSet) :
  rr_options r' = rr_options r → ls_rules (rr_base r') = ls_rules (rr_base r) →
  ls_metadata (rr_base r') = ls_metadata (rr_base r) → rr_lastEtag r' = rr_lastEtag r →
  tag_names nm r → tag_names nm r'.
Proof.
  intros Ho Hr Hm He [Ht|(content & Ht & Hs)]; [left|right]; [by rewrite He|].
  exists content. split; [by rewrite He|]. by eapply serves_rules.
Qed.

(** What the two outcomes of a successful download do to the rule set. *)
Lemma not_modified_rules (r : RemoteRuleSet) (c : option C) (w : Server) r' c' w' :
  not_modified r c w = (r', c', w') → r' = r <| rr_lastUpdated := sv_Now w |>.
Proof.
  unfold not_modified. destruct c as [c|]; [|by intros [= <- _ _]].
  destruct (rss_Load _ c) as [[saved|] c1]; [|by intros [= <- _ _]].
  destruct (rss_Save _ _ c1). by intros [= <- _ _].
Qed.

Lemma updated_rules content tag (r : RemoteRuleSet) (c : option C) (w : Server) r' c' w' :
  updated content tag r c w = (r', c', w') →
  r' = r <| rr_lastEtag := if negb (String.eqb tag "") then tag else rr_lastEtag r |> <| rr_lastUpdated := sv_Now w |>.
Proof.
  unfold updated. destruct c as [c|]; cbn; [destruct (rss_Save _ _ c)|]; intros [= <- _ _];
    destruct (String.eqb tag ""); by destruct r.
Qed.

(** A download that succeeds: nothing has changed, which is answered to the tag of the document only; or the rule
    set has the rules of the document, and its tag if it has one. *)
Lemma fetch_names nm (r : RemoteRuleSet) (c : option C) (w : Server) called r' c' w' :
  fetch nm (r, c, w) = (Ok called, (r', c', w')) →
  rr_options r' = rr_options r ∧ ls_refs (rr_base r') = ls_refs (rr_base r) ∧
  (rr_lastEtag r' = rr_lastEtag r ∧ ls_rules (rr_base r') = ls_rules (rr_base r) ∧
     ls_metadata (rr_base r') = ls_metadata (rr_base r) ∨
   names_or_untagged (rr_lastEtag r') (sv_content w) ∧ serves nm r' (sv_content w)).
Proof.
  intros Hf. destruct (fetch_ok nm r c w called _ Hf) as (resp & w1 & Hd & Hr). cbn in Hd.
  unfold serve in Hd. injection Hd as Hd <-. destruct (negb (sv_online w)); [done|]. cbn -[String.eqb] in Hd.
  destruct (negb (String.eqb (rr_lastEtag r) "") && String.eqb (rr_lastEtag r) (etag_of (sv_content w))); injection Hd as <-.
  - destruct Hr as [[_ Hr]|(content & rules & metadata & ? & _)]; [|done]. symmetry in Hr.
    apply not_modified_rules in Hr as ->. cbn. by split_and!; [| |left].
  - destruct Hr as [[? _]|(content & rules & metadata & _ & Hb & Hc & Hr)]; [done|]. cbn -[String.eqb] in Hb, Hr.
    injection Hb as <-. symmetry in Hr. apply updated_rules in Hr as ->. cbn -[String.eqb]. split_and!; [done..|right].
    split; [|done]. destruct (String.eqb_spec (etag_of (sv_content w)) "") as [He|He]; [by right|by left].
Qed.

Lemma fetch_tag_names nm (r : RemoteRuleSet) (c : option C) (w : Server) called r' c' w' :
  fetch nm (r, c, w) = (Ok called, (r', c', w')) → tag_names nm r → tag_names nm r'.
Proof.
  intros Hf Ht. destruct (fetch_names nm r c w called r' c' w' Hf) as (Ho & _ & [(He' & Hr & Hm)|Hs]).
  - by eapply tag_names_rules, Ht.
  - right. by exists (sv_content w).
Qed.

Lemma restore_tag_names nm (r : RemoteRuleSet) (c : option C) (w : Server) called r' c' w' :
  restore nm (r, c, w) = (Ok called, (r', c', w')) → tag_names nm r →
  (∀ c1 saved, c = Some c1 → (rss_Load (rso_Tag (rr_options r)) c1).1 = Some saved →
     sb_LastEtag saved = "" ∨ names_or_untagged (sb_LastEtag saved) (sb_Content saved)) →
  tag_names nm r' ∧ w' = w ∧ rr_dialer r' = rr_dialer r.
Proof.
  unfold restore. intros Hr Ht Hc. destruct c as [c|]; [|by injection Hr as _ <- _ <-].
  specialize (Hc c). destruct (rss_Load _ c) as [[saved|] c1]; [|by injection Hr as _ <- _ <-].
  destruct (Hc saved eq_refl eq_refl) as [He|He]; revert Hr; rewrite loadBytes_spec;
    (destruct (content_rules nm _ (sb_Content saved)) as [[rules metadata]|e|p] eqn:E; [|done..]); cbn;
    intros [= _ <- _ <-]; (split; [|done]); [by left|].
  right. by exists (sb_Content saved).
Qed.

(** In every state the tag that will be sent names the document whose rules are served, or that has none. *)
Lemma reached_tag_names nm m s : reached nm m s → tag_names nm s.1.1.
Proof.
  induction 1 as [options c w called s Hst Hc|r c w w' _ IH|r c w id _ IH|r c w _ IH|[[r c] w] called s' _ IH Hn Hu].
  - unfold StartContext in Hst. destruct (download_dialer m _) as [dialer|e|p]; [|done..].
    destruct (restore (C := C) (W := Server) nm _) as [[called'|e|p] [[r1 c1] w1]] eqn:Er; [|done..].
    apply restore_tag_names in Er as (Hn & -> & _); [|by left|exact Hc].
    destruct (Z.eqb (rr_lastUpdated r1) time_zero); [|by injection Hst as _ <-].
    destruct (fetch nm (r1, c1, w)) as [[called2|e|p] [[r2 c2] w2]] eqn:Ef; [|done..]. injection Hst as _ <-.
    by apply fetch_tag_names in Ef.
  - exact IH.
  - eapply tag_names_rules, IH; done.
  - eapply tag_names_rules, IH; done.
  - unfold updateOnce in Hu. cbn [fst] in Hn, IH. destruct (fetch (W := Server) nm (r, c, w)) as [[called2|e|p] [[r2 c2] w2]] eqn:Ef; [| |done].
    + injection Hu as _ <-. cbn. pose proof (fetch_names nm _ _ _ _ _ _ _ Ef) as (_ & Href & _).
      apply fetch_tag_names in Ef; [|done..]. unfold LocalRuleSet_Cleanup. rewrite Href.
      rewrite (proj2 (Z.eqb_neq _ _) Hn). by destruct r2.
    + injection Hu as _ <-. apply fetch_failed in Ef. cbn in Ef. by injection Ef as -> _.
Qed.

(** C33: an update brings the rule set up to date.  A server publishes documents, with tags or without, no two of
    them with the same tag; the rule set is started, from the cache file or not, used, and updated or not.  Whatever
    happened, when the server can be reached and its document can be read, the update succeeds, and the rules
    served from then on are those of the document the server has now, also when the server answers that nothing
    has changed.  There is one exception, and it is stated: the rules served before came with a document
    without a tag, and the tag kept from an earlier one is that of the document now; those rules stay
    ([stale_tag]). *)
Theorem update_is_fresh nm m (r : RemoteRuleSet) (c : option C) (w : Server) rules metadata
    (Hinj : ∀ x y, etag_of x = etag_of y → etag_of x ≠ "" → x = y) :
  reached nm m (r, c, w) → ls_refs (rr_base r) ≠ 0 → sv_online w = true →
  content_rules nm (rso_Format (rr_options r)) (sv_content w) = Ok (rules, metadata) →
  ∃ called r' c', updateOnce nm (r, c, w) = (Ok called, (r', c', w)) ∧ rr_lastUpdated r' = sv_Now w ∧
    (ls_rules (rr_base r') = rules ∧ ls_metadata (rr_base r') = metadata ∨
     etag_of (sv_content w) ≠ "" ∧ rr_lastEtag r = etag_of (sv_content w) ∧
     ∃ content, etag_of content = "" ∧ serves nm r content ∧ serves nm r' content).
Proof.
  intros Hreach Hn Hon Hc. pose proof (reached_tag_names nm m _ Hreach) as Ht. cbn in Ht.
  unfold updateOnce, fetch. cbn -[String.eqb]. unfold serve. rewrite Hon. cbn -[String.eqb].
  destruct (negb (String.eqb (rr_lastEtag r) "") && String.eqb (rr_lastEtag r) (etag_of (sv_content w))) eqn:He; cbn -[String.eqb].
  - apply andb_prop in He as [Hne He]. apply negb_true_iff, String.eqb_neq in Hne. apply String.eqb_eq in He.
    destruct (not_modified r c w) as [[r' c'] w'] eqn:E.
    assert (w' = w) as ->.
    { unfold not_modified in E. destruct c as [c|]; [|by injection E].
      destruct (rss_Load _ c) as [[saved|] c1]; [destruct (rss_Save _ _ c1)|]; by injection E. }
    apply not_modified_rules in E as ->. eexists [], _, c'. split; [reflexivity|]. cbn.
    unfold LocalRuleSet_Cleanup. rewrite (proj2 (Z.eqb_neq _ _) Hn). split; [done|].
    destruct Ht as [Ht|(content & [Ht|Ht] & Hs)]; [done| |right; split; [congruence|]; split; [done|by exists content]].
    left. assert (content = sv_content w) as -> by (apply Hinj; congruence).
    unfold serves in Hs. rewrite Hs in Hc. by injection Hc as <- <-.
  - rewrite loadBytes_spec, Hc. cbn -[String.eqb].
    destruct (updated _ _ _ c w) as [[r' c'] w'] eqn:E.
    assert (w' = w) as -> by (unfold updated in E; destruct c; [destruct (rss_Save _ _ _)|]; by injection E).
    apply updated_rules in E as ->. eexists _, _, c'. split; [reflexivity|]. cbn -[String.eqb].
    unfold LocalRuleSet_Cleanup. cbn -[String.eqb]. rewrite (proj2 (Z.eqb_neq _ _) Hn). split; [done|by left].
Qed.

End Freshness.

(** ** Concrete rule sets *)

Section Examples.

#[local] Instance ex_lib : ExtLib := SampleLib.
#[local] Instance ex_actions : ActionLib := SampleActions.
#[local] Instance ex_varbin : VarbinLib := StdVarbin.
#[local] Instance ex_srs : SrsLib := SampleSrs.
#[local] Instance ex_bbolt : Bbolt := MemBbolt.
#[local] Instance ex_laws : BboltLaws := MemBboltLaws.

(** A document in the place of JSON: a rule for the domain of each byte. *)
Definition byte_rule (b : byte) : HeadlessRuleOptions :=
  mkOptionTree "default" (DefaultHeadlessOptions_zero <| ho_Domain := [string_of_bytes [b]] |>)
    (mkLogicalOptions "" [] false tt).
#[local] Instance ex_json : RuleSetJSON := {| json_PlainRuleSetCompat content :=
  if bool_decide (content = []) then Err (E_Ext "unexpected end of JSON input")
  else Ok (mkPlainRuleSetCompat 1 (byte_rule <$> content)) |}.

Definition ex_remote (URL : string) : RuleSetOptions := mkRuleSetOptions "remote" "ads" "source" [] URL "" 0.

(** A server that plays back responses, at a fixed time. *)
Definition Script : Type := list (res Response).
#[local] Instance Script_world : HTTPWorld Script := {|
  http_Now _ := 1700000000123456789;
  http_Do _ w := match w with r :: w => (r, w) | [] => (Err (E_Ext "no route to host"), []) end
|}.

Definition ok_response (Etag : string) (content : list byte) : res Response :=
  Ok (mkResponse 200 Etag (Ok content)).

Definition a_byte : byte := x61.
Definition b_byte : byte := x62.
Definition c_byte : byte := x63.

Definition ex_start (w : Script) : RemoteState (C := CacheFile) (W := Script) :=
  (StartContext true sample_manager (NewRemoteRuleSet (ex_remote "https://a.test/"), Some (ex_file ""), w)).2.

(** Whether a domain is matched, and the rules of a document. *)
Definition matches {W} (domain : string) (s : RemoteState (C := CacheFile) (W := W)) : bool :=
  (LocalRuleSet_Match idle_env (rr_base s.1.1) (InboundContext_zero <| ic_Domain := domain |>)).1.
Definition rules_for (content : list byte) : res (list HeadlessRule) :=
  fmap (M := res) fst (content_rules true "source" content).

(** What the first download of a rule set saves, and the cache file with it. *)
Definition ex_saved : SavedBinary := mkSavedBinary [a_byte] 1700000000123456789 "v1".
Definition ex_cached : CacheFile := (SaveRuleSet "ads" ex_saved (ex_file "")).2.

Lemma ex_saved_ok : saved_ok ex_saved.
Proof. unfold saved_ok, max_alloc. vm_compute. split; [discriminate|]. split; [discriminate|]. split; [discriminate|reflexivity]. Qed.

Lemma ex_cached_saved : SaveRuleSet "ads" ex_saved (ex_file "") = (None, ex_cached).
Proof. apply injective_projections; [vm_compute; reflexivity|reflexivity]. Qed.

Lemma ex_downloaded : ∃ r',
  fetch true (NewRemoteRuleSet (ex_remote "https://a.test/"), Some (ex_file ""), [ok_response "v1" [a_byte]])
    = (Ok [], (r', Some ex_cached, [])) ∧
  Ok (ls_rules (rr_base r')) = rules_for [a_byte] ∧ rr_lastEtag r' = "v1"%string.
Proof.
  unfold fetch. cbn -[rss_Save ex_file ex_cached loadBytes rules_for]. rewrite loadBytes_spec. unfold rules_for.
  destruct (content_rules true _ [a_byte]) as [[rules metadata]|e|p] eqn:E; [|discriminate E..].
  cbn -[rss_Save ex_file ex_cached content_rules]. fold ex_saved.
  change (rss_Save "ads" ex_saved (ex_file "")) with (SaveRuleSet "ads" ex_saved (ex_file "")).
  rewrite ex_cached_saved. by eexists.
Qed.

Lemma download_survives_restart_witness :
  ∃ r2 c2, StartContext true sample_manager (NewRemoteRuleSet (ex_remote "https://a.test/"), Some ex_cached, [])
    = (Ok [], (r2, Some c2, [])) ∧ Ok (ls_rules (rr_base r2)) = rules_for [a_byte] ∧ rr_lastEtag r2 = "v1"%string.
Proof.
  destruct ex_downloaded as (r' & Hf & Hr & He).
  destruct (download_survives_restart (M := Manager) true (NewRemoteRuleSet (ex_remote "https://a.test/")) r'
      (ex_file "") ex_cached [ok_response "v1" [a_byte]] [] [] sample_manager
      [] (mkResponse 200 "v1" (Ok [a_byte])) (Manager_Default sample_manager)) as (r2 & c2 & Hs & Hr2 & _ & Ht & _);
    [exact Hf|reflexivity|reflexivity| |discriminate|reflexivity|].
  - intros content [= <-]. rewrite He. split; [exact ex_saved_ok|exact ex_cached_saved].
  - exists r2, c2. split; [exact Hs|]. rewrite Hr2, Ht. split; [exact Hr|exact He].
Defined.

(** Tags that name a document by its bytes; one document has none. *)
Definition ex_etag (content : list byte) : string :=
  if decide (content = [b_byte]) then "" else String "e"%char (string_of_bytes content).

Lemma ex_etag_inj x y : ex_etag x = ex_etag y → ex_etag x ≠ "" → x = y.
Proof.
  unfold ex_etag. repeat case_decide; intros He Hx; try congruence. injection He as He.
  apply (f_equal bytes_of_string) in He. by rewrite !String.list_byte_of_string_of_list_byte in He.
Qed.

(** A document is missed while the server cannot be reached; the update after that brings it, and it has no tag.
    The update after that brings another one. *)
Lemma update_is_fresh_witness :
  let started := (StartContext (HTTPWorld0 := Server_world ex_etag) true sample_manager
    (NewRemoteRuleSet (ex_remote "https://a.test/"), None : option CacheFile, mkServer 1 true [a_byte])).2 in
  let used := started.1.1 <| rr_base := LocalRuleSet_IncRef (rr_base started.1.1) |> in
  let s2 := (updateOnce (HTTPWorld0 := Server_world ex_etag) true (used, None : option CacheFile, mkServer 2 true [b_byte])).2 in
  ∃ r', (updateOnce (HTTPWorld0 := Server_world ex_etag) true (s2.1.1, s2.1.2, mkServer 3 true [c_byte])).2.1.1 = r' ∧
    Ok (ls_rules (rr_base r')) = rules_for [c_byte] ∧ rr_lastUpdated r' = 3.
Proof.
  intros started used s2.
  destruct (content_rules true "source" [c_byte]) as [[rules metadata]|e|p] eqn:E; [|discriminate E..].
  destruct (update_is_fresh (M := Manager) ex_etag true sample_manager s2.1.1 s2.1.2 (mkServer 3 true [c_byte])
    rules metadata ex_etag_inj) as (called & r' & c' & Hu & Hl & [[Hr _]|(_ & He & _)]); [|discriminate|reflexivity|exact E| |].
  - apply (reached_server ex_etag true sample_manager s2.1.1 s2.1.2 (mkServer 2 true [b_byte])).
    eapply (reached_update _ _ _ (used, None, mkServer 2 true [b_byte])); [|discriminate|reflexivity].
    apply (reached_server ex_etag true sample_manager used None (mkServer 1 true [a_byte])), reached_used.
    eapply (reached_start _ _ _ (ex_remote "https://a.test/") None (mkServer 1 true [a_byte])); [reflexivity|discriminate].
  - exists r'. split; [by rewrite Hu|]. split; [|exact Hl]. rewrite Hr. unfold rules_for. by rewrite E.
  - discriminate He.
Defined.

(** A response without a tag leaves the tag of the rules it replaces: when the server goes back to the
    document of that tag, it answers that nothing has changed, and the rules stay those of the other. *)
Lemma stale_tag :
  let used (s : RemoteState (C := CacheFile) (W := Script)) :=
    (s.1.1 <| rr_base := LocalRuleSet_IncRef (rr_base s.1.1) |>, s.1.2, s.2) in
  let s := (updateOnce true (updateOnce true (used (ex_start
    [ok_response "v1" [a_byte]; ok_response "" [b_byte]; Ok (mkResponse 304 "v1" (Ok []))]))).2).2 in
  matches "b" s = true ∧ matches "a" s = false ∧ rr_lastEtag s.1.1 = "v1"%string ∧ length s.2 = 0%nat.
Proof. by vm_compute. Qed.

(** The cache file knows a rule set by its tag: with another URL the rules of the old one are served,
    and nothing is asked. *)
Lemma changed_url :
  (StartContext true sample_manager (NewRemoteRuleSet (ex_remote "https://b.test/"), Some ex_cached,
     [ok_response "v1" [b_byte]])).1 = Ok [] ∧
  let s := (StartContext true sample_manager (NewRemoteRuleSet (ex_remote "https://b.test/"), Some ex_cached,
     [ok_response "v1" [b_byte]])).2 in
  matches "a" s = true ∧ matches "b" s = false ∧ length s.2 = 1%nat.
Proof. by vm_compute. Qed.

(** An update whose document cannot be read keeps the rules; the same document in the cache file stops
    the next start. *)
Lemma unreadable_document :
  let used (s : RemoteState (C := CacheFile) (W := Script)) :=
    (s.1.1 <| rr_base := LocalRuleSet_IncRef (rr_base s.1.1) |>, s.1.2, s.2) in
  let s := (updateOnce true (used (ex_start [ok_response "v1" [a_byte]; ok_response "v2" []]))).2 in
  matches "a" s = true ∧ matches "b" s = false ∧ rr_lastEtag s.1.1 = "v1"%string ∧
  (StartContext true sample_manager (NewRemoteRuleSet (ex_remote "https://a.test/"),
     Some (SaveRuleSet "ads" (mkSavedBinary [] 0 "v2") (ex_file "")).2, [ok_response "v1" [a_byte]])).1
  = Err (E_Cause (E_Ext "unexpected end of JSON input") [AStr "restore cached rule-set"]).
Proof. by vm_compute. Qed.

End Examples.
