(* ===== verification/Geosite.v ===== *)
(** * Geosite files (common/geosite)

    A file holds lists of domain items under codes: an index with the place and the length of every
    list, and the lists.  [Write_lists] says that every list is read back from what is written, and
    nothing else.  [Compile] and [Merge] make rules of them. *)

From stdpp Require Import base gmap strings list numbers sorting.
From S2P Require Import Prelude GoStd Netip GoIO Adapter RuleAction RuleOptions.

Local Open Scope Z_scope.

(** [common/geosite/rule.go:7-12] ItemType *)
Definition RuleTypeDomain : Z := 0.
Definition RuleTypeDomainSuffix : Z := 1.
Definition RuleTypeDomainKeyword : Z := 2.
Definition RuleTypeDomainRegex : Z := 3.

(** [common/geosite/rule.go:14-17] Item *)
Record Item : Type := mkItem { gi_Type : Z; gi_Value : string }.
#[global] Instance Item_eq_dec : EqDecision Item.
Proof. solve_decision. Defined.

(** ** Writing *)

Section Geosite.
Context `{VarbinLib}.

(** [common/geosite/writer.go:66-73] writeString *)
Definition writeString (value : string) : list byte :=
  varbin_WriteUvarint (u64 (strlen value)) ++ bytes_of_string value.

Definition write_item (item : Item) : list byte := Z_byte (gi_Type item) :: writeString (gi_Value item).

(** [sort.Strings]: by bytes. *)
Definition string_le (a b : string) : Prop := String.leb a b = true.
#[global] Instance string_le_dec : RelDecision string_le := λ a b, decide (String.leb a b = true).

(** [common/geosite/writer.go:11-15] Write (keys) *)
Definition sorted_codes (domains : gmap string (list Item)) : list string :=
  merge_sort string_le (fst <$> map_to_list domains).

(** [common/geosite/writer.go:17-31] Write (content) *)
Fixpoint write_content (domains : gmap string (list Item)) (keys : list string) (content : list byte)
    (index : gmap string nat) : list byte * gmap string nat :=
  match keys with
  | [] => (content, index)
  | code :: keys =>
      let index := <[code := length content]> index in
      let content := content ++ concat (write_item <$> default [] (domains !! code)) in
      write_content domains keys content index
  end.

(** [common/geosite/writer.go:43-56] Write (index) *)
Definition write_metadata (domains : gmap string (list Item)) (index : gmap string nat) (code : string) : list byte :=
  writeString code ++ varbin_WriteUvarint (u64 (Z.of_nat (default 0%nat (index !! code)))) ++
  varbin_WriteUvarint (u64 (Z.of_nat (length (default [] (domains !! code))))).

(** The bytes that are written, by a writer that accepts them.

    [common/geosite/writer.go:10-64] Write *)
Definition Write (domains : gmap string (list Item)) : list byte :=
  let keys := sorted_codes domains in
  let '(content, index) := write_content domains keys [] ∅ in
  [x00] ++ varbin_WriteUvarint (u64 (Z.of_nat (length keys))) ++
  concat (write_metadata domains index <$> keys) ++ content.

(** ** Reading *)

(** The file, and what is known of it. *)
(** [common/geosite/reader.go:14-21] Reader *)
Record GeoReader : Type := mkGeoReader {
  gr_reader : list byte;
  gr_metadataIndex : Z;
  gr_domainIndex : gmap string Z;
  gr_domainLength : gmap string Z
}.

(** [int(x)] of a [uint64]. *)
Definition int64 (z : Z) : Z := if Z.ltb z (2 ^ 63) then z else z - 2 ^ 64.

(** [make([]T, n)] also panics for a negative length. *)
Definition make (size n : Z) : Reader () :=
  of_res (if Z.ltb n 0 || Z.ltb max_alloc (size * n) then Panic [AStr "makeslice: len out of range"] else Ok tt).

(** Byte by byte: a string that is cut is the end of the file. *)
Definition read_bytes (n : Z) : Reader (list byte) := λ s,
  if Z.ltb (Z.of_nat (length s)) n then (Err io_EOF, []) else (Ok (take (Z.to_nat n) s), drop (Z.to_nat n) s).

(** [common/geosite/reader.go:145-158] readString *)
Definition readString : Reader string :=
  length ← ReadUvarint;
  _ ← make 1 length;
  bytes ← read_bytes length;
  mret (string_of_bytes bytes).

(** [common/geosite/reader.go:51-55] geositeMetadata *)
Record geositeMetadata : Type := mkGeositeMetadata { gm_Code : string; gm_Index : Z; gm_Length : Z }.

(** [common/geosite/reader.go:75-94] (Reader).readMetadata (entry) *)
Definition read_entry (i : Z) : Reader geositeMetadata :=
  code ← readString;
  codeIndex ← ReadUvarint;
  codeLength ← ReadUvarint;
  mret (mkGeositeMetadata code (int64 codeIndex) (int64 codeLength)).

Definition index_entries {A} (f : geositeMetadata → A) (l : list geositeMetadata) : gmap string A :=
  foldl (λ m e, <[gm_Code e := f e]> m) ∅ l.

(** [common/geosite/reader.go:57-101] (Reader).readMetadata *)
Definition readMetadata : Reader (list geositeMetadata) :=
  version ← ReadByte;
  if negb (Z.eqb (byte_Z version) 0) then of_res (Err (E_New [AStr "unknown version"])) else
  entryLength ← ReadUvarint;
  _ ← make 16 entryLength;
  read_times (Z.to_nat entryLength) 0 read_entry.

(** The codes are those of the index, in the order in which Go goes through a map.

    [common/geosite/reader.go:36-49] NewReader *)
Definition NewReader (readSeeker : list byte) : res (GeoReader * list string) :=
  let '(r, rest) := readMetadata readSeeker in
  l ← r;
  let domainIndex := index_entries gm_Index l in
  Ok (mkGeoReader readSeeker (Z.of_nat (length readSeeker) - Z.of_nat (length rest)) domainIndex (index_entries gm_Length l),
      fst <$> map_to_list domainIndex).

Definition read_item (i : Z) : Reader Item :=
  typeByte ← ReadByte;
  value ← readString;
  mret (mkItem (byte_Z typeByte) value).

Definition negative_position : error := E_Ext "negative position".

(** [common/geosite/reader.go:103-126] (Reader).Read *)
Definition GeoReader_Read (r : GeoReader) (code : string) : res (list Item) :=
  match gr_domainIndex r !! code with
  | None => Err (E_New [AStr "code "; AStr code; AStr " not exists!"])
  | Some index =>
      let position := int64 (u64 (gr_metadataIndex r + index)) in
      if Z.ltb position 0 then Err negative_position else
      let n := default 0 (gr_domainLength r !! code) in
      fst ((_ ← make 24 n; read_times (Z.to_nat n) 0 read_item) (drop (Z.to_nat position) (gr_reader r)))
  end.

(** ** Rules *)

Context `{ExtLib} `{ActionLib}.

Definition values_of (type : Z) (code : list Item) : list string :=
  gi_Value <$> filter (λ item, gi_Type item = type) code.

(** [common/geosite/rule.go:19-62] Compile *)
Definition Compile (code : list Item) : RawDefaultRule :=
  RawDefaultRule_zero
    <| ru_Domain := values_of RuleTypeDomain code |>
    <| ru_DomainSuffix := values_of RuleTypeDomainSuffix code |>
    <| ru_DomainKeyword := values_of RuleTypeDomainKeyword code |>
    <| ru_DomainRegex := values_of RuleTypeDomainRegex code |>.

(** [common/geosite/rule.go:64-103] Merge *)
Definition Merge (rules : list RawDefaultRule) : RawDefaultRule :=
  RawDefaultRule_zero
    <| ru_Domain := concat (ru_Domain <$> rules) |>
    <| ru_DomainSuffix := concat (ru_DomainSuffix <$> rules) |>
    <| ru_DomainKeyword := concat (ru_DomainKeyword <$> rules) |>
    <| ru_DomainRegex := concat (ru_DomainRegex <$> rules) |>.

(** [cmd/sing-box/cmd_geosite_export.go:37-81] geositeExport *)
Definition geositeExport (r : GeoReader) (category : string) : res DefaultHeadlessOptions :=
  sourceSet ← GeoReader_Read r category;
  let defaultRule := Compile sourceSet in
  Ok (DefaultHeadlessOptions_zero
        <| ho_Domain := ru_Domain defaultRule |>
        <| ho_DomainSuffix := ru_DomainSuffix defaultRule |>
        <| ho_DomainKeyword := ru_DomainKeyword defaultRule |>
        <| ho_DomainRegex := ru_DomainRegex defaultRule |>).

(** What the search command says of a domain: the first condition that it meets.

    [cmd/sing-box/cmd_geosite_matcher.go:10-15] searchGeositeMatcher *)
Record searchGeositeMatcher : Type := mkSearchGeositeMatcher {
  sg_domainMap : gset string; sg_suffixList : list string; sg_keywordList : list string; sg_regexList : list string
}.

(** [cmd/sing-box/cmd_geosite_matcher.go:17-30] newSearchGeositeMatcher *)
Definition newSearchGeositeMatcher (l : list Item) : searchGeositeMatcher :=
  let options := Compile l in
  mkSearchGeositeMatcher (list_to_set (ru_Domain options)) (ru_DomainSuffix options) (ru_DomainKeyword options) (ru_DomainRegex options).

(** An expression that does not compile matches nothing. *)
Definition regex_matches (regexStr domain : string) : bool :=
  match regexp_Compile regexStr with Ok regex => Regexp_MatchString regex domain | _ => false end.

(** [cmd/sing-box/cmd_geosite_matcher.go:32-56] (searchGeositeMatcher).Match *)
Definition searchGeosite_Match (r : searchGeositeMatcher) (domain : string) : string :=
  if bool_decide (domain ∈ sg_domainMap r) then "domain=" +:+ domain else
  match List.find (strings_HasSuffix domain) (sg_suffixList r) with
  | Some suffix => "domain_suffix=" +:+ suffix
  | None =>
      match List.find (strings_Contains domain) (sg_keywordList r) with
      | Some keyword => "domain_keyword=" +:+ keyword
      | None =>
          match List.find (λ regexStr, regex_matches regexStr domain) (sg_regexList r) with
          | Some regexStr => "domain_regex=" +:+ regexStr
          | None => ""
          end
      end
  end.

(** [cmd/sing-box/cmd_geosite_lookup.go:65-82] geositeLookup (lists) *)
Fixpoint read_codes (r : GeoReader) (codes : list string) : res (list (string * searchGeositeMatcher)) :=
  match codes with
  | [] => Ok []
  | code :: codes =>
      sourceSet ← GeoReader_Read r code;
      l ← read_codes r codes;
      Ok ((code, newSearchGeositeMatcher sourceSet) :: l)
  end.

Definition code_le (a b : string * searchGeositeMatcher) : Prop := string_le a.1 b.1.
#[global] Instance code_le_dec : RelDecision code_le := λ a b, string_le_dec a.1 b.1.
(** One line for every code whose list has the domain, in the order of the codes.

    [cmd/sing-box/cmd_geosite_lookup.go:40-97] geositeLookup *)
Definition geositeLookup (r : GeoReader) (codeList : list string) (source target : string) : res (list (string * string)) :=
  sourceMatcherList ← read_codes r (if String.eqb source "" then codeList else [source]);
  Ok (filter (λ line, line.2 ≠ "") ((λ item, (item.1, searchGeosite_Match item.2 target)) <$> merge_sort code_le sourceMatcherList)).

End Geosite.

(** ** What is written is read *)

Section RoundTrip.
Context `{VarbinLib}.

Lemma reads_make size n : 0 ≤ n → size * n ≤ max_alloc → reads (make size n) [] tt.
Proof. intros Hn Hs rest. unfold make. by rewrite (proj2 (Z.ltb_ge _ _) Hn), (proj2 (Z.ltb_ge _ _) Hs). Qed.

Lemma reads_bytes l : reads (read_bytes (Z.of_nat (length l))) l l.
Proof.
  intros rest. unfold read_bytes. rewrite (proj2 (Z.ltb_ge _ _)) by (rewrite length_app; lia).
  by rewrite Nat2Z.id, take_app_length, drop_app_length.
Qed.

Lemma reads_geo_string s : strlen s ≤ max_alloc → reads readString (writeString s) s.
Proof.
  intros Hs. unfold readString, writeString. assert (is_u 64 (strlen s)) as Hu by (unfold strlen, is_u, max_alloc in *; lia).
  unfold u64. rewrite wrap_id by done. eapply reads_bind; [by apply reads_uvarint|].
  apply (reads_bind _ _ [] (bytes_of_string s) tt); [apply reads_make; unfold strlen in *; lia|].
  rewrite <-(app_nil_r (bytes_of_string s)). eapply reads_bind.
  - unfold strlen. rewrite <-length_bytes_of_string. apply reads_bytes.
  - rewrite <-(String.string_of_list_byte_of_string s) at 2. apply reads_ret.
Qed.

(** Items that fit. *)
Definition item_ok (item : Item) : Prop := is_u 8 (gi_Type item) ∧ strlen (gi_Value item) ≤ max_alloc.

Lemma reads_item i item : item_ok item → reads (read_item i) (write_item item) item.
Proof.
  intros [Ht Hv]. unfold read_item, write_item. change (Z_byte (gi_Type item) :: ?l) with ([Z_byte (gi_Type item)] ++ l).
  eapply reads_bind; [apply reads_byte|]. rewrite <-(app_nil_r (writeString _)).
  eapply reads_bind; [by apply reads_geo_string|]. rewrite byte_Z_small by done. destruct item. apply reads_ret.
Qed.

(** A map of lists that fits: the sizes of what is allocated to read it, and of its bytes. *)
Definition list_bytes (domains : gmap string (list Item)) (code : string) : list byte :=
  concat (write_item <$> default [] (domains !! code)).
Definition domains_ok (domains : gmap string (list Item)) : Prop :=
  16 * Z.of_nat (size domains) ≤ max_alloc ∧ Z.of_nat (length (Write domains)) < 2 ^ 63 ∧
  ∀ code l, domains !! code = Some l → strlen code ≤ max_alloc ∧ 24 * Z.of_nat (length l) ≤ max_alloc ∧ Forall item_ok l.

(** The content is the lists one after the other, and the index says where they begin. *)
Lemma write_content_spec domains keys : ∀ content index, NoDup keys →
  let '(content', index') := write_content domains keys content index in
  content' = content ++ concat (list_bytes domains <$> keys) ∧
  (∀ k1 code k2, keys = k1 ++ code :: k2 → index' !! code = Some (length content + length (concat (list_bytes domains <$> k1)))%nat) ∧
  ∀ code, code ∉ keys → index' !! code = index !! code.
Proof.
  induction keys as [|c keys IH]; intros content index Hnd; cbn [write_content].
  { cbn. rewrite app_nil_r. split; [done|]. split; [|done]. by intros [|]. }
  apply list.NoDup_cons in Hnd as [Hc Hnd].
  specialize (IH (content ++ list_bytes domains c) (<[c := length content]> index) Hnd). unfold list_bytes at 1 in IH.
  destruct (write_content _ _ _ _) as [content' index']. destruct IH as (Hcont & Hin & Hout).
  split; [|split].
  - rewrite Hcont. cbn [fmap list_fmap concat]. by rewrite <-app_assoc.
  - intros [|c' k1] code k2 Hk; injection Hk as -> ->.
    + rewrite Hout by done. rewrite lookup_insert_eq. f_equal. cbn. lia.
    + rewrite (Hin k1 code k2) by done. f_equal. cbn [fmap list_fmap concat]. rewrite !length_app. lia.
  - intros code [Hne Hni]%not_elem_of_cons. rewrite Hout by done. by rewrite lookup_insert_ne by congruence.
Qed.

Lemma sorted_codes_spec domains : NoDup (sorted_codes domains) ∧ (∀ code, code ∈ sorted_codes domains ↔ is_Some (domains !! code)) ∧
  length (sorted_codes domains) = size domains.
Proof.
  unfold sorted_codes. pose proof (merge_sort_Permutation string_le (fst <$> map_to_list domains)) as Hp.
  split; [rewrite Hp; apply NoDup_fst_map_to_list|]. split; [|by rewrite Hp, length_fmap, length_map_to_list].
  intros code. rewrite Hp, list_elem_of_fmap. split.
  - intros ([c l] & -> & Hl%elem_of_map_to_list). by eexists.
  - intros [l Hl]. exists (code, l). split; [done|]. by apply elem_of_map_to_list.
Qed.

(** What is found under a code of the index. *)
Lemma index_entries_lookup {A} (f : geositeMetadata → A) l : ∀ m : gmap string A, NoDup (gm_Code <$> l) →
  (∀ e, e ∈ l → foldl (λ m e, <[gm_Code e := f e]> m) m l !! gm_Code e = Some (f e)) ∧
  (∀ code, code ∉ gm_Code <$> l → foldl (λ m e, <[gm_Code e := f e]> m) m l !! code = m !! code).
Proof.
  induction l as [|e l IH]; intros m Hnd; [split; [by intros e ?%not_elem_of_nil|done]|].
  cbn [fmap list_fmap foldl] in *. apply list.NoDup_cons in Hnd as [He Hnd]. destruct (IH (<[gm_Code e := f e]> m) Hnd) as [Hin Hout].
  split.
  - intros e' [->|He']%elem_of_cons; [|by apply Hin]. rewrite Hout by done. by rewrite lookup_insert_eq.
  - intros code [Hne Hni]%not_elem_of_cons. rewrite Hout by done. by rewrite lookup_insert_ne by congruence.
Qed.


Lemma int64_small z : 0 ≤ z < 2 ^ 63 → int64 z = z.
Proof. intros Hz. unfold int64. by rewrite (proj2 (Z.ltb_lt _ _)) by lia. Qed.

Lemma reads_uvarint_nat n : Z.of_nat n < 2 ^ 63 → reads ReadUvarint (varbin_WriteUvarint (u64 (Z.of_nat n))) (Z.of_nat n).
Proof. intros Hn. assert (is_u 64 (Z.of_nat n)) as Hu by (unfold is_u; lia). unfold u64. rewrite wrap_id by done. by apply reads_uvarint. Qed.

Lemma reads_entry domains index code i : strlen code ≤ max_alloc →
  Z.of_nat (default 0%nat (index !! code)) < 2 ^ 63 → Z.of_nat (length (default [] (domains !! code))) < 2 ^ 63 →
  reads (read_entry i) (write_metadata domains index code)
    (mkGeositeMetadata code (Z.of_nat (default 0%nat (index !! code))) (Z.of_nat (length (default [] (domains !! code))))).
Proof.
  intros Hc Hi Hl. unfold read_entry, write_metadata. eapply reads_bind; [by apply reads_geo_string|].
  eapply reads_bind; [by apply reads_uvarint_nat|]. rewrite <-(app_nil_r (varbin_WriteUvarint _)).
  eapply reads_bind; [by apply reads_uvarint_nat|]. rewrite !int64_small by lia. apply reads_ret.
Qed.

(** The header of a file and what is read of it. *)
Definition header_bytes (domains : gmap string (list Item)) (index : gmap string nat) : list byte :=
  [x00] ++ varbin_WriteUvarint (u64 (Z.of_nat (length (sorted_codes domains)))) ++
  concat (write_metadata domains index <$> sorted_codes domains).
Definition entry_of (domains : gmap string (list Item)) (index : gmap string nat) (code : string) : geositeMetadata :=
  mkGeositeMetadata code (Z.of_nat (default 0%nat (index !! code))) (Z.of_nat (length (default [] (domains !! code)))).

Lemma Write_header domains : let '(content, index) := write_content domains (sorted_codes domains) [] ∅ in
  Write domains = header_bytes domains index ++ content.
Proof. unfold Write, header_bytes. destruct (write_content _ _ _ _) as [content index]. by rewrite <-!app_assoc. Qed.

(** The list of a code is where the index says. *)
Lemma write_content_at domains : let '(content, index) := write_content domains (sorted_codes domains) [] ∅ in
  ∀ code l, domains !! code = Some l → ∃ n rest, index !! code = Some n ∧ (n ≤ length content)%nat ∧
    drop n content = list_bytes domains code ++ rest.
Proof.
  destruct (sorted_codes_spec domains) as (Hnd & Hin & _).
  pose proof (write_content_spec domains (sorted_codes domains) [] ∅ Hnd) as Hspec.
  destruct (write_content _ _ _ _) as [content index]. destruct Hspec as (Hcont & Hindex & _). cbn [app length] in *.
  intros code l Hl. destruct (list_elem_of_split (sorted_codes domains) code) as (k1 & k2 & Hk).
  { apply Hin. by eexists. }
  rewrite (Hindex k1 code k2 Hk). eexists _, (concat (list_bytes domains <$> k2)). split; [reflexivity|].
  rewrite Hcont, Hk, fmap_app, concat_app. cbn [Nat.add fmap list_fmap concat]. split; [rewrite length_app; lia|].
  by rewrite drop_app_length.
Qed.

Lemma reads_geo_header domains : domains_ok domains → let '(content, index) := write_content domains (sorted_codes domains) [] ∅ in
  reads readMetadata (header_bytes domains index) (entry_of domains index <$> sorted_codes domains).
Proof.
  intros (Hsize & Hlen & Hall). destruct (sorted_codes_spec domains) as (_ & Hin & Hn).
  pose proof (write_content_at domains) as Hat. pose proof (Write_header domains) as Hw.
  destruct (write_content _ _ _ _) as [content index]. rewrite Hw, length_app in Hlen.
  unfold readMetadata, header_bytes. eapply reads_bind; [apply reads_byte|]. change (negb (byte_Z x00 =? 0)) with false. cbv iota.
  eapply reads_bind.
  { apply reads_uvarint_nat. rewrite Hn. unfold max_alloc in Hsize. lia. }
  apply (reads_bind _ _ [] _ tt); [apply reads_make; [lia|by rewrite Hn]|].
  rewrite Nat2Z.id. apply reads_times_map. intros code i Hcode. apply Hin in Hcode as [l Hl].
  destruct (Hall code l Hl) as (Hc & Hlist & _). destruct (Hat code l Hl) as (n & rest & Hindex & Hle & _).
  apply reads_entry; [done|rewrite Hindex; cbn; lia|rewrite Hl; cbn; unfold max_alloc in Hlist; lia].
Qed.

(** What is written is read back: of a map of lists that can be allocated, the reader knows exactly
    the codes, and gives for each of them its list, and for any other text an error. *)
Theorem Write_lists domains : domains_ok domains →
  ∃ r codes, NewReader (Write domains) = Ok (r, codes) ∧ (∀ code, code ∈ codes ↔ is_Some (domains !! code)) ∧ NoDup codes ∧
  ∀ code, match domains !! code with
          | Some l => GeoReader_Read r code = Ok l
          | None => ∃ e, GeoReader_Read r code = Err e
          end.
Proof.
  intros Hok. pose proof Hok as (Hsize & Hlen & Hall). destruct (sorted_codes_spec domains) as (Hnd & Hin & _).
  pose proof (reads_geo_header domains Hok) as Hr. pose proof (write_content_at domains) as Hat. pose proof (Write_header domains) as Hw.
  destruct (write_content _ _ _ _) as [content index]. rewrite Hw in *. rewrite length_app in Hlen.
  unfold NewReader. rewrite (Hr content). cbn [mbind res_bind]. eexists _, _. split; [reflexivity|].
  set (l := entry_of domains index <$> sorted_codes domains).
  assert (gm_Code <$> l = sorted_codes domains) as Hcodes.
  { unfold l. rewrite <-list_fmap_compose. apply list_fmap_id. }
  assert (∀ (A : Type) (f : geositeMetadata → A) code, index_entries f l !! code = f <$> (if decide (is_Some (domains !! code)) then Some (entry_of domains index code) else None)) as Hlookup.
  { intros A f code. destruct (index_entries_lookup f l ∅) as [H1 H2]; [by rewrite Hcodes|]. unfold index_entries.
    destruct (decide (is_Some (domains !! code))) as [Hs|Hs].
    - apply (H1 (entry_of domains index code)). apply list_elem_of_fmap. exists code. split; [done|by apply Hin].
    - rewrite H2; [done|]. rewrite Hcodes. by rewrite Hin. }
  split; [|split].
  - intros code. rewrite list_elem_of_fmap. split.
    + intros ([c z] & -> & Hz%elem_of_map_to_list). cbn. rewrite Hlookup in Hz. by destruct (decide _).
    + intros Hs. exists (code, Z.of_nat (default 0%nat (index !! code))). split; [done|]. apply elem_of_map_to_list.
      rewrite Hlookup. by destruct (decide _).
  - apply NoDup_fst_map_to_list.
  - intros code. unfold GeoReader_Read. cbn [gr_domainIndex gr_domainLength gr_metadataIndex gr_reader]. rewrite !Hlookup.
    destruct (domains !! code) as [items|] eqn:Hc; [|rewrite decide_False by (by intros [? ?]); by eexists].
    rewrite decide_True by (by eexists). cbn [fmap option_fmap option_map default from_option id].
    destruct (Hat code items Hc) as (n & rest & Hindex & Hle & Hdrop). destruct (Hall code items Hc) as (_ & Halloc & Hitems).
    cbn [entry_of gm_Index gm_Length]. rewrite Hindex, Hc. cbn [default from_option id].
    rewrite length_app.
    replace (Z.of_nat (length (header_bytes domains index) + length content) - Z.of_nat (length content) + Z.of_nat n)
      with (Z.of_nat (length (header_bytes domains index) + n)) by lia.
    unfold u64. rewrite wrap_id by (unfold is_u; lia). rewrite int64_small by lia.
    rewrite (proj2 (Z.ltb_ge _ _)) by lia. rewrite !Nat2Z.id.
    rewrite drop_app_add, Hdrop. unfold list_bytes. rewrite Hc. cbn [default from_option id].
    assert (reads (_ ← make 24 (Z.of_nat (length items)); read_times (length items) 0 read_item) (concat (write_item <$> items)) items) as Hi.
    { apply (reads_bind _ _ [] _ tt); [apply reads_make; lia|]. apply reads_times. intros item i Hit.
      apply reads_item. rewrite Forall_forall in Hitems. by apply Hitems. }
    by rewrite Hi.
Qed.

End RoundTrip.

(** ** Rules and searches *)

Section Rules.
Context `{ExtLib} `{ActionLib}.

Lemma values_of_concat type ls : values_of type (concat ls) = concat (values_of type <$> ls).
Proof.
  induction ls as [|l ls IH]; [done|]. cbn [concat fmap list_fmap]. rewrite <-IH. unfold values_of. by rewrite filter_app, fmap_app.
Qed.

(** Merging the rules of lists is the rule of the lists together. *)
Lemma Merge_Compile ls : Merge (Compile <$> ls) = Compile (concat ls).
Proof.
  unfold Merge, Compile. rewrite !values_of_concat, <-!list_fmap_compose. reflexivity.
Qed.

(** What an item asks of a domain. *)
Definition item_matches (domain : string) (item : Item) : bool :=
  if Z.eqb (gi_Type item) RuleTypeDomain then String.eqb domain (gi_Value item)
  else if Z.eqb (gi_Type item) RuleTypeDomainSuffix then strings_HasSuffix domain (gi_Value item)
  else if Z.eqb (gi_Type item) RuleTypeDomainKeyword then strings_Contains domain (gi_Value item)
  else if Z.eqb (gi_Type item) RuleTypeDomainRegex then regex_matches (gi_Value item) domain
  else false.

Lemma elem_values_of type code v : v ∈ values_of type code ↔ mkItem type v ∈ code.
Proof.
  unfold values_of. rewrite list_elem_of_fmap. split.
  - intros ([t v'] & -> & [Ht Hi]%list_elem_of_filter). cbn in *. by subst.
  - intros Hi. exists (mkItem type v). split; [done|]. by apply list_elem_of_filter.
Qed.

Lemma find_None_values type (p : string → bool) code :
  List.find p (values_of type code) = None → ∀ v, mkItem type v ∈ code → p v = false.
Proof.
  intros Hf v Hv. apply (List.find_none _ _ Hf). apply list_elem_of_In. by apply elem_values_of.
Qed.

(** The search finds a domain exactly when an item of the list matches it. *)
Lemma search_found code domain :
  searchGeosite_Match (newSearchGeositeMatcher code) domain ≠ "" ↔ ∃ item, item ∈ code ∧ item_matches domain item = true.
Proof.
  unfold searchGeosite_Match, newSearchGeositeMatcher. cbn [sg_domainMap sg_suffixList sg_keywordList sg_regexList].
  change (ru_Domain (Compile code)) with (values_of RuleTypeDomain code).
  change (ru_DomainSuffix (Compile code)) with (values_of RuleTypeDomainSuffix code).
  change (ru_DomainKeyword (Compile code)) with (values_of RuleTypeDomainKeyword code).
  change (ru_DomainRegex (Compile code)) with (values_of RuleTypeDomainRegex code).
  assert (∀ type (p : string → bool) v, List.find p (values_of type code) = Some v → mkItem type v ∈ code ∧ p v = true) as Hfound.
  { intros type p v [Hi Hp]%List.find_some. split; [|done]. by apply elem_values_of, list_elem_of_In. }
  destruct (bool_decide _) eqn:Hd.
  { apply bool_decide_eq_true in Hd. apply elem_of_list_to_set, elem_values_of in Hd. split; [|done].
    intros _. exists (mkItem RuleTypeDomain domain). split; [done|]. unfold item_matches. cbn. by rewrite String.eqb_refl. }
  apply bool_decide_eq_false in Hd. rewrite elem_of_list_to_set, elem_values_of in Hd.
  destruct (List.find (strings_HasSuffix domain) _) as [v|] eqn:H1.
  { split; [|done]. intros _. destruct (Hfound _ _ _ H1). by eexists. }
  destruct (List.find (strings_Contains domain) _) as [v|] eqn:H2.
  { split; [|done]. intros _. destruct (Hfound _ _ _ H2). by eexists. }
  destruct (List.find _ (values_of RuleTypeDomainRegex code)) as [v|] eqn:H3.
  { split; [|done]. intros _. destruct (Hfound _ _ _ H3). by eexists. }
  split; [done|]. intros ([type v] & Hi & Hm). unfold item_matches in Hm. cbn [gi_Type gi_Value] in Hm.
  destruct (Z.eqb_spec type RuleTypeDomain) as [->|_]; [apply String.eqb_eq in Hm as ->; done|].
  destruct (Z.eqb_spec type RuleTypeDomainSuffix) as [->|_]; [by rewrite (find_None_values _ _ _ H1 v Hi) in Hm|].
  destruct (Z.eqb_spec type RuleTypeDomainKeyword) as [->|_]; [by rewrite (find_None_values _ _ _ H2 v Hi) in Hm|].
  destruct (Z.eqb_spec type RuleTypeDomainRegex) as [->|_]; [by rewrite (find_None_values _ _ _ H3 v Hi) in Hm|done].
Qed.

End Rules.

(** ** A concrete file *)

Section Examples.
#[local] Existing Instance StdVarbin.

Definition ex_domains : gmap string (list Item) :=
  list_to_map [("test", [mkItem 0 "a.com"; mkItem 1 ".b.com"; mkItem 2 "keyword"]); ("cn", [mkItem 1 ".cn"]); ("empty", [])].

Lemma ex_domains_ok : domains_ok ex_domains.
Proof.
  split; [vm_compute; discriminate|]. split; [vm_compute; reflexivity|].
  intros code l Hl%elem_of_list_to_map_2. rewrite !elem_of_cons in Hl.
  destruct Hl as [[= -> ->]|[[= -> ->]|[[= -> ->]|[]%not_elem_of_nil]]]; (split; [by vm_compute|split; [by vm_compute|]]); repeat constructor; by vm_compute.
Qed.

Lemma Write_lists_witness :
  ∃ r codes, NewReader (Write ex_domains) = Ok (r, codes) ∧ GeoReader_Read r "cn" = Ok [mkItem 1 ".cn"] ∧
    ∃ e, GeoReader_Read r "us" = Err e.
Proof.
  destruct (Write_lists ex_domains ex_domains_ok) as (r & codes & Hr & _ & _ & Hread). exists r, codes. split; [exact Hr|].
  split; [exact (Hread "cn")|exact (Hread "us")].
Defined.

(** A length of a file can panic, and a file that ends early is an error. *)
Lemma huge_index : NewReader ([x00] ++ PutUvarint (2 ^ 62)) = Panic [AStr "makeslice: len out of range"] ∧
  NewReader (take 20 (Write ex_domains)) = Err io_EOF.
Proof. split; vm_compute; reflexivity. Qed.

End Examples.
