(* ===== verification/Profile.v ===== *)
(** * Messages about profiles (experimental/libbox/profile_import.go)

    Devices exchange errors, lists of profiles, requests for one and its content, which is compressed.
    Every message is read back as it was written ([ProfileContent_roundtrip]), up to the fields that
    its type of profile does not have. *)

From stdpp Require Import base gmap strings list numbers.
From S2P Require Import Prelude GoStd Netip GoIO Geosite.

Local Open Scope Z_scope.

(** [int32] and [int64] of a number, and [binary.Write] and [binary.Read] of them. *)
Definition signed (bits z : Z) : Z := let z := wrap bits z in if Z.ltb z (2 ^ (bits - 1)) then z else z - 2 ^ bits.
Definition write_int (n : nat) (z : Z) : list byte := be_bytes n (wrap (8 * Z.of_nat n) z).
Definition read_int (n : nat) : Reader Z := signed (8 * Z.of_nat n) <$> ReadBE n.
Definition is_int (bits z : Z) : Prop := - 2 ^ (bits - 1) ≤ z < 2 ^ (bits - 1).

(** [compress/gzip]: what a writer gives that is flushed and closed, and what a reader finds: an error,
    or the bytes, and the error that comes after them. *)
Class GzipLib := {
  gzip_compress : list byte → list byte;
  gzip_open : list byte → res (list byte * error);
  gzip_open_compress : ∀ l, gzip_open (gzip_compress l) = Ok (l, io_EOF)
}.

Section Profile.
Context `{VarbinLib} `{GzipLib}.

(** ** Chunks *)

(** [experimental/libbox/profile_import.go:14-19] EncodeChunkedMessage *)
Definition EncodeChunkedMessage (data : list byte) : list byte := be_bytes 2 (u16 (Z.of_nat (length data))) ++ data.

(** [experimental/libbox/profile_import.go:21-23] DecodeLengthChunk *)
Definition DecodeLengthChunk (data : list byte) : res Z :=
  match data with
  | a :: b :: _ => Ok (be_val [a; b])
  | _ => Panic [AStr "index out of range"]
  end.

(** ** Messages *)

(** [experimental/libbox/profile_import.go:25-30] message types *)
Definition MessageTypeError : Z := 0.
Definition MessageTypeProfileList : Z := 1.
Definition MessageTypeProfileContentRequest : Z := 2.
Definition MessageTypeProfileContent : Z := 3.

(** [experimental/libbox/profile_import.go:255-268] readString *)
Definition readString : Reader string := Geosite.readString.

(** [experimental/libbox/profile_import.go:270-273] writeString *)
Definition writeString (value : string) : list byte := Geosite.writeString value.

(** The type of a message, which must be the one that is asked for. *)
Definition read_type (messageType : Z) : Reader () :=
  b ← ReadByte;
  if negb (Z.eqb (byte_Z b) messageType) then of_res (Err (E_New [AStr "invalid message"])) else mret tt.

(** [experimental/libbox/profile_import.go:36-41] (ErrorMessage).Encode *)
Definition ErrorMessage_Encode (Message : string) : list byte := [Z_byte MessageTypeError] ++ writeString Message.

(** [experimental/libbox/profile_import.go:43-58] DecodeErrorMessage *)
Definition DecodeErrorMessage (data : list byte) : res string :=
  fst ((_ ← read_type MessageTypeError; readString) data).

(** [experimental/libbox/profile_import.go:60-64] profile types *)
Definition ProfileTypeLocal : Z := 0.
Definition ProfileTypeiCloud : Z := 1.
Definition ProfileTypeRemote : Z := 2.

(** [experimental/libbox/profile_import.go:66-70] ProfilePreview *)
Record ProfilePreview : Type := mkProfilePreview { pp_ProfileID : Z; pp_Name : string; pp_Type : Z }.

Definition write_preview (preview : ProfilePreview) : list byte :=
  write_int 8 (pp_ProfileID preview) ++ writeString (pp_Name preview) ++ write_int 4 (pp_Type preview).

(** [experimental/libbox/profile_import.go:85-95] (ProfileEncoder).Encode *)
Definition ProfileEncoder_Encode (profiles : list ProfilePreview) : list byte :=
  [Z_byte MessageTypeProfileList] ++ be_bytes 2 (u16 (Z.of_nat (length profiles))) ++ concat (write_preview <$> profiles).

(** [experimental/libbox/profile_import.go:114-130] (ProfileDecoder).Decode (profile) *)
Definition read_preview (i : Z) : Reader ProfilePreview :=
  id ← read_int 8; name ← readString; type ← read_int 4; mret (mkProfilePreview id name type).

(** The profiles are appended one by one, also those in front of an error.

    [experimental/libbox/profile_import.go:113-130] (ProfileDecoder).Decode (loop) *)
Fixpoint decode_previews (n : nat) (d : list ProfilePreview) (s : list byte) : res () * list ProfilePreview :=
  match n with
  | O => (Ok tt, d)
  | S n =>
      match read_preview 0 s with
      | (Ok profile, s) => decode_previews n (d ++ [profile]) s
      | (Err e, _) => (Err e, d)
      | (Panic p, _) => (Panic p, d)
      end
  end.

(** [experimental/libbox/profile_import.go:101-132] (ProfileDecoder).Decode *)
Definition ProfileDecoder_Decode (data : list byte) (d : list ProfilePreview) : res () * list ProfilePreview :=
  match (_ ← read_type MessageTypeProfileList; ReadBE 2) data with
  | (Ok profileCount, s) => decode_previews (Z.to_nat profileCount) d s
  | (Err e, _) => (Err e, d)
  | (Panic p, _) => (Panic p, d)
  end.

(** [experimental/libbox/profile_import.go:142-147] (ProfileContentRequest).Encode *)
Definition ProfileContentRequest_Encode (ProfileID : Z) : list byte :=
  [Z_byte MessageTypeProfileContentRequest] ++ write_int 8 ProfileID.

(** [experimental/libbox/profile_import.go:149-164] DecodeProfileContentRequest *)
Definition DecodeProfileContentRequest (data : list byte) : res Z :=
  fst ((_ ← read_type MessageTypeProfileContentRequest; read_int 8) data).

(** ** The content of a profile *)

(** [experimental/libbox/profile_import.go:166-174] ProfileContent *)
Record ProfileContent : Type := mkProfileContent {
  pc_Name : string; pc_Type : Z; pc_Config : string; pc_RemotePath : string;
  pc_AutoUpdate : bool; pc_AutoUpdateInterval : Z; pc_LastUpdated : Z
}.

(** What is compressed.

    [experimental/libbox/profile_import.go:182-192] (ProfileContent).Encode (content) *)
Definition content_bytes (c : ProfileContent) : list byte :=
  writeString (pc_Name c) ++ write_int 4 (pc_Type c) ++ writeString (pc_Config c) ++
  (if negb (Z.eqb (pc_Type c) ProfileTypeLocal) then writeString (pc_RemotePath c) else []) ++
  (if Z.eqb (pc_Type c) ProfileTypeRemote
   then be_bytes 1 (if pc_AutoUpdate c then 1 else 0) ++ write_int 4 (pc_AutoUpdateInterval c) ++ write_int 8 (pc_LastUpdated c)
   else []).

(** [experimental/libbox/profile_import.go:176-197] (ProfileContent).Encode *)
Definition ProfileContent_Encode (c : ProfileContent) : list byte :=
  [Z_byte MessageTypeProfileContent; Z_byte 1] ++ gzip_compress (content_bytes c).

(** [experimental/libbox/profile_import.go:217-252] DecodeProfileContent (content) *)
Definition read_content (version : Z) : Reader ProfileContent :=
  name ← readString;
  type ← read_int 4;
  config ← readString;
  remotePath ← (if negb (Z.eqb type ProfileTypeLocal) then readString else mret "");
  if Z.eqb type ProfileTypeRemote || (Z.eqb version 0 && negb (Z.eqb type ProfileTypeLocal)) then
    autoUpdate ← ReadBool;
    autoUpdateInterval ← (if Z.leb 1 version then read_int 4 else mret 0);
    lastUpdated ← read_int 8;
    mret (mkProfileContent name type config remotePath autoUpdate autoUpdateInterval lastUpdated)
  else mret (mkProfileContent name type config remotePath false 0 0).

(** The error of a reader that comes to the end is that of what it reads of. *)
Definition end_error (last : error) {A} (r : res A) : res A :=
  match r with
  | Err e => if bool_decide (e = io_EOF ∨ e = io_ErrUnexpectedEOF) && negb (bool_decide (last = io_EOF)) then Err last else r
  | r => r
  end.

(** [experimental/libbox/profile_import.go:199-253] DecodeProfileContent *)
Definition DecodeProfileContent (data : list byte) : res ProfileContent :=
  match (_ ← read_type MessageTypeProfileContent; ReadByte) data with
  | (Ok version, s) =>
      match gzip_open s with
      | Err e => Err (E_Cause e [AStr "unsupported profile"])
      | Panic p => Panic p
      | Ok (bytes, last) => end_error last (fst (read_content (byte_Z version) bytes))
      end
  | (Err e, _) => Err e
  | (Panic p, _) => Panic p
  end.

(** ** What is written is read *)

Lemma signed_wrap bits z : 0 < bits → is_int bits z → signed bits (wrap bits z) = z.
Proof.
  intros Hb [H1 H2]. assert (0 < 2 ^ bits) by (apply Z.pow_pos_nonneg; lia).
  unfold signed, wrap. rewrite Z.mod_mod by lia.
  assert (2 ^ bits = 2 * 2 ^ (bits - 1)) as Hp by (rewrite <-Z.pow_succ_r by lia; f_equal; lia).
  assert (0 < 2 ^ (bits - 1)) by (apply Z.pow_pos_nonneg; lia).
  destruct (Z.leb_spec 0 z).
  - rewrite Z.mod_small by lia. by rewrite (proj2 (Z.ltb_lt _ _)) by lia.
  - replace (z mod 2 ^ bits) with (z + 2 ^ bits).
    + rewrite (proj2 (Z.ltb_ge _ _)) by lia. lia.
    + apply (Z.mod_unique _ _ (-1)); lia.
Qed.

Lemma reads_int n z : (0 < n)%nat → is_int (8 * Z.of_nat n) z → reads (read_int n) (write_int n z) z.
Proof.
  intros Hn Hz. unfold read_int, write_int. rewrite <-(signed_wrap (8 * Z.of_nat n) z ltac:(lia) Hz) at 2. apply reads_fmap, reads_be.
  assert (256 ^ Z.of_nat n = 2 ^ (8 * Z.of_nat n)) as ->; [rewrite Z.pow_mul_r by lia; done|].
  apply wrap_is_u. lia.
Qed.

Lemma reads_type t : is_u 8 t → reads (read_type t) [Z_byte t] tt.
Proof. intros Ht rest. unfold read_type. cbn. unfold mbind, Reader_bind. cbn. rewrite byte_Z_small by done. by rewrite Z.eqb_refl. Qed.

Definition preview_ok (p : ProfilePreview) : Prop :=
  is_int 64 (pp_ProfileID p) ∧ strlen (pp_Name p) ≤ max_alloc ∧ is_int 32 (pp_Type p).

Lemma reads_preview i p : preview_ok p → reads (read_preview i) (write_preview p) p.
Proof.
  intros (Hid & Hname & Htype). unfold read_preview, write_preview.
  eapply reads_bind; [by apply reads_int; [lia|]|]. eapply reads_bind; [by apply reads_geo_string|].
  rewrite <-(app_nil_r (write_int 4 _)). eapply reads_bind; [by apply reads_int; [lia|]|]. destruct p. apply reads_ret.
Qed.

Lemma decode_previews_app l : ∀ d rest, Forall preview_ok l →
  decode_previews (length l) d (concat (write_preview <$> l) ++ rest) = (Ok tt, d ++ l).
Proof.
  induction l as [|p l IH]; intros d rest Hl; cbn [length decode_previews fmap list_fmap concat].
  { by rewrite app_nil_r. }
  apply List.Forall_cons_iff in Hl as [Hp Hl]. rewrite <-app_assoc, (reads_preview 0 p Hp). rewrite IH by done. by rewrite <-app_assoc.
Qed.

(** The list of profiles, for as many as its length can say. *)
Lemma ProfileList_roundtrip profiles d : Z.of_nat (length profiles) < 2 ^ 16 → Forall preview_ok profiles →
  ProfileDecoder_Decode (ProfileEncoder_Encode profiles) d = (Ok tt, d ++ profiles).
Proof.
  intros Hlen Hok. unfold ProfileDecoder_Decode, ProfileEncoder_Encode.
  assert (is_u 16 (Z.of_nat (length profiles))) as Hu by (unfold is_u; lia). unfold u16. rewrite wrap_id by done.
  assert (reads (_ ← read_type MessageTypeProfileList; ReadBE 2)
    ([Z_byte MessageTypeProfileList] ++ be_bytes 2 (Z.of_nat (length profiles))) (Z.of_nat (length profiles))) as Hr.
  { eapply reads_bind; [by apply reads_type|]. apply reads_be. unfold is_u in Hu. lia. }
  rewrite app_assoc, Hr, Nat2Z.id. rewrite <-(app_nil_r (concat _)). by apply decode_previews_app.
Qed.

Lemma ProfileContentRequest_roundtrip id : is_int 64 id → DecodeProfileContentRequest (ProfileContentRequest_Encode id) = Ok id.
Proof.
  intros Hid. unfold DecodeProfileContentRequest, ProfileContentRequest_Encode.
  assert (reads (_ ← read_type MessageTypeProfileContentRequest; read_int 8)
    ([Z_byte MessageTypeProfileContentRequest] ++ write_int 8 id) id) as Hr.
  { eapply reads_bind; [by apply reads_type|]. by apply reads_int; [lia|]. }
  by rewrite <-(app_nil_r (_ ++ _)), Hr.
Qed.

Lemma ErrorMessage_roundtrip message : strlen message ≤ max_alloc → DecodeErrorMessage (ErrorMessage_Encode message) = Ok message.
Proof.
  intros Hm. unfold DecodeErrorMessage, ErrorMessage_Encode.
  assert (reads (_ ← read_type MessageTypeError; readString) ([Z_byte MessageTypeError] ++ writeString message) message) as Hr.
  { eapply reads_bind; [by apply reads_type|]. by apply reads_geo_string. }
  by rewrite <-(app_nil_r (_ ++ _)), Hr.
Qed.

(** What a profile of some type has. *)
Definition kept (c : ProfileContent) : ProfileContent :=
  let remote := Z.eqb (pc_Type c) ProfileTypeRemote in
  mkProfileContent (pc_Name c) (pc_Type c) (pc_Config c)
    (if Z.eqb (pc_Type c) ProfileTypeLocal then "" else pc_RemotePath c)
    (remote && pc_AutoUpdate c) (if remote then pc_AutoUpdateInterval c else 0) (if remote then pc_LastUpdated c else 0).
Definition content_ok (c : ProfileContent) : Prop :=
  strlen (pc_Name c) ≤ max_alloc ∧ is_int 32 (pc_Type c) ∧ strlen (pc_Config c) ≤ max_alloc ∧
  strlen (pc_RemotePath c) ≤ max_alloc ∧ is_int 32 (pc_AutoUpdateInterval c) ∧ is_int 64 (pc_LastUpdated c).

Lemma reads_content c : content_ok c → reads (read_content 1) (content_bytes c) (kept c).
Proof.
  intros (Hname & Htype & Hconfig & Hpath & Hinterval & Hlast). unfold read_content, content_bytes, kept.
  eapply reads_bind; [by apply reads_geo_string|]. eapply reads_bind; [by apply reads_int; [lia|]|].
  eapply reads_bind; [by apply reads_geo_string|]. cbn [Z.eqb andb]. rewrite orb_false_r.
  eapply (reads_bind _ _ _ _ (if Z.eqb (pc_Type c) ProfileTypeLocal then "" else pc_RemotePath c)).
  { destruct (Z.eqb (pc_Type c) ProfileTypeLocal); cbn [negb]; [apply reads_ret|by apply reads_geo_string]. }
  destruct (Z.eqb (pc_Type c) ProfileTypeRemote); [|apply reads_ret].
  eapply reads_bind; [apply reads_bool|]. eapply reads_bind; [by apply reads_int; [lia|]|].
  rewrite <-(app_nil_r (write_int 8 _)). eapply reads_bind; [by apply reads_int; [lia|]|]. apply reads_ret.
Qed.

(** The content of a profile that is sent is received: with every field that its type of profile
    has, and the others empty. *)
Theorem ProfileContent_roundtrip c : content_ok c → DecodeProfileContent (ProfileContent_Encode c) = Ok (kept c).
Proof.
  intros Hc. unfold DecodeProfileContent, ProfileContent_Encode.
  assert (reads (_ ← read_type MessageTypeProfileContent; ReadByte) [Z_byte MessageTypeProfileContent; Z_byte 1] (Z_byte 1)) as Hr.
  { apply (reads_bind _ _ [_] [_] tt); [by apply reads_type|apply reads_byte]. }
  rewrite Hr, gzip_open_compress. rewrite byte_Z_small by done. by rewrite <-(app_nil_r (content_bytes c)), (reads_content c Hc).
Qed.

End Profile.

(** ** Concrete messages *)

Section Examples.
#[local] Existing Instance StdVarbin.

(** Bytes that are not compressed. *)
#[local] Instance plain_gzip : GzipLib := {|
  gzip_compress l := l; gzip_open l := Ok (l, io_EOF); gzip_open_compress l := eq_refl
|}.

Definition ex_content : ProfileContent := mkProfileContent "home" ProfileTypeRemote "{}" "https://a.test" true 60 (-1).

Lemma ProfileContent_roundtrip_witness : DecodeProfileContent (ProfileContent_Encode ex_content) = Ok ex_content.
Proof. apply (ProfileContent_roundtrip ex_content). vm_compute. repeat split; discriminate. Defined.

(** More chunks and profiles than 16 bits count are taken for fewer. *)
Lemma chunk_length_wraps : DecodeLengthChunk (EncodeChunkedMessage (repeat x00 (Z.to_nat (2 ^ 16 + 1)))) = Ok 1.
Proof. vm_compute. reflexivity. Qed.

End Examples.
