(* ===== verification/Badversion.v ===== *)
(** * Versions and deprecated features (common/badversion, experimental/deprecated)

    Versions are parsed from many forms and compared; a feature that is deprecated warns, or stops the
    program, as the version of the program comes near the one in which the feature is removed.
    [GreaterThan_order] says that the comparison is an order where the pre-release identifiers are the
    known ones, and [Parse_String] that the text of a version is parsed back. *)

From stdpp Require Import base gmap strings list numbers pretty.
From S2P Require Import Prelude GoStd Chars Strconv.

Local Open Scope Z_scope.
Local Open Scope string_scope.

(** ** Versions *)

(** [common/badversion/version.go:12-19] Version *)
Record Version : Type := mkVersion {
  Major : Z; Minor : Z; Patch : Z; Commit : string; PreReleaseIdentifier : string; PreReleaseVersion : Z
}.
#[global] Instance Version_settable : Settable Version :=
  {| mkT r := mkVersion (Major r) (Minor r) (Patch r) (Commit r) (PreReleaseIdentifier r) (PreReleaseVersion r) |}.
#[global] Instance Version_eq_dec : EqDecision Version.
Proof. solve_decision. Defined.
Definition Version_zero : Version := mkVersion 0 0 0 "" "" 0.

(** [common/badversion/version.go:73-82] parsePreReleaseIdentifier *)
Definition parsePreReleaseIdentifier (identifier : string) : Z :=
  if strings_HasPrefix identifier "rc" then 1
  else if strings_HasPrefix identifier "beta" then 2
  else if strings_HasPrefix identifier "alpha" then 3
  else 0.

(** [common/badversion/version.go:33-71] (Version).GreaterThan *)
Definition GreaterThan (v another : Version) : bool :=
  if Z.ltb (Major another) (Major v) then true else if Z.ltb (Major v) (Major another) then false else
  if Z.ltb (Minor another) (Minor v) then true else if Z.ltb (Minor v) (Minor another) then false else
  if Z.ltb (Patch another) (Patch v) then true else if Z.ltb (Patch v) (Patch another) then false else
  let id := PreReleaseIdentifier v in
  let anotherId := PreReleaseIdentifier another in
  if String.eqb id "" && negb (String.eqb anotherId "") then true
  else if negb (String.eqb id "") && String.eqb anotherId "" then false
  else if negb (String.eqb id "") && negb (String.eqb anotherId "") then
    if String.eqb id anotherId && Z.ltb (PreReleaseVersion another) (PreReleaseVersion v) then true
    else if String.eqb id anotherId && Z.ltb (PreReleaseVersion v) (PreReleaseVersion another) then false
    else Z.ltb (parsePreReleaseIdentifier id) (parsePreReleaseIdentifier anotherId)
  else false.

(** [common/badversion/version.go:29-31] (Version).GreaterThanOrEqual *)
Definition GreaterThanOrEqual (v another : Version) : bool := bool_decide (v = another) || GreaterThan v another.
(** [common/badversion/version.go:21-23] (Version).LessThan *)
Definition LessThan (v another : Version) : bool := negb (GreaterThanOrEqual v another).
(** [common/badversion/version.go:25-27] (Version).LessThanOrEqual *)
Definition LessThanOrEqual (v another : Version) : bool := bool_decide (v = another) || GreaterThan another v.

(** [common/badversion/version.go:84-86] (Version).VersionString *)
Definition VersionString (v : Version) : string :=
  Itoa (Major v) +:+ "." +:+ Itoa (Minor v) +:+ "." +:+ Itoa (Patch v).

(** [common/badversion/version.go:88-94] (Version).String *)
Definition Version_String (v : Version) : string :=
  VersionString v +:+
  (if String.eqb (PreReleaseIdentifier v) "" then "" else "-" +:+ PreReleaseIdentifier v +:+ "." +:+ Itoa (PreReleaseVersion v)).

(** [common/badversion/version.go:96-108] (Version).BadString *)
Definition BadString (v : Version) : string :=
  Itoa (Major v) +:+ "." +:+ Itoa (Minor v) +:+
  (if Z.ltb 0 (Patch v) then "." +:+ Itoa (Patch v) else "") +:+
  (if String.eqb (PreReleaseIdentifier v) "" then "" else
   "-" +:+ PreReleaseIdentifier v +:+ (if Z.ltb 0 (PreReleaseVersion v) then Itoa (PreReleaseVersion v) else "")).

(** [common/badversion/version.go:121-138] Parse (identifier) *)
Definition parse_identifier (identifier : string) (version : Version) : Version :=
  if strings_Contains identifier "." then
    match strings_Split "." identifier with
    | first :: second :: _ => version <| PreReleaseIdentifier := first |> <| PreReleaseVersion := fst (Atoi second) |>
    | first :: _ => version <| PreReleaseIdentifier := first |>
    | [] => version
    end
  else if strings_HasPrefix identifier "alpha" then
    version <| PreReleaseIdentifier := "alpha" |> <| PreReleaseVersion := fst (Atoi (str_drop 5 identifier)) |>
  else if strings_HasPrefix identifier "beta" then
    version <| PreReleaseIdentifier := "beta" |> <| PreReleaseVersion := fst (Atoi (str_drop 4 identifier)) |>
  else version <| Commit := identifier |>.

(** The elements of a version; what is not a number counts as the value that [Atoi] gives beside its
    error.

    [common/badversion/version.go:140-150] Parse (elements) *)
Definition parse_elements (versionName : string) (version : Version) : Version :=
  match strings_Split "." versionName with
  | [] => version
  | [major] => version <| Major := fst (Atoi major) |>
  | [major; minor] => version <| Major := fst (Atoi major) |> <| Minor := fst (Atoi minor) |>
  | major :: minor :: patch :: _ =>
      version <| Major := fst (Atoi major) |> <| Minor := fst (Atoi minor) |> <| Patch := fst (Atoi patch) |>
  end.

(** [common/badversion/version.go:114-152] Parse *)
Definition Parse (versionName : string) : Version :=
  let versionName := if strings_HasPrefix versionName "v" then str_drop 1 versionName else versionName in
  if strings_Contains versionName "-" then
    match strings_Split "-" versionName with
    | versionName :: identifier :: _ => parse_elements versionName (parse_identifier identifier Version_zero)
    | _ => Version_zero
    end
  else parse_elements versionName Version_zero.

(** ** Deprecated features *)

(** [experimental/deprecated/constants.go:14-21] Note *)
Record Note : Type := mkNote {
  nt_Name : string; nt_Description : string; nt_DeprecatedVersion : string; nt_ScheduledVersion : string;
  nt_EnvName : string; nt_MigrationLink : string
}.

(** [experimental/deprecated/constants.go:60-67] OptionBadMatchSource *)
Definition OptionBadMatchSource : Note :=
  mkNote "bad-match-source" "legacy match source rule item" "1.10.0" "1.11.0"
    "BAD_MATCH_SOURCE" "https://sing-box.sagernet.org/deprecated/#match-source-rule-items-are-renamed".

(** [experimental/deprecated/constants.go:69-76] OptionGEOIP *)
Definition OptionGEOIP : Note :=
  mkNote "geoip" "geoip database" "1.8.0" "1.12.0"
    "GEOIP" "https://sing-box.sagernet.org/migration/#migrate-geoip-to-rule-sets".

(** [experimental/deprecated/constants.go:78-85] OptionGEOSITE *)
Definition OptionGEOSITE : Note :=
  mkNote "geosite" "geosite database" "1.8.0" "1.12.0"
    "GEOSITE" "https://sing-box.sagernet.org/migration/#migrate-geosite-to-rule-sets".

(** [experimental/deprecated/constants.go:87-94] OptionTUNAddressX *)
Definition OptionTUNAddressX : Note :=
  mkNote "tun-address-x" "legacy tun address fields" "1.10.0" "1.12.0"
    "TUN_ADDRESS_X" "https://sing-box.sagernet.org/migration/#tun-address-fields-are-merged".

(** [experimental/deprecated/constants.go:96-103] OptionSpecialOutbounds *)
Definition OptionSpecialOutbounds : Note :=
  mkNote "special-outbounds" "legacy special outbounds" "1.11.0" "1.13.0"
    "SPECIAL_OUTBOUNDS" "https://sing-box.sagernet.org/migration/#migrate-legacy-special-outbounds-to-rule-actions".

(** [experimental/deprecated/constants.go:105-112] OptionInboundOptions *)
Definition OptionInboundOptions : Note :=
  mkNote "inbound-options" "legacy inbound fields" "1.11.0" "1.13.0"
    "INBOUND_OPTIONS" "https://sing-box.sagernet.org/migration/#migrate-legacy-special-outbounds-to-rule-actions".

(** [experimental/deprecated/constants.go:114-121] OptionDestinationOverrideFields *)
Definition OptionDestinationOverrideFields : Note :=
  mkNote "destination-override-fields" "destination override fields in direct outbound" "1.11.0" "1.13.0"
    "DESTINATION_OVERRIDE_FIELDS" "https://sing-box.sagernet.org/migration/#migrate-destination-override-fields-to-route-options".

(** [experimental/deprecated/constants.go:123-130] OptionWireGuardOutbound *)
Definition OptionWireGuardOutbound : Note :=
  mkNote "wireguard-outbound" "legacy wireguard outbound" "1.11.0" "1.13.0"
    "WIREGUARD_OUTBOUND" "https://sing-box.sagernet.org/migration/#migrate-wireguard-outbound-to-endpoint".

(** [experimental/deprecated/constants.go:132-139] OptionWireGuardGSO *)
Definition OptionWireGuardGSO : Note :=
  mkNote "wireguard-gso" "GSO option in wireguard outbound" "1.11.0" "1.13.0"
    "WIREGUARD_GSO" "https://sing-box.sagernet.org/migration/#migrate-wireguard-outbound-to-endpoint".

(** [experimental/deprecated/constants.go:141-148] OptionTUNGSO *)
Definition OptionTUNGSO : Note :=
  mkNote "tun-gso" "GSO option in tun" "1.11.0" "1.12.0"
    "TUN_GSO" "https://sing-box.sagernet.org/deprecated/#gso-option-in-tun".

(** [experimental/deprecated/constants.go:150-157] OptionLegacyDNSTransport *)
Definition OptionLegacyDNSTransport : Note :=
  mkNote "legacy-dns-transport" "legacy DNS servers" "1.12.0" "1.14.0"
    "LEGACY_DNS_SERVERS" "https://sing-box.sagernet.org/migration/#migrate-to-new-dns-server-formats".

(** [experimental/deprecated/constants.go:159-166] OptionLegacyDNSFakeIPOptions *)
Definition OptionLegacyDNSFakeIPOptions : Note :=
  mkNote "legacy-dns-fakeip-options" "legacy DNS fakeip options" "1.12.0" "1.14.0"
    "LEGACY_DNS_FAKEIP_OPTIONS" "https://sing-box.sagernet.org/migration/#migrate-to-new-dns-server-formats".

(** [experimental/deprecated/constants.go:168-175] OptionOutboundDNSRuleItem *)
Definition OptionOutboundDNSRuleItem : Note :=
  mkNote "outbound-dns-rule-item" "outbound DNS rule item" "1.12.0" "1.14.0"
    "OUTBOUND_DNS_RULE_ITEM" "https://sing-box.sagernet.org/migration/#migrate-outbound-dns-rule-items-to-domain-resolver".

(** [experimental/deprecated/constants.go:177-184] OptionMissingDomainResolver *)
Definition OptionMissingDomainResolver : Note :=
  mkNote "missing-domain-resolver" "missing `route.default_domain_resolver` or `domain_resolver` in dial fields" "1.12.0" "1.14.0"
    "MISSING_DOMAIN_RESOLVER" "https://sing-box.sagernet.org/migration/#migrate-outbound-dns-rule-items-to-domain-resolver".

(** [experimental/deprecated/constants.go:186-193] OptionLegacyECHOptions *)
Definition OptionLegacyECHOptions : Note :=
  mkNote "legacy-ech-options" "legacy ECH options" "1.12.0" "1.13.0"
    "LEGACY_ECH_OPTIONS" "https://sing-box.sagernet.org/deprecated/#legacy-ech-fields".

(** [experimental/deprecated/constants.go:195-202] OptionLegacyDomainStrategyOptions *)
Definition OptionLegacyDomainStrategyOptions : Note :=
  mkNote "legacy-domain-strategy-options" "legacy domain strategy options" "1.12.0" "1.14.0"
    "LEGACY_DOMAIN_STRATEGY_OPTIONS" "https://sing-box.sagernet.org/migration/#migrate-domain-strategy-options".

(** [experimental/deprecated/constants.go:204-221] Options *)
Definition Options : list Note :=
  [OptionBadMatchSource; OptionGEOIP; OptionGEOSITE; OptionTUNAddressX;
   OptionSpecialOutbounds; OptionInboundOptions; OptionDestinationOverrideFields;
   OptionWireGuardOutbound; OptionWireGuardGSO; OptionTUNGSO; OptionLegacyDNSTransport;
   OptionLegacyDNSFakeIPOptions; OptionOutboundDNSRuleItem; OptionMissingDomainResolver;
   OptionLegacyECHOptions; OptionLegacyDomainStrategyOptions].

Section Deprecated.
(** [semver.IsValid] of golang.org/x/mod, the version of the program, and its environment. *)
Context (semver_IsValid : string → bool) (currentVersion : string) (Getenv : string → string).

(** [common/badversion/version.go:110-112] IsValid *)
Definition IsValid (versionName : string) : bool := semver_IsValid ("v" +:+ versionName).

(** [experimental/deprecated/constants.go:23-36] (Note).Impending *)
Definition Impending (n : Note) : res bool :=
  if String.eqb (nt_ScheduledVersion n) "" then Ok false else
  if negb (semver_IsValid ("v" +:+ currentVersion)) then Ok false else
  let versionCurrent := Parse currentVersion in
  let versionMinor := Minor (Parse (nt_ScheduledVersion n)) - Minor versionCurrent in
  if String.eqb (PreReleaseIdentifier versionCurrent) "" && Z.ltb versionMinor 0
  then Panic [AStr ("invalid deprecated note: " +:+ nt_Name n)]
  else Ok (Z.leb versionMinor 1).

(** [experimental/deprecated/constants.go:46-58] (Note).MessageWithLink *)
Definition MessageWithLink (n : Note) : string :=
  nt_Description n +:+ " is deprecated in sing-box " +:+ nt_DeprecatedVersion n +:+ " and will be removed in sing-box " +:+
  nt_ScheduledVersion n +:+
  (if String.eqb (nt_MigrationLink n) "" then "." else ", checkout documentation for migration: " +:+ nt_MigrationLink n).

(** [strconv.ParseBool] *)
Definition ParseBool (s : string) : option bool :=
  if existsb (String.eqb s) ["1"; "t"; "T"; "TRUE"; "true"; "True"] then Some true
  else if existsb (String.eqb s) ["0"; "f"; "F"; "FALSE"; "false"; "False"] then Some false
  else None.

(** What is written to the log; [L_Fatal] ends the program. *)
Inductive LogLine : Type := L_Warn (message : string) | L_Error (message : string) | L_Fatal (message : string).

(** The names of the features that have been reported.

    [experimental/deprecated/stderr.go:22-42] (stderrManager).ReportDeprecated *)
Definition ReportDeprecated (feature : Note) (reported : gset string) : res (list LogLine) * gset string :=
  if bool_decide (nt_Name feature ∈ reported) then (Ok [], reported) else
  let reported := {[nt_Name feature]} ∪ reported in
  (match Impending feature with
   | Panic p => Panic p
   | Err e => Err e
   | Ok false => Ok [L_Warn (MessageWithLink feature)]
   | Ok true =>
       if negb (String.eqb (nt_EnvName feature) "") then
         match ParseBool (Getenv ("ENABLE_DEPRECATED_" +:+ nt_EnvName feature)) with
         | Some true => Ok [L_Warn (MessageWithLink feature)]
         | _ => Ok [L_Error (MessageWithLink feature);
                    L_Fatal ("to continuing using this feature, set environment variable ENABLE_DEPRECATED_" +:+
                             nt_EnvName feature +:+ "=true")]
         end
       else Ok [L_Error (MessageWithLink feature)]
   end, reported).

End Deprecated.

(** ** The text of a version *)

(** The versions that have a text of their own. *)
Definition version_ok (v : Version) : Prop :=
  0 ≤ Major v < 2 ^ 63 ∧ 0 ≤ Minor v < 2 ^ 63 ∧ 0 ≤ Patch v < 2 ^ 63 ∧ Commit v = "" ∧ 0 ≤ PreReleaseVersion v < 2 ^ 63 ∧
  if String.eqb (PreReleaseIdentifier v) "" then PreReleaseVersion v = 0
  else free_of ["-"%char; "."%char] (PreReleaseIdentifier v) = true.

Lemma Atoi_Itoa_nonneg z : 0 ≤ z < 2 ^ 63 → fst (Atoi (Itoa z)) = z.
Proof. intros Hz. by rewrite Atoi_Itoa by lia. Qed.

Lemma VersionString_no v l : version_ok v → forallb (λ x, negb (bool_decide (is_Some (digit_val x)))) l = true →
  existsb (Ascii.eqb ".") l = false → free_of l (VersionString v) = true.
Proof.
  intros (H1 & H2 & H3 & _) Hl Hd. unfold VersionString. rewrite !free_of_app, !free_of_cons, Hd.
  rewrite !Itoa_no by (done || lia). done.
Qed.

Lemma parse_elements_String v w : version_ok v →
  parse_elements (VersionString v) w = w <| Major := Major v |> <| Minor := Minor v |> <| Patch := Patch v |>.
Proof.
  intros (H1 & H2 & H3 & _). unfold parse_elements, VersionString.
  change ("." +:+ ?a) with (String "." a). rewrite !string_cons_app. change ("" +:+ ?a) with a.
  rewrite !Split_app by (apply Itoa_no; [lia|done]). rewrite Split_free by (apply Itoa_no; [lia|done]).
  by rewrite !Atoi_Itoa_nonneg.
Qed.

Lemma VersionString_no_v v rest : version_ok v → strings_HasPrefix (VersionString v +:+ rest) "v" = false.
Proof.
  intros Hv. apply (HasPrefix_free "v" ""); [|by apply VersionString_no].
  unfold VersionString. destruct Hv as (H1 & _). rewrite Itoa_nonneg by lia. pose proof (pretty_N_nonempty (Z.to_N (Major v))).
  by destruct (pretty (Z.to_N (Major v))).
Qed.

(** The text of a version is parsed back: for numbers that fit and an identifier without
    separators. *)
Theorem Parse_String v : version_ok v → Parse (Version_String v) = v.
Proof.
  intros Hv. unfold Parse, Version_String. rewrite VersionString_no_v by done.
  pose proof Hv as (_ & _ & _ & Hc & Hp & Hid). destruct (String.eqb_spec (PreReleaseIdentifier v) "") as [He|Hne].
  - rewrite app_empty_r. rewrite Contains_free by (by apply VersionString_no). rewrite parse_elements_String by done.
    destruct v; cbn in *. by subst.
  - change ("-" +:+ ?a) with (String "-" a). rewrite Contains_char.
    rewrite Split_app by (by apply VersionString_no).
    assert (free_of ["-"%char] (PreReleaseIdentifier v +:+ String "." (Itoa (PreReleaseVersion v))) = true) as Hfree.
    { rewrite free_of_app, free_of_cons. rewrite (free_of_elem ["-"%char; "."%char]) by (done || constructor).
      by rewrite Itoa_no by (done || lia). }
    change ("." +:+ ?a) with (String "." a). rewrite Split_free by done.
    unfold parse_identifier. rewrite Contains_char. rewrite Split_app by (apply (free_of_elem ["-"%char; "."%char]); [by repeat constructor|done]).
    rewrite Split_free by (apply Itoa_no; [lia|done]). rewrite Atoi_Itoa_nonneg by done.
    rewrite parse_elements_String by done. destruct v; cbn in *. by subst.
Qed.

(** ** The order of versions *)

(** The pre-release identifiers that are in use. *)
Definition known (v : Version) : Prop :=
  Commit v = "" ∧ (PreReleaseIdentifier v = "" ∧ PreReleaseVersion v = 0 ∨
    PreReleaseIdentifier v ∈ ["rc"; "beta"; "alpha"]).

(** What is compared, one after the other. *)
Definition version_key (v : Version) : list Z :=
  [Major v; Minor v; Patch v;
   if String.eqb (PreReleaseIdentifier v) "" then 0 else - parsePreReleaseIdentifier (PreReleaseIdentifier v); PreReleaseVersion v].
Fixpoint lex_gt (a b : list Z) : bool :=
  match a, b with
  | x :: a, y :: b => Z.ltb y x || (Z.eqb x y && lex_gt a b)
  | _, _ => false
  end.

Lemma lex_gt_step x y a b : lex_gt (x :: a) (y :: b) = if Z.ltb y x then true else if Z.ltb x y then false else lex_gt a b.
Proof.
  cbn [lex_gt]. destruct (Z.ltb_spec y x); [done|]. cbn [orb]. destruct (Z.ltb_spec x y).
  - by rewrite (proj2 (Z.eqb_neq x y)) by lia.
  - by rewrite (proj2 (Z.eqb_eq x y)) by lia.
Qed.

Lemma known_identifier v : known v → PreReleaseIdentifier v ∈ [""; "rc"; "beta"; "alpha"].
Proof. intros [_ [[-> _]|Hid]]; [by constructor|by right]. Qed.

Lemma empty_unknown : "" ∉ ["rc"; "beta"; "alpha"].
Proof. apply (bool_decide_unpack _). vm_compute. exact I. Qed.

Lemma GreaterThan_key v w : known v → known w → GreaterThan v w = lex_gt (version_key v) (version_key w).
Proof.
  intros Hv Hw. unfold GreaterThan, version_key. rewrite !lex_gt_step.
  do 6 (case_match; [done|]). pose proof (known_identifier v Hv) as Iv. pose proof (known_identifier w Hw) as Iw.
  destruct Hv as [_ Hv], Hw as [_ Hw].
  assert (∀ P Q : bool, (if P then true else if Q then false else false) = P) as Hif by (intros [] []; done).
  cbn [lex_gt]. rewrite !elem_of_cons in Iv, Iw.
  destruct Iv as [Ei|[Ei|[Ei|[Ei|Ei]]]], Iw as [Ej|[Ej|[Ej|[Ej|Ej]]]]; try (by apply not_elem_of_nil in Ei); try (by apply not_elem_of_nil in Ej);
    rewrite Ei, Ej in *; cbn; try done.
  - destruct Hv as [[_ ->]|Hv]; [|by apply empty_unknown in Hv]. destruct Hw as [[_ ->]|Hw]; [done|by apply empty_unknown in Hw].
Qed.

Lemma lex_gt_irrefl a : lex_gt a a = false.
Proof. induction a as [|x a IH]; [done|]. cbn. by rewrite Z.ltb_irrefl, Z.eqb_refl. Qed.

Lemma lex_gt_trans a : ∀ b c, lex_gt a b = true → lex_gt b c = true → lex_gt a c = true.
Proof.
  induction a as [|x a IH]; intros [|y b] [|z c]; try done. rewrite !lex_gt_step.
  destruct (Z.ltb_spec y x), (Z.ltb_spec z y), (Z.ltb_spec z x); try done; try lia;
    destruct (Z.ltb_spec x y), (Z.ltb_spec y z), (Z.ltb_spec x z); try done; try lia. apply IH.
Qed.

Lemma lex_gt_total a : ∀ b, length a = length b → lex_gt a b = true ∨ a = b ∨ lex_gt b a = true.
Proof.
  induction a as [|x a IH]; intros [|y b]; try done; [by auto|]. intros [= Hl]. rewrite !lex_gt_step.
  destruct (Z.ltb_spec y x); [by left|]. destruct (Z.ltb_spec x y); [by auto|].
  assert (x = y) as -> by lia. destruct (IH b Hl) as [?|[->|?]]; auto.
Qed.

Lemma version_key_inj v w : known v → known w → version_key v = version_key w → v = w.
Proof.
  intros Hv Hw Hk. pose proof (known_identifier v Hv) as Iv. pose proof (known_identifier w Hw) as Iw.
  destruct Hv as [Cv _], Hw as [Cw _]. unfold version_key in Hk.
  destruct v as [a b c d e f], w as [a' b' c' d' e' f']. cbn in *. injection Hk as -> -> -> He ->. subst d d'. f_equal.
  rewrite !elem_of_cons in Iv, Iw. revert He.
  destruct Iv as [->|[->|[->|[->|Ei]]]], Iw as [->|[->|[->|[->|Ej]]]]; try done; try (by apply not_elem_of_nil in Ei); by apply not_elem_of_nil in Ej.
Qed.

(** With the known pre-release identifiers the comparison is a strict total order: the numbers come
    first, a release is greater than its candidates, these than its betas and these than its alphas,
    and then the number of the pre-release; and the four comparisons agree. *)
Theorem GreaterThan_order u v w : known u → known v → known w →
  GreaterThan v v = false ∧
  (GreaterThan u v = true → GreaterThan v w = true → GreaterThan u w = true) ∧
  (GreaterThan u v = true ∨ u = v ∨ GreaterThan v u = true) ∧
  LessThan u v = GreaterThan v u ∧ LessThanOrEqual u v = negb (GreaterThan u v).
Proof.
  intros Hu Hv Hw. unfold LessThan, LessThanOrEqual, GreaterThanOrEqual. rewrite !GreaterThan_key by done.
  assert (lex_gt (version_key u) (version_key v) = true ∨ u = v ∨ lex_gt (version_key v) (version_key u) = true) as Htotal.
  { destruct (lex_gt_total (version_key u) (version_key v) eq_refl) as [?|[?|?]]; [by left| |by auto].
    right. left. by apply version_key_inj. }
  split; [apply lex_gt_irrefl|]. split; [apply lex_gt_trans|]. split; [done|].
  assert (∀ x y, lex_gt (version_key x) (version_key y) = true → x ≠ y ∧ lex_gt (version_key y) (version_key x) = false) as Hasym.
  { intros x y Hxy. split; [intros ->; by rewrite lex_gt_irrefl in Hxy|].
    destruct (lex_gt (version_key y) (version_key x)) eqn:Hyx; [|done].
    pose proof (lex_gt_trans _ _ _ Hxy Hyx) as Hxx. by rewrite lex_gt_irrefl in Hxx. }
  destruct Htotal as [Huv|[->|Hvu]].
  - destruct (Hasym _ _ Huv) as [Hne Hvu]. rewrite bool_decide_false, Huv, Hvu by done. done.
  - rewrite bool_decide_true, lex_gt_irrefl by done. done.
  - destruct (Hasym _ _ Hvu) as [Hne Huv]. rewrite bool_decide_false, Huv, Hvu by congruence. done.
Qed.

(** ** Reports *)

Section Reports.
Context (semver_IsValid : string → bool) (currentVersion : string) (Getenv : string → string).

(** A feature is reported once. *)
Lemma reported_once n reported : let '(_, reported) := ReportDeprecated semver_IsValid currentVersion Getenv n reported in
  ReportDeprecated semver_IsValid currentVersion Getenv n reported = (Ok [], reported).
Proof.
  unfold ReportDeprecated. destruct (bool_decide (nt_Name n ∈ reported)) eqn:Hd; [by rewrite Hd|].
  by rewrite bool_decide_true by set_solver.
Qed.

End Reports.

(** ** Concrete versions *)

Section Examples.

Definition v1_13_0 : Version := mkVersion 1 13 0 "" "" 0.
Definition v1_13_0_rc_2 : Version := mkVersion 1 13 0 "" "rc" 2.
Definition v1_13_0_beta_10 : Version := mkVersion 1 13 0 "" "beta" 10.

Lemma Parse_String_witness : Version_String v1_13_0_beta_10 = "1.13.0-beta.10" ∧ Parse (Version_String v1_13_0_beta_10) = v1_13_0_beta_10.
Proof. split; [reflexivity|]. apply (Parse_String v1_13_0_beta_10). vm_compute. repeat split; discriminate. Defined.

Lemma GreaterThan_order_witness :
  GreaterThan v1_13_0 v1_13_0_rc_2 = true ∧ GreaterThan v1_13_0_rc_2 v1_13_0_beta_10 = true ∧ GreaterThan v1_13_0 v1_13_0_beta_10 = true.
Proof.
  split; [reflexivity|]. split; [reflexivity|].
  refine (proj1 (proj2 (GreaterThan_order v1_13_0 v1_13_0_rc_2 v1_13_0_beta_10 _ _ _)) eq_refl eq_refl);
    (split; [reflexivity|]); [left; split; reflexivity|right..]; apply (bool_decide_unpack _); vm_compute; exact I.
Defined.

(** The short text of a release candidate is not parsed back: it is taken for a commit, and so for the
    release. *)
Lemma rc_lost : BadString v1_13_0_rc_2 = "1.13-rc2" ∧ Parse "1.13-rc2" = mkVersion 1 13 0 "rc2" "" 0 ∧
  GreaterThan (Parse "1.13-rc2") v1_13_0_beta_10 = true ∧ Parse (BadString v1_13_0_beta_10) = v1_13_0_beta_10.
Proof. vm_compute. repeat split. Qed.

(** Two versions that differ in what is not compared are each less than the other. *)
Lemma both_less : let a := mkVersion 1 13 0 "abc" "" 0 in LessThan a v1_13_0 = true ∧ LessThan v1_13_0 a = true.
Proof. vm_compute. split; reflexivity. Qed.

(** In the release 1.13.0 the reports of features that were to be removed before panic: of the source
    matching of rule sets, of the address fields and of the GSO option of TUN. *)
Lemma overdue_notes_panic :
  nt_Name <$> List.filter (λ n, match Impending (λ _, true) "1.13.0" n with Panic _ => true | _ => false end) Options =
    ["bad-match-source"; "geoip"; "geosite"; "tun-address-x"; "tun-gso"].
Proof. vm_compute. reflexivity. Qed.

End Examples.
