(* ===== verification/Traffic.v ===== *)
(** * Counting traffic (experimental/v2rayapi/stats.go, service/ssmapi, experimental/clashapi/trafficontrol)

    Counters are shared: a connection adds to counters that others add to, and that are read and reset
    meanwhile.  They live in a store, and what holds one has its place in the store.  Each of the three
    services is proved to count what goes over its connections. *)

From stdpp Require Import base gmap strings list numbers sorting.
From S2P Require Import Prelude GoStd Chars.

Local Open Scope Z_scope.

(** ** Counters *)

(** [atomic.Int64]: the sum wraps around. *)
Definition wrap64 (z : Z) : Z := (z + 2 ^ 63) mod 2 ^ 64 - 2 ^ 63.

Lemma wrap64_add a b : wrap64 (wrap64 a + b) = wrap64 (a + b).
Proof.
  unfold wrap64. f_equal. replace ((a + 2 ^ 63) mod 2 ^ 64 - 2 ^ 63 + b + 2 ^ 63) with ((a + 2 ^ 63) mod 2 ^ 64 + b) by lia.
  rewrite Zplus_mod_idemp_l. f_equal. lia.
Qed.

Lemma wrap64_small z : - 2 ^ 63 ≤ z < 2 ^ 63 → wrap64 z = z.
Proof. intros Hz. unfold wrap64. rewrite Z.mod_small by lia. lia. Qed.

(** The store; a counter is its place in it. *)
Abbreviation Store := (list Z).
Definition new_counter (h : Store) : nat * Store := (length h, h ++ [0]).
Definition Load (h : Store) (c : nat) : Z := default 0 (h !! c).
Definition Set_counter (c : nat) (v : Z) (h : Store) : Store := <[c := v]> h.
Definition Add (c : nat) (n : Z) (h : Store) : Store := alter (λ v, wrap64 (v + n)) c h.

(** [counter.Swap(0)] or [counter.Load()]. *)
Definition read_counter (reset : bool) (c : nat) (h : Store) : Z * Store :=
  (Load h c, if reset then Set_counter c 0 h else h).

(** What a counted connection of sing/common/bufio does with the length of a read or a write. *)
Definition add_all (cs : list nat) (n : Z) (h : Store) : Store := foldl (λ h c, Add c n h) h cs.

Lemma lookup_Add c d n (h : Store) : Add c n h !! d = if decide (c = d) then (λ v, wrap64 (v + n)) <$> h !! d else h !! d.
Proof. unfold Add. destruct (decide (c = d)) as [->|Hne]; [apply list_lookup_alter_eq|by apply list_lookup_alter_ne]. Qed.

Lemma length_Add c n (h : Store) : length (Add c n h) = length h.
Proof. apply length_alter. Qed.

Lemma length_add_all cs n : ∀ h, length (add_all cs n h) = length h.
Proof. induction cs as [|c cs IH]; intros h; cbn; [done|]. unfold add_all in IH. rewrite IH. apply length_Add. Qed.

(** ** The statistics of the V2Ray API *)

Module Stats.

(** [inbounds], [outbounds] and [users] have [true] under each of their keys.

    [experimental/v2rayapi/stats.go:29-36] StatsService *)
Record StatsService : Type := mkStatsService {
  inbounds : gset string;
  outbounds : gset string;
  users : gset string;
  counters : gmap string nat;
  store : Store
}.

(** [experimental/v2rayapi/stats.go:38-61] NewStatsService *)
Definition NewStatsService (enabled : bool) (Inbounds Outbounds Users : list string) : option StatsService :=
  if negb enabled then None else
  Some (mkStatsService (list_to_set Inbounds) (list_to_set Outbounds) (list_to_set Users) ∅ []).

(** [experimental/v2rayapi/stats.go:214-222] (StatsService).loadOrCreateCounter *)
Definition loadOrCreateCounter (name : string) (s : StatsService) : nat * StatsService :=
  match counters s !! name with
  | Some counter => (counter, s)
  | None =>
      let '(counter, h) := new_counter (store s) in
      (counter, mkStatsService (inbounds s) (outbounds s) (users s) (<[name := counter]> (counters s)) h)
  end.

(** The counters of one kind, for what is read and for what is written, when the condition holds.

    [experimental/v2rayapi/stats.go:76-79] (StatsService).RoutedConnection (counters) *)
Definition pair_counters (count : bool) (kind tag : string) (l : list nat * list nat) (s : StatsService)
    : (list nat * list nat) * StatsService :=
  if negb count then (l, s) else
  let '(up, s) := loadOrCreateCounter (kind +:+ tag +:+ ">>>traffic>>>uplink") s in
  let '(down, s) := loadOrCreateCounter (kind +:+ tag +:+ ">>>traffic>>>downlink") s in
  ((l.1 ++ [up], l.2 ++ [down]), s).

Definition counted (tag : string) (tags : gset string) : bool := negb (String.eqb tag "") && bool_decide (tag ∈ tags).

(** [None] is the connection as it was.

    [experimental/v2rayapi/stats.go:63-90] (StatsService).RoutedConnection *)
Definition RoutedConnection (inbound user outbound : string) (s : StatsService) : option (list nat * list nat) * StatsService :=
  let countInbound := counted inbound (inbounds s) in
  let countOutbound := counted outbound (outbounds s) in
  let countUser := counted user (users s) in
  if negb countInbound && negb countOutbound && negb countUser then (None, s) else
  let '(l, s) := pair_counters countInbound "inbound>>>" inbound ([], []) s in
  let '(l, s) := pair_counters countOutbound "outbound>>>" outbound l s in
  let '(l, s) := pair_counters countUser "user>>>" user l s in
  (Some l, s).

(** Packets are not counted, only their bytes.

    [experimental/v2rayapi/stats.go:92-119] (StatsService).RoutedPacketConnection *)
Definition RoutedPacketConnection (inbound user outbound : string) (s : StatsService) := RoutedConnection inbound user outbound s.

Definition set_store (h : Store) (s : StatsService) : StatsService :=
  mkStatsService (inbounds s) (outbounds s) (users s) (counters s) h.

(** [experimental/v2rayapi/stats.go:121-135] (StatsService).GetStats *)
Definition GetStats (name : string) (reset : bool) (s : StatsService) : res Z * StatsService :=
  match counters s !! name with
  | None => (Err (E_New [AStr name; AStr " not found."]), s)
  | Some counter => let '(value, h) := read_counter reset counter (store s) in (Ok value, set_store h s)
  end.

(** Reading counters one after the other.

    [experimental/v2rayapi/stats.go:142-150] (StatsService).QueryStats (counter) *)
Fixpoint read_all (reset : bool) (l : list (string * nat)) (h : Store) : list (string * Z) * Store :=
  match l with
  | [] => ([], h)
  | (name, counter) :: l =>
      let '(value, h) := read_counter reset counter h in
      let '(stats, h) := read_all reset l h in ((name, value) :: stats, h)
  end.

Section Query.
Context {Matcher : Type} (Compile : string → res Matcher) (MatchString : Matcher → string → bool).

(** [experimental/v2rayapi/stats.go:152-159] (StatsService).QueryStats (patterns) *)
Fixpoint compile_all (patterns : list string) : res (list Matcher) :=
  match patterns with
  | [] => Ok []
  | p :: patterns => m ← Compile p; ms ← compile_all patterns; Ok (m :: ms)
  end.

(** A counter is read once for every pattern that matches its name.

    [experimental/v2rayapi/stats.go:160-186] (StatsService).QueryStats (match) *)
Definition matches_of {A} (matches : A → string → bool) (ms : list A) (l : list (string * nat)) : list (string * nat) :=
  l ≫= λ e, (λ _, e) <$> List.filter (λ m, matches m e.1) ms.

(** The order of a map is that of [map_to_list].

    [experimental/v2rayapi/stats.go:137-189] (StatsService).QueryStats *)
Definition QueryStats (patterns : list string) (regexp reset : bool) (s : StatsService) : res (list (string * Z)) * StatsService :=
  let all := map_to_list (counters s) in
  let run l := let '(stats, h) := read_all reset l (store s) in (Ok stats, set_store h s) in
  if negb (nonempty patterns) then run all
  else if regexp then
    match compile_all patterns with
    | Ok ms => run (matches_of MatchString ms all)
    | Err err => (Err err, s)
    | Panic p => (Panic p, s)
    end
  else run (matches_of (λ p name, strings_Contains name p) patterns all).

End Query.

(** *** Every order of what happens *)

Inductive Event : Type :=
| Route (inbound user outbound : string)
| Transfer (conn : nat) (read : bool) (n : Z)
| Get (name : string) (reset : bool).

(** The service and the connections it has returned, each with its counters. *)
Definition Running : Type := StatsService * list (list nat * list nat).

Definition event (r : Running) (e : Event) : Running :=
  let '(s, conns) := r in
  match e with
  | Route inbound user outbound =>
      let '(l, s) := RoutedConnection inbound user outbound s in (s, conns ++ [default ([], []) l])
  | Transfer conn read n =>
      let l := default ([], []) (conns !! conn) in (set_store (add_all (if read then l.1 else l.2) n (store s)) s, conns)
  | Get name reset => ((GetStats name reset s).2, conns)
  end.

(** *** What is counted *)

(** The names under which a connection is counted. *)
Definition labels (i o u : gset string) (inbound user outbound suffix : string) : list string :=
  (if counted inbound i then ["inbound>>>" +:+ inbound +:+ suffix] else []) ++
  (if counted outbound o then ["outbound>>>" +:+ outbound +:+ suffix] else []) ++
  (if counted user u then ["user>>>" +:+ user +:+ suffix] else []).

(** The names of each connection so far, and what has been counted under each name, as unbounded numbers. *)
Definition Counted : Type := list (list string * list string) * (string → Z).

Definition count_event (i o u : gset string) (c : Counted) (e : Event) : Counted :=
  let '(conns, count) := c in
  match e with
  | Route inbound user outbound =>
      (conns ++ [(labels i o u inbound user outbound ">>>traffic>>>uplink", labels i o u inbound user outbound ">>>traffic>>>downlink")], count)
  | Transfer conn read n =>
      let l := default ([], []) (conns !! conn) in
      (conns, foldl (λ count name x, if decide (x = name) then count x + n else count x) count (if read then l.1 else l.2))
  | Get name reset => (conns, λ x, if reset && bool_decide (x = name) then 0 else count x)
  end.

(** What the service has for what is counted. *)
Record agrees (i o u : gset string) (r : Running) (c : Counted) : Prop := {
  ag_sets : inbounds r.1 = i ∧ outbounds r.1 = o ∧ users r.1 = u;
  ag_conns : Forall2 (λ l n, Forall2 (λ p x, counters r.1 !! x = Some p) l.1 n.1 ∧ Forall2 (λ p x, counters r.1 !! x = Some p) l.2 n.2) r.2 c.1;
  ag_values : ∀ x p, counters r.1 !! x = Some p → store r.1 !! p = Some (wrap64 (c.2 x));
  ag_none : ∀ x, counters r.1 !! x = None → c.2 x = 0;
  ag_apart : ∀ x y p, counters r.1 !! x = Some p → counters r.1 !! y = Some p → x = y
}.

Lemma stats_agrees_start i o u : agrees (list_to_set i) (list_to_set o) (list_to_set u)
  (mkStatsService (list_to_set i) (list_to_set o) (list_to_set u) ∅ [], []) ([], λ _, 0).
Proof. split; cbn; try done; try (intros *; by rewrite lookup_empty). Qed.

(** A counter that is there, or is made, for a name. *)
Lemma loadOrCreateCounter_ok name s p s' : loadOrCreateCounter name s = (p, s') →
  (∀ x q, counters s !! x = Some q → (q < length (store s))%nat) →
  (∀ x y q, counters s !! x = Some q → counters s !! y = Some q → x = y) →
  (inbounds s' = inbounds s ∧ outbounds s' = outbounds s ∧ users s' = users s) ∧
  counters s' !! name = Some p ∧ (∀ x q, counters s !! x = Some q → counters s' !! x = Some q) ∧
  (∀ x q, counters s' !! x = Some q → counters s !! x = Some q ∨ x = name ∧ store s' !! q = Some 0 ∧ counters s !! x = None) ∧
  (∀ q v, store s !! q = Some v → store s' !! q = Some v) ∧
  (∀ x q, counters s' !! x = Some q → (q < length (store s'))%nat) ∧
  (∀ x y q, counters s' !! x = Some q → counters s' !! y = Some q → x = y).
Proof.
  unfold loadOrCreateCounter, new_counter. intros Hl Hb Ha. destruct (counters s !! name) as [q|] eqn:Hn; injection Hl as <- <-.
  - split_and!; auto.
  - cbn. split; [done|]. split; [by rewrite lookup_insert_eq|]. split; [|split; [|split; [|split]]].
    + intros x q Hx. rewrite lookup_insert_ne; [done|]. intros <-. congruence.
    + intros x q [[<- <-]|[? Hx]]%lookup_insert_Some; [right|by left]. split; [done|]. split; [|done].
      by rewrite lookup_app_r, Nat.sub_diag by lia.
    + intros q v Hq. by apply lookup_app_l_Some.
    + intros x q. rewrite length_app. cbn. intros [[<- <-]|[? Hx]]%lookup_insert_Some; [lia|]. specialize (Hb _ _ Hx). lia.
    + intros x y q [[<- <-]|[? Hx]]%lookup_insert_Some [[<- Hq]|[? Hy]]%lookup_insert_Some; subst; try done; try by eapply Ha.
      * specialize (Hb _ _ Hy). lia.
      * specialize (Hb _ _ Hx). lia.
Qed.

(** What remains of an agreement when counters are made. *)
Record grows (s s' : StatsService) : Prop := {
  gr_sets : inbounds s' = inbounds s ∧ outbounds s' = outbounds s ∧ users s' = users s;
  gr_kept : ∀ x q, counters s !! x = Some q → counters s' !! x = Some q;
  gr_new : ∀ x q, counters s' !! x = Some q → counters s !! x = Some q ∨ counters s !! x = None ∧ store s' !! q = Some 0;
  gr_store : ∀ q v, store s !! q = Some v → store s' !! q = Some v;
  gr_bound : (∀ x q, counters s !! x = Some q → (q < length (store s))%nat) → ∀ x q, counters s' !! x = Some q → (q < length (store s'))%nat;
  gr_apart : (∀ x q, counters s !! x = Some q → (q < length (store s))%nat) → (∀ x y q, counters s !! x = Some q → counters s !! y = Some q → x = y) →
    ∀ x y q, counters s' !! x = Some q → counters s' !! y = Some q → x = y
}.

Lemma grows_refl s : grows s s.
Proof. split; auto. Qed.

Lemma grows_trans s1 s2 s3 : grows s1 s2 → grows s2 s3 → grows s1 s3.
Proof.
  intros [(? & ? & ?) K1 N1 S1 B1 A1] [(? & ? & ?) K2 N2 S2 B2 A2].
  split; [split_and!; congruence|auto| |auto|exact (λ Hb, B2 (B1 Hb))|exact (λ Hb Ha, A2 (B1 Hb) (A1 Hb Ha))]. intros x q Hx. destruct (N2 x q Hx) as [Hx'|[Hn Hs]].
  - destruct (N1 x q Hx') as [?|[? Hs]]; [by left|]. right. auto.
  - right. split; [|done]. destruct (counters s1 !! x) as [q'|] eqn:E; [|done]. apply K1 in E. congruence.
Qed.

Definition sound (s : StatsService) : Prop :=
  (∀ x q, counters s !! x = Some q → (q < length (store s))%nat) ∧ (∀ x y q, counters s !! x = Some q → counters s !! y = Some q → x = y).

Lemma grows_sound s s' : grows s s' → sound s → sound s'.
Proof. intros [] [Hb Ha]. split; eauto. Qed.

Lemma loadOrCreateCounter_grows name s p s' : loadOrCreateCounter name s = (p, s') → sound s → grows s s' ∧ counters s' !! name = Some p.
Proof.
  intros Hl [Hb Ha]. destruct (loadOrCreateCounter_ok _ _ _ _ Hl Hb Ha) as (Hs & Hp & Hk & Hn & Hst & Hb' & Ha').
  split; [|done]. split; auto. intros x q Hx. destruct (Hn x q Hx) as [?|(-> & ? & ?)]; auto.
Qed.

Lemma pair_counters_grows count kind tag l s l' s' : pair_counters count kind tag l s = (l', s') → sound s →
  grows s s' ∧ ∃ a b, l' = (l.1 ++ a, l.2 ++ b) ∧
    Forall2 (λ p x, counters s' !! x = Some p) a (if count then [kind +:+ tag +:+ ">>>traffic>>>uplink"] else []) ∧
    Forall2 (λ p x, counters s' !! x = Some p) b (if count then [kind +:+ tag +:+ ">>>traffic>>>downlink"] else []).
Proof.
  unfold pair_counters. destruct count; cbn [negb].
  - destruct (loadOrCreateCounter _ s) as [up s1] eqn:H1. destruct (loadOrCreateCounter _ s1) as [down s2] eqn:H2. intros [= <- <-] Hs.
    destruct (loadOrCreateCounter_grows _ _ _ _ H1 Hs) as [G1 Hup]. pose proof (grows_sound _ _ G1 Hs) as Hs1.
    destruct (loadOrCreateCounter_grows _ _ _ _ H2 Hs1) as [G2 Hdown].
    split; [by eapply grows_trans|]. exists [up], [down]. split; [done|]. split; repeat constructor; [by apply (gr_kept _ _ G2)|done].
  - intros [= <- <-] Hs. split; [apply grows_refl|]. exists [], []. rewrite !app_nil_r. split; [by destruct l|]. by split.
Qed.

Lemma Forall2_kept s s' l n : grows s s' → Forall2 (λ p x, counters s !! x = Some p) l n → Forall2 (λ p x, counters s' !! x = Some p) l n.
Proof. intros G Hl. eapply Forall2_impl; [exact Hl|]. intros p x Hx. by apply (gr_kept _ _ G). Qed.

Lemma RoutedConnection_labels inbound user outbound s l s' : RoutedConnection inbound user outbound s = (l, s') → sound s →
  grows s s' ∧
  Forall2 (λ p x, counters s' !! x = Some p) (default ([], []) l).1 (labels (inbounds s) (outbounds s) (users s) inbound user outbound ">>>traffic>>>uplink") ∧
  Forall2 (λ p x, counters s' !! x = Some p) (default ([], []) l).2 (labels (inbounds s) (outbounds s) (users s) inbound user outbound ">>>traffic>>>downlink").
Proof.
  unfold RoutedConnection, labels. set (ci := counted inbound _). set (co := counted outbound _). set (cu := counted user _).
  destruct (negb ci && negb co && negb cu) eqn:Hc.
  { intros [= <- <-] _. split; [apply grows_refl|]. by destruct ci, co, cu. }
  destruct (pair_counters ci _ _ _ s) as [l1 s1] eqn:H1. destruct (pair_counters co _ _ l1 s1) as [l2 s2] eqn:H2.
  destruct (pair_counters cu _ _ l2 s2) as [l3 s3] eqn:H3. intros [= <- <-] Hs.
  destruct (pair_counters_grows _ _ _ _ _ _ _ H1 Hs) as (G1 & a1 & b1 & -> & Ha1 & Hb1). pose proof (grows_sound _ _ G1 Hs) as Hs1.
  destruct (pair_counters_grows _ _ _ _ _ _ _ H2 Hs1) as (G2 & a2 & b2 & -> & Ha2 & Hb2). pose proof (grows_sound _ _ G2 Hs1) as Hs2.
  destruct (pair_counters_grows _ _ _ _ _ _ _ H3 Hs2) as (G3 & a3 & b3 & -> & Ha3 & Hb3).
  pose proof (grows_trans _ _ _ G2 G3) as G23. split; [by eapply grows_trans|]. cbn.
  split; rewrite <-app_assoc; repeat apply Forall2_app; try done; first [by apply (Forall2_kept _ _ _ _ G23)|by apply (Forall2_kept _ _ _ _ G3)].
Qed.

Lemma agrees_sound i o u r c : agrees i o u r c → sound r.1.
Proof. intros []. split; [|done]. intros x q Hx. apply lookup_lt_is_Some. rewrite (ag_values0 _ _ Hx). by eexists. Qed.

Lemma agrees_Route i o u s conns c inbound user outbound : agrees i o u (s, conns) c →
  agrees i o u (event (s, conns) (Route inbound user outbound)) (count_event i o u c (Route inbound user outbound)).
Proof.
  intros Hok. pose proof (agrees_sound _ _ _ _ _ Hok) as Hs. destruct Hok as [(<- & <- & <-) Hconns Hval Hnone Happ]. destruct c as [names count]. cbn in *.
  destruct (RoutedConnection inbound user outbound s) as [l s'] eqn:Hr.
  destruct (RoutedConnection_labels _ _ _ _ _ _ Hr Hs) as (G & Hup & Hdown). pose proof (grows_sound _ _ G Hs) as [_ Ha']. split; cbn.
  - apply G.
  - apply Forall2_app; [|by repeat constructor]. eapply Forall2_impl; [exact Hconns|]. intros ? ? [? ?]. split; by eapply Forall2_kept.
  - intros x p Hx. destruct (gr_new _ _ G _ _ Hx) as [Hx'|[Hn Hst]]; [by apply (gr_store _ _ G), Hval|].
    rewrite Hst, (Hnone x Hn). by vm_compute.
  - intros x Hx. apply Hnone. destruct (counters s !! x) eqn:E; [|done]. apply (gr_kept _ _ G) in E. congruence.
  - done.
Qed.

Lemma agrees_add i o u s conns names count ps xs n : agrees i o u (s, conns) (names, count) →
  Forall2 (λ p x, counters s !! x = Some p) ps xs →
  agrees i o u (set_store (add_all ps n (store s)) s, conns)
    (names, foldl (λ count name x, if decide (x = name) then count x + n else count x) count xs).
Proof.
  intros Hok Hps. revert s count xs Hok Hps. induction ps as [|p ps IH]; intros s count xs Hok Hps; inversion Hps as [|? x ? xs' Hx Hxs]; subst; cbn.
  - destruct s. exact Hok.
  - assert (agrees i o u (set_store (Add p n (store s)) s, conns) (names, λ y, if decide (y = x) then count y + n else count y)) as Hok'.
    { destruct Hok as [Hsets Hconns Hval Hnone Happ]. cbn in *. split; cbn; try done.
      - intros y q Hy. rewrite lookup_Add. destruct (decide (p = q)) as [<-|Hne], (decide (y = x)) as [->|Hyx].
        + rewrite (Hval _ _ Hx). cbn. by rewrite wrap64_add.
        + by destruct (Hyx (Happ _ _ _ Hy Hx)).
        + congruence.
        + by apply Hval.
      - intros y Hy. destruct (decide (y = x)) as [->|]; [congruence|]. by apply Hnone. }
    exact (IH _ _ _ Hok' Hxs).
Qed.

Lemma stats_agrees_event i o u r c e : agrees i o u r c → agrees i o u (event r e) (count_event i o u c e).
Proof.
  intros Hok. destruct r as [s conns], e as [inbound user outbound|conn rd n|name reset]; [by apply agrees_Route| |].
  - destruct c as [names count]. cbn. apply agrees_add; [done|]. destruct Hok as [_ Hconns _ _ _]. cbn in Hconns.
    destruct (conns !! conn) as [l|] eqn:Hl.
    + destruct (Forall2_lookup_l _ _ _ _ _ Hconns Hl) as (n' & -> & H1 & H2). cbn. by destruct rd.
    + assert (names !! conn = None) as ->; [|by destruct rd]. apply lookup_ge_None. apply Forall2_length in Hconns. apply lookup_ge_None in Hl. lia.
  - destruct c as [names count], Hok as [Hsets Hconns Hval Hnone Happ]. cbn in *. unfold GetStats, read_counter.
    destruct (counters s !! name) as [p|] eqn:Hp; cbn.
    + destruct reset; cbn; split; cbn; try done.
      * intros x q Hx. destruct (decide (x = name)) as [->|Hne].
        -- assert (q = p) as -> by congruence. rewrite bool_decide_eq_true_2 by done. unfold Set_counter.
           rewrite list_lookup_insert_eq; [done|]. apply lookup_lt_is_Some. rewrite (Hval _ _ Hp). by eexists.
        -- rewrite bool_decide_eq_false_2 by done. unfold Set_counter. rewrite list_lookup_insert_ne; [by apply Hval|]. intros ->. by destruct (Hne (Happ _ _ _ Hx Hp)).
      * intros x Hx. destruct (bool_decide (x = name)); [done|by apply Hnone].
    + split; cbn; try done.
      * intros x q Hx. rewrite bool_decide_eq_false_2 by congruence. rewrite andb_false_r. by apply Hval.
      * intros x Hx. destruct (reset && _); [done|by apply Hnone].
Qed.

(** C36: the statistics count what goes over the connections: whatever connections are routed, whatever is
    read and written on them and whenever single counters are read and reset (GetStats), a counter has the number of bytes
    of the connections of its inbound, outbound or user since its last reset, wrapped around at 64 bits,
    and a name without a counter has nothing to count. *)
Theorem GetStats_counts ins outs us s events : NewStatsService true ins outs us = Some s →
  let i := list_to_set ins in let o := list_to_set outs in let u := list_to_set us in
  let '(s', _) := foldl event (s, []) events in
  let '(_, count) := foldl (count_event i o u) ([], λ _, 0) events in
  ∀ name reset, match (GetStats name reset s').1 with
    | Ok value => value = wrap64 (count name)
    | Err _ => count name = 0
    | Panic _ => False
    end.
Proof.
  intros [= <-]. cbn zeta. pose proof (stats_agrees_start ins outs us) as Hok. revert Hok.
  generalize ((mkStatsService (list_to_set ins) (list_to_set outs) (list_to_set us) ∅ [], []) : Running). intros r.
  generalize (([], λ _, 0) : Counted). intros c Hok.
  assert (agrees (list_to_set ins) (list_to_set outs) (list_to_set us) (foldl event r events)
    (foldl (count_event (list_to_set ins) (list_to_set outs) (list_to_set us)) c events)) as Hend.
  { revert r c Hok. induction events as [|e events IH]; intros r c Hok; [done|]. cbn. by apply IH, stats_agrees_event. }
  destruct (foldl event r events) as [s' conns], (foldl _ c events) as [names count]. intros name reset.
  destruct Hend as [_ _ Hval Hnone _]. cbn in *. unfold GetStats, read_counter. destruct (counters s' !! name) as [p|] eqn:Hp; cbn; [|by apply Hnone].
  unfold Load. by rewrite (Hval _ _ Hp).
Qed.
Lemma GetStats_counts_witness : ∃ s, NewStatsService true ["in"]%string ["out"]%string [] = Some s ∧
  let '(s', _) := foldl event (s, []) [Route "in" "" "out"; Transfer 0 true 5; Get "inbound>>>in>>>traffic>>>uplink" true; Transfer 0 true 7] in
  (GetStats "inbound>>>in>>>traffic>>>uplink" false s').1 = Ok 7 ∧ (GetStats "outbound>>>out>>>traffic>>>uplink" false s').1 = Ok 12.
Proof.
  exists (mkStatsService (list_to_set ["in"]%string) (list_to_set ["out"]%string) (list_to_set []) ∅ []). split; [reflexivity|].
  pose proof (GetStats_counts ["in"]%string ["out"]%string [] _
    [Route "in" "" "out"; Transfer 0 true 5; Get "inbound>>>in>>>traffic>>>uplink" true; Transfer 0 true 7] eq_refl) as Hc.
  cbv zeta in Hc. destruct (foldl event _ _) as [s' conns]. destruct (foldl (count_event _ _ _) _ _) as [names count] eqn:E.
  apply (f_equal snd) in E. cbn [snd] in E.
  assert (∀ name n, count name = n → n ≠ 0 → - 2 ^ 63 ≤ n < 2 ^ 63 → (GetStats name false s').1 = Ok n) as Hn.
  { intros name n <- Hne Hb. specialize (Hc name false). destruct (GetStats name false s').1; [by rewrite Hc, wrap64_small|done|done]. }
  split; apply Hn; rewrite <-?E; by vm_compute.
Defined.

(** Two patterns that match the same name: the counter is reported twice, and after a reset as zero the
    second time, so that whoever keeps the values by name loses what there was. *)
Example QueryStats_twice :
  let s := mkStatsService ∅ ∅ ∅ {["user>>>a>>>traffic>>>uplink"%string := 0%nat]} [42] in
  (QueryStats (Matcher := string) (λ p, Ok p) (λ p name, strings_Contains name p) ["user"; "uplink"]%string false true s).1
  = Ok [("user>>>a>>>traffic>>>uplink"%string, 42); ("user>>>a>>>traffic>>>uplink"%string, 0)].
Proof. vm_compute. reflexivity. Qed.

End Stats.

(** ** The users of Shadowsocks servers (service/ssmapi) *)

Module SSM.

(** The six counters there are of everything. *)
Inductive Kind : Type := Uplink | Downlink | UplinkPackets | DownlinkPackets | TCPSessions | UDPSessions.
#[global] Instance Kind_eq_dec : EqDecision Kind.
Proof. solve_decision. Defined.
Definition kinds : list Kind := [Uplink; Downlink; UplinkPackets; DownlinkPackets; TCPSessions; UDPSessions].
Definition kind_index (k : Kind) : nat :=
  match k with Uplink => 0 | Downlink => 1 | UplinkPackets => 2 | DownlinkPackets => 3 | TCPSessions => 4 | UDPSessions => 5 end.

(** The six global counters and the six maps of those of the users, each as a function of the kind.

    [service/ssmapi/traffic.go:15-29] TrafficManager *)
Record TrafficManager : Type := mkTrafficManager { global : Kind → nat; user : Kind → gmap string nat }.

(** [service/ssmapi/traffic.go:31-41] NewTrafficManager *)
Definition NewTrafficManager (h : Store) : TrafficManager * Store :=
  (mkTrafficManager (λ k, (length h + kind_index k)%nat) (λ _, ∅), h ++ replicate 6 0).

Definition set_user (k : Kind) (m : gmap string nat) (t : TrafficManager) : TrafficManager :=
  mkTrafficManager (global t) (λ k', if decide (k' = k) then m else user t k').

(** The counters of the users that are left stay, those of the others are forgotten.

    [service/ssmapi/traffic.go:52-71] (TrafficManager).UpdateUsers (users) *)
Definition keep_users (users : list string) (old : gmap string nat) : gmap string nat :=
  foldl (λ new name, match old !! name with Some counter => <[name := counter]> new | None => new end) ∅ users.

(** [service/ssmapi/traffic.go:43-78] (TrafficManager).UpdateUsers *)
Definition UpdateUsers (users : list string) (t : TrafficManager) : TrafficManager :=
  mkTrafficManager (global t) (λ k, keep_users users (user t k)).

(** [service/ssmapi/traffic.go:83-87] (TrafficManager).userCounter (counter) *)
Definition user_counter (name : string) (k : Kind) (t : TrafficManager) (h : Store) : TrafficManager * Store :=
  match user t k !! name with
  | Some _ => (t, h)
  | None => let '(counter, h) := new_counter h in (set_user k (<[name := counter]> (user t k)) t, h)
  end.

(** [service/ssmapi/traffic.go:80-114] (TrafficManager).userCounter *)
Definition userCounter (name : string) (t : TrafficManager) (h : Store) : (Kind → nat) * TrafficManager * Store :=
  let '(t, h) := foldl (λ '(t, h) k, user_counter name k t h) (t, h) kinds in
  ((λ k, default 0%nat (user t k !! name)), t, h).

(** The counters for what is read and for what is written.

    [service/ssmapi/traffic.go:116-127] (TrafficManager).TrackConnection *)
Definition TrackConnection (name : string) (t : TrafficManager) (h : Store) : (list nat * list nat) * TrafficManager * Store :=
  let h := Add (global t TCPSessions) 1 h in
  let '(counter, t, h) := userCounter name t h in
  let h := Add (counter TCPSessions) 1 h in
  (([global t Uplink; counter Uplink], [global t Downlink; counter Downlink]), t, h).

(** The same for bytes and for packets.

    [service/ssmapi/traffic.go:129-146] (TrafficManager).TrackPacketConnection *)
Definition TrackPacketConnection (name : string) (t : TrafficManager) (h : Store)
    : (list nat * list nat) * (list nat * list nat) * TrafficManager * Store :=
  let h := Add (global t UDPSessions) 1 h in
  let '(counter, t, h) := userCounter name t h in
  let h := Add (counter UDPSessions) 1 h in
  (([global t Uplink; counter Uplink], [global t UplinkPackets; counter UplinkPackets]),
   ([global t Downlink; counter Downlink], [global t DownlinkPackets; counter DownlinkPackets]), t, h).

(** What is shown of a user; what there is no counter for stays as it was.

    [service/ssmapi/traffic.go:154-197] (TrafficManager).readUser *)
Definition readUser (name : string) (swap : bool) (shown : Kind → Z) (t : TrafficManager) (h : Store) : (Kind → Z) * Store :=
  foldl (λ '(shown, h) k,
    match user t k !! name with
    | Some counter =>
        let '(v, h) := read_counter swap counter h in ((λ k', if decide (k' = k) then v else shown k'), h)
    | None => (shown, h)
    end) (shown, h) kinds.

(** [service/ssmapi/traffic.go:207-223] (TrafficManager).ReadGlobal *)
Definition ReadGlobal (swap : bool) (t : TrafficManager) (h : Store) : (Kind → Z) * Store :=
  foldl (λ '(shown, h) k,
    let '(v, h) := read_counter swap (global t k) h in ((λ k', if decide (k' = k) then v else shown k'), h)) ((λ _, 0), h) kinds.

(** *** Users *)

Section Users.
Context {W : Type} (server_UpdateUsers : list string → list string → W → option error * W).

(** [service/ssmapi/user.go:10-15] UserManager *)
Record UserManager : Type := mkUserManager { usersMap : gmap string string; traffic : TrafficManager }.

(** [service/ssmapi/user.go:25-40] (UserManager).postUpdate *)
Definition postUpdate (updated : bool) (m : UserManager) (w : W) : option error * UserManager * W :=
  let users := (map_to_list (usersMap m)).*1 in
  let uPSKs := (map_to_list (usersMap m)).*2 in
  match server_UpdateUsers users uPSKs w with
  | (Some err, w) => (Some err, m, w)
  | (None, w) => (None, if updated then mkUserManager (usersMap m) (UpdateUsers users (traffic m)) else m, w)
  end.

(** [service/ssmapi/user.go:56-64] (UserManager).Add *)
Definition User_Add (username password : string) (m : UserManager) (w : W) : option error * UserManager * W :=
  match usersMap m !! username with
  | Some _ => (Some (E_New [AStr "user "; AStr username; AStr " already exists"]), m, w)
  | None => postUpdate true (mkUserManager (<[username := password]> (usersMap m)) (traffic m)) w
  end.

(** [service/ssmapi/user.go:75-80] (UserManager).Update *)
Definition User_Update (username password : string) (m : UserManager) (w : W) : option error * UserManager * W :=
  postUpdate true (mkUserManager (<[username := password]> (usersMap m)) (traffic m)) w.

(** [service/ssmapi/user.go:82-87] (UserManager).Delete *)
Definition User_Delete (username : string) (m : UserManager) (w : W) : option error * UserManager * W :=
  postUpdate true (mkUserManager (delete username (usersMap m)) (traffic m)) w.

(** [service/ssmapi/user.go:66-73] (UserManager).Get *)
Definition User_Get (username : string) (m : UserManager) : option string := usersMap m !! username.

(** A user that the server refuses is kept: adding it again fails, because it exists. *)
Lemma refused_user_kept username password m w err m' w' : usersMap m !! username = None →
  User_Add username password m w = (Some err, m', w') →
  User_Get username m' = Some password ∧
  ∀ other w'', User_Add username other m' w'' = (Some (E_New [AStr "user "; AStr username; AStr " already exists"]), m', w'').
Proof.
  intros Hn Ha. unfold User_Add in Ha. rewrite Hn in Ha. unfold postUpdate in Ha. cbn [usersMap] in Ha.
  destruct (server_UpdateUsers _ _ w) as [[e|] w1]; [|done]. injection Ha as <- <- <-.
  assert (<[username := password]> (usersMap m) !! username = Some password) as Hin by apply lookup_insert_eq.
  split; [exact Hin|]. intros other w''. unfold User_Add. cbn [usersMap]. by rewrite Hin.
Qed.

(** After a change the counters are those of the users there are, and theirs are kept. *)
Lemma keep_users_lookup users old name : keep_users users old !! name = if bool_decide (name ∈ users) then old !! name else None.
Proof.
  assert (∀ new : gmap string nat, (∀ x c, new !! x = Some c → old !! x = Some c) →
    foldl (λ new name, match old !! name with Some counter => <[name := counter]> new | None => new end) new users !! name
    = if bool_decide (name ∈ users) then old !! name else new !! name) as Hg.
  { induction users as [|x users IH]; intros new Hnew; [done|]. cbn. rewrite IH.
    - destruct (decide (name ∈ users)) as [Hin|Hout]; [by rewrite !bool_decide_eq_true_2 by (done || by right)|].
      rewrite (bool_decide_eq_false_2 (name ∈ users)) by done. destruct (decide (name = x)) as [->|Hne].
      + rewrite bool_decide_eq_true_2 by by left. destruct (old !! x) eqn:E; [by rewrite lookup_insert_eq|].
        destruct (new !! x) eqn:E'; [|done]. apply Hnew in E'. congruence.
      + rewrite bool_decide_eq_false_2 by (intros [?|?]%elem_of_cons; done). destruct (old !! x); [by rewrite lookup_insert_ne|done].
    - intros y c Hy. destruct (old !! x) eqn:E; [|by apply Hnew]. apply lookup_insert_Some in Hy as [[<- <-]|[? Hy]]; [done|by apply Hnew]. }
  unfold keep_users. rewrite Hg by (intros x c; by rewrite lookup_empty). by rewrite lookup_empty.
Qed.

Lemma User_Delete_counters username m w m' w' k name : User_Delete username m w = (None, m', w') →
  user (traffic m') k !! name = if bool_decide (is_Some (usersMap m' !! name)) then user (traffic m) k !! name else None.
Proof.
  unfold User_Delete, postUpdate. cbn. destruct (server_UpdateUsers _ _ w) as [[e|] w1]; [done|]. intros [= <- <-]. cbn.
  rewrite keep_users_lookup. assert (name ∈ (map_to_list (delete username (usersMap m))).*1 ↔ is_Some (delete username (usersMap m) !! name)) as Hin.
  { rewrite list_elem_of_fmap. split.
    - intros ([x v] & -> & Hx%elem_of_map_to_list). by eexists.
    - intros [v Hv]. exists (name, v). split; [done|]. by apply elem_of_map_to_list. }
  by rewrite (bool_decide_ext _ _ Hin).
Qed.

End Users.

(** *** What survives a restart (cache.go) *)

Definition by_name {A} (a b : string * A) : Prop := String.leb a.1 b.1 = true.
#[global] Instance by_name_dec {A} (a b : string * A) : Decision (by_name a b) := decide (String.leb a.1 b.1 = true).

(** [service/ssmapi/cache.go:19-33] EndpointCache *)
Record EndpointCache : Type := mkEndpointCache { Global : Kind → Z; User : Kind → list (string * Z); Users : list (string * string) }.

(** The counters of a map that are above zero, by name.

    [service/ssmapi/cache.go:138-142] (Service).encodeCache (counters) *)
Definition positive_counters (h : Store) (m : gmap string nat) : list (string * Z) :=
  merge_sort by_name (List.filter (λ e, Z.ltb 0 e.2) ((λ e, (e.1, Load h e.2)) <$> map_to_list m)).

(** [service/ssmapi/cache.go:129-191] (Service).encodeCache (endpoint) *)
Definition encode_endpoint (t : TrafficManager) (users : option (gmap string string)) (h : Store) : EndpointCache :=
  mkEndpointCache (λ k, Load h (global t k)) (λ k, positive_counters h (user t k))
    (merge_sort by_name (List.filter (λ e, negb (String.eqb e.1 "") && negb (String.eqb e.2 ""))
       (default [] (map_to_list <$> users)))).

(** [service/ssmapi/cache.go:219-229] typedAtomicInt64Map *)
Definition typedAtomicInt64Map (l : list (string * Z)) (h : Store) : gmap string nat * Store :=
  foldl (λ '(m, h) e, (<[e.1 := length h]> m, h ++ [e.2])) (∅, h) l.

(** [service/ssmapi/cache.go:231-239] typedMap *)
Definition typedMap {A} (l : list (string * A)) : gmap string A := foldl (λ m e, <[e.1 := e.2]> m) ∅ l.

(** [service/ssmapi/cache.go:104-120] (Service).decodeCache (endpoint) *)
Definition decode_endpoint (c : EndpointCache) (t : TrafficManager) (h : Store) : TrafficManager * gmap string string * Store :=
  let h := foldl (λ h k, Set_counter (global t k) (Global c k) h) h kinds in
  let '(t, h) := foldl (λ '(t, h) k, let '(m, h) := typedAtomicInt64Map (User c k) h in (set_user k m t, h)) (t, h) kinds in
  (t, typedMap (Users c), h).

(** What is shown of a user for whom there is no counter is zero. *)
Definition reading (h : Store) (m : gmap string nat) (name : string) : Z := default 0 (Load h <$> m !! name).

Lemma typedAtomicInt64Map_reads (l : list (string * Z)) : ∀ (m : gmap string nat) (h : Store) m' h',
  foldl (λ '(m, h) e, (<[e.1 := length h]> m, h ++ [e.2])) (m, h) l = (m', h') →
  (∀ x c, m !! x = Some c → (c < length h)%nat) → NoDup l.*1 →
  (∀ c, (c < length h)%nat → h' !! c = h !! c) ∧ (length h ≤ length h')%nat ∧
  ∀ x, (∀ v, (x, v) ∈ l → ∃ c, m' !! x = Some c ∧ h' !! c = Some v) ∧ (x ∉ l.*1 → m' !! x = m !! x).
Proof.
  induction l as [|[k v] l IH]; intros m h m' h' Hf Hb Hd; cbn [foldl] in Hf.
  { injection Hf as <- <-. split; [done|]. split; [done|]. intros x. split; [by intros v ?%not_elem_of_nil|done]. }
  rewrite fmap_cons in Hd. apply list.NoDup_cons in Hd as [Hk Hd].
  destruct (IH _ _ _ _ Hf) as (Hh & Hlen & Hx); [|done|].
  { intros x c. rewrite length_app. cbn. intros [[<- <-]|[? Hx]]%lookup_insert_Some; [lia|]. specialize (Hb _ _ Hx). lia. }
  rewrite length_app in Hh, Hlen. cbn in Hh, Hlen. split; [|split; [lia|]].
  { intros c Hc. rewrite Hh by lia. by apply lookup_app_l. }
  intros x. destruct (Hx x) as [Hin Hout]. split.
  - intros w [[= -> ->]|Hl]%elem_of_cons; [|by apply Hin]. exists (length h). rewrite Hout, lookup_insert_eq by done. split; [done|].
    rewrite Hh by lia. by rewrite lookup_app_r, Nat.sub_diag by lia.
  - cbn. intros [Hne Hl]%not_elem_of_cons. rewrite Hout by done. by rewrite lookup_insert_ne.
Qed.

Lemma positive_counters_elem h m x v : (x, v) ∈ positive_counters h m ↔ 0 < v ∧ ∃ c, m !! x = Some c ∧ v = Load h c.
Proof.
  unfold positive_counters. rewrite (merge_sort_Permutation by_name), list_elem_of_In, filter_In, <-list_elem_of_In, list_elem_of_fmap, Z.ltb_lt. cbn. split.
  - intros [([y c] & [= -> ->] & Hc%elem_of_map_to_list) Hv]. eauto.
  - intros [Hv (c & Hc & ->)]. split; [|done]. exists (x, c). split; [done|]. by apply elem_of_map_to_list.
Qed.

Lemma positive_counters_NoDup h m : NoDup (positive_counters h m).*1.
Proof.
  unfold positive_counters. rewrite (merge_sort_Permutation by_name).
  assert (∀ l : list (string * nat), NoDup l.*1 → NoDup (List.filter (λ e : string * Z, Z.ltb 0 e.2) ((λ e, (e.1, Load h e.2)) <$> l)).*1) as Hl.
  { induction l as [|[x c] l IH]; intros Hd; [constructor|]. rewrite fmap_cons in Hd. apply list.NoDup_cons in Hd as [Hx Hd]. cbn.
    destruct (Z.ltb 0 (Load h c)); [|by apply IH]. rewrite fmap_cons. apply list.NoDup_cons. split; [|by apply IH]. cbn.
    intros (e & -> & He)%list_elem_of_fmap. apply Hx. apply list_elem_of_In, filter_In in He as [He _].
    apply list_elem_of_In, list_elem_of_fmap in He as (e' & -> & He'). apply list_elem_of_fmap. by exists e'. }
  apply Hl, NoDup_fst_map_to_list.
Qed.

(** One map of counters that is written and read back shows the same, whatever else is in the stores. *)
Lemma counters_survive h h1 m m' h' : typedAtomicInt64Map (positive_counters h m) h1 = (m', h') → (∀ x c, m !! x = Some c → 0 ≤ Load h c) →
  (∀ c, (c < length h1)%nat → h' !! c = h1 !! c) ∧ (length h1 ≤ length h')%nat ∧
  (∀ x c, m' !! x = Some c → (c < length h')%nat) ∧ ∀ x, reading h' m' x = reading h m x.
Proof.
  intros Hm Hpos. destruct (typedAtomicInt64Map_reads _ _ _ _ _ Hm) as (Hh & Hlen & Hx); [by intros x c; rewrite lookup_empty|apply positive_counters_NoDup|].
  assert (∀ x, (∃ v, (x, v) ∈ positive_counters h m) ∨ x ∉ (positive_counters h m).*1) as Hdec.
  { intros x. destruct (decide (x ∈ (positive_counters h m).*1)) as [([y v] & -> & He)%list_elem_of_fmap|]; [left; by exists v|by right]. }
  split; [done|]. split; [done|]. split.
  - intros x c Hc. destruct (Hx x) as [Hin Hout], (Hdec x) as [[v Hv]|Hno].
    + destruct (Hin v Hv) as (c' & Hc' & Hs). assert (c' = c) as -> by congruence. apply lookup_lt_is_Some. by eexists.
    + by rewrite Hout, lookup_empty in Hc.
  - intros x. unfold reading. destruct (Hx x) as [Hin Hout], (Hdec x) as [[v Hv]|Hno].
    + destruct (Hin v Hv) as (c' & -> & Hs). apply positive_counters_elem in Hv as [_ (c & -> & ->)]. cbn. unfold Load at 1. by rewrite Hs.
    + rewrite Hout, lookup_empty by done. cbn. destruct (m !! x) as [c|] eqn:Hc; [|done]. cbn.
      destruct (decide (0 < Load h c)) as [Hlt|Hle]; [|specialize (Hpos _ _ Hc); lia].
      exfalso. apply Hno, list_elem_of_fmap. exists (x, Load h c). split; [done|]. apply positive_counters_elem. eauto.
Qed.

Lemma kinds_all k : k ∈ kinds.
Proof. apply list_elem_of_In. destruct k; cbn; tauto. Qed.

(** What is shown of a user is what its counters have. *)
Lemma readUser_reading name t h k : (readUser name false (λ _, 0) t h).1 k = reading h (user t k) name.
Proof. unfold readUser, reading, kinds. cbn. destruct k; repeat (destruct (user t _ !! name)); reflexivity. Qed.

Lemma ReadGlobal_Load t h k : (ReadGlobal false t h).1 k = Load h (global t k).
Proof. by destruct k. Qed.

Definition decode_kinds (c : EndpointCache) (ks : list Kind) (t : TrafficManager) (h : Store) : TrafficManager * Store :=
  foldl (λ '(t, h) k, let '(m, h) := typedAtomicInt64Map (User c k) h in (set_user k m t, h)) (t, h) ks.

Lemma reading_longer h h' m x : (∀ y c, m !! y = Some c → (c < length h)%nat) → (∀ c, (c < length h)%nat → h' !! c = h !! c) →
  reading h' m x = reading h m x.
Proof. intros Hb Hh. unfold reading. destruct (m !! x) as [c|] eqn:Hx; [|done]. cbn. unfold Load. by rewrite Hh by by eapply Hb. Qed.

Lemma decode_kinds_ok h0 t0 c ks : (∀ k, User c k = positive_counters h0 (user t0 k)) → (∀ k x d, user t0 k !! x = Some d → 0 ≤ Load h0 d) →
  ∀ t h t' h', decode_kinds c ks t h = (t', h') →
  ∀ old : list Kind, (∀ k, k ∈ old → (∀ x d, user t k !! x = Some d → (d < length h)%nat) ∧ ∀ x, reading h (user t k) x = reading h0 (user t0 k) x) →
  global t' = global t ∧ (∀ d, (d < length h)%nat → h' !! d = h !! d) ∧ ∀ k, k ∈ old ∨ k ∈ ks → ∀ x, reading h' (user t' k) x = reading h0 (user t0 k) x.
Proof.
  intros Hc Hpos. induction ks as [|k0 ks IH]; intros t h t' h' Hd old Hold; unfold decode_kinds in Hd; cbn [foldl] in Hd.
  { injection Hd as <- <-. split; [done|]. split; [done|]. intros k [Hk|?%not_elem_of_nil]; [by apply Hold|done]. }
  destruct (typedAtomicInt64Map (User c k0) h) as [m h1] eqn:Hm. rewrite Hc in Hm.
  destruct (counters_survive _ _ _ _ _ Hm (Hpos k0)) as (Hh & Hlen & Hb & Hr).
  destruct (IH _ _ _ _ Hd (k0 :: old)) as (Hg & Hh' & Hread).
  { intros k Hk. unfold set_user. cbn. destruct (decide (k = k0)) as [->|Hne]; [by split|].
    apply elem_of_cons in Hk as [?|Hk]; [done|]. destruct (Hold k Hk) as [Hbk Hrk]. split.
    - intros x d Hx. specialize (Hbk _ _ Hx). lia.
    - intros x. rewrite (reading_longer h h1) by done. apply Hrk. }
  split; [done|]. split; [intros d Hd'; rewrite Hh' by lia; by apply Hh|].
  intros k Hk. apply Hread. rewrite !elem_of_cons in *. tauto.
Qed.

Lemma set_globals_ok (g : Kind → nat) (v : Kind → Z) h : (∀ k k', g k = g k' → k = k') → (∀ k, (g k < length h)%nat) →
  let h' := foldl (λ h k, Set_counter (g k) (v k) h) h kinds in length h' = length h ∧ ∀ k, h' !! g k = Some (v k).
Proof.
  intros Hinj Hb h'. assert (∀ ks h0, length h0 = length h → let h1 := foldl (λ h k, Set_counter (g k) (v k) h) h0 ks in
    length h1 = length h ∧ ∀ k, k ∈ ks ∨ h0 !! g k = Some (v k) → h1 !! g k = Some (v k)) as Hg.
  { induction ks as [|k0 ks IH]; intros h0 Hl; cbn; [by split; [|intros k [?%not_elem_of_nil|?]]|].
    destruct (IH (Set_counter (g k0) (v k0) h0)) as [Hl' Hks]; [unfold Set_counter; by rewrite length_insert|]. split; [done|].
    intros k Hk. apply Hks. unfold Set_counter. destruct (decide (g k0 = g k)) as [He|Hne].
    - right. rewrite (Hinj _ _ He). apply list_lookup_insert_eq. rewrite Hl. apply Hb.
    - rewrite list_lookup_insert_ne by done. destruct Hk as [[->|Hk]%elem_of_cons|Hk]; [done|by left|by right]. }
  destruct (Hg kinds h eq_refl) as [Hl Hk]. split; [done|]. intros k. apply Hk. left. apply kinds_all.
Qed.

Lemma typedMap_lookup {A} (l : list (string * A)) : NoDup l.*1 → ∀ x, (∀ v, (x, v) ∈ l → typedMap l !! x = Some v) ∧ (x ∉ l.*1 → typedMap l !! x = None).
Proof.
  intros Hd x. unfold typedMap.
  assert (∀ m : gmap string A, (∀ v, (x, v) ∈ l → foldl (λ m e, <[e.1 := e.2]> m) m l !! x = Some v) ∧
    (x ∉ l.*1 → foldl (λ m e, <[e.1 := e.2]> m) m l !! x = m !! x)) as Hm.
  { induction l as [|[k w] l IH]; intros m; cbn; [by split; [intros v ?%not_elem_of_nil|]|].
    cbn in Hd. apply list.NoDup_cons in Hd as [Hk Hd]. destruct (IH Hd (<[k := w]> m)) as [Hin Hout]. split.
    - intros v [[= -> ->]|Hl]%elem_of_cons; [|by apply Hin]. by rewrite Hout, lookup_insert_eq.
    - intros [Hne Hl]%not_elem_of_cons. rewrite Hout by done. by apply lookup_insert_ne. }
  destruct (Hm ∅) as [Hin Hout]. split; [done|]. intros Hx. by rewrite Hout, lookup_empty.
Qed.

(** The users that can be written: with a name and a password. *)
Definition writable (m : gmap string string) : gmap string string := filter (λ e, e.1 ≠ ""%string ∧ e.2 ≠ ""%string) m.

Lemma users_survive m : typedMap (merge_sort by_name (List.filter (λ e, negb (String.eqb e.1 "") && negb (String.eqb e.2 "")) (map_to_list m))) = writable m.
Proof.
  set (l := merge_sort by_name _).
  assert (∀ x v, (x, v) ∈ l ↔ writable m !! x = Some v) as Hl.
  { intros x v. unfold l, writable. rewrite (merge_sort_Permutation by_name), list_elem_of_In, filter_In, <-list_elem_of_In, elem_of_map_to_list.
    rewrite map_lookup_filter_Some, andb_true_iff, !negb_true_iff, !String.eqb_neq. done. }
  assert (NoDup l.*1) as Hd.
  { unfold l. rewrite (merge_sort_Permutation by_name). assert (∀ k : list (string * string), NoDup k.*1 →
      NoDup (List.filter (λ e, negb (String.eqb e.1 "") && negb (String.eqb e.2 "")) k).*1) as Hk; [|apply Hk, NoDup_fst_map_to_list].
    induction k as [|[x v] k IH]; intros Hd; [constructor|]. cbn in Hd. apply list.NoDup_cons in Hd as [Hx Hd]. cbn.
    destruct (negb _ && negb _); [|by apply IH]. cbn. apply list.NoDup_cons. split; [|by apply IH].
    intros (e & -> & He)%list_elem_of_fmap. apply Hx. apply list_elem_of_In, filter_In in He as [He%list_elem_of_In _]. apply list_elem_of_fmap. by exists e. }
  apply map_eq. intros x. destruct (typedMap_lookup l Hd x) as [Hin Hout]. destruct (writable m !! x) as [v|] eqn:Hx.
  - by apply Hin, Hl.
  - apply Hout. intros ([y v] & -> & He)%list_elem_of_fmap. apply Hl in He. cbn in Hx. congruence.
Qed.

(** The statistics survive a restart: what a server that starts afresh reads back from its cache shows,
    for every user and as a whole, what was shown when the cache was written, whatever else is counted
    meanwhile in the store, and has the users that have a name and a password. *)
Theorem endpoint_survives t0 users0 h0 h1 : (∀ k x d, user t0 k !! x = Some d → 0 ≤ Load h0 d) →
  let '(t1, h1) := NewTrafficManager h1 in
  let '(t, users, h) := decode_endpoint (encode_endpoint t0 (Some users0) h0) t1 h1 in
  (∀ name k, (readUser name false (λ _, 0) t h).1 k = (readUser name false (λ _, 0) t0 h0).1 k) ∧
  (∀ k, (ReadGlobal false t h).1 k = (ReadGlobal false t0 h0).1 k) ∧ users = writable users0.
Proof.
  intros Hpos. unfold NewTrafficManager, decode_endpoint. cbn [encode_endpoint User Global Users global].
  set (g := λ k : Kind, (length h1 + kind_index k)%nat). set (c := encode_endpoint t0 (Some users0) h0).
  destruct (set_globals_ok g (Global c) (h1 ++ replicate 6 0)) as [Hl Hg].
  { intros k k' He. unfold g in He. destruct k, k'; cbn in He; (done || lia). }
  { intros k. unfold g. rewrite length_app. cbn. destruct k; cbn; lia. }
  change (λ k, Load h0 (global t0 k)) with (Global c). set (h2 := foldl _ _ kinds) in *.
  change (λ k, positive_counters h0 (user t0 k)) with (User c).
  change (foldl _ (mkTrafficManager g (λ _, ∅), h2) kinds) with (decode_kinds c kinds (mkTrafficManager g (λ _, ∅)) h2).
  destruct (decode_kinds c kinds _ h2) as [t h] eqn:Hd.
  destruct (decode_kinds_ok h0 t0 c kinds (λ k, eq_refl) Hpos _ _ _ _ Hd [] ltac:(by intros k ?%not_elem_of_nil)) as (Hgl & Hh & Hr).
  split; [|split].
  - intros name k. rewrite !readUser_reading. apply Hr. right. apply kinds_all.
  - intros k. rewrite !ReadGlobal_Load, Hgl. cbn [global]. unfold Load at 1. rewrite Hh, Hg; [done|].
    apply lookup_lt_is_Some. rewrite Hg. by eexists.
  - apply users_survive.
Qed.

Lemma endpoint_survives_witness :
  let t0 := mkTrafficManager kind_index (λ _, {["alice"%string := 6%nat]}) in let h0 := [10; 20; 3; 4; 2; 1; 5] in
  let '(t1, h1) := NewTrafficManager [99] in
  let '(t, users, h) := decode_endpoint (encode_endpoint t0 (Some {["alice"%string := "secret"%string]}) h0) t1 h1 in
  (readUser "alice" false (λ _, 0) t h).1 Uplink = 5 ∧ (ReadGlobal false t h).1 Downlink = 20 ∧ users = {["alice"%string := "secret"%string]}.
Proof.
  pose proof (endpoint_survives (mkTrafficManager kind_index (λ _, {["alice"%string := 6%nat]})) {["alice"%string := "secret"%string]}
    [10; 20; 3; 4; 2; 1; 5] [99]) as Hs.
  cbv zeta. destruct (NewTrafficManager [99]) as [t1 h1]. destruct (decode_endpoint _ t1 h1) as [[t users] h].
  destruct Hs as (Hu & Hg & ->).
  - intros k x d Hx. cbn [user] in Hx. apply lookup_singleton_Some in Hx as [_ <-]. vm_compute. discriminate.
  - rewrite Hu, Hg. repeat split; vm_compute; reflexivity.
Defined.

End SSM.

(** ** The connections of the Clash API (experimental/clashapi/trafficontrol) *)

Module Control.

(** Of the metadata of a tracker, what the manager uses; the two counters are shared with its copies.

    [experimental/clashapi/trafficontrol/tracker.go:18-29] TrackerMetadata *)
Record TrackerMetadata : Type := mkTrackerMetadata {
  ID : nat;
  ClosedAt : option Z;
  Upload : nat;
  Download : nat;
  Chain : list string;
  tm_Outbound : string;
  OutboundType : string
}.

(** [experimental/clashapi/trafficontrol/manager.go:36] closedConnectionsLimit *)
Definition closedConnectionsLimit : nat := 1000.

(** [experimental/clashapi/trafficontrol/manager.go:19-34] ConnectionEvent *)
Inductive ConnectionEvent : Type := ConnectionEventNew (id : nat) | ConnectionEventClosed (id : nat) (closedAt : Z).

(** [experimental/clashapi/trafficontrol/manager.go:38-48] Manager *)
Record Manager : Type := mkManager {
  uploadTotal : Z;
  downloadTotal : Z;
  connections : gmap nat TrackerMetadata;
  closedConnections : list TrackerMetadata;
  events : list ConnectionEvent;
  store : Store
}.
#[global] Instance Manager_settable : Settable Manager :=
  {| mkT m := mkManager (uploadTotal m) (downloadTotal m) (connections m) (closedConnections m) (events m) (store m) |}.

(** [experimental/clashapi/trafficontrol/manager.go:50-52] NewManager *)
Definition NewManager : Manager := mkManager 0 0 ∅ [] [] [].

(** [experimental/clashapi/trafficontrol/manager.go:58-68] (Manager).Join *)
Definition Join (c : TrackerMetadata) (m : Manager) : Manager :=
  m <| connections := <[ID c := c]> (connections m) |> <| events := events m ++ [ConnectionEventNew (ID c)] |>.

(** [experimental/clashapi/trafficontrol/manager.go:70-92] (Manager).Leave *)
Definition Leave (now : Z) (c : TrackerMetadata) (m : Manager) : Manager :=
  match connections m !! ID c with
  | None => m
  | Some _ =>
      let c := mkTrackerMetadata (ID c) (Some now) (Upload c) (Download c) (Chain c) (tm_Outbound c) (OutboundType c) in
      let closed := if Nat.leb closedConnectionsLimit (length (closedConnections m)) then tail (closedConnections m) else closedConnections m in
      m <| connections := delete (ID c) (connections m) |> <| closedConnections := closed ++ [c] |>
        <| events := events m ++ [ConnectionEventClosed (ID c) now] |>
  end.

(** [experimental/clashapi/trafficontrol/manager.go:94-96] (Manager).PushUploaded *)
Definition PushUploaded (size : Z) (m : Manager) : Manager := m <| uploadTotal := wrap64 (uploadTotal m + size) |>.
(** [experimental/clashapi/trafficontrol/manager.go:98-100] (Manager).PushDownloaded *)
Definition PushDownloaded (size : Z) (m : Manager) : Manager := m <| downloadTotal := wrap64 (downloadTotal m + size) |>.
(** [experimental/clashapi/trafficontrol/manager.go:102-104] (Manager).Total *)
Definition Total (m : Manager) : Z * Z := (uploadTotal m, downloadTotal m).
(** [experimental/clashapi/trafficontrol/manager.go:162-165] (Manager).ResetStatistic *)
Definition ResetStatistic (m : Manager) : Manager := m <| uploadTotal := 0 |> <| downloadTotal := 0 |>.

(** The connections to the DNS outbound are not shown.

    [experimental/clashapi/trafficontrol/manager.go:141-160] (Manager).Snapshot *)
Definition Snapshot (m : Manager) : (Z * Z) * list TrackerMetadata :=
  (Total m, List.filter (λ c, negb (String.eqb (OutboundType c) "dns")) (map_to_list (connections m)).*2).

(** *** The chain of a connection *)

(** What the tracker asks of an outbound: its type, and for a group what it has selected. *)
Record Detour : Type := mkDetour { d_Type : string; d_Now : option string }.

(** The chain from a tag on, with the last outbound of it.

    [experimental/clashapi/trafficontrol/tracker.go:134-147] NewTCPTracker (chain) *)
Fixpoint chain_loop (fuel : nat) (outbounds : gmap string Detour) (next : string) (chain : list string) (last : string * string)
    : option (list string * (string * string)) :=
  match fuel with
  | O => None
  | S fuel =>
      match outbounds !! next with
      | None => Some (chain, last)
      | Some detour =>
          let chain := chain ++ [next] in
          let last := (next, d_Type detour) in
          match d_Now detour with
          | None => Some (chain, last)
          | Some now => chain_loop fuel outbounds now chain last
          end
      end
  end.

(** The packet tracker does the same.

    [experimental/clashapi/trafficontrol/tracker.go:121-173] NewTCPTracker *)
Definition NewTracker (fuel : nat) (id : nat) (outbounds : gmap string Detour) (default_tag : string) (matchOutbound : option string) (m : Manager)
    : option (TrackerMetadata * Manager) :=
  match chain_loop fuel outbounds (default default_tag matchOutbound) [] ("", "")%string with
  | None => None
  | Some (chain, (outbound, outboundType)) =>
      let '(upload, h) := new_counter (store m) in
      let '(download, h) := new_counter h in
      let c := mkTrackerMetadata id None upload download (reverse chain) outbound outboundType in
      Some (c, Join c (m <| store := h |>))
  end.

(** What the connection calls with the length of a read or a write.

    [experimental/clashapi/trafficontrol/tracker.go:151-157] NewTCPTracker (count) *)
Definition uploaded (c : TrackerMetadata) (n : Z) (m : Manager) : Manager := PushUploaded n (m <| store := Add (Upload c) n (store m) |>).
Definition downloaded (c : TrackerMetadata) (n : Z) (m : Manager) : Manager := PushDownloaded n (m <| store := Add (Download c) n (store m) |>).

(** The chain from a tag: it ends at a tag that is not known or with an outbound that is not a group, and
    goes from a group to what the group has selected. *)
Inductive follows (outbounds : gmap string Detour) : string → list string → Prop :=
| follows_unknown t : outbounds !! t = None → follows outbounds t []
| follows_last t d : outbounds !! t = Some d → d_Now d = None → follows outbounds t [t]
| follows_group t d now l : outbounds !! t = Some d → d_Now d = Some now → follows outbounds now l → follows outbounds t (t :: l).

Lemma last_default {A} (a d : A) l : List.last l a = List.last (a :: l) d.
Proof. revert a. induction l as [|x l IH]; intros a; [done|]. destruct l as [|y l]; [done|]. apply (IH a). Qed.

(** When the selections of the groups do not go round in a circle, as the start of the outbounds makes sure,
    the chain ends within as many turns as there are ranks. *)
Lemma chain_loop_follows (outbounds : gmap string Detour) (rank : string → nat) :
  (∀ t d now, outbounds !! t = Some d → d_Now d = Some now → (rank now < rank t)%nat) →
  ∀ fuel next chain last, (rank next < fuel)%nat →
  ∃ rest last', chain_loop fuel outbounds next chain last = Some (chain ++ rest, last') ∧ follows outbounds next rest ∧
    last'.1 = List.last rest last.1.
Proof.
  intros Hrank. induction fuel as [|fuel IH]; intros next chain last Hf; [lia|]. cbn [chain_loop].
  destruct (outbounds !! next) as [d|] eqn:Hn; [destruct (d_Now d) as [now|] eqn:Hnow|].
  - destruct (IH now (chain ++ [next]) (next, d_Type d)) as (rest & last' & Hl & Hfo & Hlast).
    { specialize (Hrank _ _ _ Hn Hnow). lia. }
    exists (next :: rest), last'. rewrite <-app_assoc in Hl. split; [exact Hl|]. split; [by eapply follows_group|].
    rewrite Hlast. apply last_default.
  - exists [next], (next, d_Type d). split; [done|]. split; [by eapply follows_last|done].
  - exists [], last. rewrite app_nil_r. split; [done|]. split; [by apply follows_unknown|done].
Qed.

(** *** Every order of what happens *)

Inductive Event : Type :=
| Opened (outbounds : gmap string Detour) (default_tag : string) (matchOutbound : option string)
| Uploaded (conn : nat) (n : Z)
| Downloaded (conn : nat) (n : Z)
| Closed (conn : nat) (now : Z)
| Reset_all.

(** The manager and the trackers it has returned; the number of a tracker is its place among them. *)
Definition Running : Type := Manager * list TrackerMetadata.

(** [fuel] is enough for the chains. *)
Definition event (fuel : nat) (r : Running) (e : Event) : Running :=
  let '(m, trackers) := r in
  match e with
  | Opened outbounds default_tag matchOutbound =>
      match NewTracker fuel (length trackers) outbounds default_tag matchOutbound m with
      | Some (c, m) => (m, trackers ++ [c])
      | None => r
      end
  | Uploaded conn n => (match trackers !! conn with Some c => uploaded c n m | None => m end, trackers)
  | Downloaded conn n => (match trackers !! conn with Some c => downloaded c n m | None => m end, trackers)
  | Closed conn now => (match trackers !! conn with Some c => Leave now c m | None => m end, trackers)
  | Reset_all => (ResetStatistic m, trackers)
  end.

(** What has gone over each connection, what since the last reset, and the connections that are open. *)
Record Counted : Type := mkCounted { each : list (Z * Z); since : Z * Z; open : gset nat }.

Definition count_event (opens : bool) (c : Counted) (e : Event) : Counted :=
  match e with
  | Opened _ _ _ => if opens then mkCounted (each c ++ [(0, 0)]) (since c) ({[length (each c)]} ∪ open c) else c
  | Uploaded conn n =>
      if decide (conn < length (each c))%nat then mkCounted (alter (λ x, (x.1 + n, x.2)) conn (each c)) ((since c).1 + n, (since c).2) (open c) else c
  | Downloaded conn n =>
      if decide (conn < length (each c))%nat then mkCounted (alter (λ x, (x.1, x.2 + n)) conn (each c)) ((since c).1, (since c).2 + n) (open c) else c
  | Closed conn _ => mkCounted (each c) (since c) (open c ∖ {[conn]})
  | Reset_all => mkCounted (each c) (0, 0) (open c)
  end.

Record agrees (r : Running) (c : Counted) : Prop := {
  ag_length : length (each c) = length r.2 ∧ length (store r.1) = (2 * length r.2)%nat;
  ag_tracker : ∀ i t, r.2 !! i = Some t → ID t = i ∧ Upload t = (2 * i)%nat ∧ Download t = S (2 * i);
  ag_each : ∀ i x, each c !! i = Some x → store r.1 !! (2 * i)%nat = Some (wrap64 x.1) ∧ store r.1 !! S (2 * i) = Some (wrap64 x.2);
  ag_since : Total r.1 = (wrap64 (since c).1, wrap64 (since c).2);
  ag_open : ∀ i, is_Some (connections r.1 !! i) ↔ i ∈ open c;
  ag_opened : ∀ i, i ∈ open c → (i < length r.2)%nat;
  ag_closed : NoDup (ID <$> closedConnections r.1) ∧ ∀ t, t ∈ closedConnections r.1 → ID t ∉ open c ∧ (ID t < length r.2)%nat;
  ag_limit : (length (closedConnections r.1) ≤ closedConnectionsLimit)%nat
}.

Lemma agrees_opened fuel m trackers c outbounds tag matched : agrees (m, trackers) c →
  (∃ t m', NewTracker fuel (length trackers) outbounds tag matched m = Some (t, m')) →
  agrees (event fuel (m, trackers) (Opened outbounds tag matched)) (count_event true c (Opened outbounds tag matched)).
Proof.
  intros [[Hl1 Hl2] Ht He Hs Ho Hop Hc Hlim] (t & m' & Hn). cbn [event count_event]. rewrite Hn. unfold NewTracker in Hn.
  destruct (chain_loop _ _ _ _ _) as [[chain [o ty]]|]; [|done]. unfold new_counter in Hn. injection Hn as <- <-. cbn in *.
  split; cbn; try done.
  - rewrite !length_app. cbn. lia.
  - intros i t Hi. destruct (decide (i < length trackers)%nat) as [Hlt|Hge].
    + rewrite lookup_app_l in Hi by done. by apply Ht.
    + rewrite lookup_app_r in Hi by lia. destruct (i - length trackers)%nat as [|k] eqn:Hk; [|done]. injection Hi as <-. cbn. rewrite length_app. cbn. lia.
  - intros i x Hi. rewrite <-app_assoc. destruct (decide (i < length (each c))%nat) as [Hlt|Hge].
    + rewrite lookup_app_l in Hi by done. destruct (He _ _ Hi) as [H1 H2]. split; by apply lookup_app_l_Some.
    + rewrite lookup_app_r in Hi by lia. destruct (i - length (each c))%nat as [|k] eqn:Hk; [|done]. injection Hi as <-. cbn [fst snd].
      split; (rewrite lookup_app_r by lia); [replace (i + (i + 0) - length (store m))%nat with 0%nat by lia|
        replace (S (i + (i + 0)) - length (store m))%nat with 1%nat by lia]; by vm_compute.
  - intros i. rewrite lookup_insert_is_Some, Ho, Hl1, elem_of_union, elem_of_singleton. destruct (decide (length trackers = i)); naive_solver.
  - intros i Hi. rewrite length_app. cbn. apply elem_of_union in Hi as [->%elem_of_singleton|Hi]; [lia|]. specialize (Hop _ Hi). lia.
  - destruct Hc as [Hd Hc]. split; [done|]. intros t Hin. destruct (Hc _ Hin) as [Hno Hlt]. rewrite length_app. cbn. split; [|lia].
    rewrite Hl1. intros [?%elem_of_singleton|?]%elem_of_union; [lia|done].
Qed.

Lemma agrees_transfer m trackers c conn t n (up : bool) : agrees (m, trackers) c → trackers !! conn = Some t →
  agrees (if up then uploaded t n m else downloaded t n m, trackers)
    (mkCounted (alter (λ x, if up then (x.1 + n, x.2) else (x.1, x.2 + n)) conn (each c))
       (if up then ((since c).1 + n, (since c).2) else ((since c).1, (since c).2 + n)) (open c)).
Proof.
  intros [[Hl1 Hl2] Ht He Hs Ho Hop Hc Hlim] Hi. cbn in *. destruct (Ht _ _ Hi) as (_ & Hup & Hdown). unfold Total in Hs. injection Hs as Hsu Hsd.
  split; destruct up; cbn; rewrite ?length_Add, ?length_alter; try done; unfold Total; cbn; rewrite ?Hsu, ?Hsd, ?wrap64_add; try done.
  all: intros j x Hj; rewrite !lookup_Add, ?Hup, ?Hdown; destruct (decide (conn = j)) as [<-|Hne];
    [rewrite list_lookup_alter_eq in Hj; apply fmap_Some in Hj as ([a b] & Hj & ->); destruct (He _ _ Hj) as [H1 H2]|
     rewrite list_lookup_alter_ne in Hj by done; destruct (He _ _ Hj) as [H1 H2]];
    repeat (destruct (decide _); [try lia|try lia]); rewrite ?H1, ?H2; cbn; rewrite ?wrap64_add; done.
Qed.

Lemma agrees_closed m trackers c conn t now : agrees (m, trackers) c → trackers !! conn = Some t →
  agrees (Leave now t m, trackers) (mkCounted (each c) (since c) (open c ∖ {[conn]})).
Proof.
  intros [Hl Ht He Hs Ho Hop [Hd Hc] Hlim] Hi. cbn in *. destruct (Ht _ _ Hi) as (Hid & _ & _). unfold Leave. rewrite Hid.
  destruct (connections m !! conn) as [t'|] eqn:Hcon.
  - assert (conn ∈ open c) as Hin by (apply Ho; by eexists). pose proof (Hop _ Hin) as Hlt.
    set (closed := if Nat.leb _ _ then _ else _).
    assert (closed ⊆ closedConnections m ∧ NoDup (ID <$> closed) ∧ (length closed < closedConnectionsLimit)%nat) as (Hsub & Hdc & Hlc).
    { unfold closed. destruct (Nat.leb_spec closedConnectionsLimit (length (closedConnections m))) as [Hge|]; [|done].
      destruct (closedConnections m) as [|x l]; [unfold closedConnectionsLimit in Hge; cbn in Hge; lia|]. cbn [tail].
      rewrite fmap_cons in Hd. apply list.NoDup_cons in Hd as [_ Hd]. split_and!; [|done|cbn in *; lia]. intros y Hy. by right. }
    split; cbn; try done.
    + intros i. rewrite lookup_delete_is_Some, Ho, elem_of_difference, elem_of_singleton. naive_solver.
    + intros i Hi'. apply Hop. set_solver.
    + split.
      * rewrite fmap_app. apply list.NoDup_app. split_and!; [done| |apply NoDup_singleton].
        intros j (y & -> & Hy)%list_elem_of_fmap Heq%list_elem_of_singleton. cbn in Heq. destruct (Hc y (Hsub _ Hy)) as [Hno _]. by rewrite Heq in Hno.
      * intros y [Hy|Hy%list_elem_of_singleton]%elem_of_app; [destruct (Hc y (Hsub _ Hy)) as [Hno ?]; split; [set_solver|done]|].
        subst y. cbn. split; [set_solver|done].
    + rewrite length_app. cbn. lia.
  - assert (conn ∉ open c) as Hno by (rewrite <-Ho, Hcon; by intros []). assert (open c ∖ {[conn]} = open c) as -> by set_solver. by split.
Qed.

(** Whether a connection can be opened: its chain ends. *)
Definition chains_end (fuel : nat) (e : Event) : Prop :=
  match e with
  | Opened outbounds tag matched => ∃ rank : string → nat, (∀ t d now, outbounds !! t = Some d → d_Now d = Some now → (rank now < rank t)%nat) ∧
      (rank (default tag matched) < fuel)%nat
  | _ => True
  end.

Lemma NewTracker_ends fuel id outbounds tag matched m : chains_end fuel (Opened outbounds tag matched) →
  ∃ t m', NewTracker fuel id outbounds tag matched m = Some (t, m') ∧ follows outbounds (default tag matched) (reverse (Chain t)).
Proof.
  intros (rank & Hrank & Hf). destruct (chain_loop_follows outbounds rank Hrank fuel _ [] ("", "")%string Hf) as (rest & [o ty] & Hl & Hfo & _).
  unfold NewTracker. rewrite Hl. cbn. eexists _, _. split; [reflexivity|].
  exact (eq_ind_r (follows outbounds (default tag matched)) Hfo (reverse_involutive rest)).
Qed.

Lemma control_agrees_event fuel r c e : chains_end fuel e → agrees r c → agrees (event fuel r e) (count_event true c e).
Proof.
  intros He Hok. destruct r as [m trackers]. pose proof Hok as [[Hl1 Hl2] _ _ _ _ _ _ _]. cbn in Hl1.
  destruct e as [outbounds tag matched|conn n|conn n|conn now|].
  - apply agrees_opened; [done|]. destruct (NewTracker_ends fuel (length trackers) outbounds tag matched m He) as (t & m' & Hn & _). eauto.
  - cbn. destruct (trackers !! conn) as [t|] eqn:Ht.
    + rewrite decide_True by (rewrite Hl1; by eapply lookup_lt_Some). by apply (agrees_transfer _ _ _ _ _ _ true).
    + rewrite decide_False; [done|]. apply lookup_ge_None in Ht. lia.
  - cbn. destruct (trackers !! conn) as [t|] eqn:Ht.
    + rewrite decide_True by (rewrite Hl1; by eapply lookup_lt_Some). by apply (agrees_transfer _ _ _ _ _ _ false).
    + rewrite decide_False; [done|]. apply lookup_ge_None in Ht. lia.
  - cbn. destruct (trackers !! conn) as [t|] eqn:Ht; [by apply agrees_closed|].
    assert (open c ∖ {[conn]} = open c) as ->; [|by destruct c]. apply lookup_ge_None in Ht. destruct Hok as [_ _ _ _ _ Hop _ _]. cbn in Hop.
    apply set_eq. intros x. rewrite elem_of_difference, elem_of_singleton. split; [tauto|]. intros Hx. specialize (Hop _ Hx). split; [done|lia].
  - destruct Hok. by split.
Qed.

(** The API shows what there is: in every order of what happens to the connections, the totals are what
    went over all of them since the last reset and the counters of each what went over it, wrapped around
    at 64 bits; the connections that are shown are those that have been opened and not closed; and of
    those that have been closed at most a thousand are kept, each once and none that is open. *)
Theorem Manager_counts fuel es : Forall (chains_end fuel) es →
  let '(m, trackers) := foldl (event fuel) (NewManager, []) es in
  let c := foldl (count_event true) (mkCounted [] (0, 0) ∅) es in
  Total m = (wrap64 (since c).1, wrap64 (since c).2) ∧
  (∀ i t x, trackers !! i = Some t → each c !! i = Some x → Load (store m) (Upload t) = wrap64 x.1 ∧ Load (store m) (Download t) = wrap64 x.2) ∧
  (∀ i, is_Some (connections m !! i) ↔ i ∈ open c) ∧
  (length (closedConnections m) ≤ closedConnectionsLimit)%nat ∧ NoDup (ID <$> closedConnections m) ∧
  (∀ t, t ∈ closedConnections m → ID t ∉ open c).
Proof.
  intros Hes. assert (agrees (NewManager, []) (mkCounted [] (0, 0) ∅)) as Hok.
  { split; [done|done|done|by vm_compute| |set_solver| |cbn; lia].
    - intros i. cbn. rewrite lookup_empty. split; [by intros []|set_solver].
    - split; [constructor|by intros t ?%not_elem_of_nil]. }
  revert Hok. generalize ((NewManager, []) : Running) (mkCounted [] (0, 0) ∅). induction es as [|e es IH]; intros r c Hok.
  - destruct r as [m trackers]. destruct Hok as [_ Ht He Hs Ho _ [Hd Hc] Hlim]. cbn in *. split_and!; try done; [|by apply Hc].
    intros i t x Hi Hx. destruct (Ht _ _ Hi) as (_ & -> & ->). destruct (He _ _ Hx) as [H1 H2]. unfold Load. by rewrite H1, H2.
  - apply Forall_cons in Hes as [He Hes]. cbn. apply (IH Hes). by apply control_agrees_event.
Qed.

(** A group that has selected an outbound: the chain ends after it. *)
Lemma Manager_counts_witness :
  let outbounds : gmap string Detour := {["select"%string := mkDetour "selector" (Some "proxy"%string); "proxy"%string := mkDetour "vmess" None]} in
  let es := [Opened outbounds "select" None; Uploaded 0 5; Reset_all; Uploaded 0 7; Downloaded 0 9; Opened outbounds "select" (Some "proxy"%string); Closed 0 100] in
  let '(m, trackers) := foldl (event 3) (NewManager, []) es in
  Total m = (7, 9) ∧ (length (closedConnections m) ≤ closedConnectionsLimit)%nat ∧ is_Some (connections m !! 1%nat) ∧
  (Load (store m) 0, Chain <$> closedConnections m) = (12, [["proxy"; "select"]%string]).
Proof.
  cbv zeta. set (outbounds := _ : gmap string Detour). set (es := _ :: _).
  assert (Forall (chains_end 3) es) as Hes.
  { assert (∀ matched, (default "select"%string matched = "select" ∨ default "select"%string matched = "proxy")%string →
      chains_end 3 (Opened outbounds "select" matched)) as Hend.
    { intros matched Hm. exists (λ t, if String.eqb t "select" then 1 else 0)%nat. split.
      - intros t d now Ht Hnow. unfold outbounds in Ht. apply lookup_insert_Some in Ht as [[<- <-]|[_ Ht]]; [injection Hnow as <-; cbn; lia|].
        apply lookup_singleton_Some in Ht as [_ <-]. discriminate.
      - destruct Hm as [-> | ->]; cbn; lia. }
    unfold es. repeat constructor; apply Hend; cbn; tauto. }
  pose proof (Manager_counts 3 es Hes) as Hc.
  assert (foldl (event 3) (NewManager, []) es = foldl (event 3) (NewManager, []) es) as Heq by reflexivity.
  destruct (foldl (event 3) (NewManager, []) es) as [m trackers] eqn:E. destruct Hc as (Ht & _ & Ho & Hl & _).
  split; [rewrite Ht; vm_compute; reflexivity|]. split; [exact Hl|]. split; [apply Ho; vm_compute; repeat constructor|].
  clear Ht Ho Hl Heq. revert E. vm_compute. intros [= <- <-]. reflexivity.
Defined.

End Control.
