(* ===== verification/DialRace.v ===== *)
(** * The race of a dial (common/dialer/default_parallel_interface.go, default_parallel_network.go)

    Which interfaces are dialed ([selectInterfaces]), and the race between them, or between the address
    families: goroutines that dial, a timer after which the fallback begins, and a loop that receives the
    first connection.  The steps interleave in any order. *)

From stdpp Require Import base gmap strings list numbers.
From S2P Require Import Prelude GoStd Netip Adapter.

Local Open Scope Z_scope.

(** ** Which interfaces *)

(** Of an interface, what the dialers use: [adapter.NetworkInterface] with the fields of the
    [control.Interface] in it. *)
Record NetIf : Type := mkNetIf { nif_Index : Z; nif_Name : string; nif_Type : InterfaceType }.

Definition of_type (types : list InterfaceType) (iif : NetIf) : bool := bool_decide (nif_Type iif ∈ types).

Fixpoint first_with (index : Z) (interfaces : list NetIf) : list NetIf :=
  match interfaces with
  | [] => []
  | iif :: interfaces => if Z.eqb (nif_Index iif) index then [iif] else first_with index interfaces
  end.

(** [defaultIf] is the index of the default interface, if there is one.

    [common/dialer/default_parallel_interface.go:185-244] selectInterfaces *)
Definition selectInterfaces (interfaces : list NetIf) (defaultIf : option Z) (strategy : NetworkStrategy)
    (interfaceType fallbackInterfaceType : list InterfaceType) : list NetIf * list NetIf :=
  match strategy with
  | NetworkStrategyDefault =>
      (if nonempty interfaceType then List.filter (of_type interfaceType) interfaces
       else match defaultIf with
            | Some index => List.filter (λ iif, Z.eqb (nif_Index iif) index) interfaces
            | None => interfaces
            end, [])
  | NetworkStrategyHybrid =>
      (if nonempty interfaceType then List.filter (of_type interfaceType) interfaces else interfaces, [])
  | NetworkStrategyFallback =>
      let primary :=
        if nonempty interfaceType then List.filter (of_type interfaceType) interfaces
        else match defaultIf with
             | Some index => first_with index interfaces
             | None => interfaces
             end in
      (primary,
       if nonempty fallbackInterfaceType then List.filter (of_type fallbackInterfaceType) interfaces
       else List.filter (λ it, negb (existsb (λ iif, Z.eqb (nif_Index it) (nif_Index iif)) primary)) interfaces)
  end.

(** ** Races *)

Module Race.

(** A dial of the race: it waits for the fallback to begin, it dials, it has a connection ([None]) or an
    error for the loop, it has handed that over, or it found that the caller had returned and has closed
    its connection or dropped its error. *)
Inductive Racer : Type := Waits | Dials | Has (result : option error) | Sent | Closed | Dropped.
#[global] Instance Racer_eq_dec : EqDecision Racer.
Proof. solve_decision. Defined.

(** The timer of the fallback: there is none, it is running, what it sent is waiting in its channel, or
    it has been received. *)
Inductive Timer : Type := NoTimer | Armed | Due | Passed.
#[global] Instance Timer_eq_dec : EqDecision Timer.
Proof. solve_decision. Defined.

(** Every racer opens at most one connection, which has its number; [primary] says which have begun at
    once.  [lastFallbackReset] notes that [resetFastFallback] has been called. *)
Record State : Type := mkState {
  racers : list (bool * Racer);
  timer : Timer;
  errors : list (bool * error);
  returned : option (nat + error);
  lastFallbackReset : bool
}.
#[global] Instance State_settable : Settable State :=
  {| mkT s := mkState (racers s) (timer s) (errors s) (returned s) (lastFallbackReset s) |}.

(** What may happen next.  The end of a dial and the time are up to the world. *)
Inductive Step : Type :=
| DialEnds (i : nat) (result : option error)
| TimerFires
| Fallback
| Receive (i : nat)
| Leave (i : nat) (withinDelay : bool).

Section Machine.
(** [fast] is the race of which all take part from the beginning, [wrap] what a racer makes of its error,
    [verdict] what the loop returns for the errors so far, or [None] when it goes on. *)
Context (fast : bool) (wrap : nat → error → error) (verdict : list (bool * error) → option error).

(** [common/dialer/default_parallel_interface.go:52-65] (DefaultDialer).dialParallelInterface (start) *)
Definition start (primaries fallbacks : nat) : State :=
  mkState (replicate primaries (true, Dials) ++ replicate fallbacks (false, if fast then Dials else Waits))
    (if fast then NoTimer else match fallbacks with O => NoTimer | S _ => Armed end) [] None false.

(** The fallback begins: all that wait dial.

    [common/dialer/default_parallel_interface.go:69-74] (DefaultDialer).dialParallelInterface (fallback) *)
Definition fallback (s : State) : option State :=
  match timer s, returned s with
  | Due, None => Some (s <| racers := (λ r, (r.1, if decide (r.2 = Waits) then Dials else r.2)) <$> racers s |> <| timer := Passed |>)
  | _, _ => None
  end.

(** [fallbackTimer.Stop()] and then [Reset(0)]: what is not received yet is due at once. *)
Definition hurry (t : Timer) : Timer := match t with Armed | Due => Due | t => t end.

(** [common/dialer/default_parallel_interface.go:75-86] (DefaultDialer).dialParallelInterface (receive) *)
Definition receive (i : nat) (s : State) : option State :=
  match racers s !! i, returned s with
  | Some (primary, Has result), None =>
      let s := s <| racers := <[i := (primary, Sent)]> (racers s) |> in
      match result with
      | None => Some (s <| returned := Some (inl i) |>)
      | Some err =>
          let errs := errors s ++ [(primary, wrap i err)] in
          match verdict errs with
          | Some err => Some (s <| errors := errs |> <| returned := Some (inr err) |>)
          | None => Some (s <| errors := errs |> <| timer := if primary then hurry (timer s) else timer s |>)
          end
      end
  | _, _ => None
  end.

(** A racer that finds that the caller has returned.

    [common/dialer/default_parallel_interface.go:120-127] (DefaultDialer).dialParallelInterfaceFastFallback (returned) *)
Definition leave (i : nat) (withinDelay : bool) (s : State) : option State :=
  match racers s !! i, returned s with
  | Some (primary, Has None), Some _ =>
      Some (s <| racers := <[i := (primary, Closed)]> (racers s) |>
              <| lastFallbackReset := lastFallbackReset s || (fast && primary && withinDelay) |>)
  | Some (primary, Has (Some _)), Some _ => Some (s <| racers := <[i := (primary, Dropped)]> (racers s) |>)
  | _, _ => None
  end.

(** [None]: the step cannot be taken. *)
Definition step (s : State) (e : Step) : option State :=
  match e with
  | DialEnds i result =>
      match racers s !! i with
      | Some (primary, Dials) => Some (s <| racers := <[i := (primary, Has result)]> (racers s) |>)
      | _ => None
      end
  | TimerFires => match timer s with Armed => Some (s <| timer := Due |>) | _ => None end
  | Fallback => fallback s
  | Receive i => receive i s
  | Leave i withinDelay => leave i withinDelay s
  end.

Definition run (s : State) (steps : list Step) : option State := foldl (λ s e, s ≫= λ s, step s e) (Some s) steps.

End Machine.

(** The error of a race of interfaces: when all have failed, all their errors.

    [common/dialer/default_parallel_interface.go:79-82] (DefaultDialer).dialParallelInterface (errors) *)
Definition all_failed (total : nat) (errs : list (bool * error)) : option error :=
  if Nat.eqb (length errs) total then match errs.*2 with [] => None | first :: rest => Some (Errors first rest) end else None.

Definition error_of (primary : bool) (errs : list (bool * error)) : option error :=
  snd <$> find (λ e, Bool.eqb e.1 primary) errs.

(** The error of a race of address families: when both have failed, that of the first.

    [common/dialer/default_parallel_network.go:117-124] DialParallelNetwork (errors) *)
Definition both_failed (errs : list (bool * error)) : option error :=
  match error_of true errs, error_of false errs with
  | Some err, Some _ => Some err
  | _, _ => None
  end.

(** *** What a race does, in every order of its steps *)

Section Facts.
Context (fast : bool) (wrap : nat → error → error) (verdict : list (bool * error) → option error) (primaries fallbacks : nat).
Let total := (primaries + fallbacks)%nat.
Let flags : list bool := replicate primaries true ++ replicate fallbacks false.

(** The loop returns an error exactly when there is one of every racer. *)
Context (Hsome : (0 < total)%nat)
  (Hverdict : ∀ errs rest, errs.*1 ++ rest ≡ₚ flags → is_Some (verdict errs) ↔ rest = []).

(** What the past of a racer is. *)
Definition past (steps : list Step) (ret : option (nat + error)) (i : nat) (st : Racer) : Prop :=
  match st with
  | Waits | Dials => ∀ r, DialEnds i r ∉ steps
  | Has r => ∀ r', DialEnds i r' ∈ steps ↔ r' = r
  | Sent => (ret = Some (inl i) ∧ DialEnds i None ∈ steps) ∨ (∃ err, DialEnds i (Some err) ∈ steps) ∧ DialEnds i None ∉ steps
  | Closed => is_Some ret
  | Dropped => is_Some ret ∧ DialEnds i None ∉ steps
  end.

(** The fallback is in time: the delay is over, or a dial of the first has failed. *)
Definition in_time (steps : list Step) : Prop :=
  TimerFires ∈ steps ∨ ∃ i err, (i < primaries)%nat ∧ DialEnds i (Some err) ∈ steps.

Record Inv (steps : list Step) (s : State) : Prop := {
  i_flags : (racers s).*1 = flags;
  i_past : ∀ i p st, racers s !! i = Some (p, st) → past steps (returned s) i st;
  i_dom : ∀ i r, DialEnds i r ∈ steps → (i < total)%nat;
  i_sent : returned s = None → (errors s).*1 ≡ₚ (filter (λ r, r.2 = Sent) (racers s)).*1 ∧
    ∃ i p st, racers s !! i = Some (p, st) ∧ st ≠ Sent;
  i_waits : ∀ i p, racers s !! i = Some (p, Waits) → timer s = Armed ∨ timer s = Due;
  i_end : match returned s with
    | Some (inl i) => DialEnds i None ∈ steps ∧ ∃ p, racers s !! i = Some (p, Sent)
    | Some (inr _) => ∀ i p st, racers s !! i = Some (p, st) → st = Sent
    | None => True
    end;
  i_due : timer s = Due ∨ timer s = Passed → in_time steps;
  i_late : fast = false → ∀ i st, racers s !! i = Some (false, st) → st ≠ Waits → timer s = Passed
}.

Lemma flags_lookup (s : State) i p st : (racers s).*1 = flags → racers s !! i = Some (p, st) →
  (i < total)%nat ∧ (p = true ↔ (i < primaries)%nat).
Proof.
  intros Hf Hi. assert (flags !! i = Some p) as Hp by (by rewrite <-Hf, list_lookup_fmap, Hi).
  unfold flags, total in *. destruct (decide (i < primaries)%nat).
  - rewrite lookup_app_l, lookup_replicate in Hp by by rewrite length_replicate. destruct Hp as [-> ?]. split; [lia|tauto].
  - rewrite lookup_app_r, length_replicate, lookup_replicate in Hp by (rewrite length_replicate; lia). destruct Hp as [-> ?].
    split; [lia|]. split; [done|lia].
Qed.

Lemma insert_flags (l : list (bool * Racer)) i p st st' : l !! i = Some (p, st) → (<[i := (p, st')]> l).*1 = l.*1.
Proof.
  intros Hi. rewrite list_fmap_insert. apply list_insert_id. by rewrite list_lookup_fmap, Hi.
Qed.

(** The events of the others are those there were. *)
Lemma past_more steps ret i st e : (∀ r, e ≠ DialEnds i r) → past steps ret i st → past (steps ++ [e]) ret i st.
Proof.
  intros He. assert (∀ r, DialEnds i r ∈ steps ++ [e] ↔ DialEnds i r ∈ steps) as Hin.
  { intros r. rewrite elem_of_app, list_elem_of_singleton. split; [|by left]. intros [|Heq]; [done|]. by destruct (He r). }
  destruct st as [| |r| | |]; cbn; try setoid_rewrite Hin; done.
Qed.

(** The caller returns: nothing that is said of a racer that has not handed over its result changes. *)
Lemma past_returns steps ret i st : past steps None i st → past steps ret i st.
Proof. destruct st; cbn; try done; [intros [[? _]|?]; [done|by right]|by intros [[] _]]. Qed.

Lemma in_time_more steps e : in_time steps → in_time (steps ++ [e]).
Proof. intros [?|(i & err & ? & ?)]; [left|right; exists i, err; split; [done|]]; apply elem_of_app; by left. Qed.

Lemma Inv_start : Inv [] (start fast primaries fallbacks).
Proof.
  assert (∀ i p st, (replicate primaries (true, Dials) ++ replicate fallbacks (false, if fast then Dials else Waits)) !! i = Some (p, st) →
    (p = true ∧ st = Dials ∨ p = false ∧ (st = Dials ∧ fast = true ∨ st = Waits ∧ fast = false) ∧ (0 < fallbacks)%nat)) as Hl.
  { intros i p st [Hi|[? Hi]]%lookup_app_Some; apply lookup_replicate in Hi as [[= -> ->] ?]; [by left|right]. split; [done|]. split; [destruct fast; auto|lia]. }
  split; cbn.
  - by rewrite fmap_app, !fmap_replicate.
  - intros i p st Hi. apply Hl in Hi. destruct Hi as [[_ ->]|[_ [[[-> _]|[-> _]] _]]]; intros r ?%not_elem_of_nil; done.
  - by intros i r ?%not_elem_of_nil.
  - intros _. split.
    + rewrite filter_none; [done|]. intros [p st] [i Hi]%list_elem_of_lookup. apply Hl in Hi. naive_solver.
    + destruct (lookup_lt_is_Some_2 (replicate primaries (true, Dials) ++ replicate fallbacks (false, if fast then Dials else Waits)) 0) as [[p st] Hi].
      { rewrite length_app, !length_replicate. done. }
      exists 0%nat, p, st. split; [done|]. apply Hl in Hi. naive_solver.
  - intros i p Hi. apply Hl in Hi. destruct fast, fallbacks; naive_solver lia.
  - done.
  - destruct fast, fallbacks; naive_solver.
  - intros Hfast i st Hi Hne. apply Hl in Hi. naive_solver.
Qed.

Lemma Inv_DialEnds steps s s' i r : Inv steps s → step fast wrap verdict s (DialEnds i r) = Some s' → Inv (steps ++ [DialEnds i r]) s'.
Proof.
  intros [Hf Hp Hd Hs Hw He Hdue Hl] Hst. cbn in Hst. destruct (racers s !! i) as [[p []]|] eqn:Hi; try done. injection Hst as <-.
  destruct (flags_lookup s i p Dials Hf Hi) as [Hit Hpr]. pose proof (Hp _ _ _ Hi) as Hno. cbn in Hno. split; cbn.
  - by rewrite (insert_flags _ _ _ Dials).
  - intros j q st [(<- & [= <- <-] & _)|[Hne Hj]]%list_lookup_insert_Some; [|apply past_more; [congruence|by apply (Hp _ q)]].
    intros r'. rewrite elem_of_app, list_elem_of_singleton. split; [intros [Hin|[= ->]]; [by destruct (Hno r')|done]|intros ->; by right].
  - intros j r' [Hin|[= -> _]%list_elem_of_singleton]%elem_of_app; [by eapply Hd|done].
  - intros Hr. rewrite (filter_insert_same _ _ _ (p, Dials)) by done. split; [by apply Hs|]. exists i, p, (Has r).
    rewrite list_lookup_insert_eq by by eapply lookup_lt_Some. done.
  - intros j q [(_ & [=] & _)|[_ Hj]]%list_lookup_insert_Some. by eapply Hw.
  - destruct (returned s) as [[k|err]|]; [|by specialize (He _ _ _ Hi)|done]. destruct He as [Hin [q Hk]].
    split; [apply elem_of_app; by left|]. exists q. rewrite list_lookup_insert_ne; [done|]. intros ->. congruence.
  - intros Ht. by apply in_time_more, Hdue.
  - intros Hfast j st [(-> & [= -> <-] & _)|[_ Hj]]%list_lookup_insert_Some Hne; [by apply (Hl Hfast _ _ Hi)|by eapply Hl].
Qed.

Lemma Inv_TimerFires steps s s' : Inv steps s → step fast wrap verdict s TimerFires = Some s' → Inv (steps ++ [TimerFires]) s'.
Proof.
  intros [Hf Hp Hd Hs Hw He Hdue Hl] Hst. cbn in Hst. destruct (timer s) eqn:Ht; try done. injection Hst as <-. split; cbn; try done.
  - intros i p st Hi. apply past_more; [done|by eapply Hp].
  - intros i r [Hin|[=]%list_elem_of_singleton]%elem_of_app. by eapply Hd.
  - intros i p Hi. by right.
  - destruct (returned s) as [[k|err]|]; [|done|done]. destruct He as [Hin Hk]. split; [apply elem_of_app; by left|done].
  - intros _. left. apply elem_of_app. right. by apply list_elem_of_singleton.
  - intros Hfast i st Hi Hne. by specialize (Hl Hfast _ _ Hi Hne).
Qed.

Lemma Inv_Fallback steps s s' : Inv steps s → step fast wrap verdict s Fallback = Some s' → Inv (steps ++ [Fallback]) s'.
Proof.
  intros [Hf Hp Hd Hs Hw He Hdue Hl] Hst. cbn in Hst. unfold fallback in Hst. destruct (timer s) eqn:Ht; try done.
  destruct (returned s) eqn:Hr; [done|]. injection Hst as <-.
  set (g := λ r : bool * Racer, (r.1, if decide (r.2 = Waits) then Dials else r.2)).
  assert (∀ i p st, (g <$> racers s) !! i = Some (p, st) → ∃ st0, racers s !! i = Some (p, st0) ∧ (st0 = Waits ∧ st = Dials ∨ st0 = st ∧ st ≠ Waits)) as Hg.
  { intros i p st. rewrite list_lookup_fmap. intros ([p0 st0] & Hi & [= -> ->])%fmap_Some. cbn. exists st0. split; [done|]. case_decide; [by left|by right]. }
  split; cbn; rewrite ?Hr; try done.
  - rewrite <-Hf, <-list_fmap_compose. by apply list_fmap_ext.
  - intros i p st (st0 & Hi & [[-> ->]|[-> _]])%Hg; (apply past_more; [done|]); [apply (Hp _ _ _ Hi)|by eapply Hp].
  - intros i r [Hin|[=]%list_elem_of_singleton]%elem_of_app. by eapply Hd.
  - intros _. destruct (Hs eq_refl) as [Hperm (i & p & st & Hi & Hne)]. split.
    + rewrite Hperm. clear. induction (racers s) as [|[p st] l IH]; [done|]. rewrite fmap_cons, !filter_cons. cbn [snd g].
      destruct (decide (st = Sent)) as [->|Hne]; [rewrite decide_True by done|rewrite decide_False by by case_decide]; rewrite ?fmap_cons; [by apply perm_skip|done].
    + exists i, p, (g (p, st)).2. split; [by rewrite list_lookup_fmap, Hi|]. cbn. by case_decide.
  - intros i p (st0 & _ & [[_ ?]|[_ ?]])%Hg; done.
  - intros _. apply in_time_more, Hdue. by left.
Qed.

Lemma Inv_Leave steps s s' i w : Inv steps s → step fast wrap verdict s (Leave i w) = Some s' → Inv (steps ++ [Leave i w]) s'.
Proof.
  intros [Hf Hp Hd Hs Hw He Hdue Hl] Hst. cbn in Hst. unfold leave in Hst.
  destruct (racers s !! i) as [[p []]|] eqn:Hi; try done. destruct (returned s) eqn:Hr; [|by destruct result].
  assert (∃ st', racers s' = <[i := (p, st')]> (racers s) ∧ returned s' = returned s ∧ timer s' = timer s ∧ errors s' = errors s ∧
    past steps (returned s) i st' ∧ (st' = Closed ∨ st' = Dropped)) as (st' & Hrs & Hr' & Ht & Hes & Hp' & Hst').
  { pose proof (Hp _ _ _ Hi) as Hh. cbn in Hh. destruct result as [err|]; injection Hst as <-; eexists; (split_and!; [reflexivity|done|done|done| |]).
    - cbn. split; [by eexists|]. by rewrite Hh.
    - by right.
    - by eexists.
    - by left. }
  clear Hst. rewrite Hr in Hp', Hr'. split; rewrite ?Hrs, ?Hr', ?Ht, ?Hes, ?Hr; try done.
  - by rewrite (insert_flags _ _ _ (Has result)).
  - intros j q st [(<- & [= <- <-] & _)|[_ Hj]]%list_lookup_insert_Some; (apply past_more; [done|]); [done|by eapply Hp].
  - intros j r [Hin|[=]%list_elem_of_singleton]%elem_of_app. by eapply Hd.
  - intros j q [(_ & [= _ ->] & _)|[_ Hj]]%list_lookup_insert_Some; [by destruct Hst'|by eapply Hw].
  - destruct s0 as [k|err]; [|by specialize (He _ _ _ Hi)]. destruct He as [Hin [q Hk]]. split; [apply elem_of_app; by left|].
    exists q. rewrite list_lookup_insert_ne; [done|]. intros ->. congruence.
  - intros Hti. by apply in_time_more, Hdue.
  - intros Hfast j st [(-> & [= -> <-] & _)|[_ Hj]]%list_lookup_insert_Some Hne; [by apply (Hl Hfast _ _ Hi)|by eapply Hl].
Qed.

(** Those that have not handed over their result: none is left exactly when the loop has a verdict. *)
Lemma verdict_left (l : list (bool * Racer)) (errs : list (bool * error)) : l.*1 = flags →
  errs.*1 ≡ₚ (filter (λ r, r.2 = Sent) l).*1 →
  match verdict errs with
  | Some _ => ∀ i p st, l !! i = Some (p, st) → st = Sent
  | None => ∃ i p st, l !! i = Some (p, st) ∧ st ≠ Sent
  end.
Proof.
  intros Hf Hperm. assert (errs.*1 ++ (filter (λ r, r.2 ≠ Sent) l).*1 ≡ₚ flags) as Hall.
  { by rewrite Hperm, <-fmap_app, filter_app_complement, Hf. }
  pose proof (Hverdict _ _ Hall) as Hv. destruct (verdict errs).
  - intros i p st Hi. assert (filter (λ r, r.2 ≠ Sent) l = []) as Hnil by (apply fmap_nil_inv with fst; apply Hv; by eexists).
    destruct (decide (st = Sent)) as [|Hne]; [done|]. exfalso. apply (list.filter_nil_not_elem_of (λ r : bool * Racer, r.2 ≠ Sent) l (p, st) Hnil Hne).
    by eapply list_elem_of_lookup_2.
  - destruct (filter (λ r, r.2 ≠ Sent) l) as [|[p st] rest] eqn:Hr; [by destruct (proj2 Hv eq_refl)|].
    assert ((p, st) ∈ filter (λ r, r.2 ≠ Sent) l) as Hin by (rewrite Hr; left). apply list_elem_of_filter in Hin as [Hne [i Hi]%list_elem_of_lookup].
    by exists i, p, st.
Qed.

Lemma Inv_Receive steps s s' i : Inv steps s → step fast wrap verdict s (Receive i) = Some s' → Inv (steps ++ [Receive i]) s'.
Proof.
  intros [Hf Hp Hd Hs Hw He Hdue Hl] Hst. cbn in Hst. unfold receive in Hst.
  destruct (racers s !! i) as [[p [| |result| | |]]|] eqn:Hi; try done. destruct (returned s) eqn:Hr; [done|].
  destruct (Hs eq_refl) as [Hperm _]. destruct (flags_lookup s i p _ Hf Hi) as [Hit Hpr]. pose proof (Hp _ _ _ Hi) as Hi'. cbn in Hi'.
  assert ((<[i := (p, Sent)]> (racers s)).*1 = flags) as Hf' by by rewrite (insert_flags _ _ _ (Has result)).
  assert (∀ ret j q st, <[i := (p, Sent)]> (racers s) !! j = Some (q, st) →
    (j = i → past (steps ++ [Receive i]) ret i Sent) → past (steps ++ [Receive i]) ret j st) as Hp'.
  { intros ret j q st [(<- & [= <- <-] & _)|[_ Hj]]%list_lookup_insert_Some Hsame; [by apply Hsame|].
    apply past_more; [done|]. by eapply past_returns, Hp. }
  assert (∀ j r, DialEnds j r ∈ steps ++ [Receive i] → (j < total)%nat) as Hd'.
  { intros j r [Hin|[=]%list_elem_of_singleton]%elem_of_app. by eapply Hd. }
  assert (∀ j q, <[i := (p, Sent)]> (racers s) !! j = Some (q, Waits) → timer s = Armed ∨ timer s = Due) as Hw'.
  { intros j q [(_ & [=] & _)|[_ Hj]]%list_lookup_insert_Some. by eapply Hw. }
  assert (fast = false → ∀ j st, <[i := (p, Sent)]> (racers s) !! j = Some (false, st) → st ≠ Waits → timer s = Passed) as Hl'.
  { intros Hfast j st [(-> & [= -> <-] & _)|[_ Hj]]%list_lookup_insert_Some Hne; [by apply (Hl Hfast _ _ Hi)|by eapply Hl]. }
  destruct result as [err|].
  - assert ((errors s ++ [(p, wrap i err)]).*1 ≡ₚ (filter (λ r, r.2 = Sent) (<[i := (p, Sent)]> (racers s))).*1) as Hperm'.
    { rewrite (filter_insert_new _ _ _ _ (p, Sent) Hi) by done. rewrite fmap_app, fmap_cons, Hperm. symmetry. apply Permutation_cons_append. }
    assert (∀ ret, past (steps ++ [Receive i]) ret i Sent) as Hsent.
    { intros ret. apply past_more; [done|]. right. split; [exists err|]; by rewrite Hi'. }
    cbn in Hst. pose proof (verdict_left _ _ Hf' Hperm') as Hv. destruct (verdict (errors s ++ _)) as [e|]; injection Hst as <-; (split; cbn; rewrite ?Hr; try done).
    + intros j q st Hj. by eapply Hp'.
    + intros Ht. by apply in_time_more, Hdue.
    + intros j q st Hj. by eapply Hp'.
    + intros j q Hj. specialize (Hw' _ _ Hj). destruct p; [|done]. right. by destruct Hw' as [-> | ->].
    + intros Ht. destruct p; [|by apply in_time_more, Hdue]. right. exists i, err. split; [by apply Hpr|]. apply elem_of_app. left. by apply Hi'.
    + intros Hfast j st Hj Hne. specialize (Hl' Hfast _ _ Hj Hne). rewrite Hl'. by destruct p.
  - injection Hst as <-. split; cbn; try done.
    + intros j q st Hj. eapply Hp'; [done|]. intros _. left. split; [done|]. apply elem_of_app. left. by apply Hi'.
    + split; [apply elem_of_app; left; by apply Hi'|]. exists p. apply list_lookup_insert_eq. by eapply lookup_lt_Some.
    + intros Ht. by apply in_time_more, Hdue.
Qed.

Lemma Inv_step steps s s' e : Inv steps s → step fast wrap verdict s e = Some s' → Inv (steps ++ [e]) s'.
Proof. destruct e; eauto using Inv_DialEnds, Inv_TimerFires, Inv_Fallback, Inv_Receive, Inv_Leave. Qed.

Lemma run_snoc s steps e : run fast wrap verdict s (steps ++ [e]) = run fast wrap verdict s steps ≫= λ s, step fast wrap verdict s e.
Proof. unfold run. by rewrite foldl_app. Qed.

Lemma Inv_run steps s : run fast wrap verdict (start fast primaries fallbacks) steps = Some s → Inv steps s.
Proof.
  revert s. induction steps as [|e steps IH] using rev_ind; intros s; [intros [= <-]; apply Inv_start|].
  rewrite run_snoc. destruct (run _ _ _ _ steps) as [s0|]; [|done]. cbn. intros Hst. by eapply Inv_step; [apply IH|].
Qed.

(** *** It ends *)

Definition left_of (st : Racer) : nat := match st with Waits => 3 | Dials => 2 | Has _ => 1 | _ => 0 end.
Definition left_of_timer (t : Timer) : nat := match t with Armed => 2 | Due => 1 | _ => 0 end.
Definition work (s : State) : nat := sum_list_with (λ r, left_of r.2) (racers s) + left_of_timer (timer s).

Lemma sum_insert (l : list (bool * Racer)) i p st st' : l !! i = Some (p, st) →
  (sum_list_with (λ r, left_of r.2) (<[i := (p, st')]> l) + left_of st = sum_list_with (λ r, left_of r.2) l + left_of st')%nat.
Proof.
  revert i. induction l as [|x l IH]; intros [|i] Hi; [done..| |]; cbn in Hi |- *.
  - injection Hi as ->. cbn. lia.
  - specialize (IH _ Hi). rewrite <-!Nat.add_assoc. f_equal. exact IH.
Qed.

Lemma step_works s s' e : step fast wrap verdict s e = Some s' → (work s' < work s)%nat.
Proof.
  unfold work. destruct e as [i r| | |i|i w]; cbn.
  - destruct (racers s !! i) as [[p []]|] eqn:Hi; try done. intros [= <-]. cbn. pose proof (sum_insert _ _ _ _ (Has r) Hi) as Hsum. cbn in Hsum. lia.
  - destruct (timer s) eqn:Ht; try done. intros [= <-]. cbn. lia.
  - unfold fallback. destruct (timer s) eqn:Ht; try done. destruct (returned s); [done|]. intros [= <-]. cbn.
    enough (sum_list_with (λ r, left_of r.2) ((λ r : bool * Racer, (r.1, if decide (r.2 = Waits) then Dials else r.2)) <$> racers s)
      ≤ sum_list_with (λ r, left_of r.2) (racers s))%nat by lia.
    induction (racers s) as [|[p st] l IH]; [done|]. rewrite fmap_cons. cbn [sum_list_with fst snd].
    case_decide; [subst st; cbn [left_of]; lia|lia].
  - unfold receive. destruct (racers s !! i) as [[p []]|] eqn:Hi; try done. destruct (returned s); [done|].
    pose proof (sum_insert _ _ _ _ Sent Hi) as Hsum. cbn in Hsum.
    destruct result as [err|]; [destruct (verdict _)|]; intros [= <-]; cbn; try lia. destruct p, (timer s); cbn; lia.
  - unfold leave. destruct (racers s !! i) as [[p []]|] eqn:Hi; try done. destruct result; (destruct (returned s); [|done]); intros [= <-]; cbn.
    + pose proof (sum_insert _ _ _ _ Dropped Hi) as Hsum. cbn in Hsum. lia.
    + pose proof (sum_insert _ _ _ _ Closed Hi) as Hsum. cbn in Hsum. lia.
Qed.

Lemma run_works steps s s' : run fast wrap verdict s steps = Some s' → (length steps + work s' ≤ work s)%nat.
Proof.
  revert s'. induction steps as [|e steps IH] using rev_ind; intros s'; [intros [= <-]; cbn; lia|].
  rewrite run_snoc, length_app. destruct (run _ _ _ s steps) as [s0|]; [|done]. cbn. intros Hst%step_works. specialize (IH _ eq_refl). lia.
Qed.

Lemma work_start : (work (start fast primaries fallbacks) ≤ 3 * total + 2)%nat.
Proof.
  assert (∀ (x : bool * Racer) n, (left_of x.2 ≤ 3)%nat → (sum_list_with (λ r, left_of r.2) (replicate n x) ≤ 3 * n)%nat) as Hn.
  { intros x n Hx. induction n as [|n IH]; [done|]. cbn. lia. }
  unfold work, start, total. cbn. rewrite sum_list_with_app.
  pose proof (Hn (true, Dials) primaries ltac:(cbn; lia)). pose proof (Hn (false, if fast then Dials else Waits) fallbacks ltac:(by destruct fast; cbn; lia)).
  destruct fast, fallbacks; cbn [left_of_timer]; lia.
Qed.

(** A race that has not returned can go on. *)
Lemma not_stuck steps s : Inv steps s → (∀ e, step fast wrap verdict s e = None) → returned s ≠ None ∧
  ∀ i p st, racers s !! i = Some (p, st) → st = Waits ∨ st = Sent ∨ st = Closed ∨ st = Dropped.
Proof.
  intros [Hf Hp Hd Hs Hw He Hdue Hl] Hst.
  assert (∀ i p st, racers s !! i = Some (p, st) → st ≠ Dials ∧ ∀ r, st ≠ Has r) as Hno.
  { intros i p st Hi. split.
    - intros ->. specialize (Hst (DialEnds i None)). cbn in Hst. by rewrite Hi in Hst.
    - intros r ->. destruct (returned s) eqn:Hr.
      + specialize (Hst (Leave i false)). cbn in Hst. unfold leave in Hst. rewrite Hi, Hr in Hst. by destruct r.
      + specialize (Hst (Receive i)). cbn in Hst. unfold receive in Hst. rewrite Hi, Hr in Hst. destruct r; [by destruct (verdict _)|done]. }
  split.
  - intros Hr. destruct (Hs Hr) as [_ (i & p & st & Hi & Hne)]. destruct (Hno _ _ _ Hi) as [H1 H2]. pose proof (Hp _ _ _ Hi) as Hpi. rewrite Hr in Hpi.
    destruct st as [| |r| | |]; try done; [|by destruct (H2 r)|by destruct Hpi|by destruct Hpi as [[] _]].
    destruct (Hw _ _ Hi) as [Ht|Ht]; [specialize (Hst TimerFires)|specialize (Hst Fallback)]; cbn in Hst.
    + by rewrite Ht in Hst.
    + unfold fallback in Hst. by rewrite Ht, Hr in Hst.
  - intros i p st Hi. destruct (Hno _ _ _ Hi) as [H1 H2]. destruct st as [| |r| | |]; try tauto. by destruct (H2 r).
Qed.

(** A race ends, whatever the order of its steps: no run has more than three steps for each racer and two of
    the timer, and when nothing more can happen the caller has returned.  It has a connection if it was handed one, and
    then every other connection that was opened is closed; and an error only if every dial has failed.
    A fallback is only dialed when the delay is over or one of the first has failed. *)
Lemma race_ends steps s : run fast wrap verdict (start fast primaries fallbacks) steps = Some s →
  (length steps ≤ 3 * total + 2)%nat ∧
  (fast = false → ∀ i r, (primaries ≤ i)%nat → DialEnds i r ∈ steps → in_time steps) ∧
  ((∀ e, step fast wrap verdict s e = None) → match returned s with
    | Some (inl i) => DialEnds i None ∈ steps ∧ ∀ j, DialEnds j None ∈ steps → j ≠ i → ∃ p, racers s !! j = Some (p, Closed)
    | Some (inr _) => ∀ i, (i < total)%nat → (∃ err, DialEnds i (Some err) ∈ steps) ∧ DialEnds i None ∉ steps
    | None => False
    end).
Proof.
  intros Hrun. pose proof (run_works _ _ _ Hrun) as Hlen. pose proof work_start. pose proof (Inv_run _ _ Hrun) as Hinv.
  assert (∀ i, (i < total)%nat → ∃ p st, racers s !! i = Some (p, st)) as Hlk.
  { intros i Hi. destruct (lookup_lt_is_Some_2 (racers s) i) as [[p st] ?]; [|by eauto].
    rewrite <-(length_fmap fst), (i_flags _ _ Hinv). unfold flags. by rewrite length_app, !length_replicate. }
  split; [lia|]. split.
  - intros Hfast i r Hge Hin. destruct (Hlk i (i_dom _ _ Hinv _ _ Hin)) as (p & st & Hi). pose proof (i_past _ _ Hinv _ _ _ Hi) as Hp.
    destruct (flags_lookup s i p st (i_flags _ _ Hinv) Hi) as [_ Hpr]. destruct p; [lia|]. apply (i_due _ _ Hinv). right.
    apply (i_late _ _ Hinv Hfast i st Hi). intros ->. by apply (Hp r).
  - intros Hst. destruct (not_stuck _ _ Hinv Hst) as [Hret Hall]. pose proof (i_end _ _ Hinv) as He. destruct (returned s) as [[i|err]|] eqn:Hr; [| |done].
    + destruct He as [Hin _]. split; [done|]. intros j Hj Hne. destruct (Hlk j (i_dom _ _ Hinv _ _ Hj)) as (p & st & Hi).
      pose proof (i_past _ _ Hinv _ _ _ Hi) as Hp. rewrite Hr in Hp. exists p. destruct (Hall _ _ _ Hi) as [->|[->|[->| ->]]]; cbn in Hp; [|naive_solver|done|naive_solver].
      by destruct (Hp None).
    + intros i Hi. destruct (Hlk i Hi) as (p & st & Hl). specialize (He _ _ _ Hl) as ->. pose proof (i_past _ _ Hinv _ _ _ Hl) as Hp. rewrite Hr in Hp.
      cbn in Hp. destruct Hp as [[? _]|Hp]; done.
Qed.

(** What the loop has collected, and returns. *)
Lemma run_errors steps s : run fast wrap verdict (start fast primaries fallbacks) steps = Some s →
  (∀ p e, (p, e) ∈ errors s → ∃ i err, e = wrap i err ∧ DialEnds i (Some err) ∈ steps ∧ (p = true ↔ (i < primaries)%nat)) ∧
  ∀ err, returned s = Some (inr err) → verdict (errors s) = Some err.
Proof.
  revert s. induction steps as [|e steps IH] using rev_ind; intros s; [intros [= <-]; split; [by intros p e ?%not_elem_of_nil|done]|].
  rewrite run_snoc. destruct (run _ _ _ _ steps) as [s0|] eqn:Hrun; [|done]. cbn. pose proof (Inv_run _ _ Hrun) as Hinv.
  destruct (IH _ eq_refl) as [Hes Hv]. intros Hst.
  assert (∀ p e', (p, e') ∈ errors s0 → ∃ i err, e' = wrap i err ∧ DialEnds i (Some err) ∈ steps ++ [e] ∧ (p = true ↔ (i < primaries)%nat)) as Hes'.
  { intros p e' Hin. destruct (Hes _ _ Hin) as (i & err & ? & ? & ?). exists i, err. rewrite elem_of_app. auto. }
  destruct e as [i r| | |i|i w]; cbn in Hst.
  - destruct (racers s0 !! i) as [[p []]|]; try done. by injection Hst as <-.
  - destruct (timer s0); try done. by injection Hst as <-.
  - unfold fallback in Hst. destruct (timer s0), (returned s0) eqn:Hr; try done. injection Hst as <-. by rewrite Hr.
  - unfold receive in Hst. destruct (racers s0 !! i) as [[p []]|] eqn:Hi; try done. destruct (returned s0) eqn:Hr; [done|].
    destruct result as [err|]; cbn in Hst; [|injection Hst as <-; by split].
    assert (∀ q e', (q, e') ∈ errors s0 ++ [(p, wrap i err)] →
      ∃ j er, e' = wrap j er ∧ DialEnds j (Some er) ∈ steps ++ [Receive i] ∧ (q = true ↔ (j < primaries)%nat)) as Hnew.
    { intros q e' [Hin|[= -> ->]%list_elem_of_singleton]%elem_of_app; [by apply Hes'|]. exists i, err. split; [done|].
      destruct (flags_lookup s0 i p _ (i_flags _ _ Hinv) Hi) as [_ ?]. split; [|done]. apply elem_of_app. left.
      by apply (i_past _ _ Hinv _ _ _ Hi). }
    destruct (verdict (errors s0 ++ [(p, wrap i err)])) as [e'|] eqn:Hve; injection Hst as <-; (split; [exact Hnew|]); cbn; rewrite ?Hr; [by intros ? [= <-]|done].
  - unfold leave in Hst. destruct (racers s0 !! i) as [[p []]|]; try done. destruct (returned s0) as [ret|] eqn:Hr; [|by destruct result].
    destruct result; injection Hst as <-; cbn; by rewrite Hr.
Qed.

End Facts.

Lemma all_failed_all (primaries fallbacks : nat) errs rest : (0 < primaries + fallbacks)%nat →
  errs.*1 ++ rest ≡ₚ replicate primaries true ++ replicate fallbacks false → is_Some (all_failed (primaries + fallbacks) errs) ↔ rest = [].
Proof.
  intros Hpos Hp%Permutation_length. rewrite !length_app, length_fmap, !length_replicate in Hp. unfold all_failed.
  destruct (Nat.eqb_spec (length errs) (primaries + fallbacks)) as [Heq|Hne].
  - destruct errs as [|[p e] errs]; [cbn in Heq; lia|]. split; [|intros _; by eexists]. intros _. destruct rest; [done|]. cbn [length] in *. lia.
  - split; [by intros []|]. intros ->. cbn in Hp. lia.
Qed.

Lemma both_failed_all errs rest : errs.*1 ++ rest ≡ₚ [true; false] → is_Some (both_failed errs) ↔ rest = [].
Proof.
  intros Hp. pose proof (Permutation_length Hp) as Hlen. rewrite length_app, length_fmap in Hlen. cbn in Hlen.
  destruct errs as [|[p1 e1] [|[p2 e2] [|]]]; cbn in Hlen; [..|lia].
  - split; [by intros []|]. intros ->. cbn in Hlen. lia.
  - split; [destruct p1; by intros []|]. intros ->. cbn in Hlen. lia.
  - destruct rest; [|cbn in Hlen; lia]. split; [done|]. intros _. cbn in Hp.
    destruct p1, p2; [| by eexists | by eexists |]; exfalso; apply Permutation_length_2_inv in Hp as [[=]|[=]].
Qed.

(** The error of a racer over an interface.

    [common/dialer/default_parallel_interface.go:38-43] (DefaultDialer).dialParallelInterface (startRacer) *)
Definition wrap_dial (interfaces : list NetIf) (i : nat) (err : error) : error :=
  match interfaces !! i with
  | Some iif => E_Cause err [AStr "dial "; AStr (nif_Name iif); AStr " ("; AInt (nif_Index iif); AStr ")"]
  | None => err
  end.

(** The race of the interfaces, from the selection on; [fast] is the one without a delay.

    [common/dialer/default_parallel_interface.go:16-88] (DefaultDialer).dialParallelInterface *)
Definition dialParallelInterface (fast : bool) (primaries fallbacks : list NetIf) (steps : list Step) : option State :=
  run fast (wrap_dial (primaries ++ fallbacks)) (all_failed (length primaries + length fallbacks))
    (start fast (length primaries) (length fallbacks)) steps.

(** [common/dialer/default_parallel_interface.go:90-151] (DefaultDialer).dialParallelInterfaceFastFallback *)
Definition dialParallelInterfaceFastFallback (primaries fallbacks : list NetIf) (steps : list Step) : option State :=
  dialParallelInterface true primaries fallbacks steps.

(** The race of the address families, when there are addresses of both.

    [common/dialer/default_parallel_network.go:79-128] DialParallelNetwork (race) *)
Definition network_race (steps : list Step) : option State := run false (λ _ err, err) both_failed (start false 1 1) steps.

Definition can_stop (fast : bool) (wrap : nat → error → error) (verdict : list (bool * error) → option error) (s : State) : Prop :=
  ∀ e, step fast wrap verdict s e = None.

(** C35: a race over interfaces ends, whatever the order of what its goroutines, its timer and the network do.
    There are at most three steps of each dial and two of the timer; when nothing more can happen the caller has returned.
    It has a connection, and then every other connection that has been opened is closed; or an error, and
    then every dial has failed and the error is made of the errors of all.  Unless the race is without
    delay, a fallback is only dialed after the delay or the failure of one of the first. *)
Theorem interface_race_ends fast ps fs steps s : (0 < length ps + length fs)%nat → dialParallelInterface fast ps fs steps = Some s →
  (length steps ≤ 3 * (length ps + length fs) + 2)%nat ∧
  (fast = false → ∀ i r, (length ps ≤ i)%nat → DialEnds i r ∈ steps → in_time (length ps) steps) ∧
  (can_stop fast (wrap_dial (ps ++ fs)) (all_failed (length ps + length fs)) s → match returned s with
    | Some (inl i) => DialEnds i None ∈ steps ∧ ∀ j, DialEnds j None ∈ steps → j ≠ i → ∃ p, racers s !! j = Some (p, Closed)
    | Some (inr err) => (∀ i, (i < length ps + length fs)%nat → (∃ err, DialEnds i (Some err) ∈ steps) ∧ DialEnds i None ∉ steps) ∧
        ∃ first rest, err = Errors first rest ∧ length (first :: rest) = (length ps + length fs)%nat ∧
          ∀ e, e ∈ first :: rest → ∃ i err, e = wrap_dial (ps ++ fs) i err ∧ DialEnds i (Some err) ∈ steps
    | None => False
    end).
Proof.
  intros Hpos Hrun. pose proof (λ errs rest, all_failed_all (length ps) (length fs) errs rest Hpos) as Hv.
  destruct (race_ends _ _ _ _ _ Hpos Hv _ _ Hrun) as (Hlen & Hlate & Hend). split; [done|]. split; [done|]. intros Hst. specialize (Hend Hst).
  destruct (run_errors _ _ _ _ _ Hpos Hv _ _ Hrun) as [Hes Hve]. destruct (returned s) as [[i|err]|]; [done| |done]. split; [done|].
  specialize (Hve _ eq_refl). unfold all_failed in Hve. destruct (Nat.eqb_spec (length (errors s)) (length ps + length fs)) as [Heq|]; [|done].
  destruct ((errors s).*2) as [|first rest] eqn:He2; [done|]. injection Hve as <-. exists first, rest. split; [done|].
  split; [by rewrite <-He2, length_fmap|]. rewrite <-He2. intros e ([p e'] & -> & Hin)%list_elem_of_fmap. destruct (Hes _ _ Hin) as (i & er & ? & ? & _). eauto.
Qed.

(** The race of two address families ends the same way: with a connection, when the other one that may
    have been opened is closed; or with the error of the first family, when both have failed. *)
Theorem network_race_ends steps s : network_race steps = Some s →
  (length steps ≤ 8)%nat ∧ (∀ r, DialEnds 1 r ∈ steps → in_time 1 steps) ∧
  (can_stop false (λ _ err, err) both_failed s → match returned s with
    | Some (inl i) => DialEnds i None ∈ steps ∧ ∀ j, DialEnds j None ∈ steps → j ≠ i → ∃ p, racers s !! j = Some (p, Closed)
    | Some (inr err) => DialEnds 0 (Some err) ∈ steps ∧ (∃ err', DialEnds 1 (Some err') ∈ steps)
    | None => False
    end).
Proof.
  intros Hrun. pose proof both_failed_all as Hv. destruct (race_ends false (λ _ err, err) both_failed 1 1 ltac:(lia) Hv _ _ Hrun) as (Hlen & Hlate & Hend).
  split; [done|]. split; [intros r; by apply Hlate|]. intros Hst. specialize (Hend Hst).
  destruct (run_errors false (λ _ err, err) both_failed 1 1 ltac:(lia) Hv _ _ Hrun) as [Hes Hve]. destruct (returned s) as [[i|err]|]; [done| |done].
  split; [|by apply (Hend 1%nat); lia]. specialize (Hve _ eq_refl). unfold both_failed, error_of in Hve.
  destruct (find (λ e, Bool.eqb e.1 true) (errors s)) as [[p e]|] eqn:Hf; [|done]. destruct (find (λ e, Bool.eqb e.1 false) (errors s)); [|done]. cbn in Hve. injection Hve as <-.
  apply find_some in Hf as [Hin Hp]. apply Bool.eqb_prop in Hp. cbn in Hp. subst p. apply list_elem_of_In in Hin.
  destruct (Hes _ _ Hin) as (i & er & -> & Hd & Hi). replace i with 0%nat in Hd by (destruct Hi as [Hi _]; specialize (Hi eq_refl); lia). done.
Qed.

(** Two interfaces, the first fails: the second is dialed before the delay is over, and its connection
    is returned. *)
Lemma interface_race_ends_witness :
  let wifi := mkNetIf 1 "wlan0" InterfaceTypeWIFI in let cell := mkNetIf 2 "rmnet0" InterfaceTypeCellular in
  let steps := [DialEnds 0 (Some io_EOF); Receive 0; Fallback; DialEnds 1 None; Receive 1] in
  ∃ s, dialParallelInterface false [wifi] [cell] steps = Some s ∧ returned s = Some (inl 1%nat) ∧ in_time 1 steps.
Proof.
  cbv zeta. set (wifi := mkNetIf _ _ _). set (cell := mkNetIf _ _ _). set (steps := [_; _; _; _; _]).
  destruct (dialParallelInterface false [wifi] [cell] steps) as [s|] eqn:E; [|vm_compute in E; discriminate E].
  exists s. split; [reflexivity|]. split; [vm_compute in E; injection E as <-; reflexivity|].
  destruct (interface_race_ends false [wifi] [cell] steps s ltac:(cbn; lia) E) as (_ & Hlate & _).
  apply (Hlate eq_refl 1%nat None); [cbn; lia|]. do 3 right. left.
Defined.

Lemma network_race_ends_witness :
  ∃ s, network_race [TimerFires; Fallback; DialEnds 1 None; DialEnds 0 None; Receive 1; Leave 0 false] = Some s ∧
    returned s = Some (inl 1%nat) ∧ racers s !! 0%nat = Some (true, Closed) ∧
    (length [TimerFires; Fallback; DialEnds 1 None; DialEnds 0 None; Receive 1; Leave 0 false] ≤ 8)%nat.
Proof.
  set (steps := [_; _; _; _; _; _]).
  destruct (network_race steps) as [s|] eqn:E; [|vm_compute in E; discriminate E].
  exists s. split; [reflexivity|]. split; [|split]; [vm_compute in E; injection E as <-; reflexivity..|].
  apply (network_race_ends steps s E).
Defined.

End Race.
