(* ===== verification/Dialer.v ===== *)
(** * Dialers (common/dialer)

    Addresses one after the other ([DialSerialNetwork]), the address families ([parallel_plan]), the default
    dialer with its sockets and strategy ([DefaultDialer], [NewDefault]), dialing by name ([resolveDialer]),
    through another outbound ([DetourDialer]), which of these the options ask for ([NewWithOptions]), and at
    the first write (module [SlowOpen]).  The races are in DialRace. *)

From stdpp Require Import base gmap strings list numbers.
From S2P Require Import Prelude GoStd Netip Adapter DnsRules DialRace.

Local Open Scope Z_scope.

(** ** One address after the other *)

(** How the interfaces of a dial are chosen. *)
Record DialOptions : Type := mkDialOptions {
  do_strategy : option NetworkStrategy;
  do_interfaceType : list InterfaceType;
  do_fallbackInterfaceType : list InterfaceType;
  do_fallbackDelay : Z
}.

(** A loop that goes through the elements, of which there is at least one, until [f] succeeds, and
    returns all the errors if it never does. *)
Fixpoint first_ok {W A B} (f : A → W → res B * W) (x : A) (l : list A) (errors : list error) (w : W) : res B * W :=
  match f x w with
  | (Ok b, w) => (Ok b, w)
  | (Panic p, w) => (Panic p, w)
  | (Err err, w) =>
      match l with
      | [] => (Err match errors ++ [err] with [] => err | first :: rest => Errors first rest end, w)
      | y :: l => first_ok f y l (errors ++ [err]) w
      end
  end.

(** All the elements fail, one after the other, with these errors. *)
Inductive all_fail {W A B} (f : A → W → res B * W) : list A → W → list error → W → Prop :=
| all_fail_nil w : all_fail f [] w [] w
| all_fail_cons x l w err w1 errs w' : f x w = (Err err, w1) → all_fail f l w1 errs w' → all_fail f (x :: l) w (err :: errs) w'.

(** The first that succeeds, all before it have failed, in order; or the errors of all. *)
Lemma first_ok_spec {W A B} (f : A → W → res B * W) l : ∀ x errors w r w', first_ok f x l errors w = (r, w') →
  match r with
  | Ok b => ∃ before y after errs w1, x :: l = before ++ y :: after ∧ all_fail f before w errs w1 ∧ f y w1 = (Ok b, w')
  | Err err => ∃ errs first rest, all_fail f (x :: l) w errs w' ∧ errors ++ errs = first :: rest ∧ err = Errors first rest
  | Panic p => ∃ before y after errs w1, x :: l = before ++ y :: after ∧ all_fail f before w errs w1 ∧ f y w1 = (Panic p, w')
  end.
Proof.
  induction l as [|z l IH]; intros x errors w r w'; cbn; destruct (f x w) as [[b|err|p] w1] eqn:Hx.
  - intros [= <- <-]. exists [], x, [], [], w. split_and!; [done|constructor|done].
  - intros [= <- <-]. destruct (errors ++ [err]) as [|first rest] eqn:He; [by destruct errors|]. exists [err], first, rest.
    split; [by econstructor; [|constructor]|done].
  - intros [= <- <-]. exists [], x, [], [], w. split_and!; [done|constructor|done].
  - intros [= <- <-]. exists [], x, (z :: l), [], w. split_and!; [done|constructor|done].
  - intros Hf. specialize (IH _ _ _ _ _ Hf). destruct r as [b|e|p].
    + destruct IH as (before & y & after & errs & w2 & -> & Hall & Hy). exists (x :: before), y, after, (err :: errs), w2.
      split_and!; [done|by econstructor|done].
    + destruct IH as (errs & first & rest & Hall & Heq & ->). exists (err :: errs), first, rest. rewrite <-app_assoc in Heq.
      split_and!; [by econstructor|done|done].
    + destruct IH as (before & y & after & errs & w2 & -> & Hall & Hy). exists (x :: before), y, after, (err :: errs), w2.
      split_and!; [done|by econstructor|done].
  - intros [= <- <-]. exists [], x, (z :: l), [], w. split_and!; [done|constructor|done].
Qed.

Section Serial.
Context {L : ExtLib} {W Conn PConn : Type}.

(** [N.Dialer] with the two interfaces a dialer may implement besides, each with its dial and its listen. *)
Record Dialer : Type := mkDialer {
  d_DialContext : string → Socksaddr → W → res Conn * W;
  d_ListenPacket : Socksaddr → W → res PConn * W;
  d_DialParallelInterface : option (string → Socksaddr → DialOptions → W → res Conn * W);
  d_ListenSerialInterfacePacket : Socksaddr → DialOptions → W → res PConn * W;
  d_DialParallelNetwork : option (string → Socksaddr → list Addr → DialOptions → W → res Conn * W);
  d_ListenSerialNetworkPacket : Socksaddr → list Addr → DialOptions → W → res (PConn * Addr) * W
}.

(** [M.SocksaddrFrom] *)
Definition SocksaddrFrom (addr : Addr) (port : Z) : Socksaddr := mkSocksaddr addr port "".

(** The addresses to go through, of which there is at least one.

    [common/dialer/default_parallel_network.go:17-22] DialSerialNetwork (addresses) *)
Definition addresses_of (destination : Socksaddr) (destinationAddresses : list Addr) : res (Addr * list Addr) :=
  match destinationAddresses with
  | a :: l => Ok (a, l)
  | [] => if Socksaddr_IsIP destination then Ok (sa_Addr destination, []) else Panic [AStr "invalid usage"]
  end.

(** [common/dialer/default_parallel_network.go:16-45] DialSerialNetwork *)
Definition DialSerialNetwork (dialer : Dialer) (network : string) (destination : Socksaddr) (destinationAddresses : list Addr)
    (o : DialOptions) (w : W) : res Conn * W :=
  match addresses_of destination destinationAddresses with
  | Err err => (Err err, w)
  | Panic p => (Panic p, w)
  | Ok (a, l) =>
      match d_DialParallelNetwork dialer with
      | Some DialParallelNetwork => DialParallelNetwork network destination (a :: l) o w
      | None =>
          let dial address w :=
            let to := SocksaddrFrom address (sa_Port destination) in
            match d_DialParallelInterface dialer with
            | Some DialParallelInterface => DialParallelInterface network to o w
            | None => d_DialContext dialer network to w
            end in
          first_ok dial a l [] w
      end
  end.

(** [common/dialer/default_parallel_network.go:132-161] ListenSerialNetworkPacket *)
Definition ListenSerialNetworkPacket (dialer : Dialer) (destination : Socksaddr) (destinationAddresses : list Addr)
    (o : DialOptions) (w : W) : res (PConn * Addr) * W :=
  match addresses_of destination destinationAddresses with
  | Err err => (Err err, w)
  | Panic p => (Panic p, w)
  | Ok (a, l) =>
      match d_DialParallelNetwork dialer with
      | Some _ => d_ListenSerialNetworkPacket dialer destination (a :: l) o w
      | None =>
          let listen address w :=
            let to := SocksaddrFrom address (sa_Port destination) in
            let '(r, w) := match d_DialParallelInterface dialer with
                           | Some _ => d_ListenSerialInterfacePacket dialer to o w
                           | None => d_ListenPacket dialer to w
                           end in
            ((λ conn, (conn, address)) <$> r, w) in
          first_ok listen a l [] w
      end
  end.

(** What is dialed: the addresses one after the other, or a race of two lists of them
    ([Race.network_race]), in which each is dialed one after the other.

    [common/dialer/default_parallel_network.go:48-78] DialParallelNetwork (families) *)
Definition parallel_plan (destination : Socksaddr) (destinationAddresses : list Addr) (preferIPv6 : bool)
    : res (list Addr + (list Addr * list Addr)) :=
  '(a, l) ← addresses_of destination destinationAddresses;
  let addresses4 := List.filter (λ address, Addr_Is4 address || Addr_Is4In6 address) (a :: l) in
  let addresses6 := List.filter (λ address, Addr_Is6 address && negb (Addr_Is4In6 address)) (a :: l) in
  if negb (nonempty addresses4) || negb (nonempty addresses6) then Ok (inl (a :: l))
  else if preferIPv6 then Ok (inr (addresses6, addresses4)) else Ok (inr (addresses4, addresses6)).

(** No address is left out of a race, as long as they are valid, and none is in both lists. *)
Lemma parallel_plan_all destination l preferIPv6 ps fs : parallel_plan destination l preferIPv6 = Ok (inr (ps, fs)) → l ≠ [] →
  (∀ a, a ∈ l → Addr_IsValid a = true) → ps ++ fs ≡ₚ l ∧ ps ≠ [] ∧ fs ≠ [] ∧
  ∀ a, a ∈ ps → (Addr_Is4 a || Addr_Is4In6 a) = negb preferIPv6.
Proof.
  intros Hp Hne Hv. unfold parallel_plan, addresses_of in Hp. destruct l as [|a l]; [done|]. unfold mbind, res_bind in Hp.
  set (f4 := λ address, Addr_Is4 address || Addr_Is4In6 address) in *. set (f6 := λ address, Addr_Is6 address && negb (Addr_Is4In6 address)) in *.
  assert (List.filter f4 (a :: l) ++ List.filter f6 (a :: l) ≡ₚ a :: l) as Hall.
  { revert Hv. generalize (a :: l). clear. intros l Hv. induction l as [|x l IH]; [done|]. cbn [List.filter].
    assert (f6 x = negb (f4 x)) as ->.
    { specialize (Hv x ltac:(left)). unfold f4, f6. destruct x as [|v|v z]; [done|done|]. cbn [Addr_Is4 Addr_Is6 orb andb]. by destruct (Addr_Is4In6 _). }
    assert (List.filter f4 l ++ List.filter f6 l ≡ₚ l) as Hl by (apply IH; intros y ?; apply Hv; by right).
    destruct (f4 x); cbn [negb]; [by apply perm_skip|]. etrans; [symmetry; apply Permutation_middle|]. by apply perm_skip. }
  assert (∀ x, x ∈ List.filter f4 (a :: l) → f4 x = true) as H4 by (intros x Hx%list_elem_of_In%filter_In; tauto).
  assert (∀ x, x ∈ List.filter f6 (a :: l) → f4 x = false) as H6.
  { intros x Hx%list_elem_of_In%filter_In. destruct Hx as [_ Hx]. unfold f6, f4 in *. destruct x as [|v|v z]; [done|done|]. cbn [Addr_Is4 Addr_Is6 orb andb] in *. by destruct (Addr_Is4In6 _). }
  destruct (List.filter f4 (a :: l)) as [|x4 l4], (List.filter f6 (a :: l)) as [|x6 l6]; try done. cbn [nonempty negb orb] in Hp.
  destruct preferIPv6; injection Hp as <- <-; (split; [|split; [done|split; [done|]]]).
  - by rewrite Permutation_app_comm.
  - intros x Hx. by apply H6.
  - done.
  - intros x Hx. by apply H4.
Qed.

End Serial.
Arguments Dialer : clear implicits.

(** ** The interfaces of a race *)

(** With the strategy fallback and no types for it, the interfaces are divided: each is tried, the default
    one first. *)
Lemma selectInterfaces_divide interfaces defaultIf types : NoDup (nif_Index <$> interfaces) →
  let '(ps, fs) := selectInterfaces interfaces defaultIf NetworkStrategyFallback types [] in
  (∀ iif, iif ∈ interfaces ↔ iif ∈ ps ∨ iif ∈ fs) ∧ (∀ iif, iif ∈ ps → iif ∉ fs).
Proof.
  intros Hd. cbn. set (ps := if nonempty types then _ else _).
  assert (∀ iif, iif ∈ ps → iif ∈ interfaces) as Hsub.
  { unfold ps. destruct (nonempty types); [intros iif [Hin _]%list_elem_of_In%filter_In; by apply list_elem_of_In|].
    destruct defaultIf as [index|]; [|done]. clear. induction interfaces as [|x l IH]; [done|]. cbn.
    destruct (Z.eqb (nif_Index x) index); [intros iif ->%list_elem_of_singleton; by left|intros iif Hin; right; by apply IH]. }
  assert (∀ iif, iif ∈ List.filter (λ it, negb (existsb (λ iif, nif_Index it =? nif_Index iif) ps)) interfaces ↔ iif ∈ interfaces ∧ ∀ p, p ∈ ps → nif_Index iif ≠ nif_Index p) as Hf.
  { intros iif. rewrite list_elem_of_In, filter_In, <-list_elem_of_In, negb_true_iff, <-not_true_iff_false, existsb_exists.
    setoid_rewrite Z.eqb_eq. setoid_rewrite <-list_elem_of_In. naive_solver. }
  split.
  - intros iif. rewrite Hf. split; [|intros [|[]]; [by apply Hsub|done]]. intros Hin.
    destruct (existsb (λ p, nif_Index iif =? nif_Index p) ps) eqn:E.
    + left. apply existsb_exists in E as (p & Hp%list_elem_of_In & He%Z.eqb_eq).
      enough (iif = p) as -> by done. specialize (Hsub _ Hp). apply list_elem_of_lookup in Hin as [i Hi], Hsub as [j Hj].
      enough (i = j) as -> by congruence. eapply (NoDup_lookup _ _ _ (nif_Index iif) Hd); rewrite list_lookup_fmap; [by rewrite Hi|rewrite Hj; cbn; by rewrite He].
    + right. split; [done|]. intros p Hp He. apply not_true_iff_false in E. apply E, existsb_exists. exists p.
      split; [by apply list_elem_of_In|by apply Z.eqb_eq].
  - intros iif Hin [_ Hno]%Hf. by apply (Hno iif).
Qed.

(** ** The default dialer *)

(** [common/dialer/default.go:30-47] DefaultDialer *)
Record DefaultDialer : Type := mkDefaultDialer {
  dd_networkStrategy : option NetworkStrategy;
  dd_defaultNetworkStrategy : bool;
  dd_networkType : list InterfaceType;
  dd_fallbackNetworkType : list InterfaceType;
  dd_networkFallbackDelay : Z;
  dd_networkLastFallback : option Z
}.
#[global] Instance DefaultDialer_settable : Settable DefaultDialer :=
  {| mkT r := mkDefaultDialer (dd_networkStrategy r) (dd_defaultNetworkStrategy r) (dd_networkType r) (dd_fallbackNetworkType r)
       (dd_networkFallbackDelay r) (dd_networkLastFallback r) |}.

Inductive SocketDialer : Type := dialer4 | dialer6 | udpDialer4 | udpDialer6.

(** [constant/timeout.go:9] TCPTimeout *)
Definition TCPTimeout : Z := 15 * 10 ^ 9.
Definition DefaultFallbackDelay : Z := 300 * 10 ^ 6.
Definition syscall_EPERM : error := E_Ext "operation not permitted".

Section Default.
(** The sockets; what a race of the given interfaces came to ([Race.dialParallelInterface]: the connection and
    whether it is of the first); the interfaces of the machine; and the manager of connections. *)
Context {L : ExtLib} {W Conn PConn : Type} (NetworkName : string → string)
  (socket_dial : SocketDialer → string → Socksaddr → W → res Conn * W)
  (socket_listen : string → bool → W → res PConn * W)
  (race_dial : bool → bool → string → Socksaddr → list NetIf → list NetIf → Z → W → res (Conn * bool) * W)
  (interface_listen : NetIf → string → W → res PConn * W)
  (NetworkInterfaces : W → list NetIf) (DefaultInterface : W → option Z)
  (TrackConn : option (Conn → W → Conn * W)) (TrackPacketConn : option (PConn → W → PConn * W)).

(** [common/dialer/default.go:375-380] (DefaultDialer).trackConn *)
Definition trackConn (r : res Conn * W) : res Conn * W :=
  match r, TrackConn with
  | (Ok conn, w), Some track => let '(conn, w) := track conn w in (Ok conn, w)
  | r, _ => r
  end.

(** [common/dialer/default.go:382-387] (DefaultDialer).trackPacketConn *)
Definition trackPacketConn (r : res PConn * W) : res PConn * W :=
  match r, TrackPacketConn with
  | (Ok conn, w), Some track => let '(conn, w) := track conn w in (Ok conn, w)
  | r, _ => r
  end.

(** The socket for a network and an address.

    [common/dialer/default.go:246-260] (DefaultDialer).DialContext (sockets) *)
Definition socket_for (network : string) (address : Socksaddr) : SocketDialer :=
  if String.eqb (NetworkName network) "udp"
  then (if negb (Socksaddr_IsIPv6 address) then udpDialer4 else udpDialer6)
  else (if negb (Socksaddr_IsIPv6 address) then dialer4 else dialer6).

(** [None] when the address can be dialed.

    [common/dialer/default.go:240-244] (DefaultDialer).DialContext (address) *)
Definition bad_address (address : Socksaddr) : option error :=
  if negb (Socksaddr_IsValid address) then Some (E_New [AStr "invalid address"])
  else if Socksaddr_IsFqdn address then Some (E_New [AStr "domain not resolved"]) else None.

(** [DialContext] of a dialer without a strategy. *)
Definition dial_plain (network : string) (address : Socksaddr) (w : W) : res Conn * W :=
  match bad_address address with
  | Some err => (Err err, w)
  | None => trackConn (socket_dial (socket_for network address) network address w)
  end.

(** The options of a dial, completed with those of the dialer.

    [common/dialer/default.go:267-281] (DefaultDialer).DialParallelInterface (options) *)
Definition complete (d : DefaultDialer) (o : DialOptions) : DialOptions :=
  mkDialOptions match do_strategy o with None => dd_networkStrategy d | s => s end
    (if nonempty (do_interfaceType o) then do_interfaceType o else dd_networkType d)
    (if nonempty (do_fallbackInterfaceType o) then do_fallbackInterfaceType o else dd_fallbackNetworkType d)
    (if Z.eqb (do_fallbackDelay o) 0 then dd_networkFallbackDelay d else do_fallbackDelay o).

(** The last fallback is not long ago. *)
Definition fast_fallback (now : Z) (d : DefaultDialer) : bool :=
  match dd_networkLastFallback d with Some t => Z.ltb (now - t) TCPTimeout | None => false end.

(** A race over the interfaces that are selected.

    [common/dialer/default_parallel_interface.go:17-24] (DefaultDialer).dialParallelInterface (interfaces) *)
Definition dial_interfaces (fast : bool) (network : string) (address : Socksaddr) (strategy : NetworkStrategy) (o : DialOptions) (w : W)
    : res (Conn * bool) * W :=
  let '(ps, fs) := selectInterfaces (NetworkInterfaces w) (DefaultInterface w) strategy (do_interfaceType o) (do_fallbackInterfaceType o) in
  if Nat.eqb (length ps + length fs) 0 then (Err (E_New [AStr "no available network interface"]), w)
  else race_dial fast (String.eqb (NetworkName network) "tcp") network address ps fs
         (if Z.eqb (do_fallbackDelay o) 0 then DefaultFallbackDelay else do_fallbackDelay o) w.

(** [now] is the time at the beginning, [later] that at the end of the race.

    [common/dialer/default.go:266-312] (DefaultDialer).DialParallelInterface *)
Definition DialParallelInterface (now later : Z) (d : DefaultDialer) (network : string) (address : Socksaddr) (o : DialOptions) (w : W)
    : res Conn * DefaultDialer * W :=
  let o := complete d o in
  match do_strategy o with
  | None => let '(r, w) := dial_plain network address w in (r, d, w)
  | Some strategy =>
      let fast := fast_fallback now d in
      match dial_interfaces fast network address strategy o w with
      | (Ok (conn, isPrimary), w) =>
          let d := if negb fast && negb isPrimary then d <| dd_networkLastFallback := Some later |> else d in
          let '(r, w) := trackConn (Ok conn, w) in (r, d, w)
      | (Err err, w) =>
          if dd_defaultNetworkStrategy d && errors_Is err syscall_EPERM
          then let d := d <| dd_networkStrategy := None |> in
               let '(r, w) := dial_plain network address w in (r, d, w)
          else (Err err, d, w)
      | (Panic p, w) => (Panic p, d, w)
      end
  end.

(** The options that are those of the dialer. *)
Definition no_dial_options (strategy : option NetworkStrategy) : DialOptions := mkDialOptions strategy [] [] 0.

(** [common/dialer/default.go:239-264] (DefaultDialer).DialContext *)
Definition DialContext (now later : Z) (d : DefaultDialer) (network : string) (address : Socksaddr) (w : W) : res Conn * DefaultDialer * W :=
  match bad_address address with
  | Some err => (Err err, d, w)
  | None =>
      match dd_networkStrategy d with
      | None => let '(r, w) := dial_plain network address w in (r, d, w)
      | Some strategy =>
          DialParallelInterface now later d network address
            (mkDialOptions (Some strategy) (dd_networkType d) (dd_fallbackNetworkType d) (dd_networkFallbackDelay d)) w
      end
  end.

(** The network of a packet socket: IPv4 only for an IPv4 destination that is specified. *)
Definition listen_network (destination : Socksaddr) (unspecified : bool) : string :=
  if Socksaddr_IsIPv4 destination && negb unspecified then "udp4" else "udp".

(** [true]: bound to the IPv6 address.

    [common/dialer/default.go:316-324] (DefaultDialer).ListenPacket (sockets) *)
Definition listen_plain (destination : Socksaddr) (unspecified : bool) (w : W) : res PConn * W :=
  trackPacketConn
    (if Socksaddr_IsIPv6 destination then socket_listen "udp" true w
     else socket_listen (listen_network destination unspecified) false w).

(** [common/dialer/default_parallel_interface.go:153-183] (DefaultDialer).listenSerialInterfacePacket *)
Definition listenSerialInterfacePacket (network : string) (strategy : NetworkStrategy) (o : DialOptions) (w : W) : res PConn * W :=
  let '(ps, fs) := selectInterfaces (NetworkInterfaces w) (DefaultInterface w) strategy (do_interfaceType o) (do_fallbackInterfaceType o) in
  match ps ++ fs with
  | [] => (Err (E_New [AStr "no available network interface"]), w)
  | iif :: l =>
      first_ok (λ iif w, let '(r, w) := interface_listen iif network w in
        (wrap_err [AStr "listen "; AStr (nif_Name iif); AStr " ("; AInt (nif_Index iif); AStr ")"] r, w)) iif l [] w
  end.

(** [common/dialer/default.go:338-369] (DefaultDialer).ListenSerialInterfacePacket *)
Definition ListenSerialInterfacePacket (d : DefaultDialer) (destination : Socksaddr) (unspecified : bool) (o : DialOptions) (w : W)
    : res PConn * DefaultDialer * W :=
  let o := complete d o in
  match do_strategy o with
  | None => let '(r, w) := listen_plain destination unspecified w in (r, d, w)
  | Some strategy =>
      match listenSerialInterfacePacket (listen_network destination unspecified) strategy o w with
      | (Ok conn, w) => let '(r, w) := trackPacketConn (Ok conn, w) in (r, d, w)
      | (Err err, w) =>
          if dd_defaultNetworkStrategy d && errors_Is err syscall_EPERM
          then let d := d <| dd_networkStrategy := None |> in
               let '(r, w) := listen_plain destination unspecified w in (r, d, w)
          else (Err err, d, w)
      | (Panic p, w) => (Panic p, d, w)
      end
  end.

(** [common/dialer/default.go:314-328] (DefaultDialer).ListenPacket *)
Definition ListenPacket (d : DefaultDialer) (destination : Socksaddr) (unspecified : bool) (w : W) : res PConn * DefaultDialer * W :=
  match dd_networkStrategy d with
  | None => let '(r, w) := listen_plain destination unspecified w in (r, d, w)
  | Some strategy =>
      ListenSerialInterfacePacket d destination unspecified
        (mkDialOptions (Some strategy) (dd_networkType d) (dd_fallbackNetworkType d) (dd_networkFallbackDelay d)) w
  end.

(** The dialer for an ICMP destination: the wrong one of the two, which have the same controls.

    [common/dialer/default.go:330-336] (DefaultDialer).DialerForICMPDestination *)
Definition DialerForICMPDestination (destination : Addr) : SocketDialer :=
  if negb (Addr_Is6 destination) then dialer6 else dialer4.

(** A dial either leaves the dialer as it was, or notes the fallback that was used, or gives up the
    strategy it had by default, because an interface may not be bound. *)
Lemma DialParallelInterface_dialer now later d network address o w r d' w' :
  DialParallelInterface now later d network address o w = (r, d', w') →
  d' = d ∨ d' = d <| dd_networkLastFallback := Some later |> ∧ fast_fallback now d = false ∨
  d' = d <| dd_networkStrategy := None |> ∧ dd_defaultNetworkStrategy d = true ∧ (r, w') = (let '(r, w) := dial_plain network address
    (match do_strategy (complete d o) with
     | Some strategy => (dial_interfaces (fast_fallback now d) network address strategy (complete d o) w).2
     | None => w end) in (r, w)).
Proof.
  unfold DialParallelInterface. cbv zeta. destruct (do_strategy (complete d o)) as [strategy|] eqn:Hs.
  - destruct (dial_interfaces _ network address strategy _ w) as [[[conn isPrimary]|err|p] w1] eqn:Hd.
    + destruct (trackConn (Ok conn, w1)) as [r1 w2]. destruct (negb (fast_fallback now d) && negb isPrimary) eqn:E.
      * intros [= <- <- <-]. right; left. split; [done|]. apply andb_true_iff in E as [E _]. by apply negb_true_iff.
      * intros [= <- <- <-]. by left.
    + destruct (dd_defaultNetworkStrategy d && errors_Is err syscall_EPERM) eqn:E.
      * cbn [snd]. destruct (dial_plain network address w1) as [r1 w2]. intros [= <- <- <-]. right; right.
        apply andb_true_iff in E as [E _]. done.
      * intros [= <- <- <-]. by left.
    + intros [= <- <- <-]. by left.
  - destruct (dial_plain network address w) as [r1 w1]. intros [= <- <- <-]. by left.
Qed.

(** Once the strategy is given up, a dial without one of its own is a plain one. *)
Lemma no_strategy_plain now later d network address o w : dd_networkStrategy d = None → do_strategy o = None →
  DialParallelInterface now later d network address o w = (let '(r, w) := dial_plain network address w in (r, d, w)) ∧
  DialContext now later d network address w = (let '(r, w) := dial_plain network address w in (r, d, w)).
Proof.
  intros Hd Ho. unfold DialParallelInterface, DialContext, complete. cbn. rewrite Ho, Hd. split; [done|].
  unfold dial_plain. destruct (bad_address address); done.
Qed.

End Default.

(** ** What the default dialer is made of *)

(** [option/outbound.go:67-93] DialerOptions *)
Record DialerOptions : Type := mkDialerOptions {
  op_Detour : string;
  op_BindInterface : string;
  op_Inet4BindAddress : option Addr;
  op_Inet6BindAddress : option Addr;
  op_BindAddressNoPort : bool;
  op_ProtectPath : string;
  op_RoutingMark : Z;
  op_ReuseAddr : bool;
  op_NetNs : string;
  op_ConnectTimeout : Z;
  op_TCPFastOpen : bool;
  op_TCPMultiPath : bool;
  op_DisableTCPKeepAlive : bool;
  op_TCPKeepAlive : Z;
  op_TCPKeepAliveInterval : Z;
  op_UDPFragment : option bool;
  op_UDPFragmentDefault : bool;
  op_NetworkStrategy : option NetworkStrategy;
  op_NetworkType : list InterfaceType;
  op_FallbackNetworkType : option (list InterfaceType);
  op_FallbackDelay : Z;
  op_DomainStrategy : DomainStrategy
}.
#[global] Instance DialerOptions_settable : Settable DialerOptions :=
  {| mkT r := mkDialerOptions (op_Detour r) (op_BindInterface r) (op_Inet4BindAddress r) (op_Inet6BindAddress r)
       (op_BindAddressNoPort r) (op_ProtectPath r) (op_RoutingMark r) (op_ReuseAddr r) (op_NetNs r) (op_ConnectTimeout r) (op_TCPFastOpen r)
       (op_TCPMultiPath r) (op_DisableTCPKeepAlive r) (op_TCPKeepAlive r) (op_TCPKeepAliveInterval r) (op_UDPFragment r)
       (op_UDPFragmentDefault r) (op_NetworkStrategy r) (op_NetworkType r) (op_FallbackNetworkType r) (op_FallbackDelay r) (op_DomainStrategy r) |}.

Definition no_options : DialerOptions :=
  mkDialerOptions "" "" None None false "" 0 false "" 0 false false false 0 0 None false None [] None 0 DomainStrategyAsIS.

(** Of the network manager's options, what a dialer takes; [None] of the default strategy is [nil].

    [adapter/network.go:34-43] NetworkOptions *)
Record NetworkOptions : Type := mkNetworkOptions {
  no_BindInterface : string;
  no_RoutingMark : Z;
  no_NetworkStrategy : option NetworkStrategy;
  no_NetworkType : list InterfaceType;
  no_FallbackNetworkType : list InterfaceType;
  no_FallbackDelay : Z
}.

(** What is done to a socket before it is used, in order. *)
Inductive Control : Type :=
| BindToInterface (name : string)
| SetMark (mark : Z) (isDefault : bool)
| Protect
| AutoDetectInterface
| AutoRedirectOutputMark
| ReuseAddr
| ProtectPath (path : string)
| BindAddressNoPort
| DisableUDPFragment.
#[global] Instance Control_eq_dec : EqDecision Control.
Proof. solve_decision. Defined.

(** The sockets of a dialer.  [None] as [s_KeepAlive] is a [KeepAliveConfig] that is not enabled. *)
Record Sockets : Type := mkSockets {
  s_dialer_Control : list Control;
  s_listener_Control : list Control;
  s_Timeout : Z;
  s_KeepAlive : option (Z * Z);
  s_LocalAddr4 : option Addr;
  s_LocalAddr6 : option Addr;
  s_multipath4 : bool;
  s_multipath6 : bool;
  s_fastOpen : bool
}.

Definition seconds (n : Z) : Z := n * 10 ^ 9.

(** The network manager: its options, and whether it detects the interface. *)
Record NetworkManagerI : Type := mkNetworkManagerI { nm_DefaultOptions : NetworkOptions; nm_AutoDetectInterface : bool }.

(** The strategy of the dialer: of the options or, when they have none, of the manager. *)
Record Strategy : Type := mkStrategy {
  st_strategy : option NetworkStrategy;
  st_default : bool;
  st_type : list InterfaceType;
  st_fallbackType : list InterfaceType;
  st_fallbackDelay : Z
}.

(** [common/dialer/default.go:99-114] NewDefault (strategy) *)
Definition strategy_of (options : DialerOptions) (defaultOptions : NetworkOptions) : Strategy :=
  let fallbackType := default [] (op_FallbackNetworkType options) in
  let '(strategy, type, fallbackType) :=
    match op_NetworkStrategy options with
    | None => if negb (nonempty (op_NetworkType options)) && negb (nonempty fallbackType)
              then (no_NetworkStrategy defaultOptions, no_NetworkType defaultOptions, no_FallbackNetworkType defaultOptions)
              else (None, op_NetworkType options, fallbackType)
    | Some s => (Some s, op_NetworkType options, fallbackType)
    end in
  let delay := if Z.eqb (op_FallbackDelay options) 0 && negb (Z.eqb (no_FallbackDelay defaultOptions) 0)
               then no_FallbackDelay defaultOptions else op_FallbackDelay options in
  match strategy with
  | None => mkStrategy (Some NetworkStrategyDefault) true type fallbackType delay
  | Some _ => mkStrategy strategy false type fallbackType delay
  end.

Section NewDefault.
(** The platform: Linux, macOS, Windows; and whether there is a platform interface. *)
Context (IsLinux IsDarwin IsWindows platformInterface : bool).

Definition disableDefaultBind (options : DialerOptions) : bool :=
  negb (String.eqb (op_BindInterface options) "") || negb (is_nil (op_Inet4BindAddress options)) || negb (is_nil (op_Inet6BindAddress options)).

(** Options that do not go together, or not on this system.

    [common/dialer/default.go:69-89] NewDefault (conflicts) *)
Definition conflict (options : DialerOptions) : option error :=
  if negb (String.eqb (op_BindInterface options) "") && negb (IsLinux || IsDarwin || IsWindows)
  then Some (E_New [AStr "`bind_interface` is only supported on Linux, macOS and Windows"])
  else if Z.ltb 0 (op_RoutingMark options) && negb IsLinux
  then Some (E_New [AStr "`routing_mark` is only supported on Linux"])
  else if (disableDefaultBind options || op_TCPFastOpen options) &&
    (negb (is_nil (op_NetworkStrategy options)) ||
     nonempty (op_NetworkType options) && is_nil (op_FallbackNetworkType options) && Z.eqb (op_FallbackDelay options) 0)
  then Some (E_New [AStr "`network_strategy` is conflict with `bind_interface`, `inet4_bind_address`, `inet6_bind_address` and `tcp_fast_open`"])
  else None.

(** How the sockets are bound: by the options, by the manager's interface, or as the manager detects.

    [common/dialer/default.go:91-132] NewDefault (bind) *)
Definition bind_of (options : DialerOptions) (networkManager : option NetworkManagerI) : list Control * Strategy :=
  match networkManager with
  | None => ([], mkStrategy None false [] [] 0)
  | Some nm =>
      let defaultOptions := nm_DefaultOptions nm in
      let '(bind, strategy) :=
        if negb (String.eqb (no_BindInterface defaultOptions) "") && negb (disableDefaultBind options)
        then ([BindToInterface (no_BindInterface defaultOptions)], mkStrategy None false [] [] 0)
        else if nm_AutoDetectInterface nm && negb (disableDefaultBind options)
        then if platformInterface then ([Protect], strategy_of options defaultOptions)
             else ([AutoDetectInterface], mkStrategy None false [] [] 0)
        else ([], mkStrategy None false [] [] 0) in
      let mark := if Z.eqb (op_RoutingMark options) 0 && negb (Z.eqb (no_RoutingMark defaultOptions) 0)
                  then [SetMark (no_RoutingMark defaultOptions) true] else [] in
      (bind ++ mark ++ [AutoRedirectOutputMark], strategy)
  end.

(** [common/dialer/default.go:49-221] NewDefault *)
Definition NewDefault (options : DialerOptions) (networkManager : option NetworkManagerI) : res (DefaultDialer * Sockets) :=
  match conflict options with
  | Some err => Err err
  | None =>
      if op_BindAddressNoPort options && negb IsLinux then Err (E_New [AStr "`bind_address_no_port` is only supported on Linux"]) else
      let bind := if String.eqb (op_BindInterface options) "" then [] else [BindToInterface (op_BindInterface options)] in
      let mark := if Z.ltb 0 (op_RoutingMark options) then [SetMark (op_RoutingMark options) false] else [] in
      let '(auto, strategy) := bind_of options networkManager in
      let protect := if String.eqb (op_ProtectPath options) "" then [] else [ProtectPath (op_ProtectPath options)] in
      let udpFragment := default (op_UDPFragmentDefault options) (op_UDPFragment options) in
      let fragment := if udpFragment then [] else [DisableUDPFragment] in
      let keepAlive :=
        if op_DisableTCPKeepAlive options then None
        else Some (if Z.eqb (op_TCPKeepAlive options) 0 then seconds 300 else op_TCPKeepAlive options,
                   if Z.eqb (op_TCPKeepAliveInterval options) 0 then seconds 75 else op_TCPKeepAliveInterval options) in
      Ok (mkDefaultDialer (st_strategy strategy) (st_default strategy) (st_type strategy) (st_fallbackType strategy) (st_fallbackDelay strategy) None,
          mkSockets
            (bind ++ mark ++ auto ++ protect ++ (if op_BindAddressNoPort options then [BindAddressNoPort] else []) ++ fragment)
            (bind ++ mark ++ auto ++ (if op_ReuseAddr options then [ReuseAddr] else []) ++ protect ++ fragment)
            (if Z.eqb (op_ConnectTimeout options) 0 then seconds 5 else op_ConnectTimeout options)
            keepAlive (op_Inet4BindAddress options) (op_Inet6BindAddress options)
            (op_TCPMultiPath options) false (op_TCPFastOpen options))
  end.

(** What the sockets that dial and those that listen do alike. *)
Definition shared_control (c : Control) : bool := match c with ReuseAddr | BindAddressNoPort => false | _ => true end.

Definition binds (c : Control) : bool := match c with BindToInterface _ | Protect | AutoDetectInterface => true | _ => false end.
Definition marks (c : Control) : bool := match c with SetMark _ _ => true | _ => false end.
Definition count (f : Control → bool) (l : list Control) : nat := length (List.filter f l).

Lemma count_app f l1 l2 : count f (l1 ++ l2) = (count f l1 + count f l2)%nat.
Proof. unfold count. by rewrite List.filter_app, length_app. Qed.

Lemma bind_of_shape options nm auto strategy : bind_of options nm = (auto, strategy) → 0 ≤ op_RoutingMark options →
  (count binds auto ≤ if disableDefaultBind options then 0 else 1)%nat ∧
  (count marks auto ≤ if Z.eqb (op_RoutingMark options) 0 then 1 else 0)%nat ∧
  (st_strategy strategy ≠ None → disableDefaultBind options = false ∧ platformInterface = true ∧ Protect ∈ auto) ∧
  List.filter shared_control auto = auto.
Proof.
  intros Hb Hm. unfold bind_of in Hb. destruct nm as [nm|]; [|injection Hb as <- <-; cbn; split_and!; [lia|lia|done|done]].
  set (m := if Z.eqb (op_RoutingMark options) 0 && _ then _ else _) in Hb.
  assert (count binds m = 0%nat ∧ (count marks m ≤ if Z.eqb (op_RoutingMark options) 0 then 1 else 0)%nat ∧ List.filter shared_control m = m) as (Hm1 & Hm2 & Hm3).
  { unfold m. destruct (Z.eqb (op_RoutingMark options) 0); cbn [andb]; [|split_and!; [done|cbv; lia|done]].
    destruct (Z.eqb (no_RoutingMark (nm_DefaultOptions nm)) 0); (split_and!; [done|cbv; lia|done]). }
  assert (∀ b, count binds (b ++ m ++ [AutoRedirectOutputMark]) = count binds b ∧
    (count marks (b ++ m ++ [AutoRedirectOutputMark]) ≤ count marks b + if Z.eqb (op_RoutingMark options) 0 then 1 else 0)%nat ∧
    List.filter shared_control (b ++ m ++ [AutoRedirectOutputMark]) = List.filter shared_control b ++ m ++ [AutoRedirectOutputMark]) as Hb'.
  { intros b. rewrite !count_app, !List.filter_app, Hm1, Hm3.
    change (count binds [AutoRedirectOutputMark]) with 0%nat. change (count marks [AutoRedirectOutputMark]) with 0%nat. split_and!; [lia|lia|done]. }
  clearbody m. destruct (disableDefaultBind options); rewrite ?andb_false_r, ?andb_true_r in Hb.
  { apply pair_equal_spec in Hb as [<- <-]. destruct (Hb' []) as (H1 & H2 & H3). rewrite H1. split_and!; [cbv; lia|exact H2|done|exact H3]. }
  destruct (negb (String.eqb (no_BindInterface (nm_DefaultOptions nm)) "")); [|destruct (nm_AutoDetectInterface nm); [destruct platformInterface|]];
    apply pair_equal_spec in Hb as [<- <-].
  - destruct (Hb' [BindToInterface (no_BindInterface (nm_DefaultOptions nm))]) as (H1 & H2 & H3). rewrite H1. split_and!; [cbv; lia|exact H2|done|exact H3].
  - destruct (Hb' [Protect]) as (H1 & H2 & H3). rewrite H1. split_and!; [cbv; lia|exact H2| |exact H3]. intros _. split_and!; [done|done|left].
  - destruct (Hb' [AutoDetectInterface]) as (H1 & H2 & H3). rewrite H1. split_and!; [cbv; lia|exact H2|done|exact H3].
  - destruct (Hb' []) as (H1 & H2 & H3). rewrite H1. split_and!; [cbv; lia|exact H2|done|exact H3].
Qed.

(** A dialer that is built: the sockets that dial and those that listen are bound, marked and protected
    alike; at most one of the options, the interface of the manager and the detection binds them; the
    mark of the options goes before that of the manager; and a strategy means that nothing else binds. *)
Lemma NewDefault_sockets options nm d s : NewDefault options nm = Ok (d, s) → 0 ≤ op_RoutingMark options →
  List.filter shared_control (s_dialer_Control s) = List.filter shared_control (s_listener_Control s) ∧
  (count binds (s_dialer_Control s) ≤ 1)%nat ∧ (count marks (s_dialer_Control s) ≤ 1)%nat ∧
  (0 < op_RoutingMark options → SetMark (op_RoutingMark options) false ∈ s_dialer_Control s) ∧
  (dd_networkStrategy d ≠ None → disableDefaultBind options = false ∧ platformInterface = true ∧ Protect ∈ s_dialer_Control s).
Proof.
  intros Hn Hm. unfold NewDefault in Hn. destruct (conflict options); [done|]. destruct (op_BindAddressNoPort options && negb IsLinux); [done|].
  destruct (bind_of options nm) as [auto strategy] eqn:Hb. injection Hn as <- <-. cbn [s_dialer_Control s_listener_Control dd_networkStrategy].
  destruct (bind_of_shape _ _ _ _ Hb Hm) as (Hb1 & Hb2 & Hb3 & Hb4). clear Hb.
  rewrite !count_app, !List.filter_app, !elem_of_app.
  assert ((count binds (if String.eqb (op_BindInterface options) "" then [] else [BindToInterface (op_BindInterface options)]) + count binds auto ≤ 1)%nat ∧
    count marks (if String.eqb (op_BindInterface options) "" then [] else [BindToInterface (op_BindInterface options)]) = 0%nat) as [Hbind Hbind'].
  { unfold disableDefaultBind in Hb1. destruct (String.eqb (op_BindInterface options) ""); (split; [|done]).
    - change (count binds []) with 0%nat. destruct (_ || _); lia.
    - cbn [negb orb] in Hb1. match goal with |- context [count binds [?c]] => change (count binds [c]) with 1%nat end. lia. }
  assert ((count marks (if Z.ltb 0 (op_RoutingMark options) then [SetMark (op_RoutingMark options) false] else []) + count marks auto ≤ 1)%nat ∧
    count binds (if Z.ltb 0 (op_RoutingMark options) then [SetMark (op_RoutingMark options) false] else []) = 0%nat) as [Hmark Hmark'].
  { destruct (Z.ltb_spec 0 (op_RoutingMark options)) as [Hlt|Hge]; (split; [|done]).
    - change (count marks [SetMark (op_RoutingMark options) false]) with 1%nat. destruct (Z.eqb_spec (op_RoutingMark options) 0); lia.
    - change (count marks []) with 0%nat. destruct (Z.eqb_spec (op_RoutingMark options) 0); lia. }
  assert (∀ f, f = binds ∨ f = marks → (count f (if String.eqb (op_ProtectPath options) "" then [] else [ProtectPath (op_ProtectPath options)]) +
    (count f (if op_BindAddressNoPort options then [BindAddressNoPort] else []) +
     count f (if default (op_UDPFragmentDefault options) (op_UDPFragment options) then [] else [DisableUDPFragment])) = 0)%nat) as Hrest.
  { intros f [-> | ->]; destruct (String.eqb (op_ProtectPath options) ""), (op_BindAddressNoPort options), (default _ _); done. }
  pose proof (Hrest binds (or_introl eq_refl)). pose proof (Hrest marks (or_intror eq_refl)). split_and!.
  - by destruct (op_BindAddressNoPort options), (op_ReuseAddr options).
  - lia.
  - lia.
  - intros Hlt. right. left. rewrite (proj2 (Z.ltb_lt _ _) Hlt). left.
  - intros Hst. destruct (Hb3 Hst) as (? & ? & ?). split_and!; [done|done|]. right; right; by left.
Qed.

End NewDefault.

(** Types for the strategy do not go with an interface of the options, but the check lets them pass when
    there are types for the fallback too; they are not used. *)
Example network_type_ignored :
  let options := no_options <| op_BindInterface := "eth0" |> <| op_NetworkType := [InterfaceTypeWIFI] |> in
  conflict true false false options ≠ None ∧
  (λ r, dd_networkType r.1) <$> NewDefault true false false true (options <| op_FallbackNetworkType := Some [InterfaceTypeCellular] |>)
    (Some (mkNetworkManagerI (mkNetworkOptions "" 0 None [] [] 0) true)) = Ok [].
Proof. by vm_compute. Qed.

(** Multipath TCP is used for IPv4 only, and with keep alive switched off the configuration is the zero
    value, with which [net.Dialer] has its own keep alive. *)
Lemma NewDefault_multipath IsLinux IsDarwin IsWindows platform options nm d s : NewDefault IsLinux IsDarwin IsWindows platform options nm = Ok (d, s) →
  s_multipath6 s = false ∧ s_multipath4 s = op_TCPMultiPath options ∧ (op_DisableTCPKeepAlive options = true ↔ s_KeepAlive s = None).
Proof.
  unfold NewDefault. destruct (conflict _ _ _ options); [done|]. destruct (_ && _); [done|]. destruct (bind_of _ options nm) as [auto strategy].
  intros [= <- <-]. cbn. split_and!; [done|done|by destruct (op_DisableTCPKeepAlive options)].
Qed.

(** ** Dialing by name *)

Section Resolve.
Context {L : ExtLib} {W Conn PConn : Type}.
(** The transports of the DNS, the DNS router, and the dials of the library for a list of addresses. *)
Context (Transport : string → W → option DNSTransport) (Lookup : string → DNSQueryOptions → W → res (list Addr) * W)
  (N_DialParallel : Dialer W Conn PConn → string → Socksaddr → list Addr → bool → Z → W → res Conn * W)
  (N_DialSerial : Dialer W Conn PConn → string → Socksaddr → list Addr → W → res Conn * W)
  (N_ListenSerial : Dialer W Conn PConn → Socksaddr → list Addr → W → res (PConn * Addr) * W)
  (NATPacketConn : PConn → Socksaddr → Socksaddr → PConn)
  (network_race : Dialer W Conn PConn → string → Socksaddr → list Addr → list Addr → DialOptions → W → res Conn * W).

(** [rd_init] is [Some] once [initServer] has run, with its error.

    [common/dialer/resolve.go:34-44] resolveDialer *)
Record resolveDialer : Type := mkResolveDialer {
  rd_dialer : Dialer W Conn PConn;
  rd_parallel : bool;
  rd_server : string;
  rd_init : option (option error);
  rd_queryOptions : DNSQueryOptions;
  rd_fallbackDelay : Z
}.

(** [common/dialer/resolve.go:82-92] (resolveDialer).initServer *)
Definition initServer (d : resolveDialer) (w : W) : option error * DNSQueryOptions :=
  let o := rd_queryOptions d in
  if String.eqb (rd_server d) "" then (None, o) else
  match Transport (rd_server d) w with
  | None => (Some (E_New [AStr ("domain resolver not found: " +:+ rd_server d)]), o)
  | Some transport =>
      (None, mkDNSQueryOptions (Some transport) (qo_Strategy o) (qo_LookupStrategy o) (qo_DisableCache o) (qo_RewriteTTL o) (qo_ClientSubnet o))
  end.

(** [common/dialer/resolve.go:77-80] (resolveDialer).initialize *)
Definition initialize (d : resolveDialer) (w : W) : option error * resolveDialer :=
  match rd_init d with
  | Some err => (err, d)
  | None =>
      let '(err, o) := initServer d w in
      (err, mkResolveDialer (rd_dialer d) (rd_parallel d) (rd_server d) (Some err) o (rd_fallbackDelay d))
  end.

(** What all four operations do first: initialise, pass on an address that is no name, look the name up. *)
Definition resolved {A} (d : resolveDialer) (destination : Socksaddr) (direct : Dialer W Conn PConn → W → res A * W)
    (dial : resolveDialer → list Addr → W → res A * W) (w : W) : res A * resolveDialer * W :=
  match initialize d w with
  | (Some err, d) => (Err err, d, w)
  | (None, d) =>
      if negb (Socksaddr_IsFqdn destination) then let '(r, w) := direct (rd_dialer d) w in (r, d, w) else
      match Lookup (sa_Fqdn destination) (rd_queryOptions d) w with
      | (Err err, w) => (Err err, d, w)
      | (Panic p, w) => (Panic p, d, w)
      | (Ok addresses, w) => let '(r, w) := dial d addresses w in (r, d, w)
      end
  end.

Definition preferIPv6 (d : resolveDialer) : bool := bool_decide (qo_Strategy (rd_queryOptions d) = DomainStrategyPreferIPv6).

(** [common/dialer/resolve.go:94-112] (resolveDialer).DialContext *)
Definition resolve_DialContext (d : resolveDialer) (network : string) (destination : Socksaddr) : W → res Conn * resolveDialer * W :=
  resolved d destination (λ dialer, d_DialContext dialer network destination)
    (λ d addresses, if rd_parallel d
                    then N_DialParallel (rd_dialer d) network destination addresses (preferIPv6 d) (rd_fallbackDelay d)
                    else N_DialSerial (rd_dialer d) network destination addresses).

(** The packets go to the address that was listened for, and come from the name. *)
Definition with_nat (destination : Socksaddr) (r : res (PConn * Addr) * W) : res PConn * W :=
  ((λ p, NATPacketConn p.1 (SocksaddrFrom p.2 (sa_Port destination)) destination) <$> r.1, r.2).

(** [common/dialer/resolve.go:114-132] (resolveDialer).ListenPacket *)
Definition resolve_ListenPacket (d : resolveDialer) (destination : Socksaddr) : W → res PConn * resolveDialer * W :=
  resolved d destination (λ dialer, d_ListenPacket dialer destination)
    (λ d addresses w, with_nat destination (N_ListenSerial (rd_dialer d) destination addresses w)).

Definition delay_or (o : DialOptions) (d : resolveDialer) : DialOptions :=
  mkDialOptions (do_strategy o) (do_interfaceType o) (do_fallbackInterfaceType o)
    (if Z.eqb (do_fallbackDelay o) 0 then rd_fallbackDelay d else do_fallbackDelay o).

(** [DialParallelNetwork]: the plan and, if that is what it is, the race.

    [common/dialer/default_parallel_network.go:47-130] DialParallelNetwork *)
Definition DialParallelNetwork (dialer : Dialer W Conn PConn) (network : string) (destination : Socksaddr) (addresses : list Addr) (preferIPv6 : bool)
    (o : DialOptions) (w : W) : res Conn * W :=
  match parallel_plan destination addresses preferIPv6 with
  | Err err => (Err err, w)
  | Panic p => (Panic p, w)
  | Ok (inl l) => DialSerialNetwork dialer network destination addresses o w
  | Ok (inr (primaries, fallbacks)) => network_race dialer network destination primaries fallbacks o w
  end.

(** [common/dialer/resolve.go:142-163] (resolveParallelNetworkDialer).DialParallelInterface *)
Definition resolve_DialParallelInterface (d : resolveDialer) (network : string) (destination : Socksaddr) (o : DialOptions)
    : W → res Conn * resolveDialer * W :=
  resolved d destination (λ dialer, d_DialContext dialer network destination)
    (λ d addresses, if rd_parallel d
                    then DialParallelNetwork (rd_dialer d) network destination addresses (preferIPv6 d) (delay_or o d)
                    else DialSerialNetwork (rd_dialer d) network destination addresses (delay_or o d)).

(** [common/dialer/resolve.go:165-186] (resolveParallelNetworkDialer).ListenSerialInterfacePacket *)
Definition resolve_ListenSerialInterfacePacket (d : resolveDialer) (destination : Socksaddr) (o : DialOptions)
    : W → res PConn * resolveDialer * W :=
  resolved d destination (λ dialer, d_ListenPacket dialer destination)
    (λ d addresses w, with_nat destination (ListenSerialNetworkPacket (rd_dialer d) destination addresses (delay_or o d) w)).

(** A resolver that was not found at the first dial is not found at any later one, although the transport
    may exist by then. *)
Lemma resolver_error_sticks d network destination w r d' w' err : resolve_DialContext d network destination w = (r, d', w') →
  (initialize d w).1 = Some err → r = Err err ∧
  ∀ network' destination' w1, resolve_DialContext d' network' destination' w1 = (Err err, d', w1).
Proof.
  unfold resolve_DialContext, resolved. intros Hd Hi. destruct (initialize d w) as [e d1] eqn:E. cbn in Hi. subst e. injection Hd as <- <- <-.
  split; [done|]. intros network' destination' w1.
  assert (initialize d1 w1 = (Some err, d1)) as ->; [|done]. unfold initialize in E |- *. destruct (rd_init d) as [e|] eqn:Hr.
  - injection E as -> <-. by rewrite Hr.
  - destruct (initServer d w) as [e o]. injection E as -> <-. done.
Qed.

(** An address that is no name is dialed without the options that come with the dial, the network strategy
    of a rule among them. *)
Lemma address_ignores_options d network destination o w : Socksaddr_IsFqdn destination = false →
  resolve_DialParallelInterface d network destination o w = resolve_DialContext d network destination w.
Proof.
  intros Hf. unfold resolve_DialParallelInterface, resolve_DialContext, resolved. rewrite Hf. by destruct (initialize d w) as [[err|] d'].
Qed.

(** *** Through another outbound (detour.go) *)

(** Of an outbound, what a detour asks: its dialer, and whether it is a direct one with nothing set. *)
Record DetourTo : Type := mkDetourTo { dt_dialer : Dialer W Conn PConn; dt_IsEmpty : option bool }.

(** [common/dialer/detour.go:19-26] DetourDialer *)
Record DetourDialer : Type := mkDetourDialer {
  de_detour : string;
  de_legacyDNSDialer : bool;
  de_init : option (res (Dialer W Conn PConn))
}.

(** [common/dialer/detour.go:49-64] (DetourDialer).init *)
Definition detour_init (outbounds : string → option DetourTo) (d : DetourDialer) : res (Dialer W Conn PConn) :=
  match outbounds (de_detour d) with
  | None => Err (E_New [AStr "outbound detour not found: "; AStr (de_detour d)])
  | Some outbound =>
      match dt_IsEmpty outbound with
      | Some true => if negb (de_legacyDNSDialer d) then Err (E_New [AStr "detour to an empty direct outbound makes no sense"]) else Ok (dt_dialer outbound)
      | _ => Ok (dt_dialer outbound)
      end
  end.

(** [common/dialer/detour.go:44-47] (DetourDialer).Dialer *)
Definition detour_Dialer (outbounds : string → option DetourTo) (d : DetourDialer) : res (Dialer W Conn PConn) * DetourDialer :=
  match de_init d with
  | Some r => (r, d)
  | None => let r := detour_init outbounds d in (r, mkDetourDialer (de_detour d) (de_legacyDNSDialer d) (Some r))
  end.

(** [common/dialer/detour.go:66-72] (DetourDialer).DialContext *)
Definition detour_DialContext (outbounds : string → option DetourTo) (d : DetourDialer) (network : string) (destination : Socksaddr) (w : W)
    : res Conn * DetourDialer * W :=
  match detour_Dialer outbounds d with
  | (Ok dialer, d) => let '(r, w) := d_DialContext dialer network destination w in (r, d, w)
  | (Err err, d) => (Err err, d, w)
  | (Panic p, d) => (Panic p, d, w)
  end.

(** The outbound of the first dial is the one of all: one that is replaced or removed later is still used. *)
Lemma detour_fixed outbounds outbounds' d r d' : detour_Dialer outbounds d = (r, d') → detour_Dialer outbounds' d' = (r, d').
Proof.
  unfold detour_Dialer. destruct (de_init d) eqn:Hi; intros [= <- <-]; [by rewrite Hi|done].
Qed.

End Resolve.

(** ** Which dialer the options ask for *)

(** [option/outbound.go:95-101] DomainResolveOptions *)
Record DomainResolveOptions `{ExtLib} : Type := mkDomainResolveOptions {
  ro_Server : string;
  ro_Strategy : DomainStrategy;
  ro_DisableCache : bool;
  ro_RewriteTTL : option Z;
  ro_ClientSubnet : option Prefixable
}.

(** [common/dialer/dialer.go:19-28] Options *)
Record Options : Type := mkOptions {
  on_RemoteIsDomain : bool;
  on_DirectResolver : bool;
  on_ResolverOnDetour : bool;
  on_NewDialer : bool;
  on_LegacyDNSDialer : bool
}.

Section New.
Context {L : ExtLib}.
(** The DNS transports: one by its tag, how many there are, and the default. *)
Context (Transport : string → option DNSTransport) (count_transports : nat) (Default : option DNSTransport).

Definition no_query_options : DNSQueryOptions := mkDNSQueryOptions None DomainStrategyAsIS DomainStrategyAsIS false None Prefix_zero.

Definition with_strategy (strategy : DomainStrategy) (o : DNSQueryOptions) : DNSQueryOptions :=
  mkDNSQueryOptions (qo_Transport o) strategy (qo_LookupStrategy o) (qo_DisableCache o) (qo_RewriteTTL o) (qo_ClientSubnet o).
Definition with_transport (t : option DNSTransport) (o : DNSQueryOptions) : DNSQueryOptions :=
  mkDNSQueryOptions t (qo_Strategy o) (qo_LookupStrategy o) (qo_DisableCache o) (qo_RewriteTTL o) (qo_ClientSubnet o).

(** What resolves the names: the server that is looked up again at the first dial, the options of the
    queries, and the delay between the address families. *)
Record Resolver : Type := mkResolver { re_server : string; re_options : DNSQueryOptions; re_fallbackDelay : Z }.

(** [common/dialer/dialer.go:70-96] NewWithOptions (domain resolver) *)
Definition own_resolver (options : Options) (o : DialerOptions) (r : DomainResolveOptions) : res Resolver :=
  transport ← (if on_DirectResolver options then Ok None else
    match Transport (ro_Server r) with
    | None => Err (E_New [AStr ("domain resolver not found: " +:+ ro_Server r)])
    | t => Ok t
    end);
  let strategy := if decide (ro_Strategy r = DomainStrategyAsIS) then op_DomainStrategy o else ro_Strategy r in
  Ok (mkResolver (ro_Server r)
        (mkDNSQueryOptions transport strategy DomainStrategyAsIS (ro_DisableCache r) (ro_RewriteTTL r) (Prefixable_Build (ro_ClientSubnet r) Prefix_zero))
        (op_FallbackDelay o)).

(** Without a resolver of its own: that of the network manager, which is its tag and its options, or the
    only server there is.

    [common/dialer/dialer.go:100-124] NewWithOptions (default resolver) *)
Definition default_resolver (options : Options) (o : DialerOptions) (defaultResolver : string * DNSQueryOptions) : res Resolver :=
  '(queryOptions, delay) ←
    (if negb (String.eqb defaultResolver.1 "") then
       match Transport defaultResolver.1 with
       | None => Err (E_New [AStr ("default domain resolver not found: " +:+ defaultResolver.1)])
       | t => Ok (with_transport t defaultResolver.2, op_FallbackDelay o)
       end
     else if Nat.ltb count_transports 2 then Ok (with_transport Default no_query_options, 0)
     else if on_NewDialer options then Err (E_New [AStr "missing domain resolver for domain server address"])
     else Ok (no_query_options, 0));
  let queryOptions := if decide (op_DomainStrategy o = DomainStrategyAsIS) then queryOptions
                      else with_strategy (op_DomainStrategy o) queryOptions in
  Ok (mkResolver "" queryOptions delay).

Definition has_server (r : option DomainResolveOptions) : option DomainResolveOptions :=
  match r with Some o => if String.eqb (ro_Server o) "" then None else r | None => None end.

(** The dialer underneath, a detour or a default one, and whether names are resolved in front of it: with
    what, and whether the address families race.

    [common/dialer/dialer.go:39-136] NewWithOptions *)
Definition NewWithOptions (outboundManager : bool) (NewDefault : DialerOptions → res (DefaultDialer * Sockets))
    (options : Options) (o : DialerOptions) (domainResolver : option DomainResolveOptions) (defaultResolver : string * DNSQueryOptions)
    : res ((string + DefaultDialer * Sockets) * option (Resolver * bool)) :=
  dialer ← (if negb (String.eqb (op_Detour o) "")
            then (if negb outboundManager then Err (E_New [AStr "missing outbound manager"]) else Ok (inl (op_Detour o)))
            else inr <$> NewDefault o);
  if on_RemoteIsDomain options && (String.eqb (op_Detour o) "" || on_ResolverOnDetour options || negb (is_nil (has_server domainResolver))) then
    resolver ← match has_server domainResolver with
               | Some r => own_resolver options o r
               | None => if on_DirectResolver options then Err (E_New [AStr "missing domain resolver for domain server address"])
                         else default_resolver options o defaultResolver
               end;
    Ok (dialer, Some (resolver, String.eqb (op_Detour o) "" && negb (op_TCPFastOpen o)))
  else Ok (dialer, None).

(** What a dialer that is built resolves with: never a transport that does not exist; its own resolver
    before that of the manager, and that before the only server; and its strategy, if it has one. *)
Lemma NewWithOptions_resolver om nd options o dr def base r parallel : NewWithOptions om nd options o dr def = Ok (base, Some (r, parallel)) →
  (∀ d, has_server dr = Some d → re_server r = ro_Server d ∧ (on_DirectResolver options = true ∨ is_Some (Transport (ro_Server d)))) ∧
  (has_server dr = None → on_DirectResolver options = false ∧ re_server r = ""%string ∧
     (def.1 ≠ ""%string → is_Some (qo_Transport (re_options r)) ∧ qo_Transport (re_options r) = Transport def.1) ∧
     (op_DomainStrategy o ≠ DomainStrategyAsIS → qo_Strategy (re_options r) = op_DomainStrategy o)) ∧
  (parallel = true → op_Detour o = ""%string ∧ op_TCPFastOpen o = false).
Proof.
  unfold NewWithOptions. intros (dialer & _ & Hn)%bind_Ok. destruct (on_RemoteIsDomain options && _); [|done].
  apply bind_Ok in Hn as (resolver & Hr & [= <- <- <-]). split_and!.
  - intros d Hd. rewrite Hd in Hr. apply bind_Ok in Hr as (t & Ht & [= <-]). split; [done|].
    destruct (on_DirectResolver options); [by left|right]. destruct (Transport (ro_Server d)); [by eexists|done].
  - intros Hd. rewrite Hd in Hr. destruct (on_DirectResolver options); [done|]. unfold default_resolver in Hr.
    apply bind_Ok in Hr as ([q delay] & Hq & [= <-]). split_and!; [done|done| |].
    + intros Hne. rewrite (proj2 (String.eqb_neq _ _) Hne) in Hq. cbn [negb] in Hq. destruct (Transport def.1) as [t|]; [|done].
      injection Hq as <- <-. cbn. destruct (decide _); cbn; (split; [by eexists|done]).
    + intros Hne. cbn. by rewrite decide_False.
  - intros [H1%String.eqb_eq H2%negb_true_iff]%andb_true_iff. done.
Qed.

(** The fallback delay of the options is only kept with a resolver in the options or in the manager. *)
Lemma fallback_delay_lost om nd options o base r parallel : count_transports = 1%nat →
  NewWithOptions om nd options o None (""%string, no_query_options) = Ok (base, Some (r, parallel)) → re_fallbackDelay r = 0.
Proof.
  intros Hc. unfold NewWithOptions. intros (dialer & _ & Hn)%bind_Ok. cbn [has_server is_nil] in Hn. destruct (on_RemoteIsDomain options && _); [|done].
  apply bind_Ok in Hn as (resolver & Hr & [= <- <- <-]). destruct (on_DirectResolver options); [done|]. unfold default_resolver in Hr. cbn in Hr.
  rewrite Hc in Hr. cbn in Hr. by injection Hr as <-.
Qed.

End New.

(** ** Dialing at the first write (tfo.go) *)

Module SlowOpen.

(** A write: it has not begun, it found no connection and waits for the lock, it dials with its bytes, or
    it has returned with a number of bytes and an error. *)
Inductive Writer : Type := Starts | Waits | Dials | Returned (n : Z) (err : option error).

(** [conn] once the connection is stored, with whether it has been closed; [wire] is what has been given
    to it, the bytes of the dial first; [lock] is the writer that holds the lock.

    [common/dialer/tfo.go:20-31] slowOpenConn *)
Record State : Type := mkState {
  writers : list (list byte * Writer);
  conn : option bool;
  create : bool;
  done : bool;
  err : option error;
  lock : option nat;
  dials : nat;
  wire : list (list byte)
}.
#[global] Instance State_settable : Settable State :=
  {| mkT s := mkState (writers s) (conn s) (create s) (done s) (err s) (lock s) (dials s) (wire s) |}.

Definition os_ErrClosed : error := E_Ext "file already closed".

Inductive Step : Type :=
| Load (i : nat)
| Lock (i : nat) (choice : bool)
| Dialed (i : nat) (result : option error)
| Close.

Definition set_writer (i : nat) (b : list byte) (w : Writer) (s : State) : State := s <| writers := <[i := (b, w)]> (writers s) |>.

(** [conn.Write(b)]: after a close it fails. *)
Definition conn_write (i : nat) (b : list byte) (closed : bool) (s : State) : State :=
  if closed then set_writer i b (Returned 0 (Some os_ErrClosed)) s
  else set_writer i b (Returned (Z.of_nat (length b)) None) (s <| wire := wire s ++ [b] |>).

(** The steps of [Write]: it looks for the connection; under the lock it asks whether one has been created,
    or this is closed ([choice] when both are so), and dials; and the dial ends.

    [common/dialer/tfo.go:68-94] (slowOpenConn).Write *)
Definition write_step (e : Step) (s : State) : option State :=
  match e with
  | Load i =>
      match writers s !! i with
      | Some (b, Starts) => Some match conn s with Some closed => conn_write i b closed s | None => set_writer i b Waits s end
      | _ => None
      end
  | Lock i choice =>
      match writers s !! i, lock s with
      | Some (b, Waits), None =>
          Some
            (if create s && (negb (done s) || choice) then
               match err s, conn s with
               | Some e, _ => set_writer i b (Returned 0 (Some e)) s
               | None, Some closed => conn_write i b closed s
               | None, None => set_writer i b (Returned 0 None) s
               end
             else if done s then set_writer i b (Returned 0 (Some os_ErrClosed)) s
             else set_writer i b Dials (s <| lock := Some i |>))
      | _, _ => None
      end
  | Dialed i result =>
      match writers s !! i with
      | Some (b, Dials) =>
          let s := s <| lock := None |> <| create := true |> <| dials := S (dials s) |> in
          let s := match result with
                   | Some e => s <| err := Some e |>
                   | None => s <| conn := Some false |> <| wire := wire s ++ [b] |>
                   end in
          Some (set_writer i b (Returned (Z.of_nat (length b)) result) s)
      | _ => None
      end
  | Close => None
  end.

(** The first call does it, the others nothing.

    [common/dialer/tfo.go:96-105] (slowOpenConn).Close *)
Definition close (s : State) : State :=
  if done s then s else s <| done := true |> <| conn := (λ _, true) <$> conn s |>.

Definition step (s : State) (e : Step) : option State :=
  match e with Close => Some (close s) | e => write_step e s end.

Definition run (s : State) (steps : list Step) : option State := foldl (λ s e, s ≫= λ s, step s e) (Some s) steps.

(** [common/dialer/tfo.go:33-50] DialSlowContext *)
Definition start (bs : list (list byte)) : State := mkState ((λ b, (b, Starts)) <$> bs) None false false None None 0 [].

(** The bytes of the writes that have returned without an error. *)
Definition succeeded (w : Writer) : bool := match w with Returned _ None => true | _ => false end.
Definition written (s : State) : list (list byte) := (filter (λ w, succeeded w.2 = true) (writers s)).*1.

Record Inv (s : State) : Prop := {
  iv_lock : ∀ i b, writers s !! i = Some (b, Dials) → lock s = Some i;
  iv_locked : ∀ i, lock s = Some i → ∃ b, writers s !! i = Some (b, Dials);
  iv_dials : dials s = (if create s then 1 else 0)%nat;
  iv_create : create s = true → lock s = None ∧ (is_Some (conn s) ∨ is_Some (err s));
  iv_conn : create s = false → conn s = None ∧ err s = None;
  iv_wire : wire s ≡ₚ written s
}.

(** A writer moves that does not hold the lock, before and after, and its bytes are on the wire if it has
    succeeded. *)
Lemma slow_Inv_moves s i b w w' : Inv s → writers s !! i = Some (b, w) → w ≠ Dials → w' ≠ Dials → succeeded w = false →
  Inv (set_writer i b w' (if succeeded w' then s <| wire := wire s ++ [b] |> else s)).
Proof.
  intros [Hl Hl' Hd Hc Hn Hw] Hi Hne Hne' Hs. assert (∀ s', writers s' = writers s → lock s' = lock s → dials s' = dials s → create s' = create s →
    conn s' = conn s → err s' = err s → wire s' ≡ₚ written (set_writer i b w' s) → Inv (set_writer i b w' s')) as Hgen.
  { intros s' E1 E2 E3 E4 E5 E6 E7. split; cbn; rewrite ?E1, ?E2, ?E3, ?E4, ?E5, ?E6; try done.
    - intros j c [(_ & [= _ ?] & _)|[_ Hj]]%list_lookup_insert_Some; [done|by eapply Hl].
    - intros j Hj. destruct (Hl' _ Hj) as [c Hjc]. exists c. rewrite list_lookup_insert_ne; [done|]. intros ->. congruence. }
  destruct (succeeded w') eqn:Hs'; apply Hgen; try done; cbn.
  - unfold written. cbn. rewrite (filter_insert_new _ _ _ _ (b, w') Hi) by (cbn; congruence). rewrite fmap_cons, Hw. cbn. symmetry. apply Permutation_cons_append.
  - unfold written. cbn. by rewrite (filter_insert_same _ _ _ (b, w) (b, w') Hi) by (cbn; congruence).
Qed.

Lemma Inv_conn_write s i b w closed : Inv s → writers s !! i = Some (b, w) → w ≠ Dials → succeeded w = false → Inv (conn_write i b closed s).
Proof.
  intros Hinv Hi Hne Hs. unfold conn_write. destruct closed.
  - by apply (slow_Inv_moves s i b w (Returned 0 (Some os_ErrClosed))).
  - by apply (slow_Inv_moves s i b w (Returned (Z.of_nat (length b)) None)).
Qed.

Lemma Inv_Lock s i b choice s' : Inv s → writers s !! i = Some (b, Waits) → lock s = None → write_step (Lock i choice) s = Some s' → Inv s'.
Proof.
  intros Hinv Hi Hlk Hst. unfold write_step in Hst. rewrite Hi, Hlk in Hst. injection Hst as <-. pose proof Hinv as [Hl Hl' Hd Hc Hn Hw].
  destruct (create s) eqn:Hcr; cbn [andb].
  - destruct (negb (done s) || choice) eqn:E; [|destruct (done s); [|done]].
    + destruct (Hc eq_refl) as [_ Hor]. destruct (err s) as [e|]; [by apply (slow_Inv_moves s i b Waits (Returned 0 (Some e)))|].
      destruct (conn s) as [closed|]; [by eapply Inv_conn_write|]. by destruct Hor as [[]|[]].
    + by apply (slow_Inv_moves s i b Waits (Returned 0 (Some os_ErrClosed))).
  - destruct (done s); [by apply (slow_Inv_moves s i b Waits (Returned 0 (Some os_ErrClosed)))|]. split; cbn; try done.
    + intros j c [(-> & _)|[_ Hj]]%list_lookup_insert_Some; [done|]. specialize (Hl _ _ Hj). congruence.
    + intros j [= ->]. exists b. apply list_lookup_insert_eq. by eapply lookup_lt_Some.
    + rewrite Hw. unfold written. cbn. by rewrite (filter_insert_same _ _ _ (b, Waits) (b, Dials) Hi).
Qed.

Lemma Inv_Dialed s i b result s' : Inv s → writers s !! i = Some (b, Dials) → write_step (Dialed i result) s = Some s' → Inv s'.
Proof.
  intros [Hl Hl' Hd Hc Hn Hw] Hi Hst. cbn in Hst. rewrite Hi in Hst. injection Hst as <-. pose proof (Hl _ _ Hi) as Hlk.
  assert (create s = false) as Hcr by (destruct (create s); [by destruct (Hc eq_refl); congruence|done]). rewrite Hcr in Hd.
  assert (∀ j c, <[i := (b, Returned (Z.of_nat (length b)) result)]> (writers s) !! j = Some (c, Dials) → False) as Hno.
  { intros j c [(_ & [=] & _)|[Hne Hj]]%list_lookup_insert_Some. specialize (Hl _ _ Hj). congruence. }
  destruct result as [e|]; split; cbn; try done; try (by intros j c Hj; destruct (Hno _ _ Hj)); try (by rewrite Hd).
  - intros _. split; [done|]. right. by eexists.
  - unfold written. cbn. by rewrite (filter_insert_same _ _ _ (b, Dials) (b, Returned (Z.of_nat (length b)) (Some e)) Hi).
  - intros _. split; [done|]. left. by eexists.
  - unfold written. cbn. rewrite (filter_insert_new _ _ _ _ (b, Returned (Z.of_nat (length b)) None) Hi) by done.
    rewrite fmap_cons, Hw. cbn. symmetry. apply Permutation_cons_append.
Qed.

Lemma slow_Inv_step s e s' : Inv s → step s e = Some s' → Inv s'.
Proof.
  intros Hinv Hst. destruct e as [i|i choice|i result|].
  - unfold step, write_step in Hst. destruct (writers s !! i) as [[b []]|] eqn:Hi; try done. injection Hst as <-.
    destruct (conn s) as [closed|]; [by eapply Inv_conn_write|]. by apply (slow_Inv_moves s i b Starts Waits).
  - assert (∃ b, writers s !! i = Some (b, Waits) ∧ lock s = None) as (b & Hi & Hl).
    { cbn in Hst. destruct (writers s !! i) as [[b []]|]; try done. exists b. by destruct (lock s). }
    by eapply (Inv_Lock s i b choice).
  - assert (∃ b, writers s !! i = Some (b, Dials)) as [b Hi] by (cbn in Hst; destruct (writers s !! i) as [[b []]|]; naive_solver).
    by eapply (Inv_Dialed s i b result).
  - injection Hst as <-. unfold close. destruct (done s); [done|]. destruct Hinv as [Hl Hl' Hd Hc Hn Hw]. split; cbn; try done.
    + intros Hcr. destruct (Hc Hcr) as [? [[x Hx]|?]]; (split; [done|]); [left; rewrite Hx; by eexists|by right].
    + intros Hcr. destruct (Hn Hcr) as [-> ?]. done.
Qed.

(** However the writes and [Close] are interleaved, at most one connection is dialed, and the bytes of every write that
    succeeds go over it once, those of the first with the dial, and no others. *)
Lemma slow_open_once bs steps s : run (start bs) steps = Some s → (dials s ≤ 1)%nat ∧ wire s ≡ₚ written s.
Proof.
  intros Hrun. assert (Inv s) as [_ _ Hd _ _ Hw]; [|split; [rewrite Hd; destruct (create s); lia|done]].
  revert s Hrun. induction steps as [|e steps IH] using rev_ind; intros s Hrun.
  - injection Hrun as <-. assert (∀ i b w, ((λ b, (b, Starts)) <$> bs) !! i = Some (b, w) → w = Starts) as Hs.
    { intros i b w. rewrite list_lookup_fmap. by intros (? & _ & [= _ ->])%fmap_Some. }
    split; cbn; try done.
    + intros i b Hi. by specialize (Hs _ _ _ Hi).
    + unfold written. cbn. rewrite filter_none; [done|]. intros [b w] [i Hi]%list_elem_of_lookup. by rewrite (Hs _ _ _ Hi).
  - unfold run in Hrun. rewrite foldl_app in Hrun. cbn in Hrun. destruct (foldl _ _ steps) as [s0|] eqn:E; [|done]. by eapply slow_Inv_step; [apply IH|].
Qed.

(** Closed while it dials: the connection is stored after the close, and no later close closes it. *)
Example closed_while_dialing :
  match run (start [[x16]]) [Load 0; Lock 0 false; Close; Dialed 0 None; Close] with
  | Some s => done s = true ∧ conn s = Some false
  | None => False
  end.
Proof. by vm_compute. Qed.

End SlowOpen.
