(* ===== verification/Network.v ===== *)
(** * The network manager (route/network.go) and the platform that tells it of changes (experimental/libbox)

    What the manager is built from and what it starts and closes; the interfaces it knows and the choice of
    one for a socket; the state of the WIFI; and what happens when the default interface changes: the
    monitor of the platform ([updateDefaultInterface]) shows the new one and calls the manager, which tells
    every part that listens ([ResetNetwork]).  Logging is left out. *)

From stdpp Require Import base gmap strings list numbers.
From S2P Require Import Prelude GoStd Netip Adapter RuleAction RuleOptions SetItems DnsRules Outbound Dialer.

Local Open Scope Z_scope.

(** ** The manager *)

#[global] Instance WIFIState_eq_dec : EqDecision WIFIState.
Proof. solve_decision. Defined.

(** The system the program was built for. *)
Record Platform : Type := mkPlatform { IsLinux : bool; IsDarwin : bool; IsWindows : bool; IsAndroid : bool }.

(** What the platform does by itself. *)
Record PlatformInterface : Type := mkPlatformInterface {
  UsePlatformAutoDetectInterfaceControl : bool;
  UsePlatformNetworkInterfaces : bool;
  UsePlatformWIFIMonitor : bool
}.

(** [control.DefaultInterfaceFinder] of sing: the interfaces it knows, which it reads from the system or is
    given. *)
Class InterfaceFinder (F : Type) := mkInterfaceFinder {
  Finder_New : F;
  Finder_Update : F → res unit * F;
  Finder_UpdateInterfaces : list Interface → F → F;
  Finder_ByIndex : Z → F → res Interface * F;
  Finder_ByAddr : Addr → F → res Interface * F
}.

(** An interface that is found has the index; and those it is given are found, the first with the index. *)
Class InterfaceFinderLaws F `{InterfaceFinder F} := mkInterfaceFinderLaws {
  ByIndex_index i f iif f' : Finder_ByIndex i f = (Ok iif, f') → if_Index iif = i;
  ByIndex_given i l f iif : find (λ it, Z.eqb (if_Index it) i) l = Some iif →
    Finder_ByIndex i (Finder_UpdateInterfaces l f) = (Ok iif, Finder_UpdateInterfaces l f)
}.

(** The parts the manager starts and closes. *)
Inductive Part : Type := NetworkMonitor | InterfaceMonitor | PackageManager | PowerListener | WIFIMonitor.
#[global] Instance Part_eq_dec : EqDecision Part.
Proof. solve_decision. Defined.

(** The fields that hold a part are [true] when they are not [nil].

    [route/network.go:37-59] NetworkManager *)
Record NetworkManager (F : Type) : Type := mkNetworkManager {
  nw_interfaceFinder : F;
  nw_networkInterfaces : list NetworkInterface;
  nw_autoDetectInterface : bool;
  nw_defaultOptions : NetworkOptions * (string * DNSQueryOptions);
  nw_autoRedirectOutputMark : Z;
  nw_parts : Part → bool;
  nw_platformInterface : option PlatformInterface;
  nw_connectionManager : bool;
  nw_needWIFIState : bool;
  nw_wifiState : WIFIState;
  nw_started : bool
}.
Arguments mkNetworkManager {F}. Arguments nw_interfaceFinder {F}. Arguments nw_networkInterfaces {F}.
Arguments nw_autoDetectInterface {F}. Arguments nw_defaultOptions {F}. Arguments nw_autoRedirectOutputMark {F}.
Arguments nw_parts {F}. Arguments nw_platformInterface {F}. Arguments nw_connectionManager {F}.
Arguments nw_needWIFIState {F}. Arguments nw_wifiState {F}. Arguments nw_started {F}.
#[global] Instance NetworkManager_settable F : Settable (NetworkManager F) :=
  {| mkT r := mkNetworkManager (nw_interfaceFinder r) (nw_networkInterfaces r) (nw_autoDetectInterface r) (nw_defaultOptions r)
       (nw_autoRedirectOutputMark r) (nw_parts r) (nw_platformInterface r) (nw_connectionManager r) (nw_needWIFIState r)
       (nw_wifiState r) (nw_started r) |}.

Definition with_part (p : Part) (parts : Part → bool) : Part → bool := λ q, bool_decide (q = p) || parts q.
Definition no_parts : Part → bool := λ _, false.

(** [option/route.go:5-21] RouteOptions *)
Record RouteOptions {L : ExtLib} {AL : ActionLib} : Type := mkRouteOptions {
  rt_Rules : list RuleOptions;
  rt_AutoDetectInterface : bool;
  rt_OverrideAndroidVPN : bool;
  rt_DefaultInterface : string;
  rt_DefaultMark : Z;
  rt_DefaultDomainResolver : option DomainResolveOptions;
  rt_DefaultNetworkStrategy : option NetworkStrategy;
  rt_DefaultNetworkType : list InterfaceType;
  rt_DefaultFallbackNetworkType : list InterfaceType;
  rt_DefaultFallbackDelay : Z
}.

Section Manager.
Context {L : ExtLib} {AL : ActionLib} {F : Type} {IF : InterfaceFinder F} (platform : Platform).

(** Options that this system does not have.

    [route/network.go:63-71] NewNetworkManager (system) *)
Definition unsupported (o : RouteOptions) : option error :=
  let supported := IsLinux platform || IsDarwin platform || IsWindows platform in
  if rt_AutoDetectInterface o && negb supported
  then Some (E_New [AStr "`auto_detect_interface` is only supported on Linux, Windows and macOS"])
  else if rt_OverrideAndroidVPN o && negb (IsAndroid platform)
  then Some (E_New [AStr "`override_android_vpn` is only supported on Android"])
  else if negb (String.eqb (rt_DefaultInterface o) "") && negb supported
  then Some (E_New [AStr "`default_interface` is only supported on Linux, Windows and macOS"])
  else if negb (Z.eqb (rt_DefaultMark o) 0) && negb (IsLinux platform)
  then Some (E_New [AStr "`default_mark` is only supported on linux"])
  else None.

(** [route/network.go:99-106] NewNetworkManager (strategy) *)
Definition strategy_conflict (o : RouteOptions) : option error :=
  if is_nil (rt_DefaultNetworkStrategy o) then None
  else if negb (String.eqb (rt_DefaultInterface o) "")
  then Some (E_New [AStr "`default_network_strategy` is conflict with `default_interface`"])
  else if negb (rt_AutoDetectInterface o)
  then Some (E_New [AStr "`auto_detect_interface` is required by `default_network_strategy`"])
  else None.

(** [networkMonitor] and [interfaceMonitor] are the errors of the constructors of the tun library.

    [route/network.go:107-131] NewNetworkManager (monitors) *)
Definition new_monitors (platformInterface : option PlatformInterface) (o : RouteOptions)
    (networkMonitor interfaceMonitor : option error) : res (Part → bool) :=
  match platformInterface with
  | Some _ => Ok (with_part InterfaceMonitor no_parts)
  | None =>
      match networkMonitor with
      | Some err =>
          if negb (rt_AutoDetectInterface o) || errors_Is err os_ErrInvalid then Ok no_parts
          else Err (E_Cause err [AStr "create network monitor"])
      | None =>
          match interfaceMonitor with
          | Some _ => Err (E_New [AStr "auto_detect_interface unsupported on current platform"])
          | None => Ok (with_part InterfaceMonitor (with_part NetworkMonitor no_parts))
          end
      end
  end.

(** The default resolver of a configuration: its tag, and the options of the queries.

    [route/network.go:79-85] NewNetworkManager (resolver) *)
Definition default_domain_resolver (o : RouteOptions) : string * DNSQueryOptions :=
  let r := default (mkDomainResolveOptions _ "" DomainStrategyAsIS false None None) (rt_DefaultDomainResolver o) in
  (ro_Server r, mkDNSQueryOptions None (ro_Strategy r) DomainStrategyAsIS (ro_DisableCache r) (ro_RewriteTTL r)
                  (Prefixable_Build (ro_ClientSubnet r) Prefix_zero)).

(** [connectionManager] is whether the context has one at this point.

    [route/network.go:61-133] NewNetworkManager *)
Definition NewNetworkManager (platformInterface : option PlatformInterface) (connectionManager : bool) (o : RouteOptions)
    (dnsRules : list DNSRuleOptions) (networkMonitor interfaceMonitor : option error) : res (NetworkManager F) :=
  match unsupported o with Some err => Err err | None =>
  match strategy_conflict o with Some err => Err err | None =>
    parts ← new_monitors platformInterface o networkMonitor interfaceMonitor;
    Ok (mkNetworkManager Finder_New [] (rt_AutoDetectInterface o)
          (mkNetworkOptions (rt_DefaultInterface o) (rt_DefaultMark o) (rt_DefaultNetworkStrategy o) (rt_DefaultNetworkType o)
             (rt_DefaultFallbackNetworkType o) (rt_DefaultFallbackDelay o), default_domain_resolver o)
          0 parts platformInterface connectionManager
          (hasRule (rt_Rules o) isWIFIRule || hasDNSRule dnsRules isWIFIDNSRule) (mkWIFIState "" "") false)
  end end.

(** ** Starting and closing *)

Inductive Call : Type := StartPart (p : Part) | ClosePart (p : Part).

(** [newErr] and [startErr] are the errors of making and of starting a part. *)
Context (newErr startErr : Part → option error).

(** The parts that are there, one after the other until one fails.

    [route/network.go:138-154] (NetworkManager).Start (monitors) *)
Fixpoint start_parts (parts : list Part) : res unit * list Call :=
  match parts with
  | [] => (Ok tt, [])
  | p :: parts =>
      match startErr p with
      | Some err => (Err err, [StartPart p])
      | None => let '(r, calls) := start_parts parts in (r, StartPart p :: calls)
      end
  end.

(** [route/network.go:156-171] (NetworkManager).Start (power listener) *)
Definition start_power (m : NetworkManager F) : res unit * NetworkManager F * list Call :=
  let m := if IsWindows platform && is_nil (newErr PowerListener) then m <| nw_parts := with_part PowerListener (nw_parts m) |> else m in
  if nw_parts m PowerListener
  then (match startErr PowerListener with
        | Some err => Err (E_Cause err [AStr "start power listener"])
        | None => Ok tt
        end, m, [StartPart PowerListener])
  else (Ok tt, m, []).

(** A package manager that does not start is not kept.

    [route/network.go:172-190] (NetworkManager).Start (package manager) *)
Definition start_packages (m : NetworkManager F) : res unit * NetworkManager F * list Call :=
  if IsAndroid platform && is_nil (nw_platformInterface m) then
    match newErr PackageManager with
    | Some err => (Err (E_Cause err [AStr "create package manager"]), m, [])
    | None =>
        (Ok tt, if is_nil (startErr PackageManager) then m <| nw_parts := with_part PackageManager (nw_parts m) |> else m, [StartPart PackageManager])
    end
  else (Ok tt, m, []).

Definition platform_has (f : PlatformInterface → bool) (m : NetworkManager F) : bool :=
  match nw_platformInterface m with Some pi => f pi | None => false end.

(** A monitor of the WIFI is kept whether it starts or not.

    [route/network.go:192-205] (NetworkManager).Start (WIFI monitor) *)
Definition start_wifi (m : NetworkManager F) : NetworkManager F * list Call :=
  if nw_needWIFIState m && negb (platform_has UsePlatformWIFIMonitor m) && is_nil (newErr WIFIMonitor)
  then (m <| nw_parts := with_part WIFIMonitor (nw_parts m) |>, [StartPart WIFIMonitor])
  else (m, []).

(** [route/network.go:135-209] (NetworkManager).Start *)
Definition NetworkManager_Start (stage : StartStage) (m : NetworkManager F) : res unit * NetworkManager F * list Call :=
  match stage with
  | StartStateInitialize =>
      let '(r, calls) := start_parts (List.filter (nw_parts m) [NetworkMonitor; InterfaceMonitor]) in (r, m, calls)
  | StartStateStart =>
      match start_power m with
      | (Ok _, m, calls) => let '(r, m, calls') := start_packages m in (r, m, calls ++ calls')
      | r => r
      end
  | StartStatePostStart => let '(m, calls) := start_wifi m in (Ok tt, m <| nw_started := true |>, calls)
  | StartStateStarted => (Ok tt, m, [])
  end.

(** Only ever switched on, by the rule sets as they are now.

    [route/network.go:211-219] (NetworkManager).Initialize *)
Definition NetworkManager_Initialize (containsWIFIRule : list bool) (m : NetworkManager F) : NetworkManager F :=
  if existsb id containsWIFIRule then m <| nw_needWIFIState := true |> else m.

Definition close_name (p : Part) : string :=
  match p with
  | PackageManager => "close package manager"
  | PowerListener => "close power listener"
  | InterfaceMonitor => "close interface monitor"
  | NetworkMonitor => "close network monitor"
  | WIFIMonitor => "close WIFI monitor"
  end.

(** [E.Append] *)
Definition E_Append (err other : option error) (f : error → error) : option error :=
  match other with None => err | Some other => Some (errors_join err (f other)) end.

Definition close_order : list Part := [PackageManager; PowerListener; InterfaceMonitor; NetworkMonitor; WIFIMonitor].

(** Every part that is there is closed, whatever the others answer.

    [route/network.go:221-260] (NetworkManager).Close *)
Definition NetworkManager_Close (closeErr : Part → option error) (m : NetworkManager F) : option error * list Call :=
  let parts := List.filter (nw_parts m) close_order in
  (fold_left (λ err p, E_Append err (closeErr p) (λ err, E_Cause err [AStr (close_name p)])) parts None, ClosePart <$> parts).

(** ** The interfaces *)

(** [net.FlagUp] *)
Definition is_up (it : NetworkInterface) : bool := Z.testbit (if_Flags (ni_Interface it)) 0.

Definition has_index (i : Z) (it : NetworkInterface) : bool := Z.eqb (if_Index (ni_Interface it)) i.

(** On Darwin the platform gives the name, the index and the type only: the rest is what the system says,
    if it knows the index.

    [route/network.go:280-287] (NetworkManager).UpdateInterfaces (map) *)
Fixpoint complete_interfaces (interfaces : list NetworkInterface) (f : F) : list NetworkInterface * F :=
  match interfaces with
  | [] => ([], f)
  | it :: interfaces =>
      let '(iif, f) := Finder_ByIndex (if_Index (ni_Interface it)) f in
      let it := match iif with Ok iif => mkNetworkInterface iif (ni_Type it) (ni_Expensive it) (ni_Constrained it) | _ => it end in
      let '(interfaces, f) := complete_interfaces interfaces f in (it :: interfaces, f)
  end.

(** [interfaces] is what the platform answers.  The rest of the function only logs.

    [route/network.go:266-297] (NetworkManager).UpdateInterfaces *)
Definition UpdateInterfaces (interfaces : res (list NetworkInterface)) (m : NetworkManager F) : res unit * NetworkManager F :=
  if negb (platform_has UsePlatformNetworkInterfaces m)
  then let '(r, f) := Finder_Update (nw_interfaceFinder m) in (r, m <| nw_interfaceFinder := f |>)
  else match interfaces with
       | Err err => (Err err, m)
       | Panic p => (Panic p, m)
       | Ok interfaces =>
           let '(r, interfaces, f) :=
             if IsDarwin platform
             then match Finder_Update (nw_interfaceFinder m) with
                  | (Ok _, f) => let '(interfaces, f) := complete_interfaces interfaces f in (Ok tt, interfaces, f)
                  | (r, f) => (r, interfaces, f)
                  end
             else (Ok tt, interfaces, Finder_UpdateInterfaces (ni_Interface <$> interfaces) (nw_interfaceFinder m)) in
           let m := m <| nw_interfaceFinder := f |> in
           if is_ok r then (Ok tt, m <| nw_networkInterfaces := List.filter is_up interfaces |>) else (r, m)
       end.

(** [defaultInterface] is what the interface monitor answers; without a monitor there is a nil dereference.

    [route/network.go:319-330] (NetworkManager).DefaultNetworkInterface *)
Definition DefaultNetworkInterface (defaultInterface : option Interface) (m : NetworkManager F) : res (option NetworkInterface) :=
  if negb (nw_parts m InterfaceMonitor) then Panic [AStr "nil pointer dereference"] else
  match defaultInterface with
  | None => Ok None
  | Some iif =>
      match find (has_index (if_Index iif)) (nw_networkInterfaces m) with
      | Some it => Ok (Some it)
      | None => Ok (Some (mkNetworkInterface iif InterfaceTypeWIFI false false))
      end
  end.

(** How a socket gets its interface: the platform binds it, a function chooses an interface, or nothing is
    done. *)
Inductive AutoDetect : Type := PlatformControl | BindToChosen | NoControl.

(** [route/network.go:340-366] (NetworkManager).AutoDetectInterfaceFunc *)
Definition AutoDetectInterfaceFunc (m : NetworkManager F) : AutoDetect :=
  if platform_has UsePlatformAutoDetectInterfaceControl m then PlatformControl
  else if nw_parts m InterfaceMonitor then BindToChosen else NoControl.

(** [route/network.go:368-377] (NetworkManager).ProtectFunc *)
Definition ProtectFunc (m : NetworkManager F) : AutoDetect :=
  if platform_has UsePlatformAutoDetectInterfaceControl m then PlatformControl else NoControl.

Definition tun_ErrNoRoute : error := E_Ext "no route to internet".

(** The interface that has the remote address, or the default one.  [remoteAddr] is the address the text is
    parsed to.

    [route/network.go:351-364] (NetworkManager).AutoDetectInterfaceFunc (choice) *)
Definition choose_interface (remoteAddr : Addr) (defaultInterface : option Interface) (m : NetworkManager F)
    : res (string * Z) * NetworkManager F :=
  let '(iif, f) := if Addr_IsValid remoteAddr then Finder_ByAddr remoteAddr (nw_interfaceFinder m)
                   else (Err tun_ErrNoRoute, nw_interfaceFinder m) in
  (match iif with
   | Ok iif => Ok (if_Name iif, if_Index iif)
   | _ => match defaultInterface with
          | None => Err tun_ErrNoRoute
          | Some iif => Ok (if_Name iif, if_Index iif)
          end
   end, m <| nw_interfaceFinder := f |>).

(** [route/network.go:383-389] (NetworkManager).RegisterAutoRedirectOutputMark *)
Definition RegisterAutoRedirectOutputMark (mark : Z) (m : NetworkManager F) : res unit * NetworkManager F :=
  if Z.ltb 0 (nw_autoRedirectOutputMark m) then (Err (E_New [AStr "only one auto-redirect can be configured"]), m)
  else (Ok tt, m <| nw_autoRedirectOutputMark := mark |>).

(** The mark a socket gets.

    [route/network.go:395-402] (NetworkManager).AutoRedirectOutputMarkFunc *)
Definition AutoRedirectOutputMarkFunc (m : NetworkManager F) : option Z :=
  if Z.eqb (nw_autoRedirectOutputMark m) 0 then None else Some (nw_autoRedirectOutputMark m).

(** ** The WIFI *)

(** The state is what was heard last; the rest of the function only logs.

    [route/network.go:426-439] (NetworkManager).onWIFIStateChanged *)
Definition onWIFIStateChanged (state : WIFIState) (m : NetworkManager F) : NetworkManager F :=
  if bool_decide (state ≠ nw_wifiState m) then m <| nw_wifiState := state |> else m.

(** [wifi] is what the monitor and what the platform answer.

    [route/network.go:441-451] (NetworkManager).UpdateWIFIState *)
Definition UpdateWIFIState (wifi : WIFIState * WIFIState) (m : NetworkManager F) : NetworkManager F :=
  if nw_parts m WIFIMonitor then onWIFIStateChanged wifi.1 m
  else if platform_has UsePlatformWIFIMonitor m then onWIFIStateChanged wifi.2 m
  else m.

(** ** Changes of the network *)

(** What the manager does to the others: to the pause manager, to the connections, and to a part that
    listens ([kind] is endpoint, inbound or outbound). *)
Inductive Event : Type :=
| NetworkPause | NetworkWake | DevicePause | DeviceWake
| CloseAll
| InterfaceUpdated (kind tag : string).
#[global] Instance Event_eq_dec : EqDecision Event.
Proof. solve_decision. Defined.

(** The endpoints, inbounds and outbounds: their tags, and whether they listen. *)
Record Members : Type := mkMembers {
  mb_endpoints : list (string * bool);
  mb_inbounds : list (string * bool);
  mb_outbounds : list (string * bool)
}.

Definition listeners (kind : string) (l : list (string * bool)) : list Event :=
  (λ o, InterfaceUpdated kind o.1) <$> List.filter snd l.

(** [route/network.go:453-478] (NetworkManager).ResetNetwork *)
Definition ResetNetwork (members : Members) (m : NetworkManager F) : list Event :=
  (if nw_connectionManager m then [CloseAll] else []) ++
  listeners "endpoint" (mb_endpoints members) ++ listeners "inbound" (mb_inbounds members) ++ listeners "outbound" (mb_outbounds members).

(** A platform that gives a default interface which is not among its interfaces is ahead of them: nothing
    more is done.

    [route/network.go:480-521] (NetworkManager).notifyInterfaceUpdate *)
Definition notifyInterfaceUpdate (members : Members) (wifi : WIFIState * WIFIState) (defaultInterface : option Interface)
    (m : NetworkManager F) : NetworkManager F * list Event :=
  match defaultInterface with
  | None => (m, [NetworkPause])
  | Some iif =>
      let race := negb (IsAndroid platform && is_nil (nw_platformInterface m)) && negb (is_nil (nw_platformInterface m)) &&
                  match find (has_index (if_Index iif)) (nw_networkInterfaces m) with
                  | Some it => String.eqb (if_Name (ni_Interface it)) ""
                  | None => true
                  end in
      if race then (m, [NetworkWake]) else
      let m := UpdateWIFIState wifi m in
      (m, NetworkWake :: if nw_started m then ResetNetwork members m else [])
  end.

(** The events of Windows that count; the others have no case. *)
Inductive PowerEvent : Type := EVENT_SUSPEND | EVENT_RESUME | EVENT_RESUME_AUTOMATIC.

(** [route/network.go:523-537] (NetworkManager).notifyWindowsPowerEvent *)
Definition notifyWindowsPowerEvent (members : Members) (IsDevicePaused : bool) (event : PowerEvent) (m : NetworkManager F) : list Event :=
  match event with
  | EVENT_SUSPEND => DevicePause :: ResetNetwork members m
  | EVENT_RESUME => if IsDevicePaused then DeviceWake :: ResetNetwork members m else []
  | EVENT_RESUME_AUTOMATIC => DeviceWake :: ResetNetwork members m
  end.

End Manager.

(** ** The platform of the mobile clients *)

(** What the client tells of an interface.

    [experimental/libbox/platform.go:44-54] NetworkInterface *)
Record ClientInterface : Type := mkClientInterface {
  ci_Index : Z;
  ci_Name : string;
  ci_Addresses : list string;
  ci_Flags : Z;
  ci_Type : InterfaceType;
  ci_Metered : bool
}.

(** The flags of the system calls and of the [net] package; the bit of [IFF_MULTICAST] is that of the system.

    [experimental/libbox/link_flags_unix.go:11-32] linkFlags *)
Definition linkFlags (IFF_MULTICAST : Z) (rawFlags : Z) : Z :=
  let flag raw f := if Z.testbit rawFlags raw then Z.shiftl 1 f else 0 in
  Z.lor (Z.lor (Z.lor (Z.lor (Z.lor (flag 0 0) (flag 6 5)) (flag 1 1)) (flag 3 2)) (flag 4 3)) (flag IFF_MULTICAST 4).

(** [experimental/libbox/service.go:27-36] platformInterfaceWrapper *)
Record Wrapper : Type := mkWrapper {
  pw_myTunName : string;
  pw_defaultInterface : option Interface;
  pw_isExpensive : bool;
  pw_isConstrained : bool
}.
#[global] Instance Wrapper_settable : Settable Wrapper :=
  {| mkT r := mkWrapper (pw_myTunName r) (pw_defaultInterface r) (pw_isExpensive r) (pw_isConstrained r) |}.

(** [common.UniqBy]: the first of those that are alike. *)
Fixpoint UniqBy {A} (key : A → string) (seen : list string) (l : list A) : list A :=
  match l with
  | [] => []
  | x :: l => if decide (key x ∈ seen) then UniqBy key seen l else x :: UniqBy key (key x :: seen) l
  end.

Section Client.
Context {L : ExtLib} {AL : ActionLib} {F : Type} {IF : InterfaceFinder F} (platform : Platform) (IFF_MULTICAST : Z).

(** [netip.MustParsePrefix] *)
Definition MustParsePrefix (s : string) : res Prefix :=
  match netip_ParsePrefix s with Err _ => Panic [AStr "netip.MustParsePrefix"] | r => r end.

Fixpoint parse_addresses (l : list string) : res (list Prefix) :=
  match l with
  | [] => Ok []
  | s :: l => p ← MustParsePrefix s; ps ← parse_addresses l; Ok (p :: ps)
  end.

(** [experimental/libbox/service.go:109-127] (platformInterfaceWrapper).NetworkInterfaces (interface) *)
Definition client_interface (w : Wrapper) (ci : ClientInterface) : res NetworkInterface :=
  let isDefault := match pw_defaultInterface w with Some iif => Z.eqb (ci_Index ci) (if_Index iif) | None => false end in
  addresses ← parse_addresses (ci_Addresses ci);
  Ok (mkNetworkInterface (mkInterface (ci_Index ci) (ci_Name ci) addresses (linkFlags IFF_MULTICAST (ci_Flags ci))) (ci_Type ci)
        (ci_Metered ci || isDefault && pw_isExpensive w) (isDefault && pw_isConstrained w)).

(** [experimental/libbox/service.go:104-129] (platformInterfaceWrapper).NetworkInterfaces (loop) *)
Fixpoint client_interfaces (w : Wrapper) (l : list ClientInterface) : res (list NetworkInterface) :=
  match l with
  | [] => Ok []
  | ci :: l =>
      if String.eqb (ci_Name ci) (pw_myTunName w) then client_interfaces w l else
      it ← client_interface w ci; its ← client_interfaces w l; Ok (it :: its)
  end.

Definition interface_name (it : NetworkInterface) : string := if_Name (ni_Interface it).

(** [experimental/libbox/service.go:99-134] (platformInterfaceWrapper).NetworkInterfaces *)
Definition NetworkInterfaces (GetInterfaces : res (list ClientInterface)) (w : Wrapper) : res (list NetworkInterface) :=
  l ← GetInterfaces; its ← client_interfaces w l; Ok (UniqBy interface_name [] its).

(** The platform and the manager. *)
Record System : Type := mkSystem { sys_wrapper : Wrapper; sys_manager : NetworkManager F }.

(** What can be seen of a call: the default interface that is shown from now on, and the events. *)
Inductive Seen : Type := Shows (d : option (string * Z)) | Ev (e : Event).
#[global] Instance Seen_eq_dec : EqDecision Seen.
Proof. solve_decision. Defined.

Definition name_index (iif : Interface) : string * Z := (if_Name iif, if_Index iif).

(** A call of the client: the index of the default interface, its flags, and what the client answers when it
    is asked for the interfaces and for the WIFI. *)
Record Update : Type := mkUpdate {
  up_index : Z;
  up_isExpensive : bool;
  up_isConstrained : bool;
  up_GetInterfaces : res (list ClientInterface);
  up_wifi : WIFIState * WIFIState
}.

(** The flags are set before the interfaces are read, and the default interface after it; an error of
    reading is logged.

    [experimental/libbox/monitor.go:71-79] (platformDefaultInterfaceMonitor).updateDefaultInterface (interfaces) *)
Definition read_interfaces (u : Update) (s : System) : res System :=
  let w := sys_wrapper s <| pw_isExpensive := up_isExpensive u |> <| pw_isConstrained := up_isConstrained u |> in
  match UpdateInterfaces platform (NetworkInterfaces (up_GetInterfaces u) w) (sys_manager s) with
  | (Panic p, _) => Panic p
  | (_, m) => Ok (mkSystem w m)
  end.

(** The only callback is the one of the manager.

    [experimental/libbox/monitor.go:71-109] (platformDefaultInterfaceMonitor).updateDefaultInterface *)
Definition updateDefaultInterface (members : Members) (u : Update) (s : System) : res (System * list Seen) :=
  s ← read_interfaces u s;
  let w := sys_wrapper s in
  let m := sys_manager s in
  if Z.eqb (up_index u) (-1) then
    let '(m, events) := notifyInterfaceUpdate platform members (up_wifi u) None m in
    Ok (mkSystem (w <| pw_defaultInterface := None |>) m, Shows None :: (Ev <$> events))
  else
    let '(newInterface, f) := Finder_ByIndex (up_index u) (nw_interfaceFinder m) in
    let m := m <| nw_interfaceFinder := f |> in
    match newInterface with
    | Panic p => Panic p
    | Err _ => Ok (mkSystem w m, [])
    | Ok iif =>
        let w' := w <| pw_defaultInterface := Some iif |> in
        if bool_decide (name_index <$> pw_defaultInterface w = Some (name_index iif))
        then Ok (mkSystem w' m, [Shows (Some (name_index iif))])
        else
          let '(m, events) := notifyInterfaceUpdate platform members (up_wifi u) (Some iif) m in
          Ok (mkSystem w' m, Shows (Some (name_index iif)) :: (Ev <$> events))
    end.

(** Calls one after the other, with all that is seen. *)
Fixpoint run_updates (members : Members) (us : list Update) (s : System) : res (System * list Seen) :=
  match us with
  | [] => Ok (s, [])
  | u :: us =>
      '(s, seen) ← updateDefaultInterface members u s;
      '(s, seen') ← run_updates members us s;
      Ok (s, seen ++ seen')
  end.

End Client.
Arguments System : clear implicits.

(** ** The start of the box *)

(** The services of the context that are made around the network manager. *)
Inductive Service : Type :=
| EndpointManagerS | InboundManagerS | OutboundManagerS | DNSTransportManagerS | ServiceManagerS
| DNSRouterS | NetworkManagerS | ConnectionManagerS | RouterS.
#[global] Instance Service_eq_dec : EqDecision Service.
Proof. solve_decision. Defined.

(** The network manager looks for the services that are registered before it; [registry] are those of the
    context.

    [box.go:175-197] New (network manager) *)
Definition New_network {L : ExtLib} {AL : ActionLib} {F} {IF : InterfaceFinder F} (platform : Platform) (platformInterface : option PlatformInterface)
    (o : RouteOptions) (dnsRules : list DNSRuleOptions) (networkMonitor interfaceMonitor : option error) (registry : list Service)
    : res (NetworkManager F * list Service) :=
  let registry := registry ++ [EndpointManagerS; InboundManagerS; OutboundManagerS; DNSTransportManagerS; ServiceManagerS; DNSRouterS] in
  m ← wrap_err [AStr "initialize network manager"]
        (NewNetworkManager platform platformInterface (bool_decide (ConnectionManagerS ∈ registry)) o dnsRules networkMonitor interfaceMonitor);
  Ok (m, registry ++ [NetworkManagerS; ConnectionManagerS; RouterS]).


(** ** An example *)

(** A finder that knows only what it is given. *)
#[global] Instance ListFinder : InterfaceFinder (list Interface) :=
  mkInterfaceFinder (list Interface) [] (λ f, (Ok tt, f)) (λ l _, l)
    (λ i f, (match find (λ it, Z.eqb (if_Index it) i) f with Some it => Ok it | None => Err (E_New [AStr "no such network interface"]) end, f))
    (λ a f, (match find (λ it, existsb (λ p, Prefix_Contains p a) (if_Addresses it)) f with
             | Some it => Ok it | None => Err (E_New [AStr "no such network interface"]) end, f)).

#[global] Instance ListFinder_laws : InterfaceFinderLaws (list Interface).
Proof.
  split.
  - intros i f iif f'. cbn. destruct (find _ f) as [it|] eqn:Hf; intros [= <- <-]. apply find_some in Hf as [_ Hf]. by apply Z.eqb_eq.
  - intros i l f iif. cbn. by intros ->.
Qed.

Definition no_rules `{ExtLib} `{ActionLib} : RouteOptions := mkRouteOptions _ _ [] true false "" 0 None None [] [] 0.
Definition android : Platform := mkPlatform true false false true.
Definition client_platform : PlatformInterface := mkPlatformInterface true true true.
Definition wlan : ClientInterface := mkClientInterface 1 "wlan0" [] 1 InterfaceTypeWIFI false.
Definition rmnet : ClientInterface := mkClientInterface 2 "rmnet0" [] 1 InterfaceTypeCellular false.
Definition no_wifi : WIFIState * WIFIState := (mkWIFIState "" "", mkWIFIState "" "").
Definition ex_members : Members := mkMembers [("wg", true)] [("tun", true); ("mixed", false)] [("proxy", true)].
Definition switch_to (i : Z) (expensive : bool) (l : list ClientInterface) : Update := mkUpdate i expensive false (Ok l) no_wifi.

(** A manager that is built as the box builds it, and has been started. *)
Definition ex_manager `{ExtLib} `{ActionLib} : option (NetworkManager (list Interface)) :=
  match New_network android (Some client_platform) no_rules [] None None [] with
  | Ok (m, _) => Some (NetworkManager_Start android (λ _, None) (λ _, None) StartStatePostStart m).1.2
  | _ => None
  end.

(** ** Lemmas *)

Section Proofs.
Context {L : ExtLib} {AL : ActionLib} {F : Type} {IF : InterfaceFinder F} (platform : Platform) (IFF_MULTICAST : Z).
Abbreviation do_update := (updateDefaultInterface platform IFF_MULTICAST).
Abbreviation do_updates := (run_updates platform IFF_MULTICAST).

(** What no operation changes: the services the manager was built with, whether it is started, and which
    parts it has. *)
Definition same_shape (m m' : NetworkManager F) : Prop :=
  nw_connectionManager m' = nw_connectionManager m ∧ nw_platformInterface m' = nw_platformInterface m ∧
  nw_started m' = nw_started m ∧ nw_parts m' = nw_parts m.

#[local] Instance same_shape_preorder : PreOrder same_shape.
Proof. unfold same_shape. split; [done|]. intros x y z (-> & -> & -> & ->) (-> & -> & -> & ->). done. Qed.

Lemma UpdateInterfaces_shape l m r m' : UpdateInterfaces platform l m = (r, m') → same_shape m m'.
Proof.
  unfold UpdateInterfaces. destruct (negb _).
  { destruct (Finder_Update _) as [r1 f]. by intros [= <- <-]. }
  destruct l as [l|e|p]; [|by intros [= <- <-]..]. destruct (if IsDarwin platform then _ else _) as [[r1 its] f].
  destruct (is_ok r1); by intros [= <- <-].
Qed.

Lemma UpdateWIFIState_shape wifi (m : NetworkManager F) : same_shape m (UpdateWIFIState wifi m).
Proof.
  unfold UpdateWIFIState, onWIFIStateChanged. destruct (nw_parts m WIFIMonitor); [|destruct (platform_has _ m); [|done]];
    (destruct (bool_decide _); done).
Qed.

Lemma notify_shape members wifi d (m : NetworkManager F) m' events :
  notifyInterfaceUpdate platform members wifi d m = (m', events) → same_shape m m'.
Proof.
  unfold notifyInterfaceUpdate. destruct d as [iif|]; [|by intros [= <- <-]]. destruct (_ && _); intros [= <- <-]; [done|].
  apply UpdateWIFIState_shape.
Qed.

Lemma ResetNetwork_shape members (m m' : NetworkManager F) : same_shape m m' → ResetNetwork members m' = ResetNetwork members m.
Proof. unfold ResetNetwork. by intros (-> & _). Qed.

(** The events of a notification: the manager is told of the pause, or woken up, and resets the network
    only when it is started. *)
Lemma notify_events members wifi d (m : NetworkManager F) m' events : notifyInterfaceUpdate platform members wifi d m = (m', events) →
  d = None ∧ events = [NetworkPause] ∨ events = [NetworkWake] ∨ events = NetworkWake :: ResetNetwork members m ∧ nw_started m = true ∧ is_Some d.
Proof.
  unfold notifyInterfaceUpdate. destruct d as [iif|]; [|intros [= <- <-]; by left]. destruct (_ && _); intros [= <- <-]; [by right; left|].
  destruct (UpdateWIFIState_shape wifi m) as (H1 & _ & H3 & _). rewrite H3. destruct (nw_started m); [|by right; left].
  right; right. split_and!; [|done|done]. f_equal. unfold ResetNetwork. by rewrite H1.
Qed.

(** ** A change of the default interface *)

(** The interface is among those of the manager, and has a name. *)
Definition known (i : Z) (m : NetworkManager F) : Prop :=
  ∃ it, find (has_index i) (nw_networkInterfaces m) = Some it ∧ interface_name it ≠ "".

(** The interface that is named is, once the interfaces have been read, one of the manager's. *)
Definition found (u : Update) (s : System F) : Prop :=
  up_index u = -1 ∨ ∀ s', read_interfaces platform IFF_MULTICAST u s = Ok s' → known (up_index u) (sys_manager s').

(** The same of calls one after the other, each in the state it finds. *)
Fixpoint all_found (members : Members) (us : list Update) (s : System F) : Prop :=
  match us with
  | [] => True
  | u :: us => found u s ∧ ∀ s' seen, do_update members u s = Ok (s', seen) → all_found members us s'
  end.

Lemma known_notify members wifi iif (m : NetworkManager F) : known (if_Index iif) m → nw_started m = true →
  (notifyInterfaceUpdate platform members wifi (Some iif) m).2 = NetworkWake :: ResetNetwork members m.
Proof.
  intros (it & Hit & Hname) Hs. unfold notifyInterfaceUpdate. rewrite Hit. unfold interface_name in Hname.
  rewrite (proj2 (String.eqb_neq _ _) Hname), andb_false_r. cbn [snd].
  destruct (UpdateWIFIState_shape wifi m) as (H1 & _ & H3 & _). rewrite H3, Hs. f_equal. unfold ResetNetwork. by rewrite H1.
Qed.

Lemma read_interfaces_shape u s s' : read_interfaces platform IFF_MULTICAST u s = Ok s' →
  same_shape (sys_manager s) (sys_manager s') ∧ pw_defaultInterface (sys_wrapper s') = pw_defaultInterface (sys_wrapper s).
Proof.
  unfold read_interfaces. destruct (UpdateInterfaces _ _ _) as [r m] eqn:Hu. apply UpdateInterfaces_shape in Hu.
  destruct r as [[]|e|p]; intros [= <-]; done.
Qed.

(** A call: the client has no network; the interface is not found; it is the one that was shown; or it is
    another one, and the manager is told. *)
Inductive update_case (members : Members) (u : Update) (s s' : System F) : list Seen → Prop :=
| case_none : up_index u = -1 → pw_defaultInterface (sys_wrapper s') = None → update_case members u s s' [Shows None; Ev NetworkPause]
| case_unknown : pw_defaultInterface (sys_wrapper s') = pw_defaultInterface (sys_wrapper s) → update_case members u s s' []
| case_same iif iif' : pw_defaultInterface (sys_wrapper s) = Some iif → pw_defaultInterface (sys_wrapper s') = Some iif' →
    name_index iif' = name_index iif → update_case members u s s' [Shows (Some (name_index iif))]
| case_new iif s1 events : up_index u ≠ -1 → read_interfaces platform IFF_MULTICAST u s = Ok s1 → if_Index iif = up_index u →
    name_index <$> pw_defaultInterface (sys_wrapper s) ≠ Some (name_index iif) → pw_defaultInterface (sys_wrapper s') = Some iif →
    (known (up_index u) (sys_manager s1) → nw_started (sys_manager s) = true → events = NetworkWake :: ResetNetwork members (sys_manager s)) →
    events = [NetworkWake] ∨ events = NetworkWake :: ResetNetwork members (sys_manager s) →
    update_case members u s s' (Shows (Some (name_index iif)) :: (Ev <$> events)).

Context {IFL : InterfaceFinderLaws F}.

Lemma update_inv members u s s' seen : do_update members u s = Ok (s', seen) →
  same_shape (sys_manager s) (sys_manager s') ∧ update_case members u s s' seen.
Proof.
  intros (s1 & Hr & Hu)%bind_Ok. destruct (read_interfaces_shape _ _ _ Hr) as [Hm Hd]. cbv zeta in Hu.
  destruct (Z.eqb_spec (up_index u) (-1)) as [Hi|Hi].
  { injection Hu as <- <-. split; [done|]. by constructor. }
  destruct (Finder_ByIndex _ _) as [[iif|e|p] f] eqn:Hf; [|injection Hu as <- <-; split; [done|by constructor]|done].
  apply ByIndex_index in Hf. case_bool_decide as Hn.
  { injection Hu as <- <-. split; [done|]. destruct (pw_defaultInterface (sys_wrapper s1)) as [old|] eqn:Ho; [|done].
    assert (name_index old = name_index iif) as <- by (cbn in Hn; congruence). econstructor; [by rewrite <-Hd|done|]. by cbn in Hn; congruence. }
  match type of Hu with context [notifyInterfaceUpdate _ _ _ _ ?m] => set (m1 := m) in Hu end.
  assert (same_shape (sys_manager s1) m1 ∧ nw_networkInterfaces m1 = nw_networkInterfaces (sys_manager s1)) as [Hm1 Hits] by done. clearbody m1.
  assert (same_shape (sys_manager s) m1) as Hm2 by (by transitivity (sys_manager s1)).
  destruct (notifyInterfaceUpdate _ _ _ _ _) as [m events] eqn:Hnot. injection Hu as <- <-. pose proof (notify_shape _ _ _ _ _ _ Hnot) as Hm'.
  cbn [sys_manager sys_wrapper]. split; [by transitivity m1|].
  econstructor; [done|done|done|by rewrite <-Hd|done| |].
  - intros Hk Hs. rewrite <-(ResetNetwork_shape members _ _ Hm2). destruct Hm2 as (_ & _ & Hs1 & _).
    pose proof (known_notify members (up_wifi u) iif m1) as Hkn. rewrite Hnot in Hkn. apply Hkn; [|congruence].
    rewrite Hf. unfold known. by rewrite Hits.
  - apply notify_events in Hnot as [[? _]|[->|(-> & _)]]; [done|by left|right; f_equal; by apply ResetNetwork_shape].
Qed.

(** If a default interface is shown, it is this one. *)
Definition agrees (a : string * Z) (s : System F) : Prop :=
  ∀ iif, pw_defaultInterface (sys_wrapper s) = Some iif → name_index iif = a.

Lemma update_agrees members u s s' seen a e : do_update members u s = Ok (s', seen) → found u s →
  nw_started (sys_manager s) = true → e ∈ ResetNetwork members (sys_manager s) → Ev e ∉ seen → agrees a s → agrees a s'.
Proof.
  intros [_ Hc]%update_inv Hl Hs He Hno Ha iif Hiif. inversion Hc as [? Hd|Hd|old new Hd Hd' Hn|new s1 events Hi Hr Hx Hn Hd Hk _]; subst.
  - congruence.
  - apply Ha. congruence.
  - assert (new = iif) as -> by congruence. rewrite Hn. by apply Ha.
  - destruct Hl as [|Hl]; [done|]. destruct Hno. right. apply list_elem_of_fmap. exists e. split; [done|].
    rewrite Hk; [by right|by apply Hl|done].
Qed.

Lemma run_agrees members us : ∀ s s' seen a e, do_updates members us s = Ok (s', seen) → all_found members us s →
  nw_started (sys_manager s) = true → e ∈ ResetNetwork members (sys_manager s) → Ev e ∉ seen → agrees a s → agrees a s'.
Proof.
  induction us as [|u us IH]; intros s s' seen a e; cbn [run_updates all_found]; [by intros [= <- <-]|].
  intros ([s1 seen1] & Hu & ([s2 seen2] & Hus & [= <- <-])%bind_Ok)%bind_Ok [Hl Hls] Hs He Hno Ha.
  rewrite elem_of_app in Hno. pose proof (update_inv _ _ _ _ _ Hu) as [Hm _].
  eapply (IH s1); [done|by eapply Hls|by destruct Hm as (_ & _ & -> & _)|by rewrite (ResetNetwork_shape _ _ _ Hm)|by intros ?; apply Hno; right|].
  eapply update_agrees; try done. intros ?; apply Hno; by left.
Qed.

Lemma shown_first members u s s' seen h1 a h2 : update_case members u s s' seen → seen = h1 ++ Shows (Some a) :: h2 → agrees a s'.
Proof.
  intros Hc ->. assert (∀ d (events : list Event), h1 ++ Shows (Some a) :: h2 = Shows d :: (Ev <$> events) → d = Some a) as Hd.
  { intros d events. destruct h1 as [|x h1]; intros [= ? Hev]; [congruence|].
    assert (Shows (Some a) ∈ Ev <$> events) as (? & ? & _)%list_elem_of_fmap; [|done]. rewrite <-Hev. apply elem_of_app. right. left. }
  intros iif Hiif. inversion Hc as [? Hn Heq|Hn Heq|old new Ho Hn Hx Heq|new s1 events Hi Hr Hix Hx Hn _ _ Heq].
  - congruence.
  - by destruct h1.
  - specialize (Hd _ [] (eq_sym Heq)). congruence.
  - specialize (Hd _ _ (eq_sym Heq)). congruence.
Qed.

End Proofs.


Section MoreProofs.
Context {L : ExtLib} {AL : ActionLib} {F : Type} {IF : InterfaceFinder F} (platform : Platform) (IFF_MULTICAST : Z).

(** *** What the manager is built from *)

(** A manager that is built: its options go together and the system has them, and without a monitor of the
    interfaces there is neither a platform nor a monitor of the network, which was not asked for or does not
    exist here. *)
Lemma NewNetworkManager_accepts pi cm o rules e1 e2 m : NewNetworkManager (F := F) platform pi cm o rules e1 e2 = Ok m →
  (rt_AutoDetectInterface o = true ∨ rt_DefaultInterface o ≠ "" → IsLinux platform = true ∨ IsDarwin platform = true ∨ IsWindows platform = true) ∧
  (rt_DefaultMark o ≠ 0 → IsLinux platform = true) ∧
  (rt_DefaultNetworkStrategy o ≠ None → rt_AutoDetectInterface o = true ∧ rt_DefaultInterface o = "") ∧
  (nw_parts m InterfaceMonitor = false →
     pi = None ∧ ∃ err, e1 = Some err ∧ (rt_AutoDetectInterface o = false ∨ errors_Is err os_ErrInvalid = true)) ∧
  (nw_parts m NetworkMonitor = true → pi = None ∧ e1 = None ∧ e2 = None) ∧
  nw_connectionManager m = cm ∧ nw_platformInterface m = pi ∧ nw_started m = false ∧
  (nw_defaultOptions m).1 = mkNetworkOptions (rt_DefaultInterface o) (rt_DefaultMark o) (rt_DefaultNetworkStrategy o) (rt_DefaultNetworkType o)
             (rt_DefaultFallbackNetworkType o) (rt_DefaultFallbackDelay o) ∧ nw_autoDetectInterface m = rt_AutoDetectInterface o.
Proof.
  unfold NewNetworkManager. destruct (unsupported platform o) eqn:Hu; [done|]. destruct (strategy_conflict o) eqn:Hc; [done|].
  intros (parts & Hp & [= <-])%bind_Ok. cbn. split_and!; try done.
  - unfold unsupported in Hu. intros Ha. destruct (IsLinux platform), (IsDarwin platform), (IsWindows platform); try (by left); try (by right; left); try (by right; right).
    cbn in Hu. rewrite !andb_true_r in Hu. destruct (rt_AutoDetectInterface o); [done|]. destruct Ha as [|Ha]; [done|]. destruct (_ && _); [done|].
    by rewrite (proj2 (String.eqb_neq _ _) Ha) in Hu.
  - intros Hm. unfold unsupported in Hu. repeat (destruct (_ && _) eqn:? in Hu; [done|]).
    match goal with H : negb (Z.eqb (rt_DefaultMark o) 0) && _ = false |- _ => rewrite (proj2 (Z.eqb_neq _ _) Hm) in H; by apply negb_false_iff in H end.
  - intros Hs. unfold strategy_conflict in Hc. destruct (rt_DefaultNetworkStrategy o); [|done]. cbn in Hc.
    destruct (String.eqb_spec (rt_DefaultInterface o) ""); [|done]. by destruct (rt_AutoDetectInterface o).
  - unfold new_monitors in Hp. destruct pi; [injection Hp as <-; done|]. destruct e1 as [err|]; [|destruct e2; [done|injection Hp as <-; done]].
    destruct (_ || _) eqn:Ho; [|done]. injection Hp as <-. intros _. split; [done|]. exists err. split; [done|].
    apply orb_true_iff in Ho as [Ho%negb_true_iff|Ho]; [by left|by right].
  - unfold new_monitors in Hp. destruct pi; [injection Hp as <-; done|]. destruct e1 as [err|]; [|destruct e2; [done|injection Hp as <-; done]].
    destruct (_ || _) eqn:Ho; [|done]. by injection Hp as <-.
Qed.

(** The default strategy of an accepted configuration is that of the dialers which bind nothing and have no
    strategy of their own, where there is a platform; elsewhere it is accepted and not used. *)
Lemma default_strategy_dialed pi cm o rules e1 e2 m options st : NewNetworkManager (F := F) platform pi cm o rules e1 e2 = Ok m →
  rt_DefaultNetworkStrategy o = Some st → disableDefaultBind options = false →
  op_NetworkStrategy options = None → op_NetworkType options = [] → default [] (op_FallbackNetworkType options) = [] →
  st_strategy (bind_of (negb (is_nil pi)) options (Some (mkNetworkManagerI (nw_defaultOptions m).1 (nw_autoDetectInterface m)))).2 =
  if is_nil pi then None else Some st.
Proof.
  intros Hn Hst Hd Ho1 Ho2 Ho3. destruct (NewNetworkManager_accepts _ _ _ _ _ _ _ Hn) as (_ & _ & Hs & _ & _ & _ & _ & _ & Ho & Ha).
  destruct Hs as [Hauto Hif]; [by rewrite Hst|]. unfold bind_of. cbn [nm_DefaultOptions nm_AutoDetectInterface].
  rewrite Ho, Ha. cbn [no_BindInterface]. rewrite Hif, Hauto, Hd. cbn [String.eqb negb andb].
  destruct pi as [pi|]; cbn [is_nil negb]; [|by destruct (_ && _)].
  assert (st_strategy (strategy_of options (mkNetworkOptions "" (rt_DefaultMark o) (rt_DefaultNetworkStrategy o) (rt_DefaultNetworkType o)
             (rt_DefaultFallbackNetworkType o) (rt_DefaultFallbackDelay o))) = Some st) as Hr.
  { unfold strategy_of. rewrite Ho1, Ho2, Ho3. cbn. by rewrite Hst. }
  rewrite Hif in *. by destruct (_ && _).
Qed.

(** Without a monitor of the interfaces the rules that ask for the default network end in a nil dereference,
    and sockets are bound to nothing, even where the configuration asks for it. *)
Lemma no_monitor_panics cm o rules e2 m d : NewNetworkManager (F := F) platform None cm o rules (Some os_ErrInvalid) e2 = Ok m →
  is_panic (DefaultNetworkInterface d m) = true ∧ AutoDetectInterfaceFunc m = NoControl.
Proof.
  unfold NewNetworkManager. destruct (unsupported platform o); [done|]. destruct (strategy_conflict o); [done|].
  unfold new_monitors. rewrite orb_true_r. by intros [= <-].
Qed.

(** *** Starting and closing *)

Context (newErr startErr closeErr : Part → option error).

Lemma start_parts_calls parts r calls : start_parts startErr parts = (r, calls) → ∀ p, StartPart p ∈ calls → p ∈ parts.
Proof.
  revert r calls. induction parts as [|q parts IH]; intros r calls; cbn; [intros [= <- <-] p; by intros ?%elem_of_nil|].
  destruct (startErr q); [intros [= <- <-] p ->%list_elem_of_singleton%(f_equal (λ c, match c with StartPart p | ClosePart p => p end)); left|].
  destruct (start_parts startErr parts) as [r1 calls1]. intros [= <- <-] p [[= ->]|Hp]%elem_of_cons; [left|right]. by eapply IH.
Qed.

Lemma with_part_mono p q parts : parts q = true → with_part p parts q = true.
Proof. unfold with_part. intros ->. apply orb_true_r. Qed.
Lemma with_part_in p parts : with_part p parts p = true.
Proof. unfold with_part. by rewrite bool_decide_eq_true_2. Qed.
Hint Resolve with_part_mono with_part_in : core.

(** A stage keeps the parts that are there; and what it starts is there, unless it is the package manager
    and did not start. *)
Lemma Start_parts stage (m : NetworkManager F) r m' calls : NetworkManager_Start platform newErr startErr stage m = (r, m', calls) →
  (∀ p, nw_parts m p = true → nw_parts m' p = true) ∧
  (∀ p, StartPart p ∈ calls → nw_parts m' p = true ∨ startErr p ≠ None) ∧ nw_connectionManager m' = nw_connectionManager m.
Proof.
  destruct stage; cbn [NetworkManager_Start].
  - destruct (start_parts _ _) as [r1 calls1] eqn:Hs. intros [= <- <- <-]. split_and!; [done| |done].
    intros p Hp. left. eapply start_parts_calls in Hs; [|done]. apply list_elem_of_In, List.filter_In in Hs. apply Hs.
  - destruct (start_power _ _ _ _) as [[r1 m1] calls1] eqn:H1.
    assert ((∀ p, nw_parts m p = true → nw_parts m1 p = true) ∧ (∀ p, StartPart p ∈ calls1 → nw_parts m1 p = true) ∧
      nw_connectionManager m1 = nw_connectionManager m) as (Hm1 & Hc1 & Hcm1).
    { unfold start_power in H1. set (m0 := if IsWindows platform && _ then _ else _) in H1.
      assert ((∀ p, nw_parts m p = true → nw_parts m0 p = true) ∧ nw_connectionManager m0 = nw_connectionManager m) as [Hm0 Hcm0].
      { unfold m0. destruct (_ && _); [|done]. split; [|done]. intros p. apply with_part_mono. }
      clearbody m0. destruct (nw_parts m0 PowerListener) eqn:Hp; injection H1 as <- <- <-; (split_and!; [done| |done]); intros p; rewrite ?elem_of_nil; [|done].
      by intros [= ->]%list_elem_of_singleton. }
    destruct r1 as [[]|e|e]; [|intros [= <- <- <-]; split_and!; [done|intros p Hp; left; by apply Hc1|done]..].
    destruct (start_packages _ _ _ _) as [[r2 m2] calls2] eqn:H2. intros [= <- <- <-]. unfold start_packages in H2.
    destruct (_ && _); [|injection H2 as <- <- <-; split_and!; [done|intros p; rewrite app_nil_r; intros Hp; left; by apply Hc1|done]].
    destruct (newErr PackageManager); [injection H2 as <- <- <-; split_and!; [done|intros p; rewrite app_nil_r; intros Hp; left; by apply Hc1|done]|].
    injection H2 as <- <- <-. destruct (startErr PackageManager) eqn:He; cbn [is_nil].
    + split_and!; [done| |done]. intros p [Hp|[= ->]%list_elem_of_singleton]%elem_of_app; [left; by apply Hc1|right; by rewrite He].
    + split_and!; [intros p Hp; by apply with_part_mono, Hm1| |done].
      intros p [Hp|[= ->]%list_elem_of_singleton]%elem_of_app; left; [apply with_part_mono; by apply Hc1|apply with_part_in].
  - unfold start_wifi. destruct (_ && _ && _); intros [= <- <- <-]; (split_and!; [|intros p|done]); [intros p; apply with_part_mono| |done|by intros ?%elem_of_nil].
    intros [= ->]%list_elem_of_singleton. left. apply with_part_in.
  - intros [= <- <- <-]. split_and!; [done| |done]. intros p ?%elem_of_nil. done.
Qed.

(** The stages of a start, until one fails. *)
Fixpoint start_stages (stages : list StartStage) (m : NetworkManager F) : res unit * NetworkManager F * list Call :=
  match stages with
  | [] => (Ok tt, m, [])
  | stage :: stages =>
      match NetworkManager_Start platform newErr startErr stage m with
      | (Ok _, m, calls) => let '(r, m, calls') := start_stages stages m in (r, m, calls ++ calls')
      | r => r
      end
  end.

Lemma start_stages_parts stages : ∀ m r m' calls, start_stages stages m = (r, m', calls) →
  (∀ p, nw_parts m p = true → nw_parts m' p = true) ∧
  (∀ p, StartPart p ∈ calls → nw_parts m' p = true ∨ startErr p ≠ None) ∧ nw_connectionManager m' = nw_connectionManager m.
Proof.
  induction stages as [|stage stages IH]; intros m r m' calls; cbn [start_stages].
  { intros [= <- <- <-]. split_and!; [done| |done]. intros p ?%elem_of_nil. done. }
  destruct (NetworkManager_Start _ _ _ _ _) as [[r1 m1] calls1] eqn:H1. apply Start_parts in H1 as (Hm1 & Hc1 & Hcm1).
  destruct r1 as [[]|e|e]; [|intros [= <- <- <-]; done..].
  destruct (start_stages stages m1) as [[r2 m2] calls2] eqn:H2. apply IH in H2 as (Hm2 & Hc2 & Hcm2). intros [= <- <- <-].
  split_and!; [by eauto| |congruence]. intros p [Hp|Hp]%elem_of_app; [|by apply Hc2]. destruct (Hc1 p Hp); [left; by apply Hm2|by right].
Qed.

Lemma Close_error parts : ∀ err, fold_left (λ err p, E_Append err (closeErr p) (λ err, E_Cause err [AStr (close_name p)])) parts err = None ↔
  err = None ∧ ∀ p, p ∈ parts → closeErr p = None.
Proof.
  induction parts as [|p parts IH]; intros err; cbn [fold_left].
  { split; [intros ->; split; [done|intros ? ?%elem_of_nil; done]|by intros [-> _]]. }
  rewrite IH. unfold E_Append. destruct (closeErr p) as [e|] eqn:He.
  - split; [by intros [? _]|]. intros [_ Hp]. rewrite Hp in He by left. done.
  - split; intros [-> Hp]; (split; [done|]); intros q; [intros [->|]%elem_of_cons; [done|by apply Hp]|intros ?; apply Hp; by right].
Qed.

(** Whatever stage fails, closing the manager closes what has been started, each part once; and it reports an
    error exactly when a part does. *)
Lemma started_is_closed stages m r m' calls : start_stages stages m = (r, m', calls) →
  (∀ p, StartPart p ∈ calls → startErr p = None → ClosePart p ∈ (NetworkManager_Close closeErr m').2) ∧
  NoDup (NetworkManager_Close closeErr m').2 ∧
  ((NetworkManager_Close closeErr m').1 = None ↔ ∀ p, nw_parts m' p = true → closeErr p = None).
Proof.
  intros (_ & Hc & _)%start_stages_parts. assert (∀ p, p ∈ List.filter (nw_parts m') close_order ↔ nw_parts m' p = true) as Hp.
  { intros p. rewrite list_elem_of_In, List.filter_In. split; [by intros [_ ?]|]. split; [|done]. destruct p; cbn; auto 10. }
  unfold NetworkManager_Close. cbn [fst snd]. split_and!.
  - intros p Hs He. apply list_elem_of_fmap. exists p. split; [done|]. apply Hp. destruct (Hc p Hs) as [|Hn]; [done|by destruct Hn].
  - apply NoDup_fmap_2; [by intros ?? [= ->]|]. apply NoDup_ListNoDup, List.NoDup_filter, NoDup_ListNoDup. by apply (bool_decide_unpack _); vm_compute.
  - rewrite Close_error. split; [intros [_ H] p Hn; by apply H, Hp|intros H; split; [done|intros p Hn; by apply H, Hp]].
Qed.

End MoreProofs.

Section Changes.
Context {L : ExtLib} {AL : ActionLib} {F : Type} {IF : InterfaceFinder F} (platform : Platform) (IFF_MULTICAST : Z).

(** *** The interfaces *)

Lemma linkFlags_bits k raw :
  Z.testbit (linkFlags k raw) 0 = Z.testbit raw 0 ∧ Z.testbit (linkFlags k raw) 1 = Z.testbit raw 1 ∧
  Z.testbit (linkFlags k raw) 2 = Z.testbit raw 3 ∧ Z.testbit (linkFlags k raw) 3 = Z.testbit raw 4 ∧
  Z.testbit (linkFlags k raw) 4 = Z.testbit raw k ∧ Z.testbit (linkFlags k raw) 5 = Z.testbit raw 6.
Proof.
  unfold linkFlags. rewrite !Z.lor_spec.
  destruct (Z.testbit raw 0), (Z.testbit raw 6), (Z.testbit raw 1), (Z.testbit raw 3), (Z.testbit raw 4), (Z.testbit raw k); done.
Qed.

Lemma UniqBy_elem {A} (key : A → string) l : ∀ seen x, x ∈ UniqBy key seen l → x ∈ l ∧ key x ∉ seen.
Proof.
  induction l as [|y l IH]; intros seen x; cbn [UniqBy]; [by intros ?%elem_of_nil|]. destruct (decide (key y ∈ seen)).
  - intros [? ?]%IH. split; [by right|done].
  - intros [->|[? Hx]%IH]%elem_of_cons; [split; [left|done]|]. split; [by right|]. intros ?. apply Hx. by right.
Qed.

(** Of every key the first stays. *)
Lemma UniqBy_spec {A} (key : A → string) l : ∀ seen, NoDup (key <$> UniqBy key seen l) ∧
  (∀ x, x ∈ l → key x ∉ seen → key x ∈ key <$> UniqBy key seen l).
Proof.
  induction l as [|y l IH]; intros seen; cbn [UniqBy]; [split; [constructor|by intros ? ?%elem_of_nil]|]. destruct (decide (key y ∈ seen)) as [Hy|Hy].
  - destruct (IH seen) as [H1 H2]. split; [done|]. intros x [->|Hx]%elem_of_cons; [done|by apply H2].
  - destruct (IH (key y :: seen)) as [H1 H2]. rewrite fmap_cons. split.
    + constructor; [|done]. intros (x & Hk & [_ Hx]%UniqBy_elem)%list_elem_of_fmap. apply Hx. rewrite Hk. left.
    + intros x [->|Hx]%elem_of_cons Hs; [left|]. destruct (decide (key x = key y)) as [->|]; [left|right]. apply H2; [done|]. by intros [|]%elem_of_cons.
Qed.

(** The interface of the client an interface comes from: the flags of the platform count for the default
    interface that is shown at the moment. *)
Definition comes_from (w : Wrapper) (ci : ClientInterface) (it : NetworkInterface) : Prop :=
  let isDefault := bool_decide (if_Index <$> pw_defaultInterface w = Some (ci_Index ci)) in
  if_Index (ni_Interface it) = ci_Index ci ∧ interface_name it = ci_Name ci ∧ ci_Name ci ≠ pw_myTunName w ∧
  if_Flags (ni_Interface it) = linkFlags IFF_MULTICAST (ci_Flags ci) ∧ ni_Type it = ci_Type ci ∧
  ni_Expensive it = ci_Metered ci || isDefault && pw_isExpensive w ∧ ni_Constrained it = isDefault && pw_isConstrained w.

Lemma client_interfaces_spec w l : ∀ its, client_interfaces IFF_MULTICAST w l = Ok its → ∀ it, it ∈ its → ∃ ci, ci ∈ l ∧ comes_from w ci it.
Proof.
  induction l as [|ci l IH]; intros its; cbn [client_interfaces]; [intros [= <-] ? ?%elem_of_nil; done|].
  destruct (String.eqb_spec (ci_Name ci) (pw_myTunName w)) as [|Hn].
  { intros Hits it (ci' & ? & ?)%(IH _ Hits). exists ci'. split; [by right|done]. }
  intros (it & Hit & (its' & Hits & [= <-])%bind_Ok)%bind_Ok x [->|Hx]%elem_of_cons.
  - exists ci. split; [left|]. apply bind_Ok in Hit as (addresses & _ & [= <-]). unfold comes_from, interface_name. cbn.
    assert ((match pw_defaultInterface w with Some iif => Z.eqb (ci_Index ci) (if_Index iif) | None => false end) =
      bool_decide (if_Index <$> pw_defaultInterface w = Some (ci_Index ci))) as ->; [|done].
    destruct (pw_defaultInterface w) as [iif|]; [|done]. cbn. destruct (Z.eqb_spec (ci_Index ci) (if_Index iif)) as [->|Hne]; [by rewrite bool_decide_eq_true_2|].
    rewrite bool_decide_eq_false_2; [done|]. intros [= ?]. congruence.
  - destruct (IH _ Hits _ Hx) as (ci' & ? & ?). exists ci'. split; [by right|done].
Qed.

Lemma client_interfaces_no_error w l e : client_interfaces IFF_MULTICAST w l ≠ Err e.
Proof.
  assert (∀ ss, parse_addresses ss ≠ Err e) as Hp.
  { induction ss as [|s ss IH]; cbn [parse_addresses]; [done|]. unfold MustParsePrefix. destruct (netip_ParsePrefix s); cbn; [|done..].
    by destruct (parse_addresses ss). }
  induction l as [|ci l IH]; cbn [client_interfaces]; [done|]. destruct (String.eqb _ _); [done|]. unfold client_interface.
  specialize (Hp (ci_Addresses ci)). destruct (parse_addresses _); cbn; [|congruence|done]. by destruct (client_interfaces _ w l).
Qed.

(** Reading the interfaces, where the platform has them: those that are up, of every name one, each from one
    of the client; and the flags of the update count for the default interface that was shown before it. *)
Lemma read_interfaces_spec u (s s' : System F) l : read_interfaces platform IFF_MULTICAST u s = Ok s' →
  platform_has UsePlatformNetworkInterfaces (sys_manager s) = true → IsDarwin platform = false → up_GetInterfaces u = Ok l →
  NoDup (interface_name <$> nw_networkInterfaces (sys_manager s')) ∧
  ∀ it, it ∈ nw_networkInterfaces (sys_manager s') → is_up it = true ∧ ∃ ci, ci ∈ l ∧ comes_from (sys_wrapper s') ci it.
Proof.
  unfold read_interfaces, UpdateInterfaces. intros Hr Hp Hd Hl. rewrite Hp, Hd, Hl in Hr. cbn [negb] in Hr. unfold NetworkInterfaces in Hr.
  cbn [mbind res_bind] in Hr. set (w := sys_wrapper s <| pw_isExpensive := _ |> <| pw_isConstrained := _ |>) in Hr.
  destruct (client_interfaces IFF_MULTICAST w l) as [its|e|p] eqn:Hc; cbn [mbind res_bind] in Hr.
  2:{ by destruct (client_interfaces_no_error w l e). }
  2:{ done. }
  injection Hr as <-. cbn [sys_manager sys_wrapper nw_networkInterfaces set_field].
  change (nw_networkInterfaces _) with (List.filter is_up (UniqBy interface_name [] its)).
  pose proof (UniqBy_spec interface_name its []) as [Hnd _]. split.
  - clear -Hnd. induction (UniqBy interface_name [] its) as [|x l IH]; [constructor|]. rewrite fmap_cons in Hnd. apply list.NoDup_cons in Hnd as [Hx Hnd].
    cbn [List.filter]. destruct (is_up x); [|by apply IH]. rewrite fmap_cons. constructor; [|by apply IH].
    intros (y & Hy & Hin%list_elem_of_In%List.filter_In)%list_elem_of_fmap. apply Hx. rewrite Hy. apply list_elem_of_fmap_2, list_elem_of_In, Hin.
  - intros it [Hin Hup]%list_elem_of_In%List.filter_In. split; [done|]. apply list_elem_of_In, UniqBy_elem in Hin as [Hin _].
    by eapply client_interfaces_spec.
Qed.

(** *** Power *)

Section Power.
(** Whether the pause manager has the device paused after these events. *)
Context (IsDevicePaused : list Event → bool).
Hypothesis paused_nil : IsDevicePaused [] = false.
Hypothesis paused_snoc : ∀ t e, IsDevicePaused (t ++ [e]) =
  match e with DevicePause => true | DeviceWake => false | _ => IsDevicePaused t end.

(** The events of the system one after the other, with all that is done. *)
Fixpoint power_run (members : Members) (m : NetworkManager F) (events : list PowerEvent) (t : list Event) : list Event :=
  match events with
  | [] => t
  | e :: events => power_run members m events (t ++ notifyWindowsPowerEvent members (IsDevicePaused t) e m)
  end.

Lemma power_run_snoc members m events e : ∀ t, power_run members m (events ++ [e]) t =
  power_run members m events t ++ notifyWindowsPowerEvent members (IsDevicePaused (power_run members m events t)) e m.
Proof. induction events as [|x events IH]; intros t; [done|apply IH]. Qed.

Lemma paused_reset members (m : NetworkManager F) t : IsDevicePaused (t ++ ResetNetwork members m) = IsDevicePaused t.
Proof.
  assert (∀ e, e ∈ ResetNetwork members m → e ≠ DevicePause ∧ e ≠ DeviceWake) as He.
  { unfold ResetNetwork, listeners. intros e. rewrite !elem_of_app, !list_elem_of_fmap. intros [He|[He|[He|He]]]; [|by destruct He as (? & -> & _)..].
    destruct (nw_connectionManager m); [apply list_elem_of_singleton in He as ->; done|by apply elem_of_nil in He]. }
  induction (ResetNetwork members m) as [|e l IH] using rev_ind; [by rewrite app_nil_r|]. rewrite app_assoc, paused_snoc.
  destruct (He e) as [H1 H2]; [apply elem_of_app; right; left|]. destruct e; try done; (apply IH; intros x Hx; apply He, elem_of_app; by left).
Qed.

(** The device is paused exactly after a suspend; and a resume that follows another one does nothing. *)
Lemma power_paused members m events :
  IsDevicePaused (power_run members m events []) = match list.last events with Some EVENT_SUSPEND => true | _ => false end ∧
  (list.last events ≠ Some EVENT_SUSPEND → power_run members m (events ++ [EVENT_RESUME]) [] = power_run members m events []).
Proof.
  assert (IsDevicePaused (power_run members m events []) = match list.last events with Some EVENT_SUSPEND => true | _ => false end) as Hp.
  { induction events as [|e events IH] using rev_ind; [done|]. rewrite power_run_snoc, list.last_snoc.
    assert (∀ t x, IsDevicePaused (t ++ x :: ResetNetwork members m) = IsDevicePaused (t ++ [x])) as Hr.
    { intros t x. change (x :: ResetNetwork members m) with ([x] ++ ResetNetwork members m).
      by rewrite app_assoc, paused_reset. }
    destruct e; cbn [notifyWindowsPowerEvent]; [by rewrite Hr, paused_snoc| |by rewrite Hr, paused_snoc].
    destruct (IsDevicePaused (power_run members m events [])) eqn:Hq; [by rewrite Hr, paused_snoc|by rewrite app_nil_r]. }
  split; [done|]. intros Hl. rewrite power_run_snoc, Hp. destruct (list.last events) as [[]|]; [done|..]; apply app_nil_r.
Qed.
End Power.

(** *** Small facts *)

(** The mark is the first that was registered, not counting those that are zero. *)
Lemma first_mark_stays marks : Forall (λ k, 0 ≤ k) marks → ∀ m : NetworkManager F,
  nw_autoRedirectOutputMark (fold_left (λ m k, (RegisterAutoRedirectOutputMark k m).2) marks m) =
  default 0 (find (λ k, Z.ltb 0 k) (nw_autoRedirectOutputMark m :: marks)) ∨ nw_autoRedirectOutputMark m < 0.
Proof.
  intros Hm. induction Hm as [|k marks Hk Hm IH]; intros m; cbn [fold_left find].
  { destruct (Z.ltb_spec 0 (nw_autoRedirectOutputMark m)); cbn; lia. }
  destruct (IH (RegisterAutoRedirectOutputMark k m).2) as [->|Hn]; unfold RegisterAutoRedirectOutputMark in *;
    destruct (Z.ltb_spec 0 (nw_autoRedirectOutputMark m)) as [H|H]; cbn [snd find] in *.
  - left. rewrite (proj2 (Z.ltb_lt _ _) H). done.
  - left. done.
  - lia.
  - change (k < 0) in Hn. lia.
Qed.

(** The state of the WIFI is what was heard last. *)
Lemma wifi_last states : ∀ m : NetworkManager F,
  nw_wifiState (fold_left (λ m s, onWIFIStateChanged s m) states m) = default (nw_wifiState m) (list.last states).
Proof.
  induction states as [|s states IH] using rev_ind; intros m; [done|]. rewrite fold_left_app, list.last_snoc. cbn. unfold onWIFIStateChanged at 1.
  case_bool_decide as Hs; [done|]. destruct (decide (s = nw_wifiState (fold_left (λ m s, onWIFIStateChanged s m) states m))) as [->|]; [done|by destruct Hs].
Qed.

End Changes.

Section Connections.
Context {L : ExtLib} {AL : ActionLib} {F : Type} {IF : InterfaceFinder F} {IFL : InterfaceFinderLaws F} (platform : Platform) (IFF_MULTICAST : Z).

(** The events of a run are pauses and resets. *)
Lemma run_events members us e : ∀ (s s' : System F) seen, run_updates platform IFF_MULTICAST members us s = Ok (s', seen) → Ev e ∈ seen →
  e = NetworkPause ∨ e = NetworkWake ∨ e ∈ ResetNetwork members (sys_manager s).
Proof.
  induction us as [|u us IH]; intros s s' seen; cbn [run_updates]; [by intros [= <- <-] ?%elem_of_nil|].
  intros ([s1 seen1] & Hu & ([s2 seen2] & Hus & [= <- <-])%bind_Ok)%bind_Ok [Hin|Hin]%elem_of_app.
  - apply update_inv in Hu as [_ Hc]; [|done]. inversion Hc as [? ? Heq|? Heq|? ? ? ? ? Heq|? ? events ? ? ? ? ? ? Hev Heq]; subst.
    + apply elem_of_cons in Hin as [|[= ->]%list_elem_of_singleton]; [done|by left].
    + by apply elem_of_nil in Hin.
    + by apply list_elem_of_singleton in Hin.
    + apply elem_of_cons in Hin as [|(? & [= <-] & Hin)%list_elem_of_fmap]; [done|].
      destruct Hev as [->| ->]; [apply list_elem_of_singleton in Hin as ->; by right; left|].
      apply elem_of_cons in Hin as [->|]; [by right; left|by right; right].
  - rewrite <-(ResetNetwork_shape members (sys_manager s) (sys_manager s1)); [by eapply IH|]. by apply update_inv in Hu as [? _].
Qed.

(** The box makes the connection manager after the network manager, which has looked for it before: however the
    box is started and whatever the client tells of the network, a reset never closes the connections. *)
Lemma reset_keeps_connections pi o rules e1 e2 registry (m : NetworkManager F) registry' newErr startErr stages r m' calls members us w s' seen :
  New_network platform pi o rules e1 e2 registry = Ok (m, registry') → ConnectionManagerS ∉ registry →
  start_stages platform newErr startErr stages m = (r, m', calls) →
  run_updates platform IFF_MULTICAST members us (mkSystem w m') = Ok (s', seen) →
  ConnectionManagerS ∈ registry' ∧ Ev CloseAll ∉ seen.
Proof.
  unfold New_network. intros (m0 & Hn & [= -> <-])%bind_Ok Hreg (_ & _ & Hcm)%start_stages_parts Hrun.
  split; [rewrite elem_of_app; right; right; left|]. intros Hev. pose proof (run_events _ _ _ _ _ _ Hrun Hev) as [|[|Hin]]; [done..|].
  cbn [sys_manager] in Hin. unfold ResetNetwork in Hin. rewrite Hcm in Hin.
  destruct (NewNetworkManager _ _ _ _ _ _ _) as [m1|?|?] eqn:Hm1; [|done..]. injection Hn as ->.
  apply NewNetworkManager_accepts in Hm1 as (_ & _ & _ & _ & _ & Hcm' & _). rewrite Hcm', bool_decide_eq_false_2 in Hin.
  - unfold listeners in Hin. rewrite !elem_of_app, !list_elem_of_fmap in Hin. destruct Hin as [Hin|[Hin|[Hin|Hin]]]; [by apply elem_of_nil in Hin|by destruct Hin as (? & ? & _)..].
  - rewrite elem_of_app. intros [|Hin']; [done|]. pose proof (bool_decide_eq_true_2 _ Hin') as Hb. by vm_compute in Hb.
Qed.

End Connections.

Section Listed.
Context {L : ExtLib} {AL : ActionLib} {F : Type} {IF : InterfaceFinder F} {IFL : InterfaceFinderLaws F} (platform : Platform) (IFF_MULTICAST : Z).

(** The client lists the interface as up: there is an interface with the index that is not the program's own
    and shares its name with no other index; and whatever has the index is up and has a name. *)
Definition listed_up (mine : string) (i : Z) (l : list ClientInterface) : Prop :=
  (∃ ci, ci ∈ l ∧ ci_Index ci = i ∧ ci_Name ci ≠ mine ∧ ∀ ci', ci' ∈ l → ci_Name ci' = ci_Name ci → ci_Index ci' = i) ∧
  ∀ ci, ci ∈ l → ci_Index ci = i → Z.testbit (ci_Flags ci) 0 = true ∧ ci_Name ci ≠ "".

(** A call that takes the network away, or names an interface that the list the client gives in the same call
    has as up. *)
Definition names_listed (mine : string) (u : Update) : Prop :=
  up_index u = -1 ∨ ∃ l, up_GetInterfaces u = Ok l ∧ listed_up mine (up_index u) l.

(** The part is there and listens to changes of the interfaces. *)
Definition listens (members : Members) (kind tag : string) : Prop :=
  (kind, (tag, true)) ∈ ((pair "endpoint" <$> mb_endpoints members) ++ (pair "inbound" <$> mb_inbounds members) ++ (pair "outbound" <$> mb_outbounds members)).

Lemma listens_reset members kind tag (m : NetworkManager F) : listens members kind tag → InterfaceUpdated kind tag ∈ ResetNetwork members m.
Proof.
  assert (∀ k l, (kind, (tag, true)) ∈ pair k <$> l → InterfaceUpdated kind tag ∈ listeners k l) as Hl.
  { intros k l ([t b] & [= -> <- <-] & Hin)%list_elem_of_fmap. apply list_elem_of_fmap. exists (tag, true). split; [done|].
    apply list_elem_of_In, List.filter_In. by rewrite <-list_elem_of_In. }
  unfold listens, ResetNetwork. rewrite !elem_of_app. intros [H|[H|H]]; apply Hl in H; tauto.
Qed.

Lemma client_interfaces_has w l : ∀ its, client_interfaces IFF_MULTICAST w l = Ok its → ∀ ci, ci ∈ l → ci_Name ci ≠ pw_myTunName w →
  ci_Name ci ∈ interface_name <$> its.
Proof.
  induction l as [|c l IH]; intros its; cbn [client_interfaces]; [by intros _ ? ?%elem_of_nil|].
  destruct (String.eqb_spec (ci_Name c) (pw_myTunName w)) as [Hc|Hc].
  { intros Hits ci [->|Hin]%elem_of_cons Hn; [done|by apply (IH its)]. }
  intros (it & (ps & _ & [= <-])%bind_Ok & (its' & Hits & [= <-])%bind_Ok)%bind_Ok ci [->|Hin]%elem_of_cons Hn; rewrite fmap_cons; [left|right].
  by apply IH.
Qed.

Lemma listed_found u (s : System F) : platform_has UsePlatformNetworkInterfaces (sys_manager s) = true → IsDarwin platform = false →
  names_listed (pw_myTunName (sys_wrapper s)) u → found platform IFF_MULTICAST u s.
Proof.
  intros Hp Hd [?|(l & Hl & (ci & Hci & Hi & Hmine & Hname) & Hup)]; [by left|right]. intros s' Hr.
  pose proof (read_interfaces_spec platform IFF_MULTICAST u s s' l Hr Hp Hd Hl) as [_ Hall].
  assert (∃ x, x ∈ nw_networkInterfaces (sys_manager s') ∧ has_index (up_index u) x = true) as (x & Hx & Hxi).
  { clear Hall. unfold read_interfaces, UpdateInterfaces in Hr. rewrite Hp, Hd, Hl in Hr. cbn [negb] in Hr. unfold NetworkInterfaces in Hr.
    cbn [mbind res_bind] in Hr. set (w := sys_wrapper s <| pw_isExpensive := _ |> <| pw_isConstrained := _ |>) in Hr.
    destruct (client_interfaces IFF_MULTICAST w l) as [its|e|p] eqn:Hc; cbn [mbind res_bind] in Hr; [|by destruct (client_interfaces_no_error IFF_MULTICAST w l e)|done].
    injection Hr as <-. cbn [sys_manager]. change (nw_networkInterfaces _) with (List.filter is_up (UniqBy interface_name [] its)).
    pose proof (client_interfaces_has _ _ _ Hc ci Hci Hmine) as (y & Hy & Hin)%list_elem_of_fmap.
    destruct (UniqBy_spec interface_name its []) as [_ Hk]. specialize (Hk y Hin (not_elem_of_nil _)).
    apply list_elem_of_fmap in Hk as (x & Hxy & Hx). exists x.
    pose proof Hx as [Hxin _]%UniqBy_elem. destruct (client_interfaces_spec _ _ _ _ Hc x Hxin) as (ci' & Hci' & Hxi & Hxn & _ & Hxf & _).
    assert (ci_Index ci' = up_index u) as Hidx by (apply Hname; [done|congruence]). destruct (Hup _ Hci' Hidx) as [Hf _]. split.
    - apply list_elem_of_In, List.filter_In. split; [by apply list_elem_of_In|]. unfold is_up. rewrite Hxf.
      by rewrite (proj1 (linkFlags_bits IFF_MULTICAST (ci_Flags ci'))).
    - unfold has_index. by rewrite Hxi, Hidx, Z.eqb_refl. }
  destruct (find (has_index (up_index u)) (nw_networkInterfaces (sys_manager s'))) as [it|] eqn:Hfind.
  - exists it. split; [done|]. apply find_some in Hfind as [Hin Hit]. apply list_elem_of_In in Hin. apply Z.eqb_eq in Hit.
    destruct (Hall _ Hin) as (_ & ci' & Hci' & Hii & -> & _). apply (Hup ci'); [done|congruence].
  - rewrite (find_none _ _ Hfind x) in Hxi; [done|by apply list_elem_of_In].
Qed.

Lemma update_myTunName members u (s s' : System F) seen : updateDefaultInterface platform IFF_MULTICAST members u s = Ok (s', seen) →
  pw_myTunName (sys_wrapper s') = pw_myTunName (sys_wrapper s).
Proof.
  intros (s1 & Hr & Hu)%bind_Ok. assert (pw_myTunName (sys_wrapper s1) = pw_myTunName (sys_wrapper s)) as <-.
  { unfold read_interfaces in Hr. destruct (UpdateInterfaces _ _ _) as [[[]|e|p] m]; [by injection Hr as <-..|done]. }
  cbv zeta in Hu. destruct (Z.eqb _ _); [by injection Hu as <- <-|]. destruct (Finder_ByIndex _ _) as [[iif|e|p] f]; [|by injection Hu as <- <-|done].
  case_bool_decide; [by injection Hu as <- <-|]. destruct (notifyInterfaceUpdate _ _ _ _ _) as [m events]. by injection Hu as <- <-.
Qed.

Lemma all_listed_found members us : ∀ s : System F, platform_has UsePlatformNetworkInterfaces (sys_manager s) = true → IsDarwin platform = false →
  Forall (names_listed (pw_myTunName (sys_wrapper s))) us → all_found platform IFF_MULTICAST members us s.
Proof.
  induction us as [|u us IH]; intros s Hp Hd Hus; [done|]. apply list.Forall_cons in Hus as [Hu Hus]. split; [by apply listed_found|].
  intros s' seen Hs. apply IH; [|done|by rewrite (update_myTunName _ _ _ _ _ Hs)].
  apply update_inv in Hs as [(_ & Hpi & _) _]; [|done]. revert Hp. unfold platform_has. by rewrite Hpi.
Qed.

Lemma run_resets members us (s s' : System F) seen : run_updates platform IFF_MULTICAST members us s = Ok (s', seen) →
  nw_started (sys_manager s) = true → all_found platform IFF_MULTICAST members us s →
  ∀ h1 a h2 e, Shows (name_index <$> pw_defaultInterface (sys_wrapper s)) :: seen = h1 ++ Shows (Some a) :: h2 →
    e ∈ ResetNetwork members (sys_manager s) → Ev e ∉ h2 → agrees a s'.
Proof.
  revert s seen. induction us as [|u us IH]; intros s seen.
  - intros [= <- <-] _ _ h1 a h2 e Heq _ _ iif Hiif. destruct h1 as [|x h1]; [|by destruct h1].
    rewrite Hiif in Heq. injection Heq as Heq _. exact Heq.
  - intros Hrun Hs Hall h1 a h2 e Heq He Hno. destruct h1 as [|x h1].
    { injection Heq as Hd <-. apply (run_agrees platform IFF_MULTICAST members (u :: us) s s' seen a e); try done.
      intros iif Hiif. rewrite Hiif in Hd. by injection Hd. }
    injection Heq as _ Heq. apply bind_Ok in Hrun as ([s1 seen1] & Hu & ([s2 seen2] & Hus & [= <- <-])%bind_Ok).
    pose proof (update_inv platform IFF_MULTICAST _ _ _ _ _ Hu) as [Hm Hc]. destruct Hall as [Hl Hls]. specialize (Hls _ _ Hu).
    assert (nw_started (sys_manager s1) = true) as Hs1 by (by destruct Hm as (_ & _ & -> & _)).
    rewrite <-(ResetNetwork_shape _ _ _ Hm) in He.
    apply app_eq_inv in Heq as [(k & -> & Hk)|(k & -> & ->)].
    + destruct k as [|y k]; [by apply (IH _ _ Hus Hs1 Hls [Shows (name_index <$> pw_defaultInterface (sys_wrapper s1))] a h2 e); [rewrite Hk|..]|].
      injection Hk as <- ->. rewrite elem_of_app in Hno.
      apply (run_agrees platform IFF_MULTICAST members us s1 s2 seen2 a e); try done; [by intros ?; apply Hno; right|].
      by eapply shown_first.
    + by apply (IH _ _ Hus Hs1 Hls (Shows (name_index <$> pw_defaultInterface (sys_wrapper s1)) :: k) a h2 e).
Qed.

End Listed.

(** ** Properties *)

Section Properties.
Context {L : ExtLib} {AL : ActionLib} {F : Type} {IF : InterfaceFinder F} {IFL : InterfaceFinderLaws F} (platform : Platform) (IFF_MULTICAST : Z).

(** C32: On a mobile client other than Apple's, with a manager that is started: the client makes any number of
    calls, each of which takes the network away or names an interface that the list it gives in that call has
    as up.  If an interface was shown as the default, and the one that is shown in the end is another, then
    every endpoint, inbound and outbound that listens to changes has been told since the first one was shown.
    (An interface that the list does not have as up when it is named is never told of: [reset_lost].  The
    connections are not closed by any of this: [reset_keeps_connections].) *)
Theorem default_change_resets members us (s s' : System F) seen : run_updates platform IFF_MULTICAST members us s = Ok (s', seen) →
  nw_started (sys_manager s) = true → platform_has UsePlatformNetworkInterfaces (sys_manager s) = true → IsDarwin platform = false →
  Forall (names_listed (pw_myTunName (sys_wrapper s))) us →
  ∀ h1 a h2 iif kind tag, Shows (name_index <$> pw_defaultInterface (sys_wrapper s)) :: seen = h1 ++ Shows (Some a) :: h2 →
    pw_defaultInterface (sys_wrapper s') = Some iif → name_index iif ≠ a →
    listens members kind tag → Ev (InterfaceUpdated kind tag) ∈ h2.
Proof.
  intros Hrun Hs Hp Hd Hus h1 a h2 iif kind tag Heq Hiif Hne Hl. destruct (decide (Ev (InterfaceUpdated kind tag) ∈ h2)) as [|Hno]; [done|].
  destruct Hne. eapply (run_resets platform IFF_MULTICAST members us s s' seen Hrun Hs); [by apply all_listed_found|done|by apply listens_reset|done..].
Qed.

End Properties.
Section Examples.
#[local] Existing Instance SampleLib.
#[local] Existing Instance SampleActions.

Lemma default_change_resets_witness : ∃ s s' seen,
  run_updates android 12 ex_members [switch_to 1 false [wlan; rmnet]; switch_to 2 true [wlan; rmnet]; switch_to 2 false [rmnet]] s = Ok (s', seen) ∧
  ∃ h1 h2, Shows None :: seen = h1 ++ Shows (Some ("wlan0", 1)) :: h2 ∧ Ev (InterfaceUpdated "inbound" "tun") ∈ h2.
Proof.
  destruct ex_manager as [m|] eqn:Hm; [|vm_compute in Hm; discriminate Hm]. exists (mkSystem (mkWrapper "tun0" None false false) m).
  vm_compute in Hm. injection Hm as <-.
  destruct (run_updates _ _ _ _ _) as [[s' seen]|?|?] eqn:E; [|vm_compute in E; discriminate E..].
  exists s', seen. split; [done|]. exists [Shows None]. eexists. split; [vm_compute in E; injection E as <- <-; reflexivity|].
  refine (default_change_resets android 12 ex_members _ _ _ _ E _ _ _ _ [Shows None] ("wlan0", 1) _ (mkInterface 2 "rmnet0" [] 1) "inbound" "tun" _ _ _ _).
  - reflexivity.
  - reflexivity.
  - reflexivity.
  - assert (∀ ci, ci ∈ [wlan; rmnet] → ci = wlan ∨ ci = rmnet) as H2.
    { intros ci [->|[->|[]%elem_of_nil]%elem_of_cons]%elem_of_cons; tauto. }
    assert (∀ ci, ci ∈ [rmnet] → ci = rmnet) as H1 by (intros ci [->|[]%elem_of_nil]%elem_of_cons; done).
    apply List.Forall_cons; [|apply List.Forall_cons; [|apply List.Forall_cons; [|apply List.Forall_nil]]]; right; (eexists; split; [reflexivity|]).
    + split; [exists wlan; split_and!; [left|done|done|intros ? [-> | ->]%H2; done]|intros ? [-> | ->]%H2; done].
    + split; [exists rmnet; split_and!; [right; left|done|done|intros ? [-> | ->]%H2; done]|intros ? [-> | ->]%H2; done].
    + split; [exists rmnet; split_and!; [left|done|done|intros ? ->%H1; done]|intros ? ->%H1; done].
  - vm_compute in E. injection E as <- <-. reflexivity.
  - vm_compute in E. by injection E as <- <-.
  - done.
  - unfold listens. apply (bool_decide_unpack _). vm_compute. exact I.
Defined.

(** A default interface that is not up when it is told: the parts are never told of it, even when it is
    listed as up by the next call. *)
Example reset_lost : ∃ s s', ∀ wifi up,
  updateDefaultInterface android 12 ex_members (switch_to 2 false [wlan; mkClientInterface 2 "rmnet0" [] 0 InterfaceTypeCellular false]) s =
    Ok (s', [Shows (Some ("rmnet0", 2)); Ev NetworkWake]) ∧
  name_index <$> pw_defaultInterface (sys_wrapper s) = Some ("wlan0", 1) ∧ nw_started (sys_manager s') = true ∧
  ∃ s2, updateDefaultInterface android 12 ex_members (mkUpdate 2 false false (Ok (if up : bool then [wlan; rmnet] else [rmnet])) wifi) s' =
    Ok (s2, [Shows (Some ("rmnet0", 2))]).
Proof.
  destruct ex_manager as [m|] eqn:Hm; [|vm_compute in Hm; discriminate Hm].
  exists (mkSystem (mkWrapper "tun0" (Some (mkInterface 1 "wlan0" [] 1)) false false) m). vm_compute in Hm. injection Hm as <-.
  eexists. intros wifi up.
  split; [vm_compute; reflexivity|]. split; [reflexivity|]. split; [reflexivity|].
  destruct up; eexists; vm_compute; reflexivity.
Qed.

(** The client says that the network is expensive with the same call that names it: the rules see it after the
    next call only. *)
Example expensive_late : ∃ s s1 s2 seen1 seen2,
  updateDefaultInterface android 12 ex_members (switch_to 2 true [wlan; rmnet]) s = Ok (s1, seen1) ∧
  updateDefaultInterface android 12 ex_members (switch_to 2 true [wlan; rmnet]) s1 = Ok (s2, seen2) ∧
  let expensive s := match DefaultNetworkInterface (pw_defaultInterface (sys_wrapper s)) (sys_manager s) with
                     | Ok d => NetworkIsExpensiveItem_Match (mkEnv d [] [] None (mkWIFIState "" "") None (λ _, None))
                     | _ => false
                     end in
  expensive s1 = false ∧ expensive s2 = true.
Proof.
  destruct ex_manager as [m|] eqn:Hm; [|vm_compute in Hm; discriminate Hm]. exists (mkSystem (mkWrapper "tun0" None false false) m).
  vm_compute in Hm. injection Hm as <-. eexists _, _, _, _. split; [vm_compute; reflexivity|]. split; [vm_compute; reflexivity|]. by vm_compute.
Qed.
End Examples.
