(* ===== verification/ConnManager.v ===== *)
(** * Connections over outbounds (route/conn.go)

    The connection manager opens the connection to the remote end, copies in both directions until both
    have ended, and knows every connection that a dialer has opened.  What happens in which order is a
    trace of actions: the two copies are machines whose steps interleave. *)

From stdpp Require Import base gmap strings list numbers.
From S2P Require Import Prelude GoStd Netip Adapter DnsRules DialRace Dialer.

Local Open Scope Z_scope.

(** ** What the manager knows *)

Module Manager.

(** [connections] are the connections in the list, by their number, in the order they were added; [closed] are
    those that have been closed.  A number is the place of a connection among all that were tracked.

    [route/conn.go:31-35] ConnectionManager *)
Record State : Type := mkState { tracked : nat; connections : list nat; closed : gset nat }.

(** [route/conn.go:47-49] (ConnectionManager).Count *)
Definition Count (m : State) : nat := length (connections m).

(** [route/conn.go:71-80] (ConnectionManager).TrackConn *)
Definition TrackConn (m : State) : nat * State := (tracked m, mkState (S (tracked m)) (connections m ++ [tracked m]) (closed m)).

(** An element that has been removed is not removed again.

    [route/conn.go:374-379] (trackedConn).Close *)
Definition trackedConn_Close (c : nat) (m : State) : State :=
  mkState (tracked m) (List.filter (λ d, negb (Nat.eqb c d)) (connections m)) ({[c]} ∪ closed m).

(** The list is emptied under the lock, and what was in it is closed after it, one by one.

    [route/conn.go:51-64] (ConnectionManager).CloseAll *)
Definition CloseAll_take (m : State) : list nat * State := (connections m, mkState (tracked m) [] (closed m)).
Definition CloseAll_close (c : nat) (m : State) : State := mkState (tracked m) (connections m) ({[c]} ∪ closed m).

(** [closing] are the calls of [CloseAll] that have not closed all they took. *)
Definition Running : Type := State * list (list nat).

Inductive Event : Type := Track | Close (c : nat) | TakeAll | CloseNext (call : nat).

Definition event (r : Running) (e : Event) : Running :=
  let '(m, calls) := r in
  match e with
  | Track => ((TrackConn m).2, calls)
  | Close c => if Nat.ltb c (tracked m) then (trackedConn_Close c m, calls) else r
  | TakeAll => let '(l, m) := CloseAll_take m in (m, calls ++ [l])
  | CloseNext call =>
      match calls !! call with
      | Some (c :: l) => (CloseAll_close c m, <[call := l]> calls)
      | _ => r
      end
  end.

(** Every connection is in the list, or has been closed, or will be closed by a call of [CloseAll]; and the
    list has no connection that has been closed, and none twice. *)
Definition accounted (r : Running) : Prop :=
  (∀ c, (c < tracked r.1)%nat → c ∈ connections r.1 ∨ c ∈ closed r.1 ∨ ∃ l, l ∈ r.2 ∧ c ∈ l) ∧
  (∀ c, c ∈ connections r.1 → (c < tracked r.1)%nat ∧ c ∉ closed r.1) ∧
  NoDup (connections r.1) ∧ (∀ c, c ∈ closed r.1 ∨ (∃ l, l ∈ r.2 ∧ c ∈ l) → (c < tracked r.1)%nat ∧ c ∉ connections r.1).

Lemma accounted_CloseNext m calls call : accounted (m, calls) → accounted (event (m, calls) (CloseNext call)).
Proof.
  intros (Hall & Hin & Hd & Hout). cbn in Hall, Hin, Hd, Hout. unfold event.
  destruct (calls !! call) as [[|c l]|] eqn:Hc; [exact (conj Hall (conj Hin (conj Hd Hout)))| |exact (conj Hall (conj Hin (conj Hd Hout)))].
  assert (∀ l', l' ∈ <[call := l]> calls → ∀ d, d ∈ l' → ∃ l0, l0 ∈ calls ∧ d ∈ l0) as Hsub.
  { intros l' [i Hi]%list_elem_of_lookup d Hd'. apply list_lookup_insert_Some in Hi as [(<- & <- & _)|[_ Hi]].
    - exists (c :: l). split; [by eapply list_elem_of_lookup_2|by right].
    - exists l'. split; [by eapply list_elem_of_lookup_2|done]. }
  assert ((c < tracked m)%nat ∧ c ∉ connections m) as [Hlt Hno].
  { apply Hout. right. exists (c :: l). split; [by eapply list_elem_of_lookup_2|by left]. }
  unfold accounted; split_and!; cbn.
  + intros d Hd'. destruct (Hall d Hd') as [?|[?|(l0 & [i Hi]%list_elem_of_lookup & Hin0)]]; [by left|set_solver|]. right.
    destruct (decide (i = call)) as [->|Hne].
    * rewrite Hc in Hi. injection Hi as <-. apply elem_of_cons in Hin0 as [->|Hin0]; [set_solver|]. right. exists l. split; [|done].
      eapply list_elem_of_lookup_2, list_lookup_insert_eq. by eapply lookup_lt_Some.
    * right. exists l0. split; [|done]. eapply (list_elem_of_lookup_2 _ i). by rewrite list_lookup_insert_ne.
  + intros d Hd'. destruct (Hin d Hd'). split; [done|set_solver].
  + done.
  + intros d [Hd'|(l' & Hl' & Hd')].
    * apply elem_of_union in Hd' as [->%elem_of_singleton|Hd']; [done|]. apply Hout. by left.
    * apply Hout. right. by eapply Hsub.
Qed.

Lemma accounted_event r e : accounted r → accounted (event r e).
Proof.
  destruct r as [m calls]. intros Hok. pose proof Hok as (Hall & Hin & Hd & Hout). cbn in Hall, Hin, Hd, Hout. destruct e as [|c| |call]; unfold event.
  - unfold accounted; split_and!; cbn.
    + intros c Hc. destruct (decide (c = tracked m)) as [->|]; [left; apply elem_of_app; right; by left|].
      destruct (Hall c ltac:(lia)) as [?|?]; [left; apply elem_of_app; by left|by right].
    + intros c [Hc| ->%list_elem_of_singleton]%elem_of_app; [destruct (Hin c Hc); split; [lia|done]|]. split; [lia|].
      intros Hc. destruct (Hout (tracked m)) as [? _]; [by left|lia].
    + apply list.NoDup_app. split_and!; [done| |apply NoDup_singleton]. intros c Hc ->%list_elem_of_singleton. destruct (Hin _ Hc). lia.
    + intros c Hc. destruct (Hout c Hc) as [Hlt Hno]. split; [lia|].
      rewrite elem_of_app, list_elem_of_singleton. intros [?| ->]; [done|lia].
  - destruct (Nat.ltb_spec c (tracked m)) as [Hlt|]; [|exact (conj Hall (conj Hin (conj Hd Hout)))].
    assert (∀ d, d ∈ List.filter (λ d, negb (Nat.eqb c d)) (connections m) ↔ d ∈ connections m ∧ d ≠ c) as Hf.
    { intros d. rewrite list_elem_of_In, filter_In, <-list_elem_of_In. rewrite negb_true_iff, Nat.eqb_neq. naive_solver. }
    unfold accounted; split_and!; cbn.
    + intros d Hd'. rewrite Hf. destruct (decide (d = c)) as [->|]; [set_solver|]. destruct (Hall d Hd') as [?|[?|?]]; [by left|set_solver|tauto].
    + intros d [Hd' Hne]%Hf. destruct (Hin d Hd'). split; [done|set_solver].
    + by apply NoDup_ListNoDup, List.NoDup_filter, NoDup_ListNoDup.
    + intros d Hd'. rewrite Hf. destruct (decide (d = c)) as [->|]; [split; [done|tauto]|]. destruct (Hout d) as [? ?]; [set_solver|tauto].
  - unfold accounted; split_and!; cbn.
    + intros c Hc. right. destruct (Hall c Hc) as [?|[?|(l & ? & ?)]]; [right; exists (connections m); rewrite elem_of_app; split; [right; by left|done]|by left|].
      right. exists l. rewrite elem_of_app. tauto.
    + by intros c ?%not_elem_of_nil.
    + constructor.
    + intros c [Hc|(l & [Hl| ->%list_elem_of_singleton]%elem_of_app & Hc)]; (split; [|by apply not_elem_of_nil]).
      * apply (Hout c); by left.
      * apply (Hout c); right; by exists l.
      * by apply Hin.
  - by apply accounted_CloseNext.
Qed.

(** In every order of what dialers, connections and calls of [CloseAll] do, every connection is counted as
    long as it is open, unless a call of [CloseAll] is about to close it; and when all calls have ended, those
    that are open are exactly those in the list. *)
Lemma Count_open es : let r := foldl event (mkState 0 [] ∅, []) es in
  accounted r ∧ ((∀ l, l ∈ r.2 → l = []) → ∀ c, (c < tracked r.1)%nat → c ∉ closed r.1 ↔ c ∈ connections r.1).
Proof.
  intros r. assert (accounted r) as Hok.
  { unfold r. assert (accounted (mkState 0 [] ∅, [])) as Hok.
    { unfold accounted; split_and!; cbn; [lia|by intros c ?%not_elem_of_nil|constructor|]. intros c [Hc|(l & Hl & _)]; [set_solver|by apply not_elem_of_nil in Hl]. }
    revert Hok. generalize ((mkState 0 [] ∅, []) : Running). induction es as [|e es IH]; intros r0 Hok; [done|]. by apply IH, accounted_event. }
  split; [done|]. destruct Hok as (Hall & Hin & _ & _). intros Hempty c Hc. split; [|intros Hcin; by apply Hin].
  intros Hno. destruct (Hall c Hc) as [?|[?|(l & Hl & Hcl)]]; [done|done|]. rewrite (Hempty _ Hl) in Hcl. by apply not_elem_of_nil in Hcl.
Qed.

End Manager.

(** ** The two copies of a connection *)

Module Copy.

(** A copy runs; it has ended, with this error, and closed what it closes; it has swapped [done], and
    found whether it is the second; it is over. *)
Inductive Phase : Type :=
| Copying
| Ended (err : option error)
| Swapped (second : bool) (err : option error)
| Finished (second : bool) (err : option error).

(** The connection of the inbound and the one to the remote end: closed, or for writing only.
    [onClose] is what the handler has been called with. *)
Record State : Type := mkState {
  upload : Phase;
  download : Phase;
  conn_closed : bool;
  remote_closed : bool;
  conn_write_closed : bool;
  remote_write_closed : bool;
  done : bool;
  onClose : list (option error)
}.
#[global] Instance State_settable : Settable State :=
  {| mkT s := mkState (upload s) (download s) (conn_closed s) (remote_closed s) (conn_write_closed s) (remote_write_closed s) (done s) (onClose s) |}.

(** [false] is the upload, as in the code. *)
Definition phase (direction : bool) (s : State) : Phase := if direction then download s else upload s.
Definition set_phase (direction : bool) (p : Phase) (s : State) : State :=
  if direction then s <| download := p |> else s <| upload := p |>.

Definition close_both (s : State) : State := s <| conn_closed := true |> <| remote_closed := true |>.

(** The destination of a copy. *)
Definition close_destination (direction : bool) (s : State) : State :=
  if direction then s <| conn_closed := true |> else s <| remote_closed := true |>.
Definition close_write (direction : bool) (s : State) : State :=
  if direction then s <| conn_write_closed := true |> else s <| remote_write_closed := true |>.

Inductive Step : Type :=
| CopyEnds (direction : bool) (err closeWrite : option error)
| Swap (direction : bool)
| Finish (direction : bool).

Section Stream.
(** Whether the inbound's and the remote connection can close one direction. *)
Context (conn_duplex remote_duplex : bool).

(** [bufio.CopyWithIncreateBuffer] returns [err], and [CloseWrite] would return [closeWrite].

    [route/conn.go:253-264] (ConnectionManager).connectionCopy (end) *)
Definition copy_ends (direction : bool) (err closeWrite : option error) (s : State) : State :=
  match err with
  | Some err => set_phase direction (Ended (Some err)) (close_both s)
  | None =>
      if if direction then conn_duplex else remote_duplex then
        let s := close_write direction s in
        match closeWrite with
        | Some err => set_phase direction (Ended (Some err)) (close_both s)
        | None => set_phase direction (Ended None) s
        end
      else set_phase direction (Ended None) (close_destination direction s)
  end.

(** The handler is called by the copy that ends second.

    [route/conn.go:252-287] (ConnectionManager).connectionCopy *)
Definition connectionCopy (s : State) (e : Step) : option State :=
  match e with
  | CopyEnds direction err closeWrite =>
      match phase direction s with Copying => Some (copy_ends direction err closeWrite s) | _ => None end
  | Swap direction =>
      match phase direction s with
      | Ended err => Some (set_phase direction (Swapped (done s) err) (s <| done := true |>))
      | _ => None
      end
  | Finish direction =>
      match phase direction s with
      | Swapped second err =>
          Some (set_phase direction (Finished second err)
                  (if second then close_both (s <| onClose := onClose s ++ [err] |>) else s))
      | _ => None
      end
  end.

End Stream.

(** The handler is called by the copy that ends first, and both close everything.

    [route/conn.go:341-366] (ConnectionManager).packetConnectionCopy *)
Definition packetConnectionCopy (s : State) (e : Step) : option State :=
  match e with
  | CopyEnds direction err _ =>
      match phase direction s with Copying => Some (set_phase direction (Ended err) s) | _ => None end
  | Swap direction =>
      match phase direction s with
      | Ended err => Some (set_phase direction (Swapped (done s) err) (s <| done := true |>))
      | _ => None
      end
  | Finish direction =>
      match phase direction s with
      | Swapped second err =>
          Some (set_phase direction (Finished second err)
                  (close_both (if second then s else s <| onClose := onClose s ++ [err] |>)))
      | _ => None
      end
  end.

Definition start : State := mkState Copying Copying false false false false false [].
Definition run (step : State → Step → option State) (steps : list Step) : option State :=
  foldl (λ s e, s ≫= λ s, step s e) (Some start) steps.

Definition swapped (p : Phase) : option bool := match p with Swapped second _ | Finished second _ => Some second | _ => None end.
Definition ended (p : Phase) : option (option error) := match p with Copying => None | Ended err | Swapped _ err | Finished _ err => Some err end.
Definition finished (p : Phase) : option bool := match p with Finished second _ => Some second | _ => None end.
Definition left_of (p : Phase) : nat := match p with Copying => 3 | Ended _ => 2 | Swapped _ _ => 1 | Finished _ _ => 0 end.

(** What holds of both kinds of copies; [caller] is whether the handler is called by the second. *)
Record Inv (caller : bool) (s : State) : Prop := {
  iv_done : done s = negb (is_nil (swapped (upload s))) || negb (is_nil (swapped (download s)));
  iv_second : match swapped (upload s), swapped (download s) with
    | Some a, Some b => b = negb a
    | Some a, None | None, Some a => a = false
    | None, None => True
    end;
  iv_onClose : onClose s = match upload s, download s with
    | Finished a err, Finished b err' => if Bool.eqb a caller then [err] else [err']
    | Finished a err, _ | _, Finished a err => if Bool.eqb a caller then [err] else []
    | _, _ => []
    end
}.

Lemma Inv_stream cd rd s e s' : Inv true s → connectionCopy cd rd s e = Some s' → Inv true s'.
Proof.
  destruct s as [u d cc rc cw rw dn oc]. intros [Hd Hs Ho] Hst. cbn in Hd, Hs, Ho. destruct e as [dir err cwe|dir|dir], dir; cbn in Hst.
  1,2: destruct u, d; try done; unfold copy_ends in Hst; (destruct err; [|destruct cd, rd, cwe]); injection Hst as <-; split; cbn; done.
  1,2: destruct u as [|e1|s1 e1|s1 e1], d as [|e2|s2 e2|s2 e2]; try done; injection Hst as <-; cbn in *; subst; split; cbn; done.
  all: destruct u as [|e1|s1 e1|s1 e1], d as [|e2|s2 e2|s2 e2]; try done; injection Hst as <-; cbn in *; subst; split; cbn; try done;
    repeat match goal with b : bool |- _ => destruct b end; done.
Qed.

Lemma Inv_packet s e s' : Inv false s → packetConnectionCopy s e = Some s' → Inv false s'.
Proof.
  destruct s as [u d cc rc cw rw dn oc]. intros [Hd Hs Ho] Hst. cbn in Hd, Hs, Ho. destruct e as [dir err cwe|dir|dir], dir; cbn in Hst.
  1,2: destruct u, d; try done; injection Hst as <-; split; cbn; done.
  1,2: destruct u as [|e1|s1 e1|s1 e1], d as [|e2|s2 e2|s2 e2]; try done; injection Hst as <-; cbn in *; subst; split; cbn; done.
  all: destruct u as [|e1|s1 e1|s1 e1], d as [|e2|s2 e2|s2 e2]; try done; injection Hst as <-; cbn in *; subst; split; cbn; try done;
    repeat match goal with b : bool |- _ => destruct b end; done.
Qed.
(** What is closed: everything after an error or by the second copy; else, when both can close one
    direction, only the directions that have ended. *)
Definition failed (p : Phase) : bool := match ended p with Some (Some _) => true | _ => false end.
Definition clean (p : Phase) : bool := match ended p with Some None => true | _ => false end.
Definition last (p : Phase) : bool := match p with Finished second _ => second | _ => false end.
Definition copying (p : Phase) : bool := match p with Copying => true | _ => false end.

Definition all_closed (s : State) : bool := conn_closed s && remote_closed s.
Definition closed_after (s : State) : bool := implb (failed (upload s) || failed (download s) || last (upload s) || last (download s)) (all_closed s).
Definition half_closed (cd rd : bool) (s : State) : bool :=
  implb (clean (upload s) && rd) (remote_write_closed s) && implb (clean (download s) && cd) (conn_write_closed s).
Definition still_open (s : State) : bool :=
  implb (copying (upload s) || copying (download s)) (failed (upload s) || failed (download s) || negb (conn_closed s) && negb (remote_closed s)).

Ltac by_phases u d := destruct u as [|[?|]|? [?|]|? [?|]], d as [|[?|]|? [?|]|? [?|]]; try done.
Ltac by_booleans := repeat match goal with b : bool |- _ => destruct b end; done.

Lemma closed_after_step cd rd s e s' : Inv true s → closed_after s = true → connectionCopy cd rd s e = Some s' → closed_after s' = true.
Proof.
  destruct s as [u d cc rc cw rw dn oc]. intros [Hd Hs _]. cbn in Hd, Hs. unfold closed_after, all_closed. cbn. intros H Hst.
  destruct e as [dir err cwe|dir|dir], dir; cbn in Hst.
  1,2: by_phases u d; unfold copy_ends in Hst; (destruct err; [|destruct cd, rd, cwe]); injection Hst as <-; cbn in *; try done; by_booleans.
  all: by_phases u d; injection Hst as <-; clear Hd; cbn in *; subst; by_booleans.
Qed.

Lemma half_closed_step cd rd s e s' : half_closed cd rd s = true → connectionCopy cd rd s e = Some s' → half_closed cd rd s' = true.
Proof.
  destruct s as [u d cc rc cw rw dn oc]. unfold half_closed. cbn. intros H Hst. destruct e as [dir err cwe|dir|dir], dir; cbn in Hst.
  1: destruct d; try done; unfold copy_ends in Hst; (destruct err; [|destruct cd, rd, cwe]); injection Hst as <-; cbn in *; by_booleans.
  1: destruct u; try done; unfold copy_ends in Hst; (destruct err; [|destruct cd, rd, cwe]); injection Hst as <-; cbn in *; by_booleans.
  1,3: destruct d as [|[?|]|? [?|]|? [?|]]; try done; injection Hst as <-; try match goal with b : bool |- _ => idtac end; cbn in *; by_booleans.
  all: destruct u as [|[?|]|? [?|]|? [?|]]; try done; injection Hst as <-; cbn in *; by_booleans.
Qed.

Lemma still_open_step s e s' : Inv true s → still_open s = true → connectionCopy true true s e = Some s' → still_open s' = true.
Proof.
  destruct s as [u d cc rc cw rw dn oc]. intros [Hd Hs _]. cbn in Hd, Hs. unfold still_open. cbn. intros H Hst.
  destruct e as [dir err cwe|dir|dir], dir; cbn in Hst.
  1,2: by_phases u d; unfold copy_ends in Hst; (destruct err; [|destruct cwe]); injection Hst as <-; cbn in *; try done; by_booleans.
  all: by_phases u d; injection Hst as <-; clear Hd; cbn in *; subst; by_booleans.
Qed.

Definition work (s : State) : nat := (left_of (upload s) + left_of (download s))%nat.

Lemma stream_works cd rd s e s' : connectionCopy cd rd s e = Some s' → (work s' < work s)%nat.
Proof.
  destruct s as [u d cc rc cw rw dn oc], e as [dir err cwe|dir|dir], dir; unfold work; cbn; intros Hst.
  1,2: destruct u, d; try done; unfold copy_ends in Hst; (destruct err; [|destruct cd, rd, cwe]); injection Hst as <-; cbn; lia.
  all: destruct u as [|e1|s1 e1|s1 e1], d as [|e2|s2 e2|s2 e2]; try done; injection Hst as <-; try destruct s1; try destruct s2; cbn; lia.
Qed.

Lemma packet_works s e s' : packetConnectionCopy s e = Some s' → (work s' < work s)%nat.
Proof.
  destruct s as [u d cc rc cw rw dn oc], e as [dir err cwe|dir|dir], dir; unfold work; cbn; intros Hst.
  all: destruct u as [|e1|s1 e1|s1 e1], d as [|e2|s2 e2|s2 e2]; try done; injection Hst as <-; try destruct s1; try destruct s2; cbn; lia.
Qed.

Section Runs.
Context (step : State → Step → option State) (I : State → Prop).
Context (Hstart : I start) (Hstep : ∀ s e s', I s → step s e = Some s' → I s') (Hwork : ∀ s e s', step s e = Some s' → (work s' < work s)%nat).

Lemma run_inv steps s : run step steps = Some s → I s ∧ (length steps + work s ≤ 6)%nat.
Proof.
  revert s. induction steps as [|e steps IH] using rev_ind; intros s Hrun; [injection Hrun as <-; split; [done|cbn; lia]|].
  unfold run in Hrun. rewrite foldl_app in Hrun. cbn in Hrun. destruct (foldl _ _ steps) as [s0|] eqn:E; [|done].
  destruct (IH _ E) as [H1 H2]. split; [by eapply Hstep|]. specialize (Hwork _ _ _ Hrun). rewrite length_app. cbn. lia.
Qed.
End Runs.

Lemma stuck_stream cd rd s : (∀ e, connectionCopy cd rd s e = None) → is_Some (finished (upload s)) ∧ is_Some (finished (download s)).
Proof.
  intros Hst. pose proof (λ dir, Hst (CopyEnds dir None None)) as H1. pose proof (λ dir, Hst (Swap dir)) as H2. pose proof (λ dir, Hst (Finish dir)) as H3.
  destruct s as [u d cc rc cw rw dn oc]. cbn in *. split; [specialize (H1 false); specialize (H2 false); specialize (H3 false)|specialize (H1 true); specialize (H2 true); specialize (H3 true)].
  - destruct u; done || by eexists.
  - destruct d; done || by eexists.
Qed.

Lemma stuck_packet s : (∀ e, packetConnectionCopy s e = None) → is_Some (finished (upload s)) ∧ is_Some (finished (download s)).
Proof.
  intros Hst. pose proof (λ dir, Hst (CopyEnds dir None None)) as H1. pose proof (λ dir, Hst (Swap dir)) as H2. pose proof (λ dir, Hst (Finish dir)) as H3.
  destruct s as [u d cc rc cw rw dn oc]. cbn in *. split; [specialize (H1 false); specialize (H2 false); specialize (H3 false)|specialize (H1 true); specialize (H2 true); specialize (H3 true)].
  - destruct u; done || by eexists.
  - destruct d; done || by eexists.
Qed.

(** C39: however the two copies of a connection interleave, they end after at most six steps; the close
    handler is called exactly once, at the end, with the error of one of the two, and then both
    connections are closed.  After an error they are closed at once, so that the other copy ends; and as
    long as there is none, and both can close one direction, a copy that ends closes its direction only
    and the other copy goes on over open connections. *)
Theorem copies_end cd rd steps s : run (connectionCopy cd rd) steps = Some s →
  (length steps ≤ 6)%nat ∧ (length (onClose s) ≤ 1)%nat ∧
  ((∀ e, connectionCopy cd rd s e = None) → ∃ err, onClose s = [err] ∧ (ended (upload s) = Some err ∨ ended (download s) = Some err) ∧
    conn_closed s = true ∧ remote_closed s = true) ∧
  (∀ err, ended (upload s) = Some (Some err) ∨ ended (download s) = Some (Some err) → conn_closed s = true ∧ remote_closed s = true) ∧
  (cd = true → rd = true → ended (upload s) = Some None → ended (download s) = None →
    remote_write_closed s = true ∧ conn_closed s = false ∧ remote_closed s = false) ∧
  (cd = true → rd = true → ended (download s) = Some None → ended (upload s) = None →
    conn_write_closed s = true ∧ conn_closed s = false ∧ remote_closed s = false).
Proof.
  intros Hrun. destruct (run_inv (connectionCopy cd rd) (λ s, Inv true s ∧ closed_after s = true ∧ half_closed cd rd s = true ∧ (cd && rd = true → still_open s = true)))
    with (steps := steps) (s := s) as [(Hi & Hc & Hh & Ho) Hlen].
  { split_and!; [split; done|done|by destruct rd, cd|done]. }
  { intros s0 e s1 (H1 & H2 & H3 & H4) Hst. split_and!; [by eapply Inv_stream|by eapply closed_after_step|by eapply half_closed_step|].
    intros Hb. specialize (H4 Hb). apply andb_true_iff in Hb as [-> ->]. by eapply still_open_step. }
  { apply stream_works. }
  { done. }
  destruct Hi as [_ Hs Hoc]. assert (all_closed s = true → conn_closed s = true ∧ remote_closed s = true) as Hall by (by intros [? ?]%andb_true_iff).
  unfold closed_after in Hc. unfold half_closed in Hh. unfold still_open in Ho. split; [lia|]. split_and!.
  - rewrite Hoc. destruct (upload s), (download s); cbn; try lia; repeat case_match; cbn; lia.
  - intros [[a Ha] [b Hb]]%stuck_stream. destruct (upload s) as [| | |a0 err]; try done. destruct (download s) as [| | |b0 err']; try done.
    cbn in Ha, Hb, Hs, Hc. injection Ha as ->. injection Hb as ->. subst b. exists (if Bool.eqb a true then err else err'). split_and!.
    + rewrite Hoc. by destruct a.
    + destruct a; cbn; tauto.
    + apply Hall. destruct a, err, err'; exact Hc.
    + apply Hall. destruct a, err, err'; exact Hc.
  - intros err Hor. apply Hall. unfold failed in Hc. destruct Hor as [Hu|Hu]; rewrite Hu in Hc; [exact Hc|]. destruct (match ended (upload s) with Some _ => _ | None => _ end); exact Hc.
  - intros -> -> Hu Hdn. specialize (Ho eq_refl). apply andb_true_iff in Hh as [Hh _]. unfold clean in Hh. rewrite Hu in Hh. cbn in Hh. split; [done|].
    destruct (download s) eqn:Ed; [|done..]. unfold failed in Ho. rewrite Hu in Ho. cbn in Ho. destruct (copying (upload s)), (conn_closed s), (remote_closed s); done.
  - intros -> -> Hdn Hu. specialize (Ho eq_refl). apply andb_true_iff in Hh as [_ Hh]. unfold clean in Hh. rewrite Hdn in Hh. cbn in Hh. split; [done|].
    destruct (upload s) eqn:Eu; [|done..]. unfold failed in Ho. rewrite Hdn in Ho. cbn in Ho. destruct (conn_closed s), (remote_closed s); done.
Qed.

(** For packets the handler is called once too, with the error of the copy that ended first. *)
Lemma packet_copies_end steps s : run packetConnectionCopy steps = Some s →
  (length steps ≤ 6)%nat ∧ (length (onClose s) ≤ 1)%nat ∧
  ((∀ e, packetConnectionCopy s e = None) → ∃ err, onClose s = [err] ∧ conn_closed s = true ∧ remote_closed s = true).
Proof.
  intros Hrun. destruct (run_inv packetConnectionCopy (λ s, Inv false s ∧ (is_Some (finished (upload s)) ∨ is_Some (finished (download s)) → conn_closed s = true ∧ remote_closed s = true)))
    with (steps := steps) (s := s) as [[Hi Hc] Hlen].
  { split; [split; done|]. by intros [[]|[]]. }
  { intros s0 e s1 [H1 H2] Hst. split; [by eapply Inv_packet|]. clear H1. destruct s0 as [u d cc rc cw rw dn oc], e as [dir err cwe|dir|dir], dir; cbn in Hst, H2;
      destruct u as [|e1|a1 e1|a1 e1], d as [|e2|a2 e2|a2 e2]; try done; injection Hst as <-; cbn; try done; intros _; apply H2; eauto. }
  { apply packet_works. }
  { done. }
  destruct Hi as [Hd Hs Ho]. split; [lia|]. split.
  - rewrite Ho. destruct (upload s), (download s); cbn; try lia; repeat case_match; cbn; lia.
  - intros [[a Ha] [b Hb]]%stuck_packet. destruct (upload s) as [| | |a0 err]; try done. destruct (download s) as [| | |b0 err']; try done.
    exists (if Bool.eqb a0 false then err else err'). split; [rewrite Ho; by destruct a0|]. apply Hc. left. by eexists.
Qed.

(** An upload that ends leaves the download running; the download ends with an error. *)
Lemma copies_end_witness : let steps := [CopyEnds false None None; Swap false; Finish false; CopyEnds true (Some io_EOF) None; Swap true; Finish true] in
  ∃ s, run (connectionCopy true true) steps = Some s ∧ onClose s = [Some io_EOF] ∧ conn_closed s = true ∧ remote_closed s = true.
Proof.
  intros steps. destruct (run (connectionCopy true true) steps) as [s|] eqn:E; [|vm_compute in E; discriminate E].
  exists s. split; [done|]. destruct (copies_end true true steps s E) as (_ & _ & _ & He & _).
  split; [vm_compute in E; injection E as <-; done|]. apply (He io_EOF). right. vm_compute in E. injection E as <-. done.
Defined.

End Copy.

(** ** Opening *)

Section Open.
Context {L : ExtLib} {W Conn PConn : Type}.
(** Texts of the library, the address a connection has at its end, and the serial dial of the library. *)
Context (Addr_String : Addr → string) (Socksaddr_String : Socksaddr → string) (RemoteAddr : Conn → Addr)
  (N_DialSerial : Dialer W Conn PConn → string → Socksaddr → list Addr → W → res Conn * W)
  (NewUnbindPacketConn : Conn → PConn).

(** The dialer of a connection: an outbound with its type and tag, if it is one. *)
Record This : Type := mkThis { th_dialer : Dialer W Conn PConn; th_outbound : option (string * string) }.

Definition dial_options (metadata : InboundContext) : DialOptions :=
  mkDialOptions (ic_NetworkStrategy metadata) (ic_NetworkType metadata) (ic_FallbackNetworkType metadata) (ic_FallbackDelay metadata).

(** [route/conn.go:99-103] (ConnectionManager).NewConnection (dial) *)
Definition dial_stream (this : This) (metadata : InboundContext) (w : W) : res Conn * W :=
  if nonempty (ic_DestinationAddresses metadata) || Socksaddr_IsIP (ic_Destination metadata)
  then DialSerialNetwork (th_dialer this) "tcp" (ic_Destination metadata) (ic_DestinationAddresses metadata) (dial_options metadata) w
  else d_DialContext (th_dialer this) "tcp" (ic_Destination metadata) w.

(** [route/conn.go:105-110] (ConnectionManager).NewConnection (remote) *)
Definition remoteString (metadata : InboundContext) : string :=
  if nonempty (ic_DestinationAddresses metadata)
  then "[" +:+ strings_Join (Addr_String <$> ic_DestinationAddresses metadata) "," +:+ "]"
  else Socksaddr_String (ic_Destination metadata).

(** [route/conn.go:111-114] (ConnectionManager).NewConnection (dialer) *)
Definition dialerString (this : This) : string :=
  match th_outbound this with Some (type, tag) => " using outbound/" +:+ type +:+ "[" +:+ tag +:+ "]" | None => "" end.

(** [route/conn.go:94-119] (ConnectionManager).NewConnection (open) *)
Definition open_stream (this : This) (metadata : InboundContext) (w : W) : res Conn * W :=
  let '(r, w) := dial_stream this metadata w in
  (wrap_err [AStr "open connection to "; AStr (remoteString metadata); AStr (dialerString this)] r, w).

(** A dialer for packets over a connected socket.

    [route/conn.go:151-166] (ConnectionManager).NewPacketConnection (connect) *)
Definition dial_packet (this : This) (metadata : InboundContext) (w : W) : res Conn * W :=
  let dialer := th_dialer this in
  let serial := DialSerialNetwork dialer "udp" (ic_Destination metadata) (ic_DestinationAddresses metadata) (dial_options metadata) w in
  if nonempty (ic_DestinationAddresses metadata) then
    match d_DialParallelInterface dialer with
    | Some _ => serial
    | None => N_DialSerial dialer "udp" (ic_Destination metadata) (ic_DestinationAddresses metadata) w
    end
  else if Socksaddr_IsIP (ic_Destination metadata) then
    match d_DialParallelInterface dialer with
    | Some _ => serial
    | None => d_DialContext dialer "udp" (ic_Destination metadata) w
    end
  else d_DialContext dialer "udp" (ic_Destination metadata) w.

(** The packet connection, and the address of the destination when it is not the one that was asked for.

    [route/conn.go:150-204] (ConnectionManager).NewPacketConnection (open) *)
Definition open_packet (this : This) (metadata : InboundContext) (w : W) : res (PConn * Addr) * W :=
  if ic_UDPConnect metadata then
    match dial_packet this metadata w with
    | (Ok conn, w) =>
        let connRemoteAddr := RemoteAddr conn in
        (Ok (NewUnbindPacketConn conn, if decide (connRemoteAddr = sa_Addr (ic_Destination metadata)) then AddrInvalid else connRemoteAddr), w)
    | (Err err, w) => (Err (E_Cause err [AStr "open packet connection to "; AStr (remoteString metadata); AStr (dialerString this)]), w)
    | (Panic p, w) => (Panic p, w)
    end
  else
    let '(r, w) :=
      if nonempty (ic_DestinationAddresses metadata)
      then ListenSerialNetworkPacket (th_dialer this) (ic_Destination metadata) (ic_DestinationAddresses metadata) (dial_options metadata) w
      else let '(r, w) := d_ListenPacket (th_dialer this) (ic_Destination metadata) w in ((λ conn, (conn, AddrInvalid)) <$> r, w) in
    (wrap_err [AStr "listen packet connection using "; AStr (dialerString this)] r, w).

(** The addresses a name resolved to are tried, in order, before anything is given up: a connection that is
    opened over a dialer without interfaces of its own is one to the first address that can be dialed. *)
Lemma dial_stream_addresses this metadata w r w' : dial_stream this metadata w = (r, w') → ic_DestinationAddresses metadata ≠ [] →
  d_DialParallelNetwork (th_dialer this) = None → d_DialParallelInterface (th_dialer this) = None →
  let dial a := d_DialContext (th_dialer this) "tcp" (SocksaddrFrom a (sa_Port (ic_Destination metadata))) in
  match r with
  | Ok conn => ∃ before a after errs w1, ic_DestinationAddresses metadata = before ++ a :: after ∧
      all_fail dial before w errs w1 ∧ dial a w1 = (Ok conn, w')
  | Err err => ∃ first rest, all_fail dial (ic_DestinationAddresses metadata) w (first :: rest) w' ∧ err = Errors first rest
  | Panic p => ∃ a w1, a ∈ ic_DestinationAddresses metadata ∧ dial a w1 = (Panic p, w')
  end.
Proof.
  intros Hd Hne Hn Hi dial. unfold dial_stream, DialSerialNetwork, addresses_of in Hd. destruct (ic_DestinationAddresses metadata) as [|a l]; [done|].
  cbn [nonempty orb] in Hd. rewrite Hn, Hi in Hd. apply first_ok_spec in Hd. destruct r as [conn|err|p].
  - destruct Hd as (before & y & after & errs & w1 & -> & Hall & Hy). by exists before, y, after, errs, w1.
  - destruct Hd as (errs & first & rest & Hall & Heq & ->). cbn in Heq. subst errs. by exists first, rest.
  - destruct Hd as (before & y & after & errs & w1 & -> & Hall & Hy). exists y, w1. split; [|done]. apply elem_of_app. right. by left.
Qed.

(** Opening a stream does not panic for want of an address. *)
Lemma open_stream_no_invalid_usage this metadata w p w' :
  (∀ network a w, (d_DialContext (th_dialer this) network a w).1 ≠ Panic p) → d_DialParallelNetwork (th_dialer this) = None →
  d_DialParallelInterface (th_dialer this) = None → open_stream this metadata w ≠ (Panic p, w').
Proof.
  intros Hc Hn Hi. unfold open_stream, dial_stream. destruct (nonempty (ic_DestinationAddresses metadata) || Socksaddr_IsIP (ic_Destination metadata)) eqn:E.
  - unfold DialSerialNetwork. rewrite Hn, Hi. unfold addresses_of. destruct (ic_DestinationAddresses metadata) as [|a l].
    + cbn in E. rewrite E. cbn. destruct (d_DialContext _ _ _ w) as [r w1] eqn:Ed. specialize (Hc "tcp"%string (SocksaddrFrom (sa_Addr (ic_Destination metadata)) (sa_Port (ic_Destination metadata))) w).
      rewrite Ed in Hc. destruct r; naive_solver.
    + destruct (first_ok _ a l [] w) as [r w1] eqn:Ef. apply first_ok_spec in Ef. destruct r; try done. intros [= -> _].
      destruct Ef as (_ & y & _ & _ & w2 & _ & _ & Hy). specialize (Hc "tcp"%string (SocksaddrFrom y (sa_Port (ic_Destination metadata))) w2). by rewrite Hy in Hc.
  - destruct (d_DialContext _ _ _ w) as [r w1] eqn:Ed. specialize (Hc "tcp"%string (ic_Destination metadata) w). rewrite Ed in Hc. destruct r; naive_solver.
Qed.

End Open.

(** ** From opening to copying *)

(** What happens to the two connections and to the close handler, in order.  [HandshakeFailed] is
    [N.CloseOnHandshakeFailure], which answers and closes the inbound's connection and calls the handler. *)
Inductive Action : Type :=
| HandshakeFailed (err : error)
| CloseConn
| CloseRemote
| CloseBoth
| OnClose (err : option error)
| WriteRemote (b : list byte)
| WriteConn (b : list byte).

Section Kick.
(** The errors of a write without bytes that do not matter: a deadline, the end of the stream, a write that is not valid. *)
Context (ignorable : error → bool).

(** What a handshake does, if the destination needs a write for it: the bytes that the source has cached, or
    none.  [write] is the error of that write.  The result says whether the connection is over; [true]
    as [direction] is the download.

    [route/conn.go:289-339] (ConnectionManager).kickWriteHandshake *)
Definition kickWriteHandshake (direction needs : bool) (cached : option (list byte)) (write : option error) : list Action * bool :=
  if negb needs then ([], false) else
  match write with
  | None => (match cached with Some b => [if direction then WriteConn b else WriteRemote b] | None => [] end, false)
  | Some err =>
      if is_nil cached && ignorable err then ([], false)
      else ([OnClose (Some err); CloseBoth], true)
  end.

(** What the source still has: its cached bytes, unless they have been read for the handshake. *)
Definition left_in_source (needs : bool) (cached : option (list byte)) (rest : list byte) : list byte :=
  if needs then rest else default [] cached ++ rest.

(** A handshake loses nothing: as long as the connection goes on, what it wrote and what is left to copy
    are the bytes of the source. *)
Lemma kick_keeps_bytes needs cached write rest actions : kickWriteHandshake false needs cached write = (actions, false) →
  mjoin ((λ a, match a with WriteRemote b => b | _ => [] end) <$> actions) ++ left_in_source needs cached rest = default [] cached ++ rest.
Proof.
  unfold kickWriteHandshake, left_in_source. destruct needs; cbn [negb]; [|by intros [= <-]]. destruct write as [err|].
  - destruct cached; cbn [is_nil andb]; [done|]. destruct (ignorable err); [by intros [= <-]|done].
  - destruct cached; intros [= <-]; cbn; by rewrite ?app_nil_r.
Qed.

(** The end of [NewConnection]: it has dealt with the connection itself, or two copies begin, with the
    remote connection fragmented or not. *)
Inductive Result : Type := Over | Copies (fragment : bool).

(** [opened] is what [open_stream] gave, [report] the error of reporting the success; the handshakes are
    those of the upload and of the download.

    [route/conn.go:93-140] (ConnectionManager).NewConnection *)
Definition NewConnection {C} (metadata : InboundContext) (opened : res C) (report : option error)
    (upload download : bool * option (list byte) * option error) : list Action * Result :=
  match opened with
  | Ok _ =>
      match report with
      | Some err => ([CloseRemote; HandshakeFailed (E_Cause err [AStr "report handshake success"])], Over)
      | None =>
          let fragment := ic_TLSFragment metadata || ic_TLSRecordFragment metadata in
          let '((needs, cached), write) := upload in
          let '(actions, over) := kickWriteHandshake false needs cached write in
          if over then (actions, Over) else
          let '((needs, cached), write) := download in
          let '(actions', over) := kickWriteHandshake true needs cached write in
          (actions ++ actions', if over then Over else Copies fragment)
      end
  | Err err => ([HandshakeFailed err], Over)
  | Panic _ => ([], Over)
  end.

(** How often the close handler is called. *)
Definition handler_calls (actions : list Action) : nat :=
  length (List.filter (λ a, match a with HandshakeFailed _ | OnClose _ => true | _ => false end) actions).

(** The close handler is called once before [NewConnection] returns, and the connections are closed, or it
    is left to the copies, which call it once ([Copy.copies_end]). *)
Lemma NewConnection_handler {C} metadata (opened : res C) report upload download actions result :
  NewConnection metadata opened report upload download = (actions, result) → (∀ p, opened ≠ Panic p) →
  match result with
  | Over => handler_calls actions = 1%nat ∧ (CloseBoth ∈ actions ∨ (∃ err, HandshakeFailed err ∈ actions) ∧ (is_ok opened = true → CloseRemote ∈ actions))
  | Copies _ => handler_calls actions = 0%nat ∧ is_ok opened = true ∧ CloseBoth ∉ actions
  end.
Proof.
  unfold NewConnection. intros Hn Hp. destruct opened as [c|err|p]; [|injection Hn as <- <-|by destruct (Hp p)].
  - destruct report as [err|]; [injection Hn as <- <-; split; [done|]; right; split; [eexists; right; by left|intros _; by left]|].
    destruct upload as [[needs cached] write], download as [[needs' cached'] write'].
    assert (∀ dir n c w, let '(a, over) := kickWriteHandshake dir n c w in
      if over then handler_calls a = 1%nat ∧ CloseBoth ∈ a else handler_calls a = 0%nat ∧ CloseBoth ∉ a) as Hk.
    { intros dir n c0 w. unfold kickWriteHandshake. destruct n; cbn [negb]; [|split; [done|by apply not_elem_of_nil]]. destruct w as [err|].
      - destruct (is_nil c0 && ignorable err); [split; [done|by apply not_elem_of_nil]|]. split; [done|right; by left].
      - destruct c0; [|split; [done|by apply not_elem_of_nil]]. destruct dir; (split; [done|by intros ?%list_elem_of_singleton]). }
    pose proof (Hk false needs cached write) as H1. destruct (kickWriteHandshake false needs cached write) as [a over]. destruct over; [injection Hn as <- <-; split; [tauto|left; tauto]|].
    pose proof (Hk true needs' cached' write') as H2. destruct (kickWriteHandshake true needs' cached' write') as [a' over'].
    destruct H1 as [H1 H1']. unfold handler_calls in *. destruct over'; injection Hn as <- <-; rewrite List.filter_app, length_app, elem_of_app, H1; destruct H2 as [H2 H2']; rewrite H2.
    + split; [done|]. left. by right.
    + split; [done|]. split; [done|tauto].
  - split; [done|]. right. split; [eexists; by left|done].
Qed.

End Kick.

(** *** Packets *)

(** How the packets are translated between the destination that was asked for and the one that is used. *)
Inductive Translation : Type :=
| AsIs
| UpdateDestination (address : Addr)
| UnidirectionalNAT (from to : Socksaddr)
| NAT (from to : Socksaddr)
| DestinationNAT (from to : Socksaddr).

(** [natConn] is whether the inbound's connection translates by itself.

    [route/conn.go:212-230] (ConnectionManager).NewPacketConnection (destination) *)
Definition translation `{ExtLib} (metadata : InboundContext) (destinationAddress : Addr) (natConn : bool) : Translation :=
  let destination := ic_Destination metadata in
  let original := ic_RouteOriginalDestination metadata in
  if Addr_IsValid destinationAddress then
    let originDestination := if Socksaddr_IsValid original then original else destination in
    let to := mkSocksaddr destinationAddress (sa_Port destination) "" in
    if natConn then UpdateDestination destinationAddress
    else if decide (destination = to) then AsIs
    else if ic_UDPDisableDomainUnmapping metadata then UnidirectionalNAT to originDestination else NAT to originDestination
  else if Socksaddr_IsValid original && negb (bool_decide (original = destination))
  then DestinationNAT destination original else AsIs.

(** [constant/timeout.go:22-27] PortProtocols *)
Definition PortProtocols (port : Z) : string :=
  if Z.eqb port 53 then "dns" else if Z.eqb port 123 then "ntp" else if Z.eqb port 3478 then "stun" else if Z.eqb port 443 then "quic" else "".

(** [constant/timeout.go:29-35] ProtocolTimeouts *)
Definition ProtocolTimeouts (protocol : string) : Z :=
  if existsb (String.eqb protocol) ["dns"; "ntp"; "stun"]%string then seconds 10
  else if existsb (String.eqb protocol) ["quic"; "dtls"]%string then seconds 30 else 0.

(** [route/conn.go:231-242] (ConnectionManager).NewPacketConnection (timeout) *)
Definition udp_timeout (metadata : InboundContext) : Z :=
  if Z.ltb 0 (ic_UDPTimeout metadata) then ic_UDPTimeout metadata
  else let protocol := if String.eqb (ic_Protocol metadata) "" then PortProtocols (sa_Port (ic_Destination metadata)) else ic_Protocol metadata in
       if String.eqb protocol "" then 0 else ProtocolTimeouts protocol.

(** The packet connection is over, or two copies begin, with a translation and a timeout, none if it is zero.

    [route/conn.go:142-250] (ConnectionManager).NewPacketConnection *)
Definition NewPacketConnection `{ExtLib} {P} (metadata : InboundContext) (opened : res (P * Addr)) (report : option error) (natConn : bool)
    : list Action * option (Translation * Z) :=
  match opened with
  | Ok (_, destinationAddress) =>
      match report with
      | Some err => ([CloseConn; CloseRemote], None)
      | None => ([], Some (translation metadata destinationAddress natConn, udp_timeout metadata))
      end
  | Err err => ([HandshakeFailed err], None)
  | Panic _ => ([], None)
  end.

(** When the success cannot be reported, the handler of a packet connection is never called. *)
Lemma packet_handler_forgotten `{ExtLib} {P} metadata (p : P * Addr) err natConn actions result :
  NewPacketConnection metadata (Ok p) (Some err) natConn = (actions, result) → result = None ∧ handler_calls actions = 0%nat.
Proof. destruct p. by intros [= <- <-]. Qed.

(** A destination that was asked for by name is not seen by the client under another address: whatever
    address is used, its packets come from the original destination, unless the client does not want that
    or translates itself. *)
Lemma translation_hides_address `{ExtLib} metadata a : Addr_IsValid a = true → ic_Destination metadata ≠ mkSocksaddr a (sa_Port (ic_Destination metadata)) "" →
  ic_UDPDisableDomainUnmapping metadata = false →
  translation metadata a false = NAT (mkSocksaddr a (sa_Port (ic_Destination metadata)) "")
    (if Socksaddr_IsValid (ic_RouteOriginalDestination metadata) then ic_RouteOriginalDestination metadata else ic_Destination metadata).
Proof. intros Ha Hne Hu. unfold translation. rewrite Ha, Hu. cbn. by rewrite decide_False. Qed.

(** A timeout of the rule goes before that of the protocol, sniffed or of the port, and all of these are
    those of the table. *)
Lemma udp_timeout_cases metadata : udp_timeout metadata = (if Z.ltb 0 (ic_UDPTimeout metadata) then ic_UDPTimeout metadata else
    ProtocolTimeouts (if String.eqb (ic_Protocol metadata) "" then PortProtocols (sa_Port (ic_Destination metadata)) else ic_Protocol metadata)) ∧
  (udp_timeout metadata = 0 ∨ 0 < udp_timeout metadata).
Proof.
  assert (∀ p, ProtocolTimeouts p = 0 ∨ 0 < ProtocolTimeouts p) as Hpos by (intros p; unfold ProtocolTimeouts; repeat case_match; vm_compute; auto).
  unfold udp_timeout. destruct (Z.ltb_spec 0 (ic_UDPTimeout metadata)); [split; [done|by right]|].
  set (p := if String.eqb (ic_Protocol metadata) "" then _ else _). destruct (String.eqb_spec p "") as [->|]; [split; [done|by left]|].
  split; [done|apply Hpos].
Qed.
