(* ===== verification/Direct.v ===== *)
(** * Direct connections (protocol/direct)

    The inbound that sends what it receives to its original destination, and the outbound that dials without a
    proxy, both of which may override the address, the port or both. *)

From stdpp Require Import base gmap strings list numbers.
From S2P Require Import Prelude GoStd Netip Adapter RuleAction DnsRules DialRace Dialer ConnManager.

Local Open Scope Z_scope.

(** ** The override *)

(** Which parts are overridden: both, the address, the port, or nothing. *)
Inductive OverrideOption : Type := OverrideNone | OverrideBoth | OverrideAddress | OverridePort.
#[global] Instance OverrideOption_eq_dec : EqDecision OverrideOption.
Proof. solve_decision. Defined.

Section Direct.
Context {L : ExtLib}.

(** The same for the inbound (protocol/direct/inbound.go:44-53).

    [protocol/direct/outbound.go:81-90] NewOutbound (override) *)
Definition override_of (address : string) (port : Z) : OverrideOption * Socksaddr :=
  if negb (String.eqb address "") && negb (Z.eqb port 0) then (OverrideBoth, ParseSocksaddrHostPort address port)
  else if negb (String.eqb address "") then (OverrideAddress, ParseSocksaddrHostPort address port)
  else if negb (Z.eqb port 0) then (OverridePort, mkSocksaddr AddrInvalid port "")
  else (OverrideNone, Socksaddr_zero).

(** ** The inbound *)

(** The address alone is taken as an IP address: the domain of the destination stays.

    [protocol/direct/inbound.go:90-98] (Inbound).NewConnectionEx (override) *)
Definition inbound_destination (o : OverrideOption * Socksaddr) (destination : Socksaddr) : Socksaddr :=
  match o.1 with
  | OverrideBoth => o.2
  | OverrideAddress => destination <| sa_Addr := sa_Addr o.2 |>
  | OverridePort => destination <| sa_Port := sa_Port o.2 |>
  | OverrideNone => destination
  end.

(** [protocol/direct/inbound.go:87-104] (Inbound).NewConnectionEx *)
Definition Inbound_NewConnectionEx (tag : string) (o : OverrideOption * Socksaddr) (metadata : InboundContext) : InboundContext :=
  metadata <| ic_Inbound := tag |> <| ic_InboundType := "direct" |>
    <| ic_Destination := inbound_destination o (ic_OriginDestination metadata) |>.

(** The metadata of a packet connection, and how its packets are translated: the original destination is the
    address of the listener.

    [protocol/direct/inbound.go:106-132] (Inbound).NewPacketConnectionEx *)
Definition Inbound_NewPacketConnectionEx (tag detour : string) (inboundOptions : InboundOptions) (o : OverrideOption * Socksaddr)
    (UDPAddr source : Socksaddr) : InboundContext * Translation :=
  let destination := inbound_destination o UDPAddr in
  (InboundContext_zero <| ic_Inbound := tag |> <| ic_InboundType := "direct" |> <| ic_InboundDetour := detour |>
     <| ic_InboundOptions := inboundOptions |> <| ic_Source := source |> <| ic_Destination := destination |>,
   if decide (o.1 = OverrideNone) then AsIs else DestinationNAT UDPAddr destination).

(** ** The outbound *)

(** [protocol/direct/outbound.go:98-107] (Outbound).DialContext (override) *)
Definition outbound_destination (o : OverrideOption * Socksaddr) (destination : Socksaddr) : Socksaddr :=
  match o.1 with
  | OverrideBoth => o.2
  | OverrideAddress => o.2 <| sa_Port := sa_Port destination |>
  | OverridePort => destination <| sa_Port := sa_Port o.2 |>
  | OverrideNone => destination
  end.

Section Dialing.
(** The dialer underneath, and what a race of two lists of addresses came to. *)
Context {W Conn PConn : Type} (NetworkName : string → string) (dialer : Dialer W Conn PConn)
  (race_addresses : string → Socksaddr → list Addr → list Addr → DialOptions → W → res Conn * W).

(** [protocol/direct/outbound.go:94-121] (Outbound).DialContext *)
Definition Outbound_DialContext (o : OverrideOption * Socksaddr) (network : string) (destination : Socksaddr) (w : W) : res Conn * W :=
  d_DialContext dialer (NetworkName network) (outbound_destination o destination) w.

(** The connection, and the translation between the destination that was asked for and the one that is used.

    [protocol/direct/outbound.go:123-152] (Outbound).ListenPacket *)
Definition Outbound_ListenPacket (o : OverrideOption * Socksaddr) (originDestination : Socksaddr) (w : W) : res (PConn * Translation) * W :=
  let destination := outbound_destination o originDestination in
  let '(r, w) := d_ListenPacket dialer destination w in
  ((λ conn, (conn, if decide (originDestination = destination) then AsIs else NAT destination originDestination)) <$> r, w).

(** One family of addresses is dialed one after the other, two race.

    [common/dialer/default_parallel_network.go:48-77] DialParallelNetwork *)
Definition DialParallelNetwork (network : string) (destination : Socksaddr) (destinationAddresses : list Addr) (preferIPv6 : bool)
    (do : DialOptions) (w : W) : res Conn * W :=
  let do := mkDialOptions (do_strategy do) (do_interfaceType do) (do_fallbackInterfaceType do)
              (if Z.eqb (do_fallbackDelay do) 0 then DefaultFallbackDelay else do_fallbackDelay do) in
  match parallel_plan destination destinationAddresses preferIPv6 with
  | Err err => (Err err, w)
  | Panic p => (Panic p, w)
  | Ok (inl addresses) => DialSerialNetwork dialer network destination addresses do w
  | Ok (inr (primaries, fallbacks)) => race_addresses network destination primaries fallbacks do w
  end.

(** An override of the address leaves the addresses that were resolved unused.

    [protocol/direct/outbound.go:185-204] (Outbound).DialParallelNetwork *)
Definition Outbound_DialParallelNetwork (o : OverrideOption * Socksaddr) (network : string) (destination : Socksaddr)
    (destinationAddresses : list Addr) (do : DialOptions) (w : W) : res Conn * W :=
  match o.1 with
  | OverrideBoth | OverrideAddress => Outbound_DialContext o network destination w
  | _ => DialParallelNetwork (NetworkName network) (outbound_destination o destination) destinationAddresses
           match destinationAddresses with a :: _ => Addr_Is6 a | [] => false end do w
  end.

(** [protocol/direct/outbound.go:164-183] (Outbound).DialParallel *)
Definition Outbound_DialParallel (o : OverrideOption * Socksaddr) (fallbackDelay : Z) (network : string) (destination : Socksaddr)
    (destinationAddresses : list Addr) (w : W) : res Conn * W :=
  Outbound_DialParallelNetwork o network destination destinationAddresses (mkDialOptions None [] [] fallbackDelay) w.

(** [protocol/direct/outbound.go:206-230] (Outbound).ListenSerialNetworkPacket *)
Definition Outbound_ListenSerialNetworkPacket (o : OverrideOption * Socksaddr) (destination : Socksaddr) (destinationAddresses : list Addr)
    (do : DialOptions) (w : W) : res (PConn * Addr) * W :=
  ListenSerialNetworkPacket dialer (outbound_destination o destination) destinationAddresses do w.

(** ** Lemmas *)

(** What an override is: nothing but the parts that are given are replaced. *)
Lemma override_spec address port destination : let o := override_of address port in
  (address = "" → port = 0 → outbound_destination o destination = destination) ∧
  (address = "" → port ≠ 0 → outbound_destination o destination = destination <| sa_Port := port |>) ∧
  (address ≠ "" → port = 0 → outbound_destination o destination = ParseSocksaddrHostPort address 0 <| sa_Port := sa_Port destination |>) ∧
  (address ≠ "" → port ≠ 0 → outbound_destination o destination = ParseSocksaddrHostPort address port).
Proof.
  cbv zeta. unfold override_of, outbound_destination. destruct (String.eqb_spec address ""), (Z.eqb_spec port 0); cbn [negb andb fst snd];
    (split_and!; intros; try done; by subst).
Qed.

(** Streams go to the address of the override, in every way in which they are dialed and whatever was
    resolved; an override of the port alone holds for every address that is dialed. *)
Lemma streams_overridden o network destination addresses do delay w :
  (o.1 = OverrideBoth ∨ o.1 = OverrideAddress →
   Outbound_DialParallelNetwork o network destination addresses do w = Outbound_DialContext o network destination w ∧
   Outbound_DialParallel o delay network destination addresses w = Outbound_DialContext o network destination w) ∧
  (∀ a l, o.1 = OverridePort → parallel_plan (outbound_destination o destination) addresses match addresses with a :: _ => Addr_Is6 a | [] => false end = Ok (inl (a :: l)) →
   d_DialParallelNetwork dialer = None → d_DialParallelInterface dialer = None →
   Outbound_DialParallelNetwork o network destination addresses do w =
     first_ok (λ address w, d_DialContext dialer (NetworkName network) (mkSocksaddr address (sa_Port o.2) "") w) a l [] w).
Proof.
  split.
  - unfold Outbound_DialParallel, Outbound_DialParallelNetwork. by intros [->| ->].
  - intros a l Ho Hp Hn Hi. unfold Outbound_DialParallelNetwork. rewrite Ho. unfold DialParallelNetwork. rewrite Hp.
    unfold DialSerialNetwork, addresses_of. rewrite Hn, Hi. unfold outbound_destination. by rewrite Ho.
Qed.

(** Packets to a destination that was resolved go to one of the resolved addresses, at the port that was asked
    for: an override is lost.  When nothing was resolved they are translated to the override. *)
Lemma packets_not_overridden o destination addresses do w conn a w' : addresses ≠ [] → d_DialParallelNetwork dialer = None →
  Outbound_ListenSerialNetworkPacket o destination addresses do w = (Ok (conn, a), w') →
  a ∈ addresses ∧
  ∀ metadata, ic_Destination metadata = destination → Addr_IsValid a = true → ic_UDPDisableDomainUnmapping metadata = false →
    destination ≠ mkSocksaddr a (sa_Port destination) "" →
    ∃ origin, translation metadata a false = NAT (mkSocksaddr a (sa_Port destination) "") origin.
Proof.
  intros Hne Hn. unfold Outbound_ListenSerialNetworkPacket, ListenSerialNetworkPacket, addresses_of. destruct addresses as [|x l]; [done|].
  rewrite Hn. set (f := λ _ _, _). intros Hf. apply first_ok_spec in Hf as (before & y & after & errs & w1 & Heq & _ & Hy).
  split.
  - rewrite Heq. unfold f in Hy. destruct (match d_DialParallelInterface dialer with Some _ => _ | None => _ end) as [r w2].
    injection Hy as Hr _. destruct r as [c|e|p]; [|done..]. injection Hr as _ <-. apply elem_of_app. right. left.
  - intros metadata Hd Ha Hu Hne'. unfold translation. rewrite Ha, Hu, Hd. rewrite decide_False by done. by eexists.
Qed.

End Dialing.

(** An inbound with an address that is a domain, and no port, sends its connections nowhere: the destination
    has neither an address nor the domain. *)
Lemma inbound_domain_lost tag address metadata : address ≠ "" → sa_Addr (ParseSocksaddrHostPort address 0) = AddrInvalid →
  sa_Fqdn (ic_OriginDestination metadata) = "" →
  ic_Destination (Inbound_NewConnectionEx tag (override_of address 0) metadata) = mkSocksaddr AddrInvalid (sa_Port (ic_OriginDestination metadata)) "".
Proof.
  intros Ha Hp Hf. unfold Inbound_NewConnectionEx, override_of. rewrite (proj2 (String.eqb_neq _ _) Ha). cbn.
  destruct (ic_OriginDestination metadata) as [a p f]. cbn in *. by rewrite Hp, Hf.
Qed.

End Direct.

Section Examples.
#[local] Instance ex_lib : ExtLib := SampleLib.

(** With a port the domain is used, without one it is lost. *)
Example inbound_domain : let metadata := InboundContext_zero <| ic_OriginDestination := mkSocksaddr (Addr4 1) 80 "" |> in
  ic_Destination (Inbound_NewConnectionEx "in" (override_of "example.com" 443) metadata) = mkSocksaddr AddrInvalid 443 "example.com" ∧
  ic_Destination (Inbound_NewConnectionEx "in" (override_of "example.com" 0) metadata) = mkSocksaddr AddrInvalid 80 "".
Proof. by vm_compute. Qed.

(** An outbound that overrides everything with 10.0.0.1:5000 listens for packets to an address that was resolved. *)
Example packet_override : ∃ (dialer : Dialer unit Socksaddr Socksaddr),
  let o := (OverrideBoth, mkSocksaddr (Addr4 167772161) 5000 "") in
  (Outbound_ListenSerialNetworkPacket dialer o (mkSocksaddr AddrInvalid 80 "example.com") [Addr4 1] (mkDialOptions None [] [] 0) tt).1 =
    Ok (mkSocksaddr (Addr4 1) 5000 "", Addr4 1).
Proof.
  exists (mkDialer (λ _ _ (w : unit), (Err os_ErrInvalid, w)) (λ a w, (Ok a, w)) None (λ a _ w, (Ok a, w)) None (λ a _ _ w, (Ok (a, AddrInvalid), w))). by vm_compute.
Qed.
End Examples.
