(* ===== verification/DnsConn.v ===== *)
(** * Connections of the DNS transports (dns/transport/base.go, connector.go)

    A transport counts the queries that run and waits for them when it closes; a connector gives all
    queries one connection, and dials a new one when there is none.  Both are used by many goroutines:
    what is done with a lock held is one step, and the theorems are about every order of the steps. *)

From stdpp Require Import base gmap strings list numbers.
From S2P Require Import Prelude GoStd.

(** [dns/transport/base.go:23-26] errors *)
Definition ErrTransportClosed : error := E_Ext "os.ErrClosed".
Definition ErrConnectionReset : error := E_New [AStr "connection reset"].

(** ** The base of a transport *)

Module Base.

(** [dns/transport/base.go:14-21] TransportState *)
Inductive TransportState : Type := StateNew | StateStarted | StateClosing | StateClosed.
#[global] Instance TransportState_eq_dec : EqDecision TransportState.
Proof. solve_decision. Defined.

(** The channel of [Shutdown] is made once: it is there, or it has been closed. *)
Inductive Completion : Type := NoChannel | Waiting | Completed.
#[global] Instance Completion_eq_dec : EqDecision Completion.
Proof. solve_decision. Defined.

(** [dns/transport/base.go:28-38] BaseTransport *)
Record BaseTransport : Type := mkBaseTransport {
  state : TransportState;
  inFlight : nat;
  queriesComplete : Completion;
  closeDone : bool
}.
#[global] Instance BaseTransport_settable : Settable BaseTransport :=
  {| mkT r := mkBaseTransport (state r) (inFlight r) (queriesComplete r) (closeDone r) |}.

(** [dns/transport/base.go:40-49] NewBaseTransport *)
Definition NewBaseTransport : BaseTransport := mkBaseTransport StateNew 0 NoChannel false.

(** [dns/transport/base.go:57-69] (BaseTransport).SetStarted *)
Definition SetStarted (t : BaseTransport) : option error * BaseTransport :=
  match state t with
  | StateNew => (None, t <| state := StateStarted |>)
  | StateStarted => (None, t)
  | _ => (Some ErrTransportClosed, t)
  end.

(** [dns/transport/base.go:71-79] (BaseTransport).BeginQuery *)
Definition BeginQuery (t : BaseTransport) : bool * BaseTransport :=
  match state t with
  | StateStarted => (true, t <| inFlight := S (inFlight t) |>)
  | _ => (false, t)
  end.

(** [dns/transport/base.go:81-91] (BaseTransport).EndQuery *)
Definition EndQuery (t : BaseTransport) : BaseTransport :=
  let t := t <| inFlight := pred (inFlight t) |> in
  match inFlight t, queriesComplete t with
  | O, Waiting => t <| queriesComplete := Completed |>
  | _, _ => t
  end.

(** The first part of [Shutdown]: it is done, or it waits for the queries.

    [dns/transport/base.go:97-125] (BaseTransport).Shutdown (begin) *)
Definition Shutdown_begin (t : BaseTransport) : bool * BaseTransport :=
  match state t with
  | StateClosing | StateClosed => (false, t)
  | StateNew => (false, t <| state := StateClosed |> <| closeDone := true |>)
  | StateStarted =>
      let t := t <| state := StateClosing |> in
      if Nat.eqb (inFlight t) 0 then (false, t <| state := StateClosed |> <| closeDone := true |>)
      else (true, t <| queriesComplete := Waiting |> <| closeDone := true |>)
  end.

(** The second part, when the channel is closed or the time is over.

    [dns/transport/base.go:127-138] (BaseTransport).Shutdown (end) *)
Definition Shutdown_end (t : BaseTransport) : BaseTransport := t <| state := StateClosed |>.

(** ** Every order of the calls *)

(** A transport, the queries that have begun and not ended, and whether a [Shutdown] waits. *)
Record Running : Type := mkRunning { transport : BaseTransport; queries : nat; waits : bool }.

Inductive step : Running → Running → Prop :=
| step_start t q w : step (mkRunning t q w) (mkRunning (SetStarted t).2 q w)
| step_begin t q w t' : BeginQuery t = (true, t') → step (mkRunning t q w) (mkRunning t' (S q) w)
| step_refused t q w t' : BeginQuery t = (false, t') → step (mkRunning t q w) (mkRunning t' q w)
| step_end t q w : step (mkRunning t (S q) w) (mkRunning (EndQuery t) q w)
| step_shutdown t q w waits' t' : Shutdown_begin t = (waits', t') → step (mkRunning t q w) (mkRunning t' q (w || waits'))
| step_completed t q : queriesComplete t = Completed → step (mkRunning t q true) (mkRunning (Shutdown_end t) q false)
| step_timeout t q : step (mkRunning t q true) (mkRunning (Shutdown_end t) q false).

(** What holds of all of them. *)
Definition running_ok (r : Running) : Prop :=
  let t := transport r in
  inFlight t = queries r ∧
  (state t = StateNew → queries r = 0%nat) ∧
  (closeDone t = true ↔ state t = StateClosing ∨ state t = StateClosed) ∧
  (waits r = true ↔ state t = StateClosing) ∧
  match queriesComplete t with
  | NoChannel => state t = StateClosed → queries r = 0%nat
  | Waiting => (0 < queries r)%nat ∧ (state t = StateClosing ∨ state t = StateClosed)
  | Completed => queries r = 0%nat ∧ (state t = StateClosing ∨ state t = StateClosed)
  end ∧
  (state t = StateClosing → queriesComplete t ≠ NoChannel).

Lemma base_step_ok r r' : step r r' → running_ok r → running_ok r'.
Proof.
  intros Hstep (Hq & Hnew & Hdone & Hwait & Hchan & Hclosing). destruct Hstep; destruct t as [st n ch d]; cbn in *.
  - unfold SetStarted. destruct st; cbn; try done. destruct ch; cbn in *; unfold running_ok; cbn; intuition congruence.
  - unfold BeginQuery in *. destruct st; cbn in *; try congruence. injection H as <-. unfold running_ok. cbn.
    destruct ch; intuition (try congruence; try lia).
  - unfold BeginQuery in *. destruct st; cbn in *; try congruence; injection H as <-; done.
  - unfold EndQuery. subst n. cbn. destruct q as [|q]; destruct ch; unfold running_ok; cbn; intuition (try congruence; try lia).
  - unfold Shutdown_begin in *. destruct st; cbn in *.
    + injection H as <- <-. unfold running_ok. cbn. destruct ch; intuition (try congruence; try lia); destruct w; intuition congruence.
    + destruct (Nat.eqb_spec n 0) as [->|Hn]; injection H as <- <-; unfold running_ok; cbn; destruct ch, w; intuition (try congruence; try lia).
    + injection H as <- <-. rewrite orb_false_r. done.
    + injection H as <- <-. rewrite orb_false_r. done.
  - unfold running_ok. cbn. destruct ch; intuition (try congruence; try lia).
  - unfold running_ok. cbn. destruct ch; intuition (try congruence; try lia).
Qed.

Lemma base_reachable_ok r : rtc step (mkRunning NewBaseTransport 0 false) r → running_ok r.
Proof.
  intros Hr. remember (mkRunning NewBaseTransport 0 false) as r0 eqn:He.
  assert (running_ok r0) as H0 by (subst r0; unfold running_ok; cbn; intuition congruence). clear He.
  induction Hr as [|r1 r2 r3 Hs _ IH]; [done|]. apply IH. by eapply base_step_ok.
Qed.

(** Closing a transport waits for its queries, and for nothing else: in every order of the calls, as
    long as a [Shutdown] waits no query begins, and its channel is closed exactly when none is left; and
    a transport that is closed without a timeout has no queries. *)
Theorem Shutdown_waits r : rtc step (mkRunning NewBaseTransport 0 false) r →
  (waits r = true → (BeginQuery (transport r)).1 = false ∧ closeDone (transport r) = true ∧
     (queriesComplete (transport r) = Completed ↔ queries r = 0%nat)) ∧
  (closeDone (transport r) = true → (BeginQuery (transport r)).1 = false) ∧
  (state (transport r) = StateClosed → queriesComplete (transport r) ≠ Waiting → queries r = 0%nat).
Proof.
  intros (Hq & Hnew & Hdone & Hwait & Hchan & Hclosing)%base_reachable_ok. destruct r as [t q w]. cbn in *.
  split; [|split].
  - intros Hw. pose proof (proj1 Hwait Hw) as Hst. unfold BeginQuery. rewrite Hst. split; [done|].
    split; [by apply Hdone; left|]. specialize (Hclosing Hst).
    destruct (queriesComplete t); [done| |by destruct Hchan]. destruct Hchan. split; [done|lia].
  - intros [Hst|Hst]%Hdone; unfold BeginQuery; by rewrite Hst.
  - intros Hst Hne. destruct (queriesComplete t); [by apply Hchan|done|by destruct Hchan].
Qed.

End Base.

(** ** The connector *)

Module Connector.

(** What a goroutine in [Get] does next: take the lock; wait for the channel of another dial; dial,
    for a channel of its own; take the lock with what it has dialed; nothing more. *)
Inductive Thread : Type :=
| T_Loop
| T_Wait (channel : nat)
| T_Dial (channel : nat)
| T_Dialed (channel : nat) (r : error + nat)
| T_Done (r : error + nat).

(** Connections and channels have numbers; [alive] are the connections that are not closed, and
    [finished] the channels that are.

    [dns/transport/connector.go:15-26] Connector *)
Record Connector : Type := mkConnector {
  connection : option nat;
  connecting : option nat;
  closed : bool;
  alive : gset nat;
  finished : gset nat
}.
#[global] Instance Connector_settable : Settable Connector :=
  {| mkT r := mkConnector (connection r) (connecting r) (closed r) (alive r) (finished r) |}.

(** [dns/transport/connector.go:28-34] NewConnector *)
Definition NewConnector : Connector := mkConnector None None false ∅ ∅.

(** The callbacks [Close] and [Reset] close the connection. *)
Definition close_connection (c : nat) (s : Connector) : Connector := s <| alive := alive s ∖ {[c]} |>.

(** The first part, with the lock held, where [channel] is a channel that is made if one is needed.

    [dns/transport/connector.go:50-83] (Connector).Get (begin) *)
Definition Get_begin (channel : nat) (s : Connector) : Thread * Connector :=
  if closed s then (T_Done (inl ErrTransportClosed), s) else
  match (match connection s with Some c => if decide (c ∈ alive s) then Some c else None | None => None end) with
  | Some c => (T_Done (inr c), s)
  | None =>
      let s := s <| connection := None |> in
      match connecting s with
      | Some ch => (T_Wait ch, s)
      | None => (T_Dial channel, s <| connecting := Some channel |>)
      end
  end.

(** The second part, with the lock held again: closing a channel that is not there, or that is closed,
    panics ([None]).

    [dns/transport/connector.go:88-107] (Connector).Get (end) *)
Definition Get_end (r : error + nat) (s : Connector) : option (Thread * Connector) :=
  match connecting s with
  | None => None
  | Some ch =>
      if decide (ch ∈ finished s) then None else
      let s := s <| finished := {[ch]} ∪ finished s |> <| connecting := None |> in
      Some match r with
           | inl err => (T_Done (inl err), s)
           | inr c =>
               if closed s then (T_Done (inl ErrTransportClosed), close_connection c s)
               else (T_Done (inr c), s <| connection := Some c |>)
           end
  end.

(** [dns/transport/connector.go:126-141] (Connector).Close *)
Definition Connector_Close (s : Connector) : Connector :=
  if closed s then s else
  let s := s <| closed := true |> in
  match connection s with
  | Some c => close_connection c s <| connection := None |>
  | None => s
  end.

(** [dns/transport/connector.go:143-151] (Connector).Reset *)
Definition Connector_Reset (s : Connector) : Connector :=
  match connection s with
  | Some c => close_connection c s <| connection := None |>
  | None => s
  end.

(** ** Every order of the steps *)

(** A connector, the goroutines in [Get], and the numbers that have been given. *)
Record Running : Type := mkRunning { conn : Connector; threads : gmap nat Thread; used : nat }.

(** A dial ends when it likes, with an error or with a connection; a connection may be closed by its
    peer at any time; a context may be done at any time. *)
Inductive step : Running → Running → Prop :=
| step_Get s ts n i : ts !! i = None → step (mkRunning s ts n) (mkRunning s (<[i := T_Loop]> ts) n)
| step_begin s ts n i t s' : ts !! i = Some T_Loop → Get_begin n s = (t, s') →
    step (mkRunning s ts n) (mkRunning s' (<[i := t]> ts) (S n))
| step_wake s ts n i ch : ts !! i = Some (T_Wait ch) → ch ∈ finished s →
    step (mkRunning s ts n) (mkRunning s (<[i := T_Loop]> ts) n)
| step_cancel s ts n i ch e : ts !! i = Some (T_Wait ch) →
    step (mkRunning s ts n) (mkRunning s (<[i := T_Done (inl e)]> ts) n)
| step_dialed s ts n i ch : ts !! i = Some (T_Dial ch) →
    step (mkRunning s ts n) (mkRunning (s <| alive := {[n]} ∪ alive s |>) (<[i := T_Dialed ch (inr n)]> ts) (S n))
| step_failed s ts n i ch e : ts !! i = Some (T_Dial ch) →
    step (mkRunning s ts n) (mkRunning s (<[i := T_Dialed ch (inl e)]> ts) n)
| step_end s ts n i ch r t s' : ts !! i = Some (T_Dialed ch r) → Get_end r s = Some (t, s') →
    step (mkRunning s ts n) (mkRunning s' (<[i := t]> ts) n)
| step_Close s ts n : step (mkRunning s ts n) (mkRunning (Connector_Close s) ts n)
| step_Reset s ts n : step (mkRunning s ts n) (mkRunning (Connector_Reset s) ts n)
| step_lost s ts n c : step (mkRunning s ts n) (mkRunning (close_connection c s) ts n).

(** A goroutine that dials, or has dialed and not taken the lock, holds the channel. *)
Definition holds (t : Thread) (ch : nat) : Prop := t = T_Dial ch ∨ ∃ r, t = T_Dialed ch r.

Record running_ok (r : Running) : Prop := {
  ok_holder : ∀ i t ch, threads r !! i = Some t → holds t ch → connecting (conn r) = Some ch;
  ok_held : ∀ ch, connecting (conn r) = Some ch → ∃ i t, threads r !! i = Some t ∧ holds t ch;
  ok_single : ∀ i j t u ch, threads r !! i = Some t → threads r !! j = Some u → holds t ch → holds u ch → i = j;
  ok_wait : ∀ i ch, threads r !! i = Some (T_Wait ch) → ch ∈ finished (conn r) ∨ connecting (conn r) = Some ch;
  ok_channel : ∀ ch, connecting (conn r) = Some ch → ch ∉ finished (conn r) ∧ (ch < used r)%nat;
  ok_finished : ∀ ch, ch ∈ finished (conn r) → (ch < used r)%nat;
  ok_alive : ∀ c, c ∈ alive (conn r) → (c < used r)%nat ∧
    (connection (conn r) = Some c ∨ ∃ i ch, threads r !! i = Some (T_Dialed ch (inr c)));
  ok_closed : closed (conn r) = true → connection (conn r) = None;
  ok_none : ∀ ch, connecting (conn r) = Some ch → connection (conn r) = None
}.

Ltac at_thread := repeat match goal with
  | H : <[_ := _]> _ !! _ = Some _ |- _ => apply lookup_insert_Some in H as [[? ?]|[? H]]; simplify_eq
  | H : holds T_Loop _ |- _ => destruct H as [?|[? ?]]; discriminate
  | H : holds (T_Done _) _ |- _ => destruct H as [?|[? ?]]; discriminate
  | H : holds (T_Wait _) _ |- _ => destruct H as [?|[? ?]]; discriminate
  end.

Lemma holds_channel t ch ch' : holds t ch → holds t ch' → ch = ch'.
Proof. intros [->|[r ->]] [H|[r' H]]; congruence. Qed.

(** A goroutine goes from one thing that holds nothing to another. *)
Lemma idle_step s ts n i t u : running_ok (mkRunning s ts n) → ts !! i = Some t ∨ ts !! i = None →
  (∀ v ch, ts !! i = Some v → ¬ holds v ch) → (∀ ch, ¬ holds u ch) → (∀ ch, u = T_Wait ch → ch ∈ finished s ∨ connecting s = Some ch) →
  running_ok (mkRunning s (<[i := u]> ts) n).
Proof.
  intros [] Hi Ht Hu Hw. cbn in *. split; cbn; try done.
  - intros j v ch Hj Hh. at_thread; [by apply Hu in Hh|eauto].
  - intros ch (j & v & Hj & Hh)%ok_held0. exists j, v. rewrite lookup_insert_ne; [done|]. intros <-. by apply (Ht v ch).
  - intros j k v w ch Hj Hk Hv Hw'. at_thread; try (by apply Hu in Hv); try (by apply Hu in Hw'); eauto.
  - intros j ch Hj. at_thread; [by apply Hw|eauto].
  - intros c Hc. destruct (ok_alive0 c Hc) as [Hlt [?|(j & ch & Hj)]]; [by split; [|left]|]. split; [done|]. right. exists j, ch.
    rewrite lookup_insert_ne; [done|]. intros <-. apply (Ht _ ch Hj). right. by eexists.
Qed.

(** Closing connections. *)
Lemma fewer_alive s s' ts n : running_ok (mkRunning s ts n) →
  connecting s' = connecting s → finished s' = finished s → alive s' ⊆ alive s → (closed s' = true → connection s' = None) →
  (∀ c, connection s = Some c → connection s' = Some c ∨ c ∉ alive s') → (connection s = None → connection s' = None) →
  running_ok (mkRunning s' ts n).
Proof.
  intros [] Hc Hf Ha Hcl Hk Hn. cbn in *. split; cbn; rewrite ?Hc, ?Hf; try done; [|intros ch Hch; by apply Hn, (ok_none0 ch)].
  intros c Hc'. destruct (ok_alive0 c (Ha _ Hc')) as [Hlt [Hcon|?]]; [|by split; [|right]].
  split; [done|]. destruct (Hk c Hcon); [by left|done].
Qed.

Lemma begin_ok s ts n i t s' : ts !! i = Some T_Loop → Get_begin n s = (t, s') → running_ok (mkRunning s ts n) →
  running_ok (mkRunning s' (<[i := t]> ts) (S n)).
Proof.
  intros Hi Hb Hok. unfold Get_begin in Hb.
  assert (∀ ts, running_ok (mkRunning s ts n) → running_ok (mkRunning s ts (S n))) as Hmore.
  { intros ts' []. split; cbn in *; try done; [intros ch Hch; destruct (ok_channel0 ch Hch); split; [done|lia]| |].
    - intros ch Hch. specialize (ok_finished0 ch Hch). lia.
    - intros c Hc. destruct (ok_alive0 c Hc). split; [lia|done]. }
  assert (∀ u, (∀ ch, ¬ holds u ch) → (∀ ch, u = T_Wait ch → connecting s = Some ch) → running_ok (mkRunning s (<[i:=u]> ts) (S n))) as Hidle.
  { intros u Hu Hw. apply Hmore. apply (idle_step s ts n i T_Loop); [done|by left| |done|].
    - intros v ch Hv Hh. rewrite Hi in Hv. injection Hv as <-. at_thread.
    - intros ch Hch. right. by apply Hw. }
  destruct (closed s) eqn:Hclosed.
  { injection Hb as <- <-. apply Hidle; [intros ch Hh; at_thread|done]. }
  destruct (match connection s with Some c => if decide (c ∈ alive s) then Some c else None | None => None end) as [c|] eqn:Hc.
  { injection Hb as <- <-. apply Hidle; [intros ch Hh; at_thread|done]. }
  assert (∀ c, connection s = Some c → c ∉ alive s) as Hdead.
  { intros c Hcon. rewrite Hcon in Hc. by destruct (decide _). }
  change (connecting (s <| connection := None |>)) with (connecting s) in Hb.
  destruct (connecting s) as [ch|] eqn:Hch; injection Hb as <- <-.
  - apply (fewer_alive s); try done; [|intros c Hcon; right; by apply Hdead].
    apply Hidle; [intros ch' Hh; at_thread|by intros ch' [= ->]].
  - destruct Hok. cbn in *. split; cbn; try done.
    + intros j u ch Hj Hh. at_thread; [by destruct Hh as [[= ->]|[r ?]]|]. specialize (ok_holder0 _ _ _ Hj Hh). congruence.
    + intros ch' [= <-]. exists i, (T_Dial n). rewrite lookup_insert_eq. split; [done|by left].
    + intros j k u v ch Hj Hk Hu Hv. at_thread; try done;
        match goal with Hl : ts !! _ = Some ?u, Hh : holds ?u _ |- _ => specialize (ok_holder0 _ _ _ Hl Hh); congruence end.
    + intros j ch Hj. at_thread. destruct (ok_wait0 j ch Hj); [by left|congruence].
    + intros ch [= <-]. split; [|lia]. intros Hin. specialize (ok_finished0 _ Hin). lia.
    + intros ch Hin. specialize (ok_finished0 _ Hin). lia.
    + intros c Hin. destruct (ok_alive0 c Hin) as [Hlt [Hcon|(j & ch & Hj)]]; [by apply Hdead in Hcon|]. split; [lia|]. right. exists j, ch.
      rewrite lookup_insert_ne; [done|]. intros <-. congruence.
Qed.

Lemma dialed_ok s ts n i ch (r : error + nat) : ts !! i = Some (T_Dial ch) → running_ok (mkRunning s ts n) →
  running_ok (mkRunning (match r with inr _ => s <| alive := {[n]} ∪ alive s |> | inl _ => s end)
    (<[i := T_Dialed ch (match r with inr _ => inr n | inl e => inl e end)]> ts) (match r with inr _ => S n | inl _ => n end)).
Proof.
  intros Hi []. cbn in *. set (u := T_Dialed ch _). assert (holds (T_Dial ch) ch) as Hd by by left.
  assert (holds u ch) as Hu by (right; by eexists).
  assert (∀ j v ch', <[i:=u]> ts !! j = Some v → holds v ch' → ∃ w, ts !! j = Some w ∧ holds w ch') as Hback.
  { intros j v ch' Hj Hh. destruct (decide (i = j)) as [<-|Hne].
    - rewrite lookup_insert_eq in Hj. injection Hj as <-. rewrite (holds_channel _ _ _ Hh Hu). by eexists.
    - rewrite lookup_insert_ne in Hj by done. by eexists. }
  assert (connecting s = Some ch) as Hch by by eapply ok_holder0.
  assert (∀ s', connecting s' = connecting s → finished s' = finished s → connection s' = connection s → closed s' = closed s →
    ∀ m, (n ≤ m)%nat → (∀ c, c ∈ alive s' → c ∈ alive s ∨ (c < m)%nat ∧ u = T_Dialed ch (inr c)) →
    running_ok (mkRunning s' (<[i:=u]> ts) m)) as Hgen.
  { intros s' Hc Hf Hcon Hcl m Hm Ha. split; cbn; rewrite ?Hc, ?Hf, ?Hcon, ?Hcl.
    - intros j v ch' Hj Hh. destruct (Hback _ _ _ Hj Hh) as (w & ? & ?). eauto.
    - intros ch' Hch'. assert (ch' = ch) as -> by congruence. exists i, u. by rewrite lookup_insert_eq.
    - intros j k v w ch' Hj Hk Hv Hw. destruct (Hback _ _ _ Hj Hv) as (? & ? & ?), (Hback _ _ _ Hk Hw) as (? & ? & ?). eauto.
    - intros j ch' Hj. at_thread. eauto.
    - intros ch' Hch'. destruct (ok_channel0 ch' Hch'). split; [done|lia].
    - intros ch' Hin. specialize (ok_finished0 _ Hin). lia.
    - intros c Hin. destruct (Ha c Hin) as [Hin'|[Hlt Hu']].
      + destruct (ok_alive0 c Hin') as [? [?|(j & ch' & Hj)]]; (split; [lia|]); [by left|]. right. exists j, ch'.
        rewrite lookup_insert_ne; [done|]. intros <-. congruence.
      + split; [done|]. right. exists i, ch. by rewrite lookup_insert_eq, Hu'.
    - done.
    - done. }
  destruct r as [e|c]; apply Hgen; try done; cbn; try lia.
  - intros c Hin. by left.
  - intros c' [->%elem_of_singleton|Hin]%elem_of_union; [right; split; [lia|done]|by left].
Qed.

(** Taking the lock again never panics. *)
Lemma end_ok s ts n i ch r : ts !! i = Some (T_Dialed ch r) → running_ok (mkRunning s ts n) →
  ∃ t s', Get_end r s = Some (t, s') ∧ running_ok (mkRunning s' (<[i := t]> ts) n).
Proof.
  intros Hi []. cbn in *. set (u := T_Dialed ch r) in *. assert (holds u ch) as Hu by (right; by eexists).
  assert (connecting s = Some ch) as Hch by by eapply ok_holder0.
  destruct (ok_channel0 ch Hch) as [Hnf Hlt].
  assert (∀ j v ch', ts !! j = Some v → holds v ch' → j = i) as Honly.
  { intros j v ch' Hj Hh. assert (ch' = ch) as ->; [|by eapply ok_single0].
    specialize (ok_holder0 _ _ _ Hj Hh). congruence. }
  assert (∀ x s', connecting s' = None → finished s' = {[ch]} ∪ finished s → (closed s' = true → connection s' = None) →
    (∀ c, c ∈ alive s' → c ∈ alive s ∧ (connection s = Some c → connection s' = Some c) ∧ (r = inr c → connection s' = Some c)) →
    running_ok (mkRunning s' (<[i := T_Done x]> ts) n)) as Hgen.
  { intros x s' Hc Hf Hcl Ha. split; cbn; rewrite ?Hc, ?Hf; try done.
    - intros j v ch' Hj Hh. at_thread. exfalso. by apply (Honly j v ch') in Hh.
    - intros j k v w ch' Hj Hk Hv Hw. at_thread. by eapply ok_single0.
    - intros j ch' Hj. at_thread. left. destruct (ok_wait0 j ch' Hj); [set_solver|]. assert (ch' = ch) as -> by congruence. set_solver.
    - intros ch' [->%elem_of_singleton|Hin]%elem_of_union; [done|by apply ok_finished0].
    - intros c Hin. destruct (Ha c Hin) as (Hin' & H1 & H2). destruct (ok_alive0 c Hin') as [? [Hcon|(j & ch' & Hj)]]; (split; [done|]); left; [by apply H1|].
      assert (j = i) as -> by (eapply Honly; [done|right; by eexists]). rewrite Hi in Hj. injection Hj as _ Hr. by apply H2. }
  unfold Get_end. rewrite Hch, decide_False by done. destruct r as [e|c].
  - eexists _, _. split; [reflexivity|]. apply Hgen; done.
  - change (closed (s <|finished := {[ch]} ∪ finished s|> <|connecting := None|>)) with (closed s).
    destruct (closed s) eqn:Hclosed; eexists _, _; (split; [reflexivity|]).
    + apply Hgen; [done|done|intros _; by apply ok_closed0|].
      intros c' Hin. cbn in Hin. apply elem_of_difference in Hin as [Hin Hne]. split; [done|]. split; [done|].
      intros [= ->]. set_solver.
    + apply Hgen; [done|done|cbn; congruence|].
      intros c' Hin. split; [done|]. split; [|by intros [= ->]]. by rewrite (ok_none0 ch Hch).
Qed.

Lemma idle_Done r ch : ¬ holds (T_Done r) ch.
Proof. intros H. at_thread. Qed.
Lemma idle_Loop ch : ¬ holds T_Loop ch.
Proof. intros H. at_thread. Qed.
Lemma idle_Wait ch ch' : ¬ holds (T_Wait ch) ch'.
Proof. intros H. at_thread. Qed.
#[local] Hint Resolve idle_Done idle_Loop idle_Wait : core.

Lemma connector_step_ok r r' : step r r' → running_ok r → running_ok r'.
Proof.
  intros Hstep Hok. destruct Hstep.
  - apply (idle_step s ts n i T_Loop); auto; congruence.
  - by eapply begin_ok.
  - apply (idle_step s ts n i (T_Wait ch)); auto; try congruence; intros v ch' Hv; rewrite H in Hv; injection Hv as <-; auto.
  - apply (idle_step s ts n i (T_Wait ch)); auto; try congruence; intros v ch' Hv; rewrite H in Hv; injection Hv as <-; auto.
  - apply (dialed_ok s ts n i ch (inr 0%nat)); done.
  - apply (dialed_ok s ts n i ch (inl e)); done.
  - destruct (end_ok s ts n i ch r H Hok) as (t' & s'' & He & Hok'). rewrite H0 in He. by injection He as -> ->.
  - unfold Connector_Close. destruct (closed s) eqn:Hc; [done|].
    cbn [connection]. change (connection (s <| closed := true |>)) with (connection s).
    destruct (connection s) as [c|] eqn:Hcon; apply (fewer_alive s); try done; cbn; set_solver.
  - unfold Connector_Reset. destruct (connection s) as [c|] eqn:Hcon; [|done]. apply (fewer_alive s); try done; cbn; set_solver.
  - apply (fewer_alive s); try done; cbn; [set_solver|by apply Hok|by left].
Qed.

Definition start : Running := mkRunning NewConnector ∅ 0.

Lemma connector_reachable_ok r : rtc step start r → running_ok r.
Proof.
  intros Hr. remember start as r0 eqn:He. assert (running_ok r0) as H0.
  { subst r0. split; cbn; try done; try (intros *; by rewrite lookup_empty); set_solver. }
  clear He. induction Hr as [|r1 r2 r3 Hs _ IH]; [done|]. apply IH. by eapply connector_step_ok.
Qed.

(** C25: many queries share one connection, in every order of what their goroutines do: at most one of
    them dials, and taking the lock after it never panics; one that waits is woken, or the dial it waits
    for still runs; and a connection that is open is the one the connector keeps, or is in the hands of
    the goroutine that dialed it, so that none is open after everything has ended on a closed connector. *)
Theorem Connector_shares r : rtc step start r →
  (∀ i j t u ch ch', threads r !! i = Some t → threads r !! j = Some u → holds t ch → holds u ch' → i = j) ∧
  (∀ i ch x, threads r !! i = Some (T_Dialed ch x) → Get_end x (conn r) ≠ None) ∧
  (∀ i ch, threads r !! i = Some (T_Wait ch) → ch ∈ finished (conn r) ∨ ∃ j t, threads r !! j = Some t ∧ holds t ch) ∧
  (∀ c, c ∈ alive (conn r) → connection (conn r) = Some c ∨ ∃ i ch, threads r !! i = Some (T_Dialed ch (inr c))) ∧
  (closed (conn r) = true → (∀ i t, threads r !! i = Some t → ∃ x, t = T_Done x) → alive (conn r) = ∅).
Proof.
  intros Hr%connector_reachable_ok. pose proof Hr as []. destruct r as [s ts n]. cbn in *. split_and!.
  - intros i j t u ch ch' Hi Hj Ht Hu. assert (ch' = ch) as ->; [|by eapply ok_single0].
    pose proof (ok_holder0 _ _ _ Hi Ht). pose proof (ok_holder0 _ _ _ Hj Hu). congruence.
  - intros i ch x Hi He. destruct (end_ok s ts n i ch x Hi Hr) as (t & s' & He' & _). congruence.
  - intros i ch Hi. destruct (ok_wait0 i ch Hi) as [?|Hch]; [by left|]. right. by apply ok_held0.
  - intros c Hc. by apply ok_alive0.
  - intros Hcl Hdone. apply set_eq. intros c. split; [|done]. intros Hc. exfalso. destruct (ok_alive0 c Hc) as [_ [Hcon|(i & ch & Hi)]].
    + rewrite (ok_closed0 Hcl) in Hcon. done.
    + by destruct (Hdone i _ Hi).
Qed.

End Connector.

(** ** Concrete orders *)

Section Examples.
Import Base.

(** A query runs when the transport is shut down, and ends. *)
Lemma Shutdown_waits_witness :
  let r := mkRunning (mkBaseTransport StateClosing 1 Waiting true) 1 true in
  rtc step (mkRunning NewBaseTransport 0 false) r ∧ (BeginQuery (transport r)).1 = false.
Proof.
  assert (rtc step (mkRunning NewBaseTransport 0 false) (mkRunning (mkBaseTransport StateClosing 1 Waiting true) 1 true)) as Hr.
  { eapply rtc_l; [apply step_start|]. eapply rtc_l; [by apply step_begin|].
    eapply rtc_l; [by eapply step_shutdown|]. apply rtc_refl. }
  split; [exact Hr|]. by apply (Shutdown_waits _ Hr).
Defined.

End Examples.

Section ConnectorExamples.
Import Connector.

(** Two queries: the second waits for the dial of the first, and both get its connection. *)
Definition ex_dialing : Running := mkRunning (mkConnector None (Some 0%nat) false ∅ ∅) {[0%nat := T_Dial 0; 1%nat := T_Wait 0]} 2.
Lemma ex_dialing_reachable : rtc step start ex_dialing.
Proof.
  eapply rtc_l; [by apply (step_Get _ _ _ 0)|]. eapply rtc_l; [by apply (step_begin _ _ _ 0 (T_Dial 0) (mkConnector None (Some 0%nat) false ∅ ∅))|].
  eapply rtc_l; [by apply (step_Get _ _ _ 1)|]. eapply rtc_l; [by apply (step_begin _ _ _ 1 (T_Wait 0) (mkConnector None (Some 0%nat) false ∅ ∅))|].
  apply rtc_refl.
Qed.

Lemma Connector_shares_witness : rtc step start ex_dialing ∧ ∃ j t, threads ex_dialing !! j = Some t ∧ holds t 0.
Proof.
  split; [exact ex_dialing_reachable|].
  destruct (Connector_shares ex_dialing ex_dialing_reachable) as (_ & _ & Hw & _).
  destruct (Hw 1%nat 0%nat eq_refl) as [Hf|Hh]; [|exact Hh]. exfalso. revert Hf. apply (bool_decide_unpack _). exact I.
Defined.

End ConnectorExamples.
