(* ===== verification/DnsWire.v ===== *)
(** * Queries on the wire (dns/transport/udp.go, tcp.go, tls.go)

    Over UDP many queries share a connection and are told apart by an identifier that is free when they
    begin; over TCP and TLS every message has its length in front, and a connection of TLS is used by
    one query at a time.  The theorems are about every order of what the queries, the receiving loop
    and the server do. *)

From stdpp Require Import base gmap strings list numbers.
From S2P Require Import Prelude GoStd Netip GoIO Adapter SetItems AddrItems RuleAction RuleOptions RuleItem RuleMatch RuleSet Rules DnsRules DnsClient DnsConn.

Local Open Scope Z_scope.

(** ** Identifiers of queries *)

Definition no_query_id : error := E_New [AStr "no available query ID"].

(** The fuel counts the identifiers that are tried: [nextAvailableQueryId_spec] shows that 65536 are
    enough.

    [dns/transport/udp.go:107-115] (UDPTransport).nextAvailableQueryId (loop) *)
Fixpoint next_loop {A} (fuel : nat) (start queryId : Z) (callbacks : gmap Z A) : option (res Z * Z) :=
  match fuel with
  | O => None
  | S fuel =>
      let queryId := u16 (queryId + 1) in
      match callbacks !! queryId with
      | None => Some (Ok queryId, queryId)
      | Some _ => if Z.eqb queryId start then Some (Err no_query_id, queryId) else next_loop fuel start queryId callbacks
      end
  end.

(** [dns/transport/udp.go:105-116] (UDPTransport).nextAvailableQueryId *)
Definition nextAvailableQueryId {A} (queryId : Z) (callbacks : gmap Z A) : option (res Z * Z) :=
  next_loop (Z.to_nat 65536) queryId queryId callbacks.
#[global] Arguments nextAvailableQueryId : simpl never.

Lemma u16_small z : 0 ≤ z < 65536 → u16 z = z.
Proof. intros Hz. unfold u16. by rewrite wrap_id. Qed.

Lemma u16_next z : 0 ≤ z < 65536 → u16 (z + 1) = if Z.eqb z 65535 then 0 else z + 1.
Proof. intros Hz. destruct (Z.eqb_spec z 65535) as [->|]; [done|]. apply u16_small. lia. Qed.

(** The [k]-th identifier after [start]. *)
Definition id_after (start k : Z) : Z := u16 (start + k).

Lemma next_loop_spec {A} (callbacks : gmap Z A) start : 0 ≤ start < 65536 → ∀ fuel k, 0 ≤ k → k + Z.of_nat fuel = 65536 → (0 < fuel)%nat →
  (∀ j, 0 < j ≤ k → is_Some (callbacks !! id_after start j)) →
  ∃ r q, next_loop fuel start (id_after start k) callbacks = Some (r, q) ∧ 0 ≤ q < 65536 ∧
    match r with
    | Ok id => id = q ∧ callbacks !! id = None
    | Err _ => q = start ∧ ∀ id, 0 ≤ id < 65536 → is_Some (callbacks !! id)
    | Panic _ => False
    end.
Proof.
  intros Hs. induction fuel as [|fuel IH]; intros k Hk Hf Hpos Hused; [lia|]. cbn [next_loop].
  assert (u16 (id_after start k + 1) = id_after start (k + 1)) as Hnext.
  { unfold id_after, u16, wrap. rewrite Zplus_mod_idemp_l. f_equal. lia. }
  assert (0 ≤ id_after start (k + 1) < 65536) as Hrange by (apply (Z.mod_pos_bound _ 65536); lia).
  rewrite Hnext. destruct (callbacks !! id_after start (k + 1)) as [a|] eqn:Hc; [|by eexists _, _].
  assert (∀ j, 0 < j ≤ k + 1 → is_Some (callbacks !! id_after start j)) as Hused'.
  { intros j Hj. destruct (decide (j = k + 1)) as [->|]; [by eexists|]. apply Hused. lia. }
  destruct (Z.eqb_spec (id_after start (k + 1)) start) as [He|Hne].
  - eexists _, _. split; [reflexivity|]. split; [done|]. split; [done|]. intros id Hid.
    assert (k + 1 = 65536) as Hk1.
    { unfold id_after, u16, wrap in He. destruct (decide (k + 1 < 65536)) as [Hlt|]; [|lia]. exfalso.
      change (2 ^ 16) with 65536 in He. destruct (decide (start + (k + 1) < 65536)).
      - rewrite Z.mod_small in He by lia. lia.
      - replace (start + (k + 1)) with ((start + (k + 1) - 65536) + 1 * 65536) in He by lia.
        rewrite Z.mod_add, Z.mod_small in He by lia. lia. }
    destruct (Hused' (if decide (start < id) then id - start else id - start + 65536)) as [b Hb].
    { destruct (decide (start < id)); lia. }
    unfold id_after, u16, wrap in Hb. change (2 ^ 16) with 65536 in Hb. destruct (decide (start < id)).
    + replace (start + (id - start)) with id in Hb by lia. rewrite Z.mod_small in Hb by lia. by eexists.
    + replace (start + (id - start + 65536)) with (id + 1 * 65536) in Hb by lia. rewrite Z.mod_add, Z.mod_small in Hb by lia. by eexists.
  - apply IH; try done; try lia. destruct (decide (fuel = 0%nat)) as [->|]; [|lia]. exfalso. apply Hne.
    unfold id_after. replace (start + (k + 1)) with (start + 1 * 65536) by lia. unfold u16, wrap. change (2 ^ 16) with 65536.
    rewrite Z.mod_add, Z.mod_small by lia. done.
Qed.

(** A query gets an identifier that no other query has, unless all 65536 are taken, and the search
    for one ends. *)
Theorem nextAvailableQueryId_spec {A} (callbacks : gmap Z A) queryId : 0 ≤ queryId < 65536 →
  ∃ r q, nextAvailableQueryId queryId callbacks = Some (r, q) ∧ 0 ≤ q < 65536 ∧
    match r with
    | Ok id => id = q ∧ callbacks !! id = None
    | Err _ => q = queryId ∧ ∀ id, 0 ≤ id < 65536 → is_Some (callbacks !! id)
    | Panic _ => False
    end.
Proof.
  intros Hq. unfold nextAvailableQueryId.
  assert (id_after queryId 0 = queryId) as He by (unfold id_after; rewrite Z.add_0_r; by apply u16_small).
  pose proof (next_loop_spec callbacks queryId Hq (Z.to_nat 65536) 0) as Hspec. rewrite He in Hspec. apply Hspec.
  - done.
  - rewrite Z2Nat.id; lia.
  - apply Nat2Z.inj_lt. rewrite Z2Nat.id; lia.
  - lia.
Qed.

(** ** Queries over UDP *)

Module UDP.

Section Wire.

(** The wire format of messages. *)
Context `{ExtLib} `{ActionLib} `{!DNSLib} (Pack : Msg → option (list byte)) (Unpack : list byte → option Msg).

(** [responses] are the callbacks whose channel is closed, with what they hold.

    [dns/transport/udp.go:29-47] UDPTransport *)
Record UDPTransport : Type := mkUDPTransport {
  udpSize : Z;
  queryId : Z;
  callbacks : gmap Z nat;
  responses : gmap nat Msg
}.
#[global] Instance eta_udp : Settable UDPTransport :=
  {| mkT t := mkUDPTransport (udpSize t) (queryId t) (callbacks t) (responses t) |}.

(** [dns/transport/udp.go:64-74] NewUDPRaw *)
Definition NewUDPRaw : UDPTransport := mkUDPTransport 2048 0 ∅ ∅.

(** The size of the buffers grows to what a message announces; whether the connection is reset.

    [dns/transport/udp.go:153-165] (UDPTransport).exchange (size) *)
Definition raise_size (message : Msg) (t : UDPTransport) : bool * UDPTransport :=
  match Msg_IsEdns0 message with
  | Some edns0Opt =>
      let size := OPT_UDPSize edns0Opt in
      if Z.leb size (udpSize t) then (false, t) else (true, t <| udpSize := size |>)
  | None => (false, t)
  end.

(** A query registers its callback under an identifier.

    [dns/transport/udp.go:172-183] (UDPTransport).exchange (begin) *)
Definition exchange_begin (callback : nat) (t : UDPTransport) : option (res Z * UDPTransport) :=
  match nextAvailableQueryId (queryId t) (callbacks t) with
  | Some (Ok id, q) => Some (Ok id, t <| queryId := q |> <| callbacks := <[id := callback]> (callbacks t) |>)
  | Some (r, q) => Some (r, t <| queryId := q |>)
  | None => None
  end.

(** [dns/transport/udp.go:194-202] (UDPTransport).exchange (message) *)
Definition exchange_message (id : Z) (message : Msg) : option (list byte) := Pack (message <| msg_Id := id |>).

(** [dns/transport/udp.go:211-213] (UDPTransport).exchange (response) *)
Definition exchange_response (callback : nat) (originalId : Z) (t : UDPTransport) : option Msg :=
  (λ m, m <| msg_Id := originalId |>) <$> responses t !! callback.

(** [dns/transport/udp.go:185-189] (UDPTransport).exchange (end) *)
Definition exchange_end (id : Z) (t : UDPTransport) : UDPTransport := t <| callbacks := delete id (callbacks t) |>.

(** The callback a datagram is for: what does not fit the buffer is cut, what is not a message or answers
    no query is dropped.

    [dns/transport/udp.go:225-247] (UDPTransport).recvLoop (datagram) *)
Definition recv_datagram (size : Z) (datagram : list byte) (t : UDPTransport) : option (nat * Msg) :=
  m ← Unpack (take (Z.to_nat size) datagram);
  callback ← callbacks t !! msg_Id m;
  Some (callback, m).

(** Only the first response counts.

    [dns/transport/udp.go:249-256] (UDPTransport).recvLoop (callback) *)
Definition recv_callback (callback : nat) (m : Msg) (t : UDPTransport) : UDPTransport :=
  match responses t !! callback with
  | Some _ => t
  | None => t <| responses := <[callback := m]> (responses t) |>
  end.

(** *** Every order of the steps *)

Record Query : Type := mkQuery { q_id : Z; q_original : Z }.
Inductive Event : Type := Began (callback : nat) (id : Z) | Received (m : Msg).

(** The transport, the queries that have begun and not ended, by their callbacks, the messages between the
    two steps of the receiving loops, the callbacks that have been made, and what has happened, the last
    first. *)
Record Running : Type := mkRunning {
  udp : UDPTransport;
  pending : gmap nat Query;
  delivering : list (nat * Msg);
  used : nat;
  log : list Event
}.

(** A loop may have made its buffer before the size grew; a query may end at any time with an error, and
    when it has a response, with that.

    [dns/transport/udp.go:152-221] (UDPTransport).exchange *)
Inductive udp_step : Running → Running → Prop :=
| step_size t ps ds n l message : udp_step (mkRunning t ps ds n l) (mkRunning (raise_size message t).2 ps ds n l)
| step_begin t ps ds n l message id t' : exchange_begin n t = Some (Ok id, t') →
    udp_step (mkRunning t ps ds n l) (mkRunning t' (<[n := mkQuery id (msg_Id message)]> ps) ds (S n) (Began n id :: l))
| step_refused t ps ds n l e t' : exchange_begin n t = Some (Err e, t') → udp_step (mkRunning t ps ds n l) (mkRunning t' ps ds n l)
| step_datagram t ps ds n l size datagram cb m : size ≤ udpSize t → recv_datagram size datagram t = Some (cb, m) →
    udp_step (mkRunning t ps ds n l) (mkRunning t ps (ds ++ [(cb, m)]) n (Received m :: l))
| step_callback t ps ds1 ds2 n l cb m :
    udp_step (mkRunning t ps (ds1 ++ (cb, m) :: ds2) n l) (mkRunning (recv_callback cb m t) ps (ds1 ++ ds2) n l)
| step_end t ps ds n l cb q : ps !! cb = Some q →
    udp_step (mkRunning t ps ds n l) (mkRunning (exchange_end (q_id q) t) (delete cb ps) ds n l).

(** A message with the identifier of a query was received after the query had begun. *)
Definition got (l : list Event) (cb : nat) (m : Msg) : Prop :=
  ∃ later earlier, l = later ++ Received m :: earlier ∧ Began cb (msg_Id m) ∈ earlier.

Lemma got_cons l e cb m : got l cb m → got (e :: l) cb m.
Proof. intros (later & earlier & -> & Hb). by exists (e :: later), earlier. Qed.

Lemma got_began l cb m : got l cb m → Began cb (msg_Id m) ∈ l.
Proof. intros (later & earlier & -> & Hb). apply elem_of_app. right. by right. Qed.

Record running_ok (r : Running) : Prop := {
  ok_queryId : 0 ≤ queryId (udp r) < 65536;
  ok_callbacks : ∀ id cb, callbacks (udp r) !! id = Some cb ↔ ∃ q, pending r !! cb = Some q ∧ q_id q = id;
  ok_pending : ∀ cb q, pending r !! cb = Some q → Began cb (q_id q) ∈ log r;
  ok_log : ∀ cb id, Began cb id ∈ log r → (cb < used r)%nat ∧ ∀ id', Began cb id' ∈ log r → id' = id;
  ok_delivering : ∀ cb m, (cb, m) ∈ delivering r → got (log r) cb m;
  ok_responses : ∀ cb m, responses (udp r) !! cb = Some m → got (log r) cb m
}.

Lemma udp_begin_ok t ps ds n l message id t' : exchange_begin n t = Some (Ok id, t') → running_ok (mkRunning t ps ds n l) →
  running_ok (mkRunning t' (<[n := mkQuery id (msg_Id message)]> ps) ds (S n) (Began n id :: l)).
Proof.
  unfold exchange_begin. intros Hb []. cbn in *.
  destruct (nextAvailableQueryId_spec (callbacks t) (queryId t) ok_queryId0) as (r & q & Hn & Hq & Hr). rewrite Hn in Hb.
  destruct r; simplify_eq. destruct Hr as [-> Hfree].
  assert (∀ id', Began n id' ∉ l) as Hnew by (intros id' Hin; destruct (ok_log0 _ _ Hin); lia).
  assert (∀ cb q, ps !! cb = Some q → cb ≠ n) as Hne.
  { intros cb q' Hcb ->. by apply ok_pending0, Hnew in Hcb. }
  split; cbn; [done| | | |by intros *; intros ?%ok_delivering0%(got_cons _ (Began n q))|
    by intros *; intros ?%ok_responses0%(got_cons _ (Began n q))].
  - intros id' cb. rewrite lookup_insert_Some, ok_callbacks0. split.
    + intros [[<- <-]|[Hid (q' & Hq' & <-)]].
      * eexists. by rewrite lookup_insert_eq.
      * exists q'. rewrite lookup_insert_ne by (intros ->; by apply Hne in Hq'). done.
    + intros (q' & Hq' & <-). apply lookup_insert_Some in Hq' as [[<- <-]|[Hcb Hq']]; [by left|]. right. split; [|by exists q'].
      intros ->. assert (callbacks t !! q_id q' = Some cb) by (apply ok_callbacks0; by exists q'). congruence.
  - intros cb q' Hq'. apply lookup_insert_Some in Hq' as [[<- <-]|[Hcb Hq']]; [by left|]. right. by apply ok_pending0.
  - intros cb id' [[= -> ->]|Hin]%elem_of_cons.
    + split; [lia|]. intros id'' [[=]|Hin']%elem_of_cons; [done|by apply Hnew in Hin'].
    + destruct (ok_log0 _ _ Hin) as [Hlt Hu]. split; [lia|]. intros id'' [[= -> ->]|Hin']%elem_of_cons; [lia|by apply Hu].
Qed.

Lemma udp_step_ok r r' : udp_step r r' → running_ok r → running_ok r'.
Proof.
  intros Hstep Hok. destruct Hstep.
  - destruct Hok. unfold raise_size. destruct (Msg_IsEdns0 message); [|by split]. cbv zeta. destruct (Z.leb _ (udpSize t)); by split.
  - by apply (udp_begin_ok t _ _ _ _ message).
  - match goal with Hb : exchange_begin _ _ = _ |- _ => revert Hb end. unfold exchange_begin. destruct Hok. cbn in *.
    destruct (nextAvailableQueryId_spec (callbacks t) (queryId t) ok_queryId0) as (r & q & -> & Hq & Hr). destruct r; intros [=]; subst; by split.
  - match goal with Hd : recv_datagram _ _ _ = _ |- _ => revert Hd end. unfold recv_datagram. destruct (Unpack _) as [m'|]; [|done]. cbn. destruct (callbacks t !! msg_Id m') as [cb'|] eqn:Hcb; [|done].
    cbn. intros [= -> ->]. destruct Hok. cbn in *. split; cbn; try done.
    + intros cb' q Hq. right. by apply ok_pending0.
    + intros cb' id Hin%elem_of_cons. destruct Hin as [?|Hin]; [done|]. destruct (ok_log0 _ _ Hin) as [Hlt Hu]. split; [done|].
      intros id' Hin'%elem_of_cons. destruct Hin' as [?|Hin']; [done|by apply Hu].
    + intros cb' m' [Hin|Hin]%elem_of_app; [by apply got_cons, ok_delivering0|]. apply list_elem_of_singleton in Hin. injection Hin as -> ->.
      exists [], l. split; [done|]. apply ok_callbacks0 in Hcb as (q & Hq & <-). by apply ok_pending0.
    + intros cb' m' Hin. by apply got_cons, ok_responses0.
  - destruct Hok. cbn in *. assert (got l cb m) as Hg by (apply ok_delivering0, elem_of_app; right; by left).
    assert (∀ cb' m', (cb', m') ∈ ds1 ++ ds2 → got l cb' m') as Hds.
    { intros cb' m' [Hin|Hin]%elem_of_app; apply ok_delivering0, elem_of_app; [by left|right; by right]. }
    unfold recv_callback. destruct (responses t !! cb) eqn:Hr; split; try done; cbn.
    intros cb' m' [[<- <-]|[? ?]]%lookup_insert_Some; [done|by apply ok_responses0].
  - destruct Hok. cbn in *. split; cbn; try done.
    + intros id cb'. rewrite lookup_delete_Some, ok_callbacks0. split.
      * intros [Hne (q' & Hq' & <-)]. exists q'. rewrite lookup_delete_ne; [done|]. intros ->. congruence.
      * intros (q' & [Hne Hq']%lookup_delete_Some & <-). split; [|by exists q']. intros He.
        assert (callbacks t !! q_id q = Some cb) as Hc1 by (apply ok_callbacks0; by exists q).
        assert (callbacks t !! q_id q = Some cb') as Hc2 by (apply ok_callbacks0; by exists q'). congruence.
    + intros cb' q' [_ Hq']%lookup_delete_Some. by apply ok_pending0.
Qed.

Definition start : Running := mkRunning NewUDPRaw ∅ [] 0 [].

Lemma udp_reachable_ok r : rtc udp_step start r → running_ok r.
Proof.
  intros Hr. remember start as r0 eqn:He. assert (running_ok r0) as Hr0.
  { subst r0. split; cbn; try done; try lia; try (intros *; rewrite ?lookup_empty; by try intros []%not_elem_of_nil).
    intros id cb. rewrite lookup_empty. split; [done|]. intros (q & Hq & _). by rewrite lookup_empty in Hq. }
  clear He. induction Hr as [|r1 r2 r3 Hs _ IH]; [done|]. apply IH. by eapply udp_step_ok.
Qed.

(** C23: queries share a connection without taking each other's answers, in every order of what they and the
    receiving loops do: queries that run at the same time have different identifiers, each within 16 bits;
    and what a query returns is a message that was received after the query began and had the identifier it
    was sent with, which gets the identifier of the request back. *)
Theorem UDP_answers r cb q : rtc udp_step start r → pending r !! cb = Some q →
  (∀ cb' q', pending r !! cb' = Some q' → q_id q' = q_id q → cb' = cb) ∧
  ∀ response, exchange_response cb (q_original q) (udp r) = Some response →
    msg_Id response = q_original q ∧
    ∃ m later earlier, log r = later ++ Received m :: earlier ∧ Began cb (q_id q) ∈ earlier ∧
      msg_Id m = q_id q ∧ response = m <| msg_Id := q_original q |>.
Proof.
  intros []%udp_reachable_ok Hq. split.
  - intros cb' q' Hq' He.
    assert (callbacks (udp r) !! q_id q = Some cb) as Hc1 by (apply ok_callbacks0; by exists q).
    assert (callbacks (udp r) !! q_id q = Some cb') as Hc2 by (apply ok_callbacks0; by exists q'). congruence.
  - intros response. unfold exchange_response. destruct (responses (udp r) !! cb) as [m|] eqn:Hm; [|done].
    intros [= <-]. split; [done|]. apply ok_responses0 in Hm. pose proof (got_began _ _ _ Hm) as Hb.
    assert (msg_Id m = q_id q) as He.
    { destruct (ok_log0 _ _ (ok_pending0 _ _ Hq)) as [_ Hu]. by apply Hu. }
    destruct Hm as (later & earlier & Hl & Hb'). exists m, later, earlier. by rewrite <-He.
Qed.

End Wire.
End UDP.

(** ** Messages behind their lengths (tcp.go) *)

Section Framing.

Context `{ExtLib} `{ActionLib} `{!DNSLib} (Pack : Msg → option (list byte)) (Unpack : list byte → option Msg) (Len : Msg → Z).

Definition ErrShortRead : error := E_Ext "short read".
Definition pack_error : error := E_Ext "dns: cannot pack".
Definition unpack_error : error := E_Ext "dns: cannot unpack".

(** The length in front is that of the message without compression ([Len]), in 16 bits; what follows it
    is compressed.  [max_alloc] is the most that is allocated.

    [dns/transport/tcp.go:105-119] WriteMessage *)
Definition WriteMessage (messageId : Z) (message : Msg) : res (list byte) :=
  let requestLen := Len message in
  match Pack (message <| msg_Id := messageId |>) with
  | None => Err pack_error
  | Some rawMessage => Ok (be_bytes 2 (u16 requestLen) ++ rawMessage)
  end.

(** The message of an error of [Unpack] is returned with it, and not used.

    [dns/transport/tcp.go:85-103] ReadMessage *)
Definition ReadMessage : Reader Msg :=
  responseLen ← ReadBE 2;
  if Z.ltb responseLen 10 then of_res (Err ErrShortRead) else
  buffer ← ReadFull (Z.to_nat responseLen);
  match Unpack buffer with
  | Some message => mret message
  | None => of_res (Err unpack_error)
  end.

(** When the length is that of what is written, the message is read back, whatever follows. *)
Lemma reads_message id message raw : Pack (message <| msg_Id := id |>) = Some raw → Len message = Z.of_nat (length raw) →
  10 ≤ Len message < 65536 → Unpack raw = Some (message <| msg_Id := id |>) →
  ∃ bytes, WriteMessage id message = Ok bytes ∧ reads ReadMessage bytes (message <| msg_Id := id |>).
Proof.
  intros Hp Hl Hr Hu. exists (be_bytes 2 (u16 (Len message)) ++ raw). split; [unfold WriteMessage; by rewrite Hp|].
  rewrite u16_small by lia. unfold ReadMessage. apply reads_bind with (a := Len message); [apply reads_be; lia|].
  destruct (Z.ltb_spec (Len message) 10); [lia|]. rewrite <-(app_nil_r raw).
  apply reads_bind with (a := raw); [apply reads_full; lia|]. rewrite Hu. apply reads_ret.
Qed.

(** The message may be shorter than its length says: whoever reads it waits for bytes that do not come. *)
Lemma short_message id message raw : Pack (message <| msg_Id := id |>) = Some raw →
  Z.of_nat (length raw) < Len message → 10 ≤ Len message < 65536 →
  ∃ bytes e, WriteMessage id message = Ok bytes ∧ ReadMessage bytes = (Err e, []).
Proof.
  intros Hp Hl Hr. eexists _, _. split; [unfold WriteMessage; by rewrite Hp|].
  rewrite u16_small by lia. unfold ReadMessage, mbind, Reader_bind.
  rewrite (reads_be 2 (Len message)) by lia.
  destruct (Z.ltb_spec (Len message) 10); [lia|]. unfold ReadFull.
  rewrite take_ge by lia. assert (Nat.ltb (length raw) (Z.to_nat (Len message)) = true) as -> by (apply Nat.ltb_lt; lia). reflexivity.
Qed.
End Framing.

(** ** The pool of connections of TLS (tls.go) *)

Module TLS.
Import Base.

(** Connections are numbers.

    [dns/transport/tls.go:31-44] TLSTransport *)
Record TLSTransport : Type := mkTLSTransport { base : BaseTransport; connections : list nat }.
#[global] Instance eta_tls : Settable TLSTransport := {| mkT t := mkTLSTransport (base t) (connections t) |}.

(** [dns/transport/tls.go:67-74] NewTLSRaw *)
Definition NewTLSRaw : TLSTransport := mkTLSTransport NewBaseTransport [].

(** The connections that are closed, and the transport; [Close] shuts the transport down afterwards, in a
    step of its own.

    [dns/transport/tls.go:97-104] (TLSTransport).Reset *)
Definition TLS_Reset (t : TLSTransport) : list nat * TLSTransport := (connections t, t <| connections := [] |>).

(** [dns/transport/tls.go:87-95] (TLSTransport).Close *)
Definition TLS_Close_begin (t : TLSTransport) : list nat * TLSTransport := (connections t, t <| connections := [] |>).

(** [dns/transport/tls.go:112-114] (TLSTransport).Exchange (pool) *)
Definition PopFront (t : TLSTransport) : option nat * TLSTransport :=
  match connections t with
  | c :: rest => (Some c, t <| connections := rest |>)
  | [] => (None, t)
  end.

(** Whether the connection goes back to the pool; else it is closed.

    [dns/transport/tls.go:144-153] (TLSTransport).exchange (pool) *)
Definition put_back (c : nat) (t : TLSTransport) : bool * TLSTransport :=
  match state (base t) with
  | StateClosing | StateClosed => (false, t)
  | _ => (true, t <| connections := connections t ++ [c] |>)
  end.

(** *** Every order of the steps *)

(** What a query does next: take a connection of the pool; dial; write on a connection, that is from
    the pool or not; read the answer; put the connection back, with the answer to some query; nothing. *)
Inductive Thread : Type :=
| T_Pop
| T_Dial
| T_Write (c : nat) (pooled : bool)
| T_ReadAnswer (c : nat) (pooled : bool)
| T_Put (c : nat) (answer : nat)
| T_Done (answer : option nat).

(** [unanswered] are, for a connection, the queries whose requests the server has and has not answered. *)
Record Running : Type := mkRunning {
  tls : TLSTransport;
  threads : gmap nat Thread;
  opened : gset nat;
  unanswered : nat → list nat;
  made : nat
}.

Definition set_unanswered (c : nat) (l : list nat) (f : nat → list nat) : nat → list nat :=
  λ c', if decide (c' = c) then l else f c'.

(** What a query does after its connection has failed. *)
Definition after_failure (pooled : bool) : Thread := if pooled then T_Dial else T_Done None.

(** The server answers the requests of a connection in their order; a write or a read may fail at any
    time.

    [dns/transport/tls.go:106-154] (TLSTransport).Exchange *)
Inductive tls_step : Running → Running → Prop :=
| step_start t ts o u n : tls_step (mkRunning t ts o u n) (mkRunning (t <| base := (SetStarted (base t)).2 |>) ts o u n)
| step_begin t ts o u n i b : ts !! i = None → BeginQuery (base t) = (true, b) →
    tls_step (mkRunning t ts o u n) (mkRunning (t <| base := b |>) (<[i := T_Pop]> ts) o u n)
| step_pop t ts o u n i c t' : ts !! i = Some T_Pop → PopFront t = (Some c, t') →
    tls_step (mkRunning t ts o u n) (mkRunning t' (<[i := T_Write c true]> ts) o u n)
| step_empty t ts o u n i t' : ts !! i = Some T_Pop → PopFront t = (None, t') →
    tls_step (mkRunning t ts o u n) (mkRunning t' (<[i := T_Dial]> ts) o u n)
| step_dialed t ts o u n i : ts !! i = Some T_Dial →
    tls_step (mkRunning t ts o u n) (mkRunning t (<[i := T_Write n false]> ts) ({[n]} ∪ o) u (S n))
| step_undialed t ts o u n i : ts !! i = Some T_Dial →
    tls_step (mkRunning t ts o u n) (mkRunning (t <| base := EndQuery (base t) |>) (<[i := T_Done None]> ts) o u n)
| step_written t ts o u n i c p : ts !! i = Some (T_Write c p) →
    tls_step (mkRunning t ts o u n) (mkRunning t (<[i := T_ReadAnswer c p]> ts) o (set_unanswered c (u c ++ [i]) u) n)
| step_read t ts o u n i c p q rest : ts !! i = Some (T_ReadAnswer c p) → u c = q :: rest →
    tls_step (mkRunning t ts o u n) (mkRunning t (<[i := T_Put c q]> ts) o (set_unanswered c rest u) n)
| step_failed t ts o u n i c p : ts !! i = Some (T_Write c p) ∨ ts !! i = Some (T_ReadAnswer c p) →
    tls_step (mkRunning t ts o u n)
      (mkRunning (if p then t else t <| base := EndQuery (base t) |>) (<[i := after_failure p]> ts) (o ∖ {[c]}) u n)
| step_kept t ts o u n i c q t' : ts !! i = Some (T_Put c q) → put_back c t = (true, t') →
    tls_step (mkRunning t ts o u n) (mkRunning (t' <| base := EndQuery (base t') |>) (<[i := T_Done (Some q)]> ts) o u n)
| step_not_kept t ts o u n i c q t' : ts !! i = Some (T_Put c q) → put_back c t = (false, t') →
    tls_step (mkRunning t ts o u n) (mkRunning (t' <| base := EndQuery (base t') |>) (<[i := T_Done (Some q)]> ts) (o ∖ {[c]}) u n)
| step_Reset t ts o u n cs t' : TLS_Reset t = (cs, t') → tls_step (mkRunning t ts o u n) (mkRunning t' ts (o ∖ list_to_set cs) u n)
| step_Close t ts o u n cs t' : TLS_Close_begin t = (cs, t') → tls_step (mkRunning t ts o u n) (mkRunning t' ts (o ∖ list_to_set cs) u n)
| step_shutdown t ts o u n w b : Shutdown_begin (base t) = (w, b) → tls_step (mkRunning t ts o u n) (mkRunning (t <| base := b |>) ts o u n)
| step_closed t ts o u n : tls_step (mkRunning t ts o u n) (mkRunning (t <| base := Shutdown_end (base t) |>) ts o u n).

Definition thread_conn (t : Thread) : option nat :=
  match t with
  | T_Write c _ | T_ReadAnswer c _ | T_Put c _ => Some c
  | _ => None
  end.

(** What a query has of its connection and of its answer. *)
Definition thread_ok (i : nat) (t : Thread) (u : nat → list nat) : Prop :=
  match t with
  | T_Write c _ => u c = []
  | T_ReadAnswer c _ => u c = [i]
  | T_Put c q => u c = [] ∧ q = i
  | T_Done (Some q) => q = i
  | _ => True
  end.

Record running_ok (r : Running) : Prop := {
  ok_pool : NoDup (connections (tls r));
  ok_pooled : ∀ c, c ∈ connections (tls r) → unanswered r c = [] ∧ (c < made r)%nat ∧ ∀ i t, threads r !! i = Some t → thread_conn t ≠ Some c;
  ok_thread : ∀ i t, threads r !! i = Some t → thread_ok i t (unanswered r);
  ok_held : ∀ i t c, threads r !! i = Some t → thread_conn t = Some c → (c < made r)%nat ∧
    ∀ j u, threads r !! j = Some u → thread_conn u = Some c → j = i;
  ok_new : ∀ c, (made r ≤ c)%nat → unanswered r c = [];
  ok_opened : ∀ c, c ∈ opened r → c ∈ connections (tls r) ∨ ∃ i t, threads r !! i = Some t ∧ thread_conn t = Some c
}.

Ltac at_thread := repeat match goal with
  | H : <[_ := _]> _ !! _ = Some _ |- _ => apply lookup_insert_Some in H as [[? ?]|[? H]]; simplify_eq
  end.

Lemma thread_ok_other (i j : nat) v c l u : j ≠ i → thread_ok j v u → (thread_conn v = Some c → False) → thread_ok j v (set_unanswered c l u).
Proof.
  intros Hne Hv Hc. unfold thread_ok, set_unanswered in *. destruct v; try done; cbn in Hc; by rewrite decide_False by congruence.
Qed.

(** A query lets its connection go, to the pool or away. *)
Lemma release_ok t ts o u n i old new t' o' : running_ok (mkRunning t ts o u n) → ts !! i = old →
  thread_conn new = None → thread_ok i new u →
  connections t' = connections t ∨ (∃ c, (v ← old; thread_conn v) = Some c ∧ u c = [] ∧ connections t' = connections t ++ [c]) →
  (∀ c, c ∈ o' → c ∈ o ∧ ((v ← old; thread_conn v) = Some c → c ∈ connections t')) →
  running_ok (mkRunning t' (<[i := new]> ts) o' u n).
Proof.
  intros [] Hold Hnew Hok Hpool Ho. cbn in *. subst old.
  assert (∀ c, (v ← ts !! i; thread_conn v) = Some c → ∃ v, ts !! i = Some v ∧ thread_conn v = Some c) as Hmine.
  { intros c. destruct (ts !! i) as [v|]; [|done]. cbn. eauto. }
  split; cbn.
  - destruct Hpool as [->|(c & (v & Hv & Hc)%Hmine & Hu & ->)]; [done|]. apply list.NoDup_app. split_and!; [done| |apply NoDup_singleton].
    intros c' Hin ->%list_elem_of_singleton. destruct (ok_pooled0 _ Hin) as (_ & _ & Hno). by apply (Hno i v).
  - intros c Hin. destruct Hpool as [Hp|(c' & (v & Hv & Hc)%Hmine & Hu & Hp)]; rewrite Hp in Hin.
    + destruct (ok_pooled0 c Hin) as (? & ? & Hno). split_and!; [done|done|]. intros j v Hj. at_thread; [by rewrite Hnew|eauto].
    + apply elem_of_app in Hin as [Hin| ->%list_elem_of_singleton].
      * destruct (ok_pooled0 c Hin) as (? & ? & Hno). split_and!; [done|done|]. intros j w Hj. at_thread; [by rewrite Hnew|eauto].
      * destruct (ok_held0 _ _ _ Hv Hc) as [? Honly]. split_and!; [done|done|]. intros j w Hj He. at_thread; try congruence.
        assert (j = i) by eauto. congruence.
  - intros j v Hj. at_thread; [done|eauto].
  - intros j v c Hj Hc. at_thread; try congruence. destruct (ok_held0 _ _ _ Hj Hc) as [? Honly]. split; [done|].
    intros k w Hk Hw. at_thread; try congruence; eauto.
  - done.
  - intros c [Hin Hkeep]%Ho. destruct (ok_opened0 c Hin) as [Hp|(j & v & Hj & Hc)].
    + left. destruct Hpool as [->|(c' & _ & _ & ->)]; [done|]. apply elem_of_app. by left.
    + destruct (decide (j = i)) as [->|Hne]; [left; apply Hkeep; by rewrite Hj|]. right. exists j, v. by rewrite lookup_insert_ne.
Qed.

(** A query goes on with its connection. *)
Lemma keep_ok t ts o u n i old new c l : running_ok (mkRunning t ts o u n) → ts !! i = Some old →
  thread_conn old = Some c → thread_conn new = Some c → thread_ok i new (set_unanswered c l u) →
  running_ok (mkRunning t (<[i := new]> ts) o (set_unanswered c l u) n).
Proof.
  intros [] Hold Hc Hc' Hok. cbn in *. destruct (ok_held0 _ _ _ Hold Hc) as [Hlt Honly]. split; cbn.
  - done.
  - intros c' Hin. destruct (ok_pooled0 c' Hin) as (Hu & ? & Hno). assert (c' ≠ c) as Hne by (intros ->; by apply (Hno i old)).
    unfold set_unanswered. rewrite decide_False by done. split_and!; [done|done|]. intros j v Hj. at_thread; try congruence; eauto.
  - intros j v Hj. at_thread; [done|]. apply (thread_ok_other i); [done|eauto|]. intros Hv. assert (j = i) by eauto. congruence.
  - intros j v c' Hj Hv. at_thread.
    + split; [done|]. intros k w Hk Hw. at_thread; [done|eauto].
    + destruct (ok_held0 _ _ _ Hj Hv) as [? Honly']. split; [done|]. intros k w Hk Hw. at_thread; [|eauto].
      symmetry. by eapply Honly.
  - intros c' Hge. unfold set_unanswered. rewrite decide_False by lia. by apply ok_new0.
  - intros c' Hin. destruct (ok_opened0 c' Hin) as [?|(j & v & Hj & Hv)]; [by left|]. right.
    destruct (decide (j = i)) as [->|Hne]; [exists i, new; rewrite lookup_insert_eq; split; congruence|].
    exists j, v. by rewrite lookup_insert_ne.
Qed.

(** A query takes a connection that no one has. *)
Lemma take_ok t ts o u n i old c p t' o' n' : running_ok (mkRunning t ts o u n) → ts !! i = Some old → thread_conn old = None →
  (n ≤ n')%nat → (c < n')%nat → u c = [] → NoDup (connections t') → c ∉ connections t' → connections t' ⊆ connections t →
  (∀ j v, ts !! j = Some v → thread_conn v ≠ Some c) → (∀ c', c' ∈ o' → c' = c ∨ c' ∈ o ∧ (c' ∈ connections t → c' ∈ connections t')) →
  running_ok (mkRunning t' (<[i := T_Write c p]> ts) o' u n').
Proof.
  intros [] Hold Hnone Hn Hc Hu Hd Hnin Hsub Hfree Ho. cbn in *. split; cbn.
  - done.
  - intros c' Hin. destruct (ok_pooled0 c' (Hsub _ Hin)) as (? & ? & Hno). split_and!; [done|lia|].
    intros j v Hj. at_thread; [cbn; congruence|eauto].
  - intros j v Hj. at_thread; [done|eauto].
  - intros j v c' Hj Hv. at_thread; cbn in *; simplify_eq.
    + split; [done|]. intros k w Hk Hw. at_thread; [done|]. by apply Hfree in Hk.
    + destruct (ok_held0 _ _ _ Hj Hv) as [? Honly]. split; [lia|]. intros k w Hk Hw. at_thread; [|eauto].
      cbn in Hw. simplify_eq. by apply Hfree in Hj.
  - intros c' Hge. apply ok_new0. lia.
  - intros c' [->|[Hin Hp]]%Ho; [right; exists i; eexists; by rewrite lookup_insert_eq|].
    destruct (ok_opened0 c' Hin) as [?|(j & v & Hj & Hv)]; [left; by apply Hp|]. right. exists j, v.
    rewrite lookup_insert_ne; [done|]. intros <-. congruence.
Qed.

Lemma emptied_ok t ts o u n t' : running_ok (mkRunning t ts o u n) → connections t' = [] →
  running_ok (mkRunning t' ts (o ∖ list_to_set (connections t)) u n).
Proof.
  intros [] He. cbn in *. split; cbn; rewrite ?He; try done; [constructor|by intros c ?%not_elem_of_nil|].
  intros c [Hin Hno]%elem_of_difference. rewrite elem_of_list_to_set in Hno. destruct (ok_opened0 c Hin); [done|by right].
Qed.

Lemma same_pool t ts o u n t' : running_ok (mkRunning t ts o u n) → connections t' = connections t → running_ok (mkRunning t' ts o u n).
Proof. intros [] He. split; cbn in *; rewrite ?He; done. Qed.

Lemma tls_step_ok r r' : tls_step r r' → running_ok r → running_ok r'.
Proof.
  intros Hstep Hok. destruct Hstep as
    [t ts o u n|t ts o u n i b Hi Hb|t ts o u n i c t' Hi Hp|t ts o u n i t' Hi Hp|t ts o u n i Hi|t ts o u n i Hi|t ts o u n i c p Hi
    |t ts o u n i c p q rest Hi Hu|t ts o u n i c p Hi|t ts o u n i c q t' Hi Hp|t ts o u n i c q t' Hi Hp|t ts o u n cs t' Hr|t ts o u n cs t' Hr
    |t ts o u n w b Hs|t ts o u n].
  - by apply (same_pool t).
  - apply (release_ok t ts o u n i None); auto; by split.
  - unfold PopFront in Hp. destruct (connections t) as [|c' rest] eqn:Hc; [done|]. injection Hp as -> <-. pose proof Hok as []. cbn in *.
    rewrite Hc in *. destruct (ok_pooled0 c) as (Hu & Hlt & Hfree); [by left|]. apply list.NoDup_cons in ok_pool0 as [Hnin Hd].
    apply (take_ok t ts o u n i T_Pop); try done; rewrite ?Hc; cbn; try set_solver.
  - unfold PopFront in Hp. destruct (connections t) eqn:Hc; [|done]. injection Hp as <-. apply (release_ok t ts o u n i (Some T_Pop)); auto; by split.
  - pose proof Hok as []. cbn in *. apply (take_ok t ts o u n i T_Dial); try done; try lia.
    + by apply ok_new0.
    + intros Hin. destruct (ok_pooled0 _ Hin) as (_ & ? & _). lia.
    + intros j v Hj Hv. destruct (ok_held0 _ _ _ Hj Hv). lia.
    + intros c [->%elem_of_singleton|Hin]%elem_of_union; [by left|by right].
  - apply (release_ok t ts o u n i (Some T_Dial)); auto; by split.
  - pose proof (ok_thread _ Hok i _ Hi) as Hu. cbn in Hu. rewrite Hu. apply (keep_ok _ _ _ _ _ _ (T_Write c p)); try done.
    unfold thread_ok, set_unanswered. by rewrite decide_True.
  - pose proof (ok_thread _ Hok i _ Hi) as Hu'. cbn in Hu'. rewrite Hu' in Hu. injection Hu as <- <-.
    apply (keep_ok _ _ _ _ _ _ (T_ReadAnswer c p)); try done. unfold thread_ok, set_unanswered. by rewrite decide_True.
  - destruct Hi as [Hi|Hi];
      (eapply (release_ok t ts o u n i); [done|exact Hi|by destruct p|by destruct p|by left; destruct p|
       intros c' [Hin Hne%not_elem_of_singleton]%elem_of_difference; split; [done|]; cbn; congruence]).
  - pose proof (ok_thread _ Hok i _ Hi) as [Hu Hq]. unfold put_back in Hp. destruct (state (base t)); simplify_eq;
      (eapply (release_ok _ ts o u n); [done|exact Hi|done|done|right; by exists c|
       intros c' Hin; split; [done|]; intros [= ->]; cbn; apply elem_of_app; right; by left]).
  - pose proof (ok_thread _ Hok i _ Hi) as [Hu Hq]. unfold put_back in Hp. destruct (state (base t)); simplify_eq;
      (eapply (release_ok _ ts o u n); [done|exact Hi|done|done|by left|
       intros c' [Hin Hne%not_elem_of_singleton]%elem_of_difference; split; [done|]; cbn; congruence]).
  - injection Hr as <- <-. by apply emptied_ok.
  - injection Hr as <- <-. by apply emptied_ok.
  - by apply (same_pool t).
  - by apply (same_pool t).
Qed.

Definition start : Running := mkRunning NewTLSRaw ∅ ∅ (λ _, []) 0.

Lemma tls_reachable_ok r : rtc tls_step start r → running_ok r.
Proof.
  intros Hr. remember start as r0 eqn:He. assert (running_ok r0) as Hr0.
  { subst r0. split; cbn; try done; [constructor|by intros c ?%not_elem_of_nil]. }
  clear He. induction Hr as [|r1 r2 r3 Hs _ IH]; [done|]. apply IH. by eapply tls_step_ok.
Qed.

(** C24: queries over TLS get their own answers, in every order of what they, the server and whoever resets
    or closes the transport do, although the identifier of an answer is not looked at: a connection is used
    by one query at a time and is in the pool only when every request on it has been answered, so that
    what a query reads is the answer to what it wrote; and a connection that is open is in the pool or in
    use. *)
Theorem TLS_answers r : rtc tls_step start r →
  (∀ i q, threads r !! i = Some (T_Done (Some q)) → q = i) ∧
  (∀ i j t u c, threads r !! i = Some t → threads r !! j = Some u → thread_conn t = Some c → thread_conn u = Some c → i = j) ∧
  (∀ c, c ∈ connections (tls r) → unanswered r c = [] ∧ ∀ i t, threads r !! i = Some t → thread_conn t ≠ Some c) ∧
  (∀ c, c ∈ opened r → c ∈ connections (tls r) ∨ ∃ i t, threads r !! i = Some t ∧ thread_conn t = Some c).
Proof.
  intros []%tls_reachable_ok. split_and!.
  - intros i q Hi. apply (ok_thread0 _ _ Hi).
  - intros i j t u c Hi Hj Ht Hu. destruct (ok_held0 _ _ _ Hj Hu) as [_ Honly]. by eapply Honly.
  - intros c Hc. destruct (ok_pooled0 c Hc) as (? & _ & ?). done.
  - done.
Qed.

End TLS.

(** ** Concrete orders *)

(** All identifiers but one are taken, and the search goes round. *)
Lemma nextAvailableQueryId_spec_witness :
  0 ≤ 65535 < 65536 ∧ nextAvailableQueryId 65535 ({[0 := tt; 1 := tt]} : gmap Z unit) = Some (Ok 2, 2).
Proof.
  split; [lia|]. destruct (nextAvailableQueryId_spec ({[0 := tt; 1 := tt]} : gmap Z unit) 65535 ltac:(lia)) as (r & q & He & _).
  vm_compute in He. injection He as <- <-. vm_compute. reflexivity.
Defined.

Section Examples.
Import UDP.

#[local] Instance ex_lib : ExtLib := SampleLib.
#[local] Instance ex_actions : ActionLib := DNSSampleActions.
#[local] Instance ex_dns : DNSLib := SampleDNSLib.

(** A message is on the wire as the two bytes of its identifier. *)
Definition ex_Unpack (l : list byte) : option Msg :=
  Some (mkMsg (be_val (take 2 l)) true false false false 0 [] [] [] []).
Definition ex_query : Msg := mkMsg 700 false false true false 0 [] [] [] [].
Definition ex_reply : Msg := mkMsg 1 true false false false 0 [] [] [] [].

Definition ex_answered : UDP.Running :=
  UDP.mkRunning (mkUDPTransport 2048 2 {[1 := 0%nat; 2 := 1%nat]} {[0%nat := ex_reply]})
    {[0%nat := mkQuery 1 700; 1%nat := mkQuery 2 700]} [] 2 [Received ex_reply; Began 1 2; Began 0 1].

(** Two queries with the same identifier of their own; the first is answered, a second answer is dropped. *)
Lemma ex_answered_reachable : rtc (udp_step ex_Unpack) UDP.start ex_answered.
Proof.
  eapply rtc_l; [by apply (UDP.step_begin _ _ _ _ _ _ ex_query 1)|].
  eapply rtc_l; [by apply (UDP.step_begin _ _ _ _ _ _ ex_query 2)|].
  eapply rtc_l; [by apply (step_datagram _ _ _ _ _ _ 2048 [x00; x01] 0%nat ex_reply)|].
  eapply rtc_l; [apply (step_callback _ _ _ [] [] _ _ 0%nat ex_reply)|]. apply rtc_refl.
Qed.

Lemma UDP_answers_witness : rtc (udp_step ex_Unpack) UDP.start ex_answered ∧
  exchange_response 0 700 (udp ex_answered) = Some (ex_reply <| msg_Id := 700 |>) ∧
  ∃ m, Received m ∈ log ex_answered ∧ msg_Id m = 1.
Proof.
  split; [exact ex_answered_reachable|]. split; [reflexivity|].
  destruct (UDP_answers ex_Unpack ex_answered 0 (mkQuery 1 700) ex_answered_reachable eq_refl) as [_ Ha].
  destruct (Ha _ eq_refl) as (_ & m & later & earlier & Hl & _ & Hid & _). exists m. split; [|exact Hid].
  rewrite Hl. apply elem_of_app. right. by left.
Defined.

End Examples.

Section TLSExamples.
Import Base TLS.

Definition ex_base (s : TransportState) (n : nat) : BaseTransport := mkBaseTransport s n NoChannel false.

(** [Close] empties the pool and shuts the transport down in a step of its own: a query that puts its
    connection back in between leaves it in the pool of a closed transport, open for ever. *)
Lemma pooled_after_close : ∃ r, rtc tls_step TLS.start r ∧
  state (base (tls r)) = StateClosed ∧ connections (tls r) = [0%nat] ∧ 0%nat ∈ opened r ∧ threads r = {[0%nat := T_Done (Some 0%nat)]}.
Proof.
  eexists. split.
  - eapply rtc_l; [apply TLS.step_start|]. eapply rtc_l; [by apply (TLS.step_begin _ _ _ _ _ 0)|].
    eapply rtc_l; [by apply (step_empty _ _ _ _ _ 0)|]. eapply rtc_l; [by apply (step_dialed _ _ _ _ _ 0)|].
    eapply rtc_l; [by apply (step_written _ _ _ _ _ 0 0 false)|]. eapply rtc_l; [by apply (step_read _ _ _ _ _ 0 0 false 0 [])|].
    eapply rtc_l; [by apply step_Close|]. eapply rtc_l; [by apply (step_kept _ _ _ _ _ 0 0 0)|].
    eapply rtc_l; [by eapply TLS.step_shutdown|]. apply rtc_refl.
  - split_and!; [reflexivity|reflexivity|by apply (bool_decide_unpack _)|reflexivity].
Qed.

(** A query that has got its answer on a connection it dialed. *)
Definition ex_got : TLS.Running :=
  TLS.mkRunning (mkTLSTransport (ex_base StateStarted 1) []) {[0%nat := T_Put 0 0]} {[0%nat]}
    (set_unanswered 0 [] (set_unanswered 0 [0%nat] (λ _, []))) 1.
Lemma ex_got_reachable : rtc tls_step TLS.start ex_got.
Proof.
  eapply rtc_l; [apply TLS.step_start|]. eapply rtc_l; [by apply (TLS.step_begin _ _ _ _ _ 0)|].
  eapply rtc_l; [by apply (step_empty _ _ _ _ _ 0)|]. eapply rtc_l; [by apply (step_dialed _ _ _ _ _ 0)|].
  eapply rtc_l; [by apply (step_written _ _ _ _ _ 0 0 false)|]. eapply rtc_l; [by apply (step_read _ _ _ _ _ 0 0 false 0 [])|].
  apply rtc_refl.
Qed.

Lemma TLS_answers_witness : rtc tls_step TLS.start ex_got ∧
  (∃ i t, threads ex_got !! i = Some t ∧ thread_conn t = Some 0%nat).
Proof.
  split; [exact ex_got_reachable|]. destruct (TLS_answers ex_got ex_got_reachable) as (_ & _ & _ & Ho).
  destruct (Ho 0%nat) as [Hp|Hh]; [by apply (bool_decide_unpack _)| |exact Hh]. by apply not_elem_of_nil in Hp.
Defined.

End TLSExamples.
