(* ===== verification/DnsHijack.v ===== *)
(** * Connections that carry DNS queries (route/dns.go, protocol/dns)

    A connection whose rule says [hijack-dns], or that goes to the DNS outbound, is not sent anywhere: its
    queries are read from it, each is given to the DNS router in a goroutine of its own, and the responses
    are written back in the order in which they come.  The theorems are about every order of reads and
    responses. *)

From stdpp Require Import base gmap strings list numbers.
From S2P Require Import Prelude GoStd Netip GoIO Adapter SetItems AddrItems RuleAction RuleOptions RuleItem RuleMatch RuleSet Rules DnsRules DnsClient DnsConn DnsWire.

Local Open Scope Z_scope.

Section Hijack.
Context `{ExtLib} `{ActionLib} `{!DNSLib}.
(** Of the message library: packing and unpacking, the length of a message that is packed, and the removal
    of records until a message has a length. *)
Context (Pack : Msg → option (list byte)) (Unpack : list byte → option Msg) (Len : Msg → Z) (Truncate : Z → Msg → Msg).

Definition net_ErrClosed : error := E_Ext "use of closed network connection".
Definition os_ErrDeadlineExceeded : error := E_Ext "i/o timeout".

(** ** Streams *)

(** [protocol/dns/handle.go:22-41] HandleStreamDNSRequest (read) *)
Definition read_request : Reader Msg :=
  queryLength ← ReadBE 2;
  if Z.eqb queryLength 0 then of_res (Err (RcodeError RcodeFormatError)) else
  buffer ← ReadFull (Z.to_nat queryLength);
  match Unpack buffer with
  | Some message => mret message
  | None => of_res (Err unpack_error)
  end.

(** The connection: what the client has sent and is not read yet, the queries that were read, those that wait
    for the router, the responses that were written with the number of their query, whether the connection is
    closed, and the error that ended the loop. *)
Record Stream : Type := mkStream {
  st_input : list byte;
  st_queries : list Msg;
  st_pending : gset nat;
  st_written : list (nat * Msg * list byte);
  st_closed : bool;
  st_ended : option error
}.
#[global] Instance Stream_settable : Settable Stream :=
  {| mkT r := mkStream (st_input r) (st_queries r) (st_pending r) (st_written r) (st_closed r) (st_ended r) |}.

(** [protocol/dns/handle.go:42-62] HandleStreamDNSRequest (response) *)
Definition write_response (k : nat) (response : res Msg) (s : Stream) : Stream :=
  let s := s <| st_pending := st_pending s ∖ {[k]} |> in
  match response with
  | Ok message =>
      match Pack message with
      | None => s
      | Some raw => if st_closed s then s
                    else s <| st_written := st_written s ++ [(k, message, be_bytes 2 (u16 (Z.of_nat (length raw))) ++ raw)] |>
      end
  | _ => s <| st_closed := true |>
  end.

(** What happens: the loop reads the next query, or the deadline of its read passes; the router answers the
    query [k]; or the connection is closed from outside. *)
Inductive StreamAction : Type := Read | Deadline | Answer (k : nat) (response : res Msg) | CloseConn.

(** The loop ends with the first error.

    [route/dns.go:23-36] (Router).hijackDNSStream *)
Definition stream_step (a : StreamAction) (s : Stream) : option Stream :=
  match a with
  | Read =>
      if negb (is_nil (st_ended s)) then None
      else if st_closed s then Some (s <| st_ended := Some net_ErrClosed |>)
      else match read_request (st_input s) with
           | (Ok message, rest) =>
               Some (s <| st_input := rest |> <| st_queries := st_queries s ++ [message] |>
                       <| st_pending := {[length (st_queries s)]} ∪ st_pending s |>)
           | (Err err, rest) => Some (s <| st_input := rest |> <| st_ended := Some err |>)
           | (Panic _, _) => None
           end
  | Deadline => if is_nil (st_ended s) then Some (s <| st_ended := Some os_ErrDeadlineExceeded |>) else None
  | Answer k response => if decide (k ∈ st_pending s) then Some (write_response k response s) else None
  | CloseConn => Some (s <| st_closed := true |>)
  end.

Fixpoint stream_run (actions : list StreamAction) (s : Stream) : option Stream :=
  match actions with
  | [] => Some s
  | a :: actions => s ← stream_step a s; stream_run actions s
  end.

Definition stream_start (input : list byte) : Stream := mkStream input [] ∅ [] false None.

(** What the caller is told when the loop has ended: the end of the connection is no error.
    [IsClosedOrCanceled] is the test of sing.

    [route/dns.go:28-34] (Router).hijackDNSStream (result) *)
Definition stream_result (IsClosedOrCanceled : error → bool) (s : Stream) : option (option error) :=
  (λ err, if IsClosedOrCanceled err then None else Some err) <$> st_ended s.

(** The DNS outbound closes the connection and calls the handler with any error.

    [protocol/dns/outbound.go:46-59] (Outbound).NewConnectionEx *)
Definition outbound_end (s : Stream) : option (Stream * error) :=
  match st_ended s with Some err => Some (s <| st_closed := true |>, err) | None => None end.

(** ** Packets *)

(** [dns/client_truncate.go:9-30] TruncateDNSMessage *)
Definition TruncateDNSMessage (request response : Msg) : res (list byte) :=
  let maxLen := match Msg_IsEdns0 request with
                | Some edns0Option => if Z.ltb 512 (OPT_UDPSize edns0Option) then OPT_UDPSize edns0Option else 512
                | None => 512
                end in
  match Pack (if Z.ltb maxLen (Len response) then Truncate maxLen response else response) with
  | None => Err pack_error
  | Some rawMessage => Ok rawMessage
  end.

(** A packet connection of which the packets that were read while sniffing come first, the last of them at the
    front; [pk_sent] are the datagrams with their queries and destinations, and [pk_cancelled] the first error
    of any goroutine.

    [protocol/dns/handle.go:65-150] NewDNSPacketConnection *)
Record Packets : Type := mkPackets {
  pk_cached : list (list byte * Socksaddr);
  pk_queries : list (Msg * Socksaddr);
  pk_pending : gset nat;
  pk_sent : list (nat * Msg * list byte * Socksaddr);
  pk_reading : bool;
  pk_cancelled : option error;
  pk_closed : bool
}.
#[global] Instance Packets_settable : Settable Packets :=
  {| mkT r := mkPackets (pk_cached r) (pk_queries r) (pk_pending r) (pk_sent r) (pk_reading r) (pk_cancelled r) (pk_closed r) |}.

(** [protocol/dns/handle.go:65-86] NewDNSPacketConnection (start) *)
Definition packets_start (cachedPackets : list (list byte * Socksaddr)) : Packets :=
  mkPackets (reverse cachedPackets) [] ∅ [] true None false.

(** [cancel(err)]: the first cause stays. *)
Definition cancel (err : error) (s : Packets) : Packets :=
  s <| pk_cancelled := Some (default err (pk_cancelled s)) |>.

(** A packet that is no message ends the loop and all of the connection.

    [protocol/dns/handle.go:94-125] NewDNSPacketConnection (packet) *)
Definition take_packet (packet : list byte * Socksaddr) (s : Packets) : Packets :=
  match Unpack packet.1 with
  | None => cancel unpack_error (s <| pk_reading := false |>)
  | Some message =>
      s <| pk_queries := pk_queries s ++ [(message, packet.2)] |> <| pk_pending := {[length (pk_queries s)]} ∪ pk_pending s |>
  end.

(** [writeErr] is the error of the write, if it has one.

    [protocol/dns/handle.go:126-143] NewDNSPacketConnection (response) *)
Definition send_response (k : nat) (request : Msg) (destination : Socksaddr) (response : res Msg) (writeErr : option error) (s : Packets) : Packets :=
  let s := s <| pk_pending := pk_pending s ∖ {[k]} |> in
  match response with
  | Ok message =>
      match TruncateDNSMessage request message with
      | Ok raw =>
          if pk_closed s then cancel net_ErrClosed s
          else match writeErr with
               | Some err => cancel err s
               | None => s <| pk_sent := pk_sent s ++ [(k, message, raw, destination)] |>
               end
      | Err err => cancel err s
      | Panic _ => s
      end
  | Err err => cancel err s
  | Panic _ => s
  end.

(** The loop takes the next packet, a kept one or else the one that has arrived, or its read fails; the router
    answers; nothing has happened for too long; and what was cancelled is closed. *)
Inductive PacketAction : Type :=
| Next (arrived : list byte * Socksaddr)
| ReadFails (err : error)
| Respond (k : nat) (response : res Msg) (writeErr : option error)
| Idle
| CloseCancelled.

(** [protocol/dns/handle.go:152-220] newDNSPacketConnection *)
Definition packet_step (a : PacketAction) (s : Packets) : option Packets :=
  match a with
  | Next arrived =>
      if negb (pk_reading s) then None else
      match pk_cached s with
      | packet :: cached => Some (take_packet packet (s <| pk_cached := cached |>))
      | [] => if pk_closed s then Some (cancel net_ErrClosed (s <| pk_reading := false |>)) else Some (take_packet arrived s)
      end
  | ReadFails err =>
      if pk_reading s && negb (nonempty (pk_cached s)) then Some (cancel err (s <| pk_reading := false |>)) else None
  | Respond k response writeErr =>
      if decide (k ∈ pk_pending s)
      then match pk_queries s !! k with
           | Some (request, destination) => Some (send_response k request destination response writeErr s)
           | None => None
           end
      else None
  | Idle => Some (cancel os_ErrDeadlineExceeded s)
  | CloseCancelled => if is_nil (pk_cancelled s) then None else Some (s <| pk_closed := true |>)
  end.

Fixpoint packet_run (actions : list PacketAction) (s : Packets) : option Packets :=
  match actions with
  | [] => Some s
  | a :: actions => s ← packet_step a s; packet_run actions s
  end.

(** Behind a NAT every packet is on its own: [exchange] is the answer of the router.

    [route/dns.go:72-89] exchangeDNSPacket *)
Definition exchangeDNSPacket (exchange : Msg → res Msg) (packet : list byte * Socksaddr) : res (list byte * Socksaddr) :=
  match Unpack packet.1 with
  | None => Err (E_Cause unpack_error [AStr "unpack request"])
  | Some message => response ← exchange message; responseBuffer ← TruncateDNSMessage message response; Ok (responseBuffer, packet.2)
  end.

(** An error that is logged; the others are dropped.

    [route/dns.go:65-70] ExchangeDNSPacket *)
Definition logged (IsClosedOrCanceled : error → bool) (r : res (list byte * Socksaddr)) : option error :=
  match r with
  | Err err => if IsRejected err || IsClosedOrCanceled err then None else Some (E_Cause err [AStr "process DNS packet"])
  | _ => None
  end.

End Hijack.

(** ** Lemmas *)

Section Proofs.
Context {L : ExtLib} {A : ActionLib} {D : DNSLib}.
Context (Pack : Msg → option (list byte)) (Unpack : list byte → option Msg) (Len : Msg → Z) (Truncate : Z → Msg → Msg).
Abbreviation request := (read_request Unpack).
Abbreviation run := (stream_run Pack Unpack).

Lemma read_times_snoc {B} n (r : Reader B) l : ∀ i input rest x rest',
  read_times n i (λ _, r) input = (Ok l, rest) → r rest = (Ok x, rest') → read_times (S n) i (λ _, r) input = (Ok (l ++ [x]), rest').
Proof.
  revert l. induction n as [|n IH]; intros l i input rest x rest' Hn Hx.
  - injection Hn as <- ->. cbn. unfold mbind, Reader_bind. by rewrite Hx.
  - change (read_times (S (S n)) i (λ _, r)) with (a ← r; l ← read_times (S n) (i + 1) (λ _, r); mret (a :: l)).
    change (read_times (S n) i (λ _, r)) with (a ← r; l ← read_times n (i + 1) (λ _, r); mret (a :: l)) in Hn.
    unfold mbind, Reader_bind in *. destruct (r input) as [[a|e|p] rest1]; [|done..].
    destruct (read_times n (i + 1) (λ _, r) rest1) as [[l'|e|p] rest2] eqn:Hl; [|done..]. injection Hn as <- <-.
    by rewrite (IH _ _ _ _ _ _ Hl Hx).
Qed.

(** The bytes that answer a query. *)
Definition frame (raw : list byte) : list byte := be_bytes 2 (u16 (Z.of_nat (length raw))) ++ raw.

Abbreviation number w := (w.1.1) (only parsing).

Record stream_ok (input : list byte) (s : Stream) : Prop := {
  so_read : ∃ rest, read_times (length (st_queries s)) 0 (λ _, request) input = (Ok (st_queries s), rest) ∧
    (st_ended s = None → rest = st_input s);
  so_pending k : k ∈ st_pending s → (k < length (st_queries s))%nat ∧ k ∉ (λ w, number w) <$> st_written s;
  so_once : NoDup ((λ w, number w) <$> st_written s);
  so_written k m bytes : (k, m, bytes) ∈ st_written s → (k < length (st_queries s))%nat ∧ ∃ raw, Pack m = Some raw ∧ bytes = frame raw
}.

Lemma stream_start_ok input : stream_ok input (stream_start input).
Proof.
  split; cbn; [by exists input|set_solver|constructor|]. by intros k m bytes ?%elem_of_nil.
Qed.

Lemma stream_step_ok input a s s' : stream_step Pack Unpack a s = Some s' → stream_ok input s → stream_ok input s'.
Proof.
  intros Hstep [Hread Hpend Honce Hwr]. unfold stream_step in Hstep. destruct a as [| |k response|].
  - destruct (st_ended s) eqn:He; [done|]. cbn [is_nil negb] in Hstep. destruct (st_closed s).
    { injection Hstep as <-. split; cbn; [|done..]. destruct Hread as (rest & Hr & _). by exists rest. }
    destruct (request (st_input s)) as [[m|e|p] rest'] eqn:Hr; [| |done]; injection Hstep as <-.
    + destruct Hread as (rest & Hread & Heq). rewrite (Heq eq_refl) in Hread. split; cbn.
      * exists rest'. rewrite length_app, Nat.add_1_r. split; [by eapply read_times_snoc|done].
      * intros k [->%elem_of_singleton|Hk]%elem_of_union; rewrite length_app; cbn.
        -- split; [lia|]. intros ([[k m'] bytes] & Hk & Hin)%list_elem_of_fmap. apply Hwr in Hin as [Hin _]. cbn in Hk. lia.
        -- destruct (Hpend _ Hk). split; [lia|done].
      * done.
      * intros k m' bytes [Hk ?]%Hwr. rewrite length_app. split; [lia|done].
    + split; cbn; [|done..]. destruct Hread as (rest & Hr' & _). by exists rest.
  - destruct (is_nil _); [|done]. injection Hstep as <-. split; cbn; [|done..]. destruct Hread as (rest & Hr & _). by exists rest.
  - destruct (decide _) as [Hk|]; [|done]. injection Hstep as <-. unfold write_response.
    assert (∀ j, j ∈ st_pending s ∖ {[k]} → j ≠ k ∧ (j < length (st_queries s))%nat ∧ j ∉ (λ w, number w) <$> st_written s) as Hp.
    { intros j [Hj Hne%not_elem_of_singleton]%elem_of_difference. split; [done|by apply Hpend]. }
    destruct response as [m|e|p]; [destruct (Pack m) as [raw|] eqn:HP; [destruct (st_closed s) eqn:Hc|]|..]; cbn; rewrite ?Hc;
      (split; cbn; [done|intros j Hj; destruct (Hp j Hj) as (? & ? & ?)|..]; try done).
    + rewrite fmap_app. split; [done|]. intros [?|Heq%list_elem_of_singleton]%elem_of_app; done.
    + rewrite fmap_app. apply list.NoDup_app. split; [done|]. split; [|apply NoDup_singleton].
      intros j Hj ->%list_elem_of_singleton. destruct (Hpend _ Hk) as [_ Hn]. by apply Hn.
    + intros j m' bytes [Hj|[= -> -> ->]%list_elem_of_singleton]%elem_of_app; [by apply Hwr|]. split; [by apply Hpend|by exists raw].
  - injection Hstep as <-. by split.
Qed.

Lemma stream_run_ok input acts : ∀ s s', run acts s = Some s' → stream_ok input s → stream_ok input s'.
Proof.
  induction acts as [|a acts IH]; intros s s'; cbn [stream_run]; [by intros [= <-]|].
  intros (s1 & Hs & Hr)%bind_Some Hok. eapply IH; [done|]. by eapply stream_step_ok.
Qed.

(** What is written is an answer of the router to that query. *)
Lemma written_answered acts : ∀ s s' k m bytes, run acts s = Some s' → (k, m, bytes) ∈ st_written s' →
  (k, m, bytes) ∈ st_written s ∨ Answer k (Ok m) ∈ acts.
Proof.
  induction acts as [|a acts IH]; intros s s' k m bytes; cbn [stream_run]; [by intros [= <-]; left|].
  intros (s1 & Hs & Hr)%bind_Some Hin. destruct (IH _ _ _ _ _ Hr Hin) as [Hin1|]; [|by right; right].
  unfold stream_step in Hs. destruct a as [| |j response|].
  - left. destruct (negb _); [done|]. destruct (st_closed s); [by injection Hs as <-|].
    destruct (request _) as [[m1|e1|p1] rest1]; [by injection Hs as <-..|done].
  - left. destruct (is_nil _); [by injection Hs as <-|done].
  - destruct (decide _) as [_|]; [|done]. injection Hs as <-. unfold write_response in Hin1.
    destruct response as [m'|e|p]; [|by left..]. destruct (Pack m'); [|by left]. cbn in Hin1. destruct (st_closed s); [by left|].
    apply elem_of_app in Hin1 as [|[= -> -> _]%list_elem_of_singleton]; [by left|right; left].
  - left. by injection Hs as <-.
Qed.

(** Once the connection is closed nothing is written. *)
Lemma closed_writes_nothing acts : ∀ s s', run acts s = Some s' → st_closed s = true → st_written s' = st_written s.
Proof.
  induction acts as [|a acts IH]; intros s s'; cbn [stream_run]; [by intros [= <-]|].
  intros (s1 & Hs & Hr)%bind_Some Hc. assert (st_closed s1 = true ∧ st_written s1 = st_written s) as [Hc1 <-]; [|by apply IH].
  unfold stream_step in Hs. rewrite Hc in Hs. destruct a as [| |j response|].
  - destruct (negb _); [done|]. by injection Hs as <-.
  - destruct (is_nil _); [by injection Hs as <-|done].
  - destruct (decide _) as [_|]; [|done]. injection Hs as <-. unfold write_response. destruct response as [m'|e|p]; [|done..].
    destruct (Pack m'); [|done]. cbn. by rewrite Hc.
  - by injection Hs as <-.
Qed.

(** A client's messages, one behind the other, are read as they were written. *)
Lemma client_heard (ms : list (Z * Msg)) : ∀ s sent, st_ended s = None → st_closed s = false →
  Forall2 (λ '(id, m) bytes, ∃ raw, Pack (m <| msg_Id := id |>) = Some raw ∧ Len m = Z.of_nat (length raw) ∧ 0 < Len m < 65536 ∧
    Unpack raw = Some (m <| msg_Id := id |>) ∧ WriteMessage Pack Len id m = Ok bytes) ms sent → st_input s = concat sent →
  ∃ s', run (replicate (length ms) Read) s = Some s' ∧ st_queries s' = st_queries s ++ ((λ '(id, m), m <| msg_Id := id |>) <$> ms) ∧
    st_input s' = [] ∧ st_ended s' = None.
Proof.
  induction ms as [|[id m] ms IH]; intros s sent He Hc Hall Hin.
  { apply Forall2_nil_inv_l in Hall as ->. exists s. cbn. by rewrite app_nil_r. }
  apply Forall2_cons_inv_l in Hall as (bytes & sent' & (raw & HP & Hl & Hr & HU & Hw) & Hall & ->).
  assert (request (st_input s) = (Ok (m <| msg_Id := id |>), concat sent')) as Hreq.
  { rewrite Hin. cbn [concat]. unfold WriteMessage in Hw. rewrite HP in Hw. injection Hw as <-. rewrite u16_small by lia.
    assert (reads request (be_bytes 2 (Len m) ++ raw) (m <| msg_Id := id |>)) as Hreads; [|apply Hreads].
    unfold request. apply reads_bind with (a := Len m); [apply reads_be; lia|].
    destruct (Z.eqb_spec (Len m) 0); [lia|]. rewrite <-(app_nil_r raw).
    apply reads_bind with (a := raw); [apply reads_full; lia|]. rewrite HU. apply reads_ret. }
  edestruct (IH (s <| st_input := concat sent' |> <| st_queries := st_queries s ++ [m <| msg_Id := id |>] |>
                   <| st_pending := {[length (st_queries s)]} ∪ st_pending s |>)) as (s' & Hs' & Hq & Hin' & He'); [done|done|done|done|].
  exists s'. cbn [length replicate stream_run]. unfold stream_step at 1. rewrite He, Hc, Hreq. cbn [is_nil negb mbind option_bind].
  split; [exact Hs'|]. split; [|done]. rewrite Hq. cbn. by rewrite <-app_assoc.
Qed.

End Proofs.

Section Packets.
Context {L : ExtLib} {A : ActionLib} {D : DNSLib}.
Context (Pack : Msg → option (list byte)) (Unpack : list byte → option Msg) (Len : Msg → Z) (Truncate : Z → Msg → Msg).
Abbreviation run := (packet_run Pack Unpack Len Truncate).
Abbreviation truncated := (TruncateDNSMessage Pack Len Truncate).

(** The most a response may have: 512 bytes, or what the query says. *)
Definition allowed (request : Msg) : Z :=
  match Msg_IsEdns0 request with Some o => Z.max 512 (OPT_UDPSize o) | None => 512 end.

(** A response that is truncated fits, when the library removes enough and says lengths that are not exceeded. *)
Lemma truncated_fits request response raw : (∀ n m, 512 ≤ n → Len (Truncate n m) ≤ n) →
  (∀ m raw, Pack m = Some raw → Z.of_nat (length raw) ≤ Len m) → truncated request response = Ok raw →
  Z.of_nat (length raw) ≤ allowed request.
Proof.
  intros Ht Hp. unfold TruncateDNSMessage, allowed. set (maxLen := match Msg_IsEdns0 request with Some _ => _ | None => _ end).
  assert (512 ≤ maxLen ∧ maxLen = match Msg_IsEdns0 request with Some o => Z.max 512 (OPT_UDPSize o) | None => 512 end) as [Hm <-].
  { unfold maxLen. destruct (Msg_IsEdns0 request) as [o|]; [|done]. destruct (Z.ltb_spec 512 (OPT_UDPSize o)); lia. }
  destruct (Pack _) as [raw'|] eqn:HP; [|done]. intros [= <-]. apply Hp in HP. etransitivity; [exact HP|].
  destruct (Z.ltb_spec maxLen (Len response)); [by apply Ht|done].
Qed.

Abbreviation number w := (w.1.1.1) (only parsing).

Record packets_ok (s : Packets) : Prop := {
  po_pending k : k ∈ pk_pending s → (k < length (pk_queries s))%nat ∧ k ∉ (λ w, number w) <$> pk_sent s;
  po_once : NoDup ((λ w, number w) <$> pk_sent s);
  po_sent k m raw d : (k, m, raw, d) ∈ pk_sent s → ∃ request, pk_queries s !! k = Some (request, d) ∧ truncated request m = Ok raw
}.

Lemma packets_start_ok cached : packets_ok (packets_start cached).
Proof. split; cbn; [set_solver|constructor|by intros ???? ?%elem_of_nil]. Qed.

Lemma cancel_ok err s : packets_ok s → packets_ok (cancel err s).
Proof. by intros [? ? ?]. Qed.

Lemma take_packet_ok packet s : packets_ok s → packets_ok (take_packet Unpack packet s).
Proof.
  intros [Hp Ho Hs]. unfold take_packet. destruct (Unpack packet.1) as [m|]; [|by apply cancel_ok].
  assert (∀ k m' raw d, (k, m', raw, d) ∈ pk_sent s → (k < length (pk_queries s))%nat) as Hlt.
  { intros k m' raw d (request & Hq & _)%Hs. by apply lookup_lt_Some in Hq. }
  split; cbn; [|done|].
  - intros k [->%elem_of_singleton|Hk]%elem_of_union; rewrite length_app; cbn.
    + split; [lia|]. intros ([[[k m'] raw] d] & Hk & Hin)%list_elem_of_fmap. apply Hlt in Hin. cbn in Hk. lia.
    + destruct (Hp _ Hk). split; [lia|done].
  - intros k m' raw d (request & Hq & Ht)%Hs. exists request. split; [by apply lookup_app_l_Some|done].
Qed.

Lemma send_response_ok k request d response writeErr s : packets_ok s → k ∈ pk_pending s → pk_queries s !! k = Some (request, d) →
  packets_ok (send_response Pack Len Truncate k request d response writeErr s).
Proof.
  intros [Hp Ho Hs] Hk Hq. unfold send_response. set (s1 := s <| pk_pending := _ |>).
  assert (packets_ok s1) as Hs1 by (split; cbn; [intros j [Hj _]%elem_of_difference; by apply Hp|done|done]).
  destruct response as [m|e|p]; [|by apply cancel_ok|done]. destruct (truncated request m) as [raw|e|p] eqn:Ht; [|by apply cancel_ok|done].
  destruct (pk_closed s1); [by apply cancel_ok|]. destruct writeErr; [by apply cancel_ok|]. split; cbn.
  - intros j [Hj Hne%not_elem_of_singleton]%elem_of_difference. destruct (Hp _ Hj). split; [done|]. rewrite fmap_app.
    intros [?|?%list_elem_of_singleton]%elem_of_app; done.
  - rewrite fmap_app. apply list.NoDup_app. split; [done|]. split; [|apply NoDup_singleton].
    intros j Hj ->%list_elem_of_singleton. destruct (Hp _ Hk) as [_ Hn]. by apply Hn.
  - intros j m' raw' d' [Hj|[= -> -> -> ->]%list_elem_of_singleton]%elem_of_app; [by apply Hs|]. by exists request.
Qed.

Lemma packet_step_ok a s s' : packet_step Pack Unpack Len Truncate a s = Some s' → packets_ok s → packets_ok s'.
Proof.
  intros Hstep Hok. destruct a as [arrived|err|k response writeErr| |]; cbn [packet_step] in Hstep.
  - destruct (negb _); [done|]. destruct (pk_cached s) as [|packet cached]; [destruct (pk_closed s)|]; injection Hstep as <-.
    + by apply cancel_ok; destruct Hok.
    + by apply take_packet_ok.
    + apply take_packet_ok. by destruct Hok.
  - destruct (_ && _); [|done]. injection Hstep as <-. apply cancel_ok. by destruct Hok.
  - destruct (decide _) as [Hk|]; [|done]. destruct (pk_queries s !! k) as [[request d]|] eqn:Hq; [|done]. injection Hstep as <-.
    by apply send_response_ok.
  - injection Hstep as <-. by apply cancel_ok.
  - destruct (is_nil _); [done|]. injection Hstep as <-. by destruct Hok.
Qed.

Lemma packet_run_ok acts : ∀ s s', run acts s = Some s' → packets_ok s → packets_ok s'.
Proof.
  induction acts as [|a acts IH]; intros s s'; cbn [packet_run]; [by intros [= <-]|].
  intros (s1 & Hs & Hr)%bind_Some Hok. eapply IH; [done|]. by eapply packet_step_ok.
Qed.

Lemma sent_answered acts : ∀ s s' k m raw d, run acts s = Some s' → (k, m, raw, d) ∈ pk_sent s' →
  (k, m, raw, d) ∈ pk_sent s ∨ Respond k (Ok m) None ∈ acts.
Proof.
  induction acts as [|a acts IH]; intros s s' k m raw d; cbn [packet_run]; [by intros [= <-]; left|].
  intros (s1 & Hs & Hr)%bind_Some Hin. destruct (IH _ _ _ _ _ _ Hr Hin) as [Hin1|]; [|by right; right].
  assert (∀ p t, pk_sent (take_packet Unpack p t) = pk_sent t) as Htake by (intros p t; unfold take_packet; by destruct (Unpack p.1)).
  destruct a as [arrived|err|j response writeErr| |]; cbn [packet_step] in Hs.
  - left. destruct (negb _); [done|]. destruct (pk_cached s); [destruct (pk_closed s)|]; injection Hs as <-; rewrite ?Htake in Hin1; exact Hin1.
  - left. destruct (_ && _); [|done]. by injection Hs as <-.
  - destruct (decide _) as [_|]; [|done]. destruct (pk_queries s !! j) as [[request d']|]; [|done]. injection Hs as <-.
    unfold send_response in Hin1. destruct response as [m'|e|p]; [|by left..]. destruct (truncated request m'); [|by left..].
    cbn in Hin1. destruct (pk_closed s); [by left|]. destruct writeErr; [by left|].
    apply elem_of_app in Hin1 as [|[= -> -> _ _]%list_elem_of_singleton]; [by left|right; left].
  - left. by injection Hs as <-.
  - left. destruct (is_nil _); [done|]. by injection Hs as <-.
Qed.

(** The kept packets come in reverse: the last one that was read while sniffing is the first query. *)
Lemma kept_reversed cached : ∀ qs arrived, Forall2 (λ p q, Unpack p.1 = Some q.1 ∧ q.2 = p.2) cached qs →
  ∃ s, run (replicate (length cached) (Next arrived)) (packets_start cached) = Some s ∧ pk_queries s = reverse qs.
Proof.
  intros qs arrived Hall%Forall2_reverse. unfold packets_start.
  assert (∀ l qs s, Forall2 (λ p q, Unpack p.1 = Some q.1 ∧ q.2 = p.2) l qs → pk_cached s = l → pk_reading s = true →
    ∃ s', run (replicate (length l) (Next arrived)) s = Some s' ∧ pk_queries s' = pk_queries s ++ qs) as Hgen.
  { clear. induction l as [|p l IH]; intros qs s Hall Hc Hr.
    - apply Forall2_nil_inv_l in Hall as ->. exists s. cbn. by rewrite app_nil_r.
    - apply Forall2_cons_inv_l in Hall as ([q d] & qs' & [HU Hd] & Hall & ->). cbn in HU, Hd. subst d.
      edestruct (IH qs' (take_packet Unpack p (s <| pk_cached := l |>))) as (s' & Hs' & Hq); [done|unfold take_packet; by rewrite HU..|].
      exists s'. cbn [length replicate packet_run packet_step]. rewrite Hr, Hc. cbn [negb mbind option_bind]. split; [exact Hs'|].
      rewrite Hq. unfold take_packet. rewrite HU. cbn. by rewrite <-app_assoc. }
  destruct (Hgen (reverse cached) (reverse qs) (packets_start cached) Hall eq_refl eq_refl) as (s & Hs & Hq). exists s.
  rewrite length_reverse in Hs. by split.
Qed.

(** Behind a NAT a packet has one answer, which fits and goes back to where the packet said. *)
Lemma nat_answer exchange packet raw d : (∀ n m, 512 ≤ n → Len (Truncate n m) ≤ n) → (∀ m raw, Pack m = Some raw → Z.of_nat (length raw) ≤ Len m) →
  exchangeDNSPacket Pack Unpack Len Truncate exchange packet = Ok (raw, d) →
  d = packet.2 ∧ ∃ request response, Unpack packet.1 = Some request ∧ exchange request = Ok response ∧
    truncated request response = Ok raw ∧ Z.of_nat (length raw) ≤ allowed request.
Proof.
  intros Ht Hp. unfold exchangeDNSPacket. destruct (Unpack packet.1) as [request|]; [|done].
  intros (response & He & (raw' & Hr & [= <- <-])%bind_Ok)%bind_Ok. split; [done|]. exists request, response. split_and!; try done.
  by eapply truncated_fits.
Qed.

End Packets.

(** ** Properties *)

Section Properties.
Context {L : ExtLib} {A : ActionLib} {D : DNSLib}.
Context (Pack : Msg → option (list byte)) (Unpack : list byte → option Msg) (Len : Msg → Z) (Truncate : Z → Msg → Msg).

(** C38: A stream of queries, in every order of reads, answers, deadlines and closing: the queries are the first
    messages of what the client has sent; every response is written for a query that was read, as the router
    answered it, and none is written twice; and a client that reads the bytes finds exactly the responses, whole
    and in the order in which they were written, however their goroutines were interleaved. *)
Theorem hijack_answers input acts s : stream_run Pack Unpack acts (stream_start input) = Some s →
  (∃ rest, read_times (length (st_queries s)) 0 (λ _, read_request Unpack) input = (Ok (st_queries s), rest)) ∧
  NoDup ((λ w, w.1.1) <$> st_written s) ∧
  (∀ k m bytes, (k, m, bytes) ∈ st_written s → (k < length (st_queries s))%nat ∧ Answer k (Ok m) ∈ acts) ∧
  ((∀ k m bytes raw, (k, m, bytes) ∈ st_written s → Pack m = Some raw → 10 ≤ Z.of_nat (length raw) < 65536 ∧ Unpack raw = Some m) →
   reads (read_times (length (st_written s)) 0 (λ _, ReadMessage Unpack)) (concat ((λ w, w.2) <$> st_written s)) ((λ w, w.1.2) <$> st_written s)).
Proof.
  intros Hrun. pose proof (stream_run_ok Pack Unpack input _ _ _ Hrun (stream_start_ok Pack Unpack input)) as [Hread _ Honce Hwr].
  split_and!.
  - destruct Hread as (rest & Hread & _). by exists rest.
  - done.
  - intros k m bytes Hin. split; [by eapply Hwr|]. by destruct (written_answered Pack Unpack _ _ _ _ _ _ Hrun Hin) as [?%elem_of_nil|].
  - intros Hsize. apply reads_times_map. intros [[k m] bytes] i Hin. cbn. destruct (Hwr _ _ _ Hin) as (_ & raw & HP & ->).
    destruct (Hsize _ _ _ _ Hin HP) as [Hlen HU]. unfold frame, ReadMessage. rewrite u16_small by lia.
    apply reads_bind with (a := Z.of_nat (length raw)); [apply reads_be; lia|].
    destruct (Z.ltb_spec (Z.of_nat (length raw)) 10); [lia|]. rewrite <-(app_nil_r raw) at 2.
    apply reads_bind with (a := raw); [apply reads_full; lia|]. rewrite HU. apply reads_ret.
Qed.

(** Packets, in every order: a datagram is sent for a query that was read, as the router answered it, to where
    the query came from, at most one for each, and not longer than the query allows. *)
Lemma hijacked_packets cached acts s : packet_run Pack Unpack Len Truncate acts (packets_start cached) = Some s →
  (∀ n m, 512 ≤ n → Len (Truncate n m) ≤ n) → (∀ m raw, Pack m = Some raw → Z.of_nat (length raw) ≤ Len m) →
  NoDup ((λ w, w.1.1.1) <$> pk_sent s) ∧
  ∀ k m raw d, (k, m, raw, d) ∈ pk_sent s → ∃ request, pk_queries s !! k = Some (request, d) ∧ Respond k (Ok m) None ∈ acts ∧
    TruncateDNSMessage Pack Len Truncate request m = Ok raw ∧ Z.of_nat (length raw) ≤ allowed request.
Proof.
  intros Hrun Ht Hp. pose proof (packet_run_ok Pack Unpack Len Truncate _ _ _ Hrun (packets_start_ok Pack Len Truncate cached)) as [_ Honce Hs].
  split; [done|]. intros k m raw d Hin. destruct (Hs _ _ _ _ Hin) as (request & Hq & Htr). exists request. split_and!; [done| |done|].
  - by destruct (sent_answered Pack Unpack Len Truncate _ _ _ _ _ _ _ Hrun Hin) as [?%elem_of_nil|].
  - by eapply truncated_fits.
Qed.

End Properties.

Section Examples.
#[local] Instance ex_lib : ExtLib := SampleLib.
#[local] Instance ex_actions : ActionLib := DNSSampleActions.
#[local] Instance ex_dns : DNSLib := SampleDNSLib.

(** A message is its identifier and eight bytes more. *)
Definition ten_bytes (m : Msg) : option (list byte) := Some (be_bytes 2 (msg_Id m) ++ replicate 8 x00).
Definition ten_length (m : Msg) : Z := 10.
Definition no_truncate (n : Z) (m : Msg) : Msg := m.
Definition reply (id : Z) : Msg := mkMsg id true false false false 0 [] [] [] [].
Definition two_queries : list byte := be_bytes 2 10 ++ be_bytes 2 7 ++ replicate 8 x00 ++ be_bytes 2 10 ++ be_bytes 2 9 ++ replicate 8 x00.

(** The second query is answered first. *)
Lemma hijack_answers_witness : ∃ s,
  stream_run ten_bytes ex_Unpack [Read; Read; Answer 1 (Ok (reply 9)); Read; Answer 0 (Ok (reply 7))] (stream_start two_queries) = Some s ∧
  st_ended s = Some io_EOF ∧
  reads (read_times 2 0 (λ _, ReadMessage ex_Unpack)) (concat ((λ w, w.2) <$> st_written s)) [reply 9; reply 7].
Proof.
  destruct (stream_run _ _ _ _) as [s|] eqn:E; [|vm_compute in E; discriminate E]. exists s. split; [done|].
  pose proof (hijack_answers ten_bytes ex_Unpack _ _ _ E) as (_ & _ & _ & H). vm_compute in E. injection E as <-. split; [done|].
  apply H. intros k m bytes raw Hin. apply elem_of_cons in Hin as [[= -> -> _]|[= -> -> _]%list_elem_of_singleton];
    intros [= <-]; (split; [cbn; lia|reflexivity]).
Defined.

Lemma hijacked_packets_witness : let d := mkSocksaddr (sa_Addr Socksaddr_zero) 53 "" in ∃ s,
  packet_run ten_bytes ex_Unpack ten_length no_truncate [Next ([], d); Respond 0 (Ok (reply 7)) None] (packets_start [(be_bytes 2 7 ++ replicate 8 x00, d)]) = Some s ∧
  length (pk_sent s) = 1%nat ∧ ∀ k m raw d', (k, m, raw, d') ∈ pk_sent s → d' = d ∧ Z.of_nat (length raw) ≤ 512.
Proof.
  intros d. destruct (packet_run _ _ _ _ _ _) as [s|] eqn:E; [exists s|vm_compute in E; discriminate E]. split; [done|].
  destruct (hijacked_packets ten_bytes ex_Unpack ten_length no_truncate _ _ _ E) as [_ Hs].
  { intros n m ?. unfold ten_length. lia. }
  { intros m raw [= <-]. reflexivity. }
  vm_compute in E. injection E as <-. split; [reflexivity|]. intros k m raw d' Hin. destruct (Hs _ _ _ _ Hin) as (request & Hq & _ & _ & Hl).
  apply list_elem_of_singleton in Hin as [= -> _ _ ->]. injection Hq as <-. split; [reflexivity|exact Hl].
Defined.

(** One query that the router does not answer closes the connection: the answers of the others are lost. *)
Example lost_answer : ∀ err, ∃ s,
  stream_run ten_bytes ex_Unpack [Read; Read; Answer 0 (Err err); Answer 1 (Ok (reply 9))] (stream_start two_queries) = Some s ∧ st_written s = [].
Proof. intros err. eexists. split; vm_compute; reflexivity. Qed.
End Examples.
