(* ===== verification/LocalDns.v ===== *)
(** * The resolvers of the machine (dns/transport/local, hosts and dhcp)

    The local transport reads [/etc/resolv.conf] and asks its servers as the resolver of Go does, the
    hosts transport answers from hosts files, and the DHCP transport asks the servers it has learned.
    Sockets are functions from the state of the world. *)

From stdpp Require Import base gmap strings list numbers.
From S2P Require Import Prelude GoStd Chars Strconv Netip Adapter SetItems AddrItems RuleAction RuleOptions RuleItem RuleMatch RuleSet Rules DnsRules DnsClient.

Local Open Scope Z_scope.

(** ** Lines and fields *)

(** White space of ASCII, as [strings.Fields] has it. *)
Definition is_space (c : ascii) : bool := (Z.leb 9 (ascii_Z c) && Z.leb (ascii_Z c) 13) || Z.eqb (ascii_Z c) 32.

(** The field that is being read and those after it. *)
Fixpoint ascii_fields (s : string) : string * list string :=
  match s with
  | EmptyString => (""%string, [])
  | String c s =>
      let '(field, rest) := ascii_fields s in
      if is_space c then (""%string, if String.eqb field "" then rest else field :: rest) else (String c field, rest)
  end.
Definition ascii_Fields (s : string) : list string :=
  let '(field, rest) := ascii_fields s in if String.eqb field "" then rest else field :: rest.

Definition newline : ascii := "010"%char.
Definition carriage_return : ascii := "013"%char.

Definition drop_cr (line : string) : string :=
  if strings_HasSuffix line (String carriage_return "") then str_take (String.length line - 1) line else line.

(** The lines of a file, as [ReadLine] of a [bufio.Reader] gives them once the parts of a long line are
    put together: a carriage return goes with its newline, and the last line may have neither. *)
Definition ReadLines (content : string) : list string :=
  let l := strings_Split newline content in
  let rest := List.last l "" in
  (drop_cr <$> removelast l) ++ (if String.eqb rest "" then [] else [rest]).

Example fields_of : ascii_Fields " nameserver	10.0.0.1  # one" = ["nameserver"; "10.0.0.1"; "#"; "one"]%string.
Proof. reflexivity. Qed.

Lemma ascii_fields_space s : ∀ f r, ascii_fields s = (f, r) →
  string_all (λ c, negb (is_space c)) f = true ∧ Forall (λ f, f ≠ ""%string ∧ string_all (λ c, negb (is_space c)) f = true) r.
Proof.
  induction s as [|c s IH]; intros f r; cbn; [by intros [= <- <-]|].
  destruct (ascii_fields s) as [f' r']. destruct (IH f' r' eq_refl) as [Hf Hr].
  destruct (is_space c) eqn:Hc; intros [= <- <-].
  - split; [done|]. destruct (String.eqb_spec f' ""); [done|]. by constructor.
  - split; [|done]. cbn. by rewrite Hc, Hf.
Qed.

(** Fields are not empty and have no white space. *)
Lemma ascii_Fields_space s : Forall (λ f, f ≠ ""%string ∧ string_all (λ c, negb (is_space c)) f = true) (ascii_Fields s).
Proof.
  unfold ascii_Fields. destruct (ascii_fields s) as [f r] eqn:Hs. destruct (ascii_fields_space s f r Hs).
  destruct (String.eqb_spec f ""); [done|]. by constructor.
Qed.

(** [net.JoinHostPort] *)
Definition JoinHostPort (host port : string) : string :=
  if strings_Contains host ":" || strings_Contains host "%" then "[" +:+ host +:+ "]:" +:+ port else host +:+ ":" +:+ port.

(** White space outside of ASCII; names in their canonical form (github.com/miekg/dns); the addresses of
    servers (sing/common/metadata); the servers of package net without a configuration, and the name
    of the machine. *)
Class LocalLib := {
  unicode_Fields : string → list string;
  dns_CanonicalName : string → string;
  M_ParseSocksaddr : string → Socksaddr;
  defaultNS : list string;
  os_Hostname : res string
}.

Section Resolvers.
Context `{ExtLib} `{ActionLib} `{!DNSLib} `{LocalLib}.

Definition strings_Fields (s : string) : list string := if is_ASCII s then ascii_Fields s else unicode_Fields s.

(** ** The configuration of the resolver *)

(** [dns/transport/local/resolv.go:77-93] dnsConfig *)
Record dnsConfig : Type := mkdnsConfig {
  dc_servers : list string;
  dc_search : list string;
  dc_ndots : Z;
  dc_timeout : Z;
  dc_attempts : Z;
  dc_rotate : bool;
  dc_unknownOpt : bool;
  dc_lookup : list string;
  dc_err : option error;
  dc_mtime : Z;
  dc_soffset : Z;
  dc_singleRequest : bool;
  dc_useTCP : bool;
  dc_trustAD : bool;
  dc_noReload : bool
}.
#[global] Instance dnsConfig_settable : Settable dnsConfig :=
  {| mkT c := mkdnsConfig (dc_servers c) (dc_search c) (dc_ndots c) (dc_timeout c) (dc_attempts c) (dc_rotate c)
       (dc_unknownOpt c) (dc_lookup c) (dc_err c) (dc_mtime c) (dc_soffset c) (dc_singleRequest c) (dc_useTCP c)
       (dc_trustAD c) (dc_noReload c) |}.

(** [dns/transport/local/resolv_default.go:14-23] dnsDefaultSearch *)
Definition dnsDefaultSearch : list string :=
  match os_Hostname with
  | Ok hn =>
      let i := strings_Index hn "." in
      if Z.leb 0 i && Z.ltb i (strlen hn - 1) then [dns_Fqdn (str_drop (Z.to_nat (i + 1)) hn)] else []
  | _ => []
  end.

Definition big : Z := 16777215.

(** [dns/transport/local/resolv_unix.go:144-156] dtoi *)
Fixpoint dtoi_loop (s : string) (n i : Z) : Z * Z * bool :=
  let stop := if Z.eqb i 0 then (0, 0, false) else (n, i, true) in
  match s with
  | EmptyString => stop
  | String c s =>
      match digit_val c with
      | None => stop
      | Some d =>
          let n := n * 10 + d in
          if Z.leb big n then (big, i, false) else dtoi_loop s n (i + 1)
      end
  end.
Definition dtoi (s : string) : Z * Z * bool := dtoi_loop s 0 0.

(** The number an option has, within bounds. *)
Definition option_number (skip : nat) (s : string) : Z := (dtoi (str_drop skip s)).1.1.

(** [dns/transport/local/resolv_unix.go:88-124] dnsReadConfig (option) *)
Definition config_option (conf : dnsConfig) (s : string) : dnsConfig :=
  if strings_HasPrefix s "ndots:" then
    let n := option_number 6 s in
    conf <| dc_ndots := if Z.ltb n 0 then 0 else if Z.ltb 15 n then 15 else n |>
  else if strings_HasPrefix s "timeout:" then
    let n := option_number 8 s in
    conf <| dc_timeout := (if Z.ltb n 1 then 1 else n) * 1000000000 |>
  else if strings_HasPrefix s "attempts:" then
    let n := option_number 9 s in
    conf <| dc_attempts := if Z.ltb n 1 then 1 else n |>
  else if String.eqb s "rotate" then conf <| dc_rotate := true |>
  else if String.eqb s "single-request" || String.eqb s "single-request-reopen" then conf <| dc_singleRequest := true |>
  else if String.eqb s "use-vc" || String.eqb s "usevc" || String.eqb s "tcp" then conf <| dc_useTCP := true |>
  else if String.eqb s "trust-ad" then conf <| dc_trustAD := true |>
  else if String.eqb s "edns0" then conf
  else if String.eqb s "no-reload" then conf <| dc_noReload := true |>
  else conf <| dc_unknownOpt := true |>.

(** [dns/transport/local/resolv_unix.go:62-131] dnsReadConfig (fields) *)
Definition config_fields (conf : dnsConfig) (fields : list string) : dnsConfig :=
  match fields with
  | [] => conf
  | key :: args =>
      if String.eqb key "nameserver" then
        match args with
        | server :: _ =>
            if Nat.ltb (length (dc_servers conf)) 3 then
              match netip_ParseAddr server with
              | Ok _ => conf <| dc_servers := dc_servers conf ++ [JoinHostPort server "53"] |>
              | _ => conf
              end
            else conf
        | [] => conf
        end
      else if String.eqb key "domain" then
        match args with
        | name :: _ => conf <| dc_search := [dns_Fqdn name] |>
        | [] => conf
        end
      else if String.eqb key "search" then
        conf <| dc_search := List.filter (λ name, negb (String.eqb name ".")) (dns_Fqdn <$> args) |>
      else if String.eqb key "options" then foldl config_option conf args
      else if String.eqb key "lookup" then conf <| dc_lookup := args |>
      else conf <| dc_unknownOpt := true |>
  end.

(** [dns/transport/local/resolv_unix.go:58-61] dnsReadConfig (line) *)
Definition config_line (conf : dnsConfig) (line : string) : dnsConfig :=
  if strings_HasPrefix line ";" || strings_HasPrefix line "#" then conf else config_fields conf (strings_Fields line).

(** [dns/transport/local/resolv_unix.go:18-22] dnsReadConfig (defaults) *)
Definition default_config : dnsConfig := mkdnsConfig [] [] 1 5000000000 2 false false [] None 0 0 false false false false.

(** The file is its content and when it was modified.

    [dns/transport/local/resolv_unix.go:17-140] dnsReadConfig *)
Definition dnsReadConfig (file : res (string * Z)) : dnsConfig :=
  match file with
  | Ok (content, mtime) =>
      let conf := foldl config_line (default_config <| dc_mtime := mtime |>) (ReadLines content) in
      let conf := if nonempty (dc_servers conf) then conf else conf <| dc_servers := defaultNS |> in
      if nonempty (dc_search conf) then conf else conf <| dc_search := dnsDefaultSearch |>
  | Err err => default_config <| dc_servers := defaultNS |> <| dc_search := dnsDefaultSearch |> <| dc_err := Some err |>
  | Panic _ => default_config
  end.

Lemma dtoi_loop_bounds s : ∀ n i, 0 ≤ n ≤ big → 0 ≤ (dtoi_loop s n i).1.1 ≤ big.
Proof.
  unfold big. induction s as [|c s IH]; intros n i Hn; cbn [dtoi_loop]; [destruct (Z.eqb i 0); cbn; lia|].
  destruct (digit_val c) as [d|] eqn:Hd; [|destruct (Z.eqb i 0); cbn; lia].
  unfold digit_val in Hd. destruct (_ && _) eqn:Hc in Hd; [|done]. injection Hd as <-. unfold big.
  destruct (Z.leb_spec 16777215 (n * 10 + (ascii_Z c - 48))); [cbn; lia|]. apply IH. lia.
Qed.

Lemma option_number_bounds skip s : 0 ≤ option_number skip s ≤ big.
Proof. apply dtoi_loop_bounds. unfold big. lia. Qed.

(** What the lines of a configuration keep, whatever they are. *)
Definition config_ok (c : dnsConfig) : Prop :=
  0 ≤ dc_ndots c ≤ 15 ∧ 1 ≤ dc_attempts c ≤ big ∧ 1000000000 ≤ dc_timeout c ≤ big * 1000000000 ∧
  (length (dc_servers c) ≤ 3)%nat ∧
  Forall (λ s, ∃ a addr, netip_ParseAddr a = Ok addr ∧ s = JoinHostPort a "53") (dc_servers c) ∧
  Forall (λ name, ∃ n, name = dns_Fqdn n) (dc_search c) ∧ dc_soffset c = 0 ∧ dc_err c = None.

Lemma config_option_ok c s : config_ok c → config_ok (config_option c s).
Proof.
  intros (Hn & Ha & Ht & Hs). unfold config_option.
  pose proof (option_number_bounds 6 s). pose proof (option_number_bounds 8 s). pose proof (option_number_bounds 9 s).
  unfold config_ok. repeat case_match; subst; cbn; repeat match goal with |- context [if ?b then _ else _] => destruct b eqn:? end;
    (split; [lia|split; [lia|split; [lia|exact Hs]]]).
Qed.

Lemma config_options_ok l : ∀ c, config_ok c → config_ok (foldl config_option c l).
Proof. induction l as [|s l IH]; intros c Hc; cbn; [done|]. by apply IH, config_option_ok. Qed.

Lemma config_line_ok c line : config_ok c → config_ok (config_line c line).
Proof.
  intros Hc. unfold config_line, config_fields. destruct (_ || _); [done|]. destruct (strings_Fields line) as [|key args]; [done|].
  destruct (String.eqb key "nameserver").
  { destruct args as [|server args]; [done|]. destruct (Nat.ltb_spec (length (dc_servers c)) 3) as [Hlt|]; [|done].
    destruct (netip_ParseAddr server) eqn:Hp; try done. destruct Hc as (? & ? & ? & Hl & Hs & ?). unfold config_ok. cbn.
    rewrite length_app. cbn [length]. split_and!; try tauto; try lia. apply Forall_app. split; [done|]. constructor; [eauto|constructor]. }
  destruct (String.eqb key "domain").
  { destruct args as [|name args]; [done|]. destruct Hc as (? & ? & ? & ? & ? & ? & ?). unfold config_ok. cbn. split_and!; try tauto; try lia.
    constructor; [eauto|constructor]. }
  destruct (String.eqb key "search").
  { destruct Hc as (? & ? & ? & ? & ? & ? & ?). unfold config_ok. cbn. split_and!; try tauto; try lia.
    apply list.Forall_forall. intros x Hx. apply list_elem_of_In, filter_In in Hx as [Hx _]. apply list_elem_of_In, list_elem_of_fmap in Hx as (y & -> & _). eauto. }
  destruct (String.eqb key "options"); [by apply config_options_ok|].
  destruct (String.eqb key "lookup"); unfold config_ok in *; cbn; tauto.
Qed.

(** Whatever the file says, the configuration is one that can be asked: the dots, the attempts and the timeout are
    within their bounds, the servers are at most three addresses, or those of the system, and no error or offset
    is left over. *)
Lemma dnsReadConfig_bounds content mtime : let c := dnsReadConfig (Ok (content, mtime)) in
  0 ≤ dc_ndots c ≤ 15 ∧ 1 ≤ dc_attempts c ≤ big ∧ 1000000000 ≤ dc_timeout c ≤ big * 1000000000 ∧ dc_err c = None ∧ dc_soffset c = 0 ∧
  (dc_servers c = defaultNS ∨ (1 ≤ length (dc_servers c) ≤ 3)%nat ∧
     Forall (λ s, ∃ a addr, netip_ParseAddr a = Ok addr ∧ s = JoinHostPort a "53") (dc_servers c)) ∧
  (dc_search c = dnsDefaultSearch ∨ dc_search c ≠ [] ∧ Forall (λ name, ∃ n, name = dns_Fqdn n) (dc_search c)).
Proof.
  cbn zeta. unfold dnsReadConfig.
  assert (∀ l c, config_ok c → config_ok (foldl config_line c l)) as Hl.
  { induction l as [|x l IH]; intros c Hc; cbn; [done|]. by apply IH, config_line_ok. }
  assert (config_ok (default_config <| dc_mtime := mtime |>)) as Hdef.
  { unfold config_ok, big. cbn. split_and!; (done || lia || constructor). }
  specialize (Hl (ReadLines content) _ Hdef). set (c := foldl config_line _ _) in *.
  destruct Hl as (Hn & Ha & Ht & Hlen & Hs & Hq & Hso & He).
  destruct (dc_servers c) as [|x xs] eqn:Hsv, (dc_search c) as [|y ys] eqn:Hse; cbn; rewrite ?Hsv, ?Hse; cbn; rewrite ?Hsv, ?Hse; cbn;
    split_and!; try done; try lia; try (by left); right; split; try done; cbn in *; lia.
Qed.

(** *** What a file says *)

(** A line: a remark, or words with white space before each of them and after the last. *)
Inductive ConfLine : Type :=
| CL_Remark (mark : ascii) (text : string)
| CL_Words (l : list (string * string)) (after : string).


Definition words_text (l : list (string * string)) (after : string) : string := foldr (λ x s, x.1 +:+ (x.2 +:+ s)) after l.


Definition blank (s : string) : bool := string_all (λ c, is_space c && negb (Ascii.eqb c newline)) s.
Definition word (s : string) : bool := negb (String.eqb s "") && string_all (λ c, negb (is_space c) && Z.ltb (ascii_Z c) 128) s.

(** Words of ASCII, apart from each other; the line starts with no mark of a remark. *)
Definition conf_line_ok (l : ConfLine) : Prop :=
  match l with
  | CL_Remark mark text => (mark = ";"%char ∨ mark = "#"%char) ∧ free_of [newline] text = true
  | CL_Words l after =>
      blank after = true ∧ Forall (λ x, blank x.1 = true ∧ word x.2 = true) l ∧ Forall (λ x, x.1 ≠ ""%string) (tail l) ∧
      strings_HasPrefix (words_text l after) ";" = false ∧ strings_HasPrefix (words_text l after) "#" = false
  end.







(** **** Lines and words *)
















(** **** Servers, domains and options *)




















(** ** Names to ask for *)

(** [dns/transport/local/resolv.go:136-144] avoidDNS *)
Definition avoidDNS (name : string) : bool :=
  if String.eqb name "" then true else
  let name := if strings_HasSuffix name "." then str_take (String.length name - 1) name else name in
  strings_HasSuffix name ".onion".

(** [dns/transport/local/resolv.go:102-134] (dnsConfig).nameList *)
Definition nameList (ndots : Z) (search : list string) (name : string) : list string :=
  let l := strlen name in
  let rooted := Z.ltb 0 l && strings_HasSuffix name "." in
  if Z.ltb 254 l || (Z.eqb l 254 && negb rooted) then [] else
  if rooted then (if avoidDNS name then [] else [name]) else
  let hasNdots := Z.leb ndots (Z.of_nat (strings_Count "." name)) in
  let name := name +:+ "." in
  (if hasNdots && negb (avoidDNS name) then [name] else []) ++
  List.filter (λ fqdn, negb (avoidDNS fqdn) && Z.leb (strlen fqdn) 254) ((λ suffix, name +:+ suffix) <$> search) ++
  (if negb hasNdots && negb (avoidDNS name) then [name] else []).

(** The transport of DHCP has the same, over its own fields.

    [dns/transport/dhcp/dhcp_shared.go:171-203] (Transport).nameList *)
Definition dhcp_nameList (ndots : Z) (search : list string) (name : string) : list string := nameList ndots search name.

Lemma strlen_concat a b : strlen (a +:+ b) = strlen a + strlen b.
Proof. unfold strlen. rewrite length_string_app. lia. Qed.

(** A name that may be asked for. *)
Definition fit_name (name : string) : Prop := strlen name ≤ 254 ∧ avoidDNS name = false.

Lemma nameList_fit ndots search name : Forall fit_name (nameList ndots search name).
Proof.
  unfold nameList. set (rooted := Z.ltb 0 (strlen name) && _).
  destruct (Z.ltb_spec 254 (strlen name)) as [|Hle]; [constructor|].
  destruct rooted; cbn [negb andb orb].
  { rewrite andb_false_r. destruct (avoidDNS name) eqn:Ha; [constructor|]. by repeat constructor. }
  rewrite andb_true_r. destruct (Z.eqb_spec (strlen name) 254); [constructor|].
  assert (strlen (name +:+ ".") ≤ 254) as Hlen by (rewrite strlen_concat; change (strlen ".") with 1; lia).
  apply Forall_app. split; [destruct (_ && _) eqn:Hc; [apply andb_true_iff in Hc as [_ Hc%negb_true_iff]; by repeat constructor|constructor]|].
  apply Forall_app. split; [|destruct (_ && _) eqn:Hc; [apply andb_true_iff in Hc as [_ Hc%negb_true_iff]; by repeat constructor|constructor]].
  apply list.Forall_forall. intros x Hx%list_elem_of_In. apply filter_In in Hx as [_ Hx]. apply andb_true_iff in Hx as [Hx%negb_true_iff Hl%Z.leb_le]. done.
Qed.

(** The name itself is asked for, unless it is too long or of the network of onions. *)
Lemma nameList_itself ndots search name : strings_HasSuffix name "." = false → fit_name (name +:+ ".") →
  name +:+ "." ∈ nameList ndots search name.
Proof.
  intros Hs [Hl Ha]. unfold nameList. rewrite Hs, andb_false_r, Ha. rewrite strlen_concat in Hl. change (strlen ".") with 1 in Hl.
  destruct (Z.ltb_spec 254 (strlen name)); [lia|]. destruct (Z.eqb_spec (strlen name) 254); [lia|]. cbn.
  destruct (Z.leb _ _); cbn; [by left|]. apply elem_of_app. right. by left.
Qed.

(** A name that has its final dot is asked for as it is, and with no domain of the search list. *)
Lemma nameList_rooted ndots search name : strings_HasSuffix name "." = true → nameList ndots search name = if bool_decide (fit_name name) then [name] else [].
Proof.
  intros Hs. unfold nameList, fit_name. rewrite Hs.
  assert (0 < strlen name) as Hpos by (destruct name; [done|unfold strlen; cbn; lia]).
  destruct (Z.ltb_spec 0 (strlen name)); [|lia]. cbn [andb negb]. rewrite andb_false_r, orb_false_r.
  destruct (Z.ltb_spec 254 (strlen name)); [rewrite bool_decide_eq_false_2 by lia; done|].
  destruct (avoidDNS name); [by rewrite bool_decide_eq_false_2 by naive_solver|by rewrite bool_decide_eq_true_2 by done].
Qed.

(** ** Asking the servers *)

Section Asking.
Context {W : Type} (exchangeOne : Socksaddr → Question → W → res Msg * W).

(** [dns/transport/local/resolv.go:95-100] (dnsConfig).serverOffset *)
Definition serverOffset (c : dnsConfig) : Z * dnsConfig :=
  if dc_rotate c then (u32 (u32 (dc_soffset c + 1) - 1), c <| dc_soffset := u32 (dc_soffset c + 1) |>) else (0, c).

(** The servers in the order one attempt asks them. *)
Definition server_order (offset : Z) (servers : list string) : list string :=
  let sLen := Z.of_nat (length servers) in
  (λ j, servers !!! Z.to_nat (u32 (offset + Z.of_nat j) mod sLen)) <$> seq 0 (length servers).

(** One attempt, over the servers that are left: a response, or the last error.

    [dns/transport/local/local_shared.go:93-103] (Transport).tryOneName (servers) *)
Fixpoint try_servers (question : Question) (servers : list Socksaddr) (lastErr : option error) (w : W)
    : res (Msg + option error) * W :=
  match servers with
  | [] => (Ok (inr lastErr), w)
  | server :: servers =>
      match exchangeOne server question w with
      | (Ok response, w) => (Ok (inl response), w)
      | (Err err, w) => try_servers question servers (Some err) w
      | (Panic p, w) => (Panic p, w)
      end
  end.

(** [dns/transport/local/local_shared.go:92-104] (Transport).tryOneName (attempts) *)
Fixpoint try_attempts (attempts : nat) (question : Question) (servers : list Socksaddr) (lastErr : option error) (w : W)
    : res (Msg + option error) * W :=
  match attempts with
  | O => (Ok (inr lastErr), w)
  | S attempts =>
      match try_servers question servers lastErr w with
      | (Ok (inr lastErr), w) => try_attempts attempts question servers lastErr w
      | r => r
      end
  end.

(** The cause of an error is never [nil].

    [dns/transport/local/local_shared.go:88-106] (Transport).tryOneName *)
Definition tryOneName (c : dnsConfig) (fqdn : string) (message : Msg) (w : W) : res Msg * dnsConfig * W :=
  let '(offset, c) := serverOffset c in
  match msg_Question message with
  | [] => (Panic [AStr "index out of range"], c, w)
  | question :: _ =>
      let question := mkQuestion fqdn (q_Qtype question) (q_Qclass question) in
      match try_attempts (Z.to_nat (dc_attempts c)) question (M_ParseSocksaddr <$> server_order offset (dc_servers c)) None w with
      | (Ok (inl response), w) => (Ok response, c, w)
      | (Ok (inr (Some lastErr)), w) => (Err (E_Cause lastErr [AStr fqdn]), c, w)
      | (Ok (inr None), w) => (Panic [AStr "cause on an nil error"], c, w)
      | (Err err, w) => (Err err, c, w)
      | (Panic p, w) => (Panic p, c, w)
      end
  end.

(** The names one after the other, until one of them is answered; without names there is neither a
    response nor an error.

    [dns/transport/local/local_shared.go:29-40] (Transport).exchangeSingleRequest *)
Fixpoint exchange_names (names : list string) (lastErr : option error) (c : dnsConfig) (message : Msg) (w : W)
    : res (option Msg) * dnsConfig * W :=
  match names with
  | [] => (match lastErr with Some err => Err err | None => Ok None end, c, w)
  | fqdn :: names =>
      match tryOneName c fqdn message w with
      | (Ok response, c, w) => (Ok (Some response), c, w)
      | (Err err, c, w) => exchange_names names (Some err) c message w
      | (Panic p, c, w) => (Panic p, c, w)
      end
  end.
Definition exchangeSingleRequest (c : dnsConfig) (message : Msg) (domain : string) (w : W) : res (option Msg) * dnsConfig * W :=
  exchange_names (nameList (dc_ndots c) (dc_search c) domain) None c message w.

(** *** The order of what is asked *)

Lemma try_servers_app question a b : ∀ lastErr w, try_servers question (a ++ b) lastErr w =
  match try_servers question a lastErr w with
  | (Ok (inr lastErr), w) => try_servers question b lastErr w
  | r => r
  end.
Proof.
  induction a as [|s a IH]; intros lastErr w; [done|]. cbn.
  destruct (exchangeOne s question w) as [[response|err|p] w']; [done|by rewrite IH|done].
Qed.

Lemma try_attempts_concat question servers n : ∀ lastErr w,
  try_attempts n question servers lastErr w = try_servers question (concat (replicate n servers)) lastErr w.
Proof.
  induction n as [|n IH]; intros lastErr w; [done|]. cbn. rewrite try_servers_app.
  destruct (try_servers question servers lastErr w) as [[[response|e]|err|p] w']; [done|by rewrite IH|done|done].
Qed.

Lemma try_servers_asked question servers : ∀ lastErr w, servers ≠ [] →
  ∀ w', try_servers question servers lastErr w ≠ (Ok (inr None), w').
Proof.
  induction servers as [|s servers IH]; intros lastErr w Hne w'; [done|]. cbn.
  destruct (exchangeOne s question w) as [[response|err|p] w1]; try done.
  destruct servers as [|s' servers]; [done|]. by apply IH.
Qed.

(** The servers of an attempt are all of them, each once, starting at the offset. *)
Lemma server_order_rotates offset servers : 0 ≤ offset → offset + Z.of_nat (length servers) ≤ 2 ^ 32 →
  server_order offset servers = rotate (Z.to_nat offset) servers.
Proof.
  intros Ho Hw. apply list_eq_same_length with (n := length servers); [apply length_rotate|by unfold server_order; rewrite length_fmap, length_seq|].
  intros i x y Hi Hx Hy. unfold server_order in Hx. rewrite list_lookup_fmap, lookup_seq_lt in Hx by done. cbn in Hx. injection Hx as <-.
  rewrite lookup_rotate_r in Hy by done. unfold rotate_nat_add in Hy.
  unfold u32. rewrite wrap_id by (unfold is_u; lia). apply list_lookup_total_correct. rewrite <-Hy. by rewrite Z2Nat.id by lia.
Qed.

Lemma server_order_Permutation offset servers : 0 ≤ offset → offset + Z.of_nat (length servers) ≤ 2 ^ 32 → server_order offset servers ≡ₚ servers.
Proof.
  intros Ho Hw. rewrite server_order_rotates by done. unfold rotate. rewrite Permutation_app_comm. by rewrite take_drop.
Qed.

Lemma concat_replicate_ne {A} n (l : list A) : (0 < n)%nat → l ≠ [] → concat (replicate n l) ≠ [].
Proof. intros Hn Hl. destruct n; [lia|]. cbn. by destruct l. Qed.

(** A name is asked for as often as the configuration says, of every server in each attempt, starting
    with the one whose turn it is, until one of them answers; the error is that of the last one, and
    there is one: the cause of the error is not [nil]. *)
Theorem tryOneName_asks c fqdn message question rest w : msg_Question message = question :: rest →
  1 ≤ dc_attempts c → dc_servers c ≠ [] → is_u 32 (dc_soffset c) → dc_soffset c + Z.of_nat (length (dc_servers c)) ≤ 2 ^ 32 →
  let offset := if dc_rotate c then dc_soffset c else 0 in
  let asked := concat (replicate (Z.to_nat (dc_attempts c)) (M_ParseSocksaddr <$> rotate (Z.to_nat offset) (dc_servers c))) in
  let '(r, c', w') := tryOneName c fqdn message w in
  c' = (if dc_rotate c then c <| dc_soffset := u32 (dc_soffset c + 1) |> else c) ∧
  match try_servers (mkQuestion fqdn (q_Qtype question) (q_Qclass question)) asked None w with
  | (Ok (inl response), w1) => r = Ok response ∧ w' = w1
  | (Ok (inr (Some lastErr)), w1) => r = Err (E_Cause lastErr [AStr fqdn]) ∧ w' = w1
  | (Ok (inr None), _) => False
  | (Err err, w1) => r = Err err ∧ w' = w1
  | (Panic p, w1) => r = Panic p ∧ w' = w1
  end.
Proof.
  intros Hq Ha Hs Hu Hw. cbn zeta. unfold tryOneName, serverOffset.
  assert (u32 (u32 (dc_soffset c + 1) - 1) = dc_soffset c) as Hoff.
  { unfold u32, wrap. rewrite Zminus_mod_idemp_l. replace (dc_soffset c + 1 - 1) with (dc_soffset c) by lia. by apply Z.mod_small. }
  set (offset := if dc_rotate c then dc_soffset c else 0).
  assert (server_order offset (dc_servers c) = rotate (Z.to_nat offset) (dc_servers c)) as Hr.
  { unfold is_u in Hu. apply server_order_rotates; unfold offset; destruct (dc_rotate c); lia. }
  set (c1 := if dc_rotate c then _ else c).
  assert ((if dc_rotate c then (u32 (u32 (dc_soffset c + 1) - 1), c <| dc_soffset := u32 (dc_soffset c + 1) |>) else (0, c)) = (offset, c1)) as ->.
  { unfold offset, c1. destruct (dc_rotate c); by rewrite ?Hoff. }
  assert (dc_attempts c1 = dc_attempts c ∧ dc_servers c1 = dc_servers c) as [-> ->] by (unfold c1; by destruct (dc_rotate c)).
  rewrite Hq, try_attempts_concat, Hr.
  set (asked := concat _). assert (asked ≠ []) as Hne.
  { apply concat_replicate_ne; [lia|]. intros Hnil%fmap_nil_inv. apply (f_equal length) in Hnil. rewrite length_rotate in Hnil. by destruct (dc_servers c). }
  destruct (try_servers _ asked None w) as [[[response|[e|]]|err|p] w'] eqn:Ht; try done. by apply try_servers_asked in Ht.
Qed.

(** Without names to ask for there is neither a response nor an error: [nil] twice. *)
Lemma no_names c message domain w : nameList (dc_ndots c) (dc_search c) domain = [] →
  exchangeSingleRequest c message domain w = (Ok None, c, w).
Proof. intros Hn. unfold exchangeSingleRequest. by rewrite Hn. Qed.

(** *** All names at once *)

(** What a racer makes of an answer: one that is an error or without addresses counts as an error.

    [dns/transport/local/local_shared.go:50-63] (Transport).exchangeParallel (racer) *)
Definition racer_result (fqdn : string) (r : res Msg) : res Msg :=
  match r with
  | Ok response =>
      if negb (Z.eqb (msg_Rcode response) RcodeSuccess) then Err (RcodeError (msg_Rcode response))
      else if nonempty (MessageToAddresses response) then Ok response
      else Err (E_New [AStr fqdn; AStr ": empty result"])
  | r => r
  end.

(** What the loop receives: the end of its context, or the result of a racer. *)
Inductive Arrival : Type := ContextDone (err : error) | Arrived (r : res Msg).

(** [None] while it waits.

    [dns/transport/local/local_shared.go:71-85] (Transport).exchangeParallel (loop) *)
Fixpoint parallel_loop (nameCount : nat) (errors : list error) (arrivals : list Arrival) : option (res Msg) :=
  match arrivals with
  | [] => None
  | ContextDone err :: _ => Some (Err err)
  | Arrived (Ok response) :: _ => Some (Ok response)
  | Arrived (Panic p) :: _ => Some (Panic p)
  | Arrived (Err err) :: arrivals =>
      let errors := errors ++ [err] in
      if Nat.eqb (length errors) nameCount
      then Some (Err (match errors with [] => err | first :: rest => Errors first rest end))
      else parallel_loop nameCount errors arrivals
  end.

(** [dns/transport/local/local_shared.go:42-86] (Transport).exchangeParallel *)
Definition exchangeParallel (c : dnsConfig) (domain : string) (arrivals : list Arrival) : option (res Msg) :=
  parallel_loop (length (nameList (dc_ndots c) (dc_search c) domain)) [] arrivals.

(** When the results of all names are in, and the context is not done, the first name that was answered
    decides, and otherwise the errors of all. *)
Lemma parallel_decides (results : list (res Msg)) n : ∀ errors, (0 < length results)%nat → (length errors + length results = n)%nat →
  Forall (λ r, ∀ p, r ≠ Panic p) results →
  ∃ r, parallel_loop n errors (Arrived <$> results) = Some r ∧
    match r with
    | Ok response => ∃ before after, results = before ++ Ok response :: after ∧ Forall (λ r, ∃ e, r = Err e) before
    | Err _ => Forall (λ r, ∃ e, r = Err e) results
    | Panic _ => False
    end.
Proof.
  induction results as [|r results IH]; intros errors Hpos Hn Hp; [cbn in Hpos; lia|]. inversion Hp as [|? ? Hr Hp']; subst. cbn.
  destruct r as [response|err|p]; [eexists; split; [done|]; by exists [], results| |by destruct (Hr p)].
  rewrite length_app. cbn [length]. destruct (Nat.eqb_spec (length errors + 1) (length errors + S (length results))) as [He|He].
  - assert (results = []) as -> by (apply nil_length_inv; lia). eexists. split; [done|]. repeat constructor. eauto.
  - destruct (IH (errors ++ [err])) as (r & Hl & Hr'); [lia|rewrite length_app; cbn; lia|done|].
    exists r. split; [exact Hl|]. destruct r as [response|e|p]; [|constructor; eauto|done].
    destruct Hr' as (before & after & -> & Hb). exists (Err err :: before), after. split; [done|]. constructor; eauto.
Qed.

(** Without names nothing ever arrives but the end of the context. *)
Lemma parallel_no_names : exchangeParallel (default_config <| dc_servers := ["127.0.0.1:53"]%string |>) "a.onion." [] = None.
Proof. reflexivity. Qed.

(** [dns/transport/local/local_shared.go:20-27] (Transport).exchange *)
Definition exchange_parallel_p (c : dnsConfig) (question : Question) : bool :=
  negb (dc_singleRequest c || negb (Z.eqb (q_Qtype question) TypeA || Z.eqb (q_Qtype question) TypeAAAA)).

End Asking.
(** The deadline of a connection: that of the context, but no later than the timeout; without one in the
    context there is none, whatever the timeout.

    [dns/transport/local/local_shared.go:135-141] (Transport).exchangeUDP (deadline) *)
Definition query_deadline (ctxDeadline : option Z) (now timeout : Z) : option Z :=
  match ctxDeadline with
  | Some deadline => Some (if Z.ltb (now + timeout) deadline then now + timeout else deadline)
  | None => None
  end.

(** ** Reading the configuration again *)

(** [dns/transport/local/resolv.go:13-18] resolverConfig *)
Record resolverConfig : Type := mkresolverConfig { rc_lastChecked : Z; rc_dnsConfig : dnsConfig }.

(** The check is made when five seconds have passed since the last; the file is read again when the time
    of its modification has changed, the time 0 standing for a file that cannot be examined.

    [dns/transport/local/resolv.go:33-62] (resolverConfig).tryUpdate *)
Definition tryUpdate (now : Z) (stat : res Z) (file : res (string * Z)) (conf : resolverConfig) : resolverConfig :=
  if dc_noReload (rc_dnsConfig conf) then conf else
  if Z.ltb (now - 5000000000) (rc_lastChecked conf) then conf else
  let conf := mkresolverConfig now (rc_dnsConfig conf) in
  let mtime := match stat with Ok mtime => mtime | _ => 0 end in
  if Z.eqb mtime (dc_mtime (rc_dnsConfig conf)) then conf else
  mkresolverConfig now (dnsReadConfig file).

(** [no-reload] is for good: whatever the file says afterwards is not read. *)
Lemma no_reload_stays now stat file conf : dc_noReload (rc_dnsConfig conf) = true → tryUpdate now stat file conf = conf.
Proof. intros Hn. unfold tryUpdate. by rewrite Hn. Qed.

(** ** Hosts files *)

(** [dns/transport/hosts/hosts_file.go:18-25] File *)
Record File : Type := mkFile {
  hf_byName : gmap string (list Addr);
  hf_expire : Z;
  hf_modTime : Z;
  hf_size : Z
}.

(** [dns/transport/hosts/hosts_file.go:27-31] NewFile *)
Definition NewFile : File := mkFile ∅ 0 0 0.

(** The text before a comment. *)
Fixpoint before_comment (line : string) : string :=
  match line with
  | EmptyString => ""%string
  | String c line => if Ascii.eqb c "#" then ""%string else String c (before_comment line)
  end.

(** [dns/transport/hosts/hosts_file.go:94-95] (File).update (names) *)
Definition add_host (addr : Addr) (byName : gmap string (list Addr)) (name : string) : gmap string (list Addr) :=
  let canonicalName := dns_CanonicalName name in
  <[canonicalName := default [] (byName !! canonicalName) ++ [addr]]> byName.

(** [dns/transport/hosts/hosts_file.go:80-96] (File).update (line) *)
Definition host_line (byName : gmap string (list Addr)) (line : string) : gmap string (list Addr) :=
  match strings_Fields (before_comment line) with
  | first :: name :: names =>
      match netip_ParseAddr first with
      | Ok addr => foldl (add_host addr) byName (name :: names)
      | _ => byName
      end
  | _ => byName
  end.

Definition cacheMaxAge : Z := 5000000000.

(** What the system says of the file, and what reading it gives.

    [dns/transport/hosts/hosts_file.go:40-102] (File).update *)
Definition file_update (now : Z) (stat : res (Z * Z)) (content : res string) (f : File) : File :=
  if Z.ltb now (hf_expire f) && negb (bool_decide (hf_byName f = ∅)) then f else
  match stat with
  | Ok (modTime, size) =>
      if Z.eqb (hf_modTime f) modTime && Z.eqb (hf_size f) size
      then mkFile (hf_byName f) (now + cacheMaxAge) (hf_modTime f) (hf_size f) else
      match content with
      | Ok content => mkFile (foldl host_line ∅ (ReadLines content)) (now + cacheMaxAge) modTime size
      | _ => f
      end
  | _ => f
  end.

(** [dns/transport/hosts/hosts_file.go:33-38] (File).Lookup *)
Definition file_Lookup (now : Z) (stat : res (Z * Z)) (content : res string) (name : string) (f : File) : list Addr * File :=
  let f := file_update now stat content f in
  (default [] (hf_byName f !! dns_CanonicalName name), f).

(** *** What a hosts file means *)

(** The names of a line, each with the address in front of them. *)
Definition line_hosts (line : string) : list (string * Addr) :=
  match strings_Fields (before_comment line) with
  | first :: names =>
      match netip_ParseAddr first with
      | Ok addr => (λ name, (dns_CanonicalName name, addr)) <$> names
      | _ => []
      end
  | [] => []
  end.

(** The addresses of a name, in the order of the file. *)
Definition hosts_of (lines : list string) (name : string) : list Addr :=
  snd <$> filter (λ e, e.1 = name) (lines ≫= line_hosts).

Lemma add_hosts_lookup addr names name : ∀ byName,
  default [] (foldl (add_host addr) byName names !! name) =
  default [] (byName !! name) ++ (snd <$> filter (λ e, e.1 = name) ((λ n, (dns_CanonicalName n, addr)) <$> names)).
Proof.
  induction names as [|n names IH]; intros byName; [cbn; by rewrite app_nil_r|].
  rewrite fmap_cons, filter_cons. cbn [foldl fst snd]. rewrite IH. unfold add_host at 1. cbv zeta. destruct (decide (dns_CanonicalName n = name)) as [<-|Hne].
  - rewrite lookup_insert_eq. cbn [from_option id]. rewrite fmap_cons. cbn [snd]. by rewrite <-app_assoc.
  - by rewrite lookup_insert_ne.
Qed.

Lemma host_line_lookup byName line name : default [] (host_line byName line !! name) =
  default [] (byName !! name) ++ (snd <$> filter (λ e, e.1 = name) (line_hosts line)).
Proof.
  unfold host_line, line_hosts. destruct (strings_Fields (before_comment line)) as [|first names]; [by rewrite app_nil_r|].
  destruct names as [|n names]; [destruct (netip_ParseAddr first); cbn; by rewrite app_nil_r|].
  destruct (netip_ParseAddr first) as [addr|e|p]; [apply add_hosts_lookup|by rewrite app_nil_r..].
Qed.

Lemma host_lines_lookup lines name : ∀ byName, default [] (foldl host_line byName lines !! name) = default [] (byName !! name) ++ hosts_of lines name.
Proof.
  unfold hosts_of. induction lines as [|l lines IH]; intros byName; [cbn; by rewrite app_nil_r|].
  rewrite bind_cons, list.filter_app, fmap_app. cbn [foldl]. by rewrite IH, host_line_lookup, app_assoc.
Qed.

(** A file that has not been read since it changed: it has expired, or nothing of it is known, and its
    time of modification or its size are others. *)
Definition out_of_date (now : Z) (stat : Z * Z) (f : File) : Prop :=
  (hf_expire f ≤ now ∨ hf_byName f = ∅) ∧ (hf_modTime f, hf_size f) ≠ stat.

(** A name is looked up in what the hosts file says: the addresses of the lines that have the name, in
    their order, are found once the file has changed and what is known of it has expired; until then,
    and when the file is the one that was read, the answer is that of what was read. *)
Theorem file_Lookup_hosts now stat content name f :
  (out_of_date now stat f → (file_Lookup now (Ok stat) (Ok content) name f).1 = hosts_of (ReadLines content) (dns_CanonicalName name)) ∧
  (∀ now' name', out_of_date now stat f → let f' := (file_Lookup now (Ok stat) (Ok content) name f).2 in
     (∀ stat' content', now ≤ now' < now + cacheMaxAge → hf_byName f' ≠ ∅ →
        (file_Lookup now' stat' content' name' f').1 = hosts_of (ReadLines content) (dns_CanonicalName name')) ∧
     (∀ content', (file_Lookup now' (Ok stat) content' name' f').1 = hosts_of (ReadLines content) (dns_CanonicalName name'))).
Proof.
  assert (∀ f, out_of_date now stat f → file_update now (Ok stat) (Ok content) f =
    mkFile (foldl host_line ∅ (ReadLines content)) (now + cacheMaxAge) stat.1 stat.2) as Hup.
  { intros g [Hexp Hst]. unfold file_update. destruct stat as [m s]. cbn.
    assert (Z.ltb now (hf_expire g) && negb (bool_decide (hf_byName g = ∅)) = false) as ->.
    { destruct Hexp as [Hle|He]; [by rewrite (proj2 (Z.ltb_ge _ _) Hle)|]. rewrite bool_decide_eq_true_2 by done. by rewrite andb_false_r. }
    destruct (Z.eqb_spec (hf_modTime g) m), (Z.eqb_spec (hf_size g) s); cbn; try done. congruence. }
  assert (∀ m : string, default [] ((foldl host_line ∅ (ReadLines content) : gmap string (list Addr)) !! m) = hosts_of (ReadLines content) m) as Hl.
  { intros m. rewrite host_lines_lookup. by rewrite lookup_empty. }
  split; [intros Ho; unfold file_Lookup; rewrite (Hup f Ho); apply Hl|].
  intros now' name' Ho. unfold file_Lookup. rewrite (Hup f Ho). cbn [fst snd]. set (f' := mkFile _ _ _ _). split.
  - intros stat' content' Hnow Hne. unfold file_update at 1. cbn [hf_expire f'].
    assert (Z.ltb now' (now + cacheMaxAge) = true) as -> by (apply Z.ltb_lt; lia). rewrite bool_decide_eq_false_2 by done. apply Hl.
  - intros content'. unfold file_update. destruct (_ && _); [apply Hl|]. destruct stat as [m s]. cbn. rewrite !Z.eqb_refl. apply Hl.
Qed.

(** ** The hosts transport *)

(** [dns/transport/hosts/hosts.go:24-28] Transport *)
Record HostsTransport : Type := mkHostsTransport { ht_files : list File; ht_predefined : gmap string (list Addr) }.

(** A later entry of a name takes the place of an earlier one.

    [dns/transport/hosts/hosts.go:30-52] NewTransport *)
Definition NewHostsTransport (paths : nat) (predefined : list (string * list Addr)) : HostsTransport :=
  mkHostsTransport (replicate (if Nat.eqb paths 0 then 1 else paths) NewFile)
    (foldl (λ m e, <[dns_CanonicalName e.1 := e.2]> m) ∅ predefined).

(** What is known of each file, when and as it is looked at.

    [dns/transport/hosts/hosts.go:72-77] (Transport).Exchange (files) *)
Fixpoint lookup_files (now : Z) (domain : string) (files : list (File * res (Z * Z) * res string)) : list Addr * list File :=
  match files with
  | [] => ([], [])
  | (f, stat, content) :: files =>
      let '(addresses, f) := file_Lookup now stat content domain f in
      if nonempty addresses then (addresses, f :: ((λ x, x.1.1) <$> files))
      else let '(addresses, fs) := lookup_files now domain files in (addresses, f :: fs)
  end.

(** [disk] is, for each file, what the system says of it and its content.

    [dns/transport/hosts/hosts.go:65-87] (Transport).Exchange *)
Definition Hosts_Exchange (now : Z) (disk : list (res (Z * Z) * res string)) (message : Msg) (t : HostsTransport)
    : res Msg * HostsTransport :=
  match msg_Question message with
  | [] => (Panic [AStr "index out of range"], t)
  | question :: _ =>
      let domain := dns_CanonicalName (q_Name question) in
      let unknown := mkMsg (msg_Id message) true false false false RcodeNameError [question] [] [] [] in
      if Z.eqb (q_Qtype question) TypeA || Z.eqb (q_Qtype question) TypeAAAA then
        match ht_predefined t !! domain with
        | Some addresses => (Ok (FixedResponse (msg_Id message) question addresses 600), t)
        | None =>
            let '(addresses, files) := lookup_files now domain ((λ x, (x.1, x.2.1, x.2.2)) <$> zip (ht_files t) disk) in
            let t := mkHostsTransport files (ht_predefined t) in
            (Ok (if nonempty addresses then FixedResponse (msg_Id message) question addresses 600 else unknown), t)
        end
      else (Ok unknown, t)
  end.

(** ** The servers DHCP has given *)

Definition DHCPTTL : Z := 3600000000000.

(** [None] is the zero time.

    [dns/transport/dhcp/dhcp.go:42-57] Transport *)
Record DhcpTransport : Type := mkDhcpTransport {
  dt_updatedAt : option Z;
  dt_lastError : option error;
  dt_servers : list Socksaddr;
  dt_search : list string
}.
#[global] Instance DhcpTransport_settable : Settable DhcpTransport :=
  {| mkT t := mkDhcpTransport (dt_updatedAt t) (dt_lastError t) (dt_servers t) (dt_search t) |}.

Definition NewDhcpTransport : DhcpTransport := mkDhcpTransport None None [] [].

(** An offer: the domains of its search list and its domain name, and its servers. *)
Record Offer : Type := mkOffer { of_labels : list string; of_domain : string; of_servers : list Socksaddr }.

(** [dns/transport/dhcp/dhcp.go:295-310] (Transport).recreateServers *)
Definition recreateServers (o : Offer) (t : DhcpTransport) : DhcpTransport :=
  let t := if nonempty (of_labels o) then t <| dt_search := of_labels o |>
           else if negb (String.eqb (of_domain o) "") then t <| dt_search := [of_domain o] |> else t in
  t <| dt_servers := of_servers o |>.

Definition prepare_interface (err : error) : error := E_Cause err [AStr "dhcp: prepare interface"].
Definition empty_servers : error := E_New [AStr "dhcp: empty DNS servers response"].

(** What the update meets: an interface that cannot be had, an exchange that fails, or an offer. *)
Inductive Update : Type := NoInterface (err : error) | NoOffer (err : error) | Offered (o : Offer).

(** [dns/transport/dhcp/dhcp.go:183-204] (Transport).updateServers *)
Definition updateServers (now : Z) (u : Update) (t : DhcpTransport) : option error * DhcpTransport :=
  match u with
  | NoInterface err => (Some (prepare_interface err), t)
  | NoOffer err => (Some err, t <| dt_updatedAt := Some now |> <| dt_lastError := Some err |>)
  | Offered o =>
      let t := recreateServers o t <| dt_updatedAt := Some now |> in
      if nonempty (dt_servers t) then (None, t <| dt_lastError := None |>)
      else (Some empty_servers, t <| dt_lastError := Some empty_servers |>)
  end.

(** [dns/transport/dhcp/dhcp.go:111-116] (Transport).Reset *)
Definition Dhcp_Reset (t : DhcpTransport) : DhcpTransport := t <| dt_updatedAt := None |> <| dt_servers := [] |>.

(** Whether what is known is young enough. *)
Definition dhcp_fresh (now : Z) (t : DhcpTransport) : bool :=
  match dt_updatedAt t with Some updatedAt => Z.ltb (now - updatedAt) DHCPTTL | None => false end.

(** The servers, the error, and whether an update was made.

    [dns/transport/dhcp/dhcp.go:144-166] (Transport).fetch *)
Definition dhcp_fetch (now : Z) (u : Update) (t : DhcpTransport) : (list Socksaddr * option error) * bool * DhcpTransport :=
  match dt_lastError t with
  | Some lastError => (([], Some lastError), false, t)
  | None =>
      if dhcp_fresh now t then ((dt_servers t, None), false, t) else
      match updateServers now u t with
      | (Some err, t') => ((dt_servers t, Some err), true, t')
      | (None, t') => ((dt_servers t', None), true, t')
      end
  end.

(** [dns/transport/dhcp/dhcp.go:118-127] (Transport).Exchange *)
Definition dhcp_servers (now : Z) (u : Update) (t : DhcpTransport) : res (list Socksaddr) * DhcpTransport :=
  match dhcp_fetch now u t with
  | ((_, Some err), _, t) => (Err err, t)
  | ((servers, None), _, t) =>
      (if nonempty servers then Ok servers else Err (E_New [AStr "dhcp: empty DNS servers from response"]), t)
  end.

(** What happens to a transport: a query, a reset, or a callback of the interface. *)
Inductive dhcp_step : DhcpTransport → DhcpTransport → Prop :=
| dhcp_query now u t : dhcp_step t (dhcp_servers now u t).2
| dhcp_reset t : dhcp_step t (Dhcp_Reset t).

(** One exchange with the DHCP server that fails is the end of a transport on an interface with a name:
    the error is kept, every later query returns it without asking again, at any time and after any
    number of resets, and only a callback of the interface monitor, which such a transport does not have,
    would clear it. *)
Theorem dhcp_error_sticks now u t err t' t'' : dt_lastError t = None → dhcp_fresh now t = false →
  updateServers now u t = (Some err, t') → (∀ e, u ≠ NoInterface e) → rtc dhcp_step t' t'' →
  dhcp_servers now u t = (Err err, t') ∧ ∀ now' u', dhcp_servers now' u' t'' = (Err err, t'') ∧ (dhcp_fetch now' u' t'').1.2 = false.
Proof.
  intros Hl Hf Hu Hi Hr. split; [unfold dhcp_servers, dhcp_fetch; by rewrite Hl, Hf, Hu|].
  assert (dt_lastError t' = Some err) as Hlast.
  { destruct u as [e|e|o]; cbn in Hu; [by destruct (Hi e)|by injection Hu as <- <-|].
    destruct (nonempty _) in Hu; [done|]. by injection Hu as <- <-. }
  assert (dt_lastError t'' = Some err) as Hlast''.
  { clear Hu. induction Hr as [|t1 t2 t3 Hs _ IH]; [done|]. apply IH. destruct Hs as [now' u' t1|t1]; [|done].
    unfold dhcp_servers, dhcp_fetch. by rewrite Hlast. }
  intros now' u'. unfold dhcp_servers, dhcp_fetch. by rewrite Hlast''.
Qed.

(** An interface that cannot be had is not remembered: the next query tries again. *)
Lemma no_interface_retried now now' e u t : dt_lastError t = None → dhcp_fresh now t = false → dhcp_fresh now' t = false →
  (dhcp_servers now (NoInterface e) t).2 = t ∧ (dhcp_fetch now' u t).1.2 = true.
Proof.
  intros Hl Hf Hf'. unfold dhcp_servers, dhcp_fetch. rewrite Hl, Hf, Hf'. split; [done|]. cbn. by destruct (updateServers now' u t) as [[]].
Qed.

(** While the answer is young the servers that were offered are asked, and no update is made. *)
Lemma offer_kept now now' o u t : dt_lastError t = None → dhcp_fresh now t = false → of_servers o ≠ [] → now ≤ now' < now + DHCPTTL →
  let t' := (dhcp_servers now (Offered o) t).2 in dhcp_servers now' u t' = (Ok (of_servers o), t') ∧ (dhcp_fetch now' u t').1.2 = false.
Proof.
  intros Hl Hf Ho Hn. assert (∀ x, dt_servers (recreateServers o x) = of_servers o) as Hs.
  { intros x. unfold recreateServers. by repeat case_match. }
  assert (nonempty (of_servers o) = true) as Hne by (by destruct (of_servers o)).
  assert (updateServers now (Offered o) t = (None, recreateServers o t <| dt_updatedAt := Some now |> <| dt_lastError := None |>)) as Hu.
  { unfold updateServers. cbn [dt_servers]. change (dt_servers (recreateServers o t <|dt_updatedAt := Some now|>)) with (dt_servers (recreateServers o t)).
    by rewrite Hs, Hne. }
  set (t' := _ <| dt_lastError := None |>) in Hu.
  assert ((dhcp_servers now (Offered o) t).2 = t') as -> by (unfold dhcp_servers, dhcp_fetch; by rewrite Hl, Hf, Hu).
  unfold dhcp_servers, dhcp_fetch. assert (dhcp_fresh now' t' = true) as -> by (unfold dhcp_fresh; cbn; apply Z.ltb_lt; lia).
  assert (dt_servers t' = of_servers o) as -> by (apply (Hs t)). assert (dt_lastError t' = None) as -> by done. by rewrite Hne.
Qed.

End Resolvers.

(** ** Concrete files and answers *)

Section Examples.

#[local] Instance ex_lib : ExtLib := SampleLib.
#[local] Instance ex_actions : ActionLib := DNSSampleActions.
#[local] Instance ex_dns : DNSLib := SampleDNSLib.
#[local] Instance ex_local : LocalLib := {|
  unicode_Fields s := [s];
  dns_CanonicalName s := dns_Fqdn (string_map ascii_lower s);
  M_ParseSocksaddr s := mkSocksaddr AddrInvalid 53 s;
  defaultNS := ["127.0.0.1:53"; "[::1]:53"]%string;
  os_Hostname := Ok "host.lan.test"%string
|}.

Definition resolv_conf : string := "# servers
nameserver 1
nameserver two
nameserver 3
nameserver 4
nameserver 5
options ndots:20 attempts:0 timeout:7x rotate
search . a.test B.test."%string.


#[local] Instance conf_line_ok_dec l : Decision (conf_line_ok l).
Proof. destruct l; unfold conf_line_ok; apply _. Defined.


(** Three servers at most, numbers cut to their bounds, and no root in the search list. *)
Example resolv_conf_read : let c := dnsReadConfig (Ok (resolv_conf, 7)) in
  dc_servers c = ["1:53"; "3:53"; "4:53"]%string ∧ dc_search c = ["a.test."; "B.test."]%string ∧
  (dc_ndots c, dc_attempts c, dc_timeout c, dc_rotate c) = (15, 1, 7000000000, true).
Proof. by vm_compute. Qed.

(** The domain of the machine is searched when the file names none. *)
Example empty_resolv_conf : let c := dnsReadConfig (Ok (""%string, 7)) in
  (dc_servers c, dc_search c, nameList (dc_ndots c) (dc_search c) "a") = (defaultNS, ["lan.test."], ["a.lan.test."; "a."])%string.
Proof. by vm_compute. Qed.

(** The first two servers do not answer. *)
Definition ex_question : Question := mkQuestion "a.test." TypeA ClassINET.
Definition ex_message : Msg := mkMsg 9 false false true false 0 [ex_question] [] [] [].
Definition ex_reply : Msg := mkMsg 9 true false true true 0 [ex_question] [] [] [].
Definition ex_exchangeOne (server : Socksaddr) (question : Question) (asked : list string) : res Msg * list string :=
  (if String.eqb (sa_Fqdn server) "4:53" then Ok ex_reply else Err (E_Ext "i/o timeout"), asked ++ [sa_Fqdn server]).
Definition ex_config : dnsConfig := dnsReadConfig (Ok (resolv_conf, 7)).

Lemma tryOneName_asks_witness :
  1 ≤ dc_attempts ex_config ∧ is_u 32 (dc_soffset ex_config) ∧
  (tryOneName ex_exchangeOne ex_config "a.test." ex_message []).1.1 = Ok ex_reply ∧
  (tryOneName ex_exchangeOne ex_config "a.test." ex_message []).2 = ["1:53"; "3:53"; "4:53"]%string.
Proof.
  assert (1 ≤ dc_attempts ex_config) as Ha by (vm_compute; discriminate).
  assert (dc_servers ex_config ≠ []) as Hs by (vm_compute; discriminate).
  assert (is_u 32 (dc_soffset ex_config)) as Hu by (vm_compute; split; [discriminate|reflexivity]).
  assert (dc_soffset ex_config + Z.of_nat (length (dc_servers ex_config)) ≤ 2 ^ 32) as Hw by (vm_compute; discriminate).
  pose proof (tryOneName_asks ex_exchangeOne ex_config "a.test." ex_message ex_question [] [] eq_refl Ha Hs Hu Hw) as Ht.
  split; [exact Ha|]. split; [exact Hu|]. vm_compute in Ht. destruct Ht as (_ & _ & _). split; vm_compute; reflexivity.
Defined.

(** After four billion queries the turn wraps around, and with three servers one attempt asks the first
    of them twice and the last not at all. *)
Example turn_wraps : server_order 4294967295 ["a"; "b"; "c"]%string = ["a"; "a"; "b"]%string.
Proof. by vm_compute. Qed.

(** The local transport asks for a name with its final dot: no domain of the search list is tried. *)
Example search_list_unused : nameList 1 ["lan.test."]%string "printer." = ["printer."]%string.
Proof. reflexivity. Qed.

(** The domains that DHCP gives have no final dot, nor do the names made of them. *)
Example dhcp_search_without_dot : dhcp_nameList 1 ["lan.test"]%string "printer" = ["printer.lan.test"; "printer."]%string.
Proof. reflexivity. Qed.

(** A question of a type that is not an address, for a name of the network of onions: [nil] twice. *)
Example onion_nil : exchangeSingleRequest ex_exchangeOne ex_config ex_message "a.onion." [] = (Ok None, ex_config, []).
Proof. apply no_names. reflexivity. Qed.

Definition ex_hosts : string := "# test
1 Router.test router  # the router
2 nas.test
x bad.test
3 router"%string.

Lemma file_Lookup_hosts_witness :
  out_of_date 100 (5, 60) NewFile ∧ (file_Lookup 100 (Ok (5, 60)) (Ok ex_hosts) "ROUTER" NewFile).1 = [Addr4 1; Addr4 3].
Proof.
  assert (out_of_date 100 (5, 60) NewFile) as Ho by (split; [by right|done]). split; [exact Ho|].
  rewrite (proj1 (file_Lookup_hosts 100 (5, 60) ex_hosts "ROUTER" NewFile) Ho). vm_compute. reflexivity.
Defined.

(** A name of the hosts file that is asked for with another type does not exist, says the transport. *)
Example other_type_not_found :
  let t := NewHostsTransport 0 [("nas.test", [Addr4 2])]%string in
  let ask q := (Hosts_Exchange 100 [(Ok (5, 60), Ok ex_hosts)] (ex_message <| msg_Question := [mkQuestion "nas.test." q ClassINET] |>) t).1 in
  (msg_Rcode <$> match ask TypeA with Ok m => Some m | _ => None end, msg_Rcode <$> match ask TypeHTTPS with Ok m => Some m | _ => None end)
  = (Some RcodeSuccess, Some RcodeNameError).
Proof. by vm_compute. Qed.

Lemma dhcp_error_sticks_witness :
  let t := (updateServers 100 (NoOffer (E_Ext "i/o timeout")) NewDhcpTransport).2 in
  rtc dhcp_step t (Dhcp_Reset t) ∧
  dhcp_servers 999999999999999 (Offered (mkOffer [] "" [mkSocksaddr (Addr4 1) 53 ""])) (Dhcp_Reset t) = (Err (E_Ext "i/o timeout"), Dhcp_Reset t).
Proof.
  cbn zeta. set (t := (updateServers _ _ _).2). assert (rtc dhcp_step t (Dhcp_Reset t)) as Hr by (apply rtc_once; constructor).
  split; [exact Hr|].
  exact (proj1 (proj2 (dhcp_error_sticks 100 (NoOffer (E_Ext "i/o timeout")) NewDhcpTransport (E_Ext "i/o timeout") t (Dhcp_Reset t)
    eq_refl eq_refl eq_refl ltac:(discriminate) Hr) 999999999999999 (Offered (mkOffer [] "" [mkSocksaddr (Addr4 1) 53 ""])))).
Defined.

End Examples.
