(* ===== verification/DnsRouter.v ===== *)
(** * The DNS router (dns/router.go, dns/transport/fakeip/fakeip.go)

    A query is matched against the DNS rules; when the rule that is chosen has an address limit the
    client checks the answer with it, and a rejected answer sends the query on to the rules after
    it.  The router works over the interface [DNSClientI]. *)

From stdpp Require Import base gmap strings list numbers.
From S2P Require Import Prelude GoStd Netip Adapter SetItems AddrItems RuleAction RuleOptions.
From S2P Require Import RuleItem RuleMatch RuleSet Rules DnsRules DnsClient FakeIP.

Local Open Scope Z_scope.

Section DnsRouter.
Context `{ExtLib} `{ActionLib} `{!DNSLib} `{FreeLRU} {C : Type} `{!DNSClientI C}.

(** The router with its client and the addresses it has seen in answers.

    [dns/router.go:31-41] Router *)
Record DNSState : Type := mkDNSState {
  ds_router : DNSRouter;
  ds_client : C;
  ds_reverse : option (lru Addr string)
}.

Definition set_dns_rules (r : DNSRouter) (rules : list DNSRule) : DNSRouter :=
  mkDNSRouter rules (dq_transports r) (dq_default r) (dq_defaultDomainStrategy r).

(** [dns/router.go:43-74] NewRouter *)
Definition NewRouter (transports : gmap string DNSTransport) (defaultTransport : DNSTransport)
    (strategy : DomainStrategy) (reverseMapping : bool) (client : C) : DNSState :=
  mkDNSState (mkDNSRouter [] transports defaultTransport strategy) client
    (if reverseMapping then Some (lru_New Addr string 1024) else None).

(** [dns/router.go:76-85] (Router).Initialize *)
Definition Initialize (st : DNSState) (rules : list DNSRuleOptions) : res DNSState :=
  built ← mapi_res (λ i ruleOptions,
    wrap_err [AStr "parse dns rule["; AInt (Z.of_nat i); AStr "]"] (NewDNSRule ruleOptions true))
    rules;
  Ok (mkDNSState (set_dns_rules (ds_router st) (dq_rules (ds_router st) ++ built)) (ds_client st)
        (ds_reverse st)).

(** ** The query of a rule *)

(** The checker of a rule: it leaves the addresses of the answer in the metadata, and does not
    reset the rule cache.

    [dns/router.go:277-280] (Router).Exchange (responseCheck) *)
Definition address_check (env : Env) (sets : RuleSets) (rule : DNSRule)
    (responseAddrs : list Addr) (metadata : InboundContext) : bool * InboundContext :=
  MatchAddressLimit env sets rule (metadata <| ic_DestinationAddresses := responseAddrs |>).

(** [dns/router.go:275-281] (Router).Exchange (responseCheck) *)
Definition response_check (env : Env) (sets : RuleSets) (rule : option DNSRule)
    : option (list Addr → InboundContext → bool * InboundContext) :=
  match rule with
  | Some rule => if WithAddressLimit sets rule then Some (address_check env sets rule) else None
  | None => None
  end.

(** [dns/router.go:282-284] (Router).Exchange (strategy) *)
Definition default_strategy (r : DNSRouter) (options : DNSQueryOptions) : DNSQueryOptions :=
  if decide (qo_Strategy options = DomainStrategyAsIS)
  then mkDNSQueryOptions (qo_Transport options) (dq_defaultDomainStrategy r)
         (qo_LookupStrategy options) (qo_DisableCache options) (qo_RewriteTTL options)
         (qo_ClientSubnet options)
  else options.

(** *** The loop over the rules

    [Exchange] and [Lookup] have the same loop: match, answer if the rule answers by itself, ask
    the client, and go on after the rule if its answer is to be tried again. *)
Section Loop.
Context (env : Env) (sets : RuleSets) (r : DNSRouter) (allowFakeIP addressQuery : bool).
Context {S R : Type}.
Context (own : DNSRule → Z → S → option (R * S)).
Context (ask : option DNSTransport → DNSQueryOptions →
  option (list Addr → InboundContext → bool * InboundContext) → InboundContext → S →
  R * InboundContext * S).
Context (again : R → bool).
Context (options : DNSQueryOptions).

(** One turn: the result, and whether the loop goes on after the rule that was chosen.

    [dns/router.go:252-303] (Router).Exchange (loop body) *)
Definition query_turn (ch : DNSChoice) (dnsOptions : DNSQueryOptions) (metadata : InboundContext)
    (s : S) : R * bool * InboundContext * S :=
  match ch_rule ch ≫= λ rule, own rule (ch_index ch) s with
  | Some (result, s) => (result, false, metadata, s)
  | None =>
      let responseCheck := response_check env sets (ch_rule ch) in
      let '(result, metadata, s) :=
        ask (ch_transport ch) (default_strategy r dnsOptions) responseCheck metadata s in
      (result, negb (is_nil responseCheck) && again result, metadata, s)
  end.

(** [dns/router.go:250-304] (Router).Exchange (loop) *)
Fixpoint query_loop (fuel : nat) (ruleIndex : Z) (metadata : InboundContext) (s : S)
    : option (R * S) :=
  match fuel with
  | O => None
  | Datatypes.S fuel =>
      let '(ch, dnsOptions, metadata) :=
        matchDNS env sets r allowFakeIP ruleIndex addressQuery metadata options in
      let '(result, continue, metadata, s) := query_turn ch dnsOptions metadata s in
      if (continue : bool) then query_loop fuel (ch_index ch) metadata s else Some (result, s)
  end.

(** The reference: a single pass over the rules.  A rule that does not select passes the query on
    with the options gathered so far; a rule whose answer is tried again passes it on with the
    options of the query. *)
Fixpoint query_pass (rules : list DNSRule) (i : Z) (metadata : InboundContext)
    (dnsOptions : DNSQueryOptions) (s : S) : R * S :=
  match rules with
  | [] =>
      let '(result, _, _, s) :=
        query_turn (mkDNSChoice (Some (dq_default r)) None (-1)) dnsOptions metadata s in
      (result, s)
  | rule :: rules' =>
      let next := query_pass rules' (i + 1) in
      if WithAddressLimit sets rule && negb addressQuery then next metadata dnsOptions s else
      let '(matched, metadata) := DNSRule_Match env sets rule (ResetRuleCache metadata) in
      if negb matched then next metadata dnsOptions s else
      let select transport dnsOptions :=
        let '(result, continue, metadata, s) :=
          query_turn (mkDNSChoice transport (Some rule) i) dnsOptions metadata s in
        if (continue : bool) then next metadata options s else (result, s) in
      match tree_action rule with
      | Some (RuleActionDNSRoute server o) =>
          match dns_route (dq_transports r) allowFakeIP server with
          | None => next metadata dnsOptions s
          | Some (transport, isFakeIP) =>
              select (Some transport) (apply_legacy transport (apply_dns_options isFakeIP o dnsOptions))
          end
      | Some (RA_DNSRouteOptions o) => next metadata (apply_dns_options false o dnsOptions) s
      | Some (RA_Reject _) | Some (RA_Predefined _) => select None dnsOptions
      | _ => next metadata dnsOptions s
      end
  end.

(** What follows from a choice is what the pass does from there. *)
Definition after_choice (rules : list DNSRule) (i : Z)
    (choice : DNSChoice * DNSQueryOptions * InboundContext) (s : S) : R * S :=
  let '(ch, dnsOptions, metadata) := choice in
  let '(result, continue, metadata, s) := query_turn ch dnsOptions metadata s in
  if (continue : bool)
  then query_pass (drop (Z.to_nat (ch_index ch + 1 - i)) rules) (ch_index ch + 1) metadata options s
  else (result, s).

Lemma after_choice_shift rule rules i choice s :
  (ch_rule choice.1.1 = None ∨ i + 1 ≤ ch_index choice.1.1) →
  after_choice (rule :: rules) i choice s = after_choice rules (i + 1) choice s.
Proof.
  destruct choice as [[ch o] m]; cbn. intros Hi. unfold query_turn.
  destruct (ch_rule ch ≫= _) as [[]|]; [done|]. destruct (ask _ _ _ _ _) as [[res m'] s'].
  destruct Hi as [->|Hi]; [done|]. destruct (_ && _); [|done].
  replace (Z.to_nat (ch_index ch + 1 - i)) with (Datatypes.S (Z.to_nat (ch_index ch + 1 - (i + 1))))
    by lia. done.
Qed.

Lemma matchDNS_from_index rules i metadata dnsOptions :
  let ch := (matchDNS_from env sets r allowFakeIP addressQuery rules i metadata dnsOptions).1.1 in
  ch_rule ch = None ∨ i ≤ ch_index ch < i + Z.of_nat (length rules).
Proof.
  revert i metadata dnsOptions. induction rules as [|rule rules IH]; intros i m o; [by left|].
  assert (∀ m o, let ch := (matchDNS_from env sets r allowFakeIP addressQuery rules (i + 1) m o).1.1 in
    ch_rule ch = None ∨ i ≤ ch_index ch < i + Z.of_nat (length (rule :: rules))) as Hnext.
  { intros m1 o1. destruct (IH (i + 1) m1 o1) as [|]; [by left|right; cbn [length]; lia]. }
  assert (i ≤ i < i + Z.of_nat (length (rule :: rules))) as Hhere by (cbn [length]; lia).
  cbn [matchDNS_from]. destruct (_ && _); [apply Hnext|].
  destruct (DNSRule_Match _ _ _ _) as [[] m1]; cbn [negb]; [|apply Hnext].
  destruct (tree_action rule) as [[]|]; try apply Hnext; try (by right).
  destruct (dns_route _ _ _) as [[]|]; [by right|apply Hnext].
Qed.

Lemma query_pass_choice rules i metadata dnsOptions s :
  query_pass rules i metadata dnsOptions s =
  after_choice rules i
    (matchDNS_from env sets r allowFakeIP addressQuery rules i metadata dnsOptions) s.
Proof.
  revert i metadata dnsOptions s. induction rules as [|rule rules IH]; intros i m o s.
  { cbn. unfold query_turn. cbn. destruct (ask _ _ _ _ _) as [[res m'] s']. done. }
  assert (∀ m o s, query_pass rules (i + 1) m o s = after_choice (rule :: rules) i
    (matchDNS_from env sets r allowFakeIP addressQuery rules (i + 1) m o) s) as Hnext.
  { intros m1 o1 s1. rewrite after_choice_shift, IH; [done|].
    destruct (matchDNS_from_index rules (i + 1) m1 o1) as [|[]]; auto. }
  assert (∀ t o m s, (let '(result, continue, metadata, s) :=
      query_turn (mkDNSChoice t (Some rule) i) o m s in
    if (continue : bool) then query_pass rules (i + 1) metadata options s else (result, s))
    = after_choice (rule :: rules) i (mkDNSChoice t (Some rule) i, o, m) s) as Hhere.
  { intros t o1 m1 s1. cbn. destruct (query_turn _ _ _ _) as [[[res b] m2] s2].
    replace (i + 1 - i) with 1 by lia. by destruct b. }
  cbn [query_pass matchDNS_from]. destruct (_ && _); [apply Hnext|].
  destruct (DNSRule_Match _ _ _ _) as [[] m1]; cbn [negb]; [|apply Hnext].
  destruct (tree_action rule) as [[]|]; try apply Hnext; try apply Hhere.
  destruct (dns_route _ _ _) as [[]|]; [apply Hhere|apply Hnext].
Qed.

(** The loop comes to an end, and is the pass over the rules after the index it starts from. *)
Lemma query_loop_pass fuel ruleIndex metadata s :
  -1 ≤ ruleIndex →
  (length (drop (Z.to_nat (ruleIndex + 1)) (dq_rules r)) < fuel)%nat →
  query_loop fuel ruleIndex metadata s =
  Some (query_pass (drop (Z.to_nat (ruleIndex + 1)) (dq_rules r)) (ruleIndex + 1) metadata options s).
Proof.
  revert ruleIndex metadata s. induction fuel as [|fuel IH]; intros i m s Hi Hf; [lia|].
  rewrite query_pass_choice. cbn [query_loop]. unfold matchDNS.
  replace (if Z.eqb i (-1) then 0 else i + 1) with (i + 1)
    by (destruct (Z.eqb_spec i (-1)); lia).
  set (rules := drop _ _) in *.
  pose proof (matchDNS_from_index rules (i + 1) m options) as Hch. cbn zeta in Hch.
  destruct (matchDNS_from _ _ _ _ _ rules _ _ _) as [[ch o] m1]; cbn [fst after_choice] in *.
  destruct (query_turn ch o m1 s) as [[[res b] m2] s2] eqn:Hturn. destruct b; [|done].
  destruct Hch as [Hnone|Hch].
  { unfold query_turn in Hturn. rewrite Hnone in Hturn. cbn in Hturn.
    destruct (ask _ _ _ _ _) as [[]]. simplify_eq. }
  rewrite IH; [|lia|].
  - do 2 f_equal. unfold rules. rewrite drop_drop. f_equal. lia.
  - unfold rules in *. rewrite !length_drop in *. lia.
Qed.

End Loop.

(** ** Exchange *)

(** [dns/router.go:422-429] isAddressQuery *)
Definition isAddressQuery (message : Msg) : bool :=
  existsb (λ question, Z.eqb (q_Qtype question) TypeA || Z.eqb (q_Qtype question) TypeAAAA ||
                       Z.eqb (q_Qtype question) TypeHTTPS) (msg_Question message).

(** The answer of the router itself to a message.

    [dns/router.go:203-212] (Router).Exchange (bad question size) *)
Definition status_response (message : Msg) (rcode : Z) (questions : list Question) : Msg :=
  mkMsg (msg_Id message) true false false false rcode questions [] [] [].

(** The metadata of a query: that of the connection it comes from, for the name it asks.

    [dns/router.go:220-230] (Router).Exchange (metadata) *)
Definition exchange_metadata (question : Question) (metadata : InboundContext) : InboundContext :=
  let metadata := metadata <| ic_Destination := Socksaddr_zero |>
                    <| ic_QueryType := q_Qtype question |> in
  let metadata := if Z.eqb (q_Qtype question) TypeA then metadata <| ic_IPVersion := 4 |> else
                  if Z.eqb (q_Qtype question) TypeAAAA then metadata <| ic_IPVersion := 6 |>
                  else metadata in
  metadata <| ic_Domain := FqdnToDomain (q_Name question) |>.

(** A result of [Exchange]: given at once, or by the client through a transport. *)
Inductive Exchanged : Type :=
| Returned (r : res Msg)
| Answered (transport : option DNSTransport) (r : res Msg).

(** A rule that answers by itself; the [reply] method of [reject] has no case.

    [dns/router.go:255-274] (Router).Exchange (reject, predefined) *)
Definition exchange_own (message : Msg) (question : Question) (rule : DNSRule) (i : Z)
    (st : DNSState) : option (Exchanged * DNSState) :=
  match tree_action rule with
  | Some (RA_Reject a) =>
      if String.eqb (aj_Method a) "default"
      then Some (Returned (Ok (status_response message RcodeRefused [question])), st) else
      if String.eqb (aj_Method a) "drop" then Some (Returned (Err ErrDrop), st) else None
  | Some (RA_Predefined p) => Some (Returned (RuleActionPredefined_Response p message), st)
  | _ => None
  end.

(** [dns/router.go:285] (Router).Exchange (client) *)
Definition exchange_ask (contextTransport : option string) (message : Msg)
    (transport : option DNSTransport) (options : DNSQueryOptions)
    (responseCheck : option (list Addr → InboundContext → bool * InboundContext))
    (metadata : InboundContext) (st : DNSState) : Exchanged * InboundContext * DNSState :=
  let '(response, client, metadata) :=
    client_Exchange contextTransport transport message options responseCheck (ds_client st) metadata in
  (Answered transport response, metadata, mkDNSState (ds_router st) client (ds_reverse st)).

(** [dns/router.go:286-302] (Router).Exchange (rejected) *)
Definition exchange_again (r : Exchanged) : bool :=
  match r with
  | Answered _ (Err err) =>
      errors_Is err ErrResponseRejectedCached || errors_Is err ErrResponseRejected
  | _ => false
  end.

(** [dns/router.go:311-318] (Router).Exchange (reverse mapping, one answer) *)
Definition remember_answer (now : Z) (l : lru Addr string) (answer : RR) : lru Addr string :=
  match RR_data answer with
  | RR_A address | RR_AAAA address =>
      lru_AddWithLifetime now address (FqdnToDomain (Hdr_Name (RR_Hdr answer)))
        (RR_Ttl answer * time_Second) l
  | _ => l
  end.

(** [dns/router.go:309-320] (Router).Exchange (reverse mapping) *)
Definition remember_answers (now : Z) (transport : option DNSTransport) (response : Msg)
    (st : DNSState) : DNSState :=
  if match transport with Some t => String.eqb (dt_Type t) "fakeip" | None => false end then st else
  mkDNSState (ds_router st) (ds_client st)
    ((λ l, fold_left (remember_answer now) (msg_Answer response) l) <$> ds_reverse st).

(** [dns/router.go:306-321] (Router).Exchange (response) *)
Definition exchange_return (now : Z) (r : Exchanged) (st : DNSState) : res Msg * DNSState :=
  match r with
  | Returned r => (r, st)
  | Answered transport (Ok response) => (Ok response, remember_answers now transport response st)
  | Answered _ r => (r, st)
  end.

(** The options of a query whose transport is given.

    [dns/router.go:231-244] (Router).Exchange (transport) *)
Definition exchange_options (r : DNSRouter) (transport : DNSTransport) (options : DNSQueryOptions)
    : DNSQueryOptions := default_strategy r (apply_legacy transport options).

(** Enough turns for the loop: one for each rule, and one for the default transport. *)
Definition query_fuel (r : DNSRouter) : nat := S (length (dq_rules r)).

(** [dns/router.go:201-322] (Router).Exchange *)
Definition Router_Exchange (env : Env) (sets : RuleSets) (now : Z) (contextTransport : option string)
    (metadata : InboundContext) (message : Msg) (options : DNSQueryOptions) (st : DNSState)
    : option (res Msg * DNSState) :=
  match msg_Question message with
  | [question] =>
      let metadata := exchange_metadata question metadata in
      match qo_Transport options with
      | Some transport =>
          let '(r, _, st) := exchange_ask contextTransport message (Some transport)
            (exchange_options (ds_router st) transport options) None metadata st in
          Some (exchange_return now r st)
      | None =>
          '(r, st) ← query_loop env sets (ds_router st) true (isAddressQuery message)
            (exchange_own message question) (exchange_ask contextTransport message) exchange_again
            options (query_fuel (ds_router st)) (-1) metadata st;
          Some (exchange_return now r st)
      end
  | questions => Some (Ok (status_response message RcodeFormatError questions), st)
  end.

(** ** Lookup *)

(** A result of [Lookup]: returned as it is, or through [printResult]. *)
Inductive LookedUp : Type :=
| Final (r : res (list Addr))
| Found (r : res (list Addr)).

(** [dns/router.go:329-345] (Router).Lookup (printResult) *)
Definition printResult (domain : string) (r : res (list Addr)) : res (list Addr) :=
  match r with
  | Ok [] => Err (E_Cause (E_New [AStr "empty result"]) [AStr "lookup "; AStr domain])
  | Err err => Err (E_Cause err [AStr "lookup "; AStr domain])
  | r => r
  end.

Definition set_reject (i : Z) (rule : DNSRule) (a : RuleActionReject) (st : DNSState) : DNSState :=
  mkDNSState (set_dns_rules (ds_router st)
      (<[Z.to_nat i := set_action (RA_Reject a) rule]> (dq_rules (ds_router st))))
    (ds_client st) (ds_reverse st).

(** [dns/router.go:379-393] (Router).Lookup (predefined) *)
Definition predefined_addresses (p : RuleActionPredefined) : res (list Addr) :=
  if negb (Z.eqb (ap_Rcode p) RcodeSuccess) then Err (RcodeError (ap_Rcode p)) else
  Ok (ap_Answer p ≫= λ answer,
    match RR_data answer with RR_A address | RR_AAAA address => [address] | _ => [] end).

(** [dns/router.go:375-396] (Router).Lookup (reject, predefined) *)
Definition lookup_own (now : Z) (rule : DNSRule) (i : Z) (st : DNSState)
    : option (LookedUp * DNSState) :=
  match tree_action rule with
  | Some (RA_Reject a) =>
      Some (match RuleActionReject_Error now a with
            | Ok (Some err, a) => (Final (Err (RejectedError err)), set_reject i rule a st)
            | Ok (None, a) => (Final (Err RejectedError_nil), set_reject i rule a st)
            | Err err => (Final (Err err), st)
            | Panic p => (Final (Panic p), st)
            end)
  | Some (RA_Predefined p) => Some (Found (predefined_addresses p), st)
  | _ => None
  end.

(** [dns/router.go:407] (Router).Lookup (client) *)
Definition lookup_ask (contextTransport : option string) (domain : string)
    (transport : option DNSTransport) (options : DNSQueryOptions)
    (responseCheck : option (list Addr → InboundContext → bool * InboundContext))
    (metadata : InboundContext) (st : DNSState) : LookedUp * InboundContext * DNSState :=
  let '(r, client, metadata) :=
    client_Lookup contextTransport transport domain options responseCheck (ds_client st) metadata in
  (Found r, metadata, mkDNSState (ds_router st) client (ds_reverse st)).

(** Any error sends a lookup on, not only a rejected answer.

    [dns/router.go:408-411] (Router).Lookup (retry) *)
Definition lookup_again (r : LookedUp) : bool :=
  match r with Found (Err _) => true | _ => false end.

Definition lookup_return (domain : string) (r : LookedUp) : res (list Addr) :=
  match r with Final r => r | Found r => printResult domain r end.

(** The strategy of a legacy transport is not used here.

    [dns/router.go:350-362] (Router).Lookup (transport) *)
Definition lookup_options (r : DNSRouter) (transport : DNSTransport) (options : DNSQueryOptions)
    : DNSQueryOptions :=
  let options := default_strategy r options in
  match dt_Legacy transport with
  | Some (_, subnet) =>
      if negb (Prefix_IsValid (qo_ClientSubnet options))
      then mkDNSQueryOptions (qo_Transport options) (qo_Strategy options)
             (qo_LookupStrategy options) (qo_DisableCache options) (qo_RewriteTTL options) subnet
      else options
  | None => options
  end.

(** [dns/router.go:347-349] (Router).Lookup (metadata) *)
Definition lookup_metadata (domain : string) (metadata : InboundContext) : InboundContext :=
  metadata <| ic_Destination := Socksaddr_zero |> <| ic_Domain := FqdnToDomain domain |>.

(** [dns/router.go:324-420] (Router).Lookup *)
Definition Router_Lookup (env : Env) (sets : RuleSets) (now : Z) (contextTransport : option string)
    (metadata : InboundContext) (domain : string) (options : DNSQueryOptions) (st : DNSState)
    : option (res (list Addr) * DNSState) :=
  let metadata := lookup_metadata domain metadata in
  match qo_Transport options with
  | Some transport =>
      let '(r, _, st) := lookup_ask contextTransport domain (Some transport)
        (lookup_options (ds_router st) transport options) None metadata st in
      Some (lookup_return domain r, st)
  | None =>
      '(r, st) ← query_loop env sets (ds_router st) false true (lookup_own now)
        (lookup_ask contextTransport domain) lookup_again options (query_fuel (ds_router st)) (-1)
        metadata st;
      Some (lookup_return domain r, st)
  end.

(** [dns/router.go:431-436] (Router).ClearCache *)
Definition Router_ClearCache (st : DNSState) : DNSState :=
  mkDNSState (ds_router st) (client_ClearCache (ds_client st)) (ds_reverse st).

(** [dns/router.go:438-444] (Router).LookupReverseMapping *)
Definition Router_LookupReverseMapping (now : Z) (ip : Addr) (st : DNSState)
    : option string * DNSState :=
  match ds_reverse st with
  | None => (None, st)
  | Some l => let '(domain, l) := lru_Get now ip l in
              (domain, mkDNSState (ds_router st) (ds_client st) (Some l))
  end.

End DnsRouter.

(** ** Theorems *)

(** Unfold a query into the pass over the rules. *)
Ltac exchange_pass Hq Ht :=
  unfold Router_Exchange; rewrite Hq, Ht;
  rewrite query_loop_pass by (unfold query_fuel; rewrite ?length_drop; lia);
  change (drop (Z.to_nat (-1 + 1)) ?l) with l; change (-1 + 1) with 0; cbn [mbind option_bind].

Section RouterTheorems.
Context `{ExtLib} `{ActionLib} `{!DNSLib} `{FreeLRU} {C : Type} `{!DNSClientI C}.

(** C16: the DNS router always comes to an answer to a message with one question, unless the caller names
    the transport itself, and it is that of a single pass over its rules: each rule that matches and selects is asked in turn, with the
    options the rules before it set since the last one that was asked, until one answers by itself
    or with a response that is not rejected; after the last rule it is the default transport. *)
Theorem Exchange_single_pass env sets now ctx metadata message question options (st : DNSState) :
  msg_Question message = [question] → qo_Transport options = None →
  Router_Exchange env sets now ctx metadata message options st =
  let '(r, st') :=
    query_pass env sets (ds_router st) true (isAddressQuery message)
      (exchange_own message question) (exchange_ask ctx message) exchange_again options
      (dq_rules (ds_router st)) 0 (exchange_metadata question metadata) options st in
  Some (exchange_return now r st').
Proof.
  intros Hq Ht. exchange_pass Hq Ht.
  by destruct (query_pass _ _ _ _ _ _ _ _ _ _ _ _ _ _).
Qed.

(** A lookup always comes to an answer, and it is that of a single pass over the rules, in
    which any error of a rule with an address limit, and not only a rejected answer, passes the
    lookup on to the rules after it. *)
Theorem Lookup_single_pass env sets now ctx metadata domain options (st : DNSState) :
  qo_Transport options = None →
  Router_Lookup env sets now ctx metadata domain options st =
  let '(r, st') :=
    query_pass env sets (ds_router st) false true (lookup_own now) (lookup_ask ctx domain)
      lookup_again options (dq_rules (ds_router st)) 0 (lookup_metadata domain metadata) options st in
  Some (lookup_return domain r, st').
Proof.
  intros Ht. unfold Router_Lookup. rewrite Ht.
  rewrite query_loop_pass by (unfold query_fuel; rewrite ?length_drop; lia). cbn.
  by destruct (query_pass _ _ _ _ _ _ _ _ _ _ _ _ _ _).
Qed.

(** The address limit of a rule checks only the first answer of a lookup: once the checker of
    a default rule accepted an answer it accepts every other one, whatever its addresses are,
    because it does not reset the rule cache.  A lookup of both address families calls it twice. *)
Theorem address_check_sticky env sets (r : DefaultDNSRule) a1 a2 metadata metadata1 :
  (∀ it, it ∈ group_items r → is_basic it = true) →
  (∀ it c a, it ∈ items r →
     basic_denotes env it (c <| ic_DestinationAddresses := a |>) = basic_denotes env it c) →
  invert r = false →
  address_check env sets (TDefault r) a1 metadata = (true, metadata1) →
  (address_check env sets (TDefault r) a2 metadata1).1 = true.
Proof.
  intros Hb Hg Hinv. unfold address_check, MatchAddressLimit. cbn [tree_match].
  assert (∀ c, abstractDefaultRule_Match (RouteItem_Match env sets) r c
    = abstractDefaultRule_Match (pure_match (basic_denotes env)) r c) as Hpure.
  { intros c. apply abstractDefaultRule_Match_ext. intros it c2 Hit%Hb. by destruct it. }
  rewrite !Hpure. intros Hm. eapply matched_again; [| |exact Hm|done|].
  - intros [it|] c1 c2 Hc; [by apply BasicItem_Match_ext|done].
  - done.
  - intros it Hit. by apply Hg.
Qed.

(** Options that a [route-options] rule sets are lost when the rule after it is asked and its answer
    rejected: the next rule is asked with the options of the query and its own. *)
Theorem route_options_lost env sets now ctx metadata message question options (st : DNSState)
    ro oo ra sa oa rb sb ob ta tb :
  msg_Question message = [question] → qo_Transport options = None →
  isAddressQuery message = true →
  dq_rules (ds_router st) = [ro; ra; rb] →
  (∀ rule c, rule ∈ [ro; ra; rb] → (DNSRule_Match env sets rule c).1 = true) →
  tree_action ro = Some (RA_DNSRouteOptions oo) →
  tree_action ra = Some (RuleActionDNSRoute sa oa) → WithAddressLimit sets ra = true →
  tree_action rb = Some (RuleActionDNSRoute sb ob) →
  dns_route (dq_transports (ds_router st)) true sa = Some (ta, false) →
  dns_route (dq_transports (ds_router st)) true sb = Some (tb, false) →
  (∀ o check c m, (client_Exchange ctx (Some ta) message o check c m).1.1 = Err ErrResponseRejected) →
  (∀ o check c m e, (client_Exchange ctx (Some tb) message o check c m).1.1 = Err e →
     errors_Is e ErrResponseRejectedCached || errors_Is e ErrResponseRejected = false) →
  ∃ check c m st', Router_Exchange env sets now ctx metadata message options st
    = Some ((client_Exchange ctx (Some tb) message
               (default_strategy (ds_router st)
                  (apply_legacy tb (apply_dns_options false ob options))) check c m).1.1, st').
Proof.
  intros Hq Ht Haddr Hrules Hmatch Ho Ha Hlim Hb Hra Hrb Hta Htb.
  exchange_pass Hq Ht. rewrite Hrules, Haddr.
  assert (∀ rule c, rule ∈ [ro; ra; rb] → ∃ c', DNSRule_Match env sets rule c = (true, c')) as Hm.
  { intros rule c Hin. pose proof (Hmatch rule c Hin). destruct (DNSRule_Match env sets rule c).
    cbn in *. subst. eauto. }
  cbn [query_pass]. rewrite !andb_false_r.
  destruct (Hm ro (ResetRuleCache (exchange_metadata question metadata))) as [c1 E1]; [set_solver|].
  rewrite E1. cbn [negb]. rewrite Ho.
  destruct (Hm ra (ResetRuleCache c1)) as [c2 E2]; [set_solver|].
  rewrite E2. cbn [negb]. rewrite Ha, Hra. unfold query_turn at 1. cbn [ch_rule ch_index ch_transport].
  change (Some ra ≫= ?f) with (f ra). unfold exchange_own at 1. rewrite Ha. cbn [response_check].
  rewrite Hlim. unfold exchange_ask at 1.
  match goal with |- context [client_Exchange ?a ?b ?c ?d ?e ?f ?g] =>
    pose proof (Hta d e f g) as E3; destruct (client_Exchange a b c d e f g) as [[r1 cl1] m1] end.
  cbn in E3. subst r1. cbn [negb is_nil andb exchange_again].
  replace (errors_Is ErrResponseRejected _ || _) with true by reflexivity.
  destruct (Hm rb (ResetRuleCache m1)) as [c3 E4]; [set_solver|].
  rewrite E4. cbn [negb]. rewrite Hb, Hrb. unfold query_turn at 1. cbn [ch_rule ch_index ch_transport].
  change (Some rb ≫= ?f) with (f rb). unfold exchange_own at 1. rewrite Hb.
  unfold exchange_ask at 1. cbn [ds_client].
  match goal with |- context [client_Exchange ?a ?b ?c ?d ?e ?f ?g] =>
    pose proof (Htb d e f g) as E5; exists e, f, g;
    destruct (client_Exchange a b c d e f g) as [[r2 cl2] m2] end.
  cbn [fst] in E5 |- *. destruct r2 as [resp|e|p].
  - rewrite andb_false_r. eexists. reflexivity.
  - cbn [exchange_again]. rewrite (E5 e eq_refl), andb_false_r. eexists. reflexivity.
  - rewrite andb_false_r. eexists. reflexivity.
Qed.

End RouterTheorems.

(** ** The fake IP transport *)

Section FakeIPTransport.
Context `{ExtLib} `{ActionLib} `{!DNSLib} {S : Type} `{FakeIPStorageLaws S}.

(** [constant/dns.go:4] DefaultDNSTTL *)
Definition DefaultDNSTTL : Z := 600.

(** [dns/transport/fakeip/fakeip.go:53-63] (Transport).Exchange *)
Definition FakeIPTransport_Exchange (message : Msg) (store : Store S) : res Msg * Store S :=
  match msg_Question message with
  | [] => (Panic [AStr "index out of range"], store)
  | question :: _ =>
      if negb (Z.eqb (q_Qtype question) TypeA) && negb (Z.eqb (q_Qtype question) TypeAAAA)
      then (Err (E_New [AStr "only IP queries are supported by fakeip"]), store) else
      match Store_Create (FqdnToDomain (q_Name question))
              (Z.eqb (q_Qtype question) TypeAAAA) store with
      | (Ok address, store) =>
          (Ok (FixedResponse (msg_Id message) question [address] DefaultDNSTTL), store)
      | (Err err, store) => (Err err, store)
      | (Panic p, store) => (Panic p, store)
      end
  end.

(** What the fake IP transport answers is one address, which the store contains from then on
    and looks up as the domain that was asked for; the same question gets the same address. *)
Theorem fakeip_answer message question (store store' : Store S) response :
  store_ok store → msg_Question message = [question] →
  FakeIPTransport_Exchange message store = (Ok response, store') →
  ∃ a, MessageToAddresses response = [a] ∧ store_ok store' ∧ Store_Contains store' a = true ∧
    Store_Lookup store' a = Ok (Some (FqdnToDomain (q_Name question))) ∧
    FakeIPTransport_Exchange message store' = (Ok response, store').
Proof.
  intros Hok Hq. unfold FakeIPTransport_Exchange. rewrite Hq.
  destruct (negb (Z.eqb (q_Qtype question) TypeA) && _) eqn:Htype; [done|].
  destruct (Store_Create _ _ store) as [[a| |] s] eqn:Hc; intros [= <- <-].
  destruct (Store_Create_spec _ _ _ _ _ Hok Hc) as (Hok' & H4 & Hin & Hl & Hagain & _).
  exists a. split; [|rewrite Hagain; done].
  unfold MessageToAddresses, FixedResponse, address_record. cbn [msg_Rcode msg_Answer].
  rewrite Z.eqb_refl. cbn [negb mbind list_bind app]. rewrite H4, app_nil_r.
  destruct (Z.eqb_spec (q_Qtype question) TypeAAAA) as [E|E]; cbn [negb andb].
  - assert (Addr_Is6 a = true) as ->.
    { unfold Store_Contains in Hin.
      apply orb_true_iff in Hin as [Hin|Hin]; apply Prefix_Contains_valid in Hin;
        clear Hc Hl Hagain; by destruct a. }
    cbn [andb]. cbn [mbind list_bind]. unfold answer_addresses. by rewrite RR_data_new.
  - cbn [negb] in Htype. rewrite andb_true_r in Htype.
    apply negb_false_iff in Htype. rewrite Htype. cbn [mbind list_bind].
    unfold answer_addresses. by rewrite RR_data_new.
Qed.

End FakeIPTransport.

(** The [reply] method of a [reject] rule, on the client of dns/client.go. *)
Section RejectReply.
Context `{ExtLib} `{ActionLib} `{!DNSLib} `{FreeLRU} {W : Type} `{!DNSWorld W}.

(** A DNS rule that rejects with the method [reply] is not answered: the client is called without a
    transport and panics when it has no cached response to give. *)
Theorem reject_reply_panics env sets now ctx metadata message question options
    (st : DNSState (C := Client * W)) rule rules a simple :
  msg_Question message = [question] → qo_Transport options = None →
  dq_rules (ds_router st) = rule :: rules →
  (∀ c, (DNSRule_Match env sets rule c).1 = true) → WithAddressLimit sets rule = false →
  tree_action rule = Some (RA_Reject a) → aj_Method a = "reply"%string →
  c_disableCache (ds_client st).1 = true →
  (∀ o, strategy_rejected question o = false) →
  (∀ c m o, isSimpleRequest (with_client_subnet c o m) o = Ok simple) →
  ∃ st', Router_Exchange env sets now ctx metadata message options st = Some (nil_dereference, st').
Proof.
  intros Hq Ht Hrules Hmatch Hlim Ha Hreply Hcache Hstrat Hsimple.
  exchange_pass Hq Ht. rewrite Hrules. cbn [query_pass]. rewrite Hlim.
  cbn [andb]. pose proof (Hmatch (ResetRuleCache (exchange_metadata question metadata))) as Hm.
  destruct (DNSRule_Match _ _ _ _) as [b m1]. cbn in Hm. subst b. cbn [negb]. rewrite Ha.
  unfold query_turn. cbn [ch_rule ch_index ch_transport]. change (Some rule ≫= ?f) with (f rule).
  unfold exchange_own. rewrite Ha, Hreply. cbn [String.eqb response_check]. rewrite Hlim.
  unfold exchange_ask. cbn [client_Exchange Client_DNSClient].
  unfold run_query, Client_Exchange. destruct (ds_client st) as [c w]. cbn [fst] in Hcache.
  rewrite Hq, Hstrat. unfold q_bind, get_client, q_ret. rewrite Hsimple, Hcache, orb_true_r.
  cbn. eauto.
Qed.

End RejectReply.

(** ** Concrete queries *)

Section RouterExamples.

#[local] Instance ex_lib : ExtLib := SampleLib.
#[local] Instance ex_actions : ActionLib := DNSSampleActions.
#[local] Instance ex_dns : DNSLib := SampleDNSLib.
#[local] Instance ex_lru : FreeLRU := SampleLRU.

Definition to_server (server : string) : option RuleAction :=
  Some (RuleActionDNSRoute server (mkRuleActionDNSRouteOptions DomainStrategyAsIS false None Prefix_zero)).

(** [ip_cidr: 10.0.0.0/8]. *)
Definition private_item : RouteItem :=
  Basic (I_IPCIDR (mkIPCIDRItem [mkIPRange (Addr4 0x0A000000) (Addr4 0x0AFFFFFF)] false "")).
Definition limited_rule : DefaultDNSRule :=
  mkDefaultRule [] [] [] [] [private_item] [] [private_item] false (to_server "local").

Definition sample_state (answer : res Msg) : DNSState (C := Client * SampleWorld) :=
  mkDNSState (mkDNSRouter [TDefault limited_rule]
      {["local"%string := mkDNSTransport "local" "udp" None]} (mkDNSTransport "remote" "tls" None)
      DomainStrategyAsIS)
    (sample_client, (0, answer)) None.

(** An answer in the range is taken from the rule; another one is asked for again from the default
    transport, which here gives the same. *)
Example limited_query :
  let ask answer :=
    fst <$> Router_Exchange idle_env ∅ 0 None InboundContext_zero (sample_query 7) no_options
              (sample_state answer) in
  ask (Ok (FixedResponse 0 sample_question [Addr4 0x0A000001] 300))
    = Some (Ok (FixedResponse 7 sample_question [Addr4 0x0A000001] 300)) ∧
  ask (Ok sample_answer) = Some (Ok (FixedResponse 7 sample_question [Addr4 1] 300)).
Proof. split; reflexivity. Qed.

Lemma Exchange_single_pass_witness :
  (let '(r, _) :=
    query_pass idle_env ∅ (ds_router (sample_state (Ok sample_answer))) true true
      (exchange_own (sample_query 7) sample_question) (exchange_ask None (sample_query 7))
      exchange_again no_options [TDefault limited_rule] 0
      (exchange_metadata sample_question InboundContext_zero) no_options
      (sample_state (Ok sample_answer)) in
   match r with Answered t r => (dt_Tag <$> t, r) | Returned r => (None, r) end)
  = (Some "remote"%string, Ok (FixedResponse 7 sample_question [Addr4 1] 300)) ∧
  is_Some (Router_Exchange idle_env ∅ 0 None InboundContext_zero (sample_query 7) no_options
             (sample_state (Ok sample_answer))).
Proof.
  split; [reflexivity|].
  rewrite (Exchange_single_pass idle_env ∅ 0 None InboundContext_zero (sample_query 7)
    sample_question no_options (sample_state (Ok sample_answer)) eq_refl eq_refl).
  destruct (query_pass _ _ _ _ _ _ _ _ _ _ _ _ _ _). eauto.
Defined.

Lemma Lookup_single_pass_witness :
  ∃ st, Router_Lookup idle_env ∅ 0 None InboundContext_zero "a.test" no_options
    (sample_state (Ok sample_answer)) = Some (Ok [Addr4 1; Addr4 1], st).
Proof.
  rewrite (Lookup_single_pass idle_env ∅ 0 None InboundContext_zero "a.test" no_options
    (sample_state (Ok sample_answer)) eq_refl). eexists. reflexivity.
Defined.

Lemma address_check_sticky_witness :
  let check a := address_check idle_env ∅ (TDefault limited_rule) a in
  (check [Addr4 1] InboundContext_zero).1 = false ∧
  (check [Addr4 1] (check [Addr4 0x0A000001] InboundContext_zero).2).1 = true.
Proof.
  split; [reflexivity|].
  apply (address_check_sticky idle_env ∅ limited_rule [Addr4 0x0A000001] [Addr4 1]
    InboundContext_zero).
  - intros it Hit. assert (Forall (λ it, is_basic it = true) (group_items limited_rule)) as Hall
      by (repeat constructor).
    rewrite List.Forall_forall in Hall. apply Hall. by apply list_elem_of_In.
  - intros it c a Hit. by apply elem_of_nil in Hit.
  - reflexivity.
  - reflexivity.
Defined.

Lemma fakeip_answer_witness :
  ∃ response store' a, FakeIPTransport_Exchange (sample_query 7) sample_store = (Ok response, store') ∧
    MessageToAddresses response = [a] ∧ Store_Lookup store' a = Ok (Some "a.test"%string).
Proof.
  destruct (FakeIPTransport_Exchange (sample_query 7) sample_store) as [[response| |] store'] eqn:E;
    [|discriminate E..].
  destruct (fakeip_answer (sample_query 7) sample_question sample_store store' response)
    as (a & Ha & _ & _ & Hl & _).
  - apply sample_store_ok.
  - reflexivity.
  - exact E.
  - exists response, store', a. split; [reflexivity|]. split; [exact Ha|exact Hl].
Defined.

End RouterExamples.
