(* ===== verification/Route.v ===== *)
(** * Routing connections (route/route.go)

    The router matches a connection against its rules in order, applies the options of those that
    match, sniffs and resolves when they say so, and acts on the first that decides.  The services
    it asks are fields of [Router]: what they answer during one call does not change. *)

From stdpp Require Import base gmap strings list numbers.
From S2P Require Import Prelude GoStd Netip Adapter SetItems AddrItems RuleAction RuleOptions.
From S2P Require Import RuleItem RuleMatch RuleSet Rules DnsRules Sniffing Outbound FakeIP.

Local Open Scope Z_scope.

(** Of sing/common/metadata, and the destinations that stand for multiplexed streams in sing-mux,
    sing-vmess and sing/common/uot. *)
Class RouteLib := {
  Socksaddr_AddrPort : Socksaddr → Addr * Z;
  mux_Destination_Fqdn : string;
  vmess_MuxDestination_Fqdn : string;
  uot_MagicAddress : string;
  uot_LegacyMagicAddress : string
}.

(** A concrete choice, for examples. *)
Definition SampleRouteLib : RouteLib := {|
  Socksaddr_AddrPort a := (sa_Addr a, sa_Port a);
  mux_Destination_Fqdn := "sp.mux.sing-box.arpa"%string;
  vmess_MuxDestination_Fqdn := "v1.mux.cool"%string;
  uot_MagicAddress := "sp.v2.udp-over-tcp.arpa"%string;
  uot_LegacyMagicAddress := "sp.udp-over-tcp.arpa"%string
|}.

Definition NetworkTCP : string := "tcp".
Definition NetworkUDP : string := "udp".
Definition NetworkICMP : string := "icmp".

Section Route.
Context `{ExtLib} `{ActionLib} `{Sniffers} `{RouteLib}.
Context {M : Type} `{OutboundLookup M} {F : Type} `{FakeIPStoreI F}.

(** The connection that is routed, with what its reads give. *)
Inductive Input : Type :=
| NoConn
| StreamConn (reads : list StreamRead)
| PacketConn (reads : list PacketRead).

(** What an outbound gets: the connection behind the buffers that were put back in front of it, the
    last one first. *)
Inductive RoutedConn : Type :=
| RawConn (input : Input)
| CachedConn (conn : RoutedConn) (buffer : list byte)
| CachedPacketConn (conn : RoutedConn) (buffer : list byte) (destination : Socksaddr)
| NATPacketConn (conn : RoutedConn) (origin destination : Socksaddr).

(** [adapter/inbound.go:14-28] Inbound *)
Record Inbound : Type := mkInbound {
  in_Tag : string;
  in_isTCPInjectable : bool;
  in_isUDPInjectable : bool
}.

(** [route/router.go:23-41] Router *)
Record Router : Type := mkRouter {
  r_inbound : string → option Inbound;
  r_outbound : M;
  r_Lookup : InboundContext → string → DNSQueryOptions → res (list Addr);
  r_LookupReverseMapping : Addr → option string;
  r_Transport : string → option DNSTransport;
  r_FakeIP : option F;
  r_rules : list Rule;
  r_ruleSetMap : RuleSets;
  r_processSearcher : option (string → Addr * Z → Addr * Z → res ConnectionOwner);
  r_LookupUserId : Z → option string;
  r_env : Env
}.

(** What a match works on. *)
Record Matching : Type := mkMatching {
  mt_metadata : InboundContext;
  mt_buffers : list (list byte);
  mt_packetBuffers : list PacketBuffer;
  mt_input : Input
}.
#[global] Instance Matching_settable : Settable Matching :=
  {| mkT r := mkMatching (mt_metadata r) (mt_buffers r) (mt_packetBuffers r) (mt_input r) |}.

(** ** Before the rules *)

(** [common/process/searcher.go:26-38] FindProcessInfo *)
Definition FindProcessInfo (searcher : string → Addr * Z → Addr * Z → res ConnectionOwner)
    (LookupUserId : Z → option string) (network : string) (source destination : Addr * Z)
    : res ConnectionOwner :=
  info ← searcher network source destination;
  Ok (if Z.eqb (co_UserId info) (-1) then info else
      match LookupUserId (co_UserId info) with
      | Some name => mkConnectionOwner (co_ProcessID info) (co_UserId info) name
                       (co_ProcessPath info) (co_AndroidPackageName info)
      | None => info
      end).

(** [route/route.go:412-442] (Router).matchRule (process) *)
Definition search_process (r : Router) (metadata : InboundContext) : InboundContext :=
  match r_processSearcher r, ic_ProcessInfo metadata with
  | Some searcher, None =>
      let originDestination :=
        if Socksaddr_IsValid (ic_OriginDestination metadata)
        then Socksaddr_AddrPort (ic_OriginDestination metadata) else
        if Socksaddr_IsIP (ic_Destination metadata)
        then Socksaddr_AddrPort (ic_Destination metadata) else (AddrInvalid, 0) in
      match FindProcessInfo searcher (r_LookupUserId r) (ic_Network metadata)
              (Socksaddr_AddrPort (ic_Source metadata)) originDestination with
      | Ok processInfo => metadata <| ic_ProcessInfo := Some processInfo |>
      | _ => metadata
      end
  | _, _ => metadata
  end.

(** [r.dnsTransport.FakeIP() != nil && ...Store().Contains(...)] *)
Definition is_fakeip (r : Router) (metadata : InboundContext) : option F :=
  match r_FakeIP r with
  | Some fakeip =>
      if Addr_IsValid (sa_Addr (ic_Destination metadata)) &&
         fakeip_Contains fakeip (sa_Addr (ic_Destination metadata))
      then Some fakeip else None
  | None => None
  end.

(** [route/route.go:443-464] (Router).matchRule (fake IP and reverse mapping) *)
Definition restore_domain (r : Router) (metadata : InboundContext) : res InboundContext :=
  match is_fakeip r metadata with
  | Some fakeip =>
      loaded ← fakeip_Lookup fakeip (sa_Addr (ic_Destination metadata));
      match loaded with
      | None =>
          Err (E_New [AStr "missing fakeip record, try enable `experimental.cache_file`"])
      | Some domain =>
          Ok (if String.eqb domain "" then metadata else
              metadata <| ic_OriginDestination := ic_Destination metadata |>
                <| ic_Destination :=
                     mkSocksaddr AddrInvalid (sa_Port (ic_Destination metadata)) domain |>
                <| ic_FakeIP := true |>)
      end
  | None =>
      Ok (if String.eqb (ic_Domain metadata) "" then
            match r_LookupReverseMapping r (sa_Addr (ic_Destination metadata)) with
            | Some domain => metadata <| ic_Domain := domain |>
            | None => metadata
            end
          else metadata)
  end.

(** [route/route.go:465-469] (Router).matchRule (IP version) *)
Definition note_ip_version (metadata : InboundContext) : InboundContext :=
  if Socksaddr_IsIPv4 (ic_Destination metadata) then metadata <| ic_IPVersion := 4 |> else
  if Socksaddr_IsIPv6 (ic_Destination metadata) then metadata <| ic_IPVersion := 6 |>
  else metadata.

(** ** The actions *)

(** [route/route.go:824-848] (Router).actionResolve *)
Definition actionResolve (r : Router) (action : RuleActionResolve) (metadata : InboundContext)
    : res InboundContext :=
  if negb (Socksaddr_IsFqdn (ic_Destination metadata)) then Ok metadata else
  transport ←
    (if String.eqb (av_Server action) "" then Ok None else
     match r_Transport r (av_Server action) with
     | Some transport => Ok (Some transport)
     | None => Err (E_New [AStr "DNS server not found: "; AStr (av_Server action)])
     end);
  addresses ← r_Lookup r metadata (sa_Fqdn (ic_Destination metadata))
    (mkDNSQueryOptions transport (av_Strategy action) DomainStrategyAsIS (av_DisableCache action)
       (av_RewriteTTL action) (av_ClientSubnet action));
  Ok (metadata <| ic_DestinationAddresses := addresses |>).

(** What a sniff returns: the stream buffer, the packet buffers and the fatal error.

    [route/route.go:627-822] (Router).actionSniff *)
Definition actionSniff (action : RuleActionSniff) (inputBuffers : list (list byte))
    (inputPacketBuffers : list PacketBuffer) (metadata : InboundContext) (input : Input)
    : option (list byte) * list PacketBuffer * option error * InboundContext * Input :=
  match input with
  | NoConn => (None, [], None, metadata, NoConn)
  | StreamConn reads =>
      let '(buffer, metadata, reads) := actionSniff_stream action reads inputBuffers metadata in
      (buffer, [], None, metadata, StreamConn reads)
  | PacketConn reads =>
      let '(packetBuffers, fatalErr, metadata, reads) :=
        actionSniff_packet action reads inputPacketBuffers metadata in
      (None, packetBuffers, fatalErr, metadata, PacketConn reads)
  end.

Definition as_res (e : option error) : res unit := match e with Some e => Err e | None => Ok tt end.

(** The sniff that the deprecated inbound options ask for.

    [route/route.go:473-487] (Router).matchRule (inbound sniff) *)
Definition sniff_inbound (s : Matching) : res unit * Matching :=
  let options := ic_InboundOptions (mt_metadata s) in
  let '(newBuffer, newPacketBuffers, newErr, metadata, input) :=
    actionSniff (mkRuleActionSniff [] [] [] (io_SniffTimeout options)
                   (io_SniffOverrideDestination options))
      [] [] (mt_metadata s) (mt_input s) in
  (as_res newErr,
   match newBuffer with
   | Some buffer => mkMatching metadata [buffer] (mt_packetBuffers s) input
   | None =>
       mkMatching metadata (mt_buffers s)
         (if nonempty newPacketBuffers then newPacketBuffers else mt_packetBuffers s) input
   end).

(** [route/route.go:472-500] (Router).matchRule (inbound options) *)
Definition apply_inbound_options (r : Router) (preMatch : bool) (s : Matching)
    : res unit * Matching :=
  let options := ic_InboundOptions (mt_metadata s) in
  if decide (options = InboundOptions_zero) then (Ok tt, s) else
  let '(result, s) :=
    if negb preMatch && io_SniffEnabled options then sniff_inbound s else (Ok tt, s) in
  match result with
  | Ok _ =>
      let options := ic_InboundOptions (mt_metadata s) in
      match (if decide (io_DomainStrategy options = DomainStrategyAsIS) then Ok (mt_metadata s)
             else actionResolve r
                    (mkRuleActionResolve "" (io_DomainStrategy options) false None Prefix_zero)
                    (mt_metadata s)) with
      | Ok metadata =>
          let metadata := if io_UDPDisableDomainUnmapping options
                          then metadata <| ic_UDPDisableDomainUnmapping := true |>
                          else metadata in
          (Ok tt, s <| mt_metadata := metadata <| ic_InboundOptions := InboundOptions_zero |> |>)
      | Err e => (Err e, s)
      | Panic p => (Panic p, s)
      end
  | _ => (result, s)
  end.

(** [route/route.go:535-552] (Router).matchRule (override destination) *)
Definition override_destination (o : RuleActionRouteOptions) (metadata : InboundContext)
    : InboundContext :=
  let address := ao_OverrideAddress o in
  let metadata :=
    if (Socksaddr_IsValid address || Z.ltb 0 (ao_OverridePort o)) &&
       negb (Socksaddr_IsValid (ic_RouteOriginalDestination metadata))
    then metadata <| ic_RouteOriginalDestination := ic_Destination metadata |> else metadata in
  let metadata :=
    if Socksaddr_IsValid address
    then metadata
           <| ic_Destination := mkSocksaddr (sa_Addr address) (sa_Port (ic_Destination metadata))
                                  (sa_Fqdn address) |>
           <| ic_DestinationAddresses := [] |>
    else metadata in
  if Z.ltb 0 (ao_OverridePort o)
  then metadata <| ic_Destination := mkSocksaddr (sa_Addr (ic_Destination metadata))
                     (ao_OverridePort o) (sa_Fqdn (ic_Destination metadata)) |>
  else metadata.

(** [route/route.go:533-581] (Router).matchRule (route options) *)
Definition apply_route_options (o : RuleActionRouteOptions) (metadata : InboundContext)
    : InboundContext :=
  let m := override_destination o metadata in
  let m := match ao_NetworkStrategy o with
           | Some s => m <| ic_NetworkStrategy := Some s |>
           | None => m
           end in
  let m := if nonempty (ao_NetworkType o) then m <| ic_NetworkType := ao_NetworkType o |> else m in
  let m := if nonempty (ao_FallbackNetworkType o)
           then m <| ic_FallbackNetworkType := ao_FallbackNetworkType o |> else m in
  let m := if Z.eqb (ao_FallbackDelay o) 0 then m
           else m <| ic_FallbackDelay := ao_FallbackDelay o |> in
  let m := if ao_UDPDisableDomainUnmapping o
           then m <| ic_UDPDisableDomainUnmapping := true |> else m in
  let m := if ao_UDPConnect o then m <| ic_UDPConnect := true |> else m in
  let m := if Z.ltb 0 (ao_UDPTimeout o) then m <| ic_UDPTimeout := ao_UDPTimeout o |> else m in
  let m := if ao_TLSFragment o
           then m <| ic_TLSFragment := true |>
                  <| ic_TLSFragmentFallbackDelay := ao_TLSFragmentFallbackDelay o |> else m in
  if ao_TLSRecordFragment o then m <| ic_TLSRecordFragment := true |> else m.

(** [route/route.go:526-532] (Router).matchRule (routeOptions) *)
Definition route_options_of (a : RuleAction) : option RuleActionRouteOptions :=
  match a with
  | RuleActionRoute _ o | RA_RouteOptions o => Some o
  | _ => None
  end.

(** [route/route.go:584-594] (Router).matchRule (sniff) *)
Definition sniff_step (action : RuleActionSniff) (s : Matching) : res unit * Matching :=
  let '(newBuffer, newPacketBuffers, newErr, metadata, input) :=
    actionSniff action (mt_buffers s) (mt_packetBuffers s) (mt_metadata s) (mt_input s) in
  (as_res newErr,
   match newBuffer with
   | Some buffer => mkMatching metadata (mt_buffers s ++ [buffer]) (mt_packetBuffers s) input
   | None =>
       mkMatching metadata (mt_buffers s)
         (if nonempty newPacketBuffers then mt_packetBuffers s ++ newPacketBuffers
          else mt_packetBuffers s) input
   end).

(** What the match does with a rule that matched: go on, select it, or fail. *)
Inductive Decision : Type :=
| Continue
| Select
| Fatal (r : res unit).

(** [route/route.go:606-622] (Router).matchRule (action type) *)
Definition decide_action (supportBypass : bool) (a : RuleAction) : Decision :=
  match a with
  | RuleActionBypass outbound _ =>
      if negb supportBypass && String.eqb outbound "" then Continue else Select
  | _ =>
      match RuleAction_Type a with
      | RuleActionTypeRoute | RuleActionTypeReject | RuleActionTypeHijackDNS => Select
      | _ => Continue
      end
  end.

(** The body of the loop after a match.  A rule without an action panics.

    [route/route.go:526-622] (Router).matchRule (matched rule) *)
Definition rule_step (r : Router) (preMatch supportBypass : bool) (rule : Rule) (s : Matching)
    : Decision * Matching :=
  match tree_action rule with
  | None => (Fatal (Panic [AStr "nil pointer dereference"]), s)
  | Some a =>
      let s := match route_options_of a with
               | Some o => s <| mt_metadata := apply_route_options o (mt_metadata s) |>
               | None => s
               end in
      match a with
      | RA_Sniff action =>
          if negb preMatch then
            match sniff_step action s with
            | (Ok _, s) => (Continue, s)
            | (e, s) => (Fatal e, s)
            end
          else if String.eqb (ic_Network (mt_metadata s)) NetworkICMP then (Continue, s)
          else (Select, s)
      | RA_Resolve action =>
          match actionResolve r action (mt_metadata s) with
          | Ok metadata => (Continue, s <| mt_metadata := metadata |>)
          | Err e => (Fatal (Err e), s)
          | Panic p => (Fatal (Panic p), s)
          end
      | _ => (decide_action supportBypass a, s)
      end
  end.

(** Reset the cache and match one rule. *)
Definition match_step (r : Router) (rule : Rule) (s : Matching) : bool * Matching :=
  let '(b, metadata) :=
    Rule_Match (r_env r) (r_ruleSetMap r) rule (ResetRuleCache (mt_metadata s)) in
  (b, s <| mt_metadata := metadata |>).

(** The loop over the rules from an index on: the rule selected, if any.

    [route/route.go:503-624] (Router).matchRule (loop) *)
Fixpoint match_rules (r : Router) (preMatch supportBypass : bool) (i : nat) (rules : list Rule)
    (s : Matching) : res (option (nat * Rule)) * Matching :=
  match rules with
  | [] => (Ok None, s)
  | currentRule :: rules' =>
      let '(matched, s) := match_step r currentRule s in
      if negb matched then match_rules r preMatch supportBypass (S i) rules' s else
      match rule_step r preMatch supportBypass currentRule s with
      | (Continue, s) => match_rules r preMatch supportBypass (S i) rules' s
      | (Select, s) => (Ok (Some (i, currentRule)), s)
      | (Fatal (Err e), s) => (Err e, s)
      | (Fatal (Panic p), s) => (Panic p, s)
      | (Fatal (Ok _), s) => (Ok None, s)
      end
  end.

(** [route/route.go:405-625] (Router).matchRule *)
Definition matchRule (r : Router) (preMatch supportBypass : bool) (metadata : InboundContext)
    (input : Input) : res (option (nat * Rule)) * Matching :=
  let metadata := search_process r metadata in
  let start m := mkMatching m [] [] input in
  match restore_domain r metadata with
  | Ok metadata =>
      match apply_inbound_options r preMatch (start (note_ip_version metadata)) with
      | (Ok _, s) => match_rules r preMatch supportBypass 0 (r_rules r) s
      | (Err e, s) => (Err e, s)
      | (Panic p, s) => (Panic p, s)
      end
  | Err e => (Err e, start metadata)
  | Panic p => (Panic p, start metadata)
  end.

(** ** Routing *)

(** Where a connection goes: to an outbound ([None] would be a [nil] one), back to an inbound, to
    the DNS router, or nowhere. *)
Inductive Routed : Type :=
| Routed_Outbound (outbound : option Outbound) (rule : option nat) (conn : RoutedConn)
    (metadata : InboundContext)
| Routed_Inbound (inbound : Inbound) (metadata : InboundContext)
| Routed_DNS (conn : RoutedConn) (packets : list PacketBuffer) (metadata : InboundContext)
| Routed_Nowhere.

Definition set_rules (r : Router) (rules : list Rule) : Router :=
  mkRouter (r_inbound r) (r_outbound r) (r_Lookup r) (r_LookupReverseMapping r) (r_Transport r)
    (r_FakeIP r) rules (r_ruleSetMap r) (r_processSearcher r) (r_LookupUserId r) (r_env r).

(** [return action.Error(ctx)], at time [now], for the rule at an index. *)
Definition reject_with (now : Z) (r : Router) (i : nat) (rule : Rule) (a : RuleActionReject)
    : res (option error) * Router :=
  match RuleActionReject_Error now a with
  | Ok (err, a') => (Ok err, set_rules r (<[i := set_action (RA_Reject a') rule]> (r_rules r)))
  | Err e => (Err e, r)
  | Panic p => (Panic p, r)
  end.

(** The outbound of a [route] or [bypass] action.

    [route/route.go:104-113] (Router).routeConnection (outbound) *)
Definition find_outbound (r : Router) (network : string) (unsupported : list arg) (tag : string)
    : res Outbound :=
  match lookup_outbound (r_outbound r) tag with
  | None => Err (E_New [AStr "outbound not found: "; AStr tag])
  | Some o =>
      if bool_decide (network ∈ ob_Network o) then Ok o
      else Err (E_New (unsupported ++ [AStr (ob_Tag o)]))
  end.

(** [route/route.go:142-149] (Router).routeConnection (default outbound) *)
Definition find_default (r : Router) (network : string) (unsupported : list arg) : res Outbound :=
  match default_outbound (r_outbound r) with
  | None => Panic [AStr "nil pointer dereference"]
  | Some o =>
      if bool_decide (network ∈ ob_Network o) then Ok o
      else Err (E_New (unsupported ++ [AStr (ob_Tag o)]))
  end.

(** The kind of connection that is routed: its network, whether an inbound takes it, the texts of
    its errors. *)
Record ConnKind : Type := mkConnKind {
  ck_Network : string;
  ck_isInjectable : Inbound → bool;
  ck_notInjectable : string;
  ck_unsupported : string;
  ck_unsupportedDefault : string;
  ck_replyUnsupported : string
}.

Definition kind_stream : ConnKind := mkConnKind NetworkTCP in_isTCPInjectable
  "inbound detour is not TCP injectable: " "TCP is not supported by outbound: "
  "TCP is not supported by default outbound: "
  "reject method `reply` is not supported for TCP connections".

Definition kind_packet : ConnKind := mkConnKind NetworkUDP in_isUDPInjectable
  "inbound detour is not UDP injectable: " "UDP is not supported by outbound: "
  "UDP is not supported by outbound: "
  "reject method `reply` is not supported for UDP connections".

(** [route/route.go:64-81] (Router).routeConnection (inbound detour) *)
Definition inbound_detour (k : ConnKind) (r : Router) (metadata : InboundContext) : res Routed :=
  let detour := ic_InboundDetour metadata in
  if String.eqb (ic_LastInbound metadata) detour
  then Err (E_New [AStr "routing loop on detour: "; AStr detour]) else
  match r_inbound r detour with
  | None => Err (E_New [AStr "inbound detour not found: "; AStr detour])
  | Some inbound =>
      if negb (ck_isInjectable k inbound) then Err (E_New [AStr (ck_notInjectable k); AStr detour])
      else Ok (Routed_Inbound inbound
                 (metadata <| ic_LastInbound := ic_Inbound metadata |>
                    <| ic_Inbound := detour |> <| ic_InboundDetour := "" |>))
  end.

(** [route/route.go:83-92] (Router).routeConnection (global multiplex) *)
Definition check_multiplex (metadata : InboundContext) : res unit :=
  let fqdn := sa_Fqdn (ic_Destination metadata) in
  if String.eqb fqdn mux_Destination_Fqdn then
    Err (E_New [AStr "global multiplex is deprecated since sing-box v1.7.0, enable multiplex in Inbound fields instead."])
  else if String.eqb fqdn vmess_MuxDestination_Fqdn then
    Err (E_New [AStr "global multiplex (v2ray legacy) not supported since sing-box v1.7.0."])
  else if String.eqb fqdn uot_MagicAddress then
    Err (E_New [AStr "global UoT not supported since sing-box v1.7.0."])
  else if String.eqb fqdn uot_LegacyMagicAddress then
    Err (E_New [AStr "global UoT (legacy) not supported since sing-box v1.7.0."])
  else Ok tt.

(** [for _, buffer := range buffers { conn = bufio.NewCachedConn(conn, buffer) }] *)
Definition cache_buffers (conn : RoutedConn) (buffers : list (list byte)) : RoutedConn :=
  fold_left CachedConn buffers conn.

Definition cache_packets (conn : RoutedConn) (packets : list PacketBuffer) : RoutedConn :=
  fold_left (λ conn p, CachedPacketConn conn p.1 p.2) packets conn.

(** What the selected rule makes of a connection: an outbound ([None] when no rule says), or the
    end.

    [route/route.go:100-141] (Router).routeConnection (selected rule) *)
Definition act (k : ConnKind) (now : Z) (r : Router) (selected : option (nat * Rule))
    (hijack : Routed) : res (option Routed * option (option Outbound)) * Router :=
  match selected with
  | None => (Ok (None, None), r)
  | Some (i, rule) =>
      match tree_action rule with
      | Some (RuleActionRoute outbound _) =>
          ((λ o, (None, Some (Some o))) <$> find_outbound r (ck_Network k)
             [AStr (ck_unsupported k)] outbound, r)
      | Some (RuleActionBypass outbound _) =>
          if String.eqb outbound "" then (Ok (None, Some None), r) else
          ((λ o, (None, Some (Some o))) <$> find_outbound r (ck_Network k)
             [AStr (ck_unsupported k)] outbound, r)
      | Some (RA_Reject a) =>
          if String.eqb (aj_Method a) "reply" then (Err (E_New [AStr (ck_replyUnsupported k)]), r)
          else
            match reject_with now r i rule a with
            | (Ok (Some e), r) => (Err e, r)
            | (Ok None, r) => (Ok (Some Routed_Nowhere, None), r)
            | (Err e, r) => (Err e, r)
            | (Panic p, r) => (Panic p, r)
            end
      | Some RuleActionHijackDNS => (Ok (Some hijack, None), r)
      | _ => (Ok (None, Some None), r)
      end
  end.

(** The outbound in the end: the default when no rule was selected.

    [route/route.go:142-162] (Router).routeConnection (connect) *)
Definition connect (k : ConnKind) (r : Router) (selected : option (nat * Rule))
    (outbound : option (option Outbound)) (conn : RoutedConn) (metadata : InboundContext)
    : res Routed :=
  match outbound with
  | Some o => Ok (Routed_Outbound o (fst <$> selected) conn metadata)
  | None =>
      o ← find_default r (ck_Network k) [AStr (ck_unsupportedDefault k)];
      Ok (Routed_Outbound (Some o) (fst <$> selected) conn metadata)
  end.

(** Trackers of connections only wrap them and are left out.

    [route/route.go:62-163] (Router).routeConnection *)
Definition routeConnection (now : Z) (r : Router) (metadata : InboundContext)
    (reads : list StreamRead) : res Routed * Router :=
  if negb (String.eqb (ic_InboundDetour metadata) "")
  then (inbound_detour kind_stream r metadata, r) else
  let metadata := metadata <| ic_Network := NetworkTCP |> in
  match check_multiplex metadata with
  | Ok _ =>
      match matchRule r false false metadata (StreamConn reads) with
      | (Ok selected, s) =>
          let conn := cache_buffers (RawConn (mt_input s)) (mt_buffers s) in
          match act kind_stream now r selected (Routed_DNS conn [] (mt_metadata s)) with
          | (Ok (Some routed, _), r') => (Ok routed, r')
          | (Ok (None, o), r') => (connect kind_stream r selected o conn (mt_metadata s), r')
          | (Err e, r') => (Err e, r')
          | (Panic p, r') => (Panic p, r')
          end
      | (Err e, _) => (Err e, r)
      | (Panic p, _) => (Panic p, r)
      end
  | Err e => (Err e, r)
  | Panic p => (Panic p, r)
  end.

(** [route/route.go:197-292] (Router).routePacketConnection *)
Definition routePacketConnection (now : Z) (r : Router) (metadata : InboundContext)
    (reads : list PacketRead) : res Routed * Router :=
  if negb (String.eqb (ic_InboundDetour metadata) "")
  then (inbound_detour kind_packet r metadata, r) else
  let metadata := metadata <| ic_Network := NetworkUDP |> in
  match matchRule r false false metadata (PacketConn reads) with
  | (Ok selected, s) =>
      let metadata := mt_metadata s in
      let raw := RawConn (mt_input s) in
      let conn := cache_packets raw (mt_packetBuffers s) in
      let conn := if ic_FakeIP metadata
                  then NATPacketConn conn (ic_OriginDestination metadata) (ic_Destination metadata)
                  else conn in
      match act kind_packet now r selected (Routed_DNS raw (mt_packetBuffers s) metadata) with
      | (Ok (Some routed, _), r') => (Ok routed, r')
      | (Ok (None, o), r') => (connect kind_packet r selected o conn metadata, r')
      | (Err e, r') => (Err e, r')
      | (Panic p, r') => (Panic p, r')
      end
  | (Err e, _) => (Err e, r)
  | (Panic p, _) => (Panic p, r)
  end.

(** ** Matching before a connection is accepted *)

(** What the TUN stack is told: nothing, or to route the packets directly through an outbound,
    with the destination address rewritten when it was a domain. *)
Record DirectRoute : Type := mkDirectRoute {
  dd_outbound : Outbound;
  dd_metadata : InboundContext;
  dd_rewrite : option (Addr * Addr)
}.

(** [outbound.(adapter.DirectRouteOutbound)] *)
Definition as_direct_route (o : Outbound) : res Outbound :=
  if ob_isDirectRoute o then Ok o else Panic [AStr "interface conversion"].

(** [route/route.go:318-328] (Router).PreMatch (outbound) *)
Definition prematch_outbound (r : Router) (routeContext : bool) (metadata : InboundContext)
    (tag : string) : res (option (option Outbound)) :=
  if negb routeContext then Ok None else
  match lookup_outbound (r_outbound r) tag with
  | None => Err (E_New [AStr "outbound not found: "; AStr tag])
  | Some o =>
      if negb (bool_decide (ic_Network metadata ∈ ob_Network o))
      then Err (E_New [AStr (ic_Network metadata); AStr " is not supported by outbound: "; AStr tag])
      else (λ o, Some (Some o)) <$> as_direct_route o
  end.

(** The selected rule: [Ok None] ends the match with nothing, [Ok (Some o)] goes on with the
    outbound [o], or without one.

    [route/route.go:299-342] (Router).PreMatch (selected rule) *)
Definition prematch_action (now : Z) (r : Router) (routeContext supportBypass : bool)
    (metadata : InboundContext) (selected : option (nat * Rule))
    : res (option (option Outbound)) * Router :=
  match selected with
  | None => (Ok (Some None), r)
  | Some (i, rule) =>
      match tree_action rule with
      | Some (RA_Reject a) =>
          let reply := String.eqb (aj_Method a) "reply" in
          if String.eqb (ic_Network metadata) NetworkTCP && reply
          then (Err (E_New [AStr "reject method `reply` is not supported for TCP connections"]), r)
          else if String.eqb (ic_Network metadata) NetworkUDP && reply
          then (Err (E_New [AStr "reject method `reply` is not supported for UDP connections"]), r)
          else
            match reject_with now r i rule a with
            | (Ok (Some e), r) => (Err e, r)
            | (Ok None, r) => (Ok None, r)
            | (Err e, r) => (Err e, r)
            | (Panic p, r) => (Panic p, r)
            end
      | Some (RuleActionBypass outbound _) =>
          if supportBypass then (Err (BypassedError ErrBypass), r)
          else (prematch_outbound r routeContext metadata outbound, r)
      | Some (RuleActionRoute outbound _) =>
          (prematch_outbound r routeContext metadata outbound, r)
      | _ => (Ok (Some None), r)
      end
  end.

(** [route/route.go:343-352] (Router).PreMatch (default outbound) *)
Definition prematch_default (r : Router) (selected : option (nat * Rule))
    (metadata : InboundContext) (outbound : option Outbound) : res (option Outbound) :=
  match outbound with
  | Some o => Ok (Some o)
  | None =>
      if negb (is_nil selected) || negb (String.eqb (ic_Network metadata) NetworkICMP) then Ok None
      else
        match default_outbound (r_outbound r) with
        | None => Panic [AStr "nil pointer dereference"]
        | Some o =>
            if negb (bool_decide (ic_Network metadata ∈ ob_Network o))
            then Err (E_New [AStr (ic_Network metadata);
                             AStr " is not supported by default outbound: "; AStr (ob_Tag o)])
            else Some <$> as_direct_route o
        end
  end.

(** [route/route.go:353-402] (Router).PreMatch (destination) *)
Definition prematch_destination (r : Router) (o : Outbound) (metadata : InboundContext)
    : res DirectRoute :=
  if negb (Socksaddr_IsFqdn (ic_Destination metadata)) then Ok (mkDirectRoute o metadata None) else
  let is4 := Socksaddr_IsIPv4 (ic_Source metadata) in
  metadata ←
    (if nonempty (ic_DestinationAddresses metadata) then Ok metadata else
     actionResolve r
       (mkRuleActionResolve "" (if is4 then DomainStrategyIPv4Only else DomainStrategyIPv6Only)
          false None Prefix_zero) metadata);
  match List.find (if is4 then Addr_Is4 else Addr_Is6) (ic_DestinationAddresses metadata) with
  | Some newDestination =>
      Ok (mkDirectRoute o (metadata <| ic_Destination := mkSocksaddr newDestination 0 "" |>)
            (Some (sa_Addr (ic_OriginDestination metadata), newDestination)))
  | None =>
      Err (E_New [AStr (if is4 then "no IPv4 address found for domain: "
                        else "no IPv6 address found for domain: ");
                  AStr (sa_Fqdn (ic_Destination metadata))])
  end.

(** The direct route that is opened, if any; [routeContext] says whether the caller gave one.

    [route/route.go:294-403] (Router).PreMatch *)
Definition PreMatch (now : Z) (r : Router) (metadata : InboundContext)
    (routeContext supportBypass : bool) : res (option DirectRoute) * Router :=
  match matchRule r true supportBypass metadata NoConn with
  | (Ok selected, s) =>
      let metadata := mt_metadata s in
      match prematch_action now r routeContext supportBypass metadata selected with
      | (Ok None, r') => (Ok None, r')
      | (Ok (Some outbound), r') =>
          (o ← prematch_default r selected metadata outbound;
           match o with
           | None => Ok None
           | Some o => Some <$> prematch_destination r o metadata
           end, r')
      | (Err e, r') => (Err e, r')
      | (Panic p, r') => (Panic p, r')
      end
  | (Err e, _) => (Err e, r)
  | (Panic p, _) => (Panic p, r)
  end.

End Route.

(** ** Theorems *)

Section RouteTheorems.
Context `{ExtLib} `{ActionLib} `{Sniffers} `{RouteLib}.
Context {M : Type} `{OutboundLookup M} {F : Type} `{FakeIPStoreI F}.
Abbreviation Router := (Router (M := M) (F := F)).

(** *** Selection *)

(** Rules that are passed over: each does not match, or matches and lets the match go on. *)
Inductive passes (r : Router) (preMatch supportBypass : bool)
    : list Rule → Matching → Matching → Prop :=
| passes_nil s : passes r preMatch supportBypass [] s s
| passes_skip rule rules s s1 s' :
    match_step r rule s = (false, s1) → passes r preMatch supportBypass rules s1 s' →
    passes r preMatch supportBypass (rule :: rules) s s'
| passes_continue rule rules s s1 s2 s' :
    match_step r rule s = (true, s1) →
    rule_step r preMatch supportBypass rule s1 = (Continue, s2) →
    passes r preMatch supportBypass rules s2 s' →
    passes r preMatch supportBypass (rule :: rules) s s'.

Lemma rule_step_fatal (r : Router) pre sup rule s x s' :
  rule_step r pre sup rule s = (Fatal (Ok x), s') → False.
Proof.
  unfold rule_step. destruct (tree_action rule) as [a|]; [|done].
  destruct a; cbn; intros Heq; repeat case_match; by simplify_eq.
Qed.

Lemma match_rules_selected (r : Router) pre sup i rules s j rule s' :
  match_rules r pre sup i rules s = (Ok (Some (j, rule)), s') ↔
  ∃ before after s1 s2, rules = before ++ rule :: after ∧ j = (i + length before)%nat ∧
    passes r pre sup before s s1 ∧ match_step r rule s1 = (true, s2) ∧
    rule_step r pre sup rule s2 = (Select, s').
Proof.
  split.
  - revert i s. induction rules as [|x rules IH]; intros i s Hm; cbn in Hm; [done|].
    destruct (match_step r x s) as [b s1] eqn:Ex. destruct b; cbn in Hm.
    + destruct (rule_step r pre sup x s1) as [[| |e] s2] eqn:Es.
      * destruct (IH _ _ Hm) as (bf & af & t1 & t2 & -> & -> & Hp & ?).
        exists (x :: bf), af, t1, t2. split; [done|]. split; [cbn; lia|]. split; [|done].
        by eapply passes_continue.
      * simplify_eq. exists [], rules, s, s1. split_and!; [done|cbn; lia|constructor|done|done].
      * destruct e; [by apply rule_step_fatal in Es|done|done].
    + destruct (IH _ _ Hm) as (bf & af & t1 & t2 & -> & -> & Hp & ?).
      exists (x :: bf), af, t1, t2. split; [done|]. split; [cbn; lia|]. split; [|done].
      by eapply passes_skip.
  - intros (bf & af & s1 & s2 & -> & -> & Hp & Hm & Hs). revert i.
    induction Hp as [s|x bf s t1 t2 Hx _ IH|x bf s t1 t2 t3 Hx Hr _ IH]; intros i; cbn.
    + rewrite Hm. cbn. rewrite Hs. by rewrite Nat.add_0_r.
    + rewrite Hx. cbn. rewrite (IH Hm). do 4 f_equal. lia.
    + rewrite Hx. cbn. rewrite Hr, (IH Hm). do 4 f_equal. lia.
Qed.

Lemma match_rules_none (r : Router) pre sup i rules s s' :
  match_rules r pre sup i rules s = (Ok None, s') ↔ passes r pre sup rules s s'.
Proof.
  split.
  - revert i s. induction rules as [|x rules IH]; intros i s Hm; cbn in Hm.
    { simplify_eq. constructor. }
    destruct (match_step r x s) as [b s1] eqn:Ex. destruct b; cbn in Hm.
    + destruct (rule_step r pre sup x s1) as [[| |e] s2] eqn:Es.
      * eapply passes_continue; eauto.
      * done.
      * destruct e; [by apply rule_step_fatal in Es|done|done].
    + eapply passes_skip; eauto.
  - intros Hp. revert i.
    induction Hp as [s|x bf s t1 t2 Hx _ IH|x bf s t1 t2 t3 Hx Hr _ IH]; intros i; cbn; [done|..].
    + by rewrite Hx, IH.
    + rewrite Hx. cbn. by rewrite Hr, IH.
Qed.

(** C2: the rule the router selects is the first, in order, that matches and decides: all the
    rules before it did not match or let the match go on, each from the metadata the one before
    left, and no rule is selected exactly when all are passed over. *)
Theorem matchRule_first (r : Router) pre sup md input (before : Matching) :
  (∀ m, restore_domain r (search_process r md) = Ok m →
     apply_inbound_options r pre (mkMatching (note_ip_version m) [] [] input) = (Ok tt, before)) →
  is_ok (restore_domain r (search_process r md)) = true →
  (∀ i rule s', matchRule r pre sup md input = (Ok (Some (i, rule)), s') ↔
     r_rules r !! i = Some rule ∧
     ∃ s1 s2, passes r pre sup (take i (r_rules r)) before s1 ∧
       match_step r rule s1 = (true, s2) ∧ rule_step r pre sup rule s2 = (Select, s')) ∧
  ∀ s', matchRule r pre sup md input = (Ok None, s') ↔ passes r pre sup (r_rules r) before s'.
Proof.
  intros Hin Hok. unfold matchRule.
  destruct (restore_domain r (search_process r md)) as [m| |]; [|done..].
  rewrite (Hin m eq_refl). split; [|intros s'; apply match_rules_none].
  intros i rule s'. rewrite match_rules_selected. split.
  - intros (bf & af & s1 & s2 & Hr & -> & Hp & Hm & Hs). rewrite Hr. cbn.
    rewrite list_lookup_middle by done. split; [done|]. exists s1, s2.
    by rewrite take_app_length.
  - intros (Hl & s1 & s2 & Hp & Hm & Hs).
    exists (take i (r_rules r)), (drop (Datatypes.S i) (r_rules r)), s1, s2.
    split; [by rewrite take_drop_middle|]. split; [|done].
    rewrite length_take. apply lookup_lt_Some in Hl. cbn. lia.
Qed.

(** *** The outbound *)

(** A rule of the router has no action of a DNS rule. *)
Definition routing_rule (rule : Rule) : Prop :=
  ∀ a, tree_action rule = Some a →
    match a with RuleActionDNSRoute _ _ | RA_DNSRouteOptions _ | RA_Predefined _ => False
    | _ => True end.

(** The outbound a connection was routed to: it supports the network, and it is the default when no
    rule was selected, or the one the action of the selected rule names. *)
Definition outbound_of (r : Router) (network : string) (o : option Outbound) (i : option nat)
    : Prop :=
  ∃ ob, o = Some ob ∧ network ∈ ob_Network ob ∧
  match i with
  | None => default_outbound (r_outbound r) = Some ob
  | Some i =>
      ∃ rule tag options, r_rules r !! i = Some rule ∧
        (tree_action rule = Some (RuleActionRoute tag options) ∨
         tree_action rule = Some (RuleActionBypass tag options) ∧ tag ≠ ""%string) ∧
        lookup_outbound (r_outbound r) tag = Some ob ∧
        (lookup_ok (r_outbound r) → ob_Tag ob = tag)
  end.

Lemma rule_step_select (r : Router) sup rule s s' :
  rule_step r false sup rule s = (Select, s') →
  ∃ a, tree_action rule = Some a ∧
    match a with
    | RuleActionRoute _ _ | RA_Reject _ | RuleActionHijackDNS | RuleActionDNSRoute _ _ => True
    | RuleActionBypass tag _ => sup = true ∨ tag ≠ ""%string
    | _ => False
    end.
Proof.
  unfold rule_step. destruct (tree_action rule) as [a|]; [|done]. intros Hs. exists a. split; [done|].
  destruct a; cbn in Hs; try done; try (by repeat case_match; simplify_eq).
  destruct sup; [by left|]. right. destruct (String.eqb_spec Outbound ""); [done|done].
Qed.

Lemma matchRule_selects (r : Router) pre sup md input i rule s' :
  matchRule r pre sup md input = (Ok (Some (i, rule)), s') →
  r_rules r !! i = Some rule ∧ ∃ s, rule_step r pre sup rule s = (Select, s').
Proof.
  unfold matchRule. destruct (restore_domain _ _) as [m| |]; [|done..].
  destruct (apply_inbound_options _ _ _) as [[?| |] s]; [|done..].
  intros (bf & af & s1 & s2 & Hr & -> & _ & _ & Hs)%match_rules_selected.
  rewrite Hr. cbn. rewrite list_lookup_middle by done. eauto.
Qed.

Lemma find_outbound_Ok (r : Router) network parts tag ob :
  find_outbound r network parts tag = Ok ob →
  lookup_outbound (r_outbound r) tag = Some ob ∧ network ∈ ob_Network ob.
Proof.
  unfold find_outbound. destruct (lookup_outbound _ tag) as [o|]; [|done].
  case_bool_decide; [|done]. by intros [= ->].
Qed.

Lemma act_outbound (r : Router) k now selected hijack o r' s' input md :
  (∀ rule, rule ∈ r_rules r → routing_rule rule) →
  matchRule r false false md input = (Ok selected, s') →
  act k now r selected hijack = (Ok (None, o), r') →
  match o with
  | None => selected = None
  | Some o => outbound_of r (ck_Network k) o (fst <$> selected)
  end.
Proof.
  intros Hrules Hm Ha. destruct selected as [[i rule]|]; cbn in Ha; [|by simplify_eq].
  apply matchRule_selects in Hm as [Hi [s Hs]].
  destruct (rule_step_select _ _ _ _ _ Hs) as (a & Eact & Hact). rewrite Eact in Ha.
  pose proof (Hrules rule (list_elem_of_lookup_2 _ _ _ Hi) a Eact) as Hrt.
  destruct a; try done; cbn in Ha.
  - destruct (find_outbound _ _ _ _) as [ob| |] eqn:E; simplify_eq/=.
    apply find_outbound_Ok in E as [E1 E2]. exists ob. split_and!; [done..|].
    exists rule, Outbound, o0. split_and!; auto. intros Hok. by eapply lookup_outbound_tag.
  - destruct Hact as [|Hne]; [done|]. destruct (String.eqb_spec Outbound ""); [done|].
    destruct (find_outbound _ _ _ _) as [ob| |] eqn:E; simplify_eq/=.
    apply find_outbound_Ok in E as [E1 E2]. exists ob. split_and!; [done..|].
    exists rule, Outbound, o0. split_and!; auto. intros Hok. by eapply lookup_outbound_tag.
  - destruct (String.eqb (aj_Method r0) "reply"); [done|].
    destruct (reject_with _ _ _ _ _) as [[[]| |] ?]; by simplify_eq.
Qed.

Lemma connect_outbound (r : Router) k selected o conn md rt :
  match o with
  | None => selected = None
  | Some o => outbound_of r (ck_Network k) o (fst <$> selected)
  end →
  connect k r selected o conn md = Ok rt →
  ∃ ob, rt = Routed_Outbound ob (fst <$> selected) conn md ∧
    outbound_of r (ck_Network k) ob (fst <$> selected).
Proof.
  unfold connect. destruct o as [o|]; [intros ? [= <-]; eauto|]. intros ->.
  intros (ob & Hd & [= <-])%bind_Ok. eexists. split; [done|]. exists ob. split; [done|].
  unfold find_default in Hd. destruct (default_outbound _) as [o|]; [|done].
  case_bool_decide; [|done]. by simplify_eq.
Qed.

(** How a stream connection gets to an outbound. *)
Lemma routeConnection_outbound now (r : Router) md reads o i conn md' r' :
  (∀ rule, rule ∈ r_rules r → routing_rule rule) →
  routeConnection now r md reads = (Ok (Routed_Outbound o i conn md'), r') →
  ∃ selected s, matchRule r false false (md <| ic_Network := NetworkTCP |>) (StreamConn reads)
      = (Ok selected, s) ∧
    conn = cache_buffers (RawConn (mt_input s)) (mt_buffers s) ∧ outbound_of r NetworkTCP o i.
Proof.
  intros Hrules. unfold routeConnection.
  destruct (negb _).
  { intros [= Hd _]. unfold inbound_detour in Hd. repeat case_match; by simplify_eq. }
  destruct (check_multiplex _); [|done..].
  destruct (matchRule _ _ _ _ _) as [[selected| |] s] eqn:Em; [|done..].
  destruct (act _ _ _ _ _) as [[[[rt|] o']| |] r2] eqn:Ea; [|..|done|done]; intros [= Hc <-].
  - exfalso. unfold act in Ea. destruct selected as [[? rule]|]; [|by simplify_eq].
    subst rt. repeat case_match; simplify_eq/=;
      try (unfold find_outbound in *; repeat case_match; by simplify_eq/=); done.
  - destruct (connect_outbound _ _ _ _ _ _ _ (act_outbound _ _ _ _ _ _ _ _ _ _ Hrules Em Ea) Hc)
      as (ob & [= -> -> -> ->] & Ho). eauto.
Qed.

Lemma routePacketConnection_outbound now (r : Router) md reads o i conn md' r' :
  (∀ rule, rule ∈ r_rules r → routing_rule rule) →
  routePacketConnection now r md reads = (Ok (Routed_Outbound o i conn md'), r') →
  ∃ selected s, matchRule r false false (md <| ic_Network := NetworkUDP |>) (PacketConn reads)
      = (Ok selected, s) ∧ outbound_of r NetworkUDP o i.
Proof.
  intros Hrules. unfold routePacketConnection.
  destruct (negb _).
  { intros [= Hd _]. unfold inbound_detour in Hd. repeat case_match; by simplify_eq. }
  destruct (matchRule _ _ _ _ _) as [[selected| |] s] eqn:Em; [|done..].
  destruct (act _ _ _ _ _) as [[[[rt|] o']| |] r2] eqn:Ea; [|..|done|done]; intros [= Hc <-].
  - exfalso. unfold act in Ea. destruct selected as [[? rule]|]; [|by simplify_eq].
    subst rt. repeat case_match; simplify_eq/=;
      try (unfold find_outbound in *; repeat case_match; by simplify_eq/=); done.
  - destruct (connect_outbound _ _ _ _ _ _ _ (act_outbound _ _ _ _ _ _ _ _ _ _ Hrules Em Ea) Hc)
      as (ob & [= -> -> -> ->] & Ho). eauto.
Qed.

(** C1: a connection that is handed to an outbound is handed to a real one, which supports the
    network of the connection: the default when no rule was selected, and otherwise the outbound
    with the tag that the action of the selected rule names; a [bypass] without an outbound never
    gets there. *)
Theorem routed_outbound now (r : Router) md :
  (∀ rule, rule ∈ r_rules r → routing_rule rule) →
  (∀ reads o i conn md' r',
     routeConnection now r md reads = (Ok (Routed_Outbound o i conn md'), r') →
     outbound_of r NetworkTCP o i) ∧
  (∀ reads o i conn md' r',
     routePacketConnection now r md reads = (Ok (Routed_Outbound o i conn md'), r') →
     outbound_of r NetworkUDP o i).
Proof.
  intros Hrules. split; intros reads o i conn md' r' Hr.
  - by destruct (routeConnection_outbound _ _ _ _ _ _ _ _ _ Hrules Hr) as (? & ? & _ & _ & ?).
  - by destruct (routePacketConnection_outbound _ _ _ _ _ _ _ _ _ Hrules Hr) as (? & ? & _ & ?).
Qed.

(** *** The bytes *)

(** What only the sniffs change. *)
Lemma match_rules_inv (P : Matching → Prop) (r : Router) pre sup i rules s :
  (∀ s m, P s → P (s <| mt_metadata := m |>)) → (∀ a s, P s → P (sniff_step a s).2) →
  P s → P (match_rules r pre sup i rules s).2.
Proof.
  intros Hm Hs. revert i s. induction rules as [|rule rules IH]; intros i s HP; cbn -[set_field]; [done|].
  destruct (match_step r rule s) as [b s1] eqn:E.
  assert (P s1) as HP1.
  { unfold match_step in E. destruct (Rule_Match _ _ _ _). injection E as <- <-. by apply Hm. }
  clear s HP E. rename s1 into s, HP1 into HP. destruct b; cbn; [|auto].
  assert (P (rule_step r pre sup rule s).2) as Hstep.
  { unfold rule_step. destruct (tree_action rule) as [a|]; [|done].
    destruct a as [| | | | | |sniff|resolve| | |]; cbn -[set_field]; try by auto.
    - pose proof (Hs sniff s HP). destruct (sniff_step sniff s) as [[] s']; cbn in *;
        by repeat case_match.
    - destruct (actionResolve _ _ _); cbn -[set_field]; by auto. }
  destruct (rule_step r pre sup rule s) as [[| |[| |]] s']; cbn in *; auto.
Qed.

Lemma matchRule_inv (P : Matching → Prop) (r : Router) pre sup md input :
  (∀ s m, P s → P (s <| mt_metadata := m |>)) → (∀ a s, P s → P (sniff_step a s).2) →
  (∀ s, P s → mt_buffers s = [] → mt_packetBuffers s = [] → P (sniff_inbound s).2) →
  (∀ md, P (mkMatching md [] [] input)) → P (matchRule r pre sup md input).2.
Proof.
  intros Hm Hs Hi H0'. unfold matchRule. destruct (restore_domain _ _) as [m| |]; [|apply H0'..].
  assert (P (apply_inbound_options r pre (mkMatching (note_ip_version m) [] [] input)).2) as Ha.
  { unfold apply_inbound_options. destruct (decide _); [apply H0'|].
    destruct (negb pre && _).
    - pose proof (Hi _ (H0' (note_ip_version m)) eq_refl eq_refl) as Hi'.
      destruct (sniff_inbound _) as [[] s]; cbn in *; try done.
      destruct (decide _); cbn; [auto|]. destruct (actionResolve _ _ _); cbn; auto.
    - cbn. destruct (decide _); cbn; [apply H0'|].
      destruct (actionResolve _ _ _); cbn; [apply H0'|apply H0'..]. }
  destruct (apply_inbound_options _ _ _) as [[] s]; cbn in *; try done.
  by apply match_rules_inv.
Qed.

(** The buffers kept so far, none of them empty, and the reads that are left are the bytes of the
    stream. *)
Definition stream_kept (data : list byte) (s : Matching) : Prop :=
  ∃ reads, mt_input s = StreamConn reads ∧ Forall (λ b, b ≠ []) (mt_buffers s) ∧
    concat (mt_buffers s) ++ stream_data reads = data.

Lemma actionSniff_stream_nonempty action reads inputBuffers md b md' reads' :
  actionSniff_stream action reads inputBuffers md = (Some b, md', reads') → b ≠ [].
Proof.
  unfold actionSniff_stream. repeat (case_match; [done|]).
  destruct (pk_buffer _); by intros [= <- _ _].
Qed.

Lemma matchRule_stream_kept (r : Router) pre sup md reads :
  stream_kept (stream_data reads) (matchRule r pre sup md (StreamConn reads)).2.
Proof.
  apply matchRule_inv.
  - by intros s m (rs & ? & ?); exists rs.
  - intros a s (rs & Hin & Hne & Hd). unfold sniff_step. rewrite Hin. cbn [actionSniff].
    destruct (actionSniff_stream _ _ _ _) as [[buffer md'] rs'] eqn:E.
    pose proof (actionSniff_stream_conserves _ _ _ _ _ _ _ E) as Hc.
    destruct buffer as [b|]; cbn in *; exists rs'; (split; [done|]); (split; [|cbn]).
    + apply Forall_app. split; [done|].
      apply Forall_singleton. by eapply actionSniff_stream_nonempty.
    + by rewrite concat_app, <-app_assoc, <-Hd, <-Hc; cbn; rewrite app_nil_r.
    + done.
    + by rewrite Hc.
  - intros s (rs & Hin & Hne & Hd) Hb _. unfold sniff_inbound. rewrite Hin. cbn [actionSniff].
    destruct (actionSniff_stream _ _ _ _) as [[buffer md'] rs'] eqn:E.
    pose proof (actionSniff_stream_conserves _ _ _ _ _ _ _ E) as Hc.
    rewrite Hb in Hd. cbn [concat app] in Hd.
    destruct buffer as [b|]; cbn in *; exists rs'; (split; [done|]); (split; [|cbn]).
    + apply Forall_singleton. by eapply actionSniff_stream_nonempty.
    + by rewrite app_nil_r, Hc.
    + by rewrite Hb.
    + by rewrite Hb, Hc.
  - intros md'. by exists reads.
Qed.

(** C4: no byte of a stream is lost on its way to an outbound, and what order the outbound reads them
    in is known.  [matchRule] leaves the buffers [mt_buffers s], one of each sniff that read
    something, in the order in which the sniffs read, and the reads that are left: together, these
    are the bytes the client sent.  The buffers are put back one in front of the other, so the
    outbound reads the last one first, each buffer as it was read, and then what is left: the bytes
    of the client in their order if at most one sniff read something, and the second buffer before
    the first one if two did.  [content] is what a connection gives to its reader; a cached
    connection gives its buffer first. *)
Theorem routed_bytes (content : RoutedConn → list byte) now (r : Router) md reads o i conn md' r' :
  (∀ reads, content (RawConn (StreamConn reads)) = stream_data reads) →
  (∀ c b, content (CachedConn c b) = b ++ content c) →
  (∀ rule, rule ∈ r_rules r → routing_rule rule) →
  routeConnection now r md reads = (Ok (Routed_Outbound o i conn md'), r') →
  ∃ selected s rest,
    matchRule r false false (md <| ic_Network := NetworkTCP |>) (StreamConn reads)
      = (Ok selected, s) ∧
    mt_input s = StreamConn rest ∧
    Forall (λ b, b ≠ []) (mt_buffers s) ∧
    concat (mt_buffers s) ++ stream_data rest = stream_data reads ∧
    content conn = concat (reverse (mt_buffers s)) ++ stream_data rest ∧
    ((length (mt_buffers s) ≤ 1)%nat → content conn = stream_data reads) ∧
    (∀ b1 b2, mt_buffers s = [b1; b2] →
       stream_data reads = b1 ++ b2 ++ stream_data rest ∧
       content conn = b2 ++ b1 ++ stream_data rest).
Proof.
  intros Hraw Hcached Hrules Hr.
  destruct (routeConnection_outbound _ _ _ _ _ _ _ _ _ Hrules Hr) as (sel & s & Hm & -> & _).
  match type of Hm with matchRule _ _ _ ?m _ = _ =>
    pose proof (matchRule_stream_kept r false false m reads) as Hk end.
  rewrite Hm in Hk. destruct Hk as (rest & Hin & Hne & Hd). cbn in Hin, Hne, Hd. rewrite Hin.
  assert (∀ bs c, content (cache_buffers c bs) = concat (reverse bs) ++ content c) as Hc.
  { unfold cache_buffers. induction bs as [|b bs IH]; intros c; [done|].
    cbn [fold_left]. rewrite IH, Hcached, reverse_cons, concat_app. cbn [concat].
    rewrite app_nil_r, <-app_assoc. done. }
  exists sel, s, rest. rewrite Hc, Hraw. split_and!; try done.
  - destruct (mt_buffers s) as [|b [|]]; cbn; [by intros _|intros _; by rewrite <-Hd|lia].
  - intros b1 b2 Hb. rewrite <-Hd, Hb. cbn. by rewrite !app_nil_r, <-!app_assoc.
Qed.

(** A packet that an earlier sniff kept is kept a second time by a later one that reads on:
    the outbound then gets it twice. *)
Theorem packet_sniff_duplicates action (s : Matching) reads md1 err packets reads' md2 :
  mt_input s = PacketConn reads → mt_packetBuffers s ≠ [] →
  sniff_skipped (mt_metadata s) = false → sniff_failed_before action (mt_metadata s) = false →
  nonempty (as_PacketSniffers action) = true →
  sniff_kept action (mt_packetBuffers s) (mt_metadata s) = (None, md1) →
  sniff_reads action reads (mt_packetBuffers s) md1 = (err, packets, reads', None, md2) →
  ∃ new, packets = mt_packetBuffers s ++ new ∧
    mt_packetBuffers (sniff_step action s).2 = mt_packetBuffers s ++ mt_packetBuffers s ++ new.
Proof.
  intros Hin Hne Hsk Hf Hps Hkept Hreads.
  assert (∃ new, packets = mt_packetBuffers s ++ new) as [new ->].
  { revert Hreads. generalize (mt_packetBuffers s). clear. revert md1.
    induction reads as [|[b d|e|e] reads IH]; intros md1 ps; cbn.
    - by intros [=].
    - destruct (sniff_packet action b md1) as [e1 m1]. destruct (needs_more e1).
      + intros (new & ->)%IH. exists ((b, d) :: new). by rewrite <-app_assoc.
      + intros [= _ <- _ _]. by exists [(b, d)].
    - destruct (errors_Is _ _); intros [= _ <- _ _]; exists []; by rewrite app_nil_r.
    - by intros [=]. }
  exists new. split; [done|]. unfold sniff_step. rewrite Hin. cbn [actionSniff].
  unfold actionSniff_packet. rewrite Hsk, Hps, Hf. cbn [negb andb]. rewrite Hkept, Hreads. cbn.
  destruct (mt_packetBuffers s); done.
Qed.


(** *** Matching ahead *)

(** The same match on another connection. *)
Definition on_input (input : Input) (s : Matching) : Matching :=
  mkMatching (mt_metadata s) (mt_buffers s) (mt_packetBuffers s) input.

Definition no_sniff (rule : Rule) : Prop := ∀ a, tree_action rule ≠ Some (RA_Sniff a).

Lemma match_step_on_input (r : Router) rule input s :
  match_step r rule (on_input input s) =
    ((match_step r rule s).1, on_input input (match_step r rule s).2).
Proof. unfold match_step. cbn. by destruct (Rule_Match _ _ _ _). Qed.

(** A bypass without an outbound: the one rule that only matches ahead, and only where bypassing is
    supported, for the connections of auto redirect. *)
Definition bypass_only (rule : Rule) : bool :=
  match tree_action rule with Some (RuleActionBypass outbound _) => String.eqb outbound "" | _ => false end.

Lemma rule_step_on_input (r : Router) pre pre' sup rule input s :
  no_sniff rule →
  rule_step r pre false rule (on_input input s) =
    (if sup && bypass_only rule then Continue else (rule_step r pre' sup rule s).1,
     on_input input (rule_step r pre' sup rule s).2).
Proof.
  unfold no_sniff, rule_step, bypass_only. intros Hns. destruct (tree_action rule) as [a|];
    [|by rewrite andb_false_r].
  destruct a; try (by rewrite andb_false_r).
  - cbn -[String.eqb]. destruct sup, (String.eqb _ _); reflexivity.
  - by destruct (Hns s0).
  - rewrite andb_false_r. cbn. by destruct (actionResolve _ _ _).
Qed.

(** The match of a connection after the match ahead: the same, but where that one selected a rule that
    only matches ahead it goes on behind this rule. *)
Definition after_prematch (r : Router) (sup : bool) (i : nat) (rules : list Rule) (input : Input)
    (a : res (option (nat * Rule)) * Matching) : res (option (nat * Rule)) * Matching :=
  match a.1 with
  | Ok (Some (j, rule)) =>
      if sup && bypass_only rule
      then match_rules r false false (S j) (drop (S (j - i)) rules) (on_input input a.2)
      else (a.1, on_input input a.2)
  | x => (x, on_input input a.2)
  end.

Lemma match_rules_index (r : Router) pre sup i rules s j rule s' :
  match_rules r pre sup i rules s = (Ok (Some (j, rule)), s') → (i ≤ j)%nat.
Proof. intros (bf & af & s1 & s2 & _ & -> & _)%match_rules_selected. lia. Qed.

Lemma match_rules_on_input (r : Router) sup i rules input s :
  Forall no_sniff rules →
  match_rules r false false i rules (on_input input s) =
    after_prematch r sup i rules input (match_rules r true sup i rules s).
Proof.
  intros Hns. revert i s. induction Hns as [|rule rules Hn _ IH]; intros i s; [done|].
  assert (∀ s, after_prematch r sup (S i) rules input (match_rules r true sup (S i) rules s) =
    after_prematch r sup i (rule :: rules) input (match_rules r true sup (S i) rules s)) as Hnext.
  { intros s0. unfold after_prematch. destruct (match_rules r true sup (S i) rules s0) as [[[[j x]|]| |] s1] eqn:E;
      [|done..]. apply match_rules_index in E. cbn [fst snd].
    replace (S (j - i)) with (S (S (j - S i))) by lia. done. }
  cbn [match_rules]. rewrite match_step_on_input. destruct (match_step r rule s) as [b s1]; cbn [fst snd].
  destruct b; cbn [negb]; [|by rewrite IH, Hnext].
  rewrite (rule_step_on_input r false true sup) by done.
  destruct (sup && bypass_only rule) eqn:Hb.
  - assert (∃ s2, rule_step r true sup rule s1 = (Select, s2)) as [s2 Hs2].
    { unfold bypass_only in Hb. unfold rule_step. destruct (tree_action rule) as [a|]; [|by rewrite andb_false_r in Hb].
      destruct a; try (by rewrite andb_false_r in Hb). cbn. destruct sup; [|done]. cbn. by eexists. }
    rewrite Hs2. unfold after_prematch. cbn [fst snd]. rewrite Hb, Nat.sub_diag. done.
  - destruct (rule_step r true sup rule s1) as [[| |[| |]] s2]; cbn [fst snd];
      [by rewrite IH, Hnext|unfold after_prematch; cbn [fst snd]; by rewrite Hb|done..].
Qed.

Lemma search_process_options (r : Router) md :
  ic_InboundOptions (search_process r md) = ic_InboundOptions md.
Proof. unfold search_process. repeat case_match; done. Qed.

Lemma restore_domain_options (r : Router) md m :
  restore_domain r md = Ok m → ic_InboundOptions m = ic_InboundOptions md.
Proof.
  unfold restore_domain. destruct (is_fakeip r md).
  - intros (loaded & _ & Hm)%bind_Ok. repeat case_match; by simplify_eq/=.
  - intros [= <-]. by repeat case_match.
Qed.

Lemma matchRule_on_input (r : Router) sup md input :
  Forall no_sniff (r_rules r) → io_SniffEnabled (ic_InboundOptions md) = false →
  matchRule r false false md input =
    after_prematch r sup 0 (r_rules r) input (matchRule r true sup md NoConn).
Proof.
  intros Hns Hse. unfold matchRule.
  destruct (restore_domain r (search_process r md)) as [m| |] eqn:Er; [|done..].
  apply restore_domain_options in Er. rewrite search_process_options in Er.
  set (m1 := note_ip_version m).
  assert (ic_InboundOptions m1 = ic_InboundOptions md) as Ho.
  { rewrite <-Er. unfold m1, note_ip_version. by repeat case_match. }
  assert (apply_inbound_options r false (mkMatching m1 [] [] input) =
    ((apply_inbound_options r true (mkMatching m1 [] [] NoConn)).1,
     on_input input (apply_inbound_options r true (mkMatching m1 [] [] NoConn)).2)) as ->.
  { unfold apply_inbound_options. cbn. rewrite Ho, Hse. cbn.
    destruct (decide (ic_InboundOptions md = InboundOptions_zero)); [done|]. rewrite Ho.
    by destruct (if decide _ then _ else _). }
  destruct (apply_inbound_options r true (mkMatching m1 [] [] NoConn)) as [[u| |] s];
    cbn [fst snd]; [|done..]. by apply match_rules_on_input.
Qed.

(** C20: without sniffing, matching ahead of the connection ([PreMatch]) and the match of the connection
    itself agree, but for bypassing.  The same rule is selected, or the same error returned, with the
    same metadata, whatever the connection, and nothing is read from the connection.  Where bypassing
    is supported, as for auto redirect, a bypass without an outbound is selected ahead that the match
    of a connection passes over: [PreMatch] then answers that the connection is bypassed, and a match
    of the connection goes on with the rules behind it, from the metadata that was left. *)
Theorem prematch_agrees (r : Router) sup md input :
  Forall no_sniff (r_rules r) → io_SniffEnabled (ic_InboundOptions md) = false →
  let a := matchRule r true sup md NoConn in
  let b := matchRule r false false md input in
  (mt_buffers b.2 = [] ∧ mt_input b.2 = input) ∧
  match a.1 with
  | Ok (Some (i, rule)) =>
      if sup && bypass_only rule then
        (∀ now routeContext, (PreMatch now r md routeContext sup).1 = Err (BypassedError ErrBypass)) ∧
        b = match_rules r false false (S i) (drop (S i) (r_rules r)) (on_input input a.2)
      else b.1 = a.1 ∧ mt_metadata b.2 = mt_metadata a.2
  | _ => b.1 = a.1 ∧ mt_metadata b.2 = mt_metadata a.2
  end.
Proof.
  intros Hns Hse a b. split.
  - subst b. rewrite (matchRule_on_input r false md input Hns Hse). unfold after_prematch.
    assert (mt_buffers (matchRule r true false md NoConn).2 = [] ∧
      mt_input (matchRule r true false md NoConn).2 = NoConn) as [Hb _].
    { apply (matchRule_inv (λ s, mt_buffers s = [] ∧ mt_input s = NoConn)); [done| | |done].
      - intros x s [Hb Hi]. unfold sniff_step. rewrite Hi. by cbn.
      - intros s [Hb Hi] _ _. unfold sniff_inbound. rewrite Hi. by cbn. }
    destruct ((matchRule r true false md NoConn).1) as [[[j rule]|]| |]; cbn; by rewrite Hb.
  - subst b. rewrite (matchRule_on_input r sup md input Hns Hse). unfold after_prematch.
    fold a. destruct a.1 as [[[i rule]|]| |] eqn:Ea; [|done..].
    destruct (sup && bypass_only rule) eqn:Hb; [|done]. rewrite Nat.sub_0_r. split; [|done].
    intros now rc. unfold PreMatch. fold a. destruct a as [x s]. cbn in Ea. subst x.
    unfold prematch_action. unfold bypass_only in Hb. destruct (tree_action rule) as [act|];
      [|by rewrite andb_false_r in Hb]. destruct act; try (by rewrite andb_false_r in Hb).
    by destruct sup.
Qed.

(** The rules that [NewRule] builds are routing rules. *)
Lemma NewRuleAction_routing o a :
  NewRuleAction o = Ok (Some a) →
  match a with RuleActionDNSRoute _ _ | RA_DNSRouteOptions _ | RA_Predefined _ => False
  | _ => True end.
Proof.
  destruct o; cbn; intros Ha; simplify_eq; try done.
  - apply bind_Ok in Ha as (? & _ & [= <-]). done.
  - apply bind_Ok in Ha as ([] & _ & [= <-]). done.
Qed.

Lemma NewRule_routing options b rule : NewRule options b = Ok rule → routing_rule rule.
Proof.
  assert (∀ (o : RuleActionOptions) oa a, wrap_err [AStr "action"] (NewRuleAction o) = Ok oa →
    oa = Some a → match a with RuleActionDNSRoute _ _ | RA_DNSRouteOptions _ | RA_Predefined _ =>
      False | _ => True end) as Hact.
  { intros o oa a Ho%wrap_err_Ok ->. by eapply NewRuleAction_routing. }
  destruct options as [type d l]. cbn [NewRule].
  destruct (_ || _).
  - destruct (negb _); [done|]. destruct (missing_outbound _ _); [done|].
    intros (r & Hr & <-)%fmap_Ok a Ha. unfold NewDefaultRule in Hr.
    apply bind_Ok in Hr as (act & Ho & Hb%build_steps_built).
    eapply Hact; [exact Ho|]. cbn in Ha. rewrite (built_action _ _ _ Hb) in Ha. done.
  - destruct (String.eqb type "logical"); [|done].
    intros (valid & _ & Hr)%bind_Ok. destruct (negb valid); [done|].
    destruct (missing_outbound _ _); [done|]. unfold NewLogicalRule in Hr.
    apply bind_Ok in Hr as (act & Ho & Hr). apply bind_Ok in Hr as (mode & _ & Hr).
    apply bind_Ok in Hr as (rules & _ & [= <-]). intros a Ha. by eapply Hact.
Qed.

End RouteTheorems.

(** *** Fake IP *)

Section FakeIPRouting.
Context `{ExtLib} `{ActionLib} `{Sniffers} `{RouteLib}.
Context {M : Type} `{OutboundLookup M} {S : Type} `{FakeIPStorageLaws S}.

(** C19: a connection to the address that the fake IP store created for a domain is matched as a
    connection to that domain at the same port, and keeps the address it was made to; a connection
    to an address of the store that has no record is refused. *)
Theorem fakeip_restored (store store' : Store S) (r : Router (M := M) (F := Store S)) domain six a md :
  store_ok store → Store_Create domain six store = (Ok a, store') → domain ≠ ""%string →
  r_FakeIP r = Some store' →
  (sa_Addr (ic_Destination md) = a →
   ∃ m, restore_domain r (search_process r md) = Ok m ∧
     ic_Destination m = mkSocksaddr AddrInvalid (sa_Port (ic_Destination md)) domain ∧
     ic_OriginDestination m = ic_Destination md ∧ ic_FakeIP m = true) ∧
  (Addr_IsValid (sa_Addr (ic_Destination md)) = true →
   Store_Contains store' (sa_Addr (ic_Destination md)) = true →
   Store_Lookup store' (sa_Addr (ic_Destination md)) = Ok None →
   ∃ e, restore_domain r (search_process r md) = Err e).
Proof.
  intros Hok Hc Hd Hf.
  destruct (Store_Create_spec _ _ _ _ _ Hok Hc) as (_ & Hfam & Hcont & Hl & _).
  assert (ic_Destination (search_process r md) = ic_Destination md) as Hdest.
  { unfold search_process. by repeat case_match. }
  unfold restore_domain, is_fakeip. rewrite Hf, Hdest. cbn. split.
  - intros Ha. rewrite Ha, Hcont.
    assert (Addr_IsValid a = true) as ->.
    { destruct a; [|done..]. exfalso. unfold Store_Contains, Prefix_Contains in Hcont. cbn in Hcont.
      rewrite !orb_true_r in Hcont. by repeat case_match. }
    cbn. rewrite Hl. cbn. rewrite (proj2 (String.eqb_neq domain "")) by done.
    eexists. split; [done|]. split; [done|]. split; [done|done].
  - intros Hv' Hc' Hl'. rewrite Hv', Hc'. cbn. rewrite Hl'. cbn. by eexists.
Qed.

End FakeIPRouting.


(** ** Concrete routers *)

Section Examples.

#[local] Instance ex_lib : ExtLib := SampleLib.
#[local] Instance ex_actions : ActionLib := SampleActions.
#[local] Instance ex_route : RouteLib := SampleRouteLib.
#[local] Instance ex_sniffers : Sniffers := SampleSniffers 4 (E_New [AStr "no match"]).

Definition sample_env : Env := mkEnv None [] [] None (mkWIFIState "" "") None (λ _, None).

(** A router over [sample_manager] with the given rules. *)
Definition sample_router (fakeip : option (Store MemoryStorage)) (rules : list Rule)
    : Router (M := Manager) (F := Store MemoryStorage) :=
  mkRouter (λ _, None) sample_manager (λ _ _ _, Ok [Addr4 1]) (λ _, None) (λ _, None) fakeip rules
    ∅ None (λ _, None) sample_env.

(** Rules that match everything. *)
Definition rule_with (a : RuleAction) : Rule := TDefault (new_rule false (Some a)).

Definition no_options : RuleActionRouteOptions :=
  mkRuleActionRouteOptions Socksaddr_zero 0 None [] [] 0 false false 0 false 0 false.

Definition set_port : Rule :=
  rule_with (RA_RouteOptions (mkRuleActionRouteOptions Socksaddr_zero 8443 None [] [] 0 false false 0
    false 0 false)).
Definition route_hop : Rule := rule_with (RuleActionRoute "hop" no_options).
Definition sniff_with (name : string) (s : StreamSniffer) : Rule :=
  rule_with (RA_Sniff (mkRuleActionSniff [name] [s] [] 0 false)).

Definition sample_request : InboundContext :=
  InboundContext_zero <| ic_Destination := mkSocksaddr (Addr4 0x0A000001) 443 "" |>.

Lemma sample_rules_routing rules :
  Forall (λ rule, rule = set_port ∨ rule = route_hop ∨ ∃ n s, rule = sniff_with n s) rules →
  ∀ fakeip rule, rule ∈ r_rules (sample_router fakeip rules) → routing_rule rule.
Proof.
  intros Hall fakeip rule Hin%list_elem_of_In. cbn in Hin. rewrite List.Forall_forall in Hall.
  destruct (Hall rule Hin) as [->|[->|(n & s & ->)]]; intros a [= <-]; done.
Qed.

Lemma matchRule_first_witness :
  ∃ s1 s2 s',
    let r := sample_router None [set_port; route_hop] in
    let before := mkMatching (note_ip_version sample_request) [] [] (StreamConn []) in
    passes r false false [set_port] before s1 ∧ match_step r route_hop s1 = (true, s2) ∧
    rule_step r false false route_hop s2 = (Select, s').
Proof.
  set (r := sample_router None [set_port; route_hop]).
  set (before := mkMatching (note_ip_version sample_request) [] [] (StreamConn [])).
  destruct (matchRule r false false sample_request (StreamConn [])) as [x s'] eqn:E.
  assert (x = Ok (Some (1%nat, route_hop))) as ->.
  { apply (f_equal fst) in E. cbn [fst] in E. rewrite <-E. reflexivity. }
  destruct (matchRule_first r false false sample_request (StreamConn []) before) as [Hsel _].
  - intros m Hm. assert (m = sample_request) as ->; [|reflexivity].
    change (Ok sample_request = Ok m) in Hm. congruence.
  - reflexivity.
  - destruct (proj1 (Hsel 1%nat route_hop s') E) as (_ & s1 & s2 & Hp & Hm & Hs).
    exists s1, s2, s'. split; [exact Hp|]. split; [exact Hm|exact Hs].
Defined.

Lemma routed_outbound_witness :
  let r := sample_router None [set_port; route_hop] in
  outbound_of r NetworkTCP (Some (sample_outbound 2 "hop" [])) (Some 1%nat).
Proof.
  intros r.
  destruct (routed_outbound 0 r sample_request) as [Htcp _].
  - apply sample_rules_routing. repeat (apply List.Forall_cons || apply List.Forall_nil); eauto.
  - eapply (Htcp []). reflexivity.
Defined.

(** What a reader of a cached connection gets. *)
Fixpoint sample_content (c : RoutedConn) : list byte :=
  match c with
  | RawConn (StreamConn reads) => stream_data reads
  | RawConn _ => []
  | CachedConn c b => b ++ sample_content c
  | CachedPacketConn c _ _ | NATPacketConn c _ _ => sample_content c
  end.

Definition two_sniffs : list Rule :=
  [sniff_with "tls" SS_TLSClientHello; sniff_with "ssh" SS_SSH; route_hop].

Definition three_reads : list StreamRead :=
  [SR_Data ["1"%byte]; SR_Data ["2"%byte]; SR_Data ["3"%byte]].

Definition routed_conn (x : res Routed) : option RoutedConn :=
  match x with Ok (Routed_Outbound _ _ c _) => Some c | _ => None end.

(** Two sniffs that recognise nothing: the outbound reads the first two bytes in the wrong order. *)
Example two_sniffs_reversed :
  sample_content <$> routed_conn (routeConnection 0 (sample_router None two_sniffs)
    sample_request three_reads).1 = Some ["2"%byte; "1"%byte; "3"%byte].
Proof. reflexivity. Qed.

Lemma routed_bytes_witness :
  ∃ c b1 b2 rest,
    routed_conn (routeConnection 0 (sample_router None two_sniffs) sample_request three_reads).1
      = Some c ∧
    stream_data three_reads = b1 ++ b2 ++ rest ∧ sample_content c = b2 ++ b1 ++ rest ∧
    b1 = ["1"%byte] ∧ b2 = ["2"%byte].
Proof.
  destruct (routeConnection 0 (sample_router None two_sniffs) sample_request three_reads)
    as [x r'] eqn:E.
  assert (match routed_conn x with Some _ => True | None => False end) as Hsome.
  { apply (f_equal fst) in E. cbn [fst] in E. rewrite <-E. vm_compute. exact I. }
  destruct x as [[o i c md'| | |]| |]; try (exfalso; exact Hsome).
  destruct (routed_bytes sample_content 0 (sample_router None two_sniffs) sample_request three_reads
    o i c md' r') as (sel & s & rest & Hm & _ & _ & _ & _ & _ & H2).
  - done.
  - done.
  - apply sample_rules_routing. repeat (apply List.Forall_cons || apply List.Forall_nil); eauto.
  - exact E.
  - assert (mt_buffers s = [["1"%byte]; ["2"%byte]]) as Hs.
    { apply (f_equal (λ p, mt_buffers p.2)) in Hm. cbn [snd] in Hm. rewrite <-Hm. vm_compute. reflexivity. }
    destruct (H2 _ _ Hs) as [H3 H4].
    exists c, ["1"%byte], ["2"%byte], (stream_data rest).
    split; [reflexivity|split; [exact H3|split; [exact H4|split; reflexivity]]].
Defined.

(** A bypass without an outbound between two rules: the match ahead stops at it, the connection goes
    on. *)
Definition bypass_rule : Rule := rule_with (RuleActionBypass "" no_options).

Lemma prematch_agrees_witness :
  let r := sample_router None [set_port; bypass_rule; route_hop] in
  (matchRule r true true sample_request NoConn).1 = Ok (Some (1%nat, bypass_rule)) ∧
  (PreMatch 0 r sample_request true true).1 = Err (BypassedError ErrBypass) ∧
  (matchRule r false false sample_request (StreamConn three_reads)).1 = Ok (Some (2%nat, route_hop)).
Proof.
  intros r. assert (Forall no_sniff (r_rules r)) as Hns by (repeat constructor; intros a; discriminate).
  destruct (prematch_agrees r true sample_request (StreamConn three_reads) Hns eq_refl) as [_ Ht].
  assert ((matchRule r true true sample_request NoConn).1 = Ok (Some (1%nat, bypass_rule))) as Ha
    by reflexivity.
  rewrite Ha in Ht. destruct Ht as [Hp Hb]. split; [exact Ha|]. split; [apply Hp|]. rewrite Hb. reflexivity.
Defined.

Lemma fakeip_restored_witness :
  let store := (Store_Create "a.test" false sample_store).2 in
  let md := InboundContext_zero <| ic_Destination := mkSocksaddr (Addr4 0xC6120003) 443 "" |> in
  ∃ m, restore_domain (sample_router (Some store) [])
         (search_process (sample_router (Some store) []) md) = Ok m ∧
    ic_Destination m = mkSocksaddr AddrInvalid 443 "a.test".
Proof.
  intros store md.
  destruct (fakeip_restored sample_store store (sample_router (Some store) []) "a.test" false
    (Addr4 0xC6120003) md) as [Hr _].
  - apply sample_store_ok.
  - unfold store. destruct (Store_Create "a.test" false sample_store) as [x s] eqn:E.
    apply (f_equal fst) in E. cbn [fst] in E. rewrite <-E. reflexivity.
  - done.
  - reflexivity.
  - destruct (Hr eq_refl) as (m & Hm & Hd & _). exists m. split; [exact Hm|exact Hd].
Defined.

End Examples.

Section PacketExample.

#[local] Instance ex2_lib : ExtLib := SampleLib.
#[local] Instance ex2_actions : ActionLib := SampleActions.
#[local] Instance ex2_sniffers : Sniffers := SampleSniffers 4 ErrNeedMoreData.

Lemma packet_sniff_duplicates_witness :
  let p1 := (["1"%byte], Socksaddr_zero) in
  let p2 := (["1"; "2"; "3"; "4"]%byte, Socksaddr_zero) in
  let action := mkRuleActionSniff ["quic"%string] [] [PS_QUICClientHello] 0 false in
  let s := mkMatching InboundContext_zero [] [p1] (PacketConn [PR_Packet p2.1 p2.2]) in
  mt_packetBuffers (sniff_step action s).2 = [p1; p1; p2].
Proof.
  intros p1 p2 action s.
  destruct (packet_sniff_duplicates action s [PR_Packet p2.1 p2.2]
    (note_sniff action (Some ErrNeedMoreData) InboundContext_zero) None [p1; p2] []
    (note_sniff action None
       (note_sniff action (Some ErrNeedMoreData) InboundContext_zero
          <| ic_Protocol := "sample"%string |>)))
    as (new & Hnew & Hdup);
    [reflexivity|discriminate|reflexivity|reflexivity|reflexivity|reflexivity|reflexivity|].
  rewrite Hdup. by injection Hnew as <-.
Defined.

End PacketExample.
